(* ===== verification/_CoqProject ===== *)
-Q . S2P
Prelude.v
Float32.v
CString.v
GpuTypes.v
GpuManager.v
GpuHealth.v
LogicalDevice.v
SchedTypes.v
WorkQueue.v
SchedSelect.v
Strategies.v
SfrTiling.v
Scheduler.v
Dispatch.v
LoadBalancer.v
SchedInvariant.v
Splitter.v
SyncPrims.v
CMem.v
MemTypes.v
Allocator.v
MemoryApi.v
MemLifetime.v
MemClient.v
MemSafety.v
MemData.v
MemAlloc.v
MemRuns.v
Config.v
ConfigText.v
ConfigTheory.v
ConfigRoundTrip.v
ConfigRuns.v
RustStd.v
RustFence.v
RustMemory.v
RustCapability.v
RustTracker.v
RustUnified.v
RustFenceManager.v
NtSync.v
NtMutex.v
Library.v
Api.v
Execution.v
Placement.v
ExecSubmit.v
Startup.v
Frames.v
LibraryRuns.v
RtDevices.v
RtScheduler.v
RtQueue.v
RtMemory.v
RtOwnership.v
RtIpc.v
RtAnswers.v
RtPeers.v
RtPeerTable.v
RtPower.v
RtPowerRounds.v
KernelMain.v
KernelTable.v
FramePacer.v
Coherency.v
CoherencyRange.v
CoherencySem.v
RtMetrics.v
MetricsHistory.v
UserIpc.v
UserIpcCalls.v
UserIpcRuns.v
VkIcd.v
VkHeap.v
VkLists.v
VkSpec.v
VkObjects.v
VkPools.v
VkDriver.v
VkRuns.v
