(* ===== verification/Prelude.v ===== *)
(** * MVGAL: a verification library for the Multi-Vendor GPU Aggregation Layer

    MVGAL presents several GPUs of different vendors as one.  Its userspace
    library has a GPU manager that scans the system and describes the GPUs, a
    scheduler that spreads workloads over them, a memory manager whose buffers
    the GPUs share, fences and semaphores, a configuration module, an engine
    that turns frames into workloads, and the public API that starts and stops
    them all.  The scheduler and the memory manager ask the GPU manager which
    GPUs exist and which are enabled; the engine plans a frame, submits it to
    the scheduler and moves its buffers with the memory manager.  Beside the
    library there is a daemon in C++ with a registry of GPUs, a scheduler and a
    memory manager of its own, which local clients reach through a socket and
    other nodes through datagrams.  Crates in Rust hold registries of fences,
    allocations and capabilities, and a compatibility layer gives the
    synchronisation objects of Windows NT.  A kernel module lists the display
    controllers of the PCI bus for userspace, and a frame pacer holds finished
    frames until their presentation time.  The library has a daemon of its own
    with a socket, and an engine that keeps CPU caches coherent with the GPUs.  A
    Vulkan driver shows the GPUs to an application as one device.

    The sources are translated function by function.  A C structure is a
    record with the same fields, an enumeration an inductive type (or the
    integer constants, where the code stores arbitrary integers in it), a
    pointer an address into a finite map that stands for the heap, an integer
    type a [Z] with its wrap written out, and a [float] a binary32 datum.  A
    function that changes state is a computation of the monad [M] below: it
    returns a result and a state, or it faults.  Faults are the undefined
    behaviours and hangs a call can run into: null and dangling pointers,
    accesses out of bounds, overflowing conversions, a lock taken twice, pages
    unmapped that belong to somebody else.  So "the call returns" in a theorem
    excludes all of these.

    ** Files

    - This file: machine integers and bit masks, record updates, outcomes and
      the monad, error codes, lemmas on lists and sums.
    - [Float32]: binary32 arithmetic, its order and the bounds that rounding
      keeps.  [CString]: number scanning of the C library.
      [CMem]: byte-addressed process memory with allocated blocks and file
      mappings, which are unmapped in pages of 4096 bytes.
    - The GPU manager, daemon/gpu_manager.c: [GpuTypes] (descriptors, defaults,
      completion of a scanned descriptor), [GpuManager] (scans, rescans,
      queries, enabling, callbacks), [GpuHealth] (health levels, the monitor,
      shutdown, and the manager as a transition system), [LogicalDevice]
      (selection and aggregated devices).
    - The scheduler, scheduler/scheduler.c: [SchedTypes] (workloads and module
      state), [WorkQueue] (the linked queues on a heap), [SchedSelect] (scores
      and selection), [Scheduler] (lifetime, dispatch, completion, submission,
      settings).  [Strategies] and [SfrTiling] are scheduler/strategy/*.c,
      [LoadBalancer] is load_balancer.c, [Splitter] workload_splitter.c.
      [Dispatch] and [SchedInvariant] hold the theorems on whole calls.
    - [SyncPrims]: memory/sync.c, fences and semaphores, with the threads that
      use them as a step relation.
    - The memory manager: [MemTypes] (memory_internal.h), [Allocator]
      (allocator.c and the storage half of dmabuf.c), [MemoryApi] (memory.c and
      the sharing half of dmabuf.c).  [MemLifetime] and [MemClient] hold the
      invariant and the proof that each call keeps it, [MemSafety] the theorems
      on lifetimes, [MemData] on contents, [MemAlloc] on allocation, [MemRuns]
      concrete runs.
    - The configuration, daemon/config.c: [Config] (settings, access by name,
      callbacks), [ConfigText] (the INI reader and writer, files, options),
      [ConfigTheory] and [ConfigRoundTrip] (theorems), [ConfigRuns] (runs).
    - The Rust crates, safe/ and runtime/safe/: [RustStd] (panics, locks,
      overflow checks, refinement of call sequences), [RustFence] (the fence
      registry), [RustMemory] (the allocation registry), [RustCapability] (the
      aggregate profile), [RustTracker] (the memory tracker), [RustUnified]
      (the capability model), [RustFenceManager] (fences and timelines).
    - NT synchronisation, compat/windows/mvgal_ntsync.c: [NtSync] (objects and
      waits), [NtMutex] (threads on a mutex).
    - The whole library: [Library] (the modules as one state), [Api]
      (api/mvgal_api.c), [Execution] (execution/execution.c), with the theorems
      in [Placement] (plans), [ExecSubmit] (submissions), [Startup] (start and
      stop), [Frames] (frames) and the runs in [LibraryRuns].
    - The C++ daemon, runtime/daemon/: [RtDevices] (device_registry.cpp),
      [RtScheduler] (scheduler.cpp and api/mvgal_ai.c) with [RtQueue],
      [RtMemory] (memory_manager.cpp) with [RtOwnership], [RtIpc] (the clients
      of ipc_server.cpp) with [RtAnswers], [RtPeers] (its discovery of nodes)
      with [RtPeerTable], [RtPower] (power_manager.cpp) with [RtPowerRounds],
      [RtMetrics] (metrics_collector.cpp) with [MetricsHistory].
    - The kernel module, kernel/mvgal_main.c: [KernelMain], with the
      specification and the theorems in [KernelTable].
    - [FramePacer]: steam/mvgal_frame_pacer.c, with its thread as a step
      relation.
    - The coherency engine, memory/coherency.c: [Coherency] (domains and cache
      maintenance) with [CoherencyRange], [CoherencySem] (its semaphores and
      the threads that use them).
    - The socket of the library's daemon, daemon/ipc.c and part of
      daemon/main.c: [UserIpc], with the theorems in [UserIpcCalls] and runs in
      [UserIpcRuns].
    - The Vulkan driver, vulkan_icd/icd_entry.c and physical_device.c: [VkIcd]
      (objects, devices and queues), [VkHeap] (its lists and blocks), [VkLists]
      (its loops), [VkSpec] (what it promises), [VkObjects], [VkPools] and
      [VkDriver] (the proofs), [VkRuns] (runs).

    ** What the theorems show

    - GPU manager: every reachable state is well formed (table sizes, ids,
      completed descriptors, a best GPU for each choice); rescans keep the
      choices of the user; selection is maximal; logical devices aggregate
      their members, and live from creation to destruction.
    - Queues: the doubly linked queue refines a list under any sequence of
      enqueues and removals.
    - Scheduler: a drain of the ready queue ends, completes every workload
      once and in priority order; a submission is complete when it returns;
      the chosen GPU is allowed, enabled, available and unbeaten; all API
      sequences keep the tables consistent; each strategy follows its policy
      (round robin, partition of the frame, task and offload rules).
    - Synchronisation: units of a semaphore are conserved, no wake-up is lost
      among unit waits, a sleeping fence waiter implies an unsignalled fence.
    - Memory: clients that use what they hold a reference to never fault,
      unless they make a mapping shorter than its buffer, which unmapping
      overruns; a buffer is freed exactly when its last user goes, the storage
      of the others is left alone, and no buffer is left over; a
      buffer refines an array of bytes and an alias is a window on its parent;
      a failed allocation changes nothing, a successful one is backed unless its
      size wraps around.
    - Configuration: settings stay well typed, a value set is the value read,
      what is saved is loaded again.
    - Library: it is up exactly while openings outnumber closings; the frames
      of the engine refine a set of open frames; a submission runs one workload
      by a sound plan and restores what it changed.
    - Rust crates: the registries refine arrays of entries under any sequence
      of calls; validated accesses of the tracker stay in their regions and
      apart; profiles and unified capabilities describe the GPUs they are
      computed from; packed versions round-trip.
    - Daemon: the sixteen queues refine one list and processing drains them
      in order of priority to the GPUs of the mode; the memory manager owns
      exactly what its allocations need; each request of an accepted client gets
      one answer with its number but for two that hang or are undefined, and a
      client of another user changes nothing; a
      discovery round keeps the table of peers and its sockets consistent and
      drops exactly the stale peers; a power round steps each GPU down by one
      state at most and keeps clocks and fans in range; the bounded history of
      metrics is the end of a log that forgets nothing.
    - Daemon socket: any requests of a client are answered in order by the
      library, and the client receives the answers.
    - Vulkan driver: any valid calls are answered as by a map of objects without
      lists or blocks, and nothing is left on the heap at the end.
    - Coherency: the values of semaphores follow their timelines, waits succeed
      at reached values only and a single waiter is never forgotten; a
      synchronisation reaches every line of a range whose ends do not spill
      into one more line, and no other line.
    - Kernel module: any calls on it are answered as by a list of the display
      controllers of the last scan, whatever fails in the kernel below it, and
      unloading takes back the device, its class, its numbers and the notifier
      (sysfs objects of an earlier scan can stay behind).
    - Frame pacer: frames leave in the order they were accepted, not early unless
      a signal interrupts a sleep, and none is lost while it runs; the thread
      never sleeps over a frame.
    - NT synchronisation: a mutex used with blocking calls is exclusive and
      loses no wake-up; the count of a semaphore is conserved.

    Some theorems show where the code falls short of its meaning: a workload of
    priority 0 is never taken and its submission never returns, a checkerboard
    of no width diverges, waits for several units can miss a wake-up, and
    destroying a primitive under a waiter faults.  The runs of [MemRuns],
    [ConfigRuns], [NtSync], [NtMutex], [LibraryRuns], [RtAnswers],
    [RtPeerTable], [KernelTable], [CoherencySem], [UserIpcRuns] and [VkRuns] show
    more.

    ** Bounds

    Loops over tables are structural.  Some need fuel, and the theorems prove
    it sufficient: the processing loops (one pass per queued workload, plus
    one), the walks over linked queues (the number of workloads on the heap,
    plus one), freeing along chains of aliases (the number of buffers), and
    reading from a socket (one pass per byte, since each reads one at least),
    the loop over cache lines (one pass per 64 bytes, plus one) and that over
    the requests of a client (one pass per request, plus one), and the walks over
    the command buffers of a pool (the number of objects on the heap, plus one).
    The daemon's wait for a workload returns at its first pass or never.
    The checkerboard loop has fuel for every region the table has room for.
    [print_digits] has fuel 20, the digits of a 64-bit number; a copy between
    GPUs falls back once, so fuel 2 covers it.  Running out of fuel is the
    outcome [NoFuel], which no theorem counts as returning.

    ** Parameters

    Code outside the repository is a class of functions the definitions take:
    [GpuOS] (files under /sys and /dev), [SchedEnv] (the clock and the
    allocator), [MemEnv] (system calls of the memory manager), [ConfigEnv]
    (allocations and writable files), [RustProfile] (whether overflow is
    checked), [HashOrder] (the order of hash tables), [Json] (a serialiser),
    and the callbacks of custom splitters.  Timer descriptors of the NT objects
    are arguments.  [ProcessEnv] holds the environment variables.
    The daemon has [host_files] (sysfs), [RtEnv] (the clock and one
    allocation), [RtMemOS] (mmap and dup) and [IpcEnv] (sends, credentials,
    structure layouts); what a socket delivers and the order of its hash tables
    are arguments.  The kernel module has [pci_dev] (what the PCI core knows of
    a device) and [KernelEnv] (allocation, registration, number parsing); the
    bus at each call is an argument.  [IpcLayout] is how two records lie in
    memory, and the pieces in which a socket hands out bytes are part of its
    state.  [IcdEnv] says which allocations of the Vulkan driver succeed.
    Theorems hold for every instance, or name what they rely on (such as
    allocations that succeed) as a hypothesis; each has a witness at a
    concrete instance.  Callbacks of the application are recorded, not run.

    ** Not modelled

    Logging (no decision depends on it).  Process start-up, the creation of
    sockets, D-Bus, graphical and command line programs, benchmarks and exporters, which are
    input and output around the library.  The interception layers and preload
    shims, which note a call with the scheduler and forward it to a library loaded
    at run time.
    The full-stack build of the kernel module (scheduler, fences, memory, vendor
    back ends), which does not compile: its scheduler uses a member that its
    workload structure lacks.  The default build that is modelled has a clash of
    its own: mvgal_core.h declares another structure with the name of the one
    that mvgal_main.c defines and uses; the latter is meant.  Of the Vulkan
    driver, the dispatch table and the tables of limits, features and
    extensions, which are data; its device groups, which nothing calls and whose
    constructor dereferences a null pointer; and the rewriting of command
    buffers, which is in no build file and names error codes that no header
    defines.  The power manager of
    the library, which is in no build file. *)

From Stdlib Require Export ZArith Lia.
From stdpp Require Export base tactics gmap numbers.
From stdpp Require Export list_basics list_relations list_monad list_misc list.

#[global] Open Scope Z_scope.

(** ** Machine integers

    A [w]-bit unsigned integer is a [Z]; every operation that can leave the
    range is followed by the wrap of its width. *)

Definition U32_MAX : Z := 4294967295.
Definition U64_MAX : Z := 18446744073709551615.

Definition u32 (z : Z) : Z := z mod 4294967296.
Definition u64 (z : Z) : Z := z mod 18446744073709551616.

(** The value of a 32-bit signed [int] that holds [z] modulo [2 ^ 32]. *)
Definition int32 (z : Z) : Z := (z + 2147483648) mod 4294967296 - 2147483648.

Definition is_u32 (z : Z) : Prop := 0 <= z <= U32_MAX.
Definition is_u64 (z : Z) : Prop := 0 <= z <= U64_MAX.

Create HintDb mvgal.

Lemma u32_range z : is_u32 (u32 z).
Proof.
  unfold is_u32, u32, U32_MAX.
  pose proof (Z.mod_pos_bound z 4294967296 ltac:(lia)). lia.
Qed.

Lemma u64_range z : is_u64 (u64 z).
Proof.
  unfold is_u64, u64, U64_MAX.
  pose proof (Z.mod_pos_bound z 18446744073709551616 ltac:(lia)). lia.
Qed.

Lemma u32_small z : is_u32 z -> u32 z = z.
Proof. unfold is_u32, u32, U32_MAX. intros. apply Z.mod_small. lia. Qed.

Lemma u64_small z : is_u64 z -> u64 z = z.
Proof. unfold is_u64, u64, U64_MAX. intros. apply Z.mod_small. lia. Qed.

Lemma u64_add_l a b : u64 (u64 a + b) = u64 (a + b).
Proof. unfold u64. apply Zplus_mod_idemp_l. Qed.

Lemma u64_sub_l a b : u64 (u64 a - b) = u64 (a - b).
Proof. unfold u64. apply Zminus_mod_idemp_l. Qed.

Lemma u32_add_l a b : u32 (u32 a + b) = u32 (a + b).
Proof. unfold u32. apply Zplus_mod_idemp_l. Qed.

#[export] Hint Resolve u32_range u64_range : mvgal.

(** ** Bit masks

    [mask & (1 << i)] tests of the sources, with [1 << i] written [bit i]. *)

Definition bit (i : Z) : Z := Z.shiftl 1 i.
Definition has_bit (mask i : Z) : bool := negb (Z.land mask (bit i) =? 0).
Definition has_flag (flags f : Z) : bool := negb (Z.land flags f =? 0).

(** [__builtin_popcount] of a 32-bit value. *)
Definition popcount32 (m : Z) : Z :=
  Z.of_nat (length (filter (fun i => Z.testbit m (Z.of_nat i) = true) (seq 0 32))).

Lemma bit_testbit i j : 0 <= i -> 0 <= j -> Z.testbit (bit i) j = (i =? j).
Proof.
  intros Hi Hj. unfold bit. rewrite Z.shiftl_1_l, Z.pow2_bits_eqb by lia.
  by destruct (Z.eqb_spec i j).
Qed.

Lemma land_bit m i : 0 <= i -> Z.land m (bit i) = if Z.testbit m i then bit i else 0.
Proof.
  intros Hi. apply Z.bits_inj'. intros j Hj.
  rewrite Z.land_spec, bit_testbit by lia.
  destruct (Z.eqb_spec i j) as [->|Hne].
  - rewrite andb_true_r. destruct (Z.testbit m j) eqn:E.
    + by rewrite bit_testbit, Z.eqb_refl by lia.
    + by rewrite Z.bits_0.
  - rewrite andb_false_r. destruct (Z.testbit m i).
    + rewrite bit_testbit by lia. symmetry. by apply Z.eqb_neq.
    + by rewrite Z.bits_0.
Qed.

Lemma bit_pos i : 0 <= i -> 0 < bit i.
Proof. intros. unfold bit. rewrite Z.shiftl_1_l. apply Z.pow_pos_nonneg; lia. Qed.

Lemma has_bit_testbit m i : 0 <= i -> has_bit m i = Z.testbit m i.
Proof.
  intros Hi. unfold has_bit. rewrite land_bit by lia.
  pose proof (bit_pos i Hi). destruct (Z.testbit m i); simpl; [|done].
  destruct (Z.eqb_spec (bit i) 0); [lia|done].
Qed.

(** ** Record update

    [r <| f := v |>] replaces one field and [r <| f ::= g |>] maps a function
    over it.  A record type joins in by an [Eta] instance that rebuilds a
    value from its projections. *)

Class Eta (R : Type) : Type := eta : R -> R.
Class Setter {R T : Type} (proj : R -> T) : Type := upd : (T -> T) -> R -> R.
Arguments upd {R T} proj {Setter} f r /.

Ltac solve_setter :=
  lazymatch goal with
  | |- @Setter ?R ?T ?proj =>
      let i := constr:(ltac:(typeclasses eauto) : Eta R) in
      let h := (eval hnf in i) in
      let f := fresh "f" in
      let r := fresh "r" in
      unfold Setter; intros f r;
      let e := (eval cbv beta in (h r)) in
      lazymatch (eval pattern (proj r) in e) with
      | ?g _ => let t := (eval cbv beta in (g (f (proj r)))) in exact t
      end
  end.
#[export] Hint Extern 1 (Setter _) => solve_setter : typeclass_instances.

Declare Scope mvgal_scope.
Delimit Scope mvgal_scope with mvgal.
#[global] Open Scope mvgal_scope.
Notation "r <| f := v |>" := (upd f (fun _ => v) r)
  (at level 1, f constr at next level, left associativity) : mvgal_scope.
Notation "r <| f ::= g |>" := (upd f g r)
  (at level 1, f constr at next level, left associativity) : mvgal_scope.

(** Function, data and structure pointers that are only compared, stored and
    followed are opaque addresses; NULL is [None]. *)
Abbreviation addr := positive.

(** ** Outcomes

    A C function either returns, runs into behaviour the language leaves
    undefined (or blocks for ever on a lock its own thread holds), or exceeds
    the step budget its model was given.  The three cases are kept apart so
    that no theorem can hold by running out of budget. *)

Inductive fault : Type :=
| NullDeref        (** a NULL pointer is dereferenced *)
| UseAfterFree     (** a pointer to a freed object is dereferenced or freed *)
| InvalidFree      (** a pointer that no allocation returned is freed *)
| OutOfBounds      (** an array or a buffer is accessed outside its bounds *)
| SelfDeadlock     (** a non-recursive lock is taken twice by one thread *)
| BadConversion    (** a float outside the target range is cast to an integer *)
| DivByZero        (** an integer division by zero *)
| BadShift         (** a shift by the width of the type or more *)
| BadBool          (** a byte other than 0 and 1 is read as a bool *)
| Uninitialised    (** a variable is read before it is written *)
| Uncaught         (** a C++ exception that no handler catches ends the process *)
| WrongMember      (** a member of a union is read that was not the one written *)
| SignedOverflow   (** a signed operation leaves the range of its type *)
| OverUnmap.       (** pages outside the caller's own mapping are unmapped *)

Inductive outcome (A : Type) : Type :=
| Ret (a : A)
| Fault (f : fault)
| NoFuel.
Arguments Ret {A} a.
Arguments Fault {A} f.
Arguments NoFuel {A}.

(** State-passing computations over a component state [S]. *)
Definition M (S A : Type) : Type := S -> outcome (A * S).

#[export] Instance M_ret S : MRet (M S) := fun A a s => Ret (a, s).
#[export] Instance M_bind S : MBind (M S) := fun A B f m s =>
  match m s with
  | Ret (a, s') => f a s'
  | Fault e => Fault e
  | NoFuel => NoFuel
  end.

Definition get {S : Type} : M S S := fun s => Ret (s, s).
Definition put {S : Type} (s : S) : M S unit := fun _ => Ret (tt, s).
Definition modify {S : Type} (f : S -> S) : M S unit := fun s => Ret (tt, f s).
Definition reads {S A : Type} (f : S -> A) : M S A := fun s => Ret (f s, s).
Definition fails {S A : Type} (e : fault) : M S A := fun _ => Fault e.
Definition of_option {S A : Type} (e : fault) (o : option A) : M S A :=
  fun s => match o with Some a => Ret (a, s) | None => Fault e end.

Lemma bind_ret {S A B : Type} (m : M S A) (f : A -> M S B) s a s' :
  m s = Ret (a, s') -> (m ≫= f) s = f a s'.
Proof. intros H. unfold mbind, M_bind. by rewrite H. Qed.

Lemma bind_inv {S A B : Type} (m : M S A) (f : A -> M S B) s b s'' :
  (m ≫= f) s = Ret (b, s'') ->
  exists a s', m s = Ret (a, s') /\ f a s' = Ret (b, s'').
Proof.
  unfold mbind, M_bind. destruct (m s) as [[a s']| |]; naive_solver.
Qed.

(** Total correctness: run from [s], the computation returns and its result
    satisfies [Q]. *)
Definition wp {S A : Type} (m : M S A) (Q : A -> S -> Prop) (s : S) : Prop :=
  match m s with Ret (a, s') => Q a s' | _ => False end.

Lemma wp_elim {S A : Type} (m : M S A) Q s :
  wp m Q s -> exists a s', m s = Ret (a, s') /\ Q a s'.
Proof. unfold wp. destruct (m s) as [[a s']| |]; naive_solver. Qed.

Lemma wp_intro {S A : Type} (m : M S A) (Q : A -> S -> Prop) s a s' :
  m s = Ret (a, s') -> Q a s' -> wp m Q s.
Proof. unfold wp. by intros ->. Qed.

Lemma wp_bind {S A B : Type} (m : M S A) (f : A -> M S B) Q s :
  wp m (fun a s' => wp (f a) Q s') s -> wp (m ≫= f) Q s.
Proof. unfold wp, mbind, M_bind. by destruct (m s) as [[a s']| |]. Qed.

Lemma wp_mono {S A : Type} (m : M S A) (P Q : A -> S -> Prop) s :
  wp m P s -> (forall a s', P a s' -> Q a s') -> wp m Q s.
Proof. unfold wp. destruct (m s) as [[a s']| |]; eauto. Qed.

Lemma wp_ret {S A : Type} (a : A) (Q : A -> S -> Prop) s : Q a s -> wp (mret a) Q s.
Proof. done. Qed.

Lemma wp_reads {S A : Type} (f : S -> A) (Q : A -> S -> Prop) s : Q (f s) s -> wp (reads f) Q s.
Proof. done. Qed.

Lemma wp_get {S : Type} (Q : S -> S -> Prop) s : Q s s -> wp get Q s.
Proof. done. Qed.

Lemma wp_modify {S : Type} (f : S -> S) (Q : unit -> S -> Prop) s : Q tt (f s) -> wp (modify f) Q s.
Proof. done. Qed.

Lemma wp_if {S A : Type} (b : bool) (m m' : M S A) Q s :
  (b = true -> wp m Q s) -> (b = false -> wp m' Q s) -> wp (if b then m else m') Q s.
Proof. destruct b; auto. Qed.

(** Reduces the head computation of a goal [prog s = _]. *)
Ltac mstep :=
  first
  [ erewrite bind_ret by (first [eassumption | reflexivity])
  | progress cbn [mbind M_bind mret M_ret get put modify reads fails of_option fst snd] ].
Ltac msimpl :=
  repeat progress (unfold mbind, M_bind, mret, M_ret, get, put, modify, reads,
                   fails, of_option in *; cbn [fst snd] in *).

(** ** Bytes of integers, in the order of the machine *)

Fixpoint le_bytes (k : nat) (z : Z) : list Z :=
  match k with O => [] | S k' => z mod 256 :: le_bytes k' (z / 256) end.
Definition le_val (l : list Z) : Z := foldr (fun b acc => b + 256 * acc) 0 l.

Lemma length_le_bytes k z : length (le_bytes k z) = k.
Proof. revert z. induction k; intros z; cbn; auto. Qed.

Lemma le_val_bytes k z : 0 <= z < 256 ^ Z.of_nat k -> le_val (le_bytes k z) = z.
Proof.
  revert z. induction k as [|k IH]; intros z Hz; [cbn in *; lia|].
  cbn [le_bytes]. change (le_val (z mod 256 :: le_bytes k (z / 256))) with (z mod 256 + 256 * le_val (le_bytes k (z / 256))).
  rewrite Nat2Z.inj_succ, Z.pow_succ_r in Hz by lia. rewrite IH.
  - pose proof (Z.div_mod z 256). lia.
  - split; [apply Z.div_pos; lia|]. apply Z.div_lt_upper_bound; lia.
Qed.

(** ** Error codes (include/mvgal/mvgal_types.h) *)

Inductive mvgal_error_t : Type :=
| MVGAL_SUCCESS
| MVGAL_ERROR_INVALID_ARGUMENT
| MVGAL_ERROR_OUT_OF_MEMORY
| MVGAL_ERROR_NOT_FOUND
| MVGAL_ERROR_TIMEOUT
| MVGAL_ERROR_UNSUPPORTED
| MVGAL_ERROR_BUSY
| MVGAL_ERROR_DEVICE_LOST
| MVGAL_ERROR_CONTEXT_LOST
| MVGAL_ERROR_NOT_INITIALIZED
| MVGAL_ERROR_ALREADY_INITIALIZED
| MVGAL_ERROR_INCOMPATIBLE
| MVGAL_ERROR_GPU_NOT_FOUND
| MVGAL_ERROR_NOT_SUPPORTED
| MVGAL_ERROR_DRIVER
| MVGAL_ERROR_MEMORY
| MVGAL_ERROR_INITIALIZATION
| MVGAL_ERROR_IPC
| MVGAL_ERROR_NO_GPUS
| MVGAL_ERROR_UNKNOWN
| MVGAL_ERROR_INTERRUPTED
| MVGAL_ERROR_SCHEDULER.

#[export] Instance mvgal_error_eq_dec : EqDecision mvgal_error_t.
Proof. solve_decision. Defined.

Definition is_success (e : mvgal_error_t) : bool :=
  match e with MVGAL_SUCCESS => true | _ => false end.

Lemma is_success_spec e : is_success e = true <-> e = MVGAL_SUCCESS.
Proof. by destruct e. Qed.

(** ** Distribution strategies and workload types *)

Inductive mvgal_distribution_strategy_t : Type :=
| MVGAL_STRATEGY_ROUND_ROBIN
| MVGAL_STRATEGY_AFR
| MVGAL_STRATEGY_SFR
| MVGAL_STRATEGY_AUTO
| MVGAL_STRATEGY_TASK
| MVGAL_STRATEGY_COMPUTE_OFFLOAD
| MVGAL_STRATEGY_HYBRID
| MVGAL_STRATEGY_SINGLE_GPU
| MVGAL_STRATEGY_AI_DRIVEN
| MVGAL_STRATEGY_CUSTOM.

#[export] Instance strategy_eq_dec : EqDecision mvgal_distribution_strategy_t.
Proof. solve_decision. Defined.

(** The generic workload types; every API-specific type of the enumeration
    is handled by the [default] branches and is carried by its number. *)
Inductive mvgal_workload_type_t : Type :=
| MVGAL_WORKLOAD_GRAPHICS
| MVGAL_WORKLOAD_COMPUTE
| MVGAL_WORKLOAD_VIDEO
| MVGAL_WORKLOAD_AI
| MVGAL_WORKLOAD_TRACE
| MVGAL_WORKLOAD_TRANSFER
| MVGAL_WORKLOAD_API_SPECIFIC (code : Z).

#[export] Instance workload_type_eq_dec : EqDecision mvgal_workload_type_t.
Proof. solve_decision. Defined.

(** Feature flags. *)
Definition MVGAL_FEATURE_DMA_BUF : Z := 1.
Definition MVGAL_FEATURE_CROSS_VENDOR : Z := 2.
Definition MVGAL_FEATURE_UNIFIED_MEMORY : Z := 4.
Definition MVGAL_FEATURE_P2P_TRANSFER : Z := 8.
Definition MVGAL_FEATURE_GRAPHICS : Z := 16.
Definition MVGAL_FEATURE_COMPUTE : Z := 32.
Definition MVGAL_FEATURE_VIDEO_DECODE : Z := 64.
Definition MVGAL_FEATURE_VIDEO_ENCODE : Z := 128.
Definition MVGAL_FEATURE_AI_ACCEL : Z := 256.
Definition MVGAL_FEATURE_RAY_TRACING : Z := 512.

(** [0xFFFFFFFF], used as "no GPU" and as "any GPU". *)
Definition NO_GPU : Z := 4294967295.
