(* ===== verification/Float32.v ===== *)
(** * Single-precision floating point

    The scheduler scores GPUs with C [float] arithmetic.  A [float] is an
    IEEE 754 binary32 datum of the standard library's executable
    specification [SpecFloat] (precision 24, maximal exponent 128), with no
    NaN payload; every operation rounds to nearest even once, as on targets
    that evaluate [float] expressions in single precision.  Decimal literals
    such as [0.1f] are the correctly rounded quotient of two integers that
    binary32 represents exactly.

    The lemmas give the order facts the selection loops need: the comparison
    is a strict partial order in which NaN is incomparable, and comparisons
    with a clamped value are decided. *)

From Corelib Require Import SpecFloat.
From S2P Require Import Prelude.

Definition f32 : Type := spec_float.

Definition fadd : f32 -> f32 -> f32 := SFadd 24 128.
Definition fsub : f32 -> f32 -> f32 := SFsub 24 128.
Definition fmul : f32 -> f32 -> f32 := SFmul 24 128.
Definition fdiv : f32 -> f32 -> f32 := SFdiv 24 128.
Definition flt : f32 -> f32 -> bool := SFltb.
Definition fle : f32 -> f32 -> bool := SFleb.
Definition fgt (a b : f32) : bool := flt b a.
Definition fge (a b : f32) : bool := fle b a.

(** Conversion of an integer to [float] (round to nearest even). *)
Definition f32_of_Z (z : Z) : f32 := binary_normalize 24 128 z 0 false.

(** The decimal literal [n / d] written with the suffix [f]. *)
Definition flit (n d : Z) : f32 := fdiv (f32_of_Z n) (f32_of_Z d).

Definition f0 : f32 := S754_zero false.
Definition f1 : f32 := f32_of_Z 1.

Definition is_nan (x : f32) : bool := match x with S754_nan => true | _ => false end.

(** Truncation of a finite value towards zero. *)
Definition f32_trunc (x : f32) : option Z :=
  match x with
  | S754_zero _ => Some 0
  | S754_finite s m e =>
      let a := if 0 <=? e then Z.pos m * 2 ^ e else Z.pos m / 2 ^ (- e) in
      Some (if s then - a else a)
  | _ => None
  end.

(** [(uint32_t)x] and [(uint64_t)x]: undefined when the truncated value is
    outside the range of the type (C17 6.3.1.4). *)
Definition f32_to_u32 (x : f32) : option Z :=
  match f32_trunc x with
  | Some z => if (0 <=? z) && (z <=? U32_MAX) then Some z else None
  | None => None
  end.

Definition f32_to_u64 (x : f32) : option Z :=
  match f32_trunc x with
  | Some z => if (0 <=? z) && (z <=? U64_MAX) then Some z else None
  | None => None
  end.

(** ** Order lemmas *)

(** Lexicographic comparison of two finite magnitudes. *)
Definition mag_compare (m1 : positive) (e1 : Z) (m2 : positive) (e2 : Z) : comparison :=
  match Z.compare e1 e2 with
  | Lt => Lt
  | Gt => Gt
  | Eq => Pos.compare_cont Eq m1 m2
  end.

Lemma mag_compare_lt m1 e1 m2 e2 :
  mag_compare m1 e1 m2 e2 = Lt <-> e1 < e2 \/ (e1 = e2 /\ (m1 < m2)%positive).
Proof.
  unfold mag_compare. change (Pos.compare_cont Eq m1 m2) with (m1 ?= m2)%positive.
  destruct (Z.compare_spec e1 e2); destruct (Pos.compare_spec m1 m2); split; intros; try done; lia.
Qed.

(** [x < y] as a proposition on the data. *)
Definition flt_prop (x y : f32) : Prop :=
  match x, y with
  | S754_nan, _ | _, S754_nan => False
  | S754_infinity s1, S754_infinity s2 => s1 = true /\ s2 = false
  | S754_infinity s, _ => s = true
  | _, S754_infinity s => s = false
  | S754_zero _, S754_zero _ => False
  | S754_zero _, S754_finite s _ _ => s = false
  | S754_finite s _ _, S754_zero _ => s = true
  | S754_finite true _ _, S754_finite false _ _ => True
  | S754_finite false _ _, S754_finite true _ _ => False
  | S754_finite false m1 e1, S754_finite false m2 e2 =>
      e1 < e2 \/ (e1 = e2 /\ (m1 < m2)%positive)
  | S754_finite true m1 e1, S754_finite true m2 e2 =>
      e2 < e1 \/ (e1 = e2 /\ (m2 < m1)%positive)
  end.

Lemma flt_spec x y : flt x y = true <-> flt_prop x y.
Proof.
  unfold flt, SFltb.
  destruct x as [[]|[]| |[] m1 e1], y as [[]|[]| |[] m2 e2]; simpl;
    try (split; intros; destruct_and?; done).
  - rewrite <- (Pos.compare_antisym m1 m2 : _ = CompOpp (Pos.compare_cont Eq m1 m2)).
    destruct (Z.compare_spec e1 e2); destruct (Pos.compare_spec m2 m1);
      split; intros; try done; lia.
  - rewrite <- mag_compare_lt. unfold mag_compare.
    destruct (Z.compare e1 e2), (Pos.compare_cont Eq m1 m2); naive_solver.
Qed.

Lemma flt_trans x y z : flt x y = true -> flt y z = true -> flt x z = true.
Proof.
  rewrite !flt_spec.
  destruct x as [[]|[]| |[] m1 e1], y as [[]|[]| |[] m2 e2], z as [[]|[]| |[] m3 e3];
    simpl; intros; destruct_and?; try done; lia.
Qed.

Lemma flt_irrefl x : flt x x = false.
Proof.
  destruct (flt x x) eqn:E; [|done]. apply flt_spec in E.
  destruct x as [[]|[]| |[] m e]; simpl in E; destruct_and?; try done; lia.
Qed.

Lemma flt_asym x y : flt x y = true -> flt y x = false.
Proof.
  intros H. destruct (flt y x) eqn:E; [|done].
  pose proof (flt_trans _ _ _ H E) as HH. by rewrite flt_irrefl in HH.
Qed.

(** A score that does not beat [b] does not beat anything above [b]. *)
Lemma fgt_mono a b c : fgt a b = false -> flt b c = true -> fgt a c = false.
Proof.
  unfold fgt. intros H1 H2. destruct (flt c a) eqn:E; [|done].
  by rewrite (flt_trans _ _ _ H2 E) in H1.
Qed.

(** Anything comparable lies above [x] or below [y]. *)
Lemma flt_cotrans x y z :
  is_nan z = false -> flt x y = true -> flt x z = false -> flt z y = true.
Proof.
  intros Hz Hxy Hxz. apply flt_spec. apply flt_spec in Hxy.
  assert (Hn : ~ flt_prop x z) by (rewrite <- flt_spec; congruence).
  destruct x as [[]|[]| |[] m1 e1], y as [[]|[]| |[] m2 e2], z as [[]|[]| |[] m3 e3];
    simpl in *; destruct_and?; try done; try (exfalso; apply Hn; done);
    lia.
Qed.

Lemma flt_total x y : is_nan x = false -> is_nan y = false ->
  flt x y = false -> fle y x = true.
Proof.
  intros Hx Hy H.
  destruct (fle y x) eqn:E; [done|]. exfalso.
  assert (Hn : ~ flt_prop x y) by (rewrite <- flt_spec; congruence).
  unfold fle, SFleb in E.
  destruct x as [[]|[]| |[] m1 e1], y as [[]|[]| |[] m2 e2]; simpl in *; try done.
  - rewrite <- (Pos.compare_antisym m2 m1 : _ = CompOpp (Pos.compare_cont Eq m2 m1)) in E.
    destruct (Z.compare_spec e2 e1), (Pos.compare_spec m1 m2); try done; apply Hn; lia.
  - change (Pos.compare_cont Eq m2 m1) with (m2 ?= m1)%positive in E.
    destruct (Z.compare_spec e2 e1), (Pos.compare_spec m2 m1); try done; apply Hn; lia.
Qed.

(** Negation reverses the order. *)
Definition fopp : f32 -> f32 := SFopp.

Lemma flt_opp x y : flt (fopp x) (fopp y) = flt y x.
Proof.
  unfold flt, fopp, SFltb.
  destruct x as [[]|[]| |[] m1 e1], y as [[]|[]| |[] m2 e2]; try reflexivity; cbn [SFopp SFcompare negb].
  all: repeat match goal with |- context [Pos.compare_cont Eq ?a ?b] =>
    change (Pos.compare_cont Eq a b) with (Pos.compare a b) end.
  all: rewrite (Z.compare_antisym e2 e1), (Pos.compare_antisym m2 m1);
    destruct (e2 ?= e1)%Z; try reflexivity; cbn; by destruct (m2 ?= m1)%positive.
Qed.

Lemma fle_not_flt x y : fle x y = true -> flt y x = false.
Proof.
  intros H. destruct (flt y x) eqn:E; [|done]. exfalso.
  apply flt_spec in E. unfold fle, SFleb in H.
  destruct x as [[]|[]| |[] m1 e1], y as [[]|[]| |[] m2 e2]; simpl in *; destruct_and?; try done.
  - rewrite <- (Pos.compare_antisym m1 m2 : _ = CompOpp (Pos.compare_cont Eq m1 m2)) in H.
    destruct (Z.compare_spec e1 e2), (Pos.compare_spec m2 m1); try done; lia.
  - change (Pos.compare_cont Eq m1 m2) with (m1 ?= m2)%positive in H.
    destruct (Z.compare_spec e1 e2), (Pos.compare_spec m1 m2); try done; lia.
Qed.

(** ** Double precision

    The GPU manager divides byte counts in [double] and narrows the result
    to [float]. *)

Definition f64_of_Z (z : Z) : spec_float := binary_normalize 53 1024 z 0 false.
Definition f64_div : spec_float -> spec_float -> spec_float := SFdiv 53 1024.

(** [(float)d] for a [double] [d]. *)
Definition f32_of_f64 (d : spec_float) : f32 :=
  match d with
  | S754_finite s m e => binary_round 24 128 s m e
  | _ => d
  end.

(** ** Selection loops

    The common loop of the code that picks a GPU: candidates are scanned in
    order, some are skipped, and a candidate replaces the best so far when its
    score compares strictly greater.  With [unseeded] the first candidate is
    taken whatever its score ([!found || score > best]); without it the loop
    starts from a bound the scores have to beat. *)

Section Argmax.
Context {A : Type} (unseeded : bool) (score : A -> option f32).

Definition argmax_step (acc : f32 * option A) (x : A) : f32 * option A :=
  match score x with
  | None => acc
  | Some sc =>
      if (unseeded && match acc.2 with None => true | Some _ => false end) || fgt sc acc.1
      then (sc, Some x) else acc
  end.

Definition argmax (init : f32) (l : list A) : f32 * option A :=
  foldl argmax_step (init, None) l.

Lemma argmax_snoc init l y : argmax init (l ++ [y]) = argmax_step (argmax init l) y.
Proof. unfold argmax. by rewrite foldl_app. Qed.

(** What the loop knows after the prefix [l]. *)
Definition argmax_inv (init : f32) (l : list A) (acc : f32 * option A) : Prop :=
  match acc.2 with
  | Some x =>
      exists i, l !! i = Some x /\ score x = Some acc.1
      /\ (forall y t, y ∈ l -> score y = Some t -> fgt t acc.1 = false)
      /\ (forall j y t, (j < i)%nat -> l !! j = Some y -> score y = Some t ->
            is_nan t = false -> fgt acc.1 t = true)
      /\ (unseeded = false -> fgt acc.1 init = true)
  | None =>
      acc.1 = init
      /\ forall y t, y ∈ l -> score y = Some t -> unseeded = false /\ fgt t init = false
  end.

Lemma argmax_inv_skip init l acc y :
  (forall t, score y = Some t ->
     fgt t acc.1 = false /\ (acc.2 = None -> unseeded = false)) ->
  argmax_inv init l acc -> argmax_inv init (l ++ [y]) acc.
Proof.
  intros Hy. unfold argmax_inv. destruct acc as [b [x|]]; simpl in *.
  - intros (i & Hi & Hs & Hmax & Hfirst & Hinit). exists i.
    pose proof (lookup_lt_Some _ _ _ Hi).
    split_and!; [by apply lookup_app_l_Some|done| | |done].
    + intros z t [Hz|Hz%list_elem_of_singleton]%elem_of_app Ht; [by eapply Hmax|].
      subst. by apply Hy.
    + intros j z t Hj. rewrite lookup_app_l by lia. by apply Hfirst.
  - intros [-> Hnone]. split; [done|].
    intros z t [Hz|Hz%list_elem_of_singleton]%elem_of_app Ht; [by eapply Hnone|].
    subst. destruct (Hy t Ht). auto.
Qed.

Lemma argmax_inv_take init l acc y sc :
  score y = Some sc ->
  (unseeded && match acc.2 with None => true | Some _ => false end) || fgt sc acc.1 = true ->
  argmax_inv init l acc -> argmax_inv init (l ++ [y]) (sc, Some y).
Proof.
  intros Hy Hgt Hinv. exists (length l).
  rewrite lookup_app_r, Nat.sub_diag by lia.
  assert (Hbeat : forall z t, z ∈ l -> score z = Some t ->
            fgt t sc = false /\ (is_nan t = false -> fgt sc t = true)).
  { intros z t Hz Ht. unfold argmax_inv in Hinv. destruct acc as [b [x|]]; simpl in *.
    - rewrite andb_false_r in Hgt. destruct Hinv as (i & _ & _ & Hmax & _).
      specialize (Hmax z t Hz Ht). split; [by eapply fgt_mono|].
      intros Hn. by eapply flt_cotrans.
    - destruct Hinv as [-> Hnone]. destruct (Hnone z t Hz Ht) as [Hu Hle].
      rewrite Hu in Hgt. simpl in Hgt. split; [by eapply fgt_mono|]. intros Hn. by eapply flt_cotrans. }
  split_and!; [done|done| | |].
  - intros z t [Hz|Hz%list_elem_of_singleton]%elem_of_app Ht; [by eapply Hbeat|].
    subst. rewrite Hy in Ht. simplify_eq. apply flt_irrefl.
  - intros j z t Hj. rewrite lookup_app_l by lia. intros Hz%list_elem_of_lookup_2 Ht.
    by eapply Hbeat.
  - intros Hu. unfold argmax_inv in Hinv. destruct acc as [b [x|]]; simpl in *; rewrite Hu in Hgt; simpl in Hgt.
    + destruct Hinv as (i & _ & _ & _ & _ & Hinit). by eapply flt_trans; [apply Hinit|].
    + by destruct Hinv as [-> _].
Qed.

Lemma argmax_inv_step init l acc y :
  argmax_inv init l acc -> argmax_inv init (l ++ [y]) (argmax_step acc y).
Proof.
  intros Hinv. unfold argmax_step. destruct (score y) as [sc|] eqn:Hy.
  - destruct (_ || _) eqn:E; [by eapply argmax_inv_take|].
    apply orb_false_iff in E as [E1 E2]. apply argmax_inv_skip; [|done].
    intros t Ht. simplify_eq. split; [done|]. intros Hn. rewrite Hn in E1.
    by rewrite andb_true_r in E1.
  - apply argmax_inv_skip; [congruence|done].
Qed.

Lemma argmax_spec init l : argmax_inv init l (argmax init l).
Proof.
  unfold argmax. induction l as [|y l IH] using rev_ind.
  - split; [done|]. by intros y t Hy%elem_of_nil.
  - rewrite foldl_app. simpl. by apply argmax_inv_step.
Qed.

(** [x] is a best candidate of [l] above the bound [init]. *)
Definition best_of (init : f32) (l : list A) (x : A) : Prop :=
  x ∈ l /\ exists sc, score x = Some sc /\ fgt sc init = true
  /\ forall y t, y ∈ l -> score y = Some t -> fgt t sc = false.

(** No candidate of [l] beats the bound [init]. *)
Definition none_above (init : f32) (l : list A) : Prop :=
  forall y t, y ∈ l -> score y = Some t -> fgt t init = false.

End Argmax.

Lemma argmax_bound {A} (score : A -> option f32) init l :
  match argmax false score init l with
  | (_, Some x) => best_of score init l x
  | (b, None) => b = init /\ none_above score init l
  end.
Proof.
  pose proof (argmax_spec false score init l) as Hinv. unfold argmax_inv in Hinv.
  destruct (argmax false score init l) as [b [x|]]; simpl in Hinv.
  - destruct Hinv as (i & Hi & Hs & Hmax & _ & Hb).
    split; [by eapply list_elem_of_lookup_2|]. exists b. auto.
  - destruct Hinv as [-> Hn]. split; [done|]. intros y t Hy Ht. by eapply Hn.
Qed.

(** ** Bounds of rounded results

    Rounding to binary32 does not leave an interval of small integers: a
    result whose exact value lies between two integers below [2 ^ 24] lies
    between them after rounding.  The arithmetic of the fan curves uses
    this. *)

Section with_integers.
Local Open Scope Z_scope.

Section bounds.
Context (L N : Z) (HL : 0 <= L) (HN : N < 2 ^ 24).

(** The exact value of a shifted mantissa, whose flags say whether bits were
    shifted out, is at least [L] and at most [N]. *)
Definition shifted (mrs : shr_record) (e : Z) : Prop :=
  0 <= shr_m mrs /\ L * 2 ^ (- e) <= shr_m mrs
  /\ if shr_r mrs || shr_s mrs then shr_m mrs < N * 2 ^ (- e) else shr_m mrs <= N * 2 ^ (- e).

Lemma pow_step e : e < 0 -> 2 ^ (- e) = 2 * 2 ^ (- (e + 1)).
Proof. intros He. rewrite <-Z.pow_succ_r by lia. f_equal. lia. Qed.

Lemma shr_1_shifted mrs e : e < 0 -> shifted mrs e -> shifted (shr_1 mrs) (e + 1).
Proof.
  intros He. unfold shifted. rewrite (pow_step e He). destruct mrs as [m r s]. set (X := 2 ^ (- (e + 1))).
  replace (L * (2 * X)) with (2 * (L * X)) by ring. replace (N * (2 * X)) with (2 * (N * X)) by ring.
  cbn [shr_m shr_r shr_s]. intros (H0 & H1 & H2).
  destruct m as [|[p|p|]|p]; cbn -[Z.mul]; destruct r, s; cbn -[Z.mul] in *; lia.
Qed.

Lemma iter_shifted p mrs e : e + Z.pos p <= 0 -> shifted mrs e -> shifted (SpecFloat.iter_pos shr_1 p mrs) (e + Z.pos p).
Proof.
  revert mrs e. induction p as [p IH|p IH|]; intros mrs e He Hs; cbn [SpecFloat.iter_pos].
  - replace (e + Z.pos p~1) with (e + 1 + Z.pos p + Z.pos p) by lia. apply IH; [lia|]. apply IH; [lia|].
    apply shr_1_shifted; [lia|done].
  - replace (e + Z.pos p~0) with (e + Z.pos p + Z.pos p) by lia. apply IH; [lia|]. apply IH; [lia|done].
  - apply shr_1_shifted; [lia|done].
Qed.

Lemma digits_pow p : 2 ^ (Z.pos (digits2_pos p) - 1) <= Z.pos p.
Proof.
  induction p as [p IH|p IH|]; cbn [digits2_pos]; [| |done].
  all: rewrite Pos2Z.inj_succ; replace (Z.succ (Z.pos (digits2_pos p)) - 1) with (Z.succ (Z.pos (digits2_pos p) - 1)) by lia;
    rewrite Z.pow_succ_r by lia; lia.
Qed.

Lemma digits_le m k : 0 <= k -> m < 2 ^ k -> 0 <= m -> Zdigits2 m <= k.
Proof.
  intros Hk Hm H0. destruct m as [|p|p]; cbn; [lia| |lia]. pose proof (digits_pow p).
  destruct (Z_lt_le_dec k (Z.pos (digits2_pos p))) as [Hlt|]; [|done].
  assert (2 ^ k <= 2 ^ (Z.pos (digits2_pos p) - 1)) by (apply Z.pow_le_mono_r; lia). lia.
Qed.

Lemma shr_fexp_shifted m e l :
  e <= 0 -> shifted (shr_record_of_loc m l) e ->
  let '(mrs, e') := shr_fexp 24 128 m e l in e' <= 0 /\ shifted mrs e'.
Proof.
  intros He Hs. unfold shr_fexp, shr.
  assert (Hd : fexp 24 128 (Zdigits2 m + e) <= 0).
  { unfold fexp, emin. assert (Zdigits2 m <= 24 - e); [|lia].
    assert (E : shr_m (shr_record_of_loc m l) = m) by (by destruct l as [|[]]).
    destruct Hs as (H0 & H1 & H2). rewrite E in *. apply digits_le; [lia| |done].
    assert (m <= N * 2 ^ (- e)) by (destruct (_ || _); lia). replace (24 - e) with (24 + - e) by lia.
    rewrite Z.pow_add_r by lia. assert (0 < 2 ^ (- e)) by (apply Z.pow_pos_nonneg; lia). nia. }
  destruct (fexp 24 128 (Zdigits2 m + e) - e) as [|p|p] eqn:En; [done| |done]. split; [lia|].
  apply iter_shifted; [lia|done].
Qed.

(** A magnitude between the two. *)
Definition bounded_by (sign : bool) (x : f32) : Prop :=
  match x with
  | S754_zero _ => L <= 0
  | S754_finite s m e => s = sign /\ e <= 0 /\ L * 2 ^ (- e) <= Z.pos m <= N * 2 ^ (- e)
  | _ => False
  end.

Lemma round_bounded sign m e l :
  e <= 0 -> shifted (shr_record_of_loc m l) e -> bounded_by sign (binary_round_aux 24 128 sign m e l).
Proof.
  intros He Hs. unfold binary_round_aux. pose proof (shr_fexp_shifted m e l He Hs) as H1.
  destruct (shr_fexp 24 128 m e l) as [mrs1 e1]. destruct H1 as [He1 Hs1].
  assert (Hr : shifted (shr_record_of_loc (round_nearest_even (shr_m mrs1) (loc_of_shr_record mrs1)) loc_Exact) e1).
  { destruct mrs1 as [m1 [] []]; unfold shifted in *; cbn in *; try destruct (Z.even m1); lia. }
  pose proof (shr_fexp_shifted _ _ _ He1 Hr) as H2.
  destruct (shr_fexp 24 128 _ e1 loc_Exact) as [mrs2 e2]. destruct H2 as [He2 (H0 & Hl & Hu)].
  assert (Hu' : shr_m mrs2 <= N * 2 ^ (- e2)) by (destruct (_ || _); lia). clear Hu.
  destruct (shr_m mrs2) as [|p|p] eqn:Em; [|rewrite (proj2 (Z.leb_le _ _)) by lia; done|lia].
  cbn. assert (0 < 2 ^ (- e2)) by (apply Z.pow_pos_nonneg; lia). nia.
Qed.

Lemma shift_pos p d : Z.pos (Pos.iter xO p d) = Z.pos p * 2 ^ Z.pos d.
Proof.
  induction d as [|d IH] using Pos.peano_ind; [cbn; lia|].
  rewrite Pos.iter_succ, Pos2Z.inj_succ, Z.pow_succ_r by lia. change (Z.pos (Pos.iter xO p d)~0) with (2 * Z.pos (Pos.iter xO p d)). lia.
Qed.

(** Shifting to a lower exponent keeps the value. *)
Lemma shl_align_value p e e' :
  let '(q, f) := shl_align p e e' in f = Z.min e e' /\ Z.pos q = Z.pos p * 2 ^ (e - f).
Proof.
  unfold shl_align. destruct (e' - e) as [|d|d] eqn:E.
  - split; [lia|]. by rewrite Z.sub_diag, Z.mul_1_r.
  - split; [lia|]. by rewrite Z.sub_diag, Z.mul_1_r.
  - split; [lia|]. rewrite shift_pos. do 2 f_equal. lia.
Qed.

Lemma exact_shifted m e : 0 <= m -> L * 2 ^ (- e) <= m <= N * 2 ^ (- e) -> shifted (shr_record_of_loc m loc_Exact) e.
Proof. intros H0 H1. unfold shifted. cbn. lia. Qed.

Lemma scale e f z : f <= e <= 0 -> z * 2 ^ (- f) = z * 2 ^ (- e) * 2 ^ (e - f).
Proof. intros He. rewrite <-Z.mul_assoc, <-Z.pow_add_r by lia. do 2 f_equal. lia. Qed.

Lemma binary_round_bounded sign p e :
  e <= 0 -> L * 2 ^ (- e) <= Z.pos p <= N * 2 ^ (- e) -> bounded_by sign (binary_round 24 128 sign p e).
Proof.
  intros He Hp. unfold binary_round. pose proof (shl_align_value p e (fexp 24 128 (Z.pos (digits2_pos p) + e))) as Ha.
  destruct (shl_align _ _ _) as [q f]. destruct Ha as [Hf Hq]. apply round_bounded; [lia|]. apply exact_shifted; [lia|].
  rewrite Hq, !(scale e f) by lia. assert (0 < 2 ^ (e - f)) by (apply Z.pow_pos_nonneg; lia). nia.
Qed.
End bounds.

(** An integer below [2 ^ 24] is exact. *)
Definition is_int (z : Z) (x : f32) : Prop :=
  match x with
  | S754_zero _ => z = 0
  | S754_finite s m e => s = (z <? 0) /\ e <= 0 /\ Z.pos m = Z.abs z * 2 ^ (- e)
  | _ => False
  end.

Lemma f32_of_Z_int z : Z.abs z < 2 ^ 24 -> is_int z (f32_of_Z z).
Proof.
  intros Hz. unfold f32_of_Z, binary_normalize. destruct z as [|p|p]; [done| |].
  - pose proof (binary_round_bounded (Z.pos p) (Z.pos p) ltac:(lia) Hz false p 0 ltac:(lia) ltac:(lia)) as Hb.
    destruct (binary_round _ _ _ _ _); cbn [bounded_by is_int Z.abs] in *; [lia|done..|]. destruct Hb as (-> & ? & ?). split_and!; [done|done|lia].
  - pose proof (binary_round_bounded (Z.pos p) (Z.pos p) ltac:(lia) Hz true p 0 ltac:(lia) ltac:(lia)) as Hb.
    destruct (binary_round _ _ _ _ _); cbn [bounded_by is_int Z.abs] in *; [lia|done..|]. destruct Hb as (-> & ? & ?). split_and!; [done|done|lia].
Qed.

Lemma digits_lt p : Z.pos p < 2 ^ Z.pos (digits2_pos p).
Proof.
  induction p as [p IH|p IH|]; cbn [digits2_pos]; [| |done]; rewrite Pos2Z.inj_succ, Z.pow_succ_r by lia; lia.
Qed.

(** ** Operations *)

(** A quotient of integers [0 <= a <= b] is at most 1. *)
Lemma fdiv_unit a b : 0 <= a <= b -> 0 < b < 2 ^ 24 -> bounded_by 0 1 false (fdiv (f32_of_Z a) (f32_of_Z b)).
Proof.
  intros Ha Hb. pose proof (f32_of_Z_int a ltac:(lia)) as HA. pose proof (f32_of_Z_int b ltac:(lia)) as HB.
  destruct (f32_of_Z b) as [?|?| |s2 m2 e2]; [cbn in HB; lia|done|done|]. destruct HB as (-> & He2 & Hm2).
  destruct (f32_of_Z a) as [?|?| |s1 m1 e1]; [done|done|done|]. destruct HA as (-> & He1 & Hm1).
  unfold fdiv, SFdiv, SFdiv_core_binary. rewrite !(proj2 (Z.ltb_ge _ _)) by lia. cbv zeta. cbn [xorb Zdigits2].
  set (e' := Z.min _ _). set (sh := e1 - e2 - e').
  assert (P1 : 0 < 2 ^ (- e1)) by (apply Z.pow_pos_nonneg; lia). assert (P2 : 0 < 2 ^ (- e2)) by (apply Z.pow_pos_nonneg; lia).
  assert (He' : e' <= 0).
  { assert (H1 : Z.pos (digits2_pos m1) <= 24 - e1).
    { apply (digits_le (Z.pos m1)); [lia| |lia]. replace (24 - e1) with (24 + - e1) by lia. rewrite Z.pow_add_r by lia. nia. }
    assert (H2 : - e2 < Z.pos (digits2_pos m2)).
    { apply (Z.pow_lt_mono_r_iff 2); [lia|lia|]. pose proof (digits_lt m2). nia. }
    unfold e', fexp, emin. lia. }
  assert (Hsh : 0 <= sh) by (unfold sh, e'; lia).
  assert (Em : match sh with Z0 => Z.pos m1 | Z.pos _ => Z.shiftl (Z.pos m1) sh | Z.neg _ => 0 end = Z.pos m1 * 2 ^ sh).
  { rewrite <-Z.shiftl_mul_pow2 by done. destruct sh; [by rewrite Z.shiftl_0_r|done|lia]. }
  rewrite Em. assert (Hle : Z.pos m1 * 2 ^ sh <= Z.pos m2 * 2 ^ (- e')).
  { rewrite Hm1, Hm2, !Z.abs_eq, <-!Z.mul_assoc, <-!Z.pow_add_r by (unfold sh in *; lia).
    replace (- e1 + sh) with (- e2 + - e') by (unfold sh; lia). apply Z.mul_le_mono_nonneg_r; [|lia].
    apply Z.pow_nonneg. lia. }
  assert (0 < 2 ^ sh) by (apply Z.pow_pos_nonneg; lia).
  pose proof (Z.div_eucl_eq (Z.pos m1 * 2 ^ sh) (Z.pos m2) ltac:(lia)) as Hdiv.
  pose proof (Z.mod_pos_bound (Z.pos m1 * 2 ^ sh) (Z.pos m2) ltac:(lia)) as Hmod. unfold Z.modulo in Hmod.
  destruct (Z.div_eucl _ _) as [q r]. apply round_bounded; [done..|].
  assert (0 <= q) by nia. unfold new_location, new_location_even, new_location_odd, shifted.
  destruct (Z.even _), (Z.eqb_spec r 0); cbn [shr_record_of_loc shr_m shr_r shr_s orb];
    repeat match goal with |- context [match ?c with Eq => _ | _ => _ end] => destruct c end;
    cbn [shr_record_of_loc shr_m shr_r shr_s orb]; nia.
Qed.

Lemma fmul_bounded t x d :
  Z.abs d < 2 ^ 24 -> bounded_by 0 1 false t -> is_int d x -> bounded_by 0 (Z.abs d) (d <? 0) (fmul t x).
Proof.
  intros Hd Ht Hx. destruct t as [?|?| |s1 m1 e1], x as [?|?| |s2 m2 e2]; try done.
  destruct Ht as (-> & He1 & Hm1), Hx as (-> & He2 & Hm2). unfold fmul, SFmul. cbn [xorb].
  apply round_bounded; [lia|lia|]. apply exact_shifted; [lia|]. rewrite Z.mul_0_l. split; [lia|].
  rewrite Pos2Z.inj_mul, Hm2, Z.opp_add_distr, Z.pow_add_r by lia.
  assert (0 < 2 ^ (- e2)) by (apply Z.pow_pos_nonneg; lia). nia.
Qed.

(** A sum whose exact value stays between 0 and [K]. *)
Lemma fadd_bounded x y s d K :
  0 <= s <= K -> 0 <= s + d <= K -> K < 2 ^ 24 -> is_int s x -> bounded_by 0 (Z.abs d) (d <? 0) y -> bounded_by 0 K false (fadd x y).
Proof.
  intros Hs Hsd HK Hx Hy. destruct x as [b1|?| |s1 m1 e1], y as [b2|?| |s2 m2 e2]; try done.
  - by destruct b1, b2.
  - cbn in Hx. subst s. destruct Hy as (-> & He & Hm). cbn. rewrite (proj2 (Z.ltb_ge _ _)) by lia. split_and!; [done|done|lia|].
    assert (0 < 2 ^ (- e2)) by (apply Z.pow_pos_nonneg; lia). nia.
  - destruct Hx as (-> & He & Hm). cbn. rewrite (proj2 (Z.ltb_ge _ _)) by lia. split_and!; [done|done|lia|].
    assert (0 < 2 ^ (- e1)) by (apply Z.pow_pos_nonneg; lia). nia.
  - destruct Hx as (-> & He1 & Hm1), Hy as (-> & He2 & Hm2). unfold fadd, SFadd. cbv zeta. set (ez := Z.min e1 e2).
    rewrite (proj2 (Z.ltb_ge s 0)) by lia. cbn [cond_Zopp].
    pose proof (shl_align_value m1 e1 ez) as A1. pose proof (shl_align_value m2 e2 ez) as A2.
    destruct (shl_align m1 e1 ez) as [q1 f1], (shl_align m2 e2 ez) as [q2 f2]. cbn [fst] in *.
    destruct A1 as [-> Hq1], A2 as [-> Hq2]. replace (Z.min e1 ez) with ez in Hq1 by lia. replace (Z.min e2 ez) with ez in Hq2 by lia.
    assert (P : 0 < 2 ^ (- ez)) by (apply Z.pow_pos_nonneg; lia).
    assert (P2 : 0 < 2 ^ (e2 - ez)) by (apply Z.pow_pos_nonneg; lia).
    assert (V1 : Z.pos q1 = s * 2 ^ (- ez)) by (rewrite Hq1, Hm1, (scale e1 ez s), Z.abs_eq by lia; done).
    assert (V2 : Z.pos q2 <= Z.abs d * 2 ^ (- ez)) by (rewrite Hq2, (scale e2 ez (Z.abs d)) by lia; nia).
    assert (V : 0 <= Z.pos q1 + cond_Zopp (d <? 0) (Z.pos q2) <= K * 2 ^ (- ez)).
    { unfold cond_Zopp. destruct (Z.ltb_spec d 0); nia. }
    unfold binary_normalize. destruct (Z.pos q1 + _) as [|p|p]; [done| |lia]. apply binary_round_bounded; lia.
Qed.

Lemma trunc_bounded K x : 0 <= K -> bounded_by 0 K false x -> exists r, f32_trunc x = Some r /\ 0 <= r <= K.
Proof.
  intros HK Hx. destruct x as [?|?| |s m e]; try done; [exists 0; by split|]. destruct Hx as (-> & He & Hm). eexists. split; [reflexivity|].
  assert (0 < 2 ^ (- e)) by (apply Z.pow_pos_nonneg; lia). destruct (Z.leb_spec 0 e).
  - replace e with 0 in * by lia. cbn in *. lia.
  - split; [apply Z.div_pos; lia|]. apply Z.div_le_upper_bound; lia.
Qed.

(** A linear interpolation between two integers, rounded at every step, stays
    within any bounds of the two. *)
Lemma interpolation_bounded t x s d K :
  0 <= s <= K -> 0 <= s + d <= K -> K < 2 ^ 24 -> bounded_by 0 1 false t -> is_int d x ->
  exists r, f32_trunc (fadd (f32_of_Z s) (fmul t x)) = Some r /\ 0 <= r <= K.
Proof.
  intros Hs Hsd HK Ht Hx. apply trunc_bounded; [lia|]. apply (fadd_bounded _ _ s d); [done..|apply f32_of_Z_int; lia|].
  apply fmul_bounded; [lia|done..].
Qed.

End with_integers.
