(* ===== verification/CString.v ===== *)
(** * C library text scanning

    The functions of the C library the sources apply to text they read:
    [strcspn] on line ends, [strtoull] in base 0 and the [%x] conversion of
    [sscanf].  Strings hold no NUL. *)

From S2P Require Import Prelude.
From stdpp Require Import strings.
From Stdlib Require Import Ascii.
Local Open Scope Z_scope.

Definition code (c : ascii) : Z := Z.of_N (N_of_ascii c).

(** [isspace] in the C locale. *)
Definition is_space (c : ascii) : bool := (code c =? 32) || ((9 <=? code c) && (code c <=? 13)).

Definition digit_val (c : ascii) : option Z :=
  let n := code c in
  if (48 <=? n) && (n <=? 57) then Some (n - 48)
  else if (97 <=? n) && (n <=? 122) then Some (n - 87)
  else if (65 <=? n) && (n <=? 90) then Some (n - 55)
  else None.

Definition is_digit (base : Z) (c : ascii) : bool :=
  match digit_val c with Some d => d <? base | None => false end.

Fixpoint skip_spaces (s : string) : string :=
  match s with
  | String c s' => if is_space c then skip_spaces s' else s
  | EmptyString => s
  end.

(** The longest run of digits: its value (unbounded) and what follows. *)
Fixpoint scan_digits (base : Z) (s : string) (acc : Z) : Z * string :=
  match s with
  | String c s' =>
      match digit_val c with
      | Some d => if d <? base then scan_digits base s' (acc * base + d) else (acc, s)
      | None => (acc, s)
      end
  | EmptyString => (acc, s)
  end.

Definition starts_digit (base : Z) (s : string) : bool :=
  match s with String c _ => is_digit base c | EmptyString => false end.

(** An optional sign; the flag is [true] for a minus. *)
Definition scan_sign (s : string) : bool * string :=
  match s with
  | String c s' =>
      if code c =? 45 then (true, s') else if code c =? 43 then (false, s') else (false, s)
  | EmptyString => (false, s)
  end.

(** A "0x" prefix that a hexadecimal digit follows. *)
Definition scan_0x (s : string) : option string :=
  match s with
  | String c1 (String c2 s') =>
      if (code c1 =? 48) && ((code c2 =? 120) || (code c2 =? 88)) && starts_digit 16 s'
      then Some s' else None
  | _ => None
  end.

(** [strtoull(s, &end, 0)]: [None] when no conversion is made ([end == s]),
    otherwise the value, [None] inside for ERANGE. *)
Definition strtoull0 (s : string) : option (option Z) :=
  let '(neg, s) := scan_sign (skip_spaces s) in
  let scanned :=
    match scan_0x s with
    | Some s' => Some (scan_digits 16 s' 0).1
    | None =>
        let base := match s with String c _ => if code c =? 48 then 8 else 10 | _ => 10 end in
        if starts_digit base s then Some (scan_digits base s 0).1 else None
    end in
  match scanned with
  | None => None
  | Some v => Some (if v <=? U64_MAX then Some (if neg then u64 (- v) else v) else None)
  end.

(** The [%x] conversion into an [unsigned int]: the value and the rest. *)
Definition scan_hex (s : string) : option (Z * string) :=
  let '(neg, s) := scan_sign (skip_spaces s) in
  let s := default s (scan_0x s) in
  if starts_digit 16 s then
    let '(v, rest) := scan_digits 16 s 0 in
    Some (u32 (if neg then - v else v), rest)
  else None.

(** A literal character of a [sscanf] format. *)
Definition expect (c : ascii) (s : string) : option string :=
  match s with
  | String c' s' => if bool_decide (c = c') then Some s' else None
  | EmptyString => None
  end.

(** [sscanf(s, "%x:%x:%x.%x", ...) == 4]. *)
Definition scan_pci (s : string) : option (Z * Z * Z * Z) :=
  '(d, s) ← scan_hex s;
  s ← expect ":" s;
  '(b, s) ← scan_hex s;
  s ← expect ":" s;
  '(v, s) ← scan_hex s;
  s ← expect "." s;
  '(f, s) ← scan_hex s;
  Some (d, b, v, f).

(** [s[strcspn(s, "\r\n")] = 0]. *)
Fixpoint cut_line (s : string) : string :=
  match s with
  | String c s' => if (code c =? 13) || (code c =? 10) then EmptyString else String c (cut_line s')
  | EmptyString => EmptyString
  end.

Lemma scan_digits_nonneg base s acc :
  0 <= base -> 0 <= acc -> 0 <= (scan_digits base s acc).1.
Proof.
  intros Hb. revert acc. induction s as [|c s IH]; intros acc Ha; simpl; [done|].
  destruct (digit_val c) as [d|] eqn:Hd; [|done]. destruct (d <? base); [|done].
  apply IH. enough (0 <= d) by nia. revert Hd. unfold digit_val.
  repeat case_match; intros; simplify_eq; rewrite ?andb_true_iff, ?Z.leb_le in *; lia.
Qed.

(** A value [strtoull] delivers is an [unsigned long long]. *)
Lemma strtoull0_range s v : strtoull0 s = Some (Some v) -> is_u64 v.
Proof.
  unfold strtoull0. destruct (scan_sign (skip_spaces s)) as [neg s1].
  set (scanned := match scan_0x s1 with Some _ => _ | None => _ end).
  assert (Hs : forall w, scanned = Some w -> 0 <= w).
  { intros w. unfold scanned. repeat case_match; intros; simplify_eq;
      apply scan_digits_nonneg; lia. }
  destruct scanned as [w|]; [|done]. specialize (Hs w eq_refl).
  destruct (Z.leb_spec w U64_MAX); [|done]. intros [= <-].
  destruct neg; [apply u64_range|by split].
Qed.
