(* ===== verification/GpuTypes.v ===== *)
(** * GPU descriptors

    The enumerations and the descriptor of include/mvgal/mvgal_gpu.h and
    include/mvgal/mvgal_types.h, with the default tables and the completion of
    a scanned descriptor from src/userspace/daemon/gpu_manager.c. *)

From S2P Require Import Prelude Float32.
From stdpp Require Import strings pretty.
Local Open Scope Z_scope.

Inductive mvgal_vendor_t : Type :=
| MVGAL_VENDOR_UNKNOWN
| MVGAL_VENDOR_AMD
| MVGAL_VENDOR_NVIDIA
| MVGAL_VENDOR_INTEL
| MVGAL_VENDOR_MOORE_THREADS
| MVGAL_VENDOR_QUALCOMM
| MVGAL_VENDOR_ARM
| MVGAL_VENDOR_BROADCOM.

#[export] Instance vendor_eq_dec : EqDecision mvgal_vendor_t.
Proof. solve_decision. Defined.

(** [MVGAL_GPU_TYPE_NONE] is the zero of a cleared descriptor, which the
    enumeration leaves unnamed. *)
Inductive mvgal_gpu_type_t : Type :=
| MVGAL_GPU_TYPE_NONE
| MVGAL_GPU_TYPE_DISCRETE
| MVGAL_GPU_TYPE_INTEGRATED
| MVGAL_GPU_TYPE_VIRTUAL
| MVGAL_GPU_TYPE_COPROCESSOR.

#[export] Instance gpu_type_eq_dec : EqDecision mvgal_gpu_type_t.
Proof. solve_decision. Defined.

Inductive mvgal_memory_type_t : Type :=
| MVGAL_MEMORY_TYPE_HBM
| MVGAL_MEMORY_TYPE_GDDR
| MVGAL_MEMORY_TYPE_DDR
| MVGAL_MEMORY_TYPE_LPDDR
| MVGAL_MEMORY_TYPE_SRAM
| MVGAL_MEMORY_TYPE_SHARED
| MVGAL_MEMORY_TYPE_UNIFIED
| MVGAL_MEMORY_TYPE_UNKNOWN.

#[export] Instance memory_type_eq_dec : EqDecision mvgal_memory_type_t.
Proof. solve_decision. Defined.

Inductive mvgal_pcie_generation_t : Type :=
| MVGAL_PCIE_UNKNOWN
| MVGAL_PCIE_GEN1
| MVGAL_PCIE_GEN2
| MVGAL_PCIE_GEN3
| MVGAL_PCIE_GEN4
| MVGAL_PCIE_GEN5
| MVGAL_PCIE_GEN6.

#[export] Instance pcie_gen_eq_dec : EqDecision mvgal_pcie_generation_t.
Proof. solve_decision. Defined.

(** API masks. *)
Definition MVGAL_API_NONE : Z := 0.
Definition MVGAL_API_VULKAN : Z := 1.
Definition MVGAL_API_OPENGL : Z := 2.
Definition MVGAL_API_OPENCL : Z := 4.
Definition MVGAL_API_CUDA : Z := 8.
Definition MVGAL_API_D3D11 : Z := 16.
Definition MVGAL_API_D3D12 : Z := 32.
Definition MVGAL_API_METAL : Z := 64.
Definition MVGAL_API_WEBGPU : Z := 128.
Definition MVGAL_API_VA_API : Z := 256.
Definition MVGAL_API_SYCL : Z := 512.

Record mvgal_gpu_descriptor_t : Type := mk_gpu {
  g_id : Z;
  g_name : string;
  g_vendor : mvgal_vendor_t;
  g_type : mvgal_gpu_type_t;
  g_pci_domain : Z;
  g_pci_bus : Z;
  g_pci_device : Z;
  g_pci_function : Z;
  g_vendor_id : Z;
  g_device_id : Z;
  g_subsystem_vendor_id : Z;
  g_subsystem_id : Z;
  g_pcie_gen : mvgal_pcie_generation_t;
  g_pcie_lanes : Z;
  g_vram_total : Z;
  g_vram_free : Z;
  g_vram_used : Z;
  g_memory_type : mvgal_memory_type_t;
  g_drm_node : string;
  g_drm_render_node : string;
  g_nvidia_node : string;
  g_kfd_node : string;
  g_features : Z;
  g_supported_apis : list Z;
  g_api_count : Z;
  g_compute_score : f32;
  g_graphics_score : f32;
  g_memory_bandwidth_gbps : f32;
  g_pcie_bandwidth_gbps : f32;
  g_thermal_design_power_w : f32;
  g_current_power_w : f32;
  g_temperature_celsius : f32;
  g_utilization_percent : f32;
  g_driver_name : string;
  g_driver_version : string;
  g_driver_loaded : bool;
  g_enabled : bool;
  g_in_use : bool;
  g_available : bool
}.

#[export] Instance gpu_eta : Eta mvgal_gpu_descriptor_t := fun r =>
  mk_gpu
    (g_id r) (g_name r) (g_vendor r) (g_type r) (g_pci_domain r)
    (g_pci_bus r) (g_pci_device r) (g_pci_function r) (g_vendor_id r) (g_device_id r)
    (g_subsystem_vendor_id r) (g_subsystem_id r) (g_pcie_gen r) (g_pcie_lanes r) (g_vram_total r)
    (g_vram_free r) (g_vram_used r) (g_memory_type r) (g_drm_node r) (g_drm_render_node r)
    (g_nvidia_node r) (g_kfd_node r) (g_features r) (g_supported_apis r) (g_api_count r)
    (g_compute_score r) (g_graphics_score r) (g_memory_bandwidth_gbps r) (g_pcie_bandwidth_gbps r) (g_thermal_design_power_w r)
    (g_current_power_w r) (g_temperature_celsius r) (g_utilization_percent r) (g_driver_name r) (g_driver_version r)
    (g_driver_loaded r) (g_enabled r) (g_in_use r) (g_available r).

(** A descriptor cleared by [memset(gpu, 0, sizeof *gpu)]. *)
Definition gpu_zero : mvgal_gpu_descriptor_t :=
  mk_gpu 0 EmptyString MVGAL_VENDOR_UNKNOWN MVGAL_GPU_TYPE_NONE 0 0 0 0 0 0 0 0 MVGAL_PCIE_UNKNOWN 0 0 0 0 MVGAL_MEMORY_TYPE_HBM EmptyString EmptyString EmptyString EmptyString 0 (replicate 16 0) 0 f0 f0 f0 f0 f0 f0 f0 f0 EmptyString EmptyString false false false false.

#[export] Instance gpu_inhabited : Inhabited mvgal_gpu_descriptor_t := populate gpu_zero.

(** ** Default tables *)

Definition vendor_name (vendor : mvgal_vendor_t) : string :=
  match vendor with
  | MVGAL_VENDOR_AMD => "AMD"
  | MVGAL_VENDOR_NVIDIA => "NVIDIA"
  | MVGAL_VENDOR_INTEL => "Intel"
  | MVGAL_VENDOR_MOORE_THREADS => "Moore Threads"
  | MVGAL_VENDOR_QUALCOMM => "Qualcomm"
  | MVGAL_VENDOR_ARM => "ARM"
  | MVGAL_VENDOR_BROADCOM => "Broadcom"
  | MVGAL_VENDOR_UNKNOWN => "Unknown"
  end.

Definition default_api_mask (vendor : mvgal_vendor_t) : Z :=
  let mask := Z.lor MVGAL_API_VULKAN MVGAL_API_OPENGL in
  match vendor with
  | MVGAL_VENDOR_NVIDIA => Z.lor mask (Z.lor MVGAL_API_OPENCL MVGAL_API_CUDA)
  | MVGAL_VENDOR_AMD | MVGAL_VENDOR_INTEL | MVGAL_VENDOR_MOORE_THREADS =>
      Z.lor mask MVGAL_API_OPENCL
  | _ => mask
  end.

Definition default_feature_mask (vendor : mvgal_vendor_t) (type : mvgal_gpu_type_t) : Z :=
  let features := Z.lor MVGAL_FEATURE_GRAPHICS MVGAL_FEATURE_COMPUTE in
  let features :=
    if bool_decide (type <> MVGAL_GPU_TYPE_VIRTUAL)
    then Z.lor features MVGAL_FEATURE_DMA_BUF else features in
  let features :=
    if bool_decide (vendor = MVGAL_VENDOR_AMD) || bool_decide (vendor = MVGAL_VENDOR_INTEL)
       || bool_decide (vendor = MVGAL_VENDOR_MOORE_THREADS)
    then Z.lor features MVGAL_FEATURE_CROSS_VENDOR else features in
  let features :=
    if bool_decide (vendor = MVGAL_VENDOR_NVIDIA) || bool_decide (vendor = MVGAL_VENDOR_AMD)
    then Z.lor features MVGAL_FEATURE_P2P_TRANSFER else features in
  if bool_decide (type = MVGAL_GPU_TYPE_INTEGRATED)
  then Z.lor features MVGAL_FEATURE_UNIFIED_MEMORY else features.

Definition default_memory_type (type : mvgal_gpu_type_t) : mvgal_memory_type_t :=
  match type with
  | MVGAL_GPU_TYPE_INTEGRATED => MVGAL_MEMORY_TYPE_SHARED
  | MVGAL_GPU_TYPE_VIRTUAL => MVGAL_MEMORY_TYPE_UNIFIED
  | _ => MVGAL_MEMORY_TYPE_GDDR
  end.

Definition is_discrete (type : mvgal_gpu_type_t) : bool :=
  bool_decide (type = MVGAL_GPU_TYPE_DISCRETE).

Definition default_compute_score (vendor : mvgal_vendor_t) (type : mvgal_gpu_type_t) : f32 :=
  if bool_decide (type = MVGAL_GPU_TYPE_VIRTUAL) then f32_of_Z 10 else
  match vendor with
  | MVGAL_VENDOR_NVIDIA => f32_of_Z (if is_discrete type then 92 else 55)
  | MVGAL_VENDOR_AMD => f32_of_Z (if is_discrete type then 84 else 52)
  | MVGAL_VENDOR_INTEL => f32_of_Z (if is_discrete type then 62 else 38)
  | MVGAL_VENDOR_MOORE_THREADS => f32_of_Z (if is_discrete type then 68 else 44)
  | _ => f32_of_Z (if is_discrete type then 45 else 28)
  end.

Definition default_graphics_score (vendor : mvgal_vendor_t) (type : mvgal_gpu_type_t) : f32 :=
  if bool_decide (type = MVGAL_GPU_TYPE_VIRTUAL) then f32_of_Z 10 else
  match vendor with
  | MVGAL_VENDOR_NVIDIA => f32_of_Z (if is_discrete type then 90 else 50)
  | MVGAL_VENDOR_AMD => f32_of_Z (if is_discrete type then 86 else 54)
  | MVGAL_VENDOR_INTEL => f32_of_Z (if is_discrete type then 64 else 42)
  | MVGAL_VENDOR_MOORE_THREADS => f32_of_Z (if is_discrete type then 70 else 40)
  | _ => f32_of_Z (if is_discrete type then 42 else 24)
  end.

Definition default_memory_bandwidth_gbps (type : mvgal_gpu_type_t) : f32 :=
  match type with
  | MVGAL_GPU_TYPE_DISCRETE => f32_of_Z 448
  | MVGAL_GPU_TYPE_INTEGRATED => f32_of_Z 128
  | _ => f32_of_Z 32
  end.

Definition default_tdp_watts (type : mvgal_gpu_type_t) : f32 :=
  match type with
  | MVGAL_GPU_TYPE_DISCRETE => f32_of_Z 250
  | MVGAL_GPU_TYPE_INTEGRATED => f32_of_Z 45
  | _ => f32_of_Z 25
  end.

(** The argument is what [sscanf(link_speed, "%f", ...)] stores, [None] when
    it stores nothing. *)
Definition parse_pcie_generation (speed : option f32) : mvgal_pcie_generation_t :=
  match speed with
  | None => MVGAL_PCIE_UNKNOWN
  | Some speed =>
      if fge speed (f32_of_Z 64) then MVGAL_PCIE_GEN6
      else if fge speed (f32_of_Z 32) then MVGAL_PCIE_GEN5
      else if fge speed (f32_of_Z 16) then MVGAL_PCIE_GEN4
      else if fge speed (f32_of_Z 8) then MVGAL_PCIE_GEN3
      else if fge speed (f32_of_Z 5) then MVGAL_PCIE_GEN2
      else if fge speed (flit 25 10) then MVGAL_PCIE_GEN1
      else MVGAL_PCIE_UNKNOWN
  end.

Definition pcie_bandwidth_from_link (generation : mvgal_pcie_generation_t) (lanes : Z) : f32 :=
  let per_lane_gbps :=
    match generation with
    | MVGAL_PCIE_GEN1 => f32_of_Z 2
    | MVGAL_PCIE_GEN2 => f32_of_Z 4
    | MVGAL_PCIE_GEN3 => flit 7877 1000
    | MVGAL_PCIE_GEN4 => flit 15754 1000
    | MVGAL_PCIE_GEN5 => flit 31508 1000
    | MVGAL_PCIE_GEN6 => flit 63016 1000
    | MVGAL_PCIE_UNKNOWN => f0
    end in
  fmul per_lane_gbps (f32_of_Z lanes).

Definition known_apis : list Z :=
  [ MVGAL_API_VULKAN; MVGAL_API_OPENGL; MVGAL_API_OPENCL; MVGAL_API_CUDA;
    MVGAL_API_D3D11; MVGAL_API_D3D12; MVGAL_API_METAL; MVGAL_API_WEBGPU;
    MVGAL_API_VA_API ].

(** The list written to [apis] (of [capacity] entries, zero filled) and the
    count returned. *)
Fixpoint api_mask_scan (mask : Z) (known : list Z) (room : nat) : list Z :=
  match known, room with
  | k :: known', S room' =>
      if has_flag mask k then k :: api_mask_scan mask known' room'
      else api_mask_scan mask known' room
  | _, _ => []
  end.

Definition api_mask_to_list (mask : Z) (capacity : nat) : list Z * Z :=
  if (capacity =? 0)%nat then ([], 0) else
  let found := api_mask_scan mask known_apis capacity in
  (found ++ replicate (capacity - length found) 0, Z.of_nat (length found)).

(** The union of the first [min(api_count, 16)] entries. *)
Definition gpu_api_mask (gpu : mvgal_gpu_descriptor_t) : Z :=
  foldl Z.lor 0
    (take (Z.to_nat (Z.min (g_api_count gpu) 16)) (g_supported_apis gpu)).

Definition bytes_per_gib : Z := 1073741824.

Definition gpu_selection_score (gpu : mvgal_gpu_descriptor_t) : f32 :=
  let vram_gb := f64_div (f64_of_Z (g_vram_total gpu)) (f64_of_Z bytes_per_gib) in
  fadd (fadd (g_compute_score gpu) (g_graphics_score gpu)) (f32_of_f64 vram_gb).

(** ** The operating system as the manager sees it

    File-system queries of sysfs and /dev, each a function of the path it is
    given, and the decimal conversion of the C library. *)

Class GpuOS : Type := {
  os_access : string -> bool;                       (** [access(path, F_OK) == 0] *)
  os_realpath : string -> option string;            (** [realpath] *)
  os_readdir : string -> option (list string);      (** entry names, [None] if [opendir] fails *)
  os_first_line : string -> option string;          (** the first line of a file, [None] if it
                                                        cannot be opened or is empty *)
  libc_scan_float : string -> option f32            (** [sscanf(s, "%f", ...)] *)
}.

Section OS.
Context `{GpuOS}.

Definition path_exists (path : string) : bool := os_access path.

Definition PATH_MAX : nat := 4096.

Definition normalize_node_path (path : string) (normalized_size : nat) : option string :=
  let path := default path (os_realpath path) in
  if (normalized_size <=? String.length path)%nat then None else Some path.

Definition node_matches (stored_path query_path : string) : bool :=
  if bool_decide (stored_path = "") then false
  else if bool_decide (stored_path = query_path) then true
  else
    match normalize_node_path stored_path PATH_MAX, normalize_node_path query_path PATH_MAX with
    | Some a, Some b => bool_decide (a = b)
    | _, _ => false
    end.

Definition gpu_identity_matches (left right : mvgal_gpu_descriptor_t) : bool :=
  if (g_pci_domain left =? g_pci_domain right) && (g_pci_bus left =? g_pci_bus right)
     && (g_pci_device left =? g_pci_device right) && (g_pci_function left =? g_pci_function right)
     && (negb (g_pci_domain left =? 0) || negb (g_pci_bus left =? 0)
         || negb (g_pci_device left =? 0) || negb (g_pci_function left =? 0))
  then true
  else node_matches (g_drm_node left) (g_drm_node right)
       || node_matches (g_drm_render_node left) (g_drm_render_node right)
       || node_matches (g_nvidia_node left) (g_nvidia_node right).

Definition hex_digit (n : Z) : string :=
  default "" (["0"; "1"; "2"; "3"; "4"; "5"; "6"; "7"; "8"; "9";
               "A"; "B"; "C"; "D"; "E"; "F"]%string !! Z.to_nat n).

(** ["%04X"] of a 16-bit value. *)
Definition hex4 (n : Z) : string :=
  hex_digit (Z.land (Z.shiftr n 12) 15) +:+ hex_digit (Z.land (Z.shiftr n 8) 15)
  +:+ hex_digit (Z.land (Z.shiftr n 4) 15) +:+ hex_digit (Z.land n 15).

(** ["%s GPU %04X (%u GiB)"]; the cast to [unsigned int] is defined for a
    [vram_total] below 2^62. *)
Definition default_gpu_name (vendor : mvgal_vendor_t) (device_id vram_total : Z) : string :=
  let gb := f64_div (f64_of_Z vram_total) (f64_of_Z bytes_per_gib) in
  vendor_name vendor +:+ " GPU " +:+ hex4 device_id +:+ " ("
  +:+ pretty (Z.to_N (default 0 (f32_trunc gb))) +:+ " GiB)".

Definition vendor_of_pci_id (id : Z) : mvgal_vendor_t :=
  if id =? 4098 then MVGAL_VENDOR_AMD                 (* 0x1002 *)
  else if id =? 4318 then MVGAL_VENDOR_NVIDIA         (* 0x10DE *)
  else if id =? 32902 then MVGAL_VENDOR_INTEL         (* 0x8086 *)
  else if id =? 7893 then MVGAL_VENDOR_MOORE_THREADS  (* 0x1ED5 *)
  else MVGAL_VENDOR_UNKNOWN.

(** [finalize_gpu_descriptor], in four stages.  A guarded assignment
    [if (c) gpu->f = v;] is the update [g_f ::= fun old => if c then v else old]. *)
Definition finalize_identity (gpu : mvgal_gpu_descriptor_t) : mvgal_gpu_descriptor_t :=
  let gpu := gpu <| g_vendor ::= fun old =>
    if bool_decide (old = MVGAL_VENDOR_UNKNOWN)
    then vendor_of_pci_id (g_vendor_id gpu) else old |> in
  let gpu := gpu <| g_type ::= fun old =>
    if bool_decide (old = MVGAL_GPU_TYPE_NONE)
    then if bool_decide (g_vendor gpu = MVGAL_VENDOR_INTEL)
         then MVGAL_GPU_TYPE_INTEGRATED else MVGAL_GPU_TYPE_DISCRETE
    else old |> in
  gpu <| g_memory_type ::= fun old =>
    if bool_decide (old = MVGAL_MEMORY_TYPE_UNKNOWN)
    then default_memory_type (g_type gpu) else old |>.

Definition default_vram_total (type : mvgal_gpu_type_t) : Z :=
  match type with
  | MVGAL_GPU_TYPE_INTEGRATED => bytes_per_gib
  | MVGAL_GPU_TYPE_VIRTUAL => 4 * bytes_per_gib
  | _ => 8 * bytes_per_gib
  end.

Definition finalize_memory (gpu : mvgal_gpu_descriptor_t) : mvgal_gpu_descriptor_t :=
  let gpu := gpu <| g_vram_total ::= fun old =>
    if old =? 0 then default_vram_total (g_type gpu) else old |> in
  let gpu := gpu <| g_vram_used ::= fun old =>
    if g_vram_total gpu <? old then g_vram_total gpu else old |> in
  gpu <| g_vram_free := u64 (g_vram_total gpu - g_vram_used gpu) |>.

Definition finalize_capabilities (gpu : mvgal_gpu_descriptor_t) : mvgal_gpu_descriptor_t :=
  let gpu := gpu <| g_features ::= fun old =>
    if old =? 0 then default_feature_mask (g_vendor gpu) (g_type gpu) else old |> in
  let apis := api_mask_to_list (default_api_mask (g_vendor gpu)) 16 in
  let gpu := gpu <| g_supported_apis ::= fun old => if g_api_count gpu =? 0 then apis.1 else old |>
                 <| g_api_count ::= fun old => if old =? 0 then apis.2 else old |> in
  let gpu := gpu <| g_compute_score ::= fun old =>
    if fle old f0 then default_compute_score (g_vendor gpu) (g_type gpu) else old |> in
  let gpu := gpu <| g_graphics_score ::= fun old =>
    if fle old f0 then default_graphics_score (g_vendor gpu) (g_type gpu) else old |> in
  let gpu := gpu <| g_memory_bandwidth_gbps ::= fun old =>
    if fle old f0 then default_memory_bandwidth_gbps (g_type gpu) else old |> in
  let gpu := gpu <| g_pcie_bandwidth_gbps ::= fun old =>
    if fle old f0 && bool_decide (g_pcie_gen gpu <> MVGAL_PCIE_UNKNOWN) && (0 <? g_pcie_lanes gpu)
    then pcie_bandwidth_from_link (g_pcie_gen gpu) (g_pcie_lanes gpu) else old |> in
  gpu <| g_thermal_design_power_w ::= fun old =>
    if fle old f0 then default_tdp_watts (g_type gpu) else old |>.

Definition finalize_driver (gpu : mvgal_gpu_descriptor_t) : mvgal_gpu_descriptor_t :=
  let gpu := gpu <| g_driver_name ::= fun old =>
    if bool_decide (old = "") then
      if bool_decide (g_nvidia_node gpu <> "") then "nvidia"
      else if bool_decide (g_drm_node gpu <> "") then "drm" else "unknown"
    else old |> in
  let gpu := gpu <| g_driver_version ::= fun old =>
    if bool_decide (old = "") then "0.0" else old |> in
  let gpu := gpu <| g_name ::= fun old =>
    if bool_decide (old = "") then default_gpu_name (g_vendor gpu) (g_device_id gpu) (g_vram_total gpu)
    else old |> in
  let gpu := gpu <| g_driver_loaded := bool_decide (g_driver_name gpu <> "") |> in
  let gpu := gpu <| g_available :=
    path_exists (g_drm_node gpu) || path_exists (g_drm_render_node gpu)
    || path_exists (g_nvidia_node gpu) || path_exists (g_kfd_node gpu) |> in
  gpu <| g_enabled := true |>.

Definition finalize_gpu_descriptor (gpu : mvgal_gpu_descriptor_t) : mvgal_gpu_descriptor_t :=
  finalize_driver (finalize_capabilities (finalize_memory (finalize_identity gpu))).

End OS.

(** ** API lists *)

Lemma api_mask_scan_length mask known room :
  (length (api_mask_scan mask known room) <= Nat.min room (length known))%nat.
Proof.
  revert room. induction known as [|k known IH]; intros [|room]; simpl; try lia.
  destruct (has_flag mask k); simpl.
  - specialize (IH room). lia.
  - specialize (IH (S room)). lia.
Qed.

Lemma api_mask_to_list_length mask capacity :
  length (api_mask_to_list mask capacity).1 = capacity.
Proof.
  unfold api_mask_to_list. destruct (Nat.eqb_spec capacity 0) as [->|]; [done|]. cbn [fst].
  rewrite length_app, length_replicate.
  pose proof (api_mask_scan_length mask known_apis capacity). lia.
Qed.

Lemma api_mask_to_list_count mask capacity :
  0 <= (api_mask_to_list mask capacity).2 <= Z.of_nat capacity.
Proof.
  unfold api_mask_to_list. destruct (Nat.eqb_spec capacity 0) as [->|]; cbn [snd]; [lia|].
  pose proof (api_mask_scan_length mask known_apis capacity). lia.
Qed.

(** A single-bit flag is either absent from the mask or entirely in it. *)
Definition single_bit (k : Z) : Prop := exists i, 0 <= i /\ k = bit i.

Lemma has_flag_bit mask k : single_bit k -> Z.land mask k = if has_flag mask k then k else 0.
Proof.
  intros (i & Hi & ->). unfold has_flag. rewrite land_bit by done.
  pose proof (bit_pos i Hi). destruct (Z.testbit mask i); simpl; [|done].
  by destruct (Z.eqb_spec (bit i) 0); [lia|].
Qed.

Lemma foldl_lor_scan mask known room acc :
  Forall single_bit known -> (length known <= room)%nat ->
  foldl Z.lor acc (api_mask_scan mask known room)
  = Z.lor acc (Z.land mask (foldr Z.lor 0 known)).
Proof.
  intros Hk. revert room acc.
  induction Hk as [|k known Hbit Hk IH]; intros [|room] acc Hlen; simpl in *;
    try lia; try (by rewrite Z.land_0_r, Z.lor_0_r).
  pose proof (has_flag_bit mask k Hbit) as Hland.
  rewrite Z.land_lor_distr_r, Hland.
  destruct (has_flag mask k); simpl; rewrite IH by lia;
    [by rewrite Z.lor_assoc | by rewrite Z.lor_0_l].
Qed.

Lemma known_apis_single : Forall single_bit known_apis.
Proof.
  repeat constructor; [exists 0|exists 1|exists 2|exists 3|exists 4|exists 5|exists 6|exists 7|exists 8];
    split; done.
Qed.

Lemma gpu_api_mask_of_list mask g :
  g_supported_apis g = (api_mask_to_list mask 16).1 ->
  g_api_count g = (api_mask_to_list mask 16).2 ->
  gpu_api_mask g = Z.land mask 511.
Proof.
  intros Ha Hc. unfold gpu_api_mask. rewrite Ha, Hc. unfold api_mask_to_list.
  cbn [fst snd Nat.eqb].
  pose proof (api_mask_scan_length mask known_apis 16) as Hlen.
  change (Nat.min 16 (length known_apis)) with 9%nat in Hlen.
  rewrite Z.min_l by lia. rewrite Nat2Z.id, take_app_length.
  rewrite foldl_lor_scan; [|apply known_apis_single|simpl; lia].
  rewrite Z.lor_0_l. done.
Qed.

(** ** Completed descriptors *)

(** What the rest of the system relies on in a descriptor of the table. *)
Record gpu_complete (g : mvgal_gpu_descriptor_t) : Prop := {
  gc_type : g_type g <> MVGAL_GPU_TYPE_NONE;
  gc_memory_type : g_memory_type g <> MVGAL_MEMORY_TYPE_UNKNOWN;
  gc_vram : 0 < g_vram_total g <= U64_MAX;
  gc_used : 0 <= g_vram_used g;
  gc_free : 0 <= g_vram_free g;
  gc_balance : g_vram_used g + g_vram_free g = g_vram_total g;
  gc_features : g_features g <> 0;
  gc_apis : length (g_supported_apis g) = 16%nat;
  gc_api_count : 0 < g_api_count g <= 16;
  gc_driver : g_driver_name g <> "";
  gc_name : g_name g <> ""
}.

(** The part of a scanned descriptor that is a machine value already. *)
Record gpu_raw_ok (g : mvgal_gpu_descriptor_t) : Prop := {
  gr_total : is_u64 (g_vram_total g);
  gr_used : is_u64 (g_vram_used g);
  gr_apis : length (g_supported_apis g) = 16%nat;
  gr_api_count : 0 <= g_api_count g <= 16
}.

Lemma default_gpu_name_nonempty v d t : default_gpu_name v d t <> "".
Proof. unfold default_gpu_name. by destruct v. Qed.

Lemma default_feature_mask_nonzero v t : default_feature_mask v t <> 0.
Proof. by destruct v, t. Qed.

Lemma default_api_count v : 0 < (api_mask_to_list (default_api_mask v) 16).2 <= 16.
Proof. by destruct v. Qed.

(** Case analysis on the guards of a straight-line completion. *)
Ltac guards :=
  repeat match goal with
  | |- context [if ?b then _ else _] => destruct b eqn:?; simpl in *
  end.

Ltac bools :=
  repeat match goal with
  | H : bool_decide _ = true |- _ => apply bool_decide_eq_true_1 in H
  | H : bool_decide _ = false |- _ => apply bool_decide_eq_false_1 in H
  | H : (_ =? _) = true |- _ => apply Z.eqb_eq in H
  | H : (_ =? _) = false |- _ => apply Z.eqb_neq in H
  | H : (_ <? _) = true |- _ => apply Z.ltb_lt in H
  | H : (_ <? _) = false |- _ => apply Z.ltb_ge in H
  | H : (_ <=? _) = true |- _ => apply Z.leb_le in H
  | H : (_ <=? _) = false |- _ => apply Z.leb_gt in H
  | H : _ && _ = true |- _ => apply andb_true_iff in H as [? ?]
  | H : _ || _ = false |- _ => apply orb_false_iff in H as [? ?]
  | H : negb _ = true |- _ => apply negb_true_iff in H
  | H : negb _ = false |- _ => apply negb_false_iff in H
  end.

Section Finalize.
Context `{GpuOS}.

Lemma finalize_memory_balance g :
  is_u64 (g_vram_total g) -> is_u64 (g_vram_used g) ->
  let g' := finalize_memory g in
  0 < g_vram_total g' <= U64_MAX /\ 0 <= g_vram_used g' /\ 0 <= g_vram_free g'
  /\ g_vram_used g' + g_vram_free g' = g_vram_total g'.
Proof.
  unfold is_u64, U64_MAX. intros Ht Hu. cbn.
  assert (Hd : 0 < default_vram_total (g_type g) <= 8589934592)
    by (unfold default_vram_total, bytes_per_gib; destruct (g_type g); lia).
  destruct (g_vram_total g =? 0) eqn:E; bools;
    case_match; bools; rewrite u64_small; unfold is_u64, U64_MAX; lia.
Qed.

Lemma default_memory_type_known t : default_memory_type t <> MVGAL_MEMORY_TYPE_UNKNOWN.
Proof. by destruct t. Qed.

(** The completed fields in terms of the stage that sets them. *)
Lemma finalize_total g :
  g_vram_total (finalize_gpu_descriptor g) = g_vram_total (finalize_memory (finalize_identity g)).
Proof. cbn. reflexivity. Qed.

Lemma finalize_used g :
  g_vram_used (finalize_gpu_descriptor g) = g_vram_used (finalize_memory (finalize_identity g)).
Proof. cbn. reflexivity. Qed.

Lemma finalize_free g :
  g_vram_free (finalize_gpu_descriptor g) = g_vram_free (finalize_memory (finalize_identity g)).
Proof. cbn. reflexivity. Qed.

Lemma finalize_features g :
  g_features (finalize_gpu_descriptor g)
  = if g_features g =? 0
    then default_feature_mask (g_vendor (finalize_identity g)) (g_type (finalize_identity g))
    else g_features g.
Proof. cbn. reflexivity. Qed.

Lemma finalize_apis g :
  let apis := api_mask_to_list (default_api_mask (g_vendor (finalize_identity g))) 16 in
  g_supported_apis (finalize_gpu_descriptor g)
    = (if g_api_count g =? 0 then apis.1 else g_supported_apis g)
  /\ g_api_count (finalize_gpu_descriptor g) = if g_api_count g =? 0 then apis.2 else g_api_count g.
Proof. cbn. split; reflexivity. Qed.

Lemma finalize_name g : g_name (finalize_gpu_descriptor g) <> "".
Proof.
  cbn -[default_gpu_name].
  case_bool_decide; [apply default_gpu_name_nonempty|assumption].
Qed.

Lemma finalize_gpu_complete g : gpu_raw_ok g -> gpu_complete (finalize_gpu_descriptor g).
Proof.
  intros [Ht Hu Ha Hn].
  pose proof (default_api_count (g_vendor (finalize_identity g))) as Hc.
  pose proof (finalize_memory_balance (finalize_identity g) Ht Hu) as (Hv & Hu' & Hf & Hb).
  destruct (finalize_apis g) as [Hapis Hcount].
  split; rewrite ?finalize_total, ?finalize_used, ?finalize_free, ?Hapis, ?Hcount; trivial.
  - cbn. repeat case_match; bools; congruence.
  - cbn. case_bool_decide; [apply default_memory_type_known|assumption].
  - rewrite finalize_features.
    destruct (g_features g =? 0) eqn:E; bools; [apply default_feature_mask_nonzero|assumption].
  - destruct (g_api_count g =? 0); [apply api_mask_to_list_length|assumption].
  - destruct (g_api_count g =? 0) eqn:E; bools; [assumption|lia].
  - cbn. repeat case_match; bools; congruence.
  - apply finalize_name.
Qed.

(** Two descriptors with equal fields are equal. *)
Lemma gpu_ext a b :
  g_id a = g_id b ->
  g_name a = g_name b ->
  g_vendor a = g_vendor b ->
  g_type a = g_type b ->
  g_pci_domain a = g_pci_domain b ->
  g_pci_bus a = g_pci_bus b ->
  g_pci_device a = g_pci_device b ->
  g_pci_function a = g_pci_function b ->
  g_vendor_id a = g_vendor_id b ->
  g_device_id a = g_device_id b ->
  g_subsystem_vendor_id a = g_subsystem_vendor_id b ->
  g_subsystem_id a = g_subsystem_id b ->
  g_pcie_gen a = g_pcie_gen b ->
  g_pcie_lanes a = g_pcie_lanes b ->
  g_vram_total a = g_vram_total b ->
  g_vram_free a = g_vram_free b ->
  g_vram_used a = g_vram_used b ->
  g_memory_type a = g_memory_type b ->
  g_drm_node a = g_drm_node b ->
  g_drm_render_node a = g_drm_render_node b ->
  g_nvidia_node a = g_nvidia_node b ->
  g_kfd_node a = g_kfd_node b ->
  g_features a = g_features b ->
  g_supported_apis a = g_supported_apis b ->
  g_api_count a = g_api_count b ->
  g_compute_score a = g_compute_score b ->
  g_graphics_score a = g_graphics_score b ->
  g_memory_bandwidth_gbps a = g_memory_bandwidth_gbps b ->
  g_pcie_bandwidth_gbps a = g_pcie_bandwidth_gbps b ->
  g_thermal_design_power_w a = g_thermal_design_power_w b ->
  g_current_power_w a = g_current_power_w b ->
  g_temperature_celsius a = g_temperature_celsius b ->
  g_utilization_percent a = g_utilization_percent b ->
  g_driver_name a = g_driver_name b ->
  g_driver_version a = g_driver_version b ->
  g_driver_loaded a = g_driver_loaded b ->
  g_enabled a = g_enabled b ->
  g_in_use a = g_in_use b ->
  g_available a = g_available b ->
  a = b.
Proof. destruct a, b; simpl; intros; subst; reflexivity. Qed.

(** What each stage establishes; a stage does nothing on a descriptor that
    has its predicate already. *)
Definition identity_done (g : mvgal_gpu_descriptor_t) : Prop :=
  (g_vendor g = MVGAL_VENDOR_UNKNOWN -> vendor_of_pci_id (g_vendor_id g) = MVGAL_VENDOR_UNKNOWN)
  /\ g_type g <> MVGAL_GPU_TYPE_NONE
  /\ g_memory_type g <> MVGAL_MEMORY_TYPE_UNKNOWN.

Definition memory_done (g : mvgal_gpu_descriptor_t) : Prop :=
  g_vram_total g <> 0 /\ g_vram_used g <= g_vram_total g
  /\ g_vram_free g = u64 (g_vram_total g - g_vram_used g).

Definition capabilities_done (g : mvgal_gpu_descriptor_t) : Prop :=
  g_features g <> 0 /\ g_api_count g <> 0
  /\ (fle (g_compute_score g) f0 = true ->
      g_compute_score g = default_compute_score (g_vendor g) (g_type g))
  /\ (fle (g_graphics_score g) f0 = true ->
      g_graphics_score g = default_graphics_score (g_vendor g) (g_type g))
  /\ (fle (g_memory_bandwidth_gbps g) f0 = true ->
      g_memory_bandwidth_gbps g = default_memory_bandwidth_gbps (g_type g))
  /\ (fle (g_pcie_bandwidth_gbps g) f0 && bool_decide (g_pcie_gen g <> MVGAL_PCIE_UNKNOWN)
      && (0 <? g_pcie_lanes g) = true ->
      g_pcie_bandwidth_gbps g = pcie_bandwidth_from_link (g_pcie_gen g) (g_pcie_lanes g))
  /\ (fle (g_thermal_design_power_w g) f0 = true ->
      g_thermal_design_power_w g = default_tdp_watts (g_type g)).

Definition driver_done (g : mvgal_gpu_descriptor_t) : Prop :=
  g_driver_name g <> "" /\ g_driver_version g <> "" /\ g_name g <> ""
  /\ g_driver_loaded g = true
  /\ g_available g = (path_exists (g_drm_node g) || path_exists (g_drm_render_node g)
                      || path_exists (g_nvidia_node g) || path_exists (g_kfd_node g))
  /\ g_enabled g = true.

Lemma finalize_identity_fix g : identity_done g -> finalize_identity g = g.
Proof.
  intros (Hv & Ht & Hm). apply gpu_ext; try (cbn; reflexivity); cbn.
  - case_bool_decide as E; [rewrite E; auto|reflexivity].
  - by rewrite bool_decide_eq_false_2.
  - by rewrite bool_decide_eq_false_2.
Qed.

Lemma finalize_memory_fix g : memory_done g -> finalize_memory g = g.
Proof.
  intros (H0 & Hu & Hf). apply Z.eqb_neq in H0. apply Z.ltb_ge in Hu.
  apply gpu_ext; try (cbn; reflexivity); cbn; rewrite H0, ?Hu; congruence.
Qed.

Lemma finalize_capabilities_fix g : capabilities_done g -> finalize_capabilities g = g.
Proof.
  intros (Hf & Ha & Hc & Hg & Hb & Hp & Ht). apply Z.eqb_neq in Hf, Ha.
  apply gpu_ext; try (cbn; reflexivity);
    cbn -[default_compute_score default_graphics_score pcie_bandwidth_from_link fle f0
          api_mask_to_list default_memory_bandwidth_gbps default_tdp_watts];
    rewrite ?Hf, ?Ha; try reflexivity.
  all: match goal with |- (if ?c then _ else _) = _ => destruct c; [symmetry; auto|reflexivity] end.
Qed.

Lemma finalize_driver_fix g : driver_done g -> finalize_driver g = g.
Proof.
  intros (Hd & Hv & Hn & Hl & Ha & He).
  apply gpu_ext; try (cbn; reflexivity); cbn -[default_gpu_name];
    rewrite ?(bool_decide_eq_false_2 _ Hd), ?(bool_decide_eq_false_2 _ Hv),
      ?(bool_decide_eq_false_2 _ Hn), ?(bool_decide_eq_true_2 _ Hd); congruence.
Qed.

(** A guarded default that did not clear its guard is the default. *)
Lemma guarded_default {A} (c : A -> bool) (d old : A) :
  c (if c old then d else old) = true -> (if c old then d else old) = d.
Proof. destruct (c old) eqn:E; [done|congruence]. Qed.

Lemma finalize_identity_done g : identity_done (finalize_gpu_descriptor g).
Proof.
  split_and!; cbn.
  - case_bool_decide; [done|congruence].
  - repeat case_bool_decide; congruence.
  - case_bool_decide; [apply default_memory_type_known|assumption].
Qed.

Lemma finalize_memory_done g : memory_done (finalize_gpu_descriptor g).
Proof.
  unfold memory_done. rewrite finalize_total, finalize_used, finalize_free.
  generalize (finalize_identity g) as h. intros h. cbn.
  assert (default_vram_total (g_type h) <> 0) by (by destruct (g_type h)).
  split_and!; [| |done];
    destruct (g_vram_total h =? 0) eqn:E; bools; try done; case_match; bools; lia.
Qed.

Lemma finalize_capabilities_done_at g : capabilities_done (finalize_capabilities g).
Proof.
  pose proof (default_api_count (g_vendor g)) as Hc.
  split_and!;
    cbn -[default_compute_score default_graphics_score pcie_bandwidth_from_link fle f0
          api_mask_to_list default_feature_mask default_memory_bandwidth_gbps default_tdp_watts].
  - destruct (g_features g =? 0) eqn:E; bools; [apply default_feature_mask_nonzero|done].
  - destruct (g_api_count g =? 0) eqn:E; bools; [lia|done].
  - apply (guarded_default (fun x => fle x f0)).
  - apply (guarded_default (fun x => fle x f0)).
  - apply (guarded_default (fun x => fle x f0)).
  - apply (guarded_default (fun x => fle x f0 && bool_decide (g_pcie_gen g <> MVGAL_PCIE_UNKNOWN)
                                     && (0 <? g_pcie_lanes g))).
  - apply (guarded_default (fun x => fle x f0)).
Qed.

Lemma finalize_capabilities_done g : capabilities_done (finalize_gpu_descriptor g).
Proof.
  unfold finalize_gpu_descriptor.
  pose proof (finalize_capabilities_done_at (finalize_memory (finalize_identity g))) as Hd.
  revert Hd. generalize (finalize_capabilities (finalize_memory (finalize_identity g))) as h.
  intros h Hd. unfold capabilities_done in *. cbn -[fle f0]. exact Hd.
Qed.

Lemma finalize_driver_done g : driver_done (finalize_gpu_descriptor g).
Proof.
  unfold finalize_gpu_descriptor.
  generalize (finalize_capabilities (finalize_memory (finalize_identity g))) as h. intros h.
  unfold driver_done. cbn -[default_gpu_name].
  split_and!; try done.
  - repeat case_bool_decide; done.
  - repeat case_bool_decide; done.
  - case_bool_decide; [apply default_gpu_name_nonempty|done].
  - apply bool_decide_eq_true_2. repeat case_bool_decide; done.
Qed.

Lemma finalize_idemp g :
  finalize_gpu_descriptor (finalize_gpu_descriptor g) = finalize_gpu_descriptor g.
Proof.
  pose proof (finalize_identity_done g). pose proof (finalize_memory_done g).
  pose proof (finalize_capabilities_done g). pose proof (finalize_driver_done g).
  unfold finalize_gpu_descriptor at 1.
  rewrite finalize_identity_fix, finalize_memory_fix, finalize_capabilities_fix,
    finalize_driver_fix; done.
Qed.

End Finalize.
