(* ===== verification/GpuManager.v ===== *)
(** * The GPU manager (src/userspace/daemon/gpu_manager.c)

    The table of GPUs every other component reads: scanning and rescanning,
    queries, enabling, selection, callbacks, health evaluation and logical
    devices.  The state is the pair of file-scope records of the source; every
    operation is a function from the state (and its arguments) to its result
    and the new state.  The manager's lock is held for the whole body of each
    operation, so one operation is one transition. *)

From S2P Require Import Prelude Float32 CString GpuTypes.
From stdpp Require Import strings.
From Stdlib Require Import Ascii.
Local Open Scope Z_scope.

Definition MAX_GPUS : nat := 16.
Definition MAX_GPU_CALLBACKS : nat := 8.
Definition MAX_CUSTOM_DRIVERS : nat := 8.

Record mvgal_gpu_health_thresholds_t : Type := mk_thresholds {
  temp_warning_celsius : f32;
  temp_critical_celsius : f32;
  utilization_warning : f32;
  utilization_critical : f32;
  memory_warning : f32;
  memory_critical : f32
}.

Definition thresholds_zero : mvgal_gpu_health_thresholds_t := mk_thresholds f0 f0 f0 f0 f0 f0.
#[export] Instance thresholds_inhabited : Inhabited mvgal_gpu_health_thresholds_t :=
  populate thresholds_zero.

Definition DEFAULT_HEALTH_THRESHOLDS : mvgal_gpu_health_thresholds_t :=
  mk_thresholds (f32_of_Z 80) (f32_of_Z 95) (f32_of_Z 80) (f32_of_Z 95)
                (f32_of_Z 85) (f32_of_Z 95).

Record mvgal_gpu_health_status_t : Type := mk_status {
  hs_gpu_index : Z;
  hs_temperature_celsius : f32;
  hs_temperature_max_celsius : f32;
  hs_utilization_percent : f32;
  hs_memory_used_mb : f32;
  hs_memory_total_mb : f32;
  hs_is_healthy : bool;
  hs_timestamp_ns : Z
}.

Inductive mvgal_gpu_health_level_t : Type :=
| MVGAL_HEALTH_OK
| MVGAL_HEALTH_WARNING
| MVGAL_HEALTH_CRITICAL
| MVGAL_HEALTH_UNKNOWN.

#[export] Instance health_level_eq_dec : EqDecision mvgal_gpu_health_level_t.
Proof. solve_decision. Defined.

Record mvgal_gpu_callback_entry_t : Type := mk_cb {
  cb_callback : option addr;
  cb_user_data : option addr
}.
Definition cb_zero : mvgal_gpu_callback_entry_t := mk_cb None None.

Record mvgal_custom_driver_entry_t : Type := mk_driver {
  drv_name : string;
  drv_probe : option addr;
  drv_init : option addr;
  drv_user_data : option addr
}.

(** [notified] is the trace of callback invocations, latest last. *)
Record mvgal_gpu_manager_state_t : Type := mk_gm {
  gm_gpus : list mvgal_gpu_descriptor_t;
  gm_thresholds : list mvgal_gpu_health_thresholds_t;
  gm_callbacks : list mvgal_gpu_callback_entry_t;
  gm_drivers : list mvgal_custom_driver_entry_t;
  gm_gpu_count : Z;
  gm_initialized : bool;
  gm_scanned : bool;
  gm_notified : list (addr * mvgal_gpu_descriptor_t * option addr)
}.

#[export] Instance gm_eta : Eta mvgal_gpu_manager_state_t := fun r =>
  mk_gm (gm_gpus r) (gm_thresholds r) (gm_callbacks r) (gm_drivers r)
        (gm_gpu_count r) (gm_initialized r) (gm_scanned r) (gm_notified r).

(** The static initialiser. *)
Definition gm_start : mvgal_gpu_manager_state_t :=
  mk_gm (replicate MAX_GPUS gpu_zero) (replicate MAX_GPUS thresholds_zero)
        (replicate MAX_GPU_CALLBACKS cb_zero) [] 0 false false [].

Definition gpu_at (s : mvgal_gpu_manager_state_t) (i : Z) : mvgal_gpu_descriptor_t :=
  gm_gpus s !!! Z.to_nat i.

(** The occupied prefix of the table. *)
Definition gm_live (s : mvgal_gpu_manager_state_t) : list mvgal_gpu_descriptor_t :=
  take (Z.to_nat (gm_gpu_count s)) (gm_gpus s).

Section Manager.
Context `{GpuOS}.

(** ** Scanning *)

Fixpoint parse_digits (s : string) (value : Z) : option Z :=
  match s with
  | EmptyString => Some value
  | String c s' =>
      let d := Z.of_N (Ascii.N_of_ascii c) - 48 in
      if (0 <=? d) && (d <=? 9) then parse_digits s' (10 * value + d) else None
  end.

Definition parse_indexed_node (name pre : string) : option Z :=
  let n := String.length pre in
  if negb (bool_decide (String.substring 0 n name = pre)) then None else
  let digits := String.substring n (String.length name - n) name in
  if bool_decide (digits = "") then None else
  match parse_digits digits 0 with
  | Some value => if value <=? U32_MAX then Some value else None
  | None => None
  end.

(** [fgets] into a buffer of [buffer_size] bytes, cut at the line end. *)
Definition read_file_trimmed (path : string) (buffer_size : nat) : option string :=
  match os_first_line path with
  | Some line => Some (cut_line (String.substring 0 (buffer_size - 1) line))
  | None => None
  end.

Definition read_file_u64 (path : string) : option Z :=
  match read_file_trimmed path 128 with
  | Some buffer =>
      match strtoull0 buffer with
      | Some (Some parsed) => Some parsed
      | _ => None
      end
  | None => None
  end.

Definition read_file_u16 (path : string) : option Z :=
  match read_file_u64 path with
  | Some v => if v <=? 65535 then Some v else None
  | None => None
  end.

Definition build_path_suffix (buffer_size : nat) (base suffix : string) : option string :=
  if (buffer_size <=? String.length base + String.length suffix)%nat then None
  else Some (base +:+ suffix).

(** The part of [s] after its last slash. *)
Fixpoint basename_aux (s best : string) : string :=
  match s with
  | EmptyString => best
  | String c s' => if bool_decide (c = "/"%char) then basename_aux s' s' else basename_aux s' best
  end.
Definition basename (s : string) : string := basename_aux s s.

Definition read_link_basename (path : string) (buffer_size : nat) : option string :=
  match os_realpath path with
  | None => None
  | Some resolved =>
      let b := basename resolved in
      if (buffer_size <=? String.length b)%nat then None else Some b
  end.

Definition parse_pci_address (device_realpath : string) : option (Z * Z * Z * Z) :=
  match scan_pci (basename device_realpath) with
  | Some (d, b, v, f) =>
      if (65535 <? d) || (255 <? b) || (255 <? v) || (255 <? f) then None else Some (d, b, v, f)
  | None => None
  end.

(** The first readable candidate file under [device_root]. *)
Fixpoint read_first_u64 (device_root : string) (candidates : list string) : Z :=
  match candidates with
  | [] => 0
  | c :: rest =>
      match read_file_u64 (device_root +:+ "/" +:+ c) with
      | Some v => v
      | None => read_first_u64 device_root rest
      end
  end.

Fixpoint find_render_node (entries : list string) (device_realpath : string) : option string :=
  match entries with
  | [] => None
  | e :: rest =>
      match parse_indexed_node e "renderD", os_realpath ("/sys/class/drm/" +:+ e +:+ "/device") with
      | Some _, Some real =>
          if bool_decide (real = device_realpath)
          then Some ("/dev/dri/" +:+ String.substring 0 30 e)
          else find_render_node rest device_realpath
      | _, _ => find_render_node rest device_realpath
      end
  end.

Definition find_render_node_for_device (device_realpath : string) : option string :=
  match os_readdir "/sys/class/drm" with
  | None => None
  | Some entries => find_render_node entries device_realpath
  end.

Definition attr {A} (device_link suffix : string) (read : string -> option A) : option A :=
  match build_path_suffix PATH_MAX device_link suffix with
  | Some path => read path
  | None => None
  end.

(** The descriptor built for one DRM card before it is finalized. *)
Definition drm_descriptor (id : Z) (entry device_link device_realpath : string)
  : mvgal_gpu_descriptor_t :=
  let g := gpu_zero <| g_id := id |>
             <| g_memory_type := MVGAL_MEMORY_TYPE_UNKNOWN |>
             <| g_pcie_gen := MVGAL_PCIE_UNKNOWN |>
             <| g_drm_node := "/dev/dri/" +:+ String.substring 0 30 entry |>
             <| g_drm_render_node ::= fun old =>
                  default old (find_render_node_for_device device_realpath) |>
             <| g_vendor_id ::= fun old => default old (attr device_link "/vendor" read_file_u16) |>
             <| g_device_id ::= fun old => default old (attr device_link "/device" read_file_u16) |>
             <| g_subsystem_vendor_id ::= fun old =>
                  default old (attr device_link "/subsystem_vendor" read_file_u16) |>
             <| g_subsystem_id ::= fun old =>
                  default old (attr device_link "/subsystem_device" read_file_u16) |> in
  let g :=
    match parse_pci_address device_realpath with
    | Some (d, b, v, f) => g <| g_pci_domain := d |> <| g_pci_bus := b |>
                             <| g_pci_device := v |> <| g_pci_function := f |>
    | None => g
    end in
  let g :=
    match attr device_link "/current_link_speed" (fun p => read_file_trimmed p 64) with
    | Some link_speed =>
        g <| g_pcie_gen := parse_pcie_generation (libc_scan_float link_speed) |>
    | None => g
    end in
  let g :=
    match attr device_link "/current_link_width" read_file_u64 with
    | Some lanes => if lanes <=? 255 then g <| g_pcie_lanes := lanes |> else g
    | None => g
    end in
  let g := g <| g_type := if g_vendor_id g =? 32902 then MVGAL_GPU_TYPE_INTEGRATED
                          else MVGAL_GPU_TYPE_DISCRETE |>
             <| g_vram_total := read_first_u64 device_link
                  ["mem_info_vram_total"; "mem_info_vis_vram_total"; "lmem_total_bytes"]%string |>
             <| g_vram_used := read_first_u64 device_link
                  ["mem_info_vram_used"; "mem_info_vis_vram_used"; "lmem_used_bytes"]%string |>
             <| g_driver_name ::= fun old =>
                  default old (attr device_link "/driver" (fun p => read_link_basename p 64)) |> in
  if (g_vendor_id g =? 4098) && path_exists "/dev/kfd"
  then g <| g_kfd_node := "/dev/kfd" |> else g.

(** [gpus[gpu_count] = g; thresholds[gpu_count] = DEFAULT; gpu_count++]. *)
Definition push_gpu (g : mvgal_gpu_descriptor_t) (s : mvgal_gpu_manager_state_t)
  : mvgal_gpu_manager_state_t :=
  let i := Z.to_nat (gm_gpu_count s) in
  s <| gm_gpus ::= fun l => <[i := g]> l |>
    <| gm_thresholds ::= fun l => <[i := DEFAULT_HEALTH_THRESHOLDS]> l |>
    <| gm_gpu_count ::= fun n => n + 1 |>.

Definition table_full (s : mvgal_gpu_manager_state_t) : bool := 16 <=? gm_gpu_count s.

Fixpoint scan_drm_entries (entries : list string) (s : mvgal_gpu_manager_state_t)
  : mvgal_gpu_manager_state_t :=
  match entries with
  | [] => s
  | e :: rest =>
      if table_full s then s else
      let device_link := "/sys/class/drm/" +:+ e +:+ "/device" in
      match parse_indexed_node e "card", os_realpath device_link with
      | Some _, Some real =>
          scan_drm_entries rest
            (push_gpu (finalize_gpu_descriptor
                         (drm_descriptor (gm_gpu_count s) e device_link real)) s)
      | _, _ => scan_drm_entries rest s
      end
  end.

Definition scan_drm_devices_locked (s : mvgal_gpu_manager_state_t) : mvgal_gpu_manager_state_t :=
  match os_readdir "/sys/class/drm" with
  | None => s
  | Some entries => scan_drm_entries entries s
  end.

(** The first NVIDIA card of the table that has no /dev/nvidia node yet. *)
Fixpoint attach_nvidia (node_path : string) (live : list mvgal_gpu_descriptor_t) (i : nat)
  : option (nat * mvgal_gpu_descriptor_t) :=
  match live with
  | [] => None
  | g :: rest =>
      if bool_decide (g_vendor g = MVGAL_VENDOR_NVIDIA) && bool_decide (g_nvidia_node g = "")
      then Some (i, finalize_gpu_descriptor (g <| g_nvidia_node := node_path |>))
      else attach_nvidia node_path rest (S i)
  end.

Definition nvidia_descriptor (id : Z) (node_path : string) : mvgal_gpu_descriptor_t :=
  gpu_zero <| g_id := id |>
    <| g_memory_type := MVGAL_MEMORY_TYPE_UNKNOWN |>
    <| g_pcie_gen := MVGAL_PCIE_UNKNOWN |>
    <| g_vendor := MVGAL_VENDOR_NVIDIA |>
    <| g_vendor_id := 4318 |>
    <| g_type := MVGAL_GPU_TYPE_DISCRETE |>
    <| g_nvidia_node := node_path |>
    <| g_driver_name := "nvidia" |>
    <| g_vram_total := 8 * bytes_per_gib |>.

Fixpoint scan_nvidia_entries (entries : list string) (s : mvgal_gpu_manager_state_t)
  : mvgal_gpu_manager_state_t :=
  match entries with
  | [] => s
  | e :: rest =>
      if table_full s then s else
      match parse_indexed_node e "nvidia" with
      | None => scan_nvidia_entries rest s
      | Some _ =>
          let node_path := "/dev/" +:+ String.substring 0 30 e in
          match attach_nvidia node_path (gm_live s) 0 with
          | Some (i, g) => scan_nvidia_entries rest (s <| gm_gpus ::= fun l => <[i := g]> l |>)
          | None =>
              scan_nvidia_entries rest
                (push_gpu (finalize_gpu_descriptor
                             (nvidia_descriptor (gm_gpu_count s) node_path)) s)
          end
      end
  end.

Definition scan_nvidia_devices_locked (s : mvgal_gpu_manager_state_t) : mvgal_gpu_manager_state_t :=
  match os_readdir "/dev" with
  | None => s
  | Some entries => scan_nvidia_entries entries s
  end.

Definition add_placeholder_gpu_locked (s : mvgal_gpu_manager_state_t) : mvgal_gpu_manager_state_t :=
  if table_full s then s else
  let '(apis, n) :=
    api_mask_to_list (Z.lor (Z.lor MVGAL_API_VULKAN MVGAL_API_OPENGL) MVGAL_API_OPENCL) 16 in
  let g := gpu_zero <| g_id := gm_gpu_count s |>
    <| g_vendor := MVGAL_VENDOR_UNKNOWN |>
    <| g_type := MVGAL_GPU_TYPE_VIRTUAL |>
    <| g_memory_type := MVGAL_MEMORY_TYPE_UNIFIED |>
    <| g_pcie_gen := MVGAL_PCIE_UNKNOWN |>
    <| g_vram_total := 4 * bytes_per_gib |>
    <| g_name := "MVGAL Placeholder GPU" |>
    <| g_driver_name := "mvgal" |>
    <| g_features := Z.lor MVGAL_FEATURE_GRAPHICS MVGAL_FEATURE_COMPUTE |>
    <| g_supported_apis := apis |> <| g_api_count := n |>
    <| g_compute_score := f32_of_Z 10 |>
    <| g_graphics_score := f32_of_Z 10 |> in
  push_gpu ((finalize_gpu_descriptor g) <| g_available := false |> <| g_driver_loaded := false |>) s.

(** The first old entry with the identity of [g], with its thresholds. *)
Fixpoint find_persisted (g : mvgal_gpu_descriptor_t) (old : list mvgal_gpu_descriptor_t)
  (old_thresholds : list mvgal_gpu_health_thresholds_t)
  : option (mvgal_gpu_descriptor_t * mvgal_gpu_health_thresholds_t) :=
  match old, old_thresholds with
  | o :: old', t :: old_thresholds' =>
      if gpu_identity_matches g o then Some (o, t) else find_persisted g old' old_thresholds'
  | _, _ => None
  end.

(** Entry [i] of the new table: enabled flag and thresholds of the card it
    was before, defaults for a card that is new. *)
Definition restore_one (old : list mvgal_gpu_descriptor_t)
  (old_thresholds : list mvgal_gpu_health_thresholds_t) (i : nat) (g : mvgal_gpu_descriptor_t)
  : mvgal_gpu_descriptor_t * mvgal_gpu_health_thresholds_t :=
  match find_persisted g old old_thresholds with
  | Some (o, t) => (g <| g_enabled := g_enabled o |> <| g_id := Z.of_nat i |>, t)
  | None => (g <| g_id := Z.of_nat i |>, DEFAULT_HEALTH_THRESHOLDS)
  end.

Definition restore_persisted_state_locked (old : list mvgal_gpu_descriptor_t)
  (old_thresholds : list mvgal_gpu_health_thresholds_t) (old_gpu_count : nat)
  (s : mvgal_gpu_manager_state_t) : mvgal_gpu_manager_state_t :=
  let n := Z.to_nat (gm_gpu_count s) in
  let restored := imap (restore_one (take old_gpu_count old) (take old_gpu_count old_thresholds))
                       (gm_live s) in
  s <| gm_gpus ::= fun l => restored.*1 ++ drop n l |>
    <| gm_thresholds ::= fun l => restored.*2 ++ drop n l |>.

Definition rescan_gpus_locked (s : mvgal_gpu_manager_state_t)
  : list mvgal_gpu_descriptor_t * mvgal_gpu_manager_state_t :=
  let old_gpus := gm_gpus s in
  let old_thresholds := gm_thresholds s in
  let old_gpu_count := Z.to_nat (gm_gpu_count s) in
  let s := s <| gm_gpus := replicate MAX_GPUS gpu_zero |>
             <| gm_thresholds := replicate MAX_GPUS thresholds_zero |>
             <| gm_gpu_count := 0 |> in
  let s := scan_drm_devices_locked s in
  let s := scan_nvidia_devices_locked s in
  let s := if gm_gpu_count s =? 0 then add_placeholder_gpu_locked s else s in
  let s := restore_persisted_state_locked old_gpus old_thresholds old_gpu_count s in
  let s := s <| gm_scanned := true |> in
  (gm_live s, s).

Definition notify_gpu_callbacks (snapshot : list mvgal_gpu_descriptor_t)
  (s : mvgal_gpu_manager_state_t) : mvgal_gpu_manager_state_t :=
  let calls :=
    c ← gm_callbacks s;
    match cb_callback c with
    | Some f => (fun g => (f, g, cb_user_data c)) <$> snapshot
    | None => []
    end in
  s <| gm_notified ::= fun t => t ++ calls |>.

Definition mvgal_gpu_manager_init (s : mvgal_gpu_manager_state_t) : mvgal_gpu_manager_state_t :=
  if gm_initialized s then s else
  let s := s <| gm_initialized := true |> in
  let '(snapshot, s) := rescan_gpus_locked s in
  notify_gpu_callbacks snapshot s.

Definition ensure_gpu_manager_initialized (s : mvgal_gpu_manager_state_t)
  : mvgal_gpu_manager_state_t :=
  if gm_initialized s then s else mvgal_gpu_manager_init s.

Definition mvgal_gpu_rescan (s : mvgal_gpu_manager_state_t)
  : mvgal_error_t * mvgal_gpu_manager_state_t :=
  let s := ensure_gpu_manager_initialized s in
  let '(snapshot, s) := rescan_gpus_locked s in
  (MVGAL_SUCCESS, notify_gpu_callbacks snapshot s).

(** ** Queries

    An operation first initialises the manager if nobody did.
    [mvgal_gpu_manager_init] has [MVGAL_SUCCESS] as its only return value, so
    the [MVGAL_ERROR_INITIALIZATION] guards of the source never fire.  An
    output pointer is a boolean, [false] for NULL; what is stored through it
    is part of the result. *)

Definition manager_op {A} (body : mvgal_gpu_manager_state_t -> A * mvgal_gpu_manager_state_t)
  (s : mvgal_gpu_manager_state_t) : A * mvgal_gpu_manager_state_t :=
  body (ensure_gpu_manager_initialized s).

Definition mvgal_gpu_get_count : mvgal_gpu_manager_state_t -> Z * mvgal_gpu_manager_state_t :=
  manager_op (fun s => (gm_gpu_count s, s)).

(** The entries copied to the caller's array and the returned count. *)
Definition mvgal_gpu_enumerate (gpus : bool) (count : Z)
  : mvgal_gpu_manager_state_t ->
    (list mvgal_gpu_descriptor_t * Z) * mvgal_gpu_manager_state_t :=
  manager_op (fun s =>
    if negb gpus || (count =? 0) then (([], gm_gpu_count s), s) else
    let to_copy := if count <? gm_gpu_count s then count else gm_gpu_count s in
    ((take (Z.to_nat to_copy) (gm_gpus s), to_copy), s)).

(** The common shape of the indexed getters. *)
Definition get_indexed {A} (out : bool) (index : Z) (read : mvgal_gpu_descriptor_t -> A)
  (s : mvgal_gpu_manager_state_t) : (mvgal_error_t * option A) * mvgal_gpu_manager_state_t :=
  if negb out then ((MVGAL_ERROR_INVALID_ARGUMENT, None), s) else
  manager_op (fun s =>
    if gm_gpu_count s <=? index then ((MVGAL_ERROR_GPU_NOT_FOUND, None), s)
    else ((MVGAL_SUCCESS, Some (read (gpu_at s index))), s)) s.

Definition mvgal_gpu_get_descriptor (index : Z) (gpu : bool) :=
  get_indexed gpu index (fun g => g).

Definition mvgal_gpu_get_utilization (index : Z) (utilization : bool) :=
  get_indexed utilization index g_utilization_percent.

Definition mvgal_gpu_get_temperature (index : Z) (temperature : bool) :=
  get_indexed temperature index g_temperature_celsius.

Definition mvgal_gpu_get_power (index : Z) (power_w : bool) :=
  get_indexed power_w index g_current_power_w.

(** Each of the three outputs is optional. *)
Definition mvgal_gpu_get_memory_stats (index : Z) (total used free : bool) :=
  get_indexed true index (fun g =>
    ((if total then Some (g_vram_total g) else None),
     (if used then Some (g_vram_used g) else None),
     (if free then Some (g_vram_free g) else None))).

Definition mvgal_gpu_get_memory_info (index : Z) (total used free : bool) :=
  mvgal_gpu_get_memory_stats index total used free.

(** The first table entry that satisfies [p]. *)
Definition find_gpu (p : mvgal_gpu_descriptor_t -> bool) (s : mvgal_gpu_manager_state_t)
  : mvgal_error_t * option mvgal_gpu_descriptor_t :=
  match list_find (fun g => p g = true) (gm_live s) with
  | Some (_, g) => (MVGAL_SUCCESS, Some g)
  | None => (MVGAL_ERROR_GPU_NOT_FOUND, None)
  end.

Definition mvgal_gpu_find_by_pci (domain bus device func : Z) (gpu : bool)
  (s : mvgal_gpu_manager_state_t)
  : (mvgal_error_t * option mvgal_gpu_descriptor_t) * mvgal_gpu_manager_state_t :=
  if negb gpu then ((MVGAL_ERROR_INVALID_ARGUMENT, None), s) else
  manager_op (fun s =>
    (find_gpu (fun g => (g_pci_domain g =? domain) && (g_pci_bus g =? bus)
                        && (g_pci_device g =? device) && (g_pci_function g =? func)) s, s)) s.

Definition mvgal_gpu_find_by_node (node_path : option string) (gpu : bool)
  (s : mvgal_gpu_manager_state_t)
  : (mvgal_error_t * option mvgal_gpu_descriptor_t) * mvgal_gpu_manager_state_t :=
  match node_path, gpu with
  | Some path, true =>
      manager_op (fun s =>
        (find_gpu (fun g => node_matches (g_drm_node g) path
                            || node_matches (g_drm_render_node g) path
                            || node_matches (g_nvidia_node g) path
                            || node_matches (g_kfd_node g) path) s, s)) s
  | _, _ => ((MVGAL_ERROR_INVALID_ARGUMENT, None), s)
  end.

(** The entries stored in the caller's array and the number of matches. *)
Definition mvgal_gpu_find_by_vendor (vendor : mvgal_vendor_t) (gpus : bool) (count : Z)
  : mvgal_gpu_manager_state_t ->
    (list mvgal_gpu_descriptor_t * Z) * mvgal_gpu_manager_state_t :=
  manager_op (fun s =>
    let found := filter (fun g => g_vendor g = vendor) (gm_live s) in
    ((if gpus then take (Z.to_nat count) found else [], Z.of_nat (length found)), s)).

Definition mvgal_gpu_is_enabled (index : Z)
  : mvgal_gpu_manager_state_t -> bool * mvgal_gpu_manager_state_t :=
  manager_op (fun s =>
    (if index <? gm_gpu_count s then g_enabled (gpu_at s index) else false, s)).

Definition mvgal_gpu_has_feature (index feature : Z)
  : mvgal_gpu_manager_state_t -> bool * mvgal_gpu_manager_state_t :=
  manager_op (fun s =>
    (if index <? gm_gpu_count s
     then Z.land (g_features (gpu_at s index)) feature =? feature else false, s)).

Definition mvgal_gpu_has_api (index api : Z)
  : mvgal_gpu_manager_state_t -> bool * mvgal_gpu_manager_state_t :=
  manager_op (fun s =>
    (if index <? gm_gpu_count s
     then Z.land (gpu_api_mask (gpu_at s index)) api =? api else false, s)).

(** A handle is the address of a table entry, that is its index. *)
Definition mvgal_gpu_get_handle (index : Z)
  : mvgal_gpu_manager_state_t -> option Z * mvgal_gpu_manager_state_t :=
  manager_op (fun s => (if index <? gm_gpu_count s then Some index else None, s)).

Definition mvgal_gpu_get_handle_by_node (node_path : option string)
  (s : mvgal_gpu_manager_state_t) : option Z * mvgal_gpu_manager_state_t :=
  let '((e, found), s) := mvgal_gpu_find_by_node node_path true s in
  match e, found with
  | MVGAL_SUCCESS, Some g => mvgal_gpu_get_handle (g_id g) s
  | _, _ => (None, s)
  end.

(** ** Updates *)

Definition mvgal_gpu_enable (index : Z) (enable : bool)
  : mvgal_gpu_manager_state_t -> mvgal_error_t * mvgal_gpu_manager_state_t :=
  manager_op (fun s =>
    if gm_gpu_count s <=? index then (MVGAL_ERROR_GPU_NOT_FOUND, s) else
    (MVGAL_SUCCESS,
     s <| gm_gpus ::= fun l =>
            <[Z.to_nat index := (gpu_at s index) <| g_enabled := enable |>]> l |>)).

Definition set_all_enabled (enable : bool)
  : mvgal_gpu_manager_state_t -> mvgal_error_t * mvgal_gpu_manager_state_t :=
  manager_op (fun s =>
    (MVGAL_SUCCESS,
     s <| gm_gpus ::= fun l =>
            ((fun g => g <| g_enabled := enable |>) <$> gm_live s)
            ++ drop (Z.to_nat (gm_gpu_count s)) l |>)).

Definition mvgal_gpu_enable_all := set_all_enabled true.
Definition mvgal_gpu_disable_all := set_all_enabled false.

(** ** Callbacks and drivers *)

Fixpoint register_in (callback : addr) (user_data : option addr)
  (cbs : list mvgal_gpu_callback_entry_t) : mvgal_error_t * list mvgal_gpu_callback_entry_t :=
  match cbs with
  | [] => (MVGAL_ERROR_BUSY, [])
  | c :: rest =>
      if bool_decide (cb_callback c = Some callback) then (MVGAL_ERROR_ALREADY_INITIALIZED, cbs)
      else if bool_decide (cb_callback c = None)
      then (MVGAL_SUCCESS, mk_cb (Some callback) user_data :: rest)
      else let '(e, rest') := register_in callback user_data rest in (e, c :: rest')
  end.

Definition mvgal_gpu_register_callback (callback user_data : option addr)
  (s : mvgal_gpu_manager_state_t) : mvgal_error_t * mvgal_gpu_manager_state_t :=
  match callback with
  | None => (MVGAL_ERROR_INVALID_ARGUMENT, s)
  | Some cb =>
      let '(e, cbs) := register_in cb user_data (gm_callbacks s) in
      (e, s <| gm_callbacks := cbs |>)
  end.

Fixpoint unregister_in (callback : addr) (cbs : list mvgal_gpu_callback_entry_t)
  : mvgal_error_t * list mvgal_gpu_callback_entry_t :=
  match cbs with
  | [] => (MVGAL_ERROR_NOT_FOUND, [])
  | c :: rest =>
      if bool_decide (cb_callback c = Some callback) then (MVGAL_SUCCESS, cb_zero :: rest)
      else let '(e, rest') := unregister_in callback rest in (e, c :: rest')
  end.

Definition mvgal_gpu_unregister_callback (callback : option addr)
  (s : mvgal_gpu_manager_state_t) : mvgal_error_t * mvgal_gpu_manager_state_t :=
  match callback with
  | None => (MVGAL_ERROR_INVALID_ARGUMENT, s)
  | Some cb =>
      let '(e, cbs) := unregister_in cb (gm_callbacks s) in
      (e, s <| gm_callbacks := cbs |>)
  end.

Definition mvgal_gpu_register_driver (name : option string)
  (probe_func init_func user_data : option addr) (s : mvgal_gpu_manager_state_t)
  : mvgal_error_t * mvgal_gpu_manager_state_t :=
  match name with
  | None | Some EmptyString => (MVGAL_ERROR_INVALID_ARGUMENT, s)
  | Some n =>
      if (MAX_CUSTOM_DRIVERS <=? length (gm_drivers s))%nat then (MVGAL_ERROR_BUSY, s) else
      (MVGAL_SUCCESS,
       s <| gm_drivers ::= fun l =>
              l ++ [mk_driver (String.substring 0 63 n) probe_func init_func user_data] |>)
  end.

End Manager.

(** ** The table invariant *)

Record table_wf (s : mvgal_gpu_manager_state_t) : Prop := {
  tw_gpus : length (gm_gpus s) = MAX_GPUS;
  tw_thresholds : length (gm_thresholds s) = MAX_GPUS;
  tw_count : 0 <= gm_gpu_count s <= 16;
  tw_entries : forall i g, gm_live s !! i = Some g -> g_id g = Z.of_nat i /\ gpu_complete g
}.

Record gm_wf (s : mvgal_gpu_manager_state_t) : Prop := {
  gw_table : table_wf s;
  gw_callbacks : length (gm_callbacks s) = MAX_GPU_CALLBACKS;
  gw_drivers : (length (gm_drivers s) <= MAX_CUSTOM_DRIVERS)%nat;
  gw_ready : gm_initialized s = true -> gm_scanned s = true /\ 0 < gm_gpu_count s
}.

Lemma live_length s : table_wf s -> length (gm_live s) = Z.to_nat (gm_gpu_count s).
Proof. intros [Hg _ Hc _]. unfold gm_live. rewrite length_take, Hg. unfold MAX_GPUS. lia. Qed.

Lemma live_lookup s i :
  0 <= i < gm_gpu_count s -> table_wf s -> gm_live s !! Z.to_nat i = Some (gpu_at s i).
Proof.
  intros Hi [Hg _ Hc _]. unfold gm_live, gpu_at, MAX_GPUS in *.
  rewrite lookup_take_lt by lia.
  apply list_lookup_lookup_total_lt. lia.
Qed.

(** A table whose occupied prefix is [live]. *)
Lemma table_wf_intro s live rest :
  gm_gpus s = live ++ rest -> length (gm_gpus s) = MAX_GPUS ->
  length (gm_thresholds s) = MAX_GPUS -> gm_gpu_count s = Z.of_nat (length live) ->
  (forall i g, live !! i = Some g -> g_id g = Z.of_nat i /\ gpu_complete g) ->
  table_wf s.
Proof.
  intros Hg Hl Ht Hc He. split; [done|done| |].
  - unfold MAX_GPUS in *. rewrite Hg, length_app in Hl. lia.
  - unfold gm_live. rewrite Hc, Nat2Z.id, Hg, take_app_length. done.
Qed.

Lemma gm_gpus_split s : gm_gpus s = gm_live s ++ drop (Z.to_nat (gm_gpu_count s)) (gm_gpus s).
Proof. unfold gm_live. by rewrite take_drop. Qed.

Lemma push_gpu_live s g :
  table_wf s -> gm_gpu_count s < 16 ->
  gm_live (push_gpu g s) = gm_live s ++ [g].
Proof.
  intros [Hg _ Hc _] Hlt. unfold gm_live, push_gpu; cbn. unfold MAX_GPUS in *.
  replace (Z.to_nat (gm_gpu_count s + 1)) with (S (Z.to_nat (gm_gpu_count s))) by lia.
  erewrite take_S_r by (apply list_lookup_insert_eq; lia).
  by rewrite take_insert_ge by lia.
Qed.

Lemma push_gpu_wf s g :
  table_wf s -> gm_gpu_count s < 16 -> g_id g = gm_gpu_count s -> gpu_complete g ->
  table_wf (push_gpu g s).
Proof.
  intros Hwf Hlt Hid Hg. pose proof (push_gpu_live s g Hwf Hlt) as Hlive.
  pose proof (live_length s Hwf) as Hlen. destruct Hwf as [Hgl Htl Hc He].
  split.
  - cbn. by rewrite length_insert.
  - cbn. by rewrite length_insert.
  - cbn. lia.
  - rewrite Hlive. intros i g' Hi. apply lookup_app_Some in Hi as [Hi|[Hi Hg']]; [auto|].
    apply list_lookup_singleton_Some in Hg' as [Hz <-]. split; [lia|done].
Qed.

Lemma table_full_false s : table_full s = false -> gm_gpu_count s < 16.
Proof. unfold table_full. intros ?%Z.leb_gt. done. Qed.

Section ManagerProofs.
Context `{GpuOS}.

Lemma read_file_u64_range path v : read_file_u64 path = Some v -> is_u64 v.
Proof.
  unfold read_file_u64. repeat case_match; intros; simplify_eq. by eapply strtoull0_range.
Qed.

Lemma read_first_u64_range root cs : is_u64 (read_first_u64 root cs).
Proof.
  induction cs as [|c cs IH]; simpl; [unfold is_u64, U64_MAX; lia|].
  case_match; [by eapply read_file_u64_range|done].
Qed.

Lemma drm_descriptor_raw id e link real :
  gpu_raw_ok (drm_descriptor id e link real) /\ g_id (drm_descriptor id e link real) = id.
Proof.
  pose proof (read_first_u64_range link
    ["mem_info_vram_total"; "mem_info_vis_vram_total"; "lmem_total_bytes"]%string) as Ht.
  pose proof (read_first_u64_range link
    ["mem_info_vram_used"; "mem_info_vis_vram_used"; "lmem_used_bytes"]%string) as Hu.
  unfold drm_descriptor.
  destruct (parse_pci_address real) as [[[[d b] v] f]|];
  destruct (attr link "/current_link_speed" _);
  (destruct (attr link "/current_link_width" read_file_u64) as [lanes|];
   [destruct (lanes <=? 255)|]);
  case_match; (split; [split|]); cbn -[read_first_u64]; done.
Qed.

Lemma finalize_id g : g_id (finalize_gpu_descriptor g) = g_id g.
Proof. cbn. reflexivity. Qed.

Lemma nvidia_descriptor_raw id path : gpu_raw_ok (nvidia_descriptor id path).
Proof. by split. Qed.

Lemma complete_raw_ok g : gpu_complete g -> gpu_raw_ok g.
Proof. intros []. split; unfold is_u64; [lia|lia|done|lia]. Qed.

(** The scans only append, so an invariant of [push_gpu] is one of theirs. *)
Lemma scan_drm_entries_wf entries s : table_wf s -> table_wf (scan_drm_entries entries s).
Proof.
  revert s. induction entries as [|e rest IH]; intros s Hs; simpl; [done|].
  destruct (table_full s) eqn:Hf; [done|]. apply table_full_false in Hf.
  case_match; [|by apply IH]. case_match; [|by apply IH].
  apply IH, push_gpu_wf; [done|done| |].
  - rewrite finalize_id. by apply drm_descriptor_raw.
  - by apply finalize_gpu_complete, drm_descriptor_raw.
Qed.

Lemma attach_nvidia_Some path live k i g :
  attach_nvidia path live k = Some (i, g) ->
  exists j g0, i = (k + j)%nat /\ live !! j = Some g0
    /\ g = finalize_gpu_descriptor (g0 <| g_nvidia_node := path |>).
Proof.
  revert k. induction live as [|g0 live IH]; intros k; simpl; [done|].
  destruct (_ && _); intros Hg.
  - simplify_eq. exists 0%nat, g0. rewrite Nat.add_0_r. done.
  - apply IH in Hg as (j & g1 & -> & Hj & ->). exists (S j), g1. split; [lia|done].
Qed.

(** Replacing an occupied entry. *)
Lemma table_wf_insert s i g g' :
  table_wf s -> gm_live s !! i = Some g -> g_id g' = g_id g -> gpu_complete g' ->
  table_wf (s <| gm_gpus ::= fun l => <[i := g']> l |>).
Proof.
  intros Hwf Hi Hid Hc. pose proof (live_length s Hwf) as Hlen.
  pose proof (lookup_lt_Some _ _ _ Hi) as Hlt.
  destruct Hwf as [Hgl Htl Hcnt He]. split; cbn; [by rewrite length_insert|done|done|].
  intros j h. unfold gm_live; cbn. rewrite take_insert_lt by lia. fold (gm_live s).
  intros [(-> & <- & _)|[Hne Hj]]%list_lookup_insert_Some; [|by apply He].
  split; [|done]. rewrite Hid. by apply He.
Qed.

Lemma scan_nvidia_entries_wf entries s : table_wf s -> table_wf (scan_nvidia_entries entries s).
Proof.
  revert s. induction entries as [|e rest IH]; intros s Hs; simpl; [done|].
  destruct (table_full s) eqn:Hf; [done|]. apply table_full_false in Hf.
  case_match; [|by apply IH].
  destruct (attach_nvidia _ _ _) as [[i g]|] eqn:Ha.
  - apply attach_nvidia_Some in Ha as (j & g0 & -> & Hj & ->). simpl in *.
    destruct (tw_entries s Hs j g0 Hj) as [Hid Hc].
    eapply IH, table_wf_insert; [done|done|by rewrite finalize_id|].
    apply finalize_gpu_complete. destruct (complete_raw_ok g0 Hc). by split.
  - apply IH, push_gpu_wf; [done|done| |].
    + by rewrite finalize_id.
    + apply finalize_gpu_complete, nvidia_descriptor_raw.
Qed.

Lemma scan_wf s : table_wf s -> table_wf (scan_nvidia_devices_locked (scan_drm_devices_locked s)).
Proof.
  intros Hs. unfold scan_nvidia_devices_locked, scan_drm_devices_locked.
  repeat case_match; auto using scan_nvidia_entries_wf, scan_drm_entries_wf.
Qed.

Lemma placeholder_wf s :
  table_wf s -> table_wf (add_placeholder_gpu_locked s).
Proof.
  intros Hs. unfold add_placeholder_gpu_locked.
  destruct (table_full s) eqn:Hf; [done|]. apply table_full_false in Hf.
  destruct (api_mask_to_list _ _) as [apis n] eqn:Ea.
  assert (length apis = 16%nat /\ n = 3) as [Hlen ->] by (vm_compute in Ea; by simplify_eq).
  apply push_gpu_wf; [done|done| |].
  - cbn. reflexivity.
  - match goal with |- gpu_complete ((finalize_gpu_descriptor ?g) <| _ := _ |> <| _ := _ |>) =>
      assert (Hg : gpu_complete (finalize_gpu_descriptor g))
        by (apply finalize_gpu_complete; split; cbn; [done|done|done|lia]);
      revert Hg; generalize (finalize_gpu_descriptor g) end.
    intros h [? ? ? ? ? ? ? ? ? ? ?]. by split.
Qed.

Lemma restore_one_spec old oldt i g :
  (restore_one old oldt i g).1
  = g <| g_enabled := match find_persisted g old oldt with
                      | Some (o, _) => g_enabled o | None => g_enabled g end |>
      <| g_id := Z.of_nat i |>
  /\ (restore_one old oldt i g).2
     = match find_persisted g old oldt with
       | Some (_, t) => t | None => DEFAULT_HEALTH_THRESHOLDS end.
Proof.
  unfold restore_one. destruct (find_persisted g old oldt) as [[o t]|]; [done|].
  split; [|done]. by destruct g.
Qed.

Lemma restored_lookup old oldt l i g :
  (imap (restore_one old oldt) l).*1 !! i = Some g ->
  exists g0, l !! i = Some g0 /\ g = (restore_one old oldt i g0).1.
Proof.
  rewrite list_lookup_fmap, list_lookup_imap. intros Hi.
  destruct (l !! i) as [g0|]; simplify_eq/=. eauto.
Qed.

Lemma restore_one_complete old oldt i g : gpu_complete g -> gpu_complete (restore_one old oldt i g).1.
Proof.
  intros [? ? ? ? ? ? ? ? ? ? ?]. destruct (restore_one_spec old oldt i g) as [-> _].
  by split.
Qed.

Lemma restore_gpus old oldt n s :
  gm_gpus (restore_persisted_state_locked old oldt n s)
  = (imap (restore_one (take n old) (take n oldt)) (gm_live s)).*1
    ++ drop (Z.to_nat (gm_gpu_count s)) (gm_gpus s).
Proof. done. Qed.

Lemma restore_wf old oldt n s :
  table_wf s -> table_wf (restore_persisted_state_locked old oldt n s).
Proof.
  intros Hwf. pose proof (live_length s Hwf) as Hlen.
  pose proof Hwf as [Hgl Htl Hcnt He].
  eapply table_wf_intro; [apply restore_gpus| | | |].
  - rewrite restore_gpus, length_app, length_fmap, length_imap, length_drop, Hlen.
    unfold MAX_GPUS in *. lia.
  - unfold restore_persisted_state_locked; cbn.
    rewrite length_app, length_fmap, length_imap, length_drop, Hlen. unfold MAX_GPUS in *. lia.
  - rewrite length_fmap, length_imap, Hlen. cbn. lia.
  - intros i g (g0 & Hi & ->)%restored_lookup. apply He in Hi as [Hid Hc].
    split; [|by apply restore_one_complete].
    by destruct (restore_one_spec (take n old) (take n oldt) i g0) as [-> _].
Qed.

Definition cleared (s : mvgal_gpu_manager_state_t) : mvgal_gpu_manager_state_t :=
  s <| gm_gpus := replicate MAX_GPUS gpu_zero |>
    <| gm_thresholds := replicate MAX_GPUS thresholds_zero |> <| gm_gpu_count := 0 |>.

Lemma cleared_wf s : table_wf (cleared s).
Proof. by apply (table_wf_intro (cleared s) [] (replicate MAX_GPUS gpu_zero)). Qed.

(** The table right after a scan, before earlier choices are restored. *)
Definition scanned_table (s : mvgal_gpu_manager_state_t) : mvgal_gpu_manager_state_t :=
  let s := scan_nvidia_devices_locked (scan_drm_devices_locked (cleared s)) in
  if gm_gpu_count s =? 0 then add_placeholder_gpu_locked s else s.

Lemma scanned_table_wf s : table_wf (scanned_table s) /\ 0 < gm_gpu_count (scanned_table s).
Proof.
  unfold scanned_table. pose proof (scan_wf (cleared s) (cleared_wf s)) as Hwf.
  destruct (_ =? 0) eqn:E; bools.
  - split; [by apply placeholder_wf|].
    unfold add_placeholder_gpu_locked, table_full. rewrite E. cbn. rewrite E. lia.
  - split; [done|]. pose proof (tw_count _ Hwf). lia.
Qed.

Lemma rescan_eq s :
  rescan_gpus_locked s
  = let s' := (restore_persisted_state_locked (gm_gpus s) (gm_thresholds s)
                 (Z.to_nat (gm_gpu_count s)) (scanned_table s)) <| gm_scanned := true |> in
    (gm_live s', s').
Proof. reflexivity. Qed.

(** Fields the scans do not touch. *)
Definition frame_of (s : mvgal_gpu_manager_state_t) :=
  (gm_callbacks s, gm_drivers s, gm_initialized s, gm_notified s).

Lemma frame_inv s s' :
  frame_of s = frame_of s' ->
  gm_callbacks s = gm_callbacks s' /\ gm_drivers s = gm_drivers s'
  /\ gm_initialized s = gm_initialized s' /\ gm_notified s = gm_notified s'.
Proof. unfold frame_of. intros Hf. by injection Hf. Qed.

Lemma scan_frame s : frame_of (scanned_table s) = frame_of s.
Proof.
  assert (Hd : forall l s, frame_of (scan_drm_entries l s) = frame_of s).
  { induction l as [|e l IH]; intros s'; simpl; [done|]. repeat case_match; rewrite ?IH; done. }
  assert (Hn : forall l s, frame_of (scan_nvidia_entries l s) = frame_of s).
  { induction l as [|e l IH]; intros s'; simpl; [done|]. repeat case_match; rewrite ?IH; done. }
  assert (Hb : frame_of (scan_nvidia_devices_locked (scan_drm_devices_locked (cleared s)))
               = frame_of s).
  { unfold scan_nvidia_devices_locked, scan_drm_devices_locked.
    repeat case_match; rewrite ?Hn, ?Hd; done. }
  unfold scanned_table. case_match; [|done]. rewrite <- Hb.
  unfold add_placeholder_gpu_locked. by repeat case_match.
Qed.

Lemma table_wf_ext s s' :
  gm_gpus s' = gm_gpus s -> gm_thresholds s' = gm_thresholds s ->
  gm_gpu_count s' = gm_gpu_count s -> table_wf s -> table_wf s'.
Proof.
  intros Hg Ht Hc [? ? ? He]. split; [by rewrite Hg|by rewrite Ht|by rewrite Hc|].
  intros i g. unfold gm_live. rewrite Hg, Hc. apply He.
Qed.

Lemma rescan_table_wf s :
  table_wf (rescan_gpus_locked s).2 /\ 0 < gm_gpu_count (rescan_gpus_locked s).2.
Proof.
  rewrite rescan_eq. cbn [snd].
  destruct (scanned_table_wf s) as [Hwf Hpos]. split; [|exact Hpos].
  eapply table_wf_ext; [| | |apply restore_wf, Hwf]; reflexivity.
Qed.

Lemma rescan_frame s : frame_of (rescan_gpus_locked s).2 = frame_of s.
Proof. rewrite rescan_eq, <- (scan_frame s). reflexivity. Qed.

Lemma rescan_wf s : gm_wf s -> gm_wf (rescan_gpus_locked s).2.
Proof.
  intros [Ht Hc Hd Hr]. destruct (rescan_table_wf s) as [Hwf Hpos].
  destruct (frame_inv _ _ (rescan_frame s)) as (Hf1 & Hf2 & Hf3 & Hf4).
  split; [done|by rewrite Hf1|by rewrite Hf2|done].
Qed.

Lemma notify_wf snap s : gm_wf s -> gm_wf (notify_gpu_callbacks snap s).
Proof. intros [Ht ? ? ?]. split; [by apply (table_wf_ext s)|done|done|done]. Qed.

Lemma init_wf s : gm_wf s -> gm_wf (mvgal_gpu_manager_init s).
Proof.
  intros Hs. unfold mvgal_gpu_manager_init. destruct (gm_initialized s) eqn:Hi; [done|].
  pose proof (rescan_table_wf (s <| gm_initialized := true |>)) as [Hwf Hpos].
  destruct (frame_inv _ _ (rescan_frame (s <| gm_initialized := true |>))) as (Hf1 & Hf2 & Hf3 & _).
  destruct (rescan_gpus_locked _) as [snap s'] eqn:E. apply notify_wf.
  destruct Hs as [_ Hc Hd _]. simpl in *.
  split; [done|by rewrite Hf1|by rewrite Hf2|]. intros _. split; [|done].
  rewrite rescan_eq in E. by injection E as <- <-.
Qed.

Lemma ensure_wf s : gm_wf s -> gm_wf (ensure_gpu_manager_initialized s).
Proof. intros. unfold ensure_gpu_manager_initialized. case_match; auto using init_wf. Qed.

Lemma ensure_initialized s : gm_initialized (ensure_gpu_manager_initialized s) = true.
Proof.
  unfold ensure_gpu_manager_initialized, mvgal_gpu_manager_init.
  destruct (gm_initialized s) eqn:Hi; [done|].
  destruct (frame_inv _ _ (rescan_frame (s <| gm_initialized := true |>))) as (Hf1 & Hf2 & Hf3 & _).
  destruct (rescan_gpus_locked _) as [snap s']. exact Hf3.
Qed.

Lemma ensure_idle s : gm_initialized s = true -> ensure_gpu_manager_initialized s = s.
Proof. unfold ensure_gpu_manager_initialized. by intros ->. Qed.

Lemma rescan_op_wf s : gm_wf s -> gm_wf (mvgal_gpu_rescan s).2.
Proof.
  intros Hs%ensure_wf. unfold mvgal_gpu_rescan.
  pose proof (rescan_wf _ Hs) as Hr. destruct (rescan_gpus_locked _). by apply notify_wf.
Qed.

(** Changing only the enabled flags keeps the table. *)
Lemma set_enabled_complete g b : gpu_complete g -> gpu_complete (g <| g_enabled := b |>).
Proof. intros [? ? ? ? ? ? ? ? ? ? ?]. by split. Qed.

Lemma enable_wf i b s : gm_wf s -> 0 <= i -> gm_wf (mvgal_gpu_enable i b s).2.
Proof.
  intros Hs%ensure_wf Hi. unfold mvgal_gpu_enable, manager_op.
  destruct (_ <=? i) eqn:E; bools; [done|]. cbn [snd].
  set (t := ensure_gpu_manager_initialized s) in *. destruct Hs as [Ht Hc Hd Hr].
  pose proof (live_lookup t i ltac:(lia) Ht) as Hl.
  destruct (tw_entries t Ht _ _ Hl) as [Hid Hg]. split; [|done|done|done].
  eapply (table_wf_insert t); [done|exact Hl|reflexivity|by apply set_enabled_complete].
Qed.

Lemma set_all_enabled_wf b s : gm_wf s -> gm_wf (set_all_enabled b s).2.
Proof.
  intros Hs%ensure_wf. unfold set_all_enabled, manager_op. cbn [snd].
  set (t := ensure_gpu_manager_initialized s) in *. destruct Hs as [Ht Hc Hd Hr].
  pose proof (live_length t Ht) as Hlen. destruct Ht as [Hgl Htl Hcnt He].
  split; [|done|done|done].
  eapply table_wf_intro; [reflexivity| |exact Htl| |].
  - cbn. rewrite length_app, length_fmap, length_drop, Hlen. unfold MAX_GPUS in *. lia.
  - cbn. rewrite length_fmap, Hlen. lia.
  - intros i g Hi. rewrite list_lookup_fmap in Hi.
    destruct (gm_live t !! i) as [g0|] eqn:Hg; simplify_eq/=.
    destruct (He i g0 Hg) as [Hid Hgc]. split; [exact Hid|by apply set_enabled_complete].
Qed.

Lemma register_in_length cb ud l : length (register_in cb ud l).2 = length l.
Proof.
  induction l as [|c l IH]; simpl; [done|]. repeat case_match; simplify_eq/=; auto.
Qed.

Lemma unregister_in_length cb l : length (unregister_in cb l).2 = length l.
Proof.
  induction l as [|c l IH]; simpl; [done|]. repeat case_match; simplify_eq/=; auto.
Qed.

Lemma gm_wf_callbacks s l :
  gm_wf s -> length l = length (gm_callbacks s) -> gm_wf (s <| gm_callbacks := l |>).
Proof.
  intros [Ht Hc Hd Hr] Hl. split; [by apply (table_wf_ext s)|cbn; by rewrite Hl|done|done].
Qed.

Lemma register_callback_wf cb ud s : gm_wf s -> gm_wf (mvgal_gpu_register_callback cb ud s).2.
Proof.
  intros Hs. unfold mvgal_gpu_register_callback. destruct cb as [cb|]; [|done].
  pose proof (register_in_length cb ud (gm_callbacks s)) as Hl.
  destruct (register_in _ _ _) as [e l]. by apply gm_wf_callbacks.
Qed.

Lemma unregister_callback_wf cb s : gm_wf s -> gm_wf (mvgal_gpu_unregister_callback cb s).2.
Proof.
  intros Hs. unfold mvgal_gpu_unregister_callback. destruct cb as [cb|]; [|done].
  pose proof (unregister_in_length cb (gm_callbacks s)) as Hl.
  destruct (unregister_in _ _) as [e l]. by apply gm_wf_callbacks.
Qed.

Lemma register_driver_wf n p i u s : gm_wf s -> gm_wf (mvgal_gpu_register_driver n p i u s).2.
Proof.
  intros Hs. unfold mvgal_gpu_register_driver.
  destruct n as [[|c n]|]; [done| |done].
  destruct (Nat.leb_spec MAX_CUSTOM_DRIVERS (length (gm_drivers s))); [done|].
  destruct Hs as [Ht Hc Hd Hr]. cbn [snd].
  split; [by apply (table_wf_ext s)|done| |done]. cbn. rewrite length_app. simpl. lia.
Qed.

Lemma gm_start_wf : gm_wf gm_start.
Proof.
  split; [|done|simpl; lia|done].
  by apply (table_wf_intro gm_start [] (replicate MAX_GPUS gpu_zero)).
Qed.

(** ** Rescans of unchanged hardware *)

(** The descriptor without the flag a client may change. *)
Definition forget (g : mvgal_gpu_descriptor_t) : mvgal_gpu_descriptor_t := g <| g_enabled := true |>.

Definition same_table (s s' : mvgal_gpu_manager_state_t) : Prop :=
  gm_gpus s = gm_gpus s' /\ gm_gpu_count s = gm_gpu_count s'.

Lemma same_table_live s s' : same_table s s' -> gm_live s = gm_live s'.
Proof. intros [Hg Hc]. unfold gm_live. by rewrite Hg, Hc. Qed.

Lemma same_table_push g s s' : same_table s s' -> same_table (push_gpu g s) (push_gpu g s').
Proof. intros [Hg Hc]. split; cbn; by rewrite ?Hg, ?Hc. Qed.

Lemma same_table_drm l s s' :
  same_table s s' -> same_table (scan_drm_entries l s) (scan_drm_entries l s').
Proof.
  revert s s'. induction l as [|e l IH]; intros s s' Hs; simpl; [done|].
  pose proof Hs as [Hg Hc]. unfold table_full. rewrite Hc.
  repeat case_match; auto using same_table_push.
Qed.

Lemma same_table_nvidia l s s' :
  same_table s s' -> same_table (scan_nvidia_entries l s) (scan_nvidia_entries l s').
Proof.
  revert s s'. induction l as [|e l IH]; intros s s' Hs; simpl; [done|].
  pose proof Hs as [Hg Hc]. unfold table_full. rewrite Hc, (same_table_live s s' Hs).
  case_match; [done|]. case_match; [|auto].
  destruct (attach_nvidia _ _ _) as [[i g]|]; [|auto using same_table_push].
  apply IH. split; cbn; by rewrite ?Hg.
Qed.

Lemma same_table_scanned s s' : same_table (scanned_table s) (scanned_table s').
Proof.
  assert (H0 : same_table (cleared s) (cleared s')) by done.
  assert (Hb : same_table (scan_nvidia_devices_locked (scan_drm_devices_locked (cleared s)))
                          (scan_nvidia_devices_locked (scan_drm_devices_locked (cleared s')))).
  { unfold scan_nvidia_devices_locked, scan_drm_devices_locked.
    repeat case_match; auto using same_table_nvidia, same_table_drm. }
  unfold scanned_table. pose proof Hb as [_ Hc]. rewrite Hc. case_match; [|done].
  unfold add_placeholder_gpu_locked, table_full. rewrite Hc.
  case_match; [done|]. case_match. by apply same_table_push.
Qed.

(** What a scan of the present hardware finds. *)
Definition scan_result : list mvgal_gpu_descriptor_t := gm_live (scanned_table gm_start).

(** The table is the scan result, up to the enabled flags. *)
Definition tracks_os (s : mvgal_gpu_manager_state_t) : Prop :=
  gm_initialized s = true -> forget <$> gm_live s = forget <$> scan_result.

Lemma scanned_table_result s : gm_live (scanned_table s) = scan_result.
Proof. apply same_table_live, same_table_scanned. Qed.

Lemma identity_matches_forget g g' h :
  forget g = forget g' -> gpu_identity_matches g h = gpu_identity_matches g' h.
Proof.
  intros Hf. change (gpu_identity_matches (forget g) h = gpu_identity_matches (forget g') h).
  by rewrite Hf.
Qed.

Lemma restored_live s :
  gm_live (rescan_gpus_locked s).2
  = (imap (restore_one (gm_live s) (take (Z.to_nat (gm_gpu_count s)) (gm_thresholds s)))
          scan_result).*1.
Proof.
  rewrite rescan_eq. cbn [snd]. rewrite <- (scanned_table_result s).
  destruct (scanned_table_wf s) as [Hwf _]. pose proof (live_length _ Hwf) as Hlen.
  unfold gm_live at 1. cbn [gm_gpus gm_gpu_count upd].
  change (gm_gpu_count (restore_persisted_state_locked _ _ _ ?t)) with (gm_gpu_count t).
  rewrite restore_gpus. apply take_app_length'.
  by rewrite length_fmap, length_imap.
Qed.

Lemma rescan_tracks s : table_wf s -> tracks_os (rescan_gpus_locked s).2.
Proof.
  intros Hs _. rewrite restored_live. apply list_eq. intros i.
  rewrite !list_lookup_fmap, list_lookup_imap.
  destruct (scan_result !! i) as [g|] eqn:Hg; [|done]. simpl. f_equal.
  destruct (restore_one_spec (gm_live s) (take (Z.to_nat (gm_gpu_count s)) (gm_thresholds s)) i g)
    as [-> _].
  assert (Hid : g_id g = Z.of_nat i).
  { destruct (scanned_table_wf gm_start) as [Hwf _]. by apply (tw_entries _ Hwf). }
  unfold forget. destruct g. cbn in *. by subst.
Qed.

Lemma forget_restore g h i :
  forget g = forget h -> g_id h = Z.of_nat i ->
  g <| g_enabled := g_enabled h |> <| g_id := Z.of_nat i |> = h.
Proof.
  intros Hf Hid.
  change ((forget g) <| g_enabled := g_enabled h |> <| g_id := Z.of_nat i |> = h).
  rewrite Hf, <- Hid. by destruct h.
Qed.

Lemma find_persisted_first g old oldt i o t :
  old !! i = Some o -> oldt !! i = Some t -> gpu_identity_matches g o = true ->
  (forall j o', (j < i)%nat -> old !! j = Some o' -> gpu_identity_matches g o' = false) ->
  find_persisted g old oldt = Some (o, t).
Proof.
  revert oldt i. induction old as [|o0 old IH]; intros [|t0 oldt] [|i] Ho Ht Hm Hmin;
    simplify_eq/=; [by rewrite Hm|].
  rewrite (Hmin 0%nat o0) by (lia || done).
  apply (IH oldt i); [done|done|done|]. intros j o' Hj. apply (Hmin (S j)). lia.
Qed.

Lemma rescan_keeps_entry s i g t :
  table_wf s -> tracks_os s -> gm_initialized s = true ->
  gm_live s !! i = Some g -> gm_thresholds s !! i = Some t ->
  gpu_identity_matches g g = true ->
  (forall j g', (j < i)%nat -> gm_live s !! j = Some g' -> gpu_identity_matches g g' = false) ->
  gm_live (rescan_gpus_locked s).2 !! i = Some g
  /\ gm_thresholds (rescan_gpus_locked s).2 !! i = Some t.
Proof.
  intros Hwf Htr Hinit Hg Ht Hself Hmin. specialize (Htr Hinit).
  assert (exists g1, scan_result !! i = Some g1 /\ forget g1 = forget g) as (g1 & Hg1 & Hf).
  { assert (He : (forget <$> gm_live s) !! i = (forget <$> scan_result) !! i) by congruence.
    rewrite !list_lookup_fmap, Hg in He. destruct (scan_result !! i) as [g1|]; [|done].
    apply (inj Some) in He. by exists g1. }
  set (n := Z.to_nat (gm_gpu_count s)) in *.
  pose proof (lookup_lt_Some _ _ _ Hg) as Hlt. rewrite (live_length s Hwf) in Hlt.
  assert (Hfind : find_persisted g1 (gm_live s) (take n (gm_thresholds s)) = Some (g, t)).
  { apply (find_persisted_first _ _ _ i); [done|by rewrite lookup_take_lt|..].
    - by rewrite (identity_matches_forget g1 g).
    - intros j o' Hj Ho. rewrite (identity_matches_forget g1 g) by done. by eapply Hmin. }
  destruct (restore_one_spec (gm_live s) (take n (gm_thresholds s)) i g1) as [Hr1 Hr2].
  rewrite Hfind in Hr1, Hr2.
  rewrite (forget_restore g1 g i Hf) in Hr1 by (by apply (tw_entries s Hwf)).
  split.
  - rewrite restored_live, list_lookup_fmap, list_lookup_imap, Hg1. simpl. f_equal. exact Hr1.
  - rewrite rescan_eq. cbn [snd].
    change (((imap (restore_one (gm_live s) (take n (gm_thresholds s)))
               (gm_live (scanned_table s))).*2
             ++ drop (Z.to_nat (gm_gpu_count (scanned_table s)))
                     (gm_thresholds (scanned_table s))) !! i = Some t).
    rewrite scanned_table_result. apply lookup_app_l_Some.
    rewrite list_lookup_fmap, list_lookup_imap, Hg1. simpl. f_equal. exact Hr2.
Qed.

Lemma notify_tracks snap s : tracks_os s -> tracks_os (notify_gpu_callbacks snap s).
Proof. intros Hs. exact Hs. Qed.

Lemma init_tracks s : gm_wf s -> tracks_os s -> tracks_os (mvgal_gpu_manager_init s).
Proof.
  intros Hwf Hs. unfold mvgal_gpu_manager_init. destruct (gm_initialized s) eqn:Hi; [done|].
  pose proof (rescan_tracks (s <| gm_initialized := true |>)) as Htr.
  destruct (rescan_gpus_locked _) as [snap s']. apply notify_tracks, Htr.
  by apply (table_wf_ext s), Hwf.
Qed.

Lemma ensure_tracks s : gm_wf s -> tracks_os s -> tracks_os (ensure_gpu_manager_initialized s).
Proof. intros. unfold ensure_gpu_manager_initialized. case_match; auto using init_tracks. Qed.

Lemma rescan_op_tracks s : gm_wf s -> tracks_os (mvgal_gpu_rescan s).2.
Proof.
  intros Hwf%ensure_wf. unfold mvgal_gpu_rescan.
  pose proof (rescan_tracks _ (gw_table _ Hwf)) as Htr.
  destruct (rescan_gpus_locked _). by apply notify_tracks.
Qed.

Lemma enable_tracks i b s : gm_wf s -> 0 <= i -> tracks_os s -> tracks_os (mvgal_gpu_enable i b s).2.
Proof.
  intros Hwf Hi Hs. pose proof (ensure_tracks s Hwf Hs) as Ht. apply ensure_wf in Hwf.
  unfold mvgal_gpu_enable, manager_op. set (t := ensure_gpu_manager_initialized s) in *.
  destruct (_ <=? i) eqn:E; bools; [done|]. cbn [snd]. intros Hinit. rewrite <- (Ht Hinit).
  pose proof (live_lookup t i ltac:(lia) (gw_table t Hwf)) as Hl.
  unfold gm_live at 1; cbn [gm_gpus gm_gpu_count upd]. rewrite take_insert_lt by lia.
  fold (gm_live t). rewrite list_fmap_insert. apply list_insert_id.
  rewrite list_lookup_fmap, Hl. reflexivity.
Qed.

Lemma set_all_enabled_tracks b s :
  gm_wf s -> tracks_os s -> tracks_os (set_all_enabled b s).2.
Proof.
  intros Hwf Hs. pose proof (ensure_tracks s Hwf Hs) as Ht. apply ensure_wf in Hwf.
  unfold set_all_enabled, manager_op. set (t := ensure_gpu_manager_initialized s) in *.
  cbn [snd]. intros Hinit. rewrite <- (Ht Hinit).
  unfold gm_live at 1; cbn [gm_gpus gm_gpu_count upd].
  rewrite take_app_length' by (by rewrite length_fmap, (live_length t (gw_table t Hwf))).
  by rewrite <- list_fmap_compose.
Qed.

(** The index the indexed accessors read. *)
Lemma get_indexed_spec {A} (read : mvgal_gpu_descriptor_t -> A) i s :
  gm_wf s -> 0 <= i ->
  (get_indexed true i read s).1
  = match gm_live (ensure_gpu_manager_initialized s) !! Z.to_nat i with
    | Some g => (MVGAL_SUCCESS, Some (read g))
    | None => (MVGAL_ERROR_GPU_NOT_FOUND, None)
    end.
Proof.
  intros Hwf%ensure_wf Hi. unfold get_indexed, manager_op. cbn [negb].
  set (t := ensure_gpu_manager_initialized s) in *.
  destruct (gm_gpu_count t <=? i) eqn:E; bools.
  - rewrite lookup_ge_None_2; [done|]. rewrite (live_length t (gw_table t Hwf)). lia.
  - by rewrite (live_lookup t i ltac:(lia) (gw_table t Hwf)).
Qed.

End ManagerProofs.
