(* ===== verification/GpuHealth.v ===== *)
(** * Health monitoring and the lifetime of the GPU manager

    Health levels, thresholds, the monitor's control state and the shutdown
    of the manager, from src/userspace/daemon/gpu_manager.c; then the manager
    as a transition system over all its operations, with the invariant of its
    reachable states. *)

From S2P Require Import Prelude Float32 GpuTypes GpuManager.
From stdpp Require Import strings.
Local Open Scope Z_scope.

Definition evaluate_health_level (status : option mvgal_gpu_health_status_t)
  (thresholds : option mvgal_gpu_health_thresholds_t) : mvgal_gpu_health_level_t :=
  match status, thresholds with
  | Some st, Some th =>
      let memory_usage_percent :=
        if fgt (hs_memory_total_mb st) f0
        then fmul (fdiv (hs_memory_used_mb st) (hs_memory_total_mb st)) (f32_of_Z 100) else f0 in
      if fge (hs_temperature_celsius st) (temp_critical_celsius th)
         || fge (hs_utilization_percent st) (utilization_critical th)
         || fge memory_usage_percent (memory_critical th)
      then MVGAL_HEALTH_CRITICAL
      else if fge (hs_temperature_celsius st) (temp_warning_celsius th)
              || fge (hs_utilization_percent st) (utilization_warning th)
              || fge memory_usage_percent (memory_warning th)
      then MVGAL_HEALTH_WARNING
      else MVGAL_HEALTH_OK
  | _, _ => MVGAL_HEALTH_UNKNOWN
  end.

Definition mib (bytes : Z) : f32 := f32_of_f64 (f64_div (f64_of_Z bytes) (f64_of_Z 1048576)).

(** The status without its verdict; [now] is [get_time_ns()]. *)
Definition raw_health_status (index : Z) (gpu : mvgal_gpu_descriptor_t) (now : Z)
  : mvgal_gpu_health_status_t :=
  mk_status index (g_temperature_celsius gpu) (f32_of_Z 100) (g_utilization_percent gpu)
            (mib (g_vram_used gpu)) (mib (g_vram_total gpu)) false now.

#[export] Instance health_status_eta : Eta mvgal_gpu_health_status_t := fun r =>
  mk_status (hs_gpu_index r) (hs_temperature_celsius r) (hs_temperature_max_celsius r)
            (hs_utilization_percent r) (hs_memory_used_mb r) (hs_memory_total_mb r)
            (hs_is_healthy r) (hs_timestamp_ns r).

Definition build_health_status_locked (index : Z) (status : bool) (now : Z)
  (s : mvgal_gpu_manager_state_t) : mvgal_error_t * option mvgal_gpu_health_status_t :=
  if negb status then (MVGAL_ERROR_INVALID_ARGUMENT, None) else
  if gm_gpu_count s <=? index then (MVGAL_ERROR_GPU_NOT_FOUND, None) else
  let st := raw_health_status index (gpu_at s index) now in
  let level := evaluate_health_level (Some st) (Some (gm_thresholds s !!! Z.to_nat index)) in
  (MVGAL_SUCCESS, Some (st <| hs_is_healthy := bool_decide (level = MVGAL_HEALTH_OK) |>)).

(** [g_health_monitor]. *)
Record mvgal_health_monitor_state_t : Type := mk_hm {
  hm_enabled : bool;
  hm_poll_interval_ms : Z;
  hm_running : bool;
  hm_callback : option addr;
  hm_callback_user_data : option addr
}.

#[export] Instance hm_eta : Eta mvgal_health_monitor_state_t := fun r =>
  mk_hm (hm_enabled r) (hm_poll_interval_ms r) (hm_running r) (hm_callback r)
        (hm_callback_user_data r).

Definition hm_start : mvgal_health_monitor_state_t := mk_hm false 0 false None None.

Section Health.
Context `{GpuOS}.

Definition mvgal_gpu_get_health_status (index : Z) (status : bool) (now : Z)
  : mvgal_gpu_manager_state_t ->
    (mvgal_error_t * option mvgal_gpu_health_status_t) * mvgal_gpu_manager_state_t :=
  manager_op (fun s => (build_health_status_locked index status now s, s)).

Definition mvgal_gpu_get_health_level (index : Z) (level : bool) (now : Z)
  (s : mvgal_gpu_manager_state_t)
  : (mvgal_error_t * option mvgal_gpu_health_level_t) * mvgal_gpu_manager_state_t :=
  if negb level then ((MVGAL_ERROR_INVALID_ARGUMENT, None), s) else
  manager_op (fun s =>
    let '(result, st) := build_health_status_locked index true now s in
    match result, st with
    | MVGAL_SUCCESS, Some st =>
        ((MVGAL_SUCCESS,
          Some (evaluate_health_level (Some st) (Some (gm_thresholds s !!! Z.to_nat index)))), s)
    | _, _ => ((result, None), s)
    end) s.

(** The loop of [mvgal_gpu_all_healthy], [n] entries to go from [i]; entry
    [i] is sampled at time [now i]. *)
Fixpoint all_healthy_from (now : nat -> Z) (i n : nat) (s : mvgal_gpu_manager_state_t) : bool :=
  match n with
  | O => true
  | S n' =>
      match build_health_status_locked (Z.of_nat i) true (now i) s with
      | (MVGAL_SUCCESS, Some st) =>
          if hs_is_healthy st then all_healthy_from now (S i) n' s else false
      | _ => false
      end
  end.

Definition mvgal_gpu_all_healthy (now : nat -> Z)
  : mvgal_gpu_manager_state_t -> bool * mvgal_gpu_manager_state_t :=
  manager_op (fun s =>
    (if gm_gpu_count s =? 0 then false
     else all_healthy_from now 0 (Z.to_nat (gm_gpu_count s)) s, s)).

Definition mvgal_gpu_get_health_thresholds (index : Z) (thresholds : bool)
  (s : mvgal_gpu_manager_state_t)
  : (mvgal_error_t * option mvgal_gpu_health_thresholds_t) * mvgal_gpu_manager_state_t :=
  if negb thresholds then ((MVGAL_ERROR_INVALID_ARGUMENT, None), s) else
  manager_op (fun s =>
    if gm_gpu_count s <=? index then ((MVGAL_ERROR_GPU_NOT_FOUND, None), s)
    else ((MVGAL_SUCCESS, Some (gm_thresholds s !!! Z.to_nat index)), s)) s.

Definition mvgal_gpu_set_health_thresholds (index : Z)
  (thresholds : option mvgal_gpu_health_thresholds_t) (s : mvgal_gpu_manager_state_t)
  : mvgal_error_t * mvgal_gpu_manager_state_t :=
  match thresholds with
  | None => (MVGAL_ERROR_INVALID_ARGUMENT, s)
  | Some th =>
      manager_op (fun s =>
        if gm_gpu_count s <=? index then (MVGAL_ERROR_GPU_NOT_FOUND, s)
        else (MVGAL_SUCCESS, s <| gm_thresholds ::= fun l => <[Z.to_nat index := th]> l |>)) s
  end.

Definition mvgal_gpu_register_health_callback (callback user_data : option addr)
  (m : mvgal_health_monitor_state_t) : mvgal_error_t * mvgal_health_monitor_state_t :=
  match callback with
  | None => (MVGAL_ERROR_INVALID_ARGUMENT, m)
  | Some _ =>
      if bool_decide (hm_callback m <> None) then (MVGAL_ERROR_ALREADY_INITIALIZED, m)
      else (MVGAL_SUCCESS, m <| hm_callback := callback |> <| hm_callback_user_data := user_data |>)
  end.

Definition mvgal_gpu_unregister_health_callback (callback : option addr)
  (m : mvgal_health_monitor_state_t) : mvgal_error_t * mvgal_health_monitor_state_t :=
  if bool_decide (callback = None) || bool_decide (hm_callback m <> callback)
  then (MVGAL_ERROR_INVALID_ARGUMENT, m)
  else (MVGAL_SUCCESS, m <| hm_callback := None |> <| hm_callback_user_data := None |>).

(** [created] is whether [pthread_create] succeeds. *)
Definition mvgal_gpu_enable_health_monitoring (enabled : bool) (poll_interval_ms : Z)
  (created : bool) (m : mvgal_health_monitor_state_t)
  : mvgal_error_t * mvgal_health_monitor_state_t :=
  if enabled && negb (hm_running m) then
    let m := m <| hm_enabled := true |>
               <| hm_poll_interval_ms := if 0 <? poll_interval_ms then poll_interval_ms else 1000 |>
               <| hm_running := true |> in
    if created then (MVGAL_SUCCESS, m)
    else (MVGAL_ERROR_DRIVER, m <| hm_running := false |>)
  else if enabled then
    (MVGAL_SUCCESS,
     m <| hm_enabled := true |>
       <| hm_poll_interval_ms ::= fun old =>
            if 0 <? poll_interval_ms then poll_interval_ms else old |>)
  else if hm_running m then
    (MVGAL_SUCCESS, m <| hm_running := false |> <| hm_enabled := false |>)
  else (MVGAL_SUCCESS, m <| hm_enabled := false |>).

Definition mvgal_gpu_manager_shutdown (m : mvgal_health_monitor_state_t)
  (s : mvgal_gpu_manager_state_t) : mvgal_health_monitor_state_t * mvgal_gpu_manager_state_t :=
  let m := if hm_running m then (mvgal_gpu_enable_health_monitoring false 0 true m).2 else m in
  if negb (gm_initialized s) then (m, s) else
  (m, s <| gm_gpus := replicate MAX_GPUS gpu_zero |>
        <| gm_thresholds := replicate MAX_GPUS thresholds_zero |>
        <| gm_gpu_count := 0 |> <| gm_scanned := false |> <| gm_initialized := false |>).

(** One pass of [health_monitor_thread]: the callback invocations, in order.
    Each reads the manager through the public operations. *)
Fixpoint monitor_pass_from (i n : nat) (now : nat -> Z) (s : mvgal_gpu_manager_state_t)
  : list (Z * mvgal_gpu_health_status_t * mvgal_gpu_health_thresholds_t) :=
  match n with
  | O => []
  | S n' =>
      let rest := monitor_pass_from (S i) n' now s in
      match (mvgal_gpu_get_health_status (Z.of_nat i) true (now i) s).1,
            (mvgal_gpu_get_health_thresholds (Z.of_nat i) true s).1 with
      | (MVGAL_SUCCESS, Some st), (MVGAL_SUCCESS, Some th) => (Z.of_nat i, st, th) :: rest
      | _, _ => rest
      end
  end.

Definition health_monitor_pass (now : nat -> Z) (m : mvgal_health_monitor_state_t)
  (s : mvgal_gpu_manager_state_t)
  : list (Z * mvgal_gpu_health_status_t * mvgal_gpu_health_thresholds_t)
    * mvgal_gpu_manager_state_t :=
  if negb (hm_enabled m && bool_decide (hm_callback m <> None)) then ([], s) else
  let '(count, s) := mvgal_gpu_get_count s in
  (monitor_pass_from 0 (Z.to_nat count) now s, s).

End Health.

(** ** The manager as a transition system *)

Section Transitions.
Context `{GpuOS}.

(** One call of an operation that may change the table, by any client. *)
Inductive gm_step : mvgal_gpu_manager_state_t -> mvgal_gpu_manager_state_t -> Prop :=
| step_init s : gm_step s (mvgal_gpu_manager_init s)
| step_shutdown m s : gm_step s (mvgal_gpu_manager_shutdown m s).2
| step_query {A} (f : mvgal_gpu_manager_state_t -> A) s :
    gm_step s (manager_op (fun t => (f t, t)) s).2
| step_rescan s : gm_step s (mvgal_gpu_rescan s).2
| step_enable index enable s : is_u32 index -> gm_step s (mvgal_gpu_enable index enable s).2
| step_enable_all s : gm_step s (mvgal_gpu_enable_all s).2
| step_disable_all s : gm_step s (mvgal_gpu_disable_all s).2
| step_register_callback cb ud s : gm_step s (mvgal_gpu_register_callback cb ud s).2
| step_unregister_callback cb s : gm_step s (mvgal_gpu_unregister_callback cb s).2
| step_register_driver name probe init ud s :
    gm_step s (mvgal_gpu_register_driver name probe init ud s).2
| step_set_thresholds index th s : gm_step s (mvgal_gpu_set_health_thresholds index th s).2.

Inductive gm_reachable : mvgal_gpu_manager_state_t -> Prop :=
| reach_start : gm_reachable gm_start
| reach_step s s' : gm_reachable s -> gm_step s s' -> gm_reachable s'.

Lemma set_thresholds_spec i th s :
  gm_wf s -> tracks_os s ->
  gm_wf (mvgal_gpu_set_health_thresholds i th s).2
  /\ tracks_os (mvgal_gpu_set_health_thresholds i th s).2.
Proof.
  intros Hs Ht. unfold mvgal_gpu_set_health_thresholds. destruct th as [th|]; [|done].
  pose proof (ensure_wf s Hs) as Hs'. pose proof (ensure_tracks s Hs Ht) as Ht'.
  unfold manager_op. case_match; [done|]. split; [|exact Ht'].
  destruct Hs' as [[Hg Hth Hc He] Hcb Hd Hr]. split; [|done|done|done].
  split; [done|cbn; by rewrite length_insert|done|exact He].
Qed.

Lemma shutdown_spec m s :
  gm_wf s -> tracks_os s ->
  gm_wf (mvgal_gpu_manager_shutdown m s).2 /\ tracks_os (mvgal_gpu_manager_shutdown m s).2.
Proof.
  intros Hs Ht. unfold mvgal_gpu_manager_shutdown.
  destruct (gm_initialized s) eqn:Hi; [|done]. destruct Hs as [_ Hcb Hd Hr]. split; [|done].
  split; [|done|done|done].
  by eapply (table_wf_intro _ [] (replicate MAX_GPUS gpu_zero)).
Qed.

Lemma gm_step_invariant s s' :
  gm_step s s' -> gm_wf s -> tracks_os s -> gm_wf s' /\ tracks_os s'.
Proof.
  intros Hstep Hs Ht. destruct Hstep.
  - split; [by apply init_wf|by apply init_tracks].
  - by apply shutdown_spec.
  - split; [by apply ensure_wf|by apply ensure_tracks].
  - split; [by apply rescan_op_wf|by apply rescan_op_tracks].
  - unfold is_u32 in *. split; [apply enable_wf|apply enable_tracks]; done || lia.
  - split; [by apply set_all_enabled_wf|by apply set_all_enabled_tracks].
  - split; [by apply set_all_enabled_wf|by apply set_all_enabled_tracks].
  - split; [by apply register_callback_wf|].
    unfold mvgal_gpu_register_callback. by repeat case_match.
  - split; [by apply unregister_callback_wf|].
    unfold mvgal_gpu_unregister_callback. by repeat case_match.
  - split; [by apply register_driver_wf|].
    unfold mvgal_gpu_register_driver. by repeat case_match.
  - by apply set_thresholds_spec.
Qed.

Lemma reachable_invariant s : gm_reachable s -> gm_wf s /\ tracks_os s.
Proof.
  induction 1 as [|s s' _ [Hs Ht] Hstep]; [split; [apply gm_start_wf|done]|].
  by apply (gm_step_invariant s s').
Qed.
End Transitions.

(** ** A machine with two cards

    An AMD card with a render node and an NVIDIA card, as the file system
    presents them. *)
Module TwoCards.

Definition amd_root : string := "/sys/devices/pci0000:00/0000:03:00.0".
Definition nvidia_root : string := "/sys/devices/pci0000:00/0000:04:00.0".

Definition lookup_path {A} (table : list (string * A)) (path : string) : option A :=
  snd <$> (snd <$> list_find (fun e => e.1 = path) table).

#[export] Instance os : GpuOS := {|
  os_access p := bool_decide (p ∈ ["/dev/dri/card0"; "/dev/dri/card1"; "/dev/dri/renderD128";
                                   "/dev/nvidia0"; "/dev/kfd"]%string);
  os_realpath := lookup_path
    [("/sys/class/drm/card0/device", amd_root); ("/sys/class/drm/renderD128/device", amd_root);
     ("/sys/class/drm/card1/device", nvidia_root)]%string;
  os_readdir := lookup_path
    [("/sys/class/drm", ["."; ".."; "card0"; "card0-DP-1"; "renderD128"; "card1"]);
     ("/dev", ["null"; "nvidia0"; "nvidiactl"])]%string;
  os_first_line := lookup_path
    [("/sys/class/drm/card0/device/vendor", "0x1002"); ("/sys/class/drm/card0/device/device", "0x73bf");
     ("/sys/class/drm/card0/device/mem_info_vram_total", "17163091968");
     ("/sys/class/drm/card0/device/mem_info_vram_used", "1048576");
     ("/sys/class/drm/card0/device/current_link_speed", "16.0 GT/s PCIe");
     ("/sys/class/drm/card0/device/current_link_width", "16");
     ("/sys/class/drm/card1/device/vendor", "0x10de");
     ("/sys/class/drm/card1/device/device", "0x2204")]%string;
  libc_scan_float s := if String.prefix "16.0" s then Some (f32_of_Z 16) else None
|}.

(** The manager after its first use, and after the first card is disabled. *)
Definition booted : mvgal_gpu_manager_state_t := mvgal_gpu_manager_init gm_start.
Definition first_disabled : mvgal_gpu_manager_state_t := (mvgal_gpu_enable 0 false booted).2.

Lemma booted_reachable : gm_reachable booted.
Proof. eapply reach_step; [apply reach_start|apply step_init]. Qed.

Lemma first_disabled_reachable : gm_reachable first_disabled.
Proof.
  eapply reach_step; [apply booted_reachable|]. apply step_enable. unfold is_u32, U32_MAX. lia.
Qed.
End TwoCards.

(** ** Properties *)

Section Properties.
Context `{GpuOS}.

Lemma healthy_iff_level_ok i now s :
  0 <= i < gm_gpu_count s ->
  exists st, build_health_status_locked i true now s = (MVGAL_SUCCESS, Some st)
    /\ hs_is_healthy st
       = bool_decide (evaluate_health_level (Some st) (Some (gm_thresholds s !!! Z.to_nat i))
                      = MVGAL_HEALTH_OK).
Proof.
  intros Hi. unfold build_health_status_locked. cbn [negb].
  destruct (Z.leb_spec (gm_gpu_count s) i); [lia|]. eexists. split; [done|]. reflexivity.
Qed.

Lemma all_healthy_from_spec now i n s :
  Z.of_nat (i + n) <= gm_gpu_count s ->
  all_healthy_from now i n s = true <->
  forall j, (i <= j < i + n)%nat ->
    exists st, build_health_status_locked (Z.of_nat j) true (now j) s = (MVGAL_SUCCESS, Some st)
      /\ evaluate_health_level (Some st) (Some (gm_thresholds s !!! j)) = MVGAL_HEALTH_OK.
Proof.
  revert i. induction n as [|n IH]; intros i Hn; cbn [all_healthy_from].
  { split; [intros _ j Hj; lia|done]. }
  destruct (healthy_iff_level_ok (Z.of_nat i) (now i) s ltac:(lia)) as (st & Hst & Hok).
  rewrite Hst, Hok, Nat2Z.id. clear Hok. case_bool_decide as E.
  - rewrite IH by lia. split; intros Hj j Hr; [|by apply Hj; lia].
    destruct (decide (j = i)) as [->|]; [by exists st|]. apply Hj. lia.
  - split; [done|]. intros Hj. destruct (Hj i ltac:(lia)) as (st' & Hst' & Hok').
    rewrite Hst' in Hst. by simplify_eq.
Qed.


(** C12. In every state the GPU manager can reach by calls of its operations,
    in any order and for any file-system contents, its arrays keep their sizes,
    the count is at most [MAX_GPUS], entry [i] carries the id [i], every entry
    is a completed descriptor (known type and memory type, non-zero VRAM whose
    used and free parts add up, non-empty API list, features, name and driver),
    and an initialised manager exposes at least one GPU. *)
Theorem gm_reachable_wf s : gm_reachable s -> gm_wf s.
Proof. intros Hr. by apply reachable_invariant. Qed.

(** Rescanning unchanged hardware keeps every identifiable card at its
    index, with the enabled flag and the health thresholds a client chose for
    it: the rescan rebuilds the table from nothing, and the descriptor and the
    thresholds of such an entry come out exactly as they were. *)
Theorem rescan_keeps_choices s i g t :
  gm_reachable s -> gm_initialized s = true ->
  gm_live s !! i = Some g -> gm_thresholds s !! i = Some t ->
  gpu_identity_matches g g = true ->
  (forall j g', (j < i)%nat -> gm_live s !! j = Some g' -> gpu_identity_matches g g' = false) ->
  gm_live (mvgal_gpu_rescan s).2 !! i = Some g
  /\ gm_thresholds (mvgal_gpu_rescan s).2 !! i = Some t.
Proof.
  intros [Hwf Htr]%reachable_invariant Hinit Hg Ht Hself Hmin.
  unfold mvgal_gpu_rescan. rewrite (ensure_idle s Hinit).
  pose proof (rescan_keeps_entry s i g t (gw_table s Hwf) Htr Hinit Hg Ht Hself Hmin) as Hk.
  destruct (rescan_gpus_locked s) as [snap s']. exact Hk.
Qed.

(** The three health queries agree: [mvgal_gpu_all_healthy] answers true
    exactly when the level of every GPU of the table is [MVGAL_HEALTH_OK], and
    on an initialised manager that includes at least one GPU. *)
Theorem all_healthy_iff now s :
  gm_reachable s ->
  ((mvgal_gpu_all_healthy now s).1 = true <->
   forall i, (i < length (gm_live (ensure_gpu_manager_initialized s)))%nat ->
     (mvgal_gpu_get_health_level (Z.of_nat i) true (now i) s).1
     = (MVGAL_SUCCESS, Some MVGAL_HEALTH_OK)).
Proof.
  intros [Hwf%ensure_wf _]%reachable_invariant. pose proof (ensure_initialized s) as Hi.
  unfold mvgal_gpu_all_healthy, mvgal_gpu_get_health_level, manager_op. cbn [negb fst].
  set (u := ensure_gpu_manager_initialized s) in *.
  destruct (gw_ready u Hwf Hi) as [_ Hpos]. rewrite (live_length u (gw_table u Hwf)).
  destruct (Z.eqb_spec (gm_gpu_count u) 0); [lia|].
  rewrite all_healthy_from_spec by lia.
  split; intros Hall i Hlt.
  - destruct (Hall i ltac:(lia)) as (st & -> & Hl). rewrite Nat2Z.id. cbn [fst]. by rewrite Hl.
  - specialize (Hall i ltac:(lia)).
    destruct (healthy_iff_level_ok (Z.of_nat i) (now i) u ltac:(lia)) as (st & Hst & _).
    exists st. split; [done|]. rewrite Hst, Nat2Z.id in Hall. cbn [fst] in Hall. congruence.
Qed.

End Properties.

(** ** Witnesses *)

Import TwoCards.

Lemma gm_reachable_wf_witness :
  length (gm_live first_disabled) = 2%nat /\ gm_wf first_disabled.
Proof. split; [vm_compute; reflexivity|]. apply gm_reachable_wf, first_disabled_reachable. Defined.

(** The AMD card is still disabled after a rescan. *)
Lemma rescan_keeps_choices_witness :
  (g_enabled <$> gm_live (mvgal_gpu_rescan first_disabled).2 !! 0%nat) = Some false.
Proof.
  destruct (rescan_keeps_choices first_disabled 0 (gpu_at first_disabled 0)
              DEFAULT_HEALTH_THRESHOLDS first_disabled_reachable) as [-> _].
  - vm_compute; reflexivity.
  - vm_compute; reflexivity.
  - vm_compute; reflexivity.
  - vm_compute; reflexivity.
  - intros j g' Hj. lia.
  - vm_compute; reflexivity.
Defined.

Lemma all_healthy_iff_witness :
  (mvgal_gpu_all_healthy (fun _ => 0) booted).1 = true.
Proof.
  apply all_healthy_iff; [apply booted_reachable|].
  assert (Hl : length (gm_live (ensure_gpu_manager_initialized booted)) = 2%nat)
    by (vm_compute; reflexivity).
  rewrite Hl. intros [|[|i]] Hi; [vm_compute; reflexivity|vm_compute; reflexivity|lia].
Defined.
