(* ===== verification/LogicalDevice.v ===== *)
(** * Selection and logical devices

    [mvgal_gpu_select_best], [mvgal_gpu_get_primary] and the logical devices
    that aggregate several GPUs ([mvgal_device_create], [_destroy],
    [_get_descriptor]) of src/userspace/daemon/gpu_manager.c.  Logical devices
    live on a heap of their own, indexed by address. *)

From S2P Require Import Prelude Float32 GpuTypes GpuManager GpuHealth.
From stdpp Require Import strings pretty.
Local Open Scope Z_scope.

Record mvgal_gpu_selection_criteria_t : Type := mk_criteria {
  use_compute_score : bool;
  use_graphics_score : bool;
  use_memory : bool;
  use_features : bool;
  required_features : Z;
  preferred_features : Z;
  min_vram : Z;
  preferred_vendor : mvgal_vendor_t;
  required_api : Z
}.

(** [__builtin_popcountll]. *)
Definition popcount64 (m : Z) : Z :=
  Z.of_nat (length (filter (fun i => Z.testbit m (Z.of_nat i) = true) (seq 0 64))).

(** The three [continue] guards on the criteria. *)
Definition criteria_met (c : mvgal_gpu_selection_criteria_t) (gpu : mvgal_gpu_descriptor_t) : bool :=
  negb (negb (required_features c =? 0)
        && negb (Z.land (g_features gpu) (required_features c) =? required_features c))
  && negb (negb (required_api c =? MVGAL_API_NONE)
           && negb (Z.land (gpu_api_mask gpu) (required_api c) =? required_api c))
  && negb ((0 <? min_vram c) && (g_vram_total gpu <? min_vram c)).

Definition criteria_score (c : mvgal_gpu_selection_criteria_t) (gpu : mvgal_gpu_descriptor_t) : f32 :=
  let score := f0 in
  let score := if use_compute_score c then fadd score (g_compute_score gpu) else score in
  let score := if use_graphics_score c then fadd score (g_graphics_score gpu) else score in
  let score :=
    if use_memory c
    then fadd score (f32_of_f64 (f64_div (f64_of_Z (g_vram_free gpu)) (f64_of_Z bytes_per_gib)))
    else score in
  let score :=
    if use_features c && negb (preferred_features c =? 0)
    then fadd score (fmul (f32_of_Z 5)
                          (f32_of_Z (popcount64 (Z.land (g_features gpu) (preferred_features c)))))
    else score in
  if bool_decide (preferred_vendor c <> MVGAL_VENDOR_UNKNOWN)
     && bool_decide (g_vendor gpu = preferred_vendor c)
  then fadd score (f32_of_Z 10) else score.

(** The score of a candidate, [None] when the loop skips it. *)
Definition selection_score (criteria : option mvgal_gpu_selection_criteria_t)
  (gpu : mvgal_gpu_descriptor_t) : option f32 :=
  if negb (g_enabled gpu) then None else
  match criteria with
  | Some c =>
      if criteria_met c gpu
      then Some (fadd (criteria_score c gpu) (if g_available gpu then f32_of_Z 5 else f0))
      else None
  | None => Some (fadd (gpu_selection_score gpu) (if g_available gpu then f32_of_Z 5 else f0))
  end.

(** ** Logical devices *)

Definition MVGAL_LOGICAL_DEVICE_MAGIC : Z := 1297501255. (* 0x4D564C47 *)

Record mvgal_logical_device_descriptor_t : Type := mk_ld {
  ld_descriptor : mvgal_gpu_descriptor_t;
  ld_gpu_count : Z;
  ld_gpu_indices : list Z;
  ld_gpu_mask : Z;
  ld_common_features : Z;
  ld_aggregate_features : Z;
  ld_common_api_mask : Z;
  ld_aggregate_api_mask : Z;
  ld_heterogeneous : bool;
  ld_primary_gpu_index : Z
}.

#[export] Instance ld_eta : Eta mvgal_logical_device_descriptor_t := fun r =>
  mk_ld (ld_descriptor r) (ld_gpu_count r) (ld_gpu_indices r) (ld_gpu_mask r)
        (ld_common_features r) (ld_aggregate_features r) (ld_common_api_mask r)
        (ld_aggregate_api_mask r) (ld_heterogeneous r) (ld_primary_gpu_index r).

Definition ld_zero : mvgal_logical_device_descriptor_t :=
  mk_ld gpu_zero 0 (replicate 16 0) 0 0 0 0 0 false 0.

Record mvgal_logical_device_t : Type := mk_device {
  dev_magic : Z;
  dev_descriptor : mvgal_logical_device_descriptor_t
}.

Abbreviation device_heap := (gmap positive mvgal_logical_device_t).

(** The device as filled in before its members are visited. *)
Definition device_blank (gpu_count : Z) : mvgal_logical_device_descriptor_t :=
  ld_zero <| ld_gpu_count := gpu_count |>
    <| ld_descriptor ::= fun g =>
         g <| g_id := U32_MAX |> <| g_type := MVGAL_GPU_TYPE_VIRTUAL |>
           <| g_memory_type := MVGAL_MEMORY_TYPE_UNIFIED |>
           <| g_enabled := true |> <| g_available := true |>
           <| g_driver_name := "mvgal" |> <| g_driver_version := "0.1" |> |>.

(** The loop variables of [mvgal_device_create]. *)
Record member_acc : Type := mk_acc {
  ma_device : mvgal_logical_device_descriptor_t;
  ma_best_member_score : f32;
  ma_first_member : bool
}.

(** Sums and maxima over the embedded descriptor. *)
Definition merge_descriptor (member d : mvgal_gpu_descriptor_t) : mvgal_gpu_descriptor_t :=
  d <| g_vram_total ::= fun x => u64 (x + g_vram_total member) |>
    <| g_vram_free ::= fun x => u64 (x + g_vram_free member) |>
    <| g_vram_used ::= fun x => u64 (x + g_vram_used member) |>
    <| g_compute_score ::= fun x => fadd x (g_compute_score member) |>
    <| g_graphics_score ::= fun x => fadd x (g_graphics_score member) |>
    <| g_memory_bandwidth_gbps ::= fun x => fadd x (g_memory_bandwidth_gbps member) |>
    <| g_pcie_bandwidth_gbps ::= fun x => fadd x (g_pcie_bandwidth_gbps member) |>
    <| g_current_power_w ::= fun x => fadd x (g_current_power_w member) |>
    <| g_temperature_celsius ::= fun x =>
         if fgt (g_temperature_celsius member) x then g_temperature_celsius member else x |>.

(** The body of the member loop, after its three checks. *)
Definition add_member (i : nat) (idx : Z) (member : mvgal_gpu_descriptor_t) (a : member_acc)
  : member_acc :=
  let api := gpu_api_mask member in
  let d := (ma_device a)
    <| ld_gpu_indices ::= fun l => <[i := idx]> l |>
    <| ld_gpu_mask ::= fun m => Z.lor m (bit idx) |>
    <| ld_descriptor ::= merge_descriptor member |>
    <| ld_aggregate_features ::= fun m => Z.lor m (g_features member) |>
    <| ld_aggregate_api_mask ::= fun m => Z.lor m api |> in
  let d :=
    if ma_first_member a then
      d <| ld_common_features := g_features member |> <| ld_common_api_mask := api |>
        <| ld_descriptor ::= fun g => g <| g_vendor := g_vendor member |>
                                        <| g_memory_type := g_memory_type member |> |>
    else
      d <| ld_common_features ::= fun m => Z.land m (g_features member) |>
        <| ld_common_api_mask ::= fun m => Z.land m api |>
        <| ld_heterogeneous ::= fun h =>
             h || bool_decide (g_vendor (ld_descriptor d) <> g_vendor member)
               || bool_decide (g_memory_type (ld_descriptor d) <> g_memory_type member) |> in
  let score := gpu_selection_score member in
  if fgt score (ma_best_member_score a)
  then mk_acc (d <| ld_primary_gpu_index := idx |>) score false
  else mk_acc d (ma_best_member_score a) false.

(** The member loop; [visited] are the indices handled already. *)
Fixpoint member_loop (s : mvgal_gpu_manager_state_t) (visited rest : list Z) (a : member_acc)
  : mvgal_error_t + member_acc :=
  match rest with
  | [] => inr a
  | idx :: rest' =>
      if gm_gpu_count s <=? idx then inl MVGAL_ERROR_GPU_NOT_FOUND
      else if bool_decide (idx ∈ visited) then inl MVGAL_ERROR_INVALID_ARGUMENT
      else if negb (g_enabled (gpu_at s idx)) then inl MVGAL_ERROR_INCOMPATIBLE
      else member_loop s (visited ++ [idx]) rest'
             (add_member (length visited) idx (gpu_at s idx) a)
  end.

(** What follows the loop. *)
Definition finish_device (gpu_count : Z) (d : mvgal_logical_device_descriptor_t)
  : mvgal_logical_device_descriptor_t :=
  let apis := api_mask_to_list (ld_common_api_mask d) 16 in
  d <| ld_descriptor ::= fun g =>
         g <| g_features := ld_common_features d |>
           <| g_supported_apis := apis.1 |> <| g_api_count := apis.2 |>
           <| g_vendor ::= fun v => if ld_heterogeneous d then MVGAL_VENDOR_UNKNOWN else v |>
           <| g_memory_type ::= fun t =>
                if ld_heterogeneous d then MVGAL_MEMORY_TYPE_UNIFIED else t |>
           <| g_name := "MVGAL Logical GPU (" +:+ pretty (Z.to_N gpu_count) +:+ " member"
                        +:+ (if gpu_count =? 1 then "" else "s") +:+ ")" |> |>.

Section Device.
Context `{GpuOS}.

Definition mvgal_gpu_select_best (criteria : option mvgal_gpu_selection_criteria_t)
  (selected : bool) (s : mvgal_gpu_manager_state_t)
  : (mvgal_error_t * option mvgal_gpu_descriptor_t) * mvgal_gpu_manager_state_t :=
  if negb selected then ((MVGAL_ERROR_INVALID_ARGUMENT, None), s) else
  manager_op (fun s =>
    match (argmax true (selection_score criteria) (f32_of_Z (-1)) (gm_live s)).2 with
    | Some g => ((MVGAL_SUCCESS, Some g), s)
    | None => ((MVGAL_ERROR_GPU_NOT_FOUND, None), s)
    end) s.

Definition mvgal_gpu_get_primary (gpu : bool) := mvgal_gpu_select_best None gpu.

(** [gpu_indices] is the caller's array, [None] for NULL, of at least
    [gpu_count] entries; [alloc] is whether [calloc] succeeds. *)
Definition mvgal_device_create (gpu_count : Z) (gpu_indices : option (list Z)) (device alloc : bool)
  (s : mvgal_gpu_manager_state_t) (h : device_heap)
  : (mvgal_error_t * option positive) * mvgal_gpu_manager_state_t * device_heap :=
  match gpu_indices with
  | None => (MVGAL_ERROR_INVALID_ARGUMENT, None, s, h)
  | Some indices =>
      if negb device || (gpu_count =? 0) || (16 <? gpu_count)
      then (MVGAL_ERROR_INVALID_ARGUMENT, None, s, h) else
      let s := ensure_gpu_manager_initialized s in
      if negb alloc then (MVGAL_ERROR_OUT_OF_MEMORY, None, s, h) else
      match member_loop s [] (take (Z.to_nat gpu_count) indices)
              (mk_acc (device_blank gpu_count) (f32_of_Z (-1)) true) with
      | inl e => (e, None, s, h)
      | inr a =>
          let p := fresh (dom h) in
          (MVGAL_SUCCESS, Some p, s,
           <[p := mk_device MVGAL_LOGICAL_DEVICE_MAGIC (finish_device gpu_count (ma_device a))]> h)
      end
  end.

Definition mvgal_device_destroy (device : option positive) : M device_heap unit :=
  match device with
  | None => mret tt
  | Some p =>
      h ← get;
      match h !! p with
      | None => fails UseAfterFree
      | Some d => if negb (dev_magic d =? MVGAL_LOGICAL_DEVICE_MAGIC) then mret tt
                  else put (delete p h)
      end
  end.

Definition mvgal_device_get_descriptor (device : option positive) (descriptor : bool)
  : M device_heap (mvgal_error_t * option mvgal_logical_device_descriptor_t) :=
  match device, descriptor with
  | Some p, true =>
      h ← get;
      match h !! p with
      | None => fails UseAfterFree
      | Some d => if negb (dev_magic d =? MVGAL_LOGICAL_DEVICE_MAGIC)
                  then mret (MVGAL_ERROR_INVALID_ARGUMENT, None)
                  else mret (MVGAL_SUCCESS, Some (dev_descriptor d))
      end
  | _, _ => mret (MVGAL_ERROR_INVALID_ARGUMENT, None)
  end.

End Device.

(** ** The member loop *)

Section AddMember.
Context (i : nat) (idx : Z) (m : mvgal_gpu_descriptor_t) (a : member_acc).
Let a' := add_member i idx m a.

(** Field by field, what one iteration does. *)
Lemma add_member_first : ma_first_member a' = false.
Proof. unfold a', add_member. by repeat case_match. Qed.

Lemma add_member_indices :
  ld_gpu_indices (ma_device a') = <[i := idx]> (ld_gpu_indices (ma_device a)).
Proof. unfold a', add_member. by repeat case_match. Qed.

Lemma add_member_mask : ld_gpu_mask (ma_device a') = Z.lor (ld_gpu_mask (ma_device a)) (bit idx).
Proof. unfold a', add_member. by repeat case_match. Qed.

Lemma add_member_aggregate :
  ld_aggregate_features (ma_device a') = Z.lor (ld_aggregate_features (ma_device a)) (g_features m)
  /\ ld_aggregate_api_mask (ma_device a')
     = Z.lor (ld_aggregate_api_mask (ma_device a)) (gpu_api_mask m).
Proof. unfold a', add_member. by repeat case_match. Qed.

Lemma add_member_common :
  ld_common_features (ma_device a')
    = (if ma_first_member a then g_features m
       else Z.land (ld_common_features (ma_device a)) (g_features m))
  /\ ld_common_api_mask (ma_device a')
     = if ma_first_member a then gpu_api_mask m
       else Z.land (ld_common_api_mask (ma_device a)) (gpu_api_mask m).
Proof. unfold a', add_member. by repeat case_match. Qed.

Lemma add_member_vram :
  g_vram_total (ld_descriptor (ma_device a'))
  = u64 (g_vram_total (ld_descriptor (ma_device a)) + g_vram_total m).
Proof. unfold a', add_member. by repeat case_match. Qed.

Lemma add_member_profile :
  g_vendor (ld_descriptor (ma_device a'))
    = (if ma_first_member a then g_vendor m else g_vendor (ld_descriptor (ma_device a)))
  /\ g_memory_type (ld_descriptor (ma_device a'))
     = if ma_first_member a then g_memory_type m else g_memory_type (ld_descriptor (ma_device a)).
Proof. unfold a', add_member. by repeat case_match. Qed.

Lemma add_member_heterogeneous :
  ld_heterogeneous (ma_device a')
  = ld_heterogeneous (ma_device a)
    || (negb (ma_first_member a)
        && (bool_decide (g_vendor (ld_descriptor (ma_device a)) <> g_vendor m)
            || bool_decide (g_memory_type (ld_descriptor (ma_device a)) <> g_memory_type m))).
Proof.
  unfold a', add_member. destruct (ma_first_member a); case_match; cbn;
    by rewrite ?orb_false_r, <- ?orb_assoc.
Qed.

Lemma add_member_primary :
  (ma_best_member_score a', ld_primary_gpu_index (ma_device a'))
  = if fgt (gpu_selection_score m) (ma_best_member_score a)
    then (gpu_selection_score m, idx)
    else (ma_best_member_score a, ld_primary_gpu_index (ma_device a)).
Proof. unfold a', add_member. by repeat case_match. Qed.
End AddMember.

Section MemberLoop.
Context (s : mvgal_gpu_manager_state_t).

Definition member_score (idx : Z) : option f32 := Some (gpu_selection_score (gpu_at s idx)).

(** The union and the intersection of a mask over the members. *)
Definition is_union (f : mvgal_gpu_descriptor_t -> Z) (ids : list Z) (mask : Z) : Prop :=
  forall k, 0 <= k -> Z.testbit mask k = true <-> exists idx, idx ∈ ids /\ Z.testbit (f (gpu_at s idx)) k = true.

Definition is_intersection (f : mvgal_gpu_descriptor_t -> Z) (ids : list Z) (mask : Z) : Prop :=
  forall k, 0 <= k -> Z.testbit mask k = true <-> forall idx, idx ∈ ids -> Z.testbit (f (gpu_at s idx)) k = true.

Definition total_vram (ids : list Z) : Z :=
  foldr Z.add 0 ((fun idx => g_vram_total (gpu_at s idx)) <$> ids).

Record device_inv (ids : list Z) (a : member_acc) : Prop := {
  di_first : ma_first_member a = bool_decide (ids = []);
  di_indices : ld_gpu_indices (ma_device a) = ids ++ replicate (16 - length ids) 0;
  di_mask : forall j, 0 <= j -> Z.testbit (ld_gpu_mask (ma_device a)) j = true <-> j ∈ ids;
  di_union : is_union g_features ids (ld_aggregate_features (ma_device a));
  di_api_union : is_union gpu_api_mask ids (ld_aggregate_api_mask (ma_device a));
  di_inter : ids <> [] -> is_intersection g_features ids (ld_common_features (ma_device a));
  di_api_inter : ids <> [] -> is_intersection gpu_api_mask ids (ld_common_api_mask (ma_device a));
  di_vram : g_vram_total (ld_descriptor (ma_device a)) = u64 (total_vram ids);
  di_profile : forall i0 rest, ids = i0 :: rest ->
    g_vendor (ld_descriptor (ma_device a)) = g_vendor (gpu_at s i0)
    /\ g_memory_type (ld_descriptor (ma_device a)) = g_memory_type (gpu_at s i0);
  di_heterogeneous : ld_heterogeneous (ma_device a) = true <->
    exists idx i0, head ids = Some i0 /\ idx ∈ ids
      /\ (g_vendor (gpu_at s idx) <> g_vendor (gpu_at s i0)
          \/ g_memory_type (gpu_at s idx) <> g_memory_type (gpu_at s i0));
  di_primary : argmax false member_score (f32_of_Z (-1)) ids
    = (ma_best_member_score a,
       (argmax false member_score (f32_of_Z (-1)) ids).2)
    /\ ld_primary_gpu_index (ma_device a)
       = default 0 (argmax false member_score (f32_of_Z (-1)) ids).2
}.

Lemma is_union_snoc f ids mask idx :
  is_union f ids mask -> is_union f (ids ++ [idx]) (Z.lor mask (f (gpu_at s idx))).
Proof.
  intros Hu k Hk. rewrite Z.lor_spec, orb_true_iff, (Hu k Hk). split.
  - intros [(j & Hj & Hb)|Hb]; [exists j|exists idx]; rewrite elem_of_app, list_elem_of_singleton;
      auto.
  - intros (j & [Hj|Hj%list_elem_of_singleton]%elem_of_app & Hb); [left; eauto|subst; auto].
Qed.

Lemma is_intersection_one f idx : is_intersection f [idx] (f (gpu_at s idx)).
Proof.
  intros k Hk. split; [intros Hb j ->%list_elem_of_singleton; done|].
  intros Ha. apply Ha. by apply list_elem_of_singleton.
Qed.

Lemma is_intersection_snoc f ids mask idx :
  is_intersection f ids mask ->
  is_intersection f (ids ++ [idx]) (Z.land mask (f (gpu_at s idx))).
Proof.
  intros Hu k Hk. rewrite Z.land_spec, andb_true_iff, (Hu k Hk). split.
  - intros [Ha Hb] j [Hj|Hj%list_elem_of_singleton]%elem_of_app; [auto|by subst].
  - intros Ha. split; [intros j Hj|]; apply Ha; rewrite elem_of_app, list_elem_of_singleton; auto.
Qed.

Lemma total_vram_snoc ids idx :
  total_vram (ids ++ [idx]) = total_vram ids + g_vram_total (gpu_at s idx).
Proof.
  unfold total_vram. induction ids as [|j ids IH]; cbn in *; lia.
Qed.

Lemma heterogeneous_snoc ids a idx :
  device_inv ids a ->
  ld_heterogeneous (ma_device (add_member (length ids) idx (gpu_at s idx) a)) = true <->
  exists j i0, head (ids ++ [idx]) = Some i0 /\ j ∈ ids ++ [idx]
    /\ (g_vendor (gpu_at s j) <> g_vendor (gpu_at s i0)
        \/ g_memory_type (gpu_at s j) <> g_memory_type (gpu_at s i0)).
Proof.
  intros Hinv. rewrite add_member_heterogeneous, (di_first _ _ Hinv), orb_true_iff,
    (di_heterogeneous _ _ Hinv).
  destruct ids as [|i0 rest]; simpl.
  - split; [intros [(j & i0 & ? & _)|Hf]; done|].
    intros (j & i0 & Hi & Hj%list_elem_of_singleton & Hne). simplify_eq. naive_solver.
  - destruct (di_profile _ _ Hinv i0 rest eq_refl) as [-> ->].
    rewrite orb_true_iff, !bool_decide_eq_true. split.
    + intros [(j & i1 & Hi & Hj & Hne)|Hne]; simplify_eq.
      * exists j, i1. rewrite app_comm_cons, elem_of_app. auto.
      * exists idx, i0. rewrite app_comm_cons, elem_of_app, list_elem_of_singleton.
        split; [done|]. split; [by right|]. naive_solver.
    + intros (j & i1 & Hi & Hj & Hne). simplify_eq.
      rewrite app_comm_cons in Hj. apply elem_of_app in Hj as [Hj|Hj%list_elem_of_singleton].
      * left. exists j, i1. done.
      * subst. right. naive_solver.
Qed.

Lemma device_inv_step ids a idx :
  device_inv ids a -> (length ids < 16)%nat -> 0 <= idx ->
  device_inv (ids ++ [idx]) (add_member (length ids) idx (gpu_at s idx) a).
Proof.
  intros Hinv Hlen Hidx.
  assert (Hne : bool_decide (ids ++ [idx] = []) = false).
  { apply bool_decide_eq_false_2. by destruct ids. }
  destruct (add_member_aggregate (length ids) idx (gpu_at s idx) a) as [Ha1 Ha2].
  destruct (add_member_common (length ids) idx (gpu_at s idx) a) as [Hc1 Hc2].
  destruct (add_member_profile (length ids) idx (gpu_at s idx) a) as [Hp1 Hp2].
  pose proof (add_member_primary (length ids) idx (gpu_at s idx) a) as Hbest.
  rewrite (di_first _ _ Hinv) in *.
  split.
  - by rewrite add_member_first, Hne.
  - rewrite add_member_indices, (di_indices _ _ Hinv), length_app. simpl.
    replace (16 - length ids)%nat with (S (16 - (length ids + 1))) by lia. simpl.
    rewrite insert_app_r_alt, Nat.sub_diag by lia. simpl. by rewrite <- app_assoc.
  - intros j Hj. rewrite add_member_mask, Z.lor_spec, orb_true_iff, (di_mask _ _ Hinv j Hj),
      bit_testbit, Z.eqb_eq by lia. rewrite elem_of_app, list_elem_of_singleton. naive_solver.
  - rewrite Ha1. apply is_union_snoc, Hinv.
  - rewrite Ha2. apply is_union_snoc, Hinv.
  - intros _. rewrite Hc1. case_bool_decide as E; [subst; apply is_intersection_one|].
    by apply is_intersection_snoc, Hinv.
  - intros _. rewrite Hc2. case_bool_decide as E; [subst; apply is_intersection_one|].
    by apply is_intersection_snoc, Hinv.
  - by rewrite add_member_vram, (di_vram _ _ Hinv), u64_add_l, total_vram_snoc.
  - intros i0 rest Hi. rewrite Hp1, Hp2. destruct ids as [|i1 ids]; simplify_eq/=; [done|].
    by apply (di_profile _ _ Hinv i0 ids).
  - by apply heterogeneous_snoc.
  - destruct (di_primary _ _ Hinv) as [Hb Hp]. revert Hb Hp.
    rewrite argmax_snoc.
    destruct (argmax false member_score (f32_of_Z (-1)) ids) as [b o]. cbn [fst snd].
    intros [-> _]%pair_equal_spec Hp. unfold argmax_step, member_score. cbn [fst snd andb orb].
    destruct (fgt _ _); apply pair_equal_spec in Hbest as [-> ->]; done.
Qed.

(** The members a logical device may have. *)
Definition usable (ids : list Z) : Prop :=
  NoDup ids /\ forall idx, idx ∈ ids -> idx < gm_gpu_count s /\ g_enabled (gpu_at s idx) = true.

Lemma usable_app_r visited rest : usable (visited ++ rest) -> usable rest.
Proof.
  intros [Hnd Ha]. split; [by apply NoDup_app in Hnd as (_ & _ & Hnd)|].
  intros idx Hi. apply Ha, elem_of_app. by right.
Qed.

Lemma member_loop_spec visited rest a :
  device_inv visited a -> usable visited -> Forall (fun idx => 0 <= idx) rest ->
  (length (visited ++ rest) <= 16)%nat ->
  match member_loop s visited rest a with
  | inr a' => device_inv (visited ++ rest) a' /\ usable (visited ++ rest)
  | inl e => e <> MVGAL_SUCCESS /\ ~ usable (visited ++ rest)
  end.
Proof.
  revert visited a. induction rest as [|idx rest IH]; intros visited a Hinv Hus Hpos Hlen; simpl.
  { by rewrite app_nil_r. }
  inversion_clear Hpos as [|? ? Hidx Hpos']. rewrite length_app in Hlen. simpl in Hlen.
  destruct (Z.leb_spec (gm_gpu_count s) idx) as [Hge|Hlt].
  { split; [done|]. intros [_ Ha]%usable_app_r.
    destruct (Ha idx) as [? _]; [by left|lia]. }
  case_bool_decide as Hin.
  { split; [done|]. intros [(_ & Hd & _)%NoDup_app _]. apply (Hd idx Hin). by left. }
  destruct (g_enabled (gpu_at s idx)) eqn:He; cbn [negb].
  - assert (Happ : visited ++ idx :: rest = (visited ++ [idx]) ++ rest) by (by rewrite <- app_assoc).
    rewrite Happ. apply IH; [by apply device_inv_step; [done|lia|done]| |done|].
    + destruct Hus as [Hnd Ha]. split.
      * apply NoDup_app. split_and!; [done| |apply NoDup_singleton].
        by intros j Hj ->%list_elem_of_singleton.
      * intros j [Hj|Hj%list_elem_of_singleton]%elem_of_app; [auto|by subst].
    + rewrite !length_app. simpl. lia.
  - split; [done|]. intros [_ Ha]%usable_app_r.
    destruct (Ha idx) as [_ ?]; [by left|congruence].
Qed.

(** ** The contract of a logical device

    The embedded profile is what every member can do, the aggregate fields
    what some member can do. *)
Record logical_device_of (ids : list Z) (d : mvgal_logical_device_descriptor_t) : Prop := {
  lo_count : ld_gpu_count d = Z.of_nat (length ids);
  lo_indices : take (length ids) (ld_gpu_indices d) = ids;
  lo_mask : forall j, 0 <= j -> Z.testbit (ld_gpu_mask d) j = true <-> j ∈ ids;
  lo_features : is_intersection g_features ids (g_features (ld_descriptor d));
  lo_apis : gpu_api_mask (ld_descriptor d) = Z.land (ld_common_api_mask d) 511;
  lo_common_apis : is_intersection gpu_api_mask ids (ld_common_api_mask d);
  lo_aggregate : is_union g_features ids (ld_aggregate_features d);
  lo_aggregate_apis : is_union gpu_api_mask ids (ld_aggregate_api_mask d);
  lo_vram : g_vram_total (ld_descriptor d) = u64 (total_vram ids);
  lo_heterogeneous : ld_heterogeneous d = true <->
    exists i j, i ∈ ids /\ j ∈ ids
      /\ (g_vendor (gpu_at s i) <> g_vendor (gpu_at s j)
          \/ g_memory_type (gpu_at s i) <> g_memory_type (gpu_at s j));
  lo_primary : argmax_inv false member_score (f32_of_Z (-1)) ids
                 (argmax false member_score (f32_of_Z (-1)) ids)
    /\ ld_primary_gpu_index d = default 0 (argmax false member_score (f32_of_Z (-1)) ids).2
}.

Lemma differ_from_head ids :
  (exists idx i0, head ids = Some i0 /\ idx ∈ ids
      /\ (g_vendor (gpu_at s idx) <> g_vendor (gpu_at s i0)
          \/ g_memory_type (gpu_at s idx) <> g_memory_type (gpu_at s i0))) <->
  (exists i j, i ∈ ids /\ j ∈ ids
      /\ (g_vendor (gpu_at s i) <> g_vendor (gpu_at s j)
          \/ g_memory_type (gpu_at s i) <> g_memory_type (gpu_at s j))).
Proof.
  destruct ids as [|i0 rest]; simpl.
  { split; [by intros (? & ? & ? & _)|by intros (? & ? & ?%elem_of_nil & _)]. }
  split.
  - intros (idx & i1 & Hi & Hin & Hne). simplify_eq. exists idx, i1.
    split; [done|]. split; [by left|done].
  - intros (i & j & Hi & Hj & Hne).
    destruct (decide (g_vendor (gpu_at s i) = g_vendor (gpu_at s i0))) as [Hv|Hv];
      [|by exists i, i0; auto].
    destruct (decide (g_memory_type (gpu_at s i) = g_memory_type (gpu_at s i0))) as [Hm|Hm];
      [|by exists i, i0; auto].
    exists j, i0. split; [done|]. split; [done|]. rewrite Hv, Hm in Hne. naive_solver.
Qed.

Lemma finish_device_spec ids a :
  device_inv ids a -> ids <> [] -> ld_gpu_count (ma_device a) = Z.of_nat (length ids) ->
  logical_device_of ids (finish_device (Z.of_nat (length ids)) (ma_device a)).
Proof.
  intros Hinv Hne Hcount.
  split.
  - exact Hcount.
  - change (take (length ids) (ld_gpu_indices (ma_device a)) = ids).
    by rewrite (di_indices _ _ Hinv), take_app_length.
  - exact (di_mask _ _ Hinv).
  - exact (di_inter _ _ Hinv Hne).
  - by apply gpu_api_mask_of_list.
  - exact (di_api_inter _ _ Hinv Hne).
  - exact (di_union _ _ Hinv).
  - exact (di_api_union _ _ Hinv).
  - exact (di_vram _ _ Hinv).
  - rewrite <- differ_from_head. exact (di_heterogeneous _ _ Hinv).
  - split; [apply argmax_spec|]. exact (proj2 (di_primary _ _ Hinv)).
Qed.
End MemberLoop.

Lemma device_blank_inv s n : device_inv s [] (mk_acc (device_blank n) (f32_of_Z (-1)) true).
Proof.
  assert (Hu : forall g, is_union s g [] 0).
  { intros g k Hk. rewrite Z.bits_0. split; [done|]. by intros (? & ?%elem_of_nil & _). }
  split; try done.
  - intros j Hj. cbn. rewrite Z.bits_0. split; [done|]. by intros ?%elem_of_nil.
  - split; [done|]. by intros (? & ? & ? & _).
Qed.

(** [ld_gpu_count] is set once, before the loop. *)
Lemma add_member_count i idx m a :
  ld_gpu_count (ma_device (add_member i idx m a)) = ld_gpu_count (ma_device a).
Proof. unfold add_member. by repeat case_match. Qed.

Lemma member_loop_count s visited rest a a' :
  member_loop s visited rest a = inr a' ->
  ld_gpu_count (ma_device a') = ld_gpu_count (ma_device a).
Proof.
  revert visited a. induction rest as [|idx rest IH]; intros visited a; simpl; [by intros [= ->]|].
  repeat case_match; try done. intros Ha%IH. by rewrite Ha, add_member_count.
Qed.

(** ** Properties *)

Section Properties.
Context `{GpuOS}.

(** C39. [mvgal_device_create] succeeds exactly when it is given between one
    and sixteen distinct indices of enabled GPUs.  The device it then stores
    at a fresh address exposes the feature intersection of its members and
    the APIs common to all of them, keeps the unions in its aggregate fields,
    adds up their VRAM modulo 2^64, marks itself heterogeneous exactly when
    two members differ in vendor or memory type, and its primary GPU is the
    first member whose selection score no other member beats.  On failure
    nothing is allocated. *)
Theorem device_create_spec gpu_count indices s h :
  is_u32 gpu_count -> (Z.to_nat gpu_count <= length indices)%nat ->
  Forall (fun idx => 0 <= idx) indices ->
  let s' := ensure_gpu_manager_initialized s in
  let ids := take (Z.to_nat gpu_count) indices in
  let '(e, p, t, h') := mvgal_device_create gpu_count (Some indices) true true s h in
  (e = MVGAL_SUCCESS <-> 1 <= gpu_count <= 16 /\ usable s' ids)
  /\ match p with
     | Some p => e = MVGAL_SUCCESS /\ h !! p = None /\ t = s'
         /\ exists d, logical_device_of s' ids d
              /\ h' = <[p := mk_device MVGAL_LOGICAL_DEVICE_MAGIC d]> h
     | None => e <> MVGAL_SUCCESS /\ h' = h
     end.
Proof.
  intros [Hc0 _] Hlen Hpos s' ids. unfold mvgal_device_create. cbn [negb orb].
  destruct (Z.eqb_spec gpu_count 0); cbn [orb]; [split; [|done]; split; [done|lia]|].
  destruct (Z.ltb_spec 16 gpu_count); [split; [|done]; split; [done|lia]|].
  fold s' ids. assert (Hids : length ids = Z.to_nat gpu_count) by (unfold ids; rewrite length_take; lia).
  pose proof (member_loop_spec s' [] ids (mk_acc (device_blank gpu_count) (f32_of_Z (-1)) true))
    as Hloop.
  destruct (member_loop s' [] ids _) as [e|a] eqn:E; simpl in Hloop.
  - destruct Hloop as [He Hno]; [apply device_blank_inv|by split; [constructor|intros ? ?%elem_of_nil]
      |by apply Forall_take|lia|].
    split; [|done]. split; [done|]. intros [_ Hu]. destruct (Hno Hu).
  - destruct Hloop as [Hinv Hu]; [apply device_blank_inv|by split; [constructor|intros ? ?%elem_of_nil]
      |by apply Forall_take|lia|].
    assert (Hcnt : gpu_count = Z.of_nat (length ids)) by lia.
    split; [split; [intros _; split; [lia|done]|done]|].
    split; [done|]. split; [apply not_elem_of_dom, is_fresh|]. split; [done|].
    exists (finish_device gpu_count (ma_device a)). split; [|done].
    rewrite Hcnt. apply finish_device_spec; [done| |].
    + intros Hn. rewrite Hn in Hids. simpl in Hids. lia.
    + rewrite (member_loop_count _ _ _ _ _ E). exact Hcnt.
Qed.

(** [mvgal_gpu_select_best] returns the first enabled GPU that meets the
    criteria and whose score no other such GPU beats, and reports
    [MVGAL_ERROR_GPU_NOT_FOUND] exactly when no enabled GPU meets them. *)
Theorem select_best_maximal criteria s :
  let live := gm_live (ensure_gpu_manager_initialized s) in
  match (mvgal_gpu_select_best criteria true s).1 with
  | (e, Some g) =>
      e = MVGAL_SUCCESS
      /\ exists i sc, live !! i = Some g /\ selection_score criteria g = Some sc
         /\ (forall g' sc', g' ∈ live -> selection_score criteria g' = Some sc' -> fgt sc' sc = false)
         /\ (forall j g' sc', (j < i)%nat -> live !! j = Some g' ->
               selection_score criteria g' = Some sc' -> is_nan sc' = false -> fgt sc sc' = true)
  | (e, None) =>
      e = MVGAL_ERROR_GPU_NOT_FOUND /\ forall g, g ∈ live -> selection_score criteria g = None
  end.
Proof.
  intros live. unfold mvgal_gpu_select_best, manager_op. cbn [negb]. fold live.
  pose proof (argmax_spec true (selection_score criteria) (f32_of_Z (-1)) live) as Hspec.
  unfold argmax_inv in Hspec.
  destruct (argmax _ _ _ _) as [b [g|]]; cbn [fst snd] in *.
  - split; [done|]. destruct Hspec as (i & Hi & Hs & Hmax & Hfirst & _). by exists i, b.
  - split; [done|]. intros g Hg. destruct (selection_score criteria g) as [t|] eqn:E; [|done].
    by destruct Hspec as [_ Hnone]; destruct (Hnone g t Hg E).
Qed.

(** A created device can be queried and destroyed: [get_descriptor]
    returns the descriptor stored by [create] and leaves the heap alone,
    [destroy] gives back the heap as it was before the creation, and a query
    through the stale address afterwards is a use after free. *)
Theorem device_lifetime gpu_count indices s h p t h' :
  mvgal_device_create gpu_count (Some indices) true true s h = (MVGAL_SUCCESS, Some p, t, h') ->
  (exists d, mvgal_device_get_descriptor (Some p) true h' = Ret (MVGAL_SUCCESS, Some d, h'))
  /\ mvgal_device_destroy (Some p) h' = Ret (tt, h)
  /\ mvgal_device_get_descriptor (Some p) true h = Fault UseAfterFree.
Proof.
  unfold mvgal_device_create. repeat case_match; intros; simplify_eq.
  assert (Hp : h !! fresh (dom h) = None) by (apply not_elem_of_dom, is_fresh).
  unfold mvgal_device_get_descriptor, mvgal_device_destroy. msimpl.
  rewrite lookup_insert_eq, Hp. cbn. split; [by eexists|]. split; [|done].
  by rewrite delete_insert_id.
Qed.

End Properties.

(** ** Witnesses *)

Import TwoCards.

Lemma device_create_spec_witness :
  exists d, (mvgal_device_create 2 (Some [1; 0]) true true booted ∅).2
            = <[fresh (dom (∅ : device_heap)) := mk_device MVGAL_LOGICAL_DEVICE_MAGIC d]> ∅
    /\ logical_device_of booted [1; 0] d.
Proof.
  pose proof (device_create_spec 2 [1; 0] booted ∅) as Hspec.
  assert (Hs : ensure_gpu_manager_initialized booted = booted) by (vm_compute; reflexivity).
  rewrite Hs in Hspec.
  assert (He : (mvgal_device_create 2 (Some [1; 0]) true true booted ∅).1.1
               = (MVGAL_SUCCESS, Some (fresh (dom (∅ : device_heap))))) by (vm_compute; reflexivity).
  destruct (mvgal_device_create 2 (Some [1; 0]) true true booted ∅) as [[[e p] t] h'].
  simpl in He. injection He as -> ->.
  destruct Hspec as [_ (_ & _ & _ & d & Hd & ->)].
  - unfold is_u32, U32_MAX. lia.
  - simpl. lia.
  - by repeat constructor.
  - exists d. split; [reflexivity|exact Hd].
Defined.

Lemma device_lifetime_witness :
  exists p t h', mvgal_device_create 1 (Some [0]) true true booted ∅ = (MVGAL_SUCCESS, Some p, t, h')
    /\ mvgal_device_destroy (Some p) h' = Ret (tt, ∅).
Proof.
  destruct (mvgal_device_create 1 (Some [0]) true true booted ∅) as [[[e p] t] h'] eqn:E.
  assert (He : (e, p) = (MVGAL_SUCCESS, Some 1%positive)).
  { assert (Hv : (mvgal_device_create 1 (Some [0]) true true booted ∅).1.1
                 = (MVGAL_SUCCESS, Some 1%positive)) by (vm_compute; reflexivity).
    rewrite E in Hv. exact Hv. }
  injection He as -> ->. exists 1%positive, t, h'. split; [reflexivity|].
  by destruct (device_lifetime 1 [0] booted ∅ 1 t h' E) as (_ & Hd & _).
Defined.
