(* ===== verification/SchedTypes.v ===== *)
(** * Data of the scheduler

    The structures of src/userspace/scheduler/scheduler_internal.h and
    include/mvgal/mvgal_scheduler.h, and the environment the scheduler runs
    in.  Workloads live on a heap indexed by address; a pointer is an
    [option] of an address.  Everything the scheduler module keeps in static
    storage is one record, with the state of the AFR strategy and of the GPU
    manager it queries. *)

From S2P Require Import Prelude Float32 GpuTypes GpuManager.
Local Open Scope Z_scope.

Definition MVGAL_SCHEDULER_MAX_GPUS : nat := 16.
Definition MVGAL_SCHEDULER_MAX_QUEUED : Z := 1024.
Definition ANY_GPU_MASK : Z := 4294967295. (* 0xFFFFFFFF *)

Inductive mvgal_workload_state_t : Type :=
| MVGAL_WORKLOAD_STATE_PENDING
| MVGAL_WORKLOAD_STATE_QUEUED
| MVGAL_WORKLOAD_STATE_RUNNING
| MVGAL_WORKLOAD_STATE_COMPLETED
| MVGAL_WORKLOAD_STATE_FAILED
| MVGAL_WORKLOAD_STATE_CANCELLED.

#[export] Instance workload_state_eq_dec : EqDecision mvgal_workload_state_t.
Proof. solve_decision. Defined.

(** The fields that nothing reads back ([source], [reserved]) are NULL for
    the whole life of a workload and are left out. *)
Record mvgal_workload_descriptor_t : Type := mk_desc {
  d_id : Z;
  d_type : mvgal_workload_type_t;
  d_priority : Z;
  d_submission_time : Z;
  d_deadline : Z;
  d_api : Z;
  d_estimated_duration_ns : Z;
  d_memory_required : Z;
  d_gpu_preference : Z;
  d_gpu_mask : Z;
  d_dependency_count : Z;
  d_dependencies : option addr;
  d_completed : bool;
  d_result : mvgal_error_t;
  d_start_time : Z;
  d_end_time : Z;
  d_assigned_gpu : Z
}.

#[export] Instance desc_eta : Eta mvgal_workload_descriptor_t := fun r =>
  mk_desc (d_id r) (d_type r) (d_priority r) (d_submission_time r) (d_deadline r) (d_api r)
    (d_estimated_duration_ns r) (d_memory_required r) (d_gpu_preference r) (d_gpu_mask r)
    (d_dependency_count r) (d_dependencies r) (d_completed r) (d_result r) (d_start_time r)
    (d_end_time r) (d_assigned_gpu r).

Record mvgal_workload_submit_info_t : Type := mk_info {
  si_type : mvgal_workload_type_t;
  si_priority : Z;
  si_deadline : Z;
  si_gpu_mask : Z;
  si_dependency_count : Z;
  si_dependencies : option addr;
  si_user_data : option addr
}.

(** ** Strategy data of split-frame rendering (strategy/sfr.c) *)

Record sfr_region_t : Type := mk_region {
  r_x : Z;
  r_y : Z;
  r_width : Z;
  r_height : Z;
  r_gpu_index : Z
}.

#[export] Instance region_eta : Eta sfr_region_t := fun r =>
  mk_region (r_x r) (r_y r) (r_width r) (r_height r) (r_gpu_index r).

#[export] Instance region_eq_dec : EqDecision sfr_region_t.
Proof. solve_decision. Defined.

(** The first [region_count] entries of [regions]. *)
Record sfr_workload_data_t : Type := mk_sfr {
  sfr_regions : list sfr_region_t;
  sfr_original_width : Z;
  sfr_original_height : Z
}.

(** [strategy_data]: NULL, a live allocation, or an address that was freed
    and not overwritten. *)
Inductive strategy_ptr : Type :=
| SD_null
| SD_live (d : sfr_workload_data_t)
| SD_dangling.

Record mvgal_workload : Type := mk_workload {
  w_refcount : Z;
  w_state : mvgal_workload_state_t;
  w_descriptor : mvgal_workload_descriptor_t;
  w_context : option addr;
  w_callback : option addr;
  w_user_data : option addr;
  w_assigned_gpu_count : Z;
  w_assigned_gpus : list Z;
  w_queue_time : Z;
  w_start_time : Z;
  w_end_time : Z;
  w_completion_signaled : bool;
  w_completion_status : mvgal_error_t;
  w_gpu_execution_time_ns : list Z;
  w_next : option addr;
  w_prev : option addr;
  w_strategy_data : strategy_ptr
}.

#[export] Instance workload_eta : Eta mvgal_workload := fun r =>
  mk_workload (w_refcount r) (w_state r) (w_descriptor r) (w_context r) (w_callback r)
    (w_user_data r) (w_assigned_gpu_count r) (w_assigned_gpus r) (w_queue_time r)
    (w_start_time r) (w_end_time r) (w_completion_signaled r) (w_completion_status r)
    (w_gpu_execution_time_ns r) (w_next r) (w_prev r) (w_strategy_data r).

(** A workload cleared by [calloc]. *)
Definition desc_zero : mvgal_workload_descriptor_t :=
  mk_desc 0 MVGAL_WORKLOAD_GRAPHICS 0 0 0 0 0 0 0 0 0 None false MVGAL_SUCCESS 0 0 0.

Definition workload_zero : mvgal_workload :=
  mk_workload 0 MVGAL_WORKLOAD_STATE_PENDING desc_zero None None None 0
    (replicate MVGAL_SCHEDULER_MAX_GPUS 0) 0 0 0 false MVGAL_SUCCESS
    (replicate MVGAL_SCHEDULER_MAX_GPUS 0) None None SD_null.

Abbreviation wheap := (gmap positive mvgal_workload).

Definition w_priority (w : mvgal_workload) : Z := d_priority (w_descriptor w).

Record mvgal_workload_queue_t : Type := mk_queue {
  q_head : option addr;
  q_tail : option addr;
  q_count : Z;
  q_total_priority : Z
}.

#[export] Instance queue_eta : Eta mvgal_workload_queue_t := fun r =>
  mk_queue (q_head r) (q_tail r) (q_count r) (q_total_priority r).

Definition queue_empty : mvgal_workload_queue_t := mk_queue None None 0 0.

Record mvgal_gpu_state_t : Type := mk_gs {
  gs_available : bool;
  gs_enabled : bool;
  gs_utilization : f32;
  gs_temperature : f32;
  gs_power_usage_w : f32;
  gs_estimated_free_time_ns : Z;
  gs_features : Z;
  gs_compute_score : f32;
  gs_graphics_score : f32;
  gs_gpu_info : mvgal_gpu_descriptor_t;
  gs_queue : mvgal_workload_queue_t;
  gs_workloads_completed : Z;
  gs_total_execution_time_ns : Z;
  gs_priority : Z
}.

#[export] Instance gs_eta : Eta mvgal_gpu_state_t := fun r =>
  mk_gs (gs_available r) (gs_enabled r) (gs_utilization r) (gs_temperature r)
    (gs_power_usage_w r) (gs_estimated_free_time_ns r) (gs_features r) (gs_compute_score r)
    (gs_graphics_score r) (gs_gpu_info r) (gs_queue r) (gs_workloads_completed r)
    (gs_total_execution_time_ns r) (gs_priority r).

Definition gs_zero : mvgal_gpu_state_t :=
  mk_gs false false f0 f0 f0 0 0 f0 f0 gpu_zero queue_empty 0 0 0.

#[export] Instance gs_inhabited : Inhabited mvgal_gpu_state_t := populate gs_zero.

Record mvgal_scheduler_config_internal_t : Type := mk_cfg {
  cfg_strategy : mvgal_distribution_strategy_t;
  cfg_dynamic_load_balance : bool;
  cfg_thermal_aware : bool;
  cfg_power_aware : bool;
  cfg_load_balance_threshold : f32;
  cfg_max_queued_workloads : Z;
  cfg_quantum_ns : Z;
  cfg_gpu_priorities : list Z
}.

#[export] Instance cfg_eta : Eta mvgal_scheduler_config_internal_t := fun r =>
  mk_cfg (cfg_strategy r) (cfg_dynamic_load_balance r) (cfg_thermal_aware r) (cfg_power_aware r)
    (cfg_load_balance_threshold r) (cfg_max_queued_workloads r) (cfg_quantum_ns r)
    (cfg_gpu_priorities r).

Definition cfg_zero : mvgal_scheduler_config_internal_t :=
  mk_cfg MVGAL_STRATEGY_ROUND_ROBIN false false false f0 0 0 (replicate 16 0).

(** The public configuration; [pc_quantum_ns] is 32 bits wide. *)
Record mvgal_scheduler_config_t : Type := mk_pc {
  pc_strategy : mvgal_distribution_strategy_t;
  pc_dynamic_load_balance : bool;
  pc_thermal_aware : bool;
  pc_power_aware : bool;
  pc_load_balance_threshold : f32;
  pc_max_queued_workloads : Z;
  pc_quantum_ns : Z
}.

Record mvgal_scheduler_stats_t : Type := mk_stats {
  st_workloads_submitted : Z;
  st_workloads_completed : Z;
  st_workloads_failed : Z;
  st_total_execution_time_ns : Z;
  st_total_wait_time_ns : Z;
  st_average_throughput : f32;
  st_average_latency_ns : f32;
  st_gpu_assignments : list Z;
  st_gpuutilization : list Z
}.

#[export] Instance stats_eta : Eta mvgal_scheduler_stats_t := fun r =>
  mk_stats (st_workloads_submitted r) (st_workloads_completed r) (st_workloads_failed r)
    (st_total_execution_time_ns r) (st_total_wait_time_ns r) (st_average_throughput r)
    (st_average_latency_ns r) (st_gpu_assignments r) (st_gpuutilization r).

Definition stats_zero : mvgal_scheduler_stats_t :=
  mk_stats 0 0 0 0 0 f0 f0 (replicate 16 0) (replicate 16 0).

(** Callback tables of custom splitters. *)
Record mvgal_workload_splitter_t : Type := mk_splitter {
  sp_analyze : option addr;
  sp_split : option addr;
  sp_merge : option addr;
  sp_user_data : option addr
}.

#[export] Instance splitter_eq_dec : EqDecision mvgal_workload_splitter_t.
Proof. solve_decision. Defined.

Definition splitter_zero : mvgal_workload_splitter_t := mk_splitter None None None None.

(** The static state of strategy/afr.c. *)
Record afr_state : Type := mk_afr {
  afr_current_gpu_index : Z;
  afr_frame_counter : Z;
  afr_gpu_count : Z;
  afr_gpu_indices : list Z;
  afr_initialized : bool
}.

#[export] Instance afr_eta : Eta afr_state := fun r =>
  mk_afr (afr_current_gpu_index r) (afr_frame_counter r) (afr_gpu_count r)
         (afr_gpu_indices r) (afr_initialized r).

Definition afr_zero : afr_state := mk_afr 0 0 0 (replicate 16 0) false.

(** [g_scheduler_state].  The heap of workloads, the AFR state and the GPU
    manager are part of it, as are the number of clock readings and
    allocations made so far and the completion callbacks invoked (callback,
    result, user data), latest last. *)
Record mvgal_scheduler_state_t : Type := mk_sched {
  ss_initialized : bool;
  ss_paused : bool;
  ss_running : bool;
  ss_config : mvgal_scheduler_config_internal_t;
  ss_gpus : list mvgal_gpu_state_t;
  ss_gpu_count : Z;
  ss_global_queue : mvgal_workload_queue_t;
  ss_ready_queue : mvgal_workload_queue_t;
  ss_running_queue : mvgal_workload_queue_t;
  ss_completed_queue : mvgal_workload_queue_t;
  ss_stats : mvgal_scheduler_stats_t;
  ss_splitters : list mvgal_workload_splitter_t;
  ss_thread_running : bool;
  ss_next_workload_id : Z;
  ss_heap : wheap;
  ss_afr : afr_state;
  ss_gm : mvgal_gpu_manager_state_t;
  ss_ticks : nat;
  ss_allocs : nat;
  ss_called : list (addr * mvgal_error_t * option addr)
}.

#[export] Instance sched_eta : Eta mvgal_scheduler_state_t := fun r =>
  mk_sched (ss_initialized r) (ss_paused r) (ss_running r) (ss_config r) (ss_gpus r)
    (ss_gpu_count r) (ss_global_queue r) (ss_ready_queue r) (ss_running_queue r)
    (ss_completed_queue r) (ss_stats r) (ss_splitters r) (ss_thread_running r)
    (ss_next_workload_id r) (ss_heap r) (ss_afr r) (ss_gm r) (ss_ticks r) (ss_allocs r)
    (ss_called r).

(** Static storage before [mvgal_scheduler_module_init]. *)
Definition sched_start : mvgal_scheduler_state_t :=
  mk_sched false false false cfg_zero (replicate MVGAL_SCHEDULER_MAX_GPUS gs_zero) 0
    queue_empty queue_empty queue_empty queue_empty stats_zero [] false 0 ∅ afr_zero gm_start
    0%nat 0%nat [].

(** ** The environment

    The monotonic clock, as the value of its [n]-th reading, and whether the
    [n]-th request to the allocator is granted. *)
Class SchedEnv : Type := {
  clock_ns : nat -> Z;
  alloc_ok : nat -> bool
}.

Definition SM (A : Type) : Type := M mvgal_scheduler_state_t A.
#[export] Instance SM_ret : MRet SM := M_ret mvgal_scheduler_state_t.
#[export] Instance SM_bind : MBind SM := M_bind mvgal_scheduler_state_t.

Definition get_time_ns `{SchedEnv} : SM Z := fun s =>
  Ret (clock_ns (ss_ticks s), s <| ss_ticks ::= S |>).

(** [calloc] of one object: whether it succeeds. *)
Definition calloc `{SchedEnv} : SM bool := fun s =>
  Ret (alloc_ok (ss_allocs s), s <| ss_allocs ::= S |>).

(** Access to the workload behind a pointer. *)
Definition deref (p : addr) : SM mvgal_workload := fun s =>
  match ss_heap s !! p with
  | Some w => Ret (w, s)
  | None => Fault UseAfterFree
  end.

Definition update (p : addr) (f : mvgal_workload -> mvgal_workload) : SM unit := fun s =>
  match ss_heap s !! p with
  | Some w => Ret (tt, s <| ss_heap ::= fun h => <[p := f w]> h |>)
  | None => Fault UseAfterFree
  end.

Definition gs_at (s : mvgal_scheduler_state_t) (i : Z) : mvgal_gpu_state_t :=
  ss_gpus s !!! Z.to_nat i.
