(* ===== verification/WorkQueue.v ===== *)
(** * Workload queues

    The doubly linked queues of src/userspace/scheduler/scheduler.c
    ([mvgal_workload_queue], [mvgal_workload_dequeue],
    [mvgal_workload_dequeue_priority]) and the reference counts of workloads,
    over a heap of workloads; then the refinement of the linked structure to
    a list of addresses. *)

From S2P Require Import Prelude GpuManager SchedTypes.
Local Open Scope Z_scope.

(** The heap and the queue an operation is given. *)
Abbreviation QM A := (M (wheap * mvgal_workload_queue_t) A).

Definition load (p : addr) : QM mvgal_workload := fun '(h, q) =>
  match h !! p with
  | Some w => Ret (w, (h, q))
  | None => Fault UseAfterFree
  end.

Definition store (p : addr) (f : mvgal_workload -> mvgal_workload) : QM unit := fun '(h, q) =>
  match h !! p with
  | Some w => Ret (tt, (<[p := f w]> h, q))
  | None => Fault UseAfterFree
  end.

Definition get_queue : QM mvgal_workload_queue_t := fun '(h, q) => Ret (q, (h, q)).
Definition set_queue (f : mvgal_workload_queue_t -> mvgal_workload_queue_t) : QM unit :=
  fun '(h, q) => Ret (tt, (h, f q)).

(** [if (p != NULL) body]. *)
Definition when_some {S A} (p : option A) (body : A -> M S unit) : M S unit :=
  match p with Some a => body a | None => mret tt end.

(** [atomic_fetch_add(&workload->refcount, 1)]. *)
Definition retained (w : mvgal_workload) : mvgal_workload :=
  w <| w_refcount ::= fun n => u32 (n + 1) |>.

Definition mvgal_workload_retain (p : addr) : QM unit := store p retained.

Definition mvgal_workload_queue (workload : option addr) : QM mvgal_error_t :=
  match workload with
  | None => mret MVGAL_ERROR_INVALID_ARGUMENT
  | Some p =>
      q ← get_queue;
      if MVGAL_SCHEDULER_MAX_QUEUED <=? q_count q then mret MVGAL_ERROR_MEMORY else
      mvgal_workload_retain p;;
      store p (fun w => w <| w_next := None |> <| w_prev := q_tail q |>);;
      when_some (q_tail q) (fun t => store t (fun w => w <| w_next := Some p |>));;
      set_queue (fun q => q <| q_tail := Some p |>
                            <| q_head ::= fun h => match h with None => Some p | _ => h end |>);;
      w ← load p;
      set_queue (fun q => q <| q_count ::= fun n => u32 (n + 1) |>
                            <| q_total_priority ::= fun t => u64 (t + w_priority w) |>);;
      mret MVGAL_SUCCESS
  end.

Definition mvgal_workload_dequeue : QM (option addr) :=
  q ← get_queue;
  match q_head q with
  | None => mret None
  | Some p =>
      w ← load p;
      set_queue (fun q => q <| q_head := w_next w |>);;
      match w_next w with
      | None => set_queue (fun q => q <| q_tail := None |>)
      | Some n => store n (fun w => w <| w_prev := None |>)
      end;;
      store p (fun w => w <| w_next := None |> <| w_prev := None |>);;
      set_queue (fun q => q <| q_count ::= fun n => u32 (n - 1) |>
                            <| q_total_priority ::= fun t => u64 (t - w_priority w) |>);;
      mret (Some p)
  end.

(** The [while (current != NULL)] walk.  [fuel] bounds the number of nodes
    visited; a queue whose nodes are distinct has at most [size h] of them. *)
Fixpoint find_best (fuel : nat) (h : wheap) (current best : option addr) (best_priority : Z)
  : outcome (option addr * Z) :=
  match current with
  | None => Ret (best, best_priority)
  | Some c =>
      match fuel with
      | O => NoFuel
      | S fuel' =>
          match h !! c with
          | None => Fault UseAfterFree
          | Some w =>
              if best_priority <? w_priority w
              then find_best fuel' h (w_next w) (Some c) (w_priority w)
              else find_best fuel' h (w_next w) best best_priority
          end
      end
  end.

Definition scan_queue : QM (option addr * Z) := fun '(h, q) =>
  match find_best (size h) h (q_head q) None 0 with
  | Ret r => Ret (r, (h, q))
  | Fault e => Fault e
  | NoFuel => NoFuel
  end.

Definition mvgal_workload_dequeue_priority : QM (option addr) :=
  '(best, best_priority) ← scan_queue;
  match best with
  | None => mret None
  | Some b =>
      w ← load b;
      match w_prev w with
      | Some a => store a (fun x => x <| w_next := w_next w |>)
      | None => set_queue (fun q => q <| q_head := w_next w |>)
      end;;
      w ← load b;
      match w_next w with
      | Some c => store c (fun x => x <| w_prev := w_prev w |>)
      | None => set_queue (fun q => q <| q_tail := w_prev w |>)
      end;;
      store b (fun x => x <| w_next := None |> <| w_prev := None |>);;
      set_queue (fun q => q <| q_count ::= fun n => u32 (n - 1) |>
                            <| q_total_priority ::= fun t => u64 (t - best_priority) |>);;
      mret (Some b)
  end.

(** ** Representation

    [dseg h pr l nx]: the nodes [l] are linked in this order, the first one
    preceded by [pr] and the last one followed by [nx]. *)

Definition head_or (nx : option addr) (l : list addr) : option addr :=
  match l with [] => nx | p :: _ => Some p end.

Fixpoint last_or (pr : option addr) (l : list addr) : option addr :=
  match l with [] => pr | p :: l' => last_or (Some p) l' end.

Fixpoint dseg (h : wheap) (pr : option addr) (l : list addr) (nx : option addr) : Prop :=
  match l with
  | [] => True
  | p :: l' =>
      (exists w, h !! p = Some w /\ w_prev w = pr /\ w_next w = head_or nx l')
      /\ dseg h (Some p) l' nx
  end.

(** The priorities of the nodes, read from the heap. *)
Definition prio (h : wheap) (p : addr) : Z := default 0 (w_priority <$> h !! p).
Definition sum_prio (h : wheap) (l : list addr) : Z := foldr Z.add 0 (prio h <$> l).

(** The queue [q] on the heap [h] holds exactly the addresses [l]. *)
Record queue_rep (h : wheap) (q : mvgal_workload_queue_t) (l : list addr) : Prop := {
  qr_nodup : NoDup l;
  qr_links : dseg h None l None;
  qr_head : q_head q = head_or None l;
  qr_tail : q_tail q = last_or None l;
  qr_count : q_count q = Z.of_nat (length l);
  qr_bound : Z.of_nat (length l) <= MVGAL_SCHEDULER_MAX_QUEUED;
  qr_total : q_total_priority q = u64 (sum_prio h l)
}.

(** A heap without its links: what the queue operations do not touch. *)
Definition unlinked (w : mvgal_workload) : mvgal_workload := w <| w_next := None |> <| w_prev := None |>.
Definition content (h : wheap) : wheap := unlinked <$> h.

(** ** Linked segments *)

Lemma head_or_app nx l1 l2 : head_or nx (l1 ++ l2) = head_or (head_or nx l2) l1.
Proof. by destruct l1. Qed.

Lemma last_or_app pr l1 l2 : last_or pr (l1 ++ l2) = last_or (last_or pr l1) l2.
Proof. revert pr. induction l1; intros pr; simpl; auto. Qed.

Lemma dseg_app h pr l1 l2 nx :
  dseg h pr (l1 ++ l2) nx <-> dseg h pr l1 (head_or nx l2) /\ dseg h (last_or pr l1) l2 nx.
Proof.
  revert pr. induction l1 as [|p l1 IH]; intros pr; simpl; [tauto|].
  rewrite IH, head_or_app. tauto.
Qed.

Lemma dseg_frame h h' pr l nx :
  (forall p, p ∈ l -> h' !! p = h !! p) -> dseg h pr l nx -> dseg h' pr l nx.
Proof.
  revert pr. induction l as [|p l IH]; intros pr Hf; simpl; [done|].
  intros [(w & Hw & Hp & Hn) Hd]. split.
  - exists w. rewrite Hf by (by left). done.
  - apply IH; [|done]. intros q Hq. apply Hf. by right.
Qed.

Lemma dseg_insert_ne h pr l nx p w : p ∉ l -> dseg h pr l nx -> dseg (<[p := w]> h) pr l nx.
Proof.
  intros Hp. apply dseg_frame. intros q Hq. apply lookup_insert_ne. by intros ->.
Qed.

Lemma dseg_lookup h pr l nx p : dseg h pr l nx -> p ∈ l -> exists w, h !! p = Some w.
Proof.
  revert pr. induction l as [|q l IH]; intros pr; [by intros _ ?%elem_of_nil|].
  intros [(w & Hw & _) Hd] [->|Hp]%elem_of_cons; [by exists w|by eapply IH].
Qed.

(** Redirecting the last node's [next] or the first node's [prev]. *)
Lemma dseg_set_next h pr l a nx m w :
  dseg h pr (l ++ [a]) nx -> a ∉ l -> h !! a = Some w ->
  dseg (<[a := w <| w_next := m |>]> h) pr (l ++ [a]) m.
Proof.
  intros Hd Ha Hw. apply dseg_app in Hd as [Hl [(w' & Hw' & Hp & _) _]]. rewrite Hw in Hw'. injection Hw' as <-.
  apply dseg_app. split; [by apply dseg_insert_ne|]. split; [|done].
  exists (w <| w_next := m |>). by rewrite lookup_insert_eq.
Qed.

Lemma dseg_set_prev h pr a l nx m w :
  dseg h pr (a :: l) nx -> a ∉ l -> h !! a = Some w ->
  dseg (<[a := w <| w_prev := m |>]> h) m (a :: l) nx.
Proof.
  intros [(w' & Hw' & _ & Hn) Hd] Ha Hw. rewrite Hw in Hw'. injection Hw' as <-.
  split; [|by apply dseg_insert_ne].
  exists (w <| w_prev := m |>). by rewrite lookup_insert_eq.
Qed.

(** ** Contents *)

Lemma content_insert h p w : content (<[p := w]> h) = <[p := unlinked w]> (content h).
Proof. apply fmap_insert. Qed.

Lemma content_lookup h p : content h !! p = unlinked <$> h !! p.
Proof. apply lookup_fmap. Qed.

(** A store that only changes links changes no content. *)
Lemma content_relink h p w w' :
  h !! p = Some w -> unlinked w' = unlinked w -> content (<[p := w']> h) = content h.
Proof.
  intros Hw He. rewrite content_insert, He. apply insert_id. by rewrite content_lookup, Hw.
Qed.

Lemma prio_content h p : prio h p = default 0 (w_priority <$> content h !! p).
Proof. unfold prio. rewrite content_lookup. by destruct (h !! p). Qed.

Lemma prio_ext h h' p : content h !! p = content h' !! p -> prio h p = prio h' p.
Proof. intros He. by rewrite !prio_content, He. Qed.

Lemma sum_prio_ext h h' l :
  (forall p, p ∈ l -> prio h p = prio h' p) -> sum_prio h l = sum_prio h' l.
Proof.
  intros He. unfold sum_prio. f_equal. apply list_fmap_ext. intros i p Hp.
  by apply He, list_elem_of_lookup_2 with i.
Qed.

Lemma sum_prio_app h l1 l2 : sum_prio h (l1 ++ l2) = sum_prio h l1 + sum_prio h l2.
Proof. unfold sum_prio. induction l1; cbn in *; lia. Qed.

Lemma sum_prio_cons h p l : sum_prio h (p :: l) = prio h p + sum_prio h l.
Proof. done. Qed.

(** Distinct nodes of a heap are at most as many as its cells. *)
Lemma queue_length_size h pr l nx : NoDup l -> dseg h pr l nx -> (length l <= size h)%nat.
Proof.
  intros Hnd Hd. rewrite <- (size_list_to_set (C := gset positive) l Hnd), <- (size_dom h).
  apply subseteq_size. intros p Hp%elem_of_list_to_set. apply elem_of_dom.
  destruct (dseg_lookup h pr l nx p Hd Hp) as [w Hw]. by exists w.
Qed.

(** ** Enqueue *)

Lemma load_ok h q p w : h !! p = Some w -> load p (h, q) = Ret (w, (h, q)).
Proof. simpl. by intros ->. Qed.

Lemma store_ok h q p f w :
  h !! p = Some w -> store p f (h, q) = Ret (tt, (<[p := f w]> h, q)).
Proof. simpl. by intros ->. Qed.

(** Finds a cell in a heap after some stores. *)
Ltac find_cell :=
  repeat first
  [ eassumption
  | apply lookup_insert_eq
  | rewrite lookup_insert_ne by congruence ].

(** Executes one memory access at the head of a computation. *)
Ltac qstep :=
  first
  [ erewrite bind_ret by (apply store_ok; find_cell)
  | erewrite bind_ret by (apply load_ok; find_cell)
  | erewrite bind_ret by reflexivity ].

Lemma queue_rep_nil h q : queue_rep h q [] -> q = queue_empty.
Proof. intros [_ _ Hh Ht Hc _ Hs]. destruct q; simpl in *. by subst. Qed.

(** The total is that of the nodes whatever the heap their priorities are
    read from. *)
Lemma total_snoc h h' l p w :
  content h' = <[p := unlinked w]> (content h) -> p ∉ l ->
  u64 (u64 (sum_prio h l) + w_priority w) = u64 (sum_prio h' (l ++ [p])).
Proof.
  intros Hc Hp. rewrite u64_add_l, sum_prio_app, sum_prio_cons. f_equal. f_equal.
  - apply sum_prio_ext. intros r Hr. apply prio_ext. rewrite Hc, lookup_insert_ne; [done|].
    by intros ->.
  - rewrite prio_content, Hc, lookup_insert_eq. cbn. by rewrite Z.add_0_r.
Qed.

(** Appending the node [p], whose own links are set already. *)
Lemma link_after_tail h q l p w :
  NoDup l -> dseg h None l None -> p ∉ l ->
  h !! p = Some w -> w_next w = None -> w_prev w = last_or None l ->
  exists h', when_some (last_or None l) (fun t => store t (fun x => x <| w_next := Some p |>)) (h, q)
             = Ret (tt, (h', q))
    /\ dseg h' None (l ++ [p]) None /\ content h' = content h /\ h' !! p = Some w.
Proof.
  intros Hnd Hd Hp Hw Hn Hpr. destruct l as [|t l0 _] using rev_ind.
  { exists h. split; [done|]. split; [|done]. split; [|done]. by exists w. }
  rewrite last_or_app in *. cbn [last_or when_some] in *.
  apply not_elem_of_app in Hp as [Hpl Hpt]. apply not_elem_of_cons in Hpt as [Hpt _].
  apply NoDup_app in Hnd as (_ & Hdis & _).
  assert (Htl : t ∉ l0) by (intros Hin; by apply (Hdis t Hin); left).
  destruct (dseg_lookup h None (l0 ++ [t]) None t Hd) as [wt Hwt];
    [apply elem_of_app; right; by left|].
  exists (<[t := wt <| w_next := Some p |>]> h). split; [by apply store_ok|].
  split; [|split; [by apply (content_relink _ t wt)|by rewrite lookup_insert_ne]].
  apply dseg_app. rewrite last_or_app. cbn [head_or last_or].
  split; [by apply (dseg_set_next h None l0 t None)|].
  split; [|done]. exists w. by rewrite lookup_insert_ne.
Qed.

Lemma enqueue_spec h q l p w :
  queue_rep h q l -> p ∉ l -> h !! p = Some w ->
  Z.of_nat (length l) < MVGAL_SCHEDULER_MAX_QUEUED ->
  exists h' q', mvgal_workload_queue (Some p) (h, q) = Ret (MVGAL_SUCCESS, (h', q'))
    /\ queue_rep h' q' (l ++ [p])
    /\ content h' = <[p := unlinked (retained w)]> (content h).
Proof.
  intros [Hnd Hd Hh Ht Hc Hb Hs] Hp Hw Hlt. unfold MVGAL_SCHEDULER_MAX_QUEUED in *.
  unfold mvgal_workload_queue, mvgal_workload_retain. qstep.
  destruct (Z.leb_spec MVGAL_SCHEDULER_MAX_QUEUED (q_count q));
    [unfold MVGAL_SCHEDULER_MAX_QUEUED in *; lia|].
  do 2 qstep.
  match goal with |- context [<[p := ?x]> (<[p := retained w]> h)] =>
    set (w2 := x); set (h1 := <[p := w2]> (<[p := retained w]> h)) end.
  destruct (link_after_tail h1 q l p w2) as (h2 & Hrun & Hd2 & Hc2 & Hp2);
    [done|by apply dseg_insert_ne, dseg_insert_ne|done|apply lookup_insert_eq|done|done|].
  rewrite Ht. rewrite (bind_ret _ _ _ _ _ Hrun). do 3 qstep.
  eexists _, _. split; [reflexivity|].
  assert (Hcont : content h2 = <[p := unlinked (retained w)]> (content h)).
  { rewrite Hc2. unfold h1. by rewrite !content_insert, insert_insert_eq. }
  split; [|exact Hcont]. split.
  - apply NoDup_app. split; [done|]. split; [|apply NoDup_singleton].
    by intros r Hr ->%list_elem_of_singleton.
  - done.
  - cbn. rewrite Hh. by destruct l.
  - cbn. by rewrite last_or_app.
  - cbn. rewrite length_app, u32_small, Hc; simpl; unfold is_u32, U32_MAX; lia.
  - rewrite length_app. unfold MVGAL_SCHEDULER_MAX_QUEUED. simpl. lia.
  - cbn. rewrite Hs. by apply (total_snoc h h2 l p w2).
Qed.

(** ** Removal *)

Lemma dseg_middle h l1 b l2 :
  dseg h None (l1 ++ b :: l2) None ->
  exists wb, h !! b = Some wb /\ w_prev wb = last_or None l1 /\ w_next wb = head_or None l2
    /\ dseg h None l1 (Some b) /\ dseg h (Some b) l2 None.
Proof.
  intros [Hl1 [(wb & Hb & Hp & Hn) Hl2]]%dseg_app. by exists wb.
Qed.

Lemma nodup_middle {A} (l1 : list A) b l2 :
  NoDup (l1 ++ b :: l2) ->
  b ∉ l1 /\ b ∉ l2 /\ NoDup (l1 ++ l2) /\ (forall x, x ∈ l1 -> x ∉ l2).
Proof.
  intros (H1 & Hd & [Hb H2]%NoDup_cons)%NoDup_app.
  split_and!; [|done| |].
  - intros Hin. apply (Hd b Hin). by left.
  - apply NoDup_app. split_and!; [done| |done]. intros x Hx Hx2. apply (Hd x Hx). by right.
  - intros x Hx Hx2. apply (Hd x Hx). by right.
Qed.

(** The predecessor, or the head of the queue, skips [b]. *)
Lemma unlink_from_prev h q l1 b l2 wb :
  NoDup (l1 ++ b :: l2) -> dseg h None l1 (Some b) -> dseg h (Some b) l2 None ->
  h !! b = Some wb ->
  exists h1,
    match last_or None l1 with
    | Some a => store a (fun x => x <| w_next := head_or None l2 |>)
    | None => set_queue (fun q => q <| q_head := head_or None l2 |>)
    end (h, q)
    = Ret (tt, (h1, match l1 with [] => q <| q_head := head_or None l2 |> | _ => q end))
    /\ dseg h1 None l1 (head_or None l2) /\ dseg h1 (Some b) l2 None
    /\ h1 !! b = Some wb /\ content h1 = content h.
Proof.
  intros (Hb1 & Hb2 & Hnd & Hdis)%nodup_middle Hl1 Hl2 Hb.
  destruct l1 as [|a l0 _] using rev_ind; [by exists h|].
  rewrite last_or_app. cbn [last_or].
  apply not_elem_of_app in Hb1 as [Hb0 Hba]. apply not_elem_of_cons in Hba as [Hba _].
  destruct (dseg_lookup h None (l0 ++ [a]) (Some b) a Hl1) as [wa Ha];
    [apply elem_of_app; right; by left|].
  assert (Ha2 : a ∉ l2) by (apply Hdis, elem_of_app; right; by left).
  assert (Ha0 : a ∉ l0).
  { rewrite <- app_assoc in Hnd. apply NoDup_app in Hnd as (_ & Hd & _).
    intros Hin. apply (Hd a Hin). by left. }
  exists (<[a := wa <| w_next := head_or None l2 |>]> h).
  split; [rewrite (store_ok _ _ _ _ wa Ha); by destruct l0|].
  split; [by apply (dseg_set_next h None l0 a (Some b))|].
  split; [by apply dseg_insert_ne|].
  split; [by rewrite lookup_insert_ne|by apply (content_relink _ a wa)].
Qed.

(** The successor, or the tail of the queue, skips [b]. *)
Lemma unlink_from_next h q l1 b l2 wb :
  NoDup (l1 ++ b :: l2) -> dseg h None l1 (head_or None l2) -> dseg h (Some b) l2 None ->
  h !! b = Some wb ->
  exists h1,
    match head_or None l2 with
    | Some c => store c (fun x => x <| w_prev := last_or None l1 |>)
    | None => set_queue (fun q => q <| q_tail := last_or None l1 |>)
    end (h, q)
    = Ret (tt, (h1, match l2 with [] => q <| q_tail := last_or None l1 |> | _ => q end))
    /\ dseg h1 None (l1 ++ l2) None /\ h1 !! b = Some wb /\ content h1 = content h.
Proof.
  intros (Hb1 & Hb2 & Hnd & Hdis)%nodup_middle Hl1 Hl2 Hb.
  destruct l2 as [|c l2]; [exists h; by rewrite app_nil_r|]. cbn [head_or] in *.
  destruct (dseg_lookup h (Some b) (c :: l2) None c Hl2) as [wc Hc]; [by left|].
  apply not_elem_of_cons in Hb2 as [Hbc _].
  apply NoDup_app in Hnd as (_ & _ & [Hc2 _]%NoDup_cons).
  assert (Hc1 : c ∉ l1) by (intros Hin; apply (Hdis c Hin); by left).
  exists (<[c := wc <| w_prev := last_or None l1 |>]> h).
  split; [by apply store_ok|].
  split; [|split; [by rewrite lookup_insert_ne|by apply (content_relink _ c wc)]].
  apply dseg_app. split; [by apply dseg_insert_ne|]. by apply (dseg_set_prev h (Some b)).
Qed.

Lemma head_or_skip (l1 l2 : list addr) (q : mvgal_workload_queue_t) b :
  q_head q = head_or None (l1 ++ b :: l2) ->
  q_head (match l1 with [] => q <| q_head := head_or None l2 |> | _ => q end)
  = head_or None (l1 ++ l2).
Proof. by destruct l1. Qed.

Lemma last_or_skip (l1 l2 : list addr) (q : mvgal_workload_queue_t) b :
  q_tail q = last_or None (l1 ++ b :: l2) ->
  q_tail (match l2 with [] => q <| q_tail := last_or None l1 |> | _ => q end)
  = last_or None (l1 ++ l2).
Proof. rewrite !last_or_app. by destruct l2. Qed.

(** The queue that is left when [b] is unlinked from [l1 ++ b :: l2]. *)
Lemma queue_rep_removed h h' q q' l1 b l2 :
  queue_rep h q (l1 ++ b :: l2) -> dseg h' None (l1 ++ l2) None -> content h' = content h ->
  q_head q' = head_or None (l1 ++ l2) -> q_tail q' = last_or None (l1 ++ l2) ->
  q_count q' = u32 (q_count q - 1) -> q_total_priority q' = u64 (q_total_priority q - prio h b) ->
  queue_rep h' q' (l1 ++ l2).
Proof.
  intros [Hnd Hd Hh Ht Hc Hb Hs] Hd' Hcont Hh' Ht' Hc' Hs'.
  apply nodup_middle in Hnd as (_ & _ & Hnd & _).
  unfold MVGAL_SCHEDULER_MAX_QUEUED in *.
  rewrite length_app in Hc, Hb. simpl in Hc, Hb.
  assert (He : forall l, sum_prio h' l = sum_prio h l).
  { intros l. apply sum_prio_ext. intros p _. apply prio_ext. by rewrite Hcont. }
  split; [done|done|done|done| | |].
  - rewrite Hc', Hc, length_app, u32_small; unfold is_u32, U32_MAX; lia.
  - rewrite length_app. unfold MVGAL_SCHEDULER_MAX_QUEUED. lia.
  - rewrite Hs', Hs, u64_sub_l, He, !sum_prio_app, sum_prio_cons. f_equal. lia.
Qed.

Lemma prio_lookup h p w : h !! p = Some w -> prio h p = w_priority w.
Proof. unfold prio. by intros ->. Qed.

(** [mvgal_workload_dequeue] takes the oldest workload. *)
Lemma dequeue_spec h q l :
  queue_rep h q l ->
  match l with
  | [] => mvgal_workload_dequeue (h, q) = Ret (None, (h, q))
  | p :: l' =>
      exists h' q' w, mvgal_workload_dequeue (h, q) = Ret (Some p, (h', q'))
        /\ queue_rep h' q' l' /\ content h' = content h /\ h' !! p = Some (unlinked w)
  end.
Proof.
  intros Hrep. pose proof Hrep as [Hnd Hd Hh Ht Hc Hb Hs]. unfold mvgal_workload_dequeue. qstep.
  destruct l as [|p l]; rewrite Hh; [done|]. cbn [head_or].
  destruct (dseg_middle h [] p l Hd) as (w & Hw & Hp & Hn & _ & Hl).
  do 2 qstep. cbn [upd q_head q_tail q_count q_total_priority] in *. rewrite Hn.
  destruct (unlink_from_next h (mk_queue (head_or None l) (q_tail q) (q_count q) (q_total_priority q))
              [] p l w Hnd I Hl Hw) as (h1 & Hrun & Hd1 & Hw1 & Hc1).
  cbn [last_or] in Hrun. rewrite (bind_ret _ _ _ _ _ Hrun).
  do 2 qstep. eexists _, _, w. split; [reflexivity|].
  assert (Hcont : content (<[p := unlinked w]> h1) = content h).
  { by rewrite (content_relink _ p w) by (done || reflexivity). }
  split; [|split; [exact Hcont|apply lookup_insert_eq]].
  apply NoDup_cons in Hnd as [Hpl Hnd].
  eapply (queue_rep_removed h _ q _ [] p l Hrep); [by apply dseg_insert_ne|exact Hcont| | | |].
  - by destruct l.
  - cbn. rewrite Ht. by destruct l.
  - by destruct l.
  - rewrite (prio_lookup h p w Hw). by destruct l.
Qed.

(** ** Removal by priority *)

Definition pick_step (h : wheap) (acc : option addr * Z) (p : addr) : option addr * Z :=
  if acc.2 <? prio h p then (Some p, prio h p) else acc.

(** The walk with enough fuel is a left fold over the nodes. *)
Lemma find_best_fold fuel h pr l best bp :
  dseg h pr l None -> (length l <= fuel)%nat ->
  find_best fuel h (head_or None l) best bp = Ret (foldl (pick_step h) (best, bp) l).
Proof.
  revert fuel pr best bp. induction l as [|p l IH]; intros fuel pr best bp Hd Hf.
  { by destruct fuel. }
  destruct Hd as [(w & Hw & _ & Hn) Hd]. destruct fuel as [|fuel]; simpl in Hf; [lia|].
  cbn [find_best head_or foldl]. rewrite Hw, Hn. unfold pick_step at 2. cbn [snd].
  rewrite (prio_lookup h p w Hw).
  destruct (bp <? w_priority w); eapply IH; (exact Hd || lia).
Qed.

(** The fold finds the first node of the greatest priority, if any node has
    a positive one. *)
Lemma pick_spec h l :
  match foldl (pick_step h) (None, 0) l with
  | (Some b, m) =>
      exists l1 l2, l = l1 ++ b :: l2 /\ prio h b = m /\ 0 < m
        /\ (forall p, p ∈ l1 -> prio h p < m) /\ (forall p, p ∈ l2 -> prio h p <= m)
  | (None, m) => m = 0 /\ forall p, p ∈ l -> prio h p <= 0
  end.
Proof.
  induction l as [|p l IH] using rev_ind; simpl.
  { split; [done|]. by intros p ?%elem_of_nil. }
  rewrite foldl_app. simpl. destruct (foldl _ _ l) as [[b|] m]; unfold pick_step; simpl.
  - destruct IH as (l1 & l2 & -> & Hb & Hm & H1 & H2).
    destruct (Z.ltb_spec m (prio h p)).
    + exists (l1 ++ b :: l2), []. split_and!; [done|done|lia| |by intros ? ?%elem_of_nil].
      intros r [Hr|[->|Hr]%elem_of_cons]%elem_of_app; [|lia|].
      * specialize (H1 r Hr). lia.
      * specialize (H2 r Hr). lia.
    + exists l1, (l2 ++ [p]). split_and!; [by rewrite <- app_assoc|done|done|done|].
      intros r [Hr|Hr%list_elem_of_singleton]%elem_of_app; [auto|by subst].
  - destruct IH as [-> Hle]. destruct (Z.ltb_spec 0 (prio h p)).
    + exists l, []. split_and!; [done|done|done| |by intros ? ?%elem_of_nil].
      intros r Hr. specialize (Hle r Hr). lia.
    + split; [done|]. intros r [Hr|Hr%list_elem_of_singleton]%elem_of_app; [auto|by subst].
Qed.

Lemma scan_queue_ok h q l :
  queue_rep h q l -> scan_queue (h, q) = Ret (foldl (pick_step h) (None, 0) l, (h, q)).
Proof.
  intros [Hnd Hd Hh _ _ _ _]. unfold scan_queue.
  rewrite Hh, (find_best_fold _ h None l None 0 Hd); [done|]. by apply (queue_length_size h None l None).
Qed.

(** Taking [b] out of [l1 ++ b :: l2]. *)
Lemma dequeue_priority_at h q l1 b l2 m :
  queue_rep h q (l1 ++ b :: l2) ->
  foldl (pick_step h) (None, 0) (l1 ++ b :: l2) = (Some b, m) -> prio h b = m ->
  exists h' q' w, mvgal_workload_dequeue_priority (h, q) = Ret (Some b, (h', q'))
    /\ queue_rep h' q' (l1 ++ l2) /\ content h' = content h /\ h' !! b = Some (unlinked w).
Proof.
  intros Hrep Hpick Hm. pose proof Hrep as [Hnd Hd Hh Ht Hc Hb Hs].
  unfold mvgal_workload_dequeue_priority.
  rewrite (bind_ret _ _ _ _ _ (scan_queue_ok h q _ Hrep)), Hpick.
  destruct (dseg_middle h l1 b l2 Hd) as (w & Hw & Hp & Hn & Hl1 & Hl2). qstep.
  rewrite Hp, Hn.
  destruct (unlink_from_prev h q l1 b l2 w Hnd Hl1 Hl2 Hw) as (h1 & Hrun1 & Hd1 & Hd1' & Hw1 & Hc1).
  rewrite (bind_ret _ _ _ _ _ Hrun1). qstep. rewrite Hp, Hn.
  set (q1 := match l1 with [] => _ | _ => q end) in *.
  destruct (unlink_from_next h1 q1 l1 b l2 w Hnd Hd1 Hd1' Hw1) as (h2 & Hrun2 & Hd2 & Hw2 & Hc2).
  rewrite (bind_ret _ _ _ _ _ Hrun2). do 2 qstep. eexists _, _, w. split; [reflexivity|].
  assert (Hcont : content (<[b := unlinked w]> h2) = content h).
  { rewrite (content_relink _ b w) by (done || reflexivity). congruence. }
  split; [|split; [exact Hcont|apply lookup_insert_eq]].
  apply nodup_middle in Hnd as (Hb1 & Hb2 & _ & _).
  eapply (queue_rep_removed h _ q _ l1 b l2 Hrep); [|exact Hcont| | | |].
  - apply dseg_insert_ne; [|done]. by apply not_elem_of_app.
  - transitivity (q_head q1); [by destruct l2|]. by apply (head_or_skip l1 l2 q b).
  - apply (last_or_skip l1 l2 q1 b). rewrite <- Ht. by destruct l1.
  - by destruct l1, l2.
  - rewrite Hm. by destruct l1, l2.
Qed.

Lemma dequeue_priority_none h q l m :
  queue_rep h q l -> foldl (pick_step h) (None, 0) l = (None, m) ->
  mvgal_workload_dequeue_priority (h, q) = Ret (None, (h, q)).
Proof.
  intros Hrep Hpick. unfold mvgal_workload_dequeue_priority.
  by rewrite (bind_ret _ _ _ _ _ (scan_queue_ok h q l Hrep)), Hpick.
Qed.

(** The two outcomes of a removal by priority. *)
Lemma dequeue_priority_cases h q l :
  queue_rep h q l ->
  (mvgal_workload_dequeue_priority (h, q) = Ret (None, (h, q)) /\ (forall p, p ∈ l -> prio h p <= 0))
  \/ (exists l1 b l2 h' q' w, l = l1 ++ b :: l2
        /\ mvgal_workload_dequeue_priority (h, q) = Ret (Some b, (h', q'))
        /\ 0 < prio h b /\ (forall p, p ∈ l1 -> prio h p < prio h b)
        /\ (forall p, p ∈ l2 -> prio h p <= prio h b)
        /\ queue_rep h' q' (l1 ++ l2) /\ content h' = content h /\ h' !! b = Some (unlinked w)).
Proof.
  intros Hrep. pose proof (pick_spec h l) as Hp.
  destruct (foldl (pick_step h) (None, 0) l) as [[b|] m] eqn:E.
  - right. destruct Hp as (l1 & l2 & -> & Hb & Hm & H1 & H2).
    destruct (dequeue_priority_at h q l1 b l2 m Hrep E Hb) as (h' & q' & w & Hrun & Hq & Hc & Hw).
    exists l1, b, l2, h', q', w. by rewrite Hb.
  - left. destruct Hp as [-> Hle]. split; [by eapply dequeue_priority_none|done].
Qed.

(** ** The abstract queue

    A list of addresses with fixed priorities.  [first_max] is the reference
    definition of the removal by priority: compute the maximum, then take the
    first element that has it, unless it is zero. *)

Definition max_prio (pr : addr -> Z) (l : list addr) : Z := foldr Z.max 0 (pr <$> l).

Definition first_max (pr : addr -> Z) (l : list addr) : option addr :=
  if max_prio pr l =? 0 then None
  else snd <$> list_find (fun p => pr p = max_prio pr l) l.

Inductive qop : Type := Enqueue (p : addr) | Dequeue | DequeuePriority.
Inductive qres : Type := QueueResult (e : mvgal_error_t) | NodeResult (p : option addr).

Definition spec_step (pr : addr -> Z) (o : qop) (l : list addr) : qres * list addr :=
  match o with
  | Enqueue p =>
      if MVGAL_SCHEDULER_MAX_QUEUED <=? Z.of_nat (length l)
      then (QueueResult MVGAL_ERROR_MEMORY, l) else (QueueResult MVGAL_SUCCESS, l ++ [p])
  | Dequeue => (NodeResult (head l), tail l)
  | DequeuePriority =>
      (NodeResult (first_max pr l),
       match first_max pr l with
       | Some b => filter (fun p => p <> b) l
       | None => l
       end)
  end.

Fixpoint spec_run (pr : addr -> Z) (os : list qop) (l : list addr) : list qres * list addr :=
  match os with
  | [] => ([], l)
  | o :: os' =>
      let '(r, l1) := spec_step pr o l in
      let '(rs, l2) := spec_run pr os' l1 in (r :: rs, l2)
  end.

(** Workloads are queued while allocated and not queued already. *)
Fixpoint ops_ok (pr : addr -> Z) (alloc : gset addr) (os : list qop) (l : list addr) : bool :=
  match os with
  | [] => true
  | o :: os' =>
      match o with
      | Enqueue p => bool_decide (p ∈ alloc /\ p ∉ l)
      | _ => true
      end && ops_ok pr alloc os' (spec_step pr o l).2
  end.

Definition qop_exec (o : qop) : QM qres :=
  match o with
  | Enqueue p => e ← mvgal_workload_queue (Some p); mret (QueueResult e)
  | Dequeue => p ← mvgal_workload_dequeue; mret (NodeResult p)
  | DequeuePriority => p ← mvgal_workload_dequeue_priority; mret (NodeResult p)
  end.

Fixpoint qops_exec (os : list qop) : QM (list qres) :=
  match os with
  | [] => mret []
  | o :: os' => r ← qop_exec o; rs ← qops_exec os'; mret (r :: rs)
  end.

Lemma max_prio_ge pr l p : p ∈ l -> pr p <= max_prio pr l.
Proof.
  unfold max_prio. induction l as [|q l IH]; [by intros ?%elem_of_nil|].
  cbn. intros [->|Hp]%elem_of_cons; [lia|]. specialize (IH Hp). cbn in IH. lia.
Qed.

Lemma max_prio_le pr l m : 0 <= m -> (forall p, p ∈ l -> pr p <= m) -> max_prio pr l <= m.
Proof.
  intros Hm Hl. unfold max_prio. induction l as [|q l IH]; cbn; [lia|].
  assert (pr q <= m) by (apply Hl; by left).
  assert (foldr Z.max 0 (pr <$> l) <= m) by (apply IH; intros p Hp; apply Hl; by right).
  cbn in *. lia.
Qed.

Lemma max_prio_nonneg pr l : 0 <= max_prio pr l.
Proof. unfold max_prio. induction l; cbn in *; lia. Qed.

Lemma first_max_none pr l : (forall p, p ∈ l -> pr p <= 0) -> first_max pr l = None.
Proof.
  intros Hl. unfold first_max. pose proof (max_prio_le pr l 0 ltac:(lia) Hl).
  pose proof (max_prio_nonneg pr l).
  by rewrite (proj2 (Z.eqb_eq _ _)) by lia.
Qed.

Lemma first_max_some pr l1 b l2 :
  0 < pr b -> (forall p, p ∈ l1 -> pr p < pr b) -> (forall p, p ∈ l2 -> pr p <= pr b) ->
  first_max pr (l1 ++ b :: l2) = Some b.
Proof.
  intros Hb H1 H2. assert (Hm : max_prio pr (l1 ++ b :: l2) = pr b).
  { apply Z.le_antisymm.
    - apply max_prio_le; [lia|]. intros p [Hp|[->|Hp]%elem_of_cons]%elem_of_app; [|lia|auto].
      specialize (H1 p Hp). lia.
    - apply max_prio_ge, elem_of_app. right. by left. }
  unfold first_max. rewrite Hm, (proj2 (Z.eqb_neq _ _)) by lia.
  assert (Hf : list_find (fun p => pr p = pr b) (l1 ++ b :: l2) = Some (length l1, b)).
  { apply list_find_Some. split_and!; [by apply list_lookup_middle|done|].
    intros j y Hj Hlt. rewrite lookup_app_l in Hj by done.
    apply list_elem_of_lookup_2, H1 in Hj. lia. }
  by rewrite Hf.
Qed.

Lemma filter_other (l1 : list addr) b l2 :
  b ∉ l1 -> b ∉ l2 -> filter (fun p => p <> b) (l1 ++ b :: l2) = l1 ++ l2.
Proof.
  intros H1 H2. rewrite filter_app, filter_cons_False by tauto.
  assert (Hf : forall l : list addr, b ∉ l -> filter (fun p => p <> b) l = l).
  { induction l as [|p l IH]; [done|]. intros [Hne Hl]%not_elem_of_cons.
    rewrite filter_cons_True by congruence. by rewrite IH. }
  by rewrite !Hf.
Qed.

(** Nothing was allocated, freed or given another priority. *)
Definition same_cells (h h' : wheap) : Prop :=
  dom h' = dom h /\ forall p, prio h' p = prio h p.

Lemma same_content_cells h h' : content h' = content h -> same_cells h h'.
Proof.
  intros Hc. split; [|intros p; apply prio_ext; by rewrite Hc].
  rewrite <- (dom_fmap_L unlinked h'), <- (dom_fmap_L unlinked h). unfold content in Hc. by rewrite Hc.
Qed.

Lemma retained_cells h h' p w :
  h !! p = Some w -> content h' = <[p := unlinked (retained w)]> (content h) -> same_cells h h'.
Proof.
  intros Hw Hc. split.
  - rewrite <- (dom_fmap_L unlinked h'). change (unlinked <$> h') with (content h').
    rewrite Hc, dom_insert_L. unfold content. rewrite dom_fmap_L.
    apply elem_of_dom_2 in Hw. set_solver.
  - intros r. rewrite !prio_content, Hc. destruct (decide (p = r)) as [->|].
    + by rewrite lookup_insert_eq, content_lookup, Hw.
    + by rewrite lookup_insert_ne.
Qed.

Section Refinement.
Context (pr : addr -> Z) (alloc : gset addr).

(** The concrete state stands for the abstract list [l]. *)
Record queue_refines (s : wheap * mvgal_workload_queue_t) (l : list addr) : Prop := {
  rf_rep : queue_rep s.1 s.2 l;
  rf_alloc : dom s.1 = alloc;
  rf_prio : forall p, prio s.1 p = pr p
}.

Lemma queue_refines_cells h q l h' q' l' :
  queue_refines (h, q) l -> queue_rep h' q' l' -> same_cells h h' -> queue_refines (h', q') l'.
Proof.
  intros [_ Hd Hp] Hr [Hd' Hp']. split; simpl in *; [done|congruence|].
  intros p. by rewrite Hp'.
Qed.

Lemma enqueue_refines p s l :
  queue_refines s l -> p ∈ alloc -> p ∉ l ->
  exists s', qop_exec (Enqueue p) s = Ret ((spec_step pr (Enqueue p) l).1, s')
    /\ queue_refines s' (spec_step pr (Enqueue p) l).2.
Proof.
  destruct s as [h q]. intros Hrf Ha Hp. pose proof Hrf as [Hrep Hd _]. simpl in *.
  rewrite <- Hd in Ha. apply elem_of_dom in Ha as [w Hw].
  destruct (Z.leb_spec MVGAL_SCHEDULER_MAX_QUEUED (Z.of_nat (length l))); simpl.
  - exists (h, q). split; [|done]. rewrite (bind_ret _ _ _ MVGAL_ERROR_MEMORY (h, q)); [done|].
    unfold mvgal_workload_queue. rewrite (bind_ret _ _ _ q (h, q)) by done.
    rewrite (qr_count _ _ _ Hrep). by rewrite (proj2 (Z.leb_le _ _)).
  - destruct (enqueue_spec h q l p w Hrep Hp Hw ltac:(lia)) as (h' & q' & Hrun & Hq & Hc).
    exists (h', q'). rewrite (bind_ret _ _ _ _ _ Hrun). split; [done|].
    eapply queue_refines_cells; [done|done|]. by eapply retained_cells.
Qed.

Lemma dequeue_refines s l :
  queue_refines s l ->
  exists s', qop_exec Dequeue s = Ret ((spec_step pr Dequeue l).1, s')
    /\ queue_refines s' (spec_step pr Dequeue l).2.
Proof.
  destruct s as [h q]. intros Hrf. pose proof (dequeue_spec h q l (rf_rep _ _ Hrf)) as Hs.
  simpl. destruct l as [|p l].
  - exists (h, q). by rewrite (bind_ret _ _ _ _ _ Hs).
  - destruct Hs as (h' & q' & w & Hrun & Hq & Hc & _). exists (h', q').
    rewrite (bind_ret _ _ _ _ _ Hrun). split; [done|].
    eapply queue_refines_cells; [done|done|]. by apply same_content_cells.
Qed.

Lemma dequeue_priority_refines s l :
  queue_refines s l ->
  exists s', qop_exec DequeuePriority s = Ret ((spec_step pr DequeuePriority l).1, s')
    /\ queue_refines s' (spec_step pr DequeuePriority l).2.
Proof.
  destruct s as [h q]. intros Hrf. pose proof Hrf as [Hrep _ Hp]. simpl in Hp, Hrep.
  simpl. destruct (dequeue_priority_cases h q l Hrep)
    as [[Hrun Hle]|(l1 & b & l2 & h' & q' & w & -> & Hrun & Hb & H1 & H2 & Hq & Hc & _)].
  - rewrite first_max_none by (intros r Hr; rewrite <- Hp; auto). exists (h, q).
    by rewrite (bind_ret _ _ _ _ _ Hrun).
  - rewrite Hp in *. rewrite first_max_some by (try done; intros r Hr; rewrite <- Hp; auto).
    exists (h', q'). rewrite (bind_ret _ _ _ _ _ Hrun). split; [done|]. simpl.
    destruct (nodup_middle l1 b l2 (qr_nodup _ _ _ Hrep)) as (Hb1 & Hb2 & _ & _).
    rewrite filter_other by done.
    eapply queue_refines_cells; [done|done|]. by apply same_content_cells.
Qed.

Lemma qop_refines o s l :
  queue_refines s l -> ops_ok pr alloc [o] l = true ->
  exists s', qop_exec o s = Ret ((spec_step pr o l).1, s') /\ queue_refines s' (spec_step pr o l).2.
Proof.
  intros Hrf Hok. destruct o as [p| |].
  - simpl in Hok. rewrite andb_true_r in Hok. apply bool_decide_eq_true_1 in Hok as [Ha Hp].
    by apply enqueue_refines.
  - by apply dequeue_refines.
  - by apply dequeue_priority_refines.
Qed.
End Refinement.

(** ** Properties *)

(** C1. The linked queue refines a plain list: any sequence of enqueues,
    FIFO removals and removals by priority, on a queue that stands for the
    list [l], returns the results of the abstract queue and leaves a queue
    that stands for the resulting list.  The abstract removal by priority
    takes the first element of the greatest priority, and nothing when no
    priority is positive.  No step follows a bad pointer or fails to end. *)
Theorem queue_refinement pr alloc os s l :
  queue_refines pr alloc s l -> ops_ok pr alloc os l = true ->
  exists s', qops_exec os s = Ret ((spec_run pr os l).1, s')
    /\ queue_refines pr alloc s' (spec_run pr os l).2.
Proof.
  revert s l. induction os as [|o os IH]; intros s l Hrf Hok; [by exists s|].
  cbn [ops_ok] in Hok. apply andb_true_iff in Hok as [Ho Hos].
  destruct (qop_refines pr alloc o s l Hrf) as (s1 & Hrun & Hrf1).
  { simpl. by rewrite andb_true_r. }
  destruct (IH s1 _ Hrf1 Hos) as (s2 & Hrun2 & Hrf2). exists s2.
  cbn [qops_exec spec_run]. rewrite (bind_ret _ _ _ _ _ Hrun), (bind_ret _ _ _ _ _ Hrun2).
  destruct (spec_step pr o l) as [r l1]. cbn [fst snd] in *.
  by destruct (spec_run pr os l1).
Qed.

(** ** Witnesses *)

Definition example_heap : wheap :=
  list_to_map (imap (fun i pr =>
    (Pos.of_succ_nat i, workload_zero <| w_refcount := 1 |>
                          <| w_descriptor ::= fun d => d <| d_priority := pr |> |>))
    [10; 90; 90; 0]).

Definition example_ops : list qop :=
  [Enqueue 1; Enqueue 2; Enqueue 3; Enqueue 4; DequeuePriority; Dequeue; DequeuePriority;
   DequeuePriority; Dequeue]%positive.

Lemma example_start :
  queue_refines (prio example_heap) (dom example_heap) (example_heap, queue_empty) [].
Proof. split; [|done|done]. split; try done. constructor. Qed.

Lemma queue_refinement_witness :
  exists s', qops_exec example_ops (example_heap, queue_empty)
    = Ret ([QueueResult MVGAL_SUCCESS; QueueResult MVGAL_SUCCESS; QueueResult MVGAL_SUCCESS;
            QueueResult MVGAL_SUCCESS; NodeResult (Some 2%positive); NodeResult (Some 1%positive);
            NodeResult (Some 3%positive); NodeResult None; NodeResult (Some 4%positive)], s').
Proof.
  destruct (queue_refinement _ _ example_ops _ _ example_start) as (s' & Hrun & _);
    [vm_compute; reflexivity|].
  exists s'. rewrite Hrun. vm_compute. reflexivity.
Defined.
