(* ===== verification/SchedSelect.v ===== *)
(** * Choosing a GPU for a workload

    Suitability, scoring and the selection loop of
    src/userspace/scheduler/scheduler.c, and the strategies that assign one
    GPU by score: strategy/task.c and strategy/compute_offload.c. *)

From S2P Require Import Prelude Float32 GpuTypes GpuManager SchedTypes.
Local Open Scope Z_scope.

(** The indices [0 .. gpu_count - 1] of a loop over the GPUs. *)
Definition gpu_indices (s : mvgal_scheduler_state_t) : list Z := seqZ 0 (ss_gpu_count s).

Definition mvgal_scheduler_gpu_suitable (gpu_index : Z) (workload : mvgal_workload)
  (s : mvgal_scheduler_state_t) : bool :=
  if ss_gpu_count s <=? gpu_index then false else
  let gpu := gs_at s gpu_index in
  if negb (gs_enabled gpu) || negb (gs_available gpu) then false else
  if negb (d_gpu_mask (w_descriptor workload) =? ANY_GPU_MASK)
     && negb (has_bit (d_gpu_mask (w_descriptor workload)) gpu_index)
  then false else true.

(** The part of the score that depends on the type of the workload. *)
Definition type_score (type : mvgal_workload_type_t) (gpu : mvgal_gpu_state_t) : f32 :=
  match type with
  | MVGAL_WORKLOAD_COMPUTE | MVGAL_WORKLOAD_AI => fmul (gs_compute_score gpu) (flit 1 100)
  | MVGAL_WORKLOAD_GRAPHICS | MVGAL_WORKLOAD_TRACE => fmul (gs_graphics_score gpu) (flit 1 100)
  | _ => fmul (fadd (gs_compute_score gpu) (gs_graphics_score gpu)) (flit 5 1000)
  end.

Definition mvgal_scheduler_calculate_score (gpu_index : Z) (workload : mvgal_workload)
  (s : mvgal_scheduler_state_t) : f32 :=
  if ss_gpu_count s <=? gpu_index then f32_of_Z (-1) else
  let gpu := gs_at s gpu_index in
  let score := fadd f0 (fmul (f32_of_Z (gs_priority gpu)) (flit 1 10)) in
  let score := fadd score (type_score (d_type (w_descriptor workload)) gpu) in
  let score := fsub score (fmul (gs_utilization gpu) (f32_of_Z 100)) in
  if cfg_thermal_aware (ss_config s) && fgt (gs_temperature gpu) (f32_of_Z 80)
  then fsub score (fmul (fsub (gs_temperature gpu) (f32_of_Z 80)) (flit 5 10))
  else score.

(** A candidate of the selection loop: its score if it is suitable. *)
Definition candidate_score (workload : mvgal_workload) (s : mvgal_scheduler_state_t) (i : Z)
  : option f32 :=
  if mvgal_scheduler_gpu_suitable i workload s
  then Some (mvgal_scheduler_calculate_score i workload s) else None.

(** The loop; [None] stands for a [best_idx] still at [0xFFFFFFFF]. *)
Definition best_gpu (workload : mvgal_workload) (s : mvgal_scheduler_state_t) : option Z :=
  (argmax false (candidate_score workload s) (f32_of_Z (-1000)) (gpu_indices s)).2.

Definition set_assigned (gpu : Z) (w : mvgal_workload) : mvgal_workload :=
  w <| w_descriptor ::= fun d => d <| d_assigned_gpu := gpu |> |>.

(** [mvgal_scheduler_find_best_gpu(workload, &workload->descriptor.assigned_gpu)],
    the only way the scheduler calls it. *)
Definition mvgal_scheduler_find_best_gpu (workload : option addr) : SM mvgal_error_t :=
  match workload with
  | None => mret MVGAL_ERROR_INVALID_ARGUMENT
  | Some p =>
      w ← deref p;
      s ← get;
      match best_gpu w s with
      | None => mret MVGAL_ERROR_NO_GPUS
      | Some i => update p (set_assigned i);; mret MVGAL_SUCCESS
      end
  end.

(** Assigns one GPU: descriptor, count and first slot of the array. *)
Definition assign_one (gpu : Z) (w : mvgal_workload) : mvgal_workload :=
  (set_assigned gpu w) <| w_assigned_gpu_count := 1 |>
                       <| w_assigned_gpus ::= fun l => <[0%nat := gpu]> l |>.

(** [assigned_gpus[0]]. *)
Definition first_assigned (w : mvgal_workload) : Z := w_assigned_gpus w !!! 0%nat.

Definition gpu_active (s : mvgal_scheduler_state_t) (i : Z) : bool :=
  gs_available (gs_at s i) && gs_enabled (gs_at s i).

(** ** Task-based strategy (strategy/task.c) *)

Record task_type_mapping_t : Type := mk_mapping {
  tm_task_type : mvgal_workload_type_t;
  tm_required_features : Z;
  tm_compute_weight : f32;
  tm_graphics_weight : f32;
  tm_memory_weight : f32
}.

Definition g_task_mappings : list task_type_mapping_t :=
  [ mk_mapping MVGAL_WORKLOAD_GRAPHICS MVGAL_FEATURE_GRAPHICS (flit 2 10) (flit 7 10) (flit 1 10);
    mk_mapping MVGAL_WORKLOAD_COMPUTE MVGAL_FEATURE_COMPUTE (flit 8 10) (flit 1 10) (flit 1 10);
    mk_mapping MVGAL_WORKLOAD_VIDEO (Z.lor MVGAL_FEATURE_VIDEO_DECODE MVGAL_FEATURE_VIDEO_ENCODE)
               (flit 5 10) (flit 3 10) (flit 2 10);
    mk_mapping MVGAL_WORKLOAD_AI MVGAL_FEATURE_AI_ACCEL (flit 9 10) f0 (flit 1 10);
    mk_mapping MVGAL_WORKLOAD_TRACE MVGAL_FEATURE_RAY_TRACING (flit 6 10) (flit 4 10) f0;
    mk_mapping MVGAL_WORKLOAD_TRANSFER 0 (flit 1 10) (flit 1 10) (flit 8 10) ].

Definition get_task_mapping (task_type : mvgal_workload_type_t) : option task_type_mapping_t :=
  snd <$> list_find (fun m => tm_task_type m = task_type) g_task_mappings.

(** [&g_task_mappings[0]]. *)
Definition default_mapping : task_type_mapping_t :=
  mk_mapping MVGAL_WORKLOAD_GRAPHICS MVGAL_FEATURE_GRAPHICS (flit 2 10) (flit 7 10) (flit 1 10).

Definition has_features (s : mvgal_scheduler_state_t) (i required : Z) : bool :=
  Z.land (gs_features (gs_at s i)) required =? required.

(** Priority and utilization terms of both loops. *)
Definition task_adjust (gpu : mvgal_gpu_state_t) (score : f32) : f32 :=
  fsub (fadd score (fmul (f32_of_Z (gs_priority gpu)) (flit 1 100)))
       (fmul (gs_utilization gpu) (f32_of_Z 50)).

Definition task_score (m : task_type_mapping_t) (s : mvgal_scheduler_state_t) (i : Z) : option f32 :=
  if negb (gpu_active s i) then None
  else if negb (has_features s i (tm_required_features m)) then None
  else
    let gpu := gs_at s i in
    let score := fadd f0 (fmul (gs_compute_score gpu) (tm_compute_weight m)) in
    let score := fadd score (fmul (gs_graphics_score gpu) (tm_graphics_weight m)) in
    Some (task_adjust gpu score).

Definition task_fallback_score (s : mvgal_scheduler_state_t) (i : Z) : option f32 :=
  if negb (gpu_active s i) then None
  else
    let gpu := gs_at s i in
    Some (task_adjust gpu (fadd (fmul (gs_compute_score gpu) (flit 5 10))
                                (fmul (gs_graphics_score gpu) (flit 5 10)))).

Definition task_select (type : mvgal_workload_type_t) (s : mvgal_scheduler_state_t) : option Z :=
  let mapping := default default_mapping (get_task_mapping type) in
  match argmax false (task_score mapping s) (f32_of_Z (-1000)) (gpu_indices s) with
  | (_, Some i) => Some i
  | (best_score, None) => (argmax false (task_fallback_score s) best_score (gpu_indices s)).2
  end.

Definition mvgal_scheduler_distribute_task (workload : option addr) : SM mvgal_error_t :=
  match workload with
  | None => mret MVGAL_ERROR_INVALID_ARGUMENT
  | Some p =>
      w ← deref p;
      if 0 <? w_assigned_gpu_count w
      then update p (set_assigned (first_assigned w));; mret MVGAL_SUCCESS
      else
        s ← get;
        match task_select (d_type (w_descriptor w)) s with
        | None => mret MVGAL_ERROR_NO_GPUS
        | Some i => update p (assign_one i);; mret MVGAL_SUCCESS
        end
  end.

(** [task_get_best_gpu]: no utilization term, and the first active GPU when
    none has the features. *)
Definition task_query_score (m : task_type_mapping_t) (s : mvgal_scheduler_state_t) (i : Z)
  : option f32 :=
  if negb (gpu_active s i) then None
  else if negb (has_features s i (tm_required_features m)) then None
  else
    let gpu := gs_at s i in
    Some (fadd (fadd (fmul (gs_compute_score gpu) (tm_compute_weight m))
                     (fmul (gs_graphics_score gpu) (tm_graphics_weight m)))
               (fmul (f32_of_Z (gs_priority gpu)) (flit 1 100))).

Definition task_get_best_gpu (task_type : mvgal_workload_type_t) (gpu_index : bool)
  (s : mvgal_scheduler_state_t) : mvgal_error_t * option Z :=
  if negb gpu_index then (MVGAL_ERROR_INVALID_ARGUMENT, None) else
  let mapping := default default_mapping (get_task_mapping task_type) in
  let chosen :=
    match (argmax false (task_query_score mapping s) (f32_of_Z (-1000)) (gpu_indices s)).2 with
    | Some i => Some i
    | None => snd <$> list_find (fun i => gpu_active s i = true) (gpu_indices s)
    end in
  match chosen with
  | Some i => (MVGAL_SUCCESS, Some i)
  | None => (MVGAL_ERROR_NO_GPUS, Some NO_GPU)
  end.

(** Only logs; the table is constant. *)
Definition task_configure_weights (task_type : mvgal_workload_type_t) : mvgal_error_t :=
  match get_task_mapping task_type with
  | Some _ => MVGAL_SUCCESS
  | None => MVGAL_ERROR_INVALID_ARGUMENT
  end.

(** ** Compute offload (strategy/compute_offload.c) *)

Definition offload_adjusted (s : mvgal_scheduler_state_t) (i : Z) : f32 :=
  fmul (gs_compute_score (gs_at s i)) (fsub f1 (gs_utilization (gs_at s i))).

Definition offload_score (s : mvgal_scheduler_state_t) (i : Z) : option f32 :=
  if negb (gpu_active s i) then None
  else if negb (has_flag (gs_features (gs_at s i)) MVGAL_FEATURE_COMPUTE) then None
  else Some (offload_adjusted s i).

Definition offload_fallback_score (s : mvgal_scheduler_state_t) (i : Z) : option f32 :=
  if gpu_active s i then Some (offload_adjusted s i) else None.

Definition offload_select (s : mvgal_scheduler_state_t) : option Z :=
  match argmax false (offload_score s) (f32_of_Z (-1)) (gpu_indices s) with
  | (_, Some i) => Some i
  | (best, None) => (argmax false (offload_fallback_score s) best (gpu_indices s)).2
  end.

Definition mvgal_scheduler_distribute_compute_offload (workload : option addr) : SM mvgal_error_t :=
  match workload with
  | None => mret MVGAL_ERROR_INVALID_ARGUMENT
  | Some p =>
      w ← deref p;
      if 0 <? w_assigned_gpu_count w
      then update p (set_assigned (first_assigned w));; mret MVGAL_SUCCESS
      else
        s ← get;
        match offload_select s with
        | None => mret MVGAL_ERROR_NO_GPUS
        | Some i => update p (assign_one i);; mret MVGAL_SUCCESS
        end
  end.

Definition compute_offload_get_score (gpu_index : Z) (s : mvgal_scheduler_state_t) : f32 :=
  if ss_gpu_count s <=? gpu_index then f32_of_Z (-1) else gs_compute_score (gs_at s gpu_index).

(** The bandwidth quotient in 64-bit arithmetic, then the score factor in
    [float]; the final cast is undefined when the quotient leaves the range. *)
Definition compute_offload_estimate_duration (gpu_index workload_size_bytes : Z)
  (s : mvgal_scheduler_state_t) : outcome Z :=
  if ss_gpu_count s <=? gpu_index then Ret 0 else
  let bandwidth_gbps := f32_of_Z 500 in
  match f32_to_u64 (fmul bandwidth_gbps (f32_of_Z 1000000000)) with
  | None => Fault BadConversion
  | Some divisor =>
      if divisor =? 0 then Fault DivByZero else
      let duration_ns := u64 (u64 (workload_size_bytes * 8) * 1000000000) / divisor in
      let score_factor := fdiv (gs_compute_score (gs_at s gpu_index)) (f32_of_Z 100) in
      if fgt score_factor f0 then
        match f32_to_u64 (fdiv (f32_of_Z duration_ns) score_factor) with
        | None => Fault BadConversion
        | Some d => Ret d
        end
      else Ret duration_ns
  end.

(** ** What the selections guarantee *)

Lemma elem_of_gpu_indices s i : i ∈ gpu_indices s <-> 0 <= i < ss_gpu_count s.
Proof. unfold gpu_indices. rewrite elem_of_seqZ. lia. Qed.

(** The GPUs a workload may be given. *)
Definition may_run_on (s : mvgal_scheduler_state_t) (w : mvgal_workload) (i : Z) : Prop :=
  0 <= i < ss_gpu_count s
  /\ gs_enabled (gs_at s i) = true /\ gs_available (gs_at s i) = true
  /\ (d_gpu_mask (w_descriptor w) = ANY_GPU_MASK \/ has_bit (d_gpu_mask (w_descriptor w)) i = true).

Lemma suitable_may_run s w i :
  i ∈ gpu_indices s -> mvgal_scheduler_gpu_suitable i w s = true <-> may_run_on s w i.
Proof.
  rewrite elem_of_gpu_indices. intros Hi. unfold mvgal_scheduler_gpu_suitable, may_run_on.
  destruct (ss_gpu_count s <=? i) eqn:?; [lia|].
  destruct (gs_enabled _), (gs_available _), (Z.eqb_spec (d_gpu_mask (w_descriptor w)) ANY_GPU_MASK),
    (has_bit _ i); simpl; naive_solver.
Qed.

Lemma candidate_may_run s w i t :
  i ∈ gpu_indices s ->
  candidate_score w s i = Some t <->
  may_run_on s w i /\ t = mvgal_scheduler_calculate_score i w s.
Proof.
  intros Hi. rewrite <-(suitable_may_run _ _ _ Hi). unfold candidate_score.
  destruct (mvgal_scheduler_gpu_suitable i w s); naive_solver.
Qed.

Lemma deref_ok p w (s : mvgal_scheduler_state_t) : ss_heap s !! p = Some w -> deref p s = Ret (w, s).
Proof. intros E. unfold deref. by rewrite E. Qed.

Lemma update_ok p f w (s : mvgal_scheduler_state_t) :
  ss_heap s !! p = Some w -> update p f s = Ret (tt, s <| ss_heap ::= fun h => <[p := f w]> h |>).
Proof. intros E. unfold update. by rewrite E. Qed.

Lemma find_best_gpu_run p w s :
  ss_heap s !! p = Some w ->
  mvgal_scheduler_find_best_gpu (Some p) s =
  match best_gpu w s with
  | None => Ret (MVGAL_ERROR_NO_GPUS, s)
  | Some i => Ret (MVGAL_SUCCESS, s <| ss_heap ::= fun h => <[p := set_assigned i w]> h |>)
  end.
Proof.
  intros E. unfold mvgal_scheduler_find_best_gpu. rewrite (bind_ret _ _ _ _ _ (deref_ok _ _ _ E)).
  rewrite (bind_ret get _ s s s eq_refl). destruct (best_gpu w s) as [i|]; [|reflexivity].
  by rewrite (bind_ret _ _ _ _ _ (update_ok _ _ _ _ E)).
Qed.

Lemma best_gpu_spec w s :
  match best_gpu w s with
  | Some i => may_run_on s w i
      /\ fgt (mvgal_scheduler_calculate_score i w s) (f32_of_Z (-1000)) = true
      /\ forall j, may_run_on s w j ->
           fgt (mvgal_scheduler_calculate_score j w s) (mvgal_scheduler_calculate_score i w s) = false
  | None => forall j, may_run_on s w j ->
      fgt (mvgal_scheduler_calculate_score j w s) (f32_of_Z (-1000)) = false
  end.
Proof.
  pose proof (argmax_bound (candidate_score w s) (f32_of_Z (-1000)) (gpu_indices s)) as Hb.
  unfold best_gpu. destruct (argmax _ _ _ _) as [b [i|]]; cbn [snd].
  - destruct Hb as (Hi & sc & Hs & Hgt & Hmax).
    apply (candidate_may_run _ _ _ _ Hi) in Hs as [Hrun ->]. split_and!; [done..|].
    intros j Hj. assert (j ∈ gpu_indices s) as Hin by (apply elem_of_gpu_indices, Hj).
    apply (Hmax j); [done|]. by apply candidate_may_run.
  - destruct Hb as [_ Hn]. intros j Hj.
    assert (j ∈ gpu_indices s) as Hin by (apply elem_of_gpu_indices, Hj).
    apply (Hn j); [done|]. by apply candidate_may_run.
Qed.

(** C24. [mvgal_scheduler_find_best_gpu] on a live workload never faults.  When
    it succeeds it changes nothing but the workload's assigned GPU, which is
    one the workload may run on (in range, enabled, available and allowed by
    its mask) and which no other such GPU beats in score.  When it reports
    that there is no GPU it leaves the state alone and every GPU the workload
    may run on fails to score above -1000. *)
Theorem find_best_gpu_sound p w s :
  ss_heap s !! p = Some w ->
  match mvgal_scheduler_find_best_gpu (Some p) s with
  | Ret (MVGAL_SUCCESS, s') => exists i,
      s' = s <| ss_heap ::= fun h => <[p := set_assigned i w]> h |>
      /\ may_run_on s w i
      /\ forall j, may_run_on s w j ->
           fgt (mvgal_scheduler_calculate_score j w s) (mvgal_scheduler_calculate_score i w s) = false
  | Ret (MVGAL_ERROR_NO_GPUS, s') =>
      s' = s /\ forall j, may_run_on s w j ->
        fgt (mvgal_scheduler_calculate_score j w s) (f32_of_Z (-1000)) = false
  | _ => False
  end.
Proof.
  intros E. rewrite (find_best_gpu_run _ _ _ E). pose proof (best_gpu_spec w s) as Hb.
  destruct (best_gpu w s) as [i|]; [|done]. exists i. naive_solver.
Qed.

(** The two-phase selections: capable GPUs first, then any active one. *)
Lemma two_phase (first second : Z -> option f32) init l :
  match (match argmax false first init l with
         | (_, Some i) => Some i
         | (b, None) => (argmax false second b l).2
         end) with
  | Some i => best_of first init l i \/ (none_above first init l /\ best_of second init l i)
  | None => none_above first init l /\ none_above second init l
  end.
Proof.
  pose proof (argmax_bound first init l) as H1.
  destruct (argmax false first init l) as [b [i|]]; [by left|]. destruct H1 as [-> H1].
  pose proof (argmax_bound second init l) as H2.
  destruct (argmax false second init l) as [b [i|]]; cbn [snd]; [by right|naive_solver].
Qed.

Definition task_mapping (type : mvgal_workload_type_t) : task_type_mapping_t :=
  default default_mapping (get_task_mapping type).

Lemma distribute_task_run p w s :
  ss_heap s !! p = Some w -> w_assigned_gpu_count w = 0 ->
  mvgal_scheduler_distribute_task (Some p) s =
  match task_select (d_type (w_descriptor w)) s with
  | None => Ret (MVGAL_ERROR_NO_GPUS, s)
  | Some i => Ret (MVGAL_SUCCESS, s <| ss_heap ::= fun h => <[p := assign_one i w]> h |>)
  end.
Proof.
  intros E Hc. unfold mvgal_scheduler_distribute_task.
  rewrite (bind_ret _ _ _ _ _ (deref_ok _ _ _ E)), Hc. cbn [Z.ltb Z.compare].
  rewrite (bind_ret get _ s s s eq_refl). destruct (task_select _ s) as [i|]; [|reflexivity].
  by rewrite (bind_ret _ _ _ _ _ (update_ok _ _ _ _ E)).
Qed.

Lemma distribute_offload_run p w s :
  ss_heap s !! p = Some w -> w_assigned_gpu_count w = 0 ->
  mvgal_scheduler_distribute_compute_offload (Some p) s =
  match offload_select s with
  | None => Ret (MVGAL_ERROR_NO_GPUS, s)
  | Some i => Ret (MVGAL_SUCCESS, s <| ss_heap ::= fun h => <[p := assign_one i w]> h |>)
  end.
Proof.
  intros E Hc. unfold mvgal_scheduler_distribute_compute_offload.
  rewrite (bind_ret _ _ _ _ _ (deref_ok _ _ _ E)), Hc. cbn [Z.ltb Z.compare].
  rewrite (bind_ret get _ s s s eq_refl). destruct (offload_select s) as [i|]; [|reflexivity].
  by rewrite (bind_ret _ _ _ _ _ (update_ok _ _ _ _ E)).
Qed.

Lemma task_score_capable m s i t :
  task_score m s i = Some t -> gpu_active s i = true /\ has_features s i (tm_required_features m) = true.
Proof. unfold task_score. by destruct (gpu_active s i), (has_features _ _ _). Qed.

Lemma task_fallback_active s i t : task_fallback_score s i = Some t -> gpu_active s i = true.
Proof. unfold task_fallback_score. by destruct (gpu_active s i). Qed.

(** The task strategy on a live workload without pre-assigned GPUs never
    faults.  On success the workload is given exactly one GPU, in range and
    active; that GPU has the features the workload type requires and the best
    score among those that have them, or else no capable GPU scores above the
    -1000 bound and it is the best active GPU by the fallback score.  It
    reports a missing GPU only when no active GPU scores above the bound. *)
Theorem distribute_task_policy p w s :
  ss_heap s !! p = Some w -> w_assigned_gpu_count w = 0 ->
  let capable := task_score (task_mapping (d_type (w_descriptor w))) s in
  let bound := f32_of_Z (-1000) in
  match mvgal_scheduler_distribute_task (Some p) s with
  | Ret (MVGAL_SUCCESS, s') => exists i,
      s' = s <| ss_heap ::= fun h => <[p := assign_one i w]> h |>
      /\ 0 <= i < ss_gpu_count s /\ gpu_active s i = true
      /\ ((has_features s i (tm_required_features (task_mapping (d_type (w_descriptor w)))) = true
           /\ best_of capable bound (gpu_indices s) i)
          \/ (none_above capable bound (gpu_indices s)
              /\ best_of (task_fallback_score s) bound (gpu_indices s) i))
  | Ret (MVGAL_ERROR_NO_GPUS, s') =>
      s' = s /\ none_above (task_fallback_score s) bound (gpu_indices s)
  | _ => False
  end.
Proof.
  intros E Hc capable bound. rewrite (distribute_task_run _ _ _ E Hc).
  pose proof (two_phase capable (task_fallback_score s) bound (gpu_indices s)) as H2.
  change (task_select _ s) with (match argmax false capable bound (gpu_indices s) with
    | (_, Some i) => Some i
    | (b, None) => (argmax false (task_fallback_score s) b (gpu_indices s)).2 end).
  destruct (match _ with (_, Some i) => Some i | _ => _ end) as [i|]; [|naive_solver].
  exists i. split; [done|]. rewrite <-elem_of_gpu_indices.
  destruct H2 as [H2|[Hn H2]].
  - destruct (H2) as (Hi & sc & Hs & _). apply task_score_capable in Hs. naive_solver.
  - destruct (H2) as (Hi & sc & Hs & _). apply task_fallback_active in Hs. naive_solver.
Qed.

Lemma offload_score_capable s i t :
  offload_score s i = Some t ->
  gpu_active s i = true /\ has_flag (gs_features (gs_at s i)) MVGAL_FEATURE_COMPUTE = true.
Proof. unfold offload_score. by destruct (gpu_active s i), (has_flag _ _). Qed.

Lemma offload_fallback_active s i t : offload_fallback_score s i = Some t -> gpu_active s i = true.
Proof. unfold offload_fallback_score. by destruct (gpu_active s i). Qed.

(** Compute offload on a live workload without pre-assigned GPUs never
    faults.  On success the workload is given exactly one GPU, in range and
    active, with the highest utilization-adjusted compute score among the
    compute-capable GPUs if one of them scores above -1, and among all active
    GPUs otherwise.  It reports a missing GPU only when no active GPU scores
    above -1. *)
Theorem distribute_offload_policy p w s :
  ss_heap s !! p = Some w -> w_assigned_gpu_count w = 0 ->
  let bound := f32_of_Z (-1) in
  match mvgal_scheduler_distribute_compute_offload (Some p) s with
  | Ret (MVGAL_SUCCESS, s') => exists i,
      s' = s <| ss_heap ::= fun h => <[p := assign_one i w]> h |>
      /\ 0 <= i < ss_gpu_count s /\ gpu_active s i = true
      /\ ((has_flag (gs_features (gs_at s i)) MVGAL_FEATURE_COMPUTE = true
           /\ best_of (offload_score s) bound (gpu_indices s) i)
          \/ (none_above (offload_score s) bound (gpu_indices s)
              /\ best_of (offload_fallback_score s) bound (gpu_indices s) i))
  | Ret (MVGAL_ERROR_NO_GPUS, s') =>
      s' = s /\ none_above (offload_fallback_score s) bound (gpu_indices s)
  | _ => False
  end.
Proof.
  intros E Hc bound. rewrite (distribute_offload_run _ _ _ E Hc). unfold offload_select.
  pose proof (two_phase (offload_score s) (offload_fallback_score s) bound (gpu_indices s)) as H2.
  destruct (match _ with (_, Some i) => Some i | _ => _ end) as [i|]; [|naive_solver].
  exists i. split; [done|]. rewrite <-elem_of_gpu_indices.
  destruct H2 as [H2|[Hn H2]].
  - destruct (H2) as (Hi & sc & Hs & _). apply offload_score_capable in Hs. naive_solver.
  - destruct (H2) as (Hi & sc & Hs & _). apply offload_fallback_active in Hs. naive_solver.
Qed.

(** ** Two GPUs

    A concrete scheduler: GPU 0 does graphics only, GPU 1 also computes and
    is half busy; workload 1 is a compute job open to both. *)
Module TwoGpus.
Definition gpu0 : mvgal_gpu_state_t :=
  gs_zero <| gs_available := true |> <| gs_enabled := true |> <| gs_priority := 50 |>
          <| gs_features := MVGAL_FEATURE_GRAPHICS |>
          <| gs_compute_score := f32_of_Z 90 |> <| gs_graphics_score := f32_of_Z 80 |>.
Definition gpu1 : mvgal_gpu_state_t :=
  gs_zero <| gs_available := true |> <| gs_enabled := true |> <| gs_priority := 50 |>
          <| gs_features := Z.lor MVGAL_FEATURE_GRAPHICS MVGAL_FEATURE_COMPUTE |>
          <| gs_compute_score := f32_of_Z 60 |> <| gs_graphics_score := f32_of_Z 70 |>
          <| gs_utilization := flit 5 10 |>.
Definition job : mvgal_workload :=
  workload_zero <| w_refcount := 2 |>
    <| w_descriptor := desc_zero <| d_type := MVGAL_WORKLOAD_COMPUTE |> <| d_priority := 5 |>
                                 <| d_gpu_mask := ANY_GPU_MASK |> |>.
Definition state : mvgal_scheduler_state_t :=
  sched_start <| ss_initialized := true |> <| ss_gpu_count := 2 |>
    <| ss_gpus := gpu0 :: gpu1 :: replicate 14 gs_zero |>
    <| ss_heap := {[1%positive := job]} |>.

(** By plain score the idle GPU 0 wins; a job tied to GPU 1 goes there. *)
Lemma find_best_gpu_sound_witness :
  let tied := job <| w_descriptor ::= fun d => d <| d_gpu_mask := 2 |> |> in
  let s := state <| ss_heap := {[1%positive := tied]} |> in
  best_gpu job state = Some 0
  /\ exists i, mvgal_scheduler_find_best_gpu (Some 1%positive) s
      = Ret (MVGAL_SUCCESS, s <| ss_heap ::= fun h => <[1%positive := set_assigned i tied]> h |>)
  /\ may_run_on s tied i.
Proof.
  intros tied s. split; [vm_compute; reflexivity|].
  pose proof (find_best_gpu_sound 1%positive tied s eq_refl) as H.
  rewrite (find_best_gpu_run 1%positive tied s eq_refl) in H |- *.
  assert (E : best_gpu tied s = Some 1) by (vm_compute; reflexivity). rewrite E in H |- *.
  destruct H as (i & Hs & Hi & _). exists i. split; [by rewrite Hs|exact Hi].
Defined.

Lemma distribute_task_policy_witness :
  exists i, mvgal_scheduler_distribute_task (Some 1%positive) state
    = Ret (MVGAL_SUCCESS, state <| ss_heap ::= fun h => <[1%positive := assign_one i job]> h |>)
  /\ gpu_active state i = true.
Proof.
  pose proof (distribute_task_policy 1%positive job state eq_refl eq_refl) as H.
  rewrite (distribute_task_run 1%positive job state eq_refl eq_refl) in H |- *.
  assert (E : task_select (d_type (w_descriptor job)) state = Some 1) by (vm_compute; reflexivity).
  rewrite E in H |- *. destruct H as (i & Hs & _ & Ha & _). exists i. split; [by rewrite Hs|exact Ha].
Defined.

Lemma distribute_offload_policy_witness :
  exists i, mvgal_scheduler_distribute_compute_offload (Some 1%positive) state
    = Ret (MVGAL_SUCCESS, state <| ss_heap ::= fun h => <[1%positive := assign_one i job]> h |>)
  /\ gpu_active state i = true.
Proof.
  pose proof (distribute_offload_policy 1%positive job state eq_refl eq_refl) as H.
  rewrite (distribute_offload_run 1%positive job state eq_refl eq_refl) in H |- *.
  assert (E : offload_select state = Some 1) by (vm_compute; reflexivity).
  rewrite E in H |- *. destruct H as (i & Hs & _ & Ha & _). exists i. split; [by rewrite Hs|exact Ha].
Defined.
End TwoGpus.
