(* ===== verification/Strategies.v ===== *)
(** * Frame strategies

    Alternate frame rendering (strategy/afr.c), split frame rendering
    (strategy/sfr.c) and the hybrid strategy (strategy/hybrid.c) of
    src/userspace/scheduler. *)

From S2P Require Import Prelude Float32 GpuTypes GpuManager SchedTypes SchedSelect.
Local Open Scope Z_scope.

(** ** Alternate frame rendering *)

Definition afr_init (a : afr_state) : afr_state :=
  if afr_initialized a then a else
  a <| afr_current_gpu_index := 0 |> <| afr_frame_counter := 0 |> <| afr_gpu_count := 0 |>
    <| afr_initialized := true |>.

(** [memcpy]-like loop: the first [length l] entries become [l]. *)
Definition overwrite {A} (l old : list A) : list A := l ++ drop (length l) old.

(** [indices] are the first [gpu_count] entries of the caller's array. *)
Definition afr_configure (indices : list Z) (a : afr_state) : mvgal_error_t * afr_state :=
  if (length indices =? 0)%nat || (MVGAL_SCHEDULER_MAX_GPUS <? length indices)%nat
  then (MVGAL_ERROR_INVALID_ARGUMENT, a) else
  let a := afr_init a in
  (MVGAL_SUCCESS,
   a <| afr_gpu_count := Z.of_nat (length indices) |>
     <| afr_gpu_indices ::= overwrite indices |>
     <| afr_current_gpu_index := 0 |> <| afr_frame_counter := 0 |>).

Definition afr_get_next_gpu (a : afr_state) : Z * afr_state :=
  if afr_gpu_count a =? 0 then (NO_GPU, a) else
  let gpu_index := afr_gpu_indices a !!! Z.to_nat (afr_current_gpu_index a) in
  (gpu_index,
   a <| afr_current_gpu_index ::= fun c => u32 (c + 1) mod afr_gpu_count a |>
     <| afr_frame_counter ::= fun c => u32 (c + 1) |>).

(** A step of the AFR state. *)
Definition on_afr {A} (f : afr_state -> A * afr_state) : SM A := fun s =>
  let '(a, x) := f (ss_afr s) in Ret (a, s <| ss_afr := x |>).

(** The GPUs of a mask, lowest first. *)
Definition mask_gpus (mask : Z) : list Z :=
  filter (fun i => has_bit mask i = true) (seqZ 0 16).

Definition mvgal_scheduler_distribute_afr (workload : option addr) : SM mvgal_error_t :=
  match workload with
  | None => mret MVGAL_ERROR_INVALID_ARGUMENT
  | Some p =>
      modify (fun s => s <| ss_afr ::= afr_init |>);;
      w ← deref p;
      if 0 <? w_assigned_gpu_count w
      then update p (set_assigned (first_assigned w));; mret MVGAL_SUCCESS
      else
        let mask := d_gpu_mask (w_descriptor w) in
        (if negb (mask =? ANY_GPU_MASK) && (0 <? length (mask_gpus mask))%nat
         then modify (fun s => s <| ss_afr ::= fun a => (afr_configure (mask_gpus mask) a).2 |>)
         else mret tt);;
        gpu_index ← on_afr afr_get_next_gpu;
        if gpu_index =? NO_GPU then mvgal_scheduler_find_best_gpu (Some p)
        else update p (assign_one gpu_index);; mret MVGAL_SUCCESS
  end.

Definition afr_get_stats (s : mvgal_scheduler_state_t) : (Z * Z) * mvgal_scheduler_state_t :=
  let s := s <| ss_afr ::= afr_init |> in
  ((afr_frame_counter (ss_afr s), afr_gpu_count (ss_afr s)), s).

Definition afr_reset (a : afr_state) : afr_state :=
  a <| afr_current_gpu_index := 0 |> <| afr_frame_counter := 0 |> <| afr_gpu_count := 0 |>.

(** ** Split frame rendering *)

Inductive sfr_mode_t : Type :=
| SFR_MODE_HORIZONTAL
| SFR_MODE_VERTICAL
| SFR_MODE_GRID
| SFR_MODE_CHECKERBOARD.

Definition SFR_MAX_REGIONS : nat := 64. (* MVGAL_SCHEDULER_MAX_GPUS * 4 *)

(** The sum of the weights, or the number of GPUs when there are none. *)
Definition total_weight (gpu_count : Z) (weights : option (list f32)) : f32 :=
  let t := match weights with
           | Some ws => foldl fadd f0 (take (Z.to_nat gpu_count) ws)
           | None => f32_of_Z gpu_count
           end in
  if fle t f0 then f1 else t.

#[export] Instance f32_inhabited : Inhabited f32 := populate f0.

(** The share of GPU [i]. *)
Definition share (gpu_count : Z) (weights : option (list f32)) (total : f32) (i : Z) : f32 :=
  match weights with
  | Some ws => fdiv (ws !!! Z.to_nat i) total
  | None => fdiv f1 (f32_of_Z gpu_count)
  end.

(** [(uint32_t)(extent * weight)], undefined outside the range. *)
Definition scaled (extent : Z) (weight : f32) : outcome Z :=
  match f32_to_u32 (fmul (f32_of_Z extent) weight) with
  | Some z => Ret z
  | None => Fault BadConversion
  end.

(** One direction of the band modes: bands along an axis of [extent], the
    last one taking what is left.  [mk] builds the region from the offset and
    the size; [room] is what is left of [max_regions]. *)
Fixpoint split_bands (extent gpu_count : Z) (weight : Z -> f32) (mk : Z -> Z -> Z -> sfr_region_t)
  (room : nat) (i : nat) (n : nat) (current : Z) : outcome (list sfr_region_t) :=
  match n, room with
  | S n', S room' =>
      match scaled extent (weight (Z.of_nat i)) with
      | Ret size =>
          let size := if Z.of_nat i =? gpu_count - 1 then u32 (extent - current) else size in
          match split_bands extent gpu_count weight mk room' (S i) n' (u32 (current + size)) with
          | Ret rest => Ret (mk current size (Z.of_nat i) :: rest)
          | Fault e => Fault e
          | NoFuel => NoFuel
          end
      | Fault e => Fault e
      | NoFuel => NoFuel
      end
  | _, _ => Ret []
  end.

(** [(uint32_t)ceil(sqrt((float)n))], exact for [n] below 2^24: the least
    [r] with [n <= r * r]. *)
Definition ceil_sqrt (n : Z) : Z :=
  let r := Z.sqrt n in if r * r =? n then r else r + 1.

(** The cells of one row of the grid, [n] columns to go from column [c]. *)
Fixpoint grid_row (width gpu_count cols : Z) (cell_width : Z -> outcome Z) (y cell_height r : Z)
  (room : nat) (c : nat) (n : nat) (current_x : Z) : outcome (list sfr_region_t) :=
  match n, room with
  | S n', S room' =>
      let i := r * cols + Z.of_nat c in
      if gpu_count <=? i then Ret [] else
      match cell_width i with
      | Ret region_width =>
          let w := if (Z.of_nat c =? cols - 1) || (i =? gpu_count - 1)
                   then u32 (width - current_x) else region_width in
          match grid_row width gpu_count cols cell_width y cell_height r room' (S c) n'
                  (u32 (current_x + w)) with
          | Ret rest => Ret (mk_region current_x y w cell_height i :: rest)
          | Fault e => Fault e
          | NoFuel => NoFuel
          end
      | Fault e => Fault e
      | NoFuel => NoFuel
      end
  | _, _ => Ret []
  end.

Fixpoint grid_rows (width height gpu_count rows cols : Z) (cell_width : Z -> outcome Z)
  (room : nat) (r : nat) (n : nat) (current_y : Z) : outcome (list sfr_region_t) :=
  match n with
  | O => Ret []
  | S n' =>
      let row_height := height / rows in
      let cell_height := if Z.of_nat r =? rows - 1 then u32 (height - current_y) else row_height in
      match grid_row width gpu_count cols cell_width current_y cell_height (Z.of_nat r)
              room 0 (Z.to_nat cols) 0 with
      | Ret row =>
          match grid_rows width height gpu_count rows cols cell_width (room - length row) (S r) n'
                  (u32 (current_y + row_height)) with
          | Ret rest => Ret (row ++ rest)
          | Fault e => Fault e
          | NoFuel => NoFuel
          end
      | Fault e => Fault e
      | NoFuel => NoFuel
      end
  end.

(** The tiles of one row of the checkerboard and the GPU that comes next;
    every pass adds a region, so [room] bounds the loop. *)
Fixpoint checker_row (width height gpu_count region_width region_height y : Z)
  (room : nat) (x gpu : Z) : list sfr_region_t * Z :=
  match room with
  | O => ([], gpu)
  | S room' =>
      if width <=? x then ([], gpu) else
      let w := if width <? u32 (x + region_width) then width - x else region_width in
      let h := if height <? u32 (y + region_height) then height - y else region_height in
      let '(rest, g) := checker_row width height gpu_count region_width region_height y room'
                          (u32 (x + region_width)) (u32 (gpu + 1) mod gpu_count) in
      (mk_region x y w h gpu :: rest, g)
  end.

Fixpoint checker_rows (fuel : nat) (width height gpu_count region_width region_height : Z)
  (room : nat) (y gpu : Z) : outcome (list sfr_region_t) :=
  if (height <=? y) || (room =? 0)%nat then Ret [] else
  match fuel with
  | O => NoFuel
  | S fuel' =>
      let '(row, g) := checker_row width height gpu_count region_width region_height y room 0 gpu in
      match checker_rows fuel' width height gpu_count region_width region_height
              (room - length row) (u32 (y + region_height)) (u32 (g + 1) mod gpu_count) with
      | Ret rest => Ret (row ++ rest)
      | Fault e => Fault e
      | NoFuel => NoFuel
      end
  end.

(** The regions written; [fuel] bounds the rows of the checkerboard. *)
Definition sfr_split_frame (fuel : nat) (width height gpu_count : Z) (weights : option (list f32))
  (mode : sfr_mode_t) (max_regions : nat) : outcome (list sfr_region_t) :=
  if (gpu_count =? 0) || (max_regions =? 0)%nat then Ret [] else
  let total := total_weight gpu_count weights in
  let weight := share gpu_count weights total in
  match mode with
  | SFR_MODE_HORIZONTAL =>
      split_bands height gpu_count weight (fun y h i => mk_region 0 y width h i)
        max_regions 0 (Z.to_nat gpu_count) 0
  | SFR_MODE_VERTICAL =>
      split_bands width gpu_count weight (fun x w i => mk_region x 0 w height i)
        max_regions 0 (Z.to_nat gpu_count) 0
  | SFR_MODE_GRID =>
      let rows := ceil_sqrt gpu_count in
      let cols := u32 (gpu_count + rows - 1) / rows in
      let cell_width i := scaled width (fmul (weight i) (f32_of_Z rows)) in
      grid_rows width height gpu_count rows cols cell_width max_regions 0 (Z.to_nat rows) 0
  | SFR_MODE_CHECKERBOARD =>
      checker_rows fuel width height gpu_count (width / 2) (height / 2) max_regions 0 0
  end.

(** Region [i] goes to assigned GPU [i mod assigned_gpu_count]. *)
Definition assign_regions (w : mvgal_workload) (regions : list sfr_region_t) : list sfr_region_t :=
  imap (fun i r =>
    r <| r_gpu_index := w_assigned_gpus w !!! Z.to_nat (Z.of_nat i mod w_assigned_gpu_count w) |>)
    regions.

Section Sfr.
Context `{SchedEnv}.

(** [if (workload->strategy_data != NULL) free(workload->strategy_data);]. *)
Definition free_strategy_data (p : addr) : SM unit :=
  w ← deref p;
  match w_strategy_data w with
  | SD_null => mret tt
  | SD_live _ => update p (fun w => w <| w_strategy_data := SD_dangling |>)
  | SD_dangling => fails UseAfterFree
  end.

(** [sfr_create_split_data] (no weights) and its weighted variant. *)
Definition sfr_create_split_data (fuel : nat) (workload : option addr) (width height : Z)
  (mode : sfr_mode_t) (weights : option (list f32)) : SM mvgal_error_t :=
  match workload with
  | None => mret MVGAL_ERROR_INVALID_ARGUMENT
  | Some p =>
      w ← deref p;
      if w_assigned_gpu_count w =? 0 then mret MVGAL_ERROR_INVALID_ARGUMENT else
      free_strategy_data p;;
      ok ← calloc;
      if negb ok then mret MVGAL_ERROR_OUT_OF_MEMORY else
      match sfr_split_frame fuel width height (w_assigned_gpu_count w) weights mode SFR_MAX_REGIONS with
      | Ret regions =>
          if (16 <? w_assigned_gpu_count w) && (16 <? length regions)%nat then fails OutOfBounds else
          update p (fun w => w <| w_strategy_data :=
                              SD_live (mk_sfr (assign_regions w regions) width height) |>);;
          mret MVGAL_SUCCESS
      | Fault e => fails e
      | NoFuel => fun _ => NoFuel
      end
  end.

(** The equal bands of the pre-assigned case. *)
Definition equal_bands (w : mvgal_workload) (width height : Z) : list sfr_region_t :=
  let n := w_assigned_gpu_count w in
  let region_height := height / n in
  (fun i => mk_region 0 (i * region_height) width
              (if i =? n - 1 then height - i * region_height else region_height)
              (w_assigned_gpus w !!! Z.to_nat i)) <$> seqZ 0 n.

(** The GPUs a frame without assignment is split over. *)
Definition sfr_gpus (s : mvgal_scheduler_state_t) : list Z :=
  filter (fun i => gpu_active s i = true) (seqZ 0 (Z.min 16 (ss_gpu_count s))).

Lemma sfr_gpus_length s : (length (sfr_gpus s) <= 16)%nat.
Proof.
  unfold sfr_gpus. etrans; [apply length_filter|]. rewrite length_seqZ. lia.
Qed.

(** The weight of a GPU for the dynamic split. *)
Definition sfr_weight (s : mvgal_scheduler_state_t) (idx : Z) : f32 :=
  let base_score := gs_graphics_score (gs_at s idx) in
  let base_score := if fle base_score f0 then f1 else base_score in
  if cfg_dynamic_load_balance (ss_config s) then
    let util := gs_utilization (gs_at s idx) in
    let util := if flt util (flit 1 100) then flit 1 100 else util in
    fmul base_score (fdiv f1 util)
  else base_score.

Definition mvgal_scheduler_distribute_sfr (workload : option addr) : SM mvgal_error_t :=
  match workload with
  | None => mret MVGAL_ERROR_INVALID_ARGUMENT
  | Some p =>
      w ← deref p;
      if 0 <? w_assigned_gpu_count w then
        free_strategy_data p;;
        ok ← calloc;
        if negb ok then mret MVGAL_ERROR_OUT_OF_MEMORY else
        if 16 <? w_assigned_gpu_count w then fails OutOfBounds else
        update p (fun w =>
          (set_assigned (first_assigned w) w)
            <| w_strategy_data := SD_live (mk_sfr (equal_bands w 1920 1080) 1920 1080) |>);;
        mret MVGAL_SUCCESS
      else
        s ← get;
        let gpus := sfr_gpus s in
        match gpus with
        | [] => mvgal_scheduler_find_best_gpu (Some p)
        | g0 :: _ =>
            update p (fun w => w <| w_assigned_gpu_count := Z.of_nat (length gpus) |>
                                 <| w_assigned_gpus ::= overwrite gpus |>);;
            sfr_create_split_data 0 (Some p) 1920 1080 SFR_MODE_HORIZONTAL
              (Some (sfr_weight s <$> gpus));;
            update p (set_assigned g0);;
            mret MVGAL_SUCCESS
        end
  end.

(** The region of a GPU, by index into the stored regions. *)
Definition sfr_get_region_for_gpu (workload : option addr) (gpu_index : Z)
  : SM (option sfr_region_t) :=
  match workload with
  | None => mret None
  | Some p =>
      w ← deref p;
      match w_strategy_data w with
      | SD_null => mret None
      | SD_dangling => fails UseAfterFree
      | SD_live d => mret (snd <$> list_find (fun r => r_gpu_index r = gpu_index) (sfr_regions d))
      end
  end.

Definition sfr_cleanup (workload : option addr) : SM unit :=
  match workload with
  | None => mret tt
  | Some p =>
      w ← deref p;
      match w_strategy_data w with
      | SD_null => mret tt
      | SD_live _ => update p (fun w => w <| w_strategy_data := SD_null |>)
      | SD_dangling => fails UseAfterFree
      end
  end.
End Sfr.

(** ** Hybrid strategy *)

Record hybrid_strategy_criteria_t : Type := mk_hybrid {
  hc_workload_type : mvgal_workload_type_t;
  hc_min_size_bytes : Z;
  hc_utilization_threshold : f32;
  hc_fallback_strategy : mvgal_distribution_strategy_t
}.

Definition hybrid_default : hybrid_strategy_criteria_t :=
  mk_hybrid MVGAL_WORKLOAD_GRAPHICS 1048576 (flit 7 10) MVGAL_STRATEGY_SINGLE_GPU.

Definition g_hybrid_criteria : list hybrid_strategy_criteria_t :=
  [ hybrid_default;
    mk_hybrid MVGAL_WORKLOAD_COMPUTE 262144 (flit 8 10) MVGAL_STRATEGY_COMPUTE_OFFLOAD;
    mk_hybrid MVGAL_WORKLOAD_VIDEO 4194304 (flit 6 10) MVGAL_STRATEGY_SINGLE_GPU;
    mk_hybrid MVGAL_WORKLOAD_AI 1048576 (flit 7 10) MVGAL_STRATEGY_COMPUTE_OFFLOAD ].

Definition active_gpus (s : mvgal_scheduler_state_t) : list Z :=
  filter (fun i => gpu_active s i = true) (gpu_indices s).

Definition average_utilization (s : mvgal_scheduler_state_t) : f32 :=
  let sum := foldl (fun acc i => fadd acc (gs_utilization (gs_at s i))) f0 (active_gpus s) in
  if (0 <? length (active_gpus s))%nat
  then fdiv sum (f32_of_Z (Z.of_nat (length (active_gpus s)))) else sum.

Definition hybrid_select_strategy (workload : option mvgal_workload) (s : mvgal_scheduler_state_t)
  : mvgal_distribution_strategy_t :=
  match workload with
  | None => MVGAL_STRATEGY_SINGLE_GPU
  | Some w =>
      let mask := d_gpu_mask (w_descriptor w) in
      let type := d_type (w_descriptor w) in
      if 1 <? w_assigned_gpu_count w then MVGAL_STRATEGY_AFR
      else if negb (mask =? ANY_GPU_MASK) && (1 <? popcount32 mask) then MVGAL_STRATEGY_SFR
      else
        let criteria := default hybrid_default
          (snd <$> list_find (fun c => hc_workload_type c = type) g_hybrid_criteria) in
        if flt (average_utilization s) (hc_utilization_threshold criteria)
           && (2 <=? length (active_gpus s))%nat
        then if bool_decide (type = MVGAL_WORKLOAD_GRAPHICS)
             then MVGAL_STRATEGY_AFR else MVGAL_STRATEGY_SFR
        else if bool_decide (type = MVGAL_WORKLOAD_COMPUTE) || bool_decide (type = MVGAL_WORKLOAD_AI)
             then MVGAL_STRATEGY_COMPUTE_OFFLOAD else MVGAL_STRATEGY_SINGLE_GPU
  end.

Definition mvgal_scheduler_distribute_hybrid `{SchedEnv} (workload : option addr)
  : SM mvgal_error_t :=
  match workload with
  | None => mret MVGAL_ERROR_INVALID_ARGUMENT
  | Some p =>
      w ← deref p;
      s ← get;
      match hybrid_select_strategy (Some w) s with
      | MVGAL_STRATEGY_AFR => mvgal_scheduler_distribute_afr (Some p)
      | MVGAL_STRATEGY_SFR => mvgal_scheduler_distribute_sfr (Some p)
      | MVGAL_STRATEGY_TASK => mvgal_scheduler_distribute_task (Some p)
      | MVGAL_STRATEGY_COMPUTE_OFFLOAD => mvgal_scheduler_distribute_compute_offload (Some p)
      | _ => mvgal_scheduler_find_best_gpu (Some p)
      end
  end.

(** Only logs; the criteria are constant. *)
Definition hybrid_update_criteria (workload_type : mvgal_workload_type_t) (min_size_bytes : Z)
  (utilization_threshold : f32) : mvgal_error_t := MVGAL_SUCCESS.

(** The recommendation without its explanatory text. *)
Definition hybrid_get_recommendation (workload : option mvgal_workload) (out : bool)
  (s : mvgal_scheduler_state_t) : mvgal_error_t * option mvgal_distribution_strategy_t :=
  match workload with
  | Some w =>
      if negb out then (MVGAL_ERROR_INVALID_ARGUMENT, None)
      else (MVGAL_SUCCESS, Some (hybrid_select_strategy (Some w) s))
  | None => (MVGAL_ERROR_INVALID_ARGUMENT, None)
  end.

(** ** Alternate frame rendering is a round robin *)

(** The rotation [l] with the next GPU at position [c]. *)
Definition afr_rotation (l : list Z) (c : nat) (a : afr_state) : Prop :=
  afr_initialized a = true /\ afr_gpu_count a = Z.of_nat (length l)
  /\ (exists rest, afr_gpu_indices a = l ++ rest)
  /\ afr_current_gpu_index a = Z.of_nat (c mod length l).

Lemma afr_configure_rotation l a :
  (1 <= length l <= 16)%nat ->
  (afr_configure l a).1 = MVGAL_SUCCESS /\ afr_rotation l 0 (afr_configure l a).2
  /\ afr_frame_counter (afr_configure l a).2 = 0.
Proof.
  intros Hl. unfold afr_configure.
  destruct (Nat.eqb_spec (length l) 0); [lia|].
  destruct (Nat.ltb_spec MVGAL_SCHEDULER_MAX_GPUS (length l)) as [Hx|Hx];
    [unfold MVGAL_SCHEDULER_MAX_GPUS in Hx; lia|].
  simpl. split_and!; [done| |done]. unfold afr_rotation, afr_init.
  rewrite Nat.Div0.mod_0_l.
  destruct (afr_initialized a) eqn:E; simpl; split_and!; try done; by eexists.
Qed.

Lemma afr_next_rotation l c a :
  (1 <= length l <= 16)%nat -> afr_rotation l c a ->
  (afr_get_next_gpu a).1 = l !!! (c mod length l)%nat
  /\ afr_rotation l (S c) (afr_get_next_gpu a).2
  /\ afr_frame_counter (afr_get_next_gpu a).2 = u32 (afr_frame_counter a + 1).
Proof.
  intros Hl (Hi & Hn & [rest Hg] & Hc). unfold afr_get_next_gpu.
  destruct (Z.eqb_spec (afr_gpu_count a) 0); [lia|]. simpl.
  assert (c mod length l < length l)%nat by (apply Nat.mod_upper_bound; lia).
  split_and!; [| |done].
  - rewrite Hc, Hg, Nat2Z.id. by apply lookup_total_app_l.
  - split_and!; simpl; [done..|by eexists|].
    rewrite Hn, Hc. unfold u32. rewrite (Z.mod_small (_ + 1)) by lia.
    replace (Z.of_nat (c mod length l) + 1) with (Z.of_nat (c mod length l + 1)) by lia.
    rewrite <-Nat2Z.inj_mod. f_equal. rewrite Nat.Div0.add_mod_idemp_l. f_equal. lia.
Qed.

(** A workload the rotation decides about: nothing pre-assigned, no mask. *)
Definition afr_free (w : mvgal_workload) : bool :=
  (w_assigned_gpu_count w =? 0) && (d_gpu_mask (w_descriptor w) =? ANY_GPU_MASK).

Lemma sched_afr_eta s : s <| ss_afr ::= fun _ => ss_afr s |> = s.
Proof. by destruct s. Qed.

Lemma distribute_afr_next p w l c s :
  (1 <= length l <= 16)%nat -> NO_GPU ∉ l ->
  afr_rotation l c (ss_afr s) -> ss_heap s !! p = Some w -> afr_free w = true ->
  mvgal_scheduler_distribute_afr (Some p) s =
    Ret (MVGAL_SUCCESS,
         s <| ss_afr := (afr_get_next_gpu (ss_afr s)).2 |>
           <| ss_heap ::= fun h => <[p := assign_one (l !!! (c mod length l)%nat) w]> h |>).
Proof.
  intros Hl Hno Hrot E [Hc Hm]%andb_true_iff.
  apply Z.eqb_eq in Hc, Hm. destruct (afr_next_rotation _ _ _ Hl Hrot) as [Hg _].
  assert (Hi : s <| ss_afr ::= afr_init |> = s).
  { rewrite <-(sched_afr_eta s) at 2. unfold afr_init. destruct Hrot as [Hi _]. cbn. by rewrite Hi. }
  unfold mvgal_scheduler_distribute_afr.
  rewrite (bind_ret (modify _) _ s tt s) by (unfold modify; by rewrite Hi).
  rewrite (bind_ret _ _ _ _ _ (deref_ok _ _ _ E)), Hc, Hm, Z.eqb_refl. cbn [Z.ltb Z.compare negb andb].
  rewrite (bind_ret (mret tt) _ s tt s eq_refl).
  assert (Hn : on_afr afr_get_next_gpu s = Ret (l !!! (c mod length l)%nat,
                 s <| ss_afr := (afr_get_next_gpu (ss_afr s)).2 |>)).
  { unfold on_afr. rewrite <-Hg. by destruct (afr_get_next_gpu (ss_afr s)). }
  rewrite (bind_ret _ _ _ _ _ Hn). set (a := (afr_get_next_gpu (ss_afr s)).2).
  assert (Hin : l !!! (c mod length l)%nat ∈ l)
    by (apply list_elem_of_lookup_total_2, Nat.mod_upper_bound; lia).
  destruct (Z.eqb_spec (l !!! (c mod length l)%nat) NO_GPU) as [Hx|_]; [by rewrite Hx in Hin|].
  assert (E' : ss_heap (s <| ss_afr := a |>) !! p = Some w) by exact E.
  by rewrite (bind_ret _ _ _ _ _ (update_ok _ _ _ _ E')).
Qed.

(** Distributing a list of frames in order. *)
Fixpoint distribute_frames (ps : list addr) : SM (list mvgal_error_t) :=
  match ps with
  | [] => mret []
  | p :: rest =>
      e ← mvgal_scheduler_distribute_afr (Some p);
      es ← distribute_frames rest;
      mret (e :: es)
  end.

Lemma distribute_frames_from l ps : forall c s,
  (1 <= length l <= 16)%nat -> NO_GPU ∉ l ->
  afr_rotation l c (ss_afr s) -> NoDup ps ->
  (forall p, p ∈ ps -> exists w, ss_heap s !! p = Some w /\ afr_free w = true) ->
  exists s', distribute_frames ps s = Ret (replicate (length ps) MVGAL_SUCCESS, s')
    /\ (forall i p, ps !! i = Some p -> exists w, ss_heap s !! p = Some w /\
          ss_heap s' !! p = Some (assign_one (l !!! ((c + i) mod length l)%nat) w))
    /\ (forall p, p ∉ ps -> ss_heap s' !! p = ss_heap s !! p)
    /\ u32 (afr_frame_counter (ss_afr s')) = u32 (afr_frame_counter (ss_afr s) + Z.of_nat (length ps)).
Proof.
  induction ps as [|p ps IH]; intros c s Hl Hno Hrot Hnd Hlive.
  { exists s. rewrite Z.add_0_r. by split_and!. }
  apply NoDup_cons in Hnd as [Hp Hnd].
  destruct (Hlive p) as (w & E & Hw); [by left|].
  destruct (afr_next_rotation _ _ _ Hl Hrot) as (_ & Hrot' & Hf).
  cbn [distribute_frames]. rewrite (bind_ret _ _ _ _ _ (distribute_afr_next p w l c s Hl Hno Hrot E Hw)).
  set (s1 := s <| ss_afr := _ |> <| ss_heap ::= _ |>).
  destruct (IH (S c) s1) as (s' & Hrun & Hasg & Hframe & Hcnt); [done..| |].
  { intros q Hq. destruct (Hlive q) as (w' & ? & ?); [by right|]. exists w'. split; [|done].
    cbn. rewrite lookup_insert_ne; [done|set_solver]. }
  exists s'. rewrite (bind_ret _ _ _ _ _ Hrun). split_and!; [done| | |].
  - intros [|i] q Hq; simpl in Hq.
    + simplify_eq. exists w. split; [done|]. rewrite Nat.add_0_r, Hframe by done.
      cbn. by rewrite lookup_insert_eq.
    + destruct (Hasg i q Hq) as (w' & E1 & E2). exists w'.
      apply list_elem_of_lookup_2 in Hq. cbn in E1. rewrite lookup_insert_ne in E1 by set_solver.
      split; [done|]. by replace (c + S i)%nat with (S c + i)%nat by lia.
  - intros q Hq. rewrite Hframe by set_solver. cbn. rewrite lookup_insert_ne; [done|set_solver].
  - rewrite Hcnt. cbn. rewrite Hf. unfold u32. rewrite Zplus_mod_idemp_l. f_equal. lia.
Qed.

(** Alternate frame rendering is a fair round robin.  Once configured
    with between 1 and 16 GPUs, distributing any number of workloads that
    have no assignment and no mask succeeds for each of them, gives the
    [i]-th one exactly the GPU at position [i] modulo the number of GPUs,
    leaves every other workload untouched, and the frame counter advances by
    the number of workloads modulo 2^32. *)
Theorem afr_round_robin l a ps s :
  (1 <= length l <= 16)%nat -> NO_GPU ∉ l ->
  ss_afr s = (afr_configure l a).2 -> NoDup ps ->
  (forall p, p ∈ ps -> exists w, ss_heap s !! p = Some w /\ afr_free w = true) ->
  exists s', distribute_frames ps s = Ret (replicate (length ps) MVGAL_SUCCESS, s')
    /\ (forall i p, ps !! i = Some p -> exists w, ss_heap s !! p = Some w /\
          ss_heap s' !! p = Some (assign_one (l !!! (i mod length l)%nat) w))
    /\ (forall p, p ∉ ps -> ss_heap s' !! p = ss_heap s !! p)
    /\ u32 (afr_frame_counter (ss_afr s')) = u32 (Z.of_nat (length ps)).
Proof.
  intros Hl Hno Ha Hnd Hlive. destruct (afr_configure_rotation l a Hl) as (_ & Hrot & Hf).
  rewrite <-Ha in Hrot, Hf.
  destruct (distribute_frames_from l ps 0 s Hl Hno Hrot Hnd Hlive) as (s' & ? & ? & ? & Hc).
  exists s'. by rewrite Hf in Hc.
Qed.

Lemma afr_round_robin_witness :
  let w := workload_zero <| w_descriptor ::= fun d => d <| d_gpu_mask := ANY_GPU_MASK |> |> in
  let s := sched_start <| ss_heap := {[1%positive := w; 2%positive := w; 3%positive := w]} |>
             <| ss_afr := (afr_configure [4; 7] afr_zero).2 |> in
  exists s', distribute_frames [1; 2; 3]%positive s = Ret (replicate 3 MVGAL_SUCCESS, s')
    /\ ss_heap s' !! 3%positive = Some (assign_one 4 w).
Proof.
  intros w s.
  destruct (afr_round_robin [4; 7] afr_zero [1; 2; 3]%positive s) as (s' & Hrun & Hasg & _).
  - simpl. lia.
  - by apply (bool_decide_eq_true_1 (NO_GPU ∉ [4; 7])).
  - reflexivity.
  - by apply (bool_decide_eq_true_1 (NoDup [1; 2; 3]%positive)).
  - intros p Hp. exists w. repeat (apply elem_of_cons in Hp as [->|Hp]; [done|]). by apply elem_of_nil in Hp.
  - exists s'. split; [done|]. destruct (Hasg 2%nat 3%positive eq_refl) as (w' & E & E').
    assert (ss_heap s !! 3%positive = Some w) as E2 by reflexivity. rewrite E2 in E.
    apply (inj Some) in E. subst w'. exact E'.
Defined.
