(* ===== verification/SfrTiling.v ===== *)
(** * Split frame rendering covers the frame

    Theorems about the region tables of strategy/sfr.c: the bands given to
    the GPUs partition the frame, and the checkerboard loop ends. *)

From S2P Require Import Prelude Float32 GpuManager SchedTypes SchedSelect Strategies.
Local Open Scope Z_scope.

Definition inside (r : sfr_region_t) (x y : Z) : Prop :=
  r_x r <= x < r_x r + r_width r /\ r_y r <= y < r_y r + r_height r.

(** Every pixel of the frame is in exactly one region, and the regions hold
    no other pixel. *)
Definition tiled (width height : Z) (rs : list sfr_region_t) : Prop :=
  (forall x y, 0 <= x < width -> 0 <= y < height ->
     exists i r, rs !! i = Some r /\ inside r x y /\
       forall j r', rs !! j = Some r' -> inside r' x y -> j = i)
  /\ (forall r x y, r ∈ rs -> inside r x y -> 0 <= x < width /\ 0 <= y < height).

(** Consecutive intervals (offset, size) from [lo] to [hi]. *)
Fixpoint bands (lo : Z) (l : list (Z * Z)) (hi : Z) : bool :=
  match l with
  | [] => lo =? hi
  | (o, n) :: rest => (o =? lo) && (0 <=? n) && bands (lo + n) rest hi
  end.

Lemma bands_bounds lo l hi o n :
  bands lo l hi = true -> (o, n) ∈ l -> lo <= o /\ 0 <= n /\ o + n <= hi.
Proof.
  revert lo. induction l as [|[o' n'] l IH]; intros lo Hb Hin; [by apply elem_of_nil in Hin|].
  simpl in Hb. rewrite !andb_true_iff, Z.eqb_eq, Z.leb_le in Hb. destruct Hb as [[-> Hn] Hb].
  assert (lo + n' <= hi) as Hhi.
  { clear -Hb. revert Hb. generalize (lo + n'). induction l as [|[o m] l IH]; intros k Hb; simpl in Hb.
    - apply Z.eqb_eq in Hb. lia.
    - rewrite !andb_true_iff, Z.eqb_eq, Z.leb_le in Hb. destruct Hb as [[-> ?] Hb].
      apply IH in Hb. lia. }
  apply elem_of_cons in Hin as [[= -> ->]|Hin]; [lia|]. specialize (IH _ Hb Hin). lia.
Qed.

Lemma bands_cover lo l hi v :
  bands lo l hi = true -> lo <= v < hi ->
  exists i o n, l !! i = Some (o, n) /\ o <= v < o + n
    /\ forall j o' n', l !! j = Some (o', n') -> o' <= v < o' + n' -> j = i.
Proof.
  revert lo. induction l as [|[o n] l IH]; intros lo Hb Hv; simpl in Hb.
  { apply Z.eqb_eq in Hb. lia. }
  rewrite !andb_true_iff, Z.eqb_eq, Z.leb_le in Hb. destruct Hb as [[-> Hn] Hb].
  destruct (decide (v < lo + n)).
  - exists 0%nat, lo, n. split_and!; [done|lia..|]. intros [|j] o' n' Hj Hin; [done|].
    apply (bands_bounds _ _ _ o' n') in Hb; [lia|by eapply list_elem_of_lookup_2].
  - destruct (IH _ Hb) as (i & o & m & Hi & Hm & Hu); [lia|].
    exists (S i), o, m. split_and!; [done|lia..|].
    intros [|j] o' n' Hj Hin; [simplify_eq/=; lia|]. f_equal. by eapply Hu.
Qed.

Lemma horizontal_tiled width height rs :
  bands 0 ((fun r => (r_y r, r_height r)) <$> rs) height = true ->
  (forall r, r ∈ rs -> r_x r = 0 /\ r_width r = width) ->
  tiled width height rs.
Proof.
  intros Hb Hr. split.
  - intros x y Hx Hy. destruct (bands_cover _ _ _ _ Hb Hy) as (i & o & n & Hi & Hin & Hu).
    rewrite list_lookup_fmap_Some in Hi. destruct Hi as (r & [= -> ->] & Hi).
    exists i, r. split_and!; [done| |].
    + split; [|done]. destruct (Hr r) as [-> ->]; [by eapply list_elem_of_lookup_2|]. lia.
    + intros j r' Hj [_ Hy']. eapply (Hu j); [|exact Hy']. by rewrite list_lookup_fmap, Hj.
  - intros r x y Hin [Hx Hy]. destruct (Hr _ Hin) as [E1 E2]. rewrite E1, E2 in Hx.
    apply (bands_bounds _ _ _ (r_y r) (r_height r)) in Hb; [lia|].
    apply list_elem_of_fmap. by exists r.
Qed.

Lemma vertical_tiled width height rs :
  bands 0 ((fun r => (r_x r, r_width r)) <$> rs) width = true ->
  (forall r, r ∈ rs -> r_y r = 0 /\ r_height r = height) ->
  tiled width height rs.
Proof.
  intros Hb Hr. split.
  - intros x y Hx Hy. destruct (bands_cover _ _ _ _ Hb Hx) as (i & o & n & Hi & Hin & Hu).
    rewrite list_lookup_fmap_Some in Hi. destruct Hi as (r & [= -> ->] & Hi).
    exists i, r. split_and!; [done| |].
    + split; [done|]. destruct (Hr r) as [-> ->]; [by eapply list_elem_of_lookup_2|]. lia.
    + intros j r' Hj [Hx' _]. eapply (Hu j); [|exact Hx']. by rewrite list_lookup_fmap, Hj.
  - intros r x y Hin [Hx Hy]. destruct (Hr _ Hin) as [E1 E2]. rewrite E1, E2 in Hy.
    apply (bands_bounds _ _ _ (r_x r) (r_width r)) in Hb; [lia|].
    apply list_elem_of_fmap. by exists r.
Qed.

(** ** Pre-assigned GPUs *)

Lemma equal_chain n h hi : 0 <= h -> n * h <= hi ->
  forall (m : nat) i, 0 <= i -> i + Z.of_nat m = n - 1 ->
  bands (i * h) ((fun i => (i * h, if i =? n - 1 then hi - i * h else h)) <$> seqZ i (Z.of_nat m + 1)) hi
  = true.
Proof.
  intros Hh Hn. induction m as [|m IH]; intros i Hi Him.
  - rewrite seqZ_cons by lia. rewrite seqZ_nil by lia. cbn [fmap list_fmap bands].
    destruct (Z.eqb_spec i (n - 1)); [|lia]. rewrite !andb_true_iff, !Z.eqb_eq, Z.leb_le. nia.
  - rewrite seqZ_cons by lia. cbn [fmap list_fmap bands].
    destruct (Z.eqb_spec i (n - 1)); [lia|]. rewrite !andb_true_iff, Z.eqb_eq, Z.leb_le.
    split_and!; [done|done|]. replace (i * h + h) with (Z.succ i * h) by lia.
    replace (Z.pred (Z.of_nat (S m) + 1)) with (Z.of_nat m + 1) by lia. apply IH; lia.
Qed.

Lemma equal_bands_tiled w width height :
  1 <= w_assigned_gpu_count w -> 0 <= height -> tiled width height (equal_bands w width height).
Proof.
  intros Hn Hh. set (n := w_assigned_gpu_count w) in *.
  assert (0 <= height / n /\ n * (height / n) <= height) as [H1 H2].
  { split; [apply Z.div_pos; lia|apply Z.mul_div_le; lia]. }
  apply horizontal_tiled.
  - unfold equal_bands. fold n. rewrite <-list_fmap_compose.
    pose proof (equal_chain n (height / n) height H1 H2 (Z.to_nat (n - 1)) 0) as Hc.
    rewrite Z2Nat.id, Z.mul_0_l in Hc by lia.
    replace (n - 1 + 1) with n in Hc by lia. apply Hc; lia.
  - intros r (i & -> & _)%list_elem_of_fmap. done.
Qed.

Lemma equal_bands_gpu w width height i :
  0 <= i < w_assigned_gpu_count w ->
  r_gpu_index <$> equal_bands w width height !! Z.to_nat i = Some (w_assigned_gpus w !!! Z.to_nat i).
Proof.
  intros Hi. unfold equal_bands. rewrite list_lookup_fmap, lookup_seqZ_lt by lia.
  simpl. by rewrite Z2Nat.id by lia.
Qed.

Section Preassigned.
Context `{SchedEnv}.

(** Freeing the strategy data leaves a dangling pointer or NULL behind. *)
Lemma free_strategy_data_ok p w s :
  ss_heap s !! p = Some w -> w_strategy_data w <> SD_dangling ->
  exists d, free_strategy_data p s
    = Ret (tt, s <| ss_heap ::= fun h => <[p := w <| w_strategy_data := d |>]> h |>).
Proof.
  intros E Hd. unfold free_strategy_data. rewrite (bind_ret _ _ _ _ _ (deref_ok _ _ _ E)).
  destruct (w_strategy_data w) eqn:Ed; [| |done].
  - exists SD_null. unfold mret, SM_ret, M_ret. do 2 f_equal.
    rewrite <-Ed. destruct s; cbn. f_equal. symmetry. apply insert_id. cbn in E. rewrite E.
    by destruct w.
  - exists SD_dangling. by rewrite (update_ok _ _ _ _ E).
Qed.

(** Split frame rendering of a workload whose 1 to 16 GPUs are already
    assigned succeeds when memory is available.  It stores one region per
    assigned GPU, region [i] for GPU [i] of the assignment; together the
    regions partition the 1920 by 1080 frame (every pixel lies in exactly one
    region, none reaches outside), and the workload's assigned GPU is the
    first of them. *)
Theorem sfr_preassigned_partition p w s :
  ss_heap s !! p = Some w -> 1 <= w_assigned_gpu_count w <= 16 ->
  w_strategy_data w <> SD_dangling -> alloc_ok (ss_allocs s) = true ->
  exists s' w' d, mvgal_scheduler_distribute_sfr (Some p) s = Ret (MVGAL_SUCCESS, s')
    /\ ss_heap s' = <[p := w']> (ss_heap s) /\ w_strategy_data w' = SD_live d
    /\ tiled 1920 1080 (sfr_regions d)
    /\ (forall i, 0 <= i < w_assigned_gpu_count w ->
          r_gpu_index <$> sfr_regions d !! Z.to_nat i = Some (w_assigned_gpus w !!! Z.to_nat i))
    /\ d_assigned_gpu (w_descriptor w') = first_assigned w.
Proof.
  intros E Hn Hd Ha. destruct (free_strategy_data_ok p w s E Hd) as [d0 Hfree].
  unfold mvgal_scheduler_distribute_sfr. rewrite (bind_ret _ _ _ _ _ (deref_ok _ _ _ E)).
  destruct (Z.ltb_spec 0 (w_assigned_gpu_count w)); [|lia].
  rewrite (bind_ret _ _ _ _ _ Hfree). set (s1 := s <| ss_heap ::= _ |>).
  rewrite (bind_ret calloc _ s1 true (s1 <| ss_allocs ::= S |>))
    by (unfold calloc; cbn; by rewrite Ha).
  cbn [negb]. destruct (Z.ltb_spec 16 (w_assigned_gpu_count w)); [lia|].
  assert (E2 : ss_heap (s1 <| ss_allocs ::= S |>) !! p = Some (w <| w_strategy_data := d0 |>))
    by (cbn; by rewrite lookup_insert_eq).
  rewrite (bind_ret _ _ _ _ _ (update_ok _ _ _ _ E2)). do 3 eexists. split; [reflexivity|].
  cbn [ss_heap s1 upd]. split; [apply insert_insert_eq|]. split; [reflexivity|].
  split; [by apply equal_bands_tiled; simpl; lia|]. split; [|done].
  pose (w1 := w <| w_strategy_data := d0 |>). intros i Hi. exact (equal_bands_gpu w1 1920 1080 i Hi).
Qed.
End Preassigned.

(** Three GPUs: bands of 360 rows. *)
Definition plenty : SchedEnv := {| clock_ns := Z.of_nat; alloc_ok := fun _ => true |}.

Definition three_gpus : mvgal_workload :=
  workload_zero <| w_assigned_gpu_count := 3 |> <| w_assigned_gpus ::= overwrite [2; 0; 1] |>.

Lemma sfr_preassigned_partition_witness :
  let s := sched_start <| ss_heap := {[1%positive := three_gpus]} |> in
  exists s' w' d, @mvgal_scheduler_distribute_sfr plenty (Some 1%positive) s = Ret (MVGAL_SUCCESS, s')
    /\ ss_heap s' = <[1%positive := w']> (ss_heap s) /\ w_strategy_data w' = SD_live d
    /\ tiled 1920 1080 (sfr_regions d)
    /\ r_gpu_index <$> sfr_regions d !! 1%nat = Some 0.
Proof.
  intros s.
  destruct (@sfr_preassigned_partition plenty 1%positive three_gpus s)
    as (s' & w' & d & H1 & H2 & H3 & H4 & H5 & _); [reflexivity|simpl; lia|done|reflexivity|].
  exists s', w', d. split_and!; [exact H1|exact H2|exact H3|exact H4|].
  apply (H5 1). simpl. lia.
Defined.

(** ** Even splits *)

Definition horizontal_ok (n : Z) (o : outcome (list sfr_region_t)) : bool :=
  match o with
  | Ret rs => bands 0 ((fun r => (r_y r, r_height r)) <$> rs) 1080
              && forallb (fun r => (r_x r =? 0) && (r_width r =? 1920)) rs
              && bool_decide (r_gpu_index <$> rs = seqZ 0 n)
  | _ => false
  end.

Definition vertical_ok (n : Z) (o : outcome (list sfr_region_t)) : bool :=
  match o with
  | Ret rs => bands 0 ((fun r => (r_x r, r_width r)) <$> rs) 1920
              && forallb (fun r => (r_y r =? 0) && (r_height r =? 1080)) rs
              && bool_decide (r_gpu_index <$> rs = seqZ 0 n)
  | _ => false
  end.

Lemma forallb_eq2 (f g : sfr_region_t -> Z) a b rs :
  forallb (fun r => (f r =? a) && (g r =? b)) rs = true -> forall r, r ∈ rs -> f r = a /\ g r = b.
Proof.
  rewrite List.forallb_forall. intros Hall r Hr%list_elem_of_In.
  specialize (Hall r Hr). apply andb_true_iff in Hall. lia.
Qed.

Lemma horizontal_ok_spec n o :
  horizontal_ok n o = true ->
  exists rs, o = Ret rs /\ r_gpu_index <$> rs = seqZ 0 n /\ tiled 1920 1080 rs.
Proof.
  destruct o as [rs| |]; [|done..]. simpl. rewrite !andb_true_iff. intros [[Hb Hf] Hg].
  exists rs. split_and!; [done|by apply bool_decide_eq_true_1 in Hg|].
  apply horizontal_tiled; [done|]. by apply forallb_eq2.
Qed.

Lemma vertical_ok_spec n o :
  vertical_ok n o = true ->
  exists rs, o = Ret rs /\ r_gpu_index <$> rs = seqZ 0 n /\ tiled 1920 1080 rs.
Proof.
  destruct o as [rs| |]; [|done..]. simpl. rewrite !andb_true_iff. intros [[Hb Hf] Hg].
  exists rs. split_and!; [done|by apply bool_decide_eq_true_1 in Hg|].
  apply vertical_tiled; [done|]. by apply forallb_eq2.
Qed.

Lemma even_splits_ok :
  forallb (fun n =>
    horizontal_ok n (sfr_split_frame 0 1920 1080 n None SFR_MODE_HORIZONTAL SFR_MAX_REGIONS)
    && vertical_ok n (sfr_split_frame 0 1920 1080 n None SFR_MODE_VERTICAL SFR_MAX_REGIONS))
    (seqZ 1 16) = true.
Proof. vm_compute. reflexivity. Qed.

(** For every number of GPUs from 1 to 16 the unweighted horizontal and
    vertical splits of a 1920 by 1080 frame return, give exactly one region
    to each GPU in order, and the regions partition the frame: the rounding
    of the binary32 shares never opens a gap, overlaps or overruns. *)
Theorem sfr_even_split_partition n mode :
  1 <= n <= 16 -> mode = SFR_MODE_HORIZONTAL \/ mode = SFR_MODE_VERTICAL ->
  exists rs, sfr_split_frame 0 1920 1080 n None mode SFR_MAX_REGIONS = Ret rs
    /\ r_gpu_index <$> rs = seqZ 0 n /\ tiled 1920 1080 rs.
Proof.
  intros Hn Hm. pose proof even_splits_ok as Hall. rewrite List.forallb_forall in Hall.
  assert (Hin : In n (seqZ 1 16)) by (apply list_elem_of_In, elem_of_seqZ; lia).
  specialize (Hall n Hin). apply andb_true_iff in Hall as [H1 H2].
  destruct Hm as [-> | ->]; [by apply horizontal_ok_spec|by apply vertical_ok_spec].
Qed.

Lemma sfr_even_split_partition_witness :
  exists rs, sfr_split_frame 0 1920 1080 7 None SFR_MODE_HORIZONTAL SFR_MAX_REGIONS = Ret rs
    /\ r_gpu_index <$> rs = seqZ 0 7 /\ tiled 1920 1080 rs.
Proof. apply (sfr_even_split_partition 7 SFR_MODE_HORIZONTAL); [lia|by left]. Defined.

(** ** The checkerboard loop *)

Lemma checker_row_length width height n rw rh y room x g :
  (length (checker_row width height n rw rh y room x g).1 <= room)%nat.
Proof.
  revert x g. induction room as [|room IH]; intros x g; [simpl; lia|]. simpl.
  destruct (width <=? x); [simpl; lia|].
  specialize (IH (u32 (x + rw)) (u32 (g + 1) mod n)).
  destruct (checker_row _ _ _ _ _ _ _ _ _). simpl in *. lia.
Qed.

Lemma checker_row_pos width height n rw rh y room g :
  0 < width -> (0 < room)%nat -> (0 < length (checker_row width height n rw rh y room 0 g).1)%nat.
Proof.
  intros Hw Hr. destruct room; [lia|]. simpl. destruct (Z.leb_spec width 0); [lia|].
  destruct (checker_row _ _ _ _ _ _ _ _ _). simpl. lia.
Qed.

Lemma checker_rows_total width height n rw rh : 0 < width ->
  forall fuel room y g, (room <= fuel)%nat ->
  exists rs, checker_rows fuel width height n rw rh room y g = Ret rs /\ (length rs <= room)%nat.
Proof.
  intros Hw. induction fuel as [|fuel IH]; intros room y g Hf; simpl.
  - destruct room; [|lia]. rewrite orb_true_r. exists []. split; [done|simpl; lia].
  - destruct (_ || _) eqn:E; [exists []; split; [done|simpl; lia]|].
    apply orb_false_iff in E as [_ Hr%Nat.eqb_neq].
    pose proof (checker_row_pos width height n rw rh y room g Hw) as Hpos.
    pose proof (checker_row_length width height n rw rh y room 0 g) as Hlen.
    destruct (checker_row width height n rw rh y room 0 g) as [row g']. simpl in Hpos, Hlen.
    destruct (IH (room - length row)%nat (u32 (y + rh)) (u32 (g' + 1) mod n)) as (rest & -> & Hl);
      [lia|].
    exists (row ++ rest). split; [done|]. rewrite length_app. lia.
Qed.

(** The checkerboard split of a frame at least one pixel wide always
    ends, whatever the height, the number of GPUs and the weights: each pass
    of the outer loop adds a region, so as many passes as the table has room
    are enough, and the table is never overrun. *)
Theorem checkerboard_terminates fuel width height n weights room :
  0 < width -> (room <= fuel)%nat ->
  exists rs, sfr_split_frame fuel width height n weights SFR_MODE_CHECKERBOARD room = Ret rs
    /\ (length rs <= room)%nat.
Proof.
  intros Hw Hf. unfold sfr_split_frame.
  destruct (_ || _); [exists []; split; [done|simpl; lia]|]. by apply checker_rows_total.
Qed.

Lemma checkerboard_terminates_witness :
  exists rs, sfr_split_frame 64 1 4294967295 3 None SFR_MODE_CHECKERBOARD 64 = Ret rs
    /\ (length rs <= 64)%nat.
Proof. apply checkerboard_terminates; lia. Defined.

Lemma checker_rows_stuck fuel n room g :
  (0 < room)%nat -> checker_rows fuel 0 1 n 0 0 room 0 g = NoFuel.
Proof.
  intros Hr. revert g. induction fuel as [|fuel IH]; intros g; simpl;
    destruct (Nat.eqb_spec room 0); try lia; [done|].
  destruct room as [|room]; [lia|]. simpl. change (u32 (0 + 0)) with 0. by rewrite IH.
Qed.

(** A frame of height 1 and width 0 sends the checkerboard loop round for
    ever: its row step is 0 and no region is added, so no number of passes is
    enough. *)
Theorem checkerboard_diverges fuel :
  sfr_split_frame fuel 0 1 2 None SFR_MODE_CHECKERBOARD SFR_MAX_REGIONS = NoFuel.
Proof. apply (checker_rows_stuck fuel 2 SFR_MAX_REGIONS 0). unfold SFR_MAX_REGIONS. lia. Qed.
