(* ===== verification/Scheduler.v ===== *)
(** * The scheduler

    Module lifetime, workload lifetime, dispatch and the public API of
    src/userspace/scheduler/scheduler.c.  An API call is one transition of
    the scheduler state; the scheduler lock and the workload mutexes are held
    or released inside it exactly as in a single-threaded run, which is the
    mode the module runs in (nothing sets [thread_running]). *)

From S2P Require Import Prelude Float32 GpuTypes GpuManager SchedTypes WorkQueue SchedSelect.
From S2P Require Import Strategies.
Local Open Scope Z_scope.

(** A queue operation on the ready queue. *)
Definition on_ready {A} (m : QM A) : SM A := fun s =>
  match m (ss_heap s, ss_ready_queue s) with
  | Ret (a, (h, q)) => Ret (a, s <| ss_heap := h |> <| ss_ready_queue := q |>)
  | Fault e => Fault e
  | NoFuel => NoFuel
  end.

Section Scheduler.
Context `{GpuOS, SchedEnv}.

(** ** Module lifetime *)

Definition gpu_state_init (g : mvgal_gpu_state_t) : mvgal_gpu_state_t :=
  g <| gs_available := false |> <| gs_enabled := true |> <| gs_utilization := f0 |>
    <| gs_temperature := f0 |> <| gs_power_usage_w := f0 |> <| gs_estimated_free_time_ns := 0 |>
    <| gs_features := 0 |> <| gs_compute_score := f0 |> <| gs_graphics_score := f0 |>
    <| gs_priority := 50 |> <| gs_queue := queue_empty |>
    <| gs_workloads_completed := 0 |> <| gs_total_execution_time_ns := 0 |>.

(** What the scan stores for an enumerated GPU. *)
Definition gpu_state_load (d : mvgal_gpu_descriptor_t) (g : mvgal_gpu_state_t)
  : mvgal_gpu_state_t :=
  g <| gs_available := g_enabled d && g_available d |> <| gs_gpu_info := d |>
    <| gs_features := g_features d |> <| gs_compute_score := g_compute_score d |>
    <| gs_graphics_score := g_graphics_score d |> <| gs_priority := 50 |>.

Definition default_config : mvgal_scheduler_config_internal_t :=
  mk_cfg MVGAL_STRATEGY_AUTO true true true (flit 8 10) MVGAL_SCHEDULER_MAX_QUEUED 16000000
         (replicate MVGAL_SCHEDULER_MAX_GPUS 50).

(** The fields initialization resets before it looks for GPUs. *)
Definition module_reset (s : mvgal_scheduler_state_t) : mvgal_scheduler_state_t :=
  s <| ss_paused := false |> <| ss_running := false |> <| ss_thread_running := false |>
    <| ss_config := default_config |>
    <| ss_global_queue := queue_empty |> <| ss_ready_queue := queue_empty |>
    <| ss_running_queue := queue_empty |> <| ss_completed_queue := queue_empty |>
    <| ss_gpu_count := 0 |> <| ss_gpus ::= fmap gpu_state_init |>
    <| ss_stats := stats_zero |> <| ss_splitters := [] |> <| ss_next_workload_id := 1 |>.

(** Fills in the GPUs the manager enumerates. *)
Definition module_load_gpus (s : mvgal_scheduler_state_t) : mvgal_scheduler_state_t :=
  let '((gpus, count), gm) := mvgal_gpu_enumerate true 16 (ss_gm s) in
  s <| ss_gm := gm |> <| ss_gpu_count := u32 count |>
    <| ss_gpus ::= fun l => overwrite (zip_with gpu_state_load gpus l) l |>.

Definition mvgal_scheduler_module_init : SM mvgal_error_t := fun s =>
  if ss_initialized s then Ret (MVGAL_ERROR_ALREADY_INITIALIZED, s) else
  let s := module_reset s in
  let '(gpu_count, gm) := mvgal_gpu_get_count (ss_gm s) in
  let s := s <| ss_gm := gm |> in
  let s := if 0 <? gpu_count then module_load_gpus s else s in
  Ret (MVGAL_SUCCESS, s <| ss_initialized := true |>).

Definition mvgal_scheduler_module_shutdown : SM unit := fun s =>
  if negb (ss_initialized s) then Ret (tt, s) else
  let s := if ss_thread_running s
           then s <| ss_running := false |> <| ss_thread_running := false |> else s in
  Ret (tt, s <| ss_splitters := [] |> <| ss_initialized := false |>).

(** ** Workload lifetime *)

Definition new_workload (info : mvgal_workload_submit_info_t) (id now : Z) : mvgal_workload :=
  workload_zero
    <| w_refcount := 1 |>
    <| w_descriptor := mk_desc (u32 id) (si_type info) (si_priority info) now (si_deadline info)
         MVGAL_API_NONE 0 0 NO_GPU (si_gpu_mask info) (si_dependency_count info)
         (si_dependencies info) false MVGAL_SUCCESS 0 0 NO_GPU |>
    <| w_user_data := si_user_data info |>.

Definition mvgal_workload_create_internal (info : mvgal_workload_submit_info_t)
  : SM (option addr) :=
  ok ← calloc;
  if negb ok then mret None else
  s ← get;
  modify (fun t => t <| ss_next_workload_id ::= fun n => u64 (n + 1) |>);;
  now ← get_time_ns;
  let p := fresh (dom (ss_heap s)) in
  modify (fun t => t <| ss_heap ::= <[p := new_workload info (ss_next_workload_id s) now]> |>);;
  mret (Some p).

Definition mvgal_workload_destroy_internal (workload : option addr) : SM unit :=
  match workload with
  | None => mret tt
  | Some p =>
      w ← deref p;
      match w_strategy_data w with
      | SD_dangling => fails UseAfterFree
      | _ => modify (fun s => s <| ss_heap ::= delete p |>)
      end
  end.

Definition mvgal_workload_release (workload : option addr) : SM unit :=
  match workload with
  | None => mret tt
  | Some p =>
      w ← deref p;
      update p (fun w => w <| w_refcount ::= fun n => u32 (n - 1) |>);;
      if w_refcount w =? 1 then mvgal_workload_destroy_internal (Some p) else mret tt
  end.

(** The fields completion writes. *)
Definition completed_at (now : Z) (result : mvgal_error_t) (w : mvgal_workload) : mvgal_workload :=
  w <| w_end_time := now |>
    <| w_state := if bool_decide (result = MVGAL_SUCCESS)
                  then MVGAL_WORKLOAD_STATE_COMPLETED else MVGAL_WORKLOAD_STATE_FAILED |>
    <| w_descriptor ::= fun d => d <| d_completed := true |> <| d_result := result |>
                                   <| d_end_time := now |> |>
    <| w_completion_signaled := true |> <| w_completion_status := result |>.

(** The completion of a workload, callback included. *)
Definition mvgal_workload_complete (workload : option addr) (result : mvgal_error_t) : SM unit :=
  match workload with
  | None => mret tt
  | Some p =>
      now ← get_time_ns;
      update p (completed_at now result);;
      modify (fun s => s <| ss_stats ::= fun st =>
        st <| st_workloads_completed ::= fun n => u64 (n + 1) |>
           <| st_workloads_failed ::= fun n =>
                if bool_decide (result = MVGAL_SUCCESS) then n else u64 (n + 1) |> |>);;
      w ← deref p;
      match w_callback w with
      | Some f => modify (fun s => s <| ss_called ::= fun l => l ++ [(f, result, w_user_data w)] |>)
      | None => mret tt
      end
  end.

(** ** Dispatch *)

Definition auto_strategy (type : mvgal_workload_type_t) : mvgal_distribution_strategy_t :=
  match type with
  | MVGAL_WORKLOAD_GRAPHICS => MVGAL_STRATEGY_AFR
  | MVGAL_WORKLOAD_COMPUTE => MVGAL_STRATEGY_COMPUTE_OFFLOAD
  | MVGAL_WORKLOAD_VIDEO => MVGAL_STRATEGY_SFR
  | _ => MVGAL_STRATEGY_SINGLE_GPU
  end.

Definition mvgal_scheduler_apply_strategy (workload : option addr) : SM mvgal_error_t :=
  match workload with
  | None => mret MVGAL_ERROR_INVALID_ARGUMENT
  | Some p =>
      s ← get;
      w ← deref p;
      let strategy := cfg_strategy (ss_config s) in
      let strategy := if bool_decide (strategy = MVGAL_STRATEGY_AUTO)
                      then auto_strategy (d_type (w_descriptor w)) else strategy in
      match strategy with
      | MVGAL_STRATEGY_AFR => mvgal_scheduler_distribute_afr (Some p)
      | MVGAL_STRATEGY_SFR => mvgal_scheduler_distribute_sfr (Some p)
      | MVGAL_STRATEGY_TASK => mvgal_scheduler_distribute_task (Some p)
      | MVGAL_STRATEGY_COMPUTE_OFFLOAD | MVGAL_STRATEGY_HYBRID | MVGAL_STRATEGY_SINGLE_GPU =>
          mvgal_scheduler_find_best_gpu (Some p)
      | _ => mret MVGAL_ERROR_NOT_SUPPORTED
      end
  end.

(** The body both dispatch loops share for a workload they took. *)
Definition dispatch (p : addr) : SM unit :=
  mvgal_scheduler_apply_strategy (Some p);;
  mvgal_workload_complete (Some p) MVGAL_SUCCESS;;
  mvgal_workload_release (Some p).

(** [while (ready_queue.count > 0)]; [fuel] bounds the passes. *)
Fixpoint process_loop (fuel : nat) : SM unit := fun s =>
  if q_count (ss_ready_queue s) <=? 0 then Ret (tt, s) else
  match fuel with
  | O => NoFuel
  | S fuel' =>
      (workload ← on_ready mvgal_workload_dequeue_priority;
       match workload with
       | Some p => dispatch p
       | None => mret tt
       end;;
       process_loop fuel') s
  end.

Definition mvgal_scheduler_process_internal (fuel : nat) : SM mvgal_error_t :=
  s ← get;
  if negb (ss_initialized s) then mret MVGAL_ERROR_NOT_INITIALIZED else
  process_loop fuel;;
  mret MVGAL_SUCCESS.

(** One pass of [mvgal_scheduler_thread]: [false] when it blocks on the
    condition variable instead of working. *)
Definition scheduler_thread_pass : SM bool :=
  s ← get;
  if ss_paused s || (q_count (ss_ready_queue s) =? 0) then mret false else
  workload ← on_ready mvgal_workload_dequeue_priority;
  match workload with
  | Some p => dispatch p
  | None => mret tt
  end;;
  mret true.

(** ** Submission *)

(** Both submit functions after the argument checks.  The plain one clears
    [descriptor.api] again, which creation left at [MVGAL_API_UNKNOWN]. *)
Definition submit_common (fuel : nat) (context callback : option addr)
  (info : mvgal_workload_submit_info_t) : SM (mvgal_error_t * option addr) :=
  s ← get;
  err ← (if ss_initialized s then mret MVGAL_SUCCESS else mvgal_scheduler_module_init);
  if negb (is_success err) then mret (err, None) else
  created ← mvgal_workload_create_internal info;
  match created with
  | None => mret (MVGAL_ERROR_OUT_OF_MEMORY, None)
  | Some p =>
      now ← get_time_ns;
      update p (fun w => w <| w_context := context |> <| w_callback := callback |>
                           <| w_state := MVGAL_WORKLOAD_STATE_QUEUED |> <| w_queue_time := now |>
                           <| w_descriptor ::= fun d => d <| d_submission_time := now |> |>);;
      err ← on_ready (mvgal_workload_queue (Some p));
      if negb (is_success err) then
        mvgal_workload_destroy_internal (Some p);; mret (err, None)
      else
        modify (fun s => s <| ss_stats ::= fun st =>
                  st <| st_workloads_submitted ::= fun n => u64 (n + 1) |> |>);;
        s ← get;
        err ← (if ss_thread_running s then mret MVGAL_SUCCESS
               else mvgal_scheduler_process_internal fuel);
        if negb (is_success err) then mret (err, None) else
        mret (MVGAL_SUCCESS, Some p)
  end.

Definition mvgal_workload_submit (fuel : nat) (context : option addr)
  (info : option mvgal_workload_submit_info_t) (workload : bool)
  : SM (mvgal_error_t * option addr) :=
  match info with
  | Some i => if negb workload then mret (MVGAL_ERROR_INVALID_ARGUMENT, None)
              else submit_common fuel context None i
  | None => mret (MVGAL_ERROR_INVALID_ARGUMENT, None)
  end.

(** With a callback the function does not check its other arguments. *)
Definition mvgal_workload_submit_with_callback (fuel : nat) (context : option addr)
  (info : option mvgal_workload_submit_info_t) (callback : option addr) (workload : bool)
  : SM (mvgal_error_t * option addr) :=
  match callback with
  | None => mvgal_workload_submit fuel context info workload
  | Some f =>
      match info with
      | None =>
          s ← get;
          err ← (if ss_initialized s then mret MVGAL_SUCCESS
                 else mvgal_scheduler_module_init);
          if negb (is_success err) then mret (err, None) else
          ok ← calloc;
          (if ok : bool then fails NullDeref else mret (MVGAL_ERROR_OUT_OF_MEMORY, None))
      | Some i =>
          r ← submit_common fuel context (Some f) i;
          if is_success r.1 && negb workload then fails NullDeref else mret r
      end
  end.

(** ** Handles *)

(** [signalled] is the status another thread completes the workload with
    while this one waits, [None] when nobody does before the deadline.
    Without a deadline the call then never returns. *)
Definition mvgal_workload_wait (workload : option addr) (timeout_ms : Z)
  (signalled : option mvgal_error_t) : SM mvgal_error_t :=
  match workload with
  | None => mret MVGAL_ERROR_INVALID_ARGUMENT
  | Some p =>
      w ← deref p;
      if w_completion_signaled w then mret (w_completion_status w) else
      match signalled with
      | Some status => mret status
      | None => if timeout_ms =? 0 then (fun _ => NoFuel) else mret MVGAL_ERROR_TIMEOUT
      end
  end.

Definition mvgal_workload_is_completed (workload : option addr) : SM bool :=
  match workload with
  | None => mret true
  | Some p => w ← deref p; mret (w_completion_signaled w)
  end.

Definition mvgal_workload_get_result (workload : option addr) : SM mvgal_error_t :=
  match workload with
  | None => mret MVGAL_ERROR_INVALID_ARGUMENT
  | Some p => w ← deref p; mret (w_completion_status w)
  end.

Definition mvgal_workload_get_descriptor (workload : option addr) (desc : bool)
  : SM (mvgal_error_t * option mvgal_workload_descriptor_t) :=
  match workload, desc with
  | Some p, true => w ← deref p; mret (MVGAL_SUCCESS, Some (w_descriptor w))
  | _, _ => mret (MVGAL_ERROR_INVALID_ARGUMENT, None)
  end.

Definition mvgal_workload_cancel (workload : option addr) : SM mvgal_error_t :=
  match workload with
  | None => mret MVGAL_ERROR_INVALID_ARGUMENT
  | Some p =>
      w ← deref p;
      if bool_decide (w_state w = MVGAL_WORKLOAD_STATE_PENDING)
         || bool_decide (w_state w = MVGAL_WORKLOAD_STATE_QUEUED)
      then
        update p (fun w => w <| w_state := MVGAL_WORKLOAD_STATE_CANCELLED |>
                             <| w_completion_signaled := true |>
                             <| w_completion_status := MVGAL_ERROR_INTERRUPTED |>);;
        modify (fun s => s <| ss_stats ::= fun st =>
                  st <| st_workloads_failed ::= fun n => u64 (n + 1) |> |>);;
        mret MVGAL_SUCCESS
      else mret MVGAL_ERROR_NOT_SUPPORTED
  end.

Definition mvgal_workload_destroy (workload : option addr) : SM unit :=
  mvgal_workload_release workload.

Definition mvgal_workload_set_priority (workload : option addr) (priority : Z) : SM mvgal_error_t :=
  match workload with
  | None => mret MVGAL_ERROR_INVALID_ARGUMENT
  | Some p =>
      if 100 <? priority then mret MVGAL_ERROR_INVALID_ARGUMENT else
      w ← deref p;
      (if bool_decide (w_state w = MVGAL_WORKLOAD_STATE_QUEUED)
       then modify (fun s => s <| ss_ready_queue ::= fun q =>
              q <| q_total_priority ::= fun t => u64 (u64 (t - w_priority w) + priority) |> |>)
       else mret tt);;
      update p (fun w => w <| w_descriptor ::= fun d => d <| d_priority := priority |> |>);;
      mret MVGAL_SUCCESS
  end.

(** The loop of [mvgal_workload_assign_gpus]. *)
Fixpoint assign_loop (i : nat) (indices : list Z) (w : mvgal_workload) : mvgal_workload :=
  match indices with
  | [] => w
  | idx :: rest =>
      assign_loop (S i) rest
        (if idx <? 16
         then w <| w_assigned_gpus ::= fun l => <[i := idx]> l |>
                <| w_descriptor ::= fun d => d <| d_gpu_mask ::= fun m => Z.lor m (bit idx) |> |>
         else w)
  end.

(** [indices] are the first [gpu_count] entries of the caller's array. *)
Definition mvgal_workload_assign_gpus (workload : option addr) (indices : option (list Z))
  : SM mvgal_error_t :=
  match workload, indices with
  | Some p, Some l =>
      if (length l =? 0)%nat || (16 <? length l)%nat then mret MVGAL_ERROR_INVALID_ARGUMENT else
      update p (fun w =>
        let w := assign_loop 0 l (w <| w_assigned_gpu_count := Z.of_nat (length l) |>) in
        if (length l =? 1)%nat then set_assigned (l !!! 0%nat) w else w);;
      mret MVGAL_SUCCESS
  | _, _ => mret MVGAL_ERROR_INVALID_ARGUMENT
  end.

(** ** Configuration *)

Definition mvgal_scheduler_configure (config : option mvgal_scheduler_config_t)
  (s : mvgal_scheduler_state_t) : mvgal_error_t * mvgal_scheduler_state_t :=
  match config with
  | None => (MVGAL_ERROR_INVALID_ARGUMENT, s)
  | Some c =>
      (MVGAL_SUCCESS,
       s <| ss_config ::= fun g =>
         g <| cfg_strategy := pc_strategy c |>
           <| cfg_dynamic_load_balance := pc_dynamic_load_balance c |>
           <| cfg_thermal_aware := pc_thermal_aware c |>
           <| cfg_power_aware := pc_power_aware c |>
           <| cfg_load_balance_threshold := pc_load_balance_threshold c |>
           <| cfg_max_queued_workloads := pc_max_queued_workloads c |>
           <| cfg_quantum_ns := pc_quantum_ns c |> |>)
  end.

Definition mvgal_scheduler_get_config (config : bool) (s : mvgal_scheduler_state_t)
  : mvgal_error_t * option mvgal_scheduler_config_t :=
  if negb config then (MVGAL_ERROR_INVALID_ARGUMENT, None) else
  let g := ss_config s in
  (MVGAL_SUCCESS,
   Some (mk_pc (cfg_strategy g) (cfg_dynamic_load_balance g) (cfg_thermal_aware g)
           (cfg_power_aware g) (cfg_load_balance_threshold g) (cfg_max_queued_workloads g)
           (u32 (cfg_quantum_ns g)))).

Definition mvgal_scheduler_get_stats (stats : bool) (s : mvgal_scheduler_state_t)
  : mvgal_error_t * option mvgal_scheduler_stats_t :=
  if negb stats then (MVGAL_ERROR_INVALID_ARGUMENT, None) else (MVGAL_SUCCESS, Some (ss_stats s)).

Definition mvgal_scheduler_reset_stats (s : mvgal_scheduler_state_t)
  : mvgal_error_t * mvgal_scheduler_state_t :=
  (MVGAL_SUCCESS, s <| ss_stats := stats_zero |>).

Definition mvgal_scheduler_set_strategy (strategy : mvgal_distribution_strategy_t)
  (s : mvgal_scheduler_state_t) : mvgal_error_t * mvgal_scheduler_state_t :=
  (MVGAL_SUCCESS, s <| ss_config ::= fun g => g <| cfg_strategy := strategy |> |>).

Definition mvgal_scheduler_get_strategy (s : mvgal_scheduler_state_t)
  : mvgal_distribution_strategy_t := cfg_strategy (ss_config s).

(** Both copies of a GPU's priority. *)
Definition store_priority (i p : Z) (s : mvgal_scheduler_state_t) : mvgal_scheduler_state_t :=
  s <| ss_config ::= fun g =>
         g <| cfg_gpu_priorities ::= fun l => <[Z.to_nat i := p]> l |> |>
    <| ss_gpus ::= fun l => <[Z.to_nat i := (gs_at s i) <| gs_priority := p |>]> l |>.

Definition mvgal_scheduler_set_gpu_priority (gpu_index priority : Z) (s : mvgal_scheduler_state_t)
  : mvgal_error_t * mvgal_scheduler_state_t :=
  if (16 <=? gpu_index) || (100 <? priority) then (MVGAL_ERROR_INVALID_ARGUMENT, s) else
  (MVGAL_SUCCESS, store_priority gpu_index priority s).

Definition mvgal_scheduler_get_gpu_priority (gpu_index : Z) (priority : bool)
  (s : mvgal_scheduler_state_t) : mvgal_error_t * option Z :=
  if negb priority || (16 <=? gpu_index) then (MVGAL_ERROR_INVALID_ARGUMENT, None)
  else (MVGAL_SUCCESS, Some (cfg_gpu_priorities (ss_config s) !!! Z.to_nat gpu_index)).

Definition mvgal_scheduler_pause (s : mvgal_scheduler_state_t)
  : mvgal_error_t * mvgal_scheduler_state_t := (MVGAL_SUCCESS, s <| ss_paused := true |>).

Definition mvgal_scheduler_resume (s : mvgal_scheduler_state_t)
  : mvgal_error_t * mvgal_scheduler_state_t := (MVGAL_SUCCESS, s <| ss_paused := false |>).

Definition mvgal_scheduler_is_paused (s : mvgal_scheduler_state_t) : bool := ss_paused s.

Definition mvgal_scheduler_process (fuel : nat) : SM mvgal_error_t :=
  mvgal_scheduler_process_internal fuel.

(** ** Custom splitters of the scheduler *)

Definition mvgal_scheduler_register_splitter (splitter : option mvgal_workload_splitter_t)
  : SM mvgal_error_t :=
  match splitter with
  | Some sp =>
      if bool_decide (sp_analyze sp = None) || bool_decide (sp_split sp = None)
         || bool_decide (sp_merge sp = None)
      then mret MVGAL_ERROR_INVALID_ARGUMENT else
      ok ← calloc;
      if negb ok then mret MVGAL_ERROR_OUT_OF_MEMORY else
      modify (fun s => s <| ss_splitters ::= fun l => l ++ [sp] |>);;
      mret MVGAL_SUCCESS
  | None => mret MVGAL_ERROR_INVALID_ARGUMENT
  end.

(** A splitter pointer given to [unregister] is NULL, the address of a slot
    of the array, or any other address; slots are compared by address. *)
Inductive splitter_ref : Type :=
| SplitterNull
| SplitterSlot (i : nat)
| SplitterElsewhere.

Definition mvgal_scheduler_unregister_splitter (splitter : splitter_ref)
  (s : mvgal_scheduler_state_t) : mvgal_error_t * mvgal_scheduler_state_t :=
  match splitter with
  | SplitterSlot i =>
      if (i <? length (ss_splitters s))%nat
      then (MVGAL_SUCCESS, s <| ss_splitters ::= fun l => take i l ++ drop (S i) l |>)
      else (MVGAL_ERROR_INVALID_ARGUMENT, s)
  | _ => (MVGAL_ERROR_INVALID_ARGUMENT, s)
  end.

(** ** Explicit distribution *)

(** The three [mvgal_distribute_*] functions store the caller's indices
    without a bound and run their strategy. *)
Definition distribute_with (strategy : option addr -> SM mvgal_error_t) (workload : option addr)
  (indices : option (list Z)) : SM mvgal_error_t :=
  match workload, indices with
  | Some p, Some l =>
      if (length l =? 0)%nat then mret MVGAL_ERROR_INVALID_ARGUMENT else
      if (16 <? length l)%nat then fails OutOfBounds else
      update p (fun w => w <| w_assigned_gpu_count := Z.of_nat (length l) |>
                           <| w_assigned_gpus ::= overwrite l |>);;
      strategy (Some p)
  | _, _ => mret MVGAL_ERROR_INVALID_ARGUMENT
  end.

Definition mvgal_distribute_afr := distribute_with mvgal_scheduler_distribute_afr.
Definition mvgal_distribute_sfr := distribute_with mvgal_scheduler_distribute_sfr.
Definition mvgal_distribute_task := distribute_with mvgal_scheduler_distribute_task.

End Scheduler.
