(* ===== verification/Dispatch.v ===== *)
(** * Dispatching workloads

    Theorems about the scheduler of Scheduler.v: every strategy leaves the
    scheduler and the identity of the workload alone, the processing loop
    drains the ready queue in priority order, and a submitted workload is
    completed when the call returns. *)

From Stdlib Require Import Sorted.
From S2P Require Import Prelude Float32 GpuTypes GpuManager SchedTypes WorkQueue SchedSelect.
From S2P Require Import Strategies SfrTiling Scheduler GpuHealth.
Local Open Scope Z_scope.

(** ** What a strategy may change *)

(** The scheduler apart from the heap, the AFR rotation and the allocator. *)
Definition settled (s : mvgal_scheduler_state_t) : mvgal_scheduler_state_t :=
  s <| ss_heap := ∅ |> <| ss_afr := afr_zero |> <| ss_allocs := 0%nat |>.

(** A workload apart from its GPU assignment. *)
Definition ident (w : mvgal_workload) : mvgal_workload :=
  w <| w_descriptor ::= fun d => d <| d_assigned_gpu := 0 |> |> <| w_assigned_gpu_count := 0 |>
    <| w_assigned_gpus := [] |> <| w_strategy_data := SD_null |>.

(** The weighted split of the active GPUs stays in the range of the float
    to integer conversions. *)
Definition sfr_in_range (s : mvgal_scheduler_state_t) : bool :=
  match sfr_split_frame 0 1920 1080 (Z.of_nat (length (sfr_gpus s)))
          (Some (sfr_weight s <$> sfr_gpus s)) SFR_MODE_HORIZONTAL SFR_MAX_REGIONS with
  | Ret _ => true
  | _ => false
  end.

(** [m] returns, touches only the assignment of workload [p] and leaves its
    strategy data live or NULL. *)
Definition strategy_ok (m : SM mvgal_error_t) (p : addr) (w : mvgal_workload)
  (s : mvgal_scheduler_state_t) : Prop :=
  exists e s' w', m s = Ret (e, s') /\ settled s' = settled s
    /\ ss_heap s' = <[p := w']> (ss_heap s) /\ ident w' = ident w
    /\ w_strategy_data w' <> SD_dangling.

Section Strategies.
Context `{SchedEnv}.
Variables (p : addr) (w : mvgal_workload).

Lemma strategy_ok_same e s :
  ss_heap s !! p = Some w -> w_strategy_data w <> SD_dangling ->
  strategy_ok (mret e) p w s.
Proof. intros E Hd. exists e, s, w. split_and!; [done..|by rewrite insert_id|done|done]. Qed.

Lemma strategy_ok_update e f s :
  ss_heap s !! p = Some w -> ident (f w) = ident w -> w_strategy_data (f w) <> SD_dangling ->
  strategy_ok (update p f;; mret e) p w s.
Proof.
  intros E Hf Hd. exists e, (s <| ss_heap ::= fun h => <[p := f w]> h |>), (f w).
  rewrite (bind_ret _ _ _ _ _ (update_ok _ _ _ _ E)). by split_and!.
Qed.

(** A step that only moves the rotation or the allocator. *)
Lemma strategy_ok_step {A} (m : SM A) (f : A -> SM mvgal_error_t) a s s1 :
  m s = Ret (a, s1) -> settled s1 = settled s -> ss_heap s1 = ss_heap s ->
  strategy_ok (f a) p w s1 -> strategy_ok (m ≫= f) p w s.
Proof.
  intros Hm Hs Hh (e & s' & w' & Hrun & Hs' & Hh' & Hrest). exists e, s', w'.
  rewrite (bind_ret _ _ _ _ _ Hm). split_and!; [done|congruence|congruence|apply Hrest..].
Qed.

Lemma strategy_ok_then f (m : SM mvgal_error_t) s :
  ss_heap s !! p = Some w -> ident (f w) = ident w ->
  strategy_ok m p (f w) (s <| ss_heap ::= fun h => <[p := f w]> h |>) ->
  strategy_ok (update p f;; m) p w s.
Proof.
  intros E Hf (e & s' & w' & Hrun & Hs & Hh & Hi & Hd). exists e, s', w'.
  rewrite (bind_ret _ _ _ _ _ (update_ok _ _ _ _ E)).
  split_and!; [done|by rewrite Hs| |congruence|done]. rewrite Hh. apply insert_insert_eq.
Qed.

Lemma strategy_ok_bind (m : SM mvgal_error_t) (f : mvgal_error_t -> SM mvgal_error_t) s :
  strategy_ok m p w s ->
  (forall e s' w', settled s' = settled s -> ss_heap s' !! p = Some w' ->
     w_strategy_data w' <> SD_dangling -> strategy_ok (f e) p w' s') ->
  strategy_ok (m ≫= f) p w s.
Proof.
  intros (e & s1 & w1 & Hrun & Hs & Hh & Hi & Hd) Hf.
  destruct (Hf e s1 w1) as (e2 & s2 & w2 & Hrun2 & Hs2 & Hh2 & Hi2 & Hd2);
    [done|by rewrite Hh, lookup_insert_eq|done|].
  exists e2, s2, w2. rewrite (bind_ret _ _ _ _ _ Hrun). split_and!; [done|congruence| |congruence|done].
  rewrite Hh2, Hh. apply insert_insert_eq.
Qed.

Lemma free_null s :
  ss_heap s !! p = Some w -> w_strategy_data w = SD_null -> free_strategy_data p s = Ret (tt, s).
Proof.
  intros E Hd. unfold free_strategy_data. rewrite (bind_ret _ _ _ _ _ (deref_ok _ _ _ E)).
  by rewrite Hd.
Qed.

Lemma find_best_gpu_ok s :
  ss_heap s !! p = Some w -> w_strategy_data w <> SD_dangling ->
  strategy_ok (mvgal_scheduler_find_best_gpu (Some p)) p w s.
Proof.
  intros E Hd. unfold strategy_ok. rewrite (find_best_gpu_run _ _ _ E).
  destruct (best_gpu w s) as [i|].
  - do 3 eexists. split; [done|]. by split_and!.
  - exists MVGAL_ERROR_NO_GPUS, s, w. by rewrite insert_id.
Qed.

Lemma distribute_task_ok s :
  ss_heap s !! p = Some w -> w_strategy_data w <> SD_dangling ->
  strategy_ok (mvgal_scheduler_distribute_task (Some p)) p w s.
Proof.
  intros E Hd. eapply strategy_ok_step; [by apply deref_ok|done..|].
  destruct (0 <? w_assigned_gpu_count w); [by apply strategy_ok_update|].
  eapply (strategy_ok_step get _ s); [done..|].
  destruct (task_select _ s); [by apply strategy_ok_update|by apply strategy_ok_same].
Qed.

Lemma distribute_afr_ok s :
  ss_heap s !! p = Some w -> w_strategy_data w <> SD_dangling ->
  strategy_ok (mvgal_scheduler_distribute_afr (Some p)) p w s.
Proof.
  intros E Hd. unfold mvgal_scheduler_distribute_afr.
  eapply (strategy_ok_step (modify _)); [reflexivity..|]. set (s1 := s <| ss_afr ::= _ |>).
  assert (E1 : ss_heap s1 !! p = Some w) by done.
  eapply strategy_ok_step; [by apply deref_ok|done..|].
  destruct (0 <? w_assigned_gpu_count w); [by apply strategy_ok_update|].
  assert (Hnext : forall s2, ss_heap s2 !! p = Some w ->
    strategy_ok (gpu_index ← on_afr afr_get_next_gpu;
       if gpu_index =? NO_GPU then mvgal_scheduler_find_best_gpu (Some p)
       else update p (assign_one gpu_index);; mret MVGAL_SUCCESS) p w s2).
  { intros s2 E2. destruct (afr_get_next_gpu (ss_afr s2)) as [g a] eqn:Hg.
    assert (Hn : on_afr afr_get_next_gpu s2 = Ret (g, s2 <| ss_afr := a |>))
      by (unfold on_afr; by rewrite Hg).
    eapply strategy_ok_step; [exact Hn|done..|].
    destruct (g =? NO_GPU); [by apply find_best_gpu_ok|by apply strategy_ok_update]. }
  destruct (_ && _).
  - eapply (strategy_ok_step (modify _)); [reflexivity..|]. by apply Hnext.
  - eapply (strategy_ok_step (mret tt)); [reflexivity..|]. by apply Hnext.
Qed.

Lemma sfr_create_ok fuel width height mode weights rs s :
  ss_heap s !! p = Some w -> w_strategy_data w = SD_null -> w_assigned_gpu_count w <= 16 ->
  sfr_split_frame fuel width height (w_assigned_gpu_count w) weights mode SFR_MAX_REGIONS = Ret rs ->
  strategy_ok (sfr_create_split_data fuel (Some p) width height mode weights) p w s.
Proof.
  intros E Hd Hc Hrs. assert (w_strategy_data w <> SD_dangling) by congruence.
  eapply strategy_ok_step; [by apply deref_ok|done..|].
  destruct (w_assigned_gpu_count w =? 0); [by apply strategy_ok_same|].
  eapply strategy_ok_step; [by apply free_null|done..|].
  eapply (strategy_ok_step calloc); [reflexivity..|].
  destruct (alloc_ok _); cbn [negb]; [|by apply strategy_ok_same].
  rewrite Hrs. destruct (Z.ltb_spec 16 (w_assigned_gpu_count w)); [lia|]. by apply strategy_ok_update.
Qed.
End Strategies.

Section Sfr.
Context `{SchedEnv}.

Lemma distribute_sfr_ok p w s :
  ss_heap s !! p = Some w -> w_strategy_data w = SD_null -> w_assigned_gpu_count w <= 16 ->
  sfr_in_range s = true ->
  strategy_ok (mvgal_scheduler_distribute_sfr (Some p)) p w s.
Proof.
  intros E Hd Hc Hr. assert (w_strategy_data w <> SD_dangling) by congruence.
  unfold mvgal_scheduler_distribute_sfr. eapply strategy_ok_step; [by apply deref_ok|done..|].
  destruct (0 <? w_assigned_gpu_count w).
  - eapply strategy_ok_step; [by eapply free_null|done..|].
    eapply (strategy_ok_step _ _ calloc); [reflexivity..|].
    destruct (alloc_ok _); cbn [negb]; [|by apply strategy_ok_same].
    destruct (Z.ltb_spec 16 (w_assigned_gpu_count w)); [lia|]. by apply strategy_ok_update.
  - eapply (strategy_ok_step _ _ get); [reflexivity..|].
    unfold sfr_in_range in Hr. pose proof (sfr_gpus_length s) as Hlen.
    destruct (sfr_gpus s) as [|g0 gs]; [by apply find_best_gpu_ok|].
    destruct (sfr_split_frame _ _ _ _ _ _ _) as [rs| |] eqn:Hrs; [|done..].
    apply strategy_ok_then; [done|done|].
    apply strategy_ok_bind.
    + apply (sfr_create_ok _ _ _ _ _ _ _ rs); [cbn; by rewrite lookup_insert_eq|done| |exact Hrs].
      cbn [w_assigned_gpu_count upd]. lia.
    + intros e s' w' _ E' Hd'. by apply strategy_ok_update.
Qed.
End Sfr.

(** ** One dispatch *)

Lemma modify_bind {A} (f : mvgal_scheduler_state_t -> mvgal_scheduler_state_t) (k : unit -> SM A) s :
  ((modify f : SM unit) ≫= k) s = k tt (f s).
Proof. reflexivity. Qed.

Lemma get_bind {A} (k : mvgal_scheduler_state_t -> SM A) s : ((get : SM _) ≫= k) s = k s s.
Proof. reflexivity. Qed.

(** The scheduler apart from what a dispatch touches. *)
Definition uncounted (s : mvgal_scheduler_state_t) : mvgal_scheduler_state_t :=
  s <| ss_ticks := 0%nat |> <| ss_stats := stats_zero |> <| ss_called := [] |>.
Definition core (s : mvgal_scheduler_state_t) : mvgal_scheduler_state_t := uncounted (settled s).

(** [w'] is [w] completed successfully, with one reference given up and some
    GPU assignment. *)
Definition given_back (now : Z) (w : mvgal_workload) : mvgal_workload :=
  (completed_at now MVGAL_SUCCESS w) <| w_refcount ::= fun n => u32 (n - 1) |>.
Definition finished (w w' : mvgal_workload) : Prop :=
  exists now, ident w' = ident (given_back now w).

(** The callback completion makes. *)
Definition notification (w : mvgal_workload) : list (addr * mvgal_error_t * option addr) :=
  match w_callback w with
  | Some f => [(f, MVGAL_SUCCESS, w_user_data w)]
  | None => []
  end.

Definition count_completed (s : mvgal_scheduler_state_t) : mvgal_scheduler_stats_t :=
  (ss_stats s) <| st_workloads_completed ::= fun n => u64 (n + 1) |>.

(** A workload the loop can take: referenced, never split, and with as many
    pre-assigned GPUs as there are slots. *)
Definition dispatchable (w : mvgal_workload) : Prop :=
  1 <= w_refcount w <= U32_MAX /\ w_strategy_data w = SD_null /\ w_assigned_gpu_count w <= 16.

Section Dispatch.
Context `{SchedEnv}.

Lemma apply_strategy_ok p w s :
  ss_heap s !! p = Some w -> w_strategy_data w = SD_null -> w_assigned_gpu_count w <= 16 ->
  sfr_in_range s = true ->
  strategy_ok (mvgal_scheduler_apply_strategy (Some p)) p w s.
Proof.
  intros E Hd Hc Hr. assert (w_strategy_data w <> SD_dangling) by congruence.
  unfold mvgal_scheduler_apply_strategy. eapply (strategy_ok_step _ _ get); [reflexivity..|].
  eapply strategy_ok_step; [by apply deref_ok|done..|].
  destruct (if bool_decide _ then _ else _);
    auto using distribute_afr_ok, distribute_sfr_ok, distribute_task_ok, find_best_gpu_ok,
      strategy_ok_same.
Qed.

Lemma complete_ok p w s :
  ss_heap s !! p = Some w ->
  mvgal_workload_complete (Some p) MVGAL_SUCCESS s
  = Ret (tt, s <| ss_ticks ::= S |>
               <| ss_heap ::= fun h => <[p := completed_at (clock_ns (ss_ticks s)) MVGAL_SUCCESS w]> h |>
               <| ss_stats := count_completed s |>
               <| ss_called ::= fun l => l ++ notification w |>).
Proof.
  intros E. unfold mvgal_workload_complete.
  rewrite (bind_ret get_time_ns _ s _ (s <| ss_ticks ::= S |>) eq_refl).
  assert (E1 : ss_heap (s <| ss_ticks ::= S |>) !! p = Some w) by done.
  rewrite (bind_ret _ _ _ _ _ (update_ok _ _ _ _ E1)).
  rewrite modify_bind.
  match goal with |- context [ (deref p ≫= _) ?x ] => set (s2 := x) end.
  assert (E2 : ss_heap s2 !! p = Some (completed_at (clock_ns (ss_ticks s)) MVGAL_SUCCESS w))
    by apply lookup_insert_eq.
  rewrite (bind_ret _ _ _ _ _ (deref_ok _ _ _ E2)). unfold notification. cbn [w_callback completed_at upd].
  destruct (w_callback w); [reflexivity|]. unfold mret, SM_ret, M_ret. do 2 f_equal.
  unfold s2. destruct s. cbn. by rewrite app_nil_r.
Qed.

Lemma release_ok p w s :
  ss_heap s !! p = Some w -> w_strategy_data w <> SD_dangling ->
  mvgal_workload_release (Some p) s
  = Ret (tt, s <| ss_heap ::= fun h =>
                 if w_refcount w =? 1 then delete p h
                 else <[p := w <| w_refcount ::= fun n => u32 (n - 1) |>]> h |>).
Proof.
  intros E Hd. unfold mvgal_workload_release. rewrite (bind_ret _ _ _ _ _ (deref_ok _ _ _ E)).
  rewrite (bind_ret _ _ _ _ _ (update_ok _ _ _ _ E)). destruct (w_refcount w =? 1); [|done].
  match goal with |- _ ?x = _ => set (s2 := x) end.
  assert (E2 : ss_heap s2 !! p = Some (w <| w_refcount ::= fun n => u32 (n - 1) |>))
    by apply lookup_insert_eq.
  unfold mvgal_workload_destroy_internal. rewrite (bind_ret _ _ _ _ _ (deref_ok _ _ _ E2)).
  cbn [w_strategy_data upd]. destruct (w_strategy_data w); [..|done];
    unfold modify, s2; do 2 f_equal; cbn; by rewrite delete_insert_eq.
Qed.

Lemma dispatch_ok p w s :
  ss_heap s !! p = Some w -> dispatchable w -> sfr_in_range s = true ->
  exists s' w', dispatch p s = Ret (tt, s') /\ core s' = core s /\ finished w w'
    /\ ss_heap s' = (if w_refcount w =? 1 then delete p (ss_heap s) else <[p := w']> (ss_heap s))
    /\ ss_stats s' = count_completed s /\ ss_called s' = ss_called s ++ notification w.
Proof.
  intros E (Hrc & Hd & Hc) Hr.
  destruct (apply_strategy_ok p w s E Hd Hc Hr) as (e & s1 & w1 & Hrun & Hs1 & Hh1 & Hi1 & Hd1).
  assert (E1 : ss_heap s1 !! p = Some w1) by (rewrite Hh1; apply lookup_insert_eq).
  unfold dispatch. rewrite (bind_ret _ _ _ _ _ Hrun), (bind_ret _ _ _ _ _ (complete_ok p w1 s1 E1)).
  match goal with |- context [ mvgal_workload_release _ ?x ] => set (s2 := x) end.
  set (w2 := completed_at (clock_ns (ss_ticks s1)) MVGAL_SUCCESS w1) in *.
  assert (E2 : ss_heap s2 !! p = Some w2) by apply lookup_insert_eq.
  rewrite (release_ok p w2 s2 E2 Hd1). eexists. exists (w2 <| w_refcount ::= fun n => u32 (n - 1) |>).
  assert (Hrc2 : w_refcount w2 = w_refcount w) by exact (f_equal w_refcount Hi1).
  assert (Hcb : notification w1 = notification w).
  { unfold notification. rewrite (f_equal w_callback Hi1 : w_callback w1 = w_callback w).
    by rewrite (f_equal w_user_data Hi1 : w_user_data w1 = w_user_data w). }
  split; [reflexivity|]. rewrite Hrc2. split_and!.
  - change (uncounted (settled s1) = uncounted (settled s)). by rewrite Hs1.
  - exists (clock_ns (ss_ticks s1)).
    change (ident (given_back (clock_ns (ss_ticks s1)) (ident w1))
            = ident (given_back (clock_ns (ss_ticks s1)) (ident w))). by rewrite Hi1.
  - unfold s2. cbn [ss_heap upd]. rewrite Hh1, insert_insert_eq.
    destruct (w_refcount w =? 1); [apply delete_insert_eq|apply insert_insert_eq].
  - unfold s2, count_completed. cbn [ss_stats upd]. by rewrite (f_equal ss_stats Hs1 : ss_stats s1 = ss_stats s).
  - unfold s2. cbn [ss_called upd]. rewrite Hcb. by rewrite (f_equal ss_called Hs1 : ss_called s1 = ss_called s).
Qed.
End Dispatch.

(** ** Draining the ready queue *)

Lemma queue_rep_frame h h' q l :
  (forall p, p ∈ l -> h' !! p = h !! p) -> queue_rep h q l -> queue_rep h' q l.
Proof.
  intros Hl [H1 H2 H3 H4 H5 H6 H7]. split; try done.
  - by eapply dseg_frame.
  - rewrite H7. f_equal. apply sum_prio_ext. intros p Hp. unfold prio. by rewrite Hl.
Qed.

(** [p] may precede [q] when the queue [l] is drained: by priority, and in
    queue order among equals. *)
Definition goes_first (pr : addr -> Z) (l : list addr) (p q : addr) : Prop :=
  pr q < pr p \/ (pr q = pr p /\ sublist [p; q] l).

Definition dispatch_order (pr : addr -> Z) (l order : list addr) : Prop :=
  order ≡ₚ l /\ StronglySorted (goes_first pr l) order.

Lemma goes_first_mono pr l l' p q : sublist l l' -> goes_first pr l p q -> goes_first pr l' p q.
Proof. intros Hl [Hp|[Hp Hs]]; [by left|right; split; [done|by etrans]]. Qed.

Lemma StronglySorted_mono {A} (R R' : A -> A -> Prop) l :
  (forall x y, R x y -> R' x y) -> StronglySorted R l -> StronglySorted R' l.
Proof.
  intros HR. induction 1 as [|x l Hl IH Hx]; constructor; [done|].
  eapply Forall_impl; [exact Hx|]. auto.
Qed.

Lemma dispatch_order_cons pr l1 b l2 order :
  (forall p, p ∈ l1 -> pr p < pr b) -> (forall p, p ∈ l2 -> pr p <= pr b) ->
  dispatch_order pr (l1 ++ l2) order -> dispatch_order pr (l1 ++ b :: l2) (b :: order).
Proof.
  intros H1 H2 [Hperm Hs]. split; [by rewrite Hperm, Permutation_middle|].
  constructor.
  - eapply StronglySorted_mono; [|done]. intros x y. apply goes_first_mono.
    apply sublist_app; [done|by constructor].
  - rewrite Forall_forall. intros q Hq. rewrite Hperm in Hq.
    apply elem_of_app in Hq as [Hq|Hq]; [left; auto|].
    specialize (H2 q Hq). destruct (decide (pr q = pr b)); [right|left; lia].
    split; [done|]. apply sublist_inserts_l, sublist_skip.
    apply list_elem_of_split in Hq as (a & c & ->). by apply sublist_inserts_l, sublist_skip, sublist_nil_l.
Qed.

(** The scheduler apart from the ready queue and what a dispatch touches. *)
Definition idle (s : mvgal_scheduler_state_t) : mvgal_scheduler_state_t :=
  core (s <| ss_ready_queue := queue_empty |>).

Lemma idle_core s : idle s = (core s) <| ss_ready_queue := queue_empty |>.
Proof. destruct s. reflexivity. Qed.

Lemma idle_in_range s s' : idle s' = idle s -> sfr_in_range s' = sfr_in_range s.
Proof.
  intros Hs. assert (Hg : ss_gpus s' = ss_gpus s) by exact (f_equal ss_gpus Hs).
  assert (Hn : ss_gpu_count s' = ss_gpu_count s) by exact (f_equal ss_gpu_count Hs).
  assert (Hc : ss_config s' = ss_config s) by exact (f_equal ss_config Hs).
  unfold sfr_in_range, sfr_gpus, sfr_weight, gpu_active, gs_at.
  by rewrite Hg, Hn, Hc.
Qed.

Definition notified (h : wheap) (p : addr) : list (addr * mvgal_error_t * option addr) :=
  default [] (notification <$> h !! p).

(** A workload the loop can take and will take. *)
Definition takeable (h : wheap) (p : addr) : Prop :=
  exists w, content h !! p = Some w /\ dispatchable w /\ 0 < w_priority w.

(** The statistics apart from the count of completed workloads. *)
Definition other_stats (st : mvgal_scheduler_stats_t) : mvgal_scheduler_stats_t := st <| st_workloads_completed := 0 |>.

(** The outcome of draining the queue [l] from [s] to [s']: the whole state
    but the rotation of the alternate frames, the number of allocations, the
    number of clock readings, and the GPU assignments of the workloads. *)
Record drained (s s' : mvgal_scheduler_state_t) (l : list addr) : Prop := {
  dr_queue : ss_ready_queue s' = queue_empty;
  dr_called : exists order, dispatch_order (prio (ss_heap s)) l order
    /\ ss_called s' = ss_called s ++ (order ≫= notified (ss_heap s));
  dr_count : u64 (st_workloads_completed (ss_stats s'))
    = u64 (st_workloads_completed (ss_stats s) + Z.of_nat (length l));
  dr_stats : other_stats (ss_stats s') = other_stats (ss_stats s);
  dr_others : forall p, p ∉ l -> content (ss_heap s') !! p = content (ss_heap s) !! p;
  dr_done : forall p w, p ∈ l -> content (ss_heap s) !! p = Some w ->
    if w_refcount w =? 1 then ss_heap s' !! p = None
    else exists w', content (ss_heap s') !! p = Some w' /\ finished w w';
  dr_rest : idle s' = idle s
}.

Lemma prio_takeable h p : takeable h p -> 0 < prio h p.
Proof. intros (w & Hw & _ & Hp). by rewrite prio_content, Hw. Qed.

Lemma notified_content h p : notified h p = default [] (notification <$> content h !! p).
Proof. unfold notified. rewrite content_lookup. by destruct (h !! p). Qed.

Lemma ident_unlinked w : ident (unlinked w) = unlinked (ident w).
Proof. destruct w. reflexivity. Qed.

Lemma given_back_unlinked now w : ident (given_back now (unlinked w)) = unlinked (ident (given_back now w)).
Proof. destruct w. reflexivity. Qed.

Lemma unlinked_idemp w : unlinked (unlinked w) = unlinked w.
Proof. destruct w. reflexivity. Qed.

Lemma finished_unlinked w w' : finished (unlinked w) w' -> finished (unlinked w) (unlinked w').
Proof.
  intros [now Hf]. exists now. rewrite ident_unlinked, Hf, given_back_unlinked. apply unlinked_idemp.
Qed.

(** What dispatching [b], just unlinked from between [l1] and [l2], leaves
    for the rest of the loop. *)
Lemma dispatch_leaves b w0 l1 l2 h s1 s2 w2 :
  content (ss_heap s1) = content h -> content h !! b = Some w0 -> b ∉ l1 ++ l2 ->
  finished w0 w2 ->
  ss_heap s2 = (if w_refcount w0 =? 1 then delete b (ss_heap s1) else <[b := w2]> (ss_heap s1)) ->
  (forall p, p <> b -> ss_heap s2 !! p = ss_heap s1 !! p)
  /\ (if w_refcount w0 =? 1 then ss_heap s2 !! b = None
      else exists w', content (ss_heap s2) !! b = Some w' /\ finished w0 w').
Proof.
  intros Hc Hb Hnin Hf Hh.
  assert (exists w, w0 = unlinked w) as [w ->].
  { rewrite content_lookup in Hb. destruct (h !! b) as [w|]; simplify_eq/=. by exists w. }
  split.
  - intros p Hp. rewrite Hh. destruct (_ =? _); [by rewrite lookup_delete_ne|by rewrite lookup_insert_ne].
  - rewrite Hh. destruct (_ =? _); [apply lookup_delete_eq|].
    exists (unlinked w2). rewrite content_lookup, lookup_insert_eq. split; [done|by apply finished_unlinked].
Qed.

Lemma dispatch_order_ext pr pr' l order :
  (forall p, p ∈ l -> pr p = pr' p) -> dispatch_order pr l order -> dispatch_order pr' l order.
Proof.
  intros He [Hperm Hs]. split; [done|].
  assert (Ho : forall p, p ∈ order -> pr p = pr' p) by (intros p Hp; apply He; by rewrite <-Hperm).
  clear Hperm. induction Hs as [|x order Hs IH Hx]; constructor.
  - apply IH. intros p Hp. apply Ho. by right.
  - rewrite Forall_forall in Hx |- *. intros y Hy. specialize (Hx y Hy). unfold goes_first in *.
    rewrite (Ho x), (Ho y) in Hx; [done|by right|by left].
Qed.

Lemma drained_cons s s2 s3 l1 b l2 w0 :
  content (ss_heap s) !! b = Some w0 -> b ∉ l1 ++ l2 ->
  (forall p, p ∈ l1 -> prio (ss_heap s) p < prio (ss_heap s) b) ->
  (forall p, p ∈ l2 -> prio (ss_heap s) p <= prio (ss_heap s) b) ->
  (forall p, p <> b -> content (ss_heap s2) !! p = content (ss_heap s) !! p) ->
  (if w_refcount w0 =? 1 then ss_heap s2 !! b = None
   else exists w', content (ss_heap s2) !! b = Some w' /\ finished w0 w') ->
  ss_stats s2 = count_completed s -> ss_called s2 = ss_called s ++ notification w0 ->
  idle s2 = idle s -> drained s2 s3 (l1 ++ l2) -> drained s s3 (l1 ++ b :: l2).
Proof.
  intros Hb Hnin H1 H2 Hne Hres Hst Hca Hidle [Hq (order & Ho & Hcs) Hcnt Hsub Hoth Hdone Hrest].
  split; [done| | |by rewrite Hsub, Hst| | |congruence].
  - exists (b :: order). split.
    + apply dispatch_order_cons; [done|done|]. eapply dispatch_order_ext; [|done].
      intros p Hp. apply prio_ext, Hne. by intros ->.
    + rewrite Hcs, Hca, <-app_assoc. f_equal. cbn [mbind list_bind]. f_equal.
      * by rewrite notified_content, Hb.
      * destruct Ho as [Hperm _].
        assert (Hord : forall p, p ∈ order -> p <> b) by (intros p Hp ->; rewrite Hperm in Hp; done).
        clear -Hne Hord. induction order as [|p order IH]; [done|]. cbn. f_equal.
        -- rewrite !notified_content, Hne; [done|]. apply Hord. by left.
        -- apply IH. intros q Hq. apply Hord. by right.
  - rewrite Hcnt, Hst. unfold count_completed. cbn. unfold u64.
    rewrite Zplus_mod_idemp_l, length_app, length_app. f_equal. simpl. lia.
  - intros p Hp. rewrite elem_of_app, elem_of_cons in Hp. rewrite Hoth, Hne; [done|..]; set_solver.
  - intros p w Hp Hw. destruct (decide (p = b)) as [->|Hpb].
    + rewrite Hb in Hw. injection Hw as <-. specialize (Hoth b Hnin). rewrite content_lookup in Hoth.
      destruct (w_refcount w0 =? 1).
      * rewrite content_lookup, Hres in Hoth. by destruct (ss_heap s3 !! b).
      * destruct Hres as (w' & Hw' & Hf). exists w'. rewrite content_lookup, Hoth. done.
    + apply Hdone; [set_solver|]. by rewrite Hne.
Qed.

Section Drain.
Context `{SchedEnv}.

Lemma on_ready_ret {A} (m : QM A) s a h q :
  m (ss_heap s, ss_ready_queue s) = Ret (a, (h, q)) ->
  on_ready m s = Ret (a, s <| ss_heap := h |> <| ss_ready_queue := q |>).
Proof. intros Hm. unfold on_ready. by rewrite Hm. Qed.

Lemma drained_nil s : queue_rep (ss_heap s) (ss_ready_queue s) [] -> drained s s [].
Proof.
  intros Hrep. split; try done.
  - by apply queue_rep_nil in Hrep.
  - exists []. split; [by split; constructor|]. by rewrite app_nil_r.
  - by rewrite Z.add_0_r.
  - by intros p w ?%elem_of_nil.
Qed.

(** The workload the loop takes from a queue whose members are takeable. *)
Lemma take_next s l :
  queue_rep (ss_heap s) (ss_ready_queue s) l -> (forall p, p ∈ l -> takeable (ss_heap s) p) ->
  l <> [] ->
  exists l1 b l2 s1 w, l = l1 ++ b :: l2 /\ b ∉ l1 ++ l2
    /\ on_ready mvgal_workload_dequeue_priority s = Ret (Some b, s1)
    /\ (forall p, p ∈ l1 -> prio (ss_heap s) p < prio (ss_heap s) b)
    /\ (forall p, p ∈ l2 -> prio (ss_heap s) p <= prio (ss_heap s) b)
    /\ queue_rep (ss_heap s1) (ss_ready_queue s1) (l1 ++ l2)
    /\ content (ss_heap s1) = content (ss_heap s)
    /\ ss_heap s1 !! b = Some w /\ content (ss_heap s) !! b = Some w
    /\ idle s1 = idle s /\ ss_stats s1 = ss_stats s /\ ss_called s1 = ss_called s.
Proof.
  intros Hrep Hl Hne.
  destruct (dequeue_priority_cases _ _ _ Hrep)
    as [[_ Hle]|(l1 & b & l2 & h' & q' & w & -> & Hrun & _ & H1 & H2 & Hq & Hc & Hw)].
  { destruct l as [|p l]; [done|]. specialize (Hle p ltac:(by left)).
    pose proof (prio_takeable _ _ (Hl p ltac:(by left))). lia. }
  destruct (nodup_middle l1 b l2 (qr_nodup _ _ _ Hrep)) as (Hb1 & Hb2 & _ & _).
  exists l1, b, l2, (s <| ss_heap := h' |> <| ss_ready_queue := q' |>), (unlinked w).
  split_and!; try done; [set_solver|by apply on_ready_ret|].
  by rewrite <-Hc, content_lookup, Hw, <-(unlinked_idemp w) at 1.
Qed.

Lemma takeable_content h h' p :
  content h' !! p = content h !! p -> takeable h p -> takeable h' p.
Proof. intros Hc (w & Hw & Ht). exists w. by rewrite Hc. Qed.

Lemma process_loop_drains fuel : forall l s,
  queue_rep (ss_heap s) (ss_ready_queue s) l -> (forall p, p ∈ l -> takeable (ss_heap s) p) ->
  sfr_in_range s = true -> (length l <= fuel)%nat ->
  exists s', process_loop fuel s = Ret (tt, s') /\ drained s s' l.
Proof.
  induction fuel as [|fuel IH]; intros l s Hrep Hl Hr Hf.
  { destruct l; simpl in Hf; [|lia]. exists s. simpl. rewrite (qr_count _ _ _ Hrep).
    split; [done|by apply drained_nil]. }
  cbn [process_loop]. rewrite (qr_count _ _ _ Hrep).
  destruct (decide (l = [])) as [->|Hne]; [exists s; split; [done|by apply drained_nil]|].
  destruct (Z.leb_spec (Z.of_nat (length l)) 0) as [Hz|_]; [destruct l; [done|simpl in Hz; lia]|].
  destruct (take_next s l Hrep Hl Hne)
    as (l1 & b & l2 & s1 & w & -> & Hb & Hrun & H1 & H2 & Hrep1 & Hc1 & Hw1 & Hw & Hi1 & Hst1 & Hca1).
  rewrite (bind_ret _ _ _ _ _ Hrun).
  assert (Hd : dispatchable w).
  { destruct (Hl b) as (w' & Hw' & Hd & _); [set_solver|]. rewrite Hw in Hw'. by injection Hw' as <-. }
  destruct (dispatch_ok b w s1 Hw1 Hd) as (s2 & w2 & Hrun2 & Hi2 & Hf2 & Hh2 & Hst2 & Hca2).
  { rewrite <-Hr. by apply idle_in_range. }
  rewrite (bind_ret _ _ _ _ _ Hrun2).
  destruct (dispatch_leaves b w l1 l2 (ss_heap s) s1 s2 w2 Hc1 Hw Hb Hf2 Hh2) as [Hne2 Hres].
  assert (Hq2 : ss_ready_queue s2 = ss_ready_queue s1) by exact (f_equal ss_ready_queue Hi2).
  assert (Hi : idle s2 = idle s) by (rewrite <-Hi1, !idle_core; by rewrite Hi2).
  assert (Hcon : forall p, p <> b -> content (ss_heap s2) !! p = content (ss_heap s) !! p).
  { intros p Hp. rewrite <-Hc1, !content_lookup. by rewrite Hne2. }
  destruct (IH (l1 ++ l2) s2) as (s3 & Hrun3 & Hdr).
  - rewrite Hq2. eapply queue_rep_frame; [|done]. intros p Hp. apply Hne2. by intros ->.
  - intros p Hp. eapply takeable_content; [apply Hcon; by intros ->|]. apply Hl. set_solver.
  - rewrite <-Hr. by apply idle_in_range.
  - rewrite !length_app in *. simpl in Hf. lia.
  - exists s3. split; [exact Hrun3|]. eapply drained_cons; try done.
    + rewrite Hst2. unfold count_completed. by rewrite Hst1.
    + by rewrite Hca2, Hca1.
Qed.
End Drain.

Section Claims.
Context `{GpuOS, SchedEnv}.

(** C8. Processing drains the ready queue: from an initialized scheduler
    whose ready queue holds the workloads [l], all of positive priority, as
    many passes as there are workloads are enough for the call to return.
    It then reports success, the queue is empty, every workload of [l] was
    completed and released once (freed when the queue held the last
    reference), the completion callbacks ran in priority order with queue
    order among equals, and the completion counter grew by the number of
    workloads.  Each workload is referenced, was not split before and has at
    most 16 GPUs assigned in advance, and the weights of the GPUs divide a
    frame.  Of the rest of the scheduler, only the rotation of the alternate
    frames, the numbers of allocations and of clock readings, the GPU
    assignments of the workloads of [l] and queue links may have changed. *)
Theorem process_drains fuel l s :
  ss_initialized s = true -> queue_rep (ss_heap s) (ss_ready_queue s) l ->
  (forall p, p ∈ l -> takeable (ss_heap s) p) -> sfr_in_range s = true -> (length l <= fuel)%nat ->
  exists s', mvgal_scheduler_process_internal fuel s = Ret (MVGAL_SUCCESS, s') /\ drained s s' l.
Proof.
  intros Hi Hrep Hl Hr Hf. destruct (process_loop_drains fuel l s Hrep Hl Hr Hf) as (s' & Hrun & Hd).
  exists s'. split; [|done]. unfold mvgal_scheduler_process_internal.
  rewrite get_bind, Hi. cbn [negb]. by rewrite (bind_ret _ _ _ _ _ Hrun).
Qed.

Lemma process_loop_stuck fuel l s :
  queue_rep (ss_heap s) (ss_ready_queue s) l -> l <> [] ->
  (forall p, p ∈ l -> prio (ss_heap s) p <= 0) -> process_loop fuel s = NoFuel.
Proof.
  intros Hrep Hne Hp.
  destruct (dequeue_priority_cases _ _ _ Hrep)
    as [[Hrun _]|(l1 & b & l2 & h' & q' & w & -> & _ & Hb & _)].
  2: { specialize (Hp b ltac:(set_solver)). lia. }
  assert (Hq : q_count (ss_ready_queue s) <=? 0 = false).
  { rewrite (qr_count _ _ _ Hrep). destruct l; [done|]. by apply Z.leb_gt. }
  assert (Hsame : on_ready mvgal_workload_dequeue_priority s = Ret (None, s)).
  { rewrite (on_ready_ret _ _ _ _ _ Hrun). by destruct s. }
  induction fuel as [|fuel IH]; simpl; rewrite Hq; [done|].
  by rewrite (bind_ret _ _ _ _ _ Hsame).
Qed.

(** Processing a ready queue that holds only workloads of priority 0
    never returns, whatever the number of passes: removal by priority starts
    from a best priority of 0 and so never selects them, while the loop waits
    for the count to drop. *)
Theorem process_priority_zero_diverges fuel l s :
  ss_initialized s = true -> queue_rep (ss_heap s) (ss_ready_queue s) l -> l <> [] ->
  (forall p, p ∈ l -> prio (ss_heap s) p = 0) ->
  mvgal_scheduler_process_internal fuel s = NoFuel.
Proof.
  intros Hi Hrep Hne Hp. unfold mvgal_scheduler_process_internal.
  rewrite get_bind, Hi. cbn [negb]. unfold mbind, SM_bind, M_bind.
  rewrite (process_loop_stuck fuel l s Hrep Hne); [done|]. intros p Hin. by rewrite Hp.
Qed.

(** ** Submission *)

(** The workload a submission queues, and its scheduler just before. *)
Definition submitted_workload (context callback : option addr)
  (info : mvgal_workload_submit_info_t) (s : mvgal_scheduler_state_t) : mvgal_workload :=
  let t := clock_ns (S (ss_ticks s)) in
  (new_workload info (ss_next_workload_id s) (clock_ns (ss_ticks s)))
    <| w_context := context |> <| w_callback := callback |>
    <| w_state := MVGAL_WORKLOAD_STATE_QUEUED |> <| w_queue_time := t |>
    <| w_descriptor ::= fun d => d <| d_submission_time := t |> |>.

Definition new_addr (s : mvgal_scheduler_state_t) : addr := fresh (dom (ss_heap s)).

Definition before_queueing (context callback : option addr) (info : mvgal_workload_submit_info_t)
  (s : mvgal_scheduler_state_t) : mvgal_scheduler_state_t :=
  s <| ss_allocs ::= S |> <| ss_next_workload_id ::= fun n => u64 (n + 1) |>
    <| ss_ticks ::= fun n => S (S n) |>
    <| ss_heap ::= <[new_addr s := submitted_workload context callback info s]> |>.

Lemma create_ok info s :
  alloc_ok (ss_allocs s) = true ->
  mvgal_workload_create_internal info s
  = Ret (Some (new_addr s),
         s <| ss_allocs ::= S |> <| ss_next_workload_id ::= fun n => u64 (n + 1) |>
           <| ss_ticks ::= S |>
           <| ss_heap ::= <[new_addr s := new_workload info (ss_next_workload_id s)
                                            (clock_ns (ss_ticks s))]> |>).
Proof.
  intros Ha. unfold mvgal_workload_create_internal.
  rewrite (bind_ret calloc _ s true (s <| ss_allocs ::= S |>)) by (unfold calloc; by rewrite Ha).
  destruct s. reflexivity.
Qed.

Lemma queue_rep_empty h : queue_rep h queue_empty [].
Proof. split; try done. constructor. Qed.

Lemma finished_facts w w' : finished w w' ->
  w_state w' = MVGAL_WORKLOAD_STATE_COMPLETED /\ w_completion_signaled w' = true
  /\ w_completion_status w' = MVGAL_SUCCESS /\ w_refcount w' = u32 (w_refcount w - 1)
  /\ d_id (w_descriptor w') = d_id (w_descriptor w).
Proof.
  intros [now Hf].
  split_and!; [exact (f_equal w_state Hf)|exact (f_equal w_completion_signaled Hf)
    |exact (f_equal w_completion_status Hf)|exact (f_equal w_refcount Hf)|].
  exact (f_equal (fun w => d_id (w_descriptor w)) Hf).
Qed.

(** The submission up to the processing of the queue. *)
Lemma submit_queues fuel context callback info s :
  ss_initialized s = true -> ss_thread_running s = false -> ss_ready_queue s = queue_empty ->
  alloc_ok (ss_allocs s) = true ->
  exists s1, submit_common fuel context callback info s
      = (err ← mvgal_scheduler_process_internal fuel;
         if negb (is_success err) then mret (err, None) else mret (MVGAL_SUCCESS, Some (new_addr s))) s1
    /\ queue_rep (ss_heap s1) (ss_ready_queue s1) [new_addr s]
    /\ content (ss_heap s1)
       = <[new_addr s := unlinked (retained (submitted_workload context callback info s))]>
           (content (ss_heap s))
    /\ idle s1 = idle (before_queueing context callback info s)
    /\ ss_stats s1 = (ss_stats s) <| st_workloads_submitted ::= fun n => u64 (n + 1) |>
    /\ ss_called s1 = ss_called s /\ ss_afr s1 = ss_afr s.
Proof.
  intros Hi Ht Hq Ha. set (p := new_addr s). set (b := before_queueing context callback info s).
  assert (Hp : ss_heap b !! p = Some (submitted_workload context callback info s))
    by apply lookup_insert_eq.
  destruct (enqueue_spec (ss_heap b) queue_empty [] p (submitted_workload context callback info s))
    as (h' & q' & Hrun & Hrep & Hc); [apply queue_rep_empty|by apply not_elem_of_nil|exact Hp|done|].
  exists (b <| ss_heap := h' |> <| ss_ready_queue := q' |>
            <| ss_stats ::= fun st => st <| st_workloads_submitted ::= fun n => u64 (n + 1) |> |>).
  split_and!; [|done| |done|done|done|done].
  - unfold submit_common. rewrite get_bind, Hi.
    rewrite (bind_ret (mret MVGAL_SUCCESS) _ s MVGAL_SUCCESS s eq_refl). cbn [is_success negb].
    rewrite (bind_ret _ _ _ _ _ (create_ok info s Ha)).
    rewrite (bind_ret get_time_ns _ _ _ _ eq_refl).
    match goal with |- context [ (update _ _ ≫= _) ?x ] => set (s0 := x) end.
    assert (E0 : ss_heap s0 !! p = Some (new_workload info (ss_next_workload_id s) (clock_ns (ss_ticks s))))
      by apply lookup_insert_eq.
    rewrite (bind_ret _ _ _ _ _ (update_ok _ _ _ _ E0)).
    match goal with |- context [ (on_ready _ ≫= _) ?x ] => assert (x = b) as -> end.
    { unfold s0, b, before_queueing. destruct s. cbn. f_equal. apply insert_insert_eq. }
    rewrite (bind_ret _ _ _ _ _ (on_ready_ret _ b _ _ _ ltac:(unfold b; cbn; rewrite Hq; exact Hrun))).
    cbn [is_success negb]. rewrite modify_bind, get_bind.
    cbn [ss_thread_running upd b before_queueing]. by rewrite Ht.
  - cbn [ss_heap upd]. rewrite Hc. unfold b, before_queueing. cbn [ss_heap upd].
    rewrite content_insert. apply insert_insert_eq.
Qed.

(** C11. Submitting a workload is synchronous: on an initialized scheduler
    with an empty ready queue and no scheduler thread, submitting a workload
    of positive priority when memory is available returns success and a new
    handle.  By then the workload is completed with status success, the only
    reference left is the caller's, its id is the next one of the scheduler,
    the callback, if any, ran exactly once with the caller's data, the queue
    is empty again, both counters grew by one, and no other workload changed. *)
Theorem submit_completes fuel context callback info s :
  ss_initialized s = true -> ss_thread_running s = false -> ss_ready_queue s = queue_empty ->
  alloc_ok (ss_allocs s) = true -> 0 < si_priority info -> sfr_in_range s = true ->
  (1 <= fuel)%nat ->
  exists p s' w,
    mvgal_workload_submit_with_callback fuel context (Some info) callback true s
      = Ret ((MVGAL_SUCCESS, Some p), s')
    /\ ss_heap s !! p = None /\ ss_heap s' !! p = Some w
    /\ w_state w = MVGAL_WORKLOAD_STATE_COMPLETED /\ w_completion_signaled w = true
    /\ w_completion_status w = MVGAL_SUCCESS /\ w_refcount w = 1
    /\ d_id (w_descriptor w) = u32 (ss_next_workload_id s)
    /\ ss_called s' = ss_called s ++
         match callback with Some f => [(f, MVGAL_SUCCESS, si_user_data info)] | None => [] end
    /\ ss_ready_queue s' = queue_empty
    /\ st_workloads_submitted (ss_stats s') = u64 (st_workloads_submitted (ss_stats s) + 1)
    /\ u64 (st_workloads_completed (ss_stats s')) = u64 (st_workloads_completed (ss_stats s) + 1)
    /\ (forall q, q <> p -> content (ss_heap s') !! q = content (ss_heap s) !! q).
Proof.
  intros Hi Ht Hq Ha Hpr Hr Hf.
  destruct (submit_queues fuel context callback info s Hi Ht Hq Ha)
    as (s1 & Hsub & Hrep & Hc & Hidle & Hst & Hca & _).
  set (p := new_addr s) in *. set (sw := submitted_workload context callback info s) in *.
  assert (Hw : content (ss_heap s1) !! p = Some (unlinked (retained sw)))
    by (rewrite Hc; apply lookup_insert_eq).
  destruct (process_loop_drains fuel [p] s1 Hrep) as (s' & Hrun & [Hdq (order & [Hperm _] & Hdc) Hcnt Hsb%(f_equal st_workloads_submitted) Hoth Hdone _]);
    [|by rewrite (idle_in_range _ _ Hidle)|done|].
  { intros q ->%list_elem_of_singleton. exists (unlinked (retained sw)). by split. }
  apply Permutation_singleton_r in Hperm as ->.
  destruct (Hdone p _ ltac:(by left) Hw) as (w' & Hw' & Hfin).
  apply finished_facts in Hfin as (F1 & F2 & F3 & F4 & F5).
  rewrite content_lookup in Hw'. destruct (ss_heap s' !! p) as [w|] eqn:E; [|done].
  injection Hw' as <-. exists p, s', w. split_and!; try done.
  - assert (Hrun' : mvgal_scheduler_process_internal fuel s1 = Ret (MVGAL_SUCCESS, s')).
    { unfold mvgal_scheduler_process_internal. rewrite get_bind.
      rewrite (f_equal ss_initialized Hidle : ss_initialized s1 = ss_initialized s), Hi.
      cbn [negb]. by rewrite (bind_ret _ _ _ _ _ Hrun). }
    assert (Hcommon : submit_common fuel context callback info s = Ret ((MVGAL_SUCCESS, Some p), s'))
      by (rewrite Hsub; by rewrite (bind_ret _ _ _ _ _ Hrun')).
    destruct callback; [|exact Hcommon]. unfold mvgal_workload_submit_with_callback.
    by rewrite (bind_ret _ _ _ _ _ Hcommon).
  - apply not_elem_of_dom_1. exact (is_fresh (dom (ss_heap s))).
  - rewrite Hdc, Hca. f_equal. cbn [mbind list_bind]. rewrite notified_content, Hw, app_nil_r.
    by destruct callback.
  - cbn in Hsb. by rewrite Hsb, Hst.
  - by rewrite Hcnt, Hst.
  - intros q Hne. rewrite Hoth by set_solver. rewrite Hc. by rewrite lookup_insert_ne.
Qed.
End Claims.

(** ** Concrete runs *)

Module TwoJobs.
#[local] Existing Instance plenty.
Import TwoGpus.

(** Two queued compute jobs, the second more urgent, on the two GPUs of
    [TwoGpus]; the second one has a callback. *)
Definition first_job : mvgal_workload := job <| w_next := Some 2%positive |>.
Definition second_job : mvgal_workload :=
  job <| w_prev := Some 1%positive |> <| w_callback := Some 9%positive |>
      <| w_descriptor ::= fun d => d <| d_priority := 60 |> |>.
Definition busy : mvgal_scheduler_state_t :=
  state <| ss_heap := {[1%positive := first_job; 2%positive := second_job]} |>
        <| ss_ready_queue := mk_queue (Some 1%positive) (Some 2%positive) 2 65 |>.

Lemma busy_rep : queue_rep (ss_heap busy) (ss_ready_queue busy) [1; 2]%positive.
Proof.
  split; try done.
  - by apply (bool_decide_eq_true_1 (NoDup [1; 2]%positive)).
  - split; [by exists first_job|]. split; [by exists second_job|done].
Qed.

Lemma dispatchable_job : dispatchable (unlinked first_job) /\ dispatchable (unlinked second_job).
Proof. split; (split; [cbn; unfold U32_MAX; lia|split; [done|cbn; lia]]). Qed.

Lemma process_drains_witness :
  exists s', mvgal_scheduler_process_internal 2 busy = Ret (MVGAL_SUCCESS, s')
    /\ drained busy s' [1; 2]%positive.
Proof.
  apply process_drains; [done|apply busy_rep| |vm_compute; reflexivity|simpl; lia].
  intros p Hp. apply elem_of_cons in Hp as [->|Hp%list_elem_of_singleton].
  - exists (unlinked first_job). split; [done|]. split; [apply dispatchable_job|done].
  - subst p. exists (unlinked second_job). split; [done|]. split; [apply dispatchable_job|done].
Defined.

(** The same job with priority 0, alone in the queue. *)
Definition idle_job : mvgal_workload :=
  job <| w_descriptor ::= fun d => d <| d_priority := 0 |> |>.
Definition stuck : mvgal_scheduler_state_t :=
  state <| ss_heap := {[1%positive := idle_job]} |>
        <| ss_ready_queue := mk_queue (Some 1%positive) (Some 1%positive) 1 0 |>.

Lemma process_priority_zero_diverges_witness :
  mvgal_scheduler_process_internal 1000 stuck = NoFuel.
Proof.
  apply (process_priority_zero_diverges 1000 [1%positive] stuck); [done| |done|].
  - split; try done; [by apply NoDup_singleton|]. split; [by exists idle_job|done].
  - by intros p ->%list_elem_of_singleton.
Defined.

Definition video_job : mvgal_workload_submit_info_t :=
  mk_info MVGAL_WORKLOAD_VIDEO 10 0 ANY_GPU_MASK 0 None (Some 8%positive).

Lemma submit_completes_witness :
  exists p s' w,
    @mvgal_workload_submit_with_callback GpuHealth.TwoCards.os plenty 1 None (Some video_job)
      (Some 9%positive) true state = Ret ((MVGAL_SUCCESS, Some p), s')
    /\ ss_heap s' !! p = Some w /\ w_state w = MVGAL_WORKLOAD_STATE_COMPLETED
    /\ ss_called s' = [(9%positive, MVGAL_SUCCESS, Some 8%positive)].
Proof.
  destruct (@submit_completes GpuHealth.TwoCards.os plenty 1 None (Some 9%positive) video_job state)
    as (p & s' & w & H1 & _ & H2 & H3 & _ & _ & _ & _ & H4 & _);
    [done|done|done|done|done|vm_compute; reflexivity|lia|].
  exists p, s', w. split_and!; [exact H1|exact H2|exact H3|exact H4].
Defined.
End TwoJobs.
