(* ===== verification/LoadBalancer.v ===== *)
(** * The load balancer

    src/userspace/scheduler/load_balancer.c: utilization tracking, the
    rebalancing of GPU priorities and the load-factor recommendations. *)

From S2P Require Import Prelude Float32 GpuTypes GpuManager SchedTypes SchedSelect Scheduler.
Local Open Scope Z_scope.

Section LoadBalancer.
Context `{GpuOS}.

Definition clamp_unit (u : f32) : f32 :=
  let u := if flt u f0 then f0 else u in
  if fgt u f1 then f1 else u.

Definition smooth (old new : f32) : f32 := fadd (fmul old (flit 7 10)) (fmul new (flit 3 10)).

Definition update_gpu_utilization (index : Z) (s : mvgal_scheduler_state_t)
  : mvgal_scheduler_state_t :=
  let gpu := gs_at s index in
  let '((err, util), gm) := mvgal_gpu_get_utilization index true (ss_gm s) in
  let gpu :=
    match err, util with
    | MVGAL_SUCCESS, Some util =>
        gpu <| gs_utilization ::= fun u => smooth u (fdiv util (f32_of_Z 100)) |>
    | _, _ =>
        gpu <| gs_utilization ::= fun u =>
                 smooth u (fdiv (f32_of_Z (q_count (gs_queue gpu))) (f32_of_Z 10)) |>
    end in
  let '((err, temp), gm) := mvgal_gpu_get_temperature index true gm in
  let gpu :=
    match err, temp with
    | MVGAL_SUCCESS, Some temp => gpu <| gs_temperature := temp |>
    | _, _ => gpu
    end in
  let gpu := gpu <| gs_utilization ::= clamp_unit |> in
  s <| ss_gm := gm |> <| ss_gpus ::= fun l => <[Z.to_nat index := gpu]> l |>.

(** An entry the balancer considers. *)
Definition balanced (s : mvgal_scheduler_state_t) (i : Z) : bool :=
  gs_available (gs_at s i) && gs_enabled (gs_at s i).

Definition utilizations (s : mvgal_scheduler_state_t) : list f32 :=
  (fun i => gs_utilization (gs_at s i)) <$> filter (fun i => Is_true (balanced s i)) (gpu_indices s).

(** The first pass: highest and lowest utilization. *)
Definition util_bounds (us : list f32) : f32 * f32 :=
  foldl (fun '(mx, mn) u => (if fgt u mx then u else mx, if flt u mn then u else mn)) (f0, f1) us.

(** The second pass: the hottest and the coolest GPU. *)
Record extremes : Type := mk_ex {
  idx_hot : Z;
  idx_cool : Z;
  util_hot : f32;
  util_cool : f32;
  active : Z
}.

#[export] Instance extremes_eta : Eta extremes := fun r =>
  mk_ex (idx_hot r) (idx_cool r) (util_hot r) (util_cool r) (active r).

Definition extremes_step (s : mvgal_scheduler_state_t) (e : extremes) (i : Z) : extremes :=
  if negb (balanced s i) then e else
  let u := gs_utilization (gs_at s i) in
  let e := e <| active ::= fun n => n + 1 |> in
  let e := if fgt u (util_hot e) then e <| util_hot := u |> <| idx_hot := i |> else e in
  if flt u (util_cool e) then e <| util_cool := u |> <| idx_cool := i |> else e.

Definition find_extremes (s : mvgal_scheduler_state_t) : extremes :=
  foldl (extremes_step s) (mk_ex 0 0 (f32_of_Z (-1)) (f32_of_Z 2) 0) (gpu_indices s).

Definition BALANCE_STEP : Z := 3.

Definition lower_priority (p : Z) : Z := if BALANCE_STEP + 10 <? p then p - BALANCE_STEP else 10.
Definition raise_priority (p : Z) : Z :=
  if u32 (p + BALANCE_STEP) <? 100 then u32 (p + BALANCE_STEP) else 100.

Definition refresh_utilization (s : mvgal_scheduler_state_t) : mvgal_scheduler_state_t :=
  foldl (fun s i => update_gpu_utilization i s) s (gpu_indices s).

Definition mvgal_scheduler_balance_load (s : mvgal_scheduler_state_t)
  : mvgal_scheduler_state_t :=
  if negb (cfg_dynamic_load_balance (ss_config s)) then s else
  let s := refresh_utilization s in
  let '(max_util, min_util) := util_bounds (utilizations s) in
  if fgt (fsub max_util min_util) (cfg_load_balance_threshold (ss_config s)) then
    let e := find_extremes s in
    if (2 <=? active e) && negb (idx_hot e =? idx_cool e)
       && fgt (fsub (util_hot e) (util_cool e)) (flit 5 100)
    then
      let pri_hot := lower_priority (gs_priority (gs_at s (idx_hot e))) in
      let pri_cool := raise_priority (gs_priority (gs_at s (idx_cool e))) in
      store_priority (idx_cool e) pri_cool (store_priority (idx_hot e) pri_hot s)
    else s
  else s.

(** ** Recommendations *)

Definition load_factor (gpu_index : Z) (s : mvgal_scheduler_state_t)
  : f32 * mvgal_scheduler_state_t :=
  if ss_gpu_count s <=? gpu_index then (f0, s) else
  let gpu := gs_at s gpu_index in
  let base_util := fsub f1 (gs_utilization gpu) in
  let '((err, desc), gm) := mvgal_gpu_get_descriptor gpu_index true (ss_gm s) in
  let capacity_weight :=
    match err, desc with
    | MVGAL_SUCCESS, Some d =>
        let c := fdiv (g_compute_score d) (f32_of_Z 50) in
        if flt c (flit 1 10) then flit 1 10 else c
    | _, _ => f1
    end in
  let factor := fmul base_util capacity_weight in
  let factor :=
    if cfg_thermal_aware (ss_config s) && fgt (gs_temperature gpu) (f32_of_Z 60) then
      let penalty := fdiv (fsub (gs_temperature gpu) (f32_of_Z 60)) (f32_of_Z 25) in
      let penalty := if fgt penalty (flit 9 10) then flit 9 10 else penalty in
      fmul factor (fsub f1 penalty)
    else factor in
  (factor, s <| ss_gm := gm |>).

Fixpoint load_factors (indices : list Z) (s : mvgal_scheduler_state_t)
  : list f32 * mvgal_scheduler_state_t :=
  match indices with
  | [] => ([], s)
  | i :: rest =>
      let '(f, s) := load_factor i s in
      let '(fs, s) := load_factors rest s in
      (f :: fs, s)
  end.

(** [indices] are the first [gpu_count] entries of the caller's array. *)
Definition load_balancer_get_recommendation (workload : option addr) (indices : option (list Z))
  (recommendation : bool) (s : mvgal_scheduler_state_t)
  : (mvgal_error_t * option (list f32)) * mvgal_scheduler_state_t :=
  match workload, indices with
  | Some _, Some l =>
      if (length l =? 0)%nat || negb recommendation
      then ((MVGAL_ERROR_INVALID_ARGUMENT, None), s) else
      let '(fs, s) := load_factors l s in ((MVGAL_SUCCESS, Some fs), s)
  | _, _ => ((MVGAL_ERROR_INVALID_ARGUMENT, None), s)
  end.

(** The selection loop over the recommendations. *)
Definition best_recommendation (l : list (f32 * Z)) : option Z :=
  snd <$> (argmax false (fun r => Some r.1) (f32_of_Z (-1)) l).2.

(** The recommendations go to an array of [MVGAL_SCHEDULER_MAX_GPUS]
    entries on the stack, which more indices overflow.  [*selected_gpu] is
    what the call stores. *)
Definition load_balancer_select_gpu (workload : option addr) (indices : option (list Z))
  (selected_gpu : bool) : SM (mvgal_error_t * option Z) := fun s =>
  match workload, indices with
  | Some _, Some l =>
      if (length l =? 0)%nat || negb selected_gpu
      then Ret ((MVGAL_ERROR_INVALID_ARGUMENT, None), s) else
      if (16 <? length l)%nat then Fault OutOfBounds else
      let '(fs, s) := load_factors l s in
      let selected := default NO_GPU (best_recommendation (zip fs l)) in
      if selected =? NO_GPU then Ret ((MVGAL_ERROR_NO_GPUS, Some NO_GPU), s)
      else Ret ((MVGAL_SUCCESS, Some selected), s)
  | _, _ => Ret ((MVGAL_ERROR_INVALID_ARGUMENT, None), s)
  end.

(** ** Sensor values *)

Definition with_gpu (gpu_index : Z) (f : mvgal_gpu_state_t -> mvgal_gpu_state_t)
  (s : mvgal_scheduler_state_t) : mvgal_scheduler_state_t :=
  if ss_gpu_count s <=? gpu_index then s
  else s <| ss_gpus ::= alter f (Z.to_nat gpu_index) |>.

Definition load_balancer_update_temperature (gpu_index : Z) (temperature_c : f32) :=
  with_gpu gpu_index (fun g => g <| gs_temperature := temperature_c |>).

Definition load_balancer_update_power (gpu_index : Z) (power_w : f32) :=
  with_gpu gpu_index (fun g => g <| gs_power_usage_w := power_w |>).

Definition load_balancer_get_gpu_load (gpu_index : Z) (utilization temperature power_w : bool)
  (s : mvgal_scheduler_state_t)
  : mvgal_error_t * option (option f32 * option f32 * option f32) :=
  if (ss_gpu_count s <=? gpu_index) || negb (utilization || temperature || power_w)
  then (MVGAL_ERROR_INVALID_ARGUMENT, None) else
  let gpu := gs_at s gpu_index in
  (MVGAL_SUCCESS,
   Some (if utilization then Some (fmul (gs_utilization gpu) (f32_of_Z 100)) else None,
         if temperature then Some (gs_temperature gpu) else None,
         if power_w then Some (gs_power_usage_w gpu) else None)).

End LoadBalancer.
