(* ===== verification/SchedInvariant.v ===== *)
(** * The scheduler invariant

    The state machine of the whole scheduler: every public operation of
    Scheduler.v and LoadBalancer.v as a step, and the invariant all reachable
    states satisfy. *)

From S2P Require Import Prelude Float32 GpuTypes GpuManager GpuHealth SchedTypes WorkQueue SchedSelect.
From S2P Require Import Strategies SfrTiling Scheduler LoadBalancer.
Local Open Scope Z_scope.

Definition in_unit (u : f32) : Prop := flt u f0 = false /\ fgt u f1 = false.
Definition is_priority (p : Z) : Prop := 0 <= p <= 100.

(** The two copies of the GPU priorities agree and stay within 0..100, the
    tables have their size, utilizations stay within 0..1 and the GPU manager
    is well formed. *)
Record sched_wf (s : mvgal_scheduler_state_t) : Prop := {
  wf_gpus : length (ss_gpus s) = 16%nat;
  wf_count : 0 <= ss_gpu_count s <= 16;
  wf_sync : gs_priority <$> ss_gpus s = cfg_gpu_priorities (ss_config s);
  wf_range : Forall is_priority (cfg_gpu_priorities (ss_config s));
  wf_util : Forall (fun g => in_unit (gs_utilization g)) (ss_gpus s);
  wf_gm : gm_wf (ss_gm s)
}.

(** The invariant only looks at these parts. *)
Lemma sched_wf_frame s s' :
  ss_gpus s' = ss_gpus s -> ss_gpu_count s' = ss_gpu_count s ->
  cfg_gpu_priorities (ss_config s') = cfg_gpu_priorities (ss_config s) -> ss_gm s' = ss_gm s ->
  sched_wf s -> sched_wf s'.
Proof. intros H1 H2 H3 H4 [A B C D E F]. by split; rewrite ?H1, ?H2, ?H3, ?H4. Qed.

(** ** Operations that keep the invariant *)

Definition keeps {A} (m : SM A) : Prop :=
  forall s a s', sched_wf s -> m s = Ret (a, s') -> sched_wf s'.

Create HintDb keeps discriminated.

Lemma keeps_ret {A} (a : A) : keeps (mret a).
Proof. intros s b s' Hw E. by injection E as <- <-. Qed.

Lemma keeps_bind {A B} (m : SM A) (k : A -> SM B) : keeps m -> (forall a, keeps (k a)) -> keeps (m ≫= k).
Proof.
  intros Hm Hk s b s2 Hw E. apply bind_inv in E as (a & s1 & E1 & E2).
  eapply Hk; [|exact E2]. by eapply Hm.
Qed.

Lemma keeps_fails {A} e : keeps (A := A) (fails e).
Proof. by intros s a s' Hw E. Qed.

Lemma keeps_nofuel {A} : keeps (A := A) (fun _ => NoFuel).
Proof. by intros s a s' Hw E. Qed.

Lemma keeps_get : keeps get.
Proof. intros s a s' Hw E. by injection E as <- <-. Qed.

Lemma keeps_modify f : (forall s, sched_wf s -> sched_wf (f s)) -> keeps (modify f).
Proof. intros Hf s a s' Hw E. injection E as <- <-. auto. Qed.

Lemma keeps_deref p : keeps (deref p).
Proof. intros s a s' Hw. unfold deref. by destruct (ss_heap s !! p); intros [= <- <-]. Qed.

Lemma keeps_update p f : keeps (update p f).
Proof.
  intros s a s' Hw. unfold update. destruct (ss_heap s !! p); [|done]. intros [= <- <-].
  by eapply sched_wf_frame; [..|exact Hw].
Qed.

(** Reading the state, then continuing from it. *)
Lemma keeps_get_bind {B} (k : mvgal_scheduler_state_t -> SM B) :
  (forall s b s', sched_wf s -> k s s = Ret (b, s') -> sched_wf s') -> keeps (get ≫= k).
Proof. intros Hk s b s' Hw E. by eapply Hk. Qed.

Lemma keeps_if {A} (b : bool) (m1 m2 : SM A) : keeps m1 -> keeps m2 -> keeps (if b then m1 else m2).
Proof. by destruct b. Qed.

Ltac frame := by (eapply sched_wf_frame; [..|eassumption]).

#[export] Hint Resolve keeps_ret keeps_fails keeps_nofuel keeps_get keeps_deref keeps_update : keeps.

(** Walks through a sequence of operations. *)
Ltac keep :=
  repeat first
    [ progress auto with keeps
    | apply keeps_bind; [|intros ?]
    | apply keeps_modify; intros ? ?; frame
    | match goal with |- keeps (match ?x with _ => _ end) => destruct x end ].

Section Keeps.
Context `{GpuOS, SchedEnv}.

Lemma keeps_time : keeps get_time_ns.
Proof. intros s a s' Hw [= <- <-]. frame. Qed.

Lemma keeps_calloc : keeps calloc.
Proof. intros s a s' Hw [= <- <-]. frame. Qed.

Lemma keeps_on_ready {A} (m : QM A) : keeps (on_ready m).
Proof.
  intros s a s' Hw. unfold on_ready. destruct (m _) as [[x [h q]]| |]; [|done..].
  intros [= <- <-]. frame.
Qed.
#[local] Hint Resolve keeps_time keeps_calloc keeps_on_ready : keeps.

Lemma keeps_find_best p : keeps (mvgal_scheduler_find_best_gpu p).
Proof. unfold mvgal_scheduler_find_best_gpu. keep. Qed.

Lemma keeps_task p : keeps (mvgal_scheduler_distribute_task p).
Proof. unfold mvgal_scheduler_distribute_task. keep. Qed.
#[local] Hint Resolve keeps_find_best keeps_task : keeps.

Lemma keeps_on_afr {A} (f : afr_state -> A * afr_state) : keeps (on_afr f).
Proof. intros s a s' Hw. unfold on_afr. destruct (f _). intros [= <- <-]. frame. Qed.
#[local] Hint Resolve keeps_on_afr : keeps.

Lemma keeps_afr p : keeps (mvgal_scheduler_distribute_afr p).
Proof. unfold mvgal_scheduler_distribute_afr. keep. Qed.

Lemma keeps_free p : keeps (free_strategy_data p).
Proof. unfold free_strategy_data. keep. Qed.
#[local] Hint Resolve keeps_free : keeps.

Lemma keeps_create_split fuel p width height mode ws :
  keeps (sfr_create_split_data fuel p width height mode ws).
Proof. unfold sfr_create_split_data. keep. Qed.
#[local] Hint Resolve keeps_create_split : keeps.

Lemma keeps_sfr p : keeps (mvgal_scheduler_distribute_sfr p).
Proof. unfold mvgal_scheduler_distribute_sfr. keep. Qed.
#[local] Hint Resolve keeps_afr keeps_sfr : keeps.

Lemma keeps_destroy p : keeps (mvgal_workload_destroy_internal p).
Proof. unfold mvgal_workload_destroy_internal. keep. Qed.
#[local] Hint Resolve keeps_destroy : keeps.

Lemma keeps_release p : keeps (mvgal_workload_release p).
Proof. unfold mvgal_workload_release. keep. Qed.

Lemma keeps_complete p r : keeps (mvgal_workload_complete p r).
Proof. unfold mvgal_workload_complete. keep. Qed.

Lemma keeps_apply p : keeps (mvgal_scheduler_apply_strategy p).
Proof. unfold mvgal_scheduler_apply_strategy. keep. Qed.
#[local] Hint Resolve keeps_release keeps_complete keeps_apply : keeps.

Lemma keeps_dispatch p : keeps (dispatch p).
Proof. unfold dispatch. keep. Qed.
#[local] Hint Resolve keeps_dispatch : keeps.

Lemma keeps_loop fuel : keeps (process_loop fuel).
Proof.
  induction fuel as [|fuel IH]; intros s a s' Hw; simpl;
    destruct (_ <=? 0); [by intros [= <- <-]|done|by intros [= <- <-]|].
  revert s a s' Hw. change (keeps (workload ← on_ready mvgal_workload_dequeue_priority;
    match workload with Some p => dispatch p | None => mret tt end;; process_loop fuel)). keep.
Qed.
#[local] Hint Resolve keeps_loop : keeps.

Lemma keeps_process fuel : keeps (mvgal_scheduler_process_internal fuel).
Proof. unfold mvgal_scheduler_process_internal. keep. Qed.

Lemma keeps_create info : keeps (mvgal_workload_create_internal info).
Proof. unfold mvgal_workload_create_internal. keep. Qed.
#[local] Hint Resolve keeps_process keeps_create : keeps.

(** ** Module lifetime *)

Definition reset_entry (g : mvgal_gpu_state_t) : Prop := gs_priority g = 50 /\ gs_utilization g = f0.

Lemma reset_entries l : length l = 16%nat -> Forall reset_entry l ->
  gs_priority <$> l = replicate 16 50 /\ Forall (fun g => in_unit (gs_utilization g)) l.
Proof.
  intros Hlen Hall. split.
  - rewrite <-Hlen. clear Hlen. induction Hall as [|g l [Hg _] _ IH]; [done|]. simpl. by rewrite Hg, <-IH.
  - eapply Forall_impl; [exact Hall|]. intros g [_ ->]. by split.
Qed.

Lemma overwrite_length {A} (l old : list A) :
  (length l <= length old)%nat -> length (overwrite l old) = length old.
Proof. intros Hl. unfold overwrite. rewrite length_app, length_drop. lia. Qed.

Lemma Forall_overwrite {A} (P : A -> Prop) l old :
  Forall P l -> Forall P old -> Forall P (overwrite l old).
Proof. intros H1 H2. unfold overwrite. apply Forall_app. split; [done|by apply Forall_drop]. Qed.

Lemma loaded_entries ds l :
  Forall reset_entry l -> Forall reset_entry (zip_with gpu_state_load ds l).
Proof.
  intros Hl. revert ds. induction Hl as [|g l [H1 H2] _ IH]; intros [|d ds]; try constructor; [by split|].
  apply IH.
Qed.

Lemma init_entries l : Forall reset_entry (gpu_state_init <$> l).
Proof. apply Forall_fmap, Forall_true. by split. Qed.

Lemma u32_16 z : 0 <= z <= 16 -> u32 z = z.
Proof. intros Hz. unfold u32. apply Z.mod_small. lia. Qed.

(** A state whose tables were just reset. *)
Lemma reset_wf s :
  length (ss_gpus s) = 16%nat -> Forall reset_entry (ss_gpus s) -> 0 <= ss_gpu_count s <= 16 ->
  cfg_gpu_priorities (ss_config s) = replicate 16 50 -> gm_wf (ss_gm s) -> sched_wf s.
Proof.
  intros Hlen Hall Hc Hp Hgm. destruct (reset_entries _ Hlen Hall) as [H1 H2].
  split; [done|done|congruence| |done|done]. rewrite Hp. apply Forall_replicate. unfold is_priority. lia.
Qed.

Lemma enumerate_bounds gm : gm_wf gm ->
  let r := mvgal_gpu_enumerate true 16 gm in
  (length r.1.1 <= 16)%nat /\ 0 <= r.1.2 <= 16 /\ gm_wf r.2.
Proof.
  intros Hgm. apply ensure_wf in Hgm as Hgm'. destruct (Hgm') as [[Hl _ Hc _] _ _ _].
  unfold mvgal_gpu_enumerate, manager_op. cbn [negb orb Z.eqb].
  set (g := ensure_gpu_manager_initialized gm) in *. cbn [fst snd].
  unfold MAX_GPUS in Hl. rewrite length_take. destruct (Z.ltb_spec 16 (gm_gpu_count g)); split_and!; (lia || done).
Qed.

Lemma module_reset_fields s :
  ss_gpus (module_reset s) = gpu_state_init <$> ss_gpus s /\ ss_gpu_count (module_reset s) = 0
  /\ ss_config (module_reset s) = default_config /\ ss_gm (module_reset s) = ss_gm s.
Proof. by destruct s. Qed.

Lemma load_gpus_wf s :
  length (ss_gpus s) = 16%nat -> Forall reset_entry (ss_gpus s) ->
  cfg_gpu_priorities (ss_config s) = replicate 16 50 -> gm_wf (ss_gm s) ->
  sched_wf (module_load_gpus s).
Proof.
  intros Hl Hr Hp Hgm. pose proof (enumerate_bounds _ Hgm) as He. cbv zeta in He.
  unfold module_load_gpus. destruct (mvgal_gpu_enumerate true 16 (ss_gm s)) as [[ds n] gm2].
  cbn [fst snd] in He. destruct He as (Hds & Hn & Hgm2).
  apply reset_wf; cbn [ss_gpus ss_gpu_count ss_config ss_gm upd]; [| |by rewrite u32_16|done|done].
  - rewrite overwrite_length; [done|]. rewrite length_zip_with. lia.
  - apply Forall_overwrite; [by apply loaded_entries|done].
Qed.

Lemma initialized_wf s : sched_wf s -> sched_wf (s <| ss_initialized := true |>).
Proof. intros Hw. frame. Qed.

(** The part of initialization after the reset. *)
Lemma init_tail_wf r :
  length (ss_gpus r) = 16%nat -> Forall reset_entry (ss_gpus r) -> ss_gpu_count r = 0 ->
  cfg_gpu_priorities (ss_config r) = replicate 16 50 -> gm_wf (ss_gm r) ->
  let '(gpu_count, gm) := mvgal_gpu_get_count (ss_gm r) in
  sched_wf (if 0 <? gpu_count then module_load_gpus (r <| ss_gm := gm |>) else r <| ss_gm := gm |>).
Proof.
  intros Hl Hr Hc Hp Hgm. apply ensure_wf in Hgm. unfold mvgal_gpu_get_count, manager_op.
  set (gm := ensure_gpu_manager_initialized (ss_gm r)) in *. clearbody gm.
  destruct (0 <? _); [by apply load_gpus_wf|]. apply reset_wf; cbn; try done. rewrite Hc. lia.
Qed.

Lemma keeps_init : keeps mvgal_scheduler_module_init.
Proof.
  intros s a s' Hw. unfold mvgal_scheduler_module_init.
  destruct (ss_initialized s); [by intros [= <- <-]|]. destruct Hw as [Hlen _ _ _ _ Hgm].
  destruct (module_reset_fields s) as (H1 & H2 & H3 & H4).
  generalize dependent (module_reset s). intros r H1 H2 H3 H4.
  assert (Ht : let '(gpu_count, gm) := mvgal_gpu_get_count (ss_gm r) in
    sched_wf (if 0 <? gpu_count then module_load_gpus (r <| ss_gm := gm |>) else r <| ss_gm := gm |>)).
  { apply init_tail_wf; [by rewrite H1, length_fmap|rewrite H1; apply init_entries|done|by rewrite H3|].
    by rewrite H4. }
  destruct (mvgal_gpu_get_count (ss_gm r)) as [n gm].
  intros E. apply (f_equal (fun o => match o with Ret (_, x) => x | _ => s end)) in E.
  rewrite <-E. by apply initialized_wf.
Qed.
#[local] Hint Resolve keeps_init : keeps.

Lemma keeps_shutdown : keeps mvgal_scheduler_module_shutdown.
Proof.
  intros s a s' Hw. unfold mvgal_scheduler_module_shutdown.
  destruct (ss_initialized s), (ss_thread_running s); intros [= <- <-]; first [done|frame].
Qed.

(** ** The workload API *)

Lemma keeps_submit fuel context info cb out :
  keeps (mvgal_workload_submit_with_callback fuel context info cb out).
Proof.
  assert (Hs : forall cb i, keeps (submit_common fuel context cb i))
    by (intros cb' i; unfold submit_common; keep).
  unfold mvgal_workload_submit_with_callback, mvgal_workload_submit. keep.
Qed.

Lemma keeps_cancel p : keeps (mvgal_workload_cancel p).
Proof. unfold mvgal_workload_cancel. keep. Qed.

Lemma keeps_set_priority p pri : keeps (mvgal_workload_set_priority p pri).
Proof. unfold mvgal_workload_set_priority. keep. Qed.

Lemma keeps_assign p l : keeps (mvgal_workload_assign_gpus p l).
Proof. unfold mvgal_workload_assign_gpus. keep. Qed.

Lemma keeps_register_splitter sp : keeps (mvgal_scheduler_register_splitter sp).
Proof. unfold mvgal_scheduler_register_splitter. keep. Qed.

Lemma keeps_distribute f p l : (forall q, keeps (f q)) -> keeps (distribute_with f p l).
Proof. intros Hf. unfold distribute_with. keep. Qed.

(** ** Configuration *)

Lemma configure_wf c s : sched_wf s -> sched_wf (mvgal_scheduler_configure c s).2.
Proof. intros Hw. destruct c; [|done]. cbn [snd mvgal_scheduler_configure]. frame. Qed.

Lemma fmap_insert_at (l : list mvgal_gpu_state_t) i g :
  gs_priority <$> <[i := g]> l = <[i := gs_priority g]> (gs_priority <$> l).
Proof. apply list_fmap_insert. Qed.

Lemma gs_at_elem s i : sched_wf s -> 0 <= i < 16 -> gs_at s i ∈ ss_gpus s.
Proof. intros Hw Hi. apply list_elem_of_lookup_total_2. rewrite (wf_gpus _ Hw). lia. Qed.

Lemma gs_at_util s i : sched_wf s -> 0 <= i < 16 -> in_unit (gs_utilization (gs_at s i)).
Proof. intros Hw Hi. pose proof (wf_util _ Hw) as Hu. rewrite Forall_forall in Hu. by apply Hu, gs_at_elem. Qed.

Lemma gs_at_priority s i : sched_wf s -> 0 <= i < 16 -> is_priority (gs_priority (gs_at s i)).
Proof.
  intros Hw Hi. pose proof (wf_range _ Hw) as Hr. rewrite Forall_forall in Hr. apply Hr.
  rewrite <-(wf_sync _ Hw). apply list_elem_of_fmap_2. by apply gs_at_elem.
Qed.

Lemma store_priority_wf i p s :
  0 <= i < 16 -> is_priority p -> sched_wf s -> sched_wf (store_priority i p s).
Proof.
  intros Hi Hp Hw. pose proof (gs_at_util s i Hw Hi). destruct Hw as [Hlen Hc Hs Hr Hu Hgm].
  split; cbn; [by rewrite length_insert|done|by rewrite fmap_insert_at, Hs|by apply Forall_insert| |done].
  by apply Forall_insert.
Qed.

Lemma set_gpu_priority_wf i p s :
  0 <= i -> 0 <= p -> sched_wf s -> sched_wf (mvgal_scheduler_set_gpu_priority i p s).2.
Proof.
  intros Hi Hp Hw. unfold mvgal_scheduler_set_gpu_priority.
  destruct (Z.leb_spec 16 i), (Z.ltb_spec 100 p); try done. cbn [orb snd].
  apply store_priority_wf; [lia|unfold is_priority; lia|done].
Qed.

(** ** Load balancing *)

Lemma clamp_in_unit u : in_unit (clamp_unit u).
Proof.
  unfold clamp_unit. destruct (flt u f0) eqn:E1; [by split|].
  destruct (fgt u f1) eqn:E2; [by split|done].
Qed.

Lemma get_indexed_wf {A} out i (read : mvgal_gpu_descriptor_t -> A) gm :
  gm_wf gm -> gm_wf (get_indexed out i read gm).2.
Proof.
  intros Hgm. unfold get_indexed, manager_op. destruct out; [|done]. cbn [negb].
  apply ensure_wf in Hgm. by destruct (_ <=? i).
Qed.

(** A new entry with the same priority and a utilization in range. *)
Lemma replace_entry_wf i g gm s :
  0 <= i < 16 -> gs_priority g = gs_priority (gs_at s i) -> in_unit (gs_utilization g) -> gm_wf gm ->
  sched_wf s -> sched_wf (s <| ss_gm := gm |> <| ss_gpus ::= fun l => <[Z.to_nat i := g]> l |>).
Proof.
  intros Hi Hp Hu Hgm [Hlen Hc Hs Hr Hut _].
  split; cbn; [by rewrite length_insert|done| |done|by apply Forall_insert|done].
  rewrite fmap_insert_at, Hp, list_insert_id; [done|].
  rewrite list_lookup_fmap. unfold gs_at. rewrite list_lookup_lookup_total_lt; [done|]. rewrite Hlen. lia.
Qed.

Lemma update_utilization_wf i s :
  0 <= i < 16 -> sched_wf s -> sched_wf (update_gpu_utilization i s).
Proof.
  intros Hi Hw. unfold update_gpu_utilization, mvgal_gpu_get_utilization, mvgal_gpu_get_temperature.
  pose proof (get_indexed_wf true i g_utilization_percent _ (wf_gm _ Hw)) as G1.
  destruct (get_indexed true i g_utilization_percent (ss_gm s)) as [[e1 u] gm1]. cbn [snd] in G1.
  pose proof (get_indexed_wf true i g_temperature_celsius _ G1) as G2.
  destruct (get_indexed true i g_temperature_celsius gm1) as [[e2 t] gm2]. cbn [snd] in G2.
  apply replace_entry_wf; [done| |apply clamp_in_unit|done|done].
  destruct e1, u, e2, t; reflexivity.
Qed.

Lemma update_all_wf l s :
  (forall i, i ∈ l -> 0 <= i < 16) -> sched_wf s ->
  sched_wf (foldl (fun s i => update_gpu_utilization i s) s l).
Proof.
  revert s. induction l as [|i l IH]; intros s Hl Hw; [done|]. simpl. apply IH.
  - intros j Hj. apply Hl. by right.
  - apply update_utilization_wf; [apply Hl; by left|done].
Qed.

Lemma extremes_bounds s l e :
  (forall i, i ∈ l -> 0 <= i < 16) -> 0 <= idx_hot e < 16 /\ 0 <= idx_cool e < 16 ->
  0 <= idx_hot (foldl (extremes_step s) e l) < 16 /\ 0 <= idx_cool (foldl (extremes_step s) e l) < 16.
Proof.
  revert e. induction l as [|i l IH]; intros e Hl He; [done|]. simpl. apply IH.
  - intros j Hj. apply Hl. by right.
  - assert (0 <= i < 16) by (apply Hl; by left). unfold extremes_step.
    destruct (negb _); [done|]. repeat (match goal with |- context [if ?b then _ else _] => destruct b end); cbn; lia.
Qed.

Lemma gpu_indices_bounds s i : sched_wf s -> i ∈ gpu_indices s -> 0 <= i < 16.
Proof. intros Hw Hi%elem_of_gpu_indices. pose proof (wf_count _ Hw). lia. Qed.

Lemma refresh_wf s : sched_wf s -> sched_wf (refresh_utilization s).
Proof. intros Hw. apply update_all_wf; [|done]. intros i. by apply gpu_indices_bounds. Qed.

Lemma lower_is_priority p : is_priority p -> is_priority (lower_priority p).
Proof. unfold is_priority, lower_priority, BALANCE_STEP. destruct (Z.ltb_spec (3 + 10) p); lia. Qed.

Lemma raise_is_priority p : is_priority (raise_priority p).
Proof.
  unfold is_priority, raise_priority. pose proof (Z.mod_pos_bound (p + BALANCE_STEP) 4294967296).
  unfold u32. destruct (Z.ltb_spec ((p + BALANCE_STEP) mod 4294967296) 100); lia.
Qed.

Lemma balance_wf s : sched_wf s -> sched_wf (mvgal_scheduler_balance_load s).
Proof.
  intros Hw. unfold mvgal_scheduler_balance_load. destruct (negb _); [done|].
  apply refresh_wf in Hw. revert Hw. generalize (refresh_utilization s). clear s. intros s Hw. destruct (util_bounds _) as [mx mn]. destruct (fgt _ _); [|done].
  destruct (extremes_bounds s (gpu_indices s) (mk_ex 0 0 (f32_of_Z (-1)) (f32_of_Z 2) 0)) as [Hh Hc];
    [intros i; by apply gpu_indices_bounds|cbn; lia|].
  fold (find_extremes s) in Hh, Hc. cbv zeta. destruct (_ && _); [|done].
  apply store_priority_wf; [done|apply raise_is_priority|].
  apply store_priority_wf; [done| |done]. by apply lower_is_priority, gs_at_priority.
Qed.

Lemma with_gpu_wf i f s :
  (forall g, gs_priority (f g) = gs_priority g) -> (forall g, gs_utilization (f g) = gs_utilization g) ->
  sched_wf s -> sched_wf (with_gpu i f s).
Proof.
  intros H1 H2 Hw. unfold with_gpu. destruct (_ <=? i); [done|]. destruct Hw as [Hlen Hc Hs Hr Hu Hgm].
  split; cbn; [by rewrite length_alter|done| |done| |done].
  - rewrite <-Hs. clear -H1. revert i. generalize (ss_gpus s) as l. intros l i.
    generalize (Z.to_nat i) as n. clear i. induction l as [|g l IH]; intros [|n]; cbn; [done|done|by rewrite H1|].
    f_equal. apply IH.
  - apply Forall_alter; [done|]. intros g _ Hg. by rewrite H2.
Qed.
End Keeps.

(** ** The state machine *)

Section Machine.
Context `{GpuOS, SchedEnv}.

(** One call of the public interface.  Calls that run into undefined
    behaviour or never return have no successor.  The GPU manager acts on its
    own; GpuHealth.v shows that it stays well formed. *)
Inductive sched_step : mvgal_scheduler_state_t -> mvgal_scheduler_state_t -> Prop :=
| st_init s e s' : mvgal_scheduler_module_init s = Ret (e, s') -> sched_step s s'
| st_shutdown s s' : mvgal_scheduler_module_shutdown s = Ret (tt, s') -> sched_step s s'
| st_submit fuel context info cb out s r s' :
    mvgal_workload_submit_with_callback fuel context info cb out s = Ret (r, s') -> sched_step s s'
| st_process fuel s e s' : mvgal_scheduler_process fuel s = Ret (e, s') -> sched_step s s'
| st_cancel p s e s' : mvgal_workload_cancel p s = Ret (e, s') -> sched_step s s'
| st_destroy p s s' : mvgal_workload_destroy p s = Ret (tt, s') -> sched_step s s'
| st_set_priority p pri s e s' : mvgal_workload_set_priority p pri s = Ret (e, s') -> sched_step s s'
| st_assign p l s e s' : mvgal_workload_assign_gpus p l s = Ret (e, s') -> sched_step s s'
| st_afr p l s e s' : mvgal_distribute_afr p l s = Ret (e, s') -> sched_step s s'
| st_sfr p l s e s' : mvgal_distribute_sfr p l s = Ret (e, s') -> sched_step s s'
| st_task p l s e s' : mvgal_distribute_task p l s = Ret (e, s') -> sched_step s s'
| st_splitter sp s e s' : mvgal_scheduler_register_splitter sp s = Ret (e, s') -> sched_step s s'
| st_unsplitter sp s : sched_step s (mvgal_scheduler_unregister_splitter sp s).2
| st_configure c s : sched_step s (mvgal_scheduler_configure c s).2
| st_reset_stats s : sched_step s (mvgal_scheduler_reset_stats s).2
| st_strategy d s : sched_step s (mvgal_scheduler_set_strategy d s).2
| st_gpu_priority i p s : is_u32 i -> is_u32 p -> sched_step s (mvgal_scheduler_set_gpu_priority i p s).2
| st_pause s : sched_step s (mvgal_scheduler_pause s).2
| st_resume s : sched_step s (mvgal_scheduler_resume s).2
| st_balance s : sched_step s (mvgal_scheduler_balance_load s)
| st_temperature i t s : sched_step s (load_balancer_update_temperature i t s)
| st_power i w s : sched_step s (load_balancer_update_power i w s)
| st_manager gm s : gm_wf gm -> sched_step s (s <| ss_gm := gm |>).

Inductive sched_reachable : mvgal_scheduler_state_t -> Prop :=
| sr_start : sched_reachable sched_start
| sr_step s s' : sched_reachable s -> sched_step s s' -> sched_reachable s'.

Lemma sched_start_wf : sched_wf sched_start.
Proof.
  split; [done|cbn; lia|done| | |apply gm_start_wf].
  - apply Forall_replicate. unfold is_priority. lia.
  - apply Forall_replicate. by split.
Qed.

#[local] Hint Resolve keeps_init keeps_shutdown keeps_submit keeps_process keeps_cancel keeps_release
  keeps_set_priority keeps_assign keeps_register_splitter keeps_afr keeps_sfr keeps_task : keeps.

Lemma sched_step_wf s s' : sched_step s s' -> sched_wf s -> sched_wf s'.
Proof.
  intros Hs Hw. destruct Hs; try (frame);
    try match goal with E : ?m ?s = Ret _ |- _ =>
          let K := fresh in assert (keeps m) as K by auto with keeps; by eapply K end.
  - eapply (keeps_distribute mvgal_scheduler_distribute_afr); eauto with keeps.
  - eapply (keeps_distribute mvgal_scheduler_distribute_sfr); eauto with keeps.
  - eapply (keeps_distribute mvgal_scheduler_distribute_task); eauto with keeps.
  - unfold mvgal_scheduler_unregister_splitter. destruct sp as [|i|]; [done| |done].
    destruct (_ <? _)%nat; [|done]. cbn [snd]. frame.
  - by apply configure_wf.
  - apply set_gpu_priority_wf; [apply H1|apply H2|done].
  - by apply balance_wf.
  - by apply with_gpu_wf.
  - by apply with_gpu_wf.
  - destruct Hw. by split.
Qed.

Lemma reachable_wf s : sched_reachable s -> sched_wf s.
Proof. induction 1 as [|s s' _ IH Hs]; [apply sched_start_wf|by eapply sched_step_wf]. Qed.

(** C16. Every reachable state of the scheduler, whatever sequence of API
    calls led to it, keeps its tables consistent: 16 GPU entries of which at
    most 16 count, the priorities in the GPU table equal to those of the
    configuration and all within 0..100, every utilization within 0..1, and a
    well-formed GPU manager. *)
Theorem sched_reachable_wf s : sched_reachable s -> sched_wf s.
Proof. apply reachable_wf. Qed.
End Machine.

(** ** A concrete history

    Initialization on the machine with two cards, a priority change and a
    rebalancing. *)
Module History.
#[local] Existing Instance plenty.
#[local] Existing Instance GpuHealth.TwoCards.os.

Definition started : mvgal_scheduler_state_t :=
  match mvgal_scheduler_module_init sched_start with Ret (_, s) => s | _ => sched_start end.
Definition tuned : mvgal_scheduler_state_t := (mvgal_scheduler_set_gpu_priority 1 80 started).2.

Lemma started_run : mvgal_scheduler_module_init sched_start = Ret (MVGAL_SUCCESS, started).
Proof. vm_compute. reflexivity. Qed.

Lemma tuned_reachable : sched_reachable tuned.
Proof.
  eapply sr_step; [eapply sr_step; [apply sr_start|eapply st_init; apply started_run]|].
  apply st_gpu_priority; unfold is_u32, U32_MAX; lia.
Qed.

Lemma sched_reachable_wf_witness :
  ss_gpu_count tuned = 2 /\ cfg_gpu_priorities (ss_config tuned) !! 1%nat = Some 80 /\ sched_wf tuned.
Proof.
  split; [vm_compute; reflexivity|]. split; [vm_compute; reflexivity|].
  apply sched_reachable_wf, tuned_reachable.
Defined.
End History.

(** ** What rebalancing does *)

Abbreviation util s i := (gs_utilization (gs_at s i)).
Abbreviation priorities s := (cfg_gpu_priorities (ss_config s)).

Section Balance.
Context `{GpuOS}.
Implicit Types (s : mvgal_scheduler_state_t) (e : extremes).

Definition hot_score s (i : Z) : option f32 := if balanced s i then Some (util s i) else None.
Definition cool_score s (i : Z) : option f32 := if balanced s i then Some (fopp (util s i)) else None.

(** The second pass is the two selection loops run side by side. *)
Lemma extremes_loops s l : forall e h c,
  util_hot e = h.1 -> idx_hot e = default 0 h.2 ->
  fopp (util_cool e) = c.1 -> idx_cool e = default 0 c.2 ->
  idx_hot (foldl (extremes_step s) e l)
    = default 0 (foldl (argmax_step false (hot_score s)) h l).2
  /\ idx_cool (foldl (extremes_step s) e l)
    = default 0 (foldl (argmax_step false (cool_score s)) c l).2.
Proof.
  induction l as [|i l IH]; intros e h c H1 H2 H3 H4; [done|]. simpl.
  unfold extremes_step, argmax_step, hot_score, cool_score.
  destruct (balanced s i); cbn [negb]; [|by apply IH].
  destruct e as [ih ic uh uc n]. cbn [andb orb idx_hot idx_cool util_hot util_cool active upd] in *.
  rewrite <-H1, <-H3.
  assert (Ho : fgt (fopp (util s i)) (fopp uc) = flt (util s i) uc) by apply flt_opp. rewrite Ho.
  destruct (fgt (util s i) uh); cbn [idx_hot idx_cool util_hot util_cool active upd];
    destruct (flt (util s i) uc); by apply IH.
Qed.

Lemma extremes_argmax s :
  idx_hot (find_extremes s) = default 0 (argmax false (hot_score s) (f32_of_Z (-1)) (gpu_indices s)).2
  /\ idx_cool (find_extremes s)
     = default 0 (argmax false (cool_score s) (fopp (f32_of_Z 2)) (gpu_indices s)).2.
Proof. by apply extremes_loops. Qed.

Lemma hot_best s i :
  best_of (hot_score s) (f32_of_Z (-1)) (gpu_indices s) i ->
  0 <= i < ss_gpu_count s /\ balanced s i = true
  /\ forall j, 0 <= j < ss_gpu_count s -> balanced s j = true -> fgt (util s j) (util s i) = false.
Proof.
  intros (Hi & sc & Hs & _ & Hmax). unfold hot_score in Hs. destruct (balanced s i) eqn:Hb; [|done].
  injection Hs as <-. split; [by apply elem_of_gpu_indices|]. split; [done|]. intros j Hj Hbj.
  apply (Hmax j); [by apply elem_of_gpu_indices|]. unfold hot_score. by rewrite Hbj.
Qed.

Lemma cool_best s i :
  best_of (cool_score s) (fopp (f32_of_Z 2)) (gpu_indices s) i ->
  0 <= i < ss_gpu_count s /\ balanced s i = true /\ flt (util s i) (f32_of_Z 2) = true
  /\ forall j, 0 <= j < ss_gpu_count s -> balanced s j = true -> flt (util s j) (util s i) = false.
Proof.
  intros (Hi & sc & Hs & Hgt & Hmax). unfold cool_score in Hs. destruct (balanced s i) eqn:Hb; [|done].
  injection Hs as <-. unfold fgt in Hgt. rewrite flt_opp in Hgt.
  split; [by apply elem_of_gpu_indices|]. split; [done|]. split; [done|]. intros j Hj Hbj.
  rewrite <-flt_opp. apply (Hmax j); [by apply elem_of_gpu_indices|]. unfold cool_score. by rewrite Hbj.
Qed.

(** A utilization in range beats both starting values unless it is NaN. *)
Lemma unit_between u : in_unit u -> is_nan u = false ->
  flt (f32_of_Z (-1)) u = true /\ flt u (f32_of_Z 2) = true.
Proof.
  intros [H0 H1] Hn. unfold fgt in H1. split.
  - destruct (flt (f32_of_Z (-1)) u) eqn:E; [done|].
    by rewrite (flt_cotrans (f32_of_Z (-1)) f0 u Hn eq_refl E) in H0.
  - by apply (flt_cotrans f1 (f32_of_Z 2) u Hn).
Qed.

Lemma flt_not_nan_l x y : flt x y = true -> is_nan x = false.
Proof. by destruct x, y. Qed.

Lemma flt_not_nan_r x y : flt x y = true -> is_nan y = false.
Proof. by destruct x as [[]|[]| |[]], y. Qed.

(** If the extremes differ, both were found. *)
Lemma extremes_found s : sched_wf s -> idx_hot (find_extremes s) <> idx_cool (find_extremes s) ->
  best_of (hot_score s) (f32_of_Z (-1)) (gpu_indices s) (idx_hot (find_extremes s))
  /\ best_of (cool_score s) (fopp (f32_of_Z 2)) (gpu_indices s) (idx_cool (find_extremes s)).
Proof.
  intros Hw. destruct (extremes_argmax s) as [-> ->].
  pose proof (argmax_bound (hot_score s) (f32_of_Z (-1)) (gpu_indices s)) as Hh.
  pose proof (argmax_bound (cool_score s) (fopp (f32_of_Z 2)) (gpu_indices s)) as Hc.
  assert (Hu : forall i, i ∈ gpu_indices s -> in_unit (util s i))
    by (intros i Hi; apply gs_at_util; [done|by eapply gpu_indices_bounds]).
  destruct (argmax _ (hot_score s) _ _) as [bh [i|]], (argmax _ (cool_score s) _ _) as [bc [j|]];
    cbn [snd default]; [done| | |done]; intros _; exfalso.
  - destruct Hc as [_ Hc]. destruct Hh as (Hi & sc & Hs & Hgt & _). unfold hot_score in Hs.
    destruct (balanced s i) eqn:Hb; [|done]. injection Hs as <-.
    destruct (unit_between (util s i) (Hu i Hi)) as [_ Hlt]; [by eapply flt_not_nan_r|].
    specialize (Hc i (fopp (util s i)) Hi). unfold cool_score, fgt in Hc. rewrite Hb, flt_opp in Hc.
    rewrite Hlt in Hc. by specialize (Hc eq_refl).
  - destruct Hh as [_ Hh]. destruct (cool_best s j Hc) as (Hj & Hb & Hlt & _).
    apply elem_of_gpu_indices in Hj.
    destruct (unit_between (util s j) (Hu j Hj)) as [Hgt _]; [by eapply flt_not_nan_l|].
    specialize (Hh j (util s j) Hj). unfold hot_score, fgt in Hh. rewrite Hb, Hgt in Hh.
    by specialize (Hh eq_refl).
Qed.

Lemma refresh_config s : ss_config (refresh_utilization s) = ss_config s.
Proof.
  unfold refresh_utilization. generalize (gpu_indices s) as l. intros l. revert s.
  induction l as [|i l IH]; intros s; [done|]. simpl. rewrite IH. clear.
  unfold update_gpu_utilization. destruct (mvgal_gpu_get_utilization _ _ _) as [[e u] g].
  by destruct (mvgal_gpu_get_temperature _ _ _) as [[e' t] g'].
Qed.

Lemma priority_at s i : sched_wf s -> 0 <= i < 16 -> gs_priority (gs_at s i) = priorities s !!! Z.to_nat i.
Proof.
  intros Hw Hi. rewrite <-(wf_sync _ Hw). unfold gs_at. symmetry. apply list_lookup_total_fmap.
  rewrite (wf_gpus _ Hw). lia.
Qed.

Lemma lower_max p : lower_priority p = Z.max 10 (p - 3).
Proof. unfold lower_priority, BALANCE_STEP. destruct (Z.ltb_spec (3 + 10) p); lia. Qed.

Lemma raise_min p : is_priority p -> raise_priority p = Z.min 100 (p + 3).
Proof.
  intros Hp. unfold raise_priority, is_priority, BALANCE_STEP, u32 in *. rewrite Z.mod_small by lia.
  destruct (Z.ltb_spec (p + 3) 100); lia.
Qed.

(** Rebalancing moves work from the busiest to the least busy GPU.  On a
    well-formed scheduler a call either leaves the configured priorities
    alone, or changes those of exactly two different GPUs: both are available
    and enabled, no available and enabled GPU has a higher (refreshed)
    utilization than the first nor a lower one than the second, the first
    loses 3 points but keeps at least 10, and the second gains 3 points but
    gets at most 100. *)
Theorem balance_moves_priority s :
  sched_wf s ->
  let s1 := refresh_utilization s in
  let s' := mvgal_scheduler_balance_load s in
  priorities s' = priorities s
  \/ exists hot cool, hot <> cool /\ balanced s1 hot = true /\ balanced s1 cool = true
     /\ (forall j, 0 <= j < ss_gpu_count s1 -> balanced s1 j = true ->
           fgt (util s1 j) (util s1 hot) = false /\ flt (util s1 j) (util s1 cool) = false)
     /\ priorities s' = <[Z.to_nat cool := Z.min 100 (priorities s !!! Z.to_nat cool + 3)]>
          (<[Z.to_nat hot := Z.max 10 (priorities s !!! Z.to_nat hot - 3)]> (priorities s)).
Proof.
  intros Hw s1 s'. unfold s', mvgal_scheduler_balance_load. destruct (negb _); [by left|].
  rewrite <-(refresh_config s). fold s1. apply refresh_wf in Hw. fold s1 in Hw. clearbody s1.
  destruct (util_bounds _) as [mx mn]. destruct (fgt _ _); [|by left]. cbv zeta.
  destruct (_ && _) eqn:E; [|by left]. right.
  rewrite !andb_true_iff in E. destruct E as [[_ Hne] _]. apply negb_true_iff, Z.eqb_neq in Hne.
  destruct (extremes_found s1 Hw Hne) as [Hh Hc].
  destruct (hot_best _ _ Hh) as (Hh1 & Hh2 & Hh3). destruct (cool_best _ _ Hc) as (Hc1 & Hc2 & _ & Hc3).
  pose proof (wf_count _ Hw). exists (idx_hot (find_extremes s1)), (idx_cool (find_extremes s1)).
  split_and!; [done..|auto|].
  rewrite lower_max, raise_min by (apply gs_at_priority; [done|lia]).
  rewrite !(priority_at s1) by (done || lia). reflexivity.
Qed.
End Balance.

(** The scheduler of [History] with GPU 1 saturated and a low threshold: the
    driver reports an idle GPU, so its smoothed utilization drops to 0.7. *)
Module Unbalanced.
#[local] Existing Instance plenty.
#[local] Existing Instance GpuHealth.TwoCards.os.

Definition eager : mvgal_scheduler_state_t :=
  (mvgal_scheduler_configure (Some (mk_pc MVGAL_STRATEGY_AUTO true true true (flit 1 10) 64 0))
     History.tuned).2.
Definition saturate (s : mvgal_scheduler_state_t) : mvgal_scheduler_state_t :=
  s <| ss_gm := ss_gm s |>
    <| ss_gpus ::= fun l => <[Z.to_nat 1 := (gs_at s 1) <| gs_utilization := f1 |>]> l |>.
Definition skewed : mvgal_scheduler_state_t := saturate eager.

Lemma saturate_wf s : sched_wf s -> sched_wf (saturate s).
Proof. intros Hw. apply replace_entry_wf; [lia|done|done|apply Hw|done]. Qed.

Lemma eager_wf : sched_wf eager.
Proof.
  apply configure_wf, reachable_wf, History.tuned_reachable.
Qed.

Lemma skewed_wf : sched_wf skewed.
Proof. apply saturate_wf, eager_wf. Qed.

Lemma balance_moves_priority_witness :
  exists hot cool, hot <> cool
    /\ priorities (mvgal_scheduler_balance_load skewed)
       = <[Z.to_nat cool := Z.min 100 (priorities skewed !!! Z.to_nat cool + 3)]>
          (<[Z.to_nat hot := Z.max 10 (priorities skewed !!! Z.to_nat hot - 3)]> (priorities skewed)).
Proof.
  destruct (balance_moves_priority skewed skewed_wf) as [Hsame|(hot & cool & H1 & _ & _ & _ & H2)].
  - exfalso. revert Hsame. vm_compute. discriminate.
  - exists hot, cool. split; [exact H1|exact H2].
Defined.
End Unbalanced.
