(* ===== verification/Splitter.v ===== *)
(** * Custom workload splitters

    src/userspace/scheduler/workload_splitter.c: the table of 16 registered
    splitters and the dispatch to their callbacks. *)

From S2P Require Import Prelude GpuManager SchedTypes.
Local Open Scope Z_scope.

Definition MAX_SPLITTERS : nat := 16.

Record registered_splitter_t : Type := mk_reg {
  rs_splitter : mvgal_workload_splitter_t;
  rs_used : bool
}.

#[export] Instance reg_inhabited : Inhabited registered_splitter_t :=
  populate (mk_reg splitter_zero false).

Definition free_slot : registered_splitter_t := mk_reg splitter_zero false.

(** [g_splitters] at program start. *)
Definition splitters_start : list registered_splitter_t := replicate MAX_SPLITTERS free_slot.

(** The search for an empty slot. *)
Fixpoint register_slot (sp : mvgal_workload_splitter_t) (t : list registered_splitter_t)
  : option (list registered_splitter_t) :=
  match t with
  | [] => None
  | r :: t' => if negb (rs_used r) then Some (mk_reg sp true :: t')
               else cons r <$> register_slot sp t'
  end.

Definition mvgal_scheduler_register_custom_splitter (splitter : option mvgal_workload_splitter_t)
  (t : list registered_splitter_t) : mvgal_error_t * list registered_splitter_t :=
  match splitter with
  | None => (MVGAL_ERROR_INVALID_ARGUMENT, t)
  | Some sp =>
      match register_slot sp t with
      | Some t' => (MVGAL_SUCCESS, t')
      | None => (MVGAL_ERROR_OUT_OF_MEMORY, t)
      end
  end.

(** The comparison of function pointers. *)
Definition same_callbacks (a b : mvgal_workload_splitter_t) : bool :=
  bool_decide (sp_split a = sp_split b) && bool_decide (sp_merge a = sp_merge b).

Fixpoint unregister_slot (sp : mvgal_workload_splitter_t) (t : list registered_splitter_t)
  : option (list registered_splitter_t) :=
  match t with
  | [] => None
  | r :: t' => if rs_used r && same_callbacks (rs_splitter r) sp then Some (free_slot :: t')
               else cons r <$> unregister_slot sp t'
  end.

Definition mvgal_scheduler_unregister_custom_splitter (splitter : option mvgal_workload_splitter_t)
  (t : list registered_splitter_t) : mvgal_error_t * list registered_splitter_t :=
  match splitter with
  | None => (MVGAL_ERROR_INVALID_ARGUMENT, t)
  | Some sp =>
      match unregister_slot sp t with
      | Some t' => (MVGAL_SUCCESS, t')
      | None => (MVGAL_ERROR_INVALID_ARGUMENT, t)
      end
  end.

Definition mvgal_scheduler_get_custom_splitter_count (t : list registered_splitter_t) : Z :=
  Z.of_nat (length (filter (fun r => rs_used r = true) t)).

(** ** Calling the callbacks

    [call f user_data] is the answer of the split callback at [f]; it is the
    application's code.  The callbacks invoked are returned, in order. *)
Section Apply.
Variable call : addr -> option addr -> bool.

Definition mvgal_scheduler_apply_custom_splitter (index : Z) (t : list registered_splitter_t)
  : mvgal_error_t * list (addr * option addr) :=
  if Z.of_nat MAX_SPLITTERS <=? index then (MVGAL_ERROR_INVALID_ARGUMENT, []) else
  let r := t !!! Z.to_nat index in
  if negb (rs_used r) then (MVGAL_ERROR_INVALID_ARGUMENT, []) else
  match sp_split (rs_splitter r) with
  | None => (MVGAL_ERROR_INVALID_ARGUMENT, [])
  | Some f =>
      let data := sp_user_data (rs_splitter r) in
      (if call f data then MVGAL_SUCCESS else MVGAL_ERROR_SCHEDULER, [(f, data)])
  end.

Fixpoint apply_from (indices : list Z) (t : list registered_splitter_t)
  : mvgal_error_t * list (addr * option addr) :=
  match indices with
  | [] => (MVGAL_ERROR_NOT_SUPPORTED, [])
  | i :: rest =>
      if rs_used (t !!! Z.to_nat i) then
        let '(err, calls) := mvgal_scheduler_apply_custom_splitter i t in
        if is_success err then (MVGAL_SUCCESS, calls) else
        let '(err, calls') := apply_from rest t in (err, calls ++ calls')
      else apply_from rest t
  end.

Definition mvgal_scheduler_apply_all_custom_splitters (t : list registered_splitter_t)
  : mvgal_error_t * list (addr * option addr) :=
  apply_from (seqZ 0 (Z.of_nat MAX_SPLITTERS)) t.
End Apply.

(** ** The table invariant *)

Definition slot_wf (r : registered_splitter_t) : Prop := rs_used r = false -> r = free_slot.
Definition splitters_wf (t : list registered_splitter_t) : Prop :=
  length t = MAX_SPLITTERS /\ Forall slot_wf t.

Abbreviation used t := (filter (fun r => rs_used r = true) t).

Lemma register_slot_some sp t t' : register_slot sp t = Some t' ->
  exists a r b, t = a ++ r :: b /\ rs_used r = false /\ t' = a ++ mk_reg sp true :: b
    /\ Forall (fun r => rs_used r = true) a.
Proof.
  revert t'. induction t as [|r t IH]; intros t'; simpl; [done|].
  destruct (rs_used r) eqn:Hr; simpl.
  - intros Ht. apply fmap_Some in Ht as (t1 & Ht1 & ->).
    destruct (IH _ Ht1) as (a & r' & b & -> & Hr' & -> & Ha).
    exists (r :: a), r', b. split_and!; try done. by constructor.
  - intros [= <-]. by exists [], r, t.
Qed.

Lemma register_slot_none sp t :
  register_slot sp t = None -> Forall (fun r => rs_used r = true) t.
Proof.
  induction t as [|r t IH]; simpl; [done|]. destruct (rs_used r) eqn:Hr; simpl; [|done].
  intros Ht%fmap_None. constructor; auto.
Qed.

Lemma used_all t : Forall (fun r => rs_used r = true) t -> used t = t.
Proof. induction 1; [done|]. rewrite filter_cons_True; [by f_equal|done]. Qed.

Lemma unregister_slot_at sp a r b :
  Forall (fun r => rs_used r && same_callbacks (rs_splitter r) sp = false) a ->
  rs_used r && same_callbacks (rs_splitter r) sp = true ->
  unregister_slot sp (a ++ r :: b) = Some (a ++ free_slot :: b).
Proof. intros Ha Hr. induction Ha as [|x a Hx _ IH]; simpl; [by rewrite Hr|]. by rewrite Hx, IH. Qed.

Lemma same_callbacks_refl sp : same_callbacks sp sp = true.
Proof. unfold same_callbacks. by rewrite !bool_decide_eq_true_2. Qed.

(** Registration and removal of custom splitters.  In a well-formed table
    of 16 slots that holds no splitter with the same callbacks, registering a
    splitter succeeds exactly when fewer than 16 are registered; it then adds
    one to the count, keeps the table well formed, and unregistering the same
    splitter succeeds and restores the table.  A full table is left
    unchanged and the call reports the lack of memory. *)
Theorem splitter_roundtrip sp t :
  splitters_wf t ->
  Forall (fun r => rs_used r && same_callbacks (rs_splitter r) sp = false) t ->
  let n := mvgal_scheduler_get_custom_splitter_count t in
  match mvgal_scheduler_register_custom_splitter (Some sp) t with
  | (MVGAL_SUCCESS, t') =>
      n < 16 /\ mvgal_scheduler_get_custom_splitter_count t' = n + 1 /\ splitters_wf t'
      /\ mvgal_scheduler_unregister_custom_splitter (Some sp) t' = (MVGAL_SUCCESS, t)
  | (e, t') => e = MVGAL_ERROR_OUT_OF_MEMORY /\ n = 16 /\ t' = t
  end.
Proof.
  intros [Hlen Hwf] Hno n. unfold mvgal_scheduler_register_custom_splitter.
  destruct (register_slot sp t) as [t'|] eqn:E.
  - destruct (register_slot_some _ _ _ E) as (a & r & b & -> & Hr & -> & Ha).
    apply Forall_app in Hwf as [Hwa [Hwr Hwb]%Forall_cons]. apply Forall_app in Hno as [Hna _].
    unfold n, mvgal_scheduler_get_custom_splitter_count. rewrite !filter_app.
    rewrite (filter_cons_False _ r b) by (by rewrite Hr).
    rewrite (filter_cons_True _ (mk_reg sp true)) by done. rewrite !length_app in *. cbn [length] in *.
    pose proof (length_filter (fun r => rs_used r = true) a).
    pose proof (length_filter (fun r => rs_used r = true) b). unfold MAX_SPLITTERS in Hlen.
    split_and!; [lia|lia| |].
    + split; [rewrite length_app; cbn; unfold MAX_SPLITTERS; lia|].
      apply Forall_app. split; [done|]. by constructor.
    + unfold mvgal_scheduler_unregister_custom_splitter.
      rewrite unregister_slot_at; [|done|apply same_callbacks_refl]. by rewrite (Hwr Hr).
  - split_and!; [done| |done]. unfold n, mvgal_scheduler_get_custom_splitter_count.
    rewrite used_all by (by eapply register_slot_none). by rewrite Hlen.
Qed.

Lemma splitter_roundtrip_witness :
  let sp := mk_splitter (Some 1%positive) (Some 2%positive) (Some 3%positive) None in
  let t' := (mvgal_scheduler_register_custom_splitter (Some sp) splitters_start).2 in
  mvgal_scheduler_get_custom_splitter_count t' = 1
  /\ mvgal_scheduler_unregister_custom_splitter (Some sp) t' = (MVGAL_SUCCESS, splitters_start).
Proof.
  intros sp t'. assert (Hwf : splitters_wf splitters_start).
  { split; [done|]. by apply Forall_replicate. }
  destruct (splitter_roundtrip sp splitters_start Hwf) as (_ & H1 & _ & H2).
  - by apply Forall_replicate.
  - split; [exact H1|exact H2].
Defined.

(** ** Trying the splitters in turn *)

(** The callbacks of the registered splitters, in table order. *)
Definition candidate (r : registered_splitter_t) : option (addr * option addr) :=
  if rs_used r
  then (fun f => (f, sp_user_data (rs_splitter r))) <$> sp_split (rs_splitter r) else None.

Section Try.
Variable call : addr -> option addr -> bool.

(** Reference definition: call each in turn until one accepts. *)
Fixpoint try_each (l : list (addr * option addr)) : mvgal_error_t * list (addr * option addr) :=
  match l with
  | [] => (MVGAL_ERROR_NOT_SUPPORTED, [])
  | (f, d) :: rest =>
      if call f d then (MVGAL_SUCCESS, [(f, d)])
      else let '(e, calls) := try_each rest in (e, (f, d) :: calls)
  end.

Lemma apply_from_try ix t :
  (forall i, i ∈ ix -> 0 <= i < Z.of_nat MAX_SPLITTERS) ->
  apply_from call ix t = try_each (omap (fun i => candidate (t !!! Z.to_nat i)) ix).
Proof.
  induction ix as [|i ix IH]; intros Hi; [done|]. cbn [apply_from].
  assert (0 <= i < Z.of_nat MAX_SPLITTERS) as Hb by (apply Hi; by left).
  rewrite IH by (intros j Hj; apply Hi; by right). clear IH.
  set (rest := omap (fun i => candidate (t !!! Z.to_nat i)) ix).
  change (omap (fun i => candidate (t !!! Z.to_nat i)) (i :: ix))
    with (match candidate (t !!! Z.to_nat i) with Some y => y :: rest | None => rest end).
  unfold mvgal_scheduler_apply_custom_splitter, candidate.
  destruct (Z.leb_spec (Z.of_nat MAX_SPLITTERS) i); [lia|].
  destruct (rs_used (t !!! Z.to_nat i)) eqn:Hu; cbn [negb]; [|done].
  destruct (sp_split _) as [f|]; simpl; [destruct (call f _); [done|]|]; by destruct (try_each rest).
Qed.

(** Applying all custom splitters to a workload equals trying, in table
    order, the split callback of each registered splitter that has one: the
    calls stop at the first callback that accepts, which gives success, and
    when none accepts every one of them was called and the result is
    NOT_SUPPORTED. *)
Theorem apply_all_in_order t :
  length t = MAX_SPLITTERS ->
  mvgal_scheduler_apply_all_custom_splitters call t = try_each (omap candidate t).
Proof.
  intros Hlen. unfold mvgal_scheduler_apply_all_custom_splitters.
  rewrite apply_from_try by (intros i Hi%elem_of_seqZ; lia). f_equal.
  rewrite <-Hlen. clear Hlen. change (seqZ 0 (Z.of_nat (length t))) with (seqZ (Z.of_nat 0) (Z.of_nat (length t))).
  assert (Hgen : forall a, omap (fun i => candidate ((a ++ t) !!! Z.to_nat i))
            (seqZ (Z.of_nat (length a)) (Z.of_nat (length t))) = omap candidate t); [|by apply (Hgen [])].
  induction t as [|r t IH]; intros a; [done|]. rewrite seqZ_cons by (simpl; lia).
  cbn [omap list_omap]. rewrite Nat2Z.id, lookup_total_app_r, Nat.sub_diag by lia. cbn [lookup_total list_lookup_total].
  specialize (IH (a ++ [r])). rewrite <-app_assoc in IH. cbn [app] in IH.
  rewrite length_app in IH. cbn [length] in IH.
  replace (Z.succ (Z.of_nat (length a))) with (Z.of_nat (length a + 1)) by lia.
  replace (Z.pred (Z.of_nat (length (r :: t)))) with (Z.of_nat (length t)) by (simpl; lia).
  by rewrite IH.
Qed.
End Try.

Lemma apply_all_in_order_witness :
  let sp i := mk_reg (mk_splitter None (Some i) (Some i) None) true in
  let t := sp 1%positive :: free_slot :: sp 2%positive :: replicate 13 free_slot in
  mvgal_scheduler_apply_all_custom_splitters (fun f _ => bool_decide (f = 2%positive)) t
  = (MVGAL_SUCCESS, [(1%positive, None); (2%positive, None)]).
Proof. intros sp t. rewrite apply_all_in_order; [reflexivity|reflexivity]. Defined.
