(* ===== verification/SyncPrims.v ===== *)
(** * Fences and semaphores

    src/userspace/memory/sync.c: the objects and their operations as seen by
    one caller, then the threads that block on a semaphore, as a step
    relation over the mutex-protected sections of [mvgal_semaphore_wait] and
    [mvgal_semaphore_signal]. *)

From S2P Require Import Prelude.
Local Open Scope Z_scope.

Record mvgal_fence : Type := mk_fence {
  f_signaled : bool;
  f_refcount : Z;
  f_status : mvgal_error_t;
  f_user_data : option addr
}.

#[export] Instance fence_eta : Eta mvgal_fence := fun r =>
  mk_fence (f_signaled r) (f_refcount r) (f_status r) (f_user_data r).

Record mvgal_semaphore : Type := mk_sem {
  s_count : Z;
  s_refcount : Z
}.

#[export] Instance sem_eta : Eta mvgal_semaphore := fun r => mk_sem (s_count r) (s_refcount r).

(** The allocated objects. *)
Record sync_heap : Type := mk_sync {
  sy_fences : gmap positive mvgal_fence;
  sy_sems : gmap positive mvgal_semaphore
}.

#[export] Instance sync_eta : Eta sync_heap := fun r => mk_sync (sy_fences r) (sy_sems r).

Abbreviation YM := (M sync_heap).

(** What creation needs of the system: the structure's memory, the mutex and
    the condition variable. *)
Record sync_resources : Type := mk_res {
  res_memory : bool;
  res_mutex : bool;
  res_cond : bool
}.

(** ** Fences *)

Definition fence_at (p : addr) : YM mvgal_fence := fun h =>
  match sy_fences h !! p with
  | Some f => Ret (f, h)
  | None => Fault UseAfterFree
  end.

Definition set_fence (p : addr) (f : mvgal_fence) : YM unit :=
  modify (fun h => h <| sy_fences ::= <[p := f]> |>).

Definition mvgal_fence_create (res : sync_resources) (fence : bool)
  : YM (mvgal_error_t * option addr) := fun h =>
  if negb fence then Ret ((MVGAL_ERROR_INVALID_ARGUMENT, None), h) else
  if negb (res_memory res) then Ret ((MVGAL_ERROR_OUT_OF_MEMORY, None), h) else
  if negb (res_mutex res) then Ret ((MVGAL_ERROR_INITIALIZATION, None), h) else
  if negb (res_cond res) then Ret ((MVGAL_ERROR_INITIALIZATION, None), h) else
  let p := fresh (dom (sy_fences h)) in
  Ret ((MVGAL_SUCCESS, Some p), h <| sy_fences ::= <[p := mk_fence false 1 MVGAL_SUCCESS None]> |>).

(** [refcount] is a signed int; the atomic subtraction wraps. *)
Definition mvgal_fence_destroy (fence : option addr) : YM unit :=
  match fence with
  | None => mret tt
  | Some p =>
      f ← fence_at p;
      if f_refcount f <=? 1
      then modify (fun h => h <| sy_fences ::= delete p |>)
      else set_fence p (f <| f_refcount ::= fun n => int32 (n - 1) |>)
  end.

(** A thread in this module: blocked on the condition variable of an object
    ([woken = false]), unblocked and about to take the mutex and test again
    ([woken = true]), or done with the status it returned. *)
Inductive thread : Type :=
| Sem_wait (woken : bool) (s : addr) (value timeout_ms : Z)
| Fence_wait (woken : bool) (f : addr) (timeout_ms : Z)
| Returned (status : mvgal_error_t).

(** The test of [signaled] under the mutex, at entry and at the head of both
    loops. *)
Definition fence_test (p : addr) (timeout_ms : Z) : YM thread :=
  f ← fence_at p;
  mret (if f_signaled f then Returned (f_status f) else Fence_wait false p timeout_ms).

Definition mvgal_fence_wait (fence : option addr) (timeout_ms : Z) : YM thread :=
  match fence with
  | None => mret (Returned MVGAL_ERROR_INVALID_ARGUMENT)
  | Some p => fence_test p timeout_ms
  end.

Definition mvgal_fence_check (fence : option addr) : YM bool :=
  match fence with
  | None => mret true
  | Some p => f ← fence_at p; mret (f_signaled f)
  end.

Definition mvgal_fence_reset (fence : option addr) : YM unit :=
  match fence with
  | None => mret tt
  | Some p =>
      f ← fence_at p;
      set_fence p (f <| f_signaled := false |> <| f_status := MVGAL_SUCCESS |>)
  end.

Definition mvgal_fence_signal_with_status (fence : option addr) (status : mvgal_error_t)
  : YM mvgal_error_t :=
  match fence with
  | None => mret MVGAL_ERROR_INVALID_ARGUMENT
  | Some p =>
      f ← fence_at p;
      set_fence p (f <| f_signaled := true |> <| f_status := status |>);;
      mret MVGAL_SUCCESS
  end.

(** ** Semaphores *)

Definition sem_at (p : addr) : YM mvgal_semaphore := fun h =>
  match sy_sems h !! p with
  | Some s => Ret (s, h)
  | None => Fault UseAfterFree
  end.

Definition set_sem (p : addr) (s : mvgal_semaphore) : YM unit :=
  modify (fun h => h <| sy_sems ::= <[p := s]> |>).

Definition mvgal_semaphore_create (res : sync_resources) (initial_value : Z) (semaphore : bool)
  : YM (mvgal_error_t * option addr) := fun h =>
  if negb semaphore then Ret ((MVGAL_ERROR_INVALID_ARGUMENT, None), h) else
  if negb (res_memory res) then Ret ((MVGAL_ERROR_OUT_OF_MEMORY, None), h) else
  if negb (res_mutex res) then Ret ((MVGAL_ERROR_INITIALIZATION, None), h) else
  if negb (res_cond res) then Ret ((MVGAL_ERROR_INITIALIZATION, None), h) else
  let p := fresh (dom (sy_sems h)) in
  Ret ((MVGAL_SUCCESS, Some p), h <| sy_sems ::= <[p := mk_sem initial_value 1]> |>).

Definition mvgal_semaphore_destroy (semaphore : option addr) : YM unit :=
  match semaphore with
  | None => mret tt
  | Some p =>
      s ← sem_at p;
      if s_refcount s <=? 1
      then modify (fun h => h <| sy_sems ::= delete p |>)
      else set_sem p (s <| s_refcount ::= fun n => int32 (n - 1) |>)
  end.

(** The update of the count; the wake-ups are in the step relation below. *)
Definition mvgal_semaphore_signal (semaphore : option addr) (value : Z) : YM mvgal_error_t :=
  match semaphore with
  | None => mret MVGAL_ERROR_INVALID_ARGUMENT
  | Some p =>
      if value =? 0 then mret MVGAL_ERROR_INVALID_ARGUMENT else
      s ← sem_at p;
      set_sem p (s <| s_count ::= fun c => u64 (c + value) |>);;
      mret MVGAL_SUCCESS
  end.

(** The test of [count] under the mutex, at entry and at the head of both
    loops, with the subtraction that follows when it passes. *)
Definition sem_test (p : addr) (value timeout_ms : Z) : YM thread :=
  s ← sem_at p;
  if value <=? s_count s then
    set_sem p (s <| s_count ::= fun c => u64 (c - value) |>);;
    mret (Returned MVGAL_SUCCESS)
  else mret (Sem_wait false p value timeout_ms).

Definition mvgal_semaphore_wait (semaphore : option addr) (value timeout_ms : Z) : YM thread :=
  match semaphore with
  | None => mret (Returned MVGAL_ERROR_INVALID_ARGUMENT)
  | Some p =>
      if value =? 0 then mret (Returned MVGAL_ERROR_INVALID_ARGUMENT) else
      sem_test p value timeout_ms
  end.

Definition mvgal_semaphore_get_value (semaphore : option addr) (value : bool)
  : YM (mvgal_error_t * option Z) :=
  match semaphore, value with
  | Some p, true => s ← sem_at p; mret (MVGAL_SUCCESS, Some (s_count s))
  | _, _ => mret (MVGAL_ERROR_INVALID_ARGUMENT, None)
  end.

(** ** Threads

    The objects and the threads that wait on them.  A step is one section of
    the code under an object's mutex. *)

Record sync_sys : Type := mk_sys {
  sy_heap : sync_heap;
  sy_threads : gmap nat thread
}.

(** [pthread_cond_broadcast] on the condition variable of a fence, and of a
    semaphore. *)
Definition wake_fence (p : addr) (t : thread) : thread :=
  match t with
  | Fence_wait w q timeout_ms => Fence_wait (w || bool_decide (p = q)) q timeout_ms
  | _ => t
  end.

Definition wake_sem (p : addr) (t : thread) : thread :=
  match t with
  | Sem_wait w q value timeout_ms => Sem_wait (w || bool_decide (p = q)) q value timeout_ms
  | _ => t
  end.

(** One [pthread_cond_signal]: it unblocks one blocked thread, if there is
    one; which one is up to the system. *)
Inductive cond_signal (p : addr) : gmap nat thread -> gmap nat thread -> Prop :=
| signal_wakes ths t value timeout_ms :
    ths !! t = Some (Sem_wait false p value timeout_ms) ->
    cond_signal p ths (<[t := Sem_wait true p value timeout_ms]> ths)
| signal_nobody ths :
    (forall t value timeout_ms, ths !! t <> Some (Sem_wait false p value timeout_ms)) ->
    cond_signal p ths ths.

(** The loop of [mvgal_semaphore_signal]. *)
Inductive cond_signals (p : addr) : nat -> gmap nat thread -> gmap nat thread -> Prop :=
| signals_done ths : cond_signals p 0 ths ths
| signals_more n ths ths1 ths2 :
    cond_signal p ths ths1 -> cond_signals p n ths1 ths2 -> cond_signals p (S n) ths ths2.

(** The calls that neither block nor wake anybody. *)
Inductive sync_call : Type :=
| Fence_create (res : sync_resources) (fence : bool)
| Fence_check (fence : option addr)
| Fence_reset (fence : option addr)
| Semaphore_create (res : sync_resources) (initial_value : Z) (semaphore : bool)
| Semaphore_get_value (semaphore : option addr) (value : bool).

Definition run_call (c : sync_call) : YM unit :=
  match c with
  | Fence_create res fence => mvgal_fence_create res fence;; mret tt
  | Fence_check fence => mvgal_fence_check fence;; mret tt
  | Fence_reset fence => mvgal_fence_reset fence
  | Semaphore_create res v semaphore => mvgal_semaphore_create res v semaphore;; mret tt
  | Semaphore_get_value semaphore value => mvgal_semaphore_get_value semaphore value;; mret tt
  end.

(** The argument is a [uint64_t]. *)
Definition call_ok (c : sync_call) : Prop :=
  match c with Semaphore_create _ v _ => is_u64 v | _ => True end.

(** What a step does to a semaphore. *)
Inductive sync_event : Type :=
| Signalled (s : addr) (value : Z)
| Acquired (s : addr) (value : Z)
| Destroyed (s : addr)
| Silent.

(** The event of a test of semaphore [p] that left its thread in [t]. *)
Definition tested (p : addr) (value : Z) (t : thread) : sync_event :=
  match t with Returned MVGAL_SUCCESS => Acquired p value | _ => Silent end.

Definition can_start (ths : gmap nat thread) (t : nat) : Prop :=
  match ths !! t with None | Some (Returned _) => True | _ => False end.

Inductive sync_step : sync_sys -> sync_event -> sync_sys -> Prop :=
| step_call c h h' ths :
    call_ok c -> run_call c h = Ret (tt, h') ->
    sync_step (mk_sys h ths) Silent (mk_sys h' ths)
| step_fence_signal p status h h' ths :
    mvgal_fence_signal_with_status (Some p) status h = Ret (MVGAL_SUCCESS, h') ->
    sync_step (mk_sys h ths) Silent (mk_sys h' (wake_fence p <$> ths))
| step_fence_destroy p h h' ths :
    mvgal_fence_destroy (Some p) h = Ret (tt, h') ->
    sync_step (mk_sys h ths) Silent
      (mk_sys h' (match sy_fences h' !! p with None => wake_fence p <$> ths | Some _ => ths end))
| step_fence_wait p timeout_ms t st h h' ths :
    can_start ths t ->
    mvgal_fence_wait (Some p) timeout_ms h = Ret (st, h') ->
    sync_step (mk_sys h ths) Silent (mk_sys h' (<[t := st]> ths))
| step_fence_resume p timeout_ms t st h h' ths :
    ths !! t = Some (Fence_wait true p timeout_ms) ->
    fence_test p timeout_ms h = Ret (st, h') ->
    sync_step (mk_sys h ths) Silent (mk_sys h' (<[t := st]> ths))
| step_fence_spurious p timeout_ms t h ths :
    ths !! t = Some (Fence_wait false p timeout_ms) ->
    sync_step (mk_sys h ths) Silent (mk_sys h (<[t := Fence_wait true p timeout_ms]> ths))
| step_fence_timeout p timeout_ms t e h ths :
    ths !! t = Some (Fence_wait false p timeout_ms) -> timeout_ms <> 0 ->
    e = MVGAL_ERROR_TIMEOUT \/ e = MVGAL_ERROR_UNKNOWN ->
    sync_step (mk_sys h ths) Silent (mk_sys h (<[t := Returned e]> ths))
| step_sem_signal p value h h' ths ths' :
    is_u64 value ->
    mvgal_semaphore_signal (Some p) value h = Ret (MVGAL_SUCCESS, h') ->
    cond_signals p (Z.to_nat value) ths ths' ->
    sync_step (mk_sys h ths) (Signalled p value) (mk_sys h' ths')
| step_sem_destroy p h h' ths :
    mvgal_semaphore_destroy (Some p) h = Ret (tt, h') ->
    sync_step (mk_sys h ths) (Destroyed p)
      (mk_sys h' (match sy_sems h' !! p with None => wake_sem p <$> ths | Some _ => ths end))
| step_sem_wait p value timeout_ms t st h h' ths :
    can_start ths t -> is_u64 value ->
    mvgal_semaphore_wait (Some p) value timeout_ms h = Ret (st, h') ->
    sync_step (mk_sys h ths) (tested p value st) (mk_sys h' (<[t := st]> ths))
| step_sem_resume p value timeout_ms t st h h' ths :
    ths !! t = Some (Sem_wait true p value timeout_ms) -> is_u64 value ->
    sem_test p value timeout_ms h = Ret (st, h') ->
    sync_step (mk_sys h ths) (tested p value st) (mk_sys h' (<[t := st]> ths))
| step_sem_spurious p value timeout_ms t h ths :
    ths !! t = Some (Sem_wait false p value timeout_ms) ->
    sync_step (mk_sys h ths) Silent (mk_sys h (<[t := Sem_wait true p value timeout_ms]> ths))
| step_sem_timeout p value timeout_ms t e h ths :
    ths !! t = Some (Sem_wait false p value timeout_ms) -> timeout_ms <> 0 ->
    e = MVGAL_ERROR_TIMEOUT \/ e = MVGAL_ERROR_UNKNOWN ->
    sync_step (mk_sys h ths) Silent (mk_sys h (<[t := Returned e]> ths)).

Definition no_objects : sync_sys := mk_sys (mk_sync ∅ ∅) ∅.

(** A run and the events it produced, oldest first. *)
Inductive sync_run : sync_sys -> list sync_event -> sync_sys -> Prop :=
| run_nil s : sync_run s [] s
| run_step s evs s1 e s2 : sync_run s evs s1 -> sync_step s1 e s2 -> sync_run s (evs ++ [e]) s2.

(** Every state reached from no objects through states that satisfy [P]. *)
Inductive sync_reachable (P : sync_sys -> Prop) : sync_sys -> Prop :=
| reach_start : sync_reachable P no_objects
| reach_step s e s' : sync_reachable P s -> sync_step s e s' -> P s' -> sync_reachable P s'.

Definition count_of (h : sync_heap) (p : addr) : option Z := s_count <$> sy_sems h !! p.

Fixpoint signalled (p : addr) (evs : list sync_event) : Z :=
  match evs with
  | [] => 0
  | Signalled q v :: rest => (if decide (p = q) then v else 0) + signalled p rest
  | _ :: rest => signalled p rest
  end.

Fixpoint acquired (p : addr) (evs : list sync_event) : Z :=
  match evs with
  | [] => 0
  | Acquired q v :: rest => (if decide (p = q) then v else 0) + acquired p rest
  | _ :: rest => acquired p rest
  end.

Definition woken_on (p : addr) (t : thread) : bool :=
  match t with Sem_wait true q _ _ => bool_decide (p = q) | _ => false end.

(** The threads unblocked from semaphore [p] that have not tested yet. *)
Definition woken (p : addr) (ths : gmap nat thread) : gmap nat thread :=
  filter (fun kv => woken_on p (snd kv) = true) ths.

Definition unit_waits (s : sync_sys) : Prop :=
  forall t w p value timeout_ms,
    sy_threads s !! t = Some (Sem_wait w p value timeout_ms) -> value = 1.

(** ** Effects of the operations *)

Lemma sem_test_inv p v tm h st h' :
  sem_test p v tm h = Ret (st, h') ->
  exists s, sy_sems h !! p = Some s /\ sy_fences h' = sy_fences h /\
    ((v <= s_count s /\ st = Returned MVGAL_SUCCESS /\
      sy_sems h' = <[p := mk_sem (u64 (s_count s - v)) (s_refcount s)]> (sy_sems h))
     \/ (s_count s < v /\ st = Sem_wait false p v tm /\ h' = h)).
Proof.
  unfold sem_test, sem_at, set_sem. msimpl. intros H.
  destruct (sy_sems h !! p) as [s|]; [|discriminate]. exists s. split; [done|].
  destruct (Z.leb_spec v (s_count s)); simplify_eq; cbn; auto with lia.
Qed.

Lemma sem_wait_inv p v tm h st h' :
  mvgal_semaphore_wait (Some p) v tm h = Ret (st, h') ->
  (v <> 0 /\ sem_test p v tm h = Ret (st, h')) \/
  (st = Returned MVGAL_ERROR_INVALID_ARGUMENT /\ h' = h).
Proof. cbn. destruct (Z.eqb_spec v 0); [|by left]. msimpl. intros [= <- <-]. by right. Qed.

Lemma sem_signal_inv p v h h' :
  mvgal_semaphore_signal (Some p) v h = Ret (MVGAL_SUCCESS, h') ->
  exists s, sy_sems h !! p = Some s /\ v <> 0 /\ sy_fences h' = sy_fences h /\
    sy_sems h' = <[p := mk_sem (u64 (s_count s + v)) (s_refcount s)]> (sy_sems h).
Proof.
  cbn. unfold sem_at, set_sem. destruct (Z.eqb_spec v 0); [done|]. msimpl. intros H.
  destruct (sy_sems h !! p) as [s|]; [|discriminate]. exists s. simplify_eq. by cbn.
Qed.

Lemma sem_destroy_inv p h h' :
  mvgal_semaphore_destroy (Some p) h = Ret (tt, h') ->
  sy_fences h' = sy_fences h /\
  (sy_sems h' = delete p (sy_sems h) \/
   exists s n, sy_sems h !! p = Some s /\ sy_sems h' = <[p := mk_sem (s_count s) n]> (sy_sems h)).
Proof.
  cbn. unfold sem_at, set_sem. msimpl. intros H.
  destruct (sy_sems h !! p) as [s|]; [|discriminate].
  destruct (s_refcount s <=? 1); simplify_eq; cbn; split; eauto.
Qed.

Lemma fence_test_inv p tm h st h' :
  fence_test p tm h = Ret (st, h') ->
  h' = h /\ exists f, sy_fences h !! p = Some f /\
    st = if f_signaled f then Returned (f_status f) else Fence_wait false p tm.
Proof.
  unfold fence_test, fence_at. msimpl. intros H.
  destruct (sy_fences h !! p) as [f|]; [|discriminate]. simplify_eq. eauto.
Qed.

Lemma fence_signal_inv p status h h' :
  mvgal_fence_signal_with_status (Some p) status h = Ret (MVGAL_SUCCESS, h') ->
  sy_sems h' = sy_sems h /\
  exists f, sy_fences h' = <[p := f]> (sy_fences h) /\ f_signaled f = true /\ f_status f = status.
Proof.
  cbn. unfold fence_at, set_fence. msimpl. intros H.
  destruct (sy_fences h !! p) as [f|]; [|discriminate]. simplify_eq. cbn. eauto.
Qed.

Lemma fence_destroy_inv p h h' :
  mvgal_fence_destroy (Some p) h = Ret (tt, h') ->
  sy_sems h' = sy_sems h /\
  (sy_fences h' = delete p (sy_fences h) \/
   exists f f', sy_fences h !! p = Some f /\ f_signaled f' = f_signaled f /\
     sy_fences h' = <[p := f']> (sy_fences h)).
Proof.
  cbn. unfold fence_at, set_fence. msimpl. intros H.
  destruct (sy_fences h !! p) as [f|]; [|discriminate].
  destruct (f_refcount f <=? 1); simplify_eq; cbn; split; [done|by left|done|].
  right. by exists f, (f <| f_refcount ::= fun n => int32 (n - 1) |>).
Qed.

(** Creation uses a new address, a reset clears [signaled]; nothing else
    changes. *)
Lemma run_call_inv c h h' :
  run_call c h = Ret (tt, h') -> call_ok c ->
  (sy_sems h' = sy_sems h \/
   exists p s, sy_sems h !! p = None /\ sy_sems h' = <[p := s]> (sy_sems h) /\ 0 <= s_count s) /\
  (sy_fences h' = sy_fences h \/
   exists p f, sy_fences h' = <[p := f]> (sy_fences h) /\ f_signaled f = false).
Proof.
  assert (F : forall (A : Type) (m : gmap positive A), m !! fresh (dom m) = None)
    by (intros; apply not_elem_of_dom, is_fresh).
  destruct c as [res fence|fence|fence|res v sem|sem value]; cbn.
  - unfold mvgal_fence_create. repeat case_match; msimpl; intros; simplify_eq; cbn; split; eauto.

  - unfold mvgal_fence_check, fence_at. destruct fence as [p|]; msimpl; intros; simplify_eq; eauto.
    destruct (sy_fences h !! p); simplify_eq; eauto.
  - unfold mvgal_fence_reset, fence_at, set_fence.
    destruct fence as [p|]; msimpl; intros; simplify_eq; eauto.
    destruct (sy_fences h !! p); simplify_eq; cbn; split; eauto.
  - unfold mvgal_semaphore_create, is_u64.
    repeat case_match; msimpl; intros; simplify_eq; cbn; split; eauto.
    right. eexists _, _. split_and!; [apply F|done|cbn; lia].
  - unfold mvgal_semaphore_get_value, sem_at.
    destruct sem as [p|], value; msimpl; intros; simplify_eq; eauto.
    destruct (sy_sems h !! p); simplify_eq; eauto.
Qed.

(** ** Conservation of the count *)

(** What one step does to the count of a live semaphore. *)
Lemma step_count s e s' p c :
  sync_step s e s' -> count_of (sy_heap s) p = Some c -> e <> Destroyed p ->
  exists c', count_of (sy_heap s') p = Some c' /\
    match e with
    | Signalled q v => 0 <= v /\ c' = (if decide (p = q) then u64 (c + v) else c)
    | Acquired q v => if decide (p = q) then 0 <= v <= c /\ c' = u64 (c - v) else c' = c
    | _ => c' = c
    end.
Proof.
  unfold count_of.
  assert (T : forall q v tm h st h', sem_test q v tm h = Ret (st, h') -> is_u64 v ->
    s_count <$> sy_sems h !! p = Some c -> exists c', s_count <$> sy_sems h' !! p = Some c' /\
      match tested q v st with
      | Acquired q v => if decide (p = q) then 0 <= v <= c /\ c' = u64 (c - v) else c' = c
      | Signalled _ _ => False
      | _ => c' = c
      end).
  { intros q v tm h st h' Ht [? _] Hc.
    apply sem_test_inv in Ht as (s0 & Hs & _ & [(? & -> & ->)|(? & -> & ->)]); cbn; [|eauto].
    rewrite lookup_insert. destruct (decide (p = q)) as [->|].
    - rewrite decide_True by done. cbn. eexists. split; [done|].
      rewrite Hs in Hc. cbn in Hc. simplify_eq. done.
    - rewrite decide_False by done. eauto. }
  intros [] Hc Hd; cbn [sy_heap] in *; eauto.
  - destruct (run_call_inv _ _ _ H0 H) as [[->|(q & s0 & Hq & -> & _)] _]; [eauto|].
    exists c. rewrite lookup_insert_ne by (intros ->; by rewrite Hq in Hc). done.
  - apply fence_signal_inv in H as (-> & _). eauto.
  - apply fence_destroy_inv in H as (-> & _). eauto.
  - apply fence_test_inv in H0 as (-> & _). eauto.
  - apply fence_test_inv in H0 as (-> & _). eauto.
  - apply sem_signal_inv in H0 as (s0 & Hs & ? & _ & ->). unfold is_u64 in *.
    rewrite lookup_insert. destruct (decide (p = p0)) as [->|].
    + rewrite decide_True by done. rewrite Hs in Hc. cbn in *. simplify_eq. naive_solver lia.
    + rewrite decide_False by done. naive_solver lia.
  - apply sem_destroy_inv in H as (_ & [->|(s0 & n & Hs & ->)]).
    + exists c. rewrite lookup_delete_ne by naive_solver. done.
    + exists c. rewrite lookup_insert_ne by naive_solver. done.
  - apply sem_wait_inv in H1 as [[? H1]|[-> ->]]; [|cbn; eauto].
    specialize (T _ _ _ _ _ _ H1 H0 Hc). destruct (tested _ _ _); naive_solver.
  - specialize (T _ _ _ _ _ _ H1 H0 Hc). destruct (tested _ _ _); naive_solver.
Qed.

Lemma signal_nonneg s q v s' : sync_step s (Signalled q v) s' -> 0 <= v.
Proof.
  intros H. inversion H; subst;
    match goal with
    | E : tested _ _ ?st = _ |- _ => by destruct st as [| |[]]
    | E : is_u64 v |- _ => apply E
    end.
Qed.

Lemma signalled_app p evs evs' : signalled p (evs ++ evs') = signalled p evs + signalled p evs'.
Proof. induction evs as [|[]]; cbn; lia. Qed.

Lemma acquired_app p evs evs' : acquired p (evs ++ evs') = acquired p evs + acquired p evs'.
Proof. induction evs as [|[]]; cbn; lia. Qed.


(** ** Wake-ups *)

Definition nwoken (p : addr) (ths : gmap nat thread) : Z := Z.of_nat (size (woken p ths)).

Definition blocked_sem (p : addr) (ths : gmap nat thread) : Prop :=
  exists t value timeout_ms, ths !! t = Some (Sem_wait false p value timeout_ms).

Lemma woken_insert p t x ths :
  nwoken p (<[t := x]> ths) = nwoken p (delete t ths) + Z.b2z (woken_on p x).
Proof.
  unfold nwoken, woken. rewrite <- insert_delete_eq, map_filter_insert. cbn [snd].
  assert (N : filter (fun kv => woken_on p (snd kv) = true) (delete t ths) !! t = None)
    by (apply map_lookup_filter_None; left; apply lookup_delete_eq).
  case_decide as E.
  - rewrite map_size_insert_None by done. rewrite E. cbn [Z.b2z]. lia.
  - rewrite delete_delete_eq. destruct (woken_on p x); [done|]. cbn [Z.b2z]. lia.
Qed.

Lemma woken_lookup p t x ths :
  ths !! t = Some x -> nwoken p ths = nwoken p (delete t ths) + Z.b2z (woken_on p x).
Proof. intros H. rewrite <- (insert_id ths t x) at 1 by done. apply woken_insert. Qed.

Lemma woken_start p t ths : can_start ths t -> nwoken p (delete t ths) = nwoken p ths.
Proof.
  unfold can_start. destruct (ths !! t) as [x|] eqn:E; intros H.
  - rewrite (woken_lookup p t x ths E). destruct x; [done..|]. cbn. lia.
  - by rewrite delete_id.
Qed.

Lemma woken_fmap p g ths :
  (forall x, woken_on p (g x) = woken_on p x) -> nwoken p (g <$> ths) = nwoken p ths.
Proof.
  intros H. unfold nwoken, woken. rewrite map_filter_fmap, map_size_fmap. do 2 f_equal.
  apply map_filter_ext. intros i x _. cbn. by rewrite H.
Qed.

Lemma nwoken_nonneg p ths : 0 <= nwoken p ths.
Proof. unfold nwoken. lia. Qed.

(** A loop of [n] signals that leaves somebody blocked unblocked [n]
    threads; it touches no other object's waiters. *)
Lemma cond_signals_spec p n ths ths' :
  cond_signals p n ths ths' ->
  (blocked_sem p ths' -> blocked_sem p ths /\ nwoken p ths' = nwoken p ths + Z.of_nat n) /\
  (forall q, q <> p -> nwoken q ths' = nwoken q ths /\ (blocked_sem q ths' -> blocked_sem q ths)) /\
  (forall t f tm, ths' !! t = Some (Fence_wait false f tm) ->
     ths !! t = Some (Fence_wait false f tm)).
Proof.
  induction 1 as [ths|n ths ths1 ths2 H1 _ (IH1 & IH2 & IH3)].
  { split_and!; [|done|done]. intros. split; [done|lia]. }
  assert (O : (blocked_sem p ths1 -> blocked_sem p ths /\ nwoken p ths1 = nwoken p ths + 1) /\
    (forall q, q <> p -> nwoken q ths1 = nwoken q ths /\ (blocked_sem q ths1 -> blocked_sem q ths)) /\
    (forall t f tm, ths1 !! t = Some (Fence_wait false f tm) ->
       ths !! t = Some (Fence_wait false f tm))).
  { destruct H1 as [ths t v tm Ht|ths Hn].
    - split_and!.
      + intros _. split; [by eexists _, _, _|].
        rewrite woken_insert, (woken_lookup p t _ ths Ht). cbn. rewrite bool_decide_true by done.
        cbn. lia.
      + intros q Hq. rewrite woken_insert, (woken_lookup q t _ ths Ht). cbn.
        rewrite bool_decide_false by done. split; [cbn; lia|].
        intros (t' & v' & tm' & Ht'). apply lookup_insert_Some in Ht'.
        exists t', v', tm'. naive_solver.
      + intros t' f tm' Ht'. apply lookup_insert_Some in Ht'. naive_solver.
    - split_and!; [|naive_solver..]. intros (t & v & tm & Ht). by destruct (Hn t v tm). }
  destruct O as (O1 & O2 & O3). split_and!.
  - intros B. destruct (IH1 B) as [B1 E1]. destruct (O1 B1) as [B0 E0]. split; [done|lia].
  - intros q Hq. destruct (IH2 q Hq) as [E1 B1], (O2 q Hq) as [E0 B0]. rewrite E1, E0. auto.
  - auto.
Qed.

(** No thread sleeps beside units it could take: while somebody is blocked on
    a semaphore, every unit of its count has a thread unblocked for it. *)
Definition wake_inv (s : sync_sys) : Prop :=
  forall p, blocked_sem p (sy_threads s) ->
    exists c, count_of (sy_heap s) p = Some c /\ 0 <= c <= nwoken p (sy_threads s).

Lemma blocked_insert q t x ths :
  blocked_sem q (<[t := x]> ths) ->
  blocked_sem q ths \/ exists value timeout_ms, x = Sem_wait false q value timeout_ms.
Proof. intros (t' & v & tm & H). apply lookup_insert_Some in H. unfold blocked_sem. naive_solver. Qed.

(** A step that blocks nobody, keeps the unblocked threads and the counts. *)
Lemma wake_frame h ths h' ths' :
  wake_inv (mk_sys h ths) ->
  (forall q, blocked_sem q ths' -> blocked_sem q ths) ->
  (forall q, nwoken q ths <= nwoken q ths') ->
  (forall q, is_Some (count_of h q) -> count_of h' q = count_of h q) ->
  wake_inv (mk_sys h' ths').
Proof.
  intros I B W C p Hb. destruct (I p (B p Hb)) as (c & Hc & Hle). cbn in *.
  exists c. rewrite C by (by rewrite Hc). split; [done|]. specialize (W p). lia.
Qed.

(** A thread other than a waiter of a semaphore changes state. *)
Lemma wake_other_thread h ths t x :
  (forall q, nwoken q (delete t ths) = nwoken q ths) ->
  match x with Sem_wait _ _ _ _ => False | _ => True end ->
  wake_inv (mk_sys h ths) -> wake_inv (mk_sys h (<[t := x]> ths)).
Proof.
  intros D X I. eapply wake_frame; [exact I|..]; [| |done].
  - intros q Hq. by destruct (blocked_insert _ _ _ _ Hq) as [|(v & tm & ->)].
  - intros q. rewrite woken_insert, D. destruct (woken_on q x); cbn; lia.
Qed.

(** The section of a wait that blocks for one unit at most: [t] is starting
    or was unblocked. *)
Lemma wake_test p v tm h ths t st h' :
  (forall q c, count_of h q = Some c -> 0 <= c) ->
  0 < v -> (st = Sem_wait false p v tm -> v = 1) ->
  can_start ths t \/ ths !! t = Some (Sem_wait true p v tm) ->
  sem_test p v tm h = Ret (st, h') ->
  wake_inv (mk_sys h ths) -> wake_inv (mk_sys h' (<[t := st]> ths)).
Proof.
  intros Hn Hv Hst Ht Hs I q Hb. cbn [sy_heap sy_threads] in *.
  assert (W : nwoken q (delete t ths) = nwoken q ths \/
              (q = p /\ nwoken q (delete t ths) = nwoken q ths - 1)).
  { destruct Ht as [Ht|Ht]; [left; by apply woken_start|].
    rewrite (woken_lookup q t _ ths Ht). cbn. case_bool_decide; cbn; [right|left]; lia. }
  rewrite woken_insert. pose proof (nwoken_nonneg q (delete t ths)).
  apply sem_test_inv in Hs as (s & Hs & _ & [(Hle & -> & E)|(Hlt & -> & ->)]); cbn.
  - destruct (blocked_insert _ _ _ _ Hb) as [B|(? & ? & ?)]; [|done].
    destruct (I q B) as (c & Hc & Hcw). cbn in Hc, Hcw. unfold count_of in *. rewrite E, lookup_insert.
    case_decide as Eq; cbn.
    + subst q. rewrite Hs in Hc. cbn in Hc. simplify_eq. eexists. split; [done|].
      pose proof (u64_range (s_count s - v)) as [? _].
      assert (u64 (s_count s - v) <= s_count s - v) by (apply Z.mod_le; lia). lia.
    + exists c. split; [done|]. lia.
  - destruct (decide (q = p)) as [->|Hqp].
    + exists (s_count s). unfold count_of. rewrite Hs. split; [done|].
      specialize (Hn p (s_count s)). unfold count_of in Hn. rewrite Hs in Hn.
      specialize (Hn eq_refl). specialize (Hst eq_refl). lia.
    + destruct (blocked_insert _ _ _ _ Hb) as [B|(? & ? & ?)]; [|naive_solver].
      destruct (I q B) as (c & Hc & Hcw). cbn in Hc, Hcw. exists c. split; [done|]. lia.
Qed.

Definition counts_ok (h : sync_heap) : Prop := forall p c, count_of h p = Some c -> 0 <= c.

Lemma counts_insert h h' p s :
  counts_ok h -> sy_sems h' = <[p := s]> (sy_sems h) -> 0 <= s_count s -> counts_ok h'.
Proof.
  intros H E Hs q c. unfold count_of. rewrite E, lookup_insert. case_decide; [naive_solver|apply H].
Qed.

Lemma counts_test p v tm h st h' :
  sem_test p v tm h = Ret (st, h') -> counts_ok h -> counts_ok h'.
Proof.
  intros H I. apply sem_test_inv in H as (s & _ & _ & [(_ & _ & E)|(_ & _ & ->)]); [|done].
  eapply counts_insert; [done|exact E|apply u64_range].
Qed.

Lemma counts_step s e s' : sync_step s e s' -> counts_ok (sy_heap s) -> counts_ok (sy_heap s').
Proof.
  intros [] I; cbn [sy_heap] in *; try done.
  - destruct (run_call_inv _ _ _ H0 H) as [[E|(p & s0 & _ & E & ?)] _].
    + intros q n. unfold count_of. rewrite E. apply I.
    + by eapply counts_insert.
  - apply fence_signal_inv in H as (E & _). intros q c. unfold count_of. rewrite E. apply I.
  - apply fence_destroy_inv in H as (E & _). intros q c. unfold count_of. rewrite E. apply I.
  - by apply fence_test_inv in H0 as (-> & _).
  - by apply fence_test_inv in H0 as (-> & _).
  - apply sem_signal_inv in H0 as (s0 & _ & _ & _ & E).
    eapply counts_insert; [done|exact E|apply u64_range].
  - apply sem_destroy_inv in H as (_ & [E|(s0 & n & Hs & E)]).
    + intros q c. unfold count_of. rewrite E, lookup_delete. case_decide; [done|apply I].
    + eapply counts_insert; [done|exact E|]. apply (I p). unfold count_of. by rewrite Hs.
  - apply sem_wait_inv in H1 as [[? H1]|[_ ->]]; [by eapply counts_test|done].
  - by eapply counts_test.
Qed.

(** [mvgal_semaphore_signal] keeps the invariant whatever its value. *)
Lemma wake_signal p v h h' ths ths' :
  is_u64 v -> counts_ok h ->
  mvgal_semaphore_signal (Some p) v h = Ret (MVGAL_SUCCESS, h') ->
  cond_signals p (Z.to_nat v) ths ths' ->
  wake_inv (mk_sys h ths) -> wake_inv (mk_sys h' ths').
Proof.
  intros [Hv _] Hn Hs Hc I q Hb. cbn [sy_heap sy_threads] in *.
  apply sem_signal_inv in Hs as (s & Hs & _ & _ & E).
  apply cond_signals_spec in Hc as (C1 & C2 & _).
  unfold count_of. rewrite E, lookup_insert. case_decide as Eq; cbn.
  - subst q. destruct (C1 Hb) as [B W]. destruct (I p B) as (c & Hcp & Hle).
    cbn in Hle. unfold count_of in Hcp. cbn in Hcp. rewrite Hs in Hcp. cbn in Hcp. simplify_eq.
    eexists. split; [done|]. pose proof (u64_range (s_count s + v)) as [? _].
    assert (u64 (s_count s + v) <= s_count s + v) by (apply Z.mod_le; lia). lia.
  - destruct (C2 q ltac:(done)) as [W B]. rewrite W. apply (I q (B Hb)).
Qed.

Lemma wake_destroy p h h' ths :
  mvgal_semaphore_destroy (Some p) h = Ret (tt, h') ->
  wake_inv (mk_sys h ths) ->
  wake_inv (mk_sys h' (match sy_sems h' !! p with None => wake_sem p <$> ths | Some _ => ths end)).
Proof.
  intros H I. apply sem_destroy_inv in H as (_ & [E|(s & n & Hs & E)]).
  - rewrite E at 1. rewrite lookup_delete_eq. intros q (t & v & tm & Ht). cbn [sy_threads] in *.
    rewrite lookup_fmap in Ht. destruct (ths !! t) as [[w r v' tm'|w f tm'|e]|] eqn:Et; try done.
    cbn in Ht. injection Ht as Hw -> -> ->. apply orb_false_iff in Hw as [-> Hp].
    apply bool_decide_eq_false in Hp.
    destruct (I q) as (c & Hc & Hle); [by eexists _, _, _|]. exists c. split.
    + unfold count_of in *. cbn in *. by rewrite E, lookup_delete_ne.
    + rewrite woken_fmap; [done|]. intros [[] r ? ?| |]; cbn; try done.
      destruct (decide (p = r)); [|by rewrite (bool_decide_false (p = r))].
      by rewrite bool_decide_true, bool_decide_false by congruence.
  - rewrite E at 1. rewrite lookup_insert_eq. eapply wake_frame; [done..|].
    intros q _. unfold count_of. rewrite E, lookup_insert. case_decide; subst; [by rewrite Hs|done].
Qed.

Lemma wake_fence_frame p h h' ths :
  sy_sems h' = sy_sems h ->
  wake_inv (mk_sys h ths) -> wake_inv (mk_sys h' (wake_fence p <$> ths)).
Proof.
  intros E I. eapply wake_frame; [done|..].
  - intros q (t & v & tm & Ht). rewrite lookup_fmap in Ht.
    destruct (ths !! t) as [[]|] eqn:Et; try done. cbn in Ht. eexists _, _, _. by rewrite Et, <- Ht.
  - intros q. rewrite woken_fmap; [done|]. by intros [].
  - intros q _. unfold count_of. by rewrite E.
Qed.

Lemma wake_sems_frame h h' ths :
  sy_sems h' = sy_sems h -> wake_inv (mk_sys h ths) -> wake_inv (mk_sys h' ths).
Proof. intros E I. eapply wake_frame; [done..|]. intros q _. unfold count_of. by rewrite E. Qed.

Lemma woken_remove p t x ths :
  ths !! t = Some x -> woken_on p x = false -> nwoken p (delete t ths) = nwoken p ths.
Proof. intros H E. rewrite (woken_lookup p t x ths H), E. cbn. lia. Qed.

Lemma wake_fence_thread h ths t p tm st h' :
  can_start ths t \/ ths !! t = Some (Fence_wait true p tm) ->
  fence_test p tm h = Ret (st, h') ->
  wake_inv (mk_sys h ths) -> wake_inv (mk_sys h' (<[t := st]> ths)).
Proof.
  intros Ht H I. apply fence_test_inv in H as (-> & f & _ & ->).
  apply wake_other_thread; [|by destruct (f_signaled f)|done].
  intros q. destruct Ht as [Ht|Ht]; [by apply woken_start|by eapply woken_remove].
Qed.

Lemma wake_step s e s' :
  sync_step s e s' -> unit_waits s -> unit_waits s' -> counts_ok (sy_heap s) ->
  wake_inv s -> wake_inv s'.
Proof.
  intros [] U U' Hn I; cbn [sy_heap] in *.
  - destruct (run_call_inv _ _ _ H0 H) as [[E|(p & s0 & Hp & E & ?)] _]; [by eapply wake_sems_frame|].
    eapply wake_frame; [done..|]. intros q Hq.
    unfold count_of in *. rewrite E, lookup_insert_ne; [done|]. intros ->. rewrite Hp in Hq.
    by destruct Hq.
  - apply fence_signal_inv in H as (E & _). by eapply wake_fence_frame.
  - apply fence_destroy_inv in H as (E & _).
    destruct (sy_fences h' !! p); [by eapply wake_sems_frame|by eapply wake_fence_frame].
  - eapply wake_fence_thread; eauto.
  - eapply wake_fence_thread; eauto.
  - apply wake_other_thread; [|done|done]. intros q. by eapply woken_remove.
  - apply wake_other_thread; [|done|done]. intros q. by eapply woken_remove.
  - by eapply wake_signal.
  - by eapply wake_destroy.
  - apply sem_wait_inv in H1 as [[? H1]|[-> ->]].
    + eapply (wake_test p value); eauto; [unfold is_u64 in *; lia|].
      intros ->. eapply (U' t). cbn. apply lookup_insert_eq.
    + apply wake_other_thread; [|done|done]. intros q. by apply woken_start.
  - assert (value = 1) as -> by by eapply (U t). eapply wake_test; eauto. lia.
  - eapply wake_frame; [done|..]; [| |done].
    + intros q Hq. by destruct (blocked_insert _ _ _ _ Hq) as [|(v & tm & ?)].
    + intros q. rewrite woken_insert, (woken_remove q t _ ths H) by done.
      destruct (woken_on q _); cbn; lia.
  - apply wake_other_thread; [|done|done]. intros q. by eapply woken_remove.
Qed.

Lemma reachable_wake s :
  sync_reachable unit_waits s -> unit_waits s /\ counts_ok (sy_heap s) /\ wake_inv s.
Proof.
  induction 1 as [|s e s' _ (U & C & I) St U'].
  - split_and!; [intros t w p v tm H|intros p c H|intros p (t & v & tm & H)]; cbn in H.
    + by rewrite lookup_empty in H.
    + unfold count_of in H. cbn in H. by rewrite lookup_empty in H.
    + by rewrite lookup_empty in H.
  - split_and!; [done|by eapply counts_step|by eapply wake_step].
Qed.

(** C26. No lost wake-up for unit waits.  In any state reached by any
    interleaving in which threads only block for one unit, if a thread is
    blocked on a semaphore and no unblocked thread is on its way to take the
    mutex, the semaphore is live and its count is zero. *)
Theorem semaphore_no_lost_wakeup s t p value timeout_ms :
  sync_reachable unit_waits s ->
  sy_threads s !! t = Some (Sem_wait false p value timeout_ms) ->
  woken p (sy_threads s) = ∅ ->
  count_of (sy_heap s) p = Some 0.
Proof.
  intros (_ & _ & I)%reachable_wake Ht W.
  destruct (I p) as (c & Hc & Hle); [by eexists _, _, _|].
  unfold nwoken in Hle. rewrite W, map_size_empty in Hle. rewrite Hc. f_equal. lia.
Qed.

(** ** Fences and their waiters *)

Definition fence_inv (s : sync_sys) : Prop :=
  forall t p timeout_ms, sy_threads s !! t = Some (Fence_wait false p timeout_ms) ->
    exists f, sy_fences (sy_heap s) !! p = Some f /\ f_signaled f = false.

Lemma fence_frame h ths h' ths' :
  (forall t p tm, ths' !! t = Some (Fence_wait false p tm) -> ths !! t = Some (Fence_wait false p tm)) ->
  sy_fences h' = sy_fences h ->
  fence_inv (mk_sys h ths) -> fence_inv (mk_sys h' ths').
Proof. intros T E I t p tm H. cbn in *. rewrite E. by eapply (I t), T. Qed.

Lemma fence_insert h ths t x :
  match x with Fence_wait false _ _ => False | _ => True end ->
  fence_inv (mk_sys h ths) -> fence_inv (mk_sys h (<[t := x]> ths)).
Proof.
  intros X. apply fence_frame; [|done]. intros t' p tm H.
  apply lookup_insert_Some in H as [(_ & ->)|(_ & ?)]; done.
Qed.

(** After a broadcast the blocked threads are those of other fences. *)
Lemma wake_fence_blocked p (ths : gmap nat thread) t q tm :
  (wake_fence p <$> ths) !! t = Some (Fence_wait false q tm) ->
  ths !! t = Some (Fence_wait false q tm) /\ p <> q.
Proof.
  rewrite lookup_fmap. destruct (ths !! t) as [[|w r tm'|]|]; try done. cbn.
  intros H. injection H as Hw -> ->. apply orb_false_iff in Hw as [-> Hp].
  by apply bool_decide_eq_false in Hp.
Qed.

Lemma fence_test_blocks p tm h ths t st h' :
  fence_test p tm h = Ret (st, h') ->
  fence_inv (mk_sys h ths) -> fence_inv (mk_sys h' (<[t := st]> ths)).
Proof.
  intros H I. apply fence_test_inv in H as (-> & f & Hf & ->).
  destruct (f_signaled f) eqn:E; [by apply fence_insert|].
  intros t' q tm' Ht. cbn in *. apply lookup_insert_Some in Ht as [(_ & Hq)|(_ & Ht)].
  - simplify_eq. eauto.
  - by eapply (I t').
Qed.

Lemma fence_step s e s' : sync_step s e s' -> fence_inv s -> fence_inv s'.
Proof.
  assert (T : forall p v tm h st h' t ths, sem_test p v tm h = Ret (st, h') ->
    fence_inv (mk_sys h ths) -> fence_inv (mk_sys h' (<[t := st]> ths))).
  { intros p v tm h st h' t ths H I. apply (fence_frame h (<[t := st]> ths)); [done| |].
    - by apply sem_test_inv in H as (? & _ & ? & _).
    - apply fence_insert; [|done]. by apply sem_test_inv in H as (? & _ & _ & [(_ & -> & _)|(_ & -> & _)]). }
  intros [] I.
  - destruct (run_call_inv _ _ _ H0 H) as [_ [E|(p & f & E & Hf)]]; [by eapply fence_frame|].
    intros t q tm Ht. cbn in *. rewrite E, lookup_insert. case_decide; [eauto|by eapply (I t)].
  - apply fence_signal_inv in H as (_ & f & E & _). intros t q tm Ht. cbn in *.
    apply wake_fence_blocked in Ht as [Ht Hne]. rewrite E, lookup_insert_ne by done. by eapply (I t).
  - apply fence_destroy_inv in H as (_ & [E|(f & f' & Hf & Hs & E)]); intros t q tm Ht; cbn in *.
    + rewrite E, lookup_delete_eq in Ht. apply wake_fence_blocked in Ht as [Ht Hne].
      rewrite E, lookup_delete_ne by done. by eapply (I t).
    + rewrite E, lookup_insert_eq in Ht. destruct (I t q tm Ht) as (f0 & Hf0 & Hs0). cbn in Hf0.
      rewrite E, lookup_insert. case_decide; [|eauto]. subst q. exists f'. naive_solver congruence.
  - by eapply fence_test_blocks.
  - by eapply fence_test_blocks.
  - by apply fence_insert.
  - by apply fence_insert.
  - apply sem_signal_inv in H0 as (_ & _ & _ & E & _).
    apply cond_signals_spec in H1 as (_ & _ & F). by eapply fence_frame.
  - apply sem_destroy_inv in H as (E & _). eapply fence_frame; [|exact E|exact I].
    intros t q tm. destruct (sy_sems h' !! p); [done|]. rewrite lookup_fmap.
    by destruct (ths !! t) as [[]|].
  - apply sem_wait_inv in H1 as [[_ H1]|[-> ->]]; [by eapply T|by apply fence_insert].
  - by eapply T.
  - by apply fence_insert.
  - by apply fence_insert.
Qed.

(** Signalling a fence unblocks every waiter.  In any reachable state a
    thread is blocked on a fence only while the fence is live and not
    signalled; a thread that tests a signalled fence returns the status it
    was signalled with. *)
Theorem fence_waiters_unsignalled s t p timeout_ms :
  sync_reachable (fun _ => True) s ->
  (sy_threads s !! t = Some (Fence_wait false p timeout_ms) ->
   exists f, sy_fences (sy_heap s) !! p = Some f /\ f_signaled f = false) /\
  (forall status h, mvgal_fence_signal_with_status (Some p) status (sy_heap s) = Ret (MVGAL_SUCCESS, h) ->
   fence_test p timeout_ms h = Ret (Returned status, h)).
Proof.
  intros R. split.
  - assert (I : fence_inv s); [|by apply I]. clear t p timeout_ms. induction R.
    + intros t p tm H. cbn in H. by rewrite lookup_empty in H.
    + by eapply fence_step.
  - intros status h H. apply fence_signal_inv in H as (_ & f & E & Hs & Hst).
    unfold fence_test, fence_at. msimpl. rewrite E, lookup_insert_eq. cbn. by rewrite Hs, Hst.
Qed.

(** ** Concrete runs *)

Module Runs.

(** One semaphore at address 1 and two waiters, blocked or unblocked. *)
Definition sem (count : Z) : sync_heap := mk_sync ∅ {[1%positive := mk_sem count 1]}.
Definition waiters (w0 w1 : thread) : gmap nat thread := <[1%nat := w1]> {[0%nat := w0]}.

Lemma waiters_set w0 w1 x : <[0%nat := x]> (waiters w0 w1) = waiters x w1.
Proof. reflexivity. Qed.

Definition working : sync_resources := mk_res true true true.

Lemma sem_created P s0 :
  P (mk_sys (sem 0) ∅) -> s0 = mk_sys (sem 0) ∅ -> sync_reachable P s0.
Proof.
  intros HP ->. eapply reach_step; [apply reach_start| |done].
  apply (step_call (Semaphore_create working 0 true)); [|reflexivity].
  cbn. unfold is_u64, U64_MAX. lia.
Qed.

(** Both threads block, one for [v0] units and the other for one. *)
Lemma both_blocked (P : sync_sys -> Prop) v0 :
  0 < v0 <= U64_MAX ->
  P (mk_sys (sem 0) ∅) ->
  P (mk_sys (sem 0) {[0%nat := Sem_wait false 1 v0 0]}) ->
  P (mk_sys (sem 0) (waiters (Sem_wait false 1 v0 0) (Sem_wait false 1 1 0))) ->
  sync_reachable P (mk_sys (sem 0) (waiters (Sem_wait false 1 v0 0) (Sem_wait false 1 1 0))).
Proof.
  unfold U64_MAX. intros Hv P0 P1 P2.
  eapply reach_step; [eapply reach_step; [by eapply sem_created| |exact P1]| |exact P2].
  - apply (step_sem_wait 1 v0 0 0); [done|unfold is_u64, U64_MAX; lia|].
    unfold mvgal_semaphore_wait. destruct (Z.eqb_spec v0 0); [lia|].
    unfold sem_test, sem_at. msimpl. cbn. rewrite lookup_singleton_eq. cbn.
    destruct (Z.leb_spec v0 0); [lia|done].
  - apply (step_sem_wait 1 1 0 1); [done|unfold is_u64, U64_MAX; lia|reflexivity].
Qed.

(** Signalling one unit unblocks thread 0. *)
Lemma signal_one v0 :
  sync_step (mk_sys (sem 0) (waiters (Sem_wait false 1 v0 0) (Sem_wait false 1 1 0)))
    (Signalled 1 1)
    (mk_sys (sem 1) (waiters (Sem_wait true 1 v0 0) (Sem_wait false 1 1 0))).
Proof.
  eapply step_sem_signal; [unfold is_u64, U64_MAX; lia|reflexivity|].
  change (Z.to_nat 1) with 1%nat. econstructor; [|apply signals_done].
  rewrite <- (waiters_set (Sem_wait false 1 v0 0) _ (Sem_wait true 1 v0 0)).
  apply (signal_wakes 1 _ 0%nat v0 0). reflexivity.
Qed.

(** Waits for different numbers of units can lose a wake-up: the signal
    of one unit may unblock a thread that needs more; it blocks again and the
    thread that one unit would satisfy is never unblocked. *)
Theorem mixed_waits_lose_wakeup :
  exists s t p value c,
    sync_reachable (fun _ => True) s /\
    sy_threads s !! t = Some (Sem_wait false p value 0) /\
    woken p (sy_threads s) = ∅ /\
    count_of (sy_heap s) p = Some c /\ value <= c.
Proof.
  exists (mk_sys (sem 1) (waiters (Sem_wait false 1 5 0) (Sem_wait false 1 1 0))), 1%nat, 1%positive, 1, 1.
  split_and!; [|reflexivity|reflexivity|reflexivity|lia].
  eapply reach_step; [eapply reach_step; [apply (both_blocked _ 5)|apply signal_one|]| |];
    [unfold U64_MAX; lia|done..| |done].
  rewrite <- (waiters_set (Sem_wait true 1 5 0) _ (Sem_wait false 1 5 0)).
  apply (step_sem_resume 1 5 0 0); [done|unfold is_u64, U64_MAX; lia|reflexivity].
Qed.

Ltac unit_case :=
  intros t w p v tm H; cbn in H; unfold waiters in H;
  repeat (apply lookup_insert_Some in H as [(_ & H)|(_ & H)]; [congruence|]);
  first [apply lookup_singleton_Some in H as (_ & H); congruence | by rewrite lookup_empty in H].

Lemma semaphore_no_lost_wakeup_witness : count_of (sem 0) 1 = Some 0.
Proof.
  apply (semaphore_no_lost_wakeup
    (mk_sys (sem 0) (waiters (Returned MVGAL_SUCCESS) (Sem_wait false 1 1 0))) 1 1 1 0);
    [|reflexivity|reflexivity].
  eapply reach_step; [eapply reach_step; [apply (both_blocked _ 1)|apply signal_one|]| |];
    [unfold U64_MAX; lia|unit_case..| |unit_case].
  rewrite <- (waiters_set (Sem_wait true 1 1 0) _ (Returned MVGAL_SUCCESS)).
  apply (step_sem_resume 1 1 0 0); [done|unfold is_u64, U64_MAX; lia|reflexivity].
Defined.


Definition fence (signaled : bool) : sync_heap :=
  mk_sync {[1%positive := mk_fence signaled 1 MVGAL_SUCCESS None]} ∅.

Lemma fence_created P : P (mk_sys (fence false) ∅) -> sync_reachable P (mk_sys (fence false) ∅).
Proof.
  intros HP. eapply reach_step; [apply reach_start| |done].
  by apply (step_call (Fence_create working true)).
Qed.

Lemma fence_waiters_unsignalled_witness :
  exists f, sy_fences (fence false) !! 1%positive = Some f /\ f_signaled f = false.
Proof.
  apply (fence_waiters_unsignalled (mk_sys (fence false) {[0%nat := Fence_wait false 1 0]}) 0 1 0);
    [|reflexivity].
  eapply reach_step; [by apply fence_created| |done].
  by apply (step_fence_wait 1 0 0).
Defined.

(** Destroying a fence under a waiter is unsafe: the broadcast unblocks
    the waiter, the fence is freed before the waiter has taken the mutex
    back, and the waiter's next access is a use after free. *)
Theorem destroy_under_waiter :
  exists s t p, sync_reachable (fun _ => True) s /\
    sy_threads s !! t = Some (Fence_wait true p 0) /\
    fence_test p 0 (sy_heap s) = Fault UseAfterFree.
Proof.
  exists (mk_sys (mk_sync ∅ ∅) {[0%nat := Fence_wait true 1 0]}), 0%nat, 1%positive.
  split_and!; [|reflexivity|reflexivity].
  eapply (reach_step _ (mk_sys (fence false) {[0%nat := Fence_wait false 1 0]})); [| |done].
  - eapply reach_step; [by apply fence_created|by apply (step_fence_wait 1 0 0)|done].
  - apply (step_fence_destroy 1 (fence false)). reflexivity.
Qed.

End Runs.
