(* ===== verification/CMem.v ===== *)
(** * Memory of a C process

    Byte-addressed memory as the memory manager uses it: [malloc]ed blocks
    and mappings of files.  An object is an array of bytes; a region is a
    window on an object, and a pointer is a region with a byte offset.  Two
    mappings of one file are two regions on one object, so a store through
    one is seen through the other. *)

From S2P Require Import Prelude.
Local Open Scope Z_scope.

Record region : Type := mk_region {
  rg_obj : positive;   (** the object the window is on *)
  rg_base : Z;         (** where in the object it starts *)
  rg_size : Z;         (** its length in bytes *)
  rg_heap : bool;      (** returned by [malloc], not by [mmap] *)
  rg_gone : list (Z * Z)   (** the ranges of it that were unmapped *)
}.

#[export] Instance region_eta : Eta region := fun r =>
  mk_region (rg_obj r) (rg_base r) (rg_size r) (rg_heap r) (rg_gone r).

Record cmem : Type := mk_cmem {
  cm_objs : gmap positive (list Z);
  cm_regs : gmap positive region
}.

#[export] Instance cmem_eta : Eta cmem := fun r => mk_cmem (cm_objs r) (cm_regs r).

Abbreviation ptr := (positive * Z)%type.
Abbreviation CM := (M cmem).

(** [(char * )p + n]. *)
Definition ptr_add (p : option ptr) (n : Z) : option ptr :=
  match p with Some (r, o) => Some (r, o + n) | None => None end.

(** The [n] bytes of a list from position [i], and their replacement. *)
Definition slice (i n : Z) (l : list Z) : list Z := take (Z.to_nat n) (drop (Z.to_nat i) l).
Definition splice (i : Z) (bs l : list Z) : list Z :=
  take (Z.to_nat i) l ++ bs ++ drop (Z.to_nat i + length bs) l.

(** No byte of the [n] bytes from [o] was unmapped. *)
Definition intact (rg : region) (o n : Z) : bool :=
  forallb (fun g => (o + n <=? fst g) || (snd g <=? o)) (rg_gone rg).

(** The object and the position in it of an access of [n] bytes at [p]. *)
Definition resolve (p : option ptr) (n : Z) : CM (positive * Z) := fun m =>
  match p with
  | None => Fault NullDeref
  | Some (r, o) =>
      match cm_regs m !! r with
      | None => Fault UseAfterFree
      | Some rg =>
          match cm_objs m !! rg_obj rg with
          | None => Fault UseAfterFree
          | Some bytes =>
              if (0 <=? o) && (o + n <=? rg_size rg) && (0 <=? rg_base rg)
                 && (rg_base rg + o + n <=? Z.of_nat (length bytes))
              then if intact rg o n then Ret ((rg_obj rg, rg_base rg + o), m) else Fault UseAfterFree
              else Fault OutOfBounds
          end
      end
  end.

Definition load (p : option ptr) (n : Z) : CM (list Z) :=
  if n =? 0 then mret [] else
  x ← resolve p n;
  m ← get;
  mret (slice (snd x) n (default [] (cm_objs m !! fst x))).

Definition store_bytes (p : option ptr) (bs : list Z) : CM unit :=
  if Z.of_nat (length bs) =? 0 then mret tt else
  x ← resolve p (Z.of_nat (length bs));
  modify (fun m => m <| cm_objs ::= alter (splice (snd x) bs) (fst x) |>).

(** [memcpy] reads before it writes; the regions of its callers do not
    overlap. *)
Definition memcpy (dst src : option ptr) (n : Z) : CM unit :=
  bs ← load src n;
  store_bytes dst bs.

Definition memset (p : option ptr) (b n : Z) : CM unit :=
  store_bytes p (replicate (Z.to_nat n) b).

(** A new object with a region over the whole of it. *)
Definition new_block (bytes : list Z) : CM ptr := fun m =>
  let o := fresh (dom (cm_objs m)) in
  let r := fresh (dom (cm_regs m)) in
  Ret ((r, 0), m <| cm_objs ::= <[o := bytes]> |>
                 <| cm_regs ::= <[r := mk_region o 0 (Z.of_nat (length bytes)) true []]> |>).

Definition new_object (bytes : list Z) : CM positive := fun m =>
  let o := fresh (dom (cm_objs m)) in
  Ret (o, m <| cm_objs ::= <[o := bytes]> |>).

Definition new_mapping (obj : positive) (base size : Z) : CM ptr := fun m =>
  let r := fresh (dom (cm_regs m)) in
  Ret ((r, 0), m <| cm_regs ::= <[r := mk_region obj base size false []]> |>).

Definition free (p : option ptr) : CM unit := fun m =>
  match p with
  | None => Ret (tt, m)
  | Some (r, o) =>
      match cm_regs m !! r with
      | None => Fault UseAfterFree
      | Some rg =>
          if rg_heap rg && (o =? 0)
          then Ret (tt, m <| cm_objs ::= delete (rg_obj rg) |> <| cm_regs ::= delete r |>)
          else Fault InvalidFree
      end
  end.

(** Pages of 4096 bytes and the 47-bit user addresses of x86-64. *)
Definition PAGE_SIZE : Z := 4096.
Definition TASK_SIZE : Z := 140737488351232.

Definition page_up (n : Z) : Z := (n + (PAGE_SIZE - 1)) / PAGE_SIZE * PAGE_SIZE.

(** [munmap] removes the pages of [len] bytes from [p], whatever mapping they
    belong to.  Inside one mapping that is the whole mapping or a range of
    it.  Pages past its end, pages that were unmapped before and pages of the
    heap can belong to anybody: removing them is a fault.  The call fails on
    an address that is not the start of a page, and on a length of zero or of
    more than the address space; its callers ignore that. *)
Definition munmap (p : ptr) (len : Z) : CM unit := fun m =>
  let '(r, o) := p in
  let stop := o + page_up len in
  if (len <=? 0) || (TASK_SIZE <? len) || negb (o mod PAGE_SIZE =? 0) then Ret (tt, m) else
  match cm_regs m !! r with
  | None => Fault OverUnmap
  | Some rg =>
      if rg_heap rg || (o <? 0) || (page_up (rg_size rg) <? stop) || negb (intact rg o (page_up len))
      then Fault OverUnmap
      else if (o =? 0) && (page_up (rg_size rg) =? stop)
      then Ret (tt, m <| cm_regs ::= delete r |>)
      else Ret (tt, m <| cm_regs ::= <[r := rg <| rg_gone ::= cons (o, stop) |>]> |>)
  end.

(** ** Byte arrays *)

Lemma slice_length i n l :
  0 <= i -> 0 <= n -> i + n <= Z.of_nat (length l) -> length (slice i n l) = Z.to_nat n.
Proof. intros. unfold slice. rewrite length_take, length_drop. lia. Qed.

Lemma splice_length i bs l :
  0 <= i -> i + Z.of_nat (length bs) <= Z.of_nat (length l) ->
  length (splice i bs l) = length l.
Proof.
  intros. unfold splice. rewrite !length_app, length_take, length_drop. lia.
Qed.

Lemma lookup_slice i n l k :
  0 <= i -> slice i n l !! k = if decide (Z.of_nat k < n) then l !! (Z.to_nat i + k)%nat else None.
Proof.
  intros. unfold slice. case_decide.
  - rewrite lookup_take_lt by lia. by rewrite lookup_drop.
  - by rewrite lookup_take_ge by lia.
Qed.

Lemma lookup_splice i bs l k :
  0 <= i -> i + Z.of_nat (length bs) <= Z.of_nat (length l) ->
  splice i bs l !! k =
    if decide (i <= Z.of_nat k < i + Z.of_nat (length bs))
    then bs !! (k - Z.to_nat i)%nat else l !! k.
Proof.
  intros Hi Hb. unfold splice.
  assert (Lt : length (take (Z.to_nat i) l) = Z.to_nat i) by (rewrite length_take; lia).
  destruct (decide (Z.of_nat k < i)).
  - rewrite decide_False by lia. rewrite lookup_app_l by lia. by rewrite lookup_take_lt by lia.
  - rewrite lookup_app_r by lia. rewrite Lt. case_decide.
    + by rewrite lookup_app_l by lia.
    + rewrite lookup_app_r by lia. rewrite lookup_drop. f_equal. lia.
Qed.

Lemma slice_splice_same i bs l :
  0 <= i -> i + Z.of_nat (length bs) <= Z.of_nat (length l) ->
  slice i (Z.of_nat (length bs)) (splice i bs l) = bs.
Proof.
  intros Hi Hb. apply list_eq. intros k. rewrite lookup_slice by done. case_decide.
  - rewrite lookup_splice by done. rewrite decide_True by lia. f_equal. lia.
  - symmetry. apply lookup_ge_None. lia.
Qed.

Lemma slice_splice_other i n j bs l :
  0 <= i -> 0 <= j -> j + Z.of_nat (length bs) <= Z.of_nat (length l) ->
  i + n <= j \/ j + Z.of_nat (length bs) <= i ->
  slice i n (splice j bs l) = slice i n l.
Proof.
  intros Hi Hj Hb Hd. apply list_eq. intros k. rewrite !lookup_slice by done. case_decide; [|done].
  rewrite lookup_splice by done. rewrite decide_False by lia. done.
Qed.

(** ** Blocks *)

(** [p] is the start of a region of [size] bytes. *)
Record block_at (m : cmem) (p : ptr) (size : Z) (heap : bool) : Prop := {
  ba_region : exists rg bytes, cm_regs m !! fst p = Some rg /\ cm_objs m !! rg_obj rg = Some bytes /\
    rg_base rg = 0 /\ rg_size rg = size /\ rg_heap rg = heap /\ rg_gone rg = [] /\
    Z.of_nat (length bytes) = size;
  ba_start : snd p = 0
}.

Lemma resolve_block m p size heap o n :
  block_at m p size heap -> 0 <= o -> o + n <= size ->
  exists rg, cm_regs m !! fst p = Some rg /\ resolve (ptr_add (Some p) o) n m = Ret ((rg_obj rg, o), m).
Proof.
  intros [(rg & bytes & Hr & Ho & Hb & Hs & Hh & Hg & Hl) Hz] Hlo Hhi. exists rg. split; [done|].
  destruct p as [r z]. cbn [fst snd ptr_add resolve] in *. subst z. rewrite Hr, Ho, Hb, Hs, Z.add_0_l.
  assert (E : ((0 <=? o) && (o + n <=? size) && (0 <=? 0) && (0 + o + n <=? Z.of_nat (length bytes)))%bool
    = true).
  { rewrite !andb_true_iff, !Z.leb_le. lia. }
  unfold intact. by rewrite E, Hg.
Qed.

(** Stores change bytes of one object and no region. *)
Lemma store_block m p size heap o bs :
  block_at m p size heap -> 0 <= o -> o + Z.of_nat (length bs) <= size ->
  exists m', store_bytes (ptr_add (Some p) o) bs m = Ret (tt, m') /\ cm_regs m' = cm_regs m /\
    dom (cm_objs m') = dom (cm_objs m) /\
    (forall rg, cm_regs m !! fst p = Some rg ->
       cm_objs m' = alter (splice o bs) (rg_obj rg) (cm_objs m)) /\
    (forall p' size' heap', block_at m p' size' heap' -> block_at m' p' size' heap').
Proof.
  intros Hb Hlo Hhi. unfold store_bytes.
  assert (Hsp : forall l, Z.of_nat (length l) = size -> length (splice o bs l) = length l)
    by (intros l Hl; apply splice_length; lia).
  destruct (Z.eqb_spec (Z.of_nat (length bs)) 0) as [E|E].
  - destruct bs; [|cbn in E; lia]. exists m. split_and!; try done. intros rg Hr.
    apply map_eq. intros k. rewrite lookup_alter. case_decide; [|done]. subst.
    destruct (cm_objs m !! rg_obj rg) as [l|]; [|done]. cbn. f_equal. unfold splice. cbn.
    by rewrite Nat.add_0_r, take_drop.
  - destruct (resolve_block m p size heap o (Z.of_nat (length bs)) Hb Hlo Hhi) as (rg & Hr & Hres).
    eexists. erewrite bind_ret by exact Hres. split; [reflexivity|]. cbn [fst snd].
    destruct Hb as [(rg0 & bytes & Hr0 & Ho & _ & _ & _ & _ & Hl) _]. simplify_eq.
    split_and!; [done| |intros rg' Hr'; by simplify_eq|].
    + cbn. apply set_eq. intros k. rewrite !elem_of_dom, lookup_alter.
      case_decide; [subst; by rewrite Ho|done].
    + intros p' size' heap' [(rg' & bytes' & ? & Ho' & ? & ? & ? & ? & ?) ?]. constructor; [|done].
      cbn. destruct (decide (rg_obj rg' = rg_obj rg0)) as [Eo|].
      * rewrite Eo in Ho'. simplify_eq. exists rg', (splice o bs bytes).
        rewrite Eo, lookup_alter_eq, Ho. cbn. rewrite Hsp by done. split_and!; try done.
      * exists rg', bytes'. by rewrite lookup_alter_ne.
Qed.

(** ** Windows

    [size] bytes of an object seen through a pointer into a region of it. *)
Record window (m : cmem) (p : ptr) (size : Z) (rg : region) (obj : list Z) : Prop := {
  wn_region : cm_regs m !! fst p = Some rg;
  wn_object : cm_objs m !! rg_obj rg = Some obj;
  wn_start : 0 <= snd p /\ 0 <= rg_base rg;
  wn_end : snd p + size <= rg_size rg;
  wn_intact : intact rg (snd p) size = true;
  wn_object_end : rg_base rg + rg_size rg <= Z.of_nat (length obj)
}.

Lemma intact_within rg o n o' n' :
  intact rg o n = true -> o <= o' -> o' + n' <= o + n -> intact rg o' n' = true.
Proof.
  unfold intact. rewrite !forallb_forall. intros Hi H1 H2 g Hg. specialize (Hi g Hg).
  rewrite orb_true_iff, !Z.leb_le in *. lia.
Qed.

Lemma window_resolve m p size rg obj o n :
  window m p size rg obj -> 0 <= o -> 0 <= n -> o + n <= size ->
  resolve (ptr_add (Some p) o) n m = Ret ((rg_obj rg, rg_base rg + snd p + o), m).
Proof.
  intros [Hr Ho [Hs Hb] He Hi Hl] Hlo Hn Hhi. destruct p as [r z]. cbn [fst snd ptr_add resolve] in *.
  rewrite Hr, Ho.
  assert (E : ((0 <=? z + o) && (z + o + n <=? rg_size rg) && (0 <=? rg_base rg)
    && (rg_base rg + (z + o) + n <=? Z.of_nat (length obj)))%bool = true).
  { rewrite !andb_true_iff, !Z.leb_le. lia. }
  rewrite E, (intact_within _ _ _ _ _ Hi) by lia. do 2 f_equal. f_equal. lia.
Qed.

Lemma window_load m p size rg obj o n :
  window m p size rg obj -> 0 <= o -> 0 < n -> o + n <= size ->
  load (ptr_add (Some p) o) n m = Ret (slice (rg_base rg + snd p + o) n obj, m).
Proof.
  intros W Hlo Hn Hhi. unfold load. rewrite (proj2 (Z.eqb_neq _ _)) by lia.
  erewrite bind_ret by (eapply window_resolve; [done|lia..]).
  unfold get, mbind, M_bind, mret, M_ret. cbn [fst snd]. by rewrite (wn_object _ _ _ _ _ W).
Qed.

Definition set_object (o : positive) (bytes : list Z) (m : cmem) : cmem :=
  m <| cm_objs := <[o := bytes]> (cm_objs m) |>.

Lemma window_store m p size rg obj o bs :
  window m p size rg obj -> 0 <= o -> bs <> [] -> o + Z.of_nat (length bs) <= size ->
  store_bytes (ptr_add (Some p) o) bs m =
    Ret (tt, set_object (rg_obj rg) (splice (rg_base rg + snd p + o) bs obj) m).
Proof.
  intros W Hlo Hn Hhi. unfold store_bytes.
  assert (Hpos : 0 < Z.of_nat (length bs)) by (destruct bs; [done|cbn; lia]).
  rewrite (proj2 (Z.eqb_neq _ _)) by lia.
  erewrite bind_ret by (eapply window_resolve; [done|lia..]).
  unfold modify, set_object. cbn [fst snd]. do 2 f_equal. destruct m as [objs regs]. cbn. f_equal.
  apply map_eq. intros k. rewrite lookup_alter, lookup_insert. case_decide; [|done].
  subst k. pose proof (wn_object _ _ _ _ _ W) as Ho. cbn in Ho. by rewrite Ho.
Qed.

(** A store through one window, seen through another one on the same or on
    another object. *)
Lemma window_stored m p size rg obj o bs q size' rg' obj' :
  window m p size rg obj -> window m q size' rg' obj' ->
  0 <= o -> o + Z.of_nat (length bs) <= size ->
  window (set_object (rg_obj rg) (splice (rg_base rg + snd p + o) bs obj) m) q size' rg'
    (if decide (rg_obj rg' = rg_obj rg) then splice (rg_base rg + snd p + o) bs obj else obj').
Proof.
  intros [Hr Ho [Hs Hb] He Hi Hl] [Hr' Ho' Hs' He' Hi' Hl'] Hlo Hhi. constructor; cbn; try done.
  - rewrite lookup_insert. case_decide; case_decide; congruence.
  - case_decide as E; [|done]. rewrite splice_length by lia. rewrite E in Ho'. by simplify_eq.
Qed.
