(* ===== verification/MemTypes.v ===== *)
(** * Data of the memory manager

    include/mvgal/mvgal_memory.h and src/userspace/memory/memory_internal.h:
    buffers, GPU bindings and the module state, with the system calls the
    module makes as an environment. *)

From S2P Require Import Prelude Float32 CString GpuTypes GpuManager SyncPrims CMem.
Local Open Scope Z_scope.

(** ** Flags *)

Definition MVGAL_MEMORY_FLAG_HOST_VALID : Z := 1.
Definition MVGAL_MEMORY_FLAG_GPU_VALID : Z := 2.
Definition MVGAL_MEMORY_FLAG_SHARED : Z := 16.
Definition MVGAL_MEMORY_FLAG_DMA_BUF : Z := 32.
Definition MVGAL_MEMORY_FLAG_ZERO_INITIALIZED : Z := 1024.

Definition MVGAL_MEMORY_ACCESS_READ : Z := 1.
Definition MVGAL_MEMORY_ACCESS_WRITE : Z := 2.
Definition MVGAL_MEMORY_ACCESS_READ_WRITE : Z := 3.

Definition MVGAL_BUFFER_STATE_ALLOCATED : Z := 1.
Definition MVGAL_BUFFER_STATE_MAPPED : Z := 2.
Definition MVGAL_BUFFER_STATE_EXPORTED : Z := 4.
Definition MVGAL_BUFFER_STATE_REPLICATED : Z := 16.

Definition MVGAL_BUFFER_ALIAS_FLAG_NONE : Z := 0.
Definition MVGAL_BUFFER_ALIAS_FLAG_READ_ONLY : Z := 1.
Definition MVGAL_BUFFER_ALIAS_FLAG_WRITE_ONLY : Z := 2.

Inductive mvgal_memory_sharing_mode_t : Type :=
| MVGAL_MEMORY_SHARING_NONE
| MVGAL_MEMORY_SHARING_EXCLUSIVE
| MVGAL_MEMORY_SHARING_CONCURRENT
| MVGAL_MEMORY_SHARING_CROSS_VENDOR
| MVGAL_MEMORY_SHARING_DMA_BUF.

Inductive mvgal_buffer_backend_type_t : Type :=
| MVGAL_BUFFER_BACKEND_SYSTEM
| MVGAL_BUFFER_BACKEND_DMA_BUF
| MVGAL_BUFFER_BACKEND_DMA_BUF_IMPORTED
| MVGAL_BUFFER_BACKEND_GPU
| MVGAL_BUFFER_BACKEND_WRAPPED
| MVGAL_BUFFER_BACKEND_P2P.

Inductive mvgal_memory_copy_method_t : Type :=
| MVGAL_MEMORY_COPY_CPU
| MVGAL_MEMORY_COPY_DMA_BUF
| MVGAL_MEMORY_COPY_NVLINK
| MVGAL_MEMORY_COPY_P2P.

#[export] Instance sharing_mode_eq_dec : EqDecision mvgal_memory_sharing_mode_t.
Proof. solve_decision. Defined.

#[export] Instance backend_eq_dec : EqDecision mvgal_buffer_backend_type_t.
Proof. solve_decision. Defined.

(** ** Structures *)

Record mvgal_memory_alloc_info_t : Type := mk_alloc_info {
  ai_size : Z;
  ai_alignment : Z;
  ai_flags : Z;
  ai_memory_type : mvgal_memory_type_t;
  ai_sharing_mode : mvgal_memory_sharing_mode_t;
  ai_access : Z;
  ai_gpu_mask : Z;
  ai_priority : Z
}.

Record mvgal_gpu_binding_t : Type := mk_binding {
  gb_gpu_index : Z;
  gb_gpu_address : Z;
  gb_mapping : option ptr;
  gb_writable : bool;
  gb_readable : bool;
  gb_dmabuf_fd : Z
}.

#[export] Instance binding_eta : Eta mvgal_gpu_binding_t := fun r =>
  mk_binding (gb_gpu_index r) (gb_gpu_address r) (gb_mapping r) (gb_writable r)
    (gb_readable r) (gb_dmabuf_fd r).

(** What [calloc] leaves in an entry. *)
Definition zero_binding : mvgal_gpu_binding_t := mk_binding 0 0 None false false 0.

(** The part of a buffer that concerns its storage. *)
Record storage : Type := mk_storage {
  st_size : Z;
  st_host_ptr : option ptr;
  st_host_offset : Z;
  st_dmabuf_fd : Z;
  st_dmabuf_offset : Z;
  st_dmabuf_owner : bool;
  st_original_ptr : option ptr;
  st_should_free : bool
}.

#[export] Instance storage_eta : Eta storage := fun r =>
  mk_storage (st_size r) (st_host_ptr r) (st_host_offset r) (st_dmabuf_fd r)
    (st_dmabuf_offset r) (st_dmabuf_owner r) (st_original_ptr r) (st_should_free r).

(** The part that links it to other buffers. *)
Record links : Type := mk_links {
  lk_alias_parent : option addr;
  lk_aliases : list (option addr);
  lk_alias_count : Z;
  lk_alias_offset : Z;
  lk_alias_size : Z;
  lk_alias_flags : Z;
  lk_is_alias : bool;
  lk_alias_detached : bool;
  lk_next : option addr;
  lk_prev : option addr
}.

#[export] Instance links_eta : Eta links := fun r =>
  mk_links (lk_alias_parent r) (lk_aliases r) (lk_alias_count r) (lk_alias_offset r)
    (lk_alias_size r) (lk_alias_flags r) (lk_is_alias r) (lk_alias_detached r)
    (lk_next r) (lk_prev r).

(** The part the requests describe and the counters measure. *)
Record usage : Type := mk_usage {
  us_state : Z;
  us_backend : mvgal_buffer_backend_type_t;
  us_alignment : Z;
  us_flags : Z;
  us_memory_type : mvgal_memory_type_t;
  us_sharing_mode : mvgal_memory_sharing_mode_t;
  us_access : Z;
  us_gpu_mask : Z;
  us_priority : Z;
  us_gpu_bindings : list mvgal_gpu_binding_t;
  us_gpu_binding_count : Z;
  us_fence : option addr;
  us_callback : option addr;
  us_callback_user_data : option addr;
  us_bytes_read : Z;
  us_bytes_written : Z;
  us_bytes_transferred : Z;
  us_access_count : list Z
}.

#[export] Instance usage_eta : Eta usage := fun r =>
  mk_usage (us_state r) (us_backend r) (us_alignment r) (us_flags r) (us_memory_type r)
    (us_sharing_mode r) (us_access r) (us_gpu_mask r) (us_priority r) (us_gpu_bindings r)
    (us_gpu_binding_count r) (us_fence r) (us_callback r) (us_callback_user_data r)
    (us_bytes_read r) (us_bytes_written r) (us_bytes_transferred r) (us_access_count r).

(** [struct mvgal_buffer], its fields grouped by what touches them. *)
Record mvgal_buffer : Type := mk_buffer {
  b_refcount : Z;
  b_storage : storage;
  b_links : links;
  b_usage : usage
}.

#[export] Instance buffer_eta : Eta mvgal_buffer := fun r =>
  mk_buffer (b_refcount r) (b_storage r) (b_links r) (b_usage r).

(** Module state, with the process resources the module works on: the
    buffer structures, byte memory, open files, fences and the GPU manager. *)
Record mvgal_memory_state_t : Type := mk_ms {
  ms_initialized : bool;
  ms_locked : bool;
  ms_buffers : option addr;
  ms_total_allocated : Z;
  ms_total_freed : Z;
  ms_system_heap_fd : Z;
  ms_gpus : list mvgal_gpu_descriptor_t;
  ms_gpu_count : Z;
  ms_heap : gmap positive mvgal_buffer;
  ms_mem : cmem;
  ms_files : gmap positive positive;
  ms_sync : sync_heap;
  ms_manager : mvgal_gpu_manager_state_t;
  ms_ticks : nat
}.

#[export] Instance ms_eta : Eta mvgal_memory_state_t := fun r =>
  mk_ms (ms_initialized r) (ms_locked r) (ms_buffers r) (ms_total_allocated r) (ms_total_freed r)
    (ms_system_heap_fd r) (ms_gpus r) (ms_gpu_count r) (ms_heap r) (ms_mem r) (ms_files r)
    (ms_sync r) (ms_manager r) (ms_ticks r).

Abbreviation MM := (M mvgal_memory_state_t).

(** ** System calls *)

Inductive syscall : Type :=
| Calloc | Malloc | Memalign | Open_heap | Heap_ioctl | Mkstemp | Ftruncate | Mmap | Msync | Fstat.

(** Whether the [n]-th call of the process succeeds, what uninitialised
    memory holds, and where regions lie in the address space. *)
Class MemEnv : Type := {
  sys_ok : syscall -> nat -> bool;
  junk : nat -> nat -> Z;
  region_address : positive -> Z
}.

(** [(uint64_t)(uintptr_t)p]. *)
Definition address_of `{MemEnv} (p : option ptr) : Z :=
  match p with Some (r, o) => u64 (region_address r + o) | None => 0 end.

Definition sys `{MemEnv} (c : syscall) : MM bool := fun s =>
  Ret (sys_ok c (ms_ticks s), s <| ms_ticks ::= S |>).

(** Lifts an action on one part of the state. *)
Definition on_mem {A : Type} (m : CM A) : MM A := fun s =>
  match m (ms_mem s) with
  | Ret (a, c) => Ret (a, s <| ms_mem := c |>)
  | Fault e => Fault e
  | NoFuel => NoFuel
  end.

Definition on_sync {A : Type} (m : YM A) : MM A := fun s =>
  match m (ms_sync s) with
  | Ret (a, h) => Ret (a, s <| ms_sync := h |>)
  | Fault e => Fault e
  | NoFuel => NoFuel
  end.

Definition on_manager {A : Type}
  (f : mvgal_gpu_manager_state_t -> A * mvgal_gpu_manager_state_t) : MM A := fun s =>
  let '(a, g) := f (ms_manager s) in Ret (a, s <| ms_manager := g |>).

(** [malloc]: a block with unspecified contents.  A request of more bytes
    than the address space has fails. *)
Definition malloc `{MemEnv} (c : syscall) (size : Z) : MM (option ptr) :=
  s ← get;
  ok ← sys c;
  if ok && (size <=? 9223372036854775807) then
    p ← on_mem (new_block (junk (ms_ticks s) <$> seq 0 (Z.to_nat size)));
    mret (Some p)
  else mret None.

(** [posix_memalign] rejects an alignment that is not a power of two
    multiple of the pointer size. *)
Definition posix_memalign `{MemEnv} (alignment size : Z) : MM (option ptr) :=
  if (Z.land alignment (alignment - 1) =? 0) && (alignment mod 8 =? 0)
  then malloc Memalign size else mret None.

Definition deref (p : addr) : MM mvgal_buffer := fun s =>
  match ms_heap s !! p with
  | Some b => Ret (b, s)
  | None => Fault UseAfterFree
  end.

Definition update (p : addr) (f : mvgal_buffer -> mvgal_buffer) : MM unit := fun s =>
  match ms_heap s !! p with
  | Some b => Ret (tt, s <| ms_heap ::= <[p := f b]> |>)
  | None => Fault UseAfterFree
  end.

(** Updates of one group of fields. *)
Definition with_storage (f : storage -> storage) (b : mvgal_buffer) : mvgal_buffer :=
  b <| b_storage ::= f |>.
Definition with_links (f : links -> links) (b : mvgal_buffer) : mvgal_buffer :=
  b <| b_links ::= f |>.
Definition with_usage (f : usage -> usage) (b : mvgal_buffer) : mvgal_buffer :=
  b <| b_usage ::= f |>.

Definition new_buffer (b : mvgal_buffer) : MM addr := fun s =>
  let p := fresh (dom (ms_heap s)) in
  Ret (p, s <| ms_heap ::= <[p := b]> |>).

Definition free_buffer (p : addr) : MM unit := fun s =>
  match ms_heap s !! p with
  | Some _ => Ret (tt, s <| ms_heap ::= delete p |>)
  | None => Fault UseAfterFree
  end.

(** The module's mutex, which is not recursive. *)
Definition lock : MM unit := fun s =>
  if ms_locked s then Fault SelfDeadlock else Ret (tt, s <| ms_locked := true |>).
Definition unlock : MM unit := modify (fun s => s <| ms_locked := false |>).

(** A file descriptor is a positive number; [-1] is none. *)
Definition file_of (s : mvgal_memory_state_t) (fd : Z) : option positive :=
  match fd with Z.pos p => ms_files s !! p | _ => None end.

Definition new_file (obj : positive) : MM Z := fun s =>
  let p := fresh (dom (ms_files s)) in
  Ret (Z.pos p, s <| ms_files ::= <[p := obj]> |>).

Definition close (fd : Z) : MM unit := fun s =>
  match fd with
  | Z.pos p => Ret (tt, s <| ms_files ::= delete p |>)
  | _ => Ret (tt, s)
  end.

(** The largest [off_t]. *)
Definition MAX_FILE_SIZE : Z := 9223372036854775807.

(** A mapping of [size] bytes of a file from [offset], which must be the
    start of a page. *)
Definition mmap `{MemEnv} (size : Z) (fd offset : Z) : MM (option ptr) :=
  obj ← reads (fun s => file_of s fd);
  ok ← sys Mmap;
  match obj, ok with
  | Some obj, true =>
      if (size <=? 0) || (TASK_SIZE <? size) || negb (offset mod PAGE_SIZE =? 0) || (MAX_FILE_SIZE <? offset)
      then mret None else
      p ← on_mem (new_mapping obj offset size); mret (Some p)
  | _, _ => mret None
  end.
