(* ===== verification/Allocator.v ===== *)
(** * Buffer allocation and lifetime

    src/userspace/memory/allocator.c and the storage half of dmabuf.c: module
    start and stop, allocation in a DMA-BUF or in system memory, reference
    counts, GPU bindings, and aliases of a buffer's memory. *)

From S2P Require Import Prelude Float32 CString GpuTypes GpuManager SyncPrims CMem MemTypes.
Local Open Scope Z_scope.

Definition MVGAL_MAX_GPUS : Z := 16.

Section allocator.
Context `{GpuOS} `{MemEnv}.

(** ** The module *)

Definition mvgal_memory_module_init : MM mvgal_error_t :=
  initialized ← reads ms_initialized;
  if initialized : bool then mret MVGAL_ERROR_ALREADY_INITIALIZED else
  modify (fun s => s <| ms_locked := false |> <| ms_buffers := None |>
    <| ms_total_allocated := 0 |> <| ms_total_freed := 0 |>
    <| ms_system_heap_fd := -1 |> <| ms_gpu_count := 0 |>);;
  opened ← sys Open_heap;
  (if opened : bool
   then o ← on_mem (new_object []); fd ← new_file o; modify (fun s => s <| ms_system_heap_fd := fd |>)
   else mret tt);;
  count ← on_manager mvgal_gpu_get_count;
  (if 0 <? count then
     found ← on_manager (mvgal_gpu_enumerate true MVGAL_MAX_GPUS);
     modify (fun s => s <| ms_gpu_count := count |> <| ms_gpus := fst found |>)
   else mret tt);;
  modify (fun s => s <| ms_initialized := true |>);;
  mret MVGAL_SUCCESS.

Definition mvgal_buffer_retain (buffer : option addr) : MM unit :=
  match buffer with
  | None => mret tt
  | Some p => update p (fun b => b <| b_refcount ::= fun n => u32 (n + 1) |>)
  end.

(** [mvgal_buffer_release], over the function that frees a buffer. *)
Definition release_with (free_internal : addr -> MM unit) (buffer : option addr) : MM unit :=
  match buffer with
  | None => mret tt
  | Some p =>
      b ← deref p;
      update p (fun b => b <| b_refcount ::= fun n => u32 (n - 1) |>);;
      if b_refcount b =? 1 then free_internal p else mret tt
  end.

(** ** GPU bindings *)

(** The first of the [count] entries that is for [gpu_index]. *)
Definition find_binding (gpu_index : Z) (count : Z) (bs : list mvgal_gpu_binding_t) : option nat :=
  fst <$> list_find (fun g => gb_gpu_index g = gpu_index) (take (Z.to_nat count) bs).

Definition set_binding (i : nat) (f : mvgal_gpu_binding_t -> mvgal_gpu_binding_t) (u : usage) : usage :=
  u <| us_gpu_bindings ::= alter f i |>.

Definition add_to_mask (gpu_index : Z) (u : usage) : usage :=
  u <| us_gpu_mask ::= fun m => if has_bit m gpu_index then m else Z.lor m (bit gpu_index) |>.

Definition append_binding (gpu_index : Z) (writable : bool) (b : mvgal_buffer) (u : usage) : usage :=
  set_binding (Z.to_nat (us_gpu_binding_count u)) (fun g =>
    g <| gb_gpu_index := gpu_index |> <| gb_mapping := st_host_ptr (b_storage b) |>
      <| gb_writable := writable |> <| gb_readable := true |>
      <| gb_dmabuf_fd := st_dmabuf_fd (b_storage b) |>)
    (u <| us_gpu_binding_count ::= Z.succ |>).

Definition mvgal_buffer_bind_to_gpu (buffer : option addr) (gpu_index : Z) (writable : bool)
  : MM mvgal_error_t :=
  match buffer with
  | None => mret MVGAL_ERROR_INVALID_ARGUMENT
  | Some p =>
      if MVGAL_MAX_GPUS <=? gpu_index then mret MVGAL_ERROR_INVALID_ARGUMENT else
      known ← reads ms_gpu_count;
      if known <=? gpu_index then mret MVGAL_ERROR_GPU_NOT_FOUND else
      b ← deref p;
      let u := b_usage b in
      match find_binding gpu_index (us_gpu_binding_count u) (us_gpu_bindings u) with
      | Some i =>
          update p (with_usage (set_binding i (fun g =>
            g <| gb_writable := writable |> <| gb_readable := true |>)));;
          mret MVGAL_SUCCESS
      | None =>
          update p (with_usage (add_to_mask gpu_index));;
          if us_gpu_binding_count u <? MVGAL_MAX_GPUS then
            update p (fun b => with_usage (append_binding gpu_index writable b) b);;
            mret MVGAL_SUCCESS
          else mret MVGAL_ERROR_MEMORY
      end
  end.

(** A mapping other than the buffer's own pointer is dropped. *)
Definition unbind_entries (b : mvgal_buffer) (u : usage) : usage :=
  u <| us_gpu_bindings ::= imap (fun i g =>
         if (Z.of_nat i <? us_gpu_binding_count u)
            && negb (bool_decide (gb_mapping g = None))
            && negb (bool_decide (gb_mapping g = st_host_ptr (b_storage b)))
         then g <| gb_mapping := None |> else g) |>
    <| us_gpu_binding_count := 0 |>.

Definition mvgal_buffer_unbind (buffer : option addr) : MM unit :=
  match buffer with
  | None => mret tt
  | Some p => update p (fun b => with_usage (unbind_entries b) b)
  end.

(** [gpu->features & MVGAL_FEATURE_DMA_BUF] of a cached descriptor. *)
Definition dmabuf_capable (gpus : list mvgal_gpu_descriptor_t) (i : nat) : bool :=
  match gpus !! i with
  | Some g => has_flag (g_features g) MVGAL_FEATURE_DMA_BUF
  | None => false
  end.

Definition mvgal_dmabuf_is_supported (gpu_mask : Z) (s : mvgal_memory_state_t) : bool :=
  if gpu_mask =? 0 then false else
  forallb (fun i => negb (has_bit gpu_mask (Z.of_nat i)) || dmabuf_capable (ms_gpus s) i)
    (seq 0 (Z.to_nat (ms_gpu_count s))).

(** ** DMA-BUF storage *)

(** A descriptor from the kernel's heap, or of a temporary file. *)
Definition dmabuf_fd (size : Z) : MM Z :=
  heap ← reads ms_system_heap_fd;
  fd ← (if 0 <=? heap then
          ok ← sys Heap_ioctl;
          if ok && (size <=? MAX_FILE_SIZE)
          then o ← on_mem (new_object (replicate (Z.to_nat size) 0)); new_file o
          else mret (-1)
        else mret (-1));
  if 0 <=? fd then mret fd else
  made ← sys Mkstemp;
  if made : bool then
    resized ← sys Ftruncate;
    if resized && (size <=? MAX_FILE_SIZE)
    then o ← on_mem (new_object (replicate (Z.to_nat size) 0)); new_file o
    else mret (-1)
  else mret (-1).

Definition mvgal_dmabuf_allocate (size alignment flags gpu_mask : Z)
  : MM (mvgal_error_t * option (Z * ptr)) :=
  fd ← dmabuf_fd size;
  if fd <? 0 then mret (MVGAL_ERROR_MEMORY, None) else
  p ← mmap size fd 0;
  match p with
  | None => close fd;; mret (MVGAL_ERROR_MEMORY, None)
  | Some p =>
      (if has_flag flags MVGAL_MEMORY_FLAG_ZERO_INITIALIZED
       then on_mem (memset (Some p) 0 size) else mret tt);;
      sys Msync;;
      mret (MVGAL_SUCCESS, Some (fd, p))
  end.

Definition mvgal_dmabuf_free (fd : Z) (p : option ptr) (size : Z) : MM unit :=
  (match p with Some q => on_mem (munmap q size) | None => mret tt end);;
  if 0 <=? fd then close fd else mret tt.

(** ** Allocation *)

(** [(size + alignment - 1) & ~(alignment - 1)] in 64 bits. *)
Definition align_size (size alignment : Z) : Z :=
  if 0 <? alignment
  then Z.land (u64 (size + alignment - 1)) (u64 (Z.lnot (alignment - 1)))
  else size.

Definition fresh_links : links :=
  mk_links None (replicate 16 None) 0 0 0 MVGAL_BUFFER_ALIAS_FLAG_NONE false false None None.

(** The structure after the assignments that follow [calloc]; [backend] and
    [state] are still zero. *)
Definition init_buffer (info : mvgal_memory_alloc_info_t) : mvgal_buffer :=
  mk_buffer 1
    (mk_storage (ai_size info) None 0 (-1) 0 false None false)
    fresh_links
    (mk_usage 0 MVGAL_BUFFER_BACKEND_SYSTEM (ai_alignment info) (ai_flags info)
       (ai_memory_type info) (ai_sharing_mode info) (ai_access info) (ai_gpu_mask info)
       (ai_priority info) (replicate 16 zero_binding) 0 None None None 0 0 0 (replicate 16 0)).

Definition wants_dmabuf (info : mvgal_memory_alloc_info_t) : bool :=
  has_flag (ai_flags info) MVGAL_MEMORY_FLAG_DMA_BUF
  || bool_decide (ai_sharing_mode info = MVGAL_MEMORY_SHARING_DMA_BUF)
  || (negb (ai_gpu_mask info =? 0) && (1 <? popcount32 (ai_gpu_mask info))).

(** The loop over the mask: entry [i] is for GPU [i], and the count is the
    number of entries set. *)
Definition bind_mask (info : mvgal_memory_alloc_info_t) (p : ptr) (u : usage) : usage :=
  u <| us_gpu_bindings ::= imap (fun i g =>
         if has_bit (ai_gpu_mask info) (Z.of_nat i)
         then g <| gb_gpu_index := Z.of_nat i |> <| gb_mapping := Some p |> <| gb_readable := true |>
                <| gb_writable := has_flag (ai_access info) MVGAL_MEMORY_ACCESS_WRITE |>
         else g) |>
    <| us_gpu_binding_count := Z.of_nat (length (filter
         (fun i => has_bit (ai_gpu_mask info) (Z.of_nat i) = true) (seq 0 16))) |>.

Definition dmabuf_buffer (info : mvgal_memory_alloc_info_t) (fd : Z) (p : ptr) : mvgal_buffer :=
  with_usage (fun u => bind_mask info p (u
      <| us_backend := MVGAL_BUFFER_BACKEND_DMA_BUF |>
      <| us_state := Z.lor MVGAL_BUFFER_STATE_ALLOCATED MVGAL_BUFFER_STATE_MAPPED |>))
    (with_storage (fun st => st <| st_host_ptr := Some p |> <| st_dmabuf_fd := fd |>
       <| st_dmabuf_owner := true |>) (init_buffer info)).

Definition system_buffer (info : mvgal_memory_alloc_info_t) (p : ptr) : mvgal_buffer :=
  with_usage (fun u => u
      <| us_backend := MVGAL_BUFFER_BACKEND_SYSTEM |>
      <| us_state := if has_flag (ai_flags info) MVGAL_MEMORY_FLAG_HOST_VALID
                     then Z.lor MVGAL_BUFFER_STATE_ALLOCATED MVGAL_BUFFER_STATE_MAPPED
                     else MVGAL_BUFFER_STATE_ALLOCATED |>)
    (with_storage (fun st => st <| st_host_ptr := Some p |> <| st_original_ptr := Some p |>
       <| st_should_free := true |>) (init_buffer info)).

(** The system memory behind a buffer: host-visible memory honours an
    alignment larger than a pointer. *)
Definition system_memory (info : mvgal_memory_alloc_info_t) : MM (option ptr) :=
  let size := align_size (ai_size info) (ai_alignment info) in
  if has_flag (ai_flags info) MVGAL_MEMORY_FLAG_HOST_VALID && (8 <? ai_alignment info)
  then posix_memalign (ai_alignment info) size
  else malloc Malloc size.

Definition mvgal_buffer_allocate_internal (alloc_info : option mvgal_memory_alloc_info_t)
  (buffer_out : bool) : MM (mvgal_error_t * option addr) :=
  match alloc_info with
  | None => mret (MVGAL_ERROR_INVALID_ARGUMENT, None)
  | Some info =>
      if negb buffer_out then mret (MVGAL_ERROR_INVALID_ARGUMENT, None) else
      if ai_size info =? 0 then mret (MVGAL_ERROR_INVALID_ARGUMENT, None) else
      let aligned_size := align_size (ai_size info) (ai_alignment info) in
      structure ← sys Calloc;
      if negb structure then mret (MVGAL_ERROR_OUT_OF_MEMORY, None) else
      supported ← reads (mvgal_dmabuf_is_supported (ai_gpu_mask info));
      shared ← (if wants_dmabuf info && supported
                then mvgal_dmabuf_allocate aligned_size (ai_alignment info) (ai_flags info)
                       (ai_gpu_mask info)
                else mret (MVGAL_ERROR_MEMORY, None));
      match shared with
      | (MVGAL_SUCCESS, Some (fd, p)) =>
          b ← new_buffer (dmabuf_buffer info fd p);
          mret (MVGAL_SUCCESS, Some b)
      | _ =>
          p ← system_memory info;
          match p with
          | None => mret (MVGAL_ERROR_OUT_OF_MEMORY, None)
          | Some p =>
              (if has_flag (ai_flags info) MVGAL_MEMORY_FLAG_ZERO_INITIALIZED
               then on_mem (memset (Some p) 0 aligned_size) else mret tt);;
              b ← new_buffer (system_buffer info p);
              mret (MVGAL_SUCCESS, Some b)
          end
      end
  end.

(** ** Freeing *)

(** One alias of a buffer that goes away: it is told to own its memory. *)
Definition orphan (alias : option addr) : MM unit :=
  match alias with
  | None => mret tt
  | Some a =>
      update a (fun b => with_storage (fun st => st <| st_should_free := true |>)
        (with_links (fun l => l <| lk_alias_parent := None |> <| lk_alias_detached := true |>
           <| lk_is_alias := false |>) b))
  end.

Fixpoint orphan_all (aliases : list (option addr)) : MM unit :=
  match aliases with
  | [] => mret tt
  | a :: rest => orphan a;; orphan_all rest
  end.

(** The entry of [p] among the first [alias_count] is overwritten by the
    last one. *)
Definition remove_alias (p : addr) (l : links) : links :=
  match list_find (fun a => a = Some p) (take (Z.to_nat (lk_alias_count l)) (lk_aliases l)) with
  | Some (i, _) =>
      l <| lk_aliases ::= <[i := default None (lk_aliases l !! Z.to_nat (lk_alias_count l - 1))]> |>
        <| lk_alias_count ::= Z.pred |>
  | None => l
  end.

(** Unlinks a buffer from the module's list, under the lock. *)
Definition unlink (p : addr) : MM unit :=
  lock;;
  b ← deref p;
  (match lk_prev (b_links b) with
   | Some q => update q (with_links (fun l => l <| lk_next := lk_next (b_links b) |>))
   | None => modify (fun s => s <| ms_buffers := lk_next (b_links b) |>)
   end);;
  (match lk_next (b_links b) with
   | Some q => update q (with_links (fun l => l <| lk_prev := lk_prev (b_links b) |>))
   | None => mret tt
   end);;
  unlock.

(** The storage, fence, list entry and structure of a buffer without
    aliases or parent. *)
Definition dispose (p : addr) : MM unit :=
  mvgal_buffer_unbind (Some p);;
  b ← deref p;
  let st := b_storage b in
  (if st_dmabuf_owner st && (0 <=? st_dmabuf_fd st) then
     mvgal_dmabuf_free (st_dmabuf_fd st) (st_host_ptr st) (st_size st);;
     update p (with_storage (fun st => st <| st_dmabuf_fd := -1 |> <| st_host_ptr := None |>))
   else mret tt);;
  (if st_should_free st && negb (bool_decide (st_original_ptr st = None)) then
     on_mem (free (st_original_ptr st));;
     update p (with_storage (fun st => st <| st_original_ptr := None |>))
   else mret tt);;
  (match us_fence (b_usage b) with
   | Some _ =>
       on_sync (mvgal_fence_destroy (us_fence (b_usage b)));;
       update p (with_usage (fun u => u <| us_fence := None |>))
   | None => mret tt
   end);;
  unlink p;;
  modify (fun s => s <| ms_total_freed ::= fun n => u64 (n + st_size st) |>);;
  free_buffer p.

(** Releasing the parent of an alias can free the parent, which can be an
    alias itself: [fuel] bounds the length of that chain. *)
Fixpoint free_internal (fuel : nat) (p : addr) : MM unit :=
  match fuel with
  | O => fun _ => NoFuel
  | S fuel' =>
      b ← deref p;
      (if 0 <? lk_alias_count (b_links b) then
         orphan_all (take (Z.to_nat (lk_alias_count (b_links b))) (lk_aliases (b_links b)));;
         update p (with_links (fun l => l <| lk_alias_count := 0 |>))
       else mret tt);;
      b ← deref p;
      (match lk_alias_parent (b_links b) with
       | Some parent =>
           if lk_is_alias (b_links b) && negb (lk_alias_detached (b_links b)) then
             update parent (with_links (remove_alias p));;
             release_with (free_internal fuel') (Some parent)
           else mret tt
       | None => mret tt
       end);;
      dispose p
  end.

Definition mvgal_buffer_free_internal (buffer : option addr) : MM unit := fun s =>
  match buffer with
  | None => Ret (tt, s)
  | Some p => free_internal (size (ms_heap s)) p s
  end.

Definition mvgal_buffer_release (buffer : option addr) : MM unit := fun s =>
  release_with (free_internal (size (ms_heap s))) buffer s.

(** The loop of the shutdown, which holds the lock. *)
Fixpoint free_all (fuel : nat) (buffer : option addr) : MM unit :=
  match buffer with
  | None => mret tt
  | Some p =>
      match fuel with
      | O => fun _ => NoFuel
      | S fuel' =>
          b ← deref p;
          mvgal_buffer_free_internal (Some p);;
          free_all fuel' (lk_next (b_links b))
      end
  end.

Definition mvgal_memory_module_shutdown : MM unit := fun s =>
  if negb (ms_initialized s) then Ret (tt, s) else
  (lock;;
   (if 0 <=? ms_system_heap_fd s
    then close (ms_system_heap_fd s);; modify (fun s => s <| ms_system_heap_fd := -1 |>)
    else mret tt);;
   free_all (size (ms_heap s)) (ms_buffers s);;
   modify (fun s => s <| ms_buffers := None |> <| ms_initialized := false |>);;
   unlock) s.

(** ** The list of buffers *)

(** Puts a buffer at the head of the module's list; [total] is what the
    caller adds to [total_allocated] under the same lock. *)
Definition link_buffer (p : addr) (total : Z) : MM unit :=
  lock;;
  head ← reads ms_buffers;
  update p (with_links (fun l => l <| lk_next := head |>));;
  (match head with
   | Some h => update h (with_links (fun l => l <| lk_prev := Some p |>))
   | None => mret tt
   end);;
  modify (fun s => s <| ms_buffers := Some p |>
    <| ms_total_allocated ::= fun n => u64 (n + total) |>);;
  unlock.

(** ** Aliases *)

(** The structure of an alias of [p], a buffer with contents [b]. *)
Definition alias_buffer (p : addr) (b : mvgal_buffer) (offset size alias_flags : Z) : mvgal_buffer :=
  let st := b_storage b in
  let u := b_usage b in
  let here := ptr_add (st_host_ptr st) offset in
  let read_only := has_flag alias_flags MVGAL_BUFFER_ALIAS_FLAG_READ_ONLY in
  let write_only := has_flag alias_flags MVGAL_BUFFER_ALIAS_FLAG_WRITE_ONLY in
  let n := Z.to_nat (us_gpu_binding_count u) in
  let bindings := take n (us_gpu_bindings u) ++ replicate (16 - n) zero_binding in
  let access := if read_only then Z.land (us_access u) (u32 (Z.lnot MVGAL_MEMORY_ACCESS_WRITE))
                else us_access u in
  mk_buffer 1
    (mk_storage size here offset (st_dmabuf_fd st) (u64 (st_dmabuf_offset st + offset))
       false here false)
    (mk_links (Some p) (replicate 16 None) 0 offset size alias_flags true false None None)
    (mk_usage (us_state u) (us_backend u) (us_alignment u) (us_flags u) (us_memory_type u)
       (us_sharing_mode u)
       (if write_only then Z.land access (u32 (Z.lnot MVGAL_MEMORY_ACCESS_READ)) else access)
       (us_gpu_mask u) (us_priority u)
       (imap (fun i g => if read_only && (Z.of_nat i <? us_gpu_binding_count u)
                         then g <| gb_writable := false |> else g) bindings)
       (us_gpu_binding_count u) None None None 0 0 0 (replicate 16 0)).

Definition add_alias (a : addr) (l : links) : links :=
  l <| lk_aliases ::= <[Z.to_nat (lk_alias_count l) := Some a]> |> <| lk_alias_count ::= Z.succ |>.

Definition mvgal_memory_create_alias (parent : option addr) (offset size alias_flags : Z)
  (buffer : bool) : MM (mvgal_error_t * option addr) :=
  match parent with
  | None => mret (MVGAL_ERROR_INVALID_ARGUMENT, None)
  | Some p =>
      if negb buffer then mret (MVGAL_ERROR_INVALID_ARGUMENT, None) else
      b ← deref p;
      let psize := st_size (b_storage b) in
      if psize <=? offset then mret (MVGAL_ERROR_INVALID_ARGUMENT, None) else
      let alias_size := if size =? 0 then psize - offset else size in
      if psize <? u64 (offset + alias_size) then mret (MVGAL_ERROR_INVALID_ARGUMENT, None) else
      if 16 <=? lk_alias_count (b_links b) then mret (MVGAL_ERROR_MEMORY, None) else
      structure ← sys Calloc;
      if negb structure then mret (MVGAL_ERROR_OUT_OF_MEMORY, None) else
      a ← new_buffer (alias_buffer p b offset alias_size alias_flags);
      update p (with_links (add_alias a));;
      mvgal_buffer_retain (Some p);;
      link_buffer a 0;;
      mret (MVGAL_SUCCESS, Some a)
  end.

Record mvgal_buffer_alias_info_t : Type := mk_alias_info {
  inf_parent : option addr;
  inf_alias : addr;
  inf_offset : Z;
  inf_size : Z;
  inf_flags : Z;
  inf_gpu_mask : Z
}.

Definition mvgal_memory_get_alias_info (buffer : option addr) (info : bool)
  : MM (mvgal_error_t * option mvgal_buffer_alias_info_t) :=
  match buffer with
  | None => mret (MVGAL_ERROR_INVALID_ARGUMENT, None)
  | Some p =>
      if negb info then mret (MVGAL_ERROR_INVALID_ARGUMENT, None) else
      b ← deref p;
      let l := b_links b in
      if negb (lk_is_alias l) then mret (MVGAL_ERROR_NOT_FOUND, None) else
      mret (MVGAL_SUCCESS, Some (mk_alias_info (lk_alias_parent l) p (lk_alias_offset l)
              (lk_alias_size l) (lk_alias_flags l) (us_gpu_mask (b_usage b))))
  end.

Definition mvgal_memory_alias_detach (buffer : option addr) : MM mvgal_error_t :=
  match buffer with
  | None => mret MVGAL_ERROR_INVALID_ARGUMENT
  | Some p =>
      b ← deref p;
      let l := b_links b in
      if negb (lk_is_alias l) || lk_alias_detached l then mret MVGAL_ERROR_INVALID_ARGUMENT else
      match lk_alias_parent l with
      | None => mret MVGAL_ERROR_INVALID_ARGUMENT
      | Some parent =>
          copy ← malloc Malloc (lk_alias_size l);
          match copy with
          | None => mret MVGAL_ERROR_OUT_OF_MEMORY
          | Some copy =>
              pb ← deref parent;
              (match st_host_ptr (b_storage pb) with
               | Some src => on_mem (memcpy (Some copy) (Some src) (lk_alias_size l))
               | None => mret tt
               end);;
              update parent (with_links (remove_alias p));;
              mvgal_buffer_release (Some parent);;
              update p (fun b =>
                with_storage (fun st => st <| st_host_ptr := Some copy |> <| st_host_offset := 0 |>
                  <| st_original_ptr := Some copy |> <| st_should_free := true |>)
                (with_links (fun l => l <| lk_alias_parent := None |> <| lk_alias_detached := true |>
                  <| lk_is_alias := false |> <| lk_alias_offset := 0 |> <| lk_alias_size := 0 |>
                  <| lk_alias_flags := MVGAL_BUFFER_ALIAS_FLAG_NONE |>) b));;
              mret MVGAL_SUCCESS
          end
      end
  end.

End allocator.
