(* ===== verification/MemoryApi.v ===== *)
(** * The memory API

    src/userspace/memory/memory.c with the sharing half of dmabuf.c: the
    public allocation, mapping, access, copy, sharing and statistics calls
    over the allocator. *)

From S2P Require Import Prelude Float32 CString GpuTypes GpuManager SyncPrims CMem MemTypes Allocator.
Local Open Scope Z_scope.

Section memory_api.
Context `{GpuOS} `{MemEnv}.

Definition ensure_memory_initialized : MM mvgal_error_t :=
  ready ← reads ms_initialized;
  if ready : bool then mret MVGAL_SUCCESS else mvgal_memory_module_init.

(** ** Allocation *)

Definition mvgal_memory_allocate (alloc_info : option mvgal_memory_alloc_info_t) (buffer : bool)
  : MM (mvgal_error_t * option addr) :=
  match alloc_info with
  | None => mret (MVGAL_ERROR_INVALID_ARGUMENT, None)
  | Some info =>
      if negb buffer then mret (MVGAL_ERROR_INVALID_ARGUMENT, None) else
      err ← ensure_memory_initialized;
      if negb (is_success err) then mret (err, None) else
      r ← mvgal_buffer_allocate_internal (Some info) true;
      match r with
      | (MVGAL_SUCCESS, Some p) =>
          b ← deref p;
          link_buffer p (st_size (b_storage b));;
          mret (MVGAL_SUCCESS, Some p)
      | (err, _) => mret (err, None)
      end
  end.

Definition mvgal_memory_allocate_simple (size flags : Z) (buffer : bool)
  : MM (mvgal_error_t * option addr) :=
  if negb buffer || (size =? 0) then mret (MVGAL_ERROR_INVALID_ARGUMENT, None) else
  mvgal_memory_allocate
    (Some (mk_alloc_info size 0 (Z.lor flags MVGAL_MEMORY_FLAG_HOST_VALID) MVGAL_MEMORY_TYPE_SRAM
             MVGAL_MEMORY_SHARING_NONE MVGAL_MEMORY_ACCESS_READ_WRITE 0 50)) buffer.

Definition mvgal_memory_free (buffer : option addr) : MM unit :=
  match buffer with
  | None => mret tt
  | Some p => mvgal_buffer_release (Some p)
  end.

Definition sum_counts (l : list Z) : Z := fold_left (fun acc n => u64 (acc + n)) l 0.

Record mvgal_memory_descriptor_t : Type := mk_desc {
  md_size : Z;
  md_alignment : Z;
  md_flags : Z;
  md_memory_type : mvgal_memory_type_t;
  md_sharing_mode : mvgal_memory_sharing_mode_t;
  md_gpu_mask : Z;
  md_dmabuf_fd : Z;
  md_dmabuf_offset : Z;
  md_host_ptr : option ptr;
  md_gpu_address : list Z;
  md_fence : option addr;
  md_bytes_transferred : Z;
  md_access_count : Z;
  md_buffer : addr
}.

Definition mvgal_memory_get_descriptor (buffer : option addr) (desc : bool)
  : MM (mvgal_error_t * option mvgal_memory_descriptor_t) :=
  match buffer with
  | None => mret (MVGAL_ERROR_INVALID_ARGUMENT, None)
  | Some p =>
      if negb desc then mret (MVGAL_ERROR_INVALID_ARGUMENT, None) else
      b ← deref p;
      let st := b_storage b in
      let u := b_usage b in
      mret (MVGAL_SUCCESS, Some (mk_desc (st_size st) (us_alignment u) (us_flags u)
        (us_memory_type u) (us_sharing_mode u) (us_gpu_mask u) (st_dmabuf_fd st)
        (st_dmabuf_offset st) (st_host_ptr st) (gb_gpu_address <$> us_gpu_bindings u)
        (us_fence u) (us_bytes_transferred u) (sum_counts (us_access_count u)) p))
  end.

(** The mask of the indices below 32. *)
Definition mask_of (gpu_indices : list Z) : Z :=
  fold_left (fun m i => if i <? 32 then Z.lor m (bit i) else m) gpu_indices 0.

Definition mvgal_memory_create_shared (size : Z) (gpu_indices : option (list Z)) (buffer : bool)
  : MM (mvgal_error_t * option addr) :=
  match gpu_indices with
  | None => mret (MVGAL_ERROR_INVALID_ARGUMENT, None)
  | Some indices =>
      if negb buffer || (size =? 0) || bool_decide (indices = [])
      then mret (MVGAL_ERROR_INVALID_ARGUMENT, None) else
      mvgal_memory_allocate
        (Some (mk_alloc_info size 0 (Z.lor MVGAL_MEMORY_FLAG_SHARED MVGAL_MEMORY_FLAG_DMA_BUF)
                 MVGAL_MEMORY_TYPE_SRAM MVGAL_MEMORY_SHARING_DMA_BUF
                 MVGAL_MEMORY_ACCESS_READ_WRITE (mask_of indices) 50)) buffer
  end.

Definition wrapped_buffer (p : ptr) (size flags : Z) : mvgal_buffer :=
  mk_buffer 1
    (mk_storage size (Some p) 0 (-1) 0 false (Some p) false)
    fresh_links
    (mk_usage (Z.lor MVGAL_BUFFER_STATE_ALLOCATED MVGAL_BUFFER_STATE_MAPPED)
       MVGAL_BUFFER_BACKEND_WRAPPED 0 (Z.lor flags MVGAL_MEMORY_FLAG_HOST_VALID)
       MVGAL_MEMORY_TYPE_SRAM MVGAL_MEMORY_SHARING_NONE MVGAL_MEMORY_ACCESS_READ_WRITE
       U32_MAX 50 (replicate 16 zero_binding) 0 None None None 0 0 0 (replicate 16 0)).

Definition mvgal_memory_wrap (p : option ptr) (size flags : Z) (buffer : bool)
  : MM (mvgal_error_t * option addr) :=
  match p with
  | None => mret (MVGAL_ERROR_INVALID_ARGUMENT, None)
  | Some q =>
      if negb buffer || (size =? 0) then mret (MVGAL_ERROR_INVALID_ARGUMENT, None) else
      err ← ensure_memory_initialized;
      if negb (is_success err) then mret (err, None) else
      structure ← sys Calloc;
      if negb structure then mret (MVGAL_ERROR_OUT_OF_MEMORY, None) else
      b ← new_buffer (wrapped_buffer q size flags);
      link_buffer b 0;;
      mret (MVGAL_SUCCESS, Some b)
  end.

(** ** Mapping *)

Definition is_mapped (b : mvgal_buffer) : bool := has_flag (us_state (b_usage b)) MVGAL_BUFFER_STATE_MAPPED.

Definition mvgal_dmabuf_map (fd size offset : Z) : MM (mvgal_error_t * option ptr) :=
  if fd <? 0 then mret (MVGAL_ERROR_INVALID_ARGUMENT, None) else
  p ← mmap size fd offset;
  match p with
  | None => mret (MVGAL_ERROR_MEMORY, None)
  | Some p => mret (MVGAL_SUCCESS, Some p)
  end.

Definition mvgal_dmabuf_unmap (fd : Z) (p : option ptr) (size : Z) : MM unit :=
  match p with Some q => on_mem (munmap q size) | None => mret tt end.

(** The status, and the pointer stored through [ptr] on success. *)
Definition mvgal_memory_map (buffer : option addr) (offset size : Z) (out : bool)
  : MM (mvgal_error_t * option ptr) :=
  match buffer with
  | None => mret (MVGAL_ERROR_INVALID_ARGUMENT, None)
  | Some p =>
      if negb out then mret (MVGAL_ERROR_INVALID_ARGUMENT, None) else
      b ← deref p;
      let st := b_storage b in
      if is_mapped b then mret (MVGAL_SUCCESS, ptr_add (st_host_ptr st) offset) else
      if 0 <=? st_dmabuf_fd st then
        r ← mvgal_dmabuf_map (st_dmabuf_fd st) (if size =? 0 then st_size st else size) offset;
        match r with
        | (MVGAL_SUCCESS, mapped) =>
            update p (fun b =>
              with_storage (fun st => st <| st_host_ptr := mapped |> <| st_host_offset := offset |>)
              (with_usage (fun u => u <| us_state ::= fun f => Z.lor f MVGAL_BUFFER_STATE_MAPPED |>) b));;
            mret (MVGAL_SUCCESS, mapped)
        | (err, _) => mret (err, None)
        end
      else if negb (has_flag (us_flags (b_usage b)) MVGAL_MEMORY_FLAG_HOST_VALID)
      then mret (MVGAL_ERROR_NOT_SUPPORTED, None)
      else mret (MVGAL_SUCCESS, ptr_add (st_host_ptr st) offset)
  end.

Definition mvgal_memory_unmap (buffer : option addr) : MM unit :=
  match buffer with
  | None => mret tt
  | Some p =>
      b ← deref p;
      let st := b_storage b in
      if is_mapped b then
        (if (0 <=? st_dmabuf_fd st) && st_dmabuf_owner st
         then mvgal_dmabuf_unmap (st_dmabuf_fd st) (st_host_ptr st) (st_size st) else mret tt);;
        update p (fun b =>
          with_storage (fun st => st <| st_host_ptr := None |>)
          (with_usage (fun u => u <| us_state ::= fun f =>
             Z.land f (u32 (Z.lnot MVGAL_BUFFER_STATE_MAPPED)) |>) b))
      else mret tt
  end.

Definition mvgal_memory_is_mapped (buffer : option addr) : MM bool :=
  match buffer with
  | None => mret false
  | Some p => b ← deref p; mret (is_mapped b)
  end.

Definition mvgal_memory_get_pointer (buffer : option addr) : MM (option ptr) :=
  match buffer with
  | None => mret None
  | Some p => b ← deref p; mret (st_host_ptr (b_storage b))
  end.

(** ** Data access *)

(** The first half of a write or a read: map on demand, then the bounds. *)
Definition prepare_access (p : addr) (offset size : Z) : MM mvgal_error_t :=
  b ← deref p;
  err ← (if negb (is_mapped b) && bool_decide (st_host_ptr (b_storage b) = None)
         then r ← mvgal_memory_map (Some p) offset size true; mret (fst r)
         else mret MVGAL_SUCCESS);
  if negb (is_success err) then mret err else
  b ← deref p;
  if st_size (b_storage b) <? u64 (offset + size) then mret MVGAL_ERROR_INVALID_ARGUMENT
  else mret MVGAL_SUCCESS.

(** [data] is the source of [size] bytes. *)
Definition mvgal_memory_write (buffer : option addr) (offset : Z) (data : option (list Z))
  : MM mvgal_error_t :=
  match buffer, data with
  | Some p, Some bytes =>
      let size := Z.of_nat (length bytes) in
      if size =? 0 then mret MVGAL_ERROR_INVALID_ARGUMENT else
      err ← prepare_access p offset size;
      if negb (is_success err) then mret err else
      b ← deref p;
      on_mem (store_bytes (ptr_add (st_host_ptr (b_storage b)) offset) bytes);;
      update p (with_usage (fun u => u <| us_bytes_written ::= fun n => u64 (n + size) |>));;
      mret MVGAL_SUCCESS
  | _, _ => mret MVGAL_ERROR_INVALID_ARGUMENT
  end.

(** The status, and the bytes stored at [data] on success. *)
Definition mvgal_memory_read (buffer : option addr) (offset size : Z) (data : bool)
  : MM (mvgal_error_t * option (list Z)) :=
  match buffer with
  | None => mret (MVGAL_ERROR_INVALID_ARGUMENT, None)
  | Some p =>
      if negb data || (size =? 0) then mret (MVGAL_ERROR_INVALID_ARGUMENT, None) else
      err ← prepare_access p offset size;
      if negb (is_success err) then mret (err, None) else
      b ← deref p;
      bytes ← on_mem (load (ptr_add (st_host_ptr (b_storage b)) offset) size);
      update p (with_usage (fun u => u <| us_bytes_read ::= fun n => u64 (n + size) |>));;
      mret (MVGAL_SUCCESS, Some bytes)
  end.

(** [mvgal_memory_flush] and [mvgal_memory_invalidate] differ in the flag
    they give to [msync]. *)
Definition msync_buffer (buffer : option addr) : MM mvgal_error_t :=
  match buffer with
  | None => mret MVGAL_ERROR_INVALID_ARGUMENT
  | Some p =>
      b ← deref p;
      let st := b_storage b in
      if (0 <=? st_dmabuf_fd st) && negb (bool_decide (st_host_ptr st = None)) then
        ok ← sys Msync;
        mret (if ok : bool then MVGAL_SUCCESS else MVGAL_ERROR_DRIVER)
      else mret MVGAL_SUCCESS
  end.

Definition mvgal_memory_flush (buffer : option addr) : MM mvgal_error_t := msync_buffer buffer.
Definition mvgal_memory_invalidate (buffer : option addr) : MM mvgal_error_t := msync_buffer buffer.

Definition mvgal_memory_sync (buffer : option addr) : MM mvgal_error_t :=
  match buffer with
  | None => mret MVGAL_ERROR_INVALID_ARGUMENT
  | Some _ => mvgal_memory_flush buffer
  end.

(** ** Copies *)

Record mvgal_memory_copy_region_t : Type := mk_copy_region {
  cr_src_buffer : option addr;
  cr_src_offset : Z;
  cr_dst_buffer : option addr;
  cr_dst_offset : Z;
  cr_size : Z
}.

Definition count_transfer (src dst : addr) (size : Z) : MM unit :=
  update src (with_usage (fun u => u <| us_bytes_read ::= fun n => u64 (n + size) |>));;
  update dst (with_usage (fun u => u <| us_bytes_written ::= fun n => u64 (n + size) |>));;
  update src (with_usage (fun u => u <| us_bytes_transferred ::= fun n => u64 (n + size) |>));;
  update dst (with_usage (fun u => u <| us_bytes_transferred ::= fun n => u64 (n + size) |>)).

Definition unmap_if_unmapped (p : addr) : MM unit :=
  b ← deref p;
  if is_mapped b then mret tt else mvgal_memory_unmap (Some p).

(** One region: the status it leaves in [overall_err]. *)
Definition copy_region (region : mvgal_memory_copy_region_t) (overall : mvgal_error_t)
  : MM mvgal_error_t :=
  match cr_src_buffer region, cr_dst_buffer region with
  | Some src, Some dst =>
      let size := cr_size region in
      if size =? 0 then mret overall else
      sb ← deref src;
      db ← deref dst;
      if (st_size (b_storage sb) <? u64 (cr_src_offset region + size))
         || (st_size (b_storage db) <? u64 (cr_dst_offset region + size))
      then mret MVGAL_ERROR_INVALID_ARGUMENT else
      r ← mvgal_memory_map (Some src) (cr_src_offset region) size true;
      if negb (is_success (fst r)) then mret (fst r) else
      r' ← mvgal_memory_map (Some dst) (cr_dst_offset region) size true;
      if negb (is_success (fst r')) then mvgal_memory_unmap (Some src);; mret (fst r') else
      on_mem (memcpy (ptr_add (snd r') (cr_dst_offset region))
                     (ptr_add (snd r) (cr_src_offset region)) size);;
      count_transfer src dst size;;
      unmap_if_unmapped src;;
      unmap_if_unmapped dst;;
      mret overall
  | _, _ => mret MVGAL_ERROR_INVALID_ARGUMENT
  end.

Fixpoint copy_regions (regions : list mvgal_memory_copy_region_t) (overall : mvgal_error_t)
  : MM mvgal_error_t :=
  match regions with
  | [] => mret overall
  | r :: rest => err ← copy_region r overall; copy_regions rest err
  end.

Definition mvgal_memory_copy (regions : option (list mvgal_memory_copy_region_t)) : MM mvgal_error_t :=
  match regions with
  | None | Some [] => mret MVGAL_ERROR_INVALID_ARGUMENT
  | Some rs => copy_regions rs MVGAL_SUCCESS
  end.

(** ** Sharing *)

(** The status, and the descriptor stored through [fd_out] on success. *)
Definition mvgal_dmabuf_export (buffer : option addr) (fd_out : bool) : MM (mvgal_error_t * option Z) :=
  match buffer with
  | None => mret (MVGAL_ERROR_INVALID_ARGUMENT, None)
  | Some p =>
      if negb fd_out then mret (MVGAL_ERROR_INVALID_ARGUMENT, None) else
      b ← deref p;
      let fd := st_dmabuf_fd (b_storage b) in
      if has_flag (us_state (b_usage b)) MVGAL_BUFFER_STATE_EXPORTED
      then mret (MVGAL_SUCCESS, Some fd) else
      match us_backend (b_usage b) with
      | MVGAL_BUFFER_BACKEND_DMA_BUF | MVGAL_BUFFER_BACKEND_DMA_BUF_IMPORTED =>
          update p (with_usage (fun u =>
            u <| us_state ::= fun f => Z.lor f MVGAL_BUFFER_STATE_EXPORTED |>));;
          mret (MVGAL_SUCCESS, Some fd)
      | _ => mret (MVGAL_ERROR_NOT_SUPPORTED, None)
      end
  end.

Definition mvgal_memory_export_dmabuf (buffer : option addr) (fd : bool)
  : MM (mvgal_error_t * option Z) := mvgal_dmabuf_export buffer fd.

Definition import_info (size flags : Z) : mvgal_memory_alloc_info_t :=
  mk_alloc_info size 0 (Z.lor flags MVGAL_MEMORY_FLAG_DMA_BUF) MVGAL_MEMORY_TYPE_SRAM
    MVGAL_MEMORY_SHARING_DMA_BUF MVGAL_MEMORY_ACCESS_READ_WRITE U32_MAX 50.

(** [fstat]: the size of an open file. *)
Definition fstat (fd : Z) : MM (option Z) :=
  ok ← sys Fstat;
  obj ← reads (fun s => file_of s fd ≫= fun o => cm_objs (ms_mem s) !! o);
  match obj, ok with
  | Some bytes, true => mret (Some (Z.of_nat (length bytes)))
  | _, _ => mret None
  end.

Definition mvgal_dmabuf_import (fd size flags : Z) (buffer_out : bool)
  : MM (mvgal_error_t * option addr) :=
  if negb buffer_out || (fd <? 0) then mret (MVGAL_ERROR_INVALID_ARGUMENT, None) else
  size ← (if size =? 0 then fstat fd else mret (Some size));
  match size with
  | None => mret (MVGAL_ERROR_INVALID_ARGUMENT, None)
  | Some size =>
      r ← mvgal_buffer_allocate_internal (Some (import_info size flags)) true;
      match r with
      | (MVGAL_SUCCESS, Some p) =>
          update p (fun b =>
            with_storage (fun st => st <| st_dmabuf_fd := fd |> <| st_dmabuf_owner := false |>
              <| st_dmabuf_offset := 0 |>)
            (with_usage (fun u => u <| us_backend := MVGAL_BUFFER_BACKEND_DMA_BUF_IMPORTED |>) b));;
          mapped ← mmap size fd 0;
          match mapped with
          | None =>
              mvgal_buffer_free_internal (Some p);;
              mret (MVGAL_ERROR_MEMORY, None)
          | Some q =>
              update p (fun b =>
                with_storage (fun st => st <| st_host_ptr := Some q |> <| st_original_ptr := Some q |>)
                (with_usage (fun u => u <| us_state ::= fun f =>
                   Z.lor f (Z.lor MVGAL_BUFFER_STATE_ALLOCATED MVGAL_BUFFER_STATE_MAPPED) |>) b));;
              link_buffer p 0;;
              modify (fun s => s <| ms_total_allocated ::= fun n => u64 (n + size) |>);;
              mret (MVGAL_SUCCESS, Some p)
          end
      | (err, _) => mret (err, None)
      end
  end.

Definition mvgal_memory_import_dmabuf (fd : Z) (buffer : bool) : MM (mvgal_error_t * option addr) :=
  if negb buffer || (fd <? 0) then mret (MVGAL_ERROR_INVALID_ARGUMENT, None) else
  size ← fstat fd;
  match size with
  | None => mret (MVGAL_ERROR_INVALID_ARGUMENT, None)
  | Some size =>
      r ← mvgal_dmabuf_import fd size MVGAL_MEMORY_FLAG_DMA_BUF true;
      match r with
      | (MVGAL_SUCCESS, Some p) =>
          b ← deref p;
          link_buffer p (st_size (b_storage b));;
          mret (MVGAL_SUCCESS, Some p)
      | (err, _) => mret (err, None)
      end
  end.

(** The status, and the address stored through [address]. *)
Definition mvgal_buffer_get_gpu_address (buffer : option addr) (gpu_index : Z) (address : bool)
  : MM (mvgal_error_t * option Z) :=
  match buffer with
  | None => mret (MVGAL_ERROR_INVALID_ARGUMENT, None)
  | Some p =>
      if negb address || (MVGAL_MAX_GPUS <=? gpu_index)
      then mret (MVGAL_ERROR_INVALID_ARGUMENT, None) else
      b ← deref p;
      let u := b_usage b in
      let bound := match find_binding gpu_index (us_gpu_binding_count u) (us_gpu_bindings u) with
                   | Some i => default 0 (gb_gpu_address <$> us_gpu_bindings u !! i)
                   | None => 0
                   end in
      if negb (bound =? 0) then mret (MVGAL_SUCCESS, Some bound) else
      if 0 <=? st_dmabuf_fd (b_storage b)
      then mret (MVGAL_SUCCESS, Some (address_of (st_host_ptr (b_storage b))))
      else mret (MVGAL_ERROR_NOT_SUPPORTED, Some 0)
  end.

Definition mvgal_memory_get_gpu_address (buffer : option addr) (gpu_index : Z) (address : bool)
  : MM (mvgal_error_t * option Z) := mvgal_buffer_get_gpu_address buffer gpu_index address.

Fixpoint bind_each (p : addr) (gpu_indices : list Z) : MM unit :=
  match gpu_indices with
  | [] => mret tt
  | i :: rest =>
      (if MVGAL_MAX_GPUS <=? i then mret tt
       else mvgal_buffer_bind_to_gpu (Some p) i false;; mret tt);;
      bind_each p rest
  end.

Definition mvgal_buffer_replicate (buffer : option addr) (gpu_indices : option (list Z))
  : MM mvgal_error_t :=
  match buffer, gpu_indices with
  | Some p, Some (i :: rest) =>
      bind_each p (i :: rest);;
      update p (with_usage (fun u =>
        u <| us_state ::= fun f => Z.lor f MVGAL_BUFFER_STATE_REPLICATED |>));;
      mret MVGAL_SUCCESS
  | _, _ => mret MVGAL_ERROR_INVALID_ARGUMENT
  end.

Definition mvgal_memory_replicate (buffer : option addr) (gpu_indices : option (list Z))
  : MM mvgal_error_t := mvgal_buffer_replicate buffer gpu_indices.

(** Peer-to-peer copies need two known, enabled GPUs. *)
Definition mvgal_dmabuf_p2p_is_supported (src_gpu_index dst_gpu_index : Z) : MM bool :=
  if (MVGAL_MAX_GPUS <=? src_gpu_index) || (MVGAL_MAX_GPUS <=? dst_gpu_index) then mret false else
  count ← on_manager mvgal_gpu_get_count;
  if (u32 count <=? src_gpu_index) || (u32 count <=? dst_gpu_index) then mret false else
  src_on ← on_manager (mvgal_gpu_is_enabled src_gpu_index);
  if negb src_on then mret false else
  on_manager (mvgal_gpu_is_enabled dst_gpu_index).

Definition mvgal_dmabuf_nvlink_is_available (gpu1 gpu2 : Z) : bool := false.

Definition mvgal_dmabuf_get_copy_method (src_gpu_index dst_gpu_index : Z)
  : MM mvgal_memory_copy_method_t :=
  if (MVGAL_MAX_GPUS <=? src_gpu_index) || (MVGAL_MAX_GPUS <=? dst_gpu_index)
  then mret MVGAL_MEMORY_COPY_CPU else
  count ← on_manager mvgal_gpu_get_count;
  if (u32 count <=? src_gpu_index) || (u32 count <=? dst_gpu_index)
  then mret MVGAL_MEMORY_COPY_CPU else
  if mvgal_dmabuf_nvlink_is_available src_gpu_index dst_gpu_index
  then mret MVGAL_MEMORY_COPY_NVLINK else
  p2p ← mvgal_dmabuf_p2p_is_supported src_gpu_index dst_gpu_index;
  mret (if p2p : bool then MVGAL_MEMORY_COPY_DMA_BUF else MVGAL_MEMORY_COPY_CPU).

(** The copy every branch of [mvgal_dmabuf_copy_gpu_to_gpu] ends in. *)
Definition cpu_copy (src dst : addr) (src_offset dst_offset size : Z) : MM mvgal_error_t :=
  sb ← deref src;
  db ← deref dst;
  on_mem (memcpy (ptr_add (st_host_ptr (b_storage db)) dst_offset)
                 (ptr_add (st_host_ptr (b_storage sb)) src_offset) size);;
  mret MVGAL_SUCCESS.

(** The function calls itself after it has exported the destination; with
    the destination's descriptor set the second call does not get there, so
    two calls are enough. *)
Fixpoint copy_gpu_to_gpu (fuel : nat) (src : addr) (src_offset : Z) (dst : addr) (dst_offset size : Z)
  (src_gpu_index dst_gpu_index : Z) : MM mvgal_error_t :=
  match fuel with
  | O => fun _ => NoFuel
  | S fuel' =>
      if size =? 0 then mret MVGAL_SUCCESS else
      sb ← deref src;
      db ← deref dst;
      if (st_size (b_storage sb) <? u64 (src_offset + size))
         || (st_size (b_storage db) <? u64 (dst_offset + size))
      then mret MVGAL_ERROR_INVALID_ARGUMENT else
      p2p ← mvgal_dmabuf_p2p_is_supported src_gpu_index dst_gpu_index;
      if negb p2p then cpu_copy src dst src_offset dst_offset size else
      if (0 <=? st_dmabuf_fd (b_storage sb)) && (0 <=? st_dmabuf_fd (b_storage db))
      then cpu_copy src dst src_offset dst_offset size else
      if (0 <=? st_dmabuf_fd (b_storage sb)) && (st_dmabuf_fd (b_storage db) <? 0) then
        r ← mvgal_memory_export_dmabuf (Some dst) true;
        match r with
        | (MVGAL_SUCCESS, Some fd) =>
            update dst (fun b => with_storage (fun st => st <| st_dmabuf_fd := fd |>)
              (with_usage (fun u => u <| us_backend := MVGAL_BUFFER_BACKEND_DMA_BUF |>) b));;
            copy_gpu_to_gpu fuel' src src_offset dst dst_offset size src_gpu_index dst_gpu_index
        | _ => cpu_copy src dst src_offset dst_offset size
        end
      else cpu_copy src dst src_offset dst_offset size
  end.

Definition mvgal_dmabuf_copy_gpu_to_gpu (src : option addr) (src_offset : Z) (dst : option addr)
  (dst_offset size src_gpu_index dst_gpu_index : Z) : MM mvgal_error_t :=
  match src, dst with
  | Some s, Some d => copy_gpu_to_gpu 2 s src_offset d dst_offset size src_gpu_index dst_gpu_index
  | _, _ => mret MVGAL_ERROR_INVALID_ARGUMENT
  end.

Definition mvgal_memory_copy_gpu (src : option addr) (src_offset : Z) (dst : option addr)
  (dst_offset size src_gpu_index dst_gpu_index : Z) (fence : option addr) : MM mvgal_error_t :=
  match src, dst with
  | Some s, Some d =>
      if size =? 0 then mret MVGAL_SUCCESS else
      let signal := match fence with
                    | Some _ => on_sync (mvgal_fence_signal_with_status fence MVGAL_SUCCESS);; mret tt
                    | None => mret tt
                    end in
      method ← mvgal_dmabuf_get_copy_method src_gpu_index dst_gpu_index;
      direct ← match method with
               | MVGAL_MEMORY_COPY_CPU => mret MVGAL_ERROR_NOT_SUPPORTED
               | _ => mvgal_dmabuf_copy_gpu_to_gpu src src_offset dst dst_offset size
                        src_gpu_index dst_gpu_index
               end;
      if is_success direct then signal;; mret MVGAL_SUCCESS else
      err ← mvgal_memory_copy (Some [mk_copy_region src src_offset dst dst_offset size]);
      (if is_success err then signal else mret tt);;
      mret err
  | _, _ => mret MVGAL_ERROR_INVALID_ARGUMENT
  end.

Definition mvgal_dmabuf_bind_to_gpu (buffer : option addr) (gpu_index : Z) (gpu_address : bool)
  : MM (mvgal_error_t * option Z) :=
  match buffer with
  | None => mret (MVGAL_ERROR_INVALID_ARGUMENT, None)
  | Some p =>
      if negb gpu_address then mret (MVGAL_ERROR_INVALID_ARGUMENT, None) else
      b ← deref p;
      let u := b_usage b in
      if st_dmabuf_fd (b_storage b) <? 0 then mret (MVGAL_ERROR_NOT_SUPPORTED, None) else
      match find_binding gpu_index (us_gpu_binding_count u) (us_gpu_bindings u) with
      | Some i => mret (MVGAL_SUCCESS, gb_gpu_address <$> us_gpu_bindings u !! i)
      | None =>
          count ← on_manager mvgal_gpu_get_count;
          enabled ← (if u32 count <=? gpu_index then mret false
                     else on_manager (mvgal_gpu_is_enabled gpu_index));
          if negb enabled then mret (MVGAL_ERROR_GPU_NOT_FOUND, None) else
          let address := address_of (st_host_ptr (b_storage b)) in
          (if us_gpu_binding_count u <? MVGAL_MAX_GPUS then
             update p (with_usage (fun u =>
               set_binding (Z.to_nat (us_gpu_binding_count u)) (fun g =>
                 g <| gb_gpu_index := gpu_index |> <| gb_gpu_address := address |>
                   <| gb_writable := true |> <| gb_readable := true |>)
               (u <| us_gpu_binding_count ::= Z.succ |>)))
           else mret tt);;
          mret (MVGAL_SUCCESS, Some address)
      end
  end.

(** ** Access control *)

Definition mask_access (gpu_index access : Z) (u : usage) : usage :=
  u <| us_gpu_mask ::= fun m =>
    if negb (access =? 0) then Z.lor m (bit gpu_index)
    else Z.land m (u32 (Z.lnot (bit gpu_index))) |>.

Definition can_read (access : Z) : bool :=
  has_flag access (Z.lor MVGAL_MEMORY_ACCESS_READ MVGAL_MEMORY_ACCESS_READ_WRITE).
Definition can_write (access : Z) : bool :=
  has_flag access (Z.lor MVGAL_MEMORY_ACCESS_WRITE MVGAL_MEMORY_ACCESS_READ_WRITE).

Definition mvgal_memory_set_access (buffer : option addr) (gpu_index access : Z) : MM mvgal_error_t :=
  match buffer with
  | None => mret MVGAL_ERROR_INVALID_ARGUMENT
  | Some p =>
      if MVGAL_MAX_GPUS <=? gpu_index then mret MVGAL_ERROR_INVALID_ARGUMENT else
      update p (with_usage (mask_access gpu_index access));;
      b ← deref p;
      let u := b_usage b in
      match find_binding gpu_index (us_gpu_binding_count u) (us_gpu_bindings u) with
      | Some i =>
          update p (with_usage (set_binding i (fun g =>
            g <| gb_readable := can_read access |> <| gb_writable := can_write access |>)));;
          mret MVGAL_SUCCESS
      | None =>
          (if negb (access =? 0)
           then mvgal_buffer_bind_to_gpu (Some p) gpu_index (can_write access);; mret tt
           else mret tt);;
          mret MVGAL_SUCCESS
      end
  end.

Definition binding_access (g : mvgal_gpu_binding_t) : Z :=
  Z.lor (if gb_readable g then MVGAL_MEMORY_ACCESS_READ else 0)
        (if gb_writable g then MVGAL_MEMORY_ACCESS_WRITE else 0).

(** The status, and the rights stored through [access]. *)
Definition mvgal_memory_get_access (buffer : option addr) (gpu_index : Z) (access : bool)
  : MM (mvgal_error_t * option Z) :=
  match buffer with
  | None => mret (MVGAL_ERROR_INVALID_ARGUMENT, None)
  | Some p =>
      if negb access || (MVGAL_MAX_GPUS <=? gpu_index)
      then mret (MVGAL_ERROR_INVALID_ARGUMENT, None) else
      b ← deref p;
      let u := b_usage b in
      if negb (has_bit (us_gpu_mask u) gpu_index) then mret (MVGAL_SUCCESS, Some 0) else
      match find_binding gpu_index (us_gpu_binding_count u) (us_gpu_bindings u) with
      | Some i => mret (MVGAL_SUCCESS, binding_access <$> us_gpu_bindings u !! i)
      | None => mret (MVGAL_SUCCESS, Some MVGAL_MEMORY_ACCESS_READ_WRITE)
      end
  end.

Definition mvgal_memory_is_accessible (buffer : option addr) (gpu_index : Z) : MM bool :=
  match buffer with
  | None => mret false
  | Some p =>
      if MVGAL_MAX_GPUS <=? gpu_index then mret false else
      b ← deref p;
      mret (has_bit (us_gpu_mask (b_usage b)) gpu_index)
  end.

(** ** Callbacks and statistics *)

Definition mvgal_memory_register_callback (buffer callback user_data : option addr)
  : MM mvgal_error_t :=
  match buffer, callback with
  | Some p, Some _ =>
      update p (with_usage (fun u =>
        u <| us_callback := callback |> <| us_callback_user_data := user_data |>));;
      mret MVGAL_SUCCESS
  | _, _ => mret MVGAL_ERROR_INVALID_ARGUMENT
  end.

Definition mvgal_memory_unregister_callback (buffer callback : option addr) : MM mvgal_error_t :=
  match buffer with
  | None => mret MVGAL_ERROR_INVALID_ARGUMENT
  | Some p =>
      b ← deref p;
      (if bool_decide (us_callback (b_usage b) = callback)
       then update p (with_usage (fun u =>
              u <| us_callback := None |> <| us_callback_user_data := None |>))
       else mret tt);;
      mret MVGAL_SUCCESS
  end.

(** Bytes read, bytes written and GPU accesses. *)
Definition mvgal_memory_get_stats (buffer : option addr) (outs : bool)
  : MM (mvgal_error_t * option (Z * Z * Z)) :=
  match buffer with
  | None => mret (MVGAL_ERROR_INVALID_ARGUMENT, None)
  | Some p =>
      if negb outs then mret (MVGAL_ERROR_INVALID_ARGUMENT, None) else
      b ← deref p;
      let u := b_usage b in
      mret (MVGAL_SUCCESS,
            Some (us_bytes_read u, us_bytes_written u, sum_counts (us_access_count u)))
  end.

(** ** Unified virtual memory *)

Definition mvgal_dmabuf_uvm_is_supported (gpu_index : Z) : MM bool :=
  if MVGAL_MAX_GPUS <=? gpu_index then mret false else
  count ← on_manager mvgal_gpu_get_count;
  if u32 count <=? gpu_index then mret false else on_manager (mvgal_gpu_is_enabled gpu_index).

Definition mvgal_dmabuf_allocate_uvm (size alignment flags : Z) (ptr_out : bool)
  : MM (mvgal_error_t * option ptr) :=
  if negb ptr_out then mret (MVGAL_ERROR_INVALID_ARGUMENT, None) else
  p ← (if 0 <? alignment then posix_memalign alignment size else malloc Malloc size);
  match p with
  | None => mret (MVGAL_ERROR_OUT_OF_MEMORY, None)
  | Some q =>
      (if has_flag flags MVGAL_MEMORY_FLAG_ZERO_INITIALIZED
       then on_mem (memset (Some q) 0 size) else mret tt);;
      mret (MVGAL_SUCCESS, Some q)
  end.

Definition mvgal_dmabuf_free_uvm (p : option ptr) : MM unit :=
  match p with
  | None => mret tt
  | Some _ => on_mem (free p)
  end.

End memory_api.
