(* ===== verification/MemLifetime.v ===== *)
(** * Lifetime of buffers

    The invariant of the memory module (the doubly linked list of buffers,
    reference counts against the handles of clients and the aliases, and
    ownership of heap blocks and mappings) and correctness lemmas for the
    operations that create, share and free buffers. *)

From S2P Require Import Prelude Float32 CString GpuTypes GpuManager SyncPrims CMem MemTypes Allocator MemoryApi.
Local Open Scope Z_scope.

Abbreviation bheap := (gmap positive mvgal_buffer).

(** ** Doubly linked lists *)

(** [l] lists the cells of a doubly linked list with links [nx] and [pv]. *)
Definition linked (nx pv : addr -> option addr) (l : list addr) : Prop :=
  forall l1 p l2, l = l1 ++ p :: l2 -> nx p = head l2 /\ pv p = last l1.

Lemma split_mid (l1 l2 m1 m2 : list addr) q :
  l1 ++ l2 = m1 ++ q :: m2 ->
  (exists k, l1 = m1 ++ q :: k /\ m2 = k ++ l2) \/ (exists k, m1 = l1 ++ k /\ l2 = k ++ q :: m2).
Proof.
  intros E. destruct (app_eq_inv _ _ _ _ E) as [(k & E1 & E2)|(k & E1 & E2)].
  - destruct k as [|x k]; cbn in E2; simplify_eq.
    + right. exists []. by rewrite !app_nil_r.
    + left. exists k. done.
  - right. exists k. done.
Qed.

Lemma nodup_mid (l1 l2 : list addr) p :
  NoDup (l1 ++ p :: l2) -> NoDup (l1 ++ l2) /\ p ∉ l1 ++ l2.
Proof.
  intros (? & Hd & [? ?]%NoDup_cons)%NoDup_app. split.
  - apply NoDup_app. split_and!; try done. intros q Hq1 Hq2. apply (Hd q); [done|set_solver].
  - intros [Hq1|Hq2]%elem_of_app; [|done]. apply (Hd p); [done|set_solver].
Qed.

Lemma linked_push nx pv nx' pv' p l :
  NoDup (p :: l) -> linked nx pv l ->
  nx' p = head l -> pv' p = None ->
  (forall q, q ∈ l -> nx' q = nx q) ->
  (forall q, q ∈ l -> pv' q = if decide (head l = Some q) then Some p else pv q) ->
  linked nx' pv' (p :: l).
Proof.
  intros Hnd Hl Hnp Hpp Hn Hp l1 q l2 E. destruct l1 as [|x l1]; cbn in E; simplify_eq.
  { done. }
  assert (Hq : q ∈ l1 ++ q :: l2) by set_solver.
  destruct (Hl l1 q l2 eq_refl) as [En Ep]. rewrite Hn, Hp, En, Ep by done. split; [done|].
  destruct l1 as [|y l1]; cbn.
  - by rewrite decide_True.
  - rewrite decide_False; [done|]. intros [= ->].
    apply NoDup_cons in Hnd as [_ Hnd]. cbn in Hnd. apply NoDup_cons in Hnd as [Hnd _]. set_solver.
Qed.

Lemma linked_remove nx pv nx' pv' l1 p l2 :
  NoDup (l1 ++ p :: l2) -> linked nx pv (l1 ++ p :: l2) ->
  (forall q, q ∈ l1 ++ l2 -> nx' q = if decide (last l1 = Some q) then head l2 else nx q) ->
  (forall q, q ∈ l1 ++ l2 -> pv' q = if decide (head l2 = Some q) then last l1 else pv q) ->
  linked nx' pv' (l1 ++ l2).
Proof.
  intros Hnd Hl Hn Hp m1 q m2 E.
  assert (Hq : q ∈ l1 ++ l2) by (rewrite E; set_solver). rewrite Hn, Hp by done. clear Hn Hp.
  destruct (split_mid _ _ _ _ _ E) as [(k & -> & ->)|(k & -> & ->)].
  - destruct (Hl m1 q (k ++ p :: l2)) as [En Ep]; [by rewrite <- app_assoc|]. rewrite En, Ep.
    apply NoDup_app in Hnd as (Hnd & Hd & _). split.
    + destruct k as [|x k]; cbn.
      * rewrite last_snoc. by rewrite decide_True.
      * rewrite decide_False; [done|]. rewrite last_app_cons. intros Hx.
        apply NoDup_app in Hnd as (_ & _ & [Hnd _]%NoDup_cons).
        apply Hnd, last_Some_elem_of. by rewrite last_cons_cons in Hx.
    + rewrite decide_False; [done|]. intros Hh%head_Some_elem_of. apply (Hd q); set_solver.
  - destruct (Hl (l1 ++ p :: k) q m2) as [En Ep]; [by rewrite <- app_assoc|]. rewrite En, Ep.
    apply NoDup_app in Hnd as (_ & Hd & [_ Hnd]%NoDup_cons). split.
    + rewrite decide_False; [done|]. intros Hh%last_Some_elem_of. apply (Hd q); set_solver.
    + destruct k as [|x k]; cbn.
      * by rewrite decide_True, app_nil_r.
      * rewrite decide_False; [|intros [= ->]; cbn in Hnd; apply NoDup_cons in Hnd; set_solver].
        by rewrite !last_app_cons, last_cons_cons.
Qed.

Lemma head_join (l1 l2 : list addr) p :
  match last l1 with Some _ => head (l1 ++ p :: l2) | None => head l2 end = head (l1 ++ l2).
Proof. destruct l1 as [|a l]; [done|]. rewrite last_cons. by destruct (last l). Qed.

Definition before (l : list addr) (q r : addr) : Prop := exists l1 l2, l = l1 ++ q :: l2 /\ r ∈ l2.

Lemma before_remove l1 p l2 q r :
  before (l1 ++ p :: l2) q r -> q <> p -> r <> p -> before (l1 ++ l2) q r.
Proof.
  intros (m1 & m2 & E & Hr) Hq Hrp.
  destruct (app_eq_inv _ _ _ _ E) as [(k & -> & E2)|(k & -> & E2)].
  - destruct k as [|x k]; cbn in E2; simplify_eq. exists m1, (k ++ l2). split; [by rewrite <- app_assoc|].
    set_solver.
  - destruct k as [|x k]; cbn in E2; simplify_eq. exists (l1 ++ k), m2. by rewrite <- app_assoc.
Qed.

Lemma before_cons l p q r : before l q r -> before (p :: l) q r.
Proof. intros (l1 & l2 & -> & ?). by exists (p :: l1), l2. Qed.

Lemma before_head l p r : r ∈ l -> before (p :: l) p r.
Proof. intros. by exists [], l. Qed.

Lemma before_after l p q l1 l2 : NoDup l -> l = l1 ++ p :: l2 -> before l p q -> q ∈ l2.
Proof.
  intros Hnd E (m1 & m2 & E' & Hq). subst l.
  destruct (app_eq_inv _ _ _ _ E') as [(k & -> & E2)|(k & -> & E2)].
  - destruct k as [|x k]; cbn in E2; [by simplify_eq|].
    injection E2 as Ep El. subst. exfalso.
    apply NoDup_app in Hnd as (_ & Hd & _). apply (Hd x); set_solver.
  - destruct k as [|x k]; cbn in E2; [by simplify_eq|].
    injection E2 as Ep El. subst. exfalso.
    apply NoDup_app in Hnd as (_ & _ & [Hn _]%NoDup_cons). set_solver.
Qed.

Lemma before_irrefl l p : NoDup l -> before l p p -> False.
Proof.
  intros Hnd Hb. pose proof Hb as (l1 & l2 & E & Hq). subst l.
  apply NoDup_app in Hnd as (_ & _ & [Hn _]%NoDup_cons). done.
Qed.

Lemma before_trans l p q r : NoDup l -> before l p q -> before l q r -> before l p r.
Proof.
  intros Hnd (l1 & l2 & E & Hq) Hqr. exists l1, l2. split; [done|].
  apply list_elem_of_split in Hq as (a & c & ->).
  pose proof (before_after l q r (l1 ++ p :: a) c Hnd) as H. rewrite E, <- app_assoc in H.
  specialize (H eq_refl). rewrite E in Hqr. set_solver.
Qed.

(** ** The invariant *)

Definition nx (h : bheap) (p : addr) : option addr := h !! p ≫= fun b => lk_next (b_links b).
Definition pv (h : bheap) (p : addr) : option addr := h !! p ≫= fun b => lk_prev (b_links b).
Definition parent (h : bheap) (p : addr) : option addr := h !! p ≫= fun b => lk_alias_parent (b_links b).

Definition live_aliases (b : mvgal_buffer) : list (option addr) :=
  take (Z.to_nat (lk_alias_count (b_links b))) (lk_aliases (b_links b)).

(** The block [free] is called on when the buffer goes away, and the mapping
    [munmap] is called on when the buffer is unmapped or goes away. *)
Definition owns (b : mvgal_buffer) : option ptr :=
  if st_should_free (b_storage b) then st_original_ptr (b_storage b) else None.

Definition maps (b : mvgal_buffer) : option ptr :=
  if st_dmabuf_owner (b_storage b) && (0 <=? st_dmabuf_fd (b_storage b))
  then st_host_ptr (b_storage b) else None.

Definition holds (heap : bool) (b : mvgal_buffer) : option ptr := if heap then owns b else maps b.

Definition claims (b : mvgal_buffer) (r : positive) : Prop := exists k q, holds k b = Some q /\ fst q = r.

Lemma holds_storage k b b' : b_storage b' = b_storage b -> holds k b' = holds k b.
Proof. intros E. unfold holds, owns, maps. by rewrite E. Qed.

(** Unmapping [len] bytes from the start of a mapping stays inside it. *)
Definition spans (rg : region) (len : Z) : bool :=
  (TASK_SIZE <? len) || (page_up len <=? page_up (rg_size rg)).

(** What is known of the history so far: [covered], no mapping was ever made
    shorter than its buffer; [orderly], memory was in order at the start. *)
Class Care : Type := { covered : bool; orderly : bool }.

(** A call that returns, or unmaps too much where mappings may be short. *)
Definition cwp `{Care} {S A : Type} (m : M S A) (Q : A -> S -> Prop) (s : S) : Prop :=
  wp m Q s \/ covered = false /\ m s = Fault OverUnmap.

Lemma cwp_wp `{Care} {S A : Type} (m : M S A) Q s : wp m Q s -> cwp m Q s.
Proof. by left. Qed.

Lemma cwp_bind `{Care} {S A B : Type} (m : M S A) (f : A -> M S B) Q s :
  cwp m (fun a s' => cwp (f a) Q s') s -> cwp (m ≫= f) Q s.
Proof.
  unfold cwp, wp, mbind, M_bind. destruct (m s) as [[a s']| |]; intros [Hm|[Hc E]]; try done.
  right. split; [done|congruence].
Qed.

Lemma cwp_mono `{Care} {S A : Type} (m : M S A) (P Q : A -> S -> Prop) s :
  cwp m P s -> (forall a s', P a s' -> Q a s') -> cwp m Q s.
Proof. intros [Hm|Hm] HQ; [left; by eapply wp_mono|by right]. Qed.

(** Memory in order: regions are on objects that exist, a heap block has its
    object to itself, and open files are objects that exist and are not on
    the heap. *)
Record mem_wf (m : cmem) (files : gmap positive positive) : Prop := {
  mw_objs : forall r rg, cm_regs m !! r = Some rg -> is_Some (cm_objs m !! rg_obj rg);
  mw_heap : forall r rg r' rg', cm_regs m !! r = Some rg -> rg_heap rg = true ->
    cm_regs m !! r' = Some rg' -> rg_obj rg' = rg_obj rg -> r' = r;
  mw_files : forall fd o, files !! fd = Some o -> is_Some (cm_objs m !! o) /\
    forall r rg, cm_regs m !! r = Some rg -> rg_heap rg = true -> rg_obj rg <> o
}.

Section ownership.
Context {care : Care}.

(** The region behind the storage a buffer owns. *)
Record backs (b : mvgal_buffer) (heap : bool) (q : ptr) (rg : region) : Prop := {
  bk_start : snd q = 0;
  bk_kind : rg_heap rg = heap;
  bk_whole : rg_gone rg = [];
  bk_spans : covered = true -> heap = false -> spans rg (st_size (b_storage b)) = true
}.

Lemma backs_size b b' k q rg :
  st_size (b_storage b') = st_size (b_storage b) -> backs b k q rg -> backs b' k q rg.
Proof. intros E []. constructor; try done. by rewrite E. Qed.

(** [hs] counts the references clients hold; [D] are buffers in the middle
    of an operation, already taken out of their parent's list; [x] is a
    buffer whose count has just reached zero. *)
Record buffer_ok (h : bheap) (hs : addr -> Z) (l : list addr) (D : gset addr) (x : option addr)
  (p : addr) (b : mvgal_buffer) : Prop := {
  bo_aliases : exists qs, live_aliases b = Some <$> qs /\ NoDup qs /\
    lk_alias_count (b_links b) = Z.of_nat (length qs) /\
    (forall q, q ∈ qs <-> parent h q = Some p /\ q ∉ D);
  bo_room : length (lk_aliases (b_links b)) = 16%nat;
  bo_refs : b_refcount b = hs p + lk_alias_count (b_links b);
  bo_max : b_refcount b <= U32_MAX;
  bo_alive : x <> Some p -> 0 < b_refcount b;
  bo_alias : lk_is_alias (b_links b) = bool_decide (lk_alias_parent (b_links b) <> None);
  bo_attached : lk_alias_parent (b_links b) <> None -> lk_alias_detached (b_links b) = false;
  bo_parent : forall q, lk_alias_parent (b_links b) = Some q -> before l p q
}.

Record mem_inv (h : bheap) (first : option addr) (regs : gmap positive region)
  (hs : addr -> Z) (l : list addr) (D : gset addr) (x : option addr) : Prop := {
  mi_nodup : NoDup l;
  mi_dom : forall p, is_Some (h !! p) <-> p ∈ l;
  mi_first : first = head l;
  mi_linked : linked (nx h) (pv h) l;
  mi_limbo : forall p, p ∈ D -> p ∈ l;
  mi_ok : forall p b, h !! p = Some b -> p ∉ D -> buffer_ok h hs l D x p b;
  mi_fence : forall p b, h !! p = Some b -> us_fence (b_usage b) = None;
  mi_owned : forall p b k q, h !! p = Some b -> holds k b = Some q ->
    exists rg, regs !! fst q = Some rg /\ backs b k q rg;
  mi_unique : forall p p' b b' k k' q q', h !! p = Some b -> h !! p' = Some b' ->
    holds k b = Some q -> holds k' b' = Some q' -> fst q = fst q' -> p = p';
  mi_handles : forall p, 0 <= hs p /\ (p ∉ l -> hs p = 0)
}.

Lemma mi_live h first regs hs l D x p : mem_inv h first regs hs l D x -> p ∈ l -> exists b, h !! p = Some b.
Proof. intros I Hp. by apply (mi_dom _ _ _ _ _ _ _ I). Qed.

(** Two structures that differ in their list links only. *)
Definition relinked (b b' : mvgal_buffer) : Prop :=
  exists n v, b' = with_links (fun l => l <| lk_next := n |> <| lk_prev := v |>) b.

Lemma relinked_refl b : relinked b b.
Proof. exists (lk_next (b_links b)), (lk_prev (b_links b)). by destruct b as [? ? [] ?]. Qed.

Lemma relinked_trans b b' b'' : relinked b b' -> relinked b' b'' -> relinked b b''.
Proof. intros (n & v & ->) (n' & v' & ->). by exists n', v'. Qed.

Lemma relinked_parent h h' p b b' :
  h !! p = Some b -> h' !! p = Some b' -> relinked b b' -> parent h' p = parent h p.
Proof. intros H H' (n & v & ->). unfold parent. rewrite H, H'. done. Qed.

Lemma relinked_ok h hs l D x p b b' :
  relinked b b' -> buffer_ok h hs l D x p b -> buffer_ok h hs l D x p b'.
Proof. intros (n & v & ->) []. by constructor. Qed.

(** The facts about a buffer depend on the heap through the parents and on
    the list through its order. *)
Lemma buffer_ok_frame h h' hs hs' l l' D D' x p b :
  (forall q, parent h' q = Some p /\ q ∉ D' <-> parent h q = Some p /\ q ∉ D) ->
  (forall q, lk_alias_parent (b_links b) = Some q -> before l p q -> before l' p q) ->
  hs' p = hs p ->
  buffer_ok h hs l D x p b -> buffer_ok h' hs' l' D' x p b.
Proof.
  intros HP HB Hh [(qs & E & Hnd & Hc & Hq) Hroom Hrefs Hmax Hal Hia Hat Hpar].
  constructor; try done.
  - exists qs. split_and!; try done. intros q. by rewrite Hq, HP.
  - by rewrite Hh.
  - intros q Hq'. apply HB; auto.
Qed.

(** A buffer in limbo that nobody refers to leaves the heap and the list. *)
Lemma inv_remove h h' first regs regs' hs l1 p l2 D :
  mem_inv h first regs hs (l1 ++ p :: l2) ({[p]} ∪ D) None ->
  p ∉ D -> hs p = 0 ->
  (forall q, parent h q = Some p -> q ∈ D) ->
  h' !! p = None ->
  (forall q, q <> p -> match h !! q with
     | Some b => exists b', h' !! q = Some b' /\ relinked b b' /\
         lk_next (b_links b') = (if decide (last l1 = Some q) then head l2 else lk_next (b_links b)) /\
         lk_prev (b_links b') = (if decide (head l2 = Some q) then last l1 else lk_prev (b_links b))
     | None => h' !! q = None
     end) ->
  (forall q b k r rg, q <> p -> h !! q = Some b -> holds k b = Some r -> regs !! fst r = Some rg ->
     regs' !! fst r = Some rg) ->
  mem_inv h' (head (l1 ++ l2)) regs' hs (l1 ++ l2) D None.
Proof.
  intros I HpD Hh0 Hch Hp Hq Hr.
  pose proof (mi_nodup _ _ _ _ _ _ _ I) as Hnd.
  destruct (nodup_mid _ _ _ Hnd) as [Hnd' Hpl].
  assert (Hback : forall q b', h' !! q = Some b' -> q <> p /\ exists b, h !! q = Some b /\ relinked b b').
  { intros q b' H'. assert (q <> p) by congruence. split; [done|]. specialize (Hq q ltac:(done)).
    destruct (h !! q) as [b|]; [|congruence]. destruct Hq as (b'' & E & R & _). naive_solver. }
  assert (Hpar : forall q, q <> p -> parent h' q = parent h q).
  { intros q Hne. specialize (Hq q Hne). destruct (h !! q) as [b|] eqn:E.
    - destruct Hq as (b' & E' & R & _). by eapply relinked_parent.
    - unfold parent. by rewrite E, Hq. }
  assert (Hpp : parent h' p = None) by (unfold parent; by rewrite Hp).
  constructor; [done|..|].
  - intros q. destruct (decide (q = p)) as [->|Hne].
    { rewrite Hp. split; [by intros []|done]. }
    specialize (Hq q Hne). pose proof (mi_dom _ _ _ _ _ _ _ I q) as Hdq.
    destruct (h !! q) as [b|]; [destruct Hq as (b' & -> & _)|rewrite Hq]; split; intros Hx; try done.
    + assert (q ∈ l1 ++ p :: l2) by (apply Hdq; eauto). set_solver.
    + exfalso. destruct Hdq as [_ Hdq]. destruct Hdq; [|done]. set_solver.
  - done.
  - eapply (linked_remove (nx h) (pv h)); [exact Hnd|apply I|..]; intros q Hin;
      (assert (q <> p) by congruence); specialize (Hq q ltac:(done)); unfold nx, pv;
      (destruct (mi_live _ _ _ _ _ _ _ q I) as (b & E); [set_solver|]); rewrite E in Hq |- *;
      destruct Hq as (b' & -> & _ & En & Ep); done.
  - intros q HqD. pose proof (mi_limbo _ _ _ _ _ _ _ I q ltac:(set_solver)). set_solver.
  - intros q b' H' HqD. destruct (Hback q b' H') as (Hne & b & E & R).
    eapply relinked_ok; [exact R|]. pose proof (mi_ok _ _ _ _ _ _ _ I q b E ltac:(set_solver)) as Hok.
    eapply buffer_ok_frame; [| |done|exact Hok].
    + intros r. destruct (decide (r = p)) as [->|]; [|rewrite Hpar by done; set_solver].
      rewrite Hpp. set_solver.
    + intros r Hr' Hb. apply (before_remove l1 p l2); [done|done|]. intros ->.
      apply HqD, Hch. unfold parent. by rewrite E.
  - intros q b' H'. destruct (Hback q b' H') as (_ & b & E & (n & v & ->)). exact (mi_fence _ _ _ _ _ _ _ I q b E).
  - intros q b' k r H' Ho. destruct (Hback q b' H') as (Hne & b & E & (n & v & ->)).
    destruct (mi_owned _ _ _ _ _ _ _ I q b k r E Ho) as (rg & ? & Hb). exists rg. split; [eauto|].
    by apply (backs_size b).
  - intros q q' b b' k k' r r' H1 H2 O1 O2. destruct (Hback q b H1) as (_ & c & E & (n & v & ->)).
    destruct (Hback q' b' H2) as (_ & c' & E' & (n' & v' & ->)).
    exact (mi_unique _ _ _ _ _ _ _ I q q' c c' k k' r r' E E' O1 O2).
  - intros q. pose proof (mi_handles _ _ _ _ _ _ _ I q) as [? Hz]. split; [done|].
    intros Hq'. destruct (decide (q = p)) as [->|]; [done|]. apply Hz. set_solver.
Qed.

(** One structure changes, but for its links, its count and its size; what
    nobody owns any more may go, and the structure may get new storage. *)
Lemma inv_update h first regs regs' hs l D x p b b' :
  mem_inv h first regs hs l D x -> h !! p = Some b ->
  b_links b' = b_links b -> b_refcount b' = b_refcount b -> us_fence (b_usage b') = None ->
  st_size (b_storage b') = st_size (b_storage b) ->
  (forall k r, holds k b' = Some r -> holds k b = Some r \/
     regs !! fst r = None /\ exists rg, regs' !! fst r = Some rg /\ backs b' k r rg) ->
  (forall q c k r rg, <[p := b']> h !! q = Some c -> holds k c = Some r ->
     regs !! fst r = Some rg -> regs' !! fst r = Some rg) ->
  mem_inv (<[p := b']> h) first regs' hs l D x.
Proof.
  intros I Hp El Er Ef Es Eo Hr.
  assert (Hl : forall q, (fun c => b_links c) <$> <[p := b']> h !! q = (fun c => b_links c) <$> h !! q).
  { intros q. destruct (decide (p = q)) as [<-|]; [|by rewrite lookup_insert_ne].
    rewrite lookup_insert_eq, Hp. cbn. by rewrite El. }
  assert (Hb : forall q c, <[p := b']> h !! q = Some c -> exists c0, h !! q = Some c0 /\
    b_links c = b_links c0 /\ b_refcount c = b_refcount c0 /\
    st_size (b_storage c) = st_size (b_storage c0) /\
    (forall k r, holds k c = Some r -> holds k c0 = Some r \/
       q = p /\ regs !! fst r = None /\ exists rg, regs' !! fst r = Some rg /\ backs c k r rg)).
  { intros q c [[<- <-]|[? ?]]%lookup_insert_Some; [|eauto 9].
    exists b. split_and!; try done. intros k r E. destruct (Eo k r E); auto. }
  assert (Hpar : forall q, parent (<[p := b']> h) q = parent h q).
  { intros q. unfold parent. specialize (Hl q). destruct (<[p := b']> h !! q), (h !! q); cbn in *; congruence. }
  constructor; try apply I.
  - intros q. rewrite <- (mi_dom _ _ _ _ _ _ _ I q), lookup_insert. case_decide; [|done].
    subst q. rewrite Hp. split; eauto.
  - intros l1 q l2 E. destruct (mi_linked _ _ _ _ _ _ _ I l1 q l2 E) as [<- <-].
    unfold nx, pv. specialize (Hl q). destruct (<[p := b']> h !! q), (h !! q); cbn in *; try done.
    injection Hl as Hl. by rewrite Hl.
  - intros q c Hc HqD. destruct (Hb q c Hc) as (c0 & E & El0 & Er0 & _).
    eapply (buffer_ok_frame h _ hs hs l l D D);
      [intros r; by rewrite Hpar|done|done|].
    pose proof (mi_ok _ _ _ _ _ _ _ I q c0 E HqD) as [].
    constructor; unfold live_aliases; rewrite ?El0, ?Er0; done.
  - intros q c [[<- <-]|[? Hc]]%lookup_insert_Some; [done|]. exact (mi_fence _ _ _ _ _ _ _ I q c Hc).
  - intros q c k r Hc Ho. destruct (Hb q c Hc) as (c0 & E & _ & _ & Esz & O).
    destruct (O k r Ho) as [O'|(_ & _ & ?)]; [|done].
    destruct (mi_owned _ _ _ _ _ _ _ I q c0 k r E O') as (rg & ? & ?). exists rg.
    split; [by eapply Hr|by eapply backs_size].
  - intros q q' c c' k k' r r' H1 H2 O1 O2 Eq. destruct (Hb q c H1) as (c0 & E & _ & _ & _ & O).
    destruct (Hb q' c' H2) as (c0' & E' & _ & _ & _ & O').
    destruct (O k r O1) as [P1|(-> & N1 & _)], (O' k' r' O2) as [P2|(-> & N2 & _)]; [|..|done].
    + exact (mi_unique _ _ _ _ _ _ _ I q q' c0 c0' k k' r r' E E' P1 P2 Eq).
    + destruct (mi_owned _ _ _ _ _ _ _ I q c0 k r E P1) as (? & ? & _). congruence.
    + destruct (mi_owned _ _ _ _ _ _ _ I q' c0' k' r' E' P2) as (? & ? & _). congruence.
Qed.

Lemma inv_regs h first regs regs' hs l D x :
  mem_inv h first regs hs l D x ->
  (forall r rg, regs !! r = Some rg -> regs' !! r = Some rg) ->
  mem_inv h first regs' hs l D x.
Proof.
  intros [] Hr. constructor; try done. intros p b k q Hp Ho.
  destruct (mi_owned0 p b k q Hp Ho) as (rg & ? & ?). eauto.
Qed.

(** ** Running the operations *)

Definition set_heap (h : bheap) (s : mvgal_memory_state_t) : mvgal_memory_state_t := s <| ms_heap := h |>.

Record module_ok (s : mvgal_memory_state_t) (hs : addr -> Z) (l : list addr) (D : gset addr)
  (x : option addr) : Prop := {
  mo_lock : ms_locked s = false;
  mo_init : ms_initialized s = false -> l = [];
  mo_mem : orderly = true -> mem_wf (ms_mem s) (ms_files s);
  mo_inv : mem_inv (ms_heap s) (ms_buffers s) (cm_regs (ms_mem s)) hs l D x
}.

Lemma wp_deref p b (Q : mvgal_buffer -> mvgal_memory_state_t -> Prop) s :
  ms_heap s !! p = Some b -> Q b s -> wp (deref p) Q s.
Proof. intros H HQ. unfold wp, deref. by rewrite H. Qed.

Lemma wp_update p f b (Q : unit -> mvgal_memory_state_t -> Prop) s :
  ms_heap s !! p = Some b -> Q tt (set_heap (<[p := f b]> (ms_heap s)) s) -> wp (update p f) Q s.
Proof. intros H HQ. unfold wp, update. by rewrite H. Qed.

Lemma wp_alter p f (Q : unit -> mvgal_memory_state_t -> Prop) s :
  is_Some (ms_heap s !! p) -> Q tt (set_heap (alter f p (ms_heap s)) s) -> wp (update p f) Q s.
Proof.
  intros [b Hp] HQ. eapply wp_update; [done|].
  assert (E : alter f p (ms_heap s) = <[p := f b]> (ms_heap s)).
  { apply map_eq. intros q. rewrite lookup_alter, lookup_insert. case_decide; subst; [by rewrite Hp|done]. }
  by rewrite E in HQ.
Qed.

Lemma wp_lock (Q : unit -> mvgal_memory_state_t -> Prop) s :
  ms_locked s = false -> Q tt (s <| ms_locked := true |>) -> wp lock Q s.
Proof. intros H HQ. unfold wp, lock. by rewrite H. Qed.

Lemma wp_on_mem {A : Type} (m : CM A) (Q : A -> mvgal_memory_state_t -> Prop) s :
  wp m (fun a c => Q a (s <| ms_mem := c |>)) (ms_mem s) -> wp (on_mem m) Q s.
Proof. unfold wp, on_mem. by destruct (m (ms_mem s)) as [[a c]| |]. Qed.

Lemma wp_close fd (Q : unit -> mvgal_memory_state_t -> Prop) s :
  (forall files, files ⊆ ms_files s -> Q tt (s <| ms_files := files |>)) -> wp (close fd) Q s.
Proof.
  intros HQ. unfold wp, close.
  destruct fd as [|p|p]; [|apply HQ, delete_subseteq|]; specialize (HQ (ms_files s) ltac:(done)); by destruct s.
Qed.

(** The heap after [unlink]: the neighbours [v] and [n] are joined. *)
Definition joined (h : bheap) (v n : option addr) : bheap :=
  let h1 := match v with
            | Some a => alter (with_links (fun l => l <| lk_next := n |>)) a h
            | None => h
            end in
  match n with
  | Some c => alter (with_links (fun l => l <| lk_prev := v |>)) c h1
  | None => h1
  end.

Lemma joined_lookup h v n q b :
  (forall a, v = Some a -> n <> Some a) -> h !! q = Some b ->
  exists b', joined h v n !! q = Some b' /\ relinked b b' /\
    lk_next (b_links b') = (if decide (v = Some q) then n else lk_next (b_links b)) /\
    lk_prev (b_links b') = (if decide (n = Some q) then v else lk_prev (b_links b)).
Proof.
  intros Hvn Hq. unfold joined.
  destruct (decide (v = Some q)) as [->|Hv], (decide (n = Some q)) as [->|Hn].
  - by destruct (Hvn q eq_refl).
  - exists (with_links (fun l => l <| lk_next := n |>) b). split_and!; [|by eexists _, _|done|done].
    destruct n as [c|]; rewrite ?lookup_alter_ne by congruence; by rewrite lookup_alter_eq, Hq.
  - exists (with_links (fun l => l <| lk_prev := v |>) b). split_and!; [|by eexists _, _|done|done].
    destruct v as [a|]; rewrite ?lookup_alter_eq, ?lookup_alter_ne by congruence; by rewrite Hq.
  - exists b. split_and!; [|apply relinked_refl|done|done].
    destruct v as [a|], n as [c|]; rewrite ?lookup_alter_ne by congruence; done.
Qed.

Lemma joined_none h v n q : h !! q = None -> joined h v n !! q = None.
Proof.
  intros Hq. unfold joined.
  destruct v as [a|], n as [c|]; rewrite ?lookup_alter; repeat case_decide; subst; by rewrite Hq.
Qed.

Lemma wp_unlink p b (Q : unit -> mvgal_memory_state_t -> Prop) s :
  ms_locked s = false -> ms_heap s !! p = Some b ->
  let v := lk_prev (b_links b) in
  let n := lk_next (b_links b) in
  (forall a, v = Some a -> is_Some (ms_heap s !! a)) ->
  (forall a, n = Some a -> is_Some (ms_heap s !! a)) ->
  Q tt (set_heap (joined (ms_heap s) v n)
         (s <| ms_locked := false |>
            <| ms_buffers := match v with Some _ => ms_buffers s | None => n end |>)) ->
  wp (unlink p) Q s.
Proof.
  intros Hl Hp v n Hv Hn HQ. unfold unlink.
  apply wp_bind, wp_lock; [done|]. apply wp_bind, (wp_deref p b); [done|]. fold v n.
  apply wp_bind. destruct v as [a|] eqn:Ev.
  - apply wp_alter; [by apply Hv|]. apply wp_bind. destruct n as [c|] eqn:En.
    + apply wp_alter; [|by destruct s]. cbn. apply lookup_alter_is_Some. by apply Hn.
    + by destruct s.
  - apply wp_modify. apply wp_bind. destruct n as [c|] eqn:En.
    + apply wp_alter; [by apply Hn|]. by destruct s.
    + by destruct s.
Qed.

(** ** What a call leaves alone *)

(** A region and the bytes behind it stay as they are. *)
Definition kept (m m' : cmem) (r : positive) : Prop :=
  forall rg, cm_regs m !! r = Some rg -> cm_regs m' !! r = Some rg /\
    (orderly = true -> cm_objs m' !! rg_obj rg = cm_objs m !! rg_obj rg).

Lemma kept_refl m r : kept m m r.
Proof. done. Qed.

Lemma kept_trans m m' m'' r : kept m m' r -> kept m' m'' r -> kept m m'' r.
Proof.
  intros H1 H2 rg Hr. destruct (H1 rg Hr) as [Hr1 O1]. destruct (H2 rg Hr1) as [Hr2 O2].
  split; [done|]. intros Ho. by rewrite O2, O1.
Qed.

(** The buffers of [h'] are buffers of [h] with their storage, usage and
    parent. *)
Definition survivors (h h' : bheap) : Prop :=
  forall q c', h' !! q = Some c' ->
    exists c, h !! q = Some c /\ b_storage c' = b_storage c /\ b_usage c' = b_usage c /\
      lk_alias_parent (b_links c') = lk_alias_parent (b_links c).

Lemma survivors_trans h h' h'' : survivors h h' -> survivors h' h'' -> survivors h h''.
Proof.
  intros H1 H2 q c Hq. destruct (H2 q c Hq) as (c1 & Hq1 & -> & -> & ->). by apply H1.
Qed.

Lemma survivors_refl h : survivors h h.
Proof. intros q c Hq. eauto. Qed.

Lemma survivors_insert h q c c' :
  h !! q = Some c -> b_storage c' = b_storage c -> b_usage c' = b_usage c ->
  lk_alias_parent (b_links c') = lk_alias_parent (b_links c) -> survivors h (<[q := c']> h).
Proof. intros Hq E1 E2 E3 r c0 [[<- <-]|[_ Hr]]%lookup_insert_Some; eauto 6. Qed.

Lemma survivors_parent h h' p q : survivors h h' -> parent h' p = Some q -> parent h p = Some q.
Proof.
  unfold parent. intros Hs Hp. destruct (h' !! p) as [c'|] eqn:E; [|done].
  destruct (Hs p c' E) as (c & -> & _ & _ & Hc). cbn in *. congruence.
Qed.

(** Some buffers go away; memory none of them owned is left alone. *)
Record survives (s s' : mvgal_memory_state_t) : Prop := {
  sv_buffers : survivors (ms_heap s) (ms_heap s');
  sv_memory : forall r, (forall q b, ms_heap s !! q = Some b -> claims b r -> is_Some (ms_heap s' !! q)) ->
    kept (ms_mem s) (ms_mem s') r
}.

Lemma survives_same s s' :
  survivors (ms_heap s) (ms_heap s') -> ms_mem s' = ms_mem s -> survives s s'.
Proof. intros Hs E. constructor; [done|]. intros r _. rewrite E. apply kept_refl. Qed.

Lemma survives_trans s s' s'' : survives s s' -> survives s' s'' -> survives s s''.
Proof.
  intros [S1 M1] [S2 M2]. constructor; [by eapply survivors_trans|]. intros r Hr.
  assert (Hback : forall q, is_Some (ms_heap s'' !! q) -> is_Some (ms_heap s' !! q)).
  { intros q [c Hc]. destruct (S2 q c Hc) as (? & ? & _). eauto. }
  eapply kept_trans; [apply M1|apply M2].
  - intros q b Hq Hc. eauto.
  - intros q b' Hq (k & a & Ha & E). destruct (S1 q b' Hq) as (b & Hb & Est & _).
    apply (Hr q b Hb). exists k, a. split; [|done]. by rewrite <- (holds_storage k b b' Est).
Qed.

(** A buffer that is being disposed of: nobody refers to it, and the rest of
    the heap, and the memory it did not own, are those of [s0]. *)
Record doomed (s0 : mvgal_memory_state_t) (b0 : mvgal_buffer) (s : mvgal_memory_state_t) (hs : addr -> Z)
  (l : list addr) (D : gset addr) (p : addr) (b : mvgal_buffer) : Prop := {
  dm_ok : module_ok s hs l ({[p]} ∪ D) None;
  dm_at : ms_heap s !! p = Some b;
  dm_was : ms_heap s0 !! p = Some b0;
  dm_orphans : forall q, parent (ms_heap s) q = Some p -> q ∈ D;
  dm_rest : forall q, q <> p -> ms_heap s !! q = ms_heap s0 !! q;
  dm_size : st_size (b_storage b) = st_size (b_storage b0);
  dm_holds : forall k r, holds k b = Some r -> holds k b0 = Some r;
  dm_kept : forall r, ~ claims b0 r -> kept (ms_mem s0) (ms_mem s) r
}.

Lemma doomed_update s0 b0 s s' hs l D p b b' :
  doomed s0 b0 s hs l D p b ->
  ms_heap s' = <[p := b']> (ms_heap s) ->
  ms_locked s' = ms_locked s -> ms_initialized s' = ms_initialized s -> ms_buffers s' = ms_buffers s ->
  b_links b' = b_links b -> b_refcount b' = b_refcount b -> us_fence (b_usage b') = None ->
  st_size (b_storage b') = st_size (b_storage b) ->
  (forall k r, holds k b' = Some r -> holds k b = Some r /\
     cm_regs (ms_mem s') !! fst r = cm_regs (ms_mem s) !! fst r) ->
  (forall r, ~ claims b r -> kept (ms_mem s) (ms_mem s') r) ->
  (orderly = true -> mem_wf (ms_mem s') (ms_files s')) ->
  doomed s0 b0 s' hs l D p b'.
Proof.
  intros [[Hl Hi Hm I] Hp Hw Ho Hr Hs Hh Hk] Eh El Ei Eb Ek Er Ef Es Eo Hreg Hm'. constructor.
  - constructor; [congruence|by rewrite Ei|done|]. rewrite Eh, Eb.
    eapply inv_update; [exact I|exact Hp|done..| |].
    + intros k r Hk'. left. by apply Eo.
    + intros q c k r rg [[<- <-]|[Hne Hq]]%lookup_insert_Some Hc Hrg; [by rewrite (proj2 (Eo k r Hc))|].
      apply Hreg; [|done]. intros (k' & r' & Hb & E). by apply Hne, (mi_unique _ _ _ _ _ _ _ I p q b c k' k r' r).
  - rewrite Eh. apply lookup_insert_eq.
  - done.
  - intros q. rewrite Eh. unfold parent. rewrite lookup_insert. case_decide; [|apply Ho].
    subst q. cbn. rewrite Ek. intros E. apply Ho. unfold parent. by rewrite Hp.
  - intros q Hq. rewrite Eh, lookup_insert_ne by done. by apply Hr.
  - congruence.
  - intros k r Hb. apply Hh, Eo, Hb.
  - intros r Hr'. eapply kept_trans; [by apply Hk|]. apply Hreg. intros (k & q & Hq & E).
    apply Hr'. exists k, q. split; [by apply Hh|done].
Qed.

(** Unmapping the mapping a buffer owns. *)
Lemma munmap_owned m files r rg len :
  cm_regs m !! r = Some rg -> rg_heap rg = false -> rg_gone rg = [] ->
  (covered = true -> spans rg len = true) -> (orderly = true -> mem_wf m files) ->
  cwp (munmap (r, 0) len) (fun _ m' => (orderly = true -> mem_wf m' files) /\
    forall r', r' <> r -> kept m m' r') m.
Proof.
  intros Hr Hh Hg Hs Hm.
  assert (Hgo : forall regs, (forall r', r' <> r -> regs !! r' = cm_regs m !! r') ->
    (forall rg', regs !! r = Some rg' -> rg_obj rg' = rg_obj rg /\ rg_heap rg' = false) ->
    (orderly = true -> mem_wf (m <| cm_regs := regs |>) files) /\
    forall r', r' <> r -> kept m (m <| cm_regs := regs |>) r').
  { intros regs Ho Hs'. split.
    - intros Ht. destruct (Hm Ht) as [W1 W2 W3].
      assert (Hb : forall a ra, regs !! a = Some ra -> exists ra0, cm_regs m !! a = Some ra0 /\
        rg_obj ra = rg_obj ra0 /\ rg_heap ra = rg_heap ra0).
      { intros a ra Ha. destruct (decide (a = r)) as [->|Hne]; [|rewrite Ho in Ha by done; eauto].
        destruct (Hs' ra Ha) as [-> ->]. eauto. }
      constructor; cbn.
      + intros a ra (ra0 & Ha & -> & _)%Hb. by eapply W1.
      + intros a ra a' ra' (ra0 & Ha & E & E')%Hb Hh1 (ra1 & Ha' & E1 & _)%Hb Eo.
        apply (W2 a ra0 a' ra1); congruence.
      + intros fd o Hf. destruct (W3 fd o Hf) as [? W]. split; [done|].
        intros a ra (ra0 & Ha & E & E')%Hb Hh1. rewrite E. apply (W a ra0); congruence.
    - intros r' Hne rg' Hr'. cbn. by rewrite Ho. }
  unfold cwp, wp, munmap. rewrite Hr, Hh. unfold intact, spans in *. rewrite Hg.
  cbn [forallb negb orb Z.ltb Z.compare].
  destruct ((len <=? 0) || _ || _) eqn:E; [left; split; [done|]; intros; apply kept_refl|].
  destruct (Z.ltb_spec (page_up (rg_size rg)) (0 + page_up len)) as [Hlt|Hge].
  - right. split; [|done]. destruct covered eqn:Ec; [|done]. exfalso.
    specialize (Hs eq_refl). apply orb_false_iff in E as [[_ E]%orb_false_iff _].
    rewrite E in Hs. cbn in Hs. apply Z.leb_le in Hs. lia.
  - left. cbn [orb]. destruct (_ && _).
    + apply (Hgo (delete r (cm_regs m))).
      * intros r' Hne. by apply lookup_delete_ne.
      * intros rg'. by rewrite lookup_delete_eq.
    + apply (Hgo (<[r := rg <| rg_gone ::= cons (0, 0 + page_up len) |>]> (cm_regs m))).
      * intros r' Hne. by apply lookup_insert_ne.
      * intros rg'. rewrite lookup_insert_eq. intros [= <-]. done.
Qed.

Lemma cwp_on_mem {A : Type} (m : CM A) (Q : A -> mvgal_memory_state_t -> Prop) s :
  cwp m (fun a c => Q a (s <| ms_mem := c |>)) (ms_mem s) -> cwp (on_mem m) Q s.
Proof.
  intros [Hm|[Hc E]]; [left; by apply wp_on_mem|]. right. split; [done|]. unfold on_mem. by rewrite E.
Qed.

Lemma mem_wf_files m files files' : files' ⊆ files -> mem_wf m files -> mem_wf m files'.
Proof. intros Hf []. constructor; try done. intros fd o Ho. eapply mw_files0, lookup_weaken; done. Qed.

(** The mapping of a buffer that owns its DMA-BUF goes. *)
Lemma unmap_storage s hs l D x p b :
  module_ok s hs l D x -> ms_heap s !! p = Some b ->
  st_dmabuf_owner (b_storage b) && (0 <=? st_dmabuf_fd (b_storage b)) = true ->
  cwp (match st_host_ptr (b_storage b) with
       | Some q => on_mem (munmap q (st_size (b_storage b)))
       | None => mret tt
       end) (fun _ s' => exists m', s' = s <| ms_mem := m' |> /\
         (orderly = true -> mem_wf m' (ms_files s)) /\
         forall r, (forall q, maps b = Some q -> fst q <> r) -> kept (ms_mem s) m' r) s.
Proof.
  intros [_ _ Hm I] Hp Ho.
  assert (Em : maps b = st_host_ptr (b_storage b)) by (unfold maps; by rewrite Ho).
  destruct (st_host_ptr (b_storage b)) as [[r o]|] eqn:Eh.
  - destruct (mi_owned _ _ _ _ _ _ _ I p b false (r, o) Hp Em) as (rg & Hr & [Hz Hk Hg Hs]).
    cbn in Hz, Hr. subst o. apply cwp_on_mem.
    eapply cwp_mono; [by apply (munmap_owned _ (ms_files s) r rg); auto|].
    intros _ m' [Hw Hkept]. exists m'. split_and!; [done|done|]. intros r' Hr'. apply Hkept.
    intros ->. by apply (Hr' (r, 0)).
  - left. exists (ms_mem s). split_and!; [by destruct s|done|]. intros r _. apply kept_refl.
Qed.

Lemma doomed_dmabuf_free s0 b0 s hs l D p b :
  doomed s0 b0 s hs l D p b -> us_fence (b_usage b) = None ->
  st_dmabuf_owner (b_storage b) && (0 <=? st_dmabuf_fd (b_storage b)) = true ->
  cwp (mvgal_dmabuf_free (st_dmabuf_fd (b_storage b)) (st_host_ptr (b_storage b)) (st_size (b_storage b));;
       update p (with_storage (fun st => st <| st_dmabuf_fd := -1 |> <| st_host_ptr := None |>)))
    (fun _ s' => exists b', doomed s0 b0 s' hs l D p b' /\ owns b' = owns b /\
       us_fence (b_usage b') = None) s.
Proof.
  intros Hd Hf Ho. pose proof (dm_ok _ _ _ _ _ _ _ _ Hd) as Hok. pose proof (dm_at _ _ _ _ _ _ _ _ Hd) as Hp.
  apply cwp_bind. unfold mvgal_dmabuf_free. apply cwp_bind.
  eapply cwp_mono; [by eapply unmap_storage|]. intros u s1 (m' & -> & Hw & Hk).
  pose proof Ho as [_ E%Z.leb_le]%andb_true_iff.
  rewrite (proj2 (Z.leb_le _ _)) by exact E. apply cwp_wp, wp_close. intros files Hsub. apply cwp_wp.
  eapply wp_update; [exact Hp|].
  exists (with_storage (fun st => st <| st_dmabuf_fd := -1 |> <| st_host_ptr := None |>) b).
  split_and!; [|done|done]. eapply doomed_update; [exact Hd|reflexivity..|done|done| | |].
  - assert (Em : forall c, maps (with_storage (fun st => st <| st_dmabuf_fd := -1 |> <| st_host_ptr := None |>) c)
      = None) by (intros c; unfold maps; cbn; by case_match).
    intros [] r Hr; [|by rewrite Em in Hr]. split; [done|]. cbn.
    destruct (mi_owned _ _ _ _ _ _ _ (mo_inv _ _ _ _ _ Hok) p b true r Hp Hr) as (rg & Hrg & [_ Hh _ _]).
    rewrite Hrg. refine (proj1 (Hk (fst r) _ rg Hrg)). intros q Hq Eq.
    destruct (mi_owned _ _ _ _ _ _ _ (mo_inv _ _ _ _ _ Hok) p b false q Hp Hq) as (rg' & Hrg' & [_ Hh' _ _]).
    congruence.
  - intros r Hr. apply Hk. intros q Hq Eq. apply Hr. by exists false, q.
  - intros Ht. cbn. eapply mem_wf_files; [exact Hsub|by apply Hw].
Qed.

(** Freeing a heap block leaves every other region and its bytes alone. *)
Lemma free_owned m files r rg :
  cm_regs m !! r = Some rg -> rg_heap rg = true -> (orderly = true -> mem_wf m files) ->
  wp (free (Some (r, 0))) (fun _ m' => (orderly = true -> mem_wf m' files) /\
    forall r', r' <> r -> kept m m' r') m.
Proof.
  intros Hr Hh Hm. unfold wp, free. rewrite Hr, Hh. cbn [andb Z.eqb]. split.
  - intros Ht. destruct (Hm Ht) as [W1 W2 W3]. constructor; cbn.
    + intros a ra [Hne Ha]%lookup_delete_Some. rewrite lookup_delete_ne; [by apply (W1 a)|].
      intros E. by apply Hne, eq_sym, (W2 r rg a ra).
    + intros a ra a' ra' [_ Ha]%lookup_delete_Some Hha [_ Ha']%lookup_delete_Some. by apply (W2 a ra a' ra').
    + intros fd o Hf. destruct (W3 fd o Hf) as [Ho Hn]. split.
      * rewrite lookup_delete_ne; [done|]. by apply (Hn r rg).
      * intros a ra [_ Ha]%lookup_delete_Some. by apply (Hn a ra).
  - intros r' Hne rg' Hr'. cbn. split; [by rewrite lookup_delete_ne|]. intros Ht.
    apply lookup_delete_ne. intros E. by apply Hne, (mw_heap _ _ (Hm Ht) r rg r' rg').
Qed.

(** Freeing the block a buffer owns, then forgetting it. *)
Lemma doomed_free_block s0 b0 s hs l D p b r :
  doomed s0 b0 s hs l D p b -> owns b = Some r ->
  wp (on_mem (free (Some r));;
      update p (with_storage (fun st => st <| st_original_ptr := None |>)))
    (fun _ s' => exists b', doomed s0 b0 s' hs l D p b') s.
Proof.
  intros Hd Ho. pose proof (dm_ok _ _ _ _ _ _ _ _ Hd) as [_ _ Hm I].
  pose proof (dm_at _ _ _ _ _ _ _ _ Hd) as Hp.
  destruct (mi_owned _ _ _ _ _ _ _ I p b true r Hp Ho) as (rg & Hr & [Hz Hh _ _]).
  destruct r as [r o]. cbn in Hz, Hr. subst o.
  apply wp_bind, wp_on_mem. eapply wp_mono; [by apply (free_owned _ (ms_files s) r rg)|]. intros u m' [Hw Hk].
  eapply wp_update; [exact Hp|].
  exists (with_storage (fun st => st <| st_original_ptr := None |>) b).
  eapply doomed_update; [exact Hd|reflexivity..| |done| | |done].
  - exact (mi_fence _ _ _ _ _ _ _ I p b Hp).
  - intros [] q Hq.
    { cbn in Hq. unfold owns in Hq. cbn in Hq. by case_match. }
    split; [exact Hq|]. destruct (mi_owned _ _ _ _ _ _ _ I p b false q Hp Hq) as (rg' & Hrg' & [_ Hh' _ _]).
    cbn. rewrite Hrg'. refine (proj1 (Hk (fst q) _ rg' Hrg')). intros E. rewrite E in Hrg'. congruence.
  - intros r' Hr'. apply Hk. intros ->. apply Hr'. by exists true, (r, 0).
Qed.

(** The last part of [dispose]: out of the list and freed. *)
Lemma doomed_unlink s0 b0 s hs l1 p l2 D b (f : mvgal_memory_state_t -> mvgal_memory_state_t) :
  doomed s0 b0 s hs (l1 ++ p :: l2) D p b -> p ∉ D -> hs p = 0 ->
  (forall t, ms_heap (f t) = ms_heap t /\ ms_locked (f t) = ms_locked t /\
     (ms_mem (f t), ms_files (f t)) = (ms_mem t, ms_files t) /\
     ms_initialized (f t) = ms_initialized t /\ ms_buffers (f t) = ms_buffers t) ->
  wp (unlink p;; modify f;; free_buffer p)
    (fun _ s' => module_ok s' hs (l1 ++ l2) D None /\ ms_heap s' !! p = None /\ survives s0 s') s.
Proof.
  intros [[Hl Hi Hm I] Hp Hwas Ho Hrest _ _ Hkept] HpD Hh Hf.
  pose proof (mi_nodup _ _ _ _ _ _ _ I) as Hnd.
  destruct (mi_linked _ _ _ _ _ _ _ I l1 p l2 eq_refl) as [En Ep].
  unfold nx, pv in En, Ep. rewrite Hp in En, Ep. cbn in En, Ep.
  assert (Hvn : forall a, last l1 = Some a -> head l2 <> Some a).
  { intros a Ha%last_Some_elem_of Hb%head_Some_elem_of. apply NoDup_app in Hnd as (_ & Hd & _).
    apply (Hd a Ha). set_solver. }
  apply wp_bind, (wp_unlink p b); [done|done| | |]; rewrite ?En, ?Ep.
  { intros a Ha%last_Some_elem_of. apply (mi_dom _ _ _ _ _ _ _ I). set_solver. }
  { intros a Ha%head_Some_elem_of. apply (mi_dom _ _ _ _ _ _ _ I). set_solver. }
  apply wp_bind, wp_modify.
  match goal with |- wp _ _ (f ?t0) => set (t := t0) end.
  destruct (Hf t) as (E1 & E2 & [= E3 E3f] & E4 & E5).
  assert (E5' : ms_buffers (f t) = head (l1 ++ l2)).
  { rewrite E5. subst t. cbn. rewrite (mi_first _ _ _ _ _ _ _ I). apply head_join. }
  destruct (joined_lookup (ms_heap s) (last l1) (head l2) p b Hvn Hp) as (bp & Hbp & _).
  assert (Hq : forall q, q <> p -> match ms_heap s !! q with
    | Some c => exists c', delete p (ms_heap (f t)) !! q = Some c' /\ relinked c c' /\
        lk_next (b_links c') = (if decide (last l1 = Some q) then head l2 else lk_next (b_links c)) /\
        lk_prev (b_links c') = (if decide (head l2 = Some q) then last l1 else lk_prev (b_links c))
    | None => delete p (ms_heap (f t)) !! q = None
    end).
  { intros q Hne. rewrite lookup_delete_ne, E1 by done. destruct (ms_heap s !! q) as [c|] eqn:Eq.
    - by apply joined_lookup.
    - by apply joined_none. }
  eapply wp_intro; [unfold free_buffer; rewrite E1; subst t; cbn; rewrite Hbp; reflexivity|].
  split_and!.
  - constructor.
    + change (ms_locked (f t) = false). by rewrite E2.
    + change (ms_initialized (f t) = false -> l1 ++ l2 = []). rewrite E4.
      intros Hi'. specialize (Hi Hi'). by destruct l1.
    + change (orderly = true -> mem_wf (ms_mem (f t)) (ms_files (f t))). by rewrite E3, E3f.
    + change (mem_inv (delete p (ms_heap (f t))) (ms_buffers (f t)) (cm_regs (ms_mem (f t)))
                hs (l1 ++ l2) D None).
      rewrite E3, E5'.
      eapply (inv_remove (ms_heap s)); [exact I|done|done|done|apply lookup_delete_eq|exact Hq|done].
  - cbn. apply lookup_delete_eq.
  - constructor.
    + intros q c' Hc. change (delete p (ms_heap (f t)) !! q = Some c') in Hc.
      assert (q <> p) by (intros ->; by rewrite lookup_delete_eq in Hc).
      specialize (Hq q ltac:(done)). rewrite <- Hrest by done.
      destruct (ms_heap s !! q) as [c|]; [|congruence]. destruct Hq as (c2 & H2 & (n & v & ->) & _).
      rewrite H2 in Hc. injection Hc as <-. eauto 6.
    + intros r Hr. change (kept (ms_mem s0) (ms_mem (f t)) r). rewrite E3. apply Hkept. intros Hc.
      destruct (Hr p b0 Hwas Hc) as [c Hc']. cbn in Hc'. by rewrite lookup_delete_eq in Hc'.
Qed.

Lemma dispose_ok s hs l1 p l2 D :
  module_ok s hs (l1 ++ p :: l2) ({[p]} ∪ D) None -> p ∉ D -> hs p = 0 ->
  (forall q, parent (ms_heap s) q = Some p -> q ∈ D) ->
  cwp (dispose p) (fun _ s' => module_ok s' hs (l1 ++ l2) D None /\ ms_heap s' !! p = None /\
    survives s s') s.
Proof.
  intros Hok HpD Hh Ho. pose proof (mo_inv _ _ _ _ _ Hok) as I.
  destruct (mi_live _ _ _ _ _ _ _ p I ltac:(set_solver)) as (b & Hb).
  pose proof (mi_fence _ _ _ _ _ _ _ I p b Hb) as Hf.
  assert (Hd : doomed s b s hs (l1 ++ p :: l2) D p b) by (constructor; try done; intros; apply kept_refl).
  unfold dispose. apply cwp_bind, cwp_wp. eapply wp_update; [exact Hb|].
  set (b1 := with_usage (unbind_entries b) b).
  assert (Hd1 : doomed s b (set_heap (<[p := b1]> (ms_heap s)) s) hs (l1 ++ p :: l2) D p b1).
  { eapply doomed_update; [exact Hd|reflexivity..|done|done|done|intros; apply kept_refl|apply Hok]. }
  generalize dependent (set_heap (<[p := b1]> (ms_heap s)) s). intros s1 Hd1.
  assert (Hf1 : us_fence (b_usage b1) = None) by done. clearbody b1.
  apply cwp_bind, cwp_wp, (wp_deref p b1); [apply Hd1|]. cbn zeta. rewrite Hf1.
  apply cwp_bind. eapply cwp_mono.
  { instantiate (1 := fun _ s2 => exists b2, doomed s b s2 hs (l1 ++ p :: l2) D p b2 /\
      owns b2 = owns b1 /\ us_fence (b_usage b2) = None).
    destruct (st_dmabuf_owner (b_storage b1) && _) eqn:Eo; [by apply doomed_dmabuf_free|].
    apply cwp_wp, wp_ret. eauto. }
  intros ? s2 (b2 & Hd2 & Ho2 & Hf2). cbn beta. apply cwp_bind, cwp_wp. eapply wp_mono.
  { instantiate (1 := fun _ s3 => exists b3, doomed s b s3 hs (l1 ++ p :: l2) D p b3).
    unfold owns in Ho2.
    destruct (st_should_free (b_storage b1)) eqn:Es; cbn [andb negb]; [|apply wp_ret; eauto].
    destruct (st_original_ptr (b_storage b1)) as [r|] eqn:Er.
    - rewrite bool_decide_false by done. cbn [andb negb]. 
      exact (doomed_free_block _ _ _ _ _ _ _ b2 r Hd2 Ho2).
    - rewrite bool_decide_true by done. cbn [andb negb]. apply wp_ret. eauto. }
  intros ? s3 (b3 & Hd3). cbn beta. apply cwp_bind, cwp_wp, wp_ret.
  apply cwp_wp. eapply doomed_unlink; [done..|]. intros t. by destruct t.
Qed.

(** ** Alias tables *)

(** [remove_alias] takes one entry out of the live part of the table. *)
Lemma remove_alias_spec p l qs :
  take (Z.to_nat (lk_alias_count l)) (lk_aliases l) = Some <$> qs ->
  lk_alias_count l = Z.of_nat (length qs) -> p ∈ qs ->
  exists qs', qs ≡ₚ p :: qs' /\
    remove_alias p l = l <| lk_aliases := lk_aliases (remove_alias p l) |>
                         <| lk_alias_count := Z.of_nat (length qs') |> /\
    take (length qs') (lk_aliases (remove_alias p l)) = Some <$> qs' /\
    length (lk_aliases (remove_alias p l)) = length (lk_aliases l).
Proof.
  intros Ht Hc Hp.
  assert (Hf : exists i a b, list_find (fun x => x = Some p) (Some <$> qs) = Some (i, Some p) /\
    qs = a ++ p :: b /\ length a = i).
  { destruct (list_find_elem_of (fun x => x = Some p) (Some <$> qs) (Some p)) as [[i y] E];
      [by apply list_elem_of_fmap_2|done|]. pose proof E as (Hi & -> & _)%list_find_Some.
    rewrite list_lookup_fmap in Hi. destruct (qs !! i) as [z|] eqn:Ez; [|done]. simplify_eq/=.
    exists i, (take i qs), (drop (S i) qs). split_and!; [done| |].
    - symmetry. by apply take_drop_middle.
    - apply lookup_lt_Some in Ez. rewrite length_take. lia. }
  destruct Hf as (i & a & b & Hfind & -> & Hi).
  rewrite Hc in Ht. rewrite Nat2Z.id in Ht.
  assert (Hal : exists rest, lk_aliases l = (Some <$> (a ++ p :: b)) ++ rest).
  { exists (drop (length (a ++ p :: b)) (lk_aliases l)). rewrite <- Ht. symmetry. apply take_drop. }
  destruct Hal as (rest & Hal).
  assert (Hr : remove_alias p l = l
    <| lk_aliases := <[i := default None (lk_aliases l !! length (a ++ b))]> (lk_aliases l) |>
    <| lk_alias_count := Z.of_nat (length (a ++ b)) |>).
  { unfold remove_alias. rewrite Hc, Nat2Z.id, Ht, Hfind. destruct l. cbn in *. f_equal.
    - f_equal. f_equal. f_equal. rewrite !length_app. cbn. lia.
    - rewrite Hc, !length_app. cbn. lia. }
  rewrite Hr. cbn [lk_aliases lk_alias_count upd]. rewrite Hal, <- Hi. clear Hr Hfind Ht Hi.
  destruct b as [|z b' _] using rev_ind.
  - exists a. rewrite app_nil_r. split_and!.
    + by rewrite Permutation_app_comm.
    + by destruct l.
    + rewrite fmap_app, <- (length_fmap Some a), <- app_assoc, insert_app_r_alt, take_app_length by done.
      done.
    + by rewrite length_insert.
  - exists (a ++ z :: b').
    assert (Hz : ((Some <$> a ++ p :: b' ++ [z]) ++ rest) !! length (a ++ b' ++ [z]) = Some (Some z)).
    { rewrite lookup_app_l by (rewrite length_fmap, !length_app; cbn; rewrite length_app; cbn; lia).
      rewrite list_lookup_fmap.
      replace (a ++ p :: b' ++ [z]) with ((a ++ p :: b') ++ [z]) by (by rewrite <- app_assoc).
      replace (length (a ++ b' ++ [z])) with (length (a ++ p :: b')) by (rewrite !length_app; cbn; lia).
      by rewrite list_lookup_middle by done. }
    rewrite Hz. cbn [default from_option id]. split_and!.
    + solve_Permutation.
    + destruct l. cbn. f_equal. rewrite !length_app. cbn. lia.
    + rewrite fmap_app, <- app_assoc, insert_app_r_alt, length_fmap, Nat.sub_diag by (rewrite length_fmap; lia).
      cbn. rewrite fmap_app, <- app_assoc. rewrite app_comm_cons, app_assoc.
      rewrite take_app_le, take_ge; [by rewrite fmap_app| |];
        rewrite !length_app, ?length_cons, ?length_fmap; cbn; rewrite ?length_fmap; lia.
    + by rewrite length_insert.
Qed.

(** Replacing a structure by one with the same list links, parent, block and
    fence keeps the shape of the heap. *)
Record same_shape (h h' : bheap) : Prop := {
  ss_dom : forall p, is_Some (h' !! p) <-> is_Some (h !! p);
  ss_nx : forall p, nx h' p = nx h p;
  ss_pv : forall p, pv h' p = pv h p;
  ss_parent : forall p, parent h' p = parent h p;
  ss_rest : forall p b', h' !! p = Some b' -> exists b, h !! p = Some b /\
    b_storage b' = b_storage b /\ us_fence (b_usage b') = us_fence (b_usage b)
}.

Lemma same_shape_insert h q c c' :
  h !! q = Some c ->
  lk_next (b_links c') = lk_next (b_links c) -> lk_prev (b_links c') = lk_prev (b_links c) ->
  lk_alias_parent (b_links c') = lk_alias_parent (b_links c) ->
  b_storage c' = b_storage c -> us_fence (b_usage c') = us_fence (b_usage c) ->
  same_shape h (<[q := c']> h).
Proof.
  intros Hq E1 E2 E3 E4 E5. constructor; unfold nx, pv, parent; intros p; rewrite ?lookup_insert.
  - case_decide; subst; [rewrite Hq; split; eauto|done].
  - case_decide; subst; [by rewrite Hq|done].
  - case_decide; subst; [by rewrite Hq|done].
  - case_decide; subst; [by rewrite Hq|done].
  - intros b'. case_decide; subst; [intros [= <-]; eauto|eauto].
Qed.

Lemma inv_reshape h h' first regs hs hs' l D D' x x' :
  mem_inv h first regs hs l D x -> same_shape h h' ->
  (forall p, p ∈ D' -> p ∈ l) ->
  (forall p, 0 <= hs' p /\ (p ∉ l -> hs' p = 0)) ->
  (forall p b', h' !! p = Some b' -> p ∉ D' -> buffer_ok h hs' l D' x' p b') ->
  mem_inv h' first regs hs' l D' x'.
Proof.
  intros I [Hdom Hnx Hpv Hpar Hrest] HD Hh Hok. constructor; try apply I; try done.
  - intros p. rewrite Hdom. apply I.
  - intros l1 p l2 E. rewrite Hnx, Hpv. by apply (mi_linked _ _ _ _ _ _ _ I).
  - intros p b' Hp HpD. eapply (buffer_ok_frame h); [intros r; by rewrite Hpar|done|done|by apply Hok].
  - intros p b' Hp. destruct (Hrest p b' Hp) as (b & Hb & _ & ->). by eapply (mi_fence _ _ _ _ _ _ _ I).
  - intros p b' k q Hp Ho. destruct (Hrest p b' Hp) as (b & Hb & Eo & _).
    rewrite (holds_storage k _ _ Eo) in Ho. destruct (mi_owned _ _ _ _ _ _ _ I p b k q Hb Ho) as (rg & ? & ?).
    exists rg. split; [done|]. apply (backs_size b); [by rewrite Eo|done].
  - intros p p' b b' k k' q q' Hp Hp' Ho Ho'. destruct (Hrest p b Hp) as (c & Hc & Eo & _).
    destruct (Hrest p' b' Hp') as (c' & Hc' & Eo' & _). rewrite (holds_storage k _ _ Eo) in Ho.
    rewrite (holds_storage k' _ _ Eo') in Ho'. by apply (mi_unique _ _ _ _ _ _ _ I p p' c c' k k').
Qed.

Lemma remove_alias_parent p l : lk_alias_parent (remove_alias p l) = lk_alias_parent l.
Proof. unfold remove_alias. by case_match; [case_match|]. Qed.

Definition detached_from (p : addr) (c : mvgal_buffer) : mvgal_buffer :=
  (with_links (remove_alias p) c) <| b_refcount ::= fun n => u32 (n - 1) |>.

(** An alias leaves its parent's table and drops its reference. *)
Lemma inv_detach h first regs hs l D x p q c :
  mem_inv h first regs hs l D x -> p ∉ D -> q ∉ D -> parent h p = Some q -> h !! q = Some c ->
  x = Some p \/ x = None ->
  mem_inv (<[q := detached_from p c]> h) first regs hs l ({[p]} ∪ D)
    (if b_refcount c =? 1 then Some q else None).
Proof.
  intros I HpD HqD Hpar Hq Hx.
  assert (Hpl : p ∈ l).
  { apply (mi_dom _ _ _ _ _ _ _ I). unfold parent in Hpar. destruct (h !! p); [eauto|done]. }
  assert (Hpq : p <> q).
  { intros ->. unfold parent in Hpar. rewrite Hq in Hpar.
    pose proof (bo_parent _ _ _ _ _ _ _ (mi_ok _ _ _ _ _ _ _ I q c Hq HqD) q Hpar) as Hb.
    by eapply before_irrefl; [apply (mi_nodup _ _ _ _ _ _ _ I)|]. }
  pose proof (mi_ok _ _ _ _ _ _ _ I q c Hq HqD) as [(qs & Eqs & Hnd & Hc & Hin) Hroom Href Hmax Hal Hia Hat Hbp].
  assert (Hrc : 0 < b_refcount c) by (apply Hal; destruct Hx as [->| ->]; congruence).
  destruct (remove_alias_spec p (b_links c) qs) as (qs' & Hperm & El & Et & Elen);
    [done|done|by apply Hin|].
  pose proof Hnd as Hnd'. rewrite Hperm in Hnd'. apply NoDup_cons in Hnd' as [Hnp Hnd'].
  unfold U32_MAX in *.
  eapply inv_reshape; [exact I| | |apply I|].
  - eapply same_shape_insert; [exact Hq|..]; cbn; try done; by rewrite El.
  - intros r [->%elem_of_singleton|Hr]%elem_of_union; [done|]. by eapply (mi_limbo _ _ _ _ _ _ _ I).
  - intros r b' [[<- <-]|[Hne Hr]]%lookup_insert_Some HrD.
    + assert (Hlen : length qs = S (length qs')) by (rewrite Hperm; done).
      constructor; cbn.
      * exists qs'. unfold live_aliases. cbn. rewrite El. cbn. rewrite Nat2Z.id. split_and!; try done.
        intros r. specialize (Hin r). rewrite Hperm in Hin. set_solver.
      * by rewrite Elen.
      * rewrite El. cbn. rewrite u32_small by (unfold is_u32, U32_MAX; lia). lia.
      * rewrite u32_small by (unfold is_u32, U32_MAX; lia). unfold U32_MAX. lia.
      * rewrite u32_small by (unfold is_u32, U32_MAX; lia). destruct (Z.eqb_spec (b_refcount c) 1); [done|lia].
      * by rewrite El.
      * by rewrite El.
      * by rewrite El.
    + pose proof (mi_ok _ _ _ _ _ _ _ I r b' Hr ltac:(set_solver)) as Hok.
      assert (Hxr : x <> Some r) by (destruct Hx as [->| ->]; [set_solver|done]).
      pose proof (bo_alive _ _ _ _ _ _ _ Hok Hxr) as Hpos.
      assert (Hok' : buffer_ok h hs l ({[p]} ∪ D) x r b').
      { eapply (buffer_ok_frame h); [|done|done|exact Hok]. intros t.
        destruct (decide (t = p)) as [->|]; [rewrite Hpar|]; set_solver. }
      destruct Hok'. by constructor.
Qed.

Lemma inv_limbo_root h first regs hs l D x p :
  mem_inv h first regs hs l D x -> p ∈ l -> parent h p = None -> x = Some p \/ x = None ->
  mem_inv h first regs hs l ({[p]} ∪ D) None.
Proof.
  intros I Hp Hpar Hx. destruct I. constructor; try done; [set_solver|].
  intros r b Hr HrD. pose proof (mi_ok0 r b Hr ltac:(set_solver)) as Hok.
  assert (Hxr : x <> Some r) by (destruct Hx as [->| ->]; [set_solver|done]).
  pose proof (bo_alive _ _ _ _ _ _ _ Hok Hxr) as Hpos.
  assert (Hok' : buffer_ok h hs l ({[p]} ∪ D) x r b).
  { eapply (buffer_ok_frame h); [|done|done|exact Hok]. intros t.
    destruct (decide (t = p)) as [->|]; [rewrite Hpar|]; set_solver. }
  destruct Hok'. by constructor.
Qed.

(** A buffer with no references left has no handles and no aliases. *)
Lemma dead_buffer h first regs hs l D x p b :
  mem_inv h first regs hs l D x -> h !! p = Some b -> p ∉ D -> b_refcount b = 0 ->
  hs p = 0 /\ lk_alias_count (b_links b) = 0 /\ forall q, parent h q = Some p -> q ∈ D.
Proof.
  intros I Hp HpD Hz. pose proof (mi_ok _ _ _ _ _ _ _ I p b Hp HpD) as [(qs & _ & _ & Hc & Hin) _ Hr _ _ _ _ _].
  pose proof (mi_handles _ _ _ _ _ _ _ I p) as [? _].
  assert (hs p = 0) by lia. assert (Hl : length qs = 0%nat) by lia.
  apply length_zero_iff_nil in Hl as ->. split_and!; [done|lia|].
  intros q Hq. destruct (decide (q ∈ D)); [done|]. exfalso.
  apply (not_elem_of_nil q), Hin. done.
Qed.

Lemma free_internal_ok fuel : forall s hs l1 p l2 D b,
  module_ok s hs (l1 ++ p :: l2) D (Some p) ->
  ms_heap s !! p = Some b -> b_refcount b = 0 ->
  (forall d, d ∈ D -> before (l1 ++ p :: l2) d p) ->
  (length (p :: l2) <= fuel)%nat ->
  cwp (free_internal fuel p) (fun _ s' => exists l', module_ok s' hs l' D None /\
    ms_heap s' !! p = None /\ survives s s') s.
Proof.
  induction fuel as [|fuel IH]; intros s hs l1 p l2 D b Hok Hb Hz HD Hfuel; [cbn in Hfuel; lia|].
  pose proof (mo_inv _ _ _ _ _ Hok) as I. pose proof (mi_nodup _ _ _ _ _ _ _ I) as Hnd.
  assert (HpD : p ∉ D) by (intros Hd%HD; by eapply before_irrefl).
  destruct (dead_buffer _ _ _ _ _ _ _ _ _ I Hb HpD Hz) as (Hh & Hc & Hch).
  pose proof (mi_ok _ _ _ _ _ _ _ I p b Hb HpD) as Bok.
  cbn [free_internal]. apply cwp_bind, cwp_wp, (wp_deref p b); [done|]. rewrite Hc. cbn [Z.ltb Z.compare].
  apply cwp_bind, cwp_wp, wp_ret. apply cwp_bind, cwp_wp, (wp_deref p b); [done|].
  destruct (lk_alias_parent (b_links b)) as [q|] eqn:Hq.
  - rewrite (bo_alias _ _ _ _ _ _ _ Bok), (bo_attached _ _ _ _ _ _ _ Bok), Hq by (by rewrite Hq).
    rewrite bool_decide_true by done. cbn [andb negb].
    pose proof (bo_parent _ _ _ _ _ _ _ Bok q Hq) as Hbq.
    assert (Hql2 : q ∈ l2) by (by eapply before_after).
    assert (HqD : q ∉ D) by (intros Hd%HD; eapply before_irrefl; [exact Hnd|by eapply before_trans]).
    destruct (mi_live _ _ _ _ _ _ _ q I ltac:(set_solver)) as (c & Hcq).
    assert (Hpar : parent (ms_heap s) p = Some q) by (unfold parent; by rewrite Hb).
    pose proof (inv_detach _ _ _ _ _ _ _ p q c I HpD HqD Hpar Hcq ltac:(by left)) as I1.
    set (s1 := set_heap (<[q := detached_from p c]> (ms_heap s)) s).
    assert (Hok1 : module_ok s1 hs (l1 ++ p :: l2) ({[p]} ∪ D) (if b_refcount c =? 1 then Some q else None))
      by (constructor; apply Hok || done).
    assert (Hsv1 : survives s s1).
    { apply survives_same; [|done]. eapply survivors_insert; [exact Hcq|done|done|apply remove_alias_parent]. }
    apply cwp_bind, cwp_bind, cwp_wp. eapply wp_update; [exact Hcq|].
    unfold release_with. apply cwp_bind, cwp_wp. eapply wp_deref; [apply lookup_insert_eq|].
    apply cwp_bind, cwp_wp. eapply wp_update; [apply lookup_insert_eq|].
    match goal with |- cwp _ _ ?t => replace t with s1 end.
    2: { subst s1. destruct s. unfold set_heap. cbn. by rewrite insert_insert_eq. }
    cbn [with_links b_refcount upd]. eapply cwp_mono.
    { instantiate (1 := fun _ s2 => exists l', module_ok s2 hs l' ({[p]} ∪ D) None /\ survives s1 s2).
      destruct (Z.eqb_spec (b_refcount c) 1) as [Hone|];
        [|apply cwp_wp, wp_ret; eauto using survives_same, survivors_refl].
      apply list_elem_of_split in Hql2 as (a & e & ->). rewrite app_comm_cons, app_assoc in Hok1, HD, Hbq, Hnd.
      eapply cwp_mono; [eapply (IH s1 hs (l1 ++ p :: a) q e ({[p]} ∪ D)); [exact Hok1|apply lookup_insert_eq|..]|].
      - cbn. by rewrite Hone.
      - intros d [->%elem_of_singleton|Hd]%elem_of_union; [done|]. by eapply before_trans; [|apply HD|].
      - cbn in Hfuel |- *. rewrite length_app in Hfuel. cbn in Hfuel. lia.
      - intros ? s2 (l' & ? & _ & ?). eauto. }
    intros ? s2 (l' & Hok2 & Hsv2). cbn beta.
    pose proof (survives_trans _ _ _ Hsv1 Hsv2) as Hsv.
    assert (Hin : p ∈ l') by (apply (mi_limbo _ _ _ _ _ _ _ (mo_inv _ _ _ _ _ Hok2)); set_solver).
    apply list_elem_of_split in Hin as (m1 & m2 & ->).
    eapply cwp_mono; [apply (dispose_ok _ _ _ _ _ _ Hok2 HpD Hh)|].
    + intros r Hr. apply Hch. by eapply survivors_parent; [apply Hsv|].
    + intros ? s3 (? & ? & ?). eauto 6 using survives_trans.
  - apply cwp_bind, cwp_wp, wp_ret.
    assert (Hok1 : module_ok s hs (l1 ++ p :: l2) ({[p]} ∪ D) None).
    { constructor; try apply Hok. eapply inv_limbo_root; [exact I|set_solver| |by left].
      unfold parent. by rewrite Hb. }
    eapply cwp_mono; [by apply (dispose_ok _ _ _ _ _ _ Hok1 HpD Hh)|]. naive_solver.
Qed.

End ownership.
