(* ===== verification/MemClient.v ===== *)
(** * Clients of the memory module

    Every operation that creates, shares, maps or frees buffers, run by
    clients that use the buffers they hold references to: it returns, keeps
    the invariant of the module, and accounts for the references. *)

From S2P Require Import Prelude Float32 CString GpuTypes GpuManager SyncPrims CMem MemTypes Allocator MemoryApi MemLifetime.
Local Open Scope Z_scope.

Section structures.
Context {care : Care}.

Definition set_handles (p : addr) (n : Z) (hs : addr -> Z) (q : addr) : Z :=
  if decide (q = p) then n else hs q.

Lemma set_handles_eq p n hs : set_handles p n hs p = n.
Proof. unfold set_handles. by rewrite decide_True. Qed.

Lemma set_handles_ne p n hs q : q <> p -> set_handles p n hs q = hs q.
Proof. intros. unfold set_handles. by rewrite decide_False. Qed.

(** ** New buffers *)

(** The heap after [link_buffer]. *)
Definition pushed (h : bheap) (p : addr) (first : option addr) : bheap :=
  let h1 := alter (with_links (fun l => l <| lk_next := first |>)) p h in
  match first with
  | Some f => alter (with_links (fun l => l <| lk_prev := Some p |>)) f h1
  | None => h1
  end.

Lemma wp_link_buffer p total (Q : unit -> mvgal_memory_state_t -> Prop) s :
  ms_locked s = false -> is_Some (ms_heap s !! p) ->
  (forall f, ms_buffers s = Some f -> is_Some (ms_heap s !! f)) ->
  (forall t, Q tt (set_heap (pushed (ms_heap s) p (ms_buffers s))
     (s <| ms_locked := false |> <| ms_buffers := Some p |> <| ms_total_allocated := t |>))) ->
  wp (link_buffer p total) Q s.
Proof.
  intros Hl Hp Hf HQ. unfold link_buffer, pushed in *.
  apply wp_bind, wp_lock; [done|]. apply wp_bind, wp_reads. cbn [ms_buffers upd].
  apply wp_bind, wp_alter; [done|]. apply wp_bind. cbn [ms_heap upd set_heap].
  destruct (ms_buffers s) as [f|].
  - apply wp_alter; [by apply lookup_alter_is_Some, Hf|].
    apply wp_bind, wp_modify, wp_modify. specialize (HQ (u64 (ms_total_allocated s + total))). by destruct s.
  - apply wp_ret. apply wp_bind, wp_modify, wp_modify.
    specialize (HQ (u64 (ms_total_allocated s + total))). by destruct s.
Qed.

Lemma pushed_new h p first b :
  (forall f, first = Some f -> f <> p) ->
  pushed (<[p := b]> h) p first !! p = Some (with_links (fun l => l <| lk_next := first |>) b).
Proof.
  intros Hf. unfold pushed. destruct first as [f|];
    rewrite ?lookup_alter_ne by (by apply Hf); by rewrite lookup_alter_eq, lookup_insert_eq.
Qed.

Lemma pushed_other h p first b q :
  q <> p ->
  pushed (<[p := b]> h) p first !! q =
    (if decide (first = Some q) then with_links (fun l => l <| lk_prev := Some p |>) else id) <$> h !! q.
Proof.
  intros Hq. unfold pushed. destruct first as [f|].
  - rewrite lookup_alter. case_decide as E; [subst|].
    + rewrite lookup_alter_ne, lookup_insert_ne, decide_True by done. done.
    + rewrite lookup_alter_ne, lookup_insert_ne, decide_False by congruence. by rewrite option_fmap_id.
  - rewrite lookup_alter_ne, lookup_insert_ne, decide_False by done. by rewrite option_fmap_id.
Qed.

Lemma pushed_relinked h p first b q c' :
  pushed (<[p := b]> h) p first !! q = Some c' -> q <> p ->
  exists c, h !! q = Some c /\ relinked c c'.
Proof.
  intros Hc Hq. rewrite pushed_other in Hc by done. destruct (h !! q) as [c|]; [|done].
  exists c. split; [done|].
  case_decide; cbn in Hc; simplify_eq; [by eexists _, _|apply relinked_refl].
Qed.

(** A new structure enters the list; it is not accounted for yet. *)
Lemma inv_push h first regs regs' hs l p b :
  mem_inv h first regs hs l ∅ None -> h !! p = None ->
  lk_prev (b_links b) = None -> us_fence (b_usage b) = None ->
  (forall r rg, regs !! r = Some rg -> regs' !! r = Some rg) ->
  (forall k q, holds k b = Some q -> regs !! fst q = None /\
     exists rg, regs' !! fst q = Some rg /\ backs b k q rg) ->
  mem_inv (pushed (<[p := b]> h) p first) (Some p) regs' hs (p :: l) {[p]} None.
Proof.
  intros I Hp Hpv Hf Hregs Hown.
  set (h' := pushed (<[p := b]> h) p first).
  assert (Hpl : p ∉ l) by (intros Hin%(mi_dom _ _ _ _ _ _ _ I); rewrite Hp in Hin; by destruct Hin).
  assert (Hfp : forall f, first = Some f -> f <> p).
  { intros f Ef ->. rewrite (mi_first _ _ _ _ _ _ _ I) in Ef. by apply Hpl, head_Some_elem_of. }
  assert (Hp' : h' !! p = Some (with_links (fun l => l <| lk_next := first |>) b)).
  { by apply pushed_new. }
  assert (Hq' : forall q, q <> p -> h' !! q =
    (if decide (first = Some q) then with_links (fun l => l <| lk_prev := Some p |>) else id) <$> h !! q)
    by (intros q Hq; by apply pushed_other).
  assert (Hback : forall q c', h' !! q = Some c' -> q <> p -> exists c, h !! q = Some c /\ relinked c c')
    by (intros q c'; apply pushed_relinked).
  assert (Hpar : forall q, q <> p -> parent h' q = parent h q).
  { intros q Hq. unfold parent. rewrite (Hq' q Hq). destruct (h !! q); [|done]. by case_decide. }
  clearbody h'. constructor.
  - apply NoDup_cons. split; [done|apply I].
  - intros q. destruct (decide (q = p)) as [->|Hq].
    { rewrite Hp'. split; [set_solver|eauto]. }
    rewrite (Hq' q Hq), fmap_is_Some, (mi_dom _ _ _ _ _ _ _ I). set_solver.
  - done.
  - eapply linked_push; [by apply NoDup_cons; split; [|apply I]|apply I|..]; unfold nx, pv.
    + rewrite Hp'. cbn. by rewrite (mi_first _ _ _ _ _ _ _ I).
    + by rewrite Hp'.
    + intros q Hq. rewrite Hq' by congruence. destruct (h !! q); [|done]. by case_decide.
    + intros q Hq. rewrite Hq', <- (mi_first _ _ _ _ _ _ _ I) by congruence.
      destruct (mi_live _ _ _ _ _ _ _ q I Hq) as (c & ->). by case_decide.
  - set_solver.
  - intros q c' Hc Hq. destruct (Hback q c' Hc ltac:(set_solver)) as (c & Ec & R).
    eapply relinked_ok; [exact R|]. pose proof (mi_ok _ _ _ _ _ _ _ I q c Ec ltac:(set_solver)) as Hok.
    eapply buffer_ok_frame; [| |done|exact Hok].
    + intros r. destruct (decide (r = p)) as [->|]; [|rewrite Hpar by done; set_solver].
      assert (parent h p = None) by (unfold parent; by rewrite Hp). set_solver.
    + intros r _ Hb. by apply before_cons.
  - intros q c' Hc. destruct (decide (q = p)) as [->|Hq].
    { rewrite Hp' in Hc. by injection Hc as <-. }
    destruct (Hback q c' Hc Hq) as (c & Ec & (n & v & ->)). exact (mi_fence _ _ _ _ _ _ _ I q c Ec).
  - intros q c' k r Hc Ho. destruct (decide (q = p)) as [->|Hq].
    { rewrite Hp' in Hc. injection Hc as <-. destruct (Hown k r Ho) as (_ & rg & ? & ?). exists rg.
      split; [done|]. by apply (backs_size b). }
    destruct (Hback q c' Hc Hq) as (c & Ec & (n & v & ->)).
    destruct (mi_owned _ _ _ _ _ _ _ I q c k r Ec Ho) as (rg & ? & ?). exists rg.
    split; [auto|by apply (backs_size c)].
  - assert (Hnew : forall q c c' k k' r r', q <> p -> h' !! q = Some c -> h' !! p = Some c' ->
      holds k c = Some r -> holds k' c' = Some r' -> fst r <> fst r').
    { intros q c c' k k' r r' Hq Hc Hc' Ho Ho' E. rewrite Hp' in Hc'. injection Hc' as <-.
      destruct (Hback q c Hc Hq) as (d & Ed & (n & v & ->)).
      destruct (mi_owned _ _ _ _ _ _ _ I q d k r Ed Ho) as (rg & Hr & _).
      destruct (Hown k' r' Ho') as (Hn & _). congruence. }
    intros q q' c c' k k' r r' Hc Hc' Ho Ho' E.
    destruct (decide (q = p)) as [->|Hq], (decide (q' = p)) as [->|Hqq]; [done| | |].
    + exfalso. by apply (Hnew q' c' c k' k r' r).
    + exfalso. by apply (Hnew q c c' k k' r r').
    + destruct (Hback q c Hc Hq) as (d & Ed & (n & v & ->)).
      destruct (Hback q' c' Hc' Hqq) as (d' & Ed' & (n' & v' & ->)).
      exact (mi_unique _ _ _ _ _ _ _ I q q' d d' k k' r r' Ed Ed' Ho Ho' E).
  - intros q. pose proof (mi_handles _ _ _ _ _ _ _ I q) as [? Hz]. split; [done|]. set_solver.
Qed.

(** A structure nobody shares yet. *)
Record fresh_buffer (b : mvgal_buffer) : Prop := {
  fb_refcount : b_refcount b = 1;
  fb_aliases : length (lk_aliases (b_links b)) = 16%nat;
  fb_count : lk_alias_count (b_links b) = 0;
  fb_alias : lk_is_alias (b_links b) = bool_decide (lk_alias_parent (b_links b) <> None);
  fb_attached : lk_alias_detached (b_links b) = false
}.

(** Nobody can be an alias of the buffer at the head of the list. *)
Lemma head_childless h first regs hs l D x p q :
  mem_inv h first regs hs (p :: l) D x -> q ∉ D -> parent h q = Some p -> False.
Proof.
  intros I HqD Hq. unfold parent in Hq. destruct (h !! q) as [c|] eqn:E; [|done]. cbn in Hq.
  pose proof (bo_parent _ _ _ _ _ _ _ (mi_ok _ _ _ _ _ _ _ I q c E HqD) p Hq) as (l1 & l2 & El & Hp).
  pose proof (mi_nodup _ _ _ _ _ _ _ I) as [Hn _]%NoDup_cons.
  destruct l1; cbn in El; simplify_eq; set_solver.
Qed.

Lemma fresh_ok h first regs hs l p b :
  mem_inv h first regs hs (p :: l) {[p]} None -> h !! p = Some b -> fresh_buffer b ->
  (forall q, lk_alias_parent (b_links b) = Some q -> q ∈ l) ->
  buffer_ok h (set_handles p 1 hs) (p :: l) ∅ None p b.
Proof.
  intros I Hp [F1 F2 F3 F4 F5] Hpar.
  assert (parent h p <> Some p).
  { unfold parent. rewrite Hp. cbn. intros E%Hpar.
    pose proof (mi_nodup _ _ _ _ _ _ _ I) as [Hn _]%NoDup_cons. done. }
  constructor; rewrite ?set_handles_eq, ?F1, ?F3; unfold U32_MAX; try done; try lia.
  - exists []. unfold live_aliases. rewrite F3. split_and!; [done|constructor|done|].
    intros q. split; [set_solver|]. intros [Hq _]. exfalso.
    destruct (decide (q = p)) as [->|]; [done|]. eapply head_childless; [exact I| |exact Hq]. set_solver.
  - intros q Hq. apply before_head. auto.
Qed.

Lemma inv_adopt h first regs hs l p b :
  mem_inv h first regs hs (p :: l) {[p]} None -> h !! p = Some b -> fresh_buffer b ->
  lk_alias_parent (b_links b) = None ->
  mem_inv h first regs (set_handles p 1 hs) (p :: l) ∅ None.
Proof.
  intros I Hp F Hpar. pose proof (fresh_ok _ _ _ _ _ _ _ I Hp F ltac:(by rewrite Hpar)) as Hok.
  assert (Hpp : parent h p = None) by (unfold parent; by rewrite Hp).
  constructor; try apply I; [by intros ? ?%elem_of_empty| |].
  - intros q c Hc _. destruct (decide (q = p)) as [->|Hq]; [by simplify_eq|].
    eapply (buffer_ok_frame h h hs _ (p :: l) _ {[p]}); [|done|by apply set_handles_ne|apply (mi_ok _ _ _ _ _ _ _ I); [done|set_solver]].
    intros r. destruct (decide (r = p)) as [->|]; [rewrite Hpp|]; set_solver.
  - intros q. destruct (decide (q = p)) as [->|]; [rewrite set_handles_eq; split; [lia|by intros []%not_elem_of_cons]|].
    rewrite set_handles_ne by done. apply (mi_handles _ _ _ _ _ _ _ I).
Qed.

Definition attached_to (p : addr) (c : mvgal_buffer) : mvgal_buffer :=
  (with_links (add_alias p) c) <| b_refcount ::= fun n => u32 (n + 1) |>.

(** A new alias enters its parent's table and takes a reference. *)
Lemma inv_attach h first regs hs l p b q c :
  mem_inv h first regs hs (p :: l) {[p]} None -> h !! p = Some b -> fresh_buffer b ->
  lk_alias_parent (b_links b) = Some q -> q ∈ l -> h !! q = Some c ->
  lk_alias_count (b_links c) < 16 -> b_refcount c < U32_MAX ->
  mem_inv (<[q := attached_to p c]> h) first regs (set_handles p 1 hs) (p :: l) ∅ None.
Proof.
  intros I Hp F Hpar Hql Hq Hroom Hmax.
  pose proof (fresh_ok _ _ _ _ _ _ _ I Hp F ltac:(rewrite Hpar; naive_solver)) as Hok.
  assert (Hpp : parent h p = Some q) by (unfold parent; by rewrite Hp).
  assert (Hne : q <> p) by (pose proof (mi_nodup _ _ _ _ _ _ _ I) as [Hn _]%NoDup_cons; congruence).
  pose proof (mi_ok _ _ _ _ _ _ _ I q c Hq ltac:(set_solver))
    as [(qs & Eqs & Hnd & Hc & Hin) Hlen Href Hmx Hal Hia Hat Hbp].
  specialize (Hal ltac:(done)).
  eapply inv_reshape; [exact I|by eapply same_shape_insert|by intros ? ?%elem_of_empty| |].
  - intros r. destruct (decide (r = p)) as [->|]; [rewrite set_handles_eq; split; [lia|by intros []%not_elem_of_cons]|].
    rewrite set_handles_ne by done. apply (mi_handles _ _ _ _ _ _ _ I).
  - intros r b' [[<- <-]|[Hrq Hr]]%lookup_insert_Some _.
    + unfold live_aliases in Eqs.
      assert (Hu : u32 (b_refcount c + 1) = b_refcount c + 1)
        by (apply u32_small; unfold is_u32 in *; lia).
      constructor; cbn; rewrite ?Hu, ?set_handles_ne by done; try done; try lia.
      * exists (qs ++ [p]). unfold live_aliases. cbn. rewrite Hc in *. rewrite Nat2Z.id in *.
        rewrite <- Nat2Z.inj_succ, Nat2Z.id. split_and!.
        -- rewrite (take_S_r _ _ (Some p)), take_insert_ge, Eqs, fmap_app by
             (try apply list_lookup_insert_eq; lia). done.
        -- apply NoDup_app. split_and!; [done| |apply NoDup_singleton].
           intros r Hr%Hin ->%list_elem_of_singleton. set_solver.
        -- rewrite length_app. cbn. lia.
        -- intros r. specialize (Hin r). rewrite elem_of_app, list_elem_of_singleton, Hin.
           destruct (decide (r = p)) as [->|]; set_solver.
      * by rewrite length_insert.
    + destruct (decide (r = p)) as [->|Hrp]; [by simplify_eq|].
      eapply (buffer_ok_frame h h hs _ (p :: l) _ {[p]}); [|done|by apply set_handles_ne|].
      * intros t. destruct (decide (t = p)) as [->|]; [rewrite Hpp|]; set_solver.
      * apply (mi_ok _ _ _ _ _ _ _ I); [done|set_solver].
Qed.

End structures.

(** ** Steps that only touch byte memory *)

Record mem_step (s s' : mvgal_memory_state_t) : Prop := {
  mst_heap : ms_heap s' = ms_heap s;
  mst_buffers : ms_buffers s' = ms_buffers s;
  mst_locked : ms_locked s' = ms_locked s;
  mst_init : ms_initialized s' = ms_initialized s;
  mst_regs : forall r rg, cm_regs (ms_mem s) !! r = Some rg -> cm_regs (ms_mem s') !! r = Some rg;
  mst_order : mem_wf (ms_mem s) (ms_files s) -> mem_wf (ms_mem s') (ms_files s')
}.

Lemma mem_step_refl s : mem_step s s.
Proof. by constructor. Qed.

Lemma mem_step_trans s s' s'' : mem_step s s' -> mem_step s' s'' -> mem_step s s''.
Proof. intros [] []. constructor; try congruence; auto. Qed.

Create HintDb steps.
#[export] Hint Resolve mem_step_refl mem_step_trans : steps.

Section operations.
Context {care : Care}.

Lemma mem_step_ok s s' hs l D x : mem_step s s' -> module_ok s hs l D x -> module_ok s' hs l D x.
Proof.
  intros [H1 H2 H3 H4 H5 H6] [Hl Hi Hm I]. constructor; rewrite ?H1, ?H2, ?H3, ?H4; auto.
  eapply inv_regs; [exact I|]. auto.
Qed.

(** Memory stays in order. *)
Lemma mem_wf_block m files o r bytes :
  cm_objs m !! o = None -> cm_regs m !! r = None -> mem_wf m files ->
  mem_wf (m <| cm_objs ::= <[o := bytes]> |>
            <| cm_regs ::= <[r := mk_region o 0 (Z.of_nat (length bytes)) true []]> |>) files.
Proof.
  intros Ho Hr [W1 W2 W3]. constructor; cbn.
  - intros a ra [[<- <-]|[_ Ha]]%lookup_insert_Some; cbn; [rewrite lookup_insert_eq; eauto|].
    apply lookup_insert_is_Some'. right. by apply (W1 a).
  - intros a ra a' ra' [[<- <-]|[Hn Ha]]%lookup_insert_Some Hh [[<- <-]|[Hn' Ha']]%lookup_insert_Some;
      cbn; intros E; try done.
    + destruct (W1 a' ra' Ha'). congruence.
    + destruct (W1 a ra Ha). congruence.
    + by apply (W2 a ra a' ra').
  - intros fd q Hq. destruct (W3 fd q Hq) as [Hs Hn]. split; [apply lookup_insert_is_Some'; by right|].
    intros a ra [[<- <-]|[_ Ha]]%lookup_insert_Some Hh; cbn; [|by apply (Hn a ra)].
    intros ->. rewrite Ho in Hs. by destruct Hs.
Qed.

Lemma mem_wf_file m files o fd bytes :
  cm_objs m !! o = None -> mem_wf m files ->
  mem_wf (m <| cm_objs ::= <[o := bytes]> |>) (<[fd := o]> files).
Proof.
  intros Ho [W1 W2 W3]. constructor; cbn.
  - intros a ra Ha. apply lookup_insert_is_Some'. right. by apply (W1 a).
  - done.
  - intros fd' q [[<- <-]|[_ Hq]]%lookup_insert_Some.
    + rewrite lookup_insert_eq. split; [eauto|]. intros a ra Ha _ E. destruct (W1 a ra Ha). congruence.
    + destruct (W3 fd' q Hq) as [Hs Hn]. split; [apply lookup_insert_is_Some'; by right|done].
Qed.

Lemma mem_wf_mapping m files fd o r base size :
  files !! fd = Some o -> cm_regs m !! r = None -> mem_wf m files ->
  mem_wf (m <| cm_regs ::= <[r := mk_region o base size false []]> |>) files.
Proof.
  intros Hf Hr [W1 W2 W3]. destruct (W3 fd o Hf) as [Ho Hn]. constructor; cbn.
  - intros a ra [[<- <-]|[_ Ha]]%lookup_insert_Some; [done|by apply (W1 a)].
  - intros a ra a' ra' [[<- <-]|[_ Ha]]%lookup_insert_Some Hh; [done|].
    intros [[<- <-]|[_ Ha']]%lookup_insert_Some; [|by apply (W2 a ra a' ra')].
    cbn. intros E. by destruct (Hn a ra Ha Hh).
  - intros fd' q Hq. destruct (W3 fd' q Hq) as [Hs Hn']. split; [done|].
    intros a ra [[<- <-]|[_ Ha]]%lookup_insert_Some Hh; [done|by apply (Hn' a ra)].
Qed.

Lemma mem_wf_store m m' files :
  cm_regs m' = cm_regs m -> dom (cm_objs m') = dom (cm_objs m) -> mem_wf m files -> mem_wf m' files.
Proof.
  intros Er Ed [W1 W2 W3].
  assert (Ho : forall o, is_Some (cm_objs m !! o) -> is_Some (cm_objs m' !! o))
    by (intros o; rewrite <- !elem_of_dom, Ed; done).
  constructor; rewrite Er.
  - intros a ra Ha. by apply Ho, (W1 a).
  - done.
  - intros fd o Hf. destruct (W3 fd o Hf). auto.
Qed.

Section steps.
Context `{GpuOS} `{MemEnv}.

Lemma wp_sys c (Q : bool -> mvgal_memory_state_t -> Prop) s :
  (forall b s', mem_step s s' -> ms_mem s' = ms_mem s -> ms_files s' = ms_files s -> Q b s') ->
  wp (sys c) Q s.
Proof. intros HQ. apply HQ; by constructor. Qed.

Lemma new_block_step bytes s :
  wp (on_mem (new_block bytes)) (fun p s' => mem_step s s' /\ cm_regs (ms_mem s) !! fst p = None /\
    block_at (ms_mem s') p (Z.of_nat (length bytes)) true) s.
Proof.
  apply wp_on_mem. unfold wp, new_block.
  set (o := fresh (dom (cm_objs (ms_mem s)))). set (r := fresh (dom (cm_regs (ms_mem s)))).
  assert (Hr : cm_regs (ms_mem s) !! r = None) by apply not_elem_of_dom, is_fresh.
  split_and!; [|done|].
  - constructor; try done.
    + intros r' rg' Hr'. cbn. rewrite lookup_insert_ne by congruence. exact Hr'.
    + apply mem_wf_block; [apply not_elem_of_dom, is_fresh|done].
  - constructor; [|done]. exists (mk_region o 0 (Z.of_nat (length bytes)) true []), bytes. cbn.
    by rewrite !lookup_insert_eq.
Qed.

Lemma malloc_step c size s :
  wp (malloc c size) (fun r s' => mem_step s s' /\ match r with
    | Some p => cm_regs (ms_mem s) !! fst p = None /\
        block_at (ms_mem s') p (Z.of_nat (Z.to_nat size)) true
    | None => True
    end) s.
Proof.
  unfold malloc. apply wp_bind, wp_get. apply wp_bind, wp_sys. intros ok s1 H1 E1 _.
  destruct (ok && _); [|by apply wp_ret]. apply wp_bind.
  eapply wp_mono; [apply new_block_step|]. intros p s2 (H2 & Hr & Hb). apply wp_ret.
  rewrite length_fmap, length_seq in Hb. rewrite E1 in Hr. eauto with steps.
Qed.

Lemma system_memory_step info s :
  wp (system_memory info) (fun r s' => mem_step s s' /\ match r with
    | Some p => cm_regs (ms_mem s) !! fst p = None /\
        block_at (ms_mem s') p (Z.of_nat (Z.to_nat (align_size (ai_size info) (ai_alignment info)))) true
    | None => True
    end) s.
Proof.
  unfold system_memory, posix_memalign. destruct (_ && _); [|apply malloc_step].
  destruct (_ && _); [apply malloc_step|]. apply wp_ret. eauto with steps.
Qed.

(** A memory fill of a whole block. *)
Lemma memset_step p b n heap s :
  (0 <= n -> block_at (ms_mem s) p n heap) ->
  wp (on_mem (memset (Some p) b n)) (fun _ s' => mem_step s s' /\ forall q size hp,
    block_at (ms_mem s) q size hp -> block_at (ms_mem s') q size hp) s.
Proof.
  intros Hb. apply wp_on_mem. unfold memset.
  destruct (decide (0 <= n)) as [Hn|Hn].
  - destruct (store_block (ms_mem s) p n heap 0 (replicate (Z.to_nat n) b)) as (m' & E & Hr & Hd & _ & Hk);
      [by apply Hb|lia|rewrite length_replicate; lia|].
    destruct p as [r o]. cbn in E. rewrite Z.add_0_r in E. eapply wp_intro; [exact E|]. split; [|exact Hk].
    constructor; try done; cbn; [by rewrite Hr|by apply mem_wf_store].
  - replace (Z.to_nat n) with 0%nat by lia. cbn. split; [|done].
    constructor; done.
Qed.

(** A descriptor stands for a file of zeros of the size asked for. *)
Definition zero_file (s : mvgal_memory_state_t) (fd size : Z) : Prop :=
  exists o, file_of s fd = Some o /\ cm_objs (ms_mem s) !! o = Some (replicate (Z.to_nat size) 0).

Lemma new_file_step bytes s :
  wp (o ← on_mem (new_object bytes); new_file o)
    (fun fd s' => mem_step s s' /\ 0 <= fd /\ exists o, file_of s' fd = Some o /\
       cm_objs (ms_mem s') !! o = Some bytes) s.
Proof.
  apply wp_bind, wp_on_mem. unfold wp, new_object, new_file. cbn. split_and!; [|lia|].
  { constructor; try done. apply mem_wf_file, not_elem_of_dom, is_fresh. }
  eexists. rewrite lookup_insert_eq. split; [done|]. cbn. by rewrite lookup_insert_eq.
Qed.

Lemma dmabuf_fd_step size s :
  wp (dmabuf_fd size) (fun fd s' => mem_step s s' /\ (0 <= fd -> zero_file s' fd size)) s.
Proof.
  unfold dmabuf_fd. apply wp_bind, wp_reads. apply wp_bind.
  eapply wp_mono.
  { instantiate (1 := fun fd s' => mem_step s s' /\ (0 <= fd -> zero_file s' fd size)).
    destruct (0 <=? _); [|apply wp_ret; split; [apply mem_step_refl|lia]].
    apply wp_bind, wp_sys. intros ok s1 H1 _ _. destruct (ok && _); [|apply wp_ret; split; [done|lia]].
    eapply wp_mono; [apply new_file_step|]. intros fd s2 (H2 & _ & Hf). eauto with steps. }
  intros fd s1 (H1 & Hf). cbn beta. destruct (0 <=? fd); [by apply wp_ret|].
  apply wp_bind, wp_sys. intros made s2 H2 _ _.
  destruct made; [|apply wp_ret; split; [eauto with steps|lia]].
  apply wp_bind, wp_sys. intros ok s3 H3 _ _. destruct (ok && _); [|apply wp_ret; split; [eauto with steps|lia]].
  eapply wp_mono; [apply new_file_step|]. intros fd' s4 (H4 & _ & Hf4). eauto with steps.
Qed.

(** A new mapping of [size] bytes. *)
Record mapping_at (s s' : mvgal_memory_state_t) (q : ptr) (size : Z) : Prop := {
  ma_new : cm_regs (ms_mem s) !! fst q = None;
  ma_start : snd q = 0;
  ma_region : exists rg, cm_regs (ms_mem s') !! fst q = Some rg /\ rg_size rg = size /\
    rg_heap rg = false /\ rg_gone rg = []
}.

Lemma mapping_later s s' s'' q size : mem_step s' s'' -> mapping_at s s' q size -> mapping_at s s'' q size.
Proof.
  intros S [Hn Hz (rg & Hr & ? & ? & ?)]. constructor; [done|done|]. exists rg. split; [|done].
  by apply (mst_regs _ _ S).
Qed.

Lemma mapping_before s0 s s' q size : mem_step s0 s -> mapping_at s s' q size -> mapping_at s0 s' q size.
Proof.
  intros S [Hn Hz Hr]. constructor; [|done|done]. destruct (cm_regs (ms_mem s0) !! fst q) eqn:E; [|done].
  apply (mst_regs _ _ S) in E. congruence.
Qed.

Lemma mmap_any size fd offset s :
  wp (mmap size fd offset) (fun r s' => mem_step s s' /\
    match r with
    | Some q => mapping_at s s' q size /\
        (offset = 0 -> zero_file s fd size -> 0 <= size -> block_at (ms_mem s') q size false)
    | None => True
    end) s.
Proof.
  unfold mmap. apply wp_bind, wp_reads. apply wp_bind, wp_sys. intros ok s1 S1 E1 E2.
  destruct (file_of s fd) as [o|] eqn:Ef, ok; try by apply wp_ret.
  destruct (_ || _); [by apply wp_ret|]. apply wp_bind, wp_on_mem. unfold wp, new_mapping.
  set (r := fresh (dom (cm_regs (ms_mem s1)))).
  assert (Hr : cm_regs (ms_mem s1) !! r = None) by apply not_elem_of_dom, is_fresh.
  split_and!.
  - eapply mem_step_trans; [exact S1|]. constructor; try done.
    + intros r' rg' Hr'. cbn. rewrite lookup_insert_ne by congruence. exact Hr'.
    + destruct fd as [|f|f]; try done. apply (mem_wf_mapping _ _ f); [by rewrite E2|done].
  - constructor; [by rewrite <- E1|done|]. eexists. cbn. by rewrite lookup_insert_eq.
  - intros -> (o' & Hf & Ho) Hs. simplify_eq. constructor; [|done].
    exists (mk_region o 0 size false []), (replicate (Z.to_nat size) 0). cbn.
    rewrite lookup_insert_eq, E1, Ho, length_replicate. split_and!; try done. lia.
Qed.

Lemma dmabuf_allocate_step size alignment flags mask s :
  wp (mvgal_dmabuf_allocate size alignment flags mask) (fun r s' => mem_step s s' /\
    match r with (_, Some (_, q)) => mapping_at s s' q size | (_, None) => True end) s.
Proof.
  unfold mvgal_dmabuf_allocate. apply wp_bind. eapply wp_mono; [apply dmabuf_fd_step|].
  intros fd s1 (S1 & Hf). destruct (Z.ltb_spec fd 0); [by apply wp_ret|].
  apply wp_bind. eapply wp_mono; [apply mmap_any|]. intros [p|] s2 (S2 & Hp).
  - destruct Hp as [Hma Hbl]. apply wp_bind. eapply wp_mono.
    { instantiate (1 := fun _ s' => mem_step s2 s').
      destruct (has_flag _ _); [|apply wp_ret; apply mem_step_refl].
      eapply wp_mono; [by eapply memset_step; auto|]. intros ? s3 [S3 _]. exact S3. }
    intros ? s3 S3. apply wp_bind, wp_sys. intros ? s4 S4 _ _. apply wp_ret. split.
    + exact (mem_step_trans _ _ _ (mem_step_trans _ _ _ S1 S2) (mem_step_trans _ _ _ S3 S4)).
    + eapply mapping_before; [exact S1|]. eapply mapping_later; [|exact Hma].
      exact (mem_step_trans _ _ _ S3 S4).
  - apply wp_bind, wp_close. intros files Hfs. apply wp_ret. split; [|done].
    eapply mem_step_trans; [exact S1|]. eapply mem_step_trans; [exact S2|].
    constructor; try done. by apply mem_wf_files.
Qed.

(** A structure as [calloc] and the assignments after it leave it. *)
Record new_root (regs regs' : gmap positive region) (b : mvgal_buffer) : Prop := {
  nr_fresh : fresh_buffer b;
  nr_parent : lk_alias_parent (b_links b) = None;
  nr_prev : lk_prev (b_links b) = None;
  nr_fence : us_fence (b_usage b) = None;
  nr_owns : forall k q, holds k b = Some q -> regs !! fst q = None /\
    exists rg, regs' !! fst q = Some rg /\ backs b k q rg
}.

Lemma fresh_init info : fresh_buffer (init_buffer info).
Proof. by constructor. Qed.

Definition allocated (s : mvgal_memory_state_t) (r : mvgal_error_t * option addr)
  (s' : mvgal_memory_state_t) : Prop :=
  match r with
  | (MVGAL_SUCCESS, Some p) => exists b s1, mem_step s s1 /\ ms_heap s1 !! p = None /\
      s' = set_heap (<[p := b]> (ms_heap s1)) s1 /\
      new_root (cm_regs (ms_mem s)) (cm_regs (ms_mem s1)) b
  | (err, _) => err <> MVGAL_SUCCESS /\ mem_step s s'
  end.

Lemma new_buffer_step b s s1 :
  mem_step s s1 -> new_root (cm_regs (ms_mem s)) (cm_regs (ms_mem s1)) b ->
  wp (p ← new_buffer b; mret (MVGAL_SUCCESS, Some p)) (allocated s) s1.
Proof.
  intros S1 Hb. apply wp_bind. eapply wp_intro; [reflexivity|]. apply wp_ret.
  exists b, s1. split_and!; [done|apply not_elem_of_dom, is_fresh|done|done].
Qed.

Lemma page_up_mono n n' : n <= n' -> page_up n <= page_up n'.
Proof.
  intros Hn. unfold page_up. apply Z.mul_le_mono_nonneg_r; [done|]. apply Z.div_le_mono; [done|lia].
Qed.

Lemma spans_longer rg len : len <= rg_size rg -> spans rg len = true.
Proof. intros Hl. apply orb_true_iff. right. by apply Z.leb_le, page_up_mono. Qed.

(** Rounding the size of a request up to its alignment did not wrap around. *)
Definition unwrapped (info : mvgal_memory_alloc_info_t) : Prop :=
  ai_size info <= align_size (ai_size info) (ai_alignment info).

Lemma unwrapped_unaligned info : ai_alignment info = 0 -> unwrapped info.
Proof. intros E. unfold unwrapped, align_size. rewrite E. cbn. lia. Qed.

Lemma dmabuf_root info fd p s s' :
  mem_step s s' -> (covered = true -> unwrapped info) ->
  mapping_at s s' p (align_size (ai_size info) (ai_alignment info)) ->
  new_root (cm_regs (ms_mem s)) (cm_regs (ms_mem s')) (dmabuf_buffer info fd p).
Proof.
  intros S Hu [Hn Hz (rg & Hr & Hs & Hh & Hg)]. constructor; try done.
  intros [] q Hq; [done|]. cbn in Hq. unfold maps in Hq. cbn in Hq. case_match; [|done]. simplify_eq.
  split; [done|]. exists rg. split; [done|]. constructor; try done.
  intros Hc _. apply spans_longer. rewrite Hs. by apply Hu.
Qed.

Lemma system_root info p s s' s'' :
  mem_step s s' -> mem_step s' s'' -> cm_regs (ms_mem s) !! fst p = None ->
  (exists n, block_at (ms_mem s') p n true) ->
  new_root (cm_regs (ms_mem s)) (cm_regs (ms_mem s'')) (system_buffer info p).
Proof.
  intros S S' Hn (n & [(rg & bytes & Hr & _ & _ & _ & Hh & Hg & _) Hz]). constructor; try done.
  intros [] q Hq; [|done]. cbn in Hq. unfold owns in Hq. cbn in Hq. injection Hq as <-.
  split; [done|]. exists rg. split; [by apply (mst_regs _ _ S')|]. by constructor.
Qed.

Lemma allocate_internal_step info s :
  (covered = true -> unwrapped info) ->
  wp (mvgal_buffer_allocate_internal (Some info) true) (allocated s) s.
Proof.
  intros Hu. unfold mvgal_buffer_allocate_internal. cbn [negb].
  destruct (ai_size info =? 0); [by apply wp_ret; cbn; eauto with steps|].
  apply wp_bind, wp_sys. intros ok s1 S1 E1 _. destruct ok; [|by apply wp_ret]. cbn [negb].
  apply wp_bind, wp_reads. apply wp_bind. eapply wp_mono.
  { instantiate (1 := fun r s' => mem_step s1 s' /\ match r with (_, Some (_, q)) =>
      mapping_at s1 s' q (align_size (ai_size info) (ai_alignment info)) | (_, None) => True end).
    destruct (_ && _); [apply dmabuf_allocate_step|apply wp_ret; eauto with steps]. }
  intros shared s2 [S2 Hma]. assert (S12 : mem_step s s2) by eauto with steps.
  assert (Hsys : wp (p ← system_memory info;
    match p with
    | None => mret (MVGAL_ERROR_OUT_OF_MEMORY, None)
    | Some p =>
        (if has_flag (ai_flags info) MVGAL_MEMORY_FLAG_ZERO_INITIALIZED
         then on_mem (memset (Some p) 0 (align_size (ai_size info) (ai_alignment info))) else mret tt);;
        b ← new_buffer (system_buffer info p);
        mret (MVGAL_SUCCESS, Some b)
    end) (allocated s) s2).
  { apply wp_bind. eapply wp_mono; [apply system_memory_step|]. intros [p|] s3 (S3 & Hp);
      [|apply wp_ret; cbn; eauto with steps].
    destruct Hp as [Hn Hb]. apply wp_bind. eapply wp_mono.
    { instantiate (1 := fun _ s' => mem_step s3 s').
      destruct (has_flag _ _); [|apply wp_ret; eauto with steps].
      eapply wp_mono; [eapply (memset_step p _ _ true)|naive_solver]. intros Hz.
      by rewrite Z2Nat.id in Hb. }
    intros ? s4 S4. cbn beta in S4. apply new_buffer_step; [eauto with steps|].
    eapply (system_root _ _ s s3); [eauto with steps|done| |eauto].
    destruct (cm_regs (ms_mem s) !! fst p) as [rg'|] eqn:E; [|done].
    apply (mst_regs _ _ S12) in E. congruence. }
  destruct shared as [[] [[fd p]|]]; try exact Hsys.
  apply new_buffer_step; [done|]. apply dmabuf_root; [done|done|]. exact (mapping_before _ _ _ _ _ S1 Hma).
Qed.

(** ** Operations *)

Definition client_ok (s : mvgal_memory_state_t) (hs : addr -> Z) : Prop :=
  exists l, module_ok s hs l ∅ None.

(** A call that creates a buffer gives its caller one reference to it. *)
Definition created (hs : addr -> Z) (r : mvgal_error_t * option addr) (s' : mvgal_memory_state_t) : Prop :=
  match r with
  | (MVGAL_SUCCESS, Some p) => client_ok s' (set_handles p 1 hs) /\ hs p = 0
  | (err, _) => err <> MVGAL_SUCCESS /\ client_ok s' hs
  end.

Lemma client_step s s' hs : mem_step s s' -> client_ok s hs -> client_ok s' hs.
Proof. intros S [l Hok]. exists l. by eapply mem_step_ok. Qed.

Lemma link_root s s1 hs l p b total :
  module_ok s hs l ∅ None -> ms_initialized s = true -> mem_step s s1 -> ms_heap s1 !! p = None ->
  new_root (cm_regs (ms_mem s)) (cm_regs (ms_mem s1)) b ->
  wp (link_buffer p total;; mret (MVGAL_SUCCESS, Some p)) (created hs)
    (set_heap (<[p := b]> (ms_heap s1)) s1).
Proof.
  intros [Hl Hi Hm I] Hinit [E1 E2 E3 E4 E5 E6] Hp [F1 F2 F3 F4 F5]. rewrite E1 in *.
  assert (Hpl : p ∉ l) by (intros Hin%(mi_dom _ _ _ _ _ _ _ I); rewrite Hp in Hin; by destruct Hin).
  pose proof (inv_push _ _ _ (cm_regs (ms_mem s1)) _ _ p b I Hp F3 F4 E5 F5) as I1.
  apply wp_bind, wp_link_buffer; cbn [ms_locked ms_heap ms_buffers set_heap upd].
  - congruence.
  - rewrite lookup_insert_eq. eauto.
  - intros f Hf. rewrite E2, (mi_first _ _ _ _ _ _ _ I) in Hf.
    rewrite lookup_insert_is_Some'. right. by apply (mi_dom _ _ _ _ _ _ _ I), head_Some_elem_of.
  - intros t. apply wp_ret. split; [|by apply (mi_handles _ _ _ _ _ _ _ I)].
    exists (p :: l). constructor; cbn; [done|congruence|auto|]. rewrite E2.
    eapply inv_adopt; [exact I1| | |].
    + apply pushed_new. intros f Hf ->. rewrite (mi_first _ _ _ _ _ _ _ I) in Hf.
      by apply Hpl, head_Some_elem_of.
    + destruct F1. by constructor.
    + done.
Qed.

Lemma init_ok s hs :
  client_ok s hs -> ms_initialized s = false ->
  wp mvgal_memory_module_init (fun r s' => r = MVGAL_SUCCESS /\ client_ok s' hs /\ ms_initialized s' = true) s.
Proof.
  intros [l [Hl Hi Hm I]] Hinit. specialize (Hi Hinit). subst l.
  unfold mvgal_memory_module_init. apply wp_bind, wp_reads. rewrite Hinit.
  apply wp_bind, wp_modify.
  match goal with |- wp _ _ ?t0 => set (t := t0) end.
  assert (Ht : module_ok t hs [] ∅ None).
  { constructor; [done|done|done|]. subst t. cbn.
    by rewrite (mi_first _ _ _ _ _ _ _ I) in I. }
  clearbody t. clear I Hl Hm Hinit s.
  apply wp_bind, wp_sys. intros opened s1 S1 _ _. apply wp_bind. eapply wp_mono.
  { instantiate (1 := fun _ s' => mem_step t s').
    destruct opened; [|by apply wp_ret].
    change (wp (on_mem (new_object []) ≫= fun o => new_file o ≫= fun fd =>
      modify (fun s => s <| ms_system_heap_fd := fd |>)) (fun _ s' => mem_step t s') s1).
    apply wp_bind, wp_on_mem. unfold wp, new_object, new_file. cbn.
    eapply mem_step_trans; [exact S1|]. constructor; try done. apply mem_wf_file, not_elem_of_dom, is_fresh. }
  intros ? s2 S2. cbn beta in S2. apply wp_bind.
  unfold on_manager at 1. unfold wp at 1. destruct (mvgal_gpu_get_count (ms_manager s2)) as [count g].
  apply wp_bind. eapply wp_mono.
  { instantiate (1 := fun _ s' => mem_step t s').
    destruct (0 <? count).
    - apply wp_bind. unfold on_manager, wp at 1. cbn [ms_manager upd].
      destruct (mvgal_gpu_enumerate _ _ _) as [found g']. apply wp_modify.
      eapply mem_step_trans; [exact S2|]. by constructor.
    - apply wp_ret. eapply mem_step_trans; [exact S2|]. by constructor. }
  intros ? s3 S3. cbn beta in S3. apply wp_bind, wp_modify, wp_ret. split_and!; [done| |done].
  exists []. pose proof (mem_step_ok _ _ _ _ _ _ S3 Ht) as [? ? ? ?]. by constructor.
Qed.

Lemma ensure_ok s hs :
  client_ok s hs ->
  wp ensure_memory_initialized
    (fun r s' => r = MVGAL_SUCCESS /\ client_ok s' hs /\ ms_initialized s' = true) s.
Proof.
  intros Hok. unfold ensure_memory_initialized. apply wp_bind, wp_reads.
  destruct (ms_initialized s) eqn:E; [by apply wp_ret|by apply init_ok].
Qed.

Lemma allocate_ok info out s hs :
  client_ok s hs -> (covered = true -> forall i, info = Some i -> unwrapped i) ->
  wp (mvgal_memory_allocate info out) (created hs) s.
Proof.
  intros Hok Hu. unfold mvgal_memory_allocate. destruct info as [info|]; [|by apply wp_ret].
  destruct out; [|by apply wp_ret]. cbn [negb]. apply wp_bind. eapply wp_mono; [by apply ensure_ok|].
  intros ? s1 (-> & [l Hok1] & Hi). cbn [is_success negb]. apply wp_bind.
  eapply wp_mono; [apply allocate_internal_step; by auto|].
  intros [err o] s2 Ha. unfold allocated in Ha.
  destruct err, o as [p|]; try (apply wp_ret; destruct Ha as [? S2]; split; [done|];
    eapply client_step; [exact S2|by exists l]).
  destruct Ha as (b & s3 & S3 & Hp & -> & Hb).
  apply wp_bind. eapply wp_deref; [apply lookup_insert_eq|]. by eapply link_root.
Qed.

Lemma wrap_ok p size flags out s hs :
  client_ok s hs -> wp (mvgal_memory_wrap p size flags out) (created hs) s.
Proof.
  intros Hok. unfold mvgal_memory_wrap. destruct p as [p|]; [|by apply wp_ret].
  destruct (negb out || _); [by apply wp_ret|]. apply wp_bind. eapply wp_mono; [by apply ensure_ok|].
  intros ? s1 (-> & [l Hok1] & Hi). cbn [is_success negb]. apply wp_bind, wp_sys.
  intros ok s2 S2 E2 _. destruct ok; cbn [negb].
  2: { apply wp_ret. split; [done|]. eapply client_step; [exact S2|by exists l]. }
  apply wp_bind. eapply wp_intro; [reflexivity|]. eapply (link_root s1 s2); [exact Hok1|done|done| |].
  - apply not_elem_of_dom, is_fresh.
  - constructor; try done. by intros [].
Qed.

Lemma held_live s hs l D x p : module_ok s hs l D x -> 0 < hs p -> p ∈ l /\ exists b, ms_heap s !! p = Some b.
Proof.
  intros [_ _ _ I] Hp. assert (p ∈ l).
  { destruct (decide (p ∈ l)) as [|Hn]; [done|]. apply (mi_handles _ _ _ _ _ _ _ I p) in Hn. lia. }
  split; [done|by eapply mi_live].
Qed.

Definition counted (n : Z) (b : mvgal_buffer) : mvgal_buffer := b <| b_refcount := n |>.

(** The count of a held buffer changes together with the caller's handles. *)
Lemma inv_count h first regs hs l p b n :
  mem_inv h first regs hs l ∅ None -> h !! p = Some b ->
  0 <= hs p + (n - b_refcount b) -> n <= U32_MAX ->
  mem_inv (<[p := counted n b]> h) first regs (set_handles p (hs p + (n - b_refcount b)) hs) l ∅
    (if n <=? 0 then Some p else None).
Proof.
  intros I Hp Hpos Hmax.
  assert (Hpl : p ∈ l) by (apply (mi_dom _ _ _ _ _ _ _ I); eauto).
  eapply inv_reshape; [exact I|by eapply same_shape_insert|by intros ? ?%elem_of_empty| |].
  - intros r. destruct (decide (r = p)) as [->|]; [rewrite set_handles_eq; done|].
    rewrite set_handles_ne by done. apply (mi_handles _ _ _ _ _ _ _ I).
  - intros r b' [[<- <-]|[Hne Hr]]%lookup_insert_Some _.
    + pose proof (mi_ok _ _ _ _ _ _ _ I p b Hp ltac:(set_solver)) as [].
      constructor; cbn; try done; rewrite ?set_handles_eq; try lia.
      destruct (Z.leb_spec n 0); [done|lia].
    + pose proof (mi_ok _ _ _ _ _ _ _ I r b' Hr ltac:(set_solver)) as Hok.
      pose proof (bo_alive _ _ _ _ _ _ _ Hok ltac:(done)).
      eapply (buffer_ok_frame h h hs _ l l ∅) in Hok; [|done|done|by apply set_handles_ne].
      destruct Hok. by constructor.
Qed.

Lemma inv_size h first regs hs l D x : mem_inv h first regs hs l D x -> size h = length l.
Proof.
  intros I. rewrite <- size_dom. replace (dom h) with (list_to_set l : gset positive).
  - apply size_list_to_set, (mi_nodup _ _ _ _ _ _ _ I).
  - apply set_eq. intros p. by rewrite elem_of_list_to_set, elem_of_dom, (mi_dom _ _ _ _ _ _ _ I).
Qed.

(** Releasing one of the caller's references. *)
Lemma release_buffer_ok s hs p :
  client_ok s hs -> 0 < hs p ->
  cwp (mvgal_buffer_release (Some p)) (fun _ s' => client_ok s' (set_handles p (hs p - 1) hs) /\
    survives s s' /\
    forall b, ms_heap s !! p = Some b -> (ms_heap s' !! p = None <-> b_refcount b = 1)) s.
Proof.
  intros [l Hok] Hp. destruct (held_live _ _ _ _ _ _ Hok Hp) as (Hpl & b & Hb).
  pose proof (mo_inv _ _ _ _ _ Hok) as I.
  pose proof (mi_ok _ _ _ _ _ _ _ I p b Hb ltac:(set_solver)) as Bok.
  pose proof (bo_refs _ _ _ _ _ _ _ Bok) as Hr. pose proof (bo_max _ _ _ _ _ _ _ Bok) as Hmax.
  pose proof (bo_alive _ _ _ _ _ _ _ Bok ltac:(done)) as Hal.
  set (b' := counted (b_refcount b - 1) b).
  assert (Eb : b <| b_refcount ::= fun n => u32 (n - 1) |> = b').
  { subst b'. unfold counted. cbn. rewrite u32_small by (unfold is_u32; lia). done. }
  pose proof (inv_count _ _ _ _ _ p b (b_refcount b - 1) I Hb ltac:(lia) ltac:(lia)) as I1. fold b' in I1.
  replace (hs p + (b_refcount b - 1 - b_refcount b)) with (hs p - 1) in I1 by lia.
  set (s1 := set_heap (<[p := b']> (ms_heap s)) s).
  assert (Hok1 : module_ok s1 (set_handles p (hs p - 1) hs) l ∅ (if b_refcount b - 1 <=? 0 then Some p else None))
    by (constructor; apply Hok || done).
  assert (Hsv1 : survives s s1) by (apply survives_same; [by eapply survivors_insert|done]).
  change (cwp (release_with (free_internal (size (ms_heap s))) (Some p))
    (fun _ s' => client_ok s' (set_handles p (hs p - 1) hs) /\ survives s s' /\
       forall b, ms_heap s !! p = Some b -> (ms_heap s' !! p = None <-> b_refcount b = 1)) s).
  unfold release_with. apply cwp_bind, cwp_wp, (wp_deref p b); [done|].
  apply cwp_bind, cwp_wp, (wp_update p _ b); [done|].
  rewrite Eb. fold s1. destruct (Z.eqb_spec (b_refcount b) 1) as [E|E].
  - rewrite (proj2 (Z.leb_le _ _)) in Hok1 by lia.
    apply list_elem_of_split in Hpl as (l1 & l2 & ->).
    eapply cwp_mono; [eapply (free_internal_ok _ s1 _ l1 p l2 ∅ b'); [exact Hok1|apply lookup_insert_eq|..]|].
    + subst b'. cbn. lia.
    + by intros d ?%elem_of_empty.
    + rewrite (inv_size _ _ _ _ _ _ _ I), length_app. cbn. lia.
    + intros ? s2 (l' & Hok2 & Hgone & Hsv2).
      split_and!; [by exists l'|by eapply survives_trans|]. intros b0 Hb0. simplify_eq. done.
  - rewrite (proj2 (Z.leb_gt _ _)) in Hok1 by lia. apply cwp_wp, wp_ret. split_and!; [by exists l|done|].
    intros b0 Hb0. simplify_eq. subst s1. cbn. rewrite lookup_insert_eq. done.
Qed.

Lemma retain_ok s hs p b :
  client_ok s hs -> 0 < hs p -> ms_heap s !! p = Some b -> b_refcount b < U32_MAX ->
  wp (mvgal_buffer_retain (Some p)) (fun _ s' => client_ok s' (set_handles p (hs p + 1) hs)) s.
Proof.
  intros [l Hok] Hp Hb Hmax. pose proof (mo_inv _ _ _ _ _ Hok) as I.
  pose proof (bo_alive _ _ _ _ _ _ _ (mi_ok _ _ _ _ _ _ _ I p b Hb ltac:(set_solver)) ltac:(done)).
  pose proof (inv_count _ _ _ _ _ p b (b_refcount b + 1) I Hb ltac:(lia) ltac:(lia)) as I1.
  replace (hs p + (b_refcount b + 1 - b_refcount b)) with (hs p + 1) in I1 by lia.
  rewrite (proj2 (Z.leb_gt _ _)) in I1 by lia.
  eapply wp_update; [exact Hb|]. exists l. constructor; [apply Hok..|].
  cbn [ms_heap ms_buffers ms_mem set_heap upd]. unfold counted in I1. cbn in I1 |- *.
  by rewrite u32_small by (unfold is_u32; lia).
Qed.

(** Attaching a parent and linking the new alias commute. *)
Lemma attach_pushed h a b q c first :
  q <> a -> h !! q = Some c ->
  exists c', pushed (<[a := b]> h) a first !! q = Some c' /\ relinked c c' /\
    pushed (<[q := attached_to a c]> (<[a := b]> h)) a first =
    <[q := attached_to a c']> (pushed (<[a := b]> h) a first).
Proof.
  intros Hne Hq. rewrite (insert_insert_ne _ q a) by done.
  set (f := if decide (first = Some q) then with_links (fun l => l <| lk_prev := Some a |>) else id).
  exists (f c). split_and!.
  - rewrite pushed_other, Hq by done. done.
  - subst f. case_decide; [by eexists _, _|apply relinked_refl].
  - apply map_eq. intros r. destruct (decide (r = q)) as [->|Hr].
    + rewrite lookup_insert_eq, pushed_other, lookup_insert_eq by done. subst f. cbn. by case_decide.
    + rewrite lookup_insert_ne by done. destruct (decide (r = a)) as [->|Hra].
      * unfold pushed. destruct first as [g|].
        -- rewrite !lookup_alter. by repeat case_decide; rewrite ?lookup_insert_eq.
        -- rewrite !lookup_alter. by repeat case_decide; rewrite ?lookup_insert_eq.
      * rewrite !pushed_other, lookup_insert_ne by done. done.
Qed.

Lemma create_alias_ok s hs p b offset size flags out :
  client_ok s hs -> 0 < hs p -> ms_heap s !! p = Some b -> b_refcount b < U32_MAX ->
  wp (mvgal_memory_create_alias (Some p) offset size flags out) (created hs) s.
Proof.
  intros Hc Hh Hb Hmax. unfold mvgal_memory_create_alias.
  assert (Herr : forall e s', e <> MVGAL_SUCCESS -> mem_step s s' -> created hs (e, None) s').
  { intros e s' He S. unfold created. destruct e; try done; split; try done; by eapply client_step. }
  destruct out; cbn [negb]; [|apply wp_ret; apply Herr; eauto with steps].
  apply wp_bind, (wp_deref p b); [done|]. cbn zeta.
  destruct (_ <=? offset); [apply wp_ret; apply Herr; eauto with steps|].
  destruct (_ <? u64 _); [apply wp_ret; apply Herr; eauto with steps|].
  destruct (Z.leb_spec 16 (lk_alias_count (b_links b))); [apply wp_ret; apply Herr; eauto with steps|].
  apply wp_bind, wp_sys. intros ok s1 S1 E1 _. destruct ok; cbn [negb]; [|apply wp_ret; by apply Herr].
  set (nb := alias_buffer p b offset _ flags).
  destruct (client_step _ _ _ S1 Hc) as [l [Hl Hi Hm I]]. rewrite (mst_heap _ _ S1) in I.
  assert (Hpl : p ∈ l) by (apply (mi_dom _ _ _ _ _ _ _ I); eauto).
  set (a := fresh (dom (ms_heap s))).
  apply wp_bind, (wp_intro _ _ _ a (set_heap (<[a := nb]> (ms_heap s)) s1)).
  { unfold new_buffer, set_heap. cbn. by rewrite (mst_heap _ _ S1). }
  assert (Ha : ms_heap s !! a = None) by apply not_elem_of_dom, is_fresh.
  assert (Hpa : p <> a) by congruence.
  assert (Hal : a ∉ l) by (intros Hin%(mi_dom _ _ _ _ _ _ _ I); rewrite Ha in Hin; by destruct Hin).
  pose proof (inv_push _ _ _ (cm_regs (ms_mem s1)) _ _ a nb I Ha ltac:(done) ltac:(done) ltac:(done)
    ltac:(by intros [])) as I1.
  destruct (attach_pushed (ms_heap s) a nb p b (ms_buffers s1) Hpa Hb) as (b' & Hb' & R & Epush).
  assert (Hna : pushed (<[a:=nb]> (ms_heap s)) a (ms_buffers s1) !! a =
    Some (with_links (fun l => l <| lk_next := ms_buffers s1 |>) nb)).
  { apply pushed_new. intros f Hf ->. rewrite (mi_first _ _ _ _ _ _ _ I) in Hf.
    by apply Hal, head_Some_elem_of. }
  apply wp_bind. eapply (wp_update p _ b); [cbn; by rewrite lookup_insert_ne|]. cbn [ms_heap set_heap upd].
  apply wp_bind. eapply (wp_update p); [apply lookup_insert_eq|]. cbn [ms_heap set_heap upd].
  apply wp_bind, wp_link_buffer; cbn [ms_locked ms_heap ms_buffers set_heap upd].
  - done.
  - rewrite !lookup_insert_ne, lookup_insert_eq by done. eauto.
  - intros f Hf. rewrite (mi_first _ _ _ _ _ _ _ I) in Hf. apply head_Some_elem_of in Hf.
    rewrite !lookup_insert_is_Some'. do 3 right. by apply (mi_dom _ _ _ _ _ _ _ I).
  - intros t. apply wp_ret. split; [|by apply (mi_handles _ _ _ _ _ _ _ I)].
    exists (a :: l). constructor; cbn [ms_locked ms_heap ms_buffers ms_initialized ms_mem set_heap upd].
    + done.
    + intros Hi'. specialize (Hi Hi'). subst l. by apply not_elem_of_nil in Hpl.
    + exact Hm.
    + change (mem_inv (pushed (<[p := attached_to a b]> (<[p := with_links (add_alias a) b]>
        (<[a := nb]> (ms_heap s)))) a (ms_buffers s1)) (Some a) (cm_regs (ms_mem s1))
        (set_handles a 1 hs) (a :: l) ∅ None).
      rewrite insert_insert_eq, Epush.
      destruct R as (n & v & ->).
      eapply (inv_attach _ _ _ _ _ _ _ _ _ I1 Hna); [by constructor|done|done|exact Hb'|done|done].
Qed.

(** ** Operations on one buffer *)

(** A change of a structure that concerns neither its lifetime nor its size,
    and gives it no storage. *)
Definition harmless (f : mvgal_buffer -> mvgal_buffer) : Prop :=
  forall b, b_links (f b) = b_links b /\ b_refcount (f b) = b_refcount b /\
    us_fence (b_usage (f b)) = us_fence (b_usage b) /\
    st_size (b_storage (f b)) = st_size (b_storage b) /\
    forall k r, holds k (f b) = Some r -> holds k b = Some r.

Lemma harmless_usage f :
  (forall u, us_fence (f u) = us_fence u) -> harmless (with_usage f).
Proof. intros Hf b. split_and!; try done. apply Hf. Qed.

Lemma update_buffer_ok p f s hs :
  client_ok s hs -> is_Some (ms_heap s !! p) -> harmless f ->
  wp (update p f) (fun _ s' => client_ok s' hs /\ is_Some (ms_heap s' !! p)) s.
Proof.
  intros [l [Hl Hi Hm I]] [b Hb] Hf. destruct (Hf b) as (E1 & E2 & E3 & E4 & E5).
  eapply wp_update; [exact Hb|]. cbn. split; [|rewrite lookup_insert_eq; eauto]. exists l.
  constructor; [done|done|done|]. cbn. eapply inv_update; [exact I|exact Hb|done|done| |done| |done].
  - rewrite E3. exact (mi_fence _ _ _ _ _ _ _ I p b Hb).
  - intros k r Hk. left. by apply E5.
Qed.

Lemma held_some s hs p : client_ok s hs -> 0 < hs p -> is_Some (ms_heap s !! p).
Proof. intros [l Hok] Hp. destruct (held_live _ _ _ _ _ _ Hok Hp) as (_ & b & Hb). eauto. Qed.

Definition fine (hs : addr -> Z) (p : addr) (s : mvgal_memory_state_t) : Prop :=
  client_ok s hs /\ is_Some (ms_heap s !! p).

Lemma wp_fine_deref {A : Type} p (f : mvgal_buffer -> MM A) Q s hs :
  fine hs p s -> (forall b, ms_heap s !! p = Some b -> wp (f b) Q s) -> wp (b ← deref p; f b) Q s.
Proof. intros [_ [b Hb]] Hf. apply wp_bind, (wp_deref p b); auto. Qed.

Lemma wp_fine_update {A : Type} p f (k : MM A) Q s hs :
  fine hs p s -> harmless f -> (forall s', fine hs p s' -> wp k Q s') -> wp (update p f;; k) Q s.
Proof.
  intros [Hc Hp] Hf Hk. apply wp_bind. eapply wp_mono; [by eapply update_buffer_ok|]. intros ? s' H'. by apply Hk.
Qed.

Lemma bind_ok p gpu w s hs :
  fine hs p s -> wp (mvgal_buffer_bind_to_gpu (Some p) gpu w) (fun _ s' => fine hs p s') s.
Proof.
  intros Hs. unfold mvgal_buffer_bind_to_gpu. destruct (_ <=? gpu); [by apply wp_ret|].
  apply wp_bind, wp_reads. destruct (_ <=? gpu); [by apply wp_ret|].
  eapply wp_fine_deref; [exact Hs|]. intros b Hb. cbn zeta.
  destruct (find_binding _ _ _) as [i|].
  - eapply wp_fine_update; [exact Hs|by apply harmless_usage|]. intros s' H'. by apply wp_ret.
  - eapply wp_fine_update; [exact Hs|by apply harmless_usage|]. intros s' H'.
    destruct (_ <? _); [|by apply wp_ret].
    eapply wp_fine_update; [exact H'| |]; [|intros s'' H''; by apply wp_ret].
    intros c. by split_and!.
Qed.

Lemma set_access_ok p gpu access s hs :
  fine hs p s -> wp (mvgal_memory_set_access (Some p) gpu access) (fun _ s' => fine hs p s') s.
Proof.
  intros Hs. unfold mvgal_memory_set_access. destruct (_ <=? gpu); [by apply wp_ret|].
  eapply wp_fine_update; [exact Hs|by apply harmless_usage|]. intros s1 H1.
  eapply wp_fine_deref; [exact H1|]. intros b Hb. cbn zeta. destruct (find_binding _ _ _) as [i|].
  - eapply wp_fine_update; [exact H1|by apply harmless_usage|]. intros s' H'. by apply wp_ret.
  - apply wp_bind. destruct (access =? 0); cbn [negb]; [by do 2 apply wp_ret|].
    apply wp_bind. eapply wp_mono; [by apply bind_ok|]. intros ? s2 H2. by do 2 apply wp_ret.
Qed.

Lemma replicate_ok p gpus s hs :
  fine hs p s -> wp (mvgal_buffer_replicate (Some p) gpus) (fun _ s' => fine hs p s') s.
Proof.
  intros Hs. unfold mvgal_buffer_replicate. destruct gpus as [[|i rest]|]; try by apply wp_ret.
  apply wp_bind. eapply wp_mono.
  { instantiate (1 := fun _ s' => fine hs p s'). generalize (i :: rest). intros l. revert s Hs.
    induction l as [|j l IH]; intros s Hs; cbn [bind_each]; [by apply wp_ret|].
    apply wp_bind. destruct (_ <=? j); [by apply wp_ret, IH|].
    apply wp_bind. eapply wp_mono; [by apply bind_ok|]. intros ? s' H'. by apply wp_ret, IH. }
  intros ? s' H'. eapply wp_fine_update; [exact H'|by apply harmless_usage|]. intros s'' H''. by apply wp_ret.
Qed.

Lemma fine_step hs p s s' : fine hs p s -> mem_step s s' -> fine hs p s'.
Proof.
  intros [Hc Hp] S. split; [by eapply client_step|]. by rewrite (mst_heap _ _ S).
Qed.

Lemma map_ok p offset size out s hs :
  fine hs p s ->
  (covered = true -> forall b, ms_heap s !! p = Some b -> is_mapped b = false ->
     st_dmabuf_owner (b_storage b) = true -> size = 0 \/ st_size (b_storage b) <= size) ->
  wp (mvgal_memory_map (Some p) offset size out) (fun _ s' => fine hs p s') s.
Proof.
  intros Hs Hlen. unfold mvgal_memory_map. destruct out; cbn [negb]; [|by apply wp_ret].
  eapply wp_fine_deref; [exact Hs|]. intros b Hb. cbn zeta. destruct (is_mapped b) eqn:Em; [by apply wp_ret|].
  destruct (Z.leb_spec 0 (st_dmabuf_fd (b_storage b))) as [Hfd|]; [|by destruct (negb _); apply wp_ret].
  apply wp_bind. unfold mvgal_dmabuf_map. rewrite (proj2 (Z.ltb_ge _ _)) by done.
  apply wp_bind. eapply wp_mono; [apply mmap_any|].
  intros [q|] s1 [S1 Hq]; [|apply wp_ret, wp_ret; by eapply fine_step].
  apply wp_ret. destruct Hq as [[Hn Hz (rg & Hr & Hsz & Hh & Hg)] _]. destruct Hs as [[l [Hl Hi Hm I]] _].
  apply wp_bind. eapply wp_update; [by rewrite (mst_heap _ _ S1)|]. apply wp_ret.
  split; [|cbn; rewrite lookup_insert_eq; eauto]. exists l.
  destruct S1 as [E1 E2 E3 E4 E5 E6]. constructor; cbn; [congruence|by rewrite E4|auto|].
  rewrite E1, E2. eapply inv_update; [exact I|exact Hb|done|done| |done| |].
  - exact (mi_fence _ _ _ _ _ _ _ I p b Hb).
  - intros [] r Hr'; [by left|]. right. unfold holds, maps in Hr'. cbn in Hr'.
    destruct (st_dmabuf_owner (b_storage b)) eqn:Eo; [|done].
    rewrite (proj2 (Z.leb_le _ _)) in Hr' by done. cbn in Hr'. simplify_eq. split; [done|]. exists rg.
    split; [done|]. constructor; try done. intros Hc _. apply spans_longer. cbn. rewrite Hsz.
    destruct (Hlen Hc b Hb Em Eo); [|case_match; lia]. subst size. cbn. lia.
  - intros ? c k r rg' _ _ Hrg. by apply E5.
Qed.

(** Unmapping a buffer unmaps as much as its size, whatever was mapped. *)
Lemma unmap_ok p s hs :
  fine hs p s -> cwp (mvgal_memory_unmap (Some p)) (fun _ s' => fine hs p s') s.
Proof.
  intros Hs. unfold mvgal_memory_unmap. pose proof Hs as [[l Hok] [b Hb]].
  apply cwp_bind, cwp_wp, (wp_deref p b); [done|]. cbn zeta.
  destruct (is_mapped b); [|by apply cwp_wp, wp_ret]. rewrite andb_comm.
  destruct (st_dmabuf_owner (b_storage b) && _) eqn:Eo; [|apply cwp_bind, cwp_wp, wp_ret, cwp_wp].
  - apply cwp_bind. eapply cwp_mono; [by eapply unmap_storage|]. intros u s1 (m' & -> & Hw & Hk).
    apply cwp_wp. eapply wp_update; [exact Hb|]. split; [|cbn; rewrite lookup_insert_eq; eauto]. exists l.
    destruct Hok as [Hl Hi Hm I]. constructor; [done|done|done|]. cbn.
    assert (Hn : forall c q, maps (with_storage (fun st => st <| st_host_ptr := None |>) c) = Some q -> False)
      by (intros c q; unfold maps; cbn; by case_match).
    eapply inv_update; [exact I|exact Hb|done|done| |done| |].
    + exact (mi_fence _ _ _ _ _ _ _ I p b Hb).
    + intros [] r Hr; [by left|]. by apply Hn in Hr.
    + intros q c k r rg Hq Hc Hr. refine (proj1 (Hk (fst r) _ rg Hr)). intros q' Hq' E.
      apply lookup_insert_Some in Hq as [[<- <-]|[Hne Hq]].
      * destruct k; [|by apply Hn in Hc].
        destruct (mi_owned _ _ _ _ _ _ _ I p b true r Hb Hc) as (? & H1 & [_ K1 _ _]).
        destruct (mi_owned _ _ _ _ _ _ _ I p b false q' Hb Hq') as (? & H2 & [_ K2 _ _]). congruence.
      * by apply Hne, (mi_unique _ _ _ _ _ _ _ I p q b c false k q' r).
  - eapply wp_mono; [eapply update_buffer_ok; [apply Hs|apply Hs|]|].
    + intros c. split_and!; try done. intros [] r; [done|]. unfold holds, maps. cbn. by case_match.
    + intros ? s2 H2. exact H2.
Qed.

Lemma export_ok p out s hs :
  fine hs p s -> wp (mvgal_dmabuf_export (Some p) out) (fun _ s' => fine hs p s') s.
Proof.
  intros Hs. unfold mvgal_dmabuf_export. destruct out; cbn [negb]; [|by apply wp_ret].
  eapply wp_fine_deref; [exact Hs|]. intros b Hb. cbn zeta. destruct (has_flag _ _); [by apply wp_ret|].
  destruct (us_backend (b_usage b)); try by apply wp_ret.
  all: eapply wp_fine_update; [exact Hs|by apply harmless_usage|]; intros s' H'; by apply wp_ret.
Qed.

Lemma register_ok p cb user s hs :
  fine hs p s -> wp (mvgal_memory_register_callback (Some p) cb user) (fun _ s' => fine hs p s') s.
Proof.
  intros Hs. unfold mvgal_memory_register_callback. destruct cb; [|by apply wp_ret].
  eapply wp_fine_update; [exact Hs|by apply harmless_usage|]. intros s' H'. by apply wp_ret.
Qed.

Lemma unregister_ok p cb s hs :
  fine hs p s -> wp (mvgal_memory_unregister_callback (Some p) cb) (fun _ s' => fine hs p s') s.
Proof.
  intros Hs. unfold mvgal_memory_unregister_callback. eapply wp_fine_deref; [exact Hs|]. intros b Hb.
  apply wp_bind. destruct (bool_decide _); [|by do 2 apply wp_ret].
  eapply wp_mono; [eapply update_buffer_ok; [apply Hs|apply Hs|by apply harmless_usage]|].
  intros ? s' H'. by apply wp_ret.
Qed.

End steps.

End operations.
