(* ===== verification/MemSafety.v ===== *)
(** * Safety of the memory manager

    Clients that use the buffers they hold references to, in any order: the
    only fault is an unmapping that reaches past a mapping made too short,
    buffers are freed exactly when their last user goes, and nothing is left
    when nobody holds a reference. *)

From S2P Require Import Prelude Float32 CString GpuTypes GpuManager GpuHealth SyncPrims CMem MemTypes Allocator MemoryApi MemLifetime MemClient.
Local Open Scope Z_scope.

(** ** Histories of clients *)

Inductive client_op : Type :=
| Op_allocate (info : option mvgal_memory_alloc_info_t) (out : bool)
| Op_allocate_simple (size flags : Z) (out : bool)
| Op_create_shared (size : Z) (gpus : option (list Z)) (out : bool)
| Op_wrap (p : option ptr) (size flags : Z) (out : bool)
| Op_alias (p : addr) (offset size flags : Z) (out : bool)
| Op_retain (p : addr)
| Op_free (p : addr)
| Op_map (p : addr) (offset size : Z) (out : bool)
| Op_unmap (p : addr)
| Op_bind (p : addr) (gpu : Z) (writable : bool)
| Op_set_access (p : addr) (gpu access : Z)
| Op_replicate (p : addr) (gpus : option (list Z))
| Op_export (p : addr) (out : bool)
| Op_register (p : addr) (callback user : option addr)
| Op_unregister (p : addr) (callback : option addr).

Definition subject (op : client_op) : option addr :=
  match op with
  | Op_allocate _ _ | Op_allocate_simple _ _ _ | Op_create_shared _ _ _ | Op_wrap _ _ _ _ => None
  | Op_alias p _ _ _ _ | Op_retain p | Op_free p | Op_map p _ _ _ | Op_unmap p | Op_bind p _ _
  | Op_set_access p _ _ | Op_replicate p _ | Op_export p _ | Op_register p _ _
  | Op_unregister p _ => Some p
  end.

(** A client may use a buffer it holds a reference to.  It must not take a
    reference when the 32-bit count is full. *)
Definition allowed (op : client_op) (s : mvgal_memory_state_t) (hs : addr -> Z) : Prop :=
  (forall p, subject op = Some p -> 0 < hs p) /\
  match op with
  | Op_alias p _ _ _ _ | Op_retain p => forall b, ms_heap s !! p = Some b -> b_refcount b < U32_MAX
  | _ => True
  end.

(** Unmapping and freeing a buffer unmap as many bytes as its size.  A careful
    client does not map a shared buffer it unmapped with less than that, and
    does not ask for a size that wraps around when it is rounded up to the
    alignment. *)
Definition careful (op : client_op) (s : mvgal_memory_state_t) : Prop :=
  match op with
  | Op_allocate (Some info) _ => unwrapped info
  | Op_map p _ size _ => forall b, ms_heap s !! p = Some b -> is_mapped b = false ->
      st_dmabuf_owner (b_storage b) = true -> size = 0 \/ st_size (b_storage b) <= size
  | _ => True
  end.

(** The mapping of the buffer is shorter than what unmapping it removes. *)
Definition overlong (s : mvgal_memory_state_t) (b : mvgal_buffer) : bool :=
  match maps b with
  | Some q =>
      match cm_regs (ms_mem s) !! fst q with
      | Some rg => negb (spans rg (st_size (b_storage b)))
      | None => false
      end
  | None => false
  end.

(** The calls that unmap. *)
Definition unmaps (op : client_op) : bool :=
  match op with Op_free _ | Op_unmap _ => true | _ => false end.

Section clients.
Context `{GpuOS} `{MemEnv}.

(** The buffer a successful call hands to its caller. *)
Definition handed (r : mvgal_error_t * option addr) : option addr :=
  match r with (MVGAL_SUCCESS, Some p) => Some p | _ => None end.

Definition run_op (op : client_op) : MM (option addr) :=
  match op with
  | Op_allocate info out => r ← mvgal_memory_allocate info out; mret (handed r)
  | Op_allocate_simple size flags out => r ← mvgal_memory_allocate_simple size flags out; mret (handed r)
  | Op_create_shared size gpus out => r ← mvgal_memory_create_shared size gpus out; mret (handed r)
  | Op_wrap p size flags out => r ← mvgal_memory_wrap p size flags out; mret (handed r)
  | Op_alias p offset size flags out =>
      r ← mvgal_memory_create_alias (Some p) offset size flags out; mret (handed r)
  | Op_retain p => mvgal_buffer_retain (Some p);; mret None
  | Op_free p => mvgal_memory_free (Some p);; mret None
  | Op_map p offset size out => mvgal_memory_map (Some p) offset size out;; mret None
  | Op_unmap p => mvgal_memory_unmap (Some p);; mret None
  | Op_bind p gpu w => mvgal_buffer_bind_to_gpu (Some p) gpu w;; mret None
  | Op_set_access p gpu access => mvgal_memory_set_access (Some p) gpu access;; mret None
  | Op_replicate p gpus => mvgal_memory_replicate (Some p) gpus;; mret None
  | Op_export p out => mvgal_memory_export_dmabuf (Some p) out;; mret None
  | Op_register p callback user => mvgal_memory_register_callback (Some p) callback user;; mret None
  | Op_unregister p callback => mvgal_memory_unregister_callback (Some p) callback;; mret None
  end.

(** The references clients hold after a call. *)
Definition account (op : client_op) (r : option addr) (hs : addr -> Z) : addr -> Z :=
  match op, r with
  | Op_retain p, _ => set_handles p (hs p + 1) hs
  | Op_free p, _ => set_handles p (hs p - 1) hs
  | _, Some p => set_handles p 1 hs
  | _, None => hs
  end.

Definition pristine (s : mvgal_memory_state_t) : Prop :=
  ms_initialized s = false /\ ms_locked s = false /\ ms_heap s = ∅ /\ ms_buffers s = None.

Inductive client_history : mvgal_memory_state_t -> (addr -> Z) -> Prop :=
| history_start s : pristine s -> client_history s (fun _ => 0)
| history_step s hs op r s' :
    client_history s hs -> allowed op s hs -> run_op op s = Ret (r, s') ->
    client_history s' (account op r hs).

(** The histories of careful clients whose process had its memory in order. *)
Inductive careful_history : mvgal_memory_state_t -> (addr -> Z) -> Prop :=
| careful_start s : pristine s -> mem_wf (ms_mem s) (ms_files s) -> careful_history s (fun _ => 0)
| careful_step s hs op r s' :
    careful_history s hs -> allowed op s hs -> careful op s -> run_op op s = Ret (r, s') ->
    careful_history s' (account op r hs).

Section invariant.
Context {care : Care}.

Lemma pristine_ok s :
  pristine s -> (orderly = true -> mem_wf (ms_mem s) (ms_files s)) -> client_ok s (fun _ => 0).
Proof.
  intros (Hi & Hl & Hh & Hb) Hm. exists []. constructor; [done|done|done|]. rewrite Hh, Hb.
  constructor; try done.
  - constructor.
  - intros p. rewrite lookup_empty. split; [by intros []|by intros ?%not_elem_of_nil].
  - by intros [|] q l2 E.
Qed.

Lemma created_ok m s hs :
  wp m (created hs) s ->
  wp (r ← m; mret (handed r)) (fun r s' => client_ok s' (match r with Some p => set_handles p 1 hs | None => hs end)) s.
Proof.
  intros Hm. apply wp_bind. eapply wp_mono; [exact Hm|]. intros [e [p|]] s' Hc; apply wp_ret;
    destruct e; cbn in *; naive_solver.
Qed.

Lemma fine_ok {A : Type} (m : MM A) s hs p :
  client_ok s hs -> 0 < hs p ->
  (fine hs p s -> wp m (fun _ s' => fine hs p s') s) ->
  wp (m;; mret (None : option addr)) (fun r s' => r = None /\ client_ok s' hs) s.
Proof.
  intros Hc Hp Hm. apply wp_bind. eapply wp_mono.
  - apply Hm. split; [done|by eapply held_some].
  - intros ? s' [H' _]. by apply wp_ret.
Qed.

(** The calls that do not unmap return. *)
Lemma run_other_ok op s hs :
  client_ok s hs -> allowed op s hs -> (covered = true -> careful op s) -> unmaps op = false ->
  wp (run_op op) (fun r s' => client_ok s' (account op r hs)) s.
Proof.
  intros Hc [Hh Hx] Hcare Hu.
  assert (Hf : forall (A : Type) (m : MM A) p, subject op = Some p ->
    (forall r, account op r hs = match r with Some q => set_handles q 1 hs | None => hs end) ->
    (fine hs p s -> wp m (fun _ s' => fine hs p s') s) ->
    wp (m;; mret None) (fun r s' => client_ok s' (account op r hs)) s).
  { intros A m p Hp Ha Hm. eapply wp_mono; [eapply fine_ok; [done|by apply Hh|exact Hm]|].
    intros r s' [-> H']. by rewrite Ha. }
  destruct op; cbn [run_op account]; try done.
  - eapply wp_mono; [apply created_ok, allocate_ok; [done|]|by intros []].
    intros Ht i ->. by apply Hcare.
  - eapply wp_mono; [apply created_ok|by intros []]. unfold mvgal_memory_allocate_simple.
    destruct (_ || _); [by apply wp_ret|]. apply allocate_ok; [done|]. intros _ i [= <-]. by apply unwrapped_unaligned.
  - eapply wp_mono; [apply created_ok|by intros []]. unfold mvgal_memory_create_shared.
    destruct gpus; [|by apply wp_ret]. destruct (_ || _); [by apply wp_ret|].
    apply allocate_ok; [done|]. intros _ i [= <-]. by apply unwrapped_unaligned.
  - eapply wp_mono; [by apply created_ok, wrap_ok|]. by intros [].
  - specialize (Hh p eq_refl). destruct (held_some _ _ _ Hc Hh) as [b Hb].
    eapply wp_mono; [eapply created_ok, create_alias_ok; eauto|]. by intros [].
  - specialize (Hh p eq_refl). destruct (held_some _ _ _ Hc Hh) as [b Hb].
    apply wp_bind. eapply wp_mono; [by eapply retain_ok; eauto|]. intros ? s' H'. by apply wp_ret.
  - apply (Hf _ _ p); [done|by intros []|]. intros Hs. by apply map_ok.
  - apply (Hf _ _ p); [done|by intros []|apply bind_ok].
  - apply (Hf _ _ p); [done|by intros []|apply set_access_ok].
  - apply (Hf _ _ p); [done|by intros []|apply replicate_ok].
  - apply (Hf _ _ p); [done|by intros []|apply export_ok].
  - apply (Hf _ _ p); [done|by intros []|apply register_ok].
  - apply (Hf _ _ p); [done|by intros []|apply unregister_ok].
Qed.

Lemma run_op_ok op s hs :
  client_ok s hs -> allowed op s hs -> (covered = true -> unmaps op = false -> careful op s) ->
  cwp (run_op op) (fun r s' => client_ok s' (account op r hs)) s.
Proof.
  intros Hc Ha Hcare. destruct (unmaps op) eqn:Hu; [|apply cwp_wp, run_other_ok; auto].
  destruct op; try done; specialize (proj1 Ha p eq_refl) as Hp; cbn [run_op]; apply cwp_bind.
  - eapply cwp_mono; [by apply release_buffer_ok|]. intros ? s' (H' & _). by apply cwp_wp, wp_ret.
  - eapply cwp_mono; [apply (unmap_ok p s hs); split; [done|by eapply held_some]|].
    intros ? s' [H' _]. by apply cwp_wp, wp_ret.
Qed.

End invariant.

Definition any_client : Care := {| covered := false; orderly := false |}.
Definition careful_client : Care := {| covered := true; orderly := true |}.
Definition covered_client : Care := {| covered := true; orderly := false |}.

Lemma history_ok s hs : client_history s hs -> client_ok (care := any_client) s hs.
Proof.
  induction 1 as [s Hs|s hs op r s' _ IH Ha Hr]; [by apply pristine_ok|].
  destruct (run_op_ok op s hs IH Ha) as [Hw|[_ E]]; [done|unfold wp in Hw; by rewrite Hr in Hw|congruence].
Qed.

Lemma careful_ok s hs : careful_history s hs -> client_ok (care := careful_client) s hs.
Proof.
  induction 1 as [s Hs Hm|s hs op r s' _ IH Ha Hc Hr]; [by apply pristine_ok|].
  destruct (run_op_ok op s hs IH Ha) as [Hw|[? _]]; [done|unfold wp in Hw; by rewrite Hr in Hw|done].
Qed.

(** A state in which no mapping is too short. *)
Lemma client_covered s hs :
  client_ok (care := any_client) s hs -> (forall p b, ms_heap s !! p = Some b -> overlong s b = false) ->
  client_ok (care := covered_client) s hs.
Proof.
  intros [l [Hl Hi Hm I]] Ho. exists l. constructor; try done. destruct I. constructor; try done.
  intros p b k q Hp Hq. destruct (mi_owned p b k q Hp Hq) as (rg & Hr & [B1 B2 B3 _]). exists rg.
  split; [done|]. constructor; try done. intros _ ->. specialize (Ho p b Hp). unfold overlong in Ho.
  cbn in Hq. rewrite Hq, Hr in Ho. by apply negb_false_iff in Ho.
Qed.

Lemma overlong_dec s :
  (exists p b, ms_heap s !! p = Some b /\ overlong s b = true) \/
  (forall p b, ms_heap s !! p = Some b -> overlong s b = false).
Proof.
  destruct (decide (map_Forall (fun _ b => overlong s b = false) (ms_heap s))) as [Hn|Hn]; [by right|].
  left. apply map_not_Forall in Hn as (p & b & Hp & Hb); [|apply _]. exists p, b.
  split; [done|]. by destruct (overlong s b).
Qed.

(** C2. What clients of the memory module can run into.  After any history of
    allocations, wraps, aliases, retains, frees, mappings and access changes
    in which clients use the buffers they hold references to, every further
    call a client may make returns, with one exception: none uses a freed
    structure, frees a block twice or one it does not own, waits for a lock
    it holds, or runs for ever along a chain of aliases.  The exception is
    that unmapping and freeing unmap as many bytes as the buffer's size,
    whatever was mapped: a free or an unmap can remove pages past a mapping
    that is shorter than its buffer.  After a careful history, in which memory
    was in order at the start, no client mapped a shared buffer again with
    less than its size, and none asked for a size that wraps around when it
    is rounded up to the alignment, every call returns. *)
Theorem memory_clients_safe s hs op :
  client_history s hs -> allowed op s hs ->
  match run_op op s with
  | Ret _ => True
  | Fault e => e = OverUnmap /\ unmaps op = true /\
      exists p b, ms_heap s !! p = Some b /\ overlong s b = true
  | NoFuel => False
  end /\
  (careful_history s hs -> exists r s', run_op op s = Ret (r, s')).
Proof.
  intros Hh Ha. apply history_ok in Hh. split.
  - destruct (unmaps op) eqn:Hu.
    2: { pose proof (run_other_ok op s hs Hh Ha ltac:(done) Hu) as Hw. unfold wp in Hw. by case_match. }
    destruct (overlong_dec s) as [Hx|Hx].
    + destruct (run_op_ok op s hs Hh Ha ltac:(done)) as [Hw|[_ ->]]; [|done].
      unfold wp in Hw. by case_match.
    + destruct (run_op_ok op s hs (client_covered s hs Hh Hx) Ha) as [Hw|[? _]]; [congruence| |done].
      unfold wp in Hw. by case_match.
  - intros Hc%careful_ok. destruct (unmaps op) eqn:Hu.
    + destruct (run_op_ok op s hs Hc Ha) as [Hw|[? _]]; [congruence| |done].
      destruct (wp_elim _ _ _ Hw) as (r & s' & E & _). eauto.
    + destruct (wp_elim _ _ _ (run_other_ok op s hs Hh Ha ltac:(done) Hu)) as (r & s' & E & _). eauto.
Qed.

(** A region of memory and the bytes behind it are the same in two states. *)
Definition same_memory (m m' : cmem) (r : positive) : Prop :=
  exists rg bytes, cm_regs m !! r = Some rg /\ cm_objs m !! rg_obj rg = Some bytes /\
    cm_regs m' !! r = Some rg /\ cm_objs m' !! rg_obj rg = Some bytes.

Lemma kept_same s s' hs l D x r rg :
  module_ok (care := careful_client) s hs l D x -> cm_regs (ms_mem s) !! r = Some rg ->
  kept (care := careful_client) (ms_mem s) (ms_mem s') r -> same_memory (ms_mem s) (ms_mem s') r.
Proof.
  intros Hok Hr Hk. destruct (Hk rg Hr) as [Hr' Ho].
  destruct (mw_objs _ _ (mo_mem _ _ _ _ _ Hok eq_refl) r rg Hr) as [bytes Hb].
  exists rg, bytes. split_and!; try done. by rewrite (Ho eq_refl).
Qed.

(** The count of a buffer reaches zero with its last user. *)
Lemma freed_when {care : Care} s hs l p (gone : Prop) :
  module_ok s hs l ∅ None -> 0 < hs p ->
  (forall b, ms_heap s !! p = Some b -> (gone <-> b_refcount b = 1)) ->
  gone <-> hs p = 1 /\ forall q, parent (ms_heap s) q <> Some p.
Proof.
  intros Hok Hp Hfr. destruct (held_live _ _ _ _ _ _ Hok Hp) as (_ & b & Hb). rewrite (Hfr b Hb).
  destruct (mi_ok _ _ _ _ _ _ _ (mo_inv _ _ _ _ _ Hok) p b Hb ltac:(set_solver))
    as [(qs & _ & _ & Hc & Hin) _ Hr _ _ _ _ _].
  split.
  - intros H1. assert (length qs = 0%nat) as ->%length_zero_iff_nil by lia. split; [cbn in Hc; lia|].
    intros q Hq. apply (not_elem_of_nil q), Hin. split; [done|set_solver].
  - intros [H1 Hno]. destruct qs as [|q qs]; [cbn in Hc; lia|]. exfalso.
    apply (Hno q). apply Hin. left.
Qed.

(** C15. A buffer is freed exactly with its last user, and nothing else is.
    After any careful history, a client that gives up a reference frees the
    buffer if and only if it was the last reference and the buffer has no
    alias.  Every buffer that is left keeps its storage and usage fields and
    its parent, the heap block or the mapping it owns is still there with the
    same bytes, and so is every region of memory that belonged to no
    buffer. *)
Theorem memory_freed_iff s hs p :
  careful_history s hs -> 0 < hs p ->
  exists s', mvgal_memory_free (Some p) s = Ret (tt, s') /\ survivors (ms_heap s) (ms_heap s') /\
    (ms_heap s' !! p = None <-> hs p = 1 /\ forall q, parent (ms_heap s) q <> Some p) /\
    (forall q b r, ms_heap s' !! q = Some b -> claims b r -> same_memory (ms_mem s) (ms_mem s') r) /\
    (forall r, is_Some (cm_regs (ms_mem s) !! r) -> (forall q b, ms_heap s !! q = Some b -> ~ claims b r) ->
       same_memory (ms_mem s) (ms_mem s') r).
Proof.
  intros Hh Hp. apply careful_ok in Hh.
  destruct (release_buffer_ok s hs p Hh Hp) as [Hw|[? _]]; [|done].
  destruct (wp_elim _ _ _ Hw) as ([] & s' & E & _ & [Hsv Hmem] & Hfr). destruct Hh as [l Hok].
  exists s'. split_and!; [done|done|by eapply freed_when|..]; pose proof (mo_inv _ _ _ _ _ Hok) as I.
  - intros q b r Hq (k & a & Ha & <-). destruct (Hsv q b Hq) as (b0 & Hb0 & Est & _).
    rewrite (holds_storage k _ _ Est) in Ha.
    destruct (mi_owned _ _ _ _ _ _ _ I q b0 k a Hb0 Ha) as (rg & Hr & _).
    eapply kept_same; [exact Hok|exact Hr|]. apply Hmem. intros q' b' Hq' (k' & a' & Ha' & Ea).
    rewrite (mi_unique _ _ _ _ _ _ _ I q' q b' b0 k' k a' a Hq' Hb0 Ha' Ha Ea). eauto.
  - intros r [rg Hr] Hn. eapply kept_same; [exact Hok|exact Hr|]. apply Hmem.
    intros q b Hq Hc. by destruct (Hn q b Hq).
Qed.

(** C25. Nothing leaks.  When, after any history, no client holds a reference
    any more, no buffer is left, however the buffers were aliased. *)
Theorem memory_no_leak s hs :
  client_history s hs -> (forall p, hs p = 0) -> ms_heap s = ∅ /\ ms_buffers s = None.
Proof.
  intros [l [_ _ _ I]]%history_ok Hz.
  assert (l = []) as ->.
  { destruct l as [|p l]; [done|]. exfalso.
    destruct (mi_live _ _ _ _ _ _ _ p I ltac:(left)) as (b & Hb).
    destruct (mi_ok _ _ _ _ _ _ _ I p b Hb ltac:(set_solver)) as [(qs & _ & _ & Hc & Hin) _ Hr _ Hal _ _ _].
    specialize (Hal ltac:(done)). rewrite Hz in Hr. destruct qs as [|q qs]; [cbn in Hc; lia|].
    destruct (Hin q) as [Hq _]. destruct (Hq ltac:(left)) as [Hq' _].
    by eapply head_childless. }
  split; [|apply I]. apply map_eq. intros p. rewrite lookup_empty.
  destruct (ms_heap s !! p) eqn:E; [|done]. exfalso. apply (not_elem_of_nil p), (mi_dom _ _ _ _ _ _ _ I). eauto.
Qed.

End clients.
