(* ===== verification/MemData.v ===== *)
(** * Data in buffers

    What clients see of the bytes of a buffer: an array that writes change,
    that reads return, and that an alias shares with its parent. *)

From S2P Require Import Prelude Float32 CString GpuTypes GpuManager GpuHealth SyncPrims CMem MemTypes Allocator MemoryApi MemLifetime MemClient.
Local Open Scope Z_scope.

(** ** The array of a buffer *)

(** [size] bytes at a pointer, when they lie in one live region and none of
    them was unmapped. *)
Definition bytes_at (m : cmem) (q : option ptr) (size : Z) : option (list Z) :=
  match q with
  | None => None
  | Some (r, o) =>
      rg ← cm_regs m !! r;
      obj ← cm_objs m !! rg_obj rg;
      if (0 <=? o) && (0 <=? rg_base rg) && (0 <=? size) && (o + size <=? rg_size rg)
         && (rg_base rg + rg_size rg <=? Z.of_nat (length obj)) && intact rg o size
      then Some (slice (rg_base rg + o) size obj) else None
  end.

(** The specification's view of a buffer. *)
Definition contents (s : mvgal_memory_state_t) (p : addr) : option (list Z) :=
  b ← ms_heap s !! p; bytes_at (ms_mem s) (st_host_ptr (b_storage b)) (st_size (b_storage b)).

(** The object a buffer's bytes are in. *)
Definition object_of (s : mvgal_memory_state_t) (p : addr) : option positive :=
  b ← ms_heap s !! p; q ← st_host_ptr (b_storage b);
  rg ← cm_regs (ms_mem s) !! fst q; Some (rg_obj rg).

Lemma bytes_at_window m q size cs :
  bytes_at m q size = Some cs <->
  exists q' rg obj, q = Some q' /\ window m q' size rg obj /\ 0 <= size /\
    cs = slice (rg_base rg + snd q') size obj.
Proof.
  unfold bytes_at. destruct q as [[r o]|]; [|naive_solver]. split.
  - destruct (cm_regs m !! r) as [rg|] eqn:Hr; [|done]. cbn.
    destruct (cm_objs m !! rg_obj rg) as [obj|] eqn:Ho; [|done]. cbn.
    case_match eqn:E; [|done]. intros ?. simplify_eq.
    rewrite !andb_true_iff, !Z.leb_le in E.
    exists (r, o), rg, obj. split_and!; [done|constructor; cbn; try done; try lia; apply E|lia|done].
  - intros (q' & rg & obj & [= <-] & [Hr Ho [? ?] ? Hi ?] & ? & ->). cbn in *. rewrite Hr. cbn. rewrite Ho. cbn.
    case_match eqn:E; [done|]. rewrite Hi, !andb_false_iff, !Z.leb_gt in E. naive_solver lia.
Qed.

Lemma window_length m q size rg obj :
  window m q size rg obj -> 0 <= size -> length (slice (rg_base rg + snd q) size obj) = Z.to_nat size.
Proof. intros [? ? [? ?] ? ? ?] ?. apply slice_length; lia. Qed.

Lemma slice_slice i n j k l :
  0 <= i -> 0 <= j -> j + k <= n -> slice j k (slice i n l) = slice (i + j) k l.
Proof.
  intros. apply list_eq. intros x. rewrite !lookup_slice by lia. case_decide; [|done].
  rewrite decide_True by lia. f_equal. lia.
Qed.

Lemma slice_splice_in i n j bs l :
  0 <= i -> 0 <= j -> j + Z.of_nat (length bs) <= n -> i + n <= Z.of_nat (length l) ->
  slice i n (splice (i + j) bs l) = splice j bs (slice i n l).
Proof.
  intros. apply list_eq. intros x. rewrite lookup_slice by done.
  rewrite (lookup_splice j) by (try rewrite slice_length; lia).
  rewrite lookup_splice, lookup_slice by lia.
  repeat case_decide; try lia; try done; f_equal; lia.
Qed.

(** A buffer as [size] bytes at [q], in region [rg] of an object holding [obj]. *)
Record view (s : mvgal_memory_state_t) (p : addr) (q : ptr) (size : Z) (rg : region) (obj : list Z) : Prop := {
  vw_buffer : exists b, ms_heap s !! p = Some b /\ st_host_ptr (b_storage b) = Some q /\ st_size (b_storage b) = size;
  vw_window : window (ms_mem s) q size rg obj;
  vw_size : 0 <= size
}.

Lemma contents_view s p cs :
  contents s p = Some cs <->
  exists q size rg obj, view s p q size rg obj /\ cs = slice (rg_base rg + snd q) size obj.
Proof.
  unfold contents. destruct (ms_heap s !! p) as [b|] eqn:Hb; cbn.
  - rewrite bytes_at_window. split.
    + intros (q & rg & obj & Hq & W & Hz & ->). exists q, (st_size (b_storage b)), rg, obj.
      split; [|done]. constructor; eauto.
    + intros (q & size & rg & obj & [(b' & Hb' & Hq & <-) W Hz] & ->). simplify_eq. exists q, rg, obj. done.
  - split; [done|]. intros (q & size & rg & obj & [(b' & Hb' & _) _ _] & _). congruence.
Qed.

Lemma view_bounds s p q size rg obj :
  view s p q size rg obj ->
  0 <= rg_base rg + snd q /\ rg_base rg + snd q + size <= Z.of_nat (length obj) /\ 0 <= size /\
  Z.of_nat (length (slice (rg_base rg + snd q) size obj)) = size.
Proof. intros [_ [? ? [? ?] ? ? ?] ?]. rewrite slice_length; lia. Qed.

Lemma view_object s p q size rg obj : view s p q size rg obj -> object_of s p = Some (rg_obj rg).
Proof.
  intros [(b & Hb & Hq & _) W _]. unfold object_of. rewrite Hb. cbn. rewrite Hq. cbn.
  by rewrite (wn_region _ _ _ _ _ W).
Qed.

Section data.
Context `{GpuOS} `{MemEnv}.

(** A call that only touches counters of buffers, and bytes. *)
Definition same_storage (s s' : mvgal_memory_state_t) : Prop :=
  forall p, b_storage <$> ms_heap s' !! p = b_storage <$> ms_heap s !! p.

Lemma same_storage_insert s p b f m :
  ms_heap s !! p = Some b ->
  same_storage s (s <| ms_mem := m |> <| ms_heap := <[p := with_usage f b]> (ms_heap s) |>).
Proof.
  intros Hb k. cbn. destruct (decide (k = p)) as [->|]; [by rewrite lookup_insert_eq, Hb|].
  by rewrite lookup_insert_ne.
Qed.

Lemma contents_same s s' p :
  same_storage s s' ->
  contents s' p = b ← ms_heap s !! p; bytes_at (ms_mem s') (st_host_ptr (b_storage b)) (st_size (b_storage b)).
Proof.
  intros E. specialize (E p). unfold contents.
  destruct (ms_heap s !! p), (ms_heap s' !! p); cbn in *; try done. simplify_eq. congruence.
Qed.

Lemma prepare_backed s p b q offset size :
  ms_heap s !! p = Some b -> st_host_ptr (b_storage b) = Some q ->
  0 <= offset -> 0 <= size -> offset + size <= st_size (b_storage b) -> st_size (b_storage b) <= U64_MAX ->
  prepare_access p offset size s = Ret (MVGAL_SUCCESS, s).
Proof.
  intros Hb Hq Ho Hs Hr Hm. unfold prepare_access.
  unfold deref, mbind, M_bind, mret, M_ret. rewrite Hb, Hq. rewrite bool_decide_false by done.
  rewrite andb_false_r. cbn [is_success negb]. rewrite Hb.
  unfold u64. rewrite Z.mod_small by (unfold U64_MAX in Hm; lia).
  rewrite (proj2 (Z.ltb_ge _ _)) by lia. done.
Qed.

Lemma view_same s s' p q size rg obj obj' :
  same_storage s s' -> view s p q size rg obj -> window (ms_mem s') q size rg obj' -> view s' p q size rg obj'.
Proof.
  intros Hs [(b & Hb & Hq & Hz) _ ?] W. constructor; [|done|done]. specialize (Hs p).
  destruct (ms_heap s' !! p) as [b'|]; rewrite Hb in Hs; [|done]. injection Hs as Hs. exists b'.
  by rewrite Hs.
Qed.

(** What a write through one buffer does to every buffer on the same object. *)
Lemma write_effect s p q size rg obj offset bytes :
  view s p q size rg obj -> size <= U64_MAX ->
  0 <= offset -> bytes <> [] -> offset + Z.of_nat (length bytes) <= size ->
  let obj' := splice (rg_base rg + snd q + offset) bytes obj in
  exists s', mvgal_memory_write (Some p) offset (Some bytes) s = Ret (MVGAL_SUCCESS, s') /\
    same_storage s s' /\ ms_mem s' = set_object (rg_obj rg) obj' (ms_mem s) /\
    forall k q' size', view s k q' size' rg obj -> view s' k q' size' rg obj'.
Proof.
  intros V Hm Ho Hne Hr obj'. pose proof V as [(b & Hb & Hq & Hz) W _]. unfold mvgal_memory_write.
  assert (Hpos : 0 < Z.of_nat (length bytes)) by (destruct bytes; [done|cbn; lia]).
  rewrite (proj2 (Z.eqb_neq _ _)) by lia.
  erewrite bind_ret by (eapply prepare_backed; eauto; lia). cbn [is_success negb].
  unfold deref, update, on_mem, mbind, M_bind, mret, M_ret. rewrite Hb, Hq.
  rewrite (window_store _ _ _ _ _ _ _ W Ho Hne Hr).
  change (ms_heap (s <| ms_mem := ?m |>)) with (ms_heap s). rewrite Hb.
  eexists. split; [reflexivity|].
  pose proof (same_storage_insert s p b (fun u => u <| us_bytes_written ::= fun n => u64 (n + Z.of_nat (length bytes)) |>)
    (set_object (rg_obj rg) obj' (ms_mem s)) Hb) as Hs.
  split_and!; [exact Hs|reflexivity|]. intros k q' size' V'. eapply view_same; [exact Hs|done|].
  pose proof (window_stored _ _ _ _ _ _ _ _ _ _ _ W (vw_window _ _ _ _ _ _ V') Ho Hr) as W'.
  by rewrite decide_True in W' by done.
Qed.

Lemma read_effect s p q size rg obj offset n :
  view s p q size rg obj -> size <= U64_MAX -> 0 <= offset -> 0 < n -> offset + n <= size ->
  exists s', mvgal_memory_read (Some p) offset n true s =
      Ret ((MVGAL_SUCCESS, Some (slice (rg_base rg + snd q + offset) n obj)), s') /\
    same_storage s s' /\ ms_mem s' = ms_mem s.
Proof.
  intros [(b & Hb & Hq & Hz) W _] Hm Ho Hpos Hr. unfold mvgal_memory_read. cbn [negb orb].
  rewrite (proj2 (Z.eqb_neq _ _)) by lia.
  erewrite bind_ret by (eapply prepare_backed; eauto; lia). cbn [is_success negb].
  unfold deref, update, on_mem, mbind, M_bind, mret, M_ret. rewrite Hb, Hq.
  rewrite (window_load _ _ _ _ _ _ _ W Ho Hpos Hr).
  change (ms_heap (s <| ms_mem := ?m |>)) with (ms_heap s). rewrite Hb.
  eexists. split; [reflexivity|]. split; [|reflexivity]. exact (same_storage_insert s p b _ _ Hb).
Qed.

(** Buffers on other objects keep their bytes. *)
Lemma other_object s s' p o bytes :
  same_storage s s' -> ms_mem s' = set_object o bytes (ms_mem s) -> object_of s p <> Some o ->
  contents s' p = contents s p.
Proof.
  intros Hs Hm Ho. rewrite (contents_same _ _ _ Hs), Hm. unfold contents, object_of in *.
  destruct (ms_heap s !! p) as [b|]; [|done]. cbn in *.
  destruct (st_host_ptr (b_storage b)) as [[r z]|]; [|done]. cbn in *.
  destruct (cm_regs (ms_mem s) !! r) as [rg|]; [|done]. cbn in *.
  rewrite lookup_insert_ne; [done|congruence].
Qed.


(** ** Aliases *)

(** Calls that leave storage and bytes alone. *)
Definition quiet {A : Type} (m : MM A) : Prop :=
  forall s r s', m s = Ret (r, s') -> same_storage s s' /\ ms_mem s' = ms_mem s.

Lemma quiet_bind {A B : Type} (m : MM A) (f : A -> MM B) :
  quiet m -> (forall a, quiet (f a)) -> quiet (m ≫= f).
Proof.
  intros Hm Hf s r s' E. unfold mbind, M_bind in E. destruct (m s) as [[a s1]| |] eqn:Em; try done.
  destruct (Hm _ _ _ Em) as [S1 M1]. destruct (Hf _ _ _ _ E) as [S2 M2].
  split; [|congruence]. intros p. by rewrite S2, S1.
Qed.

Lemma quiet_modify f :
  (forall s, ms_heap (f s) = ms_heap s /\ ms_mem (f s) = ms_mem s) -> quiet (modify f).
Proof. intros Hf s r s' [= <- <-]. destruct (Hf s) as [E1 E2]. split; [|done]. intros p. by rewrite E1. Qed.

Lemma quiet_ret {A : Type} (a : A) : quiet (mret a).
Proof. by intros s r s' [= <- <-]. Qed.

Lemma quiet_reads {A : Type} (f : mvgal_memory_state_t -> A) : quiet (reads f).
Proof. by intros s r s' [= <- <-]. Qed.

Lemma quiet_update p f : (forall b, b_storage (f b) = b_storage b) -> quiet (update p f).
Proof.
  intros Hf s r s' E. unfold update in E. destruct (ms_heap s !! p) as [b|] eqn:Hb; [|done].
  injection E as <- <-. split; [|done]. intros k. cbn.
  destruct (decide (k = p)) as [->|]; [rewrite lookup_insert_eq, Hb; cbn; by rewrite Hf|].
  by rewrite lookup_insert_ne.
Qed.

Lemma quiet_link a total : quiet (link_buffer a total).
Proof.
  unfold link_buffer. apply quiet_bind.
  { intros s r s' E. unfold lock in E. destruct (ms_locked s); [done|]. injection E as <- <-. done. }
  intros _. apply quiet_bind; [apply quiet_reads|]. intros head.
  apply quiet_bind; [by apply quiet_update|]. intros _.
  apply quiet_bind; [destruct head; [by apply quiet_update|apply quiet_ret]|]. intros _.
  apply quiet_bind; [by apply quiet_modify|]. intros _. by apply quiet_modify.
Qed.

(** What a successful alias request leaves behind. *)
Lemma create_alias_effect s p b offset size flags a s' :
  ms_heap s !! p = Some b ->
  mvgal_memory_create_alias (Some p) offset size flags true s = Ret ((MVGAL_SUCCESS, Some a), s') ->
  let n := if size =? 0 then st_size (b_storage b) - offset else size in
  offset < st_size (b_storage b) /\ u64 (offset + n) <= st_size (b_storage b) /\
  ms_heap s !! a = None /\ ms_mem s' = ms_mem s /\
  forall k, b_storage <$> ms_heap s' !! k =
    if decide (k = a) then Some (b_storage (alias_buffer p b offset n flags))
    else b_storage <$> ms_heap s !! k.
Proof.
  intros Hb E n. unfold mvgal_memory_create_alias in E. cbn [negb] in E.
  unfold mbind at 1, M_bind at 1, deref at 1 in E. rewrite Hb in E.
  destruct (Z.leb_spec (st_size (b_storage b)) offset) as [|Hlt]; [done|].
  destruct (Z.ltb_spec (st_size (b_storage b)) (u64 (offset + n))) as [|Hle];
    [fold n in E; by rewrite (proj2 (Z.ltb_lt _ _)) in E by done|].
  fold n in E. rewrite (proj2 (Z.ltb_ge _ _)) in E by done.
  destruct (16 <=? _); [done|]. unfold mbind at 1, M_bind at 1, sys in E.
  destruct (sys_ok Calloc (ms_ticks s)); cbn [negb] in E; [|done].
  unfold mbind at 1, M_bind at 1, new_buffer in E. cbn zeta in E.
  set (s1 := s <| ms_ticks ::= S |>) in E.
  set (q := fresh (dom (ms_heap s1))) in E.
  set (s2 := s1 <| ms_heap ::= _ |>) in E.
  assert (Hq : ms_heap s !! q = None) by (apply not_elem_of_dom; unfold q; apply is_fresh).
  match type of E with ?m s2 = _ => assert (Hm : quiet m) end.
  { apply quiet_bind; [by apply quiet_update|]. intros _. apply quiet_bind; [by apply quiet_update|].
    intros _. apply quiet_bind; [apply quiet_link|]. intros _. apply quiet_ret. }
  assert (a = q) as -> by (by repeat (apply bind_inv in E as (? & ? & _ & E)); injection E).
  destruct (Hm _ _ _ E) as [Hs Hmem]. split_and!; [done|done|done|done|].
  intros k. rewrite Hs. cbn. case_decide as Ek; [subst k; by rewrite lookup_insert_eq|].
  by rewrite lookup_insert_ne.
Qed.

Lemma storage_some s p st :
  b_storage <$> ms_heap s !! p = Some st -> exists b, ms_heap s !! p = Some b /\ b_storage b = st.
Proof. destruct (ms_heap s !! p) as [b|]; [|done]. intros [= <-]. eauto. Qed.

Lemma create_alias_view s p r z psize rg obj offset size flags a s' :
  view s p (r, z) psize rg obj -> 0 <= offset -> 0 < size -> offset + size <= U64_MAX ->
  mvgal_memory_create_alias (Some p) offset size flags true s = Ret ((MVGAL_SUCCESS, Some a), s') ->
  offset + size <= psize /\
  view s' p (r, z) psize rg obj /\ view s' a (r, z + offset) size rg obj.
Proof.
  intros [(b & Hb & Hq & Hz) W ?] Ho Hsz Hov E.
  destruct (create_alias_effect _ _ _ _ _ _ _ _ Hb E) as (Hlt & Hle & Hfresh & Hmem & Hst).
  rewrite (proj2 (Z.eqb_neq _ _)) in Hle, Hst by lia.
  rewrite u64_small in Hle by (unfold is_u64; lia).
  destruct (storage_some s' a _ ltac:(by rewrite Hst, decide_True)) as (ba & Hba & Ea).
  destruct (storage_some s' p (b_storage b) ltac:(rewrite Hst, decide_False, Hb by congruence; done))
    as (bp & Hbp & Ep).
  split; [lia|]. rewrite <- Hmem in W. split.
  - constructor; [|done|done]. exists bp. by rewrite Ep.
  - constructor; [|destruct W; constructor; cbn in *; (done || lia || by apply (intact_within rg z psize); [done|lia..])|lia].
    exists ba. rewrite Ea. cbn. by rewrite Hq.
Qed.

(** An alias shares the memory of its parent.  When a request for an
    alias of a range succeeds, the alias shows the bytes of that range, and
    a write through the alias is seen through the parent at the shifted
    offset, and only there. *)
Theorem alias_shares_memory s p cs offset size flags a s' :
  contents s p = Some cs -> Z.of_nat (length cs) <= U64_MAX ->
  0 <= offset -> 0 < size -> offset + size <= U64_MAX ->
  mvgal_memory_create_alias (Some p) offset size flags true s = Ret ((MVGAL_SUCCESS, Some a), s') ->
  contents s' a = Some (slice offset size cs) /\ contents s' p = Some cs /\
  forall o bytes, 0 <= o -> bytes <> [] -> o + Z.of_nat (length bytes) <= size ->
    exists s'', mvgal_memory_write (Some a) o (Some bytes) s' = Ret (MVGAL_SUCCESS, s'') /\
      contents s'' a = Some (splice o bytes (slice offset size cs)) /\
      contents s'' p = Some (splice (offset + o) bytes cs).
Proof.
  intros ([r z] & psize & rg & obj & V & ->)%contents_view Hm Ho Hsz Hov E.
  pose proof (view_bounds _ _ _ _ _ _ V) as (? & ? & ? & Hl). rewrite Hl in *. cbn [snd] in *.
  destruct (create_alias_view _ _ _ _ _ _ _ _ _ _ _ _ V Ho Hsz Hov E) as (Hle & Vp & Va).
  split_and!.
  - apply contents_view. exists (r, z + offset), size, rg, obj. split; [done|]. cbn.
    rewrite slice_slice by lia. f_equal. lia.
  - apply contents_view. by exists (r, z), psize, rg, obj.
  - intros o bytes Hlo Hne Hhi.
    destruct (write_effect s' a _ size rg obj o bytes Va ltac:(lia) Hlo Hne Hhi) as (s'' & E' & _ & _ & Hv).
    exists s''. split_and!; [done| |]; apply contents_view.
    + eexists _, _, _, _. split; [exact (Hv _ _ _ Va)|]. cbn.
      rewrite slice_splice_in by lia. rewrite slice_slice by lia. do 2 f_equal. lia.
    + eexists _, _, _, _. split; [exact (Hv _ _ _ Vp)|]. cbn.
      replace (rg_base rg + (z + offset) + o) with (rg_base rg + z + (offset + o)) by lia.
      rewrite slice_splice_in by lia. done.
Qed.

End data.
