(* ===== verification/MemAlloc.v ===== *)
(** * Allocation

    What a request for a buffer gives its caller: memory of the size asked
    for that nobody else uses, or an error and a state as before. *)

From S2P Require Import Prelude Float32 CString GpuTypes GpuManager GpuHealth SyncPrims CMem MemTypes Allocator MemoryApi MemLifetime MemClient MemData.
Local Open Scope Z_scope.

(** ** Alignment *)

Lemma ldiff_sub a b : Z.ldiff a b = a - Z.land a b.
Proof.
  rewrite Z.sub_nocarry_ldiff; apply Z.bits_inj'; intros n Hn;
    rewrite ?Z.ldiff_spec, ?Z.land_spec, ?Z.bits_0; by destruct (Z.testbit a n), (Z.testbit b n).
Qed.

Lemma land_upper a b : 0 <= b -> 0 <= Z.land a b <= b.
Proof.
  intros Hb. split; [apply Z.land_nonneg; by right|].
  pose proof (ldiff_sub b a) as E. rewrite Z.land_comm.
  assert (0 <= Z.ldiff b a) by (apply Z.ldiff_nonneg; by left). lia.
Qed.

Lemma u64_high_bits y n : is_u64 y -> 64 <= n -> Z.testbit y n = false.
Proof.
  unfold is_u64, U64_MAX. intros Hy Hn. destruct (Z.eq_dec y 0) as [->|]; [apply Z.bits_0|].
  apply Z.bits_above_log2; [lia|]. apply Z.log2_lt_pow2; [lia|].
  assert (2 ^ 64 <= 2 ^ n) by (apply Z.pow_le_mono_r; lia). lia.
Qed.

(** Rounding up never gives less than the size, whatever the alignment. *)
Lemma align_size_ge size alignment :
  0 <= size -> 0 <= alignment -> size + alignment <= U64_MAX + 1 ->
  size <= align_size size alignment < size + Z.max 1 alignment.
Proof.
  intros Hs Ha Hm. unfold align_size. destruct (Z.ltb_spec 0 alignment); [|lia].
  set (y := size + alignment - 1). set (k := alignment - 1).
  assert (Hy : is_u64 y) by (unfold is_u64; lia). rewrite (u64_small y Hy).
  assert (El : Z.land y (u64 (Z.lnot k)) = Z.ldiff y k).
  { apply Z.bits_inj'. intros n Hn. rewrite Z.land_spec, Z.ldiff_spec. unfold u64.
    destruct (Z.ltb_spec n 64) as [Hlt|Hge]; [|by rewrite (u64_high_bits y n Hy Hge)].
    change 18446744073709551616 with (2 ^ 64). by rewrite Z.mod_pow2_bits_low, Z.lnot_spec by lia. }
  rewrite El, ldiff_sub. pose proof (land_upper y k ltac:(lia)). lia.
Qed.

Lemma align_size_nonneg size alignment : 0 <= size -> 0 <= align_size size alignment.
Proof.
  intros Hs. unfold align_size. destruct (0 <? alignment); [|done].
  apply Z.land_nonneg. left. unfold u64. by apply Z.mod_pos_bound.
Qed.

(** ** Fresh memory *)

(** What was there before is still there. *)
Record extends (m m' : cmem) : Prop := {
  ex_regs : forall r rg, cm_regs m !! r = Some rg -> cm_regs m' !! r = Some rg;
  ex_objs : forall o bytes, cm_objs m !! o = Some bytes -> cm_objs m' !! o = Some bytes
}.

Lemma extends_refl m : extends m m.
Proof. by constructor. Qed.

Lemma extends_trans m m' m'' : extends m m' -> extends m' m'' -> extends m m''.
Proof. intros [] []. constructor; auto. Qed.

(** [q] is the start of [size] bytes that were not there. *)
Record fresh_at (m m' : cmem) (q : ptr) (size : Z) (rg : region) (obj : list Z) : Prop := {
  fa_window : window m' q size rg obj;
  fa_start : rg_base rg + snd q = 0 /\ size = Z.of_nat (length obj);
  fa_object : cm_objs m !! rg_obj rg = None;
  fa_extends : extends m m'
}.

(** The parts of the module an allocation must not disturb. *)
Record calm (s s' : mvgal_memory_state_t) : Prop := {
  ca_heap : ms_heap s' = ms_heap s;
  ca_buffers : ms_buffers s' = ms_buffers s;
  ca_total : ms_total_allocated s' = ms_total_allocated s;
  ca_locked : ms_locked s' = ms_locked s
}.

(** Nothing a client can see has changed: buffers, mappings or open files. *)
Record untouched (s s' : mvgal_memory_state_t) : Prop := {
  ut_calm : calm s s';
  ut_regs : cm_regs (ms_mem s') = cm_regs (ms_mem s);
  ut_extends : extends (ms_mem s) (ms_mem s');
  ut_files : ms_files s' = ms_files s
}.

Lemma calm_refl s : calm s s.
Proof. by constructor. Qed.

Lemma calm_trans s s' s'' : calm s s' -> calm s' s'' -> calm s s''.
Proof. intros [] []. constructor; congruence. Qed.

Lemma untouched_refl s : untouched s s.
Proof. constructor; [apply calm_refl|done|apply extends_refl|done]. Qed.

Lemma untouched_trans s s' s'' : untouched s s' -> untouched s' s'' -> untouched s s''.
Proof. intros [? ? ? ?] [? ? ? ?]. constructor; [by eapply calm_trans|congruence|by eapply extends_trans|congruence]. Qed.

Create HintDb alloc.
#[export] Hint Resolve calm_refl calm_trans untouched_refl untouched_trans extends_refl extends_trans ut_calm : alloc.

Section allocation.
Context `{GpuOS} `{MemEnv}.

Lemma sys_untouched c s : wp (sys c) (fun _ s' => untouched s s') s.
Proof. unfold wp, sys. by constructor. Qed.

Lemma calm_mem s m : calm s (s <| ms_mem := m |>).
Proof. by constructor. Qed.

Lemma malloc_fresh c size s :
  0 <= size ->
  wp (malloc c size) (fun r s' => match r with
    | Some q => calm s s' /\ exists rg obj, fresh_at (ms_mem s) (ms_mem s') q size rg obj
    | None => untouched s s'
    end) s.
Proof.
  intros Hs. unfold malloc. apply wp_bind, wp_get. apply wp_bind.
  eapply wp_mono; [apply sys_untouched|]. intros ok s1 U.
  destruct (ok && _); [|by apply wp_ret]. apply wp_bind, wp_on_mem. unfold wp, new_block.
  set (bytes := _ <$> _). assert (Hlen : Z.of_nat (length bytes) = size)
    by (unfold bytes; rewrite length_fmap, length_seq; lia). clearbody bytes.
  set (o := fresh (dom (cm_objs (ms_mem s1)))). set (r := fresh (dom (cm_regs (ms_mem s1)))).
  assert (Ho : cm_objs (ms_mem s1) !! o = None) by apply not_elem_of_dom, is_fresh.
  assert (Hr : cm_regs (ms_mem s1) !! r = None) by apply not_elem_of_dom, is_fresh.
  apply wp_ret. split; [eapply calm_trans; [apply U|apply calm_mem]|].
  exists (mk_region o 0 (Z.of_nat (length bytes)) true []), bytes. constructor; [|done| |].
  - constructor; cbn; rewrite ?lookup_insert_eq; (done || lia).
  - cbn. destruct (cm_objs (ms_mem s) !! o) eqn:E; [|done]. apply (ut_extends _ _ U) in E. congruence.
  - eapply extends_trans; [apply U|]. constructor; cbn; intros k v Hk; by rewrite lookup_insert_ne by congruence.
Qed.

Lemma system_memory_fresh info s :
  0 <= align_size (ai_size info) (ai_alignment info) ->
  wp (system_memory info) (fun r s' => match r with
    | Some q => calm s s' /\ exists rg obj,
        fresh_at (ms_mem s) (ms_mem s') q (align_size (ai_size info) (ai_alignment info)) rg obj
    | None => untouched s s'
    end) s.
Proof.
  intros Hs. unfold system_memory, posix_memalign. destruct (_ && _); [|by apply malloc_fresh].
  destruct (_ && _); [by apply malloc_fresh|]. apply wp_ret. apply untouched_refl.
Qed.

(** A fill of a whole fresh block. *)
Lemma memset_fresh m0 q b size rg obj s :
  fresh_at m0 (ms_mem s) q size rg obj -> 0 <= size ->
  wp (on_mem (memset (Some q) b size)) (fun _ s' => calm s s' /\ ms_files s' = ms_files s /\
    fresh_at m0 (ms_mem s') q size rg (replicate (Z.to_nat size) b)) s.
Proof.
  intros F Hs. destruct (decide (size = 0)) as [->|Hne].
  { replace (replicate (Z.to_nat 0) b) with obj by (apply length_zero_iff_nil; destruct F as [_ [_ Hl] _ _]; lia).
    split_and!; [by destruct s|by destruct s|]. by destruct s. }
  destruct F as [W [Hz Hl] Ho He]. apply wp_on_mem. unfold memset.
  assert (Hlen : Z.of_nat (length (replicate (Z.to_nat size) b)) = size) by (rewrite length_replicate; lia).
  pose proof (window_store _ q size rg obj 0 (replicate (Z.to_nat size) b) W ltac:(lia)) as E.
  destruct q as [r z]. cbn [ptr_add snd] in *. rewrite Z.add_0_r in E. unfold wp.
  rewrite E by (rewrite ?Hlen; try lia; intros E0; rewrite E0 in Hlen; cbn in Hlen; lia).
  assert (Es : splice (rg_base rg + z + 0) (replicate (Z.to_nat size) b) obj = replicate (Z.to_nat size) b).
  { unfold splice. rewrite Z.add_0_r, Hz. cbn. rewrite length_replicate, drop_ge by lia. by rewrite app_nil_r. }
  rewrite Es. split_and!; [apply calm_mem|done|]. destruct W as [W1 W2 W3 W4 W5 W6].
  constructor; [|done|done|].
  - constructor; cbn; rewrite ?lookup_insert_eq; (done || lia).
  - constructor; cbn; [apply He|]. intros o bytes Hb. rewrite lookup_insert_ne by congruence. by apply He.
Qed.

(** A descriptor of a new file. *)
Record opened (s s' : mvgal_memory_state_t) (fd : Z) (o : positive) (bytes : list Z) : Prop := {
  op_calm : calm s s';
  op_regs : cm_regs (ms_mem s') = cm_regs (ms_mem s);
  op_extends : extends (ms_mem s) (ms_mem s');
  op_object : cm_objs (ms_mem s) !! o = None /\ cm_objs (ms_mem s') !! o = Some bytes;
  op_fd : exists k, fd = Z.pos k /\ ms_files s !! k = None /\ ms_files s' = <[k := o]> (ms_files s)
}.

Lemma new_file_opened bytes s s1 :
  untouched s s1 ->
  wp (o ← on_mem (new_object bytes); new_file o) (fun fd s' => exists o, opened s s' fd o bytes) s1.
Proof.
  intros [U1 U2 U3 U4]. apply wp_bind, wp_on_mem. unfold wp, new_object, new_file. cbn.
  set (o := fresh (dom (cm_objs (ms_mem s1)))).
  assert (Ho : cm_objs (ms_mem s1) !! o = None) by apply not_elem_of_dom, is_fresh.
  exists o. constructor; cbn.
  - eapply calm_trans; [exact U1|]. by constructor.
  - done.
  - eapply extends_trans; [exact U3|]. constructor; cbn; [done|].
    intros k v Hk. by rewrite lookup_insert_ne by congruence.
  - rewrite lookup_insert_eq. split; [|done].
    destruct (cm_objs (ms_mem s) !! o) eqn:E; [|done]. apply U3 in E. congruence.
  - eexists. split; [reflexivity|]. rewrite U4. split; [apply not_elem_of_dom, is_fresh|done].
Qed.

Definition fd_result (s : mvgal_memory_state_t) (size fd : Z) (s' : mvgal_memory_state_t) : Prop :=
  if fd <? 0 then untouched s s' else exists o, opened s s' fd o (replicate (Z.to_nat size) 0).

Lemma fd_file s s1 size :
  untouched s s1 ->
  wp (o ← on_mem (new_object (replicate (Z.to_nat size) 0)); new_file o) (fd_result s size) s1.
Proof.
  intros U. eapply wp_mono; [by apply new_file_opened|]. intros fd s' [o Ho]. unfold fd_result.
  destruct Ho as [? ? ? ? (k & -> & ?)]. cbn. exists o. constructor; eauto.
Qed.

Lemma dmabuf_fd_fresh size s : wp (dmabuf_fd size) (fd_result s size) s.
Proof.
  unfold dmabuf_fd. apply wp_bind, wp_reads. apply wp_bind. eapply wp_mono.
  { instantiate (1 := fd_result s size). destruct (0 <=? _); [|apply wp_ret, untouched_refl].
    apply wp_bind. eapply wp_mono; [apply sys_untouched|]. intros ok s1 U1.
    destruct (ok && _); [by apply fd_file|by apply wp_ret]. }
  intros fd s1 H1. destruct (Z.leb_spec 0 fd); [by apply wp_ret|].
  unfold fd_result in H1. rewrite (proj2 (Z.ltb_lt _ _)) in H1 by lia.
  apply wp_bind. eapply wp_mono; [apply sys_untouched|]. intros made s2 U2.
  destruct made; [|apply wp_ret; cbn; eauto with alloc].
  apply wp_bind. eapply wp_mono; [apply sys_untouched|]. intros ok s3 U3.
  destruct (ok && _); [apply fd_file; eauto with alloc|apply wp_ret; cbn; eauto with alloc].
Qed.

(** The outcome of a mapping of a new file. *)
Lemma mmap_fresh s s1 size fd o :
  0 <= size -> opened s s1 fd o (replicate (Z.to_nat size) 0) ->
  wp (mmap size fd 0) (fun r s' => match r with
    | Some q => calm s s' /\ exists rg,
        fresh_at (ms_mem s) (ms_mem s') q size rg (replicate (Z.to_nat size) 0)
    | None => untouched s1 s'
    end) s1.
Proof.
  intros Hs [C R X [O1 O2] (k & -> & F1 & F2)]. unfold mmap. apply wp_bind, wp_reads. cbn [file_of].
  rewrite F2, lookup_insert_eq. apply wp_bind. eapply wp_mono; [apply sys_untouched|].
  intros [] s2 U; [|by apply wp_ret]. destruct (Z.leb_spec size 0); [by apply wp_ret|]. destruct (_ || _); [by apply wp_ret|].
  apply wp_bind, wp_on_mem. unfold wp, new_mapping.
  set (r := fresh (dom (cm_regs (ms_mem s2)))).
  assert (Hr : cm_regs (ms_mem s2) !! r = None) by apply not_elem_of_dom, is_fresh.
  apply wp_ret. split.
  - eapply calm_trans; [exact C|]. eapply calm_trans; [apply U|apply calm_mem].
  - exists (mk_region o 0 size false []). pose proof (ut_extends _ _ U) as X2.
    constructor; [|rewrite length_replicate; cbn; lia|done|].
    + constructor; cbn; rewrite ?lookup_insert_eq, ?length_replicate; try (done || lia). by apply X2.
    + eapply extends_trans; [exact X|]. eapply extends_trans; [exact X2|].
      constructor; cbn; [|done]. intros k' v Hk. by rewrite lookup_insert_ne by congruence.
Qed.

Lemma close_opened s s1 s2 size fd o :
  opened s s1 fd o (replicate (Z.to_nat size) 0) -> untouched s1 s2 ->
  wp (close fd) (fun _ s' => untouched s s') s2.
Proof.
  intros [C R X [O1 O2] (k & -> & F1 & F2)] [U1 U2 U3 U4]. unfold wp, close. constructor; cbn.
  - eapply calm_trans; [exact C|]. eapply calm_trans; [exact U1|]. by constructor.
  - congruence.
  - eauto with alloc.
  - rewrite U4, F2. by rewrite delete_insert_id.
Qed.

Definition shared_result (s : mvgal_memory_state_t) (size : Z) (r : mvgal_error_t * option (Z * ptr))
  (s' : mvgal_memory_state_t) : Prop :=
  match r with
  | (MVGAL_SUCCESS, Some (_, q)) => calm s s' /\ exists rg,
      fresh_at (ms_mem s) (ms_mem s') q size rg (replicate (Z.to_nat size) 0)
  | (MVGAL_SUCCESS, None) => False
  | _ => untouched s s'
  end.

Lemma dmabuf_allocate_fresh size alignment flags mask s :
  0 <= size -> wp (mvgal_dmabuf_allocate size alignment flags mask) (shared_result s size) s.
Proof.
  intros Hs. unfold mvgal_dmabuf_allocate. apply wp_bind. eapply wp_mono; [apply dmabuf_fd_fresh|].
  intros fd s1 H1. unfold fd_result in H1. destruct (fd <? 0); [by apply wp_ret|].
  destruct H1 as [o Ho]. apply wp_bind. eapply wp_mono; [by eapply (mmap_fresh s)|].
  intros [q|] s2 H2; [|apply wp_bind; eapply wp_mono; [by eapply close_opened|]; intros ? s3 U; by apply wp_ret].
  destruct H2 as (C & rg & F). apply wp_bind. eapply wp_mono.
  { instantiate (1 := fun _ s' => calm s s' /\ fresh_at (ms_mem s) (ms_mem s') q size rg (replicate (Z.to_nat size) 0)).
    destruct (has_flag _ _); [|by apply wp_ret].
    eapply wp_mono; [by eapply memset_fresh|]. intros ? s3 (C3 & _ & F3). eauto with alloc. }
  intros ? s3 [C3 F3]. apply wp_bind. eapply wp_mono; [apply sys_untouched|]. intros ? s4 [U1 U2 U3 U4].
  apply wp_ret. split; [eauto with alloc|]. exists rg. destruct F3 as [W Z0 O X].
  constructor; [|done|done|eauto with alloc].
  destruct W as [W1 W2 W3 W4 W5 W6]. constructor; [by rewrite U2|by apply U3|done..].
Qed.

(** A new structure over fresh memory, or an error and nothing else. *)
Definition new_result (s : mvgal_memory_state_t) (info : mvgal_memory_alloc_info_t)
  (r : mvgal_error_t * option addr) (s' : mvgal_memory_state_t) : Prop :=
  match r with
  | (MVGAL_SUCCESS, Some p) => exists s1 b q rg obj, calm s s1 /\ ms_heap s !! p = None /\
      s' = s1 <| ms_heap ::= <[p := b]> |> /\
      st_host_ptr (b_storage b) = Some q /\ st_size (b_storage b) = ai_size info /\
      fresh_at (ms_mem s) (ms_mem s1) q (align_size (ai_size info) (ai_alignment info)) rg obj /\
      (has_flag (ai_flags info) MVGAL_MEMORY_FLAG_ZERO_INITIALIZED = true -> obj = replicate (length obj) 0)
  | (MVGAL_SUCCESS, None) => False
  | (_, r) => r = None /\ untouched s s'
  end.

Lemma new_buffer_result info s s1 b q rg obj :
  calm s s1 -> st_host_ptr (b_storage b) = Some q -> st_size (b_storage b) = ai_size info ->
  fresh_at (ms_mem s) (ms_mem s1) q (align_size (ai_size info) (ai_alignment info)) rg obj ->
  (has_flag (ai_flags info) MVGAL_MEMORY_FLAG_ZERO_INITIALIZED = true -> obj = replicate (length obj) 0) ->
  wp (p ← new_buffer b; mret (MVGAL_SUCCESS, Some p)) (new_result s info) s1.
Proof.
  intros C Hq Hs F Hz. apply wp_bind. eapply wp_intro; [reflexivity|]. apply wp_ret.
  exists s1, b, q, rg, obj. split_and!; try done. rewrite <- (ca_heap _ _ C). apply not_elem_of_dom, is_fresh.
Qed.

Lemma fresh_at_untouched s s1 m q size rg obj :
  untouched s s1 -> fresh_at (ms_mem s1) m q size rg obj -> fresh_at (ms_mem s) m q size rg obj.
Proof.
  intros U [W S O X]. constructor; [done|done| |eapply extends_trans; [apply U|done]].
  destruct (cm_objs (ms_mem s) !! rg_obj rg) eqn:E; [|done]. apply (ut_extends _ _ U) in E. congruence.
Qed.

Lemma system_buffer_result info s s1 :
  untouched s s1 -> 0 <= align_size (ai_size info) (ai_alignment info) ->
  wp (p ← system_memory info;
      match p with
      | None => mret (MVGAL_ERROR_OUT_OF_MEMORY, None)
      | Some p =>
          (if has_flag (ai_flags info) MVGAL_MEMORY_FLAG_ZERO_INITIALIZED
           then on_mem (memset (Some p) 0 (align_size (ai_size info) (ai_alignment info))) else mret tt);;
          b ← new_buffer (system_buffer info p);
          mret (MVGAL_SUCCESS, Some b)
      end) (new_result s info) s1.
Proof.
  intros U Hpos. apply wp_bind. eapply wp_mono; [apply system_memory_fresh; lia|].
  intros [q|] s2 H2; [|apply wp_ret; cbn; eauto with alloc].
  destruct H2 as (C2 & rg & obj & F). apply (fresh_at_untouched s) in F; [|done].
  assert (C : calm s s2) by eauto with alloc. apply wp_bind.
  destruct (has_flag _ _) eqn:Ez.
  - eapply wp_mono; [by eapply memset_fresh|]. intros ? s3 (C3 & _ & F3).
    eapply new_buffer_result; [eauto with alloc|done|done|exact F3|]. intros _. by rewrite length_replicate.
  - apply wp_ret. eapply new_buffer_result; [done|done|done|exact F|]. by rewrite Ez.
Qed.

Lemma allocate_internal_result info s :
  0 <= align_size (ai_size info) (ai_alignment info) ->
  wp (mvgal_buffer_allocate_internal (Some info) true) (new_result s info) s.
Proof.
  intros Hpos. unfold mvgal_buffer_allocate_internal. cbn [negb].
  destruct (ai_size info =? 0); [apply wp_ret; cbn; eauto with alloc|].
  apply wp_bind. eapply wp_mono; [apply sys_untouched|]. intros ok s1 U1.
  destruct ok; [|by apply wp_ret]. cbn [negb].
  apply wp_bind, wp_reads. apply wp_bind. eapply wp_mono.
  { instantiate (1 := shared_result s1 (align_size (ai_size info) (ai_alignment info))).
    destruct (_ && _); [apply dmabuf_allocate_fresh; lia|apply wp_ret; cbn; eauto with alloc]. }
  intros [e r] s2 S2. destruct e; try (apply system_buffer_result; [eauto with alloc|done]).
  destruct r as [[fd q]|]; [|done]. destruct S2 as (C2 & rg & F).
  eapply new_buffer_result; [eauto with alloc|done|done|by eapply fresh_at_untouched|].
  intros _. by rewrite length_replicate.
Qed.

Lemma allocate_inv info s e r s' :
  ms_initialized s = true -> 0 <= ai_size info ->
  mvgal_memory_allocate (Some info) true s = Ret ((e, r), s') ->
  if is_success e
  then exists p s1, r = Some p /\ new_result s info (MVGAL_SUCCESS, Some p) s1 /\
    same_storage s1 s' /\ ms_mem s' = ms_mem s1
  else r = None /\ untouched s s'.
Proof.
  intros Hi Hs E. unfold mvgal_memory_allocate, ensure_memory_initialized in E. cbn [negb] in E.
  rewrite (bind_ret _ _ s MVGAL_SUCCESS s) in E by (unfold reads, mbind, M_bind; by rewrite Hi).
  cbn [is_success negb] in E. destruct (decide (ai_size info = 0)) as [Hz|Hz].
  { unfold mvgal_buffer_allocate_internal in E. rewrite Hz in E. cbn in E.
    injection E as <- <- <-. cbn. eauto with alloc. }
  pose proof (align_size_nonneg (ai_size info) (ai_alignment info) Hs) as Hge.
  destruct (wp_elim _ _ _ (allocate_internal_result info s ltac:(lia))) as ([e1 r1] & s1 & E1 & R).
  erewrite bind_ret in E by exact E1. destruct e1; try (injection E as <- <- <-; split; [done|apply R]).
  destruct r1 as [p|]; [|done]. apply bind_inv in E as (b & s2 & E2 & E).
  assert (s2 = s1) as ->.
  { unfold deref in E2. destruct (ms_heap s1 !! p); [|done]. by injection E2. }
  apply bind_inv in E as ([] & s3 & E3 & E). injection E as <- <- <-.
  destruct (quiet_link _ _ _ _ _ E3) as [Hst Hmem]. by exists p, s1.
Qed.

(** C17. A failed allocation leaves nothing behind.  Whichever step of a
    request fails, be it the structure, the heap, the temporary file, its
    size, its mapping or the system memory, the caller gets an error code and
    no buffer, and buffers, mappings, open files and totals are as before. *)
Theorem allocate_error_atomic info s e r s' :
  ms_initialized s = true -> 0 <= ai_size info ->
  mvgal_memory_allocate (Some info) true s = Ret ((e, r), s') -> e <> MVGAL_SUCCESS ->
  r = None /\ untouched s s'.
Proof.
  intros Hi Hs E He. pose proof (allocate_inv info s e r s' Hi Hs E) as R. by destruct e.
Qed.

Lemma contents_extends s s' q cs :
  extends (ms_mem s) (ms_mem s') ->
  (forall b, ms_heap s !! q = Some b -> b_storage <$> ms_heap s' !! q = Some (b_storage b)) ->
  contents s q = Some cs -> contents s' q = Some cs /\ object_of s' q = object_of s q.
Proof.
  intros X Hst (q0 & size & rg & obj & V & ->)%contents_view.
  assert (V' : view s' q q0 size rg obj).
  { destruct V as [(b & Hb & Hq & Hz) [W1 W2 W3 W4 W5 W6] Hn].
    destruct (storage_some s' q _ (Hst b Hb)) as (b' & Hb' & E).
    constructor; [exists b'; by rewrite E| |done]. constructor; [by apply X|by apply X|done..]. }
  split; [apply contents_view; by exists q0, size, rg, obj|].
  by rewrite (view_object _ _ _ _ _ _ V), (view_object _ _ _ _ _ _ V').
Qed.

(** Fresh memory is all there is behind its pointer. *)
Lemma fresh_at_short m m' q size rg obj n :
  fresh_at m m' q size rg obj -> size < n -> bytes_at m' (Some q) n = None.
Proof.
  intros [[W1 W2 W3 W4 W5 W6] [Hz Hl] _ _] Hn. destruct (bytes_at m' (Some q) n) as [cs|] eqn:E; [|done].
  apply bytes_at_window in E as (q' & rg' & obj' & [= <-] & [V1 V2 V3 V4 V5 V6] & _). simplify_eq. lia.
Qed.

(** C40. What a successful allocation gives: a new buffer whose memory no
    existing buffer shares, and every existing buffer keeps its bytes.  When
    rounding the size up to the alignment does not wrap around in 64 bits,
    which it does not when size and alignment add up to at most 2^64, the
    buffer has the bytes asked for, all zero when the request says so.  When
    it wraps and the allocation succeeds all the same, the memory is shorter
    than the size the buffer reports. *)
Theorem allocate_backed info s p s' :
  ms_initialized s = true -> 0 < ai_size info ->
  mvgal_memory_allocate (Some info) true s = Ret ((MVGAL_SUCCESS, Some p), s') ->
  ms_heap s !! p = None /\
  (ai_size info <= align_size (ai_size info) (ai_alignment info) ->
   exists cs, contents s' p = Some cs /\ Z.of_nat (length cs) = ai_size info /\
     (has_flag (ai_flags info) MVGAL_MEMORY_FLAG_ZERO_INITIALIZED = true ->
      cs = replicate (Z.to_nat (ai_size info)) 0)) /\
  (0 <= ai_alignment info -> ai_size info + ai_alignment info <= U64_MAX + 1 ->
   ai_size info <= align_size (ai_size info) (ai_alignment info)) /\
  (align_size (ai_size info) (ai_alignment info) < ai_size info -> contents s' p = None) /\
  forall q cs, contents s q = Some cs -> contents s' q = Some cs /\ object_of s' q <> object_of s' p.
Proof.
  intros Hi Hs E.
  destruct (allocate_inv info s _ _ s' Hi ltac:(lia) E) as (p' & s1 & [= <-] & R & Hst & Hmem).
  destruct R as (s0 & b & q & rg & obj & C & Hp & -> & Hq & Hsz & F & Hzero).
  change (ms_mem (s0 <| ms_heap ::= ?f |>)) with (ms_mem s0) in Hmem. rewrite <- Hmem in *.
  destruct (storage_some s' p (b_storage b)) as (b' & Hb' & Eb);
    [rewrite Hst; cbn; by rewrite lookup_insert_eq|].
  assert (Hob : object_of s' p = Some (rg_obj rg)).
  { unfold object_of. rewrite Hb'. cbn. rewrite Eb, Hq. cbn. by rewrite (wn_region _ _ _ _ _ (fa_window _ _ _ _ _ _ F)). }
  split_and!; [done| | | |].
  - intros Hge. destruct F as [W [Hz Hl] Ho X].
    assert (V : view s' p q (ai_size info) rg obj).
    { constructor; [exists b'; by rewrite Eb| |lia].
      destruct W as [W1 W2 W3 W4 W5 W6]. constructor; try (done || lia).
      eapply intact_within; [exact W5|lia|lia]. }
    exists (slice (rg_base rg + snd q) (ai_size info) obj).
    split_and!; [apply contents_view; by exists q, (ai_size info), rg, obj|apply (view_bounds _ _ _ _ _ _ V)|].
    intros Hf. rewrite (Hzero Hf). unfold slice. rewrite Hz. change (Z.to_nat 0) with 0%nat.
    rewrite drop_0, take_replicate. f_equal. lia.
  - intros Ha Hm. apply align_size_ge; lia.
  - intros Hlt. unfold contents. rewrite Hb'. cbn. rewrite Eb, Hq, Hsz. by eapply fresh_at_short.
  - destruct F as [_ _ Ho X].
    intros k cs Hk. destruct (contents_extends s s' k cs X) as [Hc Hobj]; [|done|].
    + intros bk Hbk. rewrite Hst. cbn. rewrite lookup_insert_ne by congruence. by rewrite (ca_heap _ _ C), Hbk.
    + split; [done|]. rewrite Hobj, Hob.
      apply contents_view in Hk as (q0 & size & rg0 & obj0 & V0 & _).
      rewrite (view_object _ _ _ _ _ _ V0). intros [= Eo].
      pose proof (wn_object _ _ _ _ _ (vw_window _ _ _ _ _ _ V0)). congruence.
Qed.

End allocation.
