(* ===== verification/MemRuns.v ===== *)
(** * Runs of the memory manager

    Clients on a host with two GPUs whose system calls succeed: the theorems
    at work, and the places where the code does not keep its promises. *)

From S2P Require Import Prelude Float32 CString GpuTypes GpuManager GpuHealth SyncPrims CMem MemTypes Allocator MemoryApi MemLifetime MemClient MemSafety MemData MemAlloc.
Local Open Scope Z_scope.

(** ** Playing a script *)

Section script.
Context `{GpuOS} `{MemEnv}.

Definition allowedb (op : client_op) (s : mvgal_memory_state_t) (hs : addr -> Z) : bool :=
  (match subject op with Some p => 0 <? hs p | None => true end) &&
  match op with
  | Op_alias p _ _ _ _ | Op_retain p =>
      match ms_heap s !! p with Some b => b_refcount b <? U32_MAX | None => true end
  | _ => true
  end.

Lemma allowedb_ok op s hs : allowedb op s hs = true -> allowed op s hs.
Proof.
  unfold allowedb, allowed. rewrite andb_true_iff. intros [H1 H2]. split.
  - intros p Hp. rewrite Hp in H1. by apply Z.ltb_lt.
  - destruct op; try done; intros b Hb; rewrite Hb in H2; by apply Z.ltb_lt.
Qed.

Fixpoint play (ops : list client_op) (s : mvgal_memory_state_t) (hs : addr -> Z)
  : option (mvgal_memory_state_t * (addr -> Z)) :=
  match ops with
  | [] => Some (s, hs)
  | op :: rest =>
      if allowedb op s hs then
        match run_op op s with
        | Ret (r, s') => play rest s' (account op r hs)
        | _ => None
        end
      else None
  end.

Lemma play_history ops s hs :
  client_history s hs -> forall t ht, play ops s hs = Some (t, ht) -> client_history t ht.
Proof.
  revert s hs. induction ops as [|op ops IH]; cbn; intros s hs Hh t ht E; [by simplify_eq|].
  destruct (allowedb op s hs) eqn:Ha; [|done]. destruct (run_op op s) as [[r s']| |] eqn:Er; try done.
  eapply IH; [|exact E]. eapply history_step; [done|by apply allowedb_ok|done].
Qed.

Definition carefulb (op : client_op) (s : mvgal_memory_state_t) : bool :=
  match op with
  | Op_allocate (Some info) _ => ai_size info <=? align_size (ai_size info) (ai_alignment info)
  | Op_map p _ size _ =>
      match ms_heap s !! p with
      | Some b => is_mapped b || negb (st_dmabuf_owner (b_storage b)) || (size =? 0)
                  || (st_size (b_storage b) <=? size)
      | None => true
      end
  | _ => true
  end.

Lemma carefulb_ok op s : carefulb op s = true -> careful op s.
Proof.
  destruct op as [[info|]| | | | | | |p offset size out| | | | | | |]; cbn; try done; [apply Z.leb_le|].
  intros Hc b Hb Hm Ho. rewrite Hb, Hm, Ho in Hc. cbn in Hc.
  apply orb_true_iff in Hc as [Hc%Z.eqb_eq|Hc%Z.leb_le]; lia.
Qed.

(** A script every call of which is careful. *)
Fixpoint prudent (ops : list client_op) (s : mvgal_memory_state_t) : bool :=
  match ops with
  | [] => true
  | op :: rest => carefulb op s && match run_op op s with Ret (_, s') => prudent rest s' | _ => true end
  end.

Lemma play_careful ops s hs :
  careful_history s hs -> prudent ops s = true ->
  forall t ht, play ops s hs = Some (t, ht) -> careful_history t ht.
Proof.
  revert s hs. induction ops as [|op ops IH]; cbn; intros s hs Hh Hp t ht E; [by simplify_eq|].
  apply andb_true_iff in Hp as [Hc Hp].
  destruct (allowedb op s hs) eqn:Ha; [|done]. destruct (run_op op s) as [[r s']| |] eqn:Er; try done.
  eapply IH; [|exact Hp|exact E]. eapply careful_step; [done|by apply allowedb_ok|by apply carefulb_ok|done].
Qed.

End script.

Definition childless (h : bheap) (p : addr) : bool :=
  forallb (fun e => negb (bool_decide (lk_alias_parent (b_links (snd e)) = Some p))) (map_to_list h).

Lemma childless_ok h p : childless h p = true -> forall q, parent h q <> Some p.
Proof.
  intros Hc q. unfold parent. destruct (h !! q) as [b|] eqn:Hq; [|done]. cbn.
  unfold childless in Hc. rewrite forallb_forall in Hc.
  apply elem_of_map_to_list, list_elem_of_In in Hq. apply Hc in Hq. cbn in Hq.
  by case_bool_decide.
Qed.

Module Host.

#[export] Existing Instance TwoCards.os.

(** Every call succeeds; fresh memory holds 170. *)
#[export] Instance generous : MemEnv := {|
  sys_ok _ _ := true;
  junk _ _ := 170;
  region_address r := Z.pos r * 4096
|}.

Definition start : mvgal_memory_state_t :=
  mk_ms false false None 0 0 (-1) [] 0 ∅ (mk_cmem ∅ ∅) ∅ (mk_sync ∅ ∅) TwoCards.booted 0.

Lemma start_history : client_history start (fun _ => 0).
Proof. by constructor. Qed.

Lemma start_careful : careful_history start (fun _ => 0).
Proof. constructor; [done|]. by constructor. Qed.

Definition request (size flags : Z) : mvgal_memory_alloc_info_t :=
  mk_alloc_info size 64 flags MVGAL_MEMORY_TYPE_SRAM MVGAL_MEMORY_SHARING_NONE
    MVGAL_MEMORY_ACCESS_READ_WRITE 1 50.

(** A buffer, an alias of it and an alias of that; then the first buffer's
    only reference is given up. *)
Definition chain : list client_op :=
  [Op_allocate (Some (request 100 1025)) true; Op_alias 1 10 50 0 true; Op_alias 2 20 0 0 true; Op_free 1].

Definition after_chain : mvgal_memory_state_t * (addr -> Z) :=
  default (start, fun _ => 0) (play chain start (fun _ => 0)).

Lemma after_chain_history : client_history (fst after_chain) (snd after_chain).
Proof. apply (play_history chain _ _ start_history). vm_compute. reflexivity. Qed.

Lemma after_chain_careful : careful_history (fst after_chain) (snd after_chain).
Proof. apply (play_careful chain _ _ start_careful); vm_compute; reflexivity. Qed.

(** A shared buffer of two pages, mapped again with one. *)
Definition one_page : list client_op :=
  [Op_create_shared 8192 (Some [0; 1]) true; Op_unmap 1; Op_map 1 0 4096 true].

Definition after_one_page : mvgal_memory_state_t * (addr -> Z) :=
  default (start, fun _ => 0) (play one_page start (fun _ => 0)).

(** The end of the chain can be freed; the page after the mapping of the
    other buffer goes with it. *)
Lemma memory_clients_safe_witness :
  (exists r s', run_op (Op_free 3) (fst after_chain) = Ret (r, s')) /\
  run_op (Op_unmap 1) (fst after_one_page) = Fault OverUnmap /\
  exists p b, ms_heap (fst after_one_page) !! p = Some b /\ overlong (fst after_one_page) b = true.
Proof.
  destruct (memory_clients_safe (fst after_chain) (snd after_chain) (Op_free 3)) as [_ Hc];
    [apply after_chain_history|apply allowedb_ok; vm_compute; reflexivity|].
  destruct (memory_clients_safe (fst after_one_page) (snd after_one_page) (Op_unmap 1)) as [Hf _];
    [apply (play_history one_page _ _ start_history); vm_compute; reflexivity
    |apply allowedb_ok; vm_compute; reflexivity|].
  split; [apply Hc, after_chain_careful|].
  assert (E : run_op (Op_unmap 1) (fst after_one_page) = Fault OverUnmap) by (vm_compute; reflexivity).
  split; [exact E|]. rewrite E in Hf. apply Hf.
Defined.

(** A shared buffer of one page next to a buffer of system memory. *)
Definition neighbours : list client_op :=
  [Op_create_shared 4096 (Some [0; 1]) true; Op_allocate (Some (request 100 1025)) true; Op_unmap 1;
   Op_map 1 0 0 true].

Definition after_neighbours : mvgal_memory_state_t * (addr -> Z) :=
  default (start, fun _ => 0) (play neighbours start (fun _ => 0)).

Lemma after_neighbours_careful : careful_history (fst after_neighbours) (snd after_neighbours).
Proof. apply (play_careful neighbours _ _ start_careful); vm_compute; reflexivity. Qed.

(** The first buffer is kept by its alias, so only the last reference to the
    end of the chain frees anything; freeing the shared buffer leaves the
    block of its neighbour as it is. *)
Lemma memory_freed_iff_witness :
  is_Some (ms_heap (fst after_chain) !! 1%positive) /\
  (exists s', mvgal_memory_free (Some 3%positive) (fst after_chain) = Ret (tt, s') /\
     ms_heap s' !! 3%positive = None) /\
  exists s', mvgal_memory_free (Some 1%positive) (fst after_neighbours) = Ret (tt, s') /\
    ms_heap s' !! 1%positive = None /\
    forall b r, ms_heap s' !! 2%positive = Some b -> claims b r ->
      same_memory (ms_mem (fst after_neighbours)) (ms_mem s') r.
Proof.
  split; [vm_compute; eauto|].
  destruct (memory_freed_iff (fst after_chain) (snd after_chain) 3 after_chain_careful)
    as (s' & E & _ & Hiff & _); [vm_compute; reflexivity|].
  destruct (memory_freed_iff (fst after_neighbours) (snd after_neighbours) 1 after_neighbours_careful)
    as (t & F & _ & Hiff' & Hkept & _); [vm_compute; reflexivity|].
  split.
  - exists s'. split; [exact E|]. apply Hiff. split; [vm_compute; reflexivity|].
    apply childless_ok. vm_compute. reflexivity.
  - exists t. split_and!; [exact F| |intros b r Hb; exact (Hkept _ b r Hb)].
    apply Hiff'. split; [vm_compute; reflexivity|]. apply childless_ok. vm_compute. reflexivity.
Defined.

(** Once the aliases are freed too, the whole chain is gone. *)
Definition after_all : mvgal_memory_state_t * (addr -> Z) :=
  default (start, fun _ => 0) (play (chain ++ [Op_free 3; Op_free 2]) start (fun _ => 0)).

Lemma memory_no_leak_witness : ms_heap (fst after_all) = ∅ /\ ms_buffers (fst after_all) = None.
Proof.
  apply (memory_no_leak _ (snd after_all)).
  - apply (play_history (chain ++ [Op_free 3; Op_free 2]) _ _ start_history). vm_compute. reflexivity.
  - intros p. vm_compute. repeat case_match; done.
Defined.

(** ** Bytes *)

(** One buffer of 100 zero bytes. *)
Definition one_buffer : mvgal_memory_state_t :=
  from_option fst start (play [Op_allocate (Some (request 100 1025)) true] start (fun _ => 0)).


(** The state after an alias of the bytes from 10 to 59. *)
Definition aliased : mvgal_memory_state_t :=
  from_option fst start
    (play [Op_allocate (Some (request 100 1025)) true; Op_alias 1 10 50 0 true] start (fun _ => 0)).

Lemma alias_shares_memory_witness :
  exists s', mvgal_memory_write (Some 2%positive) 5 (Some [9]) aliased = Ret (MVGAL_SUCCESS, s') /\
    contents s' 1 = Some (splice 15 [9] (replicate 100 0)).
Proof.
  destruct (alias_shares_memory one_buffer 1 (replicate 100 0) 10 50 0 2 aliased) as (_ & _ & Hw);
    [vm_compute; reflexivity|vm_compute; discriminate|lia|lia|vm_compute; discriminate
    |vm_compute; reflexivity|].
  destruct (Hw 5 [9]) as (s' & E & _ & Hp); [lia|done|vm_compute; discriminate|].
  exists s'. split; [exact E|exact Hp].
Defined.

(** Two buffers of their own. *)
Definition two_buffers : mvgal_memory_state_t :=
  from_option fst start
    (play [Op_allocate (Some (request 100 1025)) true; Op_allocate (Some (request 60 1025)) true]
       start (fun _ => 0)).

Lemma allocate_backed_witness :
  contents two_buffers 2 = Some (replicate 60 0) /\ object_of two_buffers 1 <> object_of two_buffers 2.
Proof.
  destruct (allocate_backed (request 60 1025) one_buffer 2 two_buffers) as (_ & Hbytes & _ & _ & Hother);
    [vm_compute; reflexivity|cbn; lia|vm_compute; reflexivity|].
  destruct Hbytes as (cs & Hc & _ & Hz); [vm_compute; discriminate|].
  rewrite Hz in Hc by (vm_compute; reflexivity). split; [exact Hc|].
  apply (Hother 1%positive (replicate 100 0)). vm_compute. reflexivity.
Defined.
End Host.

(** ** A host that runs out of memory *)
Module Exhausted.

#[export] Existing Instance TwoCards.os.

(** No system memory and no mappings; files can be made. *)
#[export] Instance exhausted : MemEnv := {|
  sys_ok c _ := match c with Malloc | Memalign | Mmap => false | _ => true end;
  junk _ _ := 170;
  region_address r := Z.pos r * 4096
|}.

Definition shared_request : mvgal_memory_alloc_info_t :=
  mk_alloc_info 100 64 MVGAL_MEMORY_FLAG_DMA_BUF MVGAL_MEMORY_TYPE_SRAM MVGAL_MEMORY_SHARING_DMA_BUF
    MVGAL_MEMORY_ACCESS_READ_WRITE 3 50.

(** The state after the failed request. *)
Definition failed : mvgal_memory_state_t :=
  match mvgal_memory_allocate (Some shared_request) true Host.one_buffer with
  | Ret (_, s) => s
  | _ => Host.start
  end.

Lemma allocate_error_atomic_witness : untouched Host.one_buffer failed.
Proof.
  apply (allocate_error_atomic shared_request Host.one_buffer MVGAL_ERROR_OUT_OF_MEMORY None failed);
    [vm_compute; reflexivity|cbn; lia|vm_compute; reflexivity|done].
Defined.
End Exhausted.

(** ** Broken promises *)
Module Defects.

Import Host.

(** A buffer of system memory that was unmapped cannot be written any more:
    unmapping forgets the address, mapping again reports success with a null
    pointer, and the write stores through it. *)
Example write_after_unmap :
  (mvgal_memory_unmap (Some 1%positive);;
   mvgal_memory_write (Some 1%positive) 0 (Some [1])) one_buffer = Fault NullDeref.
Proof. vm_compute. reflexivity. Qed.

(** The sum of offset and size wraps around, so a write before the start of
    the buffer passes the check of its bounds. *)
Example write_bounds_wrap :
  mvgal_memory_write (Some 1%positive) U64_MAX (Some [1; 2]) one_buffer = Fault OutOfBounds.
Proof. vm_compute. reflexivity. Qed.

(** A request for nearly 2^64 bytes: rounding it up to the alignment gives
    zero, an allocation of no bytes succeeds, and the buffer says it has
    them all. *)
Example allocate_wraps :
  exists s, mvgal_memory_allocate (Some (request U64_MAX 1)) true start = Ret ((MVGAL_SUCCESS, Some 1%positive), s) /\
    (b_storage <$> ms_heap s !! 1%positive) ≫= (fun st => Some (st_size st)) = Some U64_MAX /\
    contents s 1 = None /\ align_size U64_MAX 64 = 0.
Proof. eexists. split; [vm_compute; reflexivity|]. vm_compute. done. Qed.

(** Freeing a shared buffer unmaps the pages of its size, not those of the
    size rounded up to its alignment: three of four pages stay mapped. *)
Example free_leaves_pages :
  exists s, (r ← mvgal_memory_allocate (Some (mk_alloc_info 100 16384 MVGAL_MEMORY_FLAG_DMA_BUF
      MVGAL_MEMORY_TYPE_SRAM MVGAL_MEMORY_SHARING_DMA_BUF MVGAL_MEMORY_ACCESS_READ_WRITE 3 50)) true;
    mvgal_memory_free (snd r)) start = Ret (tt, s) /\
    ms_heap s = ∅ /\ (fun rg => (rg_size rg, rg_gone rg)) <$> cm_regs (ms_mem s) !! 1%positive =
      Some (16384, [(0, 4096)]).
Proof. eexists. split; [vm_compute; reflexivity|]. vm_compute. done. Qed.

(** Four bytes from 2 to 20 are taken from 4 and stored at 40. *)
Example copy_doubles_offsets :
  exists s, (mvgal_memory_write (Some 1%positive) 0 (Some [1; 2; 3; 4; 5; 6; 7; 8]);;
    mvgal_memory_copy (Some [mk_copy_region (Some 1%positive) 2 (Some 1%positive) 20 4]))
      one_buffer = Ret (MVGAL_SUCCESS, s) /\
    contents s 1 = Some (splice 40 [5; 6; 7; 8] (splice 0 [1; 2; 3; 4; 5; 6; 7; 8] (replicate 100 0))).
Proof. eexists. split; [vm_compute; reflexivity|]. vm_compute. reflexivity. Qed.

(** A copy within both buffers reaches past their end. *)
Example copy_out_of_bounds :
  mvgal_memory_copy (Some [mk_copy_region (Some 1%positive) 60 (Some 1%positive) 70 4]) one_buffer
    = Fault OutOfBounds.
Proof. vm_compute. reflexivity. Qed.

(** Read access given to a bound GPU includes write access. *)
Example read_access_writes :
  exists s s', mvgal_memory_set_access (Some 1%positive) 0 MVGAL_MEMORY_ACCESS_READ one_buffer
      = Ret (MVGAL_SUCCESS, s) /\
    mvgal_memory_get_access (Some 1%positive) 0 true s
      = Ret ((MVGAL_SUCCESS, Some MVGAL_MEMORY_ACCESS_READ_WRITE), s').
Proof. eexists _, _. split; vm_compute; reflexivity. Qed.

(** Stopping the module while a buffer lives waits for a lock it holds. *)
Example shutdown_deadlocks : mvgal_memory_module_shutdown one_buffer = Fault SelfDeadlock.
Proof. vm_compute. reflexivity. Qed.

(** A detached alias holds bytes of the start of its parent, not of its range. *)
Example detach_copies_start :
  exists s, (mvgal_memory_write (Some 1%positive) 10 (Some [1; 2; 3]);;
    mvgal_memory_alias_detach (Some 2%positive)) aliased = Ret (MVGAL_SUCCESS, s) /\
    contents aliased 2 = Some (replicate 50 0) /\
    contents s 2 = Some (splice 10 [1; 2; 3] (replicate 50 0)).
Proof. eexists. split; [vm_compute; reflexivity|]. vm_compute. split; reflexivity. Qed.

(** An imported buffer is linked twice and becomes its own successor; freeing
    it leaves the list pointing to the freed structure, which stopping the
    module uses. *)
Example import_corrupts_list :
  (r ← mvgal_memory_create_shared 64 (Some [0; 1]) true;
   fd ← mvgal_memory_export_dmabuf (snd r) true;
   i ← mvgal_memory_import_dmabuf (default 0 (snd fd)) true;
   mvgal_memory_free (snd i);;
   mvgal_memory_free (snd r);;
   mvgal_memory_module_shutdown) start = Fault UseAfterFree.
Proof. vm_compute. reflexivity. Qed.

End Defects.
