(* ===== verification/Config.v ===== *)
(** * Configuration settings

    src/userspace/daemon/config.c: the configuration structure, the table of
    named settings with their kinds and ranges, access by name with change
    notifications, and the life of the module.  Text is in ConfigText. *)

From Corelib Require Import SpecFloat.
From S2P Require Import Prelude Float32.
From stdpp Require Import strings.
Local Open Scope Z_scope.

(** ** Double precision *)

Definition f64 : Type := spec_float.

(** [(double)x] of a [float] [x]. *)
Definition f64_of_f32 (x : f32) : f64 :=
  match x with
  | S754_finite s m e => binary_round 53 1024 s m e
  | _ => x
  end.

(** [(int64_t)z] of an unsigned value. *)
Definition int64 (z : Z) : Z :=
  (z + 9223372036854775808) mod 18446744073709551616 - 9223372036854775808.

(** ** Data *)

Record config_gpus : Type := mk_cfg_gpus {
  cg_auto_detect : bool;
  cg_devices : option string;
  cg_max_gpus : Z;
  cg_enable_all : bool
}.
#[export] Instance config_gpus_eta : Eta config_gpus := fun r =>
  mk_cfg_gpus (cg_auto_detect r) (cg_devices r) (cg_max_gpus r) (cg_enable_all r).

Record config_scheduler : Type := mk_cfg_sched {
  ch_strategy : Z;
  ch_dynamic_load_balance : bool;
  ch_thermal_aware : bool;
  ch_power_aware : bool;
  ch_load_balance_threshold : f32;
  ch_max_queued_workloads : Z
}.
#[export] Instance config_scheduler_eta : Eta config_scheduler := fun r =>
  mk_cfg_sched (ch_strategy r) (ch_dynamic_load_balance r) (ch_thermal_aware r) (ch_power_aware r)
    (ch_load_balance_threshold r) (ch_max_queued_workloads r).

Record config_memory : Type := mk_cfg_mem {
  cm_use_dmabuf : bool;
  cm_use_p2p : bool;
  cm_replicate_small : bool;
  cm_replicate_threshold : Z;
  cm_max_buffer_size : Z
}.
#[export] Instance config_memory_eta : Eta config_memory := fun r =>
  mk_cfg_mem (cm_use_dmabuf r) (cm_use_p2p r) (cm_replicate_small r) (cm_replicate_threshold r)
    (cm_max_buffer_size r).

Record config_vulkan : Type := mk_cfg_vk {
  cv_enabled : bool;
  cv_intercept_all : bool;
  cv_layer_path : option string
}.
#[export] Instance config_vulkan_eta : Eta config_vulkan := fun r =>
  mk_cfg_vk (cv_enabled r) (cv_intercept_all r) (cv_layer_path r).

Record config_opencl : Type := mk_cfg_cl {
  cl_enabled : bool;
  cl_preload : bool;
  cl_library_path : option string
}.
#[export] Instance config_opencl_eta : Eta config_opencl := fun r =>
  mk_cfg_cl (cl_enabled r) (cl_preload r) (cl_library_path r).

Record config_performance : Type := mk_cfg_perf {
  cp_profile : bool;
  cp_profile_file : option string;
  cp_profile_interval_ms : Z
}.
#[export] Instance config_performance_eta : Eta config_performance := fun r =>
  mk_cfg_perf (cp_profile r) (cp_profile_file r) (cp_profile_interval_ms r).

(** Enumerations are their integer values; the reserved pointers, always
    NULL, are left out. *)
Record mvgal_config_t : Type := mk_config {
  c_enabled : bool;
  c_log_level : Z;
  c_debug : bool;
  c_gpus : config_gpus;
  c_scheduler : config_scheduler;
  c_memory : config_memory;
  c_vulkan : config_vulkan;
  c_opencl : config_opencl;
  c_performance : config_performance
}.
#[export] Instance config_eta : Eta mvgal_config_t := fun r =>
  mk_config (c_enabled r) (c_log_level r) (c_debug r) (c_gpus r) (c_scheduler r) (c_memory r)
    (c_vulkan r) (c_opencl r) (c_performance r).

Definition MVGAL_LOG_LEVEL_ERROR : Z := 0.
Definition MVGAL_LOG_LEVEL_WARN : Z := 1.
Definition MVGAL_LOG_LEVEL_INFO : Z := 2.
Definition MVGAL_LOG_LEVEL_DEBUG : Z := 3.
Definition MVGAL_LOG_LEVEL_TRACE : Z := 4.

Definition strategy_value (s : mvgal_distribution_strategy_t) : Z :=
  match s with
  | MVGAL_STRATEGY_ROUND_ROBIN => 0
  | MVGAL_STRATEGY_AFR => 1
  | MVGAL_STRATEGY_SFR => 2
  | MVGAL_STRATEGY_AUTO => 3
  | MVGAL_STRATEGY_TASK => 7
  | MVGAL_STRATEGY_COMPUTE_OFFLOAD => 4
  | MVGAL_STRATEGY_HYBRID => 5
  | MVGAL_STRATEGY_SINGLE_GPU => 6
  | MVGAL_STRATEGY_AI_DRIVEN => 8
  | MVGAL_STRATEGY_CUSTOM => 100
  end.

(** A value and the member of the union it was written to. *)
Inductive mvgal_config_value_u : Type :=
| V_b (b : bool)
| V_i (i : Z)
| V_f (f : f64)
| V_s (s : option string).

Inductive mvgal_config_value_type_t : Type :=
| MVGAL_CONFIG_BOOL
| MVGAL_CONFIG_INT
| MVGAL_CONFIG_FLOAT
| MVGAL_CONFIG_STRING
| MVGAL_CONFIG_ENUM.

Inductive config_kind_t : Type := CFG_BOOL | CFG_INT | CFG_FLOAT | CFG_STRING | CFG_ENUM | CFG_SIZE.

(** The bounds are doubles that hold integers; [SIZE_MAX] rounds to [2 ^ 64]. *)
Record config_descriptor_t : Type := mk_cd {
  cd_name : string;
  cd_description : string;
  cd_kind : config_kind_t;
  cd_min : Z;
  cd_max : Z
}.

Definition SIZE_MAX_double : Z := 18446744073709551616.

Definition g_config_descriptors : list config_descriptor_t := [
  mk_cd "enabled" "Enable MVGAL globally" CFG_BOOL 0 1;
  mk_cd "log_level" "Logging level" CFG_ENUM MVGAL_LOG_LEVEL_ERROR MVGAL_LOG_LEVEL_TRACE;
  mk_cd "debug" "Enable debug mode" CFG_BOOL 0 1;
  mk_cd "gpus.auto_detect" "Auto-detect GPUs" CFG_BOOL 0 1;
  mk_cd "gpus.devices" "Comma-separated GPU device list" CFG_STRING 0 0;
  mk_cd "gpus.max_gpus" "Maximum GPUs to use" CFG_INT 1 256;
  mk_cd "gpus.enable_all" "Enable all detected GPUs" CFG_BOOL 0 1;
  mk_cd "scheduler.strategy" "Work distribution strategy" CFG_ENUM
    (strategy_value MVGAL_STRATEGY_ROUND_ROBIN) (strategy_value MVGAL_STRATEGY_CUSTOM);
  mk_cd "scheduler.dynamic_load_balance" "Enable dynamic load balancing" CFG_BOOL 0 1;
  mk_cd "scheduler.thermal_aware" "Enable thermal-aware scheduling" CFG_BOOL 0 1;
  mk_cd "scheduler.power_aware" "Enable power-aware scheduling" CFG_BOOL 0 1;
  mk_cd "scheduler.load_balance_threshold" "Load imbalance threshold" CFG_FLOAT 0 1;
  mk_cd "scheduler.max_queued_workloads" "Maximum queued workloads" CFG_INT 1 1048576;
  mk_cd "memory.use_dmabuf" "Use DMA-BUF sharing" CFG_BOOL 0 1;
  mk_cd "memory.use_p2p" "Use PCIe peer-to-peer transfers" CFG_BOOL 0 1;
  mk_cd "memory.replicate_small" "Replicate small buffers" CFG_BOOL 0 1;
  mk_cd "memory.replicate_threshold" "Small-buffer replication threshold" CFG_SIZE 0 SIZE_MAX_double;
  mk_cd "memory.max_buffer_size" "Maximum buffer size" CFG_SIZE 0 SIZE_MAX_double;
  mk_cd "vulkan.enabled" "Enable Vulkan layer" CFG_BOOL 0 1;
  mk_cd "vulkan.intercept_all" "Intercept all Vulkan calls" CFG_BOOL 0 1;
  mk_cd "vulkan.layer_path" "Path to Vulkan layer library" CFG_STRING 0 0;
  mk_cd "opencl.enabled" "Enable OpenCL interception" CFG_BOOL 0 1;
  mk_cd "opencl.preload" "Use OpenCL LD_PRELOAD" CFG_BOOL 0 1;
  mk_cd "opencl.library_path" "Path to OpenCL library" CFG_STRING 0 0;
  mk_cd "performance.profile" "Enable profiling" CFG_BOOL 0 1;
  mk_cd "performance.profile_file" "Path to profiling output" CFG_STRING 0 0;
  mk_cd "performance.profile_interval_ms" "Profiling interval in milliseconds" CFG_INT 10 3600000
].

Definition config_defaults : mvgal_config_t :=
  mk_config true MVGAL_LOG_LEVEL_INFO false
    (mk_cfg_gpus true None 16 true)
    (mk_cfg_sched (strategy_value MVGAL_STRATEGY_HYBRID) true true true (flit 3 4) 1024)
    (mk_cfg_mem true true true 4096 0)
    (mk_cfg_vk true false None)
    (mk_cfg_cl true true None)
    (mk_cfg_perf false None 1000).

(** Static storage before the first initialisation. *)
Definition config_zero : mvgal_config_t :=
  mk_config false 0 false (mk_cfg_gpus false None 0 false) (mk_cfg_sched 0 false false false f0 0)
    (mk_cfg_mem false false false 0 0) (mk_cfg_vk false false None) (mk_cfg_cl false false None)
    (mk_cfg_perf false None 0).

(** ** Access by name

    The two chains of name comparisons, as one table: how a setting is read
    and how it is written.  Integers are converted to the type of the field. *)

Inductive field : Type :=
| F_b (read : mvgal_config_t -> bool) (write : bool -> mvgal_config_t -> mvgal_config_t)
| F_i (read : mvgal_config_t -> Z) (write : Z -> mvgal_config_t -> mvgal_config_t)
| F_f (read : mvgal_config_t -> f64) (write : f64 -> mvgal_config_t -> mvgal_config_t)
| F_s (read : mvgal_config_t -> option string)
      (write : option string -> mvgal_config_t -> mvgal_config_t).

Definition config_fields : list (string * field) := [
  ("enabled", F_b c_enabled (fun v c => c <| c_enabled := v |>));
  ("log_level", F_i c_log_level (fun v c => c <| c_log_level := u32 v |>));
  ("debug", F_b c_debug (fun v c => c <| c_debug := v |>));
  ("gpus.auto_detect", F_b (fun c => cg_auto_detect (c_gpus c))
     (fun v c => c <| c_gpus ::= fun g => g <| cg_auto_detect := v |> |>));
  ("gpus.devices", F_s (fun c => cg_devices (c_gpus c))
     (fun v c => c <| c_gpus ::= fun g => g <| cg_devices := v |> |>));
  ("gpus.max_gpus", F_i (fun c => cg_max_gpus (c_gpus c))
     (fun v c => c <| c_gpus ::= fun g => g <| cg_max_gpus := u32 v |> |>));
  ("gpus.enable_all", F_b (fun c => cg_enable_all (c_gpus c))
     (fun v c => c <| c_gpus ::= fun g => g <| cg_enable_all := v |> |>));
  ("scheduler.strategy", F_i (fun c => ch_strategy (c_scheduler c))
     (fun v c => c <| c_scheduler ::= fun h => h <| ch_strategy := u32 v |> |>));
  ("scheduler.dynamic_load_balance", F_b (fun c => ch_dynamic_load_balance (c_scheduler c))
     (fun v c => c <| c_scheduler ::= fun h => h <| ch_dynamic_load_balance := v |> |>));
  ("scheduler.thermal_aware", F_b (fun c => ch_thermal_aware (c_scheduler c))
     (fun v c => c <| c_scheduler ::= fun h => h <| ch_thermal_aware := v |> |>));
  ("scheduler.power_aware", F_b (fun c => ch_power_aware (c_scheduler c))
     (fun v c => c <| c_scheduler ::= fun h => h <| ch_power_aware := v |> |>));
  ("scheduler.load_balance_threshold", F_f (fun c => f64_of_f32 (ch_load_balance_threshold (c_scheduler c)))
     (fun v c => c <| c_scheduler ::= fun h => h <| ch_load_balance_threshold := f32_of_f64 v |> |>));
  ("scheduler.max_queued_workloads", F_i (fun c => ch_max_queued_workloads (c_scheduler c))
     (fun v c => c <| c_scheduler ::= fun h => h <| ch_max_queued_workloads := u32 v |> |>));
  ("memory.use_dmabuf", F_b (fun c => cm_use_dmabuf (c_memory c))
     (fun v c => c <| c_memory ::= fun m => m <| cm_use_dmabuf := v |> |>));
  ("memory.use_p2p", F_b (fun c => cm_use_p2p (c_memory c))
     (fun v c => c <| c_memory ::= fun m => m <| cm_use_p2p := v |> |>));
  ("memory.replicate_small", F_b (fun c => cm_replicate_small (c_memory c))
     (fun v c => c <| c_memory ::= fun m => m <| cm_replicate_small := v |> |>));
  ("memory.replicate_threshold", F_i (fun c => int64 (cm_replicate_threshold (c_memory c)))
     (fun v c => c <| c_memory ::= fun m => m <| cm_replicate_threshold := u64 v |> |>));
  ("memory.max_buffer_size", F_i (fun c => int64 (cm_max_buffer_size (c_memory c)))
     (fun v c => c <| c_memory ::= fun m => m <| cm_max_buffer_size := u64 v |> |>));
  ("vulkan.enabled", F_b (fun c => cv_enabled (c_vulkan c))
     (fun v c => c <| c_vulkan ::= fun k => k <| cv_enabled := v |> |>));
  ("vulkan.intercept_all", F_b (fun c => cv_intercept_all (c_vulkan c))
     (fun v c => c <| c_vulkan ::= fun k => k <| cv_intercept_all := v |> |>));
  ("vulkan.layer_path", F_s (fun c => cv_layer_path (c_vulkan c))
     (fun v c => c <| c_vulkan ::= fun k => k <| cv_layer_path := v |> |>));
  ("opencl.enabled", F_b (fun c => cl_enabled (c_opencl c))
     (fun v c => c <| c_opencl ::= fun o => o <| cl_enabled := v |> |>));
  ("opencl.preload", F_b (fun c => cl_preload (c_opencl c))
     (fun v c => c <| c_opencl ::= fun o => o <| cl_preload := v |> |>));
  ("opencl.library_path", F_s (fun c => cl_library_path (c_opencl c))
     (fun v c => c <| c_opencl ::= fun o => o <| cl_library_path := v |> |>));
  ("performance.profile", F_b (fun c => cp_profile (c_performance c))
     (fun v c => c <| c_performance ::= fun p => p <| cp_profile := v |> |>));
  ("performance.profile_file", F_s (fun c => cp_profile_file (c_performance c))
     (fun v c => c <| c_performance ::= fun p => p <| cp_profile_file := v |> |>));
  ("performance.profile_interval_ms", F_i (fun c => cp_profile_interval_ms (c_performance c))
     (fun v c => c <| c_performance ::= fun p => p <| cp_profile_interval_ms := u32 v |> |>))
]%string.

Definition find_field (name : string) : option field :=
  snd <$> (snd <$> list_find (fun e => e.1 = name) config_fields).

Definition field_value (f : field) (c : mvgal_config_t) : mvgal_config_value_u :=
  match f with
  | F_b read _ => V_b (read c)
  | F_i read _ => V_i (read c)
  | F_f read _ => V_f (read c)
  | F_s read _ => V_s (read c)
  end.

(** The first descriptor of that name. *)
Definition find_config_descriptor (name : option string) : option config_descriptor_t :=
  match name with
  | None | Some EmptyString => None
  | Some n => snd <$> list_find (fun d => cd_name d = n) g_config_descriptors
  end.

Definition public_config_type (kind : config_kind_t) : mvgal_config_value_type_t :=
  match kind with
  | CFG_BOOL => MVGAL_CONFIG_BOOL
  | CFG_INT | CFG_SIZE => MVGAL_CONFIG_INT
  | CFG_FLOAT => MVGAL_CONFIG_FLOAT
  | CFG_STRING => MVGAL_CONFIG_STRING
  | CFG_ENUM => MVGAL_CONFIG_ENUM
  end.

(** Comparison of the member that [kind] names; [None] when another member
    was written. *)
Definition config_value_equal (kind : config_kind_t) (a b : mvgal_config_value_u) : option bool :=
  match kind, a, b with
  | CFG_BOOL, V_b x, V_b y => Some (eqb x y)
  | (CFG_INT | CFG_ENUM | CFG_SIZE), V_i x, V_i y => Some (x =? y)
  | CFG_FLOAT, V_f x, V_f y => Some (SFeqb x y)
  | CFG_STRING, V_s x, V_s y => Some (bool_decide (x = y))
  | _, _, _ => None
  end.

(** [(double)i] is compared with a bound that is an integer: below [2^53],
    where the conversion is exact, or above every [int64_t].  Rounding is
    monotone, so the integers compare alike. *)
Definition validate_value (d : config_descriptor_t) (v : mvgal_config_value_u) : option bool :=
  match cd_kind d, v with
  | CFG_BOOL, V_b _ => Some true
  | (CFG_INT | CFG_ENUM | CFG_SIZE), V_i i => Some ((cd_min d <=? i) && (i <=? cd_max d))
  | CFG_FLOAT, V_f f => Some (SFleb (f64_of_Z (cd_min d)) f && SFleb f (f64_of_Z (cd_max d)))
  | CFG_STRING, V_s _ => Some true
  | _, _ => None
  end.

(** ** The module *)

Record config_callback_entry_t : Type := mk_cb_entry {
  ce_name : option string;
  ce_callback : option addr;
  ce_user_data : option addr
}.

Definition free_cb_entry : config_callback_entry_t := mk_cb_entry None None None.

(** A call of a callback: function, setting, old and new value, user data. *)
Record config_call : Type := mk_call {
  cc_callback : addr;
  cc_name : string;
  cc_old : mvgal_config_value_u;
  cc_new : mvgal_config_value_u;
  cc_user_data : option addr
}.

(** Static storage of config.c, with the calls made to callbacks, oldest
    first, and the files of the system. *)
Record config_state : Type := mk_cs {
  cs_default : mvgal_config_t;
  cs_current : mvgal_config_t;
  cs_initialized : bool;
  cs_path : option string;
  cs_callbacks : list config_callback_entry_t;
  cs_calls : list config_call;
  cs_files : gmap string string;
  cs_ticks : nat
}.
#[export] Instance config_state_eta : Eta config_state := fun r =>
  mk_cs (cs_default r) (cs_current r) (cs_initialized r) (cs_path r) (cs_callbacks r) (cs_calls r)
    (cs_files r) (cs_ticks r).

Definition MVGAL_MAX_CONFIG_CALLBACKS : nat := 32.

Definition config_start (files : gmap string string) : config_state :=
  mk_cs config_zero config_zero false None (replicate MVGAL_MAX_CONFIG_CALLBACKS free_cb_entry) [] files 0.

(** Whether the [n]-th allocation succeeds, and how many bytes a file opened
    for writing takes; [None] when it cannot be opened. *)
Class ConfigEnv : Type := {
  alloc_ok : nat -> bool;
  writable : string -> option nat
}.

Abbreviation KM := (M config_state).

Section settings.
Context `{ConfigEnv}.

Definition allocate : KM bool := fun s => Ret (alloc_ok (cs_ticks s), s <| cs_ticks ::= S |>).

(** [NULL] is copied without an allocation. *)
Definition dup_nullable_string (value : option string) : KM (option string) :=
  match value with
  | None => mret None
  | Some v => ok ← allocate; mret (if ok : bool then Some v else None)
  end.

Definition lost (value copy : option string) : bool :=
  match value, copy with Some _, None => true | _, _ => false end.

Definition mvgal_config_init : KM mvgal_error_t := fun s =>
  if cs_initialized s then Ret (MVGAL_ERROR_ALREADY_INITIALIZED, s) else
  Ret (MVGAL_SUCCESS, s <| cs_default := config_defaults |> <| cs_current := config_defaults |>
    <| cs_initialized := true |>).

Definition ensure_config : KM unit := fun s =>
  if cs_initialized s then Ret (tt, s) else (mvgal_config_init;; mret tt) s.

Definition free_owned_config_strings (c : mvgal_config_t) : mvgal_config_t :=
  c <| c_gpus ::= fun g => g <| cg_devices := None |> |>
    <| c_vulkan ::= fun k => k <| cv_layer_path := None |> |>
    <| c_opencl ::= fun o => o <| cl_library_path := None |> |>
    <| c_performance ::= fun p => p <| cp_profile_file := None |> |>.

Definition mvgal_config_shutdown : KM unit := fun s =>
  if negb (cs_initialized s) then Ret (tt, s) else
  Ret (tt, s <| cs_current ::= free_owned_config_strings |> <| cs_path := None |>
    <| cs_callbacks ::= fmap (fun _ => free_cb_entry) |> <| cs_initialized := false |>).

Definition mvgal_config_reset : KM unit := fun s =>
  if negb (cs_initialized s) then Ret (tt, s) else
  Ret (tt, s <| cs_current := cs_default s |>).

(** The calls a change of [name] makes, in table order. *)
Definition config_notices (entries : list config_callback_entry_t) (name : string)
  (old new : mvgal_config_value_u) : list config_call :=
  omap (fun e =>
    match ce_callback e with
    | Some callback =>
        if bool_decide (ce_name e = None \/ ce_name e = Some name)
        then Some (mk_call callback name old new (ce_user_data e)) else None
    | None => None
    end) entries.

Definition notify_config_callbacks (name : string) (old new : mvgal_config_value_u) : KM unit :=
  modify (fun s => s <| cs_calls ::= fun calls => calls ++ config_notices (cs_callbacks s) name old new |>).

Definition get_config_value_internal (name : string) : KM (mvgal_error_t * option mvgal_config_value_u) :=
  fun s =>
  match find_field name with
  | Some f => Ret ((MVGAL_SUCCESS, Some (field_value f (cs_current s))), s)
  | None => Ret ((MVGAL_ERROR_NOT_FOUND, None), s)
  end.

Definition set_current (f : mvgal_config_t -> mvgal_config_t) : KM mvgal_error_t :=
  modify (fun s => s <| cs_current ::= f |>);; mret MVGAL_SUCCESS.

Definition set_config_value_internal (name : string) (value : mvgal_config_value_u) : KM mvgal_error_t :=
  match find_field name, value with
  | None, _ => mret MVGAL_ERROR_NOT_FOUND
  | Some (F_b _ write), V_b v => set_current (write v)
  | Some (F_i _ write), V_i v => set_current (write v)
  | Some (F_f _ write), V_f v => set_current (write v)
  | Some (F_s _ write), V_s v =>
      copy ← dup_nullable_string v;
      if lost v copy then mret MVGAL_ERROR_OUT_OF_MEMORY else set_current (write copy)
  | Some _, _ => fails WrongMember
  end.

Definition mvgal_config_validate (name : option string) (value : option mvgal_config_value_u) : KM bool :=
  match find_config_descriptor name, value with
  | Some d, Some v => of_option WrongMember (validate_value d v)
  | _, _ => mret false
  end.

(** The status, and the value stored through [value] on success. *)
Definition mvgal_config_get_value (name : option string) (value : bool)
  : KM (mvgal_error_t * option mvgal_config_value_u) :=
  ensure_config;;
  match name, value with
  | Some n, true =>
      match find_config_descriptor name with
      | None => mret (MVGAL_ERROR_NOT_FOUND, None)
      | Some _ => get_config_value_internal n
      end
  | _, _ => mret (MVGAL_ERROR_INVALID_ARGUMENT, None)
  end.

(** The private copy of the old value, which outlives the change; [None]
    when it cannot be made. *)
Definition old_copy (kind : config_kind_t) (old : mvgal_config_value_u) : KM (option mvgal_config_value_u) :=
  match kind, old with
  | CFG_STRING, V_s s =>
      copy ← dup_nullable_string s;
      mret (if lost s copy then None else Some (V_s copy))
  | _, _ => mret (Some old)
  end.

Definition change_value (d : config_descriptor_t) (name : string) (old value : mvgal_config_value_u)
  : KM mvgal_error_t :=
  same ← of_option WrongMember (config_value_equal (cd_kind d) old value);
  if same : bool then mret MVGAL_SUCCESS else
  err ← set_config_value_internal name value;
  (if is_success err then
     r ← get_config_value_internal name;
     match r with
     | (MVGAL_SUCCESS, Some new) => notify_config_callbacks name old new
     | _ => mret tt
     end
   else mret tt);;
  mret err.

Definition mvgal_config_set_value (name : option string) (value : option mvgal_config_value_u)
  : KM mvgal_error_t :=
  ensure_config;;
  match name, value with
  | Some n, Some v =>
      match find_config_descriptor name with
      | None => mret MVGAL_ERROR_NOT_FOUND
      | Some d =>
          valid ← mvgal_config_validate name value;
          if negb valid then mret MVGAL_ERROR_INVALID_ARGUMENT else
          r ← get_config_value_internal n;
          match r with
          | (MVGAL_SUCCESS, Some old) =>
              old ← old_copy (cd_kind d) old;
              match old with
              | None => mret MVGAL_ERROR_OUT_OF_MEMORY
              | Some old => change_value d n old v
              end
          | (err, _) => mret err
          end
      end
  | _, _ => mret MVGAL_ERROR_INVALID_ARGUMENT
  end.

Definition mvgal_config_get_by_name := mvgal_config_get_value.
Definition mvgal_config_set_by_name := mvgal_config_set_value.

(** ** Whole configurations *)

Definition mvgal_config_get : KM mvgal_config_t := ensure_config;; reads cs_current.

(** All four copies are attempted before the test. *)
Definition clone_config_strings (dst src : mvgal_config_t) : KM (mvgal_error_t * mvgal_config_t) :=
  devices ← dup_nullable_string (cg_devices (c_gpus src));
  layer ← dup_nullable_string (cv_layer_path (c_vulkan src));
  library ← dup_nullable_string (cl_library_path (c_opencl src));
  file ← dup_nullable_string (cp_profile_file (c_performance src));
  let dst := dst <| c_gpus ::= fun g => g <| cg_devices := devices |> |>
    <| c_vulkan ::= fun k => k <| cv_layer_path := layer |> |>
    <| c_opencl ::= fun o => o <| cl_library_path := library |> |>
    <| c_performance ::= fun p => p <| cp_profile_file := file |> |> in
  if lost (cg_devices (c_gpus src)) devices || lost (cv_layer_path (c_vulkan src)) layer
     || lost (cl_library_path (c_opencl src)) library || lost (cp_profile_file (c_performance src)) file
  then mret (MVGAL_ERROR_OUT_OF_MEMORY, dst) else mret (MVGAL_SUCCESS, dst).

Definition mvgal_config_set (config : option mvgal_config_t) : KM mvgal_error_t :=
  ensure_config;;
  match config with
  | None => mret MVGAL_ERROR_INVALID_ARGUMENT
  | Some c =>
      r ← clone_config_strings (free_owned_config_strings c) c;
      if negb (is_success (fst r)) then mret (fst r) else set_current (fun _ => snd r)
  end.

(** ** Callbacks *)

Definition mvgal_config_register_callback (name : option string) (callback user_data : option addr)
  : KM mvgal_error_t :=
  match callback with
  | None => mret MVGAL_ERROR_INVALID_ARGUMENT
  | Some _ =>
      if bool_decide (name <> None) && bool_decide (cd_name <$> find_config_descriptor name = None)
      then mret MVGAL_ERROR_NOT_FOUND else
      entries ← reads cs_callbacks;
      match list_find (fun e => ce_callback e = None) entries with
      | None => mret MVGAL_ERROR_BUSY
      | Some (i, _) =>
          copy ← dup_nullable_string name;
          if lost name copy then mret MVGAL_ERROR_OUT_OF_MEMORY else
          modify (fun s => s <| cs_callbacks ::= <[i := mk_cb_entry copy callback user_data]> |>);;
          mret MVGAL_SUCCESS
      end
  end.

Definition mvgal_config_unregister_callback (name : option string) (callback : option addr)
  : KM mvgal_error_t :=
  match callback with
  | None => mret MVGAL_ERROR_INVALID_ARGUMENT
  | Some _ =>
      entries ← reads cs_callbacks;
      match list_find (fun e => ce_callback e = callback /\ ce_name e = name) entries with
      | None => mret MVGAL_ERROR_NOT_FOUND
      | Some (i, _) =>
          modify (fun s => s <| cs_callbacks ::= <[i := free_cb_entry]> |>);;
          mret MVGAL_SUCCESS
      end
  end.

(** ** Paths and entries *)

Definition mvgal_config_set_path (path : option string) : KM unit :=
  copy ← dup_nullable_string path;
  if lost path copy then mret tt else modify (fun s => s <| cs_path := copy |>).

Definition mvgal_config_get_default_path (s : config_state) : string :=
  default "/etc/mvgal/mvgal.conf"%string (cs_path s).

Definition mvgal_config_exists (path : option string) (s : config_state) : bool :=
  let candidate := match path with
    | Some (String c r) => String c r
    | _ => mvgal_config_get_default_path s
    end in
  bool_decide (is_Some (cs_files s !! candidate)).

Record mvgal_config_entry_t : Type := mk_entry {
  en_name : string;
  en_description : string;
  en_type : mvgal_config_value_type_t;
  en_value : mvgal_config_value_u;
  en_min : mvgal_config_value_u;
  en_max : mvgal_config_value_u
}.

(** [(int64_t)d] of a double that holds an integer. *)
Definition double_to_int64 (z : Z) : option Z :=
  if (-9223372036854775808 <=? z) && (z <=? 9223372036854775807) then Some z else None.

Definition entry_bounds (d : config_descriptor_t) : option (mvgal_config_value_u * mvgal_config_value_u) :=
  match cd_kind d with
  | CFG_INT | CFG_ENUM | CFG_SIZE =>
      lo ← double_to_int64 (cd_min d);
      hi ← double_to_int64 (cd_max d);
      Some (V_i lo, V_i hi)
  | _ => Some (V_f (f64_of_Z (cd_min d)), V_f (f64_of_Z (cd_max d)))
  end.

Definition fill_entry (d : config_descriptor_t) : KM mvgal_config_entry_t :=
  bounds ← of_option BadConversion (entry_bounds d);
  r ← get_config_value_internal (cd_name d);
  mret (mk_entry (cd_name d) (cd_description d) (public_config_type (cd_kind d))
          (default (V_i 0) (snd r)) (fst bounds) (snd bounds)).

Fixpoint fill_entries (ds : list config_descriptor_t) : KM (list mvgal_config_entry_t) :=
  match ds with
  | [] => mret []
  | d :: rest => e ← fill_entry d; es ← fill_entries rest; mret (e :: es)
  end.

(** The number returned, and the entries filled. *)
Definition mvgal_config_get_entries (entries : bool) (count : Z) : KM (Z * list mvgal_config_entry_t) :=
  ensure_config;;
  if negb entries || (count <=? 0) then mret (Z.of_nat (length g_config_descriptors), []) else
  es ← fill_entries (take (Z.to_nat count) g_config_descriptors);
  mret (Z.of_nat (length es), es).

End settings.
