(* ===== verification/ConfigText.v ===== *)
(** * Configuration text

    The INI reader and writer of src/userspace/daemon/config.c with the C
    library functions they use, loading and saving of files and strings, and
    the command line options. *)

From Corelib Require Import SpecFloat.
From Stdlib Require Import Ascii.
From S2P Require Import Prelude Float32 CString Config.
From stdpp Require Import strings.
Local Open Scope string_scope.
Local Open Scope Z_scope.

(** ** C library *)

Definition chr (n : nat) : ascii := ascii_of_nat n.
Definition nl : string := String (chr 10) "".

Fixpoint str_take (n : nat) (s : string) : string :=
  match n, s with
  | S n', String c s' => String c (str_take n' s')
  | _, _ => ""
  end.

(** What a [char] array holds up to its first NUL. *)
Fixpoint c_string (s : string) : string :=
  match s with
  | String c s' => if code c =? 0 then "" else String c (c_string s')
  | "" => ""
  end.

Definition tolower (c : ascii) : ascii :=
  if (65 <=? code c) && (code c <=? 90) then ascii_of_N (Z.to_N (code c + 32)) else c.

Fixpoint str_map (f : ascii -> ascii) (s : string) : string :=
  match s with
  | String c s' => String (f c) (str_map f s')
  | "" => ""
  end.

(** [strncpy] into an array of [n] bytes, its last one zeroed, in lower case. *)
Definition lower_copy (n : nat) (s : string) : string := str_map tolower (str_take (n - 1) s).

(** The text before and after the first [c]: [strchr] and a NUL put there. *)
Fixpoint split_at (c : ascii) (s : string) : option (string * string) :=
  match s with
  | "" => None
  | String d s' =>
      if bool_decide (d = c) then Some ("", s')
      else match split_at c s' with
           | Some (a, b) => Some (String d a, b)
           | None => None
           end
  end.

Definition clamp (lo hi z : Z) : Z := if z <? lo then lo else if hi <? z then hi else z.

(** [strtol] in base 10, on a 64-bit [long]: saturating, zero without digits. *)
Definition strtol10 (s : string) : Z :=
  let '(neg, s) := scan_sign (skip_spaces s) in
  let v := (scan_digits 10 s 0).1 in
  clamp (-9223372036854775808) 9223372036854775807 (if neg : bool then - v else v).

(** [atoi] is [(int)strtol(s, NULL, 10)]. *)
Definition atoi (s : string) : Z := int32 (strtol10 s).
Definition atoll (s : string) : Z := strtol10 s.

(** [m * 10 ^ e] and [m * 2 ^ e] as doubles, correctly rounded. *)
Definition f64_of_dec (neg : bool) (m e : Z) : f64 :=
  match m with
  | Z.pos p =>
      if 0 <=? e then binary_normalize 53 1024 ((if neg then -1 else 1) * m * 10 ^ e) 0 neg
      else SFdiv 53 1024 (S754_finite neg p 0) (S754_finite false (Z.to_pos (10 ^ (- e))) 0)
  | _ => S754_zero neg
  end.

Definition f64_of_hex (neg : bool) (m e : Z) : f64 :=
  binary_normalize 53 1024 ((if neg then -1 else 1) * m) e neg.

(** Digits with an optional point among them: the value without the point,
    the number of digits after it, and the rest. *)
Definition scan_point (base : Z) (s : string) : option (Z * Z * string) :=
  let '(i, r) := scan_digits base s 0 in
  match r with
  | String c r' =>
      if (code c =? 46) && (starts_digit base s || starts_digit base r') then
        let '(v, rest) := scan_digits base r' i in
        Some (v, Z.of_nat (String.length r') - Z.of_nat (String.length rest), rest)
      else if starts_digit base s then Some (i, 0, r) else None
  | "" => if starts_digit base s then Some (i, 0, r) else None
  end.

(** An exponent after one of two letters; zero when there is none. *)
Definition scan_exponent (lower upper : Z) (s : string) : Z :=
  match s with
  | String c s' =>
      if (code c =? lower) || (code c =? upper) then
        let '(neg, s') := scan_sign s' in
        if starts_digit 10 s' then (if neg : bool then -1 else 1) * (scan_digits 10 s' 0).1 else 0
      else 0
  | "" => 0
  end.

Definition has_prefix (p s : string) : bool := bool_decide (str_map tolower (str_take (String.length p) s) = p).

(** What follows "0x". *)
Definition after_0x (s : string) : option string :=
  match s with
  | String c1 (String c2 s') =>
      if (code c1 =? 48) && ((code c2 =? 120) || (code c2 =? 88)) then Some s' else None
  | _ => None
  end.

Definition scan_hex_float (neg : bool) (s : string) : option f64 :=
  s' ← after_0x s;
  '(m, n, rest) ← scan_point 16 s';
  Some (f64_of_hex neg m (scan_exponent 112 80 rest - 4 * n)).

Definition scan_dec_float (neg : bool) (s : string) : f64 :=
  match scan_point 10 s with
  | Some (m, n, rest) => f64_of_dec neg m (scan_exponent 101 69 rest - n)
  | None => S754_zero false
  end.

(** [atof]: decimal, hexadecimal, infinity and NaN; zero when nothing matches. *)
Definition atof (s : string) : f64 :=
  let '(neg, s) := scan_sign (skip_spaces s) in
  if has_prefix "inf" s then S754_infinity neg
  else if has_prefix "nan" s then S754_nan
  else match scan_hex_float neg s with
       | Some v => v
       | None => scan_dec_float neg s
       end.

(** [%u] and [%zu]: at most [fuel] digits. *)
Definition digit_char (d : Z) : ascii := ascii_of_N (Z.to_N (48 + d)).

Fixpoint print_digits (fuel : nat) (n : Z) (acc : string) : string :=
  match fuel with
  | O => acc
  | S fuel' =>
      if n <? 10 then String (digit_char n) acc
      else print_digits fuel' (n / 10) (String (digit_char (n mod 10)) acc)
  end.

Definition print_u (n : Z) : string := print_digits 20 n "".

(** A quotient of naturals rounded to an integer, ties to even. *)
Definition round_even (n d : Z) : Z :=
  let q := n / d in
  match Z.compare (2 * (n mod d)) d with
  | Lt => q
  | Gt => q + 1
  | Eq => if Z.even q then q else q + 1
  end.

(** [%.2f] of a [float]; its integer part has at most 39 digits. *)
Definition print_f2 (x : f32) : string :=
  match x with
  | S754_nan => "nan"
  | S754_infinity s => if s then "-inf" else "inf"
  | S754_zero s => if s then "-0.00" else "0.00"
  | S754_finite s m e =>
      let n := if 0 <=? e then Z.pos m * 2 ^ e * 100 else round_even (Z.pos m * 100) (2 ^ (- e)) in
      (if s then "-" else "") +:+ print_digits 40 (n / 100) "" +:+ "."
      +:+ String (digit_char (n / 10 mod 10)) (String (digit_char (n mod 10)) "")
  end.

Definition print_b (b : bool) : string := if b then "true" else "false".

(** ** Reading *)

Definition is_blank (c : ascii) : bool :=
  (code c =? 32) || (code c =? 9) || (code c =? 13) || (code c =? 10).

Fixpoint trim_left (s : string) : string :=
  match s with
  | String c s' => if is_blank c then trim_left s' else s
  | "" => ""
  end.

Fixpoint trim_right (s : string) : string :=
  match s with
  | "" => ""
  | String c s' =>
      match trim_right s' with
      | "" => if is_blank c then "" else String c ""
      | r => String c r
      end
  end.

Definition trim_whitespace (s : string) : string := trim_right (trim_left s).

Definition is_one_of (s : string) (l : list string) : bool := bool_decide (s ∈ l).

Definition parse_boolean (value : string) : bool :=
  is_one_of (lower_copy 32 value) ["true"; "yes"; "1"; "on"].

Definition parse_log_level (value : string) : Z :=
  let lower := lower_copy 32 value in
  if is_one_of lower ["error"; "0"] then MVGAL_LOG_LEVEL_ERROR
  else if is_one_of lower ["warn"; "warning"; "1"] then MVGAL_LOG_LEVEL_WARN
  else if is_one_of lower ["info"; "2"] then MVGAL_LOG_LEVEL_INFO
  else if is_one_of lower ["debug"; "3"] then MVGAL_LOG_LEVEL_DEBUG
  else if is_one_of lower ["trace"; "4"] then MVGAL_LOG_LEVEL_TRACE
  else MVGAL_LOG_LEVEL_INFO.

Definition parse_strategy (value : string) : mvgal_distribution_strategy_t :=
  let lower := lower_copy 32 value in
  if is_one_of lower ["afr"] then MVGAL_STRATEGY_AFR
  else if is_one_of lower ["sfr"] then MVGAL_STRATEGY_SFR
  else if is_one_of lower ["task"] then MVGAL_STRATEGY_TASK
  else if is_one_of lower ["compute"; "compute_offload"] then MVGAL_STRATEGY_COMPUTE_OFFLOAD
  else if is_one_of lower ["hybrid"] then MVGAL_STRATEGY_HYBRID
  else if is_one_of lower ["single"] then MVGAL_STRATEGY_SINGLE_GPU
  else MVGAL_STRATEGY_HYBRID.

(** The keys of a section with the assignment each makes. *)
Abbreviation setter := (string -> mvgal_config_t -> mvgal_config_t).

Definition global_keys : list (string * setter) := [
  ("enabled", fun v c => c <| c_enabled := parse_boolean v |>);
  ("log_level", fun v c => c <| c_log_level := parse_log_level v |>);
  ("loglevel", fun v c => c <| c_log_level := parse_log_level v |>);
  ("debug", fun v c => c <| c_debug := parse_boolean v |>)
].

Definition gpus_keys : list (string * setter) := [
  ("auto_detect", fun v c => c <| c_gpus ::= fun g => g <| cg_auto_detect := parse_boolean v |> |>);
  ("max_gpus", fun v c => c <| c_gpus ::= fun g => g <| cg_max_gpus := u32 (atoi v) |> |>);
  ("enable_all", fun v c => c <| c_gpus ::= fun g => g <| cg_enable_all := parse_boolean v |> |>)
].

Definition scheduler_keys : list (string * setter) := [
  ("strategy", fun v c => c <| c_scheduler ::= fun h => h <| ch_strategy := strategy_value (parse_strategy v) |> |>);
  ("dynamic_load_balance", fun v c => c <| c_scheduler ::= fun h => h <| ch_dynamic_load_balance := parse_boolean v |> |>);
  ("thermal_aware", fun v c => c <| c_scheduler ::= fun h => h <| ch_thermal_aware := parse_boolean v |> |>);
  ("power_aware", fun v c => c <| c_scheduler ::= fun h => h <| ch_power_aware := parse_boolean v |> |>);
  ("load_balance_threshold", fun v c => c <| c_scheduler ::= fun h => h <| ch_load_balance_threshold := f32_of_f64 (atof v) |> |>);
  ("max_queued_workloads", fun v c => c <| c_scheduler ::= fun h => h <| ch_max_queued_workloads := u32 (atoi v) |> |>)
].

Definition memory_keys : list (string * setter) := [
  ("use_dmabuf", fun v c => c <| c_memory ::= fun m => m <| cm_use_dmabuf := parse_boolean v |> |>);
  ("use_p2p", fun v c => c <| c_memory ::= fun m => m <| cm_use_p2p := parse_boolean v |> |>);
  ("replicate_small", fun v c => c <| c_memory ::= fun m => m <| cm_replicate_small := parse_boolean v |> |>);
  ("replicate_threshold", fun v c => c <| c_memory ::= fun m => m <| cm_replicate_threshold := u64 (atoll v) |> |>);
  ("max_buffer_size", fun v c => c <| c_memory ::= fun m => m <| cm_max_buffer_size := u64 (atoll v) |> |>)
].

Definition vulkan_keys : list (string * setter) := [
  ("enabled", fun v c => c <| c_vulkan ::= fun k => k <| cv_enabled := parse_boolean v |> |>);
  ("intercept_all", fun v c => c <| c_vulkan ::= fun k => k <| cv_intercept_all := parse_boolean v |> |>)
].

Definition opencl_keys : list (string * setter) := [
  ("enabled", fun v c => c <| c_opencl ::= fun o => o <| cl_enabled := parse_boolean v |> |>);
  ("preload", fun v c => c <| c_opencl ::= fun o => o <| cl_preload := parse_boolean v |> |>)
].

Definition performance_keys : list (string * setter) := [
  ("profile", fun v c => c <| c_performance ::= fun p => p <| cp_profile := parse_boolean v |> |>);
  ("profile_interval_ms", fun v c => c <| c_performance ::= fun p => p <| cp_profile_interval_ms := u32 (atoi v) |> |>)
].

(** No section is the global one; names of sections are case-sensitive. *)
Definition section_keys (section : option string) : list (string * setter) :=
  match section with
  | None => global_keys
  | Some s =>
      if is_one_of s ["global"; "core"] then global_keys
      else if is_one_of s ["gpus"; "gpu"] then gpus_keys
      else if is_one_of s ["scheduler"] then scheduler_keys
      else if is_one_of s ["memory"] then memory_keys
      else if is_one_of s ["vulkan"] then vulkan_keys
      else if is_one_of s ["opencl"] then opencl_keys
      else if is_one_of s ["performance"] then performance_keys
      else []
  end.

Definition assign (section : option string) (key value : string) (c : mvgal_config_t) : mvgal_config_t :=
  match list_find (fun e => e.1 = lower_copy 64 key) (section_keys section) with
  | Some (_, (_, set)) => set value c
  | None => c
  end.

(** The text cut into lines: runs of line ends are skipped and a line that
    does not fit the buffer of 1024 bytes is cut. *)
Definition is_eol (c : ascii) : bool := (code c =? 10) || (code c =? 13).

Definition emit (line : string) (rest : list string) : list string :=
  match line with "" => rest | _ => line :: rest end.

Fixpoint ini_lines (line : string) (room : nat) (s : string) : list string :=
  match s with
  | "" => emit line []
  | String c s' =>
      if is_eol c then emit line (ini_lines "" 1023 s')
      else match room with
           | O => emit line (ini_lines (String c "") 1022 s')
           | S room' => ini_lines (line +:+ String c "") room' s'
           end
  end.

(** What one line asks for. *)
Inductive ini_item : Type :=
| Ini_skip
| Ini_section (name : string)
| Ini_pair (key value : string).

Definition ini_pair (t : string) : ini_item :=
  match split_at "=" t with
  | None => Ini_skip
  | Some (k, v) =>
      let key := trim_whitespace k in
      if bool_decide (key = "") then Ini_skip else Ini_pair key (trim_whitespace v)
  end.

Definition ini_item_of (line : string) : ini_item :=
  let t := trim_whitespace line in
  match t with
  | "" => Ini_skip
  | String c t' =>
      if (code c =? 59) || (code c =? 35) then Ini_skip
      else if code c =? 91 then
        match split_at "]" t' with
        | Some (name, _) => Ini_section name
        | None => ini_pair t
        end
      else ini_pair t
  end.

Section text.
Context `{ConfigEnv}.

(** The reader's section name lives on the heap; when it cannot be copied
    the text that follows is read as global. *)
Definition ini_line (section : option string) (line : string) : KM (option string) :=
  match ini_item_of line with
  | Ini_skip => mret section
  | Ini_section name => dup_nullable_string (Some name)
  | Ini_pair key value =>
      modify (fun s => s <| cs_current ::= assign section key value |>);; mret section
  end.

Fixpoint ini_run (section : option string) (lines : list string) : KM unit :=
  match lines with
  | [] => mret tt
  | l :: rest => section ← ini_line section l; ini_run section rest
  end.

Definition parse_ini_data (data : option string) : KM unit :=
  match data with
  | None => mret tt
  | Some d => ini_run None (ini_lines "" 1023 (c_string d))
  end.

Definition mvgal_config_load (filepath : option string) : KM mvgal_error_t :=
  ensure_config;;
  match filepath with
  | None | Some "" => mret MVGAL_SUCCESS
  | Some path =>
      file ← reads (fun s => cs_files s !! path);
      match file with
      | None => mret MVGAL_SUCCESS
      | Some data =>
          (if 0 <? Z.of_nat (String.length data) then
             ok ← allocate;
             if ok : bool then parse_ini_data (Some data) else mret tt
           else mret tt);;
          mret MVGAL_SUCCESS
      end
  end.

Definition mvgal_config_load_string (config_string : option string) : KM mvgal_error_t :=
  ensure_config;;
  match config_string with
  | None | Some "" => mret MVGAL_SUCCESS
  | Some _ => parse_ini_data config_string;; mret MVGAL_SUCCESS
  end.

(** ** Writing *)

(** The buffer of the writer: the text so far, its size and the offset of
    the next piece. *)
Record cfg_buf : Type := mk_buf {
  bf_text : string;
  bf_size : Z;
  bf_offset : Z
}.

(** The buffer is doubled when fewer than 128 bytes are left; [vsnprintf]
    keeps what fits with its NUL. *)
Definition write_cfg (b : cfg_buf) (piece : string) : cfg_buf :=
  let size := if bf_size b <? bf_offset b + 128 then bf_size b * 2 else bf_size b in
  mk_buf (bf_text b +:+ str_take (Z.to_nat (size - bf_offset b - 1)) piece) size
    (bf_offset b + Z.of_nat (String.length piece)).

Definition log_str (level : Z) : string :=
  if level =? MVGAL_LOG_LEVEL_ERROR then "error"
  else if level =? MVGAL_LOG_LEVEL_WARN then "warn"
  else if level =? MVGAL_LOG_LEVEL_INFO then "info"
  else if level =? MVGAL_LOG_LEVEL_DEBUG then "debug"
  else if level =? MVGAL_LOG_LEVEL_TRACE then "trace"
  else "info".

Definition strat_str (strategy : Z) : string :=
  if strategy =? strategy_value MVGAL_STRATEGY_AFR then "afr"
  else if strategy =? strategy_value MVGAL_STRATEGY_SFR then "sfr"
  else if strategy =? strategy_value MVGAL_STRATEGY_TASK then "task"
  else if strategy =? strategy_value MVGAL_STRATEGY_COMPUTE_OFFLOAD then "compute"
  else if strategy =? strategy_value MVGAL_STRATEGY_HYBRID then "hybrid"
  else if strategy =? strategy_value MVGAL_STRATEGY_SINGLE_GPU then "single"
  else "hybrid".

(** A section header and its lines; every line ends, and all sections but
    the last are followed by an empty line. *)
Definition piece (lines : list string) (gap : string) : string :=
  foldr (fun l rest => l +:+ nl +:+ rest) gap lines.

Definition global_lines (c : mvgal_config_t) : list string :=
  ["[global]"; "enabled=" +:+ print_b (c_enabled c); "log_level=" +:+ log_str (c_log_level c);
   "debug=" +:+ print_b (c_debug c)].

Definition gpus_lines (g : config_gpus) : list string :=
  ["[gpus]"; "auto_detect=" +:+ print_b (cg_auto_detect g); "max_gpus=" +:+ print_u (cg_max_gpus g);
   "enable_all=" +:+ print_b (cg_enable_all g)].

Definition scheduler_lines (h : config_scheduler) : list string :=
  ["[scheduler]"; "strategy=" +:+ strat_str (ch_strategy h);
   "dynamic_load_balance=" +:+ print_b (ch_dynamic_load_balance h);
   "thermal_aware=" +:+ print_b (ch_thermal_aware h);
   "power_aware=" +:+ print_b (ch_power_aware h);
   "load_balance_threshold=" +:+ print_f2 (ch_load_balance_threshold h);
   "max_queued_workloads=" +:+ print_u (ch_max_queued_workloads h)].

Definition memory_lines (m : config_memory) : list string :=
  ["[memory]"; "use_dmabuf=" +:+ print_b (cm_use_dmabuf m); "use_p2p=" +:+ print_b (cm_use_p2p m);
   "replicate_small=" +:+ print_b (cm_replicate_small m);
   "replicate_threshold=" +:+ print_u (cm_replicate_threshold m);
   "max_buffer_size=" +:+ print_u (cm_max_buffer_size m)].

Definition vulkan_lines (k : config_vulkan) : list string :=
  ["[vulkan]"; "enabled=" +:+ print_b (cv_enabled k); "intercept_all=" +:+ print_b (cv_intercept_all k)].

Definition opencl_lines (o : config_opencl) : list string :=
  ["[opencl]"; "enabled=" +:+ print_b (cl_enabled o); "preload=" +:+ print_b (cl_preload o)].

Definition performance_lines (p : config_performance) : list string :=
  ["[performance]"; "profile=" +:+ print_b (cp_profile p);
   "profile_interval_ms=" +:+ print_u (cp_profile_interval_ms p)].

(** The pieces in the order they are written. *)
Definition config_pieces (c : mvgal_config_t) : list string :=
  [piece (global_lines c) nl; piece (gpus_lines (c_gpus c)) nl;
   piece (scheduler_lines (c_scheduler c)) nl; piece (memory_lines (c_memory c)) nl;
   piece (vulkan_lines (c_vulkan c)) nl; piece (opencl_lines (c_opencl c)) nl;
   piece (performance_lines (c_performance c)) ""].

Definition config_text (c : mvgal_config_t) : string :=
  bf_text (fold_left write_cfg (config_pieces c) (mk_buf "" 4096 0)).

(** The status, and the text stored through [config_string]. *)
Definition mvgal_config_save_string (config_string : bool) : KM (mvgal_error_t * option string) :=
  if negb config_string then mret (MVGAL_ERROR_INVALID_ARGUMENT, None) else
  ready ← reads cs_initialized;
  if negb ready then mret (MVGAL_ERROR_NOT_INITIALIZED, None) else
  ok ← allocate;
  if negb ok then mret (MVGAL_ERROR_OUT_OF_MEMORY, None) else
  c ← reads cs_current;
  mret (MVGAL_SUCCESS, Some (config_text c)).

(** [fwrite] stores as much as the file takes. *)
Definition mvgal_config_save (filepath : option string) : KM mvgal_error_t :=
  match filepath with
  | None | Some "" => mret MVGAL_ERROR_INVALID_ARGUMENT
  | Some path =>
      ready ← reads cs_initialized;
      if negb ready then mret MVGAL_ERROR_NOT_INITIALIZED else
      r ← mvgal_config_save_string true;
      match r with
      | (MVGAL_SUCCESS, Some text) =>
          match writable path with
          | None => mret MVGAL_ERROR_DRIVER
          | Some n =>
              modify (fun s => s <| cs_files ::= <[path := str_take n text]> |>);;
              mret (if (n =? 0)%nat then MVGAL_ERROR_DRIVER else MVGAL_SUCCESS)
          end
      | (err, _) => mret err
      end
  end.

(** What is printed. *)
Definition mvgal_config_print : KM string :=
  r ← mvgal_config_save_string true;
  match r with
  | (MVGAL_SUCCESS, Some text) => mret text
  | _ => mret ("# Failed to render MVGAL configuration" +:+ nl)
  end.

(** ** Options *)

Fixpoint parse_args (args : list string) (consumed : Z) : KM Z :=
  match args with
  | [] => mret consumed
  | a :: rest =>
      let flag :=
        if bool_decide (a = "--mvgal-disable") then
          mvgal_config_set_value (Some "enabled") (Some (V_b false));; parse_args rest (consumed + 1)
        else if bool_decide (a = "--mvgal-debug") then
          mvgal_config_set_value (Some "debug") (Some (V_b true));; parse_args rest (consumed + 1)
        else parse_args rest consumed in
      match rest with
      | v :: rest' =>
          if bool_decide (a = "--mvgal-config") then
            mvgal_config_set_path (Some v);; mvgal_config_load (Some v);; parse_args rest' (consumed + 2)
          else if bool_decide (a = "--mvgal-strategy") then
            mvgal_config_set_value (Some "scheduler.strategy")
              (Some (V_i (strategy_value (parse_strategy v))));;
            parse_args rest' (consumed + 2)
          else flag
      | [] => flag
      end
  end.

(** [argv[0]] is skipped. *)
Definition mvgal_config_parse_args (argv : list string) : KM Z := parse_args (tail argv) 0.

End text.
