(* ===== verification/ConfigTheory.v ===== *)
(** * Properties of the configuration

    Settings keep their kinds and ranges, and a value set by name is read back
    and changes nothing else. *)

From Corelib Require Import SpecFloat.
From S2P Require Import Prelude Float32 CString Config ConfigText.
From stdpp Require Import strings.
Local Open Scope Z_scope.

(** ** The tables *)

Definition is_int64 (z : Z) : Prop := -9223372036854775808 <= z <= 9223372036854775807.

Lemma int64_small z : is_int64 z -> int64 z = z.
Proof. unfold is_int64, int64. intros. rewrite Z.mod_small; lia. Qed.

Lemma int64_u64 z : is_int64 z -> 0 <= z -> int64 (u64 z) = z.
Proof. intros Hz H0. rewrite u64_small by (unfold is_int64, is_u64, U64_MAX in *; lia). by apply int64_small. Qed.

(** A value as its member's C type can hold it. *)
Definition value_ok (v : mvgal_config_value_u) : Prop :=
  match v with V_i i => is_int64 i | _ => True end.

(** What a field holds after a value was written to it. *)
Definition stored (v : mvgal_config_value_u) : mvgal_config_value_u :=
  match v with V_f f => V_f (f64_of_f32 (f32_of_f64 f)) | _ => v end.

Definition write_field (f : field) (v : mvgal_config_value_u) (c : mvgal_config_t) : option mvgal_config_t :=
  match f, v with
  | F_b _ write, V_b x => Some (write x c)
  | F_i _ write, V_i x => Some (write x c)
  | F_f _ write, V_f x => Some (write x c)
  | F_s _ write, V_s x => Some (write x c)
  | _, _ => None
  end.

(** A field that belongs to a descriptor: values of the descriptor's range
    can be written and are read back. *)
Definition field_ok (d : config_descriptor_t) (f : field) : Prop :=
  forall v c, value_ok v -> validate_value d v = Some true ->
    exists c', write_field f v c = Some c' /\ field_value f c' = stored v.

(** All settings as one vector. *)
Definition values (c : mvgal_config_t) : list mvgal_config_value_u :=
  (fun e => field_value e.2 c) <$> config_fields.

Lemma tables_agree : Forall2 (fun d e => cd_name d = e.1 /\ field_ok d e.2) g_config_descriptors config_fields.
Proof.
  unfold g_config_descriptors, config_fields.
  repeat (apply List.Forall2_cons; [split; [reflexivity|]|]); [.. | apply List.Forall2_nil];
    intros [] c Hv Hd; try discriminate Hd; (eexists; split; [reflexivity|]); try reflexivity;
    cbn in Hd; injection Hd as Hd; apply andb_true_iff in Hd as [H1%Z.leb_le H2%Z.leb_le]; cbn -[u32 u64 int64]; f_equal;
    first [by apply int64_u64
          |apply u32_small; unfold is_u32, U32_MAX, MVGAL_LOG_LEVEL_ERROR, MVGAL_LOG_LEVEL_TRACE in *; cbn in *; lia].
Qed.

(** A write changes one component of the vector. *)
Definition writes_at (i : nat) (f : field) : Prop :=
  forall v c c', write_field f v c = Some c' -> values c' = <[i := field_value f c']> (values c).

Lemma fields_write_at : Forall2 writes_at (seq 0 27) (config_fields.*2).
Proof.
  cbn [seq config_fields fmap list_fmap snd].
  repeat (apply List.Forall2_cons; [intros [] c c' E; try discriminate E; injection E as <-; reflexivity|]).
  apply List.Forall2_nil.
Qed.

Lemma names_unique : NoDup config_fields.*1.
Proof. refine (bool_decide_unpack _ _). vm_compute. exact I. Qed.

(** The value of a setting; [None] for a name that is not one. *)
Definition setting (n : string) (c : mvgal_config_t) : option mvgal_config_value_u :=
  (fun f => field_value f c) <$> find_field n.

Lemma find_field_at i n f : config_fields !! i = Some (n, f) -> find_field n = Some f.
Proof.
  intros Hi. unfold find_field.
  destruct (list_find (fun e : string * field => e.1 = n) config_fields) as [[j e]|] eqn:E.
  - apply list_find_Some in E as (Hj & En & _). cbn.
    assert (j = i) as ->.
    { eapply (NoDup_lookup _ _ _ n names_unique); rewrite list_lookup_fmap; [rewrite Hj|rewrite Hi]; cbn; congruence. }
    rewrite Hi in Hj. by injection Hj as <-.
  - apply list_find_None in E. exfalso.
    by apply (Forall_lookup_1 _ _ _ _ E Hi).
Qed.

Lemma find_field_lookup n f : find_field n = Some f -> exists i, config_fields !! i = Some (n, f).
Proof.
  unfold find_field. destruct (list_find _ _) as [[j [n' g]]|] eqn:E; [|done].
  apply list_find_Some in E as (Hj & En & _). cbn in *. intros [= <-]. subst. eauto.
Qed.

(** A descriptor and its field sit at the same place of the tables. *)
Lemma descriptor_field n d :
  find_config_descriptor (Some n) = Some d ->
  exists i f, config_fields !! i = Some (n, f) /\ field_ok d f /\ find_field n = Some f /\ writes_at i f.
Proof.
  intros Hd. assert (exists i, g_config_descriptors !! i = Some d /\ cd_name d = n) as (i & Hi & En).
  { destruct n as [|a n]; [done|]. cbn [find_config_descriptor] in Hd.
    destruct (list_find _ _) as [[j d']|] eqn:E; [|done]. apply list_find_Some in E as (Hj & En & _).
    injection Hd as <-. eauto. }
  destruct (Forall2_lookup_l _ _ _ _ _ tables_agree Hi) as ([n' f] & Hf & En' & Hok). cbn in *.
  rewrite En in En'. subst n'. exists i, f. split_and!; [done|done|by eapply find_field_at|].
  assert (Hs : config_fields.*2 !! i = Some f) by (rewrite list_lookup_fmap, Hf; done).
  destruct (Forall2_lookup_r _ _ _ _ _ fields_write_at Hs) as (j & Hj & Hw).
  apply lookup_seq in Hj as [-> _]. done.
Qed.

Lemma setting_at i n f c : config_fields !! i = Some (n, f) -> values c !! i = setting n c.
Proof.
  intros Hi. unfold values, setting. rewrite list_lookup_fmap, Hi, (find_field_at _ _ _ Hi). done.
Qed.

Lemma write_frame i n f v c c' n' :
  config_fields !! i = Some (n, f) -> writes_at i f -> write_field f v c = Some c' ->
  n' <> n -> setting n' c' = setting n' c.
Proof.
  intros Hi Hw Hv Hne. unfold setting. destruct (find_field n') as [g|] eqn:Hg; [|done].
  destruct (find_field_lookup _ _ Hg) as (j & Hj).
  assert (i <> j) by congruence.
  pose proof (setting_at _ _ _ c' Hj) as E'. pose proof (setting_at _ _ _ c Hj) as E.
  rewrite (Hw _ _ _ Hv), list_lookup_insert_ne in E' by done. rewrite E in E'.
  unfold setting in E'. by rewrite Hg in E'.
Qed.

Lemma equal_defined d f v c c' :
  validate_value d v = Some true -> write_field f v c = Some c' ->
  exists same, config_value_equal (cd_kind d) (field_value f c) v = Some same.
Proof.
  unfold validate_value, config_value_equal, write_field.
  destruct (cd_kind d), v, f; try done; cbn; eauto.
Qed.

Definition ticked (t : nat) (s : config_state) : config_state := s <| cs_ticks := t |>.

Section access.
Context `{ConfigEnv}.
Context (memory : forall k, alloc_ok k = true).

Lemma dup_ok v s : exists t, dup_nullable_string v s = Ret (v, ticked t s).
Proof.
  destruct v as [v|]; cbn; [|exists (cs_ticks s); by destruct s].
  unfold allocate, mbind, M_bind. rewrite memory. eexists. reflexivity.
Qed.

Lemma lost_same v : lost v v = false.
Proof. by destruct v. Qed.

Lemma old_copy_ok kind v s : exists t, old_copy kind v s = Ret (Some v, ticked t s).
Proof.
  destruct kind, v; try (exists (cs_ticks s); by destruct s). cbn [old_copy].
  destruct (dup_ok s0 s) as [t E]. exists t. erewrite bind_ret by exact E. by rewrite lost_same.
Qed.

Lemma set_internal_ok n f v c' s :
  find_field n = Some f -> write_field f v (cs_current s) = Some c' ->
  exists t, set_config_value_internal n v s = Ret (MVGAL_SUCCESS, ticked t (s <| cs_current := c' |>)).
Proof.
  intros Hf Hw. unfold set_config_value_internal. rewrite Hf.
  destruct f, v; try done; injection Hw as <-; try (exists (cs_ticks s); by destruct s).
  destruct (dup_ok s0 s) as [t E]. exists t. erewrite bind_ret by exact E. rewrite lost_same. done.
Qed.

Lemma get_value_ok n d s :
  cs_initialized s = true -> find_config_descriptor (Some n) = Some d ->
  mvgal_config_get_value (Some n) true s = Ret ((MVGAL_SUCCESS, setting n (cs_current s)), s).
Proof.
  intros Hi Hd. unfold mvgal_config_get_value.
  rewrite (bind_ret _ _ s tt s) by (unfold ensure_config; by rewrite Hi). rewrite Hd.
  unfold get_config_value_internal, setting.
  destruct (descriptor_field n d Hd) as (i & f & _ & _ & -> & _). done.
Qed.

(** A valid value of a setting, set by name. *)
Lemma set_value_ok n d v s :
  cs_initialized s = true -> find_config_descriptor (Some n) = Some d ->
  value_ok v -> validate_value d v = Some true ->
  exists i f c' t, config_fields !! i = Some (n, f) /\ writes_at i f /\
    write_field f v (cs_current s) = Some c' /\ field_value f c' = stored v /\
    let old := field_value f (cs_current s) in
    mvgal_config_set_value (Some n) (Some v) s =
      Ret (MVGAL_SUCCESS, ticked t
        (if decide (config_value_equal (cd_kind d) old v = Some true) then s
         else s <| cs_current := c' |>
                <| cs_calls := cs_calls s ++ config_notices (cs_callbacks s) n old (stored v) |>)).
Proof.
  intros Hi Hd Hv Hval. destruct (descriptor_field n d Hd) as (i & f & Hf & Hok & Hff & Hw).
  destruct (Hok v (cs_current s) Hv Hval) as (c' & Hc & Hst).
  destruct (equal_defined d f v _ c' Hval Hc) as [same Hs].
  destruct (old_copy_ok (cd_kind d) (field_value f (cs_current s)) s) as [t0 E0].
  unfold mvgal_config_set_value.
  setoid_rewrite (bind_ret _ _ s tt s); [|unfold ensure_config; by rewrite Hi]. rewrite Hd.
  setoid_rewrite (bind_ret _ _ s true s);
    [|unfold mvgal_config_validate; rewrite Hd; unfold of_option; by rewrite Hval].
  cbn [negb].
  setoid_rewrite (bind_ret _ _ s (MVGAL_SUCCESS, Some (field_value f (cs_current s))) s);
    [|unfold get_config_value_internal; by rewrite Hff].
  setoid_rewrite (bind_ret _ _ s _ _ E0). unfold change_value.
  setoid_rewrite (bind_ret _ _ (ticked t0 s) same _); [|unfold of_option; by rewrite Hs].
  destruct same.
  - exists i, f, c', t0. rewrite decide_True by done. by destruct s.
  - destruct (set_internal_ok n f v c' (ticked t0 s) Hff Hc) as [t E].
    exists i, f, c', t. rewrite decide_False by congruence. split_and!; [done..|].
    erewrite bind_ret by exact E. cbn [is_success].
    unfold get_config_value_internal, notify_config_callbacks, modify, mbind, M_bind. rewrite Hff.
    cbn -[config_notices field_value]. by rewrite Hst.
Qed.

(** C33. A valid value set by name is read back, in the precision of its
    field, and no other setting changes; the callbacks registered for the
    name or for all names are called once each, in table order, with the old
    and the new value, unless the value was the current one. *)
Theorem config_set_get n d v s :
  cs_initialized s = true -> find_config_descriptor (Some n) = Some d ->
  value_ok v -> validate_value d v = Some true ->
  exists s' old new, mvgal_config_set_value (Some n) (Some v) s = Ret (MVGAL_SUCCESS, s') /\
    mvgal_config_get_value (Some n) true s = Ret ((MVGAL_SUCCESS, Some old), s) /\
    mvgal_config_get_value (Some n) true s' = Ret ((MVGAL_SUCCESS, Some new), s') /\
    (forall n', n' <> n -> setting n' (cs_current s') = setting n' (cs_current s)) /\
    if decide (config_value_equal (cd_kind d) old v = Some true)
    then new = old /\ cs_calls s' = cs_calls s
    else new = stored v /\ cs_calls s' = cs_calls s ++ config_notices (cs_callbacks s) n old new.
Proof.
  intros Hi Hd Hv Hval.
  destruct (set_value_ok n d v s Hi Hd Hv Hval) as (i & f & c' & t & Hf & Hw & Hc & Hst & E).
  cbn zeta in E. set (old := field_value f (cs_current s)) in *.
  set (s' := ticked t _) in E.
  assert (Hi' : cs_initialized s' = true) by (unfold s'; case_decide; done).
  assert (Ho : setting n (cs_current s) = Some old) by (unfold setting; by rewrite (find_field_at _ _ _ Hf)).
  exists s', old, (if decide (config_value_equal (cd_kind d) old v = Some true) then old else stored v).
  split_and!; [exact E|by rewrite (get_value_ok n d s Hi Hd), Ho| | |].
  - rewrite (get_value_ok n d s' Hi' Hd). unfold s'. case_decide; [by rewrite <- Ho|].
    unfold setting. rewrite (find_field_at _ _ _ Hf). cbn. by rewrite Hst.
  - intros n' Hne. unfold s'. case_decide; [done|]. exact (write_frame i n f v _ c' n' Hf Hw Hc Hne).
  - unfold s'. case_decide; done.
Qed.

End access.

(** ** Kinds and ranges *)

(** The value has the kind of its setting and, unless it is a fraction, lies
    in its range. *)
Definition fits (d : config_descriptor_t) (v : mvgal_config_value_u) : Prop :=
  exists ok, validate_value d v = Some ok /\ (cd_kind d = CFG_FLOAT \/ ok = true).

Definition well_typed (c : mvgal_config_t) : Prop :=
  Forall (fun d => exists v, setting (cd_name d) c = Some v /\ fits d v) g_config_descriptors.

Lemma defaults_well_typed : well_typed config_defaults.
Proof.
  unfold well_typed, g_config_descriptors.
  repeat (apply List.Forall_cons;
    [eexists; split; [reflexivity|]; eexists; split; [reflexivity|]; first [by right|by left]|]).
  apply List.Forall_nil.
Qed.

Lemma stored_fits d v : value_ok v -> validate_value d v = Some true -> fits d (stored v).
Proof.
  intros Hv Hval. destruct v; try (exists true; split; [exact Hval|by right]).
  unfold fits, validate_value in *. cbn [stored]. destruct (cd_kind d) eqn:E; try done. eauto.
Qed.

Lemma descriptors_named d : d ∈ g_config_descriptors -> find_config_descriptor (Some (cd_name d)) = Some d.
Proof.
  intros Hd. assert (F : Forall (fun d => find_config_descriptor (Some (cd_name d)) = Some d) g_config_descriptors).
  { unfold g_config_descriptors. repeat (apply List.Forall_cons; [reflexivity|]). apply List.Forall_nil. }
  rewrite Forall_forall in F. by apply F.
Qed.

(** Writing a valid value keeps every setting in its range. *)
Lemma write_well_typed n d i f v c c' :
  find_config_descriptor (Some n) = Some d -> config_fields !! i = Some (n, f) -> field_ok d f -> writes_at i f ->
  value_ok v -> validate_value d v = Some true -> write_field f v c = Some c' ->
  well_typed c -> well_typed c'.
Proof.
  intros Hd Hf Hok Hw Hv Hval Hc Hwt. unfold well_typed in *. rewrite Forall_forall in *.
  intros d' Hd'. destruct (decide (cd_name d' = n)) as [En|Hne].
  - assert (d' = d) as -> by (pose proof (descriptors_named d' Hd'); congruence).
    exists (stored v). split; [|by apply stored_fits]. rewrite En. unfold setting.
    rewrite (find_field_at _ _ _ Hf). cbn. destruct (Hok v c Hv Hval) as (c2 & E & Hst). congruence.
  - rewrite (write_frame i n f v c c' _ Hf Hw Hc Hne). by apply Hwt.
Qed.

Definition config_ok (s : config_state) : Prop :=
  cs_initialized s = true -> cs_default s = config_defaults /\ well_typed (cs_current s).

Section ranges.
Context `{ConfigEnv}.

(** A call that keeps the invariant, whatever allocations do. *)
Definition keeps_ok {A : Type} (m : KM A) : Prop := forall s r s', config_ok s -> m s = Ret (r, s') -> config_ok s'.

Lemma ok_ret {A : Type} (a : A) : keeps_ok (mret a).
Proof. by intros s r s' Hs [= <- <-]. Qed.

Lemma ok_bind {A B : Type} (m : KM A) (f : A -> KM B) : keeps_ok m -> (forall a, keeps_ok (f a)) -> keeps_ok (m ≫= f).
Proof. intros Hm Hf s r s' Hs (a & s1 & E1 & E2)%bind_inv. eapply Hf; [|exact E2]. by eapply Hm. Qed.

Lemma ok_fails {A : Type} e : keeps_ok (fails e : KM A).
Proof. by intros s r s' Hs E. Qed.

Lemma ok_of_option {A : Type} e (o : option A) : keeps_ok (of_option e o).
Proof. intros s r s' Hs E. destruct o; [|done]. by injection E as <- <-. Qed.

Lemma ok_some {A B : Type} e (a : A) (f : A -> KM B) : keeps_ok (f a) -> keeps_ok (of_option e (Some a) ≫= f).
Proof. done. Qed.

Lemma ok_reads {A : Type} (f : config_state -> A) : keeps_ok (reads f).
Proof. by intros s r s' Hs [= <- <-]. Qed.

(** A change of anything but the settings and the flag. *)
Lemma ok_modify f :
  (forall s, cs_initialized (f s) = cs_initialized s /\ cs_default (f s) = cs_default s /\
     cs_current (f s) = cs_current s) -> keeps_ok (modify f).
Proof. intros Hf s r s' Hs [= <- <-]. destruct (Hf s) as (E1 & E2 & E3). unfold config_ok. by rewrite E1, E2, E3. Qed.

Lemma ok_dup v : keeps_ok (dup_nullable_string v).
Proof.
  destruct v; [|apply ok_ret]. apply ok_bind; [|intros; apply ok_ret].
  by intros s0 r s' Hs [= <- <-].
Qed.

Lemma ok_init : keeps_ok mvgal_config_init.
Proof.
  intros s r s' Hs E. unfold mvgal_config_init in E. destruct (cs_initialized s); injection E as <- <-; [done|].
  intros _. split; [done|apply defaults_well_typed].
Qed.

Lemma ok_ensure : keeps_ok ensure_config.
Proof.
  intros s r s' Hs E. unfold ensure_config in E. destruct (cs_initialized s); [by injection E as <- <-|].
  eapply ok_bind; [apply ok_init|intros; apply ok_ret|exact Hs|exact E].
Qed.

Lemma ensured s r s' : ensure_config s = Ret (r, s') -> cs_initialized s' = true.
Proof.
  unfold ensure_config. destruct (cs_initialized s) eqn:Hi; intros E; [by injection E as <- <-|].
  unfold mvgal_config_init, mbind, M_bind in E. rewrite Hi in E. by injection E as <- <-.
Qed.

Lemma ok_shutdown : keeps_ok mvgal_config_shutdown.
Proof.
  intros s r s' Hs E. unfold mvgal_config_shutdown in E.
  destruct (cs_initialized s) eqn:Hi; injection E as <- <-; done.
Qed.

Lemma ok_reset : keeps_ok mvgal_config_reset.
Proof.
  intros s r s' Hs E. unfold mvgal_config_reset in E.
  destruct (cs_initialized s) eqn:Hi; injection E as <- <-; [|done].
  destruct (Hs Hi) as [Hd _]. intros _. split; [done|]. cbn. rewrite Hd. apply defaults_well_typed.
Qed.

Lemma ok_get_internal n : keeps_ok (get_config_value_internal n).
Proof. intros s r s' Hs E. unfold get_config_value_internal in E. destruct (find_field n); by injection E as <- <-. Qed.

Lemma ok_set_internal n d v :
  find_config_descriptor (Some n) = Some d -> value_ok v -> validate_value d v = Some true ->
  keeps_ok (set_config_value_internal n v).
Proof.
  intros Hd Hv Hval. destruct (descriptor_field n d Hd) as (i & f & Hf & Hok & Hff & Hw).
  assert (Hset : forall c', (forall c, write_field f v c = Some (c' c)) -> keeps_ok (set_current c')).
  { intros c' Hc. apply ok_bind; [|intros; apply ok_ret]. intros s r s' Hs [= <- <-] Hi.
    destruct (Hs Hi) as [H1 H2]. split; [done|]. cbn.
    by eapply (write_well_typed n d i f v (cs_current s)). }
  unfold set_config_value_internal. rewrite Hff.
  destruct f, v; try apply ok_fails; try (apply Hset; intros c; reflexivity).
  intros s1 r s' Hs (copy & s2 & E1 & E2)%bind_inv. pose proof (ok_dup _ _ _ _ Hs E1) as Hs2.
  destruct (lost _ copy) eqn:El; [by injection E2 as <- <-|].
  assert (copy = s) as ->.
  { destruct s; cbn in E1, El; [|by injection E1]. apply bind_inv in E1 as (ok & s3 & _ & E1).
    injection E1 as <- _. by destruct ok. }
  eapply (Hset (write s)); [by intros c|exact Hs2|exact E2].
Qed.

Lemma ok_set_value name value :
  (forall v, value = Some v -> value_ok v) -> keeps_ok (mvgal_config_set_value name value).
Proof.
  intros Hv. unfold mvgal_config_set_value. apply ok_bind; [apply ok_ensure|]. intros _.
  destruct name as [n|], value as [v|]; try apply ok_ret. specialize (Hv v eq_refl).
  destruct (find_config_descriptor (Some n)) as [d|] eqn:Hd; [|apply ok_ret].
  unfold mvgal_config_validate. rewrite Hd.
  destruct (validate_value d v) as [[]|] eqn:Hval; [|apply ok_some, ok_ret|by intros s r s' Hs E].
  apply ok_some. cbn [negb]. apply ok_bind; [apply ok_get_internal|]. intros [e [old|]]; [|destruct e; apply ok_ret].
  destruct e; try apply ok_ret.
  apply ok_bind; [destruct (cd_kind d), old; try apply ok_ret; apply ok_bind; [apply ok_dup|intros; apply ok_ret]|].
  intros [old'|]; [|apply ok_ret]. unfold change_value.
  apply ok_bind; [apply ok_of_option|]. intros []; [apply ok_ret|].
  apply ok_bind; [by eapply ok_set_internal|]. intros err.
  apply ok_bind; [|intros; apply ok_ret]. destruct (is_success err); [|apply ok_ret].
  apply ok_bind; [apply ok_get_internal|]. intros [e [new|]]; [|destruct e; apply ok_ret].
  destruct e; try apply ok_ret. by apply ok_modify.
Qed.

Lemma ok_register name callback user : keeps_ok (mvgal_config_register_callback name callback user).
Proof.
  unfold mvgal_config_register_callback. destruct callback; [|apply ok_ret].
  destruct (_ && _); [apply ok_ret|]. apply ok_bind; [apply ok_reads|]. intros entries.
  destruct (list_find _ entries) as [[i e]|]; [|apply ok_ret].
  apply ok_bind; [apply ok_dup|]. intros copy. destruct (lost _ _); [apply ok_ret|].
  apply ok_bind; [by apply ok_modify|intros; apply ok_ret].
Qed.

Lemma ok_unregister name callback : keeps_ok (mvgal_config_unregister_callback name callback).
Proof.
  unfold mvgal_config_unregister_callback. destruct callback; [|apply ok_ret].
  apply ok_bind; [apply ok_reads|]. intros entries.
  destruct (list_find _ entries) as [[i e]|]; [|apply ok_ret].
  apply ok_bind; [by apply ok_modify|intros; apply ok_ret].
Qed.

Lemma ok_args args consumed : "--mvgal-config"%string ∉ args -> keeps_ok (parse_args args consumed).
Proof.
  remember (length args) as k eqn:Hk. revert args consumed Hk.
  induction (lt_wf k) as [k _ IH]. intros [|a rest] consumed Hk Hn; [apply ok_ret|].
  apply not_elem_of_cons in Hn as [Ha Hn]. cbn [parse_args]. cbn [length] in Hk.
  assert (Hr : forall c, keeps_ok (parse_args rest c)) by (intros c; eapply IH; [|reflexivity|done]; lia).
  set (flag := if bool_decide (a = "--mvgal-disable"%string) then _ else _).
  assert (Hflag : keeps_ok flag).
  { unfold flag. repeat case_bool_decide; [..|apply Hr];
      (apply ok_bind; [apply ok_set_value; by intros v [= <-]|intros; apply Hr]). }
  clearbody flag. destruct rest as [|v rest']; [done|]. cbn [length] in Hk.
  apply not_elem_of_cons in Hn as [Hv Hn].
  rewrite bool_decide_false by done. case_bool_decide; [|done].
  apply ok_bind.
  - apply ok_set_value. intros w [= <-]. unfold value_ok, is_int64. destruct (parse_strategy v); cbn; lia.
  - intros _. eapply IH; [|reflexivity|done]. lia.
Qed.

(** The calls that check what they store.  Options are those without a file. *)
Inductive config_step : config_state -> config_state -> Prop :=
| step_init s e s' : mvgal_config_init s = Ret (e, s') -> config_step s s'
| step_shutdown s s' : mvgal_config_shutdown s = Ret (tt, s') -> config_step s s'
| step_reset s s' : mvgal_config_reset s = Ret (tt, s') -> config_step s s'
| step_set s name value e s' :
    (forall v, value = Some v -> value_ok v) ->
    mvgal_config_set_value name value s = Ret (e, s') -> config_step s s'
| step_get s name out r s' : mvgal_config_get_value name out s = Ret (r, s') -> config_step s s'
| step_register s name callback user e s' :
    mvgal_config_register_callback name callback user s = Ret (e, s') -> config_step s s'
| step_unregister s name callback e s' :
    mvgal_config_unregister_callback name callback s = Ret (e, s') -> config_step s s'
| step_path s path s' : mvgal_config_set_path path s = Ret (tt, s') -> config_step s s'
| step_args s argv n s' :
    "--mvgal-config"%string ∉ argv -> mvgal_config_parse_args argv s = Ret (n, s') -> config_step s s'.

Inductive config_reachable : config_state -> Prop :=
| config_boot files : config_reachable (config_start files)
| config_next s s' : config_reachable s -> config_step s s' -> config_reachable s'.

Lemma step_ok s s' : config_step s s' -> config_ok s -> config_ok s'.
Proof.
  intros Hstep Hs. destruct Hstep as [? ? ? E|? ? E|? ? E|? ? ? ? ? Hv E|? n out ? ? E|? ? ? ? ? ? E|? ? ? ? ? E|? ? ? E|? argv ? ? Hn E].
  - by eapply ok_init.
  - by eapply ok_shutdown.
  - by eapply ok_reset.
  - by eapply ok_set_value.
  - revert Hs E. apply ok_bind; [apply ok_ensure|]. intros _.
    destruct n as [n|], out; try apply ok_ret. destruct (find_config_descriptor _); [apply ok_get_internal|apply ok_ret].
  - by eapply ok_register.
  - by eapply ok_unregister.
  - revert Hs E. apply ok_bind; [apply ok_dup|]. intros copy. destruct (lost _ _); [apply ok_ret|by apply ok_modify].
  - eapply ok_args; [|exact Hs|exact E]. intros Hin. apply Hn. destruct argv; [done|]. by right.
Qed.

(** C34. Settings are well typed.  In every state the calls that check their
    arguments can reach, in any order and whichever allocations fail, an
    initialised configuration gives each of the 27 named settings a value of
    its declared kind, within its declared range unless it is a fraction. *)
Theorem config_well_typed s :
  config_reachable s -> cs_initialized s = true -> well_typed (cs_current s).
Proof.
  intros Hr. assert (Hok : config_ok s) by (induction Hr; [done|by eapply step_ok]).
  intros Hi. by apply Hok.
Qed.

End ranges.
