(* ===== verification/ConfigRoundTrip.v ===== *)
(** * Saved configurations are read back

    The writer and the reader of src/userspace/daemon/config.c are inverse to
    each other on the settings the text carries. *)

From Corelib Require Import SpecFloat.
From Stdlib Require Import Ascii.
From S2P Require Import Prelude Float32 CString Config ConfigText ConfigTheory.
From stdpp Require Import strings.
Local Open Scope string_scope.
Local Open Scope Z_scope.

(** ** Text *)

Fixpoint str_forall (P : ascii -> bool) (s : string) : bool :=
  match s with
  | String c s' => P c && str_forall P s'
  | "" => true
  end.

Lemma str_app_cons c s t : String c s +:+ t = String c (s +:+ t).
Proof. done. Qed.

Lemma str_forall_app P s t : str_forall P (s +:+ t) = str_forall P s && str_forall P t.
Proof. induction s as [|c s IH]; [done|]. rewrite str_app_cons. cbn [str_forall]. by rewrite IH, andb_assoc. Qed.

Lemma str_forall_imp (P Q : ascii -> bool) s :
  (forall c, P c = true -> Q c = true) -> str_forall P s = true -> str_forall Q s = true.
Proof. intros HPQ. induction s as [|c s IH]; [done|]. cbn. rewrite !andb_true_iff. naive_solver. Qed.

Lemma str_app_assoc (s t u : string) : (s +:+ t) +:+ u = s +:+ (t +:+ u).
Proof. induction s as [|c s IH]; [done|]. by rewrite !str_app_cons, IH. Qed.

Lemma str_app_nil (s : string) : s +:+ "" = s.
Proof. induction s as [|c s IH]; [done|]. by rewrite str_app_cons, IH. Qed.

Lemma str_app_length s t : String.length (s +:+ t) = (String.length s + String.length t)%nat.
Proof. induction s as [|c s IH]; [done|]. rewrite str_app_cons. cbn [String.length]. by rewrite IH. Qed.

Lemma str_take_all n s : (String.length s <= n)%nat -> str_take n s = s.
Proof.
  revert n. induction s as [|c s IH]; intros [|n] Hn; try done; cbn in *; [lia|]. by rewrite IH by lia.
Qed.

(** A printable character that is no line end, no blank and no NUL. *)
Definition is_dark (c : ascii) : bool := negb (is_blank c) && negb (code c =? 0).

Lemma dark_not_blank c : is_dark c = true -> is_blank c = false.
Proof. unfold is_dark. rewrite andb_true_iff, negb_true_iff. tauto. Qed.

Lemma dark_not_eol c : is_dark c = true -> is_eol c = false.
Proof.
  intros Hb%dark_not_blank. unfold is_blank, is_eol in *. rewrite !orb_false_iff in Hb. by destruct Hb as [[_ ->] ->].
Qed.

Lemma dark_not_nul c : is_dark c = true -> (code c =? 0) = false.
Proof. unfold is_dark. rewrite andb_true_iff, !negb_true_iff. tauto. Qed.

Lemma trim_left_dark s : str_forall is_dark s = true -> trim_left s = s.
Proof. destruct s as [|c s]; [done|]. cbn. rewrite andb_true_iff. intros [Hc _]. by rewrite (dark_not_blank c Hc). Qed.

Lemma trim_right_dark s : str_forall is_dark s = true -> trim_right s = s.
Proof.
  induction s as [|c s IH]; [done|]. cbn. rewrite andb_true_iff. intros [Hc Hs]. rewrite (IH Hs).
  destruct s; [by rewrite (dark_not_blank c Hc)|done].
Qed.

Lemma trim_dark s : str_forall is_dark s = true -> trim_whitespace s = s.
Proof. intros Hs. unfold trim_whitespace. by rewrite trim_left_dark, trim_right_dark. Qed.

(** ** Lines *)

Definition line_ok (l : string) : Prop :=
  l <> "" /\ str_forall is_dark l = true /\ (String.length l <= 60)%nat.

Lemma ini_lines_line l line room rest :
  str_forall is_dark l = true -> (String.length l <= room)%nat ->
  ini_lines line room (l +:+ nl +:+ rest) = emit (line +:+ l) (ini_lines "" 1023 rest).
Proof.
  revert line room. induction l as [|c l IH]; intros line room Hd Hl.
  - cbn [String.append ini_lines nl]. by rewrite str_app_nil.
  - cbn in Hd. apply andb_true_iff in Hd as [Hc Hd]. cbn in Hl. destruct room as [|room]; [lia|].
    change ((String c l) +:+ nl +:+ rest) with (String c (l +:+ nl +:+ rest)). cbn [ini_lines].
    rewrite (dark_not_eol c Hc), IH by (done || lia). by rewrite str_app_assoc.
Qed.

(** The lines of a piece of text, and of what follows it. *)
Lemma ini_lines_piece lines gap rest :
  Forall line_ok lines -> gap = "" \/ gap = nl ->
  ini_lines "" 1023 (piece lines gap +:+ rest) = (lines ++ ini_lines "" 1023 rest)%list.
Proof.
  intros Hl Hg. induction Hl as [|l lines (Hne & Hd & Hlen) _ IH]; cbn [piece foldr].
  - by destruct Hg as [-> | ->].
  - unfold piece in IH. rewrite !str_app_assoc, ini_lines_line by (done || lia). rewrite IH.
    by destruct l.
Qed.

(** ** Numbers *)

Lemma digit_cases (P : Z -> Prop) : P 0 -> P 1 -> P 2 -> P 3 -> P 4 -> P 5 -> P 6 -> P 7 -> P 8 -> P 9 ->
  forall d, 0 <= d < 10 -> P d.
Proof.
  intros ?????????? d Hd.
  assert (d = 0 \/ d = 1 \/ d = 2 \/ d = 3 \/ d = 4 \/ d = 5 \/ d = 6 \/ d = 7 \/ d = 8 \/ d = 9)
    as E by lia.
  by destruct_or! E; subst.
Qed.

Lemma digit_char_val d : 0 <= d < 10 -> digit_val (digit_char d) = Some d.
Proof. by apply (digit_cases (fun d => digit_val (digit_char d) = Some d)). Qed.

(** A character [atoi] starts a number with. *)
Lemma digit_char_plain d :
  0 <= d < 10 -> is_dark (digit_char d) = true /\ is_space (digit_char d) = false /\
    (code (digit_char d) =? 45) = false /\ (code (digit_char d) =? 43) = false.
Proof. by apply (digit_cases (fun d => is_dark (digit_char d) = true /\ is_space (digit_char d) = false /\
    (code (digit_char d) =? 45) = false /\ (code (digit_char d) =? 43) = false)). Qed.

Lemma print_digits_scan fuel n acc :
  0 <= n < 10 ^ Z.of_nat fuel -> (0 < fuel)%nat ->
  scan_digits 10 (print_digits fuel n acc) 0 = scan_digits 10 acc n.
Proof.
  revert n acc. induction fuel as [|fuel IH]; intros n acc Hn Hf; [lia|]. cbn [print_digits].
  destruct (Z.ltb_spec n 10) as [Hlt|Hge].
  - cbn [scan_digits]. rewrite digit_char_val by lia. rewrite (proj2 (Z.ltb_lt _ _)) by lia. f_equal.
  - rewrite Nat2Z.inj_succ, Z.pow_succ_r in Hn by lia.
    assert (0 <= n / 10 < 10 ^ Z.of_nat fuel)
      by (split; [apply Z.div_pos; lia|apply Z.div_lt_upper_bound; lia]).
    assert (0 < fuel)%nat by (destruct fuel; [cbn in *; lia|lia]).
    rewrite IH by done. cbn [scan_digits].
    pose proof (Z.mod_pos_bound n 10 ltac:(lia)). rewrite digit_char_val by lia.
    rewrite (proj2 (Z.ltb_lt _ _)) by lia. f_equal. pose proof (Z.div_mod n 10 ltac:(lia)). lia.
Qed.

(** The text is made of digits, starts with one and is as long as allowed. *)
Lemma print_digits_shape fuel n acc :
  0 <= n < 10 ^ Z.of_nat fuel -> (0 < fuel)%nat -> str_forall is_dark acc = true ->
  str_forall is_dark (print_digits fuel n acc) = true /\
  (String.length (print_digits fuel n acc) <= fuel + String.length acc)%nat /\
  exists d rest, print_digits fuel n acc = String (digit_char d) rest /\ 0 <= d < 10.
Proof.
  revert n acc. induction fuel as [|fuel IH]; intros n acc Hn Hf Hacc; [lia|]. cbn [print_digits].
  destruct (Z.ltb_spec n 10) as [Hlt|Hge].
  - cbn [str_forall String.length]. destruct (digit_char_plain n ltac:(lia)) as [-> _].
    split_and!; [done|lia|]. exists n, acc. split; [done|lia].
  - rewrite Nat2Z.inj_succ, Z.pow_succ_r in Hn by lia.
    assert (0 <= n / 10 < 10 ^ Z.of_nat fuel)
      by (split; [apply Z.div_pos; lia|apply Z.div_lt_upper_bound; lia]).
    assert (0 < fuel)%nat by (destruct fuel; [cbn in *; lia|lia]).
    pose proof (Z.mod_pos_bound n 10 ltac:(lia)).
    destruct (IH (n / 10) (String (digit_char (n mod 10)) acc)) as (Q1 & Q2 & Q3); [done|done| |].
    + cbn [str_forall]. destruct (digit_char_plain (n mod 10) ltac:(lia)) as [-> _]. done.
    + cbn [String.length] in Q2. split_and!; [done|lia|done].
Qed.

Lemma print_u_shape n :
  is_u64 n -> str_forall is_dark (print_u n) = true /\ (String.length (print_u n) <= 20)%nat.
Proof.
  intros Hn. destruct (print_digits_shape 20 n "") as (Q1 & Q2 & _); [|lia|done|].
  - unfold is_u64, U64_MAX in Hn. change (10 ^ Z.of_nat 20) with 100000000000000000000. lia.
  - cbn [String.length] in Q2. split; [done|]. unfold print_u. lia.
Qed.

Lemma strtol10_print n : 0 <= n <= 9223372036854775807 -> strtol10 (print_u n) = n.
Proof.
  intros Hn. unfold strtol10, print_u.
  assert (Hp : 0 <= n < 10 ^ Z.of_nat 20)
    by (change (10 ^ Z.of_nat 20) with 100000000000000000000; lia).
  destruct (print_digits_shape 20 n "" Hp ltac:(lia) eq_refl) as (_ & _ & d & rest & E & Hd).
  destruct (digit_char_plain d Hd) as (_ & Hs & Hm & Hpl).
  assert (Es : scan_sign (skip_spaces (print_digits 20 n "")) = (false, print_digits 20 n "")).
  { rewrite E. cbn [skip_spaces]. rewrite Hs. cbn [scan_sign]. by rewrite Hm, Hpl. }
  rewrite Es, print_digits_scan by (done || lia). cbn [scan_digits fst]. unfold clamp.
  by rewrite (proj2 (Z.ltb_ge _ _)), (proj2 (Z.ltb_ge _ _)) by lia.
Qed.

Lemma atoi_print n : is_u32 n -> u32 (atoi (print_u n)) = n.
Proof.
  unfold is_u32, U32_MAX. intros Hn. unfold atoi. rewrite strtol10_print by lia.
  unfold u32, int32.
  pose proof (Z.div_mod (n + 2147483648) 4294967296 ltac:(lia)) as E.
  replace ((n + 2147483648) mod 4294967296 - 2147483648)
    with (n + (- ((n + 2147483648) / 4294967296)) * 4294967296) by lia.
  rewrite Z.mod_add by lia. apply Z.mod_small. lia.
Qed.

Lemma atoll_print n : 0 <= n <= 9223372036854775807 -> u64 (atoll (print_u n)) = n.
Proof.
  intros Hn. unfold atoll. rewrite strtol10_print by done. apply u64_small. unfold is_u64, U64_MAX. lia.
Qed.

(** Hundredths survive two decimals and the detour through a double. *)
Lemma f2_print n :
  (n <= 100)%nat ->
  f32_of_f64 (atof (print_f2 (flit (Z.of_nat n) 100))) = flit (Z.of_nat n) 100 /\
  str_forall is_dark (print_f2 (flit (Z.of_nat n) 100)) = true /\
  String.length (print_f2 (flit (Z.of_nat n) 100)) = 4%nat.
Proof.
  intros Hn.
  assert (F : Forall (fun n => f32_of_f64 (atof (print_f2 (flit (Z.of_nat n) 100))) = flit (Z.of_nat n) 100 /\
    str_forall is_dark (print_f2 (flit (Z.of_nat n) 100)) = true /\
    String.length (print_f2 (flit (Z.of_nat n) 100)) = 4%nat) (seq 0 101)).
  { repeat (apply List.Forall_cons; [vm_compute; split_and!; reflexivity|]). apply List.Forall_nil. }
  rewrite Forall_forall in F. apply F, elem_of_seq. lia.
Qed.

(** ** Items *)

(** A key that stands at the start of a line. *)
Definition key_ok (k : string) : bool :=
  str_forall (fun c => is_dark c && negb (bool_decide (c = "="%char))) k &&
  match k with
  | "" => false
  | String c _ => negb ((code c =? 59) || (code c =? 35) || (code c =? 91))
  end.

Lemma split_at_key k v :
  str_forall (fun c => is_dark c && negb (bool_decide (c = "="%char))) k = true ->
  split_at "=" (k +:+ "=" +:+ v) = Some (k, v).
Proof.
  induction k as [|c k IH]; [done|]. cbn [str_forall]. rewrite !andb_true_iff. intros [[_ Hc] Hk].
  rewrite str_app_cons. cbn [split_at]. rewrite IH by done. by destruct (bool_decide (c = "="%char)).
Qed.

Lemma pair_item k v :
  key_ok k = true -> str_forall is_dark v = true -> ini_item_of (k +:+ "=" +:+ v) = Ini_pair k v.
Proof.
  unfold key_ok. rewrite andb_true_iff. intros [Hk Hh] Hv.
  assert (Hd : str_forall is_dark k = true)
    by (eapply str_forall_imp; [|exact Hk]; intros c; rewrite andb_true_iff; tauto).
  unfold ini_item_of. rewrite trim_dark by (rewrite !str_forall_app, Hd, Hv; done).
  assert (Hp : ini_pair (k +:+ "=" +:+ v) = Ini_pair k v).
  { unfold ini_pair. rewrite split_at_key by done. rewrite !trim_dark by done.
    rewrite bool_decide_false; [done|]. by destruct k. }
  destruct k as [|c k]; [done|]. rewrite negb_true_iff, !orb_false_iff in Hh. destruct Hh as [[H1 H2] H3].
  rewrite str_app_cons in *. rewrite H1, H2, H3. exact Hp.
Qed.

(** The reader without allocations: what lines do to a configuration. *)
Fixpoint apply_lines (section : option string) (lines : list string) (c : mvgal_config_t) : mvgal_config_t :=
  match lines with
  | [] => c
  | l :: rest =>
      match ini_item_of l with
      | Ini_skip => apply_lines section rest c
      | Ini_section name => apply_lines (Some name) rest c
      | Ini_pair key value => apply_lines section rest (assign section key value c)
      end
  end.

Lemma pair_line section k v rest c c' :
  key_ok k = true -> str_forall is_dark v = true -> assign section k v c = c' ->
  apply_lines section ((k +:+ "=" +:+ v) :: rest) c = apply_lines section rest c'.
Proof. intros Hk Hv <-. cbn [apply_lines]. by rewrite pair_item. Qed.

Definition set_config (c : mvgal_config_t) (s : config_state) : config_state := s <| cs_current := c |>.

Section roundtrip.
Context `{ConfigEnv}.
Context (memory : forall k, alloc_ok k = true).

Lemma ini_run_apply section lines s :
  exists t, ini_run section lines s = Ret (tt, ticked t (set_config (apply_lines section lines (cs_current s)) s)).
Proof.
  revert section s. induction lines as [|l lines IH]; intros section s; cbn [ini_run apply_lines].
  - exists (cs_ticks s). by destruct s.
  - unfold ini_line. destruct (ini_item_of l) as [|name|k v].
    + setoid_rewrite (bind_ret _ _ s section s); [|done]. apply IH.
    + destruct (dup_ok memory (Some name) s) as [t E]. setoid_rewrite (bind_ret _ _ _ _ _ E).
      destruct (IH (Some name) (ticked t s)) as [t' E']. exists t'. rewrite E'. by destruct s.
    + setoid_rewrite (bind_ret _ _ s section (set_config (assign section k v (cs_current s)) s));
        [|by destruct s].
      destruct (IH section (set_config (assign section k v (cs_current s)) s)) as [t' E'].
      exists t'. rewrite E'. by destruct s.
Qed.

End roundtrip.

(** ** The settings the text carries *)

(** What the text can represent: the levels and strategies with a name,
    numbers in the range of their types, sizes a [long long] holds, and a
    threshold in hundredths. *)
Record savable (c : mvgal_config_t) : Prop := {
  sv_log : 0 <= c_log_level c <= 4;
  sv_strategy : ch_strategy (c_scheduler c) ∈ [1; 2; 4; 5; 6; 7];
  sv_max_gpus : is_u32 (cg_max_gpus (c_gpus c));
  sv_queued : is_u32 (ch_max_queued_workloads (c_scheduler c));
  sv_interval : is_u32 (cp_profile_interval_ms (c_performance c));
  sv_threshold : 0 <= cm_replicate_threshold (c_memory c) <= 9223372036854775807;
  sv_max_buffer : 0 <= cm_max_buffer_size (c_memory c) <= 9223372036854775807;
  sv_balance : exists n, (n <= 100)%nat /\ ch_load_balance_threshold (c_scheduler c) = flit (Z.of_nat n) 100
}.

(** [c] with the paths of [old], which the text does not carry. *)
Definition with_paths (old c : mvgal_config_t) : mvgal_config_t :=
  c <| c_gpus ::= fun g => g <| cg_devices := cg_devices (c_gpus old) |> |>
    <| c_vulkan ::= fun k => k <| cv_layer_path := cv_layer_path (c_vulkan old) |> |>
    <| c_opencl ::= fun o => o <| cl_library_path := cl_library_path (c_opencl old) |> |>
    <| c_performance ::= fun p => p <| cp_profile_file := cp_profile_file (c_performance old) |> |>.

Lemma parse_print_b b : parse_boolean (print_b b) = b.
Proof. by destruct b. Qed.

Lemma parse_log_str l : 0 <= l <= 4 -> parse_log_level (log_str l) = l.
Proof.
  intros Hl. assert (l = 0 \/ l = 1 \/ l = 2 \/ l = 3 \/ l = 4) as E by lia.
  by destruct_or! E; subst.
Qed.

Lemma parse_strat_str z : z ∈ [1; 2; 4; 5; 6; 7] -> strategy_value (parse_strategy (strat_str z)) = z.
Proof. rewrite !elem_of_cons. intros E. destruct_or! E; subst; try done. by apply not_elem_of_nil in E. Qed.

Lemma print_b_dark b : str_forall is_dark (print_b b) = true /\ (String.length (print_b b) <= 20)%nat.
Proof. destruct b; cbn; split; (done || lia). Qed.

Lemma log_str_dark l : str_forall is_dark (log_str l) = true /\ (String.length (log_str l) <= 20)%nat.
Proof. unfold log_str. repeat case_match; cbn; split; (done || lia). Qed.

Lemma strat_str_dark z : str_forall is_dark (strat_str z) = true /\ (String.length (strat_str z) <= 20)%nat.
Proof. unfold strat_str. repeat case_match; cbn; split; (done || lia). Qed.

Definition config_lines (c : mvgal_config_t) : list string :=
  (global_lines c ++ gpus_lines (c_gpus c) ++ scheduler_lines (c_scheduler c) ++ memory_lines (c_memory c)
   ++ vulkan_lines (c_vulkan c) ++ opencl_lines (c_opencl c) ++ performance_lines (c_performance c))%list.

Lemma key_line section kk k v rest c :
  kk = k +:+ "=" -> key_ok k = true -> str_forall is_dark v = true ->
  apply_lines section ((kk +:+ v) :: rest) c = apply_lines section rest (assign section k v c).
Proof. intros -> Hk Hv. rewrite str_app_assoc. by apply pair_line. Qed.


Lemma header_line section h name rest c :
  ini_item_of h = Ini_section name -> apply_lines section (h :: rest) c = apply_lines (Some name) rest c.
Proof. intros E. cbn [apply_lines]. by rewrite E. Qed.

(** The assignment at place [i] of the section's keys. *)
Lemma assign_at section k v c i key set :
  fst <$> list_find (fun e : string * setter => e.1 = lower_copy 64 k) (section_keys section) = Some i ->
  section_keys section !! i = Some (key, set) -> assign section k v c = set v c.
Proof.
  intros Hi Hs. unfold assign. destruct (list_find _ _) as [[j e]|] eqn:E; [|done]. cbn in Hi. injection Hi as ->.
  apply list_find_Some in E as (Hj & _). rewrite Hs in Hj. by injection Hj as <-.
Qed.

(** Reads one line: a header, or a key with the value after it. *)
Ltac read_line :=
  lazymatch goal with
  | |- apply_lines ?sec ((?kk +:+ ?v) :: ?rest) ?c = _ =>
      let k := eval vm_compute in (str_take (String.length kk - 1) kk) in
      let i := eval vm_compute in
        (fst <$> list_find (fun e : string * setter => e.1 = lower_copy 64 k) (section_keys sec)) in
      lazymatch i with
      | Some ?i =>
          rewrite (key_line sec kk k v rest c eq_refl eq_refl) by
            first [assumption | apply print_b_dark | apply log_str_dark | apply strat_str_dark];
          erewrite (assign_at sec k v c i) by reflexivity; cbv beta
      end
  | |- apply_lines ?sec (?h :: ?rest) ?c = _ =>
      let n := eval vm_compute in (ini_item_of h) in
      lazymatch n with Ini_section ?name =>
        rewrite (header_line sec h name rest c eq_refl)
      end
  end.

Lemma apply_config_lines c old : savable c -> apply_lines None (config_lines c) old = with_paths old c.
Proof.
  intros [Hl Hs Hg Hq Hi Ht Hm (n & Hn & Hb)].
  destruct (f2_print n Hn) as (Hf & Hfd & _). rewrite <- Hb in *.
  assert (Hu : forall z, is_u32 z -> str_forall is_dark (print_u z) = true)
    by (intros z Hz; apply print_u_shape; unfold is_u32, is_u64, U32_MAX, U64_MAX in *; lia).
  assert (Hv : forall z, 0 <= z <= 9223372036854775807 -> str_forall is_dark (print_u z) = true)
    by (intros z Hz; apply print_u_shape; unfold is_u64, U64_MAX in *; lia).
  pose proof (Hu _ Hg) as Hgd. pose proof (Hu _ Hq) as Hqd. pose proof (Hu _ Hi) as Hid.
  pose proof (Hv _ Ht) as Htd. pose proof (Hv _ Hm) as Hmd. clear Hu Hv.
  unfold config_lines, global_lines, gpus_lines, scheduler_lines, memory_lines, vulkan_lines, opencl_lines,
    performance_lines.
  cbn [app]. repeat read_line. cbn [apply_lines].
  rewrite !parse_print_b, parse_log_str, parse_strat_str, !atoi_print, !atoll_print, Hf by done.
  destruct c as [b1 lv b2 [b3 dv mg b4] [st b5 b6 b7 lb mq] [b8 b9 b10 rt mb] [b11 b12 lp] [b13 b14 cp] [b15 pf pi]].
  reflexivity.
Qed.

(** ** The written text *)

Lemma value_line_ok kk v :
  kk <> "" -> str_forall is_dark kk = true -> (String.length kk <= 40)%nat ->
  str_forall is_dark v = true -> (String.length v <= 20)%nat -> line_ok (kk +:+ v).
Proof.
  intros Hne Hk Hlk Hv Hlv. split_and!.
  - by destruct kk.
  - by rewrite str_forall_app, Hk, Hv.
  - rewrite str_app_length. lia.
Qed.

Lemma config_lines_ok c : savable c -> Forall line_ok (config_lines c).
Proof.
  intros [Hl Hs Hg Hq Hi Ht Hm (n & Hn & Hb)]. destruct (f2_print n Hn) as (_ & Hfd & Hfl). rewrite <- Hb in *.
  assert (Hu : forall z, is_u64 z -> forall kk, kk <> "" -> str_forall is_dark kk = true ->
    (String.length kk <= 40)%nat -> line_ok (kk +:+ print_u z))
    by (intros z Hz kk H1 H2 H3; destruct (print_u_shape z Hz); by apply value_line_ok).
  assert (Hh : forall h, h <> "" -> str_forall is_dark h = true -> (String.length h <= 60)%nat -> line_ok h)
    by (by intros h H1 H2 H3).
  unfold is_u32, U32_MAX in *. unfold config_lines.
  repeat (apply Forall_app; split); repeat apply List.Forall_cons; try apply List.Forall_nil;
    first [apply Hu; [unfold is_u64, U64_MAX; lia|done|reflexivity|cbn; lia]
          |apply value_line_ok; [done|reflexivity|cbn; lia|first [apply print_b_dark|apply log_str_dark|apply strat_str_dark|exact Hfd]
             |first [apply print_b_dark|apply log_str_dark|apply strat_str_dark|lia]]
          |apply Hh; [done|reflexivity|cbn; lia]].
Qed.

Definition str_concat (l : list string) : string := foldr String.append "" l.

Lemma piece_length lines gap :
  Forall line_ok lines -> (String.length gap <= 1)%nat ->
  (String.length (piece lines gap) <= 61 * length lines + 1)%nat.
Proof.
  intros Hl Hg. induction Hl as [|l lines (_ & _ & Hlen) _ IH]; cbn [piece foldr length]; [lia|].
  rewrite !str_app_length. unfold piece in IH. change (String.length nl) with 1%nat. lia.
Qed.

Lemma write_all pieces text :
  (String.length text + String.length (str_concat pieces) <= 3900)%nat ->
  bf_text (fold_left write_cfg pieces (mk_buf text 4096 (Z.of_nat (String.length text)))) = text +:+ str_concat pieces.
Proof.
  revert text. induction pieces as [|p pieces IH]; intros text Hl; cbn [fold_left str_concat foldr] in *.
  - by rewrite str_app_nil.
  - rewrite str_app_length in Hl. unfold write_cfg at 2. cbn [bf_size bf_offset bf_text].
    rewrite (proj2 (Z.ltb_ge 4096 _)) by lia. rewrite str_take_all by lia.
    rewrite <- Nat2Z.inj_add, <- str_app_length, IH by (rewrite str_app_length; unfold str_concat in *; lia).
    by rewrite str_app_assoc.
Qed.

(** The sections with the text that closes each. *)
Definition config_sections (c : mvgal_config_t) : list (list string * string) :=
  [(global_lines c, nl); (gpus_lines (c_gpus c), nl); (scheduler_lines (c_scheduler c), nl);
   (memory_lines (c_memory c), nl); (vulkan_lines (c_vulkan c), nl); (opencl_lines (c_opencl c), nl);
   (performance_lines (c_performance c), "")].

Lemma sections_text secs :
  Forall (fun e => Forall line_ok e.1 /\ (e.2 = "" \/ e.2 = nl)) secs ->
  ini_lines "" 1023 (str_concat ((fun e => piece e.1 e.2) <$> secs)) = mjoin secs.*1 /\
  (String.length (str_concat ((fun e => piece e.1 e.2) <$> secs)) <= 61 * length (mjoin secs.*1) + length secs)%nat.
Proof.
  induction 1 as [|[lines gap] secs [Hl Hg] _ [IH1 IH2]]; [done|]. cbn [fst snd] in Hl, Hg.
  rewrite !fmap_cons. cbn [fst snd]. cbn [str_concat foldr length].
  change (mjoin (lines :: secs.*1)) with (lines ++ mjoin secs.*1)%list.
  change (foldr String.append "" ?l) with (str_concat l).
  rewrite ini_lines_piece, IH1 by done. split; [done|].
  rewrite str_app_length, length_app.
  pose proof (piece_length lines gap Hl ltac:(destruct Hg as [-> | ->]; cbn; lia)). lia.
Qed.

Lemma c_string_id s : str_forall (fun c => negb (code c =? 0)) s = true -> c_string s = s.
Proof.
  induction s as [|c s IH]; [done|]. cbn [str_forall c_string]. rewrite andb_true_iff, negb_true_iff.
  intros [-> Hs]. by rewrite IH.
Qed.

Lemma sections_no_nul secs :
  Forall (fun e => Forall line_ok e.1 /\ (e.2 = "" \/ e.2 = nl)) secs ->
  str_forall (fun c => negb (code c =? 0)) (str_concat ((fun e => piece e.1 e.2) <$> secs)) = true.
Proof.
  induction 1 as [|[lines gap] secs [Hl Hg] _ IH]; [done|]. rewrite fmap_cons. cbn [str_concat foldr fst snd] in *.
  rewrite str_forall_app. apply andb_true_iff. split; [|exact IH].
  clear IH. induction Hl as [|l lines (_ & Hd & _) _ IH]; cbn [piece foldr]; [by destruct Hg as [-> | ->]|].
  rewrite !str_forall_app. unfold piece in IH. rewrite IH, !andb_true_r.
  eapply str_forall_imp; [|exact Hd]. intros c Hc. by rewrite dark_not_nul.
Qed.

Lemma config_sections_ok c :
  savable c -> Forall (fun e => Forall line_ok e.1 /\ (e.2 = "" \/ e.2 = nl)) (config_sections c).
Proof.
  intros Hl%config_lines_ok. unfold config_lines in Hl. rewrite !Forall_app in Hl.
  destruct Hl as (? & ? & ? & ? & ? & ? & ?).
  repeat (apply List.Forall_cons; [split; [done|by (left + right)]|]). apply List.Forall_nil.
Qed.

(** The whole text, and the lines the reader finds in it. *)
Lemma config_text_lines c :
  savable c -> ini_lines "" 1023 (c_string (config_text c)) = config_lines c.
Proof.
  intros Hs. pose proof (config_sections_ok c Hs) as Hok.
  destruct (sections_text _ Hok) as [Hlines Hlen].
  assert (El : mjoin (config_sections c).*1 = config_lines c).
  { unfold config_lines. cbn. by rewrite ?app_nil_r. }
  rewrite El in *. change (length (config_sections c)) with 7%nat in Hlen.
  change (length (config_lines c)) with 30%nat in Hlen.
  unfold config_text. change (config_pieces c) with ((fun e => piece e.1 e.2) <$> config_sections c).
  rewrite (write_all _ "") by (cbn [String.length]; lia).
  change ("" +:+ ?t) with t. rewrite c_string_id; [exact Hlines|by apply sections_no_nul].
Qed.

Section save_load.
Context `{ConfigEnv}.
Context (memory : forall k, alloc_ok k = true).

(** C32. What is saved is read back.  The text that saving produces for a
    configuration it can represent, loaded into any initialised module,
    sets every setting the text carries to its saved value and leaves the
    four paths, which it does not carry, as they were. *)
Theorem config_save_load s s0 :
  savable (cs_current s) -> cs_initialized s = true -> cs_initialized s0 = true ->
  exists text s1 s2, mvgal_config_save_string true s = Ret ((MVGAL_SUCCESS, Some text), s1) /\
    mvgal_config_load_string (Some text) s0 = Ret (MVGAL_SUCCESS, s2) /\
    cs_current s2 = with_paths (cs_current s0) (cs_current s).
Proof.
  intros Hs Hi Hi0. exists (config_text (cs_current s)).
  destruct (ini_run_apply memory None (config_lines (cs_current s)) s0) as [t E].
  eexists _, _. split_and!.
  - unfold mvgal_config_save_string, reads, allocate, mbind, M_bind. cbn [negb]. rewrite Hi. cbn [negb].
    rewrite memory. reflexivity.
  - unfold mvgal_config_load_string.
    setoid_rewrite (bind_ret _ _ s0 tt s0); [|unfold ensure_config; by rewrite Hi0].
    assert (Hp : parse_ini_data (Some (config_text (cs_current s))) s0 =
      ini_run None (config_lines (cs_current s)) s0)
      by (cbn [parse_ini_data]; by rewrite (config_text_lines _ Hs)).
    rewrite E in Hp.
    destruct (config_text (cs_current s)) as [|a text] eqn:Et; [|by setoid_rewrite (bind_ret _ _ _ _ _ Hp)].
    exfalso. pose proof (config_text_lines _ Hs) as El. by rewrite Et in El.
  - exact (apply_config_lines _ _ Hs).
Qed.

End save_load.
