(* ===== verification/ConfigRuns.v ===== *)
(** Runs of the configuration module: a host whose allocations succeed, on
    which the theorems of [ConfigTheory] and [ConfigRoundTrip] apply, and
    concrete runs that show where the module departs from what it means. *)

From Corelib Require Import SpecFloat.
From S2P Require Import Prelude Float32 CString Config ConfigText ConfigTheory ConfigRoundTrip.
From stdpp Require Import strings.

Local Open Scope string_scope.
Local Open Scope Z_scope.

Module Settings.

#[local] Instance roomy : ConfigEnv := {|
  alloc_ok := fun _ => true;
  writable := fun _ => Some 65536%nat
|}.

Lemma always k : alloc_ok k = true.
Proof. reflexivity. Qed.

(** The state a call leaves, or the state before it when it does not return. *)
Definition after {A} (m : KM A) (s : config_state) : config_state :=
  match m s with Ret (_, s') => s' | _ => s end.

Definition ready : config_state := after mvgal_config_init (config_start ∅).

(** One callback for all settings and one for one setting. *)
Definition watched : config_state :=
  after (mvgal_config_register_callback None (Some 10%positive) (Some 1%positive);;
         mvgal_config_register_callback (Some "gpus.max_gpus") (Some 11%positive) None) ready.

Lemma config_set_get_witness :
  exists s', mvgal_config_set_value (Some "gpus.max_gpus") (Some (V_i 3)) watched = Ret (MVGAL_SUCCESS, s') /\
    mvgal_config_get_value (Some "gpus.max_gpus") true s' = Ret ((MVGAL_SUCCESS, Some (V_i 3)), s') /\
    length (cs_calls s') = 2%nat.
Proof.
  destruct (config_set_get always "gpus.max_gpus"
    (mk_cd "gpus.max_gpus" "Maximum GPUs to use" CFG_INT 1 256) (V_i 3) watched)
    as (s' & old & new & E & Eo & En & _ & Hc).
  - reflexivity.
  - vm_compute. reflexivity.
  - vm_compute. split; discriminate.
  - reflexivity.
  - exists s'. split; [exact E|].
    assert (old = V_i 16) as -> by (vm_compute in Eo; congruence).
    vm_compute in Hc. destruct Hc as [-> Hc]. split; [exact En|].
    destruct s'. cbn in *. by rewrite Hc.
Defined.

(** Options on the command line. *)
Definition tuned : config_state :=
  after (mvgal_config_parse_args ["mvgal"; "--mvgal-debug"; "--mvgal-strategy"; "afr"]) watched.

Lemma config_well_typed_witness :
  setting "scheduler.strategy" (cs_current tuned) = Some (V_i 1) /\ well_typed (cs_current tuned).
Proof.
  split; [vm_compute; reflexivity|].
  apply config_well_typed; [|reflexivity].
  apply (config_next watched).
  - apply (config_next (after (mvgal_config_register_callback None (Some 10%positive) (Some 1%positive)) ready)).
    + apply (config_next ready); [apply (config_next (config_start ∅)); [apply config_boot|]|].
      * eapply step_init. vm_compute. reflexivity.
      * eapply (step_register _ None (Some 10%positive) (Some 1%positive)). vm_compute. reflexivity.
    + eapply (step_register _ (Some "gpus.max_gpus") (Some 11%positive) None). vm_compute. reflexivity.
  - eapply (step_args _ ["mvgal"; "--mvgal-debug"; "--mvgal-strategy"; "afr"]);
      [by apply (bool_decide_unpack _)|vm_compute; reflexivity].
Defined.

Lemma tuned_savable : savable (cs_current tuned).
Proof.
  split; [vm_compute; split; discriminate|vm_compute; left|vm_compute; split; discriminate..|].
  exists 75%nat. split; [lia|]. vm_compute. reflexivity.
Qed.

(** The settings survive a save, and a load into a module with defaults. *)
Lemma config_save_load_witness :
  exists text s1 s2, mvgal_config_save_string true tuned = Ret ((MVGAL_SUCCESS, Some text), s1) /\
    mvgal_config_load_string (Some text) ready = Ret (MVGAL_SUCCESS, s2) /\
    setting "scheduler.strategy" (cs_current s2) = Some (V_i 1).
Proof.
  destruct (config_save_load always tuned ready tuned_savable eq_refl eq_refl)
    as (text & s1 & s2 & E1 & E2 & E3).
  exists text, s1, s2. split; [exact E1|]. split; [exact E2|]. rewrite E3. vm_compute. reflexivity.
Defined.

(** ** Departures *)

(** A file sets values that setting by name refuses. *)
Example load_skips_validation :
  exists s, mvgal_config_load_string (Some ("[gpus]" +:+ nl +:+ "max_gpus=0")) ready = Ret (MVGAL_SUCCESS, s) /\
    setting "gpus.max_gpus" (cs_current s) = Some (V_i 0) /\
    exists s', mvgal_config_set_value (Some "gpus.max_gpus") (Some (V_i 0)) ready
      = Ret (MVGAL_ERROR_INVALID_ARGUMENT, s').
Proof.
  eexists. split; [vm_compute; reflexivity|]. split; [vm_compute; reflexivity|].
  eexists. vm_compute. reflexivity.
Qed.

(** A strategy without a name in the text comes back as another. *)
Example strategy_not_saved :
  exists s text s' s'', mvgal_config_set_value (Some "scheduler.strategy") (Some (V_i 0)) ready
      = Ret (MVGAL_SUCCESS, s) /\
    mvgal_config_save_string true s = Ret ((MVGAL_SUCCESS, Some text), s') /\
    mvgal_config_load_string (Some text) s' = Ret (MVGAL_SUCCESS, s'') /\
    setting "scheduler.strategy" (cs_current s'') = Some (V_i 5).
Proof.
  eexists _, _, _, _. split; [vm_compute; reflexivity|]. split; [vm_compute; reflexivity|].
  split; [vm_compute; reflexivity|]. vm_compute. reflexivity.
Qed.

(** Listing every setting converts [(double)SIZE_MAX] to [int64_t]. *)
Example entries_convert_size_max : mvgal_config_get_entries true 27 ready = Fault BadConversion.
Proof. vm_compute. reflexivity. Qed.

End Settings.
