(* ===== verification/RustStd.v ===== *)
(** * What the Rust crates use of their language and standard library

    Panics and their effect on a mutex, arithmetic with and without overflow
    checks, and sequences of calls of an interface with the refinement of one
    interface by another. *)

From S2P Require Import Prelude.
Local Open Scope Z_scope.

(** ** Panics

    A computation that may panic: its result, [None] when it panics, and the
    state as it left it. *)
Definition P (S A : Type) : Type := S -> option A * S.

#[export] Instance P_ret S : MRet (P S) := fun A a s => (Some a, s).
#[export] Instance P_bind S : MBind (P S) := fun A B f m s =>
  match m s with
  | (Some a, s') => f a s'
  | (None, s') => (None, s')
  end.

Lemma P_bind_inv {S A B : Type} (m : P S A) (f : A -> P S B) s b s'' :
  (m ≫= f) s = (Some b, s'') -> exists a s', m s = (Some a, s') /\ f a s' = (Some b, s'').
Proof. unfold mbind, P_bind. destruct (m s) as [[a|] s']; naive_solver. Qed.

Definition panic {S A : Type} : P S A := fun s => (None, s).
Definition update {S : Type} (f : S -> S) : P S unit := fun s => (Some tt, f s).
Definition asks {S A : Type} (f : S -> A) : P S A := fun s => (Some (f s), s).

(** A [Mutex] is poisoned when a panic unwinds through its guard. *)
Record mutex (R : Type) : Type := mk_mutex {
  mx_poisoned : bool;
  mx_value : R
}.
Arguments mk_mutex {R} mx_poisoned mx_value.
Arguments mx_poisoned {R} m.
Arguments mx_value {R} m.

(** [match LOCK.lock() { Ok(mut g) => f(g.get_or_insert_with(new)), Err(_) => default }] *)
Definition with_lock {R A : Type} (new : R) (dflt : A) (f : P R A) : P (mutex (option R)) A := fun m =>
  if mx_poisoned m then (Some dflt, m)
  else match f (default new (mx_value m)) with
       | (Some a, r) => (Some a, mk_mutex false (Some r))
       | (None, r) => (None, mk_mutex true (Some r))
       end.

(** [match panic::catch_unwind(f) { Ok(v) => v, Err(_) => default }] *)
Definition catch {S A : Type} (dflt : A) (f : P S A) (s : S) : A * S :=
  let '(r, s') := f s in (default dflt r, s').

Lemma catch_lock {R A} (new : R) (dflt : A) (f : P R A) m a r :
  mx_poisoned m = false -> f (default new (mx_value m)) = (Some a, r) ->
  catch dflt (with_lock new dflt f) m = (a, mk_mutex false (Some r)).
Proof. unfold catch, with_lock. by intros -> ->. Qed.

(** ** Arithmetic

    [+], [-] and [*] on an unsigned type with values up to [max]: they panic on
    overflow in builds with overflow checks and wrap in others. *)
Class RustProfile : Type := { overflow_checks : bool }.

Section arithmetic.
Context `{RustProfile}.

Definition fit {S : Type} (max z : Z) : P S Z :=
  if (0 <=? z) && (z <=? max) then mret z
  else if overflow_checks then panic else mret (z mod (max + 1)).

Lemma fit_in {S : Type} max z (s : S) : 0 <= z <= max -> fit max z s = (Some z, s).
Proof. intros Hz. unfold fit. by rewrite (proj2 (Z.leb_le _ _)), (proj2 (Z.leb_le _ _)) by lia. Qed.

End arithmetic.

Definition saturating_add (max a b : Z) : Z := Z.min max (a + b).
Definition saturating_sub (a b : Z) : Z := Z.max 0 (a - b).

Lemma fit_mod `{RustProfile} {S : Type} max z r (s s' : S) :
  0 < max -> fit max z s = (Some r, s') -> r = z mod (max + 1) /\ s' = s.
Proof.
  intros Hm. unfold fit. destruct (Z.leb_spec 0 z), (Z.leb_spec z max); cbn;
    [|destruct overflow_checks; [done|by intros [= <- <-]]..].
  intros [= <- <-]. split; [|done]. symmetry. apply Z.mod_small. lia.
Qed.

(** The sum of a measure over a list. *)
Definition sum_by {X : Type} (f : X -> Z) (l : list X) : Z := foldr (fun x sum => f x + sum) 0 l.

Lemma sum_by_app {X : Type} (f : X -> Z) l x : sum_by f (l ++ [x]) = sum_by f l + f x.
Proof. induction l as [|y l IH]; cbn; [lia|]. unfold sum_by in IH. lia. Qed.

Lemma sum_by_nonneg {X : Type} (f : X -> Z) l : Forall (fun x => 0 <= f x) l -> 0 <= sum_by f l.
Proof. induction 1 as [|x l Hx _ IH]; cbn; [lia|]. unfold sum_by in IH. lia. Qed.

Definition i32_of_bool (b : bool) : Z := if b then 1 else 0.

(** ** Sequences of calls *)

Fixpoint run {C S A : Type} (exec : C -> S -> A * S) (calls : list C) (s : S) : list A * S :=
  match calls with
  | [] => ([], s)
  | c :: rest =>
      let '(a, s') := exec c s in
      let '(results, s'') := run exec rest s' in (a :: results, s'')
  end.

(** Every call is allowed in the state in which the specification meets it. *)
Fixpoint admissible {C T A : Type} (spec : C -> T -> A * T) (allowed : C -> T -> Prop)
    (calls : list C) (t : T) : Prop :=
  match calls with
  | [] => True
  | c :: rest => allowed c t /\ admissible spec allowed rest (spec c t).2
  end.

Section refinement.
Context {C S T A : Type} (exec : C -> S -> A * S) (spec : C -> T -> A * T).
Context (allowed : C -> T -> Prop) (R : S -> T -> Prop).
Context (step : forall c s t, R s t -> allowed c t ->
  (exec c s).1 = (spec c t).1 /\ R (exec c s).2 (spec c t).2).

Lemma run_refines calls s t :
  R s t -> admissible spec allowed calls t ->
  (run exec calls s).1 = (run spec calls t).1 /\ R (run exec calls s).2 (run spec calls t).2.
Proof.
  revert s t. induction calls as [|c calls IH]; intros s t HR Ha; [done|].
  destruct Ha as [Hc Ha]. destruct (step c s t HR Hc) as [E HR']. cbn [run].
  destruct (exec c s) as [a s'], (spec c t) as [a' t']. cbn [fst snd] in *. subst a'.
  destruct (IH s' t' HR' Ha) as [E' HR''].
  destruct (run exec calls s'), (run spec calls t'). cbn [fst snd] in *. by subst.
Qed.

End refinement.

(** ** Handles

    Registries number their entries from 1.  As a specification: the entries in
    order of creation, [None] once removed, with handle [h] the [h]-th. *)
Section handles.
Context {V : Type}.

Definition slot (h : Z) (t : list (option V)) : option V :=
  if 0 <? h then mjoin (t !! Z.to_nat (h - 1)) else None.

Definition set_slot (h : Z) (v : option V) (t : list (option V)) : list (option V) :=
  <[Z.to_nat (h - 1) := v]> t.

Lemma slot_live h (t : list (option V)) s : slot h t = Some s -> 0 < h /\ (Z.to_nat (h - 1) < length t)%nat.
Proof.
  unfold slot. destruct (Z.ltb_spec 0 h); [|done]. intros E. split; [done|].
  apply lookup_lt_is_Some. destruct (t !! _); [done|discriminate].
Qed.

Lemma slot_set_slot h h' v (t : list (option V)) s :
  slot h t = Some s -> slot h' (set_slot h v t) = if decide (h' = h) then v else slot h' t.
Proof.
  intros [Hp Hl]%slot_live. unfold slot, set_slot. case_decide as Hd.
  - subst h'. rewrite (proj2 (Z.ltb_lt 0 h)) by done. by rewrite list_lookup_insert_eq.
  - destruct (Z.ltb_spec 0 h'); [|done]. by rewrite list_lookup_insert_ne by lia.
Qed.

Lemma slot_create h (t : list (option V)) v :
  slot h (t ++ [v]) = if decide (h = Z.of_nat (length t) + 1) then v else slot h t.
Proof.
  unfold slot. case_decide as Hd.
  - subst h. rewrite (proj2 (Z.ltb_lt _ _)) by lia.
    rewrite lookup_app_r by lia. by replace (Z.to_nat _ - _)%nat with 0%nat by lia.
  - destruct (Z.ltb_spec 0 h); [|done].
    destruct (decide (Z.to_nat (h - 1) < length t)%nat); [by rewrite lookup_app_l|].
    rewrite lookup_ge_None_2 by (rewrite length_app; cbn; lia).
    by rewrite lookup_ge_None_2 by lia.
Qed.

Lemma slot_nil h : slot h [] = None.
Proof. unfold slot. by destruct (0 <? h). Qed.

End handles.
