(* ===== verification/RustFence.v ===== *)
(** * The fence registry

    safe/fence_manager/src/lib.rs: fences behind integer handles for C callers,
    in a hash map behind a mutex.  The registry implements an array of fences
    that only grows, each following the life cycle of a fence. *)

From S2P Require Import Prelude RustStd.
Local Open Scope Z_scope.

Inductive FenceState : Type := Pending | Submitted | Signalled | TimedOut | Reset.

#[export] Instance FenceState_eq_dec : EqDecision FenceState.
Proof. solve_decision. Defined.

Definition FenceState_i32 (s : FenceState) : Z :=
  match s with Pending => 0 | Submitted => 1 | Signalled => 2 | TimedOut => 3 | Reset => 4 end.

Record Fence : Type := mk_fence {
  f_id : Z;
  f_state : FenceState;
  f_gpu_index : Z;
  f_created_ns : Z;
  f_signalled_ns : Z
}.
#[export] Instance Fence_eta : Eta Fence := fun r =>
  mk_fence (f_id r) (f_state r) (f_gpu_index r) (f_created_ns r) (f_signalled_ns r).

Record FenceRegistry : Type := mk_registry {
  fr_fences : gmap Z Fence;
  fr_next_id : Z
}.
#[export] Instance FenceRegistry_eta : Eta FenceRegistry := fun r => mk_registry (fr_fences r) (fr_next_id r).

Definition registry_new : FenceRegistry := mk_registry ∅ 1.

(** [now] is what [monotonic_ns] returns. *)
Definition allocate (gpu_index now : Z) : P FenceRegistry Z := fun r =>
  let id := fr_next_id r in
  (Some id, r <| fr_next_id ::= fun n => u64 (n + 1) |>
              <| fr_fences ::= <[id := mk_fence id Pending gpu_index now 0]> |>).

Definition submit (handle : Z) : P FenceRegistry bool := fun r =>
  match fr_fences r !! handle with
  | Some f =>
      if decide (f_state f = Pending)
      then (Some true, r <| fr_fences ::= <[handle := f <| f_state := Submitted |>]> |>)
      else (Some false, r)
  | None => (Some false, r)
  end.

Definition signal (handle now : Z) : P FenceRegistry bool := fun r =>
  match fr_fences r !! handle with
  | Some f =>
      if decide (f_state f = Submitted \/ f_state f = Pending)
      then (Some true, r <| fr_fences ::= <[handle := f <| f_state := Signalled |> <| f_signalled_ns := now |>]> |>)
      else (Some false, r)
  | None => (Some false, r)
  end.

Definition state (handle : Z) (r : FenceRegistry) : option FenceState := f_state <$> fr_fences r !! handle.

Definition reset (handle : Z) : P FenceRegistry bool := fun r =>
  match fr_fences r !! handle with
  | Some f =>
      if decide (f_state f = Signalled)
      then (Some true, r <| fr_fences ::= <[handle := f <| f_state := Reset |> <| f_signalled_ns := 0 |>]> |>)
      else (Some false, r)
  | None => (Some false, r)
  end.

Definition destroy (handle : Z) : P FenceRegistry bool := fun r =>
  match fr_fences r !! handle with
  | Some _ => (Some true, r <| fr_fences ::= delete handle |>)
  | None => (Some false, r)
  end.

(** ** The C interface *)

Abbreviation REGISTRY := (mutex (option FenceRegistry)).

Definition with_registry {A : Type} (dflt : A) (f : P FenceRegistry A) : P REGISTRY A :=
  with_lock registry_new dflt f.

Definition mvgal_fence_create (gpu_index now : Z) : REGISTRY -> Z * REGISTRY :=
  catch 0 (with_registry 0 (allocate gpu_index now)).

Definition mvgal_fence_submit (handle : Z) : REGISTRY -> Z * REGISTRY :=
  catch 0 (with_registry 0 (b ← submit handle; mret (i32_of_bool b))).

Definition mvgal_fence_signal (handle now : Z) : REGISTRY -> Z * REGISTRY :=
  catch 0 (with_registry 0 (b ← signal handle now; mret (i32_of_bool b))).

Definition mvgal_fence_state (handle : Z) : REGISTRY -> Z * REGISTRY :=
  catch 0 (with_registry 0 (o ← asks (state handle); mret (from_option FenceState_i32 (-1) o))).

Definition mvgal_fence_reset (handle : Z) : REGISTRY -> Z * REGISTRY :=
  catch 0 (with_registry 0 (b ← reset handle; mret (i32_of_bool b))).

Definition mvgal_fence_destroy (handle : Z) : REGISTRY -> Z * REGISTRY :=
  catch 0 (with_registry 0 (b ← destroy handle; mret (i32_of_bool b))).

Inductive fence_call : Type :=
| Fence_create (gpu_index now : Z)
| Fence_submit (handle : Z)
| Fence_signal (handle now : Z)
| Fence_state (handle : Z)
| Fence_reset (handle : Z)
| Fence_destroy (handle : Z).

Definition fence_exec (c : fence_call) : REGISTRY -> Z * REGISTRY :=
  match c with
  | Fence_create gpu_index now => mvgal_fence_create gpu_index now
  | Fence_submit h => mvgal_fence_submit h
  | Fence_signal h now => mvgal_fence_signal h now
  | Fence_state h => mvgal_fence_state h
  | Fence_reset h => mvgal_fence_reset h
  | Fence_destroy h => mvgal_fence_destroy h
  end.

(** ** Specification

    The fences in order of creation; [None] once destroyed.  Handle [h] is the
    [h]-th fence. *)
Abbreviation fences := (list (option FenceState)).

(** The life cycle: pending, submitted, signalled, reset. *)
Definition advance (c : fence_call) (s : FenceState) : option FenceState :=
  match c, s with
  | Fence_submit _, Pending => Some Submitted
  | Fence_signal _ _, (Pending | Submitted) => Some Signalled
  | Fence_reset _, Signalled => Some Reset
  | _, _ => None
  end.

Definition fence_spec (c : fence_call) (t : fences) : Z * fences :=
  match c with
  | Fence_create _ _ => (Z.of_nat (length t) + 1, t ++ [Some Pending])
  | Fence_state h => (from_option FenceState_i32 (-1) (slot h t), t)
  | Fence_destroy h => match slot h t with Some _ => (1, set_slot h None t) | None => (0, t) end
  | Fence_submit h | Fence_signal h _ | Fence_reset h =>
      match slot h t ≫= advance c with
      | Some s => (1, set_slot h (Some s) t)
      | None => (0, t)
      end
  end.

(** Handles are 64 bits wide. *)
Definition fence_allowed (c : fence_call) (t : fences) : Prop :=
  Z.of_nat (length t) + 1 < U64_MAX.

Definition fence_rel (m : REGISTRY) (t : fences) : Prop :=
  let r := default registry_new (mx_value m) in
  mx_poisoned m = false /\ fr_next_id r = Z.of_nat (length t) + 1 /\
  forall h, state h r = slot h t.

(** A call under the lock of a registry that is not poisoned. *)
Lemma with_registry_run {A} (dflt : A) (f : P FenceRegistry A) m a r :
  mx_poisoned m = false -> f (default registry_new (mx_value m)) = (Some a, r) ->
  catch dflt (with_registry dflt f) m = (a, mk_mutex false (Some r)).
Proof. apply catch_lock. Qed.

(** A change of the state of one live fence. *)
Lemma fence_rel_update m t h f g s v :
  fence_rel m t -> fr_fences (default registry_new (mx_value m)) !! h = Some f -> slot h t = Some s ->
  f_state <$> g = v ->
  fence_rel (mk_mutex false (Some ((default registry_new (mx_value m)) <| fr_fences ::= partial_alter (fun _ => g) h |>)))
    (set_slot h v t).
Proof.
  intros (_ & Hn & Hs) Hf Hl Hg. split; [done|]. cbn. split.
  - unfold set_slot. by rewrite length_insert.
  - intros h'. unfold state. rewrite (slot_set_slot _ _ _ _ _ Hl), <- Hs. cbn. case_decide as Hd.
    + subst h'. by rewrite lookup_partial_alter_eq.
    + by rewrite lookup_partial_alter_ne.
Qed.

(** An operation of the life cycle. *)
Lemma fence_advance c h m t (f : P FenceRegistry bool) (g : Fence -> Fence) :
  fence_rel m t ->
  (forall r, f r =
    match fr_fences r !! h with
    | Some x =>
        match advance c (f_state x) with
        | Some _ => (Some true, r <| fr_fences ::= <[h := g x]> |>)
        | None => (Some false, r)
        end
    | None => (Some false, r)
    end) ->
  (forall x s, advance c (f_state x) = Some s -> f_state (g x) = s) ->
  let e := catch 0 (with_registry 0 (b ← f; mret (i32_of_bool b))) m in
  let w := match slot h t ≫= advance c with Some s => (1, set_slot h (Some s) t) | None => (0, t) end in
  e.1 = w.1 /\ fence_rel e.2 w.2.
Proof.
  intros HR Hf Hg e w. pose proof HR as (Hp & Hn & Hs). set (r := default registry_new (mx_value m)) in *.
  assert (Hsl : slot h t = f_state <$> fr_fences r !! h) by (rewrite <- Hs; done).
  assert (Hidle : f r = (Some false, r) -> e = (0, mk_mutex false (Some r))).
  { intros E. apply with_registry_run; [done|]. fold r. unfold mbind, P_bind. by rewrite E. }
  subst w. rewrite Hsl. specialize (Hf r). destruct (fr_fences r !! h) as [x|] eqn:E; cbn [fmap option_fmap option_map mbind option_bind] in *.
  2:{ rewrite (Hidle Hf). done. }
  destruct (advance c (f_state x)) as [s|] eqn:Ea; [|rewrite (Hidle Hf); done].
  assert (He : e = (1, mk_mutex false (Some (r <| fr_fences ::= <[h := g x]> |>)))).
  { apply with_registry_run; [done|]. fold r. unfold mbind, P_bind. by rewrite Hf. }
  rewrite He. split; [done|].
  apply (fence_rel_update m t h x (Some (g x)) (f_state x)); [done..|]. cbn. by rewrite (Hg x s).
Qed.

Lemma registry_step c m t :
  fence_rel m t -> fence_allowed c t ->
  (fence_exec c m).1 = (fence_spec c t).1 /\ fence_rel (fence_exec c m).2 (fence_spec c t).2.
Proof.
  intros HR Ha. pose proof HR as (Hp & Hn & Hs). set (r := default registry_new (mx_value m)) in *.
  assert (Hr : fence_rel (mk_mutex false (Some r)) t) by done.
  destruct c as [gpu now|h|h now|h|h|h]; cbn [fence_exec fence_spec].
  - unfold mvgal_fence_create. erewrite with_registry_run by done. cbn [fst snd]. fold r. split; [done|].
    split; [done|]. unfold fence_allowed, U64_MAX in Ha. cbn. split.
    + rewrite Hn, u64_small, length_app by (unfold is_u64, U64_MAX; lia). cbn. lia.
    + intros h. unfold state. rewrite slot_create, <- Hs. cbn. rewrite Hn. case_decide as Hd.
      * subst h. by rewrite lookup_insert_eq.
      * by rewrite lookup_insert_ne.
  - apply (fence_advance (Fence_submit h) h m t (submit h) (fun f => f <| f_state := Submitted |>)); [done| |].
    + intros r'. unfold submit. destruct (fr_fences r' !! h) as [x|]; [|done]. by destruct (f_state x).
    + intros x s E. cbn in *. by destruct (f_state x); simplify_eq.
  - apply (fence_advance (Fence_signal h now) h m t (signal h now)
      (fun f => f <| f_state := Signalled |> <| f_signalled_ns := now |>)); [done| |].
    + intros r'. unfold signal. destruct (fr_fences r' !! h) as [x|]; [|done]. by destruct (f_state x).
    + intros x s E. cbn in *. by destruct (f_state x); simplify_eq.
  - unfold mvgal_fence_state. erewrite with_registry_run by done. cbn [fst snd]. fold r. by rewrite Hs.
  - apply (fence_advance (Fence_reset h) h m t (reset h)
      (fun f => f <| f_state := Reset |> <| f_signalled_ns := 0 |>)); [done| |].
    + intros r'. unfold reset. destruct (fr_fences r' !! h) as [x|]; [|done]. by destruct (f_state x).
    + intros x s E. cbn in *. by destruct (f_state x); simplify_eq.
  - unfold mvgal_fence_destroy. rewrite <- Hs. unfold state. destruct (fr_fences r !! h) as [x|] eqn:E; cbn [fmap option_fmap option_map].
    + erewrite with_registry_run; [|done|unfold destroy, mbind, P_bind; fold r; by rewrite E].
      split; [done|]. apply (fence_rel_update m t h x None (f_state x)); [done..| |done]. rewrite <- Hs. unfold state. by rewrite E.
    + erewrite with_registry_run; [|done|unfold destroy, mbind, P_bind; fold r; by rewrite E]. done.
Qed.

(** C36. The registry is an array of fences.  Any sequence of calls through the
    C interface returns what it would on an array that only grows: the n-th
    creation returns handle n, no handle is ever reused, a fence moves from
    pending to submitted to signalled to reset and never back, calls on
    destroyed or unknown handles change nothing, and calls on one fence do not
    affect another. *)
Theorem fence_registry_refines calls :
  admissible fence_spec fence_allowed calls [] ->
  (run fence_exec calls (mk_mutex false None)).1 = (run fence_spec calls []).1.
Proof.
  intros Ha. refine (proj1 (run_refines fence_exec fence_spec fence_allowed fence_rel registry_step _ _ _ _ Ha)).
  split; [done|]. split; [done|]. intros h. unfold state, slot. cbn. destruct (0 <? h); [|done].
  by rewrite lookup_nil.
Qed.

(** A life of two fences. *)
Lemma fence_registry_refines_witness :
  (run fence_exec [Fence_create 0 5; Fence_create 1 6; Fence_submit 2; Fence_signal 2 9; Fence_signal 2 10;
     Fence_reset 2; Fence_state 1; Fence_state 2; Fence_destroy 1; Fence_state 1; Fence_create 0 11]
    (mk_mutex false None)).1 = [1; 2; 1; 1; 0; 1; 0; 4; 1; -1; 3].
Proof.
  rewrite fence_registry_refines; [vm_compute; reflexivity|].
  cbn. unfold fence_allowed. cbn. unfold U64_MAX. repeat split; lia.
Defined.
