(* ===== verification/RustMemory.v ===== *)
(** * The allocation registry

    safe/memory_safety/src/lib.rs: reference-counted records of allocations
    behind integer handles for C callers, with byte totals per pool. *)

From S2P Require Import Prelude RustStd.
Local Open Scope Z_scope.

Inductive MemoryPlacement : Type := SystemRam | GpuVram | Mirrored.

#[export] Instance MemoryPlacement_eq_dec : EqDecision MemoryPlacement.
Proof. solve_decision. Defined.

Definition MemoryPlacement_i32 (p : MemoryPlacement) : Z :=
  match p with SystemRam => 0 | GpuVram => 1 | Mirrored => 2 end.

Record Allocation : Type := mk_alloc {
  a_size_bytes : Z;
  a_placement : MemoryPlacement;
  a_gpu_index : Z;
  a_ref_count : Z;
  a_has_dmabuf : bool;
  a_dmabuf_fd : Z
}.
#[export] Instance Allocation_eta : Eta Allocation := fun r =>
  mk_alloc (a_size_bytes r) (a_placement r) (a_gpu_index r) (a_ref_count r) (a_has_dmabuf r) (a_dmabuf_fd r).

Record AllocationRegistry : Type := mk_areg {
  ar_allocs : gmap Z Allocation;
  ar_next_id : Z;
  ar_total_bytes_system : Z;
  ar_total_bytes_gpu : Z
}.
#[export] Instance AllocationRegistry_eta : Eta AllocationRegistry := fun r =>
  mk_areg (ar_allocs r) (ar_next_id r) (ar_total_bytes_system r) (ar_total_bytes_gpu r).

Definition areg_new : AllocationRegistry := mk_areg ∅ 1 0 0.

Definition is_system (p : MemoryPlacement) : bool := match p with SystemRam => true | _ => false end.

Section registry.
Context `{RustProfile}.

Definition allocate (size_bytes : Z) (placement : MemoryPlacement) (gpu_index : Z) : P AllocationRegistry Z :=
  id ← asks ar_next_id;
  update (fun r => r <| ar_next_id ::= fun n => u64 (n + 1) |>);;
  match placement with
  | SystemRam =>
      total ← asks ar_total_bytes_system;
      sum ← fit U64_MAX (total + size_bytes);
      update (fun r => r <| ar_total_bytes_system := sum |>)
  | _ =>
      total ← asks ar_total_bytes_gpu;
      sum ← fit U64_MAX (total + size_bytes);
      update (fun r => r <| ar_total_bytes_gpu := sum |>)
  end;;
  update (fun r => r <| ar_allocs ::= <[id := mk_alloc size_bytes placement gpu_index 1 false (-1)]> |>);;
  mret id.

Definition retain (handle : Z) : P AllocationRegistry bool := fun r =>
  match ar_allocs r !! handle with
  | Some a =>
      (Some true, r <| ar_allocs ::= <[handle := a <| a_ref_count ::= fun c => saturating_add U32_MAX c 1 |>]> |>)
  | None => (Some false, r)
  end.

(** The total of a pool without [size] bytes. *)
Definition reduce_total (placement : MemoryPlacement) (size : Z) (r : AllocationRegistry) : AllocationRegistry :=
  match placement with
  | SystemRam => r <| ar_total_bytes_system ::= fun t => saturating_sub t size |>
  | _ => r <| ar_total_bytes_gpu ::= fun t => saturating_sub t size |>
  end.

Definition release (handle : Z) : P AllocationRegistry bool := fun r =>
  match ar_allocs r !! handle with
  | Some a =>
      if a_ref_count a =? 0 then (Some false, r)
      else if a_ref_count a - 1 =? 0
      then (Some true, reduce_total (a_placement a) (a_size_bytes a) (r <| ar_allocs ::= delete handle |>))
      else (Some true, r <| ar_allocs ::= <[handle := a <| a_ref_count ::= fun c => c - 1 |>]> |>)
  | None => (Some false, r)
  end.

Definition set_dmabuf (handle fd : Z) : P AllocationRegistry bool := fun r =>
  match ar_allocs r !! handle with
  | Some a =>
      (Some true, r <| ar_allocs ::= <[handle := a <| a_has_dmabuf := 0 <=? fd |> <| a_dmabuf_fd := fd |>]> |>)
  | None => (Some false, r)
  end.

Definition get_size (handle : Z) (r : AllocationRegistry) : Z :=
  from_option a_size_bytes 0 (ar_allocs r !! handle).

Definition get_placement (handle : Z) (r : AllocationRegistry) : Z :=
  from_option (fun a => MemoryPlacement_i32 (a_placement a)) (-1) (ar_allocs r !! handle).

(** ** The C interface *)

Abbreviation AREGISTRY := (mutex (option AllocationRegistry)).

Definition with_reg {A : Type} (dflt : A) (f : P AllocationRegistry A) : P AREGISTRY A :=
  with_lock areg_new dflt f.

Definition placement_of (placement : Z) : option MemoryPlacement :=
  if placement =? 0 then Some SystemRam
  else if placement =? 1 then Some GpuVram
  else if placement =? 2 then Some Mirrored
  else None.

Definition mvgal_mem_track (size_bytes placement gpu_index : Z) : AREGISTRY -> Z * AREGISTRY :=
  catch 0
    match placement_of placement with
    | Some p => with_reg 0 (allocate size_bytes p gpu_index)
    | None => mret 0
    end.

Definition mvgal_mem_retain (handle : Z) : AREGISTRY -> Z * AREGISTRY :=
  catch 0 (with_reg 0 (b ← retain handle; mret (i32_of_bool b))).

Definition mvgal_mem_release (handle : Z) : AREGISTRY -> Z * AREGISTRY :=
  catch 0 (with_reg 0 (b ← release handle; mret (i32_of_bool b))).

Definition mvgal_mem_set_dmabuf (handle fd : Z) : AREGISTRY -> Z * AREGISTRY :=
  catch 0 (with_reg 0 (b ← set_dmabuf handle fd; mret (i32_of_bool b))).

Definition mvgal_mem_size (handle : Z) : AREGISTRY -> Z * AREGISTRY :=
  catch 0 (with_reg 0 (asks (get_size handle))).

Definition mvgal_mem_placement (handle : Z) : AREGISTRY -> Z * AREGISTRY :=
  catch 0 (with_reg 0 (asks (get_placement handle))).

Definition mvgal_mem_total_system_bytes : AREGISTRY -> Z * AREGISTRY :=
  catch 0 (with_reg 0 (asks ar_total_bytes_system)).

Definition mvgal_mem_total_gpu_bytes : AREGISTRY -> Z * AREGISTRY :=
  catch 0 (with_reg 0 (asks ar_total_bytes_gpu)).

Inductive mem_call : Type :=
| Mem_track (size_bytes placement gpu_index : Z)
| Mem_retain (handle : Z)
| Mem_release (handle : Z)
| Mem_set_dmabuf (handle fd : Z)
| Mem_size (handle : Z)
| Mem_placement (handle : Z)
| Mem_total_system
| Mem_total_gpu.

Definition mem_exec (c : mem_call) : AREGISTRY -> Z * AREGISTRY :=
  match c with
  | Mem_track size placement gpu => mvgal_mem_track size placement gpu
  | Mem_retain h => mvgal_mem_retain h
  | Mem_release h => mvgal_mem_release h
  | Mem_set_dmabuf h fd => mvgal_mem_set_dmabuf h fd
  | Mem_size h => mvgal_mem_size h
  | Mem_placement h => mvgal_mem_placement h
  | Mem_total_system => mvgal_mem_total_system_bytes
  | Mem_total_gpu => mvgal_mem_total_gpu_bytes
  end.

(** ** Specification

    The allocations in order of tracking with their size, placement and number
    of references, [None] once released; the totals are sums over them. *)
Record tracked : Type := mk_tracked {
  t_size : Z;
  t_placement : MemoryPlacement;
  t_refs : Z
}.

Definition pool_bytes (system : bool) (e : option tracked) : Z :=
  match e with
  | Some a => if Bool.eqb (is_system (t_placement a)) system then t_size a else 0
  | None => 0
  end.

Definition pool (system : bool) (t : list (option tracked)) : Z :=
  sum_by (pool_bytes system) t.

Definition with_refs (a : tracked) (refs : Z) : option tracked :=
  if refs =? 0 then None else Some (mk_tracked (t_size a) (t_placement a) refs).

Definition mem_spec (c : mem_call) (t : list (option tracked)) : Z * list (option tracked) :=
  match c with
  | Mem_track size placement _ =>
      match placement_of placement with
      | Some p => (Z.of_nat (length t) + 1, t ++ [Some (mk_tracked size p 1)])
      | None => (0, t)
      end
  | Mem_retain h =>
      match slot h t with
      | Some a => (1, set_slot h (with_refs a (t_refs a + 1)) t)
      | None => (0, t)
      end
  | Mem_release h =>
      match slot h t with
      | Some a => (1, set_slot h (with_refs a (t_refs a - 1)) t)
      | None => (0, t)
      end
  | Mem_set_dmabuf h _ => (if slot h t then 1 else 0, t)
  | Mem_size h => (from_option t_size 0 (slot h t), t)
  | Mem_placement h => (from_option (fun a => MemoryPlacement_i32 (t_placement a)) (-1) (slot h t), t)
  | Mem_total_system => (pool true t, t)
  | Mem_total_gpu => (pool false t, t)
  end.

(** What fits: handles and pool totals in 64 bits, references in 32. *)
Definition mem_allowed (c : mem_call) (t : list (option tracked)) : Prop :=
  match c with
  | Mem_track size placement _ =>
      0 <= size /\ Z.of_nat (length t) + 1 < U64_MAX /\
      forall p, placement_of placement = Some p -> pool (is_system p) t + size <= U64_MAX
  | Mem_retain h => forall a, slot h t = Some a -> t_refs a < U32_MAX
  | _ => True
  end.

Definition track_of (a : Allocation) : tracked := mk_tracked (a_size_bytes a) (a_placement a) (a_ref_count a).

Definition sound (e : option tracked) : Prop := forall a, e = Some a -> 0 <= t_size a /\ 0 < t_refs a.

Record mem_rel (m : AREGISTRY) (t : list (option tracked)) : Prop := {
  mr_lock : mx_poisoned m = false;
  mr_next : ar_next_id (default areg_new (mx_value m)) = Z.of_nat (length t) + 1;
  mr_view : forall h, track_of <$> ar_allocs (default areg_new (mx_value m)) !! h = slot h t;
  mr_system : ar_total_bytes_system (default areg_new (mx_value m)) = pool true t;
  mr_gpu : ar_total_bytes_gpu (default areg_new (mx_value m)) = pool false t;
  mr_sound : Forall sound t
}.

Lemma pool_nonneg b t : Forall sound t -> 0 <= pool b t.
Proof.
  intros Hok. apply sum_by_nonneg. eapply Forall_impl; [exact Hok|]. intros [a|] He; cbn; [|lia].
  destruct (He a eq_refl). case_match; lia.
Qed.

Lemma pool_set b h a e t :
  slot h t = Some a -> pool b (set_slot h e t) = pool b t - pool_bytes b (Some a) + pool_bytes b e.
Proof.
  intros Ha. pose proof (slot_live _ _ _ Ha) as [Hp _]. unfold slot in Ha. rewrite (proj2 (Z.ltb_lt 0 h)) in Ha by done.
  unfold set_slot. revert Ha. generalize (Z.to_nat (h - 1)). clear Hp h.
  induction t as [|x t IH]; intros [|n] Ha; cbn in *; try discriminate.
  - subst x. cbn. lia.
  - etransitivity; [exact (f_equal (Z.add (pool_bytes b x)) (IH n Ha))|]. unfold pool, sum_by. lia.
Qed.

Lemma with_reg_run {A} (dflt : A) (f : P AllocationRegistry A) m a r :
  mx_poisoned m = false -> f (default areg_new (mx_value m)) = (Some a, r) ->
  catch dflt (with_reg dflt f) m = (a, mk_mutex false (Some r)).
Proof. apply catch_lock. Qed.

(** An operation that changes at most one entry and the totals. *)
Lemma mem_rel_update m t h g a v r' :
  mem_rel m t -> slot h t = Some a -> track_of <$> g = v -> sound v ->
  ar_allocs r' = partial_alter (fun _ => g) h (ar_allocs (default areg_new (mx_value m))) ->
  ar_next_id r' = ar_next_id (default areg_new (mx_value m)) ->
  ar_total_bytes_system r' = pool true t - pool_bytes true (Some a) + pool_bytes true v ->
  ar_total_bytes_gpu r' = pool false t - pool_bytes false (Some a) + pool_bytes false v ->
  mem_rel (mk_mutex false (Some r')) (set_slot h v t).
Proof.
  intros [Hp Hn Hv Hs Hg Hok] Ha Hgv Hsv Ea En Es Eg. split; cbn.
  - done.
  - unfold set_slot. by rewrite length_insert, En.
  - intros h'. rewrite (slot_set_slot _ _ _ _ _ Ha), Ea. case_decide as Hd.
    + subst h'. by rewrite lookup_partial_alter_eq.
    + by rewrite lookup_partial_alter_ne.
  - by rewrite (pool_set _ _ _ _ _ Ha), Es.
  - by rewrite (pool_set _ _ _ _ _ Ha), Eg.
  - by apply Forall_insert.
Qed.

Lemma slot_sound h t a : Forall sound t -> slot h t = Some a -> 0 <= t_size a /\ 0 < t_refs a.
Proof.
  intros Hok. unfold slot. destruct (0 <? h); [|done]. destruct (t !! _) as [e|] eqn:E; [|done].
  cbn. intros ->. exact (Forall_lookup_1 _ _ _ _ Hok E a eq_refl).
Qed.

Lemma mem_track_step size placement gpu m t :
  mem_rel m t -> mem_allowed (Mem_track size placement gpu) t ->
  (mem_exec (Mem_track size placement gpu) m).1 = (mem_spec (Mem_track size placement gpu) t).1 /\
  mem_rel (mem_exec (Mem_track size placement gpu) m).2 (mem_spec (Mem_track size placement gpu) t).2.
Proof.
  intros HR (Hz & Hl & Hfit). cbn [mem_exec mem_spec]. unfold mvgal_mem_track.
  destruct (placement_of placement) as [p|] eqn:Ep; [|done].
  specialize (Hfit p eq_refl). destruct HR as [Hp Hn Hv Hs Hg Hok].
  set (r := default areg_new (mx_value m)) in *.
  set (r' := mk_areg (<[ar_next_id r := mk_alloc size p gpu 1 false (-1)]> (ar_allocs r)) (ar_next_id r + 1)
    (ar_total_bytes_system r + pool_bytes true (Some (mk_tracked size p 1)))
    (ar_total_bytes_gpu r + pool_bytes false (Some (mk_tracked size p 1)))).
  pose proof (pool_nonneg true t Hok). pose proof (pool_nonneg false t Hok).
  assert (E : allocate size p gpu r = (Some (ar_next_id r), r')).
  { unfold allocate, mbind, P_bind, asks, update, mret, P_ret. unfold r', U64_MAX in *.
    destruct p; cbn [is_system] in *; cbn -[fit u64]; rewrite fit_in by (rewrite ?Hs, ?Hg; lia);
      cbn -[u64]; rewrite u64_small, ?Z.add_0_r by (unfold is_u64, U64_MAX; lia); done. }
  erewrite with_reg_run by done. split; [exact Hn|]. split; cbn -[pool pool_bytes].
  - done.
  - rewrite length_app. cbn. lia.
  - intros h. rewrite slot_create, <- Hv, <- Hn. cbn. case_decide as Hd.
    + subst h. by rewrite lookup_insert_eq.
    + by rewrite lookup_insert_ne.
  - unfold pool in *. by rewrite sum_by_app, <- Hs.
  - unfold pool in *. by rewrite sum_by_app, <- Hg.
  - apply Forall_app. split; [done|]. apply List.Forall_cons; [|apply List.Forall_nil].
    intros a [= <-]. cbn. lia.
Qed.

(** Retaining, releasing and tagging a live allocation. *)
Lemma mem_handle_step (f : P AllocationRegistry bool) h m t g r' a v :
  mem_rel m t -> slot h t = Some a ->
  f (default areg_new (mx_value m)) = (Some true, r') ->
  track_of <$> g = v -> sound v ->
  ar_allocs r' = partial_alter (fun _ => g) h (ar_allocs (default areg_new (mx_value m))) ->
  ar_next_id r' = ar_next_id (default areg_new (mx_value m)) ->
  ar_total_bytes_system r' = pool true t - pool_bytes true (Some a) + pool_bytes true v ->
  ar_total_bytes_gpu r' = pool false t - pool_bytes false (Some a) + pool_bytes false v ->
  let e := catch 0 (with_reg 0 (b ← f; mret (i32_of_bool b))) m in
  e.1 = 1 /\ mem_rel e.2 (set_slot h v t).
Proof.
  intros HR Ha Ef Hg Hsv Ea En Es Eg e. assert (He : e = (1, mk_mutex false (Some r'))).
  { apply with_reg_run; [apply HR|]. unfold mbind, P_bind. by rewrite Ef. }
  rewrite He. split; [done|]. by eapply mem_rel_update.
Qed.

Lemma mem_handle_idle (f : P AllocationRegistry bool) m t :
  mem_rel m t -> f (default areg_new (mx_value m)) = (Some false, default areg_new (mx_value m)) ->
  let e := catch 0 (with_reg 0 (b ← f; mret (i32_of_bool b))) m in
  e.1 = 0 /\ mem_rel e.2 t.
Proof.
  intros HR Ef e. assert (He : e = (0, mk_mutex false (Some (default areg_new (mx_value m))))).
  { apply with_reg_run; [apply HR|]. unfold mbind, P_bind. by rewrite Ef. }
  rewrite He. split; [done|]. by destruct HR.
Qed.

Lemma mem_retain_step h m t a x :
  mem_rel m t -> slot h t = Some a -> t_refs a < U32_MAX ->
  ar_allocs (default areg_new (mx_value m)) !! h = Some x -> track_of x = a ->
  let e := mvgal_mem_retain h m in e.1 = 1 /\ mem_rel e.2 (set_slot h (with_refs a (t_refs a + 1)) t).
Proof.
  intros HR Ha Hlt E <-. destruct (slot_sound _ _ _ (mr_sound _ _ HR) Ha) as [Hz Hc]. cbn in Hz, Hc, Hlt.
  eapply mem_handle_step with (g := Some (x <| a_ref_count ::= fun c => saturating_add U32_MAX c 1 |>));
    [done|exact Ha|unfold retain; by rewrite E|..]; unfold with_refs;
    cbn -[pool]; rewrite ?(proj2 (Z.eqb_neq (a_ref_count x + 1) 0)) by lia.
  - unfold track_of, saturating_add. cbn. by rewrite Z.min_r by lia.
  - intros b [= <-]. cbn. lia.
  - done.
  - done.
  - rewrite (mr_system _ _ HR). cbn. lia.
  - rewrite (mr_gpu _ _ HR). cbn. lia.
Qed.

Lemma pool_ge b h t a : Forall sound t -> slot h t = Some a -> pool_bytes b (Some a) <= pool b t.
Proof.
  intros Hok Ha. pose proof (pool_set b h a None t Ha) as E.
  pose proof (pool_nonneg b (set_slot h None t) ltac:(by apply Forall_insert)). cbn [pool_bytes] in *. lia.
Qed.

Lemma mem_release_step h m t a x :
  mem_rel m t -> slot h t = Some a ->
  ar_allocs (default areg_new (mx_value m)) !! h = Some x -> track_of x = a ->
  let e := mvgal_mem_release h m in e.1 = 1 /\ mem_rel e.2 (set_slot h (with_refs a (t_refs a - 1)) t).
Proof.
  intros HR Ha E <-. destruct (slot_sound _ _ _ (mr_sound _ _ HR) Ha) as [Hz Hc]. cbn in Hz, Hc.
  pose proof (pool_ge true _ _ _ (mr_sound _ _ HR) Ha) as Hs.
  pose proof (pool_ge false _ _ _ (mr_sound _ _ HR) Ha) as Hg.
  set (r := default areg_new (mx_value m)) in *.
  assert (Hn0 : (a_ref_count x =? 0) = false) by (apply Z.eqb_neq; lia).
  assert (Ts : ar_total_bytes_system r = pool true t) by apply HR.
  assert (Tg : ar_total_bytes_gpu r = pool false t) by apply HR.
  unfold with_refs. cbn [track_of t_refs t_size t_placement]. destruct (Z.eqb_spec (a_ref_count x - 1) 0) as [E1|E1].
  - eapply mem_handle_step with (g := None)
      (r' := reduce_total (a_placement x) (a_size_bytes x) (r <| ar_allocs ::= delete h |>));
      [done|exact Ha|fold r; unfold release; rewrite E, Hn0, E1; done|done|done|..]; fold r;
      destruct (a_placement x) eqn:Ep; cbn [pool_bytes track_of t_placement t_size] in *; rewrite Ep in *;
      cbn -[pool] in *; try done; unfold saturating_sub; lia.
  - eapply mem_handle_step with (g := Some (x <| a_ref_count ::= fun c => c - 1 |>));
      [done|exact Ha|fold r; unfold release; rewrite E, Hn0; by rewrite (proj2 (Z.eqb_neq _ _) E1)|done|..]; fold r.
    + intros b [= <-]. cbn. lia.
    + done.
    + done.
    + cbn -[pool]. lia.
    + cbn -[pool]. lia.
Qed.

Lemma mem_dmabuf_step h fd m t a x :
  mem_rel m t -> slot h t = Some a ->
  ar_allocs (default areg_new (mx_value m)) !! h = Some x -> track_of x = a ->
  let e := mvgal_mem_set_dmabuf h fd m in e.1 = 1 /\ mem_rel e.2 t.
Proof.
  intros HR Ha E <- e. assert (Ht : set_slot h (Some (track_of x)) t = t).
  { pose proof (slot_live _ _ _ Ha) as [Hp Hl]. unfold slot in Ha. rewrite (proj2 (Z.ltb_lt 0 h)) in Ha by done.
    apply list_insert_id. destruct (t !! _) as [v|]; [by cbn in Ha; subst|done]. }
  rewrite <- Ht.
  eapply mem_handle_step with (g := Some (x <| a_has_dmabuf := 0 <=? fd |> <| a_dmabuf_fd := fd |>));
    [done|exact Ha|unfold set_dmabuf; by rewrite E|done|..].
  - intros b [= <-]. exact (slot_sound _ _ _ (mr_sound _ _ HR) Ha).
  - done.
  - done.
  - cbn -[pool]. rewrite (mr_system _ _ HR). lia.
  - cbn -[pool]. rewrite (mr_gpu _ _ HR). lia.
Qed.

Lemma mem_step c m t :
  mem_rel m t -> mem_allowed c t ->
  (mem_exec c m).1 = (mem_spec c t).1 /\ mem_rel (mem_exec c m).2 (mem_spec c t).2.
Proof.
  intros HR Ha. pose proof HR as [Hp Hn Hv Hs Hg Hok].
  assert (Hr : mem_rel (mk_mutex false (Some (default areg_new (mx_value m)))) t) by done.
  assert (Hq : forall (f : AllocationRegistry -> Z) z, f (default areg_new (mx_value m)) = z ->
    (catch 0 (with_reg 0 (asks f)) m).1 = z /\ mem_rel (catch 0 (with_reg 0 (asks f)) m).2 t).
  { intros f z <-. by erewrite with_reg_run by done. }
  destruct c as [size placement gpu|h|h|h fd|h|h| |]; [by apply mem_track_step|..]; cbn [mem_exec mem_spec];
    try (apply Hq; first [exact Hs | exact Hg | unfold get_size, get_placement; rewrite <- Hv; by destruct (_ !! h)]).
  all: destruct (ar_allocs (default areg_new (mx_value m)) !! h) as [x|] eqn:E;
    (assert (Hsl := Hv h); rewrite E in Hsl; cbn in Hsl; rewrite <- Hsl).
  - apply (mem_retain_step h m t (track_of x) x); [done..|by apply Ha|done|done].
  - apply mem_handle_idle; [done|]. unfold retain. by rewrite E.
  - apply (mem_release_step h m t (track_of x) x); done.
  - apply mem_handle_idle; [done|]. unfold release. by rewrite E.
  - apply (mem_dmabuf_step h fd m t (track_of x) x); done.
  - apply mem_handle_idle; [done|]. unfold set_dmabuf. by rewrite E.
Qed.

(** C35. The allocation registry keeps exact books.  Any sequence of calls
    through the C interface, in builds with and without overflow checks and as
    long as totals and counts fit their types, returns what it would on an
    array of reference-counted entries that only grows: handles are never
    reused, an entry lives until as many releases as retains and its tracking,
    and each pool total is the sum of the sizes of its live entries. *)
Theorem mem_registry_refines calls :
  admissible mem_spec mem_allowed calls [] ->
  (run mem_exec calls (mk_mutex false None)).1 = (run mem_spec calls []).1.
Proof.
  intros Ha. refine (proj1 (run_refines mem_exec mem_spec mem_allowed mem_rel mem_step _ _ _ _ Ha)).
  split; try done. intros h. by rewrite slot_nil.
Qed.

End registry.

Module Checked.

#[local] Instance debug : RustProfile := {| overflow_checks := true |}.

(** Two allocations in two pools, one of them shared. *)
Lemma mem_registry_refines_witness :
  (run mem_exec [Mem_track 100 0 0; Mem_track 50 1 1; Mem_track 7 9 0; Mem_retain 1; Mem_release 1; Mem_total_system;
     Mem_release 1; Mem_total_system; Mem_release 1; Mem_total_gpu; Mem_size 2; Mem_placement 2]
    (mk_mutex false None)).1 = [1; 2; 0; 1; 1; 100; 1; 0; 0; 50; 50; 1].
Proof.
  rewrite mem_registry_refines; [vm_compute; reflexivity|].
  cbn. unfold U64_MAX, U32_MAX. repeat split; try lia; intros ? [= <-]; cbn; lia.
Defined.

(** With overflow checks, tracking more than a pool can count panics inside
    the lock: it is poisoned, and every later call reports a default. *)
Example overflow_disables_registry :
  (run mem_exec [Mem_track 100 1 0; Mem_track U64_MAX 1 0; Mem_size 1; Mem_total_gpu; Mem_track 1 0 0]
    (mk_mutex false None)).1 = [1; 0; 0; 0; 0].
Proof. vm_compute. reflexivity. Qed.

End Checked.
