(* ===== verification/RustCapability.v ===== *)
(** * Aggregate capabilities

    safe/capability_model/src/lib.rs: the capability profile of a set of GPUs
    and its C interface.  Profiles live on a heap; the JSON text comes from
    the serde_json library, which is a parameter. *)

From S2P Require Import Prelude Float32 RustStd.
From stdpp Require Import strings.
Local Open Scope Z_scope.

Inductive GpuVendor : Type := Vendor_Unknown | Vendor_Amd | Vendor_Nvidia | Vendor_Intel | Vendor_MooreThreads.

Inductive CapabilityTier : Type := Tier_Full | Tier_ComputeOnly | Tier_Mixed.

Definition CapabilityTier_i32 (t : CapabilityTier) : Z :=
  match t with Tier_Full => 0 | Tier_ComputeOnly => 1 | Tier_Mixed => 2 end.

Record GpuCapability : Type := mk_gpucap {
  gc_vendor : GpuVendor;
  gc_device_id : Z;
  gc_vram_bytes : Z;
  gc_vram_bandwidth_gbps : f32;
  gc_compute_units : Z;
  gc_api_flags : Z;
  gc_vulkan_major : Z;
  gc_vulkan_minor : Z;
  gc_pcie_gen : Z;
  gc_pcie_lanes : Z;
  gc_supports_graphics : bool;
  gc_supports_compute : bool;
  gc_supports_display : bool
}.

Record AggregateCapability : Type := mk_aggcap {
  ac_gpu_count : Z;
  ac_total_vram_bytes : Z;
  ac_total_compute_units : Z;
  ac_total_vram_bandwidth_gbps : f32;
  ac_min_vulkan_major : Z;
  ac_min_vulkan_minor : Z;
  ac_api_union : Z;
  ac_api_intersection : Z;
  ac_tier : CapabilityTier
}.

(** The variables of the loop of [from_gpus]. *)
Record totals : Type := mk_totals {
  tt_vram : Z;
  tt_cu : Z;
  tt_bw : f32;
  tt_vk_major : Z;
  tt_vk_minor : Z;
  tt_union : Z;
  tt_intersection : Z;
  tt_graphics : bool;
  tt_compute : bool
}.

Definition totals_start : totals := mk_totals 0 0 f0 U32_MAX U32_MAX 0 U32_MAX true true.

Definition older (gpu : GpuCapability) (major minor : Z) : bool :=
  (gc_vulkan_major gpu <? major) || ((gc_vulkan_major gpu =? major) && (gc_vulkan_minor gpu <? minor)).

Definition add_gpu (t : totals) (gpu : GpuCapability) : totals :=
  let old := older gpu (tt_vk_major t) (tt_vk_minor t) in
  mk_totals
    (Z.min U64_MAX (tt_vram t + gc_vram_bytes gpu))
    (Z.min U32_MAX (tt_cu t + gc_compute_units gpu))
    (fadd (tt_bw t) (gc_vram_bandwidth_gbps gpu))
    (if old then gc_vulkan_major gpu else tt_vk_major t)
    (if old then gc_vulkan_minor gpu else tt_vk_minor t)
    (Z.lor (tt_union t) (gc_api_flags gpu))
    (Z.land (tt_intersection t) (gc_api_flags gpu))
    (tt_graphics t && gc_supports_graphics gpu)
    (tt_compute t && gc_supports_compute gpu).

Definition from_gpus (gpus : list GpuCapability) : AggregateCapability :=
  match gpus with
  | [] => mk_aggcap 0 0 0 f0 0 0 0 0 Tier_Mixed
  | _ =>
      let t := fold_left add_gpu gpus totals_start in
      mk_aggcap (u32 (Z.of_nat (length gpus))) (tt_vram t) (tt_cu t) (tt_bw t)
        (if tt_vk_major t =? U32_MAX then 0 else tt_vk_major t)
        (if tt_vk_minor t =? U32_MAX then 0 else tt_vk_minor t)
        (tt_union t) (tt_intersection t)
        (if tt_graphics t && tt_compute t then Tier_Full
         else if tt_compute t && negb (tt_graphics t) then Tier_ComputeOnly
         else Tier_Mixed)
  end.

(** ** The C interface *)

Class Json : Type := { serde_json_to_string : AggregateCapability -> option string }.

Abbreviation CapHeap := (gmap positive AggregateCapability).
Abbreviation BM := (M CapHeap).

Section interface.
Context `{Json}.

Definition to_json (c : AggregateCapability) : string := default EmptyString (serde_json_to_string c).

(** [gpus] is the array a non-null pointer leads to. *)
Definition mvgal_cap_compute (gpus : option (list GpuCapability)) (count : Z) : BM addr := fun h =>
  let slice :=
    match gpus with
    | Some l => if count =? 0 then Some [] else if Z.of_nat (length l) <? count then None else Some (take (Z.to_nat count) l)
    | None => Some []
    end in
  match slice with
  | Some l => let p := fresh (dom h) in Ret (p, <[p := from_gpus l]> h)
  | None => Fault OutOfBounds
  end.

Definition mvgal_cap_free (handle : option addr) : BM unit := fun h =>
  match handle with
  | None => Ret (tt, h)
  | Some p => match h !! p with Some _ => Ret (tt, delete p h) | None => Fault UseAfterFree end
  end.

Definition cap_at (p : addr) : BM AggregateCapability := fun h =>
  match h !! p with Some c => Ret (c, h) | None => Fault UseAfterFree end.

Definition mvgal_cap_total_vram (handle : option addr) : BM Z :=
  match handle with
  | None => mret 0
  | Some p => c ← cap_at p; mret (ac_total_vram_bytes c)
  end.

Definition mvgal_cap_tier (handle : option addr) : BM Z :=
  match handle with
  | None => mret (-1)
  | Some p => c ← cap_at p; mret (CapabilityTier_i32 (ac_tier c))
  end.

(** The number of bytes, and the text in the buffer before its NUL. *)
Definition mvgal_cap_to_json (handle : option addr) (buf : bool) (buf_len : Z) : BM (Z * option string) :=
  match handle with
  | None => mret (-1, None)
  | Some p =>
      if negb buf || (buf_len =? 0) then mret (-1, None) else
      c ← cap_at p;
      let json := to_json c in
      let copy_len := Nat.min (String.length json) (Z.to_nat (buf_len - 1)) in
      mret (int32 (Z.of_nat copy_len), Some (String.substring 0 copy_len json))
  end.

End interface.

(** ** What a profile says *)

Record valid_gpu (g : GpuCapability) : Prop := {
  vg_vram : 0 <= gc_vram_bytes g;
  vg_units : 0 <= gc_compute_units g;
  vg_flags : is_u32 (gc_api_flags g);
  vg_major : 0 <= gc_vulkan_major g < U32_MAX;
  vg_minor : 0 <= gc_vulkan_minor g < U32_MAX
}.

Lemma u32_max_testbit i : 0 <= i -> Z.testbit U32_MAX i = (i <? 32).
Proof. intros Hi. change U32_MAX with (Z.ones 32). rewrite Z.testbit_ones_nonneg by lia. done. Qed.

Lemma u32_high x i : is_u32 x -> 32 <= i -> Z.testbit x i = false.
Proof.
  intros [H0 H1] Hi. unfold U32_MAX in H1. destruct (Z.eq_dec x 0) as [->|Hx]; [apply Z.bits_0|].
  apply Z.bits_above_log2; [done|]. assert (Z.log2 x < 32) by (apply Z.log2_lt_pow2; lia). lia.
Qed.

Definition version_le (maj min : Z) (g : GpuCapability) : Prop :=
  maj < gc_vulkan_major g \/ (maj = gc_vulkan_major g /\ min <= gc_vulkan_minor g).

Lemma older_false g maj min : older g maj min = false <-> version_le maj min g.
Proof.
  unfold older, version_le. rewrite orb_false_iff, andb_false_iff, Z.ltb_ge, Z.eqb_neq, Z.ltb_ge. lia.
Qed.

(** The loop after some GPUs. *)
Record totals_of (l : list GpuCapability) (t : totals) : Prop := {
  to_vram : tt_vram t = Z.min U64_MAX (sum_by gc_vram_bytes l);
  to_cu : tt_cu t = Z.min U32_MAX (sum_by gc_compute_units l);
  to_bw : tt_bw t = fold_left fadd (gc_vram_bandwidth_gbps <$> l) f0;
  to_union : forall i, 0 <= i -> Z.testbit (tt_union t) i = existsb (fun g => Z.testbit (gc_api_flags g) i) l;
  to_inter : forall i, 0 <= i ->
    Z.testbit (tt_intersection t) i = (i <? 32) && forallb (fun g => Z.testbit (gc_api_flags g) i) l;
  to_graphics : tt_graphics t = forallb gc_supports_graphics l;
  to_compute : tt_compute t = forallb gc_supports_compute l;
  to_least : Forall (version_le (tt_vk_major t) (tt_vk_minor t)) l;
  to_attained : (l = [] /\ tt_vk_major t = U32_MAX /\ tt_vk_minor t = U32_MAX) \/
    Exists (fun g => gc_vulkan_major g = tt_vk_major t /\ gc_vulkan_minor g = tt_vk_minor t) l
}.

Lemma add_gpu_totals l t g :
  Forall valid_gpu (l ++ [g]) -> totals_of l t -> totals_of (l ++ [g]) (add_gpu t g).
Proof.
  intros Hv [Q1 Q2 Q3 Q4 Q5 Q6 Q7 Q8 Q9]. apply Forall_app in Hv as [Hl Hg]. rewrite Forall_singleton in Hg.
  assert (0 <= sum_by gc_vram_bytes l) by (apply sum_by_nonneg; eapply Forall_impl; [exact Hl|]; by intros ? []).
  assert (0 <= sum_by gc_compute_units l) by (apply sum_by_nonneg; eapply Forall_impl; [exact Hl|]; by intros ? []).
  destruct Hg as [G1 G2 G3 G4 G5].
  split; cbn [add_gpu tt_vram tt_cu tt_bw tt_union tt_intersection tt_graphics tt_compute tt_vk_major tt_vk_minor].
  - rewrite Q1, sum_by_app. unfold U64_MAX. lia.
  - rewrite Q2, sum_by_app. unfold U32_MAX. lia.
  - by rewrite Q3, fmap_app, fold_left_app.
  - intros i Hi. rewrite Z.lor_spec, Q4, existsb_app by done. cbn. by rewrite orb_false_r.
  - intros i Hi. rewrite Z.land_spec, Q5, forallb_app by done. cbn. by rewrite andb_true_r, andb_assoc.
  - rewrite Q6, forallb_app. cbn. by rewrite andb_true_r.
  - rewrite Q7, forallb_app. cbn. by rewrite andb_true_r.
  - destruct (older g (tt_vk_major t) (tt_vk_minor t)) eqn:Eo.
    + apply Forall_app. split; [|apply Forall_singleton; unfold version_le; lia].
      eapply Forall_impl; [exact Q8|]. intros g' Hg'. cbn beta in *. unfold version_le, older in *.
      rewrite orb_true_iff, andb_true_iff, !Z.ltb_lt, Z.eqb_eq in Eo. lia.
    + apply Forall_app. split; [done|]. apply Forall_singleton. by apply older_false.
  - right. apply Exists_app. destruct (older g (tt_vk_major t) (tt_vk_minor t)) eqn:Eo.
    + right. by apply Exists_cons_hd.
    + left. destruct Q9 as [(-> & E1 & E2)|?]; [|done]. apply older_false in Eo. unfold version_le in Eo. lia.
Qed.

Lemma totals_all gpus : Forall valid_gpu gpus -> totals_of gpus (fold_left add_gpu gpus totals_start).
Proof.
  induction gpus as [|g gpus IH] using rev_ind; intros Hv.
  - split; try done; [intros i Hi; apply Z.bits_0| |by left].
    intros i Hi. cbn -[U32_MAX]. by rewrite u32_max_testbit, andb_true_r by done.
  - rewrite fold_left_app. apply add_gpu_totals; [done|]. apply IH. by apply Forall_app in Hv as [].
Qed.

(** The profile of a non-empty set of GPUs: memory and units are the sums,
    saturated; the version is the least of the members'; an API is in the union
    when some member has it and in the intersection when all have it; the tier
    is full when all do graphics and compute, compute-only when all compute
    and not all do graphics, and mixed otherwise. *)
Theorem aggregate_spec gpus :
  gpus <> [] -> Forall valid_gpu gpus ->
  let c := from_gpus gpus in
  ac_total_vram_bytes c = Z.min U64_MAX (sum_by gc_vram_bytes gpus) /\
  ac_total_compute_units c = Z.min U32_MAX (sum_by gc_compute_units gpus) /\
  Forall (version_le (ac_min_vulkan_major c) (ac_min_vulkan_minor c)) gpus /\
  Exists (fun g => gc_vulkan_major g = ac_min_vulkan_major c /\ gc_vulkan_minor g = ac_min_vulkan_minor c) gpus /\
  (forall i, 0 <= i -> Z.testbit (ac_api_union c) i = existsb (fun g => Z.testbit (gc_api_flags g) i) gpus) /\
  (forall i, 0 <= i -> Z.testbit (ac_api_intersection c) i = forallb (fun g => Z.testbit (gc_api_flags g) i) gpus) /\
  ac_tier c = (if forallb gc_supports_compute gpus
               then if forallb gc_supports_graphics gpus then Tier_Full else Tier_ComputeOnly
               else Tier_Mixed).
Proof.
  intros Hne Hv. destruct (totals_all gpus Hv) as [Q1 Q2 Q3 Q4 Q5 Q6 Q7 Q8 Q9].
  destruct Q9 as [[-> _]|Q9]; [done|].
  assert (Hv' : exists g, valid_gpu g /\ gc_vulkan_major g = tt_vk_major (fold_left add_gpu gpus totals_start) /\
    gc_vulkan_minor g = tt_vk_minor (fold_left add_gpu gpus totals_start)).
  { apply Exists_exists in Q9 as (g & Hin & Eg). exists g. split; [|done]. by eapply Forall_forall in Hv. }
  destruct Hv' as (g0 & V & E1 & E2). destruct V as [_ _ _ V1 V2].
  set (t := fold_left add_gpu gpus totals_start) in *. intros c.
  assert (Ec : c = mk_aggcap (u32 (Z.of_nat (length gpus))) (tt_vram t) (tt_cu t) (tt_bw t) (tt_vk_major t)
    (tt_vk_minor t) (tt_union t) (tt_intersection t)
    (if tt_graphics t && tt_compute t then Tier_Full
     else if tt_compute t && negb (tt_graphics t) then Tier_ComputeOnly else Tier_Mixed)).
  { unfold c, from_gpus. fold t.
    rewrite (proj2 (Z.eqb_neq (tt_vk_major t) U32_MAX)), (proj2 (Z.eqb_neq (tt_vk_minor t) U32_MAX)) by lia.
    by destruct gpus. }
  rewrite Ec. cbn.
  split_and!; try done.
  - intros i Hi. rewrite Q5 by done. destruct (Z.ltb_spec i 32); [done|].
    destruct gpus as [|g gpus]; [done|]. apply Forall_inv in Hv as [_ _ Hf _ _].
    cbn [forallb]. by rewrite (u32_high _ i Hf).
  - rewrite Q6, Q7. by destruct (forallb gc_supports_graphics gpus), (forallb gc_supports_compute gpus).
Qed.

(** A desktop card and a compute card. *)
Definition desktop : GpuCapability :=
  mk_gpucap Vendor_Amd 1 8589934592 (f32_of_Z 500) 64 3 1 3 4 16 true true true.
Definition cruncher : GpuCapability :=
  mk_gpucap Vendor_Nvidia 2 17179869184 (f32_of_Z 900) 108 7 1 2 4 16 false true false.

Lemma aggregate_spec_witness :
  let c := from_gpus [desktop; cruncher] in
  ac_total_vram_bytes c = 25769803776 /\ ac_min_vulkan_minor c = 2 /\ ac_tier c = Tier_ComputeOnly.
Proof.
  destruct (aggregate_spec [desktop; cruncher]) as (E1 & _ & _ & _ & _ & _ & E2).
  - done.
  - repeat (apply List.Forall_cons; [split; vm_compute; repeat split; congruence|]). apply List.Forall_nil.
  - cbn zeta. rewrite E1, E2. vm_compute. repeat split; reflexivity.
Defined.
