(* ===== verification/RustTracker.v ===== *)
(** * The memory tracker of the runtime crate

    runtime/safe/memory_safety.rs with the error type of runtime/safe/lib.rs:
    addresses, the tracker that hands out regions of a GPU's address space,
    and the validation of accesses.  Each field of the tracker has its own
    lock; a panic poisons the locks that are held. *)

From S2P Require Import Prelude RustStd.
Local Open Scope Z_scope.

Inductive MvgalError : Type :=
| Success | InvalidArgument | OutOfMemory | NotFound | NotSupported | DeviceBusy | Timeout
| FenceAlreadySignaled | FenceNotSignaled | MappingFailed | AccessDenied | Unknown.

Definition MvgalError_i32 (e : MvgalError) : Z :=
  match e with
  | Success => 0
  | InvalidArgument => 1
  | OutOfMemory => 2
  | NotFound => 3
  | NotSupported => 4
  | DeviceBusy => 5
  | Timeout => 6
  | FenceAlreadySignaled => 7
  | FenceNotSignaled => 8
  | MappingFailed => 9
  | AccessDenied => 10
  | Unknown => int32 4294967295
  end.

Abbreviation MvgalResult A := (MvgalError + A)%type.

Definition GPU_MEMORY_ALIGNMENT : Z := 256.

Inductive MemoryType : Type := GpuDeviceLocal | GpuHostVisible | MT_SystemRam | UnifiedMemory | DmaBuf.

Record GpuMemoryRegion : Type := mk_region {
  rg_base : Z;
  rg_size : Z;
  rg_memory_type : MemoryType;
  rg_gpuaffinity : list bool;
  rg_refcount : Z;
  rg_mappable : bool
}.

Definition region_new (base size : Z) (memory_type : MemoryType) (num_gpus : nat) : GpuMemoryRegion :=
  mk_region base size memory_type (replicate num_gpus true) 1 false.

Definition is_accessible_by (r : GpuMemoryRegion) (gpu_index : Z) : bool :=
  default false (rg_gpuaffinity r !! Z.to_nat gpu_index).

Definition is_aligned (address alignment : Z) : bool := address mod alignment =? 0.

(** [GpuMemoryAddress::new]; the address is its number. *)
Definition address_new (address : Z) : MvgalResult Z :=
  if address =? 0 then inl InvalidArgument
  else if negb (is_aligned address GPU_MEMORY_ALIGNMENT) then inl InvalidArgument
  else inr address.

Definition address_null : Z := 0.
Definition address_is_null (a : Z) : bool := a =? 0.

(** The allocations, the next address, the committed bytes and the peak. *)
Record GpuMemoryTracker : Type := mk_tracker {
  tk_allocations : mutex (gmap Z GpuMemoryRegion);
  tk_next_address : mutex Z;
  tk_total_committed : mutex Z;
  tk_peak_usage : mutex Z;
  tk_gpu_index : Z
}.
#[export] Instance GpuMemoryTracker_eta : Eta GpuMemoryTracker := fun r =>
  mk_tracker (tk_allocations r) (tk_next_address r) (tk_total_committed r) (tk_peak_usage r) (tk_gpu_index r).

Definition tracker_new (gpu_index : Z) : GpuMemoryTracker :=
  mk_tracker (mk_mutex false ∅) (mk_mutex false 0) (mk_mutex false 0) (mk_mutex false 0) gpu_index.

Definition set_value {R : Type} (v : R) (m : mutex R) : mutex R := mk_mutex (mx_poisoned m) v.
Definition poison {R : Type} (m : mutex R) : mutex R := mk_mutex true (mx_value m).

(** [field.lock().unwrap()] and [field.write().unwrap()]. *)
Definition lock {S R : Type} (field : S -> mutex R) : P S R := fun s =>
  if mx_poisoned (field s) then (None, s) else (Some (mx_value (field s)), s).

(** The scope of a guard: [poisons] is what a panic in it does. *)
Definition holding {S A : Type} (poisons : S -> S) (m : P S A) : P S A := fun s =>
  match m s with
  | (Some a, s') => (Some a, s')
  | (None, s') => (None, poisons s')
  end.

Section tracker.
Context `{RustProfile}.

Abbreviation TM := (P GpuMemoryTracker).

Definition align_up {S : Type} (value alignment : Z) : P S Z :=
  a ← fit U64_MAX (value + alignment);
  b ← fit U64_MAX (a - 1);
  fit U64_MAX (b / alignment * alignment).

Definition tracker_allocate (size : Z) (memory_type : MemoryType) (num_gpus : nat)
  : TM (MvgalResult GpuMemoryRegion) :=
  aligned_size ← align_up size GPU_MEMORY_ALIGNMENT;
  base ← lock tk_next_address;
  holding (fun s => s <| tk_next_address ::= poison |>) (
    next ← fit U64_MAX (base + aligned_size);
    update (fun s => s <| tk_next_address ::= set_value next |>);;
    total ← lock tk_total_committed;
    holding (fun s => s <| tk_total_committed ::= poison |>) (
      sum ← fit U64_MAX (total + aligned_size);
      update (fun s => s <| tk_total_committed ::= set_value sum |>);;
      peak ← lock tk_peak_usage;
      holding (fun s => s <| tk_peak_usage ::= poison |>) (
        top ← fit U64_MAX (aligned_size + base);
        update (fun s => if peak <? top then s <| tk_peak_usage ::= set_value top |> else s);;
        let region := region_new base aligned_size memory_type num_gpus in
        allocs ← lock tk_allocations;
        match address_new base with
        | inl e => mret (inl e)
        | inr a => update (fun s => s <| tk_allocations ::= set_value (<[a := region]> allocs) |>);; mret (inr region)
        end))).

Definition tracker_free (address : Z) : TM (MvgalResult unit) :=
  allocs ← lock tk_allocations;
  holding (fun s => s <| tk_allocations ::= poison |>)
    match allocs !! address with
    | Some region =>
        update (fun s => s <| tk_allocations ::= set_value (delete address allocs) |>);;
        total ← lock tk_total_committed;
        holding (fun s => s <| tk_total_committed ::= poison |>) (
          rest ← fit U64_MAX (total - rg_size region);
          update (fun s => s <| tk_total_committed ::= set_value rest |>);;
          mret (inr tt))
    | None => mret (inl NotFound)
    end.

Definition get_region (address : Z) : TM (option GpuMemoryRegion) :=
  allocs ← lock tk_allocations; mret (allocs !! address).

Definition is_valid_address (address : Z) : TM bool :=
  r ← get_region address; mret (bool_decide (is_Some r)).

Definition get_stats : TM (Z * Z * Z) :=
  total ← lock tk_total_committed;
  peak ← lock tk_peak_usage;
  allocs ← lock tk_allocations;
  mret (total, peak, Z.of_nat (size allocs)).

Definition validate_memory_access (gpu_index address size : Z) : TM (MvgalResult unit) :=
  valid ← is_valid_address address;
  if negb valid then mret (inl InvalidArgument) else
  found ← get_region address;
  match found with
  | None => mret (inl NotFound)
  | Some region =>
      if negb (is_accessible_by region gpu_index) then mret (inl AccessDenied) else
      end_access ← fit U64_MAX (address + size);
      end_region ← fit U64_MAX (rg_base region + rg_size region);
      mret (if end_region <? end_access then inl InvalidArgument else inr tt)
  end.

End tracker.

(** ** Descriptors and copies *)

(** [SafeDmaBufFd] over the open descriptors of the process. *)
Definition dmabuf_fd_new (fd : Z) : option Z := if 0 <=? fd then Some fd else None.
Definition dmabuf_fd_drop (fd : Z) (open : gset Z) : gset Z := open ∖ {[fd]}.
Definition dmabuf_fd_into_raw (fd : Z) (open : gset Z) : Z * gset Z := (fd, open).

Inductive MemoryCopyMethod : Type := Auto | P2PDma | HostStaging | DirectGpuCopy | Uva.

Record CrossGpuMemoryCopy : Type := mk_gpu_copy {
  gx_src_gpu : Z;
  gx_src_address : Z;
  gx_dst_gpu : Z;
  gx_dst_address : Z;
  gx_size : Z;
  gx_method : MemoryCopyMethod
}.

Definition gpu_copy_new (src_gpu src_addr dst_gpu dst_addr size : Z) : MvgalResult CrossGpuMemoryCopy :=
  match address_new src_addr with
  | inl e => inl e
  | inr src =>
      match address_new dst_addr with
      | inl e => inl e
      | inr dst => inr (mk_gpu_copy src_gpu src dst_gpu dst size Auto)
      end
  end.

Definition determine_method (can_p2p use_host_staging : bool) : MemoryCopyMethod :=
  if can_p2p then P2PDma else if use_host_staging then HostStaging else DirectGpuCopy.

(** ** Isolation *)

Section isolation.
Context `{RustProfile}.
Context (checked : overflow_checks = true).

(** States of a tracker after any calls, returning or panicking. *)
Inductive tracker_reachable : GpuMemoryTracker -> Prop :=
| reach_new gpu_index : tracker_reachable (tracker_new gpu_index)
| reach_allocate s size memory_type num_gpus :
    tracker_reachable s -> 0 <= size -> tracker_reachable (tracker_allocate size memory_type num_gpus s).2
| reach_free s address : tracker_reachable s -> tracker_reachable (tracker_free address s).2.

Definition live (s : GpuMemoryTracker) : gmap Z GpuMemoryRegion := mx_value (tk_allocations s).

Definition bytes (m : gmap Z GpuMemoryRegion) : Z := map_fold (fun _ r sum => rg_size r + sum) 0 m.

Record tracker_ok (s : GpuMemoryTracker) : Prop := {
  ok_next : 0 <= mx_value (tk_next_address s);
  ok_region : forall a r, live s !! a = Some r ->
    rg_base r = a /\ 0 < a /\ 0 <= rg_size r /\ a + rg_size r <= mx_value (tk_next_address s);
  ok_apart : forall a r a' r', live s !! a = Some r -> live s !! a' = Some r' -> a < a' -> a + rg_size r <= a';
  ok_total : bytes (live s) <= mx_value (tk_total_committed s)
}.

Lemma fit_checked {S} max z (s : S) :
  fit max z s = (if bool_decide (0 <= z <= max) then Some z else None, s).
Proof.
  unfold fit. rewrite checked. case_bool_decide as Hz.
  - by rewrite (proj2 (Z.leb_le _ _)), (proj2 (Z.leb_le _ _)) by lia.
  - destruct (Z.leb_spec 0 z), (Z.leb_spec z max); done || lia.
Qed.

Lemma bytes_insert a r m : m !! a = None -> bytes (<[a := r]> m) = rg_size r + bytes m.
Proof. intros. unfold bytes. rewrite map_fold_insert_L; [done|intros; lia|done]. Qed.

Lemma bytes_delete a r m : m !! a = Some r -> bytes m = rg_size r + bytes (delete a m).
Proof.
  intros E. rewrite <- (insert_delete_id m a r E) at 1. apply bytes_insert, lookup_delete_eq.
Qed.

Lemma align_up_ge {S} size (s : S) z s' :
  0 <= size -> align_up size GPU_MEMORY_ALIGNMENT s = (Some z, s') -> s' = s /\ size <= z.
Proof.
  intros Hs. unfold align_up, GPU_MEMORY_ALIGNMENT, mbind, P_bind. rewrite fit_checked.
  case_bool_decide; [|done]. rewrite fit_checked. case_bool_decide; [|done]. rewrite fit_checked.
  case_bool_decide; [|done]. intros [= <- <-]. split; [done|].
  pose proof (Z.div_mod (size + 256 - 1) 256 ltac:(lia)). pose proof (Z.mod_pos_bound (size + 256 - 1) 256 ltac:(lia)). lia.
Qed.

Lemma ok_grow s s' :
  tracker_ok s -> live s' = live s -> mx_value (tk_next_address s) <= mx_value (tk_next_address s') ->
  mx_value (tk_total_committed s) <= mx_value (tk_total_committed s') -> tracker_ok s'.
Proof.
  intros [Q1 Q2 Q3 Q4] El Hn Ht. split; rewrite ?El; [lia| |exact Q3|lia].
  intros a r Hr. destruct (Q2 a r Hr) as (? & ? & ? & ?). split_and!; done || lia.
Qed.

Lemma ok_insert s s' size memory_type num_gpus :
  let base := mx_value (tk_next_address s) in
  tracker_ok s -> base <> 0 -> 0 <= size ->
  live s' = <[base := region_new base size memory_type num_gpus]> (live s) ->
  mx_value (tk_next_address s') = base + size ->
  mx_value (tk_total_committed s') = mx_value (tk_total_committed s) + size -> tracker_ok s'.
Proof.
  intros base [Q1 Q2 Q3 Q4] Hb Hs El En Et. split; rewrite ?El, ?En, ?Et.
  - unfold base. lia.
  - intros a r. rewrite lookup_insert_Some. intros [[<- <-]|[Hne Hr]]; [cbn; unfold base in *; lia|].
    destruct (Q2 a r Hr) as (? & ? & ? & ?). unfold base. split_and!; done || lia.
  - intros a r a' r'. rewrite !lookup_insert_Some. intros [[<- <-]|[Hne Hr]] [[<- <-]|[Hne' Hr']] Hlt.
    + lia.
    + destruct (Q2 a' r' Hr') as (? & ? & ? & ?). unfold base in *. lia.
    + destruct (Q2 a r Hr) as (? & ? & ? & ?). unfold base in *. lia.
    + by eapply Q3.
  - destruct (live s !! base) as [r|] eqn:E.
    + rewrite <- insert_delete_eq, bytes_insert by apply lookup_delete_eq.
      rewrite (bytes_delete _ _ _ E) in Q4. destruct (Q2 _ _ E) as (? & ? & ? & ?). cbn. lia.
    + rewrite bytes_insert by done. cbn. lia.
Qed.

Ltac grow :=
  match goal with Hok : tracker_ok _ |- _ =>
    eapply ok_grow; [exact Hok|reflexivity|cbn; lia|cbn; lia]
  end.

Lemma ok_allocate s size memory_type num_gpus :
  tracker_ok s -> 0 <= size -> tracker_ok (tracker_allocate size memory_type num_gpus s).2.
Proof.
  intros Hok Hs. unfold tracker_allocate. unfold mbind at 1, P_bind at 1.
  destruct (align_up size GPU_MEMORY_ALIGNMENT s) as [[z|] s0] eqn:Ea.
  2:{ unfold align_up, mbind, P_bind in Ea. rewrite fit_checked in Ea. case_bool_decide; [|by simplify_eq].
      rewrite fit_checked in Ea. case_bool_decide; [|by simplify_eq]. rewrite fit_checked in Ea. by simplify_eq. }
  apply align_up_ge in Ea as [-> Hz]; [|done].
  unfold mbind, P_bind, lock, holding, update, mret, P_ret.
  destruct (mx_poisoned (tk_next_address s)); [done|].
  rewrite fit_checked. case_bool_decide; [|by eapply ok_grow].
  cbn -[fit address_new]. destruct (mx_poisoned (tk_total_committed s)); [grow|].
  rewrite fit_checked. case_bool_decide; [|grow].
  cbn -[fit address_new]. destruct (mx_poisoned (tk_peak_usage s)); [grow|].
  rewrite fit_checked. case_bool_decide; [|grow]. cbn -[fit address_new].
  match goal with |- context [if ?b then mk_tracker _ _ _ _ _ else _] => destruct b end; cbn -[fit address_new];
    (destruct (mx_poisoned (tk_allocations s)); [grow|]); unfold address_new;
    (destruct (Z.eqb_spec (mx_value (tk_next_address s)) 0); [grow|]);
    (destruct (is_aligned _ _); [|grow]);
    (eapply ok_insert; [exact Hok|done| |done|done|done]; lia).
Qed.

Lemma ok_free s address : tracker_ok s -> tracker_ok (tracker_free address s).2.
Proof.
  intros Hok. unfold tracker_free, mbind, P_bind, lock, holding, update, mret, P_ret.
  destruct (mx_poisoned (tk_allocations s)); [done|]. fold (live s).
  destruct (live s !! address) as [r|] eqn:E; [|done].
  assert (Hdel : forall s', live s' = delete address (live s) -> tk_next_address s' = tk_next_address s ->
    mx_value (tk_total_committed s) - rg_size r <= mx_value (tk_total_committed s') -> tracker_ok s').
  { destruct Hok as [Q1 Q2 Q3 Q4]. intros s' El En Et. split; rewrite ?El, ?En; [done|..].
    - intros a r'. rewrite lookup_delete_Some. intros [_ Hr]. by apply Q2.
    - intros a r1 a' r2. rewrite !lookup_delete_Some. intros [_ Q5] [_ Q6]. by eapply Q3.
    - rewrite (bytes_delete _ _ _ E) in Q4. lia. }
  destruct (ok_region _ Hok _ _ E) as (_ & _ & Hz & _).
  cbn -[fit]. destruct (mx_poisoned (tk_total_committed s)); [apply Hdel; [done..|cbn; lia]|].
  rewrite fit_checked. case_bool_decide; apply Hdel; done || (cbn; lia).
Qed.

Lemma tracker_reachable_ok s : tracker_reachable s -> tracker_ok s.
Proof.
  induction 1; [|by apply ok_allocate|by apply ok_free]. split; cbn; try done.
Qed.

(** What a successful validation has checked. *)
Lemma validate_inv s gpu address size s' :
  validate_memory_access gpu address size s = (Some (inr tt), s') ->
  exists r, live s !! address = Some r /\ is_accessible_by r gpu = true /\ address + size <= rg_base r + rg_size r.
Proof.
  unfold validate_memory_access, is_valid_address, get_region, lock, mbind, P_bind, mret, P_ret.
  destruct (mx_poisoned (tk_allocations s)) eqn:Ep; [done|]. fold (live s).
  case_bool_decide as Hs; [|done]. cbn. rewrite Ep. fold (live s). destruct Hs as [r E]. rewrite E.
  destruct (is_accessible_by r gpu) eqn:Ea; [|done]. cbn.
  rewrite fit_checked. case_bool_decide; [|done]. rewrite fit_checked. case_bool_decide; [|done].
  destruct (Z.ltb_spec (rg_base r + rg_size r) (address + size)); [done|]. intros _. by exists r.
Qed.

(** C38. Validated accesses do not interfere.  In a build with overflow checks,
    after any calls on a tracker, returning or panicking, an access that is
    validated lies within a live region its GPU may use, and two accesses
    validated at different addresses touch disjoint ranges. *)
Theorem tracker_isolates s gpu1 a1 n1 gpu2 a2 n2 s1 s2 :
  tracker_reachable s ->
  validate_memory_access gpu1 a1 n1 s = (Some (inr tt), s1) ->
  validate_memory_access gpu2 a2 n2 s = (Some (inr tt), s2) ->
  (exists r, live s !! a1 = Some r /\ is_accessible_by r gpu1 = true /\ rg_base r = a1 /\
     a1 + n1 <= a1 + rg_size r) /\
  (a1 <> a2 -> a1 + n1 <= a2 \/ a2 + n2 <= a1).
Proof.
  intros Hok%tracker_reachable_ok (r1 & E1 & A1 & B1)%validate_inv (r2 & E2 & A2 & B2)%validate_inv.
  destruct Hok as [Q1 Q2 Q3 Q4]. destruct (Q2 _ _ E1) as (Hb1 & _ & _ & _), (Q2 _ _ E2) as (Hb2 & _ & _ & _). split.
  - exists r1. split_and!; done || lia.
  - intros Hne. destruct (Z.lt_total a1 a2) as [Hlt|[?|Hlt]]; [left|done|right].
    + specialize (Q3 _ _ _ _ E1 E2 Hlt). lia.
    + specialize (Q3 _ _ _ _ E2 E1 Hlt). lia.
Qed.

End isolation.

Module Run.

#[local] Instance debug : RustProfile := {| overflow_checks := true |}.

Lemma checks_on : overflow_checks = true.
Proof. reflexivity. Qed.

Definition after {A} (m : P GpuMemoryTracker A) (s : GpuMemoryTracker) : GpuMemoryTracker := (m s).2.

(** Three allocations, of which the first is refused. *)
Definition used : GpuMemoryTracker :=
  after (tracker_allocate 300 GpuDeviceLocal 2)
    (after (tracker_allocate 100 GpuDeviceLocal 2)
      (after (tracker_allocate 1 GpuDeviceLocal 2) (tracker_new 0))).

Lemma tracker_isolates_witness :
  512 <> 256 /\ (512 + 512 <= 256 \/ 256 + 200 <= 512).
Proof.
  assert (R : tracker_reachable used) by (repeat (apply reach_allocate; [|lia]); apply reach_new).
  split; [lia|].
  apply (tracker_isolates checks_on used 0 512 512 1 256 200 used used R);
    [vm_compute; reflexivity|vm_compute; reflexivity|lia].
Defined.

(** The first allocation of a tracker starts at address 0, which is refused
    after its bytes have been committed. *)
Example first_allocation_lost :
  exists s, tracker_allocate 100 GpuDeviceLocal 2 (tracker_new 0) = (Some (inl InvalidArgument), s) /\
    get_stats s = (Some (256, 256, 0), s).
Proof. eexists. split; vm_compute; reflexivity. Qed.

End Run.
