(* ===== verification/RustUnified.v ===== *)
(** * The capability model of the runtime crate

    runtime/safe/capability_model.rs: the capabilities of each GPU and the
    unified capabilities of the logical device, recomputed on every change. *)

From S2P Require Import Prelude RustStd.
From stdpp Require Import strings.
Local Open Scope Z_scope.

Inductive ApiType : Type := Vulkan | OpenGL | OpenCL | Cuda | Sycl | Direct3D | Metal | WebGPU.

#[export] Instance ApiType_eq_dec : EqDecision ApiType.
Proof. solve_decision. Defined.

#[export] Instance ApiType_countable : Countable ApiType.
Proof.
  refine (inj_countable'
    (fun a => match a with Vulkan => 0 | OpenGL => 1 | OpenCL => 2 | Cuda => 3 | Sycl => 4 | Direct3D => 5 | Metal => 6 | WebGPU => 7 end)
    (fun n => match n with 0 => Vulkan | 1 => OpenGL | 2 => OpenCL | 3 => Cuda | 4 => Sycl | 5 => Direct3D | 6 => Metal | _ => WebGPU end) _).
  by intros [].
Defined.

Record ApiVersion : Type := mk_version { v_major : Z; v_minor : Z; v_patch : Z }.

Definition from_hex (version : Z) : ApiVersion :=
  mk_version (Z.land (Z.shiftr version 22) 1023) (Z.land (Z.shiftr version 12) 1023) (Z.land version 4095).

Definition to_hex (v : ApiVersion) : Z :=
  Z.lor (Z.lor (Z.shiftl (Z.land (v_major v) 1023) 22) (Z.shiftl (Z.land (v_minor v) 1023) 12))
    (Z.land (v_patch v) 4095).

Inductive GpuVendor : Type := Unknown | Amd | Nvidia | Intel | MooreThreads.

Inductive GpuFeature : Type :=
| Graphics | Compute | RayTracing | Ai | Display | VideoEncode | VideoDecode | P2PDma | Uva
| TimelineSemaphores | DmaBuf | NumaAware | MultiQueue | EccMemory.

#[export] Instance GpuFeature_eq_dec : EqDecision GpuFeature.
Proof. solve_decision. Defined.

#[export] Instance GpuFeature_countable : Countable GpuFeature.
Proof.
  refine (inj_countable'
    (fun f => match f with
      | Graphics => 0 | Compute => 1 | RayTracing => 2 | Ai => 3 | Display => 4 | VideoEncode => 5 | VideoDecode => 6
      | P2PDma => 7 | Uva => 8 | TimelineSemaphores => 9 | DmaBuf => 10 | NumaAware => 11 | MultiQueue => 12 | EccMemory => 13 end)
    (fun n => match n with
      | 0 => Graphics | 1 => Compute | 2 => RayTracing | 3 => Ai | 4 => Display | 5 => VideoEncode | 6 => VideoDecode
      | 7 => P2PDma | 8 => Uva | 9 => TimelineSemaphores | 10 => DmaBuf | 11 => NumaAware | 12 => MultiQueue | _ => EccMemory end) _).
  by intros [].
Defined.

Inductive GpuPowerState : Type := Power_Unknown | Active | Sustained | Idle | Park.
Inductive GpuThermalState : Type := Thermal_Unknown | Normal | Warm | Hot | Throttling | Critical.

Record GpuCapabilities : Type := mk_caps {
  gp_vendor : GpuVendor;
  gp_pci_vendor_id : Z;
  gp_pci_device_id : Z;
  gp_name : string;
  gp_vram_total : Z;
  gp_vram_free : Z;
  gp_vram_bandwidth_mbps : Z;
  gp_system_memory_total : Z;
  gp_system_memory_free : Z;
  gp_compute_units : Z;
  gp_execution_units : Z;
  gp_stream_processors : Z;
  gp_cuda_cores : Z;
  gp_max_clock_mhz : Z;
  gp_current_clock_mhz : Z;
  gp_pcie_generation : Z;
  gp_pcie_lanes : Z;
  gp_numa_node : Z;
  gp_api_versions : gmap ApiType ApiVersion;
  gp_features : gset GpuFeature;
  gp_is_display_connected : bool;
  gp_power_state : GpuPowerState;
  gp_thermal_state : GpuThermalState
}.

Definition caps_new (vendor : GpuVendor) : GpuCapabilities :=
  mk_caps vendor 0 0 EmptyString 0 0 0 0 0 0 0 0 0 0 0 0 0 (-1) ∅ ∅ false Power_Unknown Thermal_Unknown.

Definition supports_api (g : GpuCapabilities) (api : ApiType) : bool := bool_decide (is_Some (gp_api_versions g !! api)).
Definition supports_feature (g : GpuCapabilities) (f : GpuFeature) : bool := bool_decide (f ∈ gp_features g).
Definition api_version (g : GpuCapabilities) (api : ApiType) : option ApiVersion := gp_api_versions g !! api.
Definition min_api_version (g : GpuCapabilities) (api : ApiType) : option ApiVersion := gp_api_versions g !! api.

Inductive CapabilityTier : Type := Full | ComputeOnly | Mixed.

Record UnifiedCapabilities : Type := mk_unified {
  un_total_vram : Z;
  un_free_vram : Z;
  un_total_bandwidth_mbps : Z;
  un_total_compute_units : Z;
  un_common_api_versions : gmap ApiType ApiVersion;
  un_union_api_versions : gmap ApiType ApiVersion;
  un_common_features : gset GpuFeature;
  un_union_features : gset GpuFeature;
  un_tier : CapabilityTier;
  un_gpu_count : Z;
  un_p2p_supported : bool;
  un_numa_aware : bool;
  un_has_display_gpu : bool
}.
#[export] Instance UnifiedCapabilities_eta : Eta UnifiedCapabilities := fun r =>
  mk_unified (un_total_vram r) (un_free_vram r) (un_total_bandwidth_mbps r) (un_total_compute_units r)
    (un_common_api_versions r) (un_union_api_versions r) (un_common_features r) (un_union_features r)
    (un_tier r) (un_gpu_count r) (un_p2p_supported r) (un_numa_aware r) (un_has_display_gpu r).

(** The locked list of GPUs and the unified capabilities.  A panic while the
    list is read, or while the unified capabilities are written, poisons
    nothing: a read lock is never poisoned, and the writes cannot panic. *)
Record CapabilityModel : Type := mk_model {
  md_gpus : mutex (list GpuCapabilities);
  md_unified : option UnifiedCapabilities
}.
#[export] Instance CapabilityModel_eta : Eta CapabilityModel := fun r => mk_model (md_gpus r) (md_unified r).

Definition model_new : CapabilityModel := mk_model (mk_mutex false []) None.

(** The order in which a [HashMap] is iterated is not specified. *)
Class HashOrder : Type := {
  iter : gmap ApiType ApiVersion -> list (ApiType * ApiVersion);
  iter_perm : forall m, iter m ≡ₚ map_to_list m
}.

Section model.
Context `{RustProfile} `{HashOrder}.

Abbreviation CM := (P CapabilityModel).

(** [gpus.read().unwrap()] *)
Definition read_gpus : CM (list GpuCapabilities) := fun s =>
  if mx_poisoned (md_gpus s) then (None, s) else (Some (mx_value (md_gpus s)), s).

Definition add_numbers (u : UnifiedCapabilities) (gpu : GpuCapabilities) : CM UnifiedCapabilities :=
  vram ← fit U64_MAX (un_total_vram u + gp_vram_total gpu);
  free ← fit U64_MAX (un_free_vram u + gp_vram_free gpu);
  bandwidth ← fit U64_MAX (un_total_bandwidth_mbps u + gp_vram_bandwidth_mbps gpu);
  units ← fit U32_MAX (un_total_compute_units u + gp_compute_units gpu);
  mret (u <| un_total_vram := vram |> <| un_free_vram := free |> <| un_total_bandwidth_mbps := bandwidth |>
          <| un_total_compute_units := units |>
          <| un_has_display_gpu := un_has_display_gpu u || gp_is_display_connected gpu |>
          <| un_numa_aware := un_numa_aware u || (0 <=? gp_numa_node gpu) |>).

Fixpoint sum_numbers (u : UnifiedCapabilities) (gpus : list GpuCapabilities) : CM UnifiedCapabilities :=
  match gpus with
  | [] => mret u
  | gpu :: rest => u' ← add_numbers u gpu; sum_numbers u' rest
  end.

Definition add_api (first_gpu : bool) (u : UnifiedCapabilities) (e : ApiType * ApiVersion) : UnifiedCapabilities :=
  let '(api, version) := e in
  let u := u <| un_union_api_versions ::= <[api := version]> |> in
  if first_gpu then u <| un_common_api_versions ::= <[api := version]> |>
  else match un_common_api_versions u !! api with
       | Some existing =>
           if to_hex version <? to_hex existing then u <| un_common_api_versions ::= <[api := version]> |> else u
       | None => u
       end.

Definition add_sets (first_gpu : bool) (u : UnifiedCapabilities) (gpu : GpuCapabilities) : UnifiedCapabilities :=
  let u := fold_left (add_api first_gpu) (iter (gp_api_versions gpu)) u in
  let u := u <| un_union_features ::= fun f => f ∪ gp_features gpu |> in
  if first_gpu then u <| un_common_features ::= fun f => f ∪ gp_features gpu |>
  else u <| un_common_features ::= fun f => f ∩ gp_features gpu |>.

Fixpoint merge_sets (first_gpu : bool) (u : UnifiedCapabilities) (gpus : list GpuCapabilities) : UnifiedCapabilities :=
  match gpus with
  | [] => u
  | gpu :: rest => merge_sets false (add_sets first_gpu u gpu) rest
  end.

Definition choose_tier (u : UnifiedCapabilities) : CapabilityTier :=
  if (size (un_common_api_versions u) =? 0)%nat then
    if un_has_display_gpu u then Mixed else ComputeOnly
  else if (size (un_common_api_versions u) <? size (un_union_api_versions u))%nat then
    if bool_decide (is_Some (un_common_api_versions u !! Vulkan)) then Full else ComputeOnly
  else Full.

Definition recompute_unified : CM unit :=
  gpus ← read_gpus;
  match gpus with
  | [] => update (fun s => s <| md_unified := None |>)
  | _ =>
      let start := mk_unified 0 0 0 0 ∅ ∅ ∅ ∅ Full (Z.of_nat (length gpus)) false false false in
      u ← sum_numbers start gpus;
      let u := merge_sets true u gpus in
      let u := u <| un_tier := choose_tier u |> in
      let u := u <| un_p2p_supported := existsb (fun g => bool_decide (P2PDma ∈ gp_features g)) gpus |> in
      update (fun s => s <| md_unified := Some u |>)
  end.

(** [gpus.resize(n, GpuCapabilities::new(Unknown))] *)
Definition resize_gpus (gpus : list GpuCapabilities) (n : nat) : list GpuCapabilities :=
  take n gpus ++ replicate (n - length gpus) (caps_new Unknown).

Definition update_gpu (index : Z) (capabilities : GpuCapabilities) : CM unit :=
  gpus ← read_gpus;
  gpus' ← (fun s =>
    if index <? Z.of_nat (length gpus) then (Some gpus, s)
    else match fit U64_MAX (index + 1) s with
         | (Some n, s) => (Some (resize_gpus gpus (Z.to_nat n)), s)
         | (None, s) => (None, s <| md_gpus := mk_mutex true gpus |>)
         end);
  (fun s =>
    if index <? Z.of_nat (length gpus')
    then (Some tt, s <| md_gpus := mk_mutex false (<[Z.to_nat index := capabilities]> gpus') |>)
    else (None, s <| md_gpus := mk_mutex true gpus' |>));;
  recompute_unified.

Definition remove_gpu (index : Z) : CM unit :=
  gpus ← read_gpus;
  update (fun s =>
    if index <? Z.of_nat (length gpus)
    then s <| md_gpus := mk_mutex false (take (Z.to_nat index) gpus ++ drop (S (Z.to_nat index)) gpus) |> else s);;
  recompute_unified.

Definition get_gpu (index : Z) : CM (option GpuCapabilities) :=
  gpus ← read_gpus; mret (gpus !! Z.to_nat index).

Definition get_all_gpus : CM (list GpuCapabilities) := read_gpus.

Definition get_unified : CM (option UnifiedCapabilities) := asks md_unified.

Definition tier : CM CapabilityTier := u ← get_unified; mret (from_option un_tier Full u).

Inductive GpuCompatibility : Type := P2PSupported | Compatible | Limited | Incompatible.

Definition compatibility (cap1 cap2 : GpuCapabilities) : GpuCompatibility :=
  if bool_decide (P2PDma ∈ gp_features cap1) && bool_decide (P2PDma ∈ gp_features cap2) then P2PSupported
  else match api_version cap1 Vulkan, api_version cap2 Vulkan with
       | Some v1, Some v2 => if v_major v1 =? v_major v2 then Compatible else Limited
       | _, _ =>
           if negb (bool_decide (filter (fun e => is_Some (gp_api_versions cap2 !! e.1)) (iter (gp_api_versions cap1)) = []))
           then Limited else Incompatible
       end.

Definition check_compatibility (gpu1 gpu2 : Z) : CM GpuCompatibility :=
  gpus ← read_gpus;
  mret (match gpus !! Z.to_nat gpu1, gpus !! Z.to_nat gpu2 with
        | Some cap1, Some cap2 => compatibility cap1 cap2
        | _, _ => Incompatible
        end).

End model.

(** ** Versions *)

Lemma to_hex_bits v i :
  0 <= i -> Z.testbit (to_hex v) i =
    if i <? 12 then Z.testbit (v_patch v) i
    else if i <? 22 then Z.testbit (v_minor v) (i - 12)
    else if i <? 32 then Z.testbit (v_major v) (i - 22) else false.
Proof.
  intros Hi. unfold to_hex. change 1023 with (Z.ones 10). change 4095 with (Z.ones 12).
  rewrite !Z.lor_spec, !Z.shiftl_spec, !Z.land_spec by lia.
  assert (T : forall n j, 0 <= n -> Z.testbit (Z.ones n) j = (0 <=? j) && (j <? n)).
  { intros n j Hn. destruct (Z.leb_spec 0 j); cbn; [by apply Z.testbit_ones_nonneg|]. by apply Z.testbit_neg_r. }
  rewrite !T by lia.
  destruct (Z.ltb_spec i 12), (Z.ltb_spec i 22), (Z.ltb_spec i 32), (Z.leb_spec 0 i), (Z.leb_spec 0 (i - 12)),
    (Z.leb_spec 0 (i - 22)), (Z.ltb_spec (i - 12) 10), (Z.ltb_spec (i - 22) 10); try lia; cbn;
    rewrite ?andb_true_r, ?andb_false_r, ?orb_false_r, ?orb_false_l; done.
Qed.

(** A packed version and its fields determine each other: packing what was
    unpacked gives the 32-bit number back, and unpacking what was packed gives
    fields in range back. *)
Theorem api_version_roundtrip :
  (forall x, 0 <= x < 2 ^ 32 -> to_hex (from_hex x) = x) /\
  (forall v, 0 <= v_major v < 2 ^ 10 -> 0 <= v_minor v < 2 ^ 10 -> 0 <= v_patch v < 2 ^ 12 ->
     from_hex (to_hex v) = v).
Proof.
  assert (Hlow : forall x n i, 0 <= n -> 0 <= x < 2 ^ n -> n <= i -> Z.testbit x i = false).
  { intros x n i Hn [H0 H1] Hi. destruct (Z.eq_dec x 0) as [->|]; [apply Z.bits_0|].
    apply Z.bits_above_log2; [done|]. apply Z.lt_le_trans with n; [|done]. apply Z.log2_lt_pow2; lia. }
  assert (Hones : forall n i, 0 <= n -> 0 <= i -> Z.testbit (Z.ones n) i = (i <? n))
    by (intros; by apply Z.testbit_ones_nonneg).
  split.
  - intros x Hx. apply Z.bits_inj'. intros i Hi. rewrite to_hex_bits by done.
    unfold from_hex. cbn [v_major v_minor v_patch]. change 1023 with (Z.ones 10). change 4095 with (Z.ones 12).
    destruct (Z.ltb_spec i 12).
    { by rewrite Z.land_spec, Hones, (proj2 (Z.ltb_lt _ _)), andb_true_r by lia. }
    destruct (Z.ltb_spec i 22).
    { rewrite Z.land_spec, Z.shiftr_spec, Hones, (proj2 (Z.ltb_lt _ _)), andb_true_r by lia. f_equal. lia. }
    destruct (Z.ltb_spec i 32).
    { rewrite Z.land_spec, Z.shiftr_spec, Hones, (proj2 (Z.ltb_lt _ _)), andb_true_r by lia. f_equal. lia. }
    symmetry. by apply (Hlow x 32).
  - intros [maj min pat]. cbn [v_major v_minor v_patch]. intros Hmaj Hmin Hpat. unfold from_hex.
    change 1023 with (Z.ones 10). change 4095 with (Z.ones 12).
    f_equal; apply Z.bits_inj'; intros i Hi;
      rewrite Z.land_spec, ?Z.shiftr_spec, Hones, to_hex_bits by lia; cbn [v_major v_minor v_patch].
    + destruct (Z.ltb_spec i 10); [|by rewrite andb_false_r, (Hlow maj 10) by lia].
      rewrite !(proj2 (Z.ltb_ge _ _)), (proj2 (Z.ltb_lt _ _)), andb_true_r by lia. f_equal. lia.
    + destruct (Z.ltb_spec i 10); [|by rewrite andb_false_r, (Hlow min 10) by lia].
      rewrite (proj2 (Z.ltb_ge _ _)), (proj2 (Z.ltb_lt _ _)), andb_true_r by lia. f_equal. lia.
    + destruct (Z.ltb_spec i 12); [by rewrite andb_true_r|by rewrite andb_false_r, (Hlow pat 12) by lia].
Qed.

(** ** The unified capabilities describe the GPUs *)

Section unified.
Context `{RustProfile} `{HashOrder}.

(** [v] is the least of the versions the GPUs have of an API. *)
Definition least_version (gpus : list GpuCapabilities) (api : ApiType) (v : ApiVersion) : Prop :=
  (exists g, g ∈ gpus /\ gp_api_versions g !! api = Some v) /\
  forall g w, g ∈ gpus -> gp_api_versions g !! api = Some w -> to_hex v <= to_hex w.

Record sets_describe (u : UnifiedCapabilities) (gpus : list GpuCapabilities) : Prop := {
  sd_common_features : forall f, f ∈ un_common_features u <-> forall g, g ∈ gpus -> f ∈ gp_features g;
  sd_union_features : forall f, f ∈ un_union_features u <-> exists g, g ∈ gpus /\ f ∈ gp_features g;
  sd_union_api : forall api, is_Some (un_union_api_versions u !! api) <->
    exists g, g ∈ gpus /\ is_Some (gp_api_versions g !! api);
  sd_union_from : forall api v, un_union_api_versions u !! api = Some v ->
    exists g, g ∈ gpus /\ gp_api_versions g !! api = Some v;
  sd_common_api : forall api, is_Some (un_common_api_versions u !! api) <->
    exists g, head gpus = Some g /\ is_Some (gp_api_versions g !! api);
  sd_common_least : forall api v, un_common_api_versions u !! api = Some v -> least_version gpus api v
}.

Record numbers_describe (u : UnifiedCapabilities) (gpus : list GpuCapabilities) : Prop := {
  nd_vram : un_total_vram u = u64 (sum_by gp_vram_total gpus);
  nd_free : un_free_vram u = u64 (sum_by gp_vram_free gpus);
  nd_bandwidth : un_total_bandwidth_mbps u = u64 (sum_by gp_vram_bandwidth_mbps gpus);
  nd_units : un_total_compute_units u = u32 (sum_by gp_compute_units gpus);
  nd_display : un_has_display_gpu u = existsb gp_is_display_connected gpus;
  nd_numa : un_numa_aware u = existsb (fun g => 0 <=? gp_numa_node g) gpus
}.

Record describes (u : UnifiedCapabilities) (gpus : list GpuCapabilities) : Prop := {
  de_numbers : numbers_describe u gpus;
  de_sets : sets_describe u gpus;
  de_count : un_gpu_count u = Z.of_nat (length gpus);
  de_p2p : un_p2p_supported u = existsb (fun g => bool_decide (P2PDma ∈ gp_features g)) gpus;
  de_tier : un_tier u = choose_tier u
}.

(** *** Numbers *)

Lemma add_numbers_spec u gpus gpu s u' s' :
  numbers_describe u gpus -> add_numbers u gpu s = (Some u', s') ->
  s' = s /\ numbers_describe u' (gpus ++ [gpu]) /\ un_common_api_versions u' = un_common_api_versions u /\
  un_union_api_versions u' = un_union_api_versions u /\ un_common_features u' = un_common_features u /\
  un_union_features u' = un_union_features u /\ un_gpu_count u' = un_gpu_count u.
Proof.
  intros [Q1 Q2 Q3 Q4 Q5 Q6] E. unfold add_numbers, mbind, P_bind in E.
  destruct (fit U64_MAX _ s) as [[z1|] s1] eqn:E1; [|done].
  destruct (fit U64_MAX _ s1) as [[z2|] s2] eqn:E2; [|done].
  destruct (fit U64_MAX _ s2) as [[z3|] s3] eqn:E3; [|done].
  destruct (fit U32_MAX _ s3) as [[z4|] s4] eqn:E4; [|done].
  apply fit_mod in E1 as [-> ->], E2 as [-> ->], E3 as [-> ->], E4 as [-> ->]; try (unfold U64_MAX, U32_MAX; lia).
  injection E as <- <-. split; [done|]. split; [|done].
  change (U64_MAX + 1) with 18446744073709551616. change (U32_MAX + 1) with 4294967296.
  split; cbn -[Z.modulo].
  - rewrite sum_by_app, Q1. apply u64_add_l.
  - rewrite sum_by_app, Q2. apply u64_add_l.
  - rewrite sum_by_app, Q3. apply u64_add_l.
  - rewrite sum_by_app, Q4. apply u32_add_l.
  - by rewrite existsb_app, Q5; cbn; rewrite orb_false_r.
  - by rewrite existsb_app, Q6; cbn; rewrite orb_false_r.
Qed.

Lemma sum_numbers_spec gpus u before s u' s' :
  numbers_describe u before -> sum_numbers u gpus s = (Some u', s') ->
  s' = s /\ numbers_describe u' (before ++ gpus) /\ un_common_api_versions u' = un_common_api_versions u /\
  un_union_api_versions u' = un_union_api_versions u /\ un_common_features u' = un_common_features u /\
  un_union_features u' = un_union_features u /\ un_gpu_count u' = un_gpu_count u.
Proof.
  revert u before s. induction gpus as [|g gpus IH]; intros u before s Hd E; cbn [sum_numbers] in E.
  - injection E as <- <-. by rewrite app_nil_r.
  - unfold mbind, P_bind in E. destruct (add_numbers u g s) as [[u1|] s1] eqn:E1; [|done].
    destruct (add_numbers_spec _ _ _ _ _ _ Hd E1) as (-> & Hd1 & ? & ? & ? & ? & ?).
    destruct (IH _ _ _ Hd1 E) as (-> & Hd2 & ? & ? & ? & ? & ?). rewrite <- app_assoc in Hd2.
    split_and!; congruence || done.
Qed.

(** *** Sets *)

Definition merge_version (first_gpu : bool) (new old : option ApiVersion) : option ApiVersion :=
  match new, old with
  | Some v, Some e => if first_gpu then Some v else Some (if to_hex v <? to_hex e then v else e)
  | Some v, None => if first_gpu then Some v else None
  | None, _ => old
  end.

(** Everything but the two tables of versions. *)
Definition same_rest (u u' : UnifiedCapabilities) : Prop :=
  u' = u <| un_common_api_versions := un_common_api_versions u' |>
         <| un_union_api_versions := un_union_api_versions u' |>.

Lemma add_api_spec first_gpu u api v :
  let u' := add_api first_gpu u (api, v) in
  same_rest u u' /\ un_union_api_versions u' = <[api := v]> (un_union_api_versions u) /\
  forall a, un_common_api_versions u' !! a =
    if decide (a = api) then merge_version first_gpu (Some v) (un_common_api_versions u !! a)
    else un_common_api_versions u !! a.
Proof.
  cbn zeta. unfold add_api. destruct first_gpu; cbn.
  - split; [done|]. split; [done|]. intros a. case_decide; subst.
    + rewrite lookup_insert_eq. by destruct (_ !! api).
    + by rewrite lookup_insert_ne.
  - destruct (un_common_api_versions u !! api) as [e|] eqn:E; cbn.
    + destruct (Z.ltb_spec (to_hex v) (to_hex e)) as [Hlt|Hge]; cbn; (split; [done|]; split; [done|]);
        intros a; case_decide; subst; rewrite ?E, ?lookup_insert_eq, ?lookup_insert_ne by done; cbn; try done.
      * by rewrite (proj2 (Z.ltb_lt _ _)).
      * by rewrite (proj2 (Z.ltb_ge _ _)).
    + split; [done|]. split; [done|]. intros a. case_decide; subst; [by rewrite E|done].
Qed.

Lemma add_apis_spec first_gpu l u :
  NoDup l.*1 ->
  let u' := fold_left (add_api first_gpu) l u in
  same_rest u u' /\ forall a,
    un_union_api_versions u' !! a =
      match (list_to_map l : gmap ApiType ApiVersion) !! a with Some v => Some v | None => un_union_api_versions u !! a end /\
    un_common_api_versions u' !! a =
      merge_version first_gpu ((list_to_map l : gmap ApiType ApiVersion) !! a) (un_common_api_versions u !! a).
Proof.
  revert u. induction l as [|[api v] l IH]; intros u Hnd; cbn zeta.
  - split; [by destruct u|]. intros a. by rewrite list_to_map_nil, lookup_empty.
  - cbn in Hnd. apply NoDup_cons in Hnd as [Hn Hnd]. cbn [fold_left].
    destruct (add_api_spec first_gpu u api v) as (R1 & U1 & C1).
    destruct (IH (add_api first_gpu u (api, v)) Hnd) as [R2 L2].
    split; [unfold same_rest in *; rewrite R2, R1; done|]. intros a. destruct (L2 a) as [-> ->].
    rewrite U1, C1, list_to_map_cons. case_decide; subst.
    + by rewrite !lookup_insert_eq, not_elem_of_list_to_map_1.
    + by rewrite !lookup_insert_ne.
Qed.

Lemma iter_map m : NoDup (iter m).*1 /\ (list_to_map (iter m) : gmap ApiType ApiVersion) = m.
Proof.
  assert (Hnd : NoDup (iter m).*1) by (rewrite iter_perm; apply NoDup_fst_map_to_list).
  split; [done|]. rewrite (list_to_map_proper _ _ Hnd (iter_perm m)). apply list_to_map_to_list.
Qed.

Lemma add_sets_spec first_gpu u g :
  let u' := add_sets first_gpu u g in
  (forall a, un_union_api_versions u' !! a =
     match gp_api_versions g !! a with Some v => Some v | None => un_union_api_versions u !! a end) /\
  (forall a, un_common_api_versions u' !! a = merge_version first_gpu (gp_api_versions g !! a) (un_common_api_versions u !! a)) /\
  un_union_features u' = un_union_features u ∪ gp_features g /\
  un_common_features u' =
    (if first_gpu then un_common_features u ∪ gp_features g else un_common_features u ∩ gp_features g).
Proof.
  destruct (iter_map (gp_api_versions g)) as [Hnd Em].
  destruct (add_apis_spec first_gpu _ u Hnd) as [R L]. rewrite Em in L. cbn zeta. unfold add_sets.
  set (v := fold_left (add_api first_gpu) (iter (gp_api_versions g)) u) in *.
  split_and!; [intros a; destruct (L a) as [<- _]; by destruct first_gpu|
    intros a; destruct (L a) as [_ <-]; by destruct first_gpu| |].
  - rewrite R. by destruct first_gpu.
  - rewrite R. by destruct first_gpu.
Qed.

Lemma add_sets_rest first_gpu u g :
  let u' := add_sets first_gpu u g in
  un_gpu_count u' = un_gpu_count u /\ forall gpus, numbers_describe u gpus -> numbers_describe u' gpus.
Proof.
  destruct (iter_map (gp_api_versions g)) as [Hnd _].
  destruct (add_apis_spec first_gpu _ u Hnd) as [R _]. cbn zeta. unfold add_sets.
  set (v := fold_left (add_api first_gpu) (iter (gp_api_versions g)) u) in *.
  split; [rewrite R; by destruct first_gpu|]. intros gpus [Q1 Q2 Q3 Q4 Q5 Q6]. rewrite R.
  by destruct first_gpu; split.
Qed.

Lemma add_first_spec u g :
  un_common_api_versions u = ∅ -> un_union_api_versions u = ∅ -> un_common_features u = ∅ -> un_union_features u = ∅ ->
  sets_describe (add_sets true u g) [g].
Proof.
  intros E1 E2 E3 E4. destruct (add_sets_spec true u g) as (U & C & UF & CF). rewrite E3 in CF. rewrite E4 in UF.
  assert (U' : forall a, un_union_api_versions (add_sets true u g) !! a = gp_api_versions g !! a)
    by (intros a; rewrite U, E2, lookup_empty; by destruct (_ !! a)).
  assert (C' : forall a, un_common_api_versions (add_sets true u g) !! a = gp_api_versions g !! a)
    by (intros a; rewrite C, E1, lookup_empty; by destruct (_ !! a)).
  split.
  - intros f. rewrite CF. setoid_rewrite list_elem_of_singleton. set_solver.
  - intros f. rewrite UF. setoid_rewrite list_elem_of_singleton. set_solver.
  - intros a. rewrite U'. setoid_rewrite list_elem_of_singleton. naive_solver.
  - intros a v. rewrite U'. setoid_rewrite list_elem_of_singleton. naive_solver.
  - intros a. rewrite C'. cbn. naive_solver.
  - intros a v. rewrite C'. unfold least_version. setoid_rewrite list_elem_of_singleton. intros Hv. split; [eauto|].
    intros g' w -> Hw. simplify_eq. lia.
Qed.

Lemma add_next_spec u g before :
  before <> [] -> sets_describe u before -> sets_describe (add_sets false u g) (before ++ [g]).
Proof.
  intros Hne [Q1 Q2 Q3 Q4 Q5 Q6]. destruct (add_sets_spec false u g) as (U & C & UF & CF). split.
  - intros f. rewrite CF, elem_of_intersection, Q1. setoid_rewrite elem_of_app. setoid_rewrite list_elem_of_singleton.
    naive_solver.
  - intros f. rewrite UF, elem_of_union, Q2. setoid_rewrite elem_of_app. setoid_rewrite list_elem_of_singleton. naive_solver.
  - intros a. rewrite U. setoid_rewrite elem_of_app. setoid_rewrite list_elem_of_singleton.
    destruct (gp_api_versions g !! a) eqn:E.
    + split; [exists g; split; [by right|by rewrite E]|done].
    + rewrite Q3. split; [intros (g' & ? & ?); eauto|].
      intros (g' & [?| ->] & Hg'); [eauto|]. rewrite E in Hg'. by destruct Hg'.
  - intros a v. rewrite U. setoid_rewrite elem_of_app. setoid_rewrite list_elem_of_singleton.
    destruct (gp_api_versions g !! a) eqn:E; [intros [= ->]; eauto|]. intros (g' & ? & ?)%Q4. eauto.
  - intros a. rewrite C. assert (Hh : head (before ++ [g]) = head before) by (by destruct before).
    rewrite Hh, <- Q5. destruct (gp_api_versions g !! a), (un_common_api_versions u !! a); cbn; split; intros []; eauto; done.
  - intros a v. rewrite C. unfold least_version. setoid_rewrite elem_of_app. setoid_rewrite list_elem_of_singleton.
    destruct (gp_api_versions g !! a) as [w|] eqn:Ew, (un_common_api_versions u !! a) as [e|] eqn:Ee; cbn; try done.
    + destruct (Q6 a e Ee) as [(ge & Hge & Ege) Hmin]. destruct (Z.ltb_spec (to_hex w) (to_hex e)); intros [= <-].
      * split; [eauto|]. intros g' w' [Hg'| ->] Hw'; [specialize (Hmin _ _ Hg' Hw'); lia|]. simplify_eq. lia.
      * split; [eauto|]. intros g' w' [Hg'| ->] Hw'; [by eapply Hmin|]. simplify_eq. lia.
    + intros [= <-]. destruct (Q6 a e Ee) as [(ge & Hge & Ege) Hmin]. split; [eauto|].
      intros g' w' [Hg'| ->] Hw'; [by eapply Hmin|]. congruence.
Qed.

Lemma merge_sets_spec gpus u before :
  before <> [] -> sets_describe u before ->
  let u' := merge_sets false u gpus in
  sets_describe u' (before ++ gpus) /\ un_gpu_count u' = un_gpu_count u /\
  forall all, numbers_describe u all -> numbers_describe u' all.
Proof.
  revert u before. induction gpus as [|g gpus IH]; intros u before Hne Hd; cbn [merge_sets]; [by rewrite app_nil_r|].
  destruct (add_sets_rest false u g) as [En Hn].
  destruct (IH (add_sets false u g) (before ++ [g])) as (Q1 & Q2 & Q3); [by destruct before|by apply add_next_spec|].
  rewrite <- app_assoc in Q1. split; [done|]. split; [by rewrite Q2|]. intros all Ha. by apply Q3, Hn.
Qed.

(** *** Calls *)

(** The unified capabilities are those of the GPUs in the list. *)
Definition current (s : CapabilityModel) : Prop :=
  match mx_value (md_gpus s) with
  | [] => md_unified s = None
  | gpus => exists u, md_unified s = Some u /\ describes u gpus
  end.

Lemma recompute_spec s s' :
  recompute_unified s = (Some tt, s') -> md_gpus s' = md_gpus s /\ current s'.
Proof.
  unfold recompute_unified, mbind at 1, P_bind at 1, read_gpus. destruct (mx_poisoned (md_gpus s)); [done|].
  unfold current. destruct (mx_value (md_gpus s)) as [|g gpus] eqn:Eg; [intros [= <-]; cbn; by rewrite Eg|].
  set (start := mk_unified _ _ _ _ _ _ _ _ _ _ _ _ _). unfold mbind, P_bind.
  destruct (sum_numbers start (g :: gpus) s) as [[u|] s1] eqn:E; [|done].
  assert (Hstart : numbers_describe start []) by done.
  destruct (sum_numbers_spec _ _ _ _ _ _ Hstart E) as (-> & Hn & E1 & E2 & E3 & E4 & E5). cbn [app] in Hn.
  intros [= <-]. cbn [md_gpus md_unified upd]. split; [done|]. rewrite Eg. eexists. split; [done|].
  destruct (add_sets_rest true u g) as [Ec Hr].
  destruct (merge_sets_spec gpus (add_sets true u g) [g]) as (Q1 & Q2 & Q3);
    [done|by apply add_first_spec|].
  change (merge_sets true u (g :: gpus)) with (merge_sets false (add_sets true u g) gpus).
  set (w := merge_sets false (add_sets true u g) gpus) in *.
  split; [| | |done|done].
  - destruct (Q3 _ (Hr _ Hn)) as [P1 P2 P3 P4 P5 P6]. by split.
  - destruct Q1 as [P1 P2 P3 P4 P5 P6]. by split.
  - change (un_gpu_count w = Z.of_nat (length (g :: gpus))). rewrite Q2, Ec, E5. done.
Qed.

(** States after calls that returned. *)
Inductive model_reachable : CapabilityModel -> Prop :=
| model_start : model_reachable model_new
| model_update s index capabilities s' :
    model_reachable s -> update_gpu index capabilities s = (Some tt, s') -> model_reachable s'
| model_remove s index s' : model_reachable s -> remove_gpu index s = (Some tt, s') -> model_reachable s'.

(** C37. The unified capabilities describe the GPUs.  After any updates and
    removals that returned, whatever order hash maps are iterated in, they are
    absent when there is no GPU; otherwise memory, bandwidth and units are the
    sums over the GPUs in the width of their fields, a feature is common when
    every GPU has it and in the union when some GPU has it, an API is in the
    union when some GPU has it, and the common version of an API of the first
    GPU is the least version among the GPUs that have it. *)
Theorem unified_current s : model_reachable s -> current s.
Proof.
  destruct 1 as [|s index caps s' _ E|s index s' _ E]; [done|..].
  - unfold update_gpu in E. apply P_bind_inv in E as (gpus & s1 & _ & E). apply P_bind_inv in E as (gpus' & s2 & _ & E).
    apply P_bind_inv in E as ([] & s3 & _ & E). by apply recompute_spec in E as [_ ?].
  - unfold remove_gpu in E. apply P_bind_inv in E as (gpus & s1 & _ & E).
    apply P_bind_inv in E as ([] & s3 & _ & E). by apply recompute_spec in E as [_ ?].
Qed.

End unified.

Module TwoGpus.

#[local] Instance debug : RustProfile := {| overflow_checks := true |}.
#[local] Instance in_order : HashOrder := {| iter := map_to_list; iter_perm := fun m => reflexivity _ |}.

Definition gpu (apis : list (ApiType * ApiVersion)) (features : list GpuFeature) (vram : Z) : GpuCapabilities :=
  mk_caps Amd 0 0 EmptyString vram 0 0 0 0 64 0 0 0 0 0 0 0 0 (list_to_map apis) (list_to_set features) true Active Normal.

Definition left_gpu : GpuCapabilities := gpu [(Vulkan, mk_version 1 3 0); (OpenCL, mk_version 3 0 0)] [Graphics; Compute] 8000.
Definition right_gpu : GpuCapabilities := gpu [(Vulkan, mk_version 1 2 5)] [Compute; P2PDma] 4000.

Definition after {A} (m : P CapabilityModel A) (s : CapabilityModel) : CapabilityModel := (m s).2.
Definition both : CapabilityModel := after (update_gpu 1 right_gpu) (after (update_gpu 0 left_gpu) model_new).

Lemma unified_current_witness :
  exists u, md_unified both = Some u /\ un_total_vram u = 12000 /\
    (forall g, g ∈ [left_gpu; right_gpu] -> Compute ∈ gp_features g).
Proof.
  assert (C : current both).
  { apply unified_current. apply (model_update (after (update_gpu 0 left_gpu) model_new) 1 right_gpu).
    - apply (model_update model_new 0 left_gpu); [apply model_start|vm_compute; reflexivity].
    - vm_compute. reflexivity. }
  destruct C as (u & E & [N S _ _ _]). exists u. split; [exact E|]. split.
  - rewrite (nd_vram _ _ N). vm_compute. reflexivity.
  - apply (sd_common_features _ _ S).
    assert (Eu : Some (bool_decide (Compute ∈ un_common_features u)) = Some true).
    { change (Some (bool_decide (Compute ∈ un_common_features u))) with
        ((fun u => bool_decide (Compute ∈ un_common_features u)) <$> Some u).
      rewrite <- E. vm_compute. reflexivity. }
    injection Eu as Eu. by apply bool_decide_eq_true in Eu.
Defined.

(** OpenCL, which only the first GPU has, counts as common. *)
Example common_api_not_common :
  (u ← md_unified both; un_common_api_versions u !! OpenCL) = Some (mk_version 3 0 0) /\
  gp_api_versions right_gpu !! OpenCL = None.
Proof. split; vm_compute; reflexivity. Qed.

(** The union keeps the last version, not the highest. *)
Example union_api_not_highest :
  (u ← md_unified both; un_union_api_versions u !! Vulkan) = Some (mk_version 1 2 5).
Proof. vm_compute. reflexivity. Qed.

End TwoGpus.
