(* ===== verification/RustFenceManager.v ===== *)
(** * The fence manager of the runtime crate

    runtime/safe/fence_manager.rs: fences as shared objects, timelines of the
    GPUs, and the manager that names fences by number.  An [Arc] is an address
    of an object; [clone] on a fence makes a second object. *)

From S2P Require Import Prelude RustStd RustTracker.
Local Open Scope Z_scope.

Inductive FenceState : Type := Unsignaled | Signaled.

#[export] Instance FenceState_eq_dec : EqDecision FenceState.
Proof. solve_decision. Defined.

Record CrossDeviceFence : Type := mk_xfence {
  xf_id : Z;
  xf_state : FenceState;
  xf_timeline_value : Z;
  xf_external_handle : option addr;
  xf_signal_time : option Z;
  xf_is_timeline : bool
}.
#[export] Instance CrossDeviceFence_eta : Eta CrossDeviceFence := fun r =>
  mk_xfence (xf_id r) (xf_state r) (xf_timeline_value r) (xf_external_handle r) (xf_signal_time r) (xf_is_timeline r).

Definition xfence_new : CrossDeviceFence := mk_xfence 0 Unsignaled 0 None None false.
Definition xfence_with_id (id : Z) : CrossDeviceFence := xfence_new <| xf_id := id |>.

(** [signal] at time [now]. *)
Definition xfence_signal (now : Z) (f : CrossDeviceFence) : CrossDeviceFence :=
  if decide (xf_state f = Unsignaled)
  then f <| xf_state := Signaled |> <| xf_signal_time := Some now |> else f.

Definition xfence_is_signaled (f : CrossDeviceFence) : bool := bool_decide (xf_state f = Signaled).

Definition xfence_reset (f : CrossDeviceFence) : CrossDeviceFence :=
  f <| xf_state := Unsignaled |> <| xf_signal_time := None |>.

Definition xfence_set_timeline_value (value : Z) (f : CrossDeviceFence) : CrossDeviceFence :=
  f <| xf_timeline_value := value |> <| xf_is_timeline := true |>.

(** A return of the condition variable: whether it timed out, and the state
    of the fence then. *)
Record wakeup : Type := mk_wakeup { wk_timed_out : bool; wk_state : FenceState }.

(** [wait], given the returns of the condition variable; [None] while the
    thread still sleeps. *)
Fixpoint sleep_until_signaled (wakes : list wakeup) : option FenceState :=
  match wakes with
  | [] => None
  | w :: rest => if decide (wk_state w = Signaled) then Some Signaled else sleep_until_signaled rest
  end.

Definition xfence_wait (timeout : option Z) (wakes : list wakeup) (f : CrossDeviceFence) : option FenceState :=
  if decide (xf_state f = Signaled) then Some Signaled
  else match timeout with
       | Some _ =>
           match wakes with
           | [] => None
           | w :: _ => Some (if wk_timed_out w then Unsignaled else wk_state w)
           end
       | None => sleep_until_signaled wakes
       end.

Record GpuTimeline : Type := mk_timeline {
  gt_gpu_index : Z;
  gt_current_value : Z;
  gt_next_value : Z;
  gt_fences : list addr;
  gt_max_fences : nat
}.
#[export] Instance GpuTimeline_eta : Eta GpuTimeline := fun r =>
  mk_timeline (gt_gpu_index r) (gt_current_value r) (gt_next_value r) (gt_fences r) (gt_max_fences r).

Definition timeline_new (gpu_index : Z) : GpuTimeline := mk_timeline gpu_index 0 1 [] 1024.

Definition timeline_signal (value : Z) (t : GpuTimeline) : GpuTimeline :=
  t <| gt_current_value := value |> <| gt_next_value ::= fun n => u64 (n + 1) |>.

(** The objects, the fences by number and the timelines. *)
Record FenceManager : Type := mk_manager {
  fm_objects : gmap positive CrossDeviceFence;
  fm_map : gmap Z addr;
  fm_next_fence_id : Z;
  fm_timelines : list GpuTimeline
}.
#[export] Instance FenceManager_eta : Eta FenceManager := fun r =>
  mk_manager (fm_objects r) (fm_map r) (fm_next_fence_id r) (fm_timelines r).

Definition manager_new (num_gpus : nat) : FenceManager :=
  mk_manager ∅ ∅ 1 ((fun i => timeline_new (u32 (Z.of_nat i))) <$> seq 0 num_gpus).

Definition arc_new (f : CrossDeviceFence) (s : FenceManager) : addr * FenceManager :=
  let p := fresh (dom (fm_objects s)) in (p, s <| fm_objects ::= <[p := f]> |>).

(** The fence handed out, and the one in the map, are two objects. *)
Definition create_fence (s : FenceManager) : addr * FenceManager :=
  let id := fm_next_fence_id s in
  let s := s <| fm_next_fence_id ::= fun n => u64 (n + 1) |> in
  let fence := xfence_with_id id in
  let '(kept, s) := arc_new fence s in
  arc_new fence (s <| fm_map ::= <[id := kept]> |>).

Definition timeline_create_fence (i : nat) (t : GpuTimeline) (s : FenceManager) : addr * FenceManager :=
  let value := gt_next_value t in
  let fence := xfence_with_id value in
  let '(kept, s) := arc_new fence s in
  let fences := if (gt_max_fences t <=? length (gt_fences t))%nat then tail (gt_fences t) else gt_fences t in
  let t := t <| gt_next_value := u64 (value + 1) |> <| gt_fences := fences ++ [kept] |> in
  arc_new fence (s <| fm_timelines ::= <[i := t]> |>).

Definition create_timeline_fence (gpu_index : Z) (s : FenceManager) : option addr * FenceManager :=
  match fm_timelines s !! Z.to_nat gpu_index with
  | Some t => let '(p, s) := timeline_create_fence (Z.to_nat gpu_index) t s in (Some p, s)
  | None => (None, s)
  end.

(** The fence of a number; objects in the map are live. *)
Definition fence_of (fence_id : Z) (s : FenceManager) : option (addr * CrossDeviceFence) :=
  p ← fm_map s !! fence_id; f ← fm_objects s !! p; Some (p, f).

Definition signal_fence (fence_id now : Z) (s : FenceManager) : bool * FenceManager :=
  match fence_of fence_id s with
  | Some (p, f) => (true, s <| fm_objects ::= <[p := xfence_signal now f]> |>)
  | None => (false, s)
  end.

(** [None] while the caller still sleeps; it then holds the lock of the map. *)
Definition wait_fence (fence_id timeout_ms : Z) (wakes : list wakeup) (s : FenceManager) : option (MvgalResult bool) :=
  match fence_of fence_id s with
  | Some (_, f) =>
      let timeout := if 0 <? timeout_ms then Some timeout_ms else None in
      state ← xfence_wait timeout wakes f; Some (inr (bool_decide (state = Signaled)))
  | None => Some (inl NotFound)
  end.

Definition test_fence (fence_id : Z) (s : FenceManager) : bool :=
  from_option (fun e => xfence_is_signaled e.2) false (fence_of fence_id s).

Definition get_fence (fence_id : Z) (s : FenceManager) : option addr := fm_map s !! fence_id.

Definition destroy_fence (fence_id : Z) (s : FenceManager) : bool * FenceManager :=
  match fm_map s !! fence_id with
  | Some _ => (true, s <| fm_map ::= delete fence_id |>)
  | None => (false, s)
  end.

(** ** Specification

    Fences in order of creation with whether they are signalled; [None] once
    destroyed. *)

Inductive manager_call : Type :=
| Mgr_create
| Mgr_signal (id now : Z)
| Mgr_test (id : Z)
| Mgr_wait (id timeout_ms : Z)
| Mgr_destroy (id : Z).

(** The number of a new fence, or whether the call found or saw a signal. *)
Definition manager_exec (c : manager_call) (s : FenceManager) : Z * FenceManager :=
  match c with
  | Mgr_create =>
      let '(p, s') := create_fence s in (from_option xf_id 0 (fm_objects s' !! p), s')
  | Mgr_signal id now => let '(b, s') := signal_fence id now s in (i32_of_bool b, s')
  | Mgr_test id => (i32_of_bool (test_fence id s), s)
  | Mgr_wait id timeout_ms =>
      (match wait_fence id timeout_ms [] s with
       | Some (inr b) => i32_of_bool b
       | Some (inl e) => - MvgalError_i32 e
       | None => -100
       end, s)
  | Mgr_destroy id => let '(b, s') := destroy_fence id s in (i32_of_bool b, s')
  end.

Definition manager_spec (c : manager_call) (t : list (option FenceState)) : Z * list (option FenceState) :=
  match c with
  | Mgr_create => (Z.of_nat (length t) + 1, t ++ [Some Unsignaled])
  | Mgr_signal id _ => match slot id t with Some _ => (1, set_slot id (Some Signaled) t) | None => (0, t) end
  | Mgr_test id => (i32_of_bool (bool_decide (slot id t = Some Signaled)), t)
  | Mgr_wait id _ =>
      (match slot id t with
       | Some Signaled => 1
       | Some Unsignaled => -100
       | None => - MvgalError_i32 NotFound
       end, t)
  | Mgr_destroy id => match slot id t with Some _ => (1, set_slot id None t) | None => (0, t) end
  end.

Definition manager_allowed (c : manager_call) (t : list (option FenceState)) : Prop :=
  Z.of_nat (length t) + 1 < U64_MAX.

Record manager_rel (s : FenceManager) (t : list (option FenceState)) : Prop := {
  rl_next : fm_next_fence_id s = Z.of_nat (length t) + 1;
  rl_state : forall id, (fun e => xf_state e.2) <$> fence_of id s = slot id t;
  rl_live : forall id p, fm_map s !! id = Some p -> is_Some (fm_objects s !! p);
  rl_inj : forall id id' p, fm_map s !! id = Some p -> fm_map s !! id' = Some p -> id = id'
}.

Lemma create_fence_eq s :
  let f := xfence_with_id (fm_next_fence_id s) in
  exists p q, fm_objects s !! p = None /\ fm_objects s !! q = None /\ q <> p /\
    create_fence s = (q, mk_manager (<[q := f]> (<[p := f]> (fm_objects s))) (<[fm_next_fence_id s := p]> (fm_map s))
      (u64 (fm_next_fence_id s + 1)) (fm_timelines s)).
Proof.
  intros f. set (p := fresh (dom (fm_objects s))). set (q := fresh (dom (<[p := f]> (fm_objects s)))). exists p, q.
  assert (Hp : fm_objects s !! p = None) by (apply not_elem_of_dom, is_fresh).
  assert (Hq : <[p := f]> (fm_objects s) !! q = None) by (apply not_elem_of_dom, is_fresh).
  assert (Hqp : q <> p) by (intros E; rewrite E, lookup_insert_eq in Hq; done).
  rewrite lookup_insert_ne in Hq by done. done.
Qed.

Lemma manager_create_step s t :
  manager_rel s t -> manager_allowed Mgr_create t ->
  (manager_exec Mgr_create s).1 = (manager_spec Mgr_create t).1 /\
  manager_rel (manager_exec Mgr_create s).2 (manager_spec Mgr_create t).2.
Proof.
  intros [Hn Hs Hl Hi] Ha. unfold manager_allowed, U64_MAX in Ha. cbn [manager_exec manager_spec].
  destruct (create_fence_eq s) as (p & q & Hp & Hq & Hqp & ->). set (f := xfence_with_id _).
  cbn. rewrite lookup_insert_eq. split; [exact Hn|]. split; cbn.
  - rewrite Hn, u64_small, length_app by (unfold is_u64, U64_MAX; lia). cbn. lia.
  - intros id. rewrite slot_create, <- Hn. unfold fence_of. cbn. case_decide as Hd.
    + subst id. rewrite lookup_insert_eq. cbn. by rewrite lookup_insert_ne, lookup_insert_eq.
    + rewrite lookup_insert_ne by done. rewrite <- Hs. unfold fence_of.
      destruct (fm_map s !! id) as [x|] eqn:E; [|done]. destruct (Hl id x E) as [g Hg]. cbn.
      by rewrite !lookup_insert_ne by congruence.
  - intros id x. rewrite lookup_insert_Some. intros [[_ <-]|[_ E]].
    + rewrite lookup_insert_ne, lookup_insert_eq by done. eauto.
    + destruct (Hl id x E) as [g Hg]. rewrite !lookup_insert_ne by congruence. eauto.
  - intros id id' x. rewrite !lookup_insert_Some. intros [[<- <-]|[Q1 Q2]] [[<- Q3]|[Q4 Q5]]; try done.
    + destruct (Hl id' p Q5). congruence.
    + subst x. destruct (Hl id p Q2). congruence.
    + by eapply Hi.
Qed.

Lemma manager_step c s t :
  manager_rel s t -> manager_allowed c t ->
  (manager_exec c s).1 = (manager_spec c t).1 /\ manager_rel (manager_exec c s).2 (manager_spec c t).2.
Proof.
  intros HR Ha. destruct c as [|id now|id|id to|id]; [by apply manager_create_step|..];
    pose proof HR as [Hn Hs Hl Hi]; cbn [manager_exec manager_spec]; specialize (Hs id) as Hid.
  - unfold signal_fence. destruct (fence_of id s) as [[p f]|] eqn:E; cbn in Hid; rewrite <- Hid; [|done].
    assert (Em : fm_map s !! id = Some p /\ fm_objects s !! p = Some f).
    { unfold fence_of in E. destruct (fm_map s !! id) as [x|]; [|done]. cbn in E.
      destruct (fm_objects s !! x) eqn:Ex; [|done]. cbn in E. by simplify_eq. }
    destruct Em as [Em Eo]. split; [done|]. split; cbn.
    + unfold set_slot. by rewrite length_insert.
    + intros id'. rewrite (slot_set_slot id id' _ t (xf_state f)) by done. rewrite <- Hs. unfold fence_of. cbn.
      case_decide as Hd.
      * subst id'. rewrite Em. cbn. rewrite lookup_insert_eq. cbn. unfold xfence_signal. by case_decide; destruct (xf_state f).
      * destruct (fm_map s !! id') as [x|] eqn:Ex; [|done]. cbn. rewrite lookup_insert_ne; [done|].
        intros ->. apply Hd. by eapply Hi.
    + intros id' x Ex. destruct (decide (x = p)) as [->|]; [rewrite lookup_insert_eq; eauto|].
      rewrite lookup_insert_ne by done. by eapply Hl.
    + done.
  - split; [|done]. rewrite <- Hid. unfold test_fence. destruct (fence_of id s) as [[p f]|]; cbn; [|done].
    unfold xfence_is_signaled. by destruct (xf_state f).
  - split; [|done]. rewrite <- Hid. unfold wait_fence. destruct (fence_of id s) as [[p f]|]; [|done]. cbn.
    unfold xfence_wait. destruct (xf_state f); cbn; [|done]. by destruct (0 <? to).
  - unfold destroy_fence. destruct (fm_map s !! id) as [p|] eqn:E.
    + destruct (Hl id p E) as [f Ef]. unfold fence_of in Hid. rewrite E in Hid. cbn in Hid. rewrite Ef in Hid. cbn in Hid.
      rewrite <- Hid. split; [done|]. split; cbn.
      * unfold set_slot. by rewrite length_insert.
      * intros id'. rewrite (slot_set_slot id id' _ t (xf_state f)) by done. rewrite <- Hs. unfold fence_of. cbn.
        case_decide; [subst; by rewrite lookup_delete_eq|by rewrite lookup_delete_ne].
      * intros id' x. rewrite lookup_delete_Some. intros [_ ?]. by eapply Hl.
      * intros id' id'' x. rewrite !lookup_delete_Some. intros [_ ?] [_ ?]. by eapply Hi.
    + unfold fence_of in Hid. rewrite E in Hid. cbn in Hid. by rewrite <- Hid.
Qed.

(** Any calls by number on a new manager return what they would on an array of
    flags that only grows. *)
Lemma manager_refines num_gpus calls :
  admissible manager_spec manager_allowed calls [] ->
  (run manager_exec calls (manager_new num_gpus)).1 = (run manager_spec calls []).1.
Proof.
  intros Ha. refine (proj1 (run_refines manager_exec manager_spec manager_allowed manager_rel manager_step _ _ _ _ Ha)).
  split; try done. intros id. by rewrite slot_nil.
Qed.

(** The fence handed out is not the one the manager signals. *)
Example handle_not_signaled :
  let '(p, s) := create_fence (manager_new 2) in
  let '(b, s') := signal_fence 1 7 s in
  b = true /\ test_fence 1 s' = true /\ xfence_is_signaled <$> fm_objects s' !! p = Some false.
Proof. vm_compute. done. Qed.
