(* ===== verification/NtSync.v ===== *)
(** * Windows NT synchronisation objects

    compat/windows/mvgal_ntsync.c: events, mutexes, semaphores and timers for
    Wine, with the waits on several objects.  A section of the code under the
    lock of an object is one step; threads on a mutex are in NtMutex. *)

From S2P Require Import Prelude SyncPrims.
Local Open Scope Z_scope.

Inductive mvgal_ntsync_type_t : Type :=
| MVGAL_NTSYNC_TYPE_EVENT | MVGAL_NTSYNC_TYPE_MUTEX | MVGAL_NTSYNC_TYPE_SEMAPHORE | MVGAL_NTSYNC_TYPE_TIMER.

Inductive mvgal_nt_event_type_t : Type := MVGAL_NT_EVENT_TYPE_NOTIFICATION | MVGAL_NT_EVENT_TYPE_SYNCHRONIZATION.
Inductive mvgal_nt_timer_type_t : Type := MVGAL_NT_TIMER_TYPE_NOTIFICATION | MVGAL_NT_TIMER_TYPE_SYNCHRONIZATION.
Inductive mvgal_nt_wait_type_t : Type := MVGAL_NT_WAIT_TYPE_ALL | MVGAL_NT_WAIT_TYPE_ANY.

(** Wait results are numbers: an index is added to the first. *)
Definition MVGAL_NT_WAIT_OBJECT_0 : Z := 0.
Definition MVGAL_NT_WAIT_TIMEOUT : Z := 258.
Definition MVGAL_NT_WAIT_ABANDONED : Z := 128.
Definition MVGAL_NT_WAIT_FAILED : Z := 4294967295.

Record mvgal_nt_event : Type := mk_nt_event {
  ne_type : mvgal_nt_event_type_t;
  ne_signaled : bool
}.
#[export] Instance nt_event_eta : Eta mvgal_nt_event := fun r => mk_nt_event (ne_type r) (ne_signaled r).

(** [nm_lock] is the thread that holds the [pthread_mutex_t]. *)
Record mvgal_nt_mutex : Type := mk_nt_mutex {
  nm_state : Z;
  nm_lock : option Z;
  nm_owner_thread : Z;
  nm_recursion_count : Z;
  nm_abandon_count : Z;
  nm_abandoned : bool
}.
#[export] Instance nt_mutex_eta : Eta mvgal_nt_mutex := fun r =>
  mk_nt_mutex (nm_state r) (nm_lock r) (nm_owner_thread r) (nm_recursion_count r) (nm_abandon_count r) (nm_abandoned r).

Record mvgal_nt_semaphore : Type := mk_nt_sem {
  ns_count : Z;
  ns_max_count : Z
}.
#[export] Instance nt_sem_eta : Eta mvgal_nt_semaphore := fun r => mk_nt_sem (ns_count r) (ns_max_count r).

Record mvgal_nt_timer : Type := mk_nt_timer {
  nr_type : mvgal_nt_timer_type_t;
  nr_timer_fd : Z;
  nr_signaled : bool;
  nr_periodic : bool;
  nr_period_ms : Z
}.
#[export] Instance nt_timer_eta : Eta mvgal_nt_timer := fun r =>
  mk_nt_timer (nr_type r) (nr_timer_fd r) (nr_signaled r) (nr_periodic r) (nr_period_ms r).

Record nt_heap : Type := mk_nt_heap {
  nh_events : gmap positive mvgal_nt_event;
  nh_mutexes : gmap positive mvgal_nt_mutex;
  nh_semaphores : gmap positive mvgal_nt_semaphore;
  nh_timers : gmap positive mvgal_nt_timer
}.
#[export] Instance nt_heap_eta : Eta nt_heap := fun r =>
  mk_nt_heap (nh_events r) (nh_mutexes r) (nh_semaphores r) (nh_timers r).

Abbreviation NM := (M nt_heap).

Definition live {S V : Type} (field : S -> gmap positive V) (p : addr) : M S V := fun s =>
  match field s !! p with Some v => Ret (v, s) | None => Fault UseAfterFree end.

(** The status of a creation, with the handle when it succeeds. *)
Definition created {V : Type} (field : nt_heap -> gmap positive V) (store : addr -> V -> nt_heap -> nt_heap)
    (ok out : bool) (v : V) : NM (Z * option addr) := fun h =>
  if negb out || negb ok then Ret ((-1, None), h) else
  let p := fresh (dom (field h)) in Ret ((0, Some p), store p v h).

(** Memory, lock and condition variable of an object. *)
Definition all_resources (res : sync_resources) : bool := res_memory res && res_mutex res && res_cond res.

(** [mvgal_nt_timeout_to_abs] at time [now]: seconds and nanoseconds. *)
Definition mvgal_nt_timeout_to_abs (now timeout_ns : Z) : Z * Z :=
  let ns := u64 (now + timeout_ns) in (ns / 1000000000, ns mod 1000000000).

(** ** Events *)

Definition store_event (p : addr) (e : mvgal_nt_event) (h : nt_heap) : nt_heap := h <| nh_events ::= <[p := e]> |>.

Definition mvgal_nt_event_create (res : sync_resources) (event_type : mvgal_nt_event_type_t) (initial_state : bool)
    (event : bool) : NM (Z * option addr) :=
  created nh_events store_event (all_resources res) event (mk_nt_event event_type initial_state).

Definition mvgal_nt_event_destroy (event : option addr) : NM unit :=
  match event with
  | None => mret tt
  | Some p => live nh_events p;; modify (fun h => h <| nh_events ::= delete p |>)
  end.

(** No thread waits on the condition variable of an event: waits poll. *)
Definition mvgal_nt_event_set (event : option addr) : NM Z :=
  match event with
  | None => mret (-1)
  | Some p => e ← live nh_events p; modify (store_event p (e <| ne_signaled := true |>));; mret 0
  end.

Definition mvgal_nt_event_reset (event : option addr) : NM Z :=
  match event with
  | None => mret (-1)
  | Some p => e ← live nh_events p; modify (store_event p (e <| ne_signaled := false |>));; mret 0
  end.

(** Both stores are in one section of the lock. *)
Definition mvgal_nt_event_pulse (event : option addr) : NM Z :=
  match event with
  | None => mret (-1)
  | Some p =>
      e ← live nh_events p;
      modify (store_event p (e <| ne_signaled := true |> <| ne_signaled := false |>));; mret 0
  end.

Definition auto_reset (e : mvgal_nt_event) : bool :=
  match ne_type e with MVGAL_NT_EVENT_TYPE_SYNCHRONIZATION => true | _ => false end.

(** The flag, and the event after a consuming read. *)
Definition read_event (p : addr) : NM bool :=
  e ← live nh_events p;
  modify (store_event p (if ne_signaled e && auto_reset e then e <| ne_signaled := false |> else e));;
  mret (ne_signaled e).

Definition mvgal_nt_event_query (event : option addr) (signaled : bool) : NM (Z * option bool) :=
  match event, signaled with
  | Some p, true => b ← read_event p; mret (0, Some b)
  | _, _ => mret (-1, None)
  end.

(** ** Mutexes *)

Definition mutex_new (initial_owner : bool) (abandon_wakeup_count self : Z) : mvgal_nt_mutex :=
  if initial_owner then mk_nt_mutex 1 None self 1 abandon_wakeup_count false
  else mk_nt_mutex 0 None 0 0 abandon_wakeup_count false.

Definition store_mutex (p : addr) (m : mvgal_nt_mutex) (h : nt_heap) : nt_heap := h <| nh_mutexes ::= <[p := m]> |>.

Definition mvgal_nt_mutex_create (res : sync_resources) (initial_owner : bool) (abandon_wakeup_count : Z)
    (mutex : bool) (self : Z) : NM (Z * option addr) :=
  created nh_mutexes store_mutex (all_resources res) mutex (mutex_new initial_owner abandon_wakeup_count self).

Definition mvgal_nt_mutex_destroy (mutex : option addr) : NM unit :=
  match mutex with
  | None => mret tt
  | Some p => live nh_mutexes p;; modify (fun h => h <| nh_mutexes ::= delete p |>)
  end.

(** Where a thread is in [mvgal_nt_mutex_lock]: about to take the lock, at the
    test of the loop with the lock held, asleep or woken on the condition
    variable, past the loop with the lock held, after the exchange of the
    non-blocking path, or returned. *)
Inductive nt_thread : Type :=
| Nt_enter (timeout_ns : Z)
| Nt_test (timeout_ns : Z)
| Nt_sleep (woken : bool) (timeout_ns : Z)
| Nt_store
| Nt_claim
| Nt_done (result : Z).

(** Up to the first lock: recursion, and the exchange without a timeout. *)
Definition lock_begin (self timeout_ns : Z) (m : mvgal_nt_mutex) : nt_thread * mvgal_nt_mutex :=
  if (nm_owner_thread m =? self) && (0 <? nm_recursion_count m)
  then (Nt_done MVGAL_NT_WAIT_OBJECT_0, m <| nm_recursion_count ::= fun c => u32 (c + 1) |>)
  else if timeout_ns =? 0 then
    if nm_state m =? 0 then (Nt_claim, m <| nm_state := 1 |>) else (Nt_done MVGAL_NT_WAIT_TIMEOUT, m)
  else (Nt_enter timeout_ns, m).

(** The section after a successful exchange. *)
Definition lock_claim (self : Z) (m : mvgal_nt_mutex) : nt_thread * mvgal_nt_mutex :=
  (Nt_done MVGAL_NT_WAIT_OBJECT_0,
   m <| nm_owner_thread := self |> <| nm_recursion_count := 1 |> <| nm_abandoned := false |>).

(** [pthread_mutex_lock], and the return from the condition variable. *)
Definition lock_enter (self timeout_ns : Z) (m : mvgal_nt_mutex) : nt_thread * mvgal_nt_mutex :=
  (Nt_test timeout_ns, m <| nm_lock := Some self |>).

(** The condition of the loop; the wait releases the lock. *)
Definition lock_test (timeout_ns : Z) (m : mvgal_nt_mutex) : nt_thread * mvgal_nt_mutex :=
  if negb (nm_state m =? 0) then (Nt_sleep false timeout_ns, m <| nm_lock := None |>) else (Nt_store, m).

(** After the loop. *)
Definition lock_store (self : Z) (m : mvgal_nt_mutex) : nt_thread * mvgal_nt_mutex :=
  (Nt_done (if nm_abandoned m then MVGAL_NT_WAIT_ABANDONED else MVGAL_NT_WAIT_OBJECT_0),
   m <| nm_state := 1 |> <| nm_owner_thread := self |> <| nm_recursion_count := 1 |>
     <| nm_abandoned := false |> <| nm_lock := None |>).

(** The section of [mvgal_nt_mutex_unlock], and whether it signals. *)
Definition mutex_unlock (m : mvgal_nt_mutex) : bool * mvgal_nt_mutex :=
  if 1 <? nm_recursion_count m then (false, m <| nm_recursion_count ::= fun c => c - 1 |>)
  else (true, m <| nm_owner_thread := 0 |> <| nm_recursion_count := 0 |> <| nm_state := 0 |>).

Definition mvgal_nt_mutex_query (mutex : option addr) : NM (Z * option (Z * Z)) :=
  match mutex with
  | None => mret (-1, None)
  | Some p => m ← live nh_mutexes p; mret (0, Some (nm_owner_thread m, nm_recursion_count m))
  end.

(** ** Semaphores *)

Definition store_semaphore (p : addr) (s : mvgal_nt_semaphore) (h : nt_heap) : nt_heap :=
  h <| nh_semaphores ::= <[p := s]> |>.

Definition mvgal_nt_semaphore_create (res : sync_resources) (initial_count max_count : Z) (semaphore : bool)
  : NM (Z * option addr) :=
  if negb semaphore then mret (-1, None) else
  if (max_count <? initial_count) || (max_count =? 0) then mret (-1, None) else
  created nh_semaphores store_semaphore (all_resources res) semaphore (mk_nt_sem initial_count max_count).

Definition mvgal_nt_semaphore_destroy (semaphore : option addr) : NM unit :=
  match semaphore with
  | None => mret tt
  | Some p => live nh_semaphores p;; modify (fun h => h <| nh_semaphores ::= delete p |>)
  end.

(** The status, the previous count, and the number of signals sent. *)
Definition release_section (release_count : Z) (s : mvgal_nt_semaphore) : (Z * Z * Z) * mvgal_nt_semaphore :=
  let old := ns_count s in
  let new_count := u32 (old + release_count) in
  if ns_max_count s <? new_count then ((-1, old, 0), s)
  else ((0, old, Z.of_nat (length (filter (fun i => u32 (old + Z.of_nat i) < ns_max_count s) (seq 0 (Z.to_nat release_count))))),
        s <| ns_count := new_count |>).

Definition mvgal_nt_semaphore_release (semaphore : option addr) (release_count : Z) : NM (Z * option Z) :=
  match semaphore with
  | None => mret (-1, None)
  | Some p =>
      if release_count =? 0 then mret (-1, None) else
      s ← live nh_semaphores p;
      let '((status, old, _), s') := release_section release_count s in
      modify (store_semaphore p s');; mret (status, Some old)
  end.

(** The test on entry; [None] when the caller goes to sleep. *)
Definition wait_section (timeout_ns : Z) (s : mvgal_nt_semaphore) : option Z * mvgal_nt_semaphore :=
  if 0 <? ns_count s then (Some MVGAL_NT_WAIT_OBJECT_0, s <| ns_count ::= fun c => c - 1 |>)
  else if timeout_ns =? 0 then (Some MVGAL_NT_WAIT_TIMEOUT, s)
  else (None, s).

(** The test of the loop after a wake-up, with the decrement that follows it. *)
Definition resume_section (s : mvgal_nt_semaphore) : option Z * mvgal_nt_semaphore :=
  if ns_count s =? 0 then (None, s)
  else (Some (if 0 <? ns_count s then MVGAL_NT_WAIT_OBJECT_0 else MVGAL_NT_WAIT_TIMEOUT),
        s <| ns_count ::= fun c => u32 (c - 1) |>).

Definition mvgal_nt_semaphore_query (semaphore : option addr) : NM (Z * option (Z * Z)) :=
  match semaphore with
  | None => mret (-1, None)
  | Some p => s ← live nh_semaphores p; mret (0, Some (ns_count s, ns_max_count s))
  end.

(** ** Timers

    The kernel's side of a timer is the environment: whether a call on its
    descriptor succeeds and how many expirations a read finds. *)

Definition store_timer (p : addr) (t : mvgal_nt_timer) (h : nt_heap) : nt_heap := h <| nh_timers ::= <[p := t]> |>.

(** [timer_fd] is what [timerfd_create] returned. *)
Definition mvgal_nt_timer_create (res : sync_resources) (timer_type : mvgal_nt_timer_type_t) (timer : bool)
    (timer_fd : Z) : NM (Z * option addr) :=
  created nh_timers store_timer (res_memory res && res_mutex res && (0 <=? timer_fd)) timer (mk_nt_timer timer_type timer_fd false false 0).

Definition mvgal_nt_timer_destroy (timer : option addr) : NM unit :=
  match timer with
  | None => mret tt
  | Some p => live nh_timers p;; modify (fun h => h <| nh_timers ::= delete p |>)
  end.

Definition TFD_TIMER_ABSTIME : Z := 1.

(** Value and interval for [timerfd_settime], in seconds and nanoseconds. *)
Definition timer_spec (due_time_ns period_ms : Z) : (Z * Z) * (Z * Z) :=
  ((due_time_ns / 1000000000, due_time_ns mod 1000000000),
   if 0 <? period_ms then (period_ms / 1000, (period_ms mod 1000) * 1000000) else (0, 0)).

(** [settime] is [timerfd_settime]: a descriptor, the flags and the times. *)
Definition mvgal_nt_timer_set (timer : option addr) (due_time_ns period_ms : Z) (is_absolute : bool)
    (settime : Z -> Z -> (Z * Z) * (Z * Z) -> Z) : NM Z :=
  match timer with
  | None => mret (-1)
  | Some p =>
      t ← live nh_timers p;
      let t := t <| nr_periodic := 0 <? period_ms |> <| nr_period_ms := if 0 <? period_ms then period_ms else 0 |> in
      let ret := settime (nr_timer_fd t) (if is_absolute then TFD_TIMER_ABSTIME else 0) (timer_spec due_time_ns period_ms) in
      modify (store_timer p (if ret =? 0 then t <| nr_signaled := false |> else t));; mret ret
  end.

(** The result of [timerfd_settime] with zero times is ignored. *)
Definition mvgal_nt_timer_cancel (timer : option addr) : NM Z :=
  match timer with
  | None => mret (-1)
  | Some p =>
      t ← live nh_timers p;
      modify (store_timer p (t <| nr_signaled := false |> <| nr_periodic := false |>));; mret 0
  end.

(** [expirations] is what [read] found on a descriptor, [None] when it failed. *)
Definition mvgal_nt_timer_query (timer : option addr) (signaled : bool) (expirations : Z -> option Z)
  : NM (Z * option bool) :=
  match timer, signaled with
  | Some p, true =>
      t ← live nh_timers p;
      let fired := match expirations (nr_timer_fd t) with Some n => 0 <? n | None => false end in
      let t := if fired then t <| nr_signaled := true |> else t in
      let consumes := match nr_type t with MVGAL_NT_TIMER_TYPE_SYNCHRONIZATION => nr_signaled t | _ => false end in
      modify (store_timer p (if consumes then t <| nr_signaled := false |> else t));;
      mret (0, Some (nr_signaled t))
  | _, _ => mret (-1, None)
  end.

(** ** Waits on several objects *)

(** One object of a wait: whether it was signalled, consumed if so. *)
Definition take_object (self : Z) (expirations : Z -> option Z) (ty : mvgal_ntsync_type_t) (p : addr) : NM bool :=
  match ty with
  | MVGAL_NTSYNC_TYPE_EVENT => read_event p
  | MVGAL_NTSYNC_TYPE_MUTEX =>
      m ← live nh_mutexes p;
      if nm_state m =? 0 then
        modify (store_mutex p (m <| nm_state := 1 |> <| nm_owner_thread := self |> <| nm_recursion_count := 1 |>));;
        mret true
      else mret false
  | MVGAL_NTSYNC_TYPE_SEMAPHORE =>
      s ← live nh_semaphores p;
      if 0 <? ns_count s then modify (store_semaphore p (s <| ns_count ::= fun c => c - 1 |>));; mret true
      else mret false
  | MVGAL_NTSYNC_TYPE_TIMER =>
      t ← live nh_timers p;
      mret (match expirations (nr_timer_fd t) with Some n => 0 <? n | None => false end)
  end.

(** One pass over the objects from index [i]: the index that ends a wait for
    any, or the number signalled. *)
Fixpoint wait_pass (self : Z) (expirations : Z -> option Z) (any : bool)
    (objects : list (mvgal_ntsync_type_t * option addr)) (i signaled : Z) : NM (option Z * Z) :=
  match objects with
  | [] => mret (None, signaled)
  | (_, None) :: rest => wait_pass self expirations any rest (i + 1) signaled
  | (ty, Some p) :: rest =>
      sig ← take_object self expirations ty p;
      if sig : bool then
        if any then mret (Some i, signaled + 1)
        else wait_pass self expirations any rest (i + 1) (signaled + 1)
      else wait_pass self expirations any rest (i + 1) signaled
  end.

(** What happens before a pass: changes of other threads, the expirations of
    timers, and the clock after the pass. *)
Record round : Type := mk_round {
  rd_others : nt_heap -> nt_heap;
  rd_expirations : Z -> option Z;
  rd_clock : Z
}.

(** The polling loop; [None] while it is still running.  A wait for all stores
    [all_index] through [signaled_index]. *)
Fixpoint wait_loop (self : Z) (objects : list (mvgal_ntsync_type_t * option addr)) (any : bool)
    (all_index : option Z) (timeout_ns deadline : Z) (rounds : list round) : NM (option (Z * option Z)) :=
  match rounds with
  | [] => mret None
  | r :: rest =>
      modify (rd_others r);;
      res ← wait_pass self (rd_expirations r) any objects 0 0;
      match res with
      | (Some i, _) => mret (Some (MVGAL_NT_WAIT_OBJECT_0 + i, Some i))
      | (None, signaled) =>
          if negb any && (signaled =? Z.of_nat (length objects)) then mret (Some (MVGAL_NT_WAIT_OBJECT_0, all_index))
          else if timeout_ns =? 0 then mret (Some (MVGAL_NT_WAIT_TIMEOUT, None))
          else if negb (timeout_ns =? U64_MAX) && (deadline <=? rd_clock r) then mret (Some (MVGAL_NT_WAIT_TIMEOUT, None))
          else wait_loop self objects any all_index timeout_ns deadline rest
      end
  end.

Definition is_any (w : mvgal_nt_wait_type_t) : bool := match w with MVGAL_NT_WAIT_TYPE_ANY => true | _ => false end.

Definition wait_deadline (timeout_ns now : Z) : Z :=
  if (timeout_ns =? U64_MAX) || (timeout_ns =? 0) then 0 else u64 (now + timeout_ns).

(** [now] is the time of the call. *)
Definition mvgal_nt_wait_multiple_any (self : Z) (objects : option (list (mvgal_ntsync_type_t * option addr)))
    (wait_type : mvgal_nt_wait_type_t) (timeout_ns now : Z) (rounds : list round) : NM (option (Z * option Z)) :=
  match objects with
  | None | Some [] => mret (Some (MVGAL_NT_WAIT_FAILED, None))
  | Some l => wait_loop self l (is_any wait_type) None timeout_ns (wait_deadline timeout_ns now) rounds
  end.

Definition mvgal_nt_wait_multiple (self : Z) (events : option (list (option addr)))
    (wait_type : mvgal_nt_wait_type_t) (timeout_ns now : Z) (rounds : list round) : NM (option (Z * option Z)) :=
  match events with
  | None | Some [] => mret (Some (MVGAL_NT_WAIT_FAILED, None))
  | Some l =>
      wait_loop self (pair MVGAL_NTSYNC_TYPE_EVENT <$> l) (is_any wait_type) (Some 0) timeout_ns
        (wait_deadline timeout_ns now) rounds
  end.

Definition mvgal_nt_object_get_fd (obj : option addr) (type : mvgal_ntsync_type_t) : NM Z :=
  match obj, type with
  | Some p, MVGAL_NTSYNC_TYPE_TIMER => t ← live nh_timers p; mret (nr_timer_fd t)
  | _, _ => mret (-1)
  end.

(** ** The count of a semaphore *)

Inductive sem_section : Type := Releases (release_count : Z) | Waits (timeout_ns : Z) | Resumes.

(** A section and the change of units it reports: released, or acquired. *)
Definition run_section (c : sem_section) (s : mvgal_nt_semaphore) : Z * mvgal_nt_semaphore :=
  match c with
  | Releases n => let '((status, _, _), s') := release_section n s in (if status =? 0 then n else 0, s')
  | Waits timeout_ns =>
      let '(r, s') := wait_section timeout_ns s in (if decide (r = Some MVGAL_NT_WAIT_OBJECT_0) then -1 else 0, s')
  | Resumes => let '(r, s') := resume_section s in (if decide (r = Some MVGAL_NT_WAIT_OBJECT_0) then -1 else 0, s')
  end.

Fixpoint run_sections (cs : list sem_section) (s : mvgal_nt_semaphore) : Z * mvgal_nt_semaphore :=
  match cs with
  | [] => (0, s)
  | c :: rest => let '(d, s1) := run_section c s in let '(d', s2) := run_sections rest s1 in (d + d', s2)
  end.

(** Releases whose sum with any count fits 32 bits. *)
Definition section_ok (max_count : Z) (c : sem_section) : Prop :=
  match c with Releases n => 0 < n <= U32_MAX - max_count | _ => True end.

Lemma run_section_counts c s :
  section_ok (ns_max_count s) c -> 0 <= ns_count s <= ns_max_count s -> ns_max_count s <= U32_MAX ->
  let '(d, s') := run_section c s in
  ns_max_count s' = ns_max_count s /\ 0 <= ns_count s' <= ns_max_count s /\ ns_count s' = ns_count s + d.
Proof.
  intros Hok Hc Hm. destruct c as [n|to|]; cbn [run_section section_ok] in *.
  - unfold release_section. rewrite u32_small by (unfold is_u32; lia).
    destruct (Z.ltb_spec (ns_max_count s) (ns_count s + n)); cbn; lia.
  - unfold wait_section. destruct (Z.ltb_spec 0 (ns_count s)); [rewrite decide_True by done; cbn; lia|].
    destruct (to =? 0); (case_decide; [done|]); cbn; lia.
  - unfold resume_section. destruct (Z.eqb_spec (ns_count s) 0); [rewrite decide_False by done; lia|].
    rewrite (proj2 (Z.ltb_lt 0 _)) by lia. rewrite decide_True by done. cbn.
    rewrite u32_small by (unfold is_u32; lia). lia.
Qed.

(** Over any sections the count stays between 0 and its maximum and is the
    initial count plus what was released less what was acquired. *)
Lemma nt_semaphore_counts cs s :
  Forall (section_ok (ns_max_count s)) cs -> 0 <= ns_count s <= ns_max_count s -> ns_max_count s <= U32_MAX ->
  let '(d, s') := run_sections cs s in 0 <= ns_count s' <= ns_max_count s /\ ns_count s' = ns_count s + d.
Proof.
  revert s. induction cs as [|c cs IH]; intros s Hok Hc Hm; cbn [run_sections]; [lia|].
  apply Forall_cons in Hok as [Hok1 Hok]. pose proof (run_section_counts c s Hok1 Hc Hm) as H1.
  destruct (run_section c s) as [d s1]. destruct H1 as (Em & Hc1 & E1). rewrite <- Em in Hok.
  specialize (IH s1 Hok ltac:(lia) ltac:(lia)). destruct (run_sections cs s1) as [d' s2]. lia.
Qed.

(** ** Departures *)

Module Departures.

(** A release that overflows 32 bits takes units away. *)
Example release_overflow : (release_section U32_MAX (mk_nt_sem 2 5)).2 = mk_nt_sem 1 5.
Proof. reflexivity. Qed.

(** A wait for two events consumes the one that is signalled, though it times
    out. *)
Definition two_events : nt_heap :=
  mk_nt_heap {[1%positive := mk_nt_event MVGAL_NT_EVENT_TYPE_SYNCHRONIZATION true;
               2%positive := mk_nt_event MVGAL_NT_EVENT_TYPE_SYNCHRONIZATION false]} ∅ ∅ ∅.

Example wait_all_consumes :
  exists h, mvgal_nt_wait_multiple 7 (Some [Some 1%positive; Some 2%positive]) MVGAL_NT_WAIT_TYPE_ALL 0 0
      [mk_round id (fun _ => None) 0] two_events = Ret (Some (MVGAL_NT_WAIT_TIMEOUT, None), h) /\
    ne_signaled <$> nh_events h !! 1%positive = Some false.
Proof. eexists. split; vm_compute; reflexivity. Qed.

(** A pulse leaves nothing for a waiter, which polls, to see. *)
Example pulse_unseen :
  exists h, mvgal_nt_event_pulse (Some 2%positive) two_events = Ret (0, h) /\
    ne_signaled <$> nh_events h !! 2%positive = Some false.
Proof. eexists. split; vm_compute; reflexivity. Qed.

End Departures.
