(* ===== verification/NtMutex.v ===== *)
(** * Threads on an NT mutex

    The sections of [mvgal_nt_mutex_lock] and [mvgal_nt_mutex_unlock] of
    compat/windows/mvgal_ntsync.c, interleaved over any number of threads: a
    mutex used with blocking calls is exclusive and loses no wake-up. *)

From S2P Require Import Prelude SyncPrims NtSync.
Local Open Scope Z_scope.

(** A mutex, the threads inside its calls, and how often each thread holds it:
    acquisitions that returned, less releases. *)
Record mutex_sys : Type := mk_msys {
  sm_mutex : mvgal_nt_mutex;
  sm_threads : gmap Z nt_thread;
  sm_held : Z -> Z
}.

Definition set_held (t n : Z) (held : Z -> Z) : Z -> Z := fun t' => if decide (t' = t) then n else held t'.

Definition outside (ths : gmap Z nt_thread) (t : Z) : Prop :=
  match ths !! t with None | Some (Nt_done _) => True | _ => False end.

(** [pthread_cond_signal] on the condition variable of the mutex. *)
Inductive wakes_one : gmap Z nt_thread -> gmap Z nt_thread -> Prop :=
| wakes_sleeper ths t timeout_ns :
    ths !! t = Some (Nt_sleep false timeout_ns) -> wakes_one ths (<[t := Nt_sleep true timeout_ns]> ths)
| wakes_nobody ths :
    (forall t timeout_ns, ths !! t <> Some (Nt_sleep false timeout_ns)) -> wakes_one ths ths.

Inductive mutex_label : Type :=
| Calls_lock (t timeout_ns : Z)
| Calls_unlock (t : Z)
| Inside.

(** The acquisitions of a call that is in [st] after its step. *)
Definition gained (st : nt_thread) : Z :=
  match st with
  | Nt_done r => if r =? MVGAL_NT_WAIT_TIMEOUT then 0 else 1
  | _ => 0
  end.

Inductive mutex_step : mutex_sys -> mutex_label -> mutex_sys -> Prop :=
| step_lock t timeout_ns m ths held st m' :
    outside ths t -> lock_begin t timeout_ns m = (st, m') ->
    mutex_step (mk_msys m ths held) (Calls_lock t timeout_ns)
      (mk_msys m' (<[t := st]> ths) (set_held t (held t + gained st) held))
| step_claim t m ths held st m' :
    ths !! t = Some Nt_claim -> nm_lock m = None -> lock_claim t m = (st, m') ->
    mutex_step (mk_msys m ths held) Inside (mk_msys m' (<[t := st]> ths) (set_held t (held t + gained st) held))
| step_enter t timeout_ns m ths held st m' :
    ths !! t = Some (Nt_enter timeout_ns) \/ ths !! t = Some (Nt_sleep true timeout_ns) ->
    nm_lock m = None -> lock_enter t timeout_ns m = (st, m') ->
    mutex_step (mk_msys m ths held) Inside (mk_msys m' (<[t := st]> ths) held)
| step_test t timeout_ns m ths held st m' :
    ths !! t = Some (Nt_test timeout_ns) -> lock_test timeout_ns m = (st, m') ->
    mutex_step (mk_msys m ths held) Inside (mk_msys m' (<[t := st]> ths) held)
| step_spurious t timeout_ns m ths held :
    ths !! t = Some (Nt_sleep false timeout_ns) ->
    mutex_step (mk_msys m ths held) Inside (mk_msys m (<[t := Nt_sleep true timeout_ns]> ths) held)
| step_timeout t timeout_ns m ths held :
    ths !! t = Some (Nt_sleep false timeout_ns) -> timeout_ns <> U64_MAX -> nm_lock m = None ->
    mutex_step (mk_msys m ths held) Inside (mk_msys m (<[t := Nt_done MVGAL_NT_WAIT_TIMEOUT]> ths) held)
| step_store t m ths held st m' :
    ths !! t = Some Nt_store -> lock_store t m = (st, m') ->
    mutex_step (mk_msys m ths held) Inside (mk_msys m' (<[t := st]> ths) (set_held t (held t + gained st) held))
| step_unlock t m ths ths' held sig m' :
    outside ths t -> nm_lock m = None -> mutex_unlock m = (sig, m') ->
    (if sig : bool then wakes_one ths ths' else ths' = ths) ->
    mutex_step (mk_msys m ths held) (Calls_unlock t) (mk_msys m' ths' (set_held t (held t - 1) held)).

(** Threads have ids other than 0, lock with a timeout, nest less than
    [2 ^ 32] times, and unlock what they hold. *)
Definition proper (s : mutex_sys) (l : mutex_label) : Prop :=
  match l with
  | Calls_lock t timeout_ns => t <> 0 /\ timeout_ns <> 0 /\ sm_held s t < U32_MAX
  | Calls_unlock t => 0 < sm_held s t
  | Inside => True
  end.

Definition mutex_start (initial_owner : bool) (abandon_wakeup_count self : Z) : mutex_sys :=
  mk_msys (mutex_new initial_owner abandon_wakeup_count self) ∅
    (fun t => if initial_owner && (t =? self) then 1 else 0).

Inductive mutex_reachable : mutex_sys -> Prop :=
| mutex_starts initial_owner abandon_wakeup_count self :
    self <> 0 -> mutex_reachable (mutex_start initial_owner abandon_wakeup_count self)
| mutex_steps s l s' : mutex_reachable s -> proper s l -> mutex_step s l s' -> mutex_reachable s'.

Definition in_section (st : nt_thread) : bool :=
  match st with Nt_test _ | Nt_store => true | _ => false end.

(** A thread that will test the state next, or has found it free. *)
Definition stirring (st : nt_thread) : bool :=
  match st with Nt_test _ | Nt_store | Nt_sleep true _ => true | _ => false end.

Record mutex_inv (s : mutex_sys) : Prop := {
  mi_lock : forall t, nm_lock (sm_mutex s) = Some t <-> exists st, sm_threads s !! t = Some st /\ in_section st = true;
  mi_claim : forall t, sm_threads s !! t <> Some Nt_claim;
  mi_zero : forall t, ~ outside (sm_threads s) t -> t <> 0;
  mi_store : forall t, sm_threads s !! t = Some Nt_store -> nm_state (sm_mutex s) = 0;
  mi_owner : (nm_state (sm_mutex s) = 0 /\ nm_owner_thread (sm_mutex s) = 0 /\
      nm_recursion_count (sm_mutex s) = 0 /\ forall t, sm_held s t = 0) \/
    (exists t, t <> 0 /\ nm_state (sm_mutex s) = 1 /\ nm_owner_thread (sm_mutex s) = t /\
      nm_recursion_count (sm_mutex s) = sm_held s t /\ 0 < sm_held s t <= U32_MAX /\
      forall t', t' <> t -> sm_held s t' = 0);
  mi_wake : nm_state (sm_mutex s) = 0 -> forall t timeout_ns, sm_threads s !! t = Some (Nt_sleep false timeout_ns) ->
    exists t' st, sm_threads s !! t' = Some st /\ stirring st = true
}.

(** ** Moving one thread *)

Definition was (P : nt_thread -> bool) (ths : gmap Z nt_thread) (t : Z) : Prop :=
  exists st, ths !! t = Some st /\ P st = true.

Lemma was_insert P ths t t' st :
  was P (<[t := st]> ths) t' <-> if decide (t' = t) then P st = true else was P ths t'.
Proof.
  unfold was. case_decide as Hd.
  - subst t'. rewrite lookup_insert_eq. naive_solver.
  - by rewrite lookup_insert_ne.
Qed.

Lemma outside_was P ths t : outside ths t -> (forall r, P (Nt_done r) = false) -> ~ was P ths t.
Proof.
  intros Ho HP (st & E & Hst). unfold outside in Ho. rewrite E in Ho. destruct st; try done. by rewrite HP in Hst.
Qed.

(** The part of the invariant that is about the threads only. *)
Record threads_ok (lock : option Z) (free : Prop) (ths : gmap Z nt_thread) : Prop := {
  th_lock : forall t, lock = Some t <-> was in_section ths t;
  th_claim : forall t, ths !! t <> Some Nt_claim;
  th_zero : forall t, ~ outside ths t -> t <> 0;
  th_store : forall t, ths !! t = Some Nt_store -> free;
  th_wake : free -> forall t timeout_ns, ths !! t = Some (Nt_sleep false timeout_ns) -> exists t', was stirring ths t'
}.

Definition is_asleep (st : nt_thread) : bool := match st with Nt_sleep false _ => true | _ => false end.
Definition is_out (st : nt_thread) : bool := match st with Nt_done _ => true | _ => false end.

(** Thread [t] moves to [st]; the lock goes from [lock] to [lock'] and the
    mutex from [free] to [free']. *)
Lemma threads_move lock lock' (free free' : Prop) ths t st :
  threads_ok lock free ths ->
  (lock' = Some t <-> in_section st = true) ->
  (forall t', t' <> t -> (lock' = Some t' <-> lock = Some t')) ->
  st <> Nt_claim -> (is_out st = true \/ t <> 0) -> (st = Nt_store -> free') ->
  (forall t', t' <> t -> ths !! t' = Some Nt_store -> free -> free') ->
  (free' -> (exists t', t' <> t /\ was stirring ths t') \/ stirring st = true \/
     (is_asleep st = false /\ (free \/ forall t', t' <> t -> ~ was is_asleep ths t') /\ ~ was stirring ths t)) ->
  threads_ok lock' free' (<[t := st]> ths).
Proof.
  intros [Q1 Q2 Q3 Q4 Q5] Hl Hl' Hc Hz Hs Hs' Hw. split.
  - intros t'. rewrite was_insert. case_decide as Hd; [by subst|]. rewrite Hl' by done. apply Q1.
  - intros t'. rewrite lookup_insert_Some. intros [[_ ->]|[_ E]]; [done|by apply (Q2 t')].
  - intros t' Ho. destruct (decide (t' = t)) as [->|Hne].
    + destruct Hz as [Hz|Hz]; [|done]. unfold outside in Ho. rewrite lookup_insert_eq in Ho. by destruct st.
    + apply Q3. unfold outside in *. by rewrite lookup_insert_ne in Ho.
  - intros t'. rewrite lookup_insert_Some. intros [[_ ->]|[Hne E]]; [by apply Hs|].
    apply (Hs' t'); [done|done|by eapply Q4].
  - intros Hf t' timeout_ns E. destruct (Hw Hf) as [(x & Hx & Wx)|[Hst|(Ha & Hor & Hn)]].
    + exists x. apply was_insert. by rewrite decide_False.
    + exists t. apply was_insert. by rewrite decide_True.
    + rewrite lookup_insert_Some in E. destruct E as [[_ ->]|[Hne E]]; [done|].
      destruct Hor as [Hfr|Hnone]; [|exfalso; apply (Hnone t'); [done|]; by exists (Nt_sleep false timeout_ns)].
      destruct (Q5 Hfr t' timeout_ns E) as [x Wx]. exists x. apply was_insert. case_decide; [by subst|done].
Qed.

Lemma mutex_inv_threads s :
  mutex_inv s -> threads_ok (nm_lock (sm_mutex s)) (nm_state (sm_mutex s) = 0) (sm_threads s).
Proof. intros [Q1 Q2 Q3 Q4 _ Q6]. by split. Qed.

Lemma mutex_inv_intro s :
  threads_ok (nm_lock (sm_mutex s)) (nm_state (sm_mutex s) = 0) (sm_threads s) ->
  ((nm_state (sm_mutex s) = 0 /\ nm_owner_thread (sm_mutex s) = 0 /\
      nm_recursion_count (sm_mutex s) = 0 /\ forall t, sm_held s t = 0) \/
    (exists t, t <> 0 /\ nm_state (sm_mutex s) = 1 /\ nm_owner_thread (sm_mutex s) = t /\
      nm_recursion_count (sm_mutex s) = sm_held s t /\ 0 < sm_held s t <= U32_MAX /\
      forall t', t' <> t -> sm_held s t' = 0)) ->
  mutex_inv s.
Proof. intros [Q1 Q2 Q3 Q4 Q6] Q5. by split. Qed.

Lemma not_outside ths t st : ths !! t = Some st -> is_out st = false -> ~ outside ths t.
Proof. unfold outside. intros ->. destruct st; cbn; (discriminate || tauto). Qed.

Lemma held_same t held t' : set_held t (held t + 0) held t' = held t'.
Proof. unfold set_held. case_decide; [subst; lia|done]. Qed.

Lemma lock_step_inv t timeout_ns m ths held st m' :
  mutex_inv (mk_msys m ths held) -> outside ths t -> t <> 0 -> timeout_ns <> 0 -> held t < U32_MAX ->
  lock_begin t timeout_ns m = (st, m') ->
  mutex_inv (mk_msys m' (<[t := st]> ths) (set_held t (held t + gained st) held)).
Proof.
  intros Hi Ho Ht Hto Hh E. pose proof (mutex_inv_threads _ Hi) as Hths. cbn in Hths.
  assert (Hns : ~ was stirring ths t) by (by apply outside_was).
  assert (Hnl : nm_lock m <> Some t) by (intros El; apply (th_lock _ _ _ Hths) in El; by apply (outside_was in_section ths t)).
  assert (Hmove : forall st', in_section st' = false -> st' <> Nt_claim -> st' <> Nt_store -> is_asleep st' = false ->
    threads_ok (nm_lock m) (nm_state m = 0) (<[t := st']> ths)).
  { intros st' S1 S2 S3 S4. eapply threads_move; [exact Hths|..]; try done.
    - rewrite S1. by split.
    - by right.
    - intros Hf. right. right. split; [done|]. split; [by left|done]. }
  pose proof (mi_owner _ Hi) as Hown. cbn in Hown. unfold lock_begin in E.
  destruct (Z.eqb_spec (nm_owner_thread m) t) as [Eo|Eo], (Z.ltb_spec 0 (nm_recursion_count m)) as [Hr|Hr]; cbn in E;
    try (rewrite (proj2 (Z.eqb_neq _ _) Hto) in E; injection E as <- <-; apply mutex_inv_intro; cbn;
      [by apply Hmove|destruct Hown as [(P1 & P2 & P3 & P4)|(x & P0 & P1 & P2 & P3 & P4 & P5)];
        [left; split_and!; try done; intros; by rewrite held_same|
         right; exists x; rewrite held_same; split_and!; try done; try lia; intros; rewrite held_same; by apply P5]]).
  injection E as <- <-. destruct Hown as [(P1 & P2 & P3 & P4)|(x & P0 & P1 & P2 & P3 & P4 & P5)]; [lia|].
  assert (x = t) as -> by lia. apply mutex_inv_intro; cbn; [by apply Hmove|]. right. exists t.
  unfold set_held. rewrite decide_True, u32_small by (done || (unfold is_u32; lia)).
  split_and!; try done; try lia. intros t' Hne. rewrite decide_False by done. by apply P5.
Qed.

Lemma inside_owner m ths ths' held m' :
  mutex_inv (mk_msys m ths held) -> nm_state m' = nm_state m -> nm_owner_thread m' = nm_owner_thread m ->
  nm_recursion_count m' = nm_recursion_count m ->
  threads_ok (nm_lock m') (nm_state m' = 0) ths' -> mutex_inv (mk_msys m' ths' held).
Proof.
  intros Hi E1 E2 E3 Ht. apply mutex_inv_intro; [exact Ht|]. cbn. rewrite E1, E2, E3. exact (mi_owner _ Hi).
Qed.

Lemma enter_step_inv t timeout_ns m ths held st m' :
  mutex_inv (mk_msys m ths held) ->
  ths !! t = Some (Nt_enter timeout_ns) \/ ths !! t = Some (Nt_sleep true timeout_ns) ->
  nm_lock m = None -> lock_enter t timeout_ns m = (st, m') -> mutex_inv (mk_msys m' (<[t := st]> ths) held).
Proof.
  intros Hi E El [= <- <-]. pose proof (mutex_inv_threads _ Hi) as Hths. cbn in Hths. rewrite El in Hths.
  eapply inside_owner; [exact Hi|done..|]. cbn. eapply threads_move; [exact Hths|..]; try done.
  - intros t' Hne. split; [intros [= ->]; done|done].
  - right. apply (th_zero _ _ _ Hths). destruct E as [E|E]; by eapply not_outside.
  - intros _. by right; left.
Qed.

Lemma test_step_inv t timeout_ns m ths held st m' :
  mutex_inv (mk_msys m ths held) -> ths !! t = Some (Nt_test timeout_ns) -> lock_test timeout_ns m = (st, m') ->
  mutex_inv (mk_msys m' (<[t := st]> ths) held).
Proof.
  intros Hi E Et. pose proof (mutex_inv_threads _ Hi) as Hths. cbn in Hths.
  assert (El : nm_lock m = Some t) by (apply (th_lock _ _ _ Hths); by exists (Nt_test timeout_ns)).
  assert (Ht : t <> 0) by (apply (th_zero _ _ _ Hths); by eapply not_outside).
  unfold lock_test in Et. destruct (Z.eqb_spec (nm_state m) 0) as [E0|E0]; cbn in Et; injection Et as <- <-;
    (eapply inside_owner; [exact Hi|done..|]); cbn; (eapply threads_move; [exact Hths|..]); try done;
    try (by right); try (intros _; by right; left).
  intros t' Hne. rewrite El. split; [done|by intros [= ->]].
Qed.

Lemma sleeper_step_inv t timeout_ns m ths held st :
  mutex_inv (mk_msys m ths held) -> ths !! t = Some (Nt_sleep false timeout_ns) ->
  st = Nt_sleep true timeout_ns \/ st = Nt_done MVGAL_NT_WAIT_TIMEOUT -> mutex_inv (mk_msys m (<[t := st]> ths) held).
Proof.
  intros Hi E Hst. pose proof (mutex_inv_threads _ Hi) as Hths. cbn in Hths.
  assert (Ht : t <> 0) by (apply (th_zero _ _ _ Hths); by eapply not_outside).
  assert (Hns : forall P, P (Nt_sleep false timeout_ns) = false -> ~ was P ths t)
    by (intros P HP (x & Ex & Hx); congruence).
  eapply inside_owner; [exact Hi|done..|]. eapply threads_move; [exact Hths|..]; try done.
  - rewrite (th_lock _ _ _ Hths). destruct Hst as [-> | ->]; (split; [intros W; by apply Hns in W|done]).
  - by destruct Hst as [-> | ->].
  - by right.
  - by destruct Hst as [-> | ->].
  - intros Hf. right. destruct Hst as [-> | ->]; [by left|right]. split; [done|]. split; [by left|by apply Hns].
Qed.

Lemma store_step_inv t m ths held st m' :
  mutex_inv (mk_msys m ths held) -> ths !! t = Some Nt_store -> lock_store t m = (st, m') ->
  mutex_inv (mk_msys m' (<[t := st]> ths) (set_held t (held t + gained st) held)).
Proof.
  intros Hi E [= <- <-]. pose proof (mutex_inv_threads _ Hi) as Hths. cbn in Hths.
  assert (El : nm_lock m = Some t) by (apply (th_lock _ _ _ Hths); by exists Nt_store).
  assert (Ht : t <> 0) by (apply (th_zero _ _ _ Hths); by eapply not_outside).
  pose proof (th_store _ _ _ Hths t E) as Hf.
  destruct (mi_owner _ Hi) as [(P1 & P2 & P3 & P4)|(x & P0 & P1 & _)]; [|cbn in *; lia]. cbn in P4.
  apply mutex_inv_intro; cbn.
  - eapply threads_move; [exact Hths|..]; try done.
    + intros t' Hne. rewrite El. split; [done|by intros [= ->]].
    + by right.
    + intros t' Hne E' _. assert (Hl : nm_lock m = Some t') by (apply (th_lock _ _ _ Hths); by exists Nt_store). congruence.
  - right. exists t. unfold set_held. rewrite decide_True, P4 by done.
    assert (G : 0 + gained (Nt_done (if nm_abandoned m then MVGAL_NT_WAIT_ABANDONED else MVGAL_NT_WAIT_OBJECT_0)) = 1)
      by (by destruct (nm_abandoned m)).
    cbn in G. rewrite G. unfold U32_MAX. split_and!; try done; try lia. intros t' Hne. by rewrite decide_False.
Qed.

Lemma unlock_step_inv t m ths ths' held sig m' :
  mutex_inv (mk_msys m ths held) -> 0 < held t -> nm_lock m = None -> mutex_unlock m = (sig, m') ->
  (if sig : bool then wakes_one ths ths' else ths' = ths) ->
  mutex_inv (mk_msys m' ths' (set_held t (held t - 1) held)).
Proof.
  intros Hi Hh El Eu Hw. pose proof (mutex_inv_threads _ Hi) as Hths. cbn in Hths. rewrite El in Hths.
  destruct (mi_owner _ Hi) as [(P1 & P2 & P3 & P4)|(x & P0 & P1 & P2 & P3 & P4 & P5)]; cbn in *; [rewrite P4 in Hh; lia|].
  assert (x = t) as -> by (destruct (decide (x = t)); [done|]; rewrite P5 in Hh by done; lia).
  unfold mutex_unlock in Eu. destruct (Z.ltb_spec 1 (nm_recursion_count m)) as [Hr|Hr]; injection Eu as <- <-.
  - subst ths'. apply mutex_inv_intro; cbn; [by rewrite El|]. right. exists t. unfold set_held. rewrite decide_True by done.
    split_and!; try done; try lia. intros t' Hne. rewrite decide_False by done. by apply P5.
  - apply mutex_inv_intro; cbn.
    + rewrite El, P1 in *. destruct Hw as [ths t1 to E1|ths Hn].
      * eapply threads_move; [exact Hths|..]; try done.
        -- right. apply (th_zero _ _ _ Hths). by eapply not_outside.
        -- intros _. by right; left.
      * destruct Hths as [Q1 Q2 Q3 Q4 Q5]. split; try done. intros _ t1 to E1. by apply Hn in E1.
    + left. split_and!; try done. intros t'. unfold set_held. case_decide; [lia|by apply P5].
Qed.

Lemma mutex_reachable_inv s : mutex_reachable s -> mutex_inv s.
Proof.
  induction 1 as [own ab self Hself|s l s' Hr IH Hp Hs].
  - apply mutex_inv_intro; cbn.
    + assert (nm_lock (mutex_new own ab self) = None) as -> by (by destruct own).
      split.
      * intros t. split; [done|]. intros (st & E & _). by rewrite lookup_empty in E.
      * intros t. by rewrite lookup_empty.
      * intros t Ho. exfalso. apply Ho. unfold outside. by rewrite lookup_empty.
      * intros t E. by rewrite lookup_empty in E.
      * intros _ t to E. by rewrite lookup_empty in E.
    + destruct own; cbn; [right|by left]. exists self. rewrite Z.eqb_refl. unfold U32_MAX.
      split_and!; try done; try lia. intros t' Hne. by rewrite (proj2 (Z.eqb_neq _ _)).
  - destruct Hs; cbn in Hp.
    + destruct Hp as (? & ? & ?). by eapply lock_step_inv.
    + exfalso. by eapply (mi_claim _ IH).
    + by eapply enter_step_inv.
    + by eapply test_step_inv.
    + eapply sleeper_step_inv; [done|done|by left].
    + eapply sleeper_step_inv; [done|done|by right].
    + by eapply store_step_inv.
    + by eapply unlock_step_inv.
Qed.

(** C27. An NT mutex used with blocking calls is exclusive.  In every
    interleaving of threads that lock it with a timeout and unlock what they
    hold, at most one thread holds it; the mutex records that thread and how
    often it holds it; and when it is free and a thread sleeps on it, some
    thread is awake that will take it. *)
Theorem nt_mutex_exclusive s :
  mutex_reachable s ->
  (forall t t', 0 < sm_held s t -> 0 < sm_held s t' -> t = t') /\
  (forall t, 0 < sm_held s t -> nm_owner_thread (sm_mutex s) = t /\ nm_recursion_count (sm_mutex s) = sm_held s t /\
     nm_state (sm_mutex s) = 1) /\
  (nm_state (sm_mutex s) = 0 -> forall t timeout_ns, sm_threads s !! t = Some (Nt_sleep false timeout_ns) ->
     exists t' st, sm_threads s !! t' = Some st /\ stirring st = true).
Proof.
  intros Hi%mutex_reachable_inv. split_and!; [| |apply (mi_wake _ Hi)];
    destruct (mi_owner _ Hi) as [(P1 & P2 & P3 & P4)|(x & P0 & P1 & P2 & P3 & P4 & P5)].
  - intros t t' Ht. rewrite P4 in Ht. lia.
  - intros t t' Ht Ht'. destruct (decide (t = x)), (decide (t' = x)); try congruence;
      [rewrite (P5 t') in Ht' by done|rewrite (P5 t) in Ht by done..]; lia.
  - intros t Ht. rewrite P4 in Ht. lia.
  - intros t Ht. destruct (decide (t = x)) as [->|]; [done|]. rewrite (P5 t) in Ht by done. lia.
Qed.

(** ** Runs *)

(** The state after a step of thread [t]. *)
Definition moved (t : Z) (r : nt_thread * mvgal_nt_mutex) (s : mutex_sys) : mutex_sys :=
  mk_msys r.2 (<[t := r.1]> (sm_threads s)) (set_held t (sm_held s t + gained r.1) (sm_held s)).

Definition moved_in (t : Z) (r : nt_thread * mvgal_nt_mutex) (s : mutex_sys) : mutex_sys :=
  mk_msys r.2 (<[t := r.1]> (sm_threads s)) (sm_held s).

Definition do_lock (t timeout_ns : Z) (s : mutex_sys) : mutex_sys := moved t (lock_begin t timeout_ns (sm_mutex s)) s.
Definition do_claim (t : Z) (s : mutex_sys) : mutex_sys := moved t (lock_claim t (sm_mutex s)) s.
Definition do_enter (t timeout_ns : Z) (s : mutex_sys) : mutex_sys := moved_in t (lock_enter t timeout_ns (sm_mutex s)) s.
Definition do_test (t timeout_ns : Z) (s : mutex_sys) : mutex_sys := moved_in t (lock_test timeout_ns (sm_mutex s)) s.
Definition do_store (t : Z) (s : mutex_sys) : mutex_sys := moved t (lock_store t (sm_mutex s)) s.
Definition do_unlock (t sleeper timeout_ns : Z) (s : mutex_sys) : mutex_sys :=
  mk_msys (mutex_unlock (sm_mutex s)).2 (<[sleeper := Nt_sleep true timeout_ns]> (sm_threads s))
    (set_held t (sm_held s t - 1) (sm_held s)).

Lemma do_lock_step t timeout_ns s :
  outside (sm_threads s) t -> mutex_step s (Calls_lock t timeout_ns) (do_lock t timeout_ns s).
Proof. destruct s. intros Ho. by apply step_lock; [|apply surjective_pairing]. Qed.

Lemma do_claim_step t s :
  sm_threads s !! t = Some Nt_claim -> nm_lock (sm_mutex s) = None -> mutex_step s Inside (do_claim t s).
Proof. destruct s. intros E El. by apply step_claim; [| |apply surjective_pairing]. Qed.

Lemma do_enter_step t timeout_ns s :
  sm_threads s !! t = Some (Nt_enter timeout_ns) \/ sm_threads s !! t = Some (Nt_sleep true timeout_ns) ->
  nm_lock (sm_mutex s) = None -> mutex_step s Inside (do_enter t timeout_ns s).
Proof. destruct s. intros E El. by eapply step_enter; [| |apply surjective_pairing]. Qed.

Lemma do_test_step t timeout_ns s :
  sm_threads s !! t = Some (Nt_test timeout_ns) -> mutex_step s Inside (do_test t timeout_ns s).
Proof. destruct s. intros E. by eapply step_test; [|apply surjective_pairing]. Qed.

Lemma do_store_step t s : sm_threads s !! t = Some Nt_store -> mutex_step s Inside (do_store t s).
Proof. destruct s. intros E. by apply step_store; [|apply surjective_pairing]. Qed.

Lemma do_unlock_step t sleeper timeout_ns s :
  outside (sm_threads s) t -> nm_lock (sm_mutex s) = None -> (mutex_unlock (sm_mutex s)).1 = true ->
  sm_threads s !! sleeper = Some (Nt_sleep false timeout_ns) ->
  mutex_step s (Calls_unlock t) (do_unlock t sleeper timeout_ns s).
Proof.
  destruct s. intros Ho El Es E. eapply step_unlock; [done|done|apply surjective_pairing|]. cbn in *. rewrite Es.
  by apply wakes_sleeper.
Qed.

Module Duel.

(** Thread 7 owns the mutex, thread 9 sleeps on it, is woken by the unlock and
    takes it. *)
Definition owned : mutex_sys := mutex_start true 0 7.
Definition asleep : mutex_sys := do_test 9 1000 (do_enter 9 1000 (do_lock 9 1000 owned)).
Definition awake : mutex_sys := do_unlock 7 9 1000 asleep.
Definition taken : mutex_sys := do_store 9 (do_test 9 1000 (do_enter 9 1000 awake)).

Lemma nt_mutex_exclusive_witness :
  mutex_reachable taken /\ nm_owner_thread (sm_mutex taken) = 9 /\ forall t, 0 < sm_held taken t -> t = 9.
Proof.
  assert (R : mutex_reachable taken).
  { apply (mutex_steps (do_test 9 1000 (do_enter 9 1000 awake)) Inside); [|exact I|by apply do_store_step].
    apply (mutex_steps (do_enter 9 1000 awake) Inside); [|exact I|by apply do_test_step].
    apply (mutex_steps awake Inside); [|exact I|by apply do_enter_step; [right|]].
    apply (mutex_steps asleep (Calls_unlock 7)); [|vm_compute; reflexivity|by apply do_unlock_step].
    apply (mutex_steps (do_enter 9 1000 (do_lock 9 1000 owned)) Inside); [|exact I|by apply do_test_step].
    apply (mutex_steps (do_lock 9 1000 owned) Inside); [|exact I|by apply do_enter_step; [left|]].
    apply (mutex_steps owned (Calls_lock 9 1000)); [|vm_compute; repeat split; discriminate|by apply do_lock_step].
    apply mutex_starts. lia. }
  split; [exact R|]. split; [vm_compute; reflexivity|].
  intros t Ht. apply (proj1 (nt_mutex_exclusive taken R)); [exact Ht|vm_compute; reflexivity].
Defined.

(** A non-blocking call takes the mutex between the test and the store of a
    blocking one: both threads hold it. *)
Example trylock_breaks_exclusion :
  let s0 := mutex_start false 0 7 in
  let s1 := do_lock 9 1000 s0 in
  let s2 := do_enter 9 1000 s1 in
  let s3 := do_test 9 1000 s2 in
  let s4 := do_lock 8 0 s3 in
  let s5 := do_store 9 s4 in
  let s6 := do_claim 8 s5 in
  (mutex_step s0 (Calls_lock 9 1000) s1 /\ mutex_step s1 Inside s2 /\ mutex_step s2 Inside s3 /\
   mutex_step s3 (Calls_lock 8 0) s4 /\ mutex_step s4 Inside s5 /\ mutex_step s5 Inside s6) /\
  sm_held s6 8 = 1 /\ sm_held s6 9 = 1.
Proof.
  cbn zeta. split; [split_and!|split; vm_compute; reflexivity];
    [by apply do_lock_step|by apply do_enter_step; [left|]|by apply do_test_step|by apply do_lock_step
    |by apply do_store_step|by apply do_claim_step].
Qed.

End Duel.
