(* ===== verification/Library.v ===== *)
(** * The library as a whole

    The state of the userspace library: the modules together with the records
    of src/userspace/execution/execution_internal.h and of the contexts of
    src/userspace/api/mvgal_api.c, and the start and stop of the execution
    module.  An operation of a module is an operation of the library that
    leaves the other modules alone. *)

From S2P Require Import Prelude Float32 CString GpuTypes GpuManager GpuHealth SchedTypes WorkQueue SchedSelect Strategies Scheduler.
From S2P Require Import SyncPrims CMem MemTypes Allocator MemoryApi Config ConfigText.
From stdpp Require Import strings.
Local Open Scope string_scope.
Local Open Scope Z_scope.

(** ** Statistics (include/mvgal/mvgal_types.h) *)

Record mvgal_stats_t : Type := mk_xstats {
  x_frames_submitted : Z;
  x_frames_completed : Z;
  x_workloads_distributed : Z;
  x_bytes_transferred : Z;
  x_gpu_switches : Z;
  x_errors : Z;
  x_vulkan_workloads : Z;
  x_cuda_kernels : Z;
  x_opencl_kernels : Z;
  x_d3d_workloads : Z;
  x_metal_workloads : Z;
  x_webgpu_workloads : Z;
  x_dmabuf_exports : Z;
  x_dmabuf_imports : Z;
  x_cross_vendor_allocations : Z;
  x_cross_vendor_frees : Z
}.
#[export] Instance xstats_eta : Eta mvgal_stats_t := fun r =>
  mk_xstats (x_frames_submitted r) (x_frames_completed r) (x_workloads_distributed r) (x_bytes_transferred r)
    (x_gpu_switches r) (x_errors r) (x_vulkan_workloads r) (x_cuda_kernels r) (x_opencl_kernels r)
    (x_d3d_workloads r) (x_metal_workloads r) (x_webgpu_workloads r) (x_dmabuf_exports r)
    (x_dmabuf_imports r) (x_cross_vendor_allocations r) (x_cross_vendor_frees r).

Definition xstats_zero : mvgal_stats_t := mk_xstats 0 0 0 0 0 0 0 0 0 0 0 0 0 0 0 0.

(** ** Plans and frames *)

Definition MVGAL_EXECUTION_MAX_GPUS : Z := 16.
Definition MVGAL_EXECUTION_MAX_FRAMES : nat := 64.

Record mvgal_execution_plan_t : Type := mk_plan {
  pl_frame_id : Z;
  pl_workload_id : Z;
  pl_api : Z;
  pl_workload_type : mvgal_workload_type_t;
  pl_requested_strategy : mvgal_distribution_strategy_t;
  pl_applied_strategy : mvgal_distribution_strategy_t;
  pl_migration_method : mvgal_memory_copy_method_t;
  pl_selected_gpu_count : Z;
  pl_selected_gpus : list Z;
  pl_selected_gpu_mask : Z;
  pl_estimated_bytes : Z;
  pl_estimated_duration_ns : Z;
  pl_steam_mode : bool;
  pl_proton_mode : bool;
  pl_frame_pacing_enabled : bool;
  pl_cross_vendor : bool
}.
#[export] Instance plan_eta : Eta mvgal_execution_plan_t := fun r =>
  mk_plan (pl_frame_id r) (pl_workload_id r) (pl_api r) (pl_workload_type r) (pl_requested_strategy r)
    (pl_applied_strategy r) (pl_migration_method r) (pl_selected_gpu_count r) (pl_selected_gpus r)
    (pl_selected_gpu_mask r) (pl_estimated_bytes r) (pl_estimated_duration_ns r) (pl_steam_mode r)
    (pl_proton_mode r) (pl_frame_pacing_enabled r) (pl_cross_vendor r).

(** [memset] to 0; 0 is the first value of each enumeration. *)
Definition plan_zero : mvgal_execution_plan_t :=
  mk_plan 0 0 0 MVGAL_WORKLOAD_GRAPHICS MVGAL_STRATEGY_ROUND_ROBIN MVGAL_STRATEGY_ROUND_ROBIN
    MVGAL_MEMORY_COPY_CPU 0 (replicate 16 0) 0 0 0 false false false false.

Record mvgal_execution_frame_state_t : Type := mk_frame {
  fr_in_use : bool;
  fr_frame_id : Z;
  fr_context : option addr;
  fr_api : Z;
  fr_requested_strategy : mvgal_distribution_strategy_t;
  fr_applied_strategy : mvgal_distribution_strategy_t;
  fr_submit_count : Z;
  fr_present_count : Z;
  fr_selected_gpu_count : Z;
  fr_selected_gpus : list Z;
  fr_bytes_scheduled : Z;
  fr_bytes_migrated : Z;
  fr_start_time_ns : Z;
  fr_end_time_ns : Z;
  fr_active : bool;
  fr_steam_mode : bool;
  fr_proton_mode : bool;
  fr_low_latency : bool;
  fr_application_name : string;
  fr_last_plan : mvgal_execution_plan_t
}.
#[export] Instance frame_eta : Eta mvgal_execution_frame_state_t := fun r =>
  mk_frame (fr_in_use r) (fr_frame_id r) (fr_context r) (fr_api r) (fr_requested_strategy r)
    (fr_applied_strategy r) (fr_submit_count r) (fr_present_count r) (fr_selected_gpu_count r)
    (fr_selected_gpus r) (fr_bytes_scheduled r) (fr_bytes_migrated r) (fr_start_time_ns r)
    (fr_end_time_ns r) (fr_active r) (fr_steam_mode r) (fr_proton_mode r) (fr_low_latency r)
    (fr_application_name r) (fr_last_plan r).

Definition frame_zero : mvgal_execution_frame_state_t :=
  mk_frame false 0 None 0 MVGAL_STRATEGY_ROUND_ROBIN MVGAL_STRATEGY_ROUND_ROBIN 0 0 0 (replicate 16 0)
    0 0 0 0 false false false false "" plan_zero.
#[export] Instance frame_inhabited : Inhabited mvgal_execution_frame_state_t := populate frame_zero.

(** The lock is taken and released within each call, and no function called
    under it takes it again. *)
Record mvgal_execution_state_t : Type := mk_exec {
  es_initialized : bool;
  es_next_frame_id : Z;
  es_frames : list mvgal_execution_frame_state_t;
  es_stats : mvgal_stats_t
}.
#[export] Instance exec_eta : Eta mvgal_execution_state_t := fun r =>
  mk_exec (es_initialized r) (es_next_frame_id r) (es_frames r) (es_stats r).

Definition exec_zero : mvgal_execution_state_t :=
  mk_exec false 0 (replicate MVGAL_EXECUTION_MAX_FRAMES frame_zero) xstats_zero.

(** ** Contexts *)

Definition MVGAL_CONTEXT_MAGIC : Z := 1297499980. (* 0x4D56474C *)

Record mvgal_context_internal_t : Type := mk_ctx {
  cx_magic : Z;
  cx_id : Z;
  cx_enabled : bool;
  cx_strategy : mvgal_distribution_strategy_t
}.
#[export] Instance ctx_eta : Eta mvgal_context_internal_t := fun r =>
  mk_ctx (cx_magic r) (cx_id r) (cx_enabled r) (cx_strategy r).

Record mvgal_state_t : Type := mk_api {
  as_flags : Z;
  as_initialized : bool;
  as_refcount : Z;
  as_current_context : option addr
}.
#[export] Instance api_eta : Eta mvgal_state_t := fun r =>
  mk_api (as_flags r) (as_initialized r) (as_refcount r) (as_current_context r).

(** ** The library

    The GPU manager is the one in the record of the scheduler; the record of
    the memory manager gets it for the time of a call. *)
Record library : Type := mk_lib {
  lib_api : mvgal_state_t;
  lib_contexts : gmap positive mvgal_context_internal_t;
  lib_exec : mvgal_execution_state_t;
  lib_sched : mvgal_scheduler_state_t;
  lib_mem : mvgal_memory_state_t;
  lib_config : config_state;
  lib_monitor : mvgal_health_monitor_state_t
}.
#[export] Instance lib_eta : Eta library := fun r =>
  mk_lib (lib_api r) (lib_contexts r) (lib_exec r) (lib_sched r) (lib_mem r) (lib_config r) (lib_monitor r).

Abbreviation LM := (M library).

Definition lib_manager (l : library) : mvgal_gpu_manager_state_t := ss_gm (lib_sched l).

Definition on_sched {A : Type} (m : SM A) : LM A := fun l =>
  match m (lib_sched l) with
  | Ret (a, s) => Ret (a, l <| lib_sched := s |>)
  | Fault e => Fault e
  | NoFuel => NoFuel
  end.

Definition on_gpus {A : Type} (f : mvgal_gpu_manager_state_t -> A * mvgal_gpu_manager_state_t) : LM A := fun l =>
  let '(a, g) := f (lib_manager l) in Ret (a, l <| lib_sched ::= fun s => s <| ss_gm := g |> |>).

Definition on_memory {A : Type} (m : MM A) : LM A := fun l =>
  match m ((lib_mem l) <| ms_manager := lib_manager l |>) with
  | Ret (a, s) => Ret (a, l <| lib_mem := s |> <| lib_sched ::= fun t => t <| ss_gm := ms_manager s |> |>)
  | Fault e => Fault e
  | NoFuel => NoFuel
  end.

Definition on_config {A : Type} (m : KM A) : LM A := fun l =>
  match m (lib_config l) with
  | Ret (a, s) => Ret (a, l <| lib_config := s |>)
  | Fault e => Fault e
  | NoFuel => NoFuel
  end.

Definition set_exec (f : mvgal_execution_state_t -> mvgal_execution_state_t) : LM unit :=
  modify (fun l => l <| lib_exec ::= f |>).

(** ** Start and stop of the execution module *)

Definition mvgal_execution_module_init : LM mvgal_error_t :=
  initialized ← reads (fun l => es_initialized (lib_exec l));
  if initialized : bool then mret MVGAL_ERROR_ALREADY_INITIALIZED else
  set_exec (fun e => e <| es_stats := xstats_zero |>
    <| es_frames := replicate MVGAL_EXECUTION_MAX_FRAMES frame_zero |>
    <| es_next_frame_id := 1 |> <| es_initialized := true |>);;
  mret MVGAL_SUCCESS.

Definition mvgal_execution_module_shutdown : LM unit :=
  initialized ← reads (fun l => es_initialized (lib_exec l));
  if negb initialized then mret tt else set_exec (fun _ => exec_zero).

(** [stats] is whether the pointer is not [NULL]. *)
Definition mvgal_execution_get_stats_internal (stats : bool) : LM (mvgal_error_t * option mvgal_stats_t) :=
  if negb stats then mret (MVGAL_ERROR_INVALID_ARGUMENT, None) else
  e ← reads lib_exec;
  if negb (es_initialized e) then mret (MVGAL_SUCCESS, Some xstats_zero)
  else mret (MVGAL_SUCCESS, Some (es_stats e)).

Definition mvgal_execution_reset_stats_internal : LM unit :=
  initialized ← reads (fun l => es_initialized (lib_exec l));
  if negb initialized then mret tt else set_exec (fun e => e <| es_stats := xstats_zero |>).
