(* ===== verification/Api.v ===== *)
(** * The public API

    src/userspace/api/mvgal_api.c: start and stop of the library in order of
    its modules, contexts, strategy and statistics. *)

From S2P Require Import Prelude Float32 CString GpuTypes GpuManager GpuHealth SchedTypes WorkQueue SchedSelect Strategies Scheduler.
From S2P Require Import SyncPrims CMem MemTypes Allocator MemoryApi Config ConfigText Library.
From stdpp Require Import strings.
Local Open Scope string_scope.
Local Open Scope Z_scope.

Section api.
Context `{GpuOS, SchedEnv, MemEnv, ConfigEnv}.

Definition set_api (f : mvgal_state_t -> mvgal_state_t) : LM unit := modify (fun l => l <| lib_api ::= f |>).

(** ** Start and stop *)

(** A module that was started before counts as started. *)
Definition started (err : mvgal_error_t) : bool :=
  match err with MVGAL_SUCCESS | MVGAL_ERROR_ALREADY_INITIALIZED => true | _ => false end.

Definition gpu_manager_init : LM mvgal_error_t :=
  on_gpus (fun g => (MVGAL_SUCCESS, mvgal_gpu_manager_init g)).

Definition gpu_manager_shutdown : LM unit := fun l =>
  let '(m, g) := mvgal_gpu_manager_shutdown (lib_monitor l) (lib_manager l) in
  Ret (tt, l <| lib_monitor := m |> <| lib_sched ::= fun s => s <| ss_gm := g |> |>).

Definition mvgal_init (flags : Z) : LM mvgal_error_t :=
  api ← reads lib_api;
  if as_initialized api then
    set_api (fun a => a <| as_refcount ::= fun n => u32 (n + 1) |>);; mret MVGAL_SUCCESS
  else
  err ← on_config mvgal_config_init;
  if negb (is_success err) then mret err else
  err ← gpu_manager_init;
  if negb (is_success err) then on_config mvgal_config_shutdown;; mret err else
  err ← on_memory mvgal_memory_module_init;
  if negb (started err) then
    gpu_manager_shutdown;; on_config mvgal_config_shutdown;; mret err
  else
  err ← on_sched mvgal_scheduler_module_init;
  if negb (started err) then
    on_memory mvgal_memory_module_shutdown;; gpu_manager_shutdown;; on_config mvgal_config_shutdown;; mret err
  else
  err ← mvgal_execution_module_init;
  if negb (started err) then
    on_sched mvgal_scheduler_module_shutdown;; on_memory mvgal_memory_module_shutdown;;
    gpu_manager_shutdown;; on_config mvgal_config_shutdown;; mret err
  else
  set_api (fun a => a <| as_flags := flags |> <| as_initialized := true |> <| as_refcount := 1 |>
    <| as_current_context := None |>);;
  mret MVGAL_SUCCESS.

(** A failure to load is only logged. *)
Definition mvgal_init_with_config (config_path : option string) (flags : Z) : LM mvgal_error_t :=
  match config_path with
  | None => mvgal_init flags
  | Some _ => on_config (mvgal_config_load config_path);; mvgal_init flags
  end.

(** ** Contexts *)

Definition context_at (p : addr) : LM mvgal_context_internal_t := fun l =>
  match lib_contexts l !! p with Some c => Ret (c, l) | None => Fault UseAfterFree end.

Definition mvgal_context_create (context : bool) : LM (mvgal_error_t * option addr) :=
  if negb context then mret (MVGAL_ERROR_INVALID_ARGUMENT, None) else
  api ← reads lib_api;
  err ← (if as_initialized api then mret MVGAL_SUCCESS else mvgal_init 0);
  if negb (is_success err) then mret (err, None) else
  ok ← on_sched calloc;
  if negb ok then mret (MVGAL_ERROR_OUT_OF_MEMORY, None) else
  l ← get;
  let p := fresh (dom (lib_contexts l)) in
  modify (fun l => l <| lib_contexts ::= <[p := mk_ctx MVGAL_CONTEXT_MAGIC 1 true MVGAL_STRATEGY_HYBRID]> |>);;
  mret (MVGAL_SUCCESS, Some p).

Definition mvgal_context_destroy (context : option addr) : LM unit :=
  match context with
  | None => mret tt
  | Some p =>
      ctx ← context_at p;
      if negb (cx_magic ctx =? MVGAL_CONTEXT_MAGIC) then mret tt else
      set_api (fun a => if bool_decide (as_current_context a = context)
                        then a <| as_current_context := None |> else a);;
      modify (fun l => l <| lib_contexts ::= delete p |>)
  end.

Definition mvgal_context_set_current (context : option addr) : LM mvgal_error_t :=
  valid ← match context with
          | None => mret true
          | Some p => ctx ← context_at p; mret (cx_magic ctx =? MVGAL_CONTEXT_MAGIC)
          end;
  if negb valid then mret MVGAL_ERROR_INVALID_ARGUMENT else
  set_api (fun a => a <| as_current_context := context |>);; mret MVGAL_SUCCESS.

Definition mvgal_context_get_current : LM (option addr) := reads (fun l => as_current_context (lib_api l)).

Definition mvgal_shutdown : LM unit :=
  api ← reads lib_api;
  if negb (as_initialized api) then mret tt else
  set_api (fun a => a <| as_refcount ::= fun n => u32 (n - 1) |>);;
  if 0 <? u32 (as_refcount api - 1) then mret tt else
  (match as_current_context api with
   | None => mret tt
   | Some _ =>
       mvgal_context_destroy (as_current_context api);;
       set_api (fun a => a <| as_current_context := None |>)
   end);;
  mvgal_execution_module_shutdown;;
  on_sched mvgal_scheduler_module_shutdown;;
  on_memory mvgal_memory_module_shutdown;;
  gpu_manager_shutdown;;
  on_config mvgal_config_shutdown;;
  set_api (fun a => a <| as_initialized := false |> <| as_flags := 0 |>).

(** ** Queries *)

Definition MVGAL_VERSION_MAJOR : Z := 0.
Definition MVGAL_VERSION_MINOR : Z := 2.
Definition MVGAL_VERSION_PATCH : Z := 2.

Definition mvgal_get_version_numbers (major minor patch : bool) : option Z * option Z * option Z :=
  (if major then Some MVGAL_VERSION_MAJOR else None, if minor then Some MVGAL_VERSION_MINOR else None,
   if patch then Some MVGAL_VERSION_PATCH else None).

Definition mvgal_get_version : string :=
  print_u MVGAL_VERSION_MAJOR +:+ "." +:+ print_u MVGAL_VERSION_MINOR +:+ "." +:+ print_u MVGAL_VERSION_PATCH.

Definition mvgal_is_initialized : LM bool := reads (fun l => as_initialized (lib_api l)).

Definition mvgal_is_enabled : LM bool := reads (fun l =>
  as_initialized (lib_api l) && negb (Z.land (as_flags (lib_api l)) 1 =? 0)).

Definition mvgal_set_enabled (enabled : bool) : LM unit :=
  initialized ← mvgal_is_initialized;
  if negb initialized then mret tt else
  set_api (fun a => a <| as_flags ::= fun f => if enabled then Z.lor f 1 else Z.land f (U32_MAX - 1) |>).

(** [mvgal_flush], [mvgal_finish] and [mvgal_wait_idle] have this body. *)
Definition mvgal_flush : LM mvgal_error_t :=
  initialized ← mvgal_is_initialized;
  mret (if initialized : bool then MVGAL_SUCCESS else MVGAL_ERROR_NOT_INITIALIZED).
Definition mvgal_finish : LM mvgal_error_t := mvgal_flush.
Definition mvgal_wait_idle : LM mvgal_error_t := mvgal_flush.

(** ** Strategy *)

(** The context a call is for. *)
Definition context_or_current (context : option addr) (api : mvgal_state_t) : option addr :=
  match context with
  | Some _ => context
  | None => if as_initialized api then as_current_context api else None
  end.

Definition mvgal_set_strategy (context : option addr) (strategy : mvgal_distribution_strategy_t)
  : LM mvgal_error_t :=
  api ← reads lib_api;
  if bool_decide (context = None) && negb (as_initialized api) then mret MVGAL_ERROR_NOT_INITIALIZED else
  match context_or_current context api with
  | None => mret MVGAL_ERROR_INVALID_ARGUMENT
  | Some p =>
      ctx ← context_at p;
      if negb (cx_magic ctx =? MVGAL_CONTEXT_MAGIC) then mret MVGAL_ERROR_INVALID_ARGUMENT else
      modify (fun l => l <| lib_contexts ::= <[p := ctx <| cx_strategy := strategy |>]> |>);;
      on_sched (fun s => Ret (mvgal_scheduler_set_strategy strategy s));;
      mret MVGAL_SUCCESS
  end.

Definition mvgal_get_strategy (context : option addr) : LM mvgal_distribution_strategy_t :=
  api ← reads lib_api;
  match context_or_current context api with
  | None => mret MVGAL_STRATEGY_HYBRID
  | Some p =>
      ctx ← context_at p;
      mret (if cx_magic ctx =? MVGAL_CONTEXT_MAGIC then cx_strategy ctx else MVGAL_STRATEGY_HYBRID)
  end.

(** ** Statistics *)

Definition merge_stats (x : mvgal_stats_t) (st : mvgal_scheduler_stats_t) : mvgal_stats_t :=
  x <| x_frames_submitted ::= fun n => if n =? 0 then st_workloads_submitted st else n |>
    <| x_frames_completed ::= fun n => if n =? 0 then st_workloads_completed st else n |>
    <| x_workloads_distributed ::= fun n =>
         if n =? 0 then st_workloads_submitted st
         else if n <? st_workloads_submitted st then st_workloads_submitted st else n |>
    <| x_errors ::= fun n => u64 (n + st_workloads_failed st) |>.

Definition mvgal_get_stats (stats : bool) : LM (mvgal_error_t * option mvgal_stats_t) :=
  initialized ← mvgal_is_initialized;
  if negb initialized || negb stats then mret (MVGAL_ERROR_INVALID_ARGUMENT, None) else
  r ← mvgal_execution_get_stats_internal true;
  let x := match r with (MVGAL_SUCCESS, Some x) => x | _ => xstats_zero end in
  s ← reads lib_sched;
  match mvgal_scheduler_get_stats true s with
  | (MVGAL_SUCCESS, Some st) => mret (MVGAL_SUCCESS, Some (merge_stats x st))
  | _ => mret (MVGAL_SUCCESS, Some x)
  end.

Definition mvgal_reset_stats : LM mvgal_error_t :=
  initialized ← mvgal_is_initialized;
  if negb initialized then mret MVGAL_ERROR_NOT_INITIALIZED else
  on_sched (fun s => Ret (mvgal_scheduler_reset_stats s));;
  mvgal_execution_reset_stats_internal;;
  mret MVGAL_SUCCESS.

Definition mvgal_register_custom_splitter (splitter : option addr) : mvgal_error_t := MVGAL_ERROR_NOT_SUPPORTED.
Definition mvgal_unregister_custom_splitter (splitter : option addr) : mvgal_error_t := MVGAL_ERROR_NOT_SUPPORTED.
End api.
