(* ===== verification/Execution.v ===== *)
(** * The execution engine

    src/userspace/execution/execution.c: frames, the plan of a submission and
    its way through the scheduler, presentation, migration of memory, and the
    profile for Steam.  A call runs to completion before the next. *)

From S2P Require Import Prelude Float32 CString GpuTypes GpuManager GpuHealth SchedTypes WorkQueue SchedSelect Strategies Scheduler.
From S2P Require Import SyncPrims CMem MemTypes Allocator MemoryApi Config ConfigText Library Api.
From stdpp Require Import strings.
Local Open Scope string_scope.
Local Open Scope Z_scope.

(** The environment variables of the process. *)
Class ProcessEnv : Type := { getenv : string -> option string }.

(** ** Arguments (include/mvgal/mvgal_execution.h) *)

Record mvgal_execution_frame_begin_info_t : Type := mk_begin {
  bi_api : Z;
  bi_requested_strategy : mvgal_distribution_strategy_t;
  bi_application_name : option string;
  bi_steam_mode : bool;
  bi_proton_mode : bool;
  bi_low_latency : bool
}.

(** The fields of the telemetry that the engine reads. *)
Record mvgal_workload_telemetry_t : Type := mk_telemetry {
  te_type : mvgal_workload_type_t;
  te_step_name : option string;
  te_data_size : Z;
  te_is_frame_end : bool;
  te_is_present : bool
}.

Record mvgal_execution_submit_info_t : Type := mk_submit {
  xi_frame_id : Z;
  xi_api : Z;
  xi_requested_strategy : mvgal_distribution_strategy_t;
  xi_telemetry : mvgal_workload_telemetry_t;
  xi_resource_bytes : Z;
  xi_command_buffer_count : Z;
  xi_queue_family_flags : Z;
  xi_gpu_mask : Z
}.
#[export] Instance submit_eta : Eta mvgal_execution_submit_info_t := fun r =>
  mk_submit (xi_frame_id r) (xi_api r) (xi_requested_strategy r) (xi_telemetry r) (xi_resource_bytes r)
    (xi_command_buffer_count r) (xi_queue_family_flags r) (xi_gpu_mask r).

Record mvgal_execution_frame_stats_t : Type := mk_fstats {
  fs_frame_id : Z;
  fs_api : Z;
  fs_applied_strategy : mvgal_distribution_strategy_t;
  fs_submit_count : Z;
  fs_present_count : Z;
  fs_selected_gpu_count : Z;
  fs_selected_gpus : list Z;
  fs_bytes_scheduled : Z;
  fs_bytes_migrated : Z;
  fs_start_time_ns : Z;
  fs_end_time_ns : Z;
  fs_active : bool;
  fs_steam_mode : bool;
  fs_proton_mode : bool;
  fs_low_latency : bool;
  fs_application_name : string
}.

Record mvgal_execution_migration_info_t : Type := mk_migration {
  mi_src_buffer : option addr;
  mi_src_offset : Z;
  mi_dst_buffer : option addr;
  mi_dst_offset : Z;
  mi_size : Z;
  mi_src_gpu_index : Z;
  mi_dst_gpu_index : Z;
  mi_prefer_zero_copy : bool;
  mi_allow_cpu_fallback : bool
}.

Record mvgal_execution_migration_result_t : Type := mk_migrated {
  mr_method : mvgal_memory_copy_method_t;
  mr_bytes_migrated : Z;
  mr_src_gpu_index : Z;
  mr_dst_gpu_index : Z;
  mr_zero_copy : bool;
  mr_cross_vendor : bool
}.

Record mvgal_steam_profile_request_t : Type := mk_request {
  rq_preferred_strategy : mvgal_distribution_strategy_t;
  rq_steam_mode : bool;
  rq_proton_mode : bool;
  rq_enable_vulkan_layer : bool;
  rq_enable_d3d_wrapper : bool;
  rq_low_latency : bool
}.

Record mvgal_steam_profile_t : Type := mk_profile {
  sp_strategy : mvgal_distribution_strategy_t;
  sp_gpu_count : Z;
  sp_gpu_indices : list Z;
  sp_steam_mode : bool;
  sp_proton_mode : bool;
  sp_low_latency : bool;
  sp_env_block : string;
  sp_launch_options : string
}.

(** ** Pure parts *)

Definition MVGAL_WORKLOAD_UNKNOWN : mvgal_workload_type_t := MVGAL_WORKLOAD_API_SPECIFIC 100.

Definition normalize_workload_type (info : mvgal_execution_submit_info_t) : mvgal_workload_type_t :=
  let t := xi_telemetry info in
  if negb (bool_decide (te_type t = MVGAL_WORKLOAD_UNKNOWN)) then te_type t
  else if has_flag (xi_queue_family_flags info) 1 || te_is_present t then MVGAL_WORKLOAD_GRAPHICS
  else if has_flag (xi_queue_family_flags info) 2 then MVGAL_WORKLOAD_COMPUTE
  else if 0 <? te_data_size t then MVGAL_WORKLOAD_TRANSFER
  else MVGAL_WORKLOAD_GRAPHICS.

(** Vulkan 10, its commands 11, D3D queues 31 and pipelines 32 count as
    graphics; CUDA kernels 20 and OpenCL kernels 70 as computation. *)
Definition base_duration (type : mvgal_workload_type_t) : Z :=
  match type with
  | MVGAL_WORKLOAD_GRAPHICS => 2000000
  | MVGAL_WORKLOAD_COMPUTE | MVGAL_WORKLOAD_AI => 1500000
  | MVGAL_WORKLOAD_TRANSFER => 800000
  | MVGAL_WORKLOAD_API_SPECIFIC c =>
      if bool_decide (c ∈ [10; 11; 31; 32]) then 2000000
      else if bool_decide (c ∈ [20; 70]) then 1500000 else 500000
  | _ => 500000
  end.

Definition estimate_duration_ns (type : mvgal_workload_type_t) (resource_bytes command_buffer_count : Z) : Z :=
  u64 (u64 (base_duration type + command_buffer_count * 250000) + (resource_bytes / 1048576) * 150000).

Definition strategy_to_string (strategy : mvgal_distribution_strategy_t) : string :=
  match strategy with
  | MVGAL_STRATEGY_AFR => "afr"
  | MVGAL_STRATEGY_SFR => "sfr"
  | MVGAL_STRATEGY_TASK => "task"
  | MVGAL_STRATEGY_COMPUTE_OFFLOAD => "compute_offload"
  | MVGAL_STRATEGY_HYBRID => "hybrid"
  | MVGAL_STRATEGY_SINGLE_GPU => "single"
  | MVGAL_STRATEGY_ROUND_ROBIN => "round_robin"
  | _ => "hybrid"
  end.

(** The strategies that need more than one GPU. *)
Definition spreads (strategy : mvgal_distribution_strategy_t) : bool :=
  match strategy with
  | MVGAL_STRATEGY_AFR | MVGAL_STRATEGY_SFR | MVGAL_STRATEGY_TASK | MVGAL_STRATEGY_HYBRID
  | MVGAL_STRATEGY_COMPUTE_OFFLOAD => true
  | _ => false
  end.

(** [choose_strategy], given the number of enabled GPUs and the strategy that
    stands for an automatic request.  Its only caller passes a frame. *)
Definition decide_strategy (enabled_gpu_count : Z) (fallback : mvgal_distribution_strategy_t)
    (frame : mvgal_execution_frame_state_t) (info : mvgal_execution_submit_info_t) : mvgal_distribution_strategy_t :=
  let requested := xi_requested_strategy info in
  let requested := if bool_decide (requested = MVGAL_STRATEGY_AUTO) then fallback else requested in
  let requested := if bool_decide (requested = MVGAL_STRATEGY_AUTO) then MVGAL_STRATEGY_HYBRID else requested in
  let type := normalize_workload_type info in
  let several := 1 <? enabled_gpu_count in
  if negb several && spreads requested then MVGAL_STRATEGY_SINGLE_GPU
  else if negb (bool_decide (requested = MVGAL_STRATEGY_HYBRID)) then requested
  else if (fr_steam_mode frame || fr_proton_mode frame) && bool_decide (type = MVGAL_WORKLOAD_GRAPHICS) && several
  then MVGAL_STRATEGY_AFR
  else if (bool_decide (type = MVGAL_WORKLOAD_COMPUTE) || bool_decide (type = MVGAL_WORKLOAD_AI)) && several
  then MVGAL_STRATEGY_COMPUTE_OFFLOAD
  else if bool_decide (type = MVGAL_WORKLOAD_TRANSFER) && several then MVGAL_STRATEGY_TASK
  else if bool_decide (type = MVGAL_WORKLOAD_GRAPHICS) && (67108864 <=? xi_resource_bytes info) && several
  then MVGAL_STRATEGY_SFR
  else if several then MVGAL_STRATEGY_AFR
  else MVGAL_STRATEGY_SINGLE_GPU.

(** ** Frames *)

Definition find_frame_state (frame_id : Z) (frames : list mvgal_execution_frame_state_t) : option nat :=
  fst <$> list_find (fun f => fr_in_use f = true /\ fr_frame_id f = frame_id) frames.

(** The last frame that is not active, the first one when all are. *)
Fixpoint last_inactive (i : nat) (replacement : nat) (frames : list mvgal_execution_frame_state_t) : nat :=
  match frames with
  | [] => replacement
  | f :: rest => last_inactive (S i) (if fr_active f then replacement else i) rest
  end.

Definition allocate_frame_state (frames : list mvgal_execution_frame_state_t) : nat :=
  match list_find (fun f => fr_in_use f = false) frames with
  | Some (i, _) => i
  | None => last_inactive 0 0 frames
  end.

Definition store_frame (i : nat) (f : mvgal_execution_frame_state_t) : LM unit :=
  set_exec (fun e => e <| es_frames ::= <[i := f]> |>).

(** A copy into the 128 bytes of [application_name]. *)
Definition label (name : string) : string := String.substring 0 127 name.

Section execution.
Context `{GpuOS, SchedEnv, MemEnv, ConfigEnv, ProcessEnv}.

Definition execution_get_time_ns : LM Z := on_sched get_time_ns.

Definition env_enabled (name : string) : bool :=
  match getenv name with
  | None => false
  | Some value => negb (bool_decide (value = "0")) && negb (bool_decide (value = ""))
  end.

Definition detect_steam_mode : bool :=
  env_enabled "STEAM_GAME_ID" || env_enabled "SteamGameId" || env_enabled "STEAM_COMPAT_CLIENT_INSTALL_PATH".

Definition detect_proton_mode : bool :=
  env_enabled "STEAM_COMPAT_DATA_PATH" || env_enabled "PROTON_VERSION" || env_enabled "WINEPREFIX".

(** The enabled ones among the GPUs [i, i + 1, ...], at most [room]. *)
Fixpoint enabled_gpus (n : nat) (i room : Z) : LM (list Z) :=
  match n with
  | O => mret []
  | S n' =>
      if room <=? 0 then mret [] else
      enabled ← on_gpus (mvgal_gpu_is_enabled i);
      if negb enabled then enabled_gpus n' (i + 1) room
      else rest ← enabled_gpus n' (i + 1) (room - 1); mret (i :: rest)
  end.

(** The mask and the list of GPUs; the number is the length of the list. *)
Definition build_enabled_gpu_mask : LM (Z * list Z) :=
  count ← on_gpus mvgal_gpu_get_count;
  if count <=? 0 then mret (0, []) else
  gpus ← enabled_gpus (Z.to_nat count) 0 MVGAL_EXECUTION_MAX_GPUS;
  mret (foldl (fun m i => Z.lor m (bit i)) 0 gpus, gpus).

Definition ensure_execution_initialized : LM mvgal_error_t :=
  initialized ← mvgal_is_initialized;
  err ← (if initialized : bool then mret MVGAL_SUCCESS else mvgal_init 0);
  if negb (started err) then mret err else
  e ← reads lib_exec;
  if es_initialized e then mret MVGAL_SUCCESS else mvgal_execution_module_init.

(** The context a call works with, or the error. *)
Definition resolve_context (context : option addr) : LM (mvgal_error_t * option addr) :=
  match context with
  | Some _ => mret (MVGAL_SUCCESS, context)
  | None =>
      current ← mvgal_context_get_current;
      match current with
      | Some _ => mret (MVGAL_SUCCESS, current)
      | None =>
          r ← mvgal_context_create true;
          if negb (is_success r.1) then mret r else
          err ← mvgal_context_set_current r.2;
          mret (err, r.2)
      end
  end.

(** Both, as every call does them. *)
Definition prepare (context : option addr) : LM (mvgal_error_t * option addr) :=
  err ← ensure_execution_initialized;
  if negb (started err) then mret (err, None) else resolve_context context.

(** ** Planning *)

Definition choose_strategy (context : option addr) (frame : mvgal_execution_frame_state_t)
    (info : mvgal_execution_submit_info_t) : LM mvgal_distribution_strategy_t :=
  enabled ← build_enabled_gpu_mask;
  mret (decide_strategy (Z.of_nat (length enabled.2)) (fr_requested_strategy frame) frame info).

(** The first vendor is the first that is not unknown. *)
Fixpoint detect_cross_vendor (gpus : list Z) (first_vendor : mvgal_vendor_t) : LM bool :=
  match gpus with
  | [] => mret false
  | i :: rest =>
      r ← on_gpus (mvgal_gpu_get_descriptor i true);
      match r with
      | (MVGAL_SUCCESS, Some gpu) =>
          if bool_decide (first_vendor = MVGAL_VENDOR_UNKNOWN) then detect_cross_vendor rest (g_vendor gpu)
          else if negb (bool_decide (g_vendor gpu = first_vendor)) then mret true
          else detect_cross_vendor rest first_vendor
      | _ => detect_cross_vendor rest first_vendor
      end
  end.

(** [1ULL << i]. *)
Definition shift_one (i : Z) : LM Z := if i <? 64 then mret (bit i) else fails BadShift.

Fixpoint gpu_mask_of (gpus : list Z) (mask : Z) : LM Z :=
  match gpus with
  | [] => mret mask
  | i :: rest => b ← shift_one i; gpu_mask_of rest (Z.lor mask b)
  end.

Definition select_gpus (gpus : list Z) (mask : Z) (plan : mvgal_execution_plan_t) : mvgal_execution_plan_t :=
  plan <| pl_selected_gpu_count := Z.of_nat (length gpus) |> <| pl_selected_gpus ::= overwrite gpus |>
       <| pl_selected_gpu_mask := mask |>.

Definition populate_plan_gpu_selection (plan : mvgal_execution_plan_t) (w : mvgal_workload)
  : LM mvgal_execution_plan_t :=
  if 0 <? w_assigned_gpu_count w then
    if MVGAL_EXECUTION_MAX_GPUS <? w_assigned_gpu_count w then fails OutOfBounds else
    let gpus := take (Z.to_nat (w_assigned_gpu_count w)) (w_assigned_gpus w) in
    mask ← gpu_mask_of gpus 0;
    mret (select_gpus gpus mask plan)
  else if negb (d_assigned_gpu (w_descriptor w) =? NO_GPU) then
    mask ← gpu_mask_of [d_assigned_gpu (w_descriptor w)] 0;
    mret (select_gpus [d_assigned_gpu (w_descriptor w)] mask plan)
  else
    enabled ← build_enabled_gpu_mask;
    match enabled.2 with
    | [] => mret (select_gpus [] 0 plan)
    | g :: _ => mask ← gpu_mask_of [g] 0; mret (select_gpus [g] mask plan)
    end.

(** The passes a submission needs on the queue it finds. *)
Definition passes (s : mvgal_scheduler_state_t) : nat := S (Z.to_nat (q_count (ss_ready_queue s))).

(** The submission under the strategy of the plan, which is set for its time;
    the handle is destroyed once the plan has its GPUs. *)
Definition submit_with_strategy (context : option addr) (submit_info : mvgal_workload_submit_info_t)
    (plan : mvgal_execution_plan_t) : LM (mvgal_error_t * mvgal_execution_plan_t) :=
  s ← reads lib_sched;
  let previous := mvgal_scheduler_get_strategy s in
  on_sched (fun s => Ret (mvgal_scheduler_set_strategy (pl_applied_strategy plan) s));;
  r ← on_sched (mvgal_workload_submit (passes s) context (Some submit_info) true);
  on_sched (fun s => Ret (mvgal_scheduler_set_strategy previous s));;
  match r with
  | (MVGAL_SUCCESS, Some p) =>
      w ← on_sched (SchedTypes.deref p);
      plan ← populate_plan_gpu_selection (plan <| pl_workload_id := d_id (w_descriptor w) |>) w;
      cross ← detect_cross_vendor (take (Z.to_nat (pl_selected_gpu_count plan)) (pl_selected_gpus plan))
                MVGAL_VENDOR_UNKNOWN;
      on_sched (mvgal_workload_destroy (Some p));;
      mret (MVGAL_SUCCESS, plan <| pl_cross_vendor := cross |>)
  | (err, _) => mret (err, plan)
  end.

Definition submit_scheduler_workload (context : option addr) (info : mvgal_execution_submit_info_t)
    (plan : mvgal_execution_plan_t) : LM (mvgal_error_t * mvgal_execution_plan_t) :=
  let t := xi_telemetry info in
  deadline ← (if te_is_present t then now ← execution_get_time_ns; mret (u64 (now + 16000000)) else mret 0);
  gpu_mask ← (if negb (xi_gpu_mask info =? 0) then mret (xi_gpu_mask info)
              else enabled ← build_enabled_gpu_mask; mret enabled.1);
  submit_with_strategy context
    (mk_info (pl_workload_type plan) (if te_is_present t then 95 else if te_is_frame_end t then 90 else 70)
       deadline gpu_mask 0 None None) plan.

(** The path between the first two selected GPUs. *)
Definition migration_method (plan : mvgal_execution_plan_t) : LM mvgal_memory_copy_method_t :=
  if 1 <? pl_selected_gpu_count plan
  then on_memory (mvgal_dmabuf_get_copy_method (pl_selected_gpus plan !!! 0%nat) (pl_selected_gpus plan !!! 1%nat))
  else mret MVGAL_MEMORY_COPY_CPU.

(** ** Calls *)

Definition frame_name (info : mvgal_execution_frame_begin_info_t) (steam proton : bool) : string :=
  match bi_application_name info with
  | Some name => label name
  | None => if proton then "proton" else if steam then "steam" else "mvgal"
  end.

(** The frame a call stores; [strategy] is that of the context. *)
Definition new_frame (id : Z) (context : option addr) (info : mvgal_execution_frame_begin_info_t)
    (strategy : mvgal_distribution_strategy_t) (now : Z) : mvgal_execution_frame_state_t :=
  let requested := if bool_decide (bi_requested_strategy info = MVGAL_STRATEGY_AUTO)
                   then strategy else bi_requested_strategy info in
  let steam := bi_steam_mode info || detect_steam_mode in
  let proton := bi_proton_mode info || detect_proton_mode in
  frame_zero <| fr_in_use := true |> <| fr_active := true |> <| fr_frame_id := id |>
    <| fr_context := context |> <| fr_api := bi_api info |> <| fr_requested_strategy := requested |>
    <| fr_applied_strategy := requested |> <| fr_steam_mode := steam |> <| fr_proton_mode := proton |>
    <| fr_low_latency := bi_low_latency info || steam || proton |> <| fr_start_time_ns := now |>
    <| fr_application_name := frame_name info steam proton |>.

(** [frame_id] is whether the pointer is not [NULL]. *)
Definition mvgal_execution_begin_frame (context : option addr)
    (info : option mvgal_execution_frame_begin_info_t) (frame_id : bool) : LM (mvgal_error_t * option Z) :=
  match info, frame_id with
  | Some info, true =>
      r ← prepare context;
      if negb (is_success r.1) then mret (r.1, None) else
      let context := r.2 in
      e ← reads lib_exec;
      let id := es_next_frame_id e in
      set_exec (fun e => e <| es_next_frame_id ::= fun n => u64 (n + 1) |>);;
      strategy ← (if bool_decide (bi_requested_strategy info = MVGAL_STRATEGY_AUTO)
                  then mvgal_get_strategy context else mret MVGAL_STRATEGY_AUTO);
      now ← execution_get_time_ns;
      store_frame (allocate_frame_state (es_frames e)) (new_frame id context info strategy now);;
      set_exec (fun e => e <| es_stats ::= fun x => x <| x_frames_submitted ::= fun n => u64 (n + 1) |> |>);;
      mret (MVGAL_SUCCESS, Some id)
  | _, _ => mret (MVGAL_ERROR_INVALID_ARGUMENT, None)
  end.

(** The count of the API a submission came from. *)
Definition count_api (api : Z) (x : mvgal_stats_t) : mvgal_stats_t :=
  if api =? MVGAL_API_VULKAN then x <| x_vulkan_workloads ::= fun n => u64 (n + 1) |>
  else if api =? MVGAL_API_CUDA then x <| x_cuda_kernels ::= fun n => u64 (n + 1) |>
  else if api =? MVGAL_API_OPENCL then x <| x_opencl_kernels ::= fun n => u64 (n + 1) |>
  else if (api =? MVGAL_API_D3D11) || (api =? MVGAL_API_D3D12)
  then x <| x_d3d_workloads ::= fun n => u64 (n + 1) |>
  else if api =? MVGAL_API_METAL then x <| x_metal_workloads ::= fun n => u64 (n + 1) |>
  else if api =? MVGAL_API_WEBGPU then x <| x_webgpu_workloads ::= fun n => u64 (n + 1) |>
  else x.

Definition frame_strategy (strategy : mvgal_distribution_strategy_t) : bool :=
  match strategy with MVGAL_STRATEGY_AFR | MVGAL_STRATEGY_SFR => true | _ => false end.

(** The plan before the scheduler is asked. *)
Definition draft_plan (frame : mvgal_execution_frame_state_t) (info : mvgal_execution_submit_info_t)
    (applied : mvgal_distribution_strategy_t) : mvgal_execution_plan_t :=
  let bytes := u64 (xi_resource_bytes info + te_data_size (xi_telemetry info)) in
  plan_zero <| pl_frame_id := fr_frame_id frame |> <| pl_api := xi_api info |>
    <| pl_workload_type := normalize_workload_type info |>
    <| pl_requested_strategy := if bool_decide (xi_requested_strategy info = MVGAL_STRATEGY_AUTO)
                                then fr_requested_strategy frame else xi_requested_strategy info |>
    <| pl_applied_strategy := applied |> <| pl_estimated_bytes := bytes |>
    <| pl_estimated_duration_ns :=
         estimate_duration_ns (normalize_workload_type info) bytes (xi_command_buffer_count info) |>
    <| pl_steam_mode := fr_steam_mode frame |> <| pl_proton_mode := fr_proton_mode frame |>
    <| pl_frame_pacing_enabled := fr_low_latency frame && frame_strategy applied |>.

(** What a submission leaves in its frame. *)
Definition submitted_frame (plan : mvgal_execution_plan_t) (f : mvgal_execution_frame_state_t)
  : mvgal_execution_frame_state_t :=
  f <| fr_submit_count ::= fun n => u32 (n + 1) |>
    <| fr_bytes_scheduled ::= fun n => u64 (n + pl_estimated_bytes plan) |>
    <| fr_applied_strategy := pl_applied_strategy plan |>
    <| fr_selected_gpu_count := pl_selected_gpu_count plan |>
    <| fr_selected_gpus := pl_selected_gpus plan |> <| fr_last_plan := plan |>.

Definition frame_at (i : nat) (e : mvgal_execution_state_t) : mvgal_execution_frame_state_t := es_frames e !!! i.

(** The submission to a frame that exists. *)
Definition submit_to_frame (context : option addr) (info : mvgal_execution_submit_info_t)
  : LM (mvgal_error_t * option mvgal_execution_plan_t) :=
  e ← reads lib_exec;
  match find_frame_state (xi_frame_id info) (es_frames e) with
  | None => mret (MVGAL_ERROR_NOT_FOUND, None)
  | Some i =>
      let frame := frame_at i e in
      applied ← choose_strategy context frame info;
      r ← submit_scheduler_workload context info (draft_plan frame info applied);
      if negb (is_success r.1) then mret (r.1, Some r.2) else
      method ← migration_method r.2;
      let plan := r.2 <| pl_migration_method := method |> in
      e ← reads lib_exec;
      (match find_frame_state (xi_frame_id info) (es_frames e) with
       | Some i => store_frame i (submitted_frame plan (frame_at i e))
       | None => mret tt
       end);;
      set_exec (fun e => e <| es_stats ::= fun x =>
        count_api (xi_api info) (x <| x_workloads_distributed ::= fun n => u64 (n + 1) |>) |>);;
      mret (MVGAL_SUCCESS, Some plan)
  end.

(** [plan] is whether the pointer is not [NULL]; the result is what is stored
    through it, [None] when nothing is. *)
Definition mvgal_execution_submit (context : option addr) (info : option mvgal_execution_submit_info_t)
    (plan : bool) : LM (mvgal_error_t * option mvgal_execution_plan_t) :=
  match info, plan with
  | Some info, true =>
      r ← prepare context;
      if negb (is_success r.1) then mret (r.1, None) else
      let context := r.2 in
      if negb (xi_frame_id info =? 0) then submit_to_frame context info else
      b ← mvgal_execution_begin_frame context
            (Some (mk_begin (xi_api info) (xi_requested_strategy info) (te_step_name (xi_telemetry info))
                     detect_steam_mode detect_proton_mode (te_is_present (xi_telemetry info)))) true;
      match b with
      | (MVGAL_SUCCESS, Some id) => submit_to_frame context (info <| xi_frame_id := id |>)
      | (err, _) => mret (err, None)
      end
  | _, _ => mret (MVGAL_ERROR_INVALID_ARGUMENT, None)
  end.

Definition present_plan (frame : mvgal_execution_frame_state_t) (api mask : Z) : mvgal_execution_plan_t :=
  plan_zero <| pl_frame_id := fr_frame_id frame |> <| pl_api := api |>
    <| pl_workload_type := MVGAL_WORKLOAD_GRAPHICS |>
    <| pl_requested_strategy := fr_requested_strategy frame |>
    <| pl_applied_strategy := fr_applied_strategy frame |>
    <| pl_estimated_bytes := fr_bytes_scheduled frame |>
    <| pl_estimated_duration_ns :=
         estimate_duration_ns MVGAL_WORKLOAD_GRAPHICS (fr_bytes_scheduled frame) (fr_submit_count frame) |>
    <| pl_steam_mode := fr_steam_mode frame |> <| pl_proton_mode := fr_proton_mode frame |>
    <| pl_frame_pacing_enabled := fr_low_latency frame && (1 <? fr_selected_gpu_count frame)
                                  && frame_strategy (fr_applied_strategy frame) |>
    <| pl_selected_gpu_count := fr_selected_gpu_count frame |>
    <| pl_selected_gpus := fr_selected_gpus frame |> <| pl_selected_gpu_mask := mask |>.

Definition presented_frame (plan : mvgal_execution_plan_t) (now : Z) (f : mvgal_execution_frame_state_t)
  : mvgal_execution_frame_state_t :=
  f <| fr_present_count ::= fun n => u32 (n + 1) |> <| fr_active := false |>
    <| fr_end_time_ns := now |> <| fr_last_plan := plan |>.

Definition mvgal_execution_present (context : option addr) (frame_id api : Z) (plan : bool)
  : LM (mvgal_error_t * option mvgal_execution_plan_t) :=
  if negb plan || (frame_id =? 0) then mret (MVGAL_ERROR_INVALID_ARGUMENT, None) else
  r ← prepare context;
  if negb (is_success r.1) then mret (r.1, None) else
  e ← reads lib_exec;
  match find_frame_state frame_id (es_frames e) with
  | None => mret (MVGAL_ERROR_NOT_FOUND, None)
  | Some i =>
      let frame := frame_at i e in
      let gpus := take (Z.to_nat (fr_selected_gpu_count frame)) (fr_selected_gpus frame) in
      mask ← gpu_mask_of gpus 0;
      cross ← detect_cross_vendor gpus MVGAL_VENDOR_UNKNOWN;
      let plan := (present_plan frame api mask) <| pl_cross_vendor := cross |> in
      method ← migration_method plan;
      let plan := plan <| pl_migration_method := method |> in
      now ← execution_get_time_ns;
      store_frame i (presented_frame plan now frame);;
      set_exec (fun e => e <| es_stats ::= fun x => x <| x_frames_completed ::= fun n => u64 (n + 1) |> |>);;
      mret (MVGAL_SUCCESS, Some plan)
  end.

Definition frame_stats (f : mvgal_execution_frame_state_t) : mvgal_execution_frame_stats_t :=
  mk_fstats (fr_frame_id f) (fr_api f) (fr_applied_strategy f) (fr_submit_count f) (fr_present_count f)
    (fr_selected_gpu_count f) (fr_selected_gpus f) (fr_bytes_scheduled f) (fr_bytes_migrated f)
    (fr_start_time_ns f) (fr_end_time_ns f) (fr_active f) (fr_steam_mode f) (fr_proton_mode f)
    (fr_low_latency f) (fr_application_name f).

Definition mvgal_execution_get_frame_stats (frame_id : Z) (stats : bool)
  : LM (mvgal_error_t * option mvgal_execution_frame_stats_t) :=
  if negb stats || (frame_id =? 0) then mret (MVGAL_ERROR_INVALID_ARGUMENT, None) else
  e ← reads lib_exec;
  if negb (es_initialized e) then mret (MVGAL_ERROR_NOT_INITIALIZED, None) else
  match find_frame_state frame_id (es_frames e) with
  | None => mret (MVGAL_ERROR_NOT_FOUND, None)
  | Some i => mret (MVGAL_SUCCESS, Some (frame_stats (frame_at i e)))
  end.

(** ** Migration *)

Definition mvgal_execution_migrate_memory (context : option addr)
    (info : option mvgal_execution_migration_info_t) (result : bool)
  : LM (mvgal_error_t * option mvgal_execution_migration_result_t) :=
  match info, result with
  | Some info, true =>
      if bool_decide (mi_src_buffer info = None) || bool_decide (mi_dst_buffer info = None)
      then mret (MVGAL_ERROR_INVALID_ARGUMENT, None) else
      let src := mi_src_gpu_index info in
      let dst := mi_dst_gpu_index info in
      r ← prepare context;
      if negb (is_success r.1) then mret (r.1, None) else
      method ← on_memory (mvgal_dmabuf_get_copy_method src dst);
      let by_cpu := match method with MVGAL_MEMORY_COPY_CPU => true | _ => false end in
      if mi_prefer_zero_copy info && negb (mi_allow_cpu_fallback info) && by_cpu && negb (src =? dst)
      then mret (MVGAL_ERROR_NOT_SUPPORTED, None) else
      err ← on_memory (mvgal_memory_copy_gpu (mi_src_buffer info) (mi_src_offset info)
              (mi_dst_buffer info) (mi_dst_offset info) (mi_size info) src dst None);
      if negb (is_success err) then mret (err, None) else
      src_gpu ← on_gpus (mvgal_gpu_get_descriptor src true);
      dst_gpu ← on_gpus (mvgal_gpu_get_descriptor dst true);
      let cross := match src_gpu, dst_gpu with
                   | (MVGAL_SUCCESS, Some a), (MVGAL_SUCCESS, Some b) => negb (bool_decide (g_vendor a = g_vendor b))
                   | _, _ => false
                   end in
      set_exec (fun e => e <| es_stats ::= fun x =>
        x <| x_bytes_transferred ::= fun n => u64 (n + mi_size info) |> |>);;
      mret (MVGAL_SUCCESS, Some (mk_migrated method (mi_size info) src dst (negb by_cpu) cross))
  | _, _ => mret (MVGAL_ERROR_INVALID_ARGUMENT, None)
  end.

(** ** The profile for Steam *)

(** [snprintf] into the rest of a buffer of [size] bytes that holds [text]. *)
Definition append_text (size : nat) (text piece : string) : string :=
  String.substring 0 (size - 1) (text +:+ piece).

(** The loop stops when the buffer is full. *)
Fixpoint gpu_list_from (first : bool) (gpus : list Z) (text : string) : string :=
  match gpus with
  | [] => text
  | g :: rest =>
      let piece := (if first then "" else ",") +:+ print_u g in
      if (128 <=? String.length text + String.length piece)%nat then append_text 128 text piece
      else gpu_list_from false rest (append_text 128 text piece)
  end.

Definition print_01 (b : bool) : string := if b then "1" else "0".

Definition newline : string := String (Ascii.ascii_of_nat 10) "".

Definition env_lines (rq : mvgal_steam_profile_request_t) (strategy : mvgal_distribution_strategy_t)
    (gpus : string) (low_latency steam proton : bool) : list string :=
  ["MVGAL_ENABLED=1"; "MVGAL_VULKAN_ENABLE=" +:+ print_01 (rq_enable_vulkan_layer rq);
   "MVGAL_STRATEGY=" +:+ strategy_to_string strategy; "MVGAL_GPUS=" +:+ gpus;
   "MVGAL_LOW_LATENCY=" +:+ print_01 low_latency; "MVGAL_STEAM_MODE=" +:+ print_01 steam;
   "MVGAL_PROTON_MODE=" +:+ print_01 proton]
  ++ (if rq_enable_vulkan_layer rq then ["MVGAL_VULKAN_DEBUG=0"] else [])
  ++ (if rq_enable_d3d_wrapper rq then ["MVGAL_D3D_ENABLED=1"] else []).

Definition launch_text (rq : mvgal_steam_profile_request_t) (strategy : mvgal_distribution_strategy_t)
    (gpus : string) (low_latency : bool) : string :=
  "MVGAL_ENABLED=1 MVGAL_VULKAN_ENABLE=" +:+ print_01 (rq_enable_vulkan_layer rq)
  +:+ " MVGAL_STRATEGY=" +:+ strategy_to_string strategy +:+ " MVGAL_GPUS=" +:+ gpus
  +:+ " MVGAL_LOW_LATENCY=" +:+ print_01 low_latency
  +:+ (if rq_enable_d3d_wrapper rq then " MVGAL_D3D_ENABLED=1" else "") +:+ " %command%".

Definition steam_profile (rq : mvgal_steam_profile_request_t) (gpus : list Z) : mvgal_steam_profile_t :=
  let strategy := if bool_decide (rq_preferred_strategy rq = MVGAL_STRATEGY_AUTO)
                  then if (1 <? length gpus)%nat then MVGAL_STRATEGY_AFR else MVGAL_STRATEGY_SINGLE_GPU
                  else rq_preferred_strategy rq in
  let steam := rq_steam_mode rq || detect_steam_mode in
  let proton := rq_proton_mode rq || detect_proton_mode in
  let low_latency := rq_low_latency rq || steam || proton in
  let text := gpu_list_from true gpus "" in
  mk_profile strategy (Z.of_nat (length gpus)) (overwrite gpus (replicate 16 0)) steam proton low_latency
    (append_text 1024 "" (String.concat "" ((fun line => line +:+ newline) <$> env_lines rq strategy text low_latency steam proton)))
    (append_text 1024 "" (launch_text rq strategy text low_latency)).

(** [profile] is whether the pointer is not [NULL]. *)
Definition mvgal_execution_get_steam_profile (request : option mvgal_steam_profile_request_t) (profile : bool)
  : LM (mvgal_error_t * option mvgal_steam_profile_t) :=
  match request, profile with
  | Some rq, true =>
      err ← ensure_execution_initialized;
      if negb (started err) then mret (err, None) else
      enabled ← build_enabled_gpu_mask;
      match enabled.2 with
      | [] => mret (MVGAL_ERROR_NO_GPUS, None)
      | gpus => mret (MVGAL_SUCCESS, Some (steam_profile rq gpus))
      end
  | _, _ => mret (MVGAL_ERROR_INVALID_ARGUMENT, None)
  end.
End execution.
