(* ===== verification/Placement.v ===== *)
(** * Where a submitted workload is placed

    Every strategy assigns GPUs of the table, and a submission to an idle
    scheduler leaves the scheduler as it was apart from its new workload,
    which is completed and placed. *)

From S2P Require Import Prelude Float32 GpuTypes GpuManager SchedTypes WorkQueue SchedSelect.
From S2P Require Import Strategies SfrTiling Scheduler GpuHealth Dispatch.
Local Open Scope Z_scope.

(** Partial correctness: whatever the computation returns satisfies [Q]. *)
Definition wlp {S A : Type} (m : M S A) (Q : A -> S -> Prop) (s : S) : Prop :=
  forall a s', m s = Ret (a, s') -> Q a s'.

Lemma wlp_bind {S A B : Type} (m : M S A) (f : A -> M S B) Q s :
  wlp m (fun a s' => wlp (f a) Q s') s -> wlp (m ≫= f) Q s.
Proof. intros H b s'' (a & s' & E & E')%bind_inv. by eapply H. Qed.

Lemma wlp_ret {S A : Type} (a : A) (Q : A -> S -> Prop) s : Q a s -> wlp (mret a) Q s.
Proof. by intros H b s' [= <- <-]. Qed.

Lemma wlp_modify {S : Type} (f : S -> S) (Q : unit -> S -> Prop) s : Q tt (f s) -> wlp (modify f) Q s.
Proof. by intros H b s' [= <- <-]. Qed.

Lemma wlp_mono {S A : Type} (m : M S A) (P Q : A -> S -> Prop) s :
  wlp m P s -> (forall a s', P a s' -> Q a s') -> wlp m Q s.
Proof. intros H HPQ a s' E. by apply HPQ, H. Qed.

(** ** Placement *)

Definition in_table (i : Z) : Prop := 0 <= i < 16.

Record placed (w : mvgal_workload) : Prop := {
  pw_count : 0 <= w_assigned_gpu_count w <= 16;
  pw_length : length (w_assigned_gpus w) = 16%nat;
  pw_gpus : Forall in_table (w_assigned_gpus w);
  pw_assigned : d_assigned_gpu (w_descriptor w) = NO_GPU \/ in_table (d_assigned_gpu (w_descriptor w))
}.

Record rotation_ok (a : afr_state) : Prop := {
  ro_length : length (afr_gpu_indices a) = 16%nat;
  ro_gpus : Forall in_table (afr_gpu_indices a);
  ro_count : 0 <= afr_gpu_count a <= 16;
  ro_current : 0 <= afr_current_gpu_index a < 16
}.

(** The scheduler knows [p] as a placed workload. *)
Definition places (p : addr) (s : mvgal_scheduler_state_t) : Prop :=
  (exists w, ss_heap s !! p = Some w /\ placed w) /\ rotation_ok (ss_afr s) /\ 0 <= ss_gpu_count s <= 16.

Lemma forall_lookup_total {A} `{Inhabited A} (P : A -> Prop) l i :
  Forall P l -> (i < length l)%nat -> P (l !!! i).
Proof. intros Hl Hi. apply (Forall_lookup_1 P l i); [exact Hl|]. by apply list_lookup_lookup_total_lt. Qed.

Lemma placed_unlinked w : placed (unlinked w) <-> placed w.
Proof. split; intros [Q1 Q2 Q3 Q4]; by split. Qed.

Lemma set_assigned_placed i w : placed w -> in_table i -> placed (set_assigned i w).
Proof. intros [Q1 Q2 Q3 Q4] Hi. split; try done. by right. Qed.

Lemma assign_one_placed i w : placed w -> in_table i -> placed (assign_one i w).
Proof.
  intros [Q1 Q2 Q3 Q4] Hi. split; cbn; [lia|by rewrite length_insert|by apply Forall_insert|by right].
Qed.

Lemma first_assigned_in_table w : placed w -> in_table (first_assigned w).
Proof. intros [_ Q2 Q3 _]. unfold first_assigned. apply forall_lookup_total; [done|lia]. Qed.

(** The steps the strategies are made of. *)
Lemma places_deref p s (Q : mvgal_workload -> mvgal_scheduler_state_t -> Prop) :
  places p s -> (forall w, placed w -> Q w s) -> wlp (deref p) Q s.
Proof.
  intros [(w & E & Hw) _] HQ a s' Hr. unfold deref in Hr. rewrite E in Hr. injection Hr as <- <-. by apply HQ.
Qed.

Lemma places_store p f s w :
  places p s -> ss_heap s !! p = Some w -> placed (f w) -> places p (s <| ss_heap ::= fun h => <[p := f w]> h |>).
Proof.
  intros (_ & Ha & Hc) E Hf. split; [|done]. exists (f w). split; [apply lookup_insert_eq|done].
Qed.

Lemma places_update p f s (Q : unit -> mvgal_scheduler_state_t -> Prop) :
  places p s -> (forall w, placed w -> placed (f w)) -> (forall s', places p s' -> Q tt s') ->
  wlp (update p f) Q s.
Proof.
  intros Hp Hf HQ a s' Hr. pose proof Hp as ((w & E & Hw) & _). unfold update in Hr. rewrite E in Hr.
  injection Hr as <- <-. apply HQ, places_store; auto.
Qed.

Lemma places_alloc `{SchedEnv} p s (Q : bool -> mvgal_scheduler_state_t -> Prop) :
  places p s -> (forall ok s', places p s' -> Q ok s') -> wlp calloc Q s.
Proof. intros Hp HQ a s' [= <- <-]. apply HQ, Hp. Qed.

Create HintDb placement.
#[local] Hint Resolve set_assigned_placed assign_one_placed first_assigned_in_table : placement.

Definition ends_placed (p : addr) {A : Type} (m : SM A) : Prop :=
  forall s, places p s -> wlp m (fun _ s' => places p s') s.

Lemma ends_ret p {A} (a : A) : ends_placed p (mret a : SM A).
Proof. intros s Hp. by apply wlp_ret. Qed.

Lemma ends_update p f {A} (a : A) :
  (forall w, placed w -> placed (f w)) -> ends_placed p (update p f;; mret a : SM A).
Proof. intros Hf s Hp. apply wlp_bind, places_update; [done|done|]. intros s' Hp'. by apply ends_ret. Qed.

Lemma ends_fails p {A} e : ends_placed p (fails e : SM A).
Proof. by intros s _ a s'. Qed.

Lemma argmax_elem {A} unseeded (score : A -> option f32) init l x :
  (argmax unseeded score init l).2 = Some x -> x ∈ l.
Proof.
  intros E. pose proof (argmax_spec unseeded score init l) as H. unfold argmax_inv in H. rewrite E in H.
  destruct H as (i & Hi & _). by eapply list_elem_of_lookup_2.
Qed.

Lemma index_in_table s i : i ∈ gpu_indices s -> 0 <= ss_gpu_count s <= 16 -> in_table i.
Proof. rewrite elem_of_gpu_indices. unfold in_table. lia. Qed.

Lemma find_best_gpu_places p : ends_placed p (mvgal_scheduler_find_best_gpu (Some p)).
Proof.
  intros s Hp a s' Hr. pose proof Hp as ((w & E & Hw) & _ & Hc). rewrite (find_best_gpu_run p w s E) in Hr.
  destruct (best_gpu w s) as [i|] eqn:Hb; injection Hr as <- <-; [|done].
  apply places_store; [done..|]. apply set_assigned_placed; [done|].
  by eapply index_in_table; [eapply argmax_elem|].
Qed.

Lemma task_select_in_table type s i : task_select type s = Some i -> 0 <= ss_gpu_count s <= 16 -> in_table i.
Proof.
  intros Hs Hc. apply (index_in_table s); [|done]. unfold task_select in Hs.
  destruct (argmax false (task_score _ s) _ _) as [b [j|]] eqn:E.
  - injection Hs as ->. eapply argmax_elem. by rewrite E.
  - by eapply argmax_elem.
Qed.

Lemma distribute_task_places p : ends_placed p (mvgal_scheduler_distribute_task (Some p)).
Proof.
  intros s Hp. apply wlp_bind, (places_deref _ _ _ Hp). intros w Hw.
  destruct (0 <? w_assigned_gpu_count w); [apply ends_update; auto with placement|].
  apply wlp_bind. intros s0 s1 [= <- <-]. destruct (task_select _ _) as [i|] eqn:E; [|by apply ends_ret].
  apply task_select_in_table in E; [|apply Hp]. apply ends_update; auto with placement.
Qed.

(** ** Alternate frame rendering *)

Lemma mask_gpus_in_table mask : Forall in_table (mask_gpus mask) /\ (length (mask_gpus mask) <= 16)%nat.
Proof.
  split.
  - apply Forall_forall. intros i Hi. unfold mask_gpus in Hi.
    apply list_elem_of_filter in Hi as [_ Hi%elem_of_seqZ]. unfold in_table. lia.
  - unfold mask_gpus. etrans; [apply length_filter|]. by rewrite length_seqZ.
Qed.

Lemma overwrite_in_table l old :
  Forall in_table l -> (length l <= 16)%nat -> Forall in_table old -> length old = 16%nat ->
  Forall in_table (overwrite l old) /\ length (overwrite l old) = 16%nat.
Proof.
  intros Hl Hn Ho Hlo. unfold overwrite. split.
  - apply Forall_app. split; [done|by apply Forall_drop].
  - rewrite length_app, length_drop. lia.
Qed.

Lemma afr_init_rotation a : rotation_ok a -> rotation_ok (afr_init a).
Proof. unfold afr_init. destruct (afr_initialized a); [done|]. intros [Q1 Q2 Q3 Q4]. split; cbn; auto; lia. Qed.

Lemma configure_rotation_ok l a :
  Forall in_table l -> (length l <= 16)%nat -> rotation_ok a -> rotation_ok (afr_configure l a).2.
Proof.
  intros Hl Hn Ha. unfold afr_configure. destruct (_ || _); [done|]. apply afr_init_rotation in Ha as [Q1 Q2 Q3 Q4].
  destruct (overwrite_in_table l _ Hl Hn Q2 Q1). split; cbn; auto; lia.
Qed.

Lemma next_rotation_ok a :
  rotation_ok a -> rotation_ok (afr_get_next_gpu a).2 /\
  ((afr_get_next_gpu a).1 = NO_GPU \/ in_table (afr_get_next_gpu a).1).
Proof.
  intros [Q1 Q2 Q3 Q4]. unfold afr_get_next_gpu. destruct (Z.eqb_spec (afr_gpu_count a) 0); cbn.
  - split; [by split|by left].
  - split; [|right; apply forall_lookup_total; [done|lia]]. split; cbn; auto.
    pose proof (Z.mod_pos_bound (u32 (afr_current_gpu_index a + 1)) (afr_gpu_count a) ltac:(lia)). lia.
Qed.

Lemma places_afr p f s : places p s -> rotation_ok (f (ss_afr s)) -> places p (s <| ss_afr ::= f |>).
Proof. intros (Hw & _ & Hc) Hf. split; [done|]. by split. Qed.

Lemma distribute_afr_places p : ends_placed p (mvgal_scheduler_distribute_afr (Some p)).
Proof.
  intros s Hp. apply wlp_bind, wlp_modify. set (s1 := s <| ss_afr ::= afr_init |>).
  assert (Hp1 : places p s1) by (apply places_afr; [done|apply afr_init_rotation, Hp]).
  clearbody s1. clear s Hp. apply wlp_bind, (places_deref _ _ _ Hp1). intros w Hw.
  destruct (0 <? w_assigned_gpu_count w); [apply ends_update; auto with placement|].
  apply wlp_bind. apply (wlp_mono _ (fun _ s2 => places p s2)).
  - destruct (_ && _); [|by apply wlp_ret]. apply wlp_modify, places_afr; [done|].
    apply configure_rotation_ok; [apply mask_gpus_in_table..|apply Hp1].
  - intros [] s2 Hp2. apply wlp_bind. intros g s3 E. unfold on_afr in E.
    pose proof (next_rotation_ok _ (proj1 (proj2 Hp2))) as [Hr Hg].
    destruct (afr_get_next_gpu (ss_afr s2)) as [g' a]. injection E as <- <-. cbn in Hr, Hg.
    assert (Hp3 : places p (s2 <| ss_afr := a |>)) by (by apply places_afr).
    destruct (Z.eqb_spec g' NO_GPU); [by apply find_best_gpu_places|].
    destruct Hg; [done|]. apply ends_update; auto with placement.
Qed.

(** ** Split frame rendering *)

Section sfr.
Context `{SchedEnv}.

Lemma data_placed d w : placed w -> placed (w <| w_strategy_data := d |>).
Proof. intros [Q1 Q2 Q3 Q4]. by split. Qed.

Lemma free_data_places p : ends_placed p (free_strategy_data p).
Proof.
  intros s Hp. apply wlp_bind, (places_deref _ _ _ Hp). intros w Hw.
  destruct (w_strategy_data w); [by apply ends_ret| |by apply ends_fails].
  apply places_update; [done|intros; by apply data_placed|done].
Qed.

Lemma create_data_places p fuel width height mode weights :
  ends_placed p (sfr_create_split_data fuel (Some p) width height mode weights).
Proof.
  intros s Hp. apply wlp_bind, (places_deref _ _ _ Hp). intros w Hw.
  destruct (_ =? 0); [by apply ends_ret|]. apply wlp_bind. eapply wlp_mono; [by apply free_data_places|].
  intros [] s1 Hp1. apply wlp_bind, (places_alloc _ _ _ Hp1). intros ok s2 Hp2.
  destruct ok; cbn [negb]; [|by apply ends_ret].
  destruct (sfr_split_frame _ _ _ _ _ _ _); [|by apply ends_fails|by intros ? ?].
  destruct (_ && _); [by apply ends_fails|]. apply ends_update; [|done]. intros w1 Hw1. by apply data_placed.
Qed.

Lemma sfr_gpus_in_table s : Forall in_table (sfr_gpus s).
Proof.
  apply Forall_forall. intros i Hi. unfold sfr_gpus in Hi.
  apply list_elem_of_filter in Hi as [_ Hi%elem_of_seqZ]. unfold in_table. lia.
Qed.

Lemma distribute_sfr_places p : ends_placed p (mvgal_scheduler_distribute_sfr (Some p)).
Proof.
  intros s Hp. apply wlp_bind, (places_deref _ _ _ Hp). intros w Hw.
  destruct (0 <? w_assigned_gpu_count w).
  - apply wlp_bind. eapply wlp_mono; [by apply free_data_places|]. intros [] s1 Hp1.
    apply wlp_bind, (places_alloc _ _ _ Hp1). intros ok s2 Hp2. destruct ok; cbn [negb]; [|by apply ends_ret].
    destruct (16 <? _); [by apply ends_fails|]. apply ends_update; [|done].
    intros w1 Hw1. apply data_placed. auto with placement.
  - apply wlp_bind. intros s0 s1 [= <- <-]. pose proof (sfr_gpus_in_table s) as Hg.
    pose proof (sfr_gpus_length s) as Hn. destruct (sfr_gpus s) as [|g0 gs]; [by apply find_best_gpu_places|].
    apply wlp_bind, places_update; [done| |].
    + intros w1 [Q1 Q2 Q3 Q4]. destruct (overwrite_in_table (g0 :: gs) (w_assigned_gpus w1)) as [R1 R2]; [done..|].
      split; cbn [w_assigned_gpu_count w_assigned_gpus w_descriptor upd]; [lia|done..].
    + intros s2 Hp2. apply wlp_bind. eapply wlp_mono; [by apply create_data_places|]. intros e s3 Hp3.
      apply ends_update; [|done]. intros w1 Hw1. apply set_assigned_placed; [done|]. by inversion Hg.
Qed.

Lemma apply_strategy_places p : ends_placed p (mvgal_scheduler_apply_strategy (Some p)).
Proof.
  intros s Hp. apply wlp_bind. intros s0 s1 [= <- <-]. apply wlp_bind, (places_deref _ _ _ Hp). intros w Hw.
  cbv zeta. match goal with |- wlp (match ?x with _ => _ end) _ _ => destruct x end;
    first [by apply distribute_afr_places|by apply distribute_sfr_places|by apply distribute_task_places
          |by apply find_best_gpu_places|by apply ends_ret].
Qed.
End sfr.

(** ** One submission *)

Section submission.
Context `{GpuOS, SchedEnv}.

(** Workload [p] is placed and can be released. *)
Definition released_later (p : addr) (s : mvgal_scheduler_state_t) : Prop :=
  places p s /\ exists w, ss_heap s !! p = Some w /\ w_strategy_data w <> SD_dangling.

Lemma dispatch_placed p w s :
  ss_heap s !! p = Some w -> dispatchable w -> w_refcount w <> 1 -> sfr_in_range s = true -> places p s ->
  exists s', dispatch p s = Ret (tt, s') /\ released_later p s'.
Proof.
  intros E (Hrc & Hd & Hc) Hone Hr Hp.
  destruct (apply_strategy_ok p w s E Hd Hc Hr) as (e & s1 & w1 & Hrun & Hs1 & Hh1 & Hi1 & Hd1).
  pose proof (apply_strategy_places p s Hp e s1 Hrun) as ((w1' & E1 & Hw1) & Ha1 & Hn1).
  assert (w1' = w1) as -> by (rewrite Hh1, lookup_insert_eq in E1; by injection E1).
  unfold dispatch. rewrite (bind_ret _ _ _ _ _ Hrun), (bind_ret _ _ _ _ _ (complete_ok p w1 s1 E1)).
  match goal with |- context [ mvgal_workload_release _ ?x ] => set (s2 := x) end.
  set (w2 := completed_at (clock_ns (ss_ticks s1)) MVGAL_SUCCESS w1) in *.
  assert (E2 : ss_heap s2 !! p = Some w2) by apply lookup_insert_eq.
  rewrite (release_ok p w2 s2 E2 Hd1). eexists. split; [reflexivity|].
  assert (Hrc2 : w_refcount w2 = w_refcount w) by exact (f_equal w_refcount Hi1).
  rewrite Hrc2, (proj2 (Z.eqb_neq _ _) Hone).
  set (w3 := w2 <| w_refcount ::= fun n => u32 (n - 1) |>).
  assert (Hw3 : placed w3) by (destruct Hw1 as [Q1 Q2 Q3 Q4]; by split).
  split; [split; [|by split]|]; exists w3; cbn [ss_heap upd]; (split; [apply lookup_insert_eq|done]).
Qed.

Lemma process_placed fuel p w s :
  queue_rep (ss_heap s) (ss_ready_queue s) [p] -> content (ss_heap s) !! p = Some w ->
  dispatchable w -> w_refcount w <> 1 -> 0 < w_priority w -> sfr_in_range s = true ->
  placed w -> rotation_ok (ss_afr s) -> 0 <= ss_gpu_count s <= 16 -> (1 <= fuel)%nat ->
  exists s', process_loop fuel s = Ret (tt, s') /\ drained s s' [p] /\ released_later p s'.
Proof.
  intros Hrep Hw Hd Hone Hpr Hr Hpl Ha Hn Hf.
  destruct (process_loop_drains fuel [p] s Hrep) as (s' & Hrun & Hdr); [|done|done|].
  { intros q ->%list_elem_of_singleton. by exists w. }
  exists s'. split; [done|]. split; [done|]. destruct fuel as [|fuel]; [lia|].
  assert (Hprio : prio (ss_heap s) p = w_priority w).
  { unfold prio. rewrite content_lookup in Hw. destruct (ss_heap s !! p); [|done]. by injection Hw as <-. }
  destruct (dequeue_priority_cases _ _ _ Hrep)
    as [[_ Hle]|(l1 & b & l2 & h' & q' & w0 & El & Hdq & _ & _ & _ & Hq & Hc & Hw0)].
  { specialize (Hle p ltac:(by left)). lia. }
  destruct l1 as [|? [|]]; [|done..]. destruct l2; [|done]. injection El as <-.
  set (s1 := s <| ss_heap := h' |> <| ss_ready_queue := q' |>).
  assert (Ew : unlinked w0 = w).
  { rewrite <-Hc, content_lookup, Hw0 in Hw. injection Hw as <-. by rewrite unlinked_idemp. }
  rewrite Ew in Hw0. destruct (dispatch_placed p w s1) as (s2 & Hrun2 & Hrl); [done..| |].
  { split; [by exists w|by split]. }
  cbn [process_loop] in Hrun. rewrite (qr_count _ _ _ Hrep) in Hrun. cbn in Hrun.
  rewrite (bind_ret _ _ _ _ _ (on_ready_ret _ s _ _ _ Hdq)), (bind_ret _ _ _ _ _ Hrun2) in Hrun.
  assert (Hq2 : q_count (ss_ready_queue s2) <= 0).
  { destruct (dispatch_ok p w s1 Hw0 Hd Hr) as (s2' & ? & Hrun2' & Hcore & _).
    rewrite Hrun2 in Hrun2'. injection Hrun2' as <-.
    rewrite (f_equal ss_ready_queue Hcore : ss_ready_queue s2 = q'). by rewrite (qr_count _ _ _ Hq). }
  destruct fuel; cbn in Hrun; rewrite (proj2 (Z.leb_le _ _) Hq2) in Hrun; by injection Hrun as <-.
Qed.

(** What a submission that returned [p] did to the scheduler. *)
Record served (context : option addr) (info : mvgal_workload_submit_info_t) (s s' : mvgal_scheduler_state_t)
    (p : addr) (w : mvgal_workload) : Prop := {
  sv_new : ss_heap s !! p = None;
  sv_workload : ss_heap s' !! p = Some w;
  sv_placed : placed w;
  sv_done : w_state w = MVGAL_WORKLOAD_STATE_COMPLETED;
  sv_count : w_refcount w = 1;
  sv_data : w_strategy_data w <> SD_dangling;
  sv_id : d_id (w_descriptor w) = u32 (ss_next_workload_id s);
  sv_queue : ss_ready_queue s' = queue_empty;
  sv_submitted : st_workloads_submitted (ss_stats s') = u64 (st_workloads_submitted (ss_stats s) + 1);
  sv_completed : u64 (st_workloads_completed (ss_stats s')) = u64 (st_workloads_completed (ss_stats s) + 1);
  sv_others : forall q, q <> p -> content (ss_heap s') !! q = content (ss_heap s) !! q;
  sv_rotation : rotation_ok (ss_afr s');
  sv_rest : idle s' = idle (before_queueing context None info s)
}.

(** A scheduler that waits for work. *)
Record at_rest (s : mvgal_scheduler_state_t) : Prop := {
  ar_initialized : ss_initialized s = true;
  ar_thread : ss_thread_running s = false;
  ar_queue : ss_ready_queue s = queue_empty;
  ar_range : sfr_in_range s = true;
  ar_rotation : rotation_ok (ss_afr s);
  ar_count : 0 <= ss_gpu_count s <= 16
}.

Lemma submitted_placed context callback info s : placed (submitted_workload context callback info s).
Proof. split; [cbn; lia|done| |by left]. by repeat constructor. Qed.

Lemma submit_served fuel context info s :
  at_rest s -> alloc_ok (ss_allocs s) = true -> 0 < si_priority info -> (1 <= fuel)%nat ->
  exists p s' w, mvgal_workload_submit fuel context (Some info) true s = Ret ((MVGAL_SUCCESS, Some p), s')
    /\ served context info s s' p w.
Proof.
  intros [Hi Ht Hq Hr Ha Hn] Hal Hpr Hf.
  destruct (submit_queues fuel context None info s Hi Ht Hq Hal) as (s1 & Hsub & Hrep & Hc & Hidle & Hst & Hca & Hafr).
  set (p := new_addr s) in *. set (sw := submitted_workload context None info s) in *.
  assert (Hw : content (ss_heap s1) !! p = Some (unlinked (retained sw))) by (rewrite Hc; apply lookup_insert_eq).
  destruct (process_placed fuel p (unlinked (retained sw)) s1) as (s' & Hrun & Hdr & (((w & E & Hpl) & Hro & _) & Hlive));
    [done..|by rewrite (idle_in_range _ _ Hidle)| |by rewrite Hafr
    |by rewrite (f_equal ss_gpu_count Hidle : ss_gpu_count s1 = ss_gpu_count s)|done|].
  { apply placed_unlinked. destruct (submitted_placed context None info s) as [Q1 Q2 Q3 Q4]. by split. }
  destruct Hdr as [Hdq _ Hcnt Hsb%(f_equal st_workloads_submitted) Hoth Hdone Hrest]. cbn in Hsb.
  destruct (Hdone p _ ltac:(by left) Hw) as (w' & Hw' & Hfin). apply finished_facts in Hfin as (F1 & F2 & F3 & F4 & F5).
  rewrite content_lookup, E in Hw'. injection Hw' as <-. exists p, s', w. split.
  - cbn [mvgal_workload_submit negb]. rewrite Hsub.
    assert (Hrun' : mvgal_scheduler_process_internal fuel s1 = Ret (MVGAL_SUCCESS, s')).
    { unfold mvgal_scheduler_process_internal. rewrite get_bind.
      rewrite (f_equal ss_initialized Hidle : ss_initialized s1 = ss_initialized s), Hi.
      cbn [negb]. by rewrite (bind_ret _ _ _ _ _ Hrun). }
    by rewrite (bind_ret _ _ _ _ _ Hrun').
  - split; try done.
    + apply not_elem_of_dom_1. exact (is_fresh (dom (ss_heap s))).
    + destruct Hlive as (w0 & E0 & Hd). congruence.
    + by rewrite Hsb, Hst.
    + by rewrite Hcnt, Hst.
    + intros q Hne. rewrite Hoth by set_solver. rewrite Hc. by rewrite lookup_insert_ne.
    + by rewrite Hrest.
Qed.
End submission.
