(* ===== verification/ExecSubmit.v ===== *)
(** * Submissions through the whole library

    A submission to the execution engine of a running library goes through
    the GPU manager, the scheduler and the memory manager: it returns a plan
    with GPUs of the table, its workload has run and is gone, and the
    scheduler is as it was. *)

From S2P Require Import Prelude Float32 CString GpuTypes GpuManager GpuHealth SchedTypes WorkQueue SchedSelect Strategies Scheduler.
From S2P Require Import SyncPrims CMem MemTypes Allocator MemoryApi Config ConfigText Library Api Execution Dispatch Placement.
Local Open Scope Z_scope.

(** ** Operations of one module *)

Lemma on_sched_ret {A} (m : SM A) l a s :
  m (lib_sched l) = Ret (a, s) -> on_sched m l = Ret (a, l <| lib_sched := s |>).
Proof. intros E. unfold on_sched. by rewrite E. Qed.

Lemma on_gpus_read {A} (f : mvgal_gpu_manager_state_t -> A * mvgal_gpu_manager_state_t) l a :
  f (lib_manager l) = (a, lib_manager l) -> on_gpus f l = Ret (a, l).
Proof. intros E. unfold on_gpus. rewrite E. by destruct l as [? ? ? []]. Qed.

Lemma reads_bind {S A B} (f : S -> A) (k : A -> M S B) s : (reads f ≫= k) s = k (f s) s.
Proof. reflexivity. Qed.

Lemma lib_sched_same l s : s = lib_sched l -> l <| lib_sched := s |> = l.
Proof. intros ->. by destruct l. Qed.

(** Runs the first step of a computation by the equation [H]. *)
Ltac run H := etrans; [apply (bind_ret _ _ _ _ _ H)|]; lazy beta.

Section exec.
Context `{GpuOS, SchedEnv, MemEnv, ConfigEnv, ProcessEnv}.

(** ** The GPU manager *)

Definition manager_ready (g : mvgal_gpu_manager_state_t) : Prop :=
  gm_initialized g = true /\ 0 <= gm_gpu_count g <= 16.

Lemma manager_op_ready {A} (body : mvgal_gpu_manager_state_t -> A * mvgal_gpu_manager_state_t) g :
  gm_initialized g = true -> manager_op body g = body g.
Proof. intros E. unfold manager_op, ensure_gpu_manager_initialized. by rewrite E. Qed.

Definition enabled_at (g : mvgal_gpu_manager_state_t) (i : Z) : Prop := g_enabled (gpu_at g i) = true.

#[export] Instance enabled_at_dec g i : Decision (enabled_at g i).
Proof. unfold enabled_at. apply _. Defined.

(** The enabled GPUs of the table. *)
Definition enabled_list (g : mvgal_gpu_manager_state_t) : list Z :=
  filter (enabled_at g) (seqZ 0 (gm_gpu_count g)).

Definition gpu_bits (gpus : list Z) (mask : Z) : Z := foldl (fun m i => Z.lor m (bit i)) mask gpus.

Lemma get_count_run l : manager_ready (lib_manager l) -> on_gpus mvgal_gpu_get_count l = Ret (gm_gpu_count (lib_manager l), l).
Proof. intros [E _]. apply on_gpus_read. unfold mvgal_gpu_get_count. by rewrite manager_op_ready. Qed.

Lemma is_enabled_run l i :
  manager_ready (lib_manager l) -> i < gm_gpu_count (lib_manager l) ->
  on_gpus (mvgal_gpu_is_enabled i) l = Ret (g_enabled (gpu_at (lib_manager l) i), l).
Proof.
  intros [E _] Hi. apply on_gpus_read. unfold mvgal_gpu_is_enabled. rewrite manager_op_ready by done.
  by rewrite (proj2 (Z.ltb_lt _ _) Hi).
Qed.

Lemma enabled_gpus_run l n i room :
  manager_ready (lib_manager l) -> i + Z.of_nat n <= gm_gpu_count (lib_manager l) -> Z.of_nat n <= room ->
  enabled_gpus n i room l = Ret (filter (enabled_at (lib_manager l)) (seqZ i (Z.of_nat n)), l).
Proof.
  intros Hm. revert i room. induction n as [|n IH]; intros i room Hi Hr; [done|]. cbn [enabled_gpus].
  rewrite (proj2 (Z.leb_gt _ _)) by lia. rewrite (bind_ret _ _ _ _ _ (is_enabled_run l i Hm ltac:(lia))).
  rewrite (seqZ_cons i) by lia. replace (Z.pred (Z.of_nat (S n))) with (Z.of_nat n) by lia.
  rewrite filter_cons, <-Z.add_1_r. case_decide as Hd.
  - unfold enabled_at in Hd. rewrite Hd. cbn [negb].
    by rewrite (bind_ret _ _ _ _ _ (IH (i + 1) (room - 1) ltac:(lia) ltac:(lia))).
  - apply not_true_is_false in Hd. rewrite Hd. apply IH; lia.
Qed.

Lemma build_mask_run l :
  manager_ready (lib_manager l) ->
  build_enabled_gpu_mask l = Ret ((gpu_bits (enabled_list (lib_manager l)) 0, enabled_list (lib_manager l)), l).
Proof.
  intros Hm. unfold build_enabled_gpu_mask. rewrite (bind_ret _ _ _ _ _ (get_count_run l Hm)).
  destruct Hm as [Hi Hc]. destruct (Z.leb_spec (gm_gpu_count (lib_manager l)) 0).
  - unfold enabled_list. replace (gm_gpu_count (lib_manager l)) with 0 by lia. done.
  - rewrite (bind_ret _ _ _ _ _ (enabled_gpus_run l (Z.to_nat (gm_gpu_count (lib_manager l))) 0 16 (conj Hi Hc) ltac:(lia) ltac:(lia))).
    unfold enabled_list. by rewrite Z2Nat.id by lia.
Qed.

Lemma enabled_in_table g : manager_ready g -> Forall in_table (enabled_list g).
Proof.
  intros [_ Hc]. apply Forall_forall. intros i Hi. unfold enabled_list in Hi.
  apply list_elem_of_filter in Hi as [_ Hi%elem_of_seqZ]. unfold in_table. lia.
Qed.

Lemma gpu_mask_of_run gpus mask l : Forall in_table gpus -> gpu_mask_of gpus mask l = Ret (gpu_bits gpus mask, l).
Proof.
  intros Hg. revert mask. induction Hg as [|i gpus Hi Hg IH]; intros mask; [done|]. cbn [gpu_mask_of].
  unfold in_table in Hi. rewrite (bind_ret (shift_one i) _ l (bit i) l); [apply IH|].
  unfold shift_one. by rewrite (proj2 (Z.ltb_lt _ _)) by lia.
Qed.

Lemma gpu_bits_spec gpus mask j :
  Forall in_table gpus -> 0 <= j -> Z.testbit (gpu_bits gpus mask) j = Z.testbit mask j || bool_decide (j ∈ gpus).
Proof.
  intros Hg Hj. revert mask. induction Hg as [|i gpus Hi Hg IH]; intros mask.
  { rewrite bool_decide_false by apply not_elem_of_nil. by rewrite orb_false_r. }
  unfold gpu_bits in *. cbn [foldl]. unfold in_table in Hi. rewrite IH, Z.lor_spec, bit_testbit by lia.
  destruct (Z.eqb_spec i j) as [->|Hne].
  - rewrite (bool_decide_true (j ∈ j :: gpus)) by left. by rewrite !orb_true_r.
  - rewrite orb_false_r. f_equal. apply bool_decide_ext. set_solver.
Qed.

Lemma cross_vendor_run gpus v l :
  manager_ready (lib_manager l) -> exists b, detect_cross_vendor gpus v l = Ret (b, l).
Proof.
  intros [Hi _]. revert v. induction gpus as [|i gpus IH]; intros v; [by exists false|]. cbn [detect_cross_vendor].
  assert (exists r, on_gpus (mvgal_gpu_get_descriptor i true) l = Ret (r, l)) as [r Hr].
  { destruct (gm_gpu_count (lib_manager l) <=? i) eqn:E; eexists; apply on_gpus_read;
      unfold mvgal_gpu_get_descriptor, get_indexed; cbn [negb]; rewrite manager_op_ready by done; by rewrite E. }
  rewrite (bind_ret _ _ _ _ _ Hr). destruct r as [[] [g|]]; try apply IH.
  destruct (bool_decide _); [apply IH|]. destruct (negb _); [by exists true|apply IH].
Qed.

(** ** The scheduler *)

(** What a submission leaves of the scheduler once its workload is gone. *)
Record one_more (s s' : mvgal_scheduler_state_t) : Prop := {
  om_rest : at_rest s';
  om_config : ss_config s' = ss_config s;
  om_heap : content (ss_heap s') = content (ss_heap s);
  om_manager : ss_gm s' = ss_gm s;
  om_gpus : ss_gpus s' = ss_gpus s /\ ss_gpu_count s' = ss_gpu_count s;
  om_submitted : st_workloads_submitted (ss_stats s') = u64 (st_workloads_submitted (ss_stats s) + 1);
  om_completed : u64 (st_workloads_completed (ss_stats s')) = u64 (st_workloads_completed (ss_stats s) + 1)
}.

(** A clock reading. *)
Lemma at_rest_tick s : at_rest s -> at_rest (s <| ss_ticks ::= S |>).
Proof. intros [Q1 Q2 Q3 Q4 Q5 Q6]. by split. Qed.

Definition with_strategy (st : mvgal_distribution_strategy_t) (s : mvgal_scheduler_state_t) : mvgal_scheduler_state_t :=
  (mvgal_scheduler_set_strategy st s).2.

Lemma at_rest_strategy st s : at_rest s -> at_rest (with_strategy st s).
Proof. intros [Q1 Q2 Q3 Q4 Q5 Q6]. by split. Qed.

(** After the strategy is set, the workload served, the strategy set back and
    the handle destroyed. *)
Definition closed (previous : mvgal_distribution_strategy_t) (p : addr) (s : mvgal_scheduler_state_t)
  : mvgal_scheduler_state_t := (with_strategy previous s) <| ss_heap ::= delete p |>.

Lemma served_closed context info st s s' p w :
  at_rest s -> served context info (with_strategy st s) s' p w ->
  one_more s (closed (cfg_strategy (ss_config s)) p s').
Proof.
  intros [Q1 Q2 Q3 Q4 Q5 Q6] [Hnew Hw _ _ _ _ _ Hq Hsub Hcom Hoth Hro Hrest].
  assert (Hcfg : ss_config s' = (ss_config s) <| cfg_strategy := st |>) by exact (f_equal ss_config Hrest).
  assert (Hcount : ss_gpu_count s' = ss_gpu_count s) by exact (f_equal ss_gpu_count Hrest).
  split; try done.
  - split; try done.
    + exact (eq_trans (f_equal ss_initialized Hrest) Q1).
    + exact (eq_trans (f_equal ss_thread_running Hrest) Q2).
    + rewrite <-Q4. exact (idle_in_range _ _ Hrest).
    + by rewrite <-Hcount in Q6.
  - cbn. rewrite Hcfg. by destruct (ss_config s).
  - apply map_eq. intros q. cbn. rewrite !content_lookup. destruct (decide (q = p)) as [->|Hne].
    + rewrite lookup_delete_eq. cbn in Hnew. by rewrite Hnew.
    + rewrite lookup_delete_ne by done. rewrite <-!content_lookup. by apply Hoth.
  - exact (f_equal ss_gm Hrest).
  - split; [exact (f_equal ss_gpus Hrest)|done].
Qed.

(** ** The plan *)

(** GPUs a plan can select. *)
Record selection (g : mvgal_gpu_manager_state_t) (gpus : list Z) : Prop := {
  se_table : Forall in_table gpus;
  se_length : (length gpus <= 16)%nat;
  se_some : enabled_list g <> [] -> gpus <> []
}.

Lemma singleton_in_table i : in_table i -> Forall in_table [i].
Proof. intros Hi. by apply Forall_singleton. Qed.

Lemma singleton_selection g i : in_table i -> selection g [i].
Proof. intros Hi. split; [by apply singleton_in_table|cbn; lia|done]. Qed.

Lemma populate_run plan w l :
  manager_ready (lib_manager l) -> placed w ->
  exists gpus, selection (lib_manager l) gpus /\
    populate_plan_gpu_selection plan w l = Ret (select_gpus gpus (gpu_bits gpus 0) plan, l).
Proof.
  intros Hm [Q1 Q2 Q3 Q4]. unfold populate_plan_gpu_selection.
  destruct (Z.ltb_spec 0 (w_assigned_gpu_count w)) as [Hpos|_].
  - rewrite (proj2 (Z.ltb_ge MVGAL_EXECUTION_MAX_GPUS _)) by (unfold MVGAL_EXECUTION_MAX_GPUS; lia).
    set (gpus := take _ _). assert (Hg : Forall in_table gpus) by (by apply Forall_take).
    exists gpus. split; [|by rewrite (bind_ret _ _ _ _ _ (gpu_mask_of_run gpus 0 l Hg))].
    assert (Hl : length gpus = Z.to_nat (w_assigned_gpu_count w)) by (unfold gpus; rewrite length_take; lia).
    split; [done|lia|]. intros _ ->. cbn in Hl. lia.
  - destruct (Z.eqb_spec (d_assigned_gpu (w_descriptor w)) NO_GPU) as [_|Hno]; cbn [negb].
    + rewrite (bind_ret _ _ _ _ _ (build_mask_run l Hm)). cbn [snd].
      pose proof (enabled_in_table _ Hm) as He. destruct (enabled_list (lib_manager l)) as [|g gs] eqn:E.
      * exists []. split; [|done]. split; [constructor|cbn; lia|]. by rewrite E.
      * inversion_clear He as [|?? Hg _]. exists [g]. split; [by apply singleton_selection|].
        by rewrite (bind_ret _ _ _ _ _ (gpu_mask_of_run [g] 0 l (singleton_in_table _ ltac:(done)))).
    + destruct Q4 as [|Hi]; [done|]. set (i := d_assigned_gpu (w_descriptor w)) in *. exists [i].
      split; [by apply singleton_selection|].
      by rewrite (bind_ret _ _ _ _ _ (gpu_mask_of_run [i] 0 l (singleton_in_table _ ltac:(done)))).
Qed.

(** The plan the scheduler's answer completes. *)
Definition completed_plan (id : Z) (gpus : list Z) (cross : bool) (plan : mvgal_execution_plan_t)
  : mvgal_execution_plan_t :=
  (select_gpus gpus (gpu_bits gpus 0) (plan <| pl_workload_id := id |>)) <| pl_cross_vendor := cross |>.

(** The library with its scheduler at rest and its GPUs known. *)
Definition calm_library (l : library) : Prop := manager_ready (lib_manager l) /\ at_rest (lib_sched l).

Lemma with_strategy_run context info plan l :
  calm_library l -> SchedTypes.alloc_ok (ss_allocs (lib_sched l)) = true -> 0 < si_priority info ->
  exists gpus cross s', selection (lib_manager l) gpus /\ one_more (lib_sched l) s' /\
    submit_with_strategy context info plan l
    = Ret ((MVGAL_SUCCESS, completed_plan (u32 (ss_next_workload_id (lib_sched l))) gpus cross plan),
           l <| lib_sched := s' |>).
Proof.
  intros [Hm Hrest] Ha Hpr. set (s := lib_sched l) in *. set (st := pl_applied_strategy plan).
  destruct (submit_served (passes s) context info (with_strategy st s)) as (p & s1 & w & Hrun & Hs);
    [by apply at_rest_strategy|done|done|unfold passes; lia|].
  pose proof (served_closed _ _ _ _ _ _ _ Hrest Hs) as Hom.
  set (s2 := with_strategy (cfg_strategy (ss_config s)) s1). set (l2 := l <| lib_sched := s2 |>).
  assert (Hm2 : lib_manager l2 = lib_manager l) by exact (om_manager _ _ Hom).
  assert (Hr2 : manager_ready (lib_manager l2)) by (by rewrite Hm2).
  set (plan1 := plan <| pl_workload_id := d_id (w_descriptor w) |>).
  destruct (populate_run plan1 w l2 Hr2 (sv_placed _ _ _ _ _ _ Hs)) as (gpus & Hsel & Hpop).
  destruct (cross_vendor_run (take (Z.to_nat (pl_selected_gpu_count (select_gpus gpus (gpu_bits gpus 0) plan1)))
    (pl_selected_gpus (select_gpus gpus (gpu_bits gpus 0) plan1))) MVGAL_VENDOR_UNKNOWN l2 Hr2) as (cross & Hcross).
  exists gpus, cross, (closed (cfg_strategy (ss_config s)) p s1).
  split; [by rewrite <-Hm2|]. split; [done|].
  assert (Hdel : mvgal_workload_destroy (Some p) s2 = Ret (tt, s2 <| ss_heap ::= delete p |>)).
  { unfold mvgal_workload_destroy. rewrite (release_ok p w s2 (sv_workload _ _ _ _ _ _ Hs) (sv_data _ _ _ _ _ _ Hs)).
    by rewrite (sv_count _ _ _ _ _ _ Hs). }
  unfold submit_with_strategy. rewrite reads_bind.
  run (on_sched_ret (fun s => Ret (mvgal_scheduler_set_strategy st s)) l _ (with_strategy st s) eq_refl).
  run (on_sched_ret (mvgal_workload_submit (passes s) context (Some info) true)
         (l <| lib_sched := with_strategy st s |>) _ s1 Hrun).
  run (on_sched_ret (fun s => Ret (mvgal_scheduler_set_strategy (cfg_strategy (ss_config (lib_sched l))) s))
         (l <| lib_sched := s1 |>) _ s2 eq_refl).
  run (on_sched_ret (SchedTypes.deref p) l2 _ s2 (deref_ok p w s2 (sv_workload _ _ _ _ _ _ Hs))).
  run Hpop. run Hcross. run (on_sched_ret (mvgal_workload_destroy (Some p)) l2 _ _ Hdel).
  unfold plan1. rewrite (sv_id _ _ _ _ _ _ Hs). reflexivity.
Qed.

(** ** The copy between two GPUs *)

(** The path of a copy from GPU [i] to GPU [j]. *)
Definition copy_path (g : mvgal_gpu_manager_state_t) (i j : Z) : mvgal_memory_copy_method_t :=
  if bool_decide (i ∈ enabled_list g /\ j ∈ enabled_list g) then MVGAL_MEMORY_COPY_DMA_BUF else MVGAL_MEMORY_COPY_CPU.

Lemma manager_count_run m : manager_ready (ms_manager m) -> on_manager mvgal_gpu_get_count m = Ret (gm_gpu_count (ms_manager m), m).
Proof.
  intros [E _]. unfold on_manager, mvgal_gpu_get_count. rewrite manager_op_ready by done. by destruct m.
Qed.

Lemma manager_enabled_run m i :
  manager_ready (ms_manager m) -> i < gm_gpu_count (ms_manager m) ->
  on_manager (mvgal_gpu_is_enabled i) m = Ret (g_enabled (gpu_at (ms_manager m) i), m).
Proof.
  intros [E _] Hi. unfold on_manager, mvgal_gpu_is_enabled. rewrite manager_op_ready by done.
  rewrite (proj2 (Z.ltb_lt _ _) Hi). by destruct m.
Qed.

Lemma elem_of_enabled g i : i ∈ enabled_list g <-> 0 <= i < gm_gpu_count g /\ enabled_at g i.
Proof. unfold enabled_list. rewrite list_elem_of_filter, elem_of_seqZ. intuition lia. Qed.

Lemma below_count_run {A} (x y : A) m i j :
  manager_ready (ms_manager m) ->
  (if (u32 (gm_gpu_count (ms_manager m)) <=? i) || (u32 (gm_gpu_count (ms_manager m)) <=? j) then x else y)
  = (if bool_decide (i < gm_gpu_count (ms_manager m) /\ j < gm_gpu_count (ms_manager m)) then y else x).
Proof.
  intros [_ Hc]. assert (u32 (gm_gpu_count (ms_manager m)) = gm_gpu_count (ms_manager m)) as -> by (apply Z.mod_small; lia).
  case_bool_decide as E; [rewrite !(proj2 (Z.leb_gt _ _)) by lia; done|].
  destruct (Z.leb_spec (gm_gpu_count (ms_manager m)) i); [done|]. by rewrite (proj2 (Z.leb_le _ _)) by lia.
Qed.

Lemma p2p_run m i j :
  manager_ready (ms_manager m) -> in_table i -> in_table j ->
  mvgal_dmabuf_p2p_is_supported i j m
  = Ret (bool_decide (i ∈ enabled_list (ms_manager m) /\ j ∈ enabled_list (ms_manager m)), m).
Proof.
  intros Hm Hi Hj. unfold in_table in Hi, Hj. unfold mvgal_dmabuf_p2p_is_supported, MVGAL_MAX_GPUS.
  rewrite (proj2 (Z.leb_gt 16 i)), (proj2 (Z.leb_gt 16 j)) by lia. cbn [orb]. run (manager_count_run m Hm).
  rewrite below_count_run by done. rewrite (bool_decide_ext _ _ (and_iff_compat_l _ (elem_of_enabled _ j))).
  case_bool_decide as E.
  - run (manager_enabled_run m i Hm (proj1 E)). destruct (g_enabled (gpu_at (ms_manager m) i)) eqn:Ei; cbn [negb].
    + etrans; [apply (manager_enabled_run m j Hm (proj2 E))|]. do 2 f_equal. symmetry.
      apply Bool.eq_iff_eq_true. rewrite bool_decide_eq_true, elem_of_enabled. unfold enabled_at. intuition lia.
    + rewrite bool_decide_false; [done|]. rewrite elem_of_enabled. unfold enabled_at. by intros [[_ ?] _]; congruence.
  - rewrite bool_decide_false; [done|]. rewrite elem_of_enabled. intuition lia.
Qed.

Lemma copy_method_run m i j :
  manager_ready (ms_manager m) -> in_table i -> in_table j ->
  mvgal_dmabuf_get_copy_method i j m = Ret (copy_path (ms_manager m) i j, m).
Proof.
  intros Hm Hi Hj. unfold mvgal_dmabuf_get_copy_method, MVGAL_MAX_GPUS. unfold in_table in Hi, Hj.
  rewrite (proj2 (Z.leb_gt 16 i)), (proj2 (Z.leb_gt 16 j)) by lia. cbn [orb]. run (manager_count_run m Hm).
  rewrite below_count_run by done. unfold copy_path. case_bool_decide as E.
  - cbn [mvgal_dmabuf_nvlink_is_available]. run (p2p_run m i j Hm Hi Hj). by case_bool_decide.
  - rewrite bool_decide_false; [done|]. rewrite !elem_of_enabled. intuition lia.
Qed.

(** The path a plan for [gpus] names. *)
Definition first_path (g : mvgal_gpu_manager_state_t) (gpus : list Z) : mvgal_memory_copy_method_t :=
  match gpus with i :: j :: _ => copy_path g i j | _ => MVGAL_MEMORY_COPY_CPU end.

(** A memory manager, the GPU manager it last saw apart. *)
Definition same_memory (m m' : mvgal_memory_state_t) : Prop := m' <| ms_manager := ms_manager m |> = m.

(** The plan holds exactly these GPUs. *)
Record plan_gpus (plan : mvgal_execution_plan_t) (gpus : list Z) : Prop := {
  pg_count : pl_selected_gpu_count plan = Z.of_nat (length gpus);
  pg_list : exists rest, pl_selected_gpus plan = gpus ++ rest;
  pg_mask : forall j, 0 <= j -> Z.testbit (pl_selected_gpu_mask plan) j = bool_decide (j ∈ gpus)
}.

Lemma completed_plan_gpus id gpus cross plan : Forall in_table gpus -> plan_gpus (completed_plan id gpus cross plan) gpus.
Proof.
  intros Hg. split; [done|by eexists|]. intros j Hj. cbn. rewrite gpu_bits_spec by done. by rewrite Z.bits_0.
Qed.

Lemma with_path_gpus plan gpus method : plan_gpus plan gpus -> plan_gpus (plan <| pl_migration_method := method |>) gpus.
Proof. intros [Q1 Q2 Q3]. destruct plan. by split. Qed.

Lemma migration_run plan gpus l :
  manager_ready (lib_manager l) -> Forall in_table gpus -> plan_gpus plan gpus ->
  exists m', same_memory (lib_mem l) m' /\
    migration_method plan l = Ret (first_path (lib_manager l) gpus, l <| lib_mem := m' |>).
Proof.
  intros Hm Hg [Hc [rest Hl] _]. unfold migration_method. rewrite Hc, Hl.
  destruct gpus as [|i [|j gpus]]; [exists (lib_mem l); split; [|]; by destruct l as [? ? ? ? []]..|].
  set (m := (lib_mem l) <| ms_manager := lib_manager l |>). exists m. split; [by destruct l as [? ? ? ? []]|].
  rewrite (proj2 (Z.ltb_lt _ _)) by (cbn [length]; lia). unfold on_memory. inversion_clear Hg as [|?? Hi Hg'].
  inversion_clear Hg' as [|?? Hj _]. cbn [app list_lookup_total lookup_total].
  fold m. rewrite (copy_method_run m i j Hm Hi Hj). by destruct l as [? ? ? [] []].
Qed.

(** ** A submission *)

(** The strategy a plan applies. *)
Definition applied (l : library) (frame : mvgal_execution_frame_state_t) (info : mvgal_execution_submit_info_t)
  : mvgal_distribution_strategy_t :=
  decide_strategy (Z.of_nat (length (enabled_list (lib_manager l)))) (fr_requested_strategy frame) frame info.

(** What is left of a request: never one that stands for others, and one
    that spreads work only over several GPUs. *)
Lemma decide_concrete n st frame info (d := decide_strategy n st frame info) :
  d <> MVGAL_STRATEGY_AUTO /\ d <> MVGAL_STRATEGY_HYBRID /\ (spreads d = true -> 1 < n).
Proof.
  unfold d, decide_strategy. cbv zeta. set (q := if bool_decide _ then _ else _).
  assert (Hq : q <> MVGAL_STRATEGY_AUTO) by (unfold q; by case_bool_decide). clearbody q.
  destruct (Z.ltb_spec 1 n); cbn [negb andb].
  - case_bool_decide as E; cbn [negb]; [repeat case_match; done|done].
  - rewrite !andb_false_r. destruct (spreads q) eqn:Es; [done|].
    rewrite bool_decide_false by (by intros ->). cbn [negb]. split_and!; [done|by intros ->|congruence].
Qed.

(** The plan a submission to [frame] returns. *)
Record sound_plan (l : library) (frame : mvgal_execution_frame_state_t) (info : mvgal_execution_submit_info_t)
    (plan : mvgal_execution_plan_t) (gpus : list Z) : Prop := {
  sp_frame : pl_frame_id plan = fr_frame_id frame;
  sp_workload : pl_workload_id plan = u32 (ss_next_workload_id (lib_sched l));
  sp_applied : pl_applied_strategy plan = applied l frame info;
  sp_bytes : pl_estimated_bytes plan = u64 (xi_resource_bytes info + te_data_size (xi_telemetry info));
  sp_selection : selection (lib_manager l) gpus;
  sp_gpus : plan_gpus plan gpus;
  sp_path : pl_migration_method plan = first_path (lib_manager l) gpus
}.

(** What it leaves in the execution engine, the frame at [i] updated. *)
Definition submitted_exec (i : nat) (api : Z) (plan : mvgal_execution_plan_t) (e : mvgal_execution_state_t)
  : mvgal_execution_state_t :=
  e <| es_frames ::= <[i := submitted_frame plan (frame_at i e)]> |>
    <| es_stats ::= fun x => count_api api (x <| x_workloads_distributed ::= fun n => u64 (n + 1) |>) |>.

Lemma one_more_tick s s' : one_more (s <| ss_ticks ::= S |>) s' -> one_more s s'.
Proof. intros [Q1 Q2 Q3 Q4 Q5 Q6 Q7]. by split. Qed.

Lemma masked_submit_run context info plan type prio deadline l :
  calm_library l -> SchedTypes.alloc_ok (ss_allocs (lib_sched l)) = true -> 0 < prio ->
  exists gpus cross s', selection (lib_manager l) gpus /\ one_more (lib_sched l) s' /\
    (gpu_mask ← (if negb (xi_gpu_mask info =? 0) then mret (xi_gpu_mask info)
                 else enabled ← build_enabled_gpu_mask; mret enabled.1);
     submit_with_strategy context (mk_info type prio deadline gpu_mask 0 None None) plan) l
    = Ret ((MVGAL_SUCCESS, completed_plan (u32 (ss_next_workload_id (lib_sched l))) gpus cross plan),
           l <| lib_sched := s' |>).
Proof.
  intros Hl Ha Hp.
  set (mask := if negb (xi_gpu_mask info =? 0) then xi_gpu_mask info else gpu_bits (enabled_list (lib_manager l)) 0).
  destruct (with_strategy_run context (mk_info type prio deadline mask 0 None None) plan l Hl Ha Hp)
    as (gpus & cross & s' & Hs & Ho & Hrun).
  exists gpus, cross, s'. split; [done|]. split; [done|].
  etrans; [apply (bind_ret _ _ l mask l)|exact Hrun]. unfold mask. destruct (xi_gpu_mask info =? 0); cbn [negb]; [|done].
  by run (build_mask_run l (proj1 Hl)).
Qed.

Lemma scheduler_workload_run context info plan l :
  calm_library l -> SchedTypes.alloc_ok (ss_allocs (lib_sched l)) = true ->
  exists gpus cross s', selection (lib_manager l) gpus /\ one_more (lib_sched l) s' /\
    submit_scheduler_workload context info plan l
    = Ret ((MVGAL_SUCCESS, completed_plan (u32 (ss_next_workload_id (lib_sched l))) gpus cross plan),
           l <| lib_sched := s' |>).
Proof.
  intros [Hm Hr] Ha. unfold submit_scheduler_workload. cbv zeta. set (l1 := l <| lib_sched ::= fun s => s <| ss_ticks ::= S |> |>).
  destruct (te_is_present (xi_telemetry info)).
  - destruct (masked_submit_run context info plan (pl_workload_type plan) 95
      (u64 (clock_ns (ss_ticks (lib_sched l)) + 16000000)) l1)
      as (gpus & cross & s' & Hs & Ho & Hrun); [by split; [|apply at_rest_tick]|done|done|].
    exists gpus, cross, s'. split; [done|]. split; [by apply one_more_tick|exact Hrun].
  - destruct (masked_submit_run context info plan (pl_workload_type plan)
      (if te_is_frame_end (xi_telemetry info) then 90 else 70) 0 l)
      as (gpus & cross & s' & Hs & Ho & Hrun); [done|done|by destruct (te_is_frame_end _)|].
    exists gpus, cross, s'. split; [done|]. split; [done|exact Hrun].
Qed.

(** The library after a submission to the frame at [i]. *)
Record submitted (i : nat) (api : Z) (plan : mvgal_execution_plan_t) (l l' : library) : Prop := {
  su_sched : one_more (lib_sched l) (lib_sched l');
  su_memory : same_memory (lib_mem l) (lib_mem l');
  su_exec : lib_exec l' = submitted_exec i api plan (lib_exec l);
  su_api : lib_api l' = lib_api l;
  su_contexts : lib_contexts l' = lib_contexts l;
  su_config : lib_config l' = lib_config l
}.

Lemma find_frame_lookup id frames i :
  find_frame_state id frames = Some i ->
  exists f, frames !! i = Some f /\ frames !!! i = f /\ fr_in_use f = true /\ fr_frame_id f = id.
Proof.
  unfold find_frame_state. destruct (list_find _ frames) as [[j f]|] eqn:E; [|done]. intros [= <-].
  apply list_find_Some in E as (Hl & [Hu Hid] & _). exists f. split; [done|]. split; [by apply list_lookup_total_correct|done].
Qed.

Lemma submit_to_frame_run context info l i :
  calm_library l -> SchedTypes.alloc_ok (ss_allocs (lib_sched l)) = true ->
  find_frame_state (xi_frame_id info) (es_frames (lib_exec l)) = Some i ->
  exists plan gpus l', submit_to_frame context info l = Ret ((MVGAL_SUCCESS, Some plan), l')
    /\ sound_plan l (frame_at i (lib_exec l)) info plan gpus /\ submitted i (xi_api info) plan l l'.
Proof.
  intros Hl Ha Hi. set (frame := frame_at i (lib_exec l)).
  destruct (scheduler_workload_run context info (draft_plan frame info (applied l frame info)) l Hl Ha)
    as (gpus & cross & s' & Hs & Ho & Hrun).
  set (id := u32 (ss_next_workload_id (lib_sched l))) in *.
  set (plan := completed_plan id gpus cross (draft_plan frame info (applied l frame info))) in *.
  set (l1 := l <| lib_sched := s' |>) in *.
  assert (Hm1 : lib_manager l1 = lib_manager l) by exact (om_manager _ _ Ho).
  pose proof (completed_plan_gpus id gpus cross (draft_plan frame info (applied l frame info)) (se_table _ _ Hs)) as Hg.
  destruct (migration_run plan gpus l1) as (m' & Hsame & Hmig);
    [rewrite Hm1; apply Hl|apply Hs|exact Hg|]. rewrite Hm1 in Hmig.
  set (plan' := plan <| pl_migration_method := first_path (lib_manager l) gpus |>).
  exists plan', gpus. eexists. split; [|split].
  - unfold submit_to_frame. rewrite reads_bind, Hi.
    etrans; [apply (bind_ret _ _ l (applied l frame info) l)|]; [by run (build_mask_run l (proj1 Hl))|]. lazy beta.
    run Hrun. cbn [fst is_success negb]. run Hmig. rewrite reads_bind.
    change (es_frames (lib_exec _)) with (es_frames (lib_exec l)). rewrite Hi. reflexivity.
  - split; [reflexivity..|exact Hs|by apply with_path_gpus|reflexivity].
  - split; [exact Ho|exact Hsame|reflexivity..].
Qed.

(** ** Calls of a running library *)

Record running (l : library) : Prop := {
  ru_api : as_initialized (lib_api l) = true;
  ru_exec : es_initialized (lib_exec l) = true;
  ru_calm : calm_library l
}.

(** The context a call works with. *)
Definition effective (context : option addr) (l : library) : option addr :=
  match context with Some _ => context | None => as_current_context (lib_api l) end.

Lemma prepare_run context c l :
  running l -> effective context l = Some c -> prepare context l = Ret ((MVGAL_SUCCESS, Some c), l).
Proof.
  intros [Ha He _] Hc. unfold prepare.
  assert (Hi : ensure_execution_initialized l = Ret (MVGAL_SUCCESS, l)).
  { unfold ensure_execution_initialized, mvgal_is_initialized. rewrite reads_bind, Ha.
    rewrite (bind_ret _ _ l MVGAL_SUCCESS l) by done. cbn [started negb]. by rewrite reads_bind, He. }
  run Hi. cbn [started negb]. unfold resolve_context, effective in *. destruct context as [c'|]; [by injection Hc as ->|].
  unfold mvgal_context_get_current. rewrite reads_bind. by rewrite Hc.
Qed.

Lemma submitted_running i api plan l l' : submitted i api plan l l' -> running l -> running l'.
Proof.
  intros [Ho _ He Ha _ _] [R1 R2 [Hm Hr]]. split; [by rewrite Ha|by rewrite He|]. split; [|apply Ho].
  unfold lib_manager. by rewrite (om_manager _ _ Ho).
Qed.

Lemma execution_submit_run context c info l i :
  running l -> effective context l = Some c -> SchedTypes.alloc_ok (ss_allocs (lib_sched l)) = true ->
  xi_frame_id info <> 0 -> find_frame_state (xi_frame_id info) (es_frames (lib_exec l)) = Some i ->
  exists plan gpus l', mvgal_execution_submit context (Some info) true l = Ret ((MVGAL_SUCCESS, Some plan), l')
    /\ sound_plan l (frame_at i (lib_exec l)) info plan gpus /\ submitted i (xi_api info) plan l l'.
Proof.
  intros Hr Hc Ha Hid Hi.
  destruct (submit_to_frame_run (Some c) info l i (ru_calm _ Hr) Ha Hi) as (plan & gpus & l' & Hrun & Hp & Hs).
  exists plan, gpus, l'. split; [|done]. cbn [mvgal_execution_submit]. run (prepare_run context c l Hr Hc).
  cbn [fst snd is_success negb]. rewrite (proj2 (Z.eqb_neq _ _) Hid). exact Hrun.
Qed.

(** C9. A submission to a frame of a running library succeeds.  The plan it
    returns names the frame and the workload, a strategy that is neither
    automatic nor hybrid and that spreads work only when more than one GPU is
    enabled, and GPUs of the table, at least one when one is enabled; the mask
    has the bits of these GPUs and no others, and the migration path is that
    between the first two.  The scheduler has run one more workload and is
    otherwise as before, with its own strategy and heap back; the frame has
    one more submission and its bytes, and no other frame, buffer, context or
    setting has changed. *)
Theorem execution_submit_spec context c info l i :
  running l -> effective context l = Some c -> SchedTypes.alloc_ok (ss_allocs (lib_sched l)) = true ->
  xi_frame_id info <> 0 -> find_frame_state (xi_frame_id info) (es_frames (lib_exec l)) = Some i ->
  exists plan gpus l', mvgal_execution_submit context (Some info) true l = Ret ((MVGAL_SUCCESS, Some plan), l')
    /\ sound_plan l (frame_at i (lib_exec l)) info plan gpus
    /\ pl_frame_id plan = xi_frame_id info
    /\ pl_applied_strategy plan <> MVGAL_STRATEGY_AUTO /\ pl_applied_strategy plan <> MVGAL_STRATEGY_HYBRID
    /\ (spreads (pl_applied_strategy plan) = true -> (1 < length (enabled_list (lib_manager l)))%nat)
    /\ submitted i (xi_api info) plan l l' /\ running l'.
Proof.
  intros Hr Hc Ha Hid Hi.
  destruct (execution_submit_run context c info l i Hr Hc Ha Hid Hi) as (plan & gpus & l' & Hrun & Hp & Hs).
  destruct (decide_concrete (Z.of_nat (length (enabled_list (lib_manager l))))
    (fr_requested_strategy (frame_at i (lib_exec l))) (frame_at i (lib_exec l)) info) as (D1 & D2 & D3).
  destruct (find_frame_lookup _ _ _ Hi) as (f & _ & Hf & _ & Hfid).
  exists plan, gpus, l'. rewrite (sp_applied _ _ _ _ _ Hp), (sp_frame _ _ _ _ _ Hp). split_and!; try done.
  - unfold frame_at. by rewrite Hf.
  - intros E. specialize (D3 E). lia.
  - by apply (submitted_running _ _ _ _ _ Hs).
Qed.
End exec.
