(* ===== verification/Startup.v ===== *)
(** * Start and stop of the library

    [mvgal_init] of a stopped library starts every module, and the matching
    [mvgal_shutdown] stops every one; the calls in between only count. *)

From S2P Require Import Prelude Float32 CString GpuTypes GpuManager GpuHealth SchedTypes WorkQueue SchedSelect Strategies Scheduler.
From S2P Require Import SyncPrims CMem MemTypes Allocator MemoryApi Config ConfigText Library Api Execution Dispatch SchedInvariant Placement ExecSubmit.
From stdpp Require Import strings.
Local Open Scope string_scope.
Local Open Scope Z_scope.

Section startup.
Context `{GpuOS, SchedEnv, MemEnv, ConfigEnv, ProcessEnv}.

(** A library before its first use, or after its last [mvgal_shutdown]. *)
Record stopped (l : library) : Prop := {
  off_api : as_initialized (lib_api l) = false;
  off_exec : es_initialized (lib_exec l) = false;
  off_sched : ss_initialized (lib_sched l) = false;
  off_mem : ms_initialized (lib_mem l) = false;
  off_config : cs_initialized (lib_config l) = false;
  off_wf : sched_wf (lib_sched l);
  off_rotation : rotation_ok (ss_afr (lib_sched l));
  off_manager : gm_initialized (lib_manager l) = false;
  off_monitor : hm_running (lib_monitor l) = false;
  off_current : as_current_context (lib_api l) = None
}.

(** The memory manager holds no buffer. *)
Definition no_buffers (m : mvgal_memory_state_t) : Prop := ms_buffers m = None /\ ms_locked m = false.

(** Every module is up; the scheduler waits for work. *)
Record up (l : library) : Prop := {
  up_api : as_initialized (lib_api l) = true;
  up_exec : es_initialized (lib_exec l) = true;
  up_sched : ss_initialized (lib_sched l) = true;
  up_thread : ss_thread_running (lib_sched l) = false;
  up_queue : ss_ready_queue (lib_sched l) = queue_empty;
  up_wf : sched_wf (lib_sched l);
  up_rotation : rotation_ok (ss_afr (lib_sched l));
  up_manager : gm_initialized (lib_manager l) = true;
  up_mem : ms_initialized (lib_mem l) = true;
  up_buffers : no_buffers (lib_mem l);
  up_config : cs_initialized (lib_config l) = true
}.

Lemma wf_ready g : gm_wf g -> gm_initialized g = true -> manager_ready g.
Proof. intros [[_ _ Hc _] _ _ _] Hi. by split. Qed.

(** With scores in the range of the split of a frame, submissions run. *)
Lemma up_running l : up l -> sfr_in_range (lib_sched l) = true -> running l.
Proof.
  intros [U1 U2 U3 U4 U5 U6 U7 U8 U9 U10 U11] Hr. split; [done|done|]. split; [by apply wf_ready; [apply U6|]|].
  split; try done. apply U6.
Qed.

Lemma memory_init_run m :
  ms_initialized m = false -> manager_ready (ms_manager m) ->
  exists m', mvgal_memory_module_init m = Ret (MVGAL_SUCCESS, m') /\ ms_initialized m' = true
    /\ no_buffers m' /\ ms_manager m' = ms_manager m.
Proof.
  intros Hi Hm. unfold mvgal_memory_module_init. rewrite reads_bind, Hi.
  set (m1 := m <| ms_locked := false |> <| ms_buffers := None |> <| ms_total_allocated := 0 |>
    <| ms_total_freed := 0 |> <| ms_system_heap_fd := -1 |> <| ms_gpu_count := 0 |>).
  rewrite (bind_ret _ _ m tt m1) by done.
  rewrite (bind_ret _ _ m1 (sys_ok Open_heap (ms_ticks m)) (m1 <| ms_ticks ::= S |>)) by done.
  set (m2 := m1 <| ms_ticks ::= S |>).
  assert (exists m3, (if sys_ok Open_heap (ms_ticks m)
    then o ← on_mem (new_object []); fd ← new_file o; modify (fun s => s <| ms_system_heap_fd := fd |>)
    else mret tt) m2 = Ret (tt, m3) /\ no_buffers m3 /\ ms_manager m3 = ms_manager m) as (m3 & Hrun & Hb & Hg).
  { destruct (sys_ok Open_heap (ms_ticks m)); eexists; by split_and!. }
  rewrite (bind_ret _ _ m2 tt m3 Hrun). rewrite <-Hg in Hm.
  rewrite (bind_ret _ _ _ _ _ (manager_count_run m3 Hm)).
  destruct (0 <? gm_gpu_count (ms_manager m3)); [|by eexists].
  assert (Hen : exists r, on_manager (mvgal_gpu_enumerate true MVGAL_MAX_GPUS) m3 = Ret (r, m3)).
  { unfold on_manager, mvgal_gpu_enumerate. rewrite manager_op_ready by apply Hm. eexists. cbn. by destruct m3. }
  destruct Hen as [r Hen]. rewrite <-Hg. eexists. split; [|].
  { unfold mbind at 1, M_bind at 1. rewrite (bind_ret _ _ _ _ _ Hen). reflexivity. }
  by split_and!; try apply Hb.
Qed.

Lemma on_memory_ret {A} (m : MM A) l a m' :
  m ((lib_mem l) <| ms_manager := lib_manager l |>) = Ret (a, m') -> ms_manager m' = lib_manager l ->
  on_memory m l = Ret (a, l <| lib_mem := m' |>).
Proof. intros E Hg. unfold on_memory. rewrite E, Hg. by destruct l as [? ? ? []]. Qed.

(** A scheduler that was just started. *)
Record sched_up (s s' : mvgal_scheduler_state_t) : Prop := {
  sc_initialized : ss_initialized s' = true;
  sc_thread : ss_thread_running s' = false;
  sc_queue : ss_ready_queue s' = queue_empty;
  sc_wf : sched_wf s';
  sc_rotation : ss_afr s' = ss_afr s;
  sc_manager : ss_gm s' = ss_gm s;
  sc_config : ss_config s' = default_config;
  sc_stats : ss_stats s' = stats_zero;
  sc_heap : ss_heap s' = ss_heap s
}.

Lemma sched_init_run s :
  ss_initialized s = false -> sched_wf s -> gm_initialized (ss_gm s) = true ->
  exists s', mvgal_scheduler_module_init s = Ret (MVGAL_SUCCESS, s') /\ sched_up s s'.
Proof.
  intros Hi Hw Hg. assert (exists s', mvgal_scheduler_module_init s = Ret (MVGAL_SUCCESS, s') /\
    (sched_wf s' -> sched_up s s')) as (s' & Hrun & Hup).
  { unfold mvgal_scheduler_module_init. rewrite Hi. unfold mvgal_gpu_get_count, module_load_gpus, mvgal_gpu_enumerate.
    change (ss_gm (module_reset s)) with (ss_gm s). rewrite !manager_op_ready by done. cbv zeta.
    destruct (0 <? gm_gpu_count (ss_gm s)); (eexists; split; [reflexivity|by split]). }
  exists s'. split; [done|]. apply Hup. exact (keeps_init s _ s' Hw Hrun).
Qed.

Lemma exec_init_run l :
  es_initialized (lib_exec l) = false ->
  mvgal_execution_module_init l = Ret (MVGAL_SUCCESS,
    l <| lib_exec := mk_exec true 1 (replicate MVGAL_EXECUTION_MAX_FRAMES frame_zero) xstats_zero |>).
Proof. intros E. unfold mvgal_execution_module_init. rewrite reads_bind, E. by destruct l as [? ? []]. Qed.

(** The state of the library after its start. *)
Record booted (flags : Z) (l l' : library) : Prop := {
  bt_up : up l';
  bt_flags : as_flags (lib_api l') = flags;
  bt_refcount : as_refcount (lib_api l') = 1;
  bt_current : as_current_context (lib_api l') = None;
  bt_frames : es_frames (lib_exec l') = replicate MVGAL_EXECUTION_MAX_FRAMES frame_zero;
  bt_next : es_next_frame_id (lib_exec l') = 1;
  bt_stats : es_stats (lib_exec l') = xstats_zero;
  bt_strategy : ss_config (lib_sched l') = default_config;
  bt_settings : cs_current (lib_config l') = config_defaults;
  bt_contexts : lib_contexts l' = lib_contexts l
}.

Lemma init_run flags l :
  stopped l -> exists l', mvgal_init flags l = Ret (MVGAL_SUCCESS, l') /\ booted flags l l'.
Proof.
  intros [S1 S2 S3 S4 S5 S6 S7 _ _ _]. unfold mvgal_init. rewrite reads_bind, S1.
  destruct l as [api ctxs ex s m c mon]. cbn [lib_api lib_exec lib_sched lib_mem lib_config] in *.
  set (g := mvgal_gpu_manager_init (ss_gm s)).
  assert (Hgw : gm_wf g) by (by apply init_wf, S6).
  assert (Hgi : gm_initialized g = true).
  { pose proof (ensure_initialized (ss_gm s)) as Hi. unfold ensure_gpu_manager_initialized in Hi. unfold g.
    destruct (gm_initialized (ss_gm s)) eqn:E; [|done]. unfold mvgal_gpu_manager_init. by rewrite E. }
  set (c1 := c <| cs_default := config_defaults |> <| cs_current := config_defaults |> <| cs_initialized := true |>).
  set (s1 := s <| ss_gm := g |>).
  assert (Hw1 : sched_wf s1) by (destruct S6 as [W1 W2 W3 W4 W5 W6]; by split).
  set (m0 := m <| ms_manager := g |>).
  destruct (memory_init_run m0 S4 (wf_ready _ Hgw Hgi)) as (m1 & Hm & Hmi & Hmb & Hmg).
  destruct (sched_init_run s1 S3 Hw1 Hgi) as (s2 & Hs & [U1 U2 U3 U4 U5 U6 U7 U8 U9]).
  rewrite (bind_ret _ _ _ MVGAL_SUCCESS (mk_lib api ctxs ex s m c1 mon));
    [|unfold on_config, mvgal_config_init; cbn [lib_config]; by rewrite S5]. cbn [is_success negb].
  rewrite (bind_ret _ _ _ MVGAL_SUCCESS (mk_lib api ctxs ex s1 m c1 mon)) by done. cbn [is_success negb].
  rewrite (bind_ret _ _ _ _ _ (on_memory_ret _ (mk_lib api ctxs ex s1 m c1 mon) _ m1 Hm Hmg)). cbn [started negb].
  rewrite (bind_ret _ _ _ _ _ (on_sched_ret _ (mk_lib api ctxs ex s1 m1 c1 mon) _ s2 Hs)). cbn [started negb].
  rewrite (bind_ret _ _ _ _ _ (exec_init_run (mk_lib api ctxs ex s2 m1 c1 mon) S2)). cbn [started negb].
  eexists. split; [reflexivity|]. split; try done. split; try done; [cbn; by rewrite U5|].
  unfold lib_manager. cbn. by rewrite U6.
Qed.

(** ** Stop *)

(** The current context is none or a live one. *)
Definition current_live (l : library) : Prop :=
  match as_current_context (lib_api l) with None => True | Some p => is_Some (lib_contexts l !! p) end.

Lemma memory_shutdown_run m :
  ms_initialized m = true -> no_buffers m ->
  exists m', mvgal_memory_module_shutdown m = Ret (tt, m') /\ ms_initialized m' = false /\ ms_manager m' = ms_manager m.
Proof.
  intros Hi [Hb Hl]. unfold mvgal_memory_module_shutdown. rewrite Hi. cbn [negb].
  set (m1 := m <| ms_locked := true |>). rewrite (bind_ret _ _ m tt m1) by (unfold lock; by rewrite Hl).
  assert (exists m2, (if 0 <=? ms_system_heap_fd m
    then close (ms_system_heap_fd m);; modify (fun s => s <| ms_system_heap_fd := -1 |>) else mret tt) m1
    = Ret (tt, m2) /\ ms_manager m2 = ms_manager m) as (m2 & Hrun & Hg).
  { destruct (0 <=? ms_system_heap_fd m); [|by eexists]. unfold close.
    destruct (ms_system_heap_fd m); by eexists. }
  rewrite (bind_ret _ _ m1 tt m2 Hrun), Hb. rewrite (bind_ret (free_all (size (ms_heap m)) None) _ m2 tt m2)
    by (by destruct (size (ms_heap m))).
  eexists. split; [reflexivity|]. done.
Qed.

Lemma manager_shutdown_wf mon g : gm_wf g -> gm_wf (mvgal_gpu_manager_shutdown mon g).2.
Proof.
  intros Hw. unfold mvgal_gpu_manager_shutdown. destruct (negb (gm_initialized g)); [exact Hw|]. cbn [snd].
  destruct Hw as [Ht Hc Hd Hr]. split; [|done|done|done]. apply (table_wf_intro _ [] (replicate MAX_GPUS gpu_zero)); try done.
Qed.

(** The shutdown stops the manager and its monitor, whatever their state. *)
Lemma manager_shutdown_off mon g :
  gm_initialized (mvgal_gpu_manager_shutdown mon g).2 = false /\ hm_running (mvgal_gpu_manager_shutdown mon g).1 = false.
Proof.
  unfold mvgal_gpu_manager_shutdown.
  assert (hm_running (if hm_running mon then (mvgal_gpu_enable_health_monitoring false 0 true mon).2 else mon) = false) as Hm.
  { destruct (hm_running mon) eqn:E; [|done]. unfold mvgal_gpu_enable_health_monitoring. by rewrite E. }
  by destruct (gm_initialized g) eqn:E.
Qed.

Lemma drop_current_run l :
  current_live l ->
  exists cs, (match as_current_context (lib_api l) with
   | None => mret tt
   | Some _ =>
       mvgal_context_destroy (as_current_context (lib_api l));;
       set_api (fun a => a <| as_current_context := None |>)
   end) l = Ret (tt, l <| lib_contexts := cs |> <| lib_api ::= fun a => a <| as_current_context := None |> |>).
Proof.
  unfold current_live. destruct (as_current_context (lib_api l)) as [p|] eqn:E.
  - intros [ctx Hc]. unfold mvgal_context_destroy, context_at.
    cbn [mbind M_bind]. unfold mbind, M_bind. rewrite Hc. destruct (negb _).
    + exists (lib_contexts l). by destruct l.
    + exists (delete p (lib_contexts l)). unfold set_api, modify. cbn. case_bool_decide; by destruct l as [[] ? ? ? ? ? ?].
  - intros _. exists (lib_contexts l). destruct l as [[] ? ? ? ? ? ?]. cbn in E. by subst.
Qed.

Lemma shutdown_run l :
  up l -> as_refcount (lib_api l) = 1 -> current_live l ->
  exists l', mvgal_shutdown l = Ret (tt, l') /\ stopped l'.
Proof.
  intros [U1 U2 U3 U4 U5 U6 U7 U8 U9 U10 U11] Hr Hc. unfold mvgal_shutdown. rewrite reads_bind, U1, Hr. cbn [negb].
  set (l0 := l <| lib_api ::= fun a => a <| as_refcount ::= fun n => u32 (n - 1) |> |>).
  rewrite (bind_ret _ _ l tt l0) by done. change (0 <? u32 (1 - 1)) with false. cbv iota.
  destruct (drop_current_run l0 Hc) as (cs & Hdrop). change (as_current_context (lib_api l0)) with (as_current_context (lib_api l)) in Hdrop.
  rewrite (bind_ret _ _ _ _ _ Hdrop). set (l1 := l0 <| lib_contexts := cs |> <| lib_api ::= _ |>).
  rewrite (bind_ret _ _ l1 tt (l1 <| lib_exec := exec_zero |>));
    [|unfold mvgal_execution_module_shutdown; rewrite reads_bind; change (es_initialized _) with (es_initialized (lib_exec l)); by rewrite U2].
  set (l2 := l1 <| lib_exec := exec_zero |>). set (s3 := (lib_sched l) <| ss_splitters := [] |> <| ss_initialized := false |>).
  assert (Hs : mvgal_scheduler_module_shutdown (lib_sched l2) = Ret (tt, s3)).
  { unfold mvgal_scheduler_module_shutdown. change (lib_sched l2) with (lib_sched l). by rewrite U3, U4. }
  rewrite (bind_ret _ _ _ _ _ (on_sched_ret _ l2 _ _ Hs)). set (l3 := l2 <| lib_sched := s3 |>).
  set (m3 := (lib_mem l) <| ms_manager := lib_manager l |>).
  destruct (memory_shutdown_run m3 U9 U10) as (m4 & Hm & Hm4 & Hg).
  rewrite (bind_ret _ _ _ _ _ (on_memory_ret _ l3 _ m4 Hm Hg)). set (l4 := l3 <| lib_mem := m4 |>).
  pose proof (manager_shutdown_wf (lib_monitor l) (lib_manager l) (wf_gm _ U6)) as Hgw.
  destruct (manager_shutdown_off (lib_monitor l) (lib_manager l)) as [Hgoff Hmoff].
  destruct (mvgal_gpu_manager_shutdown (lib_monitor l) (lib_manager l)) as [mon g] eqn:Eg. cbn [fst snd] in Hgw, Hgoff, Hmoff.
  set (l5 := l4 <| lib_monitor := mon |> <| lib_sched ::= fun s => s <| ss_gm := g |> |>).
  rewrite (bind_ret gpu_manager_shutdown _ l4 tt l5);
    [|unfold gpu_manager_shutdown; change (lib_monitor l4) with (lib_monitor l); change (lib_manager l4) with (lib_manager l); by rewrite Eg].
  eexists. split.
  { unfold on_config, mvgal_config_shutdown. cbn [mbind M_bind]. unfold mbind, M_bind.
    change (cs_initialized (lib_config l5)) with (cs_initialized (lib_config l)). rewrite U11. reflexivity. }
  destruct U6 as [W1 W2 W3 W4 W5 W6]. by split.
Qed.

(** ** Lifetimes *)

Inductive life : Type :=
| Open (flags : Z)     (* mvgal_init *)
| Attach               (* a call without a context: the current one, or a new one that becomes current *)
| Close.               (* mvgal_shutdown *)

Definition live (o : life) : LM unit :=
  match o with
  | Open flags => mvgal_init flags;; mret tt
  | Attach => resolve_context None;; mret tt
  | Close => mvgal_shutdown
  end.

Fixpoint lives (os : list life) : LM unit :=
  match os with [] => mret tt | o :: os => live o;; lives os end.

(** The number of users that have not closed the library. *)
Definition users (d : Z) (o : life) : Z :=
  match o with Open _ => d + 1 | Attach => Z.max 1 d | Close => Z.max 0 (d - 1) end.

(** A library with [d] users. *)
Definition used_by (d : Z) (l : library) : Prop :=
  if d =? 0 then stopped l else up l /\ as_refcount (lib_api l) = d /\ current_live l.

Lemma used_up d l : 0 < d -> used_by d l -> up l /\ as_refcount (lib_api l) = d /\ current_live l.
Proof. intros Hd. unfold used_by. by rewrite (proj2 (Z.eqb_neq _ _)) by lia. Qed.

Lemma up_used d l : 0 < d -> up l -> as_refcount (lib_api l) = d -> current_live l -> used_by d l.
Proof. intros Hd. unfold used_by. by rewrite (proj2 (Z.eqb_neq _ _)) by lia. Qed.

Lemma open_used flags d l :
  0 <= d < U32_MAX -> used_by d l -> exists l', mvgal_init flags l = Ret (MVGAL_SUCCESS, l') /\ used_by (d + 1) l'.
Proof.
  intros Hd Hu. destruct (Z.eqb_spec d 0) as [->|Hne].
  - destruct (init_run flags l Hu) as (l' & Hrun & Hb). exists l'. split; [done|].
    apply up_used; [lia|apply Hb..|]. unfold current_live. by rewrite (bt_current _ _ _ Hb).
  - apply used_up in Hu as ([U1 U2 U3 U4 U5 U6 U7 U8 U9 U10 U11] & Hr & Hc); [|lia].
    eexists. split; [unfold mvgal_init; rewrite reads_bind, U1; reflexivity|].
    apply up_used; [lia|by split| |done]. cbn. rewrite Hr. apply Z.mod_small. unfold U32_MAX in Hd. lia.
Qed.

Lemma up_more_allocs l : up l -> up (l <| lib_sched ::= fun s => s <| ss_allocs ::= S |> |>).
Proof. intros [U1 U2 U3 U4 U5 [W1 W2 W3 W4 W5 W6] U7 U8 U9 U10 U11]. by split. Qed.

(** A context for a library that is up. *)
Lemma create_up l :
  up l -> exists r l', mvgal_context_create true l = Ret (r, l') /\ up l' /\ lib_api l' = lib_api l
    /\ (forall q, is_Some (lib_contexts l !! q) -> is_Some (lib_contexts l' !! q))
    /\ (is_success r.1 = true -> exists p ctx, r.2 = Some p /\ lib_contexts l' !! p = Some ctx
          /\ cx_magic ctx = MVGAL_CONTEXT_MAGIC).
Proof.
  intros Hu. unfold mvgal_context_create. cbn [negb]. rewrite reads_bind, (up_api _ Hu).
  rewrite (bind_ret _ _ l MVGAL_SUCCESS l) by done. cbn [is_success negb].
  pose proof (up_more_allocs l Hu) as Hu1. set (l1 := l <| lib_sched ::= fun s => s <| ss_allocs ::= S |> |>) in *.
  rewrite (bind_ret (on_sched calloc) _ l (SchedTypes.alloc_ok (ss_allocs (lib_sched l))) l1) by (by destruct l).
  destruct (SchedTypes.alloc_ok _); cbn [negb]; [|by eexists _, l1].
  set (p := fresh (dom (lib_contexts l))). set (ctx := mk_ctx MVGAL_CONTEXT_MAGIC 1 true MVGAL_STRATEGY_HYBRID).
  eexists _, (l1 <| lib_contexts := <[p := ctx]> (lib_contexts l) |>). split; [by destruct l|].
  split; [|split; [done|split]].
  - destruct Hu1 as [U1 U2 U3 U4 U5 U6 U7 U8 U9 U10 U11]. by split.
  - intros q [c Hc]. cbn. destruct (decide (q = p)) as [->|]; [by rewrite lookup_insert_eq|].
    by rewrite lookup_insert_ne, Hc.
  - intros _. exists p, ctx. cbn. by rewrite lookup_insert_eq.
Qed.

Lemma set_current_run p ctx l :
  lib_contexts l !! p = Some ctx -> cx_magic ctx = MVGAL_CONTEXT_MAGIC ->
  mvgal_context_set_current (Some p) l
  = Ret (MVGAL_SUCCESS, l <| lib_api ::= fun a => a <| as_current_context := Some p |> |>).
Proof.
  intros Hc Hm. unfold mvgal_context_set_current. rewrite (bind_ret _ _ l true l); [done|].
  rewrite (bind_ret (context_at p) _ l ctx l) by (unfold context_at; by rewrite Hc). by rewrite Hm.
Qed.

Lemma create_stopped l l1 :
  as_initialized (lib_api l) = false -> mvgal_init 0 l = Ret (MVGAL_SUCCESS, l1) ->
  as_initialized (lib_api l1) = true -> mvgal_context_create true l = mvgal_context_create true l1.
Proof.
  intros Hl Hrun Hl1. unfold mvgal_context_create. cbn [negb]. rewrite !reads_bind, Hl, Hl1.
  by rewrite (bind_ret _ _ _ _ _ Hrun), (bind_ret _ _ l1 MVGAL_SUCCESS l1).
Qed.

(** A new context that becomes current. *)
Lemma attach_new d l :
  0 < d -> used_by d l -> as_current_context (lib_api l) = None ->
  exists r l', resolve_context None l = Ret (r, l') /\ used_by d l'.
Proof.
  intros Hd Hu Hc. apply used_up in Hu as (Hu & Hr & _); [|done].
  destruct (create_up l Hu) as ([e op] & l1 & Hrun & Hu1 & Ha & _ & Hok). cbn [fst snd] in Hok.
  unfold resolve_context, mvgal_context_get_current. rewrite reads_bind, Hc, (bind_ret _ _ _ _ _ Hrun). cbn [fst snd].
  destruct (is_success e) eqn:Ee; cbn [negb].
  - destruct (Hok eq_refl) as (p & ctx & -> & Hp & Hm). rewrite (bind_ret _ _ _ _ _ (set_current_run p ctx l1 Hp Hm)).
    eexists _, _. split; [reflexivity|]. apply up_used; [done| |by cbn; rewrite Ha|by unfold current_live; cbn; rewrite Hp].
    destruct Hu1 as [U1 U2 U3 U4 U5 U6 U7 U8 U9 U10 U11]. by split.
  - eexists _, _. split; [reflexivity|]. apply up_used; [done|done|by rewrite Ha|]. unfold current_live. by rewrite Ha, Hc.
Qed.

Lemma attach_used d l :
  0 <= d -> used_by d l -> exists r l', resolve_context None l = Ret (r, l') /\ used_by (Z.max 1 d) l'.
Proof.
  intros Hd Hu. destruct (as_current_context (lib_api l)) as [c|] eqn:Ec.
  - destruct (Z.eqb_spec d 0) as [->|Hne]; [pose proof (off_current _ Hu); congruence|].
    eexists _, l. replace (Z.max 1 d) with d by lia. split; [|done]. unfold resolve_context, mvgal_context_get_current.
    by rewrite reads_bind, Ec.
  - destruct (Z.eqb_spec d 0) as [->|Hne]; [|replace (Z.max 1 d) with d by lia; apply attach_new; (done || lia)].
    destruct (open_used 0 0 l) as (l1 & Hrun & Hu1); [by unfold U32_MAX|done|].
    destruct (init_run 0 l Hu) as (l1' & Hrun' & Hb). assert (l1' = l1) as -> by congruence.
    destruct (attach_new 1 l1) as (r & l2 & Hrun2 & Hu2); [lia|done|apply Hb|]. exists r, l2. split; [|done].
    revert Hrun2. unfold resolve_context, mvgal_context_get_current. rewrite !reads_bind, Ec, (bt_current _ _ _ Hb).
    unfold mbind, M_bind. by rewrite (create_stopped l l1 (off_api _ Hu) Hrun (up_api _ (bt_up _ _ _ Hb))).
Qed.

Lemma close_used d l :
  0 <= d <= U32_MAX -> used_by d l -> exists l', mvgal_shutdown l = Ret (tt, l') /\ used_by (Z.max 0 (d - 1)) l'.
Proof.
  intros Hd Hu. destruct (Z.eqb_spec d 0) as [->|Hne].
  { exists l. split; [|done]. unfold mvgal_shutdown. by rewrite reads_bind, (off_api _ Hu). }
  apply used_up in Hu as (Hu & Hr & Hc); [|lia]. destruct (Z.eqb_spec d 1) as [->|Hne1]; [by apply shutdown_run|].
  replace (Z.max 0 (d - 1)) with (d - 1) by lia.
  assert (Hm : u32 (d - 1) = d - 1) by (apply Z.mod_small; unfold U32_MAX in Hd; lia).
  eexists. unfold mvgal_shutdown. rewrite reads_bind, (up_api _ Hu), Hr. cbn [negb].
  rewrite (proj2 (Z.ltb_lt 0 _)) by (rewrite Hm; lia). split; [reflexivity|].
  destruct Hu as [U1 U2 U3 U4 U5 U6 U7 U8 U9 U10 U11]. apply up_used; [lia|by split|by cbn; rewrite Hr|done].
Qed.

(** C13. Start and stop are counted.  Whatever calls open the library, close
    it or attach to it, in any order, they return, and the library is up
    exactly while calls that opened it outnumber those that closed it: its
    reference count is that number, every module is up and the current
    context is live.  With the last close every module is stopped, the GPU
    manager and its monitor included, and the library can be opened again; a
    close of a stopped library does nothing. *)
Theorem lifecycle_counts os l d :
  0 <= d -> used_by d l -> d + Z.of_nat (length os) < U32_MAX ->
  exists l', lives os l = Ret (tt, l') /\ used_by (foldl users d os) l'.
Proof.
  revert l d. induction os as [|o os IH]; intros l d Hd Hu Hn; [by exists l|]. cbn [length] in Hn.
  assert (exists l1, live o l = Ret (tt, l1) /\ used_by (users d o) l1) as (l1 & Hrun & Hu1).
  { destruct o as [flags| |]; cbn [live users].
    - destruct (open_used flags d l) as (l1 & Hrun & Hu1); [lia|done|]. exists l1. by rewrite (bind_ret _ _ _ _ _ Hrun).
    - destruct (attach_used d l Hd Hu) as (r & l1 & Hrun & Hu1). exists l1. by rewrite (bind_ret _ _ _ _ _ Hrun).
    - apply close_used; [lia|done]. }
  destruct (IH l1 (users d o)) as (l2 & Hrun2 & Hu2); [destruct o; cbn; lia|done|destruct o; cbn; lia|].
  exists l2. split; [|done]. cbn [lives]. by rewrite (bind_ret _ _ _ _ _ Hrun).
Qed.
End startup.
