(* ===== verification/Frames.v ===== *)
(** * Frames against their specification

    A client sees a set of open frames, each with its submissions and bytes.
    The execution engine keeps 64 slots and reuses those of presented frames;
    as long as fewer than 64 frames are open when a frame begins, a session on
    a running library cannot tell the two apart. *)

From S2P Require Import Prelude Float32 CString GpuTypes GpuManager GpuHealth SchedTypes WorkQueue SchedSelect Strategies Scheduler.
From S2P Require Import SyncPrims CMem MemTypes Allocator MemoryApi Config ConfigText Library Api Execution Dispatch SchedInvariant Placement ExecSubmit.
Local Open Scope Z_scope.

(** ** The specification *)

(** What a client knows of an open frame. *)
Record open_frame : Type := mk_open { of_submits : Z; of_bytes : Z }.

Record frame_spec : Type := mk_fspec { fs_next : Z; fs_open : gmap Z open_frame }.

Inductive frame_call : Type :=
| Begin (info : mvgal_execution_frame_begin_info_t)
| Submit (info : mvgal_execution_submit_info_t)
| Present (id api : Z)
| Stats (id : Z).

Inductive answer : Type :=
| Began (id : Z)
| Submitted (id bytes : Z)
| Presented (id bytes : Z)
| Counted (id submits presents bytes : Z) (active : bool)
| Refused (err : mvgal_error_t).

(** The bytes of a submission. *)
Definition bytes_of (info : mvgal_execution_submit_info_t) : Z :=
  u64 (xi_resource_bytes info + te_data_size (xi_telemetry info)).

(** Calls outside the discipline have no specified answer: a frame more than
    the slots hold, or a frame that is not open. *)
Definition spec_step (a : frame_spec) (c : frame_call) : option (answer * frame_spec) :=
  match c with
  | Begin _ =>
      if bool_decide ((size (fs_open a) < 64)%nat /\ fs_next a < U64_MAX)
      then Some (Began (fs_next a), mk_fspec (fs_next a + 1) (<[fs_next a := mk_open 0 0]> (fs_open a)))
      else None
  | Submit info =>
      f ← fs_open a !! xi_frame_id info;
      Some (Submitted (xi_frame_id info) (bytes_of info), mk_fspec (fs_next a)
        (<[xi_frame_id info := mk_open (u32 (of_submits f + 1)) (u64 (of_bytes f + bytes_of info))]> (fs_open a)))
  | Present id _ =>
      f ← fs_open a !! id;
      Some (Presented id (of_bytes f), mk_fspec (fs_next a) (delete id (fs_open a)))
  | Stats id =>
      f ← fs_open a !! id;
      Some (Counted id (of_submits f) 0 (of_bytes f) true, a)
  end.

Fixpoint spec_run (a : frame_spec) (cs : list frame_call) : option (list answer * frame_spec) :=
  match cs with
  | [] => Some ([], a)
  | c :: cs => r ← spec_step a c; rs ← spec_run r.2 cs; Some (r.1 :: rs.1, rs.2)
  end.

Section frames.
Context `{GpuOS, SchedEnv, MemEnv, ConfigEnv, ProcessEnv}.
Variable context : option addr.

(** ** The calls *)

Definition call (c : frame_call) : LM answer :=
  match c with
  | Begin info =>
      r ← mvgal_execution_begin_frame context (Some info) true;
      mret (match r with (MVGAL_SUCCESS, Some id) => Began id | (e, _) => Refused e end)
  | Submit info =>
      r ← mvgal_execution_submit context (Some info) true;
      mret (match r with (MVGAL_SUCCESS, Some p) => Submitted (pl_frame_id p) (pl_estimated_bytes p) | (e, _) => Refused e end)
  | Present id api =>
      r ← mvgal_execution_present context id api true;
      mret (match r with (MVGAL_SUCCESS, Some p) => Presented (pl_frame_id p) (pl_estimated_bytes p) | (e, _) => Refused e end)
  | Stats id =>
      r ← mvgal_execution_get_frame_stats id true;
      mret (match r with
            | (MVGAL_SUCCESS, Some s) =>
                Counted (fs_frame_id s) (fs_submit_count s) (fs_present_count s) (fs_bytes_scheduled s) (fs_active s)
            | (e, _) => Refused e
            end)
  end.

Fixpoint calls (cs : list frame_call) : LM (list answer) :=
  match cs with
  | [] => mret []
  | c :: cs => r ← call c; rs ← calls cs; mret (r :: rs)
  end.

(** ** The slots *)

(** The GPUs a slot remembers are in the table. *)
Definition slot_gpus_ok (f : mvgal_execution_frame_state_t) : Prop :=
  exists gpus rest, fr_selected_gpu_count f = Z.of_nat (length gpus) /\ fr_selected_gpus f = gpus ++ rest
    /\ Forall in_table gpus.

(** The slot [f] holds the open frame [o]. *)
Definition holds (o : open_frame) (f : mvgal_execution_frame_state_t) : Prop :=
  fr_active f = true /\ fr_submit_count f = of_submits o /\ fr_bytes_scheduled f = of_bytes o /\ fr_present_count f = 0.

Record slots (a : frame_spec) (frames : list mvgal_execution_frame_state_t) : Prop := {
  sl_length : length frames = 64%nat;
  sl_next : 0 < fs_next a;
  sl_open : forall id o, fs_open a !! id = Some o ->
    exists i f, frames !! i = Some f /\ fr_in_use f = true /\ fr_frame_id f = id /\ holds o f;
  sl_active : forall i f, frames !! i = Some f -> fr_active f = true ->
    fr_in_use f = true /\ is_Some (fs_open a !! fr_frame_id f);
  sl_old : forall i f, frames !! i = Some f -> fr_in_use f = true -> 0 < fr_frame_id f < fs_next a;
  sl_unique : forall i j f g, frames !! i = Some f -> frames !! j = Some g -> fr_in_use f = true ->
    fr_in_use g = true -> fr_frame_id f = fr_frame_id g -> i = j;
  sl_gpus : forall i f, frames !! i = Some f -> slot_gpus_ok f
}.

(** The table of an engine that was just started. *)
Lemma slots_fresh : slots (mk_fspec 1 ∅) (replicate MVGAL_EXECUTION_MAX_FRAMES frame_zero).
Proof.
  assert (Hz : forall i f, replicate MVGAL_EXECUTION_MAX_FRAMES frame_zero !! i = Some f -> f = frame_zero).
  { intros i f Hi. by apply lookup_replicate in Hi as [-> _]. }
  split; [by rewrite length_replicate|done|done|..].
  - intros i f ->%Hz. done.
  - intros i f ->%Hz. done.
  - intros i j f g ->%Hz. done.
  - intros i f ->%Hz. by exists [], (replicate 16 0).
Qed.

Lemma find_frame_unique frames id i f :
  frames !! i = Some f -> fr_in_use f = true -> fr_frame_id f = id ->
  (forall j g, frames !! j = Some g -> fr_in_use g = true -> fr_frame_id g = id -> j = i) ->
  find_frame_state id frames = Some i.
Proof.
  intros Hi Hu Hid Hun. unfold find_frame_state.
  destruct (list_find_elem_of (fun f => fr_in_use f = true /\ fr_frame_id f = id) frames f) as [[j g] E];
    [by eapply list_elem_of_lookup_2|done|].
  rewrite E. apply list_find_Some in E as (Hj & [Hg1 Hg2] & _). cbn. f_equal. by eapply Hun.
Qed.

Lemma slots_find a frames id o :
  slots a frames -> fs_open a !! id = Some o ->
  exists i f, find_frame_state id frames = Some i /\ frames !! i = Some f /\ fr_in_use f = true
    /\ fr_frame_id f = id /\ holds o f.
Proof.
  intros Hs Ho. destruct (sl_open _ _ Hs id o Ho) as (i & f & Hi & Hu & Hid & Hh). exists i, f. split; [|done].
  apply (find_frame_unique _ _ _ f); try done. intros j g Hj Hgu Hgid. symmetry.
  apply (sl_unique _ _ Hs i j f g); congruence.
Qed.

(** ** A slot for a new frame *)

Lemma last_inactive_spec frames i r :
  last_inactive i r frames = r /\ Forall (fun f => fr_active f = true) frames
  \/ exists k f, last_inactive i r frames = (i + k)%nat /\ frames !! k = Some f /\ fr_active f = false.
Proof.
  revert i r. induction frames as [|f frames IH]; intros i r; [by left|]. cbn [last_inactive].
  destruct (IH (S i) (if fr_active f then r else i)) as [[E Hall]|(k & g & E & Hk & Hg)].
  - destruct (fr_active f) eqn:Ef; [left; by split; [|constructor]|].
    right. exists 0%nat, f. split; [by rewrite E, Nat.add_0_r|done].
  - right. exists (S k), g. split; [rewrite E; lia|done].
Qed.

Lemma allocate_inactive frames j g :
  frames !! j = Some g -> fr_active g = false ->
  (forall i f, frames !! i = Some f -> fr_active f = true -> fr_in_use f = true) ->
  exists f, frames !! allocate_frame_state frames = Some f /\ fr_active f = false.
Proof.
  intros Hj Hg Hact. unfold allocate_frame_state. destruct (list_find _ frames) as [[i f]|] eqn:E.
  - apply list_find_Some in E as (Hi & Hu & _). exists f. split; [done|].
    destruct (fr_active f) eqn:Ef; [|done]. specialize (Hact _ _ Hi Ef). congruence.
  - destruct (last_inactive_spec frames 0 0) as [[_ Hall]|(k & f & -> & Hk & Hf)]; [|by exists f].
    rewrite Forall_lookup in Hall. specialize (Hall _ _ Hj). congruence.
Qed.

(** Fewer open frames than slots leave one that is not active. *)
Lemma slots_room a frames :
  slots a frames -> (size (fs_open a) < 64)%nat -> exists j g, frames !! j = Some g /\ fr_active g = false.
Proof.
  intros Hs Hn. destruct (decide (Exists (fun f => fr_active f = false) frames)) as [[g [Hg Hf]]%Exists_exists|Hno].
  { apply list_elem_of_lookup in Hg as [j Hj]. by exists j, g. }
  exfalso. apply not_Exists_Forall in Hno; [|apply _].
  assert (Hall : forall i f, frames !! i = Some f -> fr_active f = true).
  { intros i f Hi. rewrite Forall_lookup in Hno. specialize (Hno i f Hi). by apply not_false_is_true. }
  assert (Hnd : NoDup (fr_frame_id <$> frames)).
  { apply NoDup_alt. intros i j id Hi Hj. rewrite list_lookup_fmap in Hi, Hj.
    destruct (frames !! i) as [f|] eqn:Ei; [|done]. destruct (frames !! j) as [g|] eqn:Ej; [|done].
    injection Hi as <-. injection Hj as Hj.
    apply (sl_unique _ _ Hs i j f g); try done; [apply (sl_active _ _ Hs i f); eauto|apply (sl_active _ _ Hs j g); eauto]. }
  assert (Hsub : list_to_set (fr_frame_id <$> frames) ⊆ dom (fs_open a)).
  { intros id [f [-> Hf]]%elem_of_list_to_set%list_elem_of_fmap. apply list_elem_of_lookup in Hf as [i Hi].
    apply elem_of_dom. apply (sl_active _ _ Hs i f Hi). eauto. }
  apply subseteq_size in Hsub. rewrite size_dom, size_list_to_set, length_fmap, (sl_length _ _ Hs) in Hsub by done. lia.
Qed.

Lemma slots_begin a frames i f g :
  slots a frames -> frames !! i = Some g -> fr_active g = false ->
  fr_in_use f = true -> fr_frame_id f = fs_next a -> holds (mk_open 0 0) f -> slot_gpus_ok f ->
  slots (mk_fspec (fs_next a + 1) (<[fs_next a := mk_open 0 0]> (fs_open a))) (<[i := f]> frames).
Proof.
  intros Hs Hi Hg Hu Hid Hh Hgp. pose proof (lookup_lt_Some _ _ _ Hi) as Hlt.
  assert (Hother : forall j h, frames !! j = Some h -> fr_in_use h = true -> fr_frame_id h <> fs_next a).
  { intros j h Hj Hju. pose proof (sl_old _ _ Hs j h Hj Hju). lia. }
  split; cbn [fs_next fs_open].
  - by rewrite length_insert, (sl_length _ _ Hs).
  - pose proof (sl_next _ _ Hs). lia.
  - intros id o. destruct (decide (id = fs_next a)) as [->|Hne].
    { rewrite lookup_insert_eq. intros [= <-]. exists i, f. by rewrite list_lookup_insert_eq. }
    rewrite lookup_insert_ne by done. intros Ho. destruct (sl_open _ _ Hs id o Ho) as (j & h & Hj & Hju & Hjid & Hjh).
    exists j, h. rewrite list_lookup_insert_ne; [done|]. intros ->. destruct Hjh as [Hja _]. congruence.
  - intros j h [(-> & <- & _)|[_ Hj]]%list_lookup_insert_Some Ha.
    { split; [done|]. by rewrite Hid, lookup_insert_eq. }
    destruct (sl_active _ _ Hs j h Hj Ha) as [Hju Hjo]. split; [done|]. rewrite lookup_insert_ne by (symmetry; eauto). done.
  - intros j h [(-> & <- & _)|[_ Hj]]%list_lookup_insert_Some Hju; [rewrite Hid; pose proof (sl_next _ _ Hs); lia|].
    pose proof (sl_old _ _ Hs j h Hj Hju). lia.
  - intros j k h h' [(-> & <- & _)|[_ Hj]]%list_lookup_insert_Some [(-> & <- & _)|[_ Hk]]%list_lookup_insert_Some Hju Hku E.
    + done.
    + exfalso. apply (Hother k h' Hk Hku). congruence.
    + exfalso. apply (Hother j h Hj Hju). congruence.
    + by apply (sl_unique _ _ Hs j k h h').
  - intros j h [(-> & <- & _)|[_ Hj]]%list_lookup_insert_Some; [done|by apply (sl_gpus _ _ Hs j h)].
Qed.

(** ** A frame that changes or closes *)

Definition becomes (o : option open_frame) (f : mvgal_execution_frame_state_t) : Prop :=
  match o with Some o => holds o f | None => fr_active f = false end.

Lemma slots_replace a frames i f f' o' :
  slots a frames -> frames !! i = Some f -> fr_in_use f = true -> fr_in_use f' = true ->
  fr_frame_id f' = fr_frame_id f -> becomes o' f' -> slot_gpus_ok f' ->
  slots (mk_fspec (fs_next a) (partial_alter (fun _ => o') (fr_frame_id f) (fs_open a))) (<[i := f']> frames).
Proof.
  intros Hs Hi Hu Hu' Hid Hb Hgp. pose proof (lookup_lt_Some _ _ _ Hi) as Hlt.
  assert (Hother : forall j h, frames !! j = Some h -> fr_in_use h = true -> j <> i -> fr_frame_id h <> fr_frame_id f).
  { intros j h Hj Hju Hne E. apply Hne. by apply (sl_unique _ _ Hs j i h f). }
  split; cbn [fs_next fs_open].
  - by rewrite length_insert, (sl_length _ _ Hs).
  - apply Hs.
  - intros id o. destruct (decide (id = fr_frame_id f)) as [->|Hne].
    { rewrite lookup_partial_alter_eq. intros ->. exists i, f'. by rewrite list_lookup_insert_eq. }
    rewrite lookup_partial_alter_ne by done. intros Ho. destruct (sl_open _ _ Hs id o Ho) as (j & h & Hj & Hju & Hjid & Hjh).
    exists j, h. rewrite list_lookup_insert_ne; [done|]. intros ->. congruence.
  - intros j h [(-> & <- & _)|[Hne Hj]]%list_lookup_insert_Some Ha.
    { split; [done|]. rewrite Hid, lookup_partial_alter_eq. destruct o'; [done|]. cbn in Hb. congruence. }
    destruct (sl_active _ _ Hs j h Hj Ha) as [Hju Hjo]. split; [done|].
    rewrite lookup_partial_alter_ne; [done|]. symmetry. by apply (Hother j).
  - intros j h [(-> & <- & _)|[_ Hj]]%list_lookup_insert_Some Hju; [rewrite Hid; exact (sl_old _ _ Hs _ f Hi Hu)|].
    by apply (sl_old _ _ Hs j h).
  - intros j k h h' [(-> & <- & _)|[Hj' Hj]]%list_lookup_insert_Some [(-> & <- & _)|[Hk' Hk]]%list_lookup_insert_Some Hju Hku E.
    + done.
    + exfalso. apply (Hother k h' Hk Hku); congruence.
    + exfalso. apply (Hother j h Hj Hju); congruence.
    + by apply (sl_unique _ _ Hs j k h h').
  - intros j h [(-> & <- & _)|[_ Hj]]%list_lookup_insert_Some; [done|by apply (sl_gpus _ _ Hs j h)].
Qed.

(** ** The library of a session *)

(** [context] stands for a live context. *)
Definition has_context (l : library) : Prop :=
  exists c, effective context l = Some c /\ is_Some (lib_contexts l !! c).

Record tracks (a : frame_spec) (l : library) : Prop := {
  tr_running : running l;
  tr_context : has_context l;
  tr_next : es_next_frame_id (lib_exec l) = fs_next a;
  tr_slots : slots a (es_frames (lib_exec l))
}.

(** The parts of the library that a call of a session leaves. *)
Record session_step (e' : mvgal_execution_state_t) (l l' : library) : Prop := {
  st_sched : manager_ready (lib_manager l') /\ at_rest (lib_sched l');
  st_api : lib_api l' = lib_api l;
  st_contexts : lib_contexts l' = lib_contexts l;
  st_exec : lib_exec l' = e'
}.

Lemma tracks_step a a' e' l l' :
  tracks a l -> session_step e' l l' -> es_initialized e' = true -> es_next_frame_id e' = fs_next a' ->
  slots a' (es_frames e') -> tracks a' l'.
Proof.
  intros [[R1 R2 R3] (c & Hc & Hl) T3 T4] [Q1 Q2 Q3 Q4] Hi Hn Hs. split; [|exists c|by rewrite Q4|by rewrite Q4].
  - split; [by rewrite Q2|by rewrite Q4|exact Q1].
  - unfold effective in *. by rewrite Q2, Q3.
Qed.

(** A clock reading. *)
Lemma tick_run l :
  execution_get_time_ns l
  = Ret (clock_ns (ss_ticks (lib_sched l)), l <| lib_sched ::= fun s => s <| ss_ticks ::= S |> |>).
Proof. by destruct l. Qed.

Lemma get_strategy_run c l :
  is_Some (lib_contexts l !! c) -> exists st, mvgal_get_strategy (Some c) l = Ret (st, l).
Proof.
  intros [ctx Hc]. eexists. unfold mvgal_get_strategy. rewrite reads_bind. cbn [context_or_current].
  unfold mbind, M_bind, context_at. rewrite Hc. reflexivity.
Qed.

(** ** The calls keep to the specification *)

Lemma begin_tracks a l info :
  tracks a l -> (size (fs_open a) < 64)%nat -> fs_next a < U64_MAX ->
  exists l', call (Begin info) l = Ret (Began (fs_next a), l')
    /\ tracks (mk_fspec (fs_next a + 1) (<[fs_next a := mk_open 0 0]> (fs_open a))) l'.
Proof.
  intros Ht Hroom Hmax. destruct (tr_context _ _ Ht) as (c & Hc & Hlive). pose proof (tr_slots _ _ Ht) as Hs.
  destruct (slots_room _ _ Hs Hroom) as (j & g & Hj & Hg).
  destruct (allocate_inactive _ j g Hj Hg) as (g' & Hi & Hg'); [intros i f Hi Ha; by apply (sl_active _ _ Hs i f)|].
  set (e := lib_exec l) in *. set (i := allocate_frame_state (es_frames e)) in *.
  set (l1 := l <| lib_exec ::= fun e => e <| es_next_frame_id ::= fun n => u64 (n + 1) |> |>).
  assert (exists st, (if bool_decide (bi_requested_strategy info = MVGAL_STRATEGY_AUTO)
    then mvgal_get_strategy (Some c) else mret MVGAL_STRATEGY_AUTO) l1 = Ret (st, l1)) as (st & Hst).
  { case_bool_decide; [by apply get_strategy_run|by eexists]. }
  set (f := new_frame (es_next_frame_id e) (Some c) info st (clock_ns (ss_ticks (lib_sched l)))).
  eexists. split.
  - unfold call, mvgal_execution_begin_frame. unfold mbind at 1, M_bind at 1.
    rewrite (bind_ret _ _ _ _ _ (prepare_run context c l (tr_running _ _ Ht) Hc)). cbn [fst snd is_success negb].
    rewrite reads_bind. rewrite (bind_ret _ _ l tt l1) by done. rewrite (bind_ret _ _ _ _ _ Hst).
    rewrite (bind_ret _ _ _ _ _ (tick_run l1)). fold e. rewrite <-(tr_next _ _ Ht). reflexivity.
  - pose proof (sl_next _ _ Hs). eapply (tracks_step a _ _ l _ Ht); [split; [|reflexivity..]| | |].
    + destruct (tr_running _ _ Ht) as [_ _ [Hm Hr]]. split; [exact Hm|exact (at_rest_tick _ Hr)].
    + apply Ht.
    + etrans; [exact (f_equal (fun n => u64 (n + 1)) (tr_next _ _ Ht))|].
      cbn [fs_next]. apply Z.mod_small. unfold U64_MAX in Hmax. lia.
    + apply (slots_begin a (es_frames e) i f g'); try done; [exact (tr_next _ _ Ht)|]. by exists [], (replicate 16 0).
Qed.

Lemma insert_alter id (o : open_frame) (m : gmap Z open_frame) : <[id := o]> m = partial_alter (fun _ => Some o) id m.
Proof. done. Qed.

Lemma submit_tracks a l info o :
  tracks a l -> fs_open a !! xi_frame_id info = Some o -> SchedTypes.alloc_ok (ss_allocs (lib_sched l)) = true ->
  exists l', call (Submit info) l = Ret (Submitted (xi_frame_id info) (bytes_of info), l')
    /\ tracks (mk_fspec (fs_next a) (<[xi_frame_id info :=
         mk_open (u32 (of_submits o + 1)) (u64 (of_bytes o + bytes_of info))]> (fs_open a))) l'.
Proof.
  intros Ht Ho Ha. destruct (tr_context _ _ Ht) as (c & Hc & Hlive). pose proof (tr_slots _ _ Ht) as Hs.
  destruct (slots_find _ _ _ _ Hs Ho) as (i & f & Hfind & Hi & Hu & Hid & Hact & Hsub & Hby & Hpr).
  assert (Hne : xi_frame_id info <> 0) by (pose proof (sl_old _ _ Hs i f Hi Hu); lia).
  destruct (execution_submit_run context c info l i (tr_running _ _ Ht) Hc Ha Hne Hfind) as (plan & gpus & l' & Hrun & Hp & Hsu).
  assert (Hat : frame_at i (lib_exec l) = f) by (by apply list_lookup_total_correct). rewrite Hat in Hp.
  exists l'. split.
  - cbn [call]. rewrite (bind_ret _ _ _ _ _ Hrun). by rewrite (sp_frame _ _ _ _ _ Hp), (sp_bytes _ _ _ _ _ Hp), Hid.
  - apply (tracks_step a _ (submitted_exec i (xi_api info) plan (lib_exec l)) l l' Ht); [|apply Ht|apply Ht|].
    { destruct (submitted_running _ _ _ _ _ Hsu (tr_running _ _ Ht)) as [_ _ Hcalm]. split; [exact Hcalm|apply Hsu..]. }
    unfold submitted_exec. cbn [es_frames upd]. rewrite Hat, insert_alter, <-Hid.
    destruct (sp_gpus _ _ _ _ _ Hp) as [Hcount [rest Hlist] _].
    apply (slots_replace a _ i f); [done..| |].
    + split; [done|]. cbn. by rewrite Hsub, Hby, (sp_bytes _ _ _ _ _ Hp).
    + exists gpus, rest. split; [done|]. split; [done|]. apply (sp_selection _ _ _ _ _ Hp).
Qed.

(** A presentation of the frame in slot [i]. *)
Lemma present_run c id api l i f :
  running l -> effective context l = Some c -> id <> 0 -> find_frame_state id (es_frames (lib_exec l)) = Some i ->
  frame_at i (lib_exec l) = f -> slot_gpus_ok f ->
  exists plan now l', mvgal_execution_present context id api true l = Ret ((MVGAL_SUCCESS, Some plan), l')
    /\ pl_frame_id plan = fr_frame_id f /\ pl_estimated_bytes plan = fr_bytes_scheduled f
    /\ session_step ((lib_exec l) <| es_frames ::= <[i := presented_frame plan now f]> |>
         <| es_stats ::= fun x => x <| x_frames_completed ::= fun n => u64 (n + 1) |> |>) l l'.
Proof.
  intros Hr Hc Hid Hi Hf (gpus & rest & Hcount & Hlist & Hg). pose proof (ru_calm _ Hr) as [Hm Hrest].
  assert (Htake : take (Z.to_nat (fr_selected_gpu_count f)) (fr_selected_gpus f) = gpus).
  { rewrite Hcount, Hlist, Nat2Z.id. apply take_app_length. }
  destruct (cross_vendor_run gpus MVGAL_VENDOR_UNKNOWN l Hm) as (cross & Hcross).
  set (plan := (present_plan f api (gpu_bits gpus 0)) <| pl_cross_vendor := cross |>).
  assert (Hp : plan_gpus plan gpus).
  { split; [exact Hcount|by exists rest|]. intros j Hj. cbn. rewrite gpu_bits_spec by done. by rewrite Z.bits_0. }
  destruct (migration_run plan gpus l Hm Hg Hp) as (m' & _ & Hmig). set (l1 := l <| lib_mem := m' |>) in *.
  eexists _, (clock_ns (ss_ticks (lib_sched l))), _. split; [|split; [|split]].
  - unfold mvgal_execution_present. rewrite (proj2 (Z.eqb_neq _ _) Hid). cbn [negb orb].
    run (prepare_run context c l Hr Hc). cbn [fst snd is_success negb]. rewrite reads_bind, Hi, Hf, Htake.
    run (gpu_mask_of_run gpus 0 l Hg). run Hcross. run Hmig. run (tick_run l1). reflexivity.
  - reflexivity.
  - reflexivity.
  - split; [split; [exact Hm|exact (at_rest_tick _ Hrest)]|reflexivity..].
Qed.

Lemma present_tracks a l id api o :
  tracks a l -> fs_open a !! id = Some o ->
  exists l', call (Present id api) l = Ret (Presented id (of_bytes o), l')
    /\ tracks (mk_fspec (fs_next a) (delete id (fs_open a))) l'.
Proof.
  intros Ht Ho. destruct (tr_context _ _ Ht) as (c & Hc & Hlive). pose proof (tr_slots _ _ Ht) as Hs.
  destruct (slots_find _ _ _ _ Hs Ho) as (i & f & Hfind & Hi & Hu & Hid & Hact & Hsub & Hby & Hpr).
  assert (Hne : id <> 0) by (pose proof (sl_old _ _ Hs i f Hi Hu); lia).
  assert (Hat : frame_at i (lib_exec l) = f) by (by apply list_lookup_total_correct).
  destruct (present_run c id api l i f (tr_running _ _ Ht) Hc Hne Hfind Hat (sl_gpus _ _ Hs i f Hi))
    as (plan & now & l' & Hrun & Hpid & Hpb & Hst).
  exists l'. split.
  - cbn [call]. rewrite (bind_ret _ _ _ _ _ Hrun). by rewrite Hpid, Hpb, Hby, Hid.
  - apply (tracks_step a _ _ l l' Ht Hst); [apply Ht|apply Ht|]. cbn [es_frames upd].
    change (delete id (fs_open a)) with (partial_alter (fun _ => None) id (fs_open a)). rewrite <-Hid.
    apply (slots_replace a _ i f); try done. exact (sl_gpus _ _ Hs i f Hi).
Qed.

Lemma stats_tracks a l id o :
  tracks a l -> fs_open a !! id = Some o ->
  call (Stats id) l = Ret (Counted id (of_submits o) 0 (of_bytes o) true, l).
Proof.
  intros Ht Ho. pose proof (tr_slots _ _ Ht) as Hs.
  destruct (slots_find _ _ _ _ Hs Ho) as (i & f & Hfind & Hi & Hu & Hid & Hact & Hsub & Hby & Hpr).
  assert (Hne : id <> 0) by (pose proof (sl_old _ _ Hs i f Hi Hu); lia).
  assert (Hat : frame_at i (lib_exec l) = f) by (by apply list_lookup_total_correct).
  cbn [call]. unfold mvgal_execution_get_frame_stats. rewrite (proj2 (Z.eqb_neq _ _) Hne). cbn [negb orb].
  rewrite (bind_ret _ _ l (MVGAL_SUCCESS, Some (frame_stats f)) l).
  - cbn. by rewrite Hid, Hsub, Hby, Hpr, Hact.
  - rewrite reads_bind, (ru_exec _ (tr_running _ _ Ht)). cbn [negb]. by rewrite Hfind, Hat.
Qed.

Hypothesis memory_lasts : forall n, SchedTypes.alloc_ok n = true.

(** C3. Frames refine their specification.  On a running library, any
    sequence of calls that begin frames, submit to open frames, ask for their
    statistics and present them is answered as the specification answers it:
    every call succeeds, frame numbers count up, each plan names its frame,
    the bytes of a frame are the sum of those of its submissions, and the
    statistics of an open frame show all its submissions.  The 64 slots are
    reused without an open frame being lost as long as fewer than 64 are open
    when a frame begins. *)
Theorem frames_refine cs a l answers a' :
  tracks a l -> spec_run a cs = Some (answers, a') ->
  exists l', calls cs l = Ret (answers, l') /\ tracks a' l'.
Proof.
  revert a l answers. induction cs as [|c cs IH]; intros a l answers Ht E; [injection E as <- <-; by exists l|].
  cbn [spec_run] in E. destruct (spec_step a c) as [[r a1]|] eqn:Es; [|done]. cbn [mbind option_bind fst snd] in E.
  destruct (spec_run a1 cs) as [[rs a2]|] eqn:Er; [|done]. injection E as <- <-.
  assert (exists l1, call c l = Ret (r, l1) /\ tracks a1 l1) as (l1 & Hrun & Ht1).
  { destruct c as [info|info|id api|id]; cbn [spec_step] in Es.
    - case_bool_decide as Hb; [|done]. injection Es as <- <-. destruct Hb. by apply begin_tracks.
    - destruct (fs_open a !! xi_frame_id info) as [o|] eqn:Ho; [|done]. injection Es as <- <-. by apply submit_tracks.
    - destruct (fs_open a !! id) as [o|] eqn:Ho; [|done]. injection Es as <- <-. by apply present_tracks.
    - destruct (fs_open a !! id) as [o|] eqn:Ho; [|done]. injection Es as <- <-. exists l. split; [by apply (stats_tracks a)|done]. }
  destruct (IH a1 l1 rs Ht1 Er) as (l2 & Hrun2 & Ht2). exists l2. split; [|done].
  cbn [calls]. by rewrite (bind_ret _ _ _ _ _ Hrun), (bind_ret _ _ _ _ _ Hrun2).
Qed.
End frames.
