(* ===== verification/LibraryRuns.v ===== *)
(** * Runs of the whole library

    A host with two cards on which every system call succeeds: the library is
    started on it, and a client begins frames, submits and presents. *)

From S2P Require Import Prelude Float32 CString GpuTypes GpuManager GpuHealth SchedTypes WorkQueue SchedSelect Strategies SfrTiling Scheduler.
From S2P Require Import SyncPrims CMem MemTypes Allocator MemoryApi Config ConfigText Library Api Execution Dispatch SchedInvariant Placement ExecSubmit Startup Frames.
From stdpp Require Import strings.
Local Open Scope Z_scope.

Module Desktop.
#[local] Existing Instance TwoCards.os.
#[local] Existing Instance plenty.

#[local] Instance calls_succeed : MemEnv := {|
  sys_ok _ _ := true;
  junk _ _ := 0;
  region_address r := Z.pos r * 4096
|}.

#[local] Instance disk : ConfigEnv := {| alloc_ok _ := true; writable _ := Some 65536%nat |}.

(** No variable of Steam is set. *)
#[local] Instance shell : ProcessEnv := {| getenv _ := None |}.

(** The static data of the process. *)
Definition process : library :=
  mk_lib (mk_api 0 false 0 None) ∅ exec_zero sched_start
    (mk_ms false false None 0 0 (-1) [] 0 ∅ (mk_cmem ∅ ∅) ∅ (mk_sync ∅ ∅) gm_start 0)
    (config_start ∅) hm_start.

Definition after {A} (m : LM A) (l : library) : library := match m l with Ret (_, l') => l' | _ => l end.

(** The library after its start, with a context. *)
Definition started_lib : library := after (mvgal_init 1;; resolve_context None) process.

Lemma rotation_zero : rotation_ok afr_zero.
Proof. split; [done| |done|done]. apply Forall_replicate. by unfold in_table. Qed.

Lemma process_stopped : stopped process.
Proof. split; try done; [exact sched_start_wf|exact rotation_zero]. Qed.

Lemma lifecycle_counts_witness :
  exists l', lives [Open 1; Attach; Open 0; Close; Attach; Close; Close; Attach] process = Ret (tt, l') /\ used_by 1 l'.
Proof. apply (lifecycle_counts [Open 1; Attach; Open 0; Close; Attach; Close; Close; Attach] process 0); [done|exact process_stopped|done]. Defined.

Lemma started_ready : manager_ready (lib_manager started_lib).
Proof.
  assert (E : gm_gpu_count (lib_manager started_lib) = 2) by (vm_compute; reflexivity).
  split; [vm_compute; reflexivity|]. rewrite E. lia.
Qed.

Lemma started_rest : at_rest (lib_sched started_lib).
Proof.
  assert (E : ss_gpu_count (lib_sched started_lib) = 2) by (vm_compute; reflexivity).
  assert (Ea : ss_afr (lib_sched started_lib) = afr_zero) by (vm_compute; reflexivity).
  split; [vm_compute; reflexivity..|rewrite Ea; exact rotation_zero|rewrite E; lia].
Qed.

Lemma started_running : running started_lib.
Proof. split; [vm_compute; reflexivity..|]. split; [exact started_ready|exact started_rest]. Qed.

Lemma started_tracks : tracks None (mk_fspec 1 ∅) started_lib.
Proof.
  split; [exact started_running| |vm_compute; reflexivity|].
  - exists 1%positive. split; [vm_compute; reflexivity|vm_compute; eauto].
  - assert (E : es_frames (lib_exec started_lib) = replicate MVGAL_EXECUTION_MAX_FRAMES frame_zero)
      by (vm_compute; reflexivity).
    rewrite E. exact slots_fresh.
Qed.

Definition job (id bytes : Z) : mvgal_execution_submit_info_t :=
  mk_submit id MVGAL_API_VULKAN MVGAL_STRATEGY_AUTO
    (mk_telemetry MVGAL_WORKLOAD_GRAPHICS None 0 false false) bytes 1 1 0.

Definition game : mvgal_execution_frame_begin_info_t := mk_begin MVGAL_API_VULKAN MVGAL_STRATEGY_AUTO None false false true.

Lemma memory_lasts n : SchedTypes.alloc_ok n = true.
Proof. reflexivity. Qed.

Definition session : list frame_call :=
  [Begin game; Submit (job 1 4096); Submit (job 1 100); Begin game; Stats 1; Present 1 MVGAL_API_VULKAN;
   Submit (job 2 67108864); Stats 2].

Lemma frames_refine_witness :
  exists l', calls None session started_lib
    = Ret ([Began 1; Submitted 1 4096; Submitted 1 100; Began 2; Counted 1 2 0 4196 true; Presented 1 4196;
            Submitted 2 67108864; Counted 2 1 0 67108864 true], l')
    /\ tracks None (mk_fspec 3 {[2 := mk_open 1 67108864]}) l'.
Proof.
  apply (frames_refine None memory_lasts session (mk_fspec 1 ∅) started_lib); [exact started_tracks|].
  vm_compute. reflexivity.
Defined.

(** The library with one frame open. *)
Definition begun : library := after (call None (Begin game)) started_lib.

Lemma begun_tracks : tracks None (mk_fspec 2 {[1 := mk_open 0 0]}) begun.
Proof.
  destruct (begin_tracks None _ _ game started_tracks) as (l' & Hrun & Ht); [by apply Nat.ltb_lt|done|].
  unfold begun, after. by rewrite Hrun.
Qed.

(** A first frame on two cards: the plan is to alternate between them. *)
Lemma execution_submit_spec_witness :
  exists plan gpus l', mvgal_execution_submit None (Some (job 1 4096)) true begun = Ret ((MVGAL_SUCCESS, Some plan), l')
    /\ pl_applied_strategy plan = MVGAL_STRATEGY_AFR /\ gpus <> [] /\ plan_gpus plan gpus /\ running l'.
Proof.
  destruct (tr_context _ _ _ begun_tracks) as (c & Hc & _).
  destruct (execution_submit_spec None c (job 1 4096) begun 0) as (plan & gpus & l' & Hrun & Hp & _ & _ & _ & _ & _ & Hr);
    [apply begun_tracks|exact Hc|apply memory_lasts|done|vm_compute; reflexivity|].
  exists plan, gpus, l'. split; [exact Hrun|]. split; [rewrite (sp_applied _ _ _ _ _ Hp); vm_compute; reflexivity|].
  split; [|split; [apply Hp|exact Hr]]. apply (se_some _ _ (sp_selection _ _ _ _ _ Hp)). vm_compute. discriminate.
Defined.

(** ** Where the engine departs from what it means *)

Definition answer_of {A} (m : LM A) (l : library) : option A := match m l with Ret (a, _) => Some a | _ => None end.

(** A start with the path of a configuration file fails: the load has already
    initialized the configuration, and the start takes that for an error. *)
Example init_with_config_refused :
  answer_of (mvgal_init_with_config (Some "mvgal.conf"%string) 1) process = Some MVGAL_ERROR_ALREADY_INITIALIZED
  /\ as_initialized (lib_api (after (mvgal_init_with_config (Some "mvgal.conf"%string) 1) process)) = false.
Proof. split; vm_compute; reflexivity. Qed.

(** Frame after frame goes to the first card: each submission has a mask, and
    a masked workload starts the rotation anew. *)
Definition plays (n : nat) : LM (list (mvgal_distribution_strategy_t * Z * list Z)) :=
  Nat.iter n (fun k =>
    b ← mvgal_execution_begin_frame None (Some game) true;
    r ← mvgal_execution_submit None (Some (job (default 0 b.2) 4096)) true;
    rest ← k;
    mret (match r.2 with
          | Some p => (pl_applied_strategy p, pl_selected_gpu_count p, take 1 (pl_selected_gpus p)) :: rest
          | None => rest
          end)) (mret []).

Example afr_stays_on_one_card :
  answer_of (plays 4) started_lib = Some (replicate 4 (MVGAL_STRATEGY_AFR, 1, [0])).
Proof. vm_compute. reflexivity. Qed.

(** With all slots active, a new frame takes the first slot: the frame that
    was there is lost while it is open. *)
Example frame_lost_when_full :
  answer_of (calls None (replicate 65 (Begin game) ++ [Stats 1; Submit (job 1 1)])) started_lib
  = Some ((Began <$> seqZ 1 65) ++ [Refused MVGAL_ERROR_NOT_FOUND; Refused MVGAL_ERROR_NOT_FOUND]).
Proof. vm_compute. reflexivity. Qed.
End Desktop.
