(* ===== verification/RtDevices.v ===== *)
(** * Devices of the runtime daemon

    src/runtime/daemon/device_registry.cpp: the GPUs the daemon finds on the
    host, with the state it reads from sysfs, and those that other nodes
    announce.  Each method holds the mutex of the registry from start to end,
    so a call is one step. *)

From S2P Require Import Prelude CString ConfigText.
From stdpp Require Import strings sorting.
From Stdlib Require Import Ascii.
Local Open Scope string_scope.
Local Open Scope Z_scope.

(** ** The file system *)

Inductive d_type : Type := DT_CHR | DT_DIR | DT_UNKNOWN | DT_LNK | DT_REG.

(** The files and directories at the time of a call. *)
Record host_files : Type := mk_files {
  hf_dir : string -> option (list (string * d_type));
  hf_file : string -> option string
}.

(** ** Text *)

(** [>>] into a [std::string]: the next word, empty when there is none. *)
Fixpoint word_of (s : string) : string :=
  match s with
  | String c s' => if is_space c then "" else String c (word_of s')
  | EmptyString => ""
  end.
Definition next_word (s : string) : string := word_of (skip_spaces s).

(** [>>] into an [int]: [None] when the stream fails. *)
Definition next_int (s : string) : option Z :=
  let '(neg, s) := scan_sign (skip_spaces s) in
  if negb (starts_digit 10 s) then None else
  let v := (scan_digits 10 s 0).1 in
  let v := if neg then - v else v in
  if (-2147483648 <=? v) && (v <=? 2147483647) then Some v else None.

(** [std::stoi(s, nullptr, 16)]: [None] when it throws. *)
Definition stoi16 (s : string) : option Z :=
  let '(neg, s) := scan_sign (skip_spaces s) in
  let s := default s (scan_0x s) in
  if negb (starts_digit 16 s) then None else
  let v := (scan_digits 16 s 0).1 in
  let v := if neg then - v else v in
  if (-2147483648 <=? v) && (v <=? 2147483647) then Some v else None.

Definition u16 (z : Z) : Z := z mod 65536.

(** The [%04hx] conversion of [fscanf]: at most four characters. *)
Definition scan_hex4 (s : string) : option (Z * string) :=
  let s := skip_spaces s in
  match scan_hex (String.substring 0 4 s) with
  | None => None
  | Some (v, rest) =>
      let used := (String.length (String.substring 0 4 s) - String.length rest)%nat in
      Some (u16 v, String.substring used (String.length s - used) s)
  end.

(** [fscanf(f, "%04hx:%04hx", &v, &d) == 2]. *)
Definition scan_ids (s : string) : option (Z * Z) :=
  '(v, s) ← scan_hex4 s;
  s ← expect ":" s;
  '(d, s) ← scan_hex4 s;
  Some (v, d).

Definition hex_char (d : Z) : ascii :=
  ascii_of_N (Z.to_N (if d <? 10 then 48 + d else 87 + d)).

(** [%04x] of a 16-bit value. *)
Definition print_x4 (v : Z) : string :=
  String (hex_char (v / 4096 mod 16)) (String (hex_char (v / 256 mod 16))
    (String (hex_char (v / 16 mod 16)) (String (hex_char (v mod 16)) ""))).

(** [%02d] of an index. *)
Definition print_02 (n : Z) : string := if n <? 10 then "0" +:+ print_u n else print_u n.

(** ** Data (device_registry.hpp) *)

Record GpuCapabilities : Type := mk_caps {
  cap_vramSize : Z;
  cap_vramFree : Z;
  cap_vramBandwidth : Z;
  cap_computeUnits : Z;
  cap_apiFlags : Z;
  cap_pcieGen : Z;
  cap_pcieLanes : Z;
  cap_numaNode : Z;
  cap_maxClockMhz : Z;
  cap_currentClockMhz : Z;
  cap_isDisplayConnected : bool
}.

Inductive GpuPowerState : Type := PS_ACTIVE | PS_SUSTAINED | PS_IDLE | PS_PARK.

Record GpuState : Type := mk_gstate {
  sta_utilization : Z;
  sta_memoryUsed : Z;
  sta_temperature : Z;
  sta_powerDrawWatts : Z;
  sta_available : bool;
  sta_enabled : bool;
  sta_powerState : GpuPowerState;
  sta_lastActivityTime : Z
}.
#[export] Instance gstate_eta : Eta GpuState := fun r =>
  mk_gstate (sta_utilization r) (sta_memoryUsed r) (sta_temperature r) (sta_powerDrawWatts r)
    (sta_available r) (sta_enabled r) (sta_powerState r) (sta_lastActivityTime r).

Definition VENDOR_UNKNOWN : Z := 0.
Definition VENDOR_AMD : Z := 1.
Definition VENDOR_NVIDIA : Z := 2.
Definition VENDOR_INTEL : Z := 3.
Definition VENDOR_MOORE_THREADS : Z := 4.

Definition API_VULKAN : Z := 1.

Record GpuDevice : Type := mk_device {
  dv_index : Z;
  dv_pciVendorId : Z;
  dv_pciDeviceId : Z;
  dv_vendor : Z;
  dv_name : string;
  dv_pciPath : string;
  dv_drmPath : string;
  dv_capabilities : GpuCapabilities;
  dv_state : GpuState
}.
#[export] Instance device_eta : Eta GpuDevice := fun r =>
  mk_device (dv_index r) (dv_pciVendorId r) (dv_pciDeviceId r) (dv_vendor r) (dv_name r) (dv_pciPath r)
    (dv_drmPath r) (dv_capabilities r) (dv_state r).

Record RemoteGpu : Type := mk_remote {
  rm_peerNodeId : Z;
  rm_localGpuIndex : Z;
  rm_vendorId : Z;
  rm_deviceId : Z;
  rm_vramBytes : Z;
  rm_vramFree : Z;
  rm_computeUnits : Z;
  rm_apiFlags : Z;
  rm_supportsGraphics : bool;
  rm_supportsCompute : bool;
  rm_isOnline : bool;
  rm_lastHealthState : Z;
  rm_latencyUs : Z;
  rm_peerAddress : string;
  rm_peerState : Z;
  rm_lastSeenNs : Z
}.
#[export] Instance remote_eta : Eta RemoteGpu := fun r =>
  mk_remote (rm_peerNodeId r) (rm_localGpuIndex r) (rm_vendorId r) (rm_deviceId r) (rm_vramBytes r)
    (rm_vramFree r) (rm_computeUnits r) (rm_apiFlags r) (rm_supportsGraphics r) (rm_supportsCompute r)
    (rm_isOnline r) (rm_lastHealthState r) (rm_latencyUs r) (rm_peerAddress r) (rm_peerState r)
    (rm_lastSeenNs r).

Record DeviceRegistry : Type := mk_registry {
  rg_gpus : list GpuDevice;
  rg_remoteGpus : list RemoteGpu
}.
#[export] Instance registry_eta : Eta DeviceRegistry := fun r => mk_registry (rg_gpus r) (rg_remoteGpus r).

(** ** One GPU *)

Definition detectVendor (vendorId : Z) : Z :=
  if vendorId =? 4098 then VENDOR_AMD                  (* 0x1002 *)
  else if vendorId =? 4318 then VENDOR_NVIDIA          (* 0x10DE *)
  else if vendorId =? 32902 then VENDOR_INTEL          (* 0x8086 *)
  else if vendorId =? 7893 then VENDOR_MOORE_THREADS   (* 0x1ED5 *)
  else VENDOR_UNKNOWN.

Definition pci_root : string := "/sys/bus/pci/devices/".

Definition has_colon (name : string) : bool :=
  match String.index 0 ":" name with Some _ => true | None => false end.

(** The PCI directories, in the order of the listing. *)
Definition pci_entries (fs : host_files) : list string :=
  match hf_dir fs "/sys/bus/pci/devices" with
  | None => []
  | Some entries =>
      omap (fun '(name, t) => match t with DT_DIR => if has_colon name then Some name else None | _ => None end)
        entries
  end.

(** The numbers in the [device] file of a PCI directory. *)
Definition pci_ids (fs : host_files) (name : string) : option (Z * Z) :=
  text ← hf_file fs (pci_root +:+ name +:+ "/device"); scan_ids text.

Definition buildPciPath (fs : host_files) (vendorId deviceId : Z) : string :=
  match list_find (fun name => pci_ids fs name = Some (vendorId, deviceId)) (pci_entries fs) with
  | Some (_, name) => pci_root +:+ name
  | None => pci_root +:+ print_u vendorId +:+ ":" +:+ print_u deviceId
  end.

Definition caps_new : GpuCapabilities := mk_caps 0 0 0 0 0 0 0 (-1) 0 0 false.
Definition gstate_new : GpuState := mk_gstate 0 0 0 0 true true PS_ACTIVE 0.

(** The constructor. *)
Definition new_device (fs : host_files) (index vendorId deviceId : Z) : GpuDevice :=
  mk_device index vendorId deviceId (detectVendor vendorId)
    ("GPU" +:+ print_02 index +:+ ": " +:+ print_x4 vendorId +:+ ":" +:+ print_x4 deviceId)
    (buildPciPath fs vendorId deviceId) "" caps_new gstate_new.

Definition setEnabled (enabled : bool) (d : GpuDevice) : GpuDevice :=
  d <| dv_state ::= fun s => s <| sta_enabled := enabled |> |>.

(** The directories below [hwmon]; each that has a temperature sets it. *)
Definition read_temperatures (fs : host_files) (hwmonPath : string) (entries : list (string * d_type))
    (acc : GpuState * bool) : GpuState * bool :=
  foldl (fun '(s, updated) '(name, t) =>
    match t with
    | DT_DIR =>
        if negb (String.prefix "hwmon" name) then (s, updated) else
        match hf_file fs (hwmonPath +:+ "/" +:+ name +:+ "/temp1_input") ≫= next_int with
        | Some temp => (s <| sta_temperature := Z.quot temp 1000 |>, true)
        | None => (s, updated)
        end
    | _ => (s, updated)
    end) acc entries.

(** The device, and whether something was read.  The line of [resource0] is
    read and not used. *)
Definition queryFromSysfs (fs : host_files) (d : GpuDevice) : GpuDevice * bool :=
  let '(s, updated) :=
    match hf_file fs (dv_pciPath d +:+ "/gpu_busy_percent") ≫= next_int with
    | Some utilization => ((dv_state d) <| sta_utilization := u32 utilization |>, true)
    | None => (dv_state d, false)
    end in
  let hwmonPath := dv_pciPath d +:+ "/hwmon" in
  let '(s, updated) :=
    match hf_dir fs hwmonPath with
    | Some entries => read_temperatures fs hwmonPath entries (s, updated)
    | None => (s, updated)
    end in
  (d <| dv_state := s |>, updated).

Definition queryFromDrm (d : GpuDevice) : bool := false.

Definition updateCapabilities (fs : host_files) (d : GpuDevice) : GpuDevice * bool :=
  if queryFromDrm d then (d, true) else queryFromSysfs fs d.

Definition updateState (fs : host_files) (d : GpuDevice) : GpuDevice * bool := queryFromSysfs fs d.

(** ** Enumeration *)

Definition str_le (a b : string) : Prop := String.compare a b <> Gt.
#[export] Instance str_le_dec a b : Decision (str_le a b).
Proof. unfold str_le. destruct (String.compare a b); [left|left|right]; congruence. Defined.

Definition findDrmDevices (fs : host_files) : list string :=
  match hf_dir fs "/dev/dri" with
  | None => []
  | Some entries =>
      merge_sort str_le
        (omap (fun '(name, t) =>
           match t with
           | DT_CHR | DT_UNKNOWN => if String.prefix "card" name then Some ("/dev/dri/" +:+ name) else None
           | _ => None
           end) entries)
  end.

(** The number in a file of hexadecimal text: 0 without the file; [None] when
    [std::stoi] throws. *)
Definition read_id (fs : host_files) (path : string) : option Z :=
  match hf_file fs path with
  | None => Some 0
  | Some text => u16 <$> stoi16 (next_word text)
  end.

Abbreviation DM := (M DeviceRegistry).

Definition add_gpu (d : GpuDevice) : DM unit := modify (fun r => r <| rg_gpus ::= fun l => (l ++ [d])%list |>).

Fixpoint register_drm (fs : host_files) (paths : list string) : DM unit :=
  match paths with
  | [] => mret tt
  | drmPath :: rest =>
      (match String.index 0 "card" drmPath with
       | None => mret tt
       | Some pos =>
           let cardNum := String.substring (pos + 4) (String.length drmPath - (pos + 4)) drmPath in
           let dir := "/sys/class/drm/card" +:+ cardNum +:+ "/device" in
           match read_id fs (dir +:+ "/vendor"), read_id fs (dir +:+ "/device") with
           | Some vendorId, Some deviceId =>
               if vendorId =? 0 then mret tt else
               r ← get;
               add_gpu ((new_device fs (u32 (Z.of_nat (length (rg_gpus r)))) vendorId deviceId) <| dv_drmPath := drmPath |>)
           | _, _ => fails Uncaught
           end
       end);;
      register_drm fs rest
  end.

Definition enumerateDrmDevices (fs : host_files) : DM bool :=
  register_drm fs (findDrmDevices fs);;
  r ← get;
  mret (negb (bool_decide (rg_gpus r = []))).

(** The display controllers: [None] when [std::stoi] throws. *)
Fixpoint pci_displays (fs : host_files) (names : list string) : option (list (Z * Z)) :=
  match names with
  | [] => Some []
  | name :: rest =>
      match pci_ids fs name, hf_file fs (pci_root +:+ name +:+ "/class") with
      | Some ids, Some text =>
          classCode ← stoi16 (next_word text);
          others ← pci_displays fs rest;
          Some (if Z.shiftr (u32 classCode) 16 =? 768 then ids :: others else others)
      | _, _ => pci_displays fs rest
      end
  end.

Definition findPciDevices (fs : host_files) : DM (list (Z * Z)) :=
  match pci_displays fs (pci_entries fs) with Some l => mret l | None => fails Uncaught end.

Fixpoint register_pci (fs : host_files) (devices : list (Z * Z)) : DM unit :=
  match devices with
  | [] => mret tt
  | (vendorId, deviceId) :: rest =>
      r ← get;
      (if bool_decide (Exists (fun d => dv_pciVendorId d = vendorId /\ dv_pciDeviceId d = deviceId) (rg_gpus r))
       then mret tt
       else add_gpu (new_device fs (u32 (Z.of_nat (length (rg_gpus r)))) vendorId deviceId));;
      register_pci fs rest
  end.

Definition enumeratePciDevices (fs : host_files) : DM bool :=
  devices ← findPciDevices fs; register_pci fs devices;; mret true.

(** [init]; [reenum] is the same two calls. *)
Definition registry_init (fs : host_files) : DM bool :=
  enumerateDrmDevices fs;; enumeratePciDevices fs;; mret true.

Definition registry_fini (r : DeviceRegistry) : DeviceRegistry := r <| rg_gpus := [] |>.

(** ** Queries and updates *)

Definition gpuCount (r : DeviceRegistry) : Z := u32 (Z.of_nat (length (rg_gpus r))).

Definition getGpu (index : Z) (r : DeviceRegistry) : option GpuDevice :=
  if index <? Z.of_nat (length (rg_gpus r)) then rg_gpus r !! Z.to_nat index else None.

Definition getGpuByVendor (vendor : Z) (r : DeviceRegistry) : option GpuDevice :=
  snd <$> list_find (fun d => dv_vendor d = vendor) (rg_gpus r).

Definition getDisplayGpu (r : DeviceRegistry) : option GpuDevice :=
  snd <$> list_find (fun d => cap_isDisplayConnected (dv_capabilities d) = true) (rg_gpus r).

Definition enableGpu (index : Z) (enabled : bool) (r : DeviceRegistry) : DeviceRegistry :=
  if index <? Z.of_nat (length (rg_gpus r))
  then r <| rg_gpus ::= alter (setEnabled enabled) (Z.to_nat index) |> else r.

Definition setGpuPriority (index priority : Z) (r : DeviceRegistry) : DeviceRegistry := r.

Definition registry_events (fs : host_files) (r : DeviceRegistry) : DeviceRegistry :=
  r <| rg_gpus ::= fmap (fun d => (updateState fs d).1) |>.

Definition in_pool (d : GpuDevice) : bool := sta_enabled (dv_state d) && sta_available (dv_state d).

Definition sum_u64 (f : GpuDevice -> Z) (l : list GpuDevice) : Z :=
  foldl (fun total d => if in_pool d then u64 (total + f d) else total) 0 l.

Definition totalVRAM (r : DeviceRegistry) : Z := sum_u64 (fun d => cap_vramSize (dv_capabilities d)) (rg_gpus r).
Definition freeVRAM (r : DeviceRegistry) : Z := sum_u64 (fun d => cap_vramFree (dv_capabilities d)) (rg_gpus r).

Definition aggregateComputeUnits (r : DeviceRegistry) : Z :=
  foldl (fun total d => u32 (total + cap_computeUnits (dv_capabilities d))) 0 (rg_gpus r).

Definition computeCapabilityTier (r : DeviceRegistry) : Z :=
  let flags := (fun d => cap_apiFlags (dv_capabilities d)) <$> rg_gpus r in
  let commonFlags := foldl Z.land U32_MAX flags in
  let unionFlags := foldl Z.lor 0 flags in
  let hasGraphics := existsb (fun f => has_flag f API_VULKAN) flags in
  if commonFlags =? unionFlags then 0 else if negb hasGraphics then 1 else 2.

Definition capabilityTier (r : DeviceRegistry) : Z := computeCapabilityTier r.

(** ** GPUs of other nodes *)

Definition MVGAL_NET_PEER_ACTIVE : Z := 3.

(** The result is the number of remote GPUs. *)
Definition addRemoteGpu (peerNodeId localGpuIndex vendorId deviceId vramBytes vramFree computeUnits apiFlags : Z)
    (supportsGraphics supportsCompute : bool) (peerAddress : string) (r : DeviceRegistry) : Z * DeviceRegistry :=
  let gpu := mk_remote peerNodeId localGpuIndex vendorId deviceId vramBytes vramFree computeUnits apiFlags
               supportsGraphics supportsCompute true 0 0 peerAddress MVGAL_NET_PEER_ACTIVE 0 in
  let r := r <| rg_remoteGpus ::= fun l => (l ++ [gpu])%list |> in
  (u32 (Z.of_nat (length (rg_remoteGpus r))), r).

Definition is_remote (peerNodeId localGpuIndex : Z) (g : RemoteGpu) : bool :=
  (rm_peerNodeId g =? peerNodeId) && (rm_localGpuIndex g =? localGpuIndex).

Definition removeRemoteGpu (peerNodeId localGpuIndex : Z) (r : DeviceRegistry) : bool * DeviceRegistry :=
  match list_find (fun g => is_remote peerNodeId localGpuIndex g = true) (rg_remoteGpus r) with
  | Some (i, _) => (true, r <| rg_remoteGpus ::= delete i |>)
  | None => (false, r)
  end.

Definition remoteGpuCount (r : DeviceRegistry) : Z := u32 (Z.of_nat (length (rg_remoteGpus r))).
Definition remoteGpus (r : DeviceRegistry) : list RemoteGpu := rg_remoteGpus r.

Definition updateRemoteGpuHealth (peerNodeId localGpuIndex : Z) (isOnline : bool) (latencyUs now : Z)
    (r : DeviceRegistry) : DeviceRegistry :=
  match list_find (fun g => is_remote peerNodeId localGpuIndex g = true) (rg_remoteGpus r) with
  | Some (i, _) =>
      r <| rg_remoteGpus ::= alter (fun g => g <| rm_isOnline := isOnline |> <| rm_latencyUs := latencyUs |>
             <| rm_lastHealthState := if isOnline then 0 else 1 |> <| rm_lastSeenNs := now |>) i |>
  | None => r
  end.

Definition aggregateRemoteVRAM (r : DeviceRegistry) : Z :=
  u32 (foldl (fun total g => if rm_isOnline g then u64 (total + rm_vramBytes g) else total) 0 (rg_remoteGpus r)).

(** ** The tier *)


Lemma land_testbit flags m j :
  Z.testbit (foldl Z.land m flags) j = true <-> Z.testbit m j = true /\ Forall (fun f => Z.testbit f j = true) flags.
Proof.
  revert m. induction flags as [|f flags IH]; intros m; cbn; [by split; [intros ?; split|intros [? _]]|].
  rewrite IH, Z.land_spec, andb_true_iff, Forall_cons. tauto.
Qed.

Lemma lor_testbit flags m j :
  Z.testbit (foldl Z.lor m flags) j = true <-> Z.testbit m j = true \/ Exists (fun f => Z.testbit f j = true) flags.
Proof.
  revert m. induction flags as [|f flags IH]; intros m; cbn; [by split; [left|intros [?|?%Exists_nil]]|].
  rewrite IH, Z.lor_spec, orb_true_iff, Exists_cons. tauto.
Qed.

Lemma u32_testbit f j : is_u32 f -> 0 <= j -> Z.testbit f j = true -> Z.testbit U32_MAX j = true.
Proof.
  intros [Hf0 Hf] Hj Hb. change U32_MAX with (Z.ones 32). destruct (Z.lt_ge_cases j 32) as [Hlt|Hge].
  - apply Z.ones_spec_low. lia.
  - rewrite <-(Z.mod_small f (2 ^ 32)), Z.mod_pow2_bits_high in Hb; [done|lia|unfold U32_MAX in Hf; lia].
Qed.

(** The flags that all GPUs have are those that some GPU has exactly when all
    GPUs have the same. *)
Lemma common_is_union f flags :
  Forall is_u32 (f :: flags) ->
  foldl Z.land U32_MAX (f :: flags) = foldl Z.lor 0 (f :: flags) <-> Forall (fun g => g = f) flags.
Proof.
  intros Hu. split.
  - intros E. apply Forall_forall. intros g Hg. apply Z.bits_inj'. intros j Hj.
    assert (Hbit : forall h, h ∈ f :: flags -> Z.testbit h j = Z.testbit (foldl Z.lor 0 (f :: flags)) j).
    { intros h Hh. apply Bool.eq_iff_eq_true. split.
      - intros Hb. apply lor_testbit. right. apply Exists_exists. eauto.
      - rewrite <-E. intros [_ Hall]%land_testbit. rewrite Forall_forall in Hall. by apply Hall. }
    rewrite (Hbit g), (Hbit f); [done|by left|by right].
  - intros Hsame. assert (Hall : forall h, h ∈ f :: flags -> h = f).
    { intros h [->|Hh]%elem_of_cons; [done|]. rewrite Forall_forall in Hsame. by apply Hsame. }
    apply Z.bits_inj'. intros j Hj. apply Bool.eq_iff_eq_true. rewrite land_testbit, lor_testbit. split.
    + intros [_ Hb]. right. inversion_clear Hb as [|?? Hf _]. by left.
    + intros [Hb|Hb]; [by rewrite Z.bits_0 in Hb|]. apply Exists_exists in Hb as (h & Hh & Hb).
      rewrite (Hall h Hh) in Hb. inversion_clear Hu as [|?? Hf _]. split; [by apply (u32_testbit f)|].
      apply Forall_forall. intros h' Hh'. by rewrite (Hall h' Hh').
Qed.

Definition api_flags (d : GpuDevice) : Z := cap_apiFlags (dv_capabilities d).

(** There is a GPU, and all have the same interfaces. *)
Definition uniform (r : DeviceRegistry) : Prop :=
  exists f, rg_gpus r <> [] /\ Forall (fun d => api_flags d = f) (rg_gpus r).

(** A GPU can draw. *)
Definition some_graphics (r : DeviceRegistry) : Prop :=
  Exists (fun d => has_flag (api_flags d) API_VULKAN = true) (rg_gpus r).

Lemma uniform_flags r :
  Forall (fun d => is_u32 (api_flags d)) (rg_gpus r) ->
  foldl Z.land U32_MAX (api_flags <$> rg_gpus r) = foldl Z.lor 0 (api_flags <$> rg_gpus r) <-> uniform r.
Proof.
  unfold uniform. destruct (rg_gpus r) as [|d l]; intros Hu; [by split; [|intros (? & ? & _)]|].
  change (api_flags <$> d :: l) with (api_flags d :: (api_flags <$> l)). rewrite common_is_union.
  - rewrite Forall_fmap. split; [intros Hs; exists (api_flags d); by split; [|constructor]|].
    intros (f & _ & Hall). inversion_clear Hall as [|?? Hd Hl]. rewrite Hd. exact Hl.
  - change (api_flags d :: (api_flags <$> l)) with (api_flags <$> d :: l). by apply Forall_fmap.
Qed.

Lemma graphics_flags r : existsb (fun f => has_flag f API_VULKAN) (api_flags <$> rg_gpus r) = true <-> some_graphics r.
Proof.
  unfold some_graphics. rewrite existsb_exists, Exists_exists. split.
  - intros (f & Hf & Hb). apply list_elem_of_In, list_elem_of_fmap in Hf as (d & -> & Hd). eauto.
  - intros (d & Hd & Hb). exists (api_flags d). split; [|done]. apply list_elem_of_In, list_elem_of_fmap. eauto.
Qed.

(** The tier of the pool says what its GPUs have in common: 0 when there
    is a GPU and all offer the same interfaces, otherwise 1 when none can draw
    and 2 when some can. *)
Theorem capability_tier_spec r :
  Forall (fun d => is_u32 (api_flags d)) (rg_gpus r) ->
  (capabilityTier r = 0 <-> uniform r)
  /\ (capabilityTier r = 1 <-> ~ uniform r /\ ~ some_graphics r)
  /\ (capabilityTier r = 2 <-> ~ uniform r /\ some_graphics r).
Proof.
  intros Hu. rewrite <-(uniform_flags r Hu), <-(graphics_flags r).
  unfold capabilityTier, computeCapabilityTier. cbv zeta. fold api_flags.
  change ((fun d => cap_apiFlags (dv_capabilities d)) <$> rg_gpus r) with (api_flags <$> rg_gpus r).
  set (same := foldl Z.land _ _ =? _). assert (Hs : same = true <-> foldl Z.land U32_MAX (api_flags <$> rg_gpus r)
    = foldl Z.lor 0 (api_flags <$> rg_gpus r)) by (unfold same; apply Z.eqb_eq).
  rewrite <-Hs. destruct same, (existsb _ _); cbn; naive_solver.
Qed.

Lemma capability_tier_spec_witness :
  let d f := (new_device (mk_files (fun _ => None) (fun _ => None)) 0 4098 1)
               <| dv_capabilities := mk_caps 0 0 0 0 f 0 0 (-1) 0 0 false |> in
  capabilityTier (mk_registry [d 5; d 5] []) = 0 /\ capabilityTier (mk_registry [d 8; d 4] []) = 1
  /\ capabilityTier (mk_registry [d 5; d 4] []) = 2.
Proof.
  intros d. assert (Hu : forall f g, is_u32 f -> is_u32 g ->
    Forall (fun d => is_u32 (api_flags d)) (rg_gpus (mk_registry [d f; d g] []))) by (intros; apply List.Forall_cons; [done|]; apply List.Forall_cons; [done|constructor]).
  split_and!.
  - apply (capability_tier_spec (mk_registry [d 5; d 5] [])); [by apply Hu|]. exists 5. by repeat constructor.
  - vm_compute. reflexivity.
  - vm_compute. reflexivity.
Defined.
