(* ===== verification/RtScheduler.v ===== *)
(** * The scheduler of the runtime daemon

    src/runtime/daemon/scheduler.cpp: workloads behind shared pointers, the
    queue with one bucket per priority, the ways to choose a GPU and the
    processing loop; src/userspace/api/mvgal_ai.c: the model it can ask.  The
    scheduler belongs to a daemon, so [m_daemon] is not null; the device
    registry of the daemon is an argument.  Each method is one step under the
    mutex it takes. *)

From Corelib Require Import SpecFloat.
From S2P Require Import Prelude Float32 RtDevices.
From stdpp Require Import strings.
Local Open Scope Z_scope.

(** The clock, as the nanoseconds of its [n]-th reading, and whether the
    model gets its memory. *)
Class RtEnv : Type := { rt_clock : nat -> Z; rt_model_alloc : bool }.

(** ** Data (scheduler.hpp) *)

(** [MODE_OTHER] is a number of a client that no constant has. *)
Inductive SchedulingMode : Type :=
| STATIC_PARTITIONING
| DYNAMIC_LOAD_BALANCING
| APPLICATION_PROFILE
| AI_DRIVEN
| MODE_OTHER (n : Z).

Inductive WorkloadType : Type := WT_GRAPHICS | WT_COMPUTE | WT_TRANSFER.

Inductive WorkloadState : Type := WS_PENDING | WS_SCHEDULED | WS_RUNNING | WS_COMPLETE | WS_ERROR.
#[export] Instance workload_state_eq_dec : EqDecision WorkloadState.
Proof. solve_decision. Defined.

Record ApplicationProfile : Type := mk_approfile {
  ap_executableName : string;
  ap_vulkanAppName : string;
  ap_mode : SchedulingMode;
  ap_gpuWeights : list Z;
  ap_priorityBoost : Z;
  ap_preferSingleGpu : bool;
  ap_gpuMask : Z
}.

Record Workload : Type := mk_workload {
  wk_id : Z;
  wk_type : WorkloadType;
  wk_priority : Z;
  wk_gpuMask : Z;
  wk_assignedGpu : Z;
  wk_state : WorkloadState;
  wk_submitTime : Z
}.
#[export] Instance workload_eta : Eta Workload := fun r =>
  mk_workload (wk_id r) (wk_type r) (wk_priority r) (wk_gpuMask r) (wk_assignedGpu r) (wk_state r) (wk_submitTime r).

(** The constructor. *)
Definition new_Workload (id : Z) (type : WorkloadType) (priority now : Z) : Workload :=
  mk_workload id type priority U32_MAX U32_MAX WS_PENDING now.

(** [rs_heap] holds the shared workloads; the map of the scheduler and the
    queue hold pointers to them.  [rs_nextGpuIndex] and [rs_model] are the
    static variables of two methods. *)
Record Scheduler : Type := mk_rsched {
  rs_mode : SchedulingMode;
  rs_queue : list (list addr);
  rs_heap : gmap positive Workload;
  rs_workloads : gmap Z addr;
  rs_nextWorkloadId : Z;
  rs_staticWeights : list Z;
  rs_profiles : gmap string ApplicationProfile;
  rs_totalWorkloads : Z;
  rs_completedWorkloads : Z;
  rs_schedulingTimeUs : Z;
  rs_networkEnabled : bool;
  rs_nextGpuIndex : Z;
  rs_model : option bool;
  rs_ticks : nat
}.
#[export] Instance rsched_eta : Eta Scheduler := fun r =>
  mk_rsched (rs_mode r) (rs_queue r) (rs_heap r) (rs_workloads r) (rs_nextWorkloadId r) (rs_staticWeights r)
    (rs_profiles r) (rs_totalWorkloads r) (rs_completedWorkloads r) (rs_schedulingTimeUs r) (rs_networkEnabled r)
    (rs_nextGpuIndex r) (rs_model r) (rs_ticks r).

Definition NUM_PRIORITY_LEVELS : nat := 16.

Definition Scheduler_new : Scheduler :=
  mk_rsched DYNAMIC_LOAD_BALANCING (replicate NUM_PRIORITY_LEVELS []) ∅ ∅ 1 (replicate 8 1) ∅ 0 0 0 false 0 None 0.

(** ** The queue *)

(** [static_cast<int>] of a [uint32_t]. *)
Definition s32 (z : Z) : Z := if z <? 2147483648 then z else z - 4294967296.

Section queue.
Context {A : Type}.

(** [None] is an index below 0. *)
Definition pq_push (w : A) (priority : Z) (q : list (list A)) : option (list (list A)) :=
  let priority := s32 priority in
  let priority := if 15 <? priority then 15 else priority in
  if priority <? 0 then None else Some (alter (fun l => l ++ [w]) (Z.to_nat priority) q).

(** The levels [n - 1], ..., 0. *)
Fixpoint pq_pop_below (n : nat) (q : list (list A)) : option (A * list (list A)) :=
  match n with
  | O => None
  | S n' =>
      match q !! n' with
      | Some (w :: rest) => Some (w, <[n' := rest]> q)
      | _ => pq_pop_below n' q
      end
  end.

(** [pop] and [tryPop] have the same loop. *)
Definition tryPop (q : list (list A)) : option (A * list (list A)) := pq_pop_below NUM_PRIORITY_LEVELS q.

Definition pq_empty (q : list (list A)) : bool := forallb (fun l => bool_decide (length l = 0%nat)) q.
Definition pq_size (q : list (list A)) : nat := foldl (fun total l => (total + length l)%nat) 0%nat q.
End queue.

(** ** The model (mvgal_ai.h, mvgal_ai.c) *)

Record mvgal_ai_features_t : Type := mk_features {
  ft_num_gpus : nat;
  ft_gpu_utilization : list f32;
  ft_vram_pressure : list f32
}.

Definition ai_score (features : mvgal_ai_features_t) (i : nat) : f32 :=
  fadd (fmul (fsub f1 (nth i (ft_gpu_utilization features) f0)) (flit 6 10))
       (fmul (fsub f1 (nth i (ft_vram_pressure features) f0)) (flit 4 10)).

(** The recommended GPU; [None] is -1. *)
Definition mvgal_ai_model_predict (features : mvgal_ai_features_t) : option nat :=
  (argmax false (fun i => Some (ai_score features i)) (fopp f1) (seq 0 (ft_num_gpus features))).2.

(** ** Choosing a GPU *)

(** The GPU of the least utilization, the first of them. *)
Fixpoint least_utilized (i : nat) (gpus : list GpuDevice) (best : Z) (bestUtilization : Z) : Z :=
  match gpus with
  | [] => best
  | d :: rest =>
      let u := sta_utilization (dv_state d) in
      if u <? bestUtilization then least_utilized (S i) rest (Z.of_nat i) u
      else least_utilized (S i) rest best bestUtilization
  end.

Definition scheduleDynamic (reg : DeviceRegistry) : Z := least_utilized 0 (rg_gpus reg) 0 U32_MAX.

Definition ai_features (reg : DeviceRegistry) : mvgal_ai_features_t :=
  let n := Z.to_nat (Z.min (gpuCount reg) 8) in
  let gpus := take n (rg_gpus reg) in
  mk_features n ((fun d => fdiv (f32_of_Z (sta_utilization (dv_state d))) (f32_of_Z 100)) <$> gpus)
    ((fun d => fdiv (f32_of_Z (sta_memoryUsed (dv_state d))) (f32_of_Z 100)) <$> gpus).

Definition remote_score (type : WorkloadType) (g : RemoteGpu) : Z :=
  let vramScore := rm_vramFree g / 1048576 in
  let computeBonus := match type with WT_COMPUTE => u64 (rm_computeUnits g * 100) | _ => 0 end in
  let score := u64 (vramScore + computeBonus) in
  if rm_latencyUs g <? score then score - rm_latencyUs g else 0.

Fixpoint best_remote (type : WorkloadType) (i : nat) (l : list RemoteGpu) (best : option nat) (bestScore : Z)
  : option nat :=
  match l with
  | [] => best
  | g :: rest =>
      if negb (rm_isOnline g) then best_remote type (S i) rest best bestScore else
      let score := remote_score type g in
      if bestScore <? score then best_remote type (S i) rest (Some i) score
      else best_remote type (S i) rest best bestScore
  end.

Abbreviation RSM := (M Scheduler).

(** The counter is shared by all schedulers of the process. *)
Definition scheduleStatic : RSM Z :=
  s ← get;
  let totalWeight := foldl (fun total w => u32 (total + w)) 0 (rs_staticWeights s) in
  if totalWeight =? 0 then mret 0 else
  modify (fun s => s <| rs_nextGpuIndex ::= fun n => u32 (n + 1) |>);;
  mret (rs_nextGpuIndex s mod Z.of_nat (length (rs_staticWeights s))).

Definition scheduleByProfile (reg : DeviceRegistry) : Z := scheduleDynamic reg.

Definition scheduleNetwork (reg : DeviceRegistry) (w : Workload) : RSM Z :=
  s ← get;
  if negb (rs_networkEnabled s) || (remoteGpuCount reg =? 0) then mret (scheduleDynamic reg) else
  match best_remote (wk_type w) 0 (remoteGpus reg) None 0 with
  | Some i => mret (u32 (gpuCount reg + Z.of_nat i))
  | None => mret (scheduleDynamic reg)
  end.

Definition remoteGpuAvailable (reg : DeviceRegistry) : bool := 0 <? remoteGpuCount reg.

Section scheduler.
Context `{RtEnv}.

Definition rt_now : RSM Z := fun s => Ret (rt_clock (rs_ticks s), s <| rs_ticks ::= S |>).

(** The model is loaded by the first call. *)
Definition scheduleAI (reg : DeviceRegistry) : RSM Z :=
  s ← get;
  let loaded := default rt_model_alloc (rs_model s) in
  modify (fun s => s <| rs_model := Some loaded |>);;
  let features := ai_features reg in
  match (if loaded then mvgal_ai_model_predict features else None) with
  | Some i => if (i <? ft_num_gpus features)%nat then mret (Z.of_nat i) else mret (scheduleDynamic reg)
  | None => mret (scheduleDynamic reg)
  end.

(** ** Workloads *)

Definition workload_at (p : addr) : RSM Workload := fun s =>
  match rs_heap s !! p with Some w => Ret (w, s) | None => Fault UseAfterFree end.

Definition set_workload (p : addr) (f : Workload -> Workload) : RSM unit :=
  modify (fun s => s <| rs_heap ::= alter f p |>).

Definition rt_submit (type : WorkloadType) (priority gpuMask : Z) : RSM Z :=
  s ← get;
  let workloadId := rs_nextWorkloadId s in
  modify (fun s => s <| rs_nextWorkloadId ::= fun n => u32 (n + 1) |>);;
  now ← rt_now;
  let p := fresh (dom (rs_heap s)) in
  modify (fun s => s <| rs_heap ::= <[p := (new_Workload workloadId type priority now) <| wk_gpuMask := gpuMask |>]> |>
    <| rs_workloads ::= <[workloadId := p]> |>);;
  match pq_push p priority (rs_queue s) with
  | None => fails OutOfBounds
  | Some q =>
      modify (fun s => s <| rs_queue := q |> <| rs_totalWorkloads ::= fun n => u64 (n + 1) |>);;
      mret workloadId
  end.

Definition getWorkload (id : Z) (s : Scheduler) : option addr := rs_workloads s !! id.

Definition final (st : WorkloadState) : bool :=
  match st with WS_COMPLETE | WS_ERROR => true | _ => false end.

(** One pass per step of the budget; between the passes nothing changes the
    workload unless another thread does. *)
Fixpoint wait_loop (fuel : nat) (p : addr) (start timeoutMs : Z) : RSM bool :=
  match fuel with
  | O => fun _ => NoFuel
  | S fuel' =>
      w ← workload_at p;
      if final (wk_state w) then mret (bool_decide (wk_state w = WS_COMPLETE)) else
      if 0 <? timeoutMs then
        now ← rt_now;
        if timeoutMs <=? Z.quot (now - start) 1000000 then mret false
        else wait_loop fuel' p start timeoutMs
      else wait_loop fuel' p start timeoutMs
  end.

Definition rt_wait (fuel : nat) (workloadId timeoutMs : Z) : RSM bool :=
  s ← get;
  match getWorkload workloadId s with
  | None => mret false
  | Some p => start ← rt_now; wait_loop fuel p start timeoutMs
  end.

Definition dispatchToGpu (reg : DeviceRegistry) (p : addr) (gpuIndex : Z) : RSM bool :=
  set_workload p (fun w => w <| wk_state := WS_SCHEDULED |>);;
  set_workload p (fun w => w <| wk_assignedGpu := gpuIndex |>);;
  match getGpu gpuIndex reg with
  | Some d =>
      if sta_enabled (dv_state d) then
        set_workload p (fun w => w <| wk_state := WS_RUNNING |>);;
        set_workload p (fun w => w <| wk_state := WS_COMPLETE |>);;
        modify (fun s => s <| rs_completedWorkloads ::= fun n => u64 (n + 1) |>);;
        mret true
      else
        set_workload p (fun w => w <| wk_state := WS_ERROR |>);;
        modify (fun s => s <| rs_completedWorkloads ::= fun n => u64 (n + 1) |>);;
        mret false
  | None =>
      set_workload p (fun w => w <| wk_state := WS_ERROR |>);;
      modify (fun s => s <| rs_completedWorkloads ::= fun n => u64 (n + 1) |>);;
      mret false
  end.

Definition choose_gpu (reg : DeviceRegistry) : RSM Z :=
  s ← get;
  match rs_mode s with
  | STATIC_PARTITIONING => scheduleStatic
  | DYNAMIC_LOAD_BALANCING => mret (scheduleDynamic reg)
  | APPLICATION_PROFILE => mret (scheduleByProfile reg)
  | AI_DRIVEN => scheduleAI reg
  | MODE_OTHER _ => mret 0
  end.

(** Work stealing is not implemented in the source: [checkWorkStealing] does
    nothing and [stealWork] returns [false]. *)
Fixpoint process_loop_rt (fuel : nat) (reg : DeviceRegistry) : RSM unit :=
  match fuel with
  | O => fun _ => NoFuel
  | S fuel' =>
      s ← get;
      match tryPop (rs_queue s) with
      | None => mret tt
      | Some (p, q) =>
          modify (fun s => s <| rs_queue := q |>);;
          w ← workload_at p;
          (if negb (bool_decide (wk_state w = WS_PENDING)) then mret tt else
           start ← rt_now;
           gpuIndex ← choose_gpu reg;
           stop ← rt_now;
           modify (fun s => s <| rs_schedulingTimeUs ::= fun n => u64 (n + Z.quot (stop - start) 1000) |>);;
           dispatchToGpu reg p gpuIndex;; mret tt);;
          process_loop_rt fuel' reg
      end
  end.

(** A pass per queued workload and one that finds the queue empty. *)
Definition processPending (reg : DeviceRegistry) : RSM unit := fun s =>
  process_loop_rt (S (pq_size (rs_queue s))) reg s.

(** ** Settings *)

Definition setMode (mode : SchedulingMode) (s : Scheduler) : Scheduler := s <| rs_mode := mode |>.
Definition setStaticWeights (weights : list Z) (s : Scheduler) : Scheduler := s <| rs_staticWeights := weights |>.
Definition setNetworkEnabled (enabled : bool) (s : Scheduler) : Scheduler := s <| rs_networkEnabled := enabled |>.
Definition addApplicationProfile (p : ApplicationProfile) (s : Scheduler) : Scheduler :=
  s <| rs_profiles ::= <[ap_executableName p := p]> |>.
Definition removeApplicationProfile (name : string) (s : Scheduler) : Scheduler := s <| rs_profiles ::= delete name |>.
Definition getApplicationProfile (name : string) (s : Scheduler) : option ApplicationProfile := rs_profiles s !! name.

(** The queue keeps its pointers. *)
Definition scheduler_fini (s : Scheduler) : Scheduler := s <| rs_workloads := ∅ |>.
End scheduler.
