(* ===== verification/RtQueue.v ===== *)
(** * The queue of the runtime scheduler against a list

    One bucket per priority behaves as a single list in order of arrival from
    which the first workload of the highest priority is taken; processing
    empties it, and every workload that was waiting ends completed or failed. *)

From S2P Require Import Prelude Float32 RtDevices RtScheduler.
Local Open Scope Z_scope.

(** ** The specification *)

Inductive queue_call (A : Type) : Type :=
| QPush (w : A) (priority : Z)
| QPop
| QSize
| QEmpty.
Arguments QPush {A} w priority.
Arguments QPop {A}.
Arguments QSize {A}.
Arguments QEmpty {A}.

Inductive queue_answer (A : Type) : Type :=
| APushed
| APopped (w : option A)
| ASize (n : nat)
| AEmpty (b : bool).
Arguments APushed {A}.
Arguments APopped {A} w.
Arguments ASize {A} n.
Arguments AEmpty {A} b.

(** The level of a priority; those above 15 count as 15. *)
Definition level (priority : Z) : Z := Z.min 15 priority.

(** A priority whose conversion to [int] keeps it. *)
Definition fits (priority : Z) : Prop := 0 <= priority < 2147483648.

Section spec.
Context {A : Type}.

(** No waiting workload has a higher level. *)
Definition highest (l : list (Z * A)) (x : Z * A) : Prop := Forall (fun y => y.1 <= x.1) l.

#[export] Instance highest_dec l x : Decision (highest l x).
Proof. unfold highest. apply _. Defined.

Definition first_highest (l : list (Z * A)) : option (nat * (Z * A)) := list_find (highest l) l.

Definition spec_queue (l : list (Z * A)) (c : queue_call A) : queue_answer A * list (Z * A) :=
  match c with
  | QPush w priority => (APushed, l ++ [(level priority, w)])
  | QPop =>
      match first_highest l with
      | Some (i, x) => (APopped (Some x.2), delete i l)
      | None => (APopped None, l)
      end
  | QSize => (ASize (length l), l)
  | QEmpty => (AEmpty (bool_decide (l = [])), l)
  end.

Fixpoint spec_queue_run (l : list (Z * A)) (cs : list (queue_call A)) : list (queue_answer A) * list (Z * A) :=
  match cs with
  | [] => ([], l)
  | c :: cs => let '(r, l1) := spec_queue l c in let '(rs, l2) := spec_queue_run l1 cs in (r :: rs, l2)
  end.

(** ** The calls *)

Definition queue_step (q : list (list A)) (c : queue_call A) : option (queue_answer A * list (list A)) :=
  match c with
  | QPush w priority => q' ← pq_push w priority q; Some (APushed, q')
  | QPop => match tryPop q with Some (w, q') => Some (APopped (Some w), q') | None => Some (APopped None, q) end
  | QSize => Some (ASize (pq_size q), q)
  | QEmpty => Some (AEmpty (pq_empty q), q)
  end.

Fixpoint queue_run (q : list (list A)) (cs : list (queue_call A)) : option (list (queue_answer A) * list (list A)) :=
  match cs with
  | [] => Some ([], q)
  | c :: cs => r ← queue_step q c; rs ← queue_run r.2 cs; Some (r.1 :: rs.1, rs.2)
  end.

(** ** The buckets *)

Definition at_level (k : nat) (l : list (Z * A)) : list A := snd <$> filter (fun x => x.1 = Z.of_nat k) l.

Record buckets (q : list (list A)) (l : list (Z * A)) : Prop := {
  bu_length : length q = NUM_PRIORITY_LEVELS;
  bu_levels : Forall (fun x => 0 <= x.1 < 16) l;
  bu_bucket : forall k, (k < 16)%nat -> q !! k = Some (at_level k l)
}.

Lemma at_level_app k l1 l2 : at_level k (l1 ++ l2) = at_level k l1 ++ at_level k l2.
Proof. unfold at_level. by rewrite filter_app, fmap_app. Qed.

Lemma at_level_cons k x l : at_level k (x :: l) = (if decide (x.1 = Z.of_nat k) then [x.2] else []) ++ at_level k l.
Proof. unfold at_level. rewrite filter_cons. by case_decide. Qed.

Lemma at_level_none k l : Forall (fun x => x.1 <> Z.of_nat k) l -> at_level k l = [].
Proof.
  induction 1 as [|x l Hx Hl IH]; [done|]. rewrite at_level_cons, IH. by case_decide.
Qed.

Lemma at_level_nil k l : at_level k l = [] -> Forall (fun x => x.1 <> Z.of_nat k) l.
Proof.
  induction l as [|x l IH]; intros E; [constructor|]. rewrite at_level_cons in E. apply app_eq_nil in E as [E1 E2].
  constructor; [|by apply IH]. by case_decide.
Qed.

Lemma find_split (P : Z * A -> Prop) `{!forall x, Decision (P x)} l i x :
  list_find P l = Some (i, x) ->
  exists l1 l2, l = l1 ++ x :: l2 /\ delete i l = l1 ++ l2 /\ P x /\ Forall (fun y => ~ P y) l1.
Proof.
  intros (Hi & Hx & Hbefore)%list_find_Some. pose proof (lookup_lt_Some _ _ _ Hi) as Hlt.
  assert (Hlen : length (take i l) = i) by (rewrite length_take; lia).
  exists (take i l), (drop (S i) l). split; [by rewrite take_drop_middle|]. split.
  - rewrite <-(take_drop_middle l i x Hi) at 1. rewrite <-Hlen at 1. apply delete_middle.
  - split; [done|]. apply Forall_lookup. intros j y Hj. rewrite lookup_take_Some in Hj. destruct Hj. eauto.
Qed.

(** Taking the first highest one empties its place in its bucket. *)
Lemma first_highest_bucket l n w rest :
  Forall (fun x => x.1 <= Z.of_nat n) l -> at_level n l = w :: rest ->
  exists i x, first_highest l = Some (i, x) /\ x.2 = w /\ x.1 = Z.of_nat n
    /\ at_level n (delete i l) = rest /\ forall k, k <> n -> at_level k (delete i l) = at_level k l.
Proof.
  intros Hle Hn. assert (Hh : forall x, x ∈ l -> highest l x <-> x.1 = Z.of_nat n).
  { intros x Hx. unfold highest. split; [|intros ->; done]. intros Hall.
    assert (exists y, y ∈ l /\ y.1 = Z.of_nat n) as (y & Hy & Ey).
    { assert (Hw : w ∈ at_level n l) by (rewrite Hn; left).
      apply list_elem_of_fmap in Hw as (y & _ & [? ?]%list_elem_of_filter). by exists y. }
    rewrite Forall_forall in Hall, Hle. specialize (Hall _ Hy). specialize (Hle _ Hx). lia. }
  destruct (first_highest l) as [[i x]|] eqn:E.
  - apply find_split in E as (l1 & l2 & El & Ed & Hx & Hl1).
    assert (Hxn : x.1 = Z.of_nat n) by (apply Hh; [rewrite El; set_solver|done]).
    assert (Hno : at_level n l1 = []).
    { apply at_level_none, Forall_forall. intros y Hy Ey. rewrite Forall_forall in Hl1. apply (Hl1 y Hy).
      apply Hh; [rewrite El; set_solver|done]. }
    rewrite El, at_level_app, at_level_cons, Hno, decide_True in Hn by done. injection Hn as Hw Hrest.
    exists i, x. split_and!; try done.
    + by rewrite Ed, at_level_app, Hno.
    + intros k Hk. rewrite Ed, El, !at_level_app, at_level_cons, decide_False by lia. done.
  - exfalso. assert (Hw : w ∈ at_level n l) by (rewrite Hn; left).
    apply list_elem_of_fmap in Hw as (y & _ & [Ey Hy]%list_elem_of_filter).
    unfold first_highest in E. apply list_find_None in E. rewrite Forall_forall in E. apply (E y Hy). by apply Hh.
Qed.

(** The workloads of the levels below [n], the highest level first and in
    order of arrival within a level. *)
Fixpoint by_level (n : nat) (l : list (Z * A)) : list A :=
  match n with O => [] | S n' => at_level n' l ++ by_level n' l end.

(** The order in which the queue gives them out. *)
Definition by_priority (l : list (Z * A)) : list A := by_level 16 l.

Lemma by_level_same n l l' : (forall k, (k < n)%nat -> at_level k l' = at_level k l) -> by_level n l' = by_level n l.
Proof.
  induction n as [|n IH]; intros Hk; [done|]. cbn [by_level]. rewrite Hk by lia. rewrite IH; [done|]. intros k ?. apply Hk. lia.
Qed.

Lemma by_level_take m n l l' w rest :
  (n < m)%nat -> Forall (fun x => x.1 <= Z.of_nat n) l -> at_level n l = w :: rest -> at_level n l' = rest ->
  (forall k, k <> n -> at_level k l' = at_level k l) -> by_level m l = w :: by_level m l'.
Proof.
  intros Hm Hle Hn Hn' Hoth. induction m as [|m IH]; [lia|]. cbn [by_level]. destruct (decide (m = n)) as [->|Hne].
  - rewrite Hn, Hn', (by_level_same n l l'); [done|]. intros k ?. apply Hoth. lia.
  - rewrite Hoth by done. rewrite (at_level_none m l), IH; [done|lia|].
    eapply Forall_impl; [exact Hle|]. cbn. lia.
Qed.

(** Each of them once. *)
Lemma by_priority_perm l : Forall (fun x => 0 <= x.1 < 16) l -> by_priority l ≡ₚ l.*2.
Proof.
  induction 1 as [|x l Hx Hl IH]; [done|]. rewrite fmap_cons, <-IH. unfold by_priority.
  assert (E : forall n, by_level n (x :: l) ≡ₚ (if decide (x.1 < Z.of_nat n) then [x.2] else []) ++ by_level n l).
  { induction n as [|n IHn]; [by rewrite decide_False by lia|]. cbn [by_level]. rewrite at_level_cons, IHn.
    destruct (decide (x.1 = Z.of_nat n)), (decide (x.1 < Z.of_nat n)), (decide (x.1 < Z.of_nat (S n))); try lia;
      cbn [app]; [done| |done]. by rewrite Permutation_middle. }
  rewrite E, decide_True by lia. done.
Qed.

Lemma pop_below_spec n q l :
  buckets q l -> (n <= 16)%nat -> Forall (fun x => x.1 < Z.of_nat n) l ->
  match pq_pop_below n q with
  | Some (w, q') => exists i x, first_highest l = Some (i, x) /\ x.2 = w /\ buckets q' (delete i l)
      /\ by_priority l = w :: by_priority (delete i l)
  | None => l = []
  end.
Proof.
  intros [Hlen Hlv Hb] Hn. induction n as [|n IH]; intros Hlt; cbn [pq_pop_below].
  { destruct l as [|x l]; [done|]. inversion Hlt. inversion Hlv. lia. }
  rewrite (Hb n) by lia. destruct (at_level n l) as [|w rest] eqn:El.
  - apply IH; [lia|]. apply at_level_nil in El. rewrite Forall_forall in Hlt, El |- *.
    intros x Hx. specialize (Hlt x Hx). specialize (El x Hx). lia.
  - destruct (first_highest_bucket l n w rest) as (i & x & Hf & Hw & Hx & Hself & Hoth); [|done|].
    { eapply Forall_impl; [exact Hlt|]. cbn. lia. }
    exists i, x. split; [done|]. split; [done|]. split; [|apply (by_level_take 16 n _ _ w rest); try done;
      eapply Forall_impl; [exact Hlt|]; cbn; lia].
    split; [by rewrite length_insert| |].
    + apply Forall_delete. done.
    + intros k Hk. destruct (decide (k = n)) as [->|Hne].
      * rewrite list_lookup_insert_eq by (rewrite Hlen; unfold NUM_PRIORITY_LEVELS; lia). by rewrite Hself.
      * rewrite list_lookup_insert_ne by done. rewrite Hb, Hoth by done. done.
Qed.

Lemma push_spec w priority q l :
  buckets q l -> fits priority ->
  exists q', pq_push w priority q = Some q' /\ buckets q' (l ++ [(level priority, w)]).
Proof.
  intros [Hlen Hlv Hb] [H1 H2]. unfold pq_push, s32. rewrite (proj2 (Z.ltb_lt _ _) H2). cbv zeta.
  assert (E : (if 15 <? priority then 15 else priority) = level priority)
    by (unfold level; destruct (Z.ltb_spec 15 priority); lia).
  rewrite E. assert (Hl : 0 <= level priority < 16) by (unfold level; lia).
  rewrite (proj2 (Z.ltb_ge _ _)) by lia. eexists. split; [done|]. split.
  - by rewrite length_alter.
  - apply Forall_app. split; [done|]. by apply Forall_singleton.
  - intros k Hk. rewrite at_level_app, at_level_cons. cbn [fst snd].
    destruct (decide (k = Z.to_nat (level priority))) as [->|Hne].
    + rewrite list_lookup_alter_eq, Hb by lia. rewrite decide_True by lia. reflexivity.
    + rewrite list_lookup_alter_ne by done. rewrite Hb, decide_False by lia. f_equal. symmetry. apply app_nil_r.
Qed.

Lemma size_below n l : (n <= 16)%nat -> Forall (fun x => 0 <= x.1) l ->
  foldl (fun total b => (total + length b)%nat) 0%nat ((fun k => at_level k l) <$> seq 0 n)
  = length (filter (fun x : Z * A => x.1 < Z.of_nat n) l).
Proof.
  intros Hn H0. induction n as [|n IH].
  - cbn. induction H0 as [|x l Hx H0 IH']; [done|]. rewrite filter_cons, decide_False by lia. by apply IH'; lia.
  - rewrite seq_S, fmap_app, foldl_app, IH by lia. cbn. clear IH. unfold at_level. rewrite length_fmap.
    induction H0 as [|x l Hx H0 IH']; [done|]. rewrite !filter_cons.
    destruct (decide (x.1 < Z.of_nat n)), (decide (x.1 = Z.of_nat n)), (decide (x.1 < Z.of_nat (S n))); cbn [length]; lia.
Qed.

Lemma buckets_list q l : buckets q l -> q = (fun k => at_level k l) <$> seq 0 16.
Proof.
  intros [Hlen _ Hb]. apply list_eq. intros k. destruct (decide (k < 16)%nat) as [Hk|Hk].
  - rewrite Hb by done. rewrite list_lookup_fmap, lookup_seq_lt by done. done.
  - rewrite !lookup_ge_None_2; [done|rewrite length_fmap, length_seq; lia|rewrite Hlen; unfold NUM_PRIORITY_LEVELS; lia].
Qed.

Lemma filter_all (P : Z * A -> Prop) `{!forall x, Decision (P x)} l : Forall P l -> filter P l = l.
Proof. induction 1 as [|x l Hx Hl IH]; [done|]. by rewrite filter_cons, decide_True, IH. Qed.

Lemma size_spec q l : buckets q l -> pq_size q = length l.
Proof.
  intros Hb. rewrite (buckets_list q l Hb). unfold pq_size. rewrite size_below; [|lia|].
  - rewrite filter_all; [done|]. eapply Forall_impl; [apply Hb|]. cbn. lia.
  - eapply Forall_impl; [apply Hb|]. cbn. lia.
Qed.

Lemma empty_spec q l : buckets q l -> pq_empty q = bool_decide (l = []).
Proof.
  intros Hb. pose proof (size_spec q l Hb) as Hs. unfold pq_empty.
  assert (E : forall n q, foldl (fun total b => (total + length b)%nat) n q
    = (n + foldl (fun total (b : list A) => (total + length b)%nat) 0 q)%nat).
  { clear. intros n q. revert n. induction q as [|b q IH]; intros n; cbn; [lia|]. rewrite IH, (IH (length b)). lia. }
  assert (Hz : forallb (fun b => bool_decide (length b = 0%nat)) q = bool_decide (pq_size q = 0%nat)).
  { clear Hb Hs. unfold pq_size. induction q as [|b q IH]; [done|]. cbn. rewrite IH, (E (length b)). clear IH.
    repeat case_bool_decide; (done || lia). }
  rewrite Hz, Hs. apply bool_decide_ext. destruct l; cbn; naive_solver lia.
Qed.

(** A call whose priority an [int] holds. *)
Definition sane (c : queue_call A) : Prop := match c with QPush _ priority => fits priority | _ => True end.

Lemma queue_step_spec q l c :
  buckets q l -> sane c ->
  exists q', queue_step q c = Some ((spec_queue l c).1, q') /\ buckets q' (spec_queue l c).2.
Proof.
  intros Hb Hc. destruct c as [w priority| | |]; cbn [queue_step spec_queue].
  - destruct (push_spec w priority q l Hb Hc) as (q' & -> & Hq'). by exists q'.
  - pose proof (pop_below_spec 16 q l Hb ltac:(lia)) as Hp. unfold tryPop, NUM_PRIORITY_LEVELS.
    destruct (pq_pop_below 16 q) as [[w q']|].
    + destruct Hp as (i & x & -> & <- & Hq' & _); [eapply Forall_impl; [apply Hb|]; cbn; lia|]. by exists q'.
    + assert (l = []) as -> by (apply Hp; eapply Forall_impl; [apply Hb|]; cbn; lia). by exists q.
  - exists q. by rewrite (size_spec q l Hb).
  - exists q. by rewrite (empty_spec q l Hb).
Qed.

Lemma buckets_new : buckets (replicate NUM_PRIORITY_LEVELS []) [].
Proof. split; [by rewrite length_replicate|constructor|]. intros k Hk. by apply lookup_replicate_2. Qed.

(** C19. The priority queue of the daemon refines a list.  Any sequence of
    pushes with priorities an [int] holds, pops and queries on the sixteen
    buckets is answered as on one list in order of arrival, from which a pop
    takes the first workload of the highest priority; priorities above 15
    count as 15, and no workload is lost or returned twice. *)
Theorem priority_queue_refines cs q l :
  buckets q l -> Forall sane cs ->
  exists q', queue_run q cs = Some ((spec_queue_run l cs).1, q') /\ buckets q' (spec_queue_run l cs).2.
Proof.
  intros Hb Hcs. revert q l Hb. induction Hcs as [|c cs Hc Hcs IH]; intros q l Hb; [by exists q|].
  cbn [queue_run spec_queue_run]. destruct (queue_step_spec q l c Hb Hc) as (q1 & -> & Hb1).
  destruct (spec_queue l c) as [r l1]. cbn [fst snd mbind option_bind] in *.
  destruct (IH q1 l1 Hb1) as (q2 & -> & Hb2). destruct (spec_queue_run l1 cs) as [rs l2]. by exists q2.
Qed.
End spec.

Lemma priority_queue_refines_witness :
  let cs := [QPush 1 8; QPush 2 40; QPush 3 15; QPop; QSize; QPop; QPop; QPop; QEmpty] in
  exists q', queue_run (replicate NUM_PRIORITY_LEVELS []) cs
    = Some ([APushed; APushed; APushed; APopped (Some 2); ASize 2; APopped (Some 3); APopped (Some 1); APopped None;
             AEmpty true], q') /\ buckets q' [].
Proof.
  intros cs. apply (priority_queue_refines cs _ [] buckets_new). unfold cs, sane, fits.
  repeat (apply List.Forall_cons; [lia || done|]). constructor.
Defined.

(** ** Processing *)

Section processing.
Context `{RtEnv} (reg : DeviceRegistry).

(** The chosen GPU exists and is enabled. *)
Definition usable (g : Z) : bool :=
  match getGpu g reg with Some d => sta_enabled (dv_state d) | None => false end.

(** *** The GPU of a mode *)

Definition utilization (d : GpuDevice) : Z := sta_utilization (dv_state d).

(** The first GPU than which none is used less; 0 if all are at the largest
    32-bit number. *)
Definition lightest (g : Z) : Prop :=
  (exists i d, g = Z.of_nat i /\ rg_gpus reg !! i = Some d /\ utilization d < U32_MAX
     /\ Forall (fun d' => utilization d <= utilization d') (rg_gpus reg)
     /\ forall j d', (j < i)%nat -> rg_gpus reg !! j = Some d' -> utilization d < utilization d')
  \/ (g = 0 /\ Forall (fun d => U32_MAX <= utilization d) (rg_gpus reg)).

(** The scores of the model for the GPUs it looks at. *)
Definition advice (i : nat) : option f32 := Some (ai_score (ai_features reg) i).
Definition candidates : list nat := seq 0 (ft_num_gpus (ai_features reg)).

(** A GPU with the best score above -1; without a model or such a GPU, the
    lightest. *)
Definition advised (s : Scheduler) (g : Z) : Prop :=
  let loaded := default rt_model_alloc (rs_model s) in
  (loaded = true /\ exists i, g = Z.of_nat i /\ best_of advice (fopp f1) candidates i)
  \/ ((loaded = false \/ none_above advice (fopp f1) candidates) /\ lightest g).

(** The GPU of the [i]-th workload that is dispatched, counted from 0: in turn
    for the static mode, unless the weights add up to 0. *)
Definition chosen (s : Scheduler) (i : nat) (g : Z) : Prop :=
  match rs_mode s with
  | STATIC_PARTITIONING =>
      g = if u32 (foldr Z.add 0 (rs_staticWeights s)) =? 0 then 0
          else Nat.iter i (fun n => u32 (n + 1)) (rs_nextGpuIndex s) mod Z.of_nat (length (rs_staticWeights s))
  | DYNAMIC_LOAD_BALANCING | APPLICATION_PROFILE => lightest g
  | AI_DRIVEN => advised s g
  | MODE_OTHER _ => g = 0
  end.

Lemma total_weight ws : foldl (fun total w => u32 (total + w)) 0 ws = u32 (foldr Z.add 0 ws).
Proof.
  assert (E : forall a, foldl (fun total w => u32 (total + w)) (u32 a) ws = u32 (a + foldr Z.add 0 ws)); [|exact (E 0)].
  induction ws as [|w ws IH]; intros a; cbn; [by rewrite Z.add_0_r|]. rewrite u32_add_l, IH. f_equal. lia.
Qed.

Lemma least_utilized_spec gpus i best u :
  let k := least_utilized i gpus best u in
  (k = best /\ Forall (fun d => u <= utilization d) gpus)
  \/ exists j d, k = Z.of_nat (i + j) /\ gpus !! j = Some d /\ utilization d < u
       /\ Forall (fun d' => utilization d <= utilization d') gpus
       /\ forall j' d', (j' < j)%nat -> gpus !! j' = Some d' -> utilization d < utilization d'.
Proof.
  revert i best u. induction gpus as [|d gpus IH]; intros i best u; cbn [least_utilized]; [by left|].
  fold (utilization d). destruct (Z.ltb_spec (utilization d) u) as [Hlt|Hge].
  - right. destruct (IH (S i) (Z.of_nat i) (utilization d)) as [[-> Hall]|(j & d' & -> & Hj & Hd & Hall & Hbefore)].
    + exists 0%nat, d. split_and!; [lia|done|done|by constructor|lia].
    + exists (S j), d'. split_and!; [lia|done|lia|constructor; [lia|done]|]. intros [|j'] e ? He; [cbn in He; congruence|].
      apply (Hbefore j'); [lia|done].
  - destruct (IH (S i) best u) as [[-> Hall]|(j & d' & -> & Hj & Hd & Hall & Hbefore)].
    + left. split; [done|]. by constructor.
    + right. exists (S j), d'. split_and!; [lia|done|done|constructor; [lia|done]|].
      intros [|j'] e ? He; [cbn in He; simplify_eq; lia|]. apply (Hbefore j'); [lia|done].
Qed.

Lemma dynamic_lightest : lightest (scheduleDynamic reg).
Proof.
  destruct (least_utilized_spec (rg_gpus reg) 0 0 U32_MAX) as [[E Hall]|(j & d & E & H')]; [by right|left]. by exists j, d.
Qed.

(** A workload after its dispatch to GPU [g]. *)
Definition dispatched (g : Z) (w : Workload) : Workload :=
  w <| wk_assignedGpu := g |> <| wk_state := if usable g then WS_COMPLETE else WS_ERROR |>.

(** The scheduler apart from its queue, its workloads and its counters. *)
Definition settings (s : Scheduler) := (rs_mode s, rs_workloads s, rs_nextWorkloadId s, rs_totalWorkloads s,
  rs_staticWeights s, rs_profiles s, rs_networkEnabled s).

Definition put_workload (p : addr) (w : Workload) (s : Scheduler) : Scheduler := s <| rs_heap ::= <[p := w]> |>.

Lemma set_workload_run p f w s :
  rs_heap s !! p = Some w -> set_workload p f s = Ret (tt, put_workload p (f w) s).
Proof.
  intros Hw. assert (E : alter f p (rs_heap s) = <[p := f w]> (rs_heap s)).
  { apply map_eq. intros q. destruct (decide (q = p)) as [->|Hne].
    - by rewrite lookup_alter_eq, lookup_insert_eq, Hw.
    - by rewrite lookup_alter_ne, lookup_insert_ne. }
  unfold set_workload, put_workload, modify. destruct s. cbn in *. by rewrite E.
Qed.

Lemma put_put p w w' s : put_workload p w (put_workload p w' s) = put_workload p w s.
Proof. unfold put_workload. destruct s. cbn. by rewrite insert_insert_eq. Qed.

Lemma put_lookup p w s : rs_heap (put_workload p w s) !! p = Some w.
Proof. apply lookup_insert_eq. Qed.

(** Runs one update of the workload [p]. *)
Ltac run_set p := rewrite (bind_ret _ _ _ _ _ (set_workload_run p _ _ _ (put_lookup p _ _))), put_put.

Lemma dispatch_run p g w s :
  rs_heap s !! p = Some w ->
  exists b, dispatchToGpu reg p g s = Ret (b, (put_workload p (dispatched g w) s)
    <| rs_completedWorkloads ::= fun n => u64 (n + 1) |>).
Proof.
  intros Hw. unfold dispatchToGpu, dispatched, usable.
  rewrite (bind_ret _ _ _ _ _ (set_workload_run p _ w s Hw)). run_set p.
  destruct (getGpu g reg) as [d|]; [destruct (sta_enabled (dv_state d))|].
  - run_set p. run_set p. by eexists.
  - run_set p. by eexists.
  - run_set p. by eexists.
Qed.

Lemma get_bind_rt {A} (k : Scheduler -> RSM A) s : ((get : RSM _) ≫= k) s = k s s.
Proof. reflexivity. Qed.

Lemma scheduleAI_run s :
  exists g, scheduleAI reg s = Ret (g, s <| rs_model := Some (default rt_model_alloc (rs_model s)) |>) /\ advised s g.
Proof.
  unfold scheduleAI. rewrite get_bind_rt. unfold modify, mbind, M_bind, advised. set (loaded := default _ _).
  pose proof (argmax_bound advice (fopp f1) candidates) as Hb. unfold mvgal_ai_model_predict. fold candidates.
  change (fun i => Some (ai_score (ai_features reg) i)) with advice.
  destruct loaded; [|eexists; split; [reflexivity|right; split; [by left|apply dynamic_lightest]]].
  destruct (argmax false advice (fopp f1) candidates) as [b [i|]]; cbn [snd].
  - rewrite (proj2 (Nat.ltb_lt _ _)) by (destruct Hb as [Hin _]; apply elem_of_seq in Hin; lia).
    eexists. split; [reflexivity|]. left. eauto.
  - eexists. split; [reflexivity|]. right. split; [right; apply Hb|apply dynamic_lightest].
Qed.

Lemma choose_run s :
  exists g s1, choose_gpu reg s = Ret (g, s1) /\ settings s1 = settings s /\ rs_queue s1 = rs_queue s
    /\ rs_heap s1 = rs_heap s /\ rs_completedWorkloads s1 = rs_completedWorkloads s
    /\ chosen s 0 g /\ (forall i g', chosen s1 i g' -> chosen s (S i) g').
Proof.
  unfold choose_gpu, chosen. rewrite get_bind_rt. destruct (rs_mode s) eqn:Em.
  - unfold scheduleStatic. rewrite get_bind_rt, total_weight. destruct (_ =? 0) eqn:Ew; eexists _, _; (split; [reflexivity|]);
      cbn -[u32 Nat.iter]; rewrite Em, ?Ew; split_and!; try done; [unfold settings; cbn; by rewrite Em|].
    intros i g' ->. by rewrite Nat.iter_succ_r.
  - eexists _, _. split; [reflexivity|]. rewrite Em. split_and!; try done. apply dynamic_lightest.
  - eexists _, _. split; [reflexivity|]. rewrite Em. split_and!; try done. apply dynamic_lightest.
  - destruct (scheduleAI_run s) as (g & E & Ha). eexists _, _. split; [exact E|]. cbn. rewrite Em.
    split_and!; try done. unfold settings. cbn. by rewrite Em.
  - eexists _, _. split; [reflexivity|]. by rewrite Em.
Qed.

(** ** The loop *)

Definition pending (s : Scheduler) (p : addr) : bool :=
  match rs_heap s !! p with Some w => bool_decide (wk_state w = WS_PENDING) | None => false end.

(** What the processing did of a queue that gives the workloads out in the
    order of [l]. *)
Record processed (l : list addr) (s s' : Scheduler) : Prop := {
  pr_settings : settings s' = settings s;
  pr_done : forall i p, filter (fun p => pending s p = true) l !! i = Some p ->
    exists w g, rs_heap s !! p = Some w /\ chosen s i g /\ rs_heap s' !! p = Some (dispatched g w);
  pr_rest : forall p, p ∉ l \/ pending s p = false -> rs_heap s' !! p = rs_heap s !! p;
  pr_count : u64 (rs_completedWorkloads s')
             = u64 (rs_completedWorkloads s + Z.of_nat (length (filter (fun p => pending s p = true) l)))
}.

(** One workload that was waiting. *)
Lemma handle_run p w s :
  rs_heap s !! p = Some w -> wk_state w = WS_PENDING ->
  exists g s', (start ← rt_now;
    gpuIndex ← choose_gpu reg;
    stop ← rt_now;
    modify (fun s => s <| rs_schedulingTimeUs ::= fun n => u64 (n + Z.quot (stop - start) 1000) |>);;
    dispatchToGpu reg p gpuIndex;; mret tt) s = Ret (tt, s')
    /\ settings s' = settings s /\ rs_queue s' = rs_queue s /\ rs_heap s' = <[p := dispatched g w]> (rs_heap s)
    /\ rs_completedWorkloads s' = u64 (rs_completedWorkloads s + 1)
    /\ chosen s 0 g /\ (forall i g', chosen s' i g' -> chosen s (S i) g').
Proof.
  intros Hw Hp. set (s1 := s <| rs_ticks ::= S |>).
  destruct (choose_run s1) as (g & s2 & Hch & Hset & Hq & Hh & Hc & Hm & Hnext).
  set (s3 := s2 <| rs_ticks ::= S |>).
  set (s4 := s3 <| rs_schedulingTimeUs ::= fun n => u64 (n + Z.quot (rt_clock (rs_ticks s2) - rt_clock (rs_ticks s)) 1000) |>).
  destruct (dispatch_run p g w s4) as (b & Hd); [change (rs_heap s4) with (rs_heap s2); rewrite Hh; exact Hw|].
  exists g. eexists. split.
  - rewrite (bind_ret _ _ s (rt_clock (rs_ticks s)) s1) by done. rewrite (bind_ret _ _ _ _ _ Hch).
    rewrite (bind_ret _ _ s2 (rt_clock (rs_ticks s2)) s3) by done. rewrite (bind_ret _ _ s3 tt s4) by done.
    rewrite (bind_ret _ _ _ _ _ Hd). reflexivity.
  - split_and!; [exact Hset|exact Hq| |cbn; by rewrite Hc|exact Hm|exact Hnext]. cbn. by rewrite Hh.
Qed.

Lemma pending_heap s s' p : rs_heap s' !! p = rs_heap s !! p -> pending s' p = pending s p.
Proof. unfold pending. by intros ->. Qed.

Lemma pending_filter s s' (l : list addr) :
  (forall p, p ∈ l -> rs_heap s' !! p = rs_heap s !! p) ->
  filter (fun p => pending s' p = true) l = filter (fun p => pending s p = true) l.
Proof.
  intros Hl. induction l as [|p l IH]; [done|]. rewrite !filter_cons, IH by (intros; apply Hl; by right).
  rewrite (pending_heap s s' p (Hl p ltac:(by left))). done.
Qed.

Lemma processed_skip p l s s' : pending s p = false -> processed l s s' -> processed (p :: l) s s'.
Proof.
  intros Hp [P1 P2 P3 P4].
  assert (E : filter (fun p => pending s p = true) (p :: l) = filter (fun p => pending s p = true) l)
    by (rewrite filter_cons, decide_False by congruence; done).
  split; [done|by rewrite E| |by rewrite E]. intros q [Hq|Hq]; apply P3; [left; set_solver|by right].
Qed.

Lemma processed_cons p g w l s s1 s' :
  rs_heap s !! p = Some w -> wk_state w = WS_PENDING -> settings s1 = settings s ->
  rs_heap s1 = <[p := dispatched g w]> (rs_heap s) -> rs_completedWorkloads s1 = u64 (rs_completedWorkloads s + 1) ->
  chosen s 0 g -> (forall i g', chosen s1 i g' -> chosen s (S i) g') ->
  processed l s1 s' -> p ∉ l -> processed (p :: l) s s'.
Proof.
  intros Hw Hst Hset Hh Hc Hm Hnext [P1 P2 P3 P4] Hl.
  assert (Hoth : forall q, q <> p -> rs_heap s1 !! q = rs_heap s !! q) by (intros q Hq; by rewrite Hh, lookup_insert_ne).
  assert (E : filter (fun p => pending s p = true) (p :: l) = p :: filter (fun p => pending s1 p = true) l).
  { rewrite filter_cons, decide_True by (unfold pending; by rewrite Hw, bool_decide_true). f_equal. symmetry.
    apply pending_filter. intros q Hq. apply Hoth. by intros ->. }
  split; [congruence| | |].
  - rewrite E. intros [|i] q Hi.
    + cbn in Hi. simplify_eq. exists w, g. rewrite P3 by (by left). by rewrite Hh, lookup_insert_eq.
    + cbn in Hi. destruct (P2 i q Hi) as (w' & g' & Hw' & Hg' & Hq). exists w', g'.
      assert (Hin : q ∈ l) by (apply list_elem_of_lookup_2 in Hi; by apply list_elem_of_filter in Hi as [_ ?]).
      rewrite <-Hoth by (by intros ->). auto.
  - intros q Hq. assert (q <> p).
    { intros ->. destruct Hq as [Hq|Hq]; [set_solver|]. unfold pending in Hq. rewrite Hw, bool_decide_true in Hq by done. done. }
    rewrite P3, Hoth; [done|done|]. destruct Hq as [Hq|Hq]; [left; set_solver|right]. by rewrite (pending_heap s s1 q (Hoth q ltac:(done))).
  - rewrite E, P4, Hc, u64_add_l. cbn [length]. f_equal. lia.
Qed.

Lemma settings_queue s q : settings (s <| rs_queue := q |>) = settings s.
Proof. done. Qed.

Lemma processed_queue q l s s' : processed l (s <| rs_queue := q |>) s' -> processed l s s'.
Proof. intros [P1 P2 P3 P4]. by split. Qed.

Lemma loop_drains fuel l s :
  buckets (rs_queue s) l -> NoDup (by_priority l) -> (forall p, p ∈ by_priority l -> is_Some (rs_heap s !! p)) ->
  (length l < fuel)%nat ->
  exists s', process_loop_rt fuel reg s = Ret (tt, s') /\ buckets (rs_queue s') [] /\ processed (by_priority l) s s'.
Proof.
  revert l s. induction fuel as [|fuel IH]; intros l s Hb Hnd Hlive Hf; [lia|]. cbn [process_loop_rt].
  rewrite get_bind_rt. pose proof (pop_below_spec 16 (rs_queue s) l Hb ltac:(lia)) as Hpop. unfold tryPop, NUM_PRIORITY_LEVELS.
  assert (Hlt : Forall (fun x => x.1 < Z.of_nat 16) l) by (eapply Forall_impl; [apply Hb|]; cbn; lia). specialize (Hpop Hlt).
  destruct (pq_pop_below 16 (rs_queue s)) as [[p q]|].
  - destruct Hpop as (i & [k p'] & Hfirst & Hp & Hq & E). cbn in Hp. subst p'. apply list_find_Some in Hfirst as (Hi & _ & _).
    pose proof (delete_Permutation _ _ _ Hi) as Hperm. set (l1 := delete i l) in *. rewrite E in Hnd, Hlive |- *.
    apply NoDup_cons in Hnd as [Hp Hnd]. assert (Hlen : (length l1 < fuel)%nat) by (rewrite Hperm in Hf; cbn in Hf; lia).
    destruct (Hlive p) as [w Hw]; [left|]. set (s1 := s <| rs_queue := q |>).
    rewrite (bind_ret _ _ s tt s1) by done. rewrite (bind_ret (workload_at p) _ s1 w s1) by (unfold workload_at; change (rs_heap s1) with (rs_heap s); by rewrite Hw).
    destruct (bool_decide_reflect (wk_state w = WS_PENDING)) as [Hst|Hst]; cbn [negb].
    + destruct (handle_run p w s1 Hw Hst) as (g & s2 & Hrun & Hset & Hq2 & Hh & Hc & Hm & Hnext).
      rewrite (bind_ret _ _ _ _ _ Hrun). destruct (IH l1 s2) as (s' & Hrun' & Hb' & Hpr); [by rewrite Hq2|done| |done|].
      { intros r Hr. rewrite Hh, lookup_insert_ne by (intros ->; done). apply Hlive. by right. }
      exists s'. split; [done|]. split; [done|]. by apply (processed_cons p g w _ s s2 s').
    + rewrite (bind_ret _ _ s1 tt s1) by done.
      destruct (IH l1 s1) as (s' & Hrun' & Hb' & Hpr); [done|done|intros r Hr; apply Hlive; by right|done|].
      exists s'. split; [done|]. split; [done|].
      apply processed_skip; [|by apply (processed_queue q)]. unfold pending. rewrite Hw. by apply bool_decide_false.
  - subst l. exists s. split; [done|]. split; [done|]. split; [done|by intros []|done|]. cbn. by rewrite Z.add_0_r.
Qed.

(** The queue holds live workloads, each once; [l] is their order. *)
Record waiting (l : list (Z * addr)) (s : Scheduler) : Prop := {
  wa_buckets : buckets (rs_queue s) l;
  wa_once : NoDup (l.*2);
  wa_live : forall p, p ∈ l.*2 -> is_Some (rs_heap s !! p)
}.

Lemma submit_waits type priority mask l s :
  waiting l s -> fits priority ->
  exists p s', rt_submit type priority mask s = Ret (rs_nextWorkloadId s, s')
    /\ waiting (l ++ [(level priority, p)]) s' /\ pending s' p = true
    /\ rs_workloads s' = <[rs_nextWorkloadId s := p]> (rs_workloads s)
    /\ rs_totalWorkloads s' = u64 (rs_totalWorkloads s + 1)
    /\ forall q, q <> p -> rs_heap s' !! q = rs_heap s !! q.
Proof.
  intros [Hb Hnd Hlive] Hfit. set (p := fresh (dom (rs_heap s))).
  assert (Hp : rs_heap s !! p = None) by (apply not_elem_of_dom_1, is_fresh).
  destruct (push_spec p priority (rs_queue s) l Hb Hfit) as (q & Hq & Hb').
  exists p. eexists. split; [unfold rt_submit; rewrite get_bind_rt; unfold mbind, M_bind, modify; cbn; fold p; rewrite Hq; reflexivity|].
  split; [|split_and!; [unfold pending; cbn; by rewrite lookup_insert_eq|done|done|
    intros r Hr; cbn; by rewrite lookup_insert_ne]].
  split; [exact Hb'| |].
  - rewrite fmap_app. apply NoDup_app. split; [done|]. split; [|apply NoDup_singleton].
    intros r Hr ->%list_elem_of_singleton. destruct (Hlive _ Hr) as [w Hw]. cbn in Hw. congruence.
  - intros r Hr. rewrite fmap_app in Hr. cbn. destruct (decide (r = p)) as [->|Hne]; [by rewrite lookup_insert_eq|].
    rewrite lookup_insert_ne by done. apply Hlive. set_solver.
Qed.

Lemma waiting_new : waiting [] Scheduler_new.
Proof. split; [apply buckets_new|constructor|set_solver]. Qed.

(** C23. Processing drains the queue.  On a scheduler whose queue holds live
    workloads once each, [processPending] returns, within one pass per
    workload and one more; the queue is then empty.  The pending workloads are
    dispatched in order of priority and, within a priority, of arrival, and the
    [i]-th of them has the GPU that the mode gives it: in the static mode the
    GPUs in turn, or the first if the weights add up to 0; in the dynamic and
    the profile mode the first of those used least; in the AI mode one that
    the model scores best, or that of the dynamic mode when there is no model
    or no score above -1; in any other mode the first.  It is complete if that
    GPU exists and is enabled and failed otherwise.  No other workload has
    changed, and the count of completed workloads has grown by the number of
    those dispatched, failed ones included. *)
Theorem process_pending_drains l s :
  waiting l s ->
  exists s', processPending reg s = Ret (tt, s') /\ waiting [] s' /\ processed (by_priority l) s s'.
Proof.
  intros [Hb Hnd Hlive]. pose proof (by_priority_perm l (bu_levels _ _ Hb)) as Hperm.
  destruct (loop_drains (S (pq_size (rs_queue s))) l s) as (s' & Hrun & Hb' & Hp);
    [done|by rewrite Hperm|intros p; rewrite Hperm; apply Hlive|rewrite (size_spec _ _ Hb); lia|].
  exists s'. split; [exact Hrun|]. split; [|done]. split; [done|constructor|set_solver].
Qed.

End processing.

(** Two cards, the first busier, and three workloads. *)
Module TwoCards.

#[export] Instance env : RtEnv := {| rt_clock := Z.of_nat; rt_model_alloc := true |}.

Definition card (utilization : Z) : GpuDevice :=
  let d := new_device (mk_files (fun _ => None) (fun _ => None)) 0 4098 1 in
  d <| dv_state := (dv_state d) <| sta_utilization := utilization |> |>.

Definition reg : DeviceRegistry := mk_registry [card 70; card 20] [].

Definition submitted : M Scheduler unit :=
  rt_submit WT_COMPUTE 3 U32_MAX;; rt_submit WT_GRAPHICS 90 U32_MAX;; rt_submit WT_TRANSFER 3 U32_MAX;; mret tt.

Definition after : Scheduler := match submitted Scheduler_new with Ret (_, s) => s | _ => Scheduler_new end.

Lemma after_waiting : exists a b c, waiting [(3, a); (15, b); (3, c)] after.
Proof.
  destruct (submit_waits WT_COMPUTE 3 U32_MAX [] Scheduler_new waiting_new) as (a & s1 & H1 & W1 & _); [done|].
  destruct (submit_waits WT_GRAPHICS 90 U32_MAX _ s1 W1) as (b & s2 & H2 & W2 & _); [done|].
  destruct (submit_waits WT_TRANSFER 3 U32_MAX _ s2 W2) as (c & s3 & H3 & W3 & _); [done|].
  exists a, b, c. replace after with s3; [exact W3|]. unfold after, submitted.
  rewrite (bind_ret _ _ _ _ _ H1), (bind_ret _ _ _ _ _ H2), (bind_ret _ _ _ _ _ H3). reflexivity.
Qed.

Lemma process_pending_drains_witness :
  exists l s', waiting l after /\ processPending reg after = Ret (tt, s') /\ waiting [] s'
    /\ processed reg (by_priority l) after s' /\ length l = 3%nat /\ rs_completedWorkloads s' = 3.
Proof.
  destruct after_waiting as (a & b & c & W).
  destruct (process_pending_drains reg _ _ W) as (s' & Hrun & Hw & Hp).
  eexists _, s'. split_and!; [exact W|exact Hrun|exact Hw|exact Hp|done|].
  assert (Hc : rs_completedWorkloads <$> (match processPending reg after with Ret (_, s) => Some s | _ => None end) = Some 3)
    by (vm_compute; reflexivity).
  rewrite Hrun in Hc. cbn in Hc. congruence.
Defined.

End TwoCards.
