(* ===== verification/RtMemory.v ===== *)
(** * The memory manager of the runtime daemon

    runtime/daemon/memory_manager.hpp and memory_manager.cpp: allocation of
    address ranges, placement on a GPU, mapping, replication, migration,
    DMA-BUF import and release.  [mmap], [munmap], [dup] and [close] belong to
    the system: the manager's state records what is mapped and open, and the
    class [RtMemOS] gives the answers of the calls that can fail. *)

From S2P Require Import Prelude Float32 RtDevices RtScheduler.
From stdpp Require Import strings.
Local Open Scope Z_scope.

(** ** The system *)

(** Ranges that are mapped, by their first address. *)
Abbreviation ranges := (gmap Z Z).

(** [rt_mmap maps n size]: the [n]-th [mmap] call; [None] is [MAP_FAILED].
    [rt_dup fds n fd]: the [n]-th [dup] call; [None] is -1. *)
Class RtMemOS : Type := {
  rt_mmap : ranges -> nat -> Z -> option Z;
  rt_dup : gset Z -> nat -> Z -> option Z
}.

(** ** Data *)

Inductive AllocationStrategy : Type := FIRST_AVAILABLE | MOST_VRAM | LEAST_UTILIZED | NUMA_AWARE | EXPLICIT.

Definition FLAG_COHERENT : Z := 8.
Definition FLAG_CPU_VISIBLE : Z := 16.

(** The field [type] is never written or read.  [None] in a statistic is a
    field that the code leaves uninitialised. *)
Record MemoryAllocation : Type := mk_malloc {
  ma_id : Z;
  ma_uva : Z;
  ma_size : Z;
  ma_flags : Z;
  ma_gpuAddresses : list Z;
  ma_dmaBufFds : list Z;
  ma_populated : list bool;
  ma_accessCount : option Z;
  ma_lastAccessTime : option Z;
  ma_preferredGpu : Z;
  ma_isReplicated : option bool;
  ma_replicationTargets : list Z
}.
#[export] Instance malloc_eta : Eta MemoryAllocation := fun r =>
  mk_malloc (ma_id r) (ma_uva r) (ma_size r) (ma_flags r) (ma_gpuAddresses r) (ma_dmaBufFds r) (ma_populated r)
    (ma_accessCount r) (ma_lastAccessTime r) (ma_preferredGpu r) (ma_isReplicated r) (ma_replicationTargets r).

(** [mm_maps], [mm_fds] and [mm_calls] are the system's part: the ranges the
    manager has mapped, the open descriptors and the calls made. *)
Record MemoryManager : Type := mk_mm {
  mm_nextAllocationId : Z;
  mm_allocations : gmap Z MemoryAllocation;
  mm_strategy : AllocationStrategy;
  mm_maps : ranges;
  mm_fds : gset Z;
  mm_calls : nat
}.
#[export] Instance mm_eta : Eta MemoryManager := fun r =>
  mk_mm (mm_nextAllocationId r) (mm_allocations r) (mm_strategy r) (mm_maps r) (mm_fds r) (mm_calls r).

(** The constructor; [fds] are the descriptors of the process. *)
Definition MemoryManager_new (fds : gset Z) : MemoryManager := mk_mm 1 ∅ NUMA_AWARE ∅ fds 0.

Definition mm_fini (m : MemoryManager) : MemoryManager := m <| mm_allocations := ∅ |>.

(** ** Choosing a GPU *)

(** The loop over the GPUs from index [i]. *)
Fixpoint most_vram (i : nat) (gpus : list GpuDevice) (mostVram bestGpu : Z) : Z :=
  match gpus with
  | [] => bestGpu
  | d :: rest =>
      let v := cap_vramSize (dv_capabilities d) in
      if mostVram <? v then most_vram (S i) rest v (Z.of_nat i) else most_vram (S i) rest mostVram bestGpu
  end.

Definition findGpuWithMostVRAM (reg : DeviceRegistry) : Z :=
  if gpuCount reg =? 0 then 0 else most_vram 0 (rg_gpus reg) 0 0.

(** The loop is that of the scheduler's dynamic mode. *)
Definition findLeastUtilizedGpu (reg : DeviceRegistry) : Z :=
  if gpuCount reg =? 0 then 0 else least_utilized 0 (rg_gpus reg) 0 U32_MAX.

Definition getGpuForNumaNode (reg : DeviceRegistry) (numaNode : Z) : Z :=
  if numaNode <? s32 (gpuCount reg) then u32 numaNode else 0.

Definition target_gpu (reg : DeviceRegistry) (preferredGpu : Z) (strategy : AllocationStrategy) : Z :=
  match strategy with
  | FIRST_AVAILABLE => 0
  | MOST_VRAM => findGpuWithMostVRAM reg
  | LEAST_UTILIZED => findLeastUtilizedGpu reg
  | NUMA_AWARE => if negb (preferredGpu =? U32_MAX) then preferredGpu else getGpuForNumaNode reg 0
  | EXPLICIT => preferredGpu
  end.

Section manager.
Context `{RtMemOS}.

Abbreviation MMM := (M MemoryManager).

Definition mmap (size : Z) : MMM (option Z) := fun m =>
  let r := rt_mmap (mm_maps m) (mm_calls m) size in
  Ret (r, m <| mm_calls ::= S |> <| mm_maps ::= fun maps =>
    match r with Some a => <[a := size]> maps | None => maps end |>).

(** Every range is unmapped with the size it was mapped with. *)
Definition munmap (a : Z) : MMM unit := modify (fun m => m <| mm_maps ::= delete a |>).

(** The result of the call, -1 for a failure. *)
Definition dup (fd : Z) : MMM Z := fun m =>
  let r := rt_dup (mm_fds m) (mm_calls m) fd in
  Ret (default (-1) r, m <| mm_calls ::= S |> <| mm_fds ::= fun fds =>
    match r with Some f => {[f]} ∪ fds | None => fds end |>).

Definition close (fd : Z) : MMM unit := modify (fun m => m <| mm_fds ::= fun fds => fds ∖ {[fd]} |>).

(** ** Operations on one GPU *)

(** [operator[]] of a vector: a write outside of it. *)
Definition vec_set {S A : Type} (l : list A) (i : Z) (x : A) : M S (list A) :=
  if (0 <=? i) && (i <? Z.of_nat (length l)) then mret (<[Z.to_nat i := x]> l) else fails OutOfBounds.

Definition vec_get {S A : Type} (l : list A) (i : Z) : M S A :=
  if 0 <=? i then of_option OutOfBounds (l !! Z.to_nat i) else fails OutOfBounds.

Definition allocateOnGpu (alloc : MemoryAllocation) (gpuIndex : Z) : MMM (bool * MemoryAllocation) :=
  gpuAddresses ← vec_set (ma_gpuAddresses alloc) gpuIndex (u64 (4096 + ma_id alloc));
  mret (true, alloc <| ma_gpuAddresses := gpuAddresses |>).

Definition freeOnGpu (alloc : MemoryAllocation) (gpuIndex : Z) : MMM unit := mret tt.

Definition allocateSystemRam (size : Z) (alloc : MemoryAllocation) : MMM (bool * MemoryAllocation) :=
  ptr ← mmap size;
  match ptr with
  | None => mret (false, alloc)
  | Some p =>
      gpuAddresses ← vec_set (ma_gpuAddresses alloc) 0 p;
      mret (true, alloc <| ma_gpuAddresses := gpuAddresses |> <| ma_preferredGpu := 0 |>)
  end.

Definition canUseDmaBuf (gpuIndex : Z) : bool := true.
Definition importViaDmaBuf (alloc : MemoryAllocation) (gpuIndex : Z) : MMM bool := mret true.
Definition copyViaStagingBuffer (alloc : MemoryAllocation) (gpuIndex : Z) : MMM bool := mret true.

(** ** Operations *)

Definition set_populated (alloc : MemoryAllocation) (i : Z) (b : bool) : MMM MemoryAllocation :=
  populated ← vec_set (ma_populated alloc) i b; mret (alloc <| ma_populated := populated |>).

Definition next_id (f : Z -> Z) : MMM unit := modify (fun m => m <| mm_nextAllocationId ::= fun n => u64 (f n) |>).

(** The allocation before it is placed: [gpuCount] is the size of its vectors. *)
Definition new_allocation (id uva size flags preferredGpu : Z) (n : nat) (stat : option Z) (rep : option bool)
  : MemoryAllocation :=
  mk_malloc id uva size flags (replicate n 0) (replicate n (-1)) (replicate n false) stat stat preferredGpu rep [].

Definition allocate (reg : DeviceRegistry) (size flags preferredGpu : Z) (strategy : AllocationStrategy) : MMM Z :=
  id ← reads mm_nextAllocationId;
  next_id (fun n => n + 1);;
  uvaPtr ← mmap size;
  match uvaPtr with
  | None => next_id (fun n => n - 1);; mret 0
  | Some uva =>
      let targetGpu := target_gpu reg preferredGpu strategy in
      let alloc := new_allocation id uva size flags preferredGpu (Z.to_nat (gpuCount reg)) (Some 0) (Some false) in
      r ← allocateOnGpu alloc targetGpu;
      let '(ok, alloc) := r in
      r ← (if ok : bool then
             alloc ← set_populated alloc targetGpu true;
             mret (true, alloc <| ma_preferredGpu := targetGpu |>)
           else allocateSystemRam size alloc);
      let '(ok, alloc) := r in
      if negb ok then munmap (ma_uva alloc);; next_id (fun n => n - 1);; mret 0 else
      modify (fun m => m <| mm_allocations ::= <[ma_id alloc := alloc]> |>);;
      mret (ma_id alloc)
  end.

Fixpoint free_on_gpus (alloc : MemoryAllocation) (i : nat) (populated : list bool) : MMM unit :=
  match populated with
  | [] => mret tt
  | b :: rest =>
      (if b : bool then freeOnGpu alloc (u32 (Z.of_nat i)) else mret tt);; free_on_gpus alloc (S i) rest
  end.

Fixpoint close_fds (fds : list Z) : MMM unit :=
  match fds with
  | [] => mret tt
  | fd :: rest => (if 0 <=? fd then close fd else mret tt);; close_fds rest
  end.

Definition find_alloc (id : Z) : MMM (option MemoryAllocation) := reads (fun m => mm_allocations m !! id).

Definition mm_free (allocationId : Z) : MMM bool :=
  it ← find_alloc allocationId;
  match it with
  | None => mret false
  | Some alloc =>
      free_on_gpus alloc 0 (ma_populated alloc);;
      close_fds (ma_dmaBufFds alloc);;
      (if negb (ma_uva alloc =? 0) then munmap (ma_uva alloc) else mret tt);;
      modify (fun m => m <| mm_allocations ::= delete allocationId |>);;
      mret true
  end.

Definition getAllocation (id : Z) (m : MemoryManager) : option MemoryAllocation := mm_allocations m !! id.

(** The code writes through a reference into the map. *)
Definition store_alloc (id : Z) (alloc : MemoryAllocation) : MMM unit :=
  modify (fun m => m <| mm_allocations ::= <[id := alloc]> |>).

Definition mapToGpu (allocationId gpuIndex : Z) : MMM bool :=
  it ← find_alloc allocationId;
  match it with
  | None => mret false
  | Some alloc =>
      if Z.of_nat (length (ma_populated alloc)) <=? gpuIndex then mret false else
      populated ← vec_get (ma_populated alloc) gpuIndex;
      if populated : bool then mret true else
      if canUseDmaBuf gpuIndex then importViaDmaBuf alloc gpuIndex else copyViaStagingBuffer alloc gpuIndex
  end.

Definition unmapFromGpu (allocationId gpuIndex : Z) : MMM bool :=
  it ← find_alloc allocationId;
  match it with
  | None => mret false
  | Some alloc =>
      if Z.of_nat (length (ma_populated alloc)) <=? gpuIndex then mret false else
      populated ← vec_get (ma_populated alloc) gpuIndex;
      if negb populated then mret true else
      freeOnGpu alloc gpuIndex;;
      alloc ← set_populated alloc gpuIndex false;
      store_alloc allocationId alloc;; mret true
  end.

(** The loop; the flag is [false] when a target failed. *)
Fixpoint replicate_on (targets : list Z) (alloc : MemoryAllocation) : MMM (bool * MemoryAllocation) :=
  match targets with
  | [] => mret (true, alloc)
  | g :: rest =>
      if Z.of_nat (length (ma_gpuAddresses alloc)) <=? g then replicate_on rest alloc else
      populated ← vec_get (ma_populated alloc) g;
      if populated : bool then replicate_on rest alloc else
      ok ← (if canUseDmaBuf g then importViaDmaBuf alloc g else copyViaStagingBuffer alloc g);
      if negb ok then mret (false, alloc) else
      alloc ← set_populated alloc g true;
      replicate_on rest alloc
  end.

Definition mm_replicate (allocationId : Z) (targetGpus : list Z) : MMM bool :=
  it ← find_alloc allocationId;
  match it with
  | None => mret false
  | Some alloc =>
      r ← replicate_on targetGpus alloc;
      let '(ok, alloc) := r in
      if negb ok then store_alloc allocationId alloc;; mret false else
      store_alloc allocationId (alloc <| ma_isReplicated := Some true |> <| ma_replicationTargets := targetGpus |>);;
      mret true
  end.

Definition migrate (allocationId targetGpu : Z) : MMM bool :=
  it ← find_alloc allocationId;
  match it with
  | None => mret false
  | Some alloc =>
      let currentGpu := ma_preferredGpu alloc in
      here ← (if Z.of_nat (length (ma_populated alloc)) <=? currentGpu then mret false
              else vec_get (ma_populated alloc) currentGpu);
      if negb here then mret false else
      r ← allocateOnGpu alloc targetGpu;
      let '(ok, alloc) := r in
      if negb ok then store_alloc allocationId alloc;; mret false else
      freeOnGpu alloc currentGpu;;
      alloc ← set_populated alloc currentGpu false;
      alloc ← set_populated (alloc <| ma_preferredGpu := targetGpu |>) targetGpu true;
      store_alloc allocationId alloc;; mret true
  end.

Definition set_fd (alloc : MemoryAllocation) (i fd : Z) : MMM MemoryAllocation :=
  fds ← vec_set (ma_dmaBufFds alloc) i fd; mret (alloc <| ma_dmaBufFds := fds |>).

(** The GPUs [gpus] in order; the flag is [any_success]. *)
Fixpoint import_on (dmabufFd : Z) (gpus : list nat) (any_success : bool) (alloc : MemoryAllocation)
  : MMM (bool * MemoryAllocation) :=
  match gpus with
  | [] => mret (any_success, alloc)
  | i :: rest =>
      fd ← dup dmabufFd;
      alloc ← set_fd alloc (Z.of_nat i) fd;
      ok ← importViaDmaBuf alloc (Z.of_nat i);
      if ok : bool then
        alloc ← set_populated alloc (Z.of_nat i) true;
        import_on dmabufFd rest true alloc
      else
        alloc ← (if 0 <=? fd then close fd;; set_fd alloc (Z.of_nat i) (-1) else mret alloc);
        import_on dmabufFd rest any_success alloc
  end.

Definition importDmaBuf (reg : DeviceRegistry) (dmabufFd size : Z) : MMM Z :=
  id ← reads mm_nextAllocationId;
  next_id (fun n => n + 1);;
  uvaPtr ← mmap size;
  match uvaPtr with
  | None => next_id (fun n => n - 1);; mret 0
  | Some uva =>
      let n := Z.to_nat (gpuCount reg) in
      r ← import_on dmabufFd (seq 0 n) false
            (new_allocation id uva size (Z.lor FLAG_CPU_VISIBLE FLAG_COHERENT) U32_MAX n None None);
      let '(any_success, alloc) := r in
      if negb any_success && (0 <? gpuCount reg) then
        munmap (ma_uva alloc);; next_id (fun n => n - 1);; mret 0
      else
      modify (fun m => m <| mm_allocations ::= <[ma_id alloc := alloc]> |>);;
      mret (ma_id alloc)
  end.

Fixpoint first_fd (populated : list bool) (fds : list Z) : Z :=
  match populated, fds with
  | b :: ps, fd :: fs => if b && (0 <=? fd) then fd else first_fd ps fs
  | _, _ => -1
  end.

Definition exportAsDmaBuf (allocationId : Z) (m : MemoryManager) : Z :=
  match mm_allocations m !! allocationId with
  | None => -1
  | Some alloc => first_fd (ma_populated alloc) (ma_dmaBufFds alloc)
  end.

Definition totalMemory (m : MemoryManager) : Z :=
  foldl (fun total p => u64 (total + ma_size p.2)) 0 (map_to_list (mm_allocations m)).
Definition freeMemory (m : MemoryManager) : Z := 0.
Definition usedMemory (m : MemoryManager) : Z := totalMemory m.

Definition setStrategy (strategy : AllocationStrategy) (m : MemoryManager) : MemoryManager :=
  m <| mm_strategy := strategy |>.

End manager.
