(* ===== verification/RtOwnership.v ===== *)
(** * What the runtime memory manager owns

    Theory of [RtMemory]: the mapped ranges and the descriptors of the
    manager are those of its live allocations, in every reachable state, and
    releasing the allocations releases them all. *)

From S2P Require Import Prelude Float32 RtDevices RtScheduler RtQueue RtMemory.
From stdpp Require Import strings sorting.
Local Open Scope Z_scope.

(** ** Calls *)

Inductive mem_call : Type :=
| CAlloc (size flags preferredGpu : Z) (strategy : AllocationStrategy)
| CFree (id : Z)
| CMap (id gpu : Z)
| CUnmap (id gpu : Z)
| CReplicate (id : Z) (gpus : list Z)
| CMigrate (id gpu : Z)
| CImport (fd size : Z).

Inductive mem_answer : Type := AnId (id : Z) | ABool (b : bool).

(** What the system promises of the calls that succeed: a new range overlaps
    no mapped one and has no zero address, a new descriptor is not open. *)
Class RtMemLaws `{RtMemOS} : Prop := {
  mmap_fresh maps n size a : rt_mmap maps n size = Some a ->
    0 < a /\ 0 < size /\ forall b sz, maps !! b = Some sz -> a + size <= b \/ b + sz <= a;
  dup_fresh fds n fd f : rt_dup fds n fd = Some f -> 0 <= f /\ f ∉ fds
}.

Section calls.
Context `{RtMemOS} (reg : DeviceRegistry).

Definition mem_step (c : mem_call) : M MemoryManager mem_answer :=
  match c with
  | CAlloc size flags preferredGpu strategy => r ← allocate reg size flags preferredGpu strategy; mret (AnId r)
  | CFree id => r ← mm_free id; mret (ABool r)
  | CMap id gpu => r ← mapToGpu id gpu; mret (ABool r)
  | CUnmap id gpu => r ← unmapFromGpu id gpu; mret (ABool r)
  | CReplicate id gpus => r ← mm_replicate id gpus; mret (ABool r)
  | CMigrate id gpu => r ← migrate id gpu; mret (ABool r)
  | CImport fd size => r ← importDmaBuf reg fd size; mret (AnId r)
  end.

Fixpoint mem_run (cs : list mem_call) : M MemoryManager (list mem_answer) :=
  match cs with
  | [] => mret []
  | c :: rest => a ← mem_step c; l ← mem_run rest; mret (a :: l)
  end.

(** Arguments that stay inside the vectors: [gpuIndex] is unsigned, and where
    the code does not compare it, it names a GPU. *)
Definition in_range (c : mem_call) : Prop :=
  match c with
  | CAlloc _ _ preferredGpu strategy =>
      match strategy with
      | EXPLICIT => 0 <= preferredGpu < gpuCount reg
      | NUMA_AWARE => preferredGpu = U32_MAX \/ 0 <= preferredGpu < gpuCount reg
      | _ => True
      end
  | CMigrate _ gpu => 0 <= gpu < gpuCount reg
  | CMap _ gpu | CUnmap _ gpu => 0 <= gpu
  | CReplicate _ gpus => Forall (fun g => 0 <= g) gpus
  | CFree _ | CImport _ _ => True
  end.
End calls.

(** The identifiers given out, in order. *)
Definition given (answers : list mem_answer) : list Z :=
  answers ≫= fun a => match a with AnId 0 => [] | AnId id => [id] | ABool _ => [] end.

(** The live allocations. *)
Definition live (m : MemoryManager) : list Z := (map_to_list (mm_allocations m)).*1.

(** ** The invariant *)

Definition holds_fd (m : MemoryManager) (id f : Z) : Prop :=
  exists al, mm_allocations m !! id = Some al /\ f ∈ ma_dmaBufFds al /\ 0 <= f.

(** The shape of one allocation for [n] GPUs. *)
Record shaped (n : nat) (al : MemoryAllocation) : Prop := {
  sh_addresses : length (ma_gpuAddresses al) = n;
  sh_fds : length (ma_dmaBufFds al) = n;
  sh_populated : length (ma_populated al) = n;
  sh_uva : 0 < ma_uva al;
  sh_preferred : 0 <= ma_preferredGpu al
}.

(** [fds0] are the descriptors that are not the manager's. *)
Record owned (n : nat) (fds0 : gset Z) (m : MemoryManager) : Prop := {
  ow_next : 0 < mm_nextAllocationId m;
  ow_alloc id al : mm_allocations m !! id = Some al ->
    ma_id al = id /\ 0 < id < mm_nextAllocationId m /\ shaped n al /\ mm_maps m !! ma_uva al = Some (ma_size al);
  ow_maps a sz : mm_maps m !! a = Some sz -> exists id al, mm_allocations m !! id = Some al /\ ma_uva al = a;
  ow_size a sz : mm_maps m !! a = Some sz -> 0 < sz;
  ow_apart a sz b sz' : mm_maps m !! a = Some sz -> mm_maps m !! b = Some sz' -> a <> b -> a + sz <= b \/ b + sz' <= a;
  ow_uva id al id' al' : mm_allocations m !! id = Some al -> mm_allocations m !! id' = Some al' ->
    ma_uva al = ma_uva al' -> id = id';
  ow_fds f : f ∈ mm_fds m <-> f ∈ fds0 \/ exists id, holds_fd m id f;
  ow_foreign id f : holds_fd m id f -> f ∉ fds0;
  ow_fd id id' f : holds_fd m id f -> holds_fd m id' f -> id = id'
}.

Lemma elem_of_set {A : Type} (l : list A) i x y f :
  l !! i = Some x -> f <> x -> (f ∈ <[i := y]> l <-> f = y \/ f ∈ l).
Proof.
  intros Hi Hf. pose proof (lookup_lt_Some _ _ _ Hi) as Hlt. rewrite !list_elem_of_lookup. split.
  - intros (j & Hj). apply list_lookup_insert_Some in Hj as [(-> & -> & _)|[_ Hj]]; eauto.
  - intros [->|(j & Hj)]; [exists i; by apply list_lookup_insert_eq|].
    exists j. rewrite list_lookup_insert_ne; [done|]. intros ->. congruence.
Qed.

Section ownership.
Context (n : nat) (fds0 : gset Z).

Lemma owned_new : owned n fds0 (MemoryManager_new fds0).
Proof.
  split; cbn; try (intros; exfalso; unfold holds_fd in *; cbn in *; naive_solver); [lia|].
  intros f. split; [by left|]. intros [?|(id & al & Hal & _)]; [done|]. by cbn in Hal.
Qed.

(** Only the parts of the state that the invariant reads. *)
Lemma owned_frame m m' :
  owned n fds0 m -> mm_nextAllocationId m' = mm_nextAllocationId m -> mm_allocations m' = mm_allocations m ->
  mm_maps m' = mm_maps m -> mm_fds m' = mm_fds m -> owned n fds0 m'.
Proof.
  intros Ho Hn Ha Hm Hf. destruct Ho as [H1 H2 H3 Hsz H4 H5 H6 H7 H8].
  split; unfold holds_fd in *; rewrite ?Hn, ?Ha, ?Hm, ?Hf; auto.
Qed.

(** An allocation is replaced by one with the same resources. *)
Lemma owned_update m m' id al al' :
  owned n fds0 m -> mm_allocations m !! id = Some al -> shaped n al' ->
  ma_id al' = ma_id al -> ma_uva al' = ma_uva al -> ma_size al' = ma_size al -> ma_dmaBufFds al' = ma_dmaBufFds al ->
  mm_nextAllocationId m' = mm_nextAllocationId m -> mm_allocations m' = <[id := al']> (mm_allocations m) ->
  mm_maps m' = mm_maps m -> mm_fds m' = mm_fds m -> owned n fds0 m'.
Proof.
  intros [H1 H2 H3 Hszs H4 H5 H6 H7 H8] Hal Hsh Ei Eu Es Ed Hn Ha Hm Hf.
  assert (Hh : forall k f, holds_fd m' k f <-> holds_fd m k f).
  { intros k f. unfold holds_fd. rewrite Ha. destruct (decide (k = id)) as [->|Hk].
    - rewrite lookup_insert_eq, Hal. split; intros (a & [= <-] & ?); eexists; (split; [done|]);
        [by rewrite <-Ed|by rewrite Ed].
    - by rewrite lookup_insert_ne. }
  assert (Hl : forall k a, mm_allocations m' !! k = Some a -> exists a0, mm_allocations m !! k = Some a0
     /\ ma_uva a = ma_uva a0 /\ ma_size a = ma_size a0 /\ ma_id a = ma_id a0 /\ (shaped n a0 -> shaped n a)).
  { intros k a. rewrite Ha. destruct (decide (k = id)) as [->|Hk];
      [rewrite lookup_insert_eq; intros [= <-]; eauto 8|rewrite lookup_insert_ne by done; eauto 8]. }
  split; rewrite ?Hn, ?Hm, ?Hf; try done.
  - intros k a (a0 & Hk & -> & -> & -> & Hs)%Hl. destruct (H2 _ _ Hk) as (? & ? & ? & ?). auto.
  - intros a sz Hsz. destruct (H3 a sz Hsz) as (k & a0 & Hk & Hu). rewrite Ha. destruct (decide (k = id)) as [->|Hne].
    + exists id, al'. rewrite lookup_insert_eq. naive_solver congruence.
    + exists k, a0. by rewrite lookup_insert_ne.
  - intros k a k' a' (? & Hk & -> & _)%Hl (? & Hk' & -> & _)%Hl. eauto.
  - intros f. rewrite H6. by setoid_rewrite Hh.
  - intros k f. rewrite Hh. apply H7.
  - intros k k' f. rewrite !Hh. apply H8.
Qed.

(** A new allocation with its own range and descriptors. *)
Lemma owned_add m m' al :
  owned n fds0 m -> shaped n al -> ma_id al = mm_nextAllocationId m ->
  mm_nextAllocationId m' = mm_nextAllocationId m + 1 ->
  mm_allocations m' = <[ma_id al := al]> (mm_allocations m) ->
  mm_maps m' = <[ma_uva al := ma_size al]> (mm_maps m) ->
  0 < ma_size al ->
  (forall b sz, mm_maps m !! b = Some sz -> ma_uva al + ma_size al <= b \/ b + sz <= ma_uva al) ->
  (forall f, f ∈ mm_fds m' <-> f ∈ mm_fds m \/ (f ∈ ma_dmaBufFds al /\ 0 <= f)) ->
  (forall f, f ∈ ma_dmaBufFds al -> 0 <= f -> f ∉ mm_fds m) ->
  owned n fds0 m'.
Proof.
  intros [H1 H2 H3 Hszs H4 H5 H6 H7 H8] Hsh Hid Hn Ha Hm Hpos Hap Hf Hfr.
  assert (Hnew : mm_allocations m !! ma_id al = None).
  { destruct (mm_allocations m !! ma_id al) eqn:E; [|done]. apply H2 in E. lia. }
  assert (Hu : mm_maps m !! ma_uva al = None).
  { destruct (mm_maps m !! ma_uva al) as [sz|] eqn:E; [|done]. pose proof (Hszs _ _ E). destruct (Hap _ _ E); lia. }
  assert (Hne : forall k a, mm_allocations m !! k = Some a -> k <> ma_id al /\ ma_uva a <> ma_uva al).
  { intros k a Hk. split; [congruence|]. intros E. apply H2 in Hk as (_ & _ & _ & Hk). congruence. }
  assert (Hh : forall k f, holds_fd m' k f <-> holds_fd m k f \/ (k = ma_id al /\ f ∈ ma_dmaBufFds al /\ 0 <= f)).
  { intros k f. unfold holds_fd. rewrite Ha. destruct (decide (k = ma_id al)) as [->|Hk].
    - rewrite lookup_insert_eq. naive_solver congruence.
    - rewrite lookup_insert_ne by done. naive_solver. }
  split.
  - lia.
  - intros k a. rewrite Ha, Hm. intros [[<- <-]|[Hk Hka]]%lookup_insert_Some.
    + rewrite lookup_insert_eq. split_and!; [done|lia..|done|done].
    + rewrite lookup_insert_ne by (destruct (Hne _ _ Hka); congruence).
      destruct (H2 _ _ Hka) as (? & ? & ? & ?). split_and!; [done|lia..|done|done].
  - intros a sz. rewrite Hm, Ha. intros [[<- <-]|[Hk Hka]]%lookup_insert_Some.
    + exists (ma_id al), al. by rewrite lookup_insert_eq.
    + destruct (H3 _ _ Hka) as (k & a0 & Hk0 & Hu0). exists k, a0.
      rewrite lookup_insert_ne; [done|]. intros <-. by destruct (Hne _ _ Hk0).
  - intros a sz. rewrite Hm. intros [[<- <-]|[? ?]]%lookup_insert_Some; eauto.
  - intros a sz b sz'. rewrite Hm. intros [[<- <-]|[? Hb1]]%lookup_insert_Some [[<- <-]|[? Hb2]]%lookup_insert_Some Hab;
      [done|by apply Hap|destruct (Hap _ _ Hb1); auto|eauto].
  - intros k a k' a'. rewrite Ha. intros [[<- <-]|[? Hk]]%lookup_insert_Some [[<- <-]|[? Hk']]%lookup_insert_Some E;
      [done|by destruct (Hne _ _ Hk')|by destruct (Hne _ _ Hk)|eauto].
  - intros f. rewrite Hf, H6. setoid_rewrite Hh. naive_solver.
  - intros k f. rewrite Hh. intros [?|(-> & Hin & Hge)]; [eauto|]. intros Hf0. apply (Hfr f Hin Hge), H6. by left.
  - intros k k' f. rewrite !Hh. intros [Hk|(-> & Hin & Hge)] [Hk'|(-> & Hin' & Hge')]; [eauto| | |done];
      exfalso; apply (Hfr f); try done; apply H6; eauto.
Qed.

(** An allocation is removed with its range and descriptors. *)
Lemma owned_del m m' id al :
  owned n fds0 m -> mm_allocations m !! id = Some al ->
  mm_nextAllocationId m' = mm_nextAllocationId m ->
  mm_allocations m' = delete id (mm_allocations m) -> mm_maps m' = delete (ma_uva al) (mm_maps m) ->
  (forall f, f ∈ mm_fds m' <-> f ∈ mm_fds m /\ ~ (f ∈ ma_dmaBufFds al /\ 0 <= f)) ->
  owned n fds0 m'.
Proof.
  intros [H1 H2 H3 Hszs H4 H5 H6 H7 H8] Hal Hn Ha Hm Hf.
  assert (Hh : forall k f, holds_fd m' k f <-> holds_fd m k f /\ k <> id).
  { intros k f. unfold holds_fd. rewrite Ha. setoid_rewrite lookup_delete_Some. naive_solver. }
  assert (Hsub : forall a sz, mm_maps m' !! a = Some sz -> mm_maps m !! a = Some sz /\ a <> ma_uva al).
  { intros a sz. rewrite Hm. intros [? ?]%lookup_delete_Some. done. }
  split.
  - by rewrite Hn.
  - intros k a. rewrite Ha, Hn, Hm. intros [Hk Hka]%lookup_delete_Some.
    rewrite lookup_delete_ne; [by apply H2|]. intros E. apply Hk. by apply (H5 _ _ _ _ Hal Hka).
  - intros a sz [Hsz Hne]%Hsub. destruct (H3 _ _ Hsz) as (k & a0 & Hk & Hu). exists k, a0. rewrite Ha.
    split; [|done]. apply lookup_delete_Some. split; [congruence|done].
  - intros a sz [Hsz _]%Hsub. eauto.
  - intros a sz b sz' [Ha' _]%Hsub [Hb _]%Hsub. eauto.
  - intros k a k' a'. rewrite Ha. intros [_ Hk]%lookup_delete_Some [_ Hk']%lookup_delete_Some. eauto.
  - intros f. rewrite Hf, H6. setoid_rewrite Hh. split.
    + intros [[Hf0|(k & Hk)] Hno]; [by left|]. right. exists k. split; [done|]. intros ->.
      destruct Hk as (a & Hka & ? & ?). apply Hno. rewrite Hal in Hka. by simplify_eq.
    + intros [Hf0|(k & Hk & Hne)].
      * split; [by left|]. intros [Hin Hge]. apply (H7 id f); [by exists al|done].
      * split; [by right; exists k|]. intros [Hin Hge]. apply Hne, (H8 k id f Hk). by exists al.
  - intros k f [Hk _]%Hh. eauto.
  - intros k k' f [Hk _]%Hh [Hk' _]%Hh. eauto.
Qed.

(** Nothing is left when no allocation is. *)
Lemma owned_empty m : owned n fds0 m -> mm_allocations m = ∅ -> mm_maps m = ∅ /\ mm_fds m = fds0.
Proof.
  intros [H1 H2 H3 Hszs H4 H5 H6 H7 H8] He. split.
  - apply map_empty. intros a. destruct (mm_maps m !! a) eqn:E; [|done].
    destruct (H3 _ _ E) as (k & al & Hk & _). by rewrite He in Hk.
  - apply set_eq. intros f. rewrite H6. split; [|by left]. intros [?|(k & al & Hk & _)]; [done|]. by rewrite He in Hk.
Qed.
End ownership.

(** ** The operations *)

Lemma wp_vec_set {S A : Type} (l : list A) i x (Q : list A -> S -> Prop) s :
  0 <= i < Z.of_nat (length l) -> Q (<[Z.to_nat i := x]> l) s -> wp (vec_set l i x) Q s.
Proof.
  intros Hi HQ. unfold vec_set. rewrite (proj2 (Z.leb_le _ _)), (proj2 (Z.ltb_lt _ _)) by lia. exact HQ.
Qed.

Lemma wp_vec_get {S A : Type} (l : list A) i (Q : A -> S -> Prop) s :
  0 <= i < Z.of_nat (length l) -> (forall x, l !! Z.to_nat i = Some x -> Q x s) -> wp (vec_get l i) Q s.
Proof.
  intros Hi HQ. unfold vec_get. rewrite (proj2 (Z.leb_le _ _)) by lia.
  destruct (lookup_lt_is_Some_2 l (Z.to_nat i)) as [x Hx]; [lia|].
  unfold wp, of_option. rewrite Hx. by apply HQ.
Qed.

Section operations.
Context `{RtMemLaws} (reg : DeviceRegistry) (fds0 : gset Z).
Context (Hgpus : 0 < Z.of_nat (length (rg_gpus reg)) <= U32_MAX).

Abbreviation n := (length (rg_gpus reg)).
Abbreviation inv := (owned n fds0).

Lemma count_eq : gpuCount reg = Z.of_nat n.
Proof. unfold gpuCount. apply u32_small. unfold is_u32. lia. Qed.

Lemma most_vram_range gpus i mostVram best :
  0 <= best -> (best < Z.of_nat (i + length gpus)) ->
  0 <= most_vram i gpus mostVram best < Z.of_nat (i + length gpus).
Proof.
  revert i mostVram best. induction gpus as [|d gpus IH]; intros i v best Hb Hlt; cbn [most_vram length]; [cbn in Hlt; lia|].
  cbn [length] in Hlt. rewrite Nat.add_succ_r in Hlt |- *. destruct (_ <? _); apply IH; lia.
Qed.

Lemma least_utilized_range gpus i best u :
  0 <= best -> (best < Z.of_nat (i + length gpus)) ->
  0 <= least_utilized i gpus best u < Z.of_nat (i + length gpus).
Proof.
  revert i u best. induction gpus as [|d gpus IH]; intros i v best Hb Hlt; cbn [least_utilized length]; [cbn in Hlt; lia|].
  cbn [length] in Hlt. rewrite Nat.add_succ_r in Hlt |- *. destruct (_ <? _); apply IH; lia.
Qed.

Lemma target_range size flags preferredGpu strategy :
  in_range reg (CAlloc size flags preferredGpu strategy) ->
  0 <= target_gpu reg preferredGpu strategy < Z.of_nat n.
Proof.
  rewrite <-count_eq. intros Hr. destruct strategy; cbn [in_range target_gpu] in Hr |- *; rewrite ?count_eq in *.
  - lia.
  - unfold findGpuWithMostVRAM. rewrite count_eq, (proj2 (Z.eqb_neq _ _)) by lia.
    apply (most_vram_range _ 0); lia.
  - unfold findLeastUtilizedGpu. rewrite count_eq, (proj2 (Z.eqb_neq _ _)) by lia.
    apply (least_utilized_range _ 0); lia.
  - destruct (Z.eqb_spec preferredGpu U32_MAX); cbn [negb]; [|lia].
    unfold getGpuForNumaNode. destruct (_ <? _); [change (u32 0) with 0|]; lia.
  - lia.
Qed.

(** What a call keeps and gives: the invariant, and a new identifier is the
    next one. *)
Definition numbered (m m' : MemoryManager) (a : mem_answer) : Prop :=
  match a with
  | AnId id => (id = 0 /\ mm_nextAllocationId m' = mm_nextAllocationId m)
      \/ (id = mm_nextAllocationId m /\ mm_nextAllocationId m' = mm_nextAllocationId m + 1)
  | ABool _ => mm_nextAllocationId m' = mm_nextAllocationId m
  end.

Definition step_ok (m : MemoryManager) (a : mem_answer) (m' : MemoryManager) : Prop :=
  inv m' /\ numbered m m' a.


Lemma wp_mmap size (Q : option Z -> MemoryManager -> Prop) m :
  (forall m', mm_nextAllocationId m' = mm_nextAllocationId m -> mm_allocations m' = mm_allocations m ->
     mm_maps m' = mm_maps m -> mm_fds m' = mm_fds m -> Q None m') ->
  (forall m' a, mm_nextAllocationId m' = mm_nextAllocationId m -> mm_allocations m' = mm_allocations m ->
     mm_maps m' = <[a := size]> (mm_maps m) -> mm_fds m' = mm_fds m -> 0 < a -> 0 < size ->
     (forall b sz, mm_maps m !! b = Some sz -> a + size <= b \/ b + sz <= a) -> Q (Some a) m') ->
  wp (mmap size) Q m.
Proof.
  intros Hno Hyes. unfold wp, mmap. destruct (rt_mmap _ _ _) as [a|] eqn:E; [|by apply Hno].
  destruct (mmap_fresh _ _ _ _ E) as (? & ? & ?). by apply Hyes.
Qed.

(** The number is taken, and given back when the call fails. *)
Lemma numbers_back m : inv m -> mm_nextAllocationId m < U64_MAX ->
  u64 (mm_nextAllocationId m + 1) = mm_nextAllocationId m + 1
  /\ u64 (u64 (mm_nextAllocationId m + 1) - 1) = mm_nextAllocationId m.
Proof.
  intros Ho Hlt. pose proof (ow_next _ _ _ Ho). unfold U64_MAX in *.
  rewrite u64_sub_l, !u64_small by (unfold is_u64, U64_MAX; lia). lia.
Qed.

Lemma shaped_new id uva size flags pref stat rep :
  0 < uva -> 0 <= pref -> shaped n (new_allocation id uva size flags pref n stat rep).
Proof. intros ??. by split; cbn; rewrite ?length_replicate. Qed.

Lemma shaped_populated al p : shaped n al -> length p = n -> shaped n (al <| ma_populated := p |>).
Proof. intros [] ?. by split. Qed.

(** The part that [allocate] and [importDmaBuf] end with. *)
Lemma owned_stored m m1 al :
  inv m -> mm_nextAllocationId m < U64_MAX ->
  mm_nextAllocationId m1 = u64 (mm_nextAllocationId m + 1) -> mm_allocations m1 = mm_allocations m ->
  mm_maps m1 = <[ma_uva al := ma_size al]> (mm_maps m) ->
  (forall f, f ∈ mm_fds m1 <-> f ∈ mm_fds m \/ (f ∈ ma_dmaBufFds al /\ 0 <= f)) ->
  (forall f, f ∈ ma_dmaBufFds al -> 0 <= f -> f ∉ mm_fds m) ->
  shaped n al -> ma_id al = mm_nextAllocationId m -> 0 < ma_size al ->
  (forall b sz, mm_maps m !! b = Some sz -> ma_uva al + ma_size al <= b \/ b + sz <= ma_uva al) ->
  step_ok m (AnId (ma_id al)) (m1 <| mm_allocations ::= <[ma_id al := al]> |>).
Proof.
  intros Ho Hlt Hn Ha Hm Hf Hfr Hsh Hid Hpos Hap. destruct (numbers_back m Ho Hlt) as [Hu _]. rewrite Hu in Hn.
  split; [|right; by rewrite Hid]. apply (owned_add n fds0 m _ al); try done. cbn. by rewrite Ha.
Qed.

Lemma allocate_owned size flags preferredGpu strategy m :
  inv m -> in_range reg (CAlloc size flags preferredGpu strategy) -> mm_nextAllocationId m < U64_MAX ->
  wp (allocate reg size flags preferredGpu strategy) (fun r m' => step_ok m (AnId r) m') m.
Proof.
  intros Ho Hr Hlt. pose proof (target_range _ _ _ _ Hr) as Ht. destruct (numbers_back m Ho Hlt) as [Hu Hb].
  unfold allocate. rewrite count_eq, Nat2Z.id. apply wp_bind, wp_reads, wp_bind, wp_modify, wp_bind, wp_mmap.
  - intros m' Hn Ha Hm Hf. apply wp_bind, wp_modify, wp_ret. cbn in Hn, Ha, Hm, Hf. split.
    + apply (owned_frame _ _ m); try done. cbn. by rewrite Hn.
    + left. split; [done|]. cbn. by rewrite Hn.
  - intros m' uva Hn Ha Hm Hf Hpos Hsz Hap. cbn in Hn, Ha, Hm, Hf, Hap.
    apply wp_bind. unfold allocateOnGpu. apply wp_bind, wp_vec_set; [cbn; rewrite length_replicate; lia|]. apply wp_ret.
    apply wp_bind, wp_bind. unfold set_populated. apply wp_bind, wp_vec_set; [cbn; rewrite length_replicate; lia|].
    apply wp_ret, wp_ret. cbn [negb]. apply wp_bind, wp_modify, wp_ret.
    apply owned_stored; try done.
    + intros f. cbn. rewrite Hf. split; [by left|]. intros [?|[Hin Hge]]; [done|].
      apply elem_of_replicate_inv in Hin. lia.
    + intros f Hin Hge. cbn in Hin. apply elem_of_replicate_inv in Hin. lia.
    + split; cbn; rewrite ?length_insert, ?length_replicate; try done. lia.
Qed.


Lemma free_on_gpus_ret alloc i l m : free_on_gpus alloc i l m = Ret (tt, m).
Proof. revert i. induction l as [|[] l IH]; intros i; [done|apply IH..]. Qed.

Lemma close_fds_spec l m :
  exists m', close_fds l m = Ret (tt, m') /\ mm_nextAllocationId m' = mm_nextAllocationId m
    /\ mm_allocations m' = mm_allocations m /\ mm_maps m' = mm_maps m
    /\ forall f, f ∈ mm_fds m' <-> f ∈ mm_fds m /\ ~ (f ∈ l /\ 0 <= f).
Proof.
  revert m. induction l as [|fd l IH]; intros m; cbn [close_fds].
  - exists m. split_and!; [done..|]. set_solver.
  - destruct (Z.leb_spec 0 fd) as [Hge|Hlt].
    + destruct (IH (m <| mm_fds ::= fun fds => fds ∖ {[fd]} |>)) as (m' & Hrun & Hn & Ha & Hm & Hf).
      exists m'. split; [exact Hrun|]. split_and!; [done..|]. intros f. rewrite Hf. cbn.
      rewrite elem_of_difference, elem_of_singleton, elem_of_cons. split; [|naive_solver].
      intros [[Hin Hne] Hno]. split; [done|]. naive_solver.
    + destruct (IH m) as (m' & Hrun & Hn & Ha & Hm & Hf). exists m'. split; [exact Hrun|]. split_and!; [done..|].
      intros f. rewrite Hf, elem_of_cons. split; [|naive_solver].
      intros [Hin Hno]. split; [done|]. intros [[->|?] ?]; [lia|naive_solver].
Qed.

Lemma free_ok id m :
  inv m -> wp (mm_free id) (fun r m' => step_ok m (ABool r) m' /\ mm_allocations m' = delete id (mm_allocations m)) m.
Proof.
  intros Ho. unfold mm_free. apply wp_bind, wp_reads. destruct (mm_allocations m !! id) as [al|] eqn:Hal.
  - apply wp_bind. eapply wp_intro; [apply free_on_gpus_ret|].
    destruct (close_fds_spec (ma_dmaBufFds al) m) as (m' & Hrun & Hn & Ha & Hm & Hf).
    apply wp_bind. eapply wp_intro; [exact Hrun|]. destruct (ow_alloc _ _ _ Ho _ _ Hal) as (_ & _ & Hsh & _).
    rewrite (proj2 (Z.eqb_neq _ _)) by (destruct Hsh; lia). cbn [negb]. apply wp_bind, wp_modify, wp_bind, wp_modify, wp_ret.
    split; [|cbn; by rewrite Ha]. split; [|exact Hn].
    apply (owned_del n fds0 m _ id al); try done; cbn; [by rewrite Ha|by rewrite Hm].
  - apply wp_ret. split; [by split|]. by rewrite delete_id.
Qed.

Lemma map_owned id gpu m : inv m -> 0 <= gpu -> wp (mapToGpu id gpu) (fun r m' => step_ok m (ABool r) m') m.
Proof.
  intros Ho Hg. unfold mapToGpu. apply wp_bind, wp_reads. destruct (mm_allocations m !! id) as [al|] eqn:Hal; [|by apply wp_ret].
  apply wp_if; [by intros; apply wp_ret|]. intros Hlt%Z.leb_gt. apply wp_bind, wp_vec_get; [lia|].
  intros b _. apply wp_if; intros; by apply wp_ret.
Qed.

Lemma store_owned id al al' m r :
  inv m -> mm_allocations m !! id = Some al -> shaped n al' ->
  ma_id al' = ma_id al -> ma_uva al' = ma_uva al -> ma_size al' = ma_size al -> ma_dmaBufFds al' = ma_dmaBufFds al ->
  step_ok m (ABool r) (m <| mm_allocations ::= <[id := al']> |>).
Proof. intros. split; [|done]. by apply (owned_update n fds0 m _ id al al'). Qed.

Lemma unmap_owned id gpu m : inv m -> 0 <= gpu -> wp (unmapFromGpu id gpu) (fun r m' => step_ok m (ABool r) m') m.
Proof.
  intros Ho Hg. unfold unmapFromGpu. apply wp_bind, wp_reads. destruct (mm_allocations m !! id) as [al|] eqn:Hal; [|by apply wp_ret].
  destruct (ow_alloc _ _ _ Ho _ _ Hal) as (_ & _ & Hsh & _).
  apply wp_if; [by intros; apply wp_ret|]. intros Hlt%Z.leb_gt. apply wp_bind, wp_vec_get; [lia|].
  intros b _. apply wp_if; intros; [by apply wp_ret|]. apply wp_bind, wp_ret, wp_bind. unfold set_populated.
  apply wp_bind, wp_vec_set; [lia|]. apply wp_ret, wp_bind, wp_modify, wp_ret. apply (store_owned _ al); try done.
  apply shaped_populated; [done|]. rewrite length_insert. apply Hsh.
Qed.

(** What replication and migration leave of an allocation. *)
Definition same_resources (al al' : MemoryAllocation) : Prop :=
  ma_id al' = ma_id al /\ ma_uva al' = ma_uva al /\ ma_size al' = ma_size al /\ ma_dmaBufFds al' = ma_dmaBufFds al.

Lemma replicate_on_ok targets al m :
  shaped n al -> Forall (fun g => 0 <= g) targets ->
  wp (replicate_on targets al) (fun r m' => r.1 = true /\ shaped n r.2 /\ same_resources al r.2 /\ m' = m) m.
Proof.
  intros Hsh Hall. revert al Hsh. induction Hall as [|g targets Hg Hall IH]; intros al Hsh; [by apply wp_ret|].
  cbn [replicate_on]. apply wp_if; [by intros; apply IH|]. intros Hlt%Z.leb_gt.
  assert (Hp : length (ma_populated al) = length (ma_gpuAddresses al)) by (destruct Hsh; congruence).
  apply wp_bind, wp_vec_get; [lia|]. intros b _. apply wp_if; [by intros; apply IH|]. intros _.
  apply wp_bind. cbn [canUseDmaBuf]. apply wp_ret. cbn [negb]. unfold set_populated.
  apply wp_bind, wp_bind, wp_vec_set; [lia|]. apply wp_ret. eapply wp_mono; [apply IH|].
  - apply shaped_populated; [done|]. rewrite length_insert. apply Hsh.
  - intros [ok al'] m' (? & ? & (? & ? & ? & ?) & ?). done.
Qed.

Lemma replicate_owned id gpus m :
  inv m -> Forall (fun g => 0 <= g) gpus -> wp (mm_replicate id gpus) (fun r m' => step_ok m (ABool r) m') m.
Proof.
  intros Ho Hg. unfold mm_replicate. apply wp_bind, wp_reads. destruct (mm_allocations m !! id) as [al|] eqn:Hal; [|by apply wp_ret].
  destruct (ow_alloc _ _ _ Ho _ _ Hal) as (_ & _ & Hsh & _). apply wp_bind.
  eapply wp_mono; [by apply replicate_on_ok|]. intros [ok al'] m' (Hok & Hsh' & (? & ? & ? & ?) & ->). cbn in *. subst ok. cbn [negb].
  apply wp_bind, wp_modify, wp_ret. apply (store_owned _ al); try done. by destruct Hsh'.
Qed.

Lemma migrate_ok id gpu m :
  inv m -> 0 <= gpu < gpuCount reg -> wp (migrate id gpu) (fun r m' => step_ok m (ABool r) m') m.
Proof.
  rewrite count_eq. intros Ho Hg. unfold migrate. apply wp_bind, wp_reads.
  destruct (mm_allocations m !! id) as [al|] eqn:Hal; [|by apply wp_ret].
  destruct (ow_alloc _ _ _ Ho _ _ Hal) as (_ & _ & Hsh & _). pose proof Hsh as [S1 S2 S3 S4 S5].
  apply wp_bind, wp_if; [by intros; apply wp_ret, wp_ret|]. intros Hlt%Z.leb_gt. apply wp_vec_get; [lia|].
  intros b _. apply wp_if; [by intros; apply wp_ret|]. intros _. unfold allocateOnGpu, set_populated.
  apply wp_bind, wp_bind, wp_vec_set; [lia|]. apply wp_ret. cbn [negb]. apply wp_bind, wp_ret.
  apply wp_bind, wp_bind, wp_vec_set; [cbn; lia|]. apply wp_ret.
  apply wp_bind, wp_bind, wp_vec_set; [cbn; rewrite length_insert; lia|]. apply wp_ret, wp_bind, wp_modify, wp_ret.
  apply (store_owned _ al); try done. split; cbn; rewrite ?length_insert; try done; lia.
Qed.


(** While the GPUs are visited: [base] was open before the call, the rest is
    held by the allocation in the slots visited. *)
Record importing (base : gset Z) (i : nat) (al : MemoryAllocation) (m : MemoryManager) : Prop := {
  im_open f : f ∈ mm_fds m <-> f ∈ base \/ (f ∈ ma_dmaBufFds al /\ 0 <= f);
  im_new f : f ∈ ma_dmaBufFds al -> 0 <= f -> f ∉ base;
  im_rest j : (i <= j < n)%nat -> ma_dmaBufFds al !! j = Some (-1)
}.

Lemma importing_step base i al m m' fd :
  importing base i al m -> (i < n)%nat -> length (ma_dmaBufFds al) = n ->
  (fd = -1 /\ mm_fds m' = mm_fds m \/ 0 <= fd /\ fd ∉ mm_fds m /\ mm_fds m' = {[fd]} ∪ mm_fds m) ->
  importing base (S i) (al <| ma_dmaBufFds ::= <[i := fd]> |>) m'.
Proof.
  intros [Hop Hnew Hrest] Hi Hlen Hfd. pose proof (Hrest i ltac:(lia)) as Hhere.
  assert (Hel : forall f, 0 <= f -> (f ∈ <[i := fd]> (ma_dmaBufFds al) <-> f = fd \/ f ∈ ma_dmaBufFds al)).
  { intros f Hf. apply (elem_of_set _ _ (-1)); [done|lia]. }
  split; cbn.
  - intros f. destruct Hfd as [[-> ->]|(Hge & Hno & ->)].
    + rewrite Hop. split; (intros [?|[? ?]]; [by left|right; split; [|done]]); [apply Hel; auto|].
      destruct (proj1 (Hel f ltac:(done)) ltac:(done)); [lia|done].
    + rewrite elem_of_union, elem_of_singleton, Hop. split.
      * intros [->|[?|[? ?]]]; [|by left|]; right; (split; [apply Hel; auto|done]).
      * intros [?|[Hin ?]]; [auto|]. apply Hel in Hin as [->|?]; auto.
  - intros f Hin Hf Hb. apply Hel in Hin as [->|Hin]; [|by apply (Hnew f)|done].
    destruct Hfd as [[? _]|(_ & Hno & _)]; [lia|]. apply Hno, Hop. by left.
  - intros j Hj. rewrite list_lookup_insert_ne by lia. apply Hrest. lia.
Qed.

Lemma wp_dup fd0 (Q : Z -> MemoryManager -> Prop) m :
  (forall fd m', mm_nextAllocationId m' = mm_nextAllocationId m -> mm_allocations m' = mm_allocations m ->
     mm_maps m' = mm_maps m ->
     (fd = -1 /\ mm_fds m' = mm_fds m \/ 0 <= fd /\ fd ∉ mm_fds m /\ mm_fds m' = {[fd]} ∪ mm_fds m) -> Q fd m') ->
  wp (dup fd0) Q m.
Proof.
  intros HQ. unfold wp, dup. apply HQ; [done..|]. cbn. destruct (rt_dup _ _ _) as [f|] eqn:E; cbn; [|by left].
  right. by destruct (dup_fresh _ _ _ _ E).
Qed.

Lemma import_on_ok fd0 base k i b al m :
  (i + k = n)%nat -> shaped n al -> importing base i al m ->
  wp (import_on fd0 (seq i k) b al) (fun r m' =>
    r.1 = (b || (0 <? k)%nat) /\ shaped n r.2 /\ importing base n r.2 m'
    /\ ma_id r.2 = ma_id al /\ ma_uva r.2 = ma_uva al /\ ma_size r.2 = ma_size al
    /\ mm_nextAllocationId m' = mm_nextAllocationId m /\ mm_allocations m' = mm_allocations m /\ mm_maps m' = mm_maps m) m.
Proof.
  revert i b al m. induction k as [|k IH]; intros i b al m Hik Hsh Him; cbn [seq import_on].
  - rewrite Nat.add_0_r in Hik. subst i. apply wp_ret. cbn. by rewrite orb_false_r.
  - apply wp_bind, wp_dup. intros fd m1 Hn Ha Hm Hfd. unfold set_fd, set_populated.
    apply wp_bind, wp_bind, wp_vec_set; [destruct Hsh; lia|]. apply wp_ret, wp_bind, wp_ret.
    apply wp_bind, wp_bind, wp_vec_set; [destruct Hsh; cbn; lia|]. apply wp_ret. rewrite !Nat2Z.id, <-Hn, <-Ha, <-Hm.
    eapply wp_mono; [apply (IH (S i)); [lia| |]|].
    + destruct Hsh. split; cbn; rewrite ?length_insert; done.
    + destruct (importing_step base i al m m1 fd); [done|lia|apply Hsh|done|]. by split.
    + intros [ok al'] m' (-> & ? & ? & ? & ? & ? & ? & ? & ?). cbn. split_and!; try done. by rewrite orb_true_r.
Qed.

Lemma import_ok fd size m :
  inv m -> mm_nextAllocationId m < U64_MAX -> wp (importDmaBuf reg fd size) (fun r m' => step_ok m (AnId r) m') m.
Proof.
  intros Ho Hlt. destruct (numbers_back m Ho Hlt) as [Hu Hb].
  unfold importDmaBuf. rewrite count_eq, Nat2Z.id. apply wp_bind, wp_reads, wp_bind, wp_modify, wp_bind, wp_mmap.
  - intros m' Hn Ha Hm Hf. apply wp_bind, wp_modify, wp_ret. cbn in Hn, Ha, Hm, Hf. split.
    + apply (owned_frame _ _ m); try done. cbn. by rewrite Hn.
    + left. split; [done|]. cbn. by rewrite Hn.
  - intros m' uva Hn Ha Hm Hf Hpos Hsz Hap. cbn in Hn, Ha, Hm, Hf, Hap.
    apply wp_bind. eapply wp_mono; [apply (import_on_ok fd (mm_fds m) n 0); [done|by apply shaped_new|]|].
    + split; cbn.
      * intros f. rewrite Hf. split; [by left|]. intros [?|[Hin Hge]]; [done|]. apply elem_of_replicate_inv in Hin. lia.
      * intros f Hin Hge. apply elem_of_replicate_inv in Hin. lia.
      * intros j Hj. apply lookup_replicate. split; [done|lia].
    + intros [ok al] m2 (Hok & Hsh & [Hop Hnew _] & Hid & Huva & Hsize & Hn2 & Ha2 & Hm2).
      cbn [fst snd] in *. rewrite (proj2 (Nat.ltb_lt _ _)) in Hok by lia. cbn in Hok, Hid, Huva, Hsize. subst ok. cbn [negb andb].
      apply wp_bind, wp_modify, wp_ret. apply owned_stored; try congruence; try done.
      intros b sz Hbsz. rewrite Huva, Hsize. by apply (Hap b).
Qed.

(** ** Runs *)

Lemma step_runs c m :
  inv m -> in_range reg c -> mm_nextAllocationId m < U64_MAX -> wp (mem_step reg c) (step_ok m) m.
Proof.
  intros Ho Hr Hlt. destruct c; cbn [mem_step]; apply wp_bind;
    [by apply allocate_owned| |by apply map_owned|by apply unmap_owned|by apply replicate_owned|by apply migrate_ok|by apply import_ok].
  eapply wp_mono; [by apply free_ok|]. by intros ?? [? _].
Qed.

(** Every number given lies in [lo, hi), in growing order. *)
Definition growing (lo hi : Z) (l : list Z) : Prop :=
  StronglySorted Z.lt l /\ Forall (fun id => lo <= id < hi) l.

Lemma growing_cons lo hi a l : 0 < lo -> growing (lo + 1) hi l -> lo < hi -> a = lo -> growing lo hi (a :: l).
Proof.
  intros Hlo [Hs Hall] Hlt ->. split.
  - constructor; [done|]. eapply Forall_impl; [exact Hall|]. cbn. lia.
  - constructor; [lia|]. eapply Forall_impl; [exact Hall|]. cbn. lia.
Qed.

Lemma run_runs cs m :
  inv m -> Forall (in_range reg) cs -> mm_nextAllocationId m + Z.of_nat (length cs) <= U64_MAX ->
  wp (mem_run reg cs) (fun answers m' => inv m' /\ mm_nextAllocationId m <= mm_nextAllocationId m'
    /\ growing (mm_nextAllocationId m) (mm_nextAllocationId m') (given answers)) m.
Proof.
  intros Ho Hall. revert m Ho. induction Hall as [|c cs Hc Hall IH]; intros m Ho Hlen.
  - apply wp_ret. split_and!; [done|lia|]. split; constructor.
  - cbn [mem_run length] in *. pose proof (ow_next _ _ _ Ho). apply wp_bind. eapply wp_mono; [apply step_runs; [done..|lia]|].
    intros a m1 [Ho1 Hnum]. apply wp_bind. eapply wp_mono; [apply IH; [done|]|].
    + destruct a; cbn in Hnum; lia.
    + intros l m2 (Ho2 & Hle & Hgr). apply wp_ret. destruct a as [id|b]; cbn in Hnum.
      * destruct Hnum as [[-> Hn]|[-> Hn]].
        -- rewrite Hn in *. done.
        -- split_and!; [done|lia|]. rewrite Hn in *.
           change (growing (mm_nextAllocationId m) (mm_nextAllocationId m2)
             ((match mm_nextAllocationId m with 0 => [] | _ => [mm_nextAllocationId m] end) ++ given l)).
           destruct (mm_nextAllocationId m) as [|p|p] eqn:E; [lia| |lia]. apply growing_cons; [lia|done|lia|done].
      * rewrite Hnum in *. done.
Qed.

Lemma free_all_runs ids m :
  inv m -> wp (mem_run reg (CFree <$> ids)) (fun _ m' => inv m' /\
    forall id, mm_allocations m' !! id = if bool_decide (id ∈ ids) then None else mm_allocations m !! id) m.
Proof.
  revert m. induction ids as [|id ids IH]; intros m Ho; cbn [fmap list_fmap mem_run mem_step].
  - apply wp_ret. split; [done|]. intros id. by rewrite bool_decide_false by set_solver.
  - apply wp_bind, wp_bind. eapply wp_mono; [by apply free_ok|]. intros b m1 [[Ho1 _] Hdel]. apply wp_ret, wp_bind.
    eapply wp_mono; [by apply IH|]. intros l m2 [Ho2 Hl]. apply wp_ret. split; [done|]. intros k.
    rewrite Hl, Hdel. destruct (decide (k = id)) as [->|Hne].
    + rewrite lookup_delete_eq, (bool_decide_true (id ∈ id :: ids)) by set_solver. by case_bool_decide.
    + rewrite lookup_delete_ne by done. by erewrite (bool_decide_ext (k ∈ id :: ids) (k ∈ ids)) by set_solver.
Qed.

End operations.

(** C14. The memory manager of the daemon owns exactly what its live
    allocations need.  Take a registry with a GPU and any calls whose GPU
    indices exist.  The calls return.  Afterwards the mapped ranges are those
    of the live allocations, one each and without overlap, and each open
    descriptor is a foreign one or that of one allocation.  No identifier is
    given out twice.  Freeing what is live unmaps every range and leaves the
    foreign descriptors. *)
Theorem memory_ownership `{RtMemLaws} reg fds0 cs :
  0 < Z.of_nat (length (rg_gpus reg)) <= U32_MAX -> Forall (in_range reg) cs -> Z.of_nat (length cs) < U64_MAX ->
  exists answers m, mem_run reg cs (MemoryManager_new fds0) = Ret (answers, m)
    /\ owned (length (rg_gpus reg)) fds0 m /\ StronglySorted Z.lt (given answers)
    /\ exists done m', mem_run reg (CFree <$> live m) m = Ret (done, m') /\ mm_allocations m' = ∅
         /\ mm_maps m' = ∅ /\ mm_fds m' = fds0.
Proof.
  intros Hg Hall Hlen.
  destruct (wp_elim _ _ _ (run_runs reg fds0 Hg cs _ (owned_new _ _) Hall ltac:(cbn; lia))) as (ans & m & Hrun & Ho & _ & Hs & _).
  exists ans, m. split_and!; [done..|].
  destruct (wp_elim _ _ _ (free_all_runs reg fds0 Hg (live m) m Ho)) as (dn & m' & Hrun' & Ho' & Hl).
  assert (He : mm_allocations m' = ∅).
  { apply map_empty. intros id. rewrite Hl. case_bool_decide as Hin; [done|].
    destruct (mm_allocations m !! id) as [al|] eqn:E; [|done]. destruct Hin. unfold live.
    apply list_elem_of_fmap. exists (id, al). split; [done|]. by apply elem_of_map_to_list. }
  exists dn, m'. split_and!; [done..|by apply (owned_empty (length (rg_gpus reg)) fds0)|by apply (owned_empty (length (rg_gpus reg)) fds0)].
Qed.

(** A system that maps above everything mapped and refuses empty ranges and
    ranges of more than a megabyte. *)
Module LinearSystem.

Definition top (maps : ranges) : Z := map_fold (fun a sz t => Z.max t (a + sz)) 4096 maps.
Definition top_fd (fds : gset Z) : Z := set_fold (fun f t => Z.max t (f + 1)) 3 fds.

#[export] Instance os : RtMemOS := {|
  rt_mmap := fun maps _ size => if (0 <? size) && (size <=? 1048576) then Some (top maps) else None;
  rt_dup := fun fds _ fd => if bool_decide (fd ∈ fds) then Some (top_fd fds) else None
|}.

Lemma top_spec maps : 4096 <= top maps /\ forall b sz, maps !! b = Some sz -> b + sz <= top maps.
Proof.
  unfold top. apply (map_fold_weak_ind (fun t (m : ranges) => 4096 <= t /\ forall b sz, m !! b = Some sz -> b + sz <= t)).
  - split; [lia|]. intros b sz Hb. by rewrite lookup_empty in Hb.
  - intros a sz m t _ [Hge Hall]. split; [lia|]. intros b sz' [[<- <-]|[_ Hb]]%lookup_insert_Some; [lia|].
    specialize (Hall _ _ Hb). lia.
Qed.

Lemma top_fd_spec fds : 3 <= top_fd fds /\ forall f, f ∈ fds -> f < top_fd fds.
Proof.
  unfold top_fd. apply (set_fold_ind_L (fun t (s : gset Z) => 3 <= t /\ forall f, f ∈ s -> f < t)).
  - split; [lia|set_solver].
  - intros f s t _ [Hge Hall]. split; [lia|]. intros g [->%elem_of_singleton|Hg]%elem_of_union; [lia|].
    specialize (Hall _ Hg). lia.
Qed.

#[export] Instance laws : RtMemLaws.
Proof.
  split; cbn.
  - intros maps _ size a. destruct (Z.ltb_spec 0 size), (Z.leb_spec size 1048576); cbn; intros [= <-].
    destruct (top_spec maps) as [Hge Hall]. split_and!; [lia|done|]. intros b sz Hb. right. by apply Hall.
  - intros fds _ fd f. case_bool_decide; intros [= <-]. destruct (top_fd_spec fds) as [Hge Hall].
    split; [lia|]. intros Hin%Hall. lia.
Qed.

Definition session : list mem_call :=
  [CAlloc 4096 0 U32_MAX NUMA_AWARE; CAlloc 0 0 1 EXPLICIT; CAlloc 100 0 1 EXPLICIT; CImport 5 8192;
   CReplicate 1 [1; 7]; CMigrate 2 0; CUnmap 1 0; CFree 2; CFree 2; CImport 77 64].

Lemma memory_ownership_witness :
  exists answers m, mem_run TwoCards.reg session (MemoryManager_new {[5]}) = Ret (answers, m)
    /\ owned 2 {[5]} m /\ given answers = [1; 2; 3; 4] /\ size (mm_maps m) = 3%nat /\ size (mm_fds m) = 3%nat
    /\ exists done m', mem_run TwoCards.reg (CFree <$> live m) m = Ret (done, m') /\ mm_allocations m' = ∅
         /\ mm_maps m' = ∅ /\ mm_fds m' = {[5]}.
Proof.
  destruct (memory_ownership TwoCards.reg {[5]} session) as (ans & m & Hrun & Ho & _ & Hfree).
  - done.
  - unfold session. repeat (apply List.Forall_cons; [cbn; try lia; try done; repeat constructor; lia|]). constructor.
  - done.
  - exists ans, m. split; [done|]. split; [done|].
    assert (Hc : match mem_run TwoCards.reg session (MemoryManager_new {[5]}) with
                 | Ret (a, s) => given a = [1; 2; 3; 4] /\ size (mm_maps s) = 3%nat /\ size (mm_fds s) = 3%nat
                 | _ => False end) by (vm_compute; auto).
    rewrite Hrun in Hc. destruct Hc as (-> & -> & ->). split_and!; [done..|exact Hfree].
Defined.

End LinearSystem.
