(* ===== verification/RtIpc.v ===== *)
(** * The socket server of the runtime daemon

    runtime/daemon/ipc_server.hpp and ipc_server.cpp, the part for local
    clients: the message format, reading and writing a message on a
    non-blocking socket, the handler of each message type over the registry,
    the scheduler and the memory manager, and the server's table of clients.
    The host is little-endian.  What a socket call returns, the credentials of
    a client and the byte layout of the two structures of mvgal_gpu.h that are
    sent belong to the system and the compiler (class [IpcEnv]). *)

From S2P Require Import Prelude Float32 RtDevices RtScheduler RtMemory.
From stdpp Require Import strings.
Local Open Scope Z_scope.

(** ** Bytes *)

(** Network order. *)
Definition be_bytes (k : nat) (z : Z) : list Z := reverse (le_bytes k z).
Definition be_val (l : list Z) : Z := le_val (reverse l).

(** ** Messages (ipc_server.hpp) *)

Definition HELLO : Z := 0.
Definition GOODBYE : Z := 1.
Definition QUERY_DEVICES : Z := 10.
Definition QUERY_DEVICE_CAPABILITIES : Z := 11.
Definition QUERY_UNIFIED_CAPABILITIES : Z := 12.
Definition ALLOC_MEMORY : Z := 20.
Definition FREE_MEMORY : Z := 21.
Definition IMPORT_DMABUF : Z := 22.
Definition EXPORT_DMABUF : Z := 23.
Definition SUBMIT_WORKLOAD : Z := 30.
Definition WAIT_WORKLOAD : Z := 31.
Definition SET_SCHEDULING_MODE : Z := 40.
Definition SET_GPU_PRIORITY : Z := 41.
Definition SET_GPU_ENABLED : Z := 42.
Definition GET_STATISTICS : Z := 50.
Definition SUBSCRIBE_TELEMETRY : Z := 51.
Definition UNSUBSCRIBE_TELEMETRY : Z := 52.
Definition GET_CONFIG : Z := 60.
Definition SET_CONFIG : Z := 61.
Definition LOAD_CONFIG : Z := 62.
Definition SAVE_CONFIG : Z := 63.
Definition ERROR : Z := 4294967295.

Definition IPC_MAGIC : Z := 1297499980.
Definition IPC_VERSION : Z := 1.
Definition FLAG_RESPONSE : Z := 2.
Definition FLAG_ERROR : Z := 4.
Definition FLAG_NOTIFICATION : Z := 8.

Inductive IpcErrorCode : Type :=
| IPC_INVALID_REQUEST | IPC_NOT_IMPLEMENTED | IPC_OUT_OF_MEMORY | IPC_INVALID_ARGUMENT | IPC_NOT_FOUND | IPC_ACCESS_DENIED.
Definition error_number (e : IpcErrorCode) : Z :=
  match e with
  | IPC_INVALID_REQUEST => 1
  | IPC_NOT_IMPLEMENTED => 2
  | IPC_OUT_OF_MEMORY => 3
  | IPC_INVALID_ARGUMENT => 4
  | IPC_NOT_FOUND => 5
  | IPC_ACCESS_DENIED => 6
  end.

Record IpcMessageHeader : Type := mk_header {
  hd_magic : Z;
  hd_version : Z;
  hd_messageType : Z;
  hd_requestId : Z;
  hd_payloadSize : Z;
  hd_flags : Z;
  hd_reserved : Z
}.

(** The packed structure after [htonl] of each field. *)
Definition encode_header (h : IpcMessageHeader) : list Z :=
  be_bytes 4 (hd_magic h) ++ be_bytes 4 (hd_version h) ++ be_bytes 4 (hd_messageType h) ++ be_bytes 4 (hd_requestId h)
  ++ be_bytes 4 (hd_payloadSize h) ++ be_bytes 4 (hd_flags h) ++ be_bytes 4 (hd_reserved h).

Definition header_size : nat := 28.

(** The structure of the bytes received, after [ntohl] of each field. *)
Definition decode_header (l : list Z) : IpcMessageHeader :=
  let field i := be_val (take 4 (drop (4 * i) l)) in
  mk_header (field 0%nat) (field 1%nat) (field 2%nat) (field 3%nat) (field 4%nat) (field 5%nat) (field 6%nat).

(** ** The structures sent *)

(** The fields that the server writes; the others are zero. *)
Record wire_gpu : Type := mk_wire_gpu {
  wg_id : Z;
  wg_name : string;
  wg_vendor : Z;
  wg_vram_total : Z;
  wg_vram_free : Z;
  wg_vram_used : Z;
  wg_temperature : f32;
  wg_utilization : f32;
  wg_enabled : bool;
  wg_available : bool
}.

Record wire_logical : Type := mk_wire_logical {
  wl_gpu_count : Z;
  wl_vram_total : Z;
  wl_vram_free : Z;
  wl_heterogeneous : bool
}.

(** [ip_send n len]: what the [n]-th [send], of [len] bytes, returns.
    [ip_alloc size]: whether the receive buffer can grow to [size] bytes.
    [ip_peer clientId]: the user of the client, [None] when the system does
    not tell.  [ip_gpu] and [ip_logical]: the bytes of the structures. *)
Class IpcEnv : Type := {
  ip_send : nat -> nat -> Z;
  ip_alloc : Z -> bool;
  ip_peer : Z -> option Z;
  ip_uid : Z;
  ip_gpu : wire_gpu -> list Z;
  ip_logical : wire_logical -> list Z
}.

(** ** State *)

(** [cn_in] holds what the socket delivers, one list per [recv] at most;
    [cn_out] what it accepted. *)
Record Connection : Type := mk_conn {
  cn_clientId : Z;
  cn_receiveBuffer : list Z;
  cn_in : list (list Z);
  cn_out : list Z;
  cn_sends : nat
}.
#[export] Instance conn_eta : Eta Connection := fun r =>
  mk_conn (cn_clientId r) (cn_receiveBuffer r) (cn_in r) (cn_out r) (cn_sends r).

(** The constructor. *)
Definition Connection_new (clientId : Z) : Connection := mk_conn clientId (replicate 4096 0) [] [] 0.

(** The parts of the daemon that the handlers use. *)
Record Daemon : Type := mk_daemon {
  rd_registry : DeviceRegistry;
  rd_scheduler : Scheduler;
  rd_memory : MemoryManager
}.
#[export] Instance daemon_eta : Eta Daemon := fun r => mk_daemon (rd_registry r) (rd_scheduler r) (rd_memory r).

Record Session : Type := mk_session { se_conn : Connection; se_daemon : Daemon }.
#[export] Instance session_eta : Eta Session := fun r => mk_session (se_conn r) (se_daemon r).

Abbreviation SM := (M Session).

Definition on_scheduler {A : Type} (m : M Scheduler A) : SM A := fun s =>
  match m (rd_scheduler (se_daemon s)) with
  | Ret (a, x) => Ret (a, s <| se_daemon ::= fun d => d <| rd_scheduler := x |> |>)
  | Fault e => Fault e
  | NoFuel => NoFuel
  end.

Definition on_memory_manager {A : Type} (m : M MemoryManager A) : SM A := fun s =>
  match m (rd_memory (se_daemon s)) with
  | Ret (a, x) => Ret (a, s <| se_daemon ::= fun d => d <| rd_memory := x |> |>)
  | Fault e => Fault e
  | NoFuel => NoFuel
  end.

Definition on_registry (f : DeviceRegistry -> DeviceRegistry) : SM unit :=
  modify (fun s => s <| se_daemon ::= fun d => d <| rd_registry ::= f |> |>).

Definition registry : SM DeviceRegistry := reads (fun s => rd_registry (se_daemon s)).

Section connection.
Context `{RtEnv, RtMemOS, IpcEnv}.

(** ** Reading *)

(** [None] is a closed connection, an error or nothing to read. *)
Definition recv (len : nat) (chunks : list (list Z)) : option (list Z * list (list Z)) :=
  match chunks with
  | [] | [] :: _ => None
  | c :: rest => Some (take len c, if (length c <=? len)%nat then rest else drop len c :: rest)
  end.

(** The loop of [readMessageHeader] and of [readPayload], which need [len]
    more bytes: what was read, whether it is all, and the rest.  A pass reads
    a byte at least. *)
Fixpoint read_loop (fuel len : nat) (chunks : list (list Z)) (got : list Z) : list Z * bool * list (list Z) :=
  match fuel with
  | O => (got, bool_decide (len = 0%nat), chunks)
  | S fuel' =>
      if bool_decide (len = 0%nat) then (got, true, chunks) else
      match recv len chunks with
      | None => (got, false, chunks)
      | Some (bytes, rest) => read_loop fuel' (len - length bytes) rest (got ++ bytes)
      end
  end.

Definition read_bytes (len : nat) : SM (list Z * bool) := fun s =>
  let '(got, ok, rest) := read_loop len len (cn_in (se_conn s)) [] in
  Ret ((got, ok), s <| se_conn ::= fun c => c <| cn_in := rest |> |>).

(** [None] is [false]. *)
Definition readMessageHeader : SM (option IpcMessageHeader) :=
  r ← read_bytes header_size;
  let '(bytes, ok) := r in
  if negb ok then mret None else
  let header := decode_header bytes in
  if negb (hd_magic header =? IPC_MAGIC) then mret None else
  if negb (hd_version header =? IPC_VERSION) then mret None else
  mret (Some header).

(** The bytes read replace the first ones of the buffer. *)
Definition readPayload (size : nat) : SM bool :=
  r ← read_bytes size;
  let '(bytes, ok) := r in
  modify (fun s => s <| se_conn ::= fun c => c <| cn_receiveBuffer ::= fun b => bytes ++ drop (length bytes) b |> |>);;
  mret ok.

(** ** Writing *)

(** The count [send] returns; that many bytes go out. *)
Definition send (bytes : list Z) : SM Z := fun s =>
  let n := ip_send (cn_sends (se_conn s)) (length bytes) in
  Ret (n, s <| se_conn ::= fun c => c <| cn_sends ::= S |> <| cn_out ::= fun o => o ++ take (Z.to_nat n) bytes |> |>).

Definition send_all (bytes : list Z) : SM bool :=
  n ← send bytes; mret (n =? Z.of_nat (length bytes)).

(** [sendMessage], and [sendMessageInternal] of the server with other flags. *)
Definition send_message (type : Z) (payload : list Z) (requestId flags : Z) : SM bool :=
  ok ← send_all (encode_header (mk_header IPC_MAGIC IPC_VERSION type requestId (u32 (Z.of_nat (length payload))) flags 0));
  if negb ok then mret false else
  if (0 <? length payload)%nat then send_all payload else mret true.

Definition sendMessage (type : Z) (payload : list Z) (requestId : Z) : SM bool :=
  send_message type payload requestId FLAG_RESPONSE.

(** Header and error code in one structure. *)
Definition sendError (error : IpcErrorCode) (requestId : Z) : SM bool :=
  send_all (encode_header (mk_header IPC_MAGIC IPC_VERSION ERROR requestId 4 (Z.lor FLAG_RESPONSE FLAG_ERROR) 0)
            ++ be_bytes 4 (error_number error)).

(** ** Handlers *)

(** The tests for the group have no effect on the result. *)
Definition authenticate : SM bool :=
  id ← reads (fun s => cn_clientId (se_conn s));
  mret (match ip_peer id with
        | None => false
        | Some uid => (uid =? 0) || (uid =? ip_uid)
        end).

Definition describe_gpu (d : GpuDevice) : wire_gpu :=
  mk_wire_gpu (dv_index d) (String.substring 0 255 (dv_name d)) (dv_vendor d)
    (cap_vramSize (dv_capabilities d)) (cap_vramFree (dv_capabilities d))
    (u64 (cap_vramSize (dv_capabilities d) - cap_vramFree (dv_capabilities d)))
    (f32_of_Z (sta_temperature (dv_state d))) (f32_of_Z (sta_utilization (dv_state d)))
    (sta_enabled (dv_state d)) (sta_available (dv_state d)).

Definition describe_unified (reg : DeviceRegistry) : wire_logical :=
  mk_wire_logical (gpuCount reg) (totalVRAM reg) (freeVRAM reg) (capabilityTier reg =? 2).

Definition buffer : SM (list Z) := reads (fun s => cn_receiveBuffer (se_conn s)).

(** A number of [k] bytes at [offset] of the buffer, in host order. *)
Definition arg (offset k : nat) (b : list Z) : Z := le_val (take k (drop offset b)).

(** The handlers ignore whether the answer could be sent. *)
Definition answer (m : SM bool) : SM bool := m;; mret true.

Definition handle_hello (requestId : Z) : SM bool :=
  send_all (encode_header (mk_header IPC_MAGIC IPC_VERSION HELLO requestId 0 FLAG_RESPONSE 0)).

Definition handle_query_devices (requestId : Z) : SM bool :=
  reg ← registry;
  answer (sendMessage QUERY_DEVICES (take (Z.to_nat (gpuCount reg)) (rg_gpus reg) ≫= fun d => ip_gpu (describe_gpu d)) requestId).

Definition handle_query_capabilities (requestId : Z) : SM bool :=
  b ← buffer;
  if (length b <? 4)%nat then answer (sendError IPC_INVALID_ARGUMENT requestId) else
  reg ← registry;
  match getGpu (arg 0 4 b) reg with
  | None => answer (sendError IPC_NOT_FOUND requestId)
  | Some d => answer (sendMessage QUERY_DEVICE_CAPABILITIES (ip_gpu (describe_gpu d)) requestId)
  end.

Definition handle_query_unified (requestId : Z) : SM bool :=
  reg ← registry;
  answer (sendMessage QUERY_UNIFIED_CAPABILITIES (ip_logical (describe_unified reg)) requestId).

Definition handle_alloc (requestId : Z) : SM bool :=
  b ← buffer;
  if (length b <? 8)%nat then answer (sendError IPC_INVALID_ARGUMENT requestId) else
  reg ← registry;
  id ← on_memory_manager (allocate reg (arg 0 8 b) 0 U32_MAX NUMA_AWARE);
  if id =? 0 then answer (sendError IPC_OUT_OF_MEMORY requestId)
  else answer (sendMessage ALLOC_MEMORY (le_bytes 8 id) requestId).

Definition handle_free (requestId : Z) : SM bool :=
  b ← buffer;
  if (length b <? 8)%nat then answer (sendError IPC_INVALID_ARGUMENT requestId) else
  ok ← on_memory_manager (mm_free (arg 0 8 b));
  if ok : bool then answer (sendMessage FREE_MEMORY [] requestId) else answer (sendError IPC_NOT_FOUND requestId).

Definition handle_submit (requestId : Z) : SM bool :=
  id ← on_scheduler (rt_submit WT_GRAPHICS 8 U32_MAX);
  answer (sendMessage SUBMIT_WORKLOAD (le_bytes 4 id) requestId).

(** The wait has no timeout and runs on the daemon's only thread, so a
    workload that is not final at the first look never is: the call does not
    return, which is [NoFuel] for every number of passes. *)
Definition handle_wait (requestId : Z) : SM bool :=
  b ← buffer;
  if (length b <? 4)%nat then answer (sendError IPC_INVALID_ARGUMENT requestId) else
  completed ← on_scheduler (rt_wait 1 (arg 0 4 b) 0);
  answer (sendMessage WAIT_WORKLOAD [Z.b2z completed] requestId).

Definition mode_of (n : Z) : SchedulingMode :=
  match n with
  | 0 => STATIC_PARTITIONING
  | 1 => DYNAMIC_LOAD_BALANCING
  | 2 => APPLICATION_PROFILE
  | 3 => AI_DRIVEN
  | _ => MODE_OTHER n
  end.

Definition handle_set_mode (requestId : Z) : SM bool :=
  b ← buffer;
  if (length b <? 4)%nat then answer (sendError IPC_INVALID_ARGUMENT requestId) else
  on_scheduler (modify (setMode (mode_of (arg 0 4 b))));;
  answer (sendMessage SET_SCHEDULING_MODE [] requestId).

Definition handle_set_priority (requestId : Z) : SM bool :=
  b ← buffer;
  if (length b <? 8)%nat then answer (sendError IPC_INVALID_ARGUMENT requestId) else
  on_registry (setGpuPriority (arg 0 4 b) (s32 (arg 4 4 b)));;
  answer (sendMessage SET_GPU_PRIORITY [] requestId).

(** The byte is read as a [bool]. *)
Definition handle_set_enabled (requestId : Z) : SM bool :=
  b ← buffer;
  if (length b <? 5)%nat then answer (sendError IPC_INVALID_ARGUMENT requestId) else
  if 1 <? arg 4 1 b then fails BadBool else
  on_registry (enableGpu (arg 0 4 b) (arg 4 1 b =? 1));;
  answer (sendMessage SET_GPU_ENABLED [] requestId).

(** The types whose case only reports that it is not implemented. *)
Definition unimplemented : list Z :=
  [IMPORT_DMABUF; EXPORT_DMABUF; GET_STATISTICS; SUBSCRIBE_TELEMETRY; UNSUBSCRIBE_TELEMETRY; GET_CONFIG; SET_CONFIG;
   LOAD_CONFIG; SAVE_CONFIG].

(** The switch. *)
Definition handle (msgType requestId : Z) : SM bool :=
  if msgType =? HELLO then handle_hello requestId else
  if msgType =? GOODBYE then mret false else
  if msgType =? QUERY_DEVICES then handle_query_devices requestId else
  if msgType =? QUERY_DEVICE_CAPABILITIES then handle_query_capabilities requestId else
  if msgType =? QUERY_UNIFIED_CAPABILITIES then handle_query_unified requestId else
  if msgType =? ALLOC_MEMORY then handle_alloc requestId else
  if msgType =? FREE_MEMORY then handle_free requestId else
  if msgType =? SUBMIT_WORKLOAD then handle_submit requestId else
  if msgType =? WAIT_WORKLOAD then handle_wait requestId else
  if msgType =? SET_SCHEDULING_MODE then handle_set_mode requestId else
  if msgType =? SET_GPU_PRIORITY then handle_set_priority requestId else
  if msgType =? SET_GPU_ENABLED then handle_set_enabled requestId else
  if bool_decide (msgType ∈ unimplemented) then answer (sendError IPC_NOT_IMPLEMENTED requestId)
  else answer (sendError IPC_INVALID_REQUEST requestId).

(** One message; [false] ends the connection. *)
Definition processMessages : SM bool :=
  h ← readMessageHeader;
  match h with
  | None => mret false
  | Some header =>
      ok ← (if 0 <? hd_payloadSize header then
              if negb (ip_alloc (hd_payloadSize header)) then fails Uncaught else
              let size := Z.to_nat (hd_payloadSize header) in
              modify (fun s => s <| se_conn ::= fun c => c <| cn_receiveBuffer ::= resize size 0 |> |>);;
              readPayload size
            else mret true);
      if negb ok then mret false else
      let msgType := hd_messageType header in
      allowed ← (if msgType =? HELLO then mret true else authenticate);
      if negb allowed then sendError IPC_ACCESS_DENIED (hd_requestId header);; mret false else
      handle msgType (hd_requestId header)
  end.

End connection.

(** ** The server *)

(** [sv_daemon] is the daemon that the server belongs to. *)
Record IpcServer : Type := mk_server {
  sv_clients : gmap Z Connection;
  sv_nextClientId : Z;
  sv_daemon : Daemon
}.
#[export] Instance server_eta : Eta IpcServer := fun r => mk_server (sv_clients r) (sv_nextClientId r) (sv_daemon r).

Definition IpcServer_new (d : Daemon) : IpcServer := mk_server ∅ 1 d.

(** The results of [accept4] in one round; with none left the call would
    block. *)
Inductive accept_result : Type := AC_CLIENT | AC_TOO_MANY | AC_WOULD_BLOCK | AC_FAILED.

Fixpoint acceptConnections (results : list accept_result) (s : IpcServer) : bool * IpcServer :=
  match results with
  | [] | AC_WOULD_BLOCK :: _ => (true, s)
  | AC_TOO_MANY :: rest => acceptConnections rest s
  | AC_FAILED :: _ => (false, s)
  | AC_CLIENT :: rest =>
      let clientId := sv_nextClientId s in
      acceptConnections rest
        (s <| sv_nextClientId ::= fun n => u32 (n + 1) |> <| sv_clients ::= <[clientId := Connection_new clientId]> |>)
  end.

Section server.
Context `{RtEnv, RtMemOS, IpcEnv}.

(** An operation of the connection of a client. *)
Definition on_client {A : Type} (clientId : Z) (m : SM A) : M IpcServer (option A) := fun s =>
  match sv_clients s !! clientId with
  | None => Ret (None, s)
  | Some c =>
      match m (mk_session c (sv_daemon s)) with
      | Ret (a, x) => Ret (Some a, s <| sv_clients ::= <[clientId := se_conn x]> |> <| sv_daemon := se_daemon x |>)
      | Fault e => Fault e
      | NoFuel => NoFuel
      end
  end.

(** The loop over the clients, in the order of the hash table; the result are
    the dead ones. *)
Fixpoint serve_clients (order : list Z) : M IpcServer (list Z) :=
  match order with
  | [] => mret []
  | id :: rest =>
      r ← on_client id processMessages;
      dead ← serve_clients rest;
      mret (match r with Some false => id :: dead | _ => dead end)
  end.

Definition cleanupDeadClients (deadClients : list Z) (s : IpcServer) : IpcServer :=
  s <| sv_clients ::= fun m => foldl (fun m id => delete id m) m deadClients |>.

(** [order] lists the clients of the table as the hash table does. *)
Definition processEvents (results : list accept_result) (order : gmap Z Connection -> list Z) : M IpcServer unit :=
  s ← get;
  let '(ok, s) := acceptConnections results s in
  put s;;
  if negb ok then mret tt else
  dead ← serve_clients (order (sv_clients s));
  modify (cleanupDeadClients dead).

Definition sendNotification_to (clientId type : Z) (payload : list Z) : M IpcServer unit :=
  on_client clientId (send_message type payload 0 FLAG_NOTIFICATION);; mret tt.

Fixpoint notify_each (order : list Z) (type : Z) (payload : list Z) : M IpcServer unit :=
  match order with
  | [] => mret tt
  | id :: rest => sendNotification_to id type payload;; notify_each rest type payload
  end.

Definition sendNotification (order : gmap Z Connection -> list Z) (type : Z) (payload : list Z) : M IpcServer unit :=
  s ← get; notify_each (order (sv_clients s)) type payload.

(** What a client writes to its socket. *)
Definition deliver (clientId : Z) (bytes : list Z) (s : IpcServer) : IpcServer :=
  s <| sv_clients ::= alter (fun c => c <| cn_in ::= fun l => l ++ [bytes] |>) clientId |>.

End server.
