(* ===== verification/RtAnswers.v ===== *)
(** * Requests and answers of the runtime daemon

    Theory of [RtIpc]: the header survives the wire, a message is read whole
    however the socket cuts it, a request of an accepted client gets one
    well-formed answer with its number and keeps the invariants of the
    scheduler and the memory manager, and a client that is not accepted
    changes nothing. *)

From S2P Require Import Prelude Float32 RtDevices RtScheduler RtQueue RtMemory RtOwnership RtIpc.
From stdpp Require Import strings.
Local Open Scope Z_scope.

(** ** Bytes *)

Lemma length_be_bytes k z : length (be_bytes k z) = k.
Proof. unfold be_bytes. by rewrite length_reverse, length_le_bytes. Qed.

Lemma be_val_bytes z : is_u32 z -> be_val (be_bytes 4 z) = z.
Proof.
  unfold is_u32, U32_MAX. intros Hz. unfold be_val, be_bytes. rewrite reverse_involutive. apply le_val_bytes.
  change (256 ^ Z.of_nat 4) with 4294967296. lia.
Qed.

(** The fields are 32-bit numbers. *)
Definition header_ok (h : IpcMessageHeader) : Prop :=
  is_u32 (hd_magic h) /\ is_u32 (hd_version h) /\ is_u32 (hd_messageType h) /\ is_u32 (hd_requestId h)
  /\ is_u32 (hd_payloadSize h) /\ is_u32 (hd_flags h) /\ is_u32 (hd_reserved h).

Lemma length_encode_header h : length (encode_header h) = header_size.
Proof. unfold encode_header. by rewrite !length_app, !length_be_bytes. Qed.

Lemma field_here a (l : list Z) : is_u32 a -> be_val (take 4 (be_bytes 4 a ++ l)) = a.
Proof. intros Ha. rewrite take_app_length' by (by rewrite length_be_bytes). by apply be_val_bytes. Qed.

Lemma field_skip n a (l : list Z) : drop (4 * S n) (be_bytes 4 a ++ l) = drop (4 * n) l.
Proof.
  replace (4 * S n)%nat with (length (be_bytes 4 a) + 4 * n)%nat by (rewrite length_be_bytes; lia).
  by rewrite drop_app_add.
Qed.

Lemma decode_encode h l : header_ok h -> decode_header (encode_header h ++ l) = h.
Proof.
  intros (H0 & H1 & H2 & H3 & H4 & H5 & H6). unfold decode_header, encode_header. rewrite <-!(assoc_L (++)).
  rewrite !field_skip. change (4 * 0)%nat with 0%nat. rewrite !drop_0, !field_here by done. by destruct h.
Qed.

(** ** Reading *)

Abbreviation chunked := (Forall (fun c : list Z => c <> [])).

Lemma recv_spec len chunks :
  chunked chunks -> (0 < len <= length (concat chunks))%nat ->
  exists bytes rest, recv len chunks = Some (bytes, rest) /\ (0 < length bytes <= len)%nat
    /\ concat chunks = bytes ++ concat rest /\ chunked rest.
Proof.
  intros Hc Hlen. destruct chunks as [|c rest]; [cbn in Hlen; lia|]. inversion_clear Hc as [|? ? Hne Hrest].
  destruct c as [|x c]; [done|]. cbn [recv]. eexists _, _. split; [reflexivity|].
  rewrite length_take. destruct (Nat.leb_spec (length (x :: c)) len) as [Hle|Hgt].
  - split; [cbn in *; lia|]. rewrite take_ge by done. done.
  - split; [cbn in *; lia|]. split; [cbn [concat]; by rewrite (assoc_L (++)), take_drop|].
    constructor; [|done]. intros E. apply (f_equal length) in E. rewrite length_drop in E. cbn in *. lia.
Qed.

Lemma read_loop_spec fuel len chunks got :
  chunked chunks -> (len <= fuel)%nat -> (len <= length (concat chunks))%nat ->
  exists rest, read_loop fuel len chunks got = (got ++ take len (concat chunks), true, rest)
    /\ concat rest = drop len (concat chunks) /\ chunked rest.
Proof.
  revert len chunks got. induction fuel as [|fuel IH]; intros len chunks got Hc Hfuel Hlen; cbn [read_loop].
  - replace len with 0%nat by lia. exists chunks. by rewrite app_nil_r.
  - case_bool_decide as Hz; [subst len; exists chunks; by rewrite app_nil_r|].
    destruct (recv_spec len chunks) as (bytes & rest & -> & Hb & Hcat & Hrest); [done|lia|].
    rewrite Hcat in Hlen |- *. rewrite length_app in Hlen.
    destruct (IH (len - length bytes)%nat rest (got ++ bytes)) as (rest' & -> & Hd & Hr); [done|lia|lia|].
    exists rest'. split; [|split; [|done]].
    + by rewrite take_app, (take_ge bytes) by lia; rewrite (assoc_L (++)).
    + rewrite Hd, drop_app, (drop_ge bytes) by lia. done.
Qed.

(** The data a client has sent and the daemon has not read. *)
Definition unread (s : Session) : list Z := concat (cn_in (se_conn s)).

Lemma wp_read_bytes len (Q : list Z * bool -> Session -> Prop) s :
  chunked (cn_in (se_conn s)) -> (len <= length (unread s))%nat ->
  (forall rest, concat rest = drop len (unread s) -> chunked rest ->
     Q (take len (unread s), true) (s <| se_conn ::= fun c => c <| cn_in := rest |> |>)) ->
  wp (read_bytes len) Q s.
Proof.
  intros Hc Hlen HQ. unfold wp, read_bytes.
  destruct (read_loop_spec len len (cn_in (se_conn s)) [] Hc ltac:(lia) Hlen) as (rest & -> & Hd & Hr). by apply HQ.
Qed.

(** ** Answers *)

(** A message on the wire. *)
Definition frame (type requestId flags : Z) (payload : list Z) : list Z :=
  encode_header (mk_header IPC_MAGIC IPC_VERSION type requestId (Z.of_nat (length payload)) flags 0) ++ payload.

Record request : Type := mk_request { rq_type : Z; rq_id : Z; rq_flags : Z; rq_payload : list Z }.

Definition wire (rq : request) : list Z := frame (rq_type rq) (rq_id rq) (rq_flags rq) (rq_payload rq).

Definition request_ok (rq : request) : Prop :=
  is_u32 (rq_type rq) /\ is_u32 (rq_id rq) /\ is_u32 (rq_flags rq) /\ is_u32 (Z.of_nat (length (rq_payload rq))).

(** The one answer to a request: its own type, or an error with a code. *)
Definition answers (rq : request) (bytes : list Z) : Prop :=
  if rq_type rq =? GOODBYE then bytes = [] else
  (exists payload, bytes = frame (rq_type rq) (rq_id rq) FLAG_RESPONSE payload /\ is_u32 (Z.of_nat (length payload)))
  \/ exists e, bytes = frame ERROR (rq_id rq) (Z.lor FLAG_RESPONSE FLAG_ERROR) (be_bytes 4 (error_number e)).

(** A shared pointer keeps its workload alive. *)
Definition known_alive (sc : Scheduler) : Prop :=
  forall id p, getWorkload id sc = Some p -> is_Some (rs_heap sc !! p).

(** What the handlers rely on, and keep. *)
Record daemon_ok (fds0 : gset Z) (d : Daemon) : Prop := {
  dk_gpus : 0 < Z.of_nat (length (rg_gpus (rd_registry d))) <= 65536;
  dk_memory : owned (length (rg_gpus (rd_registry d))) fds0 (rd_memory d);
  dk_queue : exists l, waiting l (rd_scheduler d);
  dk_known : known_alive (rd_scheduler d)
}.

(** Only the output changes, by [bytes]. *)
Record writes (bytes : list Z) (s s' : Session) : Prop := {
  wr_out : cn_out (se_conn s') = cn_out (se_conn s) ++ bytes;
  wr_in : cn_in (se_conn s') = cn_in (se_conn s);
  wr_daemon : se_daemon s' = se_daemon s
}.

Lemma writes_app b1 b2 s1 s2 s3 : writes b1 s1 s2 -> writes b2 s2 s3 -> writes (b1 ++ b2) s1 s3.
Proof. intros [H1 H2 H3] [H4 H5 H6]. split; [by rewrite H4, H1, (assoc_L (++))|congruence..]. Qed.

(** The socket takes what is sent, the receive buffer can grow, and the
    structures have at most a page. *)
Class IpcLine `{IpcEnv} : Prop := {
  line_send k len : ip_send k len = Z.of_nat len;
  line_alloc size : ip_alloc size = true;
  line_gpu w : (length (ip_gpu w) <= 4096)%nat;
  line_logical w : (length (ip_logical w) <= 4096)%nat
}.

(** The user of the client is root or that of the daemon. *)
Definition accepted `{IpcEnv} (clientId : Z) : bool :=
  match ip_peer clientId with None => false | Some uid => (uid =? 0) || (uid =? ip_uid) end.

Section answering.
Context `{RtEnv, RtMemLaws, IpcEnv}.

Lemma wp_authenticate (Q : bool -> Session -> Prop) s :
  Q (accepted (cn_clientId (se_conn s))) s ->
  wp authenticate Q s.
Proof. done. Qed.

Context `{!IpcLine}.

Lemma wp_send_all bytes s : wp (send_all bytes) (fun r s' => r = true /\ writes bytes s s') s.
Proof.
  unfold send_all, send. apply wp_bind. eapply wp_intro; [reflexivity|]. apply wp_ret. rewrite line_send, Z.eqb_refl.
  split; [done|]. split; cbn; [|done..]. rewrite Nat2Z.id. by rewrite take_ge.
Qed.

Lemma wp_sendMessage type payload id s :
  is_u32 (Z.of_nat (length payload)) ->
  wp (sendMessage type payload id) (fun r s' => r = true /\ writes (frame type id FLAG_RESPONSE payload) s s') s.
Proof.
  intros Hlen. unfold sendMessage, send_message, frame. rewrite (u32_small _ Hlen). apply wp_bind.
  eapply wp_mono; [apply wp_send_all|]. intros ok s1 [-> Hw]. cbn [negb]. destruct payload as [|x payload].
  - apply wp_ret. by rewrite app_nil_r.
  - cbn [length Nat.ltb Nat.leb]. eapply wp_mono; [apply wp_send_all|]. intros ok s2 [-> Hw2]. split; [done|]. by eapply writes_app.
Qed.

Lemma wp_sendError e id s :
  wp (sendError e id) (fun r s' => r = true
    /\ writes (frame ERROR id (Z.lor FLAG_RESPONSE FLAG_ERROR) (be_bytes 4 (error_number e))) s s') s.
Proof. unfold frame. rewrite length_be_bytes. apply wp_send_all. Qed.

(** A handler has answered and kept the invariant. *)
Definition replied (fds0 : gset Z) (rq : request) (s : Session) (s' : Session) : Prop :=
  daemon_ok fds0 (se_daemon s') /\ cn_in (se_conn s') = cn_in (se_conn s)
  /\ exists bytes, cn_out (se_conn s') = cn_out (se_conn s) ++ bytes /\ answers rq bytes.

(** A change of the daemon only, which keeps the invariant. *)
Definition works (fds0 : gset Z) (s s1 : Session) : Prop := daemon_ok fds0 (se_daemon s1) /\ se_conn s1 = se_conn s.

Lemma reply_own fds0 rq payload s s1 :
  rq_type rq <> GOODBYE -> works fds0 s s1 -> is_u32 (Z.of_nat (length payload)) ->
  wp (answer (sendMessage (rq_type rq) payload (rq_id rq))) (fun r s' => r = true /\ replied fds0 rq s s') s1.
Proof.
  intros Hg [Hok Hc] Hlen. unfold answer. apply wp_bind. eapply wp_mono; [by apply wp_sendMessage|].
  intros ok s2 [-> [Ho Hi Hd]]. apply wp_ret. split; [done|]. split; [by rewrite Hd|]. split; [congruence|].
  eexists. split; [by rewrite Ho, Hc|]. unfold answers. rewrite (proj2 (Z.eqb_neq _ _)) by done. left. eauto.
Qed.

Lemma reply_error fds0 rq e s s1 :
  rq_type rq <> GOODBYE -> works fds0 s s1 ->
  wp (answer (sendError e (rq_id rq))) (fun r s' => r = true /\ replied fds0 rq s s') s1.
Proof.
  intros Hg [Hok Hc]. unfold answer. apply wp_bind. eapply wp_mono; [apply wp_sendError|].
  intros ok s2 [-> [Ho Hi Hd]]. apply wp_ret. split; [done|]. split; [by rewrite Hd|]. split; [congruence|].
  eexists. split; [by rewrite Ho, Hc|]. unfold answers. rewrite (proj2 (Z.eqb_neq _ _)) by done. right. eauto.
Qed.

Lemma wp_on_scheduler {A : Type} (m : M Scheduler A) (Q : A -> Session -> Prop) s :
  wp m (fun a x => Q a (s <| se_daemon ::= fun d => d <| rd_scheduler := x |> |>)) (rd_scheduler (se_daemon s)) ->
  wp (on_scheduler m) Q s.
Proof. unfold wp, on_scheduler. by destruct (m _) as [[a x]| |]. Qed.

Lemma wp_on_memory {A : Type} (m : M MemoryManager A) (Q : A -> Session -> Prop) s :
  wp m (fun a x => Q a (s <| se_daemon ::= fun d => d <| rd_memory := x |> |>)) (rd_memory (se_daemon s)) ->
  wp (on_memory_manager m) Q s.
Proof. unfold wp, on_memory_manager. by destruct (m _) as [[a x]| |]. Qed.

Lemma works_refl fds0 s : daemon_ok fds0 (se_daemon s) -> works fds0 s s.
Proof. by split. Qed.

Lemma works_memory fds0 s x :
  daemon_ok fds0 (se_daemon s) -> owned (length (rg_gpus (rd_registry (se_daemon s)))) fds0 x ->
  works fds0 s (s <| se_daemon ::= fun d => d <| rd_memory := x |> |>).
Proof. intros [] ?. split; [by split|done]. Qed.

Lemma works_scheduler fds0 s x l :
  daemon_ok fds0 (se_daemon s) -> waiting l x -> known_alive x -> works fds0 s (s <| se_daemon ::= fun d => d <| rd_scheduler := x |> |>).
Proof. intros [] ? ?. split; [split; cbn; eauto|done]. Qed.


(** ** The handlers *)

(** The workload exists and has not ended. *)
Definition unfinished (sc : Scheduler) (id : Z) : bool :=
  match getWorkload id sc with
  | Some p => match rs_heap sc !! p with Some w => negb (final (wk_state w)) | None => false end
  | None => false
  end.

(** The requests that are not answered, with the bytes [b] in the receive
    buffer: a wait for a workload that has not ended does not return, and a
    flag that is neither 0 nor 1 is read as a [bool]. *)
Definition unanswered (d : Daemon) (b : list Z) (type : Z) : option (outcome (bool * Session)) :=
  if (type =? WAIT_WORKLOAD) && (4 <=? length b)%nat && unfinished (rd_scheduler d) (arg 0 4 b) then Some NoFuel else
  if (type =? SET_GPU_ENABLED) && (5 <=? length b)%nat && (1 <? arg 4 1 b) then Some (Fault BadBool) else None.

Lemma wait_finished id l sc :
  waiting l sc -> known_alive sc -> unfinished sc id = false ->
  wp (rt_wait 1 id 0) (fun _ sc' => waiting l sc' /\ known_alive sc') sc.
Proof.
  intros Hw Hk Hs. unfold rt_wait. apply wp_bind, wp_get. unfold unfinished in Hs.
  destruct (getWorkload id sc) as [p|] eqn:Hp; [|apply wp_ret; by split]. destruct (Hk id p Hp) as [w Hheap]. rewrite Hheap in Hs.
  apply negb_false_iff in Hs. apply wp_bind. unfold rt_now. eapply wp_intro; [reflexivity|]. cbn [wait_loop]. apply wp_bind.
  unfold workload_at. eapply wp_intro; [cbn; by rewrite Hheap|]. rewrite Hs. apply wp_ret. split; [|done]. destruct Hw. by split.
Qed.

(** Since the timeout of the call is 0 and the thread that waits is the one
    that serves, no number of passes is enough. *)
Lemma wait_hangs id sc fuel : unfinished sc id = true -> rt_wait fuel id 0 sc = NoFuel.
Proof.
  unfold unfinished, rt_wait. intros Hu. erewrite bind_ret by reflexivity. destruct (getWorkload id sc) as [p|]; [|done].
  destruct (rs_heap sc !! p) as [w|] eqn:Hw; [|done]. apply negb_true_iff in Hu. erewrite bind_ret by reflexivity.
  set (sc' := sc <| rs_ticks ::= S |>). assert (Hw' : rs_heap sc' !! p = Some w) by done.
  induction fuel as [|fuel IH]; [done|]. cbn [wait_loop].
  erewrite bind_ret by (unfold workload_at; rewrite Hw'; reflexivity). by rewrite Hu.
Qed.

Lemma length_descriptions gpus : (length (gpus ≫= fun d => ip_gpu (describe_gpu d)) <= 4096 * length gpus)%nat.
Proof.
  induction gpus as [|d gpus IH]; [done|]. change ((d :: gpus) ≫= ?f) with (f d ++ (gpus ≫= f)).
  rewrite length_app. cbn [length]. pose proof (line_gpu (describe_gpu d)). lia.
Qed.

Lemma page_u32 k : (k <= 4096)%nat -> is_u32 (Z.of_nat k).
Proof. unfold is_u32, U32_MAX. lia. Qed.

Section handlers.
Context (fds0 : gset Z) (rq : request) (s : Session).
Context (Hok : daemon_ok fds0 (se_daemon s)).

Abbreviation good := (fun r s' => r = true /\ replied fds0 rq s s').

(** The tests on the length of the buffer. *)
Lemma wp_checked n (m : list Z -> SM bool) :
  rq_type rq <> GOODBYE -> wp (m (cn_receiveBuffer (se_conn s))) good s ->
  wp (b ← buffer; if (length b <? n)%nat then answer (sendError IPC_INVALID_ARGUMENT (rq_id rq)) else m b) good s.
Proof.
  intros Hg Hm. apply wp_bind, wp_reads, wp_if; intros _; [|done]. by apply reply_error, works_refl.
Qed.

Lemma hello_ok : rq_type rq = HELLO -> wp (handle_hello (rq_id rq)) good s.
Proof.
  intros Ht. eapply wp_mono; [apply wp_send_all|]. intros r s' [-> [Ho Hi Hd]]. split; [done|].
  split; [by rewrite Hd|]. split; [done|]. eexists. split; [done|]. unfold answers. rewrite Ht. left. exists [].
  unfold frame. by rewrite app_nil_r.
Qed.

Lemma query_devices_ok : rq_type rq = QUERY_DEVICES -> wp (handle_query_devices (rq_id rq)) good s.
Proof.
  intros Ht. unfold handle_query_devices. rewrite <-Ht. apply wp_bind, wp_reads, reply_own; [by rewrite Ht|by apply works_refl|].
  set (l := take _ _). pose proof (length_descriptions l) as Hl. pose proof (dk_gpus _ _ Hok).
  assert (Z.of_nat (length l) <= 65536) by (unfold l; rewrite length_take; lia). unfold is_u32, U32_MAX. lia.
Qed.

Lemma query_capabilities_ok : rq_type rq = QUERY_DEVICE_CAPABILITIES -> wp (handle_query_capabilities (rq_id rq)) good s.
Proof.
  intros Ht. unfold handle_query_capabilities. rewrite <-Ht. apply wp_checked; [by rewrite Ht|]. apply wp_bind, wp_reads.
  destruct (getGpu _ _) as [d|]; [|apply reply_error; [by rewrite Ht|by apply works_refl]].
  apply reply_own; [by rewrite Ht|by apply works_refl|]. apply page_u32, line_gpu.
Qed.

Lemma query_unified_ok : rq_type rq = QUERY_UNIFIED_CAPABILITIES -> wp (handle_query_unified (rq_id rq)) good s.
Proof.
  intros Ht. unfold handle_query_unified. rewrite <-Ht. apply wp_bind, wp_reads, reply_own; [by rewrite Ht|by apply works_refl|].
  apply page_u32, line_logical.
Qed.

Lemma gpus_u32 : 0 < Z.of_nat (length (rg_gpus (rd_registry (se_daemon s)))) <= U32_MAX.
Proof. pose proof (dk_gpus _ _ Hok). unfold U32_MAX. lia. Qed.

Lemma alloc_ok : rq_type rq = ALLOC_MEMORY -> mm_nextAllocationId (rd_memory (se_daemon s)) < U64_MAX ->
  wp (handle_alloc (rq_id rq)) good s.
Proof.
  intros Ht Hn. unfold handle_alloc. rewrite <-Ht. apply wp_checked; [by rewrite Ht|]. apply wp_bind, wp_reads, wp_bind, wp_on_memory.
  eapply wp_mono; [apply (allocate_owned _ fds0 gpus_u32); [apply Hok|by left|done]|].
  intros id m [Ho _]. apply wp_if; intros _; [apply reply_error|apply reply_own]; try (by apply works_memory); try (by rewrite Ht).
  rewrite length_le_bytes. by apply page_u32; lia.
Qed.

Lemma free_request_ok : rq_type rq = FREE_MEMORY -> wp (handle_free (rq_id rq)) good s.
Proof.
  intros Ht. unfold handle_free. rewrite <-Ht. apply wp_checked; [by rewrite Ht|]. apply wp_bind, wp_on_memory.
  eapply wp_mono; [apply (free_ok _ fds0 gpus_u32), Hok|].
  intros id m [[Ho _] _]. apply wp_if; intros _; [apply reply_own|apply reply_error]; try (by apply works_memory); by rewrite ?Ht.
Qed.

Lemma submit_ok : rq_type rq = SUBMIT_WORKLOAD -> wp (handle_submit (rq_id rq)) good s.
Proof.
  intros Ht. unfold handle_submit. rewrite <-Ht. destruct (dk_queue _ _ Hok) as [l Hl].
  destruct (submit_waits WT_GRAPHICS 8 U32_MAX l _ Hl) as (p & sc & Hrun & Hw & Hpend & Hids & _ & Hoth); [done|].
  assert (Hk : known_alive sc).
  { intros id q. unfold getWorkload. rewrite Hids. destruct (decide (q = p)) as [->|Hne].
    - intros _. unfold pending in Hpend. by destruct (rs_heap sc !! p).
    - rewrite Hoth by done. intros [[_ <-]|[_ Hq]]%lookup_insert_Some; [done|]. by apply (dk_known _ _ Hok id). }
  apply wp_bind, wp_on_scheduler. eapply wp_intro; [exact Hrun|]. apply reply_own; [by rewrite Ht|by eapply works_scheduler|].
  rewrite length_le_bytes. by apply page_u32; lia.
Qed.

Lemma wait_ok : rq_type rq = WAIT_WORKLOAD -> unanswered (se_daemon s) (cn_receiveBuffer (se_conn s)) (rq_type rq) = None ->
  wp (handle_wait (rq_id rq)) good s.
Proof.
  intros Ht Hs. unfold handle_wait, unanswered in *. rewrite Ht, Z.eqb_refl in Hs. cbn [andb] in Hs. rewrite <-Ht.
  apply wp_bind, wp_reads, wp_if; intros Hlen; [by apply reply_error; [rewrite Ht|apply works_refl]|]. apply Nat.ltb_ge in Hlen.
  rewrite (proj2 (Nat.leb_le _ _)) in Hs by done. destruct (unfinished _ _) eqn:Hu; [done|]. destruct (dk_queue _ _ Hok) as [l Hl].
  apply wp_bind, wp_on_scheduler. eapply wp_mono; [apply (wait_finished _ l _ Hl (dk_known _ _ Hok) Hu)|].
  intros b sc [Hw Hk]. apply reply_own; [by rewrite Ht|by apply (works_scheduler _ _ _ l)|done].
Qed.

Lemma set_mode_ok : rq_type rq = SET_SCHEDULING_MODE -> wp (handle_set_mode (rq_id rq)) good s.
Proof.
  intros Ht. unfold handle_set_mode. rewrite <-Ht. apply wp_checked; [by rewrite Ht|]. destruct (dk_queue _ _ Hok) as [l Hl].
  apply wp_bind, wp_on_scheduler, wp_modify. apply reply_own; [by rewrite Ht| |done]. eapply works_scheduler; [done| |exact (dk_known _ _ Hok)].
  destruct Hl. by split.
Qed.

Lemma set_priority_ok : rq_type rq = SET_GPU_PRIORITY -> wp (handle_set_priority (rq_id rq)) good s.
Proof.
  intros Ht. unfold handle_set_priority. rewrite <-Ht. apply wp_checked; [by rewrite Ht|].
  apply wp_bind, wp_modify. apply reply_own; [by rewrite Ht| |done]. destruct Hok. by split.
Qed.

Lemma set_enabled_ok : rq_type rq = SET_GPU_ENABLED -> unanswered (se_daemon s) (cn_receiveBuffer (se_conn s)) (rq_type rq) = None ->
  wp (handle_set_enabled (rq_id rq)) good s.
Proof.
  intros Ht Hb. unfold handle_set_enabled, unanswered in *. rewrite Ht, Z.eqb_refl in Hb.
  change (SET_GPU_ENABLED =? WAIT_WORKLOAD) with false in Hb. cbn [andb] in Hb. rewrite <-Ht.
  apply wp_bind, wp_reads, wp_if; intros Hlen; [by apply reply_error; [rewrite Ht|apply works_refl]|]. apply Nat.ltb_ge in Hlen.
  rewrite (proj2 (Nat.leb_le _ _)) in Hb by done. destruct (1 <? _); [done|]. apply wp_bind, wp_modify. apply reply_own; [by rewrite Ht| |done].
  destruct Hok as [Hg Hm Hq Hk]. split; [|done].
  assert (Hl : forall i b r, length (rg_gpus (enableGpu i b r)) = length (rg_gpus r)).
  { intros i b r. unfold enableGpu. destruct (_ <? _); [cbn; apply length_alter|done]. }
  by split; cbn; rewrite ?Hl.
Qed.
End handlers.

Lemma handle_ok fds0 rq s :
  daemon_ok fds0 (se_daemon s) -> (rq_type rq = ALLOC_MEMORY -> mm_nextAllocationId (rd_memory (se_daemon s)) < U64_MAX) ->
  unanswered (se_daemon s) (cn_receiveBuffer (se_conn s)) (rq_type rq) = None ->
  wp (handle (rq_type rq) (rq_id rq)) (fun r s' => r = negb (rq_type rq =? GOODBYE) /\ replied fds0 rq s s') s.
Proof.
  intros Hok Ha Hun. unfold handle. destruct (Z.eqb_spec (rq_type rq) GOODBYE) as [Hg|Hg].
  - rewrite Hg. cbn. apply wp_ret. split; [done|]. split; [done|]. split; [done|]. exists []. rewrite app_nil_r. unfold answers.
    by rewrite Hg.
  - cbn [negb].
    repeat (match goal with |- wp (if ?x =? ?y then _ else _) _ _ => destruct (Z.eqb_spec x y) end);
      auto using hello_ok, query_devices_ok, query_capabilities_ok, query_unified_ok, alloc_ok, free_request_ok, submit_ok,
        wait_ok, set_mode_ok, set_priority_ok, set_enabled_ok.
    case_bool_decide; by apply reply_error, works_refl.
Qed.

Lemma handle_unanswered rq s o :
  unanswered (se_daemon s) (cn_receiveBuffer (se_conn s)) (rq_type rq) = Some o -> handle (rq_type rq) (rq_id rq) s = o.
Proof.
  unfold unanswered. destruct (Z.eqb_spec (rq_type rq) WAIT_WORKLOAD) as [->|_]; cbn [andb].
  - destruct (Nat.leb_spec 4 (length (cn_receiveBuffer (se_conn s)))) as [Hlen|]; [|done]. cbn [andb].
    destruct (unfinished _ _) eqn:Hu; [|done]. intros [= <-]. change (handle WAIT_WORKLOAD (rq_id rq)) with (handle_wait (rq_id rq)).
    unfold handle_wait. erewrite bind_ret by reflexivity. rewrite (proj2 (Nat.ltb_ge _ _)) by done.
    unfold on_scheduler, mbind, M_bind. by rewrite wait_hangs.
  - destruct (Z.eqb_spec (rq_type rq) SET_GPU_ENABLED) as [->|_]; [|done]. cbn [andb].
    destruct (Nat.leb_spec 5 (length (cn_receiveBuffer (se_conn s)))) as [Hlen|]; [|done]. cbn [andb].
    destruct (1 <? _) eqn:Hb; [|done]. intros [= <-]. change (handle SET_GPU_ENABLED (rq_id rq)) with (handle_set_enabled (rq_id rq)).
    unfold handle_set_enabled. erewrite bind_ret by reflexivity. rewrite (proj2 (Nat.ltb_ge _ _)) by done. by rewrite Hb.
Qed.

(** ** One message *)

(** What the handler finds in the buffer: the payload, or what an earlier
    message left. *)
Definition seen (b : list Z) (rq : request) : list Z := match rq_payload rq with [] => b | p => p end.

Lemma wp_header rq rest (Q : option IpcMessageHeader -> Session -> Prop) s :
  request_ok rq -> chunked (cn_in (se_conn s)) -> unread s = wire rq ++ rest ->
  (forall chunks, concat chunks = rq_payload rq ++ rest -> chunked chunks ->
     Q (Some (mk_header IPC_MAGIC IPC_VERSION (rq_type rq) (rq_id rq) (Z.of_nat (length (rq_payload rq))) (rq_flags rq) 0))
       (s <| se_conn ::= fun c => c <| cn_in := chunks |> |>)) ->
  wp readMessageHeader Q s.
Proof.
  intros (H1' & H2' & H3' & H4') Hc Hu HQ. unfold wire, frame in Hu. set (h := mk_header _ _ _ _ _ _ _) in *.
  rewrite <-(assoc_L (++)) in Hu. assert (Hh : header_ok h) by done.
  unfold readMessageHeader. apply wp_bind, wp_read_bytes; [done|rewrite Hu, length_app, length_encode_header; lia|].
  rewrite Hu, take_app_length', drop_app_length' by (by rewrite length_encode_header).
  intros chunks Hd Hch. cbn [negb]. rewrite <-(app_nil_r (encode_header h)), (decode_encode h []) by done. by apply HQ.
Qed.

Lemma wp_payload rq rest (Q : bool -> Session -> Prop) s :
  chunked (cn_in (se_conn s)) -> unread s = rq_payload rq ++ rest -> rq_payload rq <> [] ->
  length (cn_receiveBuffer (se_conn s)) = length (rq_payload rq) ->
  (forall s', se_daemon s' = se_daemon s -> cn_clientId (se_conn s') = cn_clientId (se_conn s) ->
     cn_out (se_conn s') = cn_out (se_conn s) -> cn_receiveBuffer (se_conn s') = rq_payload rq ->
     unread s' = rest -> chunked (cn_in (se_conn s')) -> Q true s') ->
  wp (readPayload (length (rq_payload rq))) Q s.
Proof.
  intros Hc Hu Hne Hb HQ. unfold readPayload. apply wp_bind, wp_read_bytes; [done|rewrite Hu, length_app; lia|].
  rewrite Hu, take_app_length, drop_app_length. intros chunks Hd Hch. apply wp_bind, wp_modify, wp_ret.
  apply HQ; try done. cbn. rewrite drop_ge by lia. by rewrite app_nil_r.
Qed.

(** What [processMessages] has done when it comes to the switch. *)
Record received (rq : request) (rest : list Z) (s s' : Session) : Prop := {
  rc_daemon : se_daemon s' = se_daemon s;
  rc_client : cn_clientId (se_conn s') = cn_clientId (se_conn s);
  rc_out : cn_out (se_conn s') = cn_out (se_conn s);
  rc_buffer : cn_receiveBuffer (se_conn s') = seen (cn_receiveBuffer (se_conn s)) rq;
  rc_unread : unread s' = rest;
  rc_chunks : chunked (cn_in (se_conn s'))
}.

(** The part of [processMessages] after the payload. *)
Definition after_payload (type id : Z) : SM bool :=
  allowed ← (if type =? HELLO then mret true else authenticate);
  if negb allowed then sendError IPC_ACCESS_DENIED id;; mret false else handle type id.

Lemma receive_run rq rest s :
  request_ok rq -> chunked (cn_in (se_conn s)) -> unread s = wire rq ++ rest ->
  exists s', received rq rest s s' /\ processMessages s = after_payload (rq_type rq) (rq_id rq) s'.
Proof.
  intros Hrq Hc Hu. set (h := mk_header IPC_MAGIC IPC_VERSION (rq_type rq) (rq_id rq) (Z.of_nat (length (rq_payload rq))) (rq_flags rq) 0).
  destruct (wp_elim readMessageHeader (fun o s1 => o = Some h /\ exists chunks, s1 = s <| se_conn ::= fun c => c <| cn_in := chunks |> |>
    /\ concat chunks = rq_payload rq ++ rest /\ chunked chunks) s) as (o & s1 & Hrun & -> & chunks & -> & Hcat & Hch).
  { apply (wp_header rq rest); [done..|]. eauto. }
  unfold processMessages. rewrite (bind_ret _ _ _ _ _ Hrun). cbn [hd_payloadSize hd_messageType hd_requestId h].
  destruct (decide (rq_payload rq = [])) as [He|Hne].
  - rewrite He. cbn [length Z.of_nat Z.ltb Z.compare]. erewrite bind_ret by reflexivity. cbn [negb]. rewrite He in Hcat.
    eexists. split; [|reflexivity]. split; try done. unfold seen. by rewrite He.
  - assert (Hpos : (0 < length (rq_payload rq))%nat) by (destruct (rq_payload rq); [done|cbn; lia]).
    rewrite (proj2 (Z.ltb_lt _ _)) by lia. rewrite line_alloc, Nat2Z.id. cbn [negb].
    set (s2 := _ <| se_conn ::= _ |>). set (grow := modify _).
    destruct (wp_elim (grow;; readPayload (length (rq_payload rq))) (fun ok s' => ok = true /\ received rq rest s s') s2)
      as (ok & s' & Hrun' & -> & Hrc).
    { apply wp_bind, wp_modify. apply (wp_payload rq rest); try done; [apply length_resize|]. intros s' Hd Hcl Ho Hb Hu' Hc'.
      split; [done|]. split; try done. rewrite Hb. unfold seen. by destruct (rq_payload rq). }
    rewrite (bind_ret _ _ _ _ _ Hrun'). cbn [negb]. eauto.
Qed.

Lemma after_payload_accepted type id s :
  type = HELLO \/ accepted (cn_clientId (se_conn s)) = true -> after_payload type id s = handle type id s.
Proof.
  intros Hacc. unfold after_payload. destruct (Z.eqb_spec type HELLO) as [->|Hne]; [done|].
  destruct Hacc as [?|Hacc]; [done|]. assert (E : authenticate s = Ret (true, s)) by (rewrite <-Hacc; reflexivity).
  by rewrite (bind_ret _ _ _ _ _ E).
Qed.

End answering.


(** The header that the next round reads, if it reads one. *)
Definition offered `{RtEnv, RtMemOS, IpcEnv} (s : Session) : option IpcMessageHeader :=
  match readMessageHeader s with Ret (h, _) => h | _ => None end.

(** C18. A client of another user cannot change the daemon, but can end it.
    Whatever bytes such a client sends and however the socket answers, a round
    of its connection returns and leaves the registry, the scheduler and the
    memory manager as they were, and the connection is kept only after a
    hello; unless the header asks for a payload that the receive buffer
    cannot grow to: the buffer grows before the user is looked at, and the
    exception is not caught. *)
Theorem stranger_changes_nothing `{RtEnv, RtMemOS, IpcEnv} s :
  accepted (cn_clientId (se_conn s)) = false ->
  if from_option (fun h => (0 <? hd_payloadSize h) && negb (ip_alloc (hd_payloadSize h))) false (offered s)
  then processMessages s = Fault Uncaught
  else exists r s', processMessages s = Ret (r, s') /\ se_daemon s' = se_daemon s
         /\ (r = true -> hd_messageType <$> offered s = Some HELLO).
Proof.
  intros Hacc. set (d := se_daemon s).
  set (same := fun s' => se_daemon s' = d /\ cn_clientId (se_conn s') = cn_clientId (se_conn s)).
  assert (Hread : forall len s1, same s1 -> wp (read_bytes len) (fun _ s' => same s') s1).
  { intros len s1 Hs1. unfold wp, read_bytes. by destruct (read_loop _ _ _ _) as [[got ok] rest]. }
  assert (Hhead : wp readMessageHeader (fun _ s' => same s') s).
  { apply wp_bind. eapply wp_mono; [by apply Hread|]. intros [bytes ok] s1 Hs1. repeat (apply wp_if; intros _); by apply wp_ret. }
  destruct (wp_elim _ _ _ Hhead) as (h & s1 & Hrun & Hs1). unfold offered. rewrite Hrun.
  unfold processMessages. rewrite (bind_ret _ _ _ _ _ Hrun). destruct h as [h|]; cbn [from_option fmap option_fmap option_map].
  2:{ exists false, s1. by destruct Hs1. }
  destruct (0 <? hd_payloadSize h) eqn:Hsize; cbn [andb];
    [destruct (ip_alloc (hd_payloadSize h)) eqn:Halloc; cbn [negb]; [|reflexivity]|].
  all: apply wp_elim, wp_bind; eapply (wp_mono _ (fun _ s' => same s')).
  1: apply wp_bind, wp_modify, wp_bind; eapply wp_mono; [by apply Hread|]; intros [b k] s2 Hs2; by apply wp_bind, wp_modify, wp_ret.
  2: by apply wp_ret.
  all: intros k s2 [Hd2 Hc2]; apply wp_if; intros _; [by apply wp_ret|]; apply wp_bind, wp_if; intros Ht; [apply Z.eqb_eq in Ht|].
  1,3: apply wp_ret; cbn [negb]; rewrite Ht; apply wp_bind; eapply wp_intro; [reflexivity|]; by apply wp_ret.
  all: apply wp_authenticate; rewrite Hc2, Hacc; cbn [negb]; apply wp_bind, wp_bind; eapply wp_intro; [reflexivity|];
    by apply wp_ret, wp_ret.
Qed.

(** A request for 4096 bytes that arrives in two pieces. *)
Module Exchange.
Import TwoCards LinearSystem.

#[export] Instance env : IpcEnv := {|
  ip_send := fun _ len => Z.of_nat len;
  ip_alloc := fun _ => true;
  ip_peer := fun clientId => Some (if clientId =? 1 then 0 else 1000);
  ip_uid := 0;
  ip_gpu := fun w => le_bytes 4 (wg_id w) ++ le_bytes 8 (wg_vram_total w);
  ip_logical := fun w => le_bytes 4 (wl_gpu_count w)
|}.

#[export] Instance line : IpcLine.
Proof. split; [done..| |]; intros w; cbn -[le_bytes]; rewrite ?length_app, !length_le_bytes; lia. Qed.

Definition daemon : Daemon := mk_daemon TwoCards.reg Scheduler_new (MemoryManager_new {[5]}).

Lemma daemon_fits : daemon_ok {[5]} daemon.
Proof. split; [done|apply owned_new|exists []; apply waiting_new|]. intros id p. cbn. by rewrite lookup_empty. Qed.

Definition rq : request := mk_request ALLOC_MEMORY 77 1 (le_bytes 8 4096).
Definition hello : request := mk_request HELLO 78 1 [].

Definition session (clientId : Z) : Session :=
  mk_session ((Connection_new clientId) <| cn_in := [take 10 (wire rq); drop 10 (wire rq) ++ wire hello] |>) daemon.


(** The same bytes from a client of user 1000. *)
Lemma stranger_changes_nothing_witness :
  exists s', processMessages (session 2) = Ret (false, s') /\ se_daemon s' = daemon
    /\ cn_out (se_conn s') = frame ERROR 77 6 (be_bytes 4 6).
Proof.
  destruct (stranger_changes_nothing (session 2)) as (r & s' & Hrun & Hd & _); [done..|].
  assert (Hc : match processMessages (session 2) with
               | Ret (a, x) => a = false /\ cn_out (se_conn x) = frame ERROR 77 6 (be_bytes 4 6)
               | _ => False end) by (vm_compute; auto).
  rewrite Hrun in Hc. destruct Hc as [-> Hc]. by exists s'.
Defined.

End Exchange.
