(* ===== verification/RtPeers.v ===== *)
(** * Discovery of other nodes by the runtime daemon

    runtime/daemon/ipc_server.cpp, the part for the network: the datagram of
    an announcement, the table of peers with their connection states, the
    sockets of the peers, and one round of the discovery thread.  The mutex of
    the table is part of the state, because one handler takes it twice. *)

From S2P Require Import Prelude Float32 RtDevices RtScheduler RtIpc.
From stdpp Require Import strings.
Local Open Scope Z_scope.

(** ** Data (ipc_server.hpp) *)

Inductive PeerState : Type := DISCOVERED | CONNECTED | ACTIVE | DISCONNECTED.
#[export] Instance peer_state_eq_dec : EqDecision PeerState.
Proof. solve_decision. Defined.

Definition ANNOUNCE : Z := 0.
Definition ANNOUNCE_REPLY : Z := 1.
Definition HEARTBEAT : Z := 2.
Definition HEARTBEAT_ACK : Z := 3.
Definition PEER_GOODBYE : Z := 4.
Definition GPU_ANNOUNCE : Z := 5.

Definition DISCOVERY_MAGIC : Z := 1297499972.
Definition DISCOVERY_VERSION : Z := 1.

Record DiscoveryMessageHeader : Type := mk_dmsg {
  dm_magic : Z;
  dm_version : Z;
  dm_messageType : Z;
  dm_senderNodeId : Z;
  dm_gpuCount : Z;
  dm_tcpPort : Z;
  dm_timestampNs : Z;
  dm_reserved : Z
}.

Record PeerInfo : Type := mk_peer {
  pe_nodeId : Z;
  pe_address : string;
  pe_tcpPort : Z;
  pe_state : PeerState;
  pe_gpuCount : Z;
  pe_lastSeenNs : Z;
  pe_lastHeartbeatNs : Z;
  pe_missedHeartbeats : Z;
  pe_tcpSocketFd : Z
}.
#[export] Instance peer_eta : Eta PeerInfo := fun r =>
  mk_peer (pe_nodeId r) (pe_address r) (pe_tcpPort r) (pe_state r) (pe_gpuCount r) (pe_lastSeenNs r)
    (pe_lastHeartbeatNs r) (pe_missedHeartbeats r) (pe_tcpSocketFd r).

(** ** The datagram *)

(** [htons] of the port is stored in a field of 32 bits. *)
Definition encode_dmsg (m : DiscoveryMessageHeader) : list Z :=
  be_bytes 4 (dm_magic m) ++ be_bytes 4 (dm_version m) ++ be_bytes 4 (dm_messageType m)
  ++ be_bytes 8 (dm_senderNodeId m) ++ be_bytes 4 (dm_gpuCount m) ++ (be_bytes 2 (dm_tcpPort m) ++ [0; 0])
  ++ be_bytes 8 (dm_timestampNs m) ++ be_bytes 4 (dm_reserved m).

Definition dmsg_size : nat := 40.

Definition decode_dmsg (l : list Z) : DiscoveryMessageHeader :=
  let field offset k := be_val (take k (drop offset l)) in
  mk_dmsg (field 0 4)%nat (field 4 4)%nat (field 8 4)%nat (field 12 8)%nat (field 20 4)%nat (field 24 2)%nat
    (field 28 8)%nat (field 36 4)%nat.

(** ** State *)

(** A datagram that was sent: to an address, or to all nodes. *)
Inductive datagram : Type :=
| Broadcast (m : DiscoveryMessageHeader)
| Directed (address : string) (m : DiscoveryMessageHeader).

(** [dc_locked]: the mutex of the table is held.  [dc_udp], [dc_tcp]: the
    sockets of the server are open.  [dc_sockets]: the sockets of peers that
    are open.  The times are those of the last announcement, round of
    heartbeats and pruning. *)
Record Discovery : Type := mk_discovery {
  dc_nodeId : Z;
  dc_tcpPort : Z;
  dc_udp : bool;
  dc_tcp : bool;
  dc_enabled : bool;
  dc_peers : gmap Z PeerInfo;
  dc_locked : bool;
  dc_registry : DeviceRegistry;
  dc_sockets : gset Z;
  dc_sent : list datagram;
  dc_lastAnnounce : Z;
  dc_lastHeartbeat : Z;
  dc_lastPrune : Z;
  dc_ticks : nat
}.
#[export] Instance discovery_eta : Eta Discovery := fun r =>
  mk_discovery (dc_nodeId r) (dc_tcpPort r) (dc_udp r) (dc_tcp r) (dc_enabled r) (dc_peers r) (dc_locked r)
    (dc_registry r) (dc_sockets r) (dc_sent r) (dc_lastAnnounce r) (dc_lastHeartbeat r) (dc_lastPrune r) (dc_ticks r).

Abbreviation DM := (M Discovery).

(** [std::lock_guard] around a block. *)
Definition locked {A : Type} (m : DM A) : DM A :=
  s ← get;
  if dc_locked s then fails SelfDeadlock else
  put (s <| dc_locked := true |>);;
  a ← m;
  modify (fun s => s <| dc_locked := false |>);; mret a.

Definition set_peer (nodeId : Z) (f : PeerInfo -> PeerInfo) : DM unit :=
  modify (fun s => s <| dc_peers ::= alter f nodeId |>).

Definition find_peer (nodeId : Z) : DM (option PeerInfo) := reads (fun s => dc_peers s !! nodeId).

Section discovery.
Context `{RtEnv}.

(** The monotonic clock, in nanoseconds. *)
Definition now_ns : DM Z := fun s => Ret (u64 (rt_clock (dc_ticks s)), s <| dc_ticks ::= S |>).

(** ** Sending *)

Definition own_message (type : Z) : DM DiscoveryMessageHeader :=
  t ← now_ns;
  s ← get;
  mret (mk_dmsg DISCOVERY_MAGIC DISCOVERY_VERSION type (dc_nodeId s) 0 (dc_tcpPort s) t 0).

(** [sendto] of a datagram is one call; the result is not used. *)
Definition emit (d : datagram) : DM unit := modify (fun s => s <| dc_sent ::= fun l => l ++ [d] |>).

Definition sendDiscoveryAnnounce : DM unit :=
  s ← get;
  if negb (dc_udp s) then mret tt else
  m ← own_message ANNOUNCE; emit (Broadcast m).

(** The addresses of the table are those that [inet_ntop] printed, which
    [inet_pton] reads. *)
Definition sendHeartbeat (peer : PeerInfo) : DM unit :=
  s ← get;
  if negb (dc_udp s) then mret tt else
  m ← own_message HEARTBEAT; emit (Directed (pe_address peer) m).

(** ** The table of peers *)

Fixpoint add_remote_gpus (k : nat) (i : Z) (peer : PeerInfo) (r : DeviceRegistry) : DeviceRegistry :=
  match k with
  | O => r
  | S k' => add_remote_gpus k' (i + 1) peer (addRemoteGpu (pe_nodeId peer) i 0 0 0 0 0 0 true true (pe_address peer) r).2
  end.

Definition notifyRemoteGpuDiscovered (peer : PeerInfo) : DM unit :=
  modify (fun s => s <| dc_registry ::= add_remote_gpus (Z.to_nat (pe_gpuCount peer)) 0 peer |>).

Definition announced (address : string) (tcpPort gpuCount now : Z) (p : PeerInfo) : PeerInfo :=
  p <| pe_address := address |> <| pe_tcpPort := tcpPort |> <| pe_gpuCount := gpuCount |> <| pe_lastSeenNs := now |>
    <| pe_state ::= fun st => match st with DISCOVERED => CONNECTED | _ => st end |> <| pe_missedHeartbeats := 0 |>.

Definition handlePeerAnnouncement (nodeId : Z) (address : string) (tcpPort gpuCount : Z) : DM unit :=
  s ← get;
  if nodeId =? dc_nodeId s then mret tt else
  locked (
    it ← find_peer nodeId;
    match it with
    | Some _ => now ← now_ns; set_peer nodeId (announced address tcpPort gpuCount now)
    | None =>
        now ← now_ns;
        let newPeer := mk_peer nodeId address tcpPort DISCOVERED gpuCount now now 0 (-1) in
        modify (fun s => s <| dc_peers ::= <[nodeId := newPeer]> |>);;
        notifyRemoteGpuDiscovered newPeer
    end).

(** A sign of life. *)
Definition refreshed (now : Z) (p : PeerInfo) : PeerInfo :=
  p <| pe_lastSeenNs := now |> <| pe_missedHeartbeats := 0 |>
    <| pe_state ::= fun st => match st with CONNECTED => ACTIVE | _ => st end |>.

Definition departed (p : PeerInfo) : PeerInfo := p <| pe_state := DISCONNECTED |>.

(** [address] is the sender's. *)
Definition processDiscoveryMessage (address : string) (msg : DiscoveryMessageHeader) : DM unit :=
  let type := dm_messageType msg in
  let nodeId := dm_senderNodeId msg in
  let announce := handlePeerAnnouncement nodeId address (dm_tcpPort msg) (dm_gpuCount msg) in
  if type =? ANNOUNCE then announce;; sendDiscoveryAnnounce else
  if (type =? ANNOUNCE_REPLY) || (type =? GPU_ANNOUNCE) then announce else
  s ← get;
  if type =? HEARTBEAT then
    if nodeId =? dc_nodeId s then mret tt else
    locked (
      it ← find_peer nodeId;
      match it with
      | Some _ => now ← now_ns; set_peer nodeId (refreshed now)
      | None => announce
      end)
  else if type =? HEARTBEAT_ACK then
    if nodeId =? dc_nodeId s then mret tt else
    locked (
      it ← find_peer nodeId;
      match it with
      | Some _ => now ← now_ns; set_peer nodeId (refreshed now)
      | None => mret tt
      end)
  else if type =? PEER_GOODBYE then locked (set_peer nodeId departed)
  else mret tt.

(** The first peer, in the order of the hash table, that has the address and
    no socket. *)
Definition waiting_peer (addr : string) (s : Discovery) (nodeId : Z) : bool :=
  match dc_peers s !! nodeId with
  | Some p => bool_decide (pe_address p = addr) && (pe_tcpSocketFd p <? 0)
  | None => false
  end.

Definition attached (peerFd : Z) (p : PeerInfo) : PeerInfo :=
  p <| pe_tcpSocketFd := peerFd |> <| pe_state ::= fun st => match st with DISCOVERED => CONNECTED | _ => st end |>.

(** What [accept4] gives: a socket and the address of its peer, nothing to
    accept, or an error. *)
Inductive peer_accept : Type := PA_PEER (fd : Z) (addr : string) | PA_WOULD_BLOCK | PA_FAILED.

Definition acceptPeerTcpConnection (result : peer_accept) (order : gmap Z PeerInfo -> list Z) : DM bool :=
  s ← get;
  if negb (dc_tcp s) then mret false else
  match result with
  | PA_WOULD_BLOCK => mret true
  | PA_FAILED => mret false
  | PA_PEER peerFd addr =>
      modify (fun s => s <| dc_sockets ::= fun l => {[peerFd]} ∪ l |>);;
      found ← locked (
        s ← get;
        match filter (fun id => waiting_peer addr s id = true) (order (dc_peers s)) with
        | id :: _ => set_peer id (attached peerFd);; mret true
        | [] => mret false
        end);
      if found : bool then mret true else
      modify (fun s => s <| dc_sockets ::= fun l => l ∖ {[peerFd]} |>);; mret true
  end.

Definition stale (nowNs timeoutNs : Z) (p : PeerInfo) : bool :=
  let elapsed := if pe_lastSeenNs p <? nowNs then nowNs - pe_lastSeenNs p else 0 in
  (timeoutNs <? elapsed) || (24 <? pe_missedHeartbeats p).

(** One peer after another: its socket is closed and its entry removed. *)
Definition drop_peer (nodeId : Z) (s : Discovery) : Discovery :=
  match dc_peers s !! nodeId with
  | None => s
  | Some p =>
      s <| dc_sockets ::= fun l => if 0 <=? pe_tcpSocketFd p then l ∖ {[pe_tcpSocketFd p]} else l |>
        <| dc_peers ::= delete nodeId |>
  end.

Definition pruneStalePeers (timeoutNs : Z) : DM unit :=
  locked (
    nowNs ← now_ns;
    modify (fun s => foldr drop_peer s
      (map_to_list (filter (fun kv => stale nowNs timeoutNs kv.2 = true) (dc_peers s))).*1)).

Definition peerCount (s : Discovery) : nat := size (dc_peers s).
Definition getPeers (order : gmap Z PeerInfo -> list Z) (s : Discovery) : list PeerInfo :=
  omap (fun id => dc_peers s !! id) (order (dc_peers s)).
Definition getPeerState (nodeId : Z) (s : Discovery) : PeerState :=
  match dc_peers s !! nodeId with None => DISCONNECTED | Some p => pe_state p end.
Definition updatePeerState (nodeId : Z) (newState : PeerState) : DM unit :=
  locked (set_peer nodeId (fun p => p <| pe_state := newState |>)).

(** ** The thread *)

Definition connected (p : PeerInfo) : bool := match pe_state p with ACTIVE | CONNECTED => true | _ => false end.

(** A heartbeat for each connected peer, in the order of the hash table. *)
Fixpoint send_heartbeats (order : list Z) : DM unit :=
  match order with
  | [] => mret tt
  | id :: rest =>
      it ← find_peer id;
      (match it with
       | Some p =>
           if connected p then
             sendHeartbeat p;;
             now ← now_ns;
             set_peer id (fun p => p <| pe_lastHeartbeatNs := now |>
               <| pe_missedHeartbeats ::= fun n => u32 (n + 1) |>)
           else mret tt
       | None => mret tt
       end);;
      send_heartbeats rest
  end.

Definition HEARTBEAT_INTERVAL : Z := 5000000000.
Definition ANNOUNCE_INTERVAL : Z := 30000000000.
Definition PRUNE_INTERVAL : Z := 60000000000.
Definition PEER_TIMEOUT_NS : Z := 120000000000.

(** What [poll] reports: a datagram with the address of its sender, and a
    connection. *)
Record polled : Type := mk_polled { po_datagram : option (string * list Z); po_connection : option peer_accept }.

(** One pass of the loop. *)
Definition discovery_round (p : polled) (order : gmap Z PeerInfo -> list Z) : DM unit :=
  now ← now_ns;
  s ← get;
  (if ANNOUNCE_INTERVAL <=? now - dc_lastAnnounce s then
     sendDiscoveryAnnounce;; modify (fun s => s <| dc_lastAnnounce := now |>) else mret tt);;
  (if HEARTBEAT_INTERVAL <=? now - dc_lastHeartbeat s then
     locked (s ← get; send_heartbeats (order (dc_peers s)));;
     t ← now_ns;
     modify (fun s => s <| dc_lastHeartbeat := t |>) else mret tt);;
  (match po_datagram p with
   | Some (address, bytes) =>
       if (dmsg_size <=? length bytes)%nat then
         let msg := decode_dmsg bytes in
         if dm_magic msg =? DISCOVERY_MAGIC then processDiscoveryMessage address msg else mret tt
       else mret tt
   | None => mret tt
   end);;
  (match po_connection p with
   | Some r => acceptPeerTcpConnection r order;; mret tt
   | None => mret tt
   end);;
  (if PRUNE_INTERVAL <=? now - dc_lastPrune s then
     pruneStalePeers PEER_TIMEOUT_NS;; modify (fun s => s <| dc_lastPrune := now |>) else mret tt).

(** The thread has ended before the sockets are closed; the sockets of the
    peers stay open. *)
Definition finiNetworkDiscovery : DM unit :=
  s ← get;
  if negb (dc_enabled s) then mret tt else
  put (s <| dc_enabled := false |> <| dc_udp := false |> <| dc_tcp := false |>);;
  locked (modify (fun s => s <| dc_peers := ∅ |>)).

End discovery.
