(* ===== verification/RtPeerTable.v ===== *)
(** * The table of peers

    Theory of [RtPeers]: a round of the discovery thread keeps the table and
    the sockets of the peers consistent, and the state of a peer only moves
    forward. *)

From S2P Require Import Prelude Float32 RtDevices RtScheduler RtOwnership RtIpc RtAnswers RtPeers.
From stdpp Require Import strings.
Local Open Scope Z_scope.

(** ** The datagram *)

Lemma be_val_bytes_k k z : 0 <= z < 256 ^ Z.of_nat k -> be_val (be_bytes k z) = z.
Proof. intros Hz. unfold be_val, be_bytes. rewrite reverse_involutive. by apply le_val_bytes. Qed.

Definition dmsg_ok (m : DiscoveryMessageHeader) : Prop :=
  is_u32 (dm_magic m) /\ is_u32 (dm_version m) /\ is_u32 (dm_messageType m) /\ is_u64 (dm_senderNodeId m)
  /\ is_u32 (dm_gpuCount m) /\ 0 <= dm_tcpPort m < 65536 /\ is_u64 (dm_timestampNs m) /\ is_u32 (dm_reserved m).

Lemma be_skip n k z (l : list Z) : (k <= n)%nat -> drop n (be_bytes k z ++ l) = drop (n - k) l.
Proof.
  intros Hle. replace n with (length (be_bytes k z) + (n - k))%nat at 1 by (rewrite length_be_bytes; lia).
  by rewrite drop_app_add.
Qed.

Lemma zeros_skip n (l : list Z) : (2 <= n)%nat -> drop n ([0; 0] ++ l) = drop (n - 2) l.
Proof. destruct n as [|[|n]]; [lia..|]. intros _. cbn. by rewrite Nat.sub_0_r. Qed.

Lemma be_field k z (l : list Z) : 0 <= z < 256 ^ Z.of_nat k -> be_val (take k (drop 0 (be_bytes k z ++ l))) = z.
Proof. intros Hz. rewrite drop_0, take_app_length' by (by rewrite length_be_bytes). by apply be_val_bytes_k. Qed.

(** A node reads what another sent. *)
Lemma dmsg_roundtrip m rest : dmsg_ok m -> decode_dmsg (encode_dmsg m ++ rest) = m.
Proof.
  unfold dmsg_ok, is_u32, is_u64, U32_MAX, U64_MAX. intros (H1 & H2 & H3 & H4 & H5 & H6 & H7 & H8).
  unfold decode_dmsg, encode_dmsg. rewrite <-!(assoc_L (++)). cbv zeta. destruct m as [a b c d e f g h].
  f_equal; cbn [dm_magic dm_version dm_messageType dm_senderNodeId dm_gpuCount dm_tcpPort dm_timestampNs dm_reserved] in *;
    repeat (first [rewrite be_skip by lia; cbn [Nat.sub] | rewrite zeros_skip by lia; cbn [Nat.sub]]);
    apply be_field; cbn; lia.
Qed.

(** ** The invariant *)

(** The node is not its own peer, an entry is under its number, and the open
    sockets are those of the entries, one each. *)
Record table_ok (self : Z) (peers : gmap Z PeerInfo) (sockets : gset Z) : Prop := {
  tk_self : peers !! self = None;
  tk_key k p : peers !! k = Some p -> pe_nodeId p = k;
  tk_open f : f ∈ sockets <-> exists k p, peers !! k = Some p /\ pe_tcpSocketFd p = f /\ 0 <= f;
  tk_one k p k' p' : peers !! k = Some p -> peers !! k' = Some p' -> 0 <= pe_tcpSocketFd p ->
    pe_tcpSocketFd p = pe_tcpSocketFd p' -> k = k'
}.

Definition rank (st : PeerState) : nat :=
  match st with DISCOVERED => 0 | CONNECTED => 1 | ACTIVE => 2 | DISCONNECTED => 3 end.

(** ** What becomes of an entry *)

Definition no_peer (_ : Z) : Prop := False.

(** Between two readings of the clock, the state of an entry does not move
    back.  Either no message of the peer came, and then the time at which it
    was last seen is the old one and its count of missed heartbeats is the old
    one, or one more if a heartbeat was sent to it; or a message came, and
    then the peer was last seen at a reading between the two and has missed
    none. *)
Record evolves `{RtEnv} (beats hears : Z -> Prop) (first last : nat) (k : Z) (q q' : PeerInfo) : Prop := {
  ev_rank : (rank (pe_state q) <= rank (pe_state q'))%nat;
  ev_seen :
    (pe_lastSeenNs q' = pe_lastSeenNs q
     /\ (pe_missedHeartbeats q' = pe_missedHeartbeats q
         \/ beats k /\ pe_missedHeartbeats q' = u32 (pe_missedHeartbeats q + 1)))
    \/ (hears k /\ (exists t, (first <= t < last)%nat /\ pe_lastSeenNs q' = u64 (rt_clock t))
        /\ pe_missedHeartbeats q' = 0)
}.

(** No peer is lost. *)
Definition keeps (R : Z -> PeerInfo -> PeerInfo -> Prop) (peers peers' : gmap Z PeerInfo) : Prop :=
  forall k p, peers !! k = Some p -> exists p', peers' !! k = Some p' /\ R k p p'.

Lemma keeps_trans (R1 R2 R3 : Z -> PeerInfo -> PeerInfo -> Prop) p1 p2 p3 :
  (forall k p p' p'', R1 k p p' -> R2 k p' p'' -> R3 k p p'') -> keeps R1 p1 p2 -> keeps R2 p2 p3 -> keeps R3 p1 p3.
Proof. intros HR H12 H23 k p Hk. destruct (H12 k p Hk) as (p' & Hk' & ?). destruct (H23 k p' Hk') as (p'' & ? & ?). exists p''. split; [done|by eapply HR]. Qed.

Lemma keeps_alter (R : Z -> PeerInfo -> PeerInfo -> Prop) f k peers :
  (forall j p, R j p p) -> (forall p, R k p (f p)) -> keeps R peers (alter f k peers).
Proof.
  intros Hr Hf j p Hj. destruct (decide (k = j)) as [->|Hne].
  - exists (f p). by rewrite lookup_alter_eq, Hj.
  - exists p. by rewrite lookup_alter_ne.
Qed.

Lemma evolves_refl `{RtEnv} B H' lo hi k q : evolves B H' lo hi k q q.
Proof. split; [done|left; auto]. Qed.

Lemma evolves_mono `{RtEnv} (B B' H' H'' : Z -> Prop) lo lo' hi hi' k q q' :
  (B k -> B' k) -> (H' k -> H'' k) -> (lo' <= lo)%nat -> (hi <= hi')%nat -> evolves B H' lo hi k q q' -> evolves B' H'' lo' hi' k q q'.
Proof.
  intros HB HH Hlo Hhi [Hr [[? [?|[? ?]]]|(? & (t & ? & ?) & ?)]]; split; try done; [left; auto..|].
  right. split_and!; [auto| |done]. exists t. split; [lia|done].
Qed.

(** A heartbeat is sent before the messages of the round are read, and once. *)
Lemma evolves_comp `{RtEnv} (B1 B2 H1 H2 B3 H3 : Z -> Prop) n1 n2 n3 k q1 q2 q3 :
  (n1 <= n2 <= n3)%nat -> (B1 k -> B3 k) -> (B2 k -> B3 k /\ ~ B1 k /\ ~ H1 k) -> (H1 k -> H3 k) -> (H2 k -> H3 k) ->
  evolves B1 H1 n1 n2 k q1 q2 -> evolves B2 H2 n2 n3 k q2 q3 -> evolves B3 H3 n1 n3 k q1 q3.
Proof.
  intros Hn HB1 HB2 HH1 HH2 [Hr1 E1] [Hr2 E2]. split; [lia|].
  destruct E2 as [[Hs2 Hm2]|(Hh & (t & Ht & Hs2) & Hm2)].
  - destruct E1 as [[Hs1 Hm1]|(Hh & (t & Ht & Hs1) & Hm1)].
    + left. split; [congruence|]. destruct Hm1 as [Hm1|[Hb1 Hm1]], Hm2 as [Hm2|[Hb2 Hm2]]; rewrite Hm2, ?Hm1; naive_solver.
    + right. split_and!; [auto|exists t; split; [lia|congruence]|]. destruct Hm2 as [->|[Hb _]]; [done|naive_solver].
  - right. split_and!; [auto|exists t; split; [lia|done]|done].
Qed.

Lemma table_alter self peers sockets f k :
  table_ok self peers sockets ->
  (forall p, pe_nodeId (f p) = pe_nodeId p) -> (forall p, pe_tcpSocketFd (f p) = pe_tcpSocketFd p) ->
  table_ok self (alter f k peers) sockets.
Proof.
  intros [H1 H2 H3 H4] Hn Hs.
  assert (Ha : forall j p, alter f k peers !! j = Some p ->
    exists p0, peers !! j = Some p0 /\ pe_nodeId p = pe_nodeId p0 /\ pe_tcpSocketFd p = pe_tcpSocketFd p0).
  { intros j p. destruct (decide (k = j)) as [->|Hne].
    - rewrite lookup_alter_eq. intros (p0 & Hp0 & ->)%fmap_Some. eauto.
    - rewrite lookup_alter_ne by done. eauto. }
  split.
  - destruct (decide (k = self)) as [->|Hne]; [by rewrite lookup_alter_eq, H1|by rewrite lookup_alter_ne].
  - intros j p (p0 & Hp0 & -> & _)%Ha. eauto.
  - intros g. rewrite H3. split.
    + intros (j & p & Hj & Hf & Hg). destruct (decide (k = j)) as [->|Hne].
      * exists j, (f p). rewrite lookup_alter_eq, Hj, Hs. done.
      * exists j, p. by rewrite lookup_alter_ne.
    + intros (j & p & (p0 & Hp0 & _ & Hp)%Ha & Hf & Hg). exists j, p0. split_and!; congruence.
  - intros j p j' p' (p0 & Hp0 & _ & ->)%Ha (p0' & Hp0' & _ & ->)%Ha. eauto.
Qed.

Lemma table_insert self peers sockets k p :
  table_ok self peers sockets -> peers !! k = None -> k <> self -> pe_nodeId p = k -> pe_tcpSocketFd p = -1 ->
  table_ok self (<[k := p]> peers) sockets.
Proof.
  intros [H1 H2 H3 H4] Hk Hne Hn Hs. split.
  - by rewrite lookup_insert_ne.
  - intros j q [[<- <-]|[_ Hj]]%lookup_insert_Some; eauto.
  - intros g. rewrite H3. split.
    + intros (j & q & Hj & ?). exists j, q. rewrite lookup_insert_ne by congruence. done.
    + intros (j & q & [[<- <-]|[_ Hj]]%lookup_insert_Some & ? & ?); [lia|eauto].
  - intros j q j' q' [[<- <-]|[_ Hj]]%lookup_insert_Some [[<- <-]|[_ Hj']]%lookup_insert_Some; [lia..|eauto].
Qed.

Lemma table_attach self peers sockets k p fd :
  table_ok self peers sockets -> peers !! k = Some p -> pe_tcpSocketFd p < 0 -> 0 <= fd -> fd ∉ sockets ->
  table_ok self (alter (attached fd) k peers) ({[fd]} ∪ sockets).
Proof.
  intros [H1 H2 H3 H4] Hk Hp Hfd Hnew.
  assert (Ha : forall j q, alter (attached fd) k peers !! j = Some q <->
    (j = k /\ q = attached fd p) \/ (j <> k /\ peers !! j = Some q)).
  { intros j q. destruct (decide (k = j)) as [<-|Hne].
    - rewrite lookup_alter_eq, Hk. naive_solver.
    - rewrite lookup_alter_ne by done. naive_solver. }
  assert (Hno : forall j q, peers !! j = Some q -> pe_tcpSocketFd q <> fd).
  { intros j q Hj <-. apply Hnew, H3. eauto. }
  split.
  - rewrite lookup_alter_ne by congruence. done.
  - intros j q [[-> ->]|[_ Hj]]%Ha; [apply (H2 k p Hk)|eauto].
  - intros g. rewrite elem_of_union, elem_of_singleton, H3. split.
    + intros [->|(j & q & Hj & Hf & Hg)]; [exists k, (attached fd p); split; [apply Ha; auto|done]|].
      exists j, q. split; [|done]. apply Ha. right. split; [intros ->; simplify_eq; lia|done].
    + intros (j & q & [[-> ->]|[_ Hj]]%Ha & Hf & Hg); [left; by symmetry|right; eauto].
  - intros j q j' q' [[-> ->]|[_ Hj]]%Ha [[-> ->]|[_ Hj']]%Ha Hge Heq; [done| | |eauto]; exfalso.
    + by apply (Hno j' q').
    + by apply (Hno j q).
Qed.

Lemma table_drop s k :
  table_ok (dc_nodeId s) (dc_peers s) (dc_sockets s) ->
  table_ok (dc_nodeId s) (dc_peers (drop_peer k s)) (dc_sockets (drop_peer k s)).
Proof.
  unfold drop_peer. destruct (dc_peers s !! k) as [p|] eqn:Hk; [|done]. intros [H1 H2 H3 H4]. cbn. split.
  - apply lookup_delete_None. auto.
  - intros j q [_ Hj]%lookup_delete_Some. eauto.
  - intros g. assert (Hg : g ∈ (if 0 <=? pe_tcpSocketFd p then dc_sockets s ∖ {[pe_tcpSocketFd p]} else dc_sockets s)
      <-> g ∈ dc_sockets s /\ g <> pe_tcpSocketFd p).
    { destruct (Z.leb_spec 0 (pe_tcpSocketFd p)); [set_solver|]. split; [|naive_solver]. intros Hin. split; [done|].
      apply H3 in Hin as (j & q & _ & _ & ?). lia. }
    rewrite Hg, H3. setoid_rewrite lookup_delete_Some. split.
    + intros [(j & q & Hj & Hf & Hge) Hne]. exists j, q. split_and!; [congruence|done..].
    + intros (j & q & [Hne Hj] & Hf & Hge). split; [eauto|]. intros ->. apply Hne. subst. by eapply H4.
  - intros j q j' q' [_ Hj]%lookup_delete_Some [_ Hj']%lookup_delete_Some. eauto.
Qed.

(** ** The operations *)

Definition table (s : Discovery) : Prop := table_ok (dc_nodeId s) (dc_peers s) (dc_sockets s).

(** A step that keeps the table in order and loses no peer. *)
Record shifts `{RtEnv} (B H' : Z -> Prop) (s s' : Discovery) : Prop := {
  sf_table : table s';
  sf_keeps : keeps (evolves B H' (dc_ticks s) (dc_ticks s')) (dc_peers s) (dc_peers s');
  sf_ticks : (dc_ticks s <= dc_ticks s')%nat;
  sf_self : dc_nodeId s' = dc_nodeId s;
  sf_locked : dc_locked s' = dc_locked s
}.

Section moves.
Context `{RtEnv}.

(** The same, and no socket is opened or closed. *)
Record moves (B H' : Z -> Prop) (s s' : Discovery) : Prop := {
  mv_shifts :> shifts B H' s s';
  mv_sockets : dc_sockets s' = dc_sockets s
}.

Lemma shifts_comp (B1 B2 H1 H2 B3 H3 : Z -> Prop) s1 s2 s3 :
  (forall k, B1 k -> B3 k) -> (forall k, B2 k -> B3 k /\ ~ B1 k /\ ~ H1 k) -> (forall k, H1 k -> H3 k) -> (forall k, H2 k -> H3 k) ->
  shifts B1 H1 s1 s2 -> shifts B2 H2 s2 s3 -> shifts B3 H3 s1 s3.
Proof.
  intros ? ? ? ? [] []. split; [done| |lia|congruence..]. eapply keeps_trans; [|done..].
  intros k q q' q'' Hq Hq'. eapply evolves_comp; [..|exact Hq|exact Hq']; auto.
Qed.

Lemma moves_comp (B1 B2 H1 H2 B3 H3 : Z -> Prop) s1 s2 s3 :
  (forall k, B1 k -> B3 k) -> (forall k, B2 k -> B3 k /\ ~ B1 k /\ ~ H1 k) -> (forall k, H1 k -> H3 k) -> (forall k, H2 k -> H3 k) ->
  moves B1 H1 s1 s2 -> moves B2 H2 s2 s3 -> moves B3 H3 s1 s3.
Proof. intros HB1 HB2 HH1 HH2 [H12 ?] [H23 ?]. split; [|congruence]. exact (shifts_comp _ _ _ _ _ _ _ _ _ HB1 HB2 HH1 HH2 H12 H23). Qed.

Lemma moves_trans B H' s1 s2 s3 : moves B H' s1 s2 -> moves no_peer H' s2 s3 -> moves B H' s1 s3.
Proof. apply moves_comp; by auto. Qed.

(** Only the clock, the datagrams, the registry or the times change. *)
Lemma moves_same B H' s s' :
  table s -> dc_peers s' = dc_peers s -> dc_sockets s' = dc_sockets s -> dc_nodeId s' = dc_nodeId s ->
  dc_locked s' = dc_locked s -> (dc_ticks s <= dc_ticks s')%nat -> moves B H' s s'.
Proof.
  intros Ht Hp Hs Hn Hl Hc. split; [|done]. split; [unfold table; by rewrite Hp, Hs, Hn| |done..].
  rewrite Hp. intros k q Hk. exists q. split; [done|apply evolves_refl].
Qed.

Lemma moves_refl B H' s : table s -> moves B H' s s.
Proof. intros. by apply moves_same. Qed.

(** The clock is read, and then an entry changes. *)
Lemma moves_peer B H' s f k :
  table s -> (forall p, pe_nodeId (f p) = pe_nodeId p) -> (forall p, pe_tcpSocketFd (f p) = pe_tcpSocketFd p) ->
  (forall p, evolves B H' (dc_ticks s) (S (dc_ticks s)) k p (f p)) -> moves B H' s (s <| dc_ticks ::= S |> <| dc_peers ::= alter f k |>).
Proof.
  intros Ht Hn Hs Hr. split; [|done]. split; [by apply table_alter| |cbn; lia|done..]. apply keeps_alter; [intros; apply evolves_refl|done].
Qed.

Lemma wp_locked {A : Type} B H' (m : DM A) s :
  dc_locked s = false ->
  wp m (fun _ s' => moves B H' (s <| dc_locked := true |>) s') (s <| dc_locked := true |>) ->
  wp (locked m) (fun _ s' => moves B H' s s') s.
Proof.
  intros Hl Hm. unfold locked. apply wp_bind, wp_get. rewrite Hl. apply wp_bind. eapply wp_intro; [reflexivity|].
  apply wp_bind. eapply wp_mono; [exact Hm|]. intros a s' [[Ht Hk Hc Hn Hlk] Hsk]. apply wp_bind, wp_modify, wp_ret.
  split; [|done]. by split.
Qed.

(** A sequence of moves. *)
Lemma wp_then {A C : Type} B H' (m : DM A) (f : A -> DM C) s :
  wp m (fun _ s' => moves B H' s s') s -> (forall a s', moves B H' s s' -> wp (f a) (fun _ s'' => moves no_peer H' s' s'') s') ->
  wp (m ≫= f) (fun _ s'' => moves B H' s s'') s.
Proof.
  intros Hm Hf. apply wp_bind. eapply wp_mono; [exact Hm|]. intros a s' Hs. eapply wp_mono; [by apply Hf|].
  intros b s'' Hs'. exact (moves_trans _ _ _ _ _ Hs Hs').
Qed.

End moves.

Section operations.
Context `{RtEnv}.

Lemma wp_now (Q : Z -> Discovery -> Prop) s : Q (u64 (rt_clock (dc_ticks s))) (s <| dc_ticks ::= S |>) -> wp now_ns Q s.
Proof. intros HQ. apply HQ. Qed.

Lemma send_moves B H' type (d : DiscoveryMessageHeader -> datagram) s :
  table s -> wp (s ← get; if negb (dc_udp s) then mret tt else m ← own_message type; emit (d m)) (fun _ s' => moves B H' s s') s.
Proof.
  intros Ht. apply wp_bind, wp_get, wp_if; intros _; [by apply wp_ret, moves_refl|].
  unfold own_message, emit. apply wp_bind, wp_bind, wp_now, wp_bind, wp_get, wp_ret, wp_modify. apply moves_same; try done. cbn. lia.
Qed.

(** A message of peer [k] came. *)
Lemma evolves_heard B k n q q' :
  (rank (pe_state q) <= rank (pe_state q'))%nat -> pe_lastSeenNs q' = u64 (rt_clock n) -> pe_missedHeartbeats q' = 0 ->
  evolves B (eq k) n (S n) k q q'.
Proof. intros Hr Hs Hm. split; [done|right]. split_and!; [done| |done]. exists n. split; [lia|done]. Qed.

Lemma announcement_moves nodeId address tcpPort gpuCount s :
  table s -> dc_locked s = false ->
  wp (handlePeerAnnouncement nodeId address tcpPort gpuCount) (fun _ s' => moves no_peer (eq nodeId) s s') s.
Proof.
  intros Ht Hl. unfold handlePeerAnnouncement. apply wp_bind, wp_get, wp_if; intros Hid; [by apply wp_ret, moves_refl|].
  apply Z.eqb_neq in Hid. apply wp_locked; [done|].
  set (s1 := s <| dc_locked := true |>). assert (Ht1 : table s1) by exact Ht. apply wp_bind, wp_reads.
  destruct (dc_peers s1 !! nodeId) as [p|] eqn:Hp; apply wp_bind, wp_now.
  - apply wp_modify, moves_peer; [done..|]. intros q. apply evolves_heard; [destruct q as [? ? ? []]; cbn; lia|done..].
  - apply wp_bind, wp_modify, wp_modify. split; [|done]. split; [by apply table_insert| |cbn; lia|done..].
    intros k q Hk. exists q. split; [|apply evolves_refl]. cbn. rewrite lookup_insert_ne; [done|]. congruence.
Qed.

(** Not the heartbeat of a node that the table does not have. *)
Definition known_sender (s : Discovery) (msg : DiscoveryMessageHeader) : Prop :=
  dm_messageType msg = HEARTBEAT -> dm_senderNodeId msg = dc_nodeId s \/ is_Some (dc_peers s !! dm_senderNodeId msg).

Lemma refresh_moves k s :
  table s -> wp (now ← now_ns; set_peer k (refreshed now)) (fun _ s' => moves no_peer (eq k) s s') s.
Proof.
  intros Ht. apply wp_bind, wp_now, wp_modify, moves_peer; [done..|]. intros q. apply evolves_heard; [destruct q as [? ? ? []]; cbn; lia|done..].
Qed.

(** The farewell reads no clock. *)
Lemma depart_moves k s : table s -> wp (set_peer k departed) (fun _ s' => moves no_peer (eq k) s s') s.
Proof.
  intros Ht. apply wp_modify. split; [|done]. split; [by apply table_alter| |done..]. apply keeps_alter; [intros; apply evolves_refl|].
  intros q. split; [destruct q as [? ? ? []]; cbn; lia|left; auto].
Qed.

Lemma message_moves address msg s :
  table s -> dc_locked s = false -> known_sender s msg ->
  wp (processDiscoveryMessage address msg) (fun _ s' => moves no_peer (eq (dm_senderNodeId msg)) s s') s.
Proof.
  intros Ht Hl Hk. unfold processDiscoveryMessage. apply wp_if; intros H1.
  - apply wp_then; [by apply announcement_moves|]. intros _ s' [[Ht' _ _ _ _] _]. by apply (send_moves _ _ ANNOUNCE Broadcast).
  - apply wp_if; intros H2; [by apply announcement_moves|]. apply wp_bind, wp_get. apply wp_if; intros H3.
    { apply Z.eqb_eq in H3. apply wp_if; intros H4; [by apply wp_ret, moves_refl|]. apply Z.eqb_neq in H4.
      apply wp_locked; [done|].
      destruct (Hk H3) as [?|[p Hp]]; [done|]. apply wp_bind, wp_reads. cbn. rewrite Hp. by apply refresh_moves. }
    apply wp_if; intros H5.
    { apply wp_if; intros H6; [by apply wp_ret, moves_refl|]. apply wp_locked; [done|]. apply wp_bind, wp_reads.
      destruct (_ !! _); [by apply refresh_moves|]. by apply wp_ret, moves_refl. }
    apply wp_if; intros H7; [|by apply wp_ret, moves_refl]. apply wp_locked; [done|]. by apply depart_moves.
Qed.

Definition fresh_socket (s : Discovery) (r : peer_accept) : Prop :=
  match r with PA_PEER fd _ => 0 <= fd /\ fd ∉ dc_sockets s | _ => True end.

Lemma accept_moves r order s :
  table s -> dc_locked s = false -> fresh_socket s r -> wp (acceptPeerTcpConnection r order) (fun _ s' => shifts no_peer no_peer s s') s.
Proof.
  intros Ht Hl Hr. unfold acceptPeerTcpConnection. apply wp_bind, wp_get, wp_if; intros _; [by apply wp_ret, mv_shifts, moves_refl|].
  destruct r as [fd addr| |]; [|by apply wp_ret, mv_shifts, moves_refl..]. destruct Hr as [Hfd Hnew].
  apply wp_bind, wp_modify. unfold locked. apply wp_bind, wp_bind, wp_get. cbn [dc_locked upd]. cbn. rewrite Hl.
  apply wp_bind. eapply wp_intro; [reflexivity|]. apply wp_bind, wp_bind, wp_get. cbn.
  destruct (filter _ _) as [|k rest] eqn:Hf.
  - apply wp_ret, wp_bind, wp_modify, wp_ret, wp_bind, wp_modify, wp_ret. apply mv_shifts, moves_same; try done. cbn. set_solver.
  - assert (Hk : k ∈ k :: rest) by set_solver. rewrite <-Hf in Hk. apply list_elem_of_filter in Hk as [Hk _].
    unfold waiting_peer in Hk. cbn in Hk. destruct (dc_peers s !! k) as [p|] eqn:Hp; [|done].
    apply andb_true_iff in Hk as [_ Hneg%Z.ltb_lt]. apply wp_bind, wp_modify, wp_ret, wp_bind, wp_modify, wp_ret, wp_ret.
    split; [by apply (table_attach _ _ _ _ p)| |done..]. apply keeps_alter; [intros; apply evolves_refl|].
    intros q. split; [destruct q as [? ? ? []]; cbn; lia|left; auto].
Qed.

Lemma beat_moves k p s :
  table s -> wp (sendHeartbeat p;; now ← now_ns; set_peer k (fun p => p <| pe_lastHeartbeatNs := now |>
    <| pe_missedHeartbeats ::= fun n => u32 (n + 1) |>)) (fun _ s' => moves (eq k) no_peer s s') s.
Proof.
  intros Ht. apply wp_bind. eapply wp_mono; [by apply (send_moves no_peer no_peer HEARTBEAT (Directed (pe_address p)))|].
  intros u s' Hs. apply wp_bind, wp_now, wp_modify. eapply moves_comp; [..|exact Hs|apply (moves_peer (eq k) no_peer)].
  all: try done.
  - intros j <-. split_and!; [done|by intros []..].
  - apply Hs.
  - intros q. split; [done|left; auto].
Qed.

(** Each peer on the list is sent one heartbeat at most. *)
Lemma heartbeats_move order s :
  NoDup order -> table s -> wp (send_heartbeats order) (fun _ s' => moves (fun k => k ∈ order) no_peer s s') s.
Proof.
  intros Hd. revert s. induction Hd as [|k order Hk Hd IH]; intros s Ht; cbn [send_heartbeats]; [by apply wp_ret, moves_refl|].
  apply wp_bind, wp_reads, wp_bind. eapply (wp_mono _ (fun _ s' => moves (eq k) no_peer s s')).
  - destruct (dc_peers s !! k) as [p|]; [|by apply wp_ret, moves_refl]. apply wp_if; intros _; [|by apply wp_ret, moves_refl].
    by apply beat_moves.
  - intros u s' Hs. eapply wp_mono; [apply IH; apply Hs|]. intros u' s'' Hs'. eapply moves_comp; [..|exact Hs|exact Hs'].
    all: set_solver.
Qed.

(** ** Pruning *)

Lemma drop_peers_spec l s :
  table s -> let s' := foldr drop_peer s l in
  table s' /\ dc_nodeId s' = dc_nodeId s /\ dc_ticks s' = dc_ticks s
  /\ forall k, dc_peers s' !! k = if bool_decide (k ∈ l) then None else dc_peers s !! k.
Proof.
  intros Ht. induction l as [|j l IH]; cbn [foldr]; cbv zeta in *.
  - split_and!; [done..|]. intros k. by rewrite bool_decide_false by set_solver.
  - destruct IH as (Ht' & Hn & Hl & Hp). set (s1 := foldr drop_peer s l) in *.
    assert (Hd : dc_nodeId (drop_peer j s1) = dc_nodeId s1 /\ dc_ticks (drop_peer j s1) = dc_ticks s1
      /\ forall k, dc_peers (drop_peer j s1) !! k = if bool_decide (k = j) then None else dc_peers s1 !! k).
    { unfold drop_peer. destruct (dc_peers s1 !! j) as [p|] eqn:E.
      - split_and!; [done..|]. intros k. cbn. case_bool_decide as Hk; [subst; apply lookup_delete_eq|by rewrite lookup_delete_ne].
      - split_and!; [done..|]. intros k. case_bool_decide; congruence. }
    destruct Hd as (Hdn & Hdl & Hdp). split_and!; [|congruence..|].
    + unfold table. rewrite Hdn. by apply table_drop.
    + intros k. rewrite Hdp, Hp. repeat case_bool_decide; set_solver.
Qed.

(** Exactly the peers that are stale at the time of the call go. *)
Lemma prune_spec timeoutNs s :
  table s -> dc_locked s = false ->
  exists s', pruneStalePeers timeoutNs s = Ret (tt, s') /\ table s' /\ dc_locked s' = false /\ (dc_ticks s <= dc_ticks s')%nat
    /\ dc_peers s' = filter (fun kv => stale (u64 (rt_clock (dc_ticks s))) timeoutNs kv.2 = false) (dc_peers s).
Proof.
  intros Ht Hl. unfold pruneStalePeers, locked. erewrite bind_ret by reflexivity. rewrite Hl.
  do 2 (erewrite bind_ret by reflexivity). set (s1 := (s <| dc_locked := true |>) <| dc_ticks ::= S |>).
  set (l := (map_to_list (filter _ _)).*1). destruct (drop_peers_spec l s1 Ht) as (Ht' & Hn & Hc & Hp).
  eexists. split; [reflexivity|]. split_and!; [exact Ht'|done|cbn; rewrite Hc; cbn; lia|]. apply map_eq. intros k. cbn. rewrite Hp.
  assert (Hl' : k ∈ l <-> exists p, dc_peers s !! k = Some p /\ stale (u64 (rt_clock (dc_ticks s))) timeoutNs p = true).
  { unfold l. rewrite list_elem_of_fmap. split.
    - intros ([j p] & -> & Hin%elem_of_map_to_list). apply map_lookup_filter_Some in Hin as [Hj Hst]. eauto.
    - intros (p & Hk & Hst). exists (k, p). split; [done|]. apply elem_of_map_to_list, map_lookup_filter_Some. done. }
  change (dc_peers s1) with (dc_peers s). symmetry. case_bool_decide as Hk.
  - apply Hl' in Hk as (p & Hk & Hst). apply map_lookup_filter_None. right. intros q Hq. cbn. congruence.
  - destruct (dc_peers s !! k) as [p|] eqn:E; [|apply map_lookup_filter_None; auto]. apply map_lookup_filter_Some.
    split; [done|]. cbn. destruct (stale _ _ p) eqn:Hst; [|done]. destruct Hk. apply Hl'. eauto.
Qed.

(** ** A round *)

(** What a round may receive: no heartbeat of a node that the table lacks,
    and a socket that is new. *)
Definition admissible (s : Discovery) (p : polled) : Prop :=
  match po_datagram p with Some (_, bytes) => known_sender s (decode_dmsg bytes) | None => True end
  /\ match po_connection p with Some r => fresh_socket s r | None => True end.

Lemma known_later B H' s s' msg : moves B H' s s' -> known_sender s msg -> known_sender s' msg.
Proof.
  intros [[_ Hk _ Hn _] _] Hm Ht. rewrite Hn. destruct (Hm Ht) as [?|[q Hq]]; [by left|].
  right. destruct (Hk _ _ Hq) as (q' & Hq' & _). by exists q'.
Qed.

Lemma fresh_later B H' s s' r : moves B H' s s' -> fresh_socket s r -> fresh_socket s' r.
Proof. intros [_ Hs]. destruct r; cbn; by rewrite ?Hs. Qed.

(** The part before the connections: announcement, heartbeats, datagram. *)
Lemma announce_part (now last : Z) s :
  table s -> wp (if ANNOUNCE_INTERVAL <=? now - last then
     sendDiscoveryAnnounce;; modify (fun s => s <| dc_lastAnnounce := now |>) else mret tt) (fun _ s' => moves no_peer no_peer s s') s.
Proof.
  intros Ht. apply wp_if; intros _; [|by apply wp_ret, moves_refl]. apply wp_then; [by apply (send_moves _ _ ANNOUNCE Broadcast)|].
  intros _ s' [[Ht' _ _ _ _] _]. apply wp_modify. by apply moves_same.
Qed.

Lemma heartbeat_part (now last : Z) order s :
  (forall m : gmap Z PeerInfo, NoDup (order m)) -> table s -> dc_locked s = false ->
  wp (if HEARTBEAT_INTERVAL <=? now - last then
     locked (s ← get; send_heartbeats (order (dc_peers s)));; t ← now_ns;
     modify (fun s => s <| dc_lastHeartbeat := t |>) else mret tt) (fun _ s' => moves (fun _ => True) no_peer s s') s.
Proof.
  intros Ho Ht Hl. apply wp_if; intros _; [|by apply wp_ret, moves_refl]. apply wp_then.
  - apply wp_locked; [done|]. apply wp_bind, wp_get. eapply wp_mono; [by apply heartbeats_move|].
    intros u s' Hs. eapply moves_comp; [..|by apply (moves_refl no_peer no_peer)|exact Hs]; by auto.
  - intros _ s' [[Ht' _ _ _ _] _]. apply wp_bind, wp_now, wp_modify. apply moves_same; try done. cbn. lia.
Qed.

(** The node whose message the round reads. *)
Definition heard (p : polled) (k : Z) : Prop :=
  exists address bytes, po_datagram p = Some (address, bytes) /\ dm_senderNodeId (decode_dmsg bytes) = k.

Lemma datagram_part p s :
  table s -> dc_locked s = false ->
  match po_datagram p with Some (_, bytes) => known_sender s (decode_dmsg bytes) | None => True end ->
  wp (match po_datagram p with
   | Some (address, bytes) =>
       if (dmsg_size <=? length bytes)%nat then
         if dm_magic (decode_dmsg bytes) =? DISCOVERY_MAGIC then processDiscoveryMessage address (decode_dmsg bytes) else mret tt
       else mret tt
   | None => mret tt
   end) (fun _ s' => moves no_peer (heard p) s s') s.
Proof.
  intros Ht Hl Hk. unfold heard. destruct (po_datagram p) as [[address bytes]|]; [|by apply wp_ret, moves_refl].
  apply wp_if; intros _; [|by apply wp_ret, moves_refl]. apply wp_if; intros _; [|by apply wp_ret, moves_refl].
  eapply wp_mono; [by apply message_moves|]. intros u s' Hs. eapply moves_comp; [..|by apply (moves_refl no_peer no_peer)|exact Hs].
  1-3: by intros ? []. intros k <-. eauto.
Qed.

End operations.

(** What a round does to entry [q] of peer [k], from the first reading of the
    clock to the reading of number [t]. *)
Definition after_round `{RtEnv} (p : polled) (s : Discovery) (t : nat) : Z -> PeerInfo -> PeerInfo -> Prop :=
  evolves (fun _ => True) (heard p) (dc_ticks s) t.

(** Everything before the pruning. *)
Lemma exchange_moves `{RtEnv} p order s (rest : DM unit) (Q : unit -> Discovery -> Prop) :
  (forall m : gmap Z PeerInfo, NoDup (order m)) -> table s -> dc_locked s = false -> admissible s p ->
  (forall s', shifts (fun _ => True) (heard p) s s' -> wp rest Q s') ->
  let now := u64 (rt_clock (dc_ticks s)) in
  wp ((if ANNOUNCE_INTERVAL <=? now - dc_lastAnnounce s then
     sendDiscoveryAnnounce;; modify (fun s => s <| dc_lastAnnounce := now |>) else mret tt);;
  (if HEARTBEAT_INTERVAL <=? now - dc_lastHeartbeat s then
     locked (s ← get; send_heartbeats (order (dc_peers s)));; t ← now_ns;
     modify (fun s => s <| dc_lastHeartbeat := t |>) else mret tt);;
  (match po_datagram p with
   | Some (address, bytes) =>
       if (dmsg_size <=? length bytes)%nat then
         let msg := decode_dmsg bytes in
         if dm_magic msg =? DISCOVERY_MAGIC then processDiscoveryMessage address msg else mret tt
       else mret tt
   | None => mret tt
   end);;
  (match po_connection p with
   | Some r => acceptPeerTcpConnection r order;; mret tt
   | None => mret tt
   end);; rest) Q (s <| dc_ticks ::= S |>).
Proof.
  intros Ho Ht Hl [Had1 Had2] Hrest now. set (s0 := s <| dc_ticks ::= S |>).
  assert (H0 : moves no_peer no_peer s s0) by (apply moves_same; try done; cbn; lia).
  apply wp_bind. eapply wp_mono; [by apply announce_part|]. intros ? s1 H1. assert (M1 := moves_trans _ _ _ _ _ H0 H1).
  apply wp_bind. eapply wp_mono; [apply heartbeat_part; [done|apply M1|by rewrite (sf_locked _ _ _ _ M1)]|].
  intros ? s2 H2. assert (M2 : moves (fun _ => True) no_peer s s2) by (eapply moves_comp; [..|exact M1|exact H2]; by auto).
  apply wp_bind. eapply wp_mono; [apply datagram_part; [apply M2|by rewrite (sf_locked _ _ _ _ M2)|]|].
  { destruct (po_datagram p) as [[? ?]|]; [|done]. by eapply known_later. }
  intros ? s3 H3. assert (M3 : moves (fun _ => True) (heard p) s s3) by (eapply moves_comp; [..|exact M2|exact H3]; by auto).
  apply wp_bind. eapply (wp_mono _ (fun _ s4 => shifts (fun _ => True) (heard p) s s4)); [|intros _; exact Hrest].
  destruct (po_connection p) as [r|]; [|by apply wp_ret, mv_shifts]. apply wp_bind.
  eapply wp_mono; [apply accept_moves; [apply M3|by rewrite (sf_locked _ _ _ _ M3)|by eapply fresh_later]|].
  intros ? s4 H4. apply wp_ret. eapply shifts_comp; [..|exact M3|exact H4]; by auto.
Qed.

(** C20. A round of the discovery thread is safe.  Take a table in order, and
    any datagram and any connection on a new socket, except the heartbeat of an
    unknown node; the walk of the hash table meets a peer once at most.  The
    round ends with the mutex free and the table in order: the node is not its
    own peer, each entry is under its number, and the open sockets are those of
    the entries.  Every peer [k] of the table has an entry [q'] before the
    pruning, whose state has not moved back, and which was last seen when the
    old one was or, if the datagram is of [k], at a reading of the clock in
    this round.  The peer is removed exactly when a pruning is due and [q'] is
    stale at the reading [t] of the clock that the pruning takes; otherwise
    [q'] is its entry after the round. *)
Theorem discovery_round_safe `{RtEnv} p order s :
  (forall m : gmap Z PeerInfo, NoDup (order m)) -> table s -> dc_locked s = false -> admissible s p ->
  exists s' t, discovery_round p order s = Ret (tt, s') /\ table s' /\ dc_locked s' = false
    /\ (dc_ticks s <= t <= dc_ticks s')%nat
    /\ forall k q, dc_peers s !! k = Some q ->
         exists q', after_round p s t k q q'
           /\ dc_peers s' !! k =
                if (PRUNE_INTERVAL <=? u64 (rt_clock (dc_ticks s)) - dc_lastPrune s)
                   && stale (u64 (rt_clock t)) PEER_TIMEOUT_NS q'
                then None else Some q'.
Proof.
  intros Ho Ht Hl Had. set (due := PRUNE_INTERVAL <=? u64 (rt_clock (dc_ticks s)) - dc_lastPrune s).
  set (Q := fun (_ : unit) s' => exists t, table s' /\ dc_locked s' = false /\ (dc_ticks s <= t <= dc_ticks s')%nat
    /\ forall k q, dc_peers s !! k = Some q -> exists q', after_round p s t k q q'
         /\ dc_peers s' !! k = if due && stale (u64 (rt_clock t)) PEER_TIMEOUT_NS q' then None else Some q').
  enough (Hwp : wp (discovery_round p order) Q s).
  { destruct (wp_elim _ _ _ Hwp) as ([] & s' & Hrun & t & HQ). by exists s', t. }
  unfold discovery_round. apply wp_bind. eapply wp_intro; [reflexivity|]. apply wp_bind, wp_get.
  apply (exchange_moves p order s _ Q Ho Ht Hl Had). intros s4 [Ht4 Hk4 Hc4 Hn4 Hl4]. rewrite Hl in Hl4.
  apply wp_if; intros Hd; change (due = true) in Hd || change (due = false) in Hd.
  - destruct (prune_spec PEER_TIMEOUT_NS s4 Ht4 Hl4) as (s5 & Hrun & Ht5 & Hl5 & Hc5 & Hp5).
    apply wp_bind. eapply wp_intro; [exact Hrun|]. apply wp_modify. exists (dc_ticks s4). rewrite Hd. split_and!; [done..|].
    intros k q Hq. destruct (Hk4 k q Hq) as (q' & Hq' & He). exists q'. split; [exact He|]. cbn. rewrite Hp5.
    destruct (stale (u64 (rt_clock (dc_ticks s4))) PEER_TIMEOUT_NS q') eqn:Hst.
    + apply map_lookup_filter_None. right. intros x Hx. cbn. congruence.
    + by apply map_lookup_filter_Some.
  - apply wp_ret. exists (dc_ticks s4). rewrite Hd. split_and!; [done..|]. intros k q Hq. destruct (Hk4 k q Hq) as (q' & Hq' & He). by exists q'.
Qed.

(** A first node is announced and connects in the same round. *)
Module FirstPeer.

#[export] Instance env : RtEnv := {| rt_clock := fun n => 1000 + Z.of_nat n; rt_model_alloc := true |}.

Definition start : Discovery :=
  mk_discovery 3 4000 true true true ∅ false (mk_registry [] []) ∅ [] 0 0 0 0.

Definition msg : DiscoveryMessageHeader := mk_dmsg DISCOVERY_MAGIC DISCOVERY_VERSION ANNOUNCE 7 2 5000 12 0.

Definition arrives : polled :=
  mk_polled (Some ("10.0.0.7"%string, encode_dmsg msg)) (Some (PA_PEER 9 "10.0.0.7"%string)).

Definition order (m : gmap Z PeerInfo) : list Z := (map_to_list m).*1.

Lemma start_table : table start.
Proof.
  split; cbn; [done|done| |done]. intros f. split; [set_solver|]. by intros (k & p & Hk & _).
Qed.

Lemma order_once m : NoDup (order m).
Proof. apply NoDup_fst_map_to_list. Qed.

Lemma discovery_round_safe_witness :
  exists s', discovery_round arrives order start = Ret (tt, s') /\ table s' /\ dc_locked s' = false
    /\ getPeerState 7 s' = CONNECTED /\ dc_sockets s' = {[9]} /\ length (rg_remoteGpus (dc_registry s')) = 2%nat.
Proof.
  destruct (discovery_round_safe arrives order start order_once start_table) as (s' & t & Hrun & Ht & Hl & _).
  - done.
  - split; cbn -[decode_dmsg encode_dmsg]; [|split; [done|set_solver]]. intros Hh. vm_compute in Hh. done.
  - exists s'. split_and!; [exact Hrun|exact Ht|exact Hl|..].
    all: assert (Hc : match discovery_round arrives order start with
                 | Ret (_, x) => getPeerState 7 x = CONNECTED /\ dc_sockets x = {[9]}
                     /\ length (rg_remoteGpus (dc_registry x)) = 2%nat
                 | _ => False end) by (vm_compute; auto).
    all: rewrite Hrun in Hc; apply Hc.
Defined.

(** Of two peers, a pruning removes the one that was silent for two minutes. *)
Definition later : RtEnv := {| rt_clock := fun n => 200000000000 + Z.of_nat n; rt_model_alloc := true |}.

Definition peer (k seen : Z) : PeerInfo := mk_peer k "10.0.0.7"%string 5000 CONNECTED 1 seen seen 0 (-1).

Example silent_peer_pruned :
  match @discovery_round later (mk_polled None None) order
    (start <| dc_peers := <[7 := peer 7 1000]> {[8 := peer 8 150000000000]} |>) with
  | Ret (_, s) => dc_peers s !! 7 = None /\ is_Some (dc_peers s !! 8)
  | _ => False
  end.
Proof. vm_compute. eauto. Qed.

(** The heartbeat of a node that is not in the table blocks the thread: the
    handler holds the mutex that the announcement takes. *)
Example unknown_heartbeat_blocks :
  processDiscoveryMessage "10.0.0.9"%string
    (mk_dmsg DISCOVERY_MAGIC DISCOVERY_VERSION HEARTBEAT 9 0 5000 12 0) start = Fault SelfDeadlock.
Proof. vm_compute. reflexivity. Qed.

(** A node answers its own announcement with another one. *)
Example own_announcement_repeats :
  match processDiscoveryMessage "10.0.0.3"%string
    (mk_dmsg DISCOVERY_MAGIC DISCOVERY_VERSION ANNOUNCE 3 0 4000 12 0) start with
  | Ret (_, s) => length (dc_sent s) = 1%nat
  | _ => False
  end.
Proof. vm_compute. reflexivity. Qed.

End FirstPeer.
