(* ===== verification/RtPower.v ===== *)
(** * The power manager of the runtime daemon

    runtime/daemon/power_manager.hpp and power_manager.cpp: idle states,
    thermal states, clocks, fan and power curves and the headroom of the power
    supply.  The sensors and actuators are the source's stand-ins, which return
    constants.  The mutex is part of the state, because one call takes it
    twice. *)

From Corelib Require Import SpecFloat.
From S2P Require Import Prelude Float32 RtDevices RtScheduler RtMemory.
From stdpp Require Import strings.
Local Open Scope Z_scope.

(** ** Data (power_manager.hpp) *)

Inductive PowerState : Type := PS_ACTIVE | PS_SUSTAINED | PS_IDLE | PS_PARK.
#[export] Instance power_state_eq_dec : EqDecision PowerState.
Proof. solve_decision. Defined.

Inductive ThermalState : Type := TH_NORMAL | TH_WARN | TH_HOT | TH_THROTTLING | TH_CRITICAL.
#[export] Instance thermal_state_eq_dec : EqDecision ThermalState.
Proof. solve_decision. Defined.

Record GpuPowerStats : Type := mk_pstats {
  gs_powerDrawMilliwatts : Z;
  gs_energyConsumedMillis : Z;
  gs_activeTimeUs : Z;
  gs_idleTimeUs : Z;
  gs_transitions : Z;
  gs_currentTemperature : Z;
  gs_maxTemperature : Z
}.
#[export] Instance pstats_eta : Eta GpuPowerStats := fun r =>
  mk_pstats (gs_powerDrawMilliwatts r) (gs_energyConsumedMillis r) (gs_activeTimeUs r) (gs_idleTimeUs r)
    (gs_transitions r) (gs_currentTemperature r) (gs_maxTemperature r).

(** A point of a fan curve (temperature, speed) or of a power curve
    (utilization, limit); the curves have room for 10 and for 8 points. *)
Record GpuCurve : Type := mk_curve { cv_points : list (Z * Z); cv_numPoints : Z }.

Record GpuFanControl : Type := mk_fan {
  fn_enabled : bool;
  fn_automatic : bool;
  fn_manualSpeedPercent : Z;
  fn_currentSpeedPercent : Z;
  fn_currentRpm : Z
}.
#[export] Instance fan_eta : Eta GpuFanControl := fun r =>
  mk_fan (fn_enabled r) (fn_automatic r) (fn_manualSpeedPercent r) (fn_currentSpeedPercent r) (fn_currentRpm r).

Record PsuConfig : Type := mk_psu {
  ps_totalCapacityWatts : Z;
  ps_safetyMarginPercent : Z;
  ps_enableHeadroomTracking : bool
}.

Record PsuHeadroom : Type := mk_headroom {
  hr_totalCapacityWatts : Z;
  hr_currentDrawWatts : Z;
  hr_headroomWatts : Z;
  hr_safetyMarginPercent : f32
}.

Record PowerConfig : Type := mk_pconfig {
  pc_idleTimeoutMs : Z;
  pc_sustainedTimeoutMs : Z;
  pc_parkTimeoutMs : Z;
  pc_thermalThreshold : Z;
  pc_criticalThreshold : Z;
  pc_thermalPollIntervalMs : Z;
  pc_powerLimitWatts : Z;
  pc_enablePowerCapping : bool;
  pc_enableDvfs : bool;
  pc_dvfsPollIntervalMs : Z;
  pc_enableAggressivePowerDown : bool
}.
#[export] Instance pconfig_eta : Eta PowerConfig := fun r =>
  mk_pconfig (pc_idleTimeoutMs r) (pc_sustainedTimeoutMs r) (pc_parkTimeoutMs r) (pc_thermalThreshold r)
    (pc_criticalThreshold r) (pc_thermalPollIntervalMs r) (pc_powerLimitWatts r) (pc_enablePowerCapping r)
    (pc_enableDvfs r) (pc_dvfsPollIntervalMs r) (pc_enableAggressivePowerDown r).

Record GpuPowerInfo : Type := mk_pinfo {
  pi_state : PowerState;
  pi_targetState : PowerState;
  pi_stats : GpuPowerStats;
  pi_lastActivityTime : Z;
  pi_lastStateChange : Z;
  pi_thermalState : ThermalState;
  pi_lastTemperature : Z;
  pi_enabled : bool;
  pi_inThermalThrottle : bool;
  pi_fanControl : GpuFanControl
}.
#[export] Instance pinfo_eta : Eta GpuPowerInfo := fun r =>
  mk_pinfo (pi_state r) (pi_targetState r) (pi_stats r) (pi_lastActivityTime r) (pi_lastStateChange r)
    (pi_thermalState r) (pi_lastTemperature r) (pi_enabled r) (pi_inThermalThrottle r) (pi_fanControl r).

Record DvfsState : Type := mk_dvfs { dv_lastUtilization : Z; dv_targetClockMhz : Z; dv_currentClockMhz : Z }.
#[export] Instance dvfs_eta : Eta DvfsState := fun r =>
  mk_dvfs (dv_lastUtilization r) (dv_targetClockMhz r) (dv_currentClockMhz r).

Record PowerManager : Type := mk_power {
  pw_locked : bool;
  pw_config : PowerConfig;
  pw_gpuPowerInfo : list GpuPowerInfo;
  pw_lastThermalUpdate : Z;
  pw_lastDvfsUpdate : Z;
  pw_dvfsState : list DvfsState;
  pw_fanCurves : list GpuCurve;
  pw_powerCurves : list GpuCurve;
  pw_psuConfig : PsuConfig;
  pw_ticks : nat
}.
#[export] Instance power_eta : Eta PowerManager := fun r =>
  mk_power (pw_locked r) (pw_config r) (pw_gpuPowerInfo r) (pw_lastThermalUpdate r) (pw_lastDvfsUpdate r)
    (pw_dvfsState r) (pw_fanCurves r) (pw_powerCurves r) (pw_psuConfig r) (pw_ticks r).

Abbreviation PM := (M PowerManager).

(** The constructor. *)
Definition default_config : PowerConfig := mk_pconfig 5000 10000 30000 85 95 1000 0 false true 2000 false.
Definition PowerManager_new : PowerManager := mk_power false default_config [] 0 0 [] [] [] (mk_psu 0 20 false) 0.

(** [std::lock_guard] around a block. *)
Definition guarded {A : Type} (m : PM A) : PM A :=
  s ← get;
  if pw_locked s then fails SelfDeadlock else
  put (s <| pw_locked := true |>);;
  a ← m;
  modify (fun s => s <| pw_locked := false |>);; mret a.

(** A loop over indices. *)
Fixpoint each {S : Type} (l : list nat) (f : nat -> M S unit) : M S unit :=
  match l with [] => mret tt | i :: rest => f i;; each rest f end.

Definition info_at (i : nat) : PM GpuPowerInfo := s ← get; vec_get (pw_gpuPowerInfo s) (Z.of_nat i).
Definition set_info (i : nat) (f : GpuPowerInfo -> GpuPowerInfo) : PM unit :=
  modify (fun s => s <| pw_gpuPowerInfo ::= alter f i |>).
Definition set_dvfs (i : nat) (f : DvfsState -> DvfsState) : PM unit :=
  modify (fun s => s <| pw_dvfsState ::= alter f i |>).

(** The default curves. *)
Definition defaultCurve : GpuCurve :=
  mk_curve [(40, 20); (50, 30); (60, 45); (70, 60); (80, 75); (90, 90); (100, 100); (0, 0); (0, 0); (0, 0)] 7.
Definition defaultPowerCurve : GpuCurve :=
  mk_curve [(0, 30); (25, 50); (50, 70); (75, 90); (100, 100); (0, 0); (0, 0); (0, 0)] 5.

(** ** Curves *)

(** [uint8_t] of a float. *)
Definition f32_to_u8 (x : f32) : option Z :=
  match f32_trunc x with
  | Some z => if (0 <=? z) && (z <=? 255) then Some z else None
  | None => None
  end.

Fixpoint fan_segment (fuel i : nat) (curve : GpuCurve) (temperature : Z) : PM Z :=
  match fuel with
  | O => mret 0
  | S fuel' =>
      lo ← vec_get (cv_points curve) (Z.of_nat i);
      hi ← vec_get (cv_points curve) (Z.of_nat (S i));
      let '(tLow, sLow) := lo in
      let '(tHigh, sHigh) := hi in
      if (tLow <=? temperature) && (temperature <? tHigh) then
        if tHigh =? tLow then mret sLow else
        let t := fdiv (f32_of_Z (temperature - tLow)) (f32_of_Z (tHigh - tLow)) in
        result ← of_option BadConversion (f32_to_u8 (fadd (f32_of_Z sLow) (fmul t (f32_of_Z (sHigh - sLow)))));
        mret (Z.min result 100)
      else fan_segment fuel' (S i) curve temperature
  end.

Definition interpolateFanSpeed (curve : GpuCurve) (temperature : Z) : PM Z :=
  if cv_numPoints curve =? 0 then mret 0 else
  first ← vec_get (cv_points curve) 0;
  if temperature <=? first.1 then mret first.2 else
  last ← vec_get (cv_points curve) (cv_numPoints curve - 1);
  if last.1 <=? temperature then mret last.2 else
  fan_segment (Z.to_nat (cv_numPoints curve - 1)) 0 curve temperature.

Fixpoint power_segment (fuel i : nat) (curve : GpuCurve) (utilization : Z) : PM Z :=
  match fuel with
  | O => last ← vec_get (cv_points curve) (cv_numPoints curve - 1); mret last.2
  | S fuel' =>
      lo ← vec_get (cv_points curve) (Z.of_nat i);
      hi ← vec_get (cv_points curve) (Z.of_nat (S i));
      if utilization <=? hi.1 then
        let span := hi.1 - lo.1 in
        if span <=? 0 then mret hi.2 else
        let t := utilization - lo.1 in
        mret ((lo.2 + Z.quot ((hi.2 - lo.2) * t) span) mod 256)
      else power_segment fuel' (S i) curve utilization
  end.

Definition interpolatePowerLimit (curve : GpuCurve) (utilization : Z) : PM Z :=
  if cv_numPoints curve =? 0 then mret 100 else
  first ← vec_get (cv_points curve) 0;
  if utilization <=? first.1 then mret first.2 else
  power_segment (Z.to_nat (cv_numPoints curve - 1)) 0 curve utilization.

Section power.
Context `{RtEnv}.

(** Nanoseconds of the clock. *)
Definition pw_now : PM Z := fun s => Ret (rt_clock (pw_ticks s), s <| pw_ticks ::= S |>).

Definition millis (d : Z) : Z := Z.quot d 1000000.

(** ** Start and stop *)

Definition new_info (ts : Z) : GpuPowerInfo :=
  mk_pinfo PS_ACTIVE PS_ACTIVE (mk_pstats 0 0 0 0 0 0 0) ts ts TH_NORMAL 0 true false (mk_fan true true 0 0 0).

Fixpoint init_infos (k : nat) : PM (list GpuPowerInfo) :=
  match k with O => mret [] | S k' => ts ← pw_now; l ← init_infos k'; mret (new_info ts :: l) end.

Definition power_init (reg : DeviceRegistry) : PM bool :=
  let n := Z.to_nat (gpuCount reg) in
  infos ← init_infos n;
  now ← pw_now;
  modify (fun s => s <| pw_gpuPowerInfo := infos |> <| pw_dvfsState := replicate n (mk_dvfs 0 0 0) |>
    <| pw_fanCurves := replicate n defaultCurve |> <| pw_powerCurves := replicate n defaultPowerCurve |>
    <| pw_psuConfig := mk_psu 0 20 false |> <| pw_lastThermalUpdate := now |> <| pw_lastDvfsUpdate := now |>);;
  mret true.

Definition power_fini : PM unit :=
  guarded (modify (fun s => s <| pw_gpuPowerInfo := [] |> <| pw_dvfsState := [] |>)).

(** ** Power states *)

Definition moved (newState : PowerState) (now : Z) (info : GpuPowerInfo) : GpuPowerInfo :=
  info <| pi_state := newState |> <| pi_targetState := newState |> <| pi_lastStateChange := now |>
    <| pi_stats ::= fun st => st <| gs_transitions ::= fun n => u64 (n + 1) |> |>.

Definition transitionGpuPower (i : nat) (newState : PowerState) : PM unit :=
  info ← info_at i;
  if bool_decide (pi_state info = newState) then mret tt else
  now ← pw_now;
  set_info i (moved newState now).

(** The state that the time since the last use asks for; the sums of the
    timeouts are 32-bit. *)
Definition idle_target (cfg : PowerConfig) (elapsed : Z) (st : PowerState) : PowerState :=
  let idle := pc_idleTimeoutMs cfg in
  let sustained := u32 (pc_idleTimeoutMs cfg + pc_sustainedTimeoutMs cfg) in
  let park := u32 (pc_idleTimeoutMs cfg + pc_sustainedTimeoutMs cfg + pc_parkTimeoutMs cfg) in
  match st with
  | PS_ACTIVE => if idle <=? elapsed then PS_SUSTAINED else PS_ACTIVE
  | PS_SUSTAINED => if sustained <=? elapsed then PS_IDLE else if elapsed <? idle then PS_ACTIVE else PS_SUSTAINED
  | PS_IDLE =>
      if park <=? elapsed then if pc_enableAggressivePowerDown cfg then PS_PARK else PS_IDLE
      else if elapsed <? sustained then PS_ACTIVE else PS_IDLE
  | PS_PARK => if elapsed <? park then PS_ACTIVE else PS_PARK
  end.

Definition count_gpus : PM (list nat) := reads (fun s => seq 0 (length (pw_gpuPowerInfo s))).

Definition checkIdleTimeouts : PM unit :=
  now ← pw_now;
  gpus ← count_gpus;
  each gpus (fun i =>
    info ← info_at i;
    if negb (pi_enabled info) || pi_inThermalThrottle info then mret tt else
    s ← get;
    let newState := idle_target (pw_config s) (millis (now - pi_lastActivityTime info)) (pi_state info) in
    if bool_decide (newState = pi_state info) then mret tt else transitionGpuPower i newState).

(** ** Thermal states *)

Definition readTemperature (reg : DeviceRegistry) (i : nat) : option Z :=
  match getGpu (Z.of_nat i) reg with Some _ => Some 50 | None => None end.

Definition readPowerDraw (reg : DeviceRegistry) (i : nat) : option Z :=
  match getGpu (Z.of_nat i) reg with Some _ => Some 100000 | None => None end.

(** The variable for the temperature has no value when it cannot be read. *)
Definition updateThermalData (reg : DeviceRegistry) : PM unit :=
  gpus ← count_gpus;
  each gpus (fun i =>
    (match readTemperature reg i with
     | Some temp => set_info i (fun info => info <| pi_lastTemperature := temp |>)
     | None => mret tt
     end);;
    (match readPowerDraw reg i with
     | Some mw => set_info i (fun info => info <| pi_stats ::= fun st => st <| gs_powerDrawMilliwatts := mw |> |>)
     | None => mret tt
     end);;
    temp ← of_option Uninitialised (readTemperature reg i);
    set_info i (fun info => info <| pi_stats ::= fun st => st <| gs_maxTemperature ::= fun m => Z.max m temp |> |>)).

(** The thermal state of a temperature and whether it throttles. *)
Definition thermal_of (cfg : PowerConfig) (temp : Z) : ThermalState * bool :=
  if s32 (pc_criticalThreshold cfg) <=? temp then (TH_CRITICAL, true)
  else if s32 (pc_thermalThreshold cfg) <=? temp then (TH_THROTTLING, true)
  else if s32 (u32 (pc_thermalThreshold cfg - 5)) <=? temp then (TH_HOT, false)
  else if s32 (u32 (pc_thermalThreshold cfg - 15)) <=? temp then (TH_WARN, false)
  else (TH_NORMAL, false).

Definition checkThermalState : PM unit :=
  gpus ← count_gpus;
  each gpus (fun i =>
    info ← info_at i;
    s ← get;
    let '(th, throttle) := thermal_of (pw_config s) (pi_lastTemperature info) in
    set_info i (fun info => info <| pi_thermalState := th |> <| pi_inThermalThrottle := throttle |>);;
    if throttle && negb (bool_decide (pi_state info = PS_ACTIVE)) then transitionGpuPower i PS_ACTIVE else mret tt).

(** ** Clocks *)

(** [(max_clock - min_clock) * (utilization / 100.0)] in binary64. *)
Definition clock_share (utilization : Z) : option Z :=
  let d z := binary_normalize 53 1024 z 0 false in
  f32_to_u32 (SFmul 53 1024 (d 1500) (SFdiv 53 1024 (d utilization) (d 100))).

Definition writeFrequency (reg : DeviceRegistry) (i : nat) : bool :=
  match getGpu (Z.of_nat i) reg with Some _ => true | None => false end.

Definition applyDvfs (reg : DeviceRegistry) : PM unit :=
  s ← get;
  if negb (pc_enableDvfs (pw_config s)) then mret tt else
  each (seq 0 (length (pw_dvfsState s))) (fun i =>
    match getGpu (Z.of_nat i) reg with
    | None => mret tt
    | Some gpu =>
        let utilization := sta_utilization (dv_state gpu) in
        share ← of_option BadConversion (clock_share utilization);
        let target_clock := u32 (500 + share) in
        set_dvfs i (fun d => d <| dv_lastUtilization := utilization |> <| dv_targetClockMhz := target_clock |>);;
        s ← get;
        d ← vec_get (pw_dvfsState s) (Z.of_nat i);
        if negb (dv_currentClockMhz d =? target_clock) && writeFrequency reg i then
          set_dvfs i (fun d => d <| dv_currentClockMhz := target_clock |>)
        else mret tt
    end).

Definition applyPowerCurves (reg : DeviceRegistry) : PM unit :=
  s ← get;
  let cfg := pw_config s in
  if negb (pc_enablePowerCapping cfg) && (ps_totalCapacityWatts (pw_psuConfig s) =? 0) then mret tt else
  each (seq 0 (length (pw_powerCurves s))) (fun i =>
    match getGpu (Z.of_nat i) reg with
    | None => mret tt
    | Some gpu =>
        s ← get;
        if (length (pw_dvfsState s) <=? i)%nat then mret tt else
        let util := Z.min 100 (sta_utilization (dv_state gpu)) in
        curve ← vec_get (pw_powerCurves s) (Z.of_nat i);
        limitPct ← interpolatePowerLimit curve util;
        if 0 <? pc_powerLimitWatts cfg then
          let capMw := u32 (u32 (pc_powerLimitWatts cfg * 1000) * limitPct) / 100 in
          info ← info_at i;
          if (capMw <? gs_powerDrawMilliwatts (pi_stats info)) && (0 <? capMw) then
            d ← vec_get (pw_dvfsState s) (Z.of_nat i);
            let maxClock := if 0 <? dv_currentClockMhz d then dv_currentClockMhz d else 2000 in
            let reduced := Z.max 500 (u32 (maxClock * 9) / 10) in
            set_dvfs i (fun d => d <| dv_targetClockMhz := reduced |>)
          else mret tt
        else mret tt
    end).

(** ** The power supply *)

Definition getPsuHeadroom : PM PsuHeadroom :=
  guarded (
    s ← get;
    let psu := pw_psuConfig s in
    let totalDraw := foldl (fun total info => u32 (total + gs_powerDrawMilliwatts (pi_stats info) / 1000)) 0
                       (pw_gpuPowerInfo s) in
    let headroom := if 0 <? ps_totalCapacityWatts psu then
                      if ps_totalCapacityWatts psu <=? totalDraw then 0 else ps_totalCapacityWatts psu - totalDraw
                    else 0 in
    mret (mk_headroom (ps_totalCapacityWatts psu) totalDraw headroom (f32_of_Z (ps_safetyMarginPercent psu)))).

Definition updatePsuHeadroom : PM unit :=
  s ← get;
  let psu := pw_psuConfig s in
  if negb (ps_enableHeadroomTracking psu) || (ps_totalCapacityWatts psu =? 0) then mret tt else
  hr ← getPsuHeadroom;
  let safetyMargin := u32 (ps_totalCapacityWatts psu * ps_safetyMarginPercent psu) / 100 in
  let bound := u32 (ps_totalCapacityWatts psu - safetyMargin) in
  if bound <? hr_currentDrawWatts hr then
    gpus ← count_gpus;
    each gpus (fun i =>
      info ← info_at i;
      if negb (pi_enabled info) then mret tt else
      s ← get;
      if pc_enableDvfs (pw_config s) && (i <? length (pw_dvfsState s))%nat then
        let reduction := u32 ((hr_currentDrawWatts hr - bound) * 10) in
        d ← vec_get (pw_dvfsState s) (Z.of_nat i);
        if reduction <? dv_targetClockMhz d then
          set_dvfs i (fun d => d <| dv_targetClockMhz ::= fun c => c - reduction |>)
        else mret tt
      else mret tt)
  else mret tt.

(** ** Fans *)

(** [writeFanSpeed] and [readFanSpeed] succeed; the latter gives 0. *)
Definition applyFanControl : PM unit :=
  gpus ← count_gpus;
  each gpus (fun i =>
    info ← info_at i;
    let fan := pi_fanControl info in
    if negb (fn_enabled fan) then mret tt else
    s ← get;
    targetSpeed ← (match pw_fanCurves s !! i with
                   | Some curve => if fn_automatic fan && (0 <? cv_numPoints curve)
                                   then interpolateFanSpeed curve (pi_lastTemperature info)
                                   else mret (if fn_automatic fan then 0 else fn_manualSpeedPercent fan)
                   | None => mret (if fn_automatic fan then 0 else fn_manualSpeedPercent fan)
                   end);
    let current := fn_currentSpeedPercent fan in
    (if (current + 5 <? targetSpeed) || (targetSpeed <? current - 5) then
       set_info i (fun info => info <| pi_fanControl ::= fun f => f <| fn_currentSpeedPercent := targetSpeed |> |>)
     else mret tt);;
    set_info i (fun info => info <| pi_fanControl ::= fun f => f <| fn_currentRpm := 0 |> |>)).

(** ** One round *)

Definition power_events (reg : DeviceRegistry) : PM unit :=
  guarded (
    now ← pw_now;
    checkIdleTimeouts;;
    s ← get;
    (if pc_thermalPollIntervalMs (pw_config s) <=? millis (now - pw_lastThermalUpdate s) then
       updateThermalData reg;; checkThermalState;; modify (fun s => s <| pw_lastThermalUpdate := now |>)
     else mret tt);;
    (if pc_enableDvfs (pw_config s) then
       if pc_dvfsPollIntervalMs (pw_config s) <=? millis (now - pw_lastDvfsUpdate s) then
         applyDvfs reg;; applyPowerCurves reg;; modify (fun s => s <| pw_lastDvfsUpdate := now |>)
       else mret tt
     else mret tt);;
    (if ps_enableHeadroomTracking (pw_psuConfig s) then updatePsuHeadroom else mret tt);;
    applyFanControl).

(** ** Calls of the clients *)

(** [gpuIndex >= m_gpuPowerInfo.size()]. *)
Definition with_gpu {A : Type} (gpuIndex : Z) (a : A) (m : nat -> PM A) : PM A :=
  guarded (
    s ← get;
    if Z.of_nat (length (pw_gpuPowerInfo s)) <=? gpuIndex then mret a else m (Z.to_nat gpuIndex)).

Definition setPowerState (gpuIndex : Z) (st : PowerState) : PM bool :=
  with_gpu gpuIndex false (fun i => transitionGpuPower i st;; mret true).
Definition getPowerState (gpuIndex : Z) : PM PowerState :=
  with_gpu gpuIndex PS_ACTIVE (fun i => info ← info_at i; mret (pi_state info)).
Definition getPowerStats (gpuIndex : Z) : PM GpuPowerStats :=
  with_gpu gpuIndex (mk_pstats 0 0 0 0 0 0 0) (fun i => info ← info_at i; mret (pi_stats info)).
Definition getThermalState (gpuIndex : Z) : PM ThermalState :=
  with_gpu gpuIndex TH_NORMAL (fun i => info ← info_at i; mret (pi_thermalState info)).

(** Not per GPU. *)
Definition setThermalThreshold (gpuIndex thresholdCelsius : Z) : PM unit :=
  guarded (modify (fun s => s <| pw_config ::= fun c => c <| pc_thermalThreshold := thresholdCelsius |> |>)).
Definition setConfig (config : PowerConfig) : PM unit := guarded (modify (fun s => s <| pw_config := config |>)).
Definition setPsuConfig (config : PsuConfig) : PM unit := guarded (modify (fun s => s <| pw_psuConfig := config |>)).

Definition notifyActivity (gpuIndex : Z) : PM unit :=
  with_gpu gpuIndex tt (fun i =>
    now ← pw_now;
    set_info i (fun info => info <| pi_lastActivityTime := now |>);;
    info ← info_at i;
    (if negb (bool_decide (pi_state info = PS_ACTIVE)) && negb (pi_inThermalThrottle info)
     then transitionGpuPower i PS_ACTIVE else mret tt);;
    now ← pw_now;
    info ← info_at i;
    let duration := u64 (Z.quot (now - pi_lastStateChange info) 1000) in
    set_info i (fun info => info <| pi_stats ::= fun st =>
      if bool_decide (pi_state info = PS_ACTIVE)
      then st <| gs_activeTimeUs ::= fun n => u64 (n + duration) |>
      else st <| gs_idleTimeUs ::= fun n => u64 (n + duration) |> |> <| pi_lastStateChange := now |>)).

Definition setManaged (gpuIndex : Z) (enabled : bool) : PM unit :=
  with_gpu gpuIndex tt (fun i => set_info i (fun info => info <| pi_enabled := enabled |>)).

Definition setFanSpeed (gpuIndex speedPercent : Z) : PM unit :=
  with_gpu gpuIndex tt (fun i =>
    let speed := Z.min speedPercent 100 in
    set_info i (fun info => info <| pi_fanControl ::= fun f =>
      f <| fn_automatic := false |> <| fn_manualSpeedPercent := speed |> <| fn_currentSpeedPercent := speed |> |>)).
Definition setFanAutomatic (gpuIndex : Z) (automatic : bool) : PM unit :=
  with_gpu gpuIndex tt (fun i => set_info i (fun info => info <| pi_fanControl ::= fun f => f <| fn_automatic := automatic |> |>)).

Definition setFanCurve (gpuIndex : Z) (curve : GpuCurve) : PM unit :=
  guarded (modify (fun s => s <| pw_fanCurves ::= <[Z.to_nat gpuIndex := curve]> |>)).
Definition setPowerCurve (gpuIndex : Z) (curve : GpuCurve) : PM unit :=
  guarded (modify (fun s => s <| pw_powerCurves ::= <[Z.to_nat gpuIndex := curve]> |>)).
Definition getFanCurve (gpuIndex : Z) : PM GpuCurve :=
  guarded (s ← get; mret (default (mk_curve (replicate 10 (0, 0)) 0) (pw_fanCurves s !! Z.to_nat gpuIndex))).
Definition getPowerCurve (gpuIndex : Z) : PM GpuCurve :=
  guarded (s ← get; mret (default (mk_curve (replicate 8 (0, 0)) 0) (pw_powerCurves s !! Z.to_nat gpuIndex))).

End power.
