(* ===== verification/RtPowerRounds.v ===== *)
(** * Rounds of the power manager

    Curves stay within their percentages, and after any calls of the clients a
    round of the power manager returns with the mutex free, steps every GPU
    down by at most one power state and keeps clocks and fans in range. *)

From S2P Require Import Prelude Float32 RtDevices RtScheduler RtMemory RtOwnership RtQueue RtPower.
From stdpp Require Import strings.
Local Open Scope Z_scope.

(** ** Curves *)

Definition percent (z : Z) : Prop := 0 <= z <= 100.

Definition power_curve_ok (c : GpuCurve) : Prop :=
  length (cv_points c) = 8%nat /\ 0 <= cv_numPoints c <= 8 /\ Forall (fun p => percent p.1 /\ percent p.2) (cv_points c).

Lemma wp_point c i (Q : Z * Z -> PowerManager -> Prop) s :
  power_curve_ok c -> 0 <= i < 8 -> (forall p, percent p.1 -> percent p.2 -> Q p s) -> wp (vec_get (cv_points c) i) Q s.
Proof.
  intros (Hlen & _ & Hall) Hi HQ. apply wp_vec_get; [lia|]. intros p Hp.
  pose proof (Forall_lookup_1 _ _ _ _ Hall Hp) as [H1 H2]. by apply HQ.
Qed.

Lemma quot_between a d t span : 0 < t <= span -> 0 <= a -> 0 <= a + d -> a <= 100 -> a + d <= 100 ->
  0 <= a + Z.quot (d * t) span <= 100.
Proof.
  intros Ht H1 H2 H3 H4. destruct (Z_le_gt_dec 0 d) as [Hd|Hd].
  - rewrite Z.quot_div_nonneg by nia.
    assert (0 <= d * t / span) by (apply Z.div_pos; nia).
    assert (d * t / span <= d) by (apply Z.div_le_upper_bound; nia). lia.
  - replace (d * t) with (- ((- d) * t)) by ring. rewrite Z.quot_opp_l by lia. rewrite Z.quot_div_nonneg by nia.
    assert (0 <= (- d) * t / span) by (apply Z.div_pos; nia).
    assert ((- d) * t / span <= - d) by (apply Z.div_le_upper_bound; nia). lia.
Qed.

(** The segment at [i] is reached with the utilization above its lower end. *)
Lemma power_segment_ok fuel c i u s s0 :
  power_curve_ok c -> Z.of_nat (fuel + i) < 8 -> 0 < cv_numPoints c ->
  (forall p, cv_points c !! i = Some p -> p.1 < u) -> s = s0 ->
  wp (power_segment fuel i c u) (fun r s' => percent r /\ s' = s0) s.
Proof.
  intros Hc. revert i. induction fuel as [|fuel IH]; intros i Hi Hn Hlo ->.
  - apply wp_bind. apply (wp_point c); [done|destruct Hc as (? & ? & ?); lia|]. intros p _ Hp. by apply wp_ret.
  - cbn [power_segment]. pose proof Hc as (Hlen & Hnum & Hall).
    apply wp_bind, wp_vec_get; [lia|]. intros lo Hlo'. pose proof (Forall_lookup_1 _ _ _ _ Hall Hlo') as [Hl1 Hl2].
    apply wp_bind, wp_vec_get; [lia|]. intros hi Hhi. pose proof (Forall_lookup_1 _ _ _ _ Hall Hhi) as [Hh1 Hh2].
    rewrite Nat2Z.id in Hlo', Hhi. pose proof (Hlo _ Hlo') as Hlt. apply wp_if; intros Hu.
    + apply Z.leb_le in Hu. apply wp_if; [intros _; by apply wp_ret|]. intros Hspan%Z.leb_gt. apply wp_ret. split; [|done].
      destruct Hl2, Hh2.
      assert (0 <= lo.2 + Z.quot ((hi.2 - lo.2) * (u - lo.1)) (hi.1 - lo.1) <= 100) as Hr.
      { apply quot_between; lia. }
      unfold percent. rewrite Z.mod_small by lia. exact Hr.
    + apply Z.leb_gt in Hu. apply IH; [lia|done| |done]. intros p Hp. replace p with hi by congruence. done.
Qed.

(** The limit of a power curve of percentages is a percentage. *)
Lemma interpolatePowerLimit_ok c u s :
  power_curve_ok c -> wp (interpolatePowerLimit c u) (fun r s' => percent r /\ s' = s) s.
Proof.
  intros Hc. unfold interpolatePowerLimit. apply wp_if; [intros _; apply wp_ret; split; [unfold percent; lia|done]|].
  intros Hn%Z.eqb_neq. pose proof Hc as (Hlen & Hnum & Hall).
  apply wp_bind, wp_vec_get; [lia|]. intros p Hp. change (Z.to_nat 0) with 0%nat in Hp.
  pose proof (Forall_lookup_1 _ _ _ _ Hall Hp) as [_ Hp2].
  apply wp_if; [intros _; by apply wp_ret|]. intros Hu%Z.leb_gt.
  apply power_segment_ok; [done|lia|lia| |done]. intros p' Hp'. by replace p' with p by congruence.
Qed.

(** Ten points with speeds that are percentages; the temperatures and their
    differences are exact in binary32. *)
Definition fan_curve_ok (c : GpuCurve) : Prop :=
  length (cv_points c) = 10%nat /\ 0 <= cv_numPoints c <= 10
  /\ Forall (fun p => Z.abs p.1 < 2 ^ 22 /\ percent p.2) (cv_points c).

Lemma wp_fan_point c i (Q : Z * Z -> PowerManager -> Prop) s :
  fan_curve_ok c -> 0 <= i < 10 -> (forall p, Z.abs p.1 < 2 ^ 22 -> percent p.2 -> Q p s) -> wp (vec_get (cv_points c) i) Q s.
Proof.
  intros (Hlen & _ & Hall) Hi HQ. apply wp_vec_get; [lia|]. intros p Hp.
  pose proof (Forall_lookup_1 _ _ _ _ Hall Hp) as [H1 H2]. by apply HQ.
Qed.

Lemma fan_segment_ok fuel c i t s s0 :
  fan_curve_ok c -> Z.of_nat (fuel + i) < 10 -> s = s0 -> wp (fan_segment fuel i c t) (fun r s' => percent r /\ s' = s0) s.
Proof.
  intros Hc. revert i. induction fuel as [|fuel IH]; intros i Hi ->; [apply wp_ret; split; [unfold percent; lia|done]|].
  cbn [fan_segment]. apply wp_bind, wp_fan_point; [done|lia|]. intros [tl sl] Htl Hsl.
  apply wp_bind, wp_fan_point; [done|lia|]. intros [th sh] Hth Hsh. cbn [fst snd] in *.
  apply wp_if; intros Hin; [|apply IH; [lia|done]]. apply andb_true_iff in Hin as [H1%Z.leb_le H2%Z.ltb_lt].
  apply wp_if; intros _; [by apply wp_ret|].
  destruct (interpolation_bounded (fdiv (f32_of_Z (t - tl)) (f32_of_Z (th - tl))) (f32_of_Z (sh - sl)) sl (sh - sl) 100)
    as (r & Hr & Hrange); unfold percent in *; try lia.
  - apply fdiv_unit; lia.
  - apply f32_of_Z_int. lia.
  - unfold f32_to_u8. rewrite Hr, (proj2 (Z.leb_le 0 r)), (proj2 (Z.leb_le r 255)) by lia. apply wp_bind, wp_ret, wp_ret. split; [lia|done].
Qed.

(** Such a fan curve gives a percentage at every temperature. *)
Lemma fan_curve_percent c t s : fan_curve_ok c -> wp (interpolateFanSpeed c t) (fun r s' => percent r /\ s' = s) s.
Proof.
  intros Hc. pose proof Hc as (_ & Hnum & _). unfold interpolateFanSpeed.
  apply wp_if; [intros _; apply wp_ret; split; [unfold percent; lia|done]|]. intros Hn%Z.eqb_neq.
  apply wp_bind, wp_fan_point; [done|lia|]. intros p _ Hp. apply wp_if; [intros _; by apply wp_ret|intros _].
  apply wp_bind, wp_fan_point; [done|lia|]. intros q _ Hq. apply wp_if; [intros _; by apply wp_ret|intros _].
  apply fan_segment_ok; [done|lia|done].
Qed.

Lemma defaultCurve_ok : fan_curve_ok defaultCurve.
Proof. split; [done|]. split; [cbn; lia|]. repeat constructor; cbn; lia. Qed.

(** ** Loops over the GPUs *)

(** The state but for the GPUs and the clock. *)
Definition shell (s : PowerManager) : PowerManager := s <| pw_gpuPowerInfo := [] |> <| pw_ticks := 0%nat |>.

(** [s'] differs from [s] in the entry of GPU [i], which is [info] there. *)
Definition at_info (i : nat) (s : PowerManager) (info : GpuPowerInfo) (s' : PowerManager) : Prop :=
  shell s' = shell s /\ pw_gpuPowerInfo s' = <[i := info]> (pw_gpuPowerInfo s).

Lemma at_info_id i s info : pw_gpuPowerInfo s !! i = Some info -> at_info i s info s.
Proof. intros Hi. split; [done|]. by rewrite list_insert_id. Qed.

Lemma at_info_trans i s a s1 b s2 : at_info i s a s1 -> at_info i s1 b s2 -> at_info i s b s2.
Proof. intros [H1 H2] [H3 H4]. split; [congruence|]. by rewrite H4, H2, list_insert_insert_eq. Qed.

Lemma at_info_lookup i s old a s1 :
  pw_gpuPowerInfo s !! i = Some old -> at_info i s a s1 -> pw_gpuPowerInfo s1 !! i = Some a.
Proof. intros Hi [_ ->]. rewrite list_lookup_insert_eq; [done|]. by eapply lookup_lt_Some. Qed.

Lemma shell_config s s' : shell s = shell s' -> pw_config s = pw_config s'.
Proof. intros Heq. change (pw_config (shell s) = pw_config (shell s')). by rewrite Heq. Qed.

Lemma shell_fanCurves s s' : shell s = shell s' -> pw_fanCurves s = pw_fanCurves s'.
Proof. intros Heq. change (pw_fanCurves (shell s) = pw_fanCurves (shell s')). by rewrite Heq. Qed.

Lemma wp_info_at i s info (Q : GpuPowerInfo -> PowerManager -> Prop) :
  pw_gpuPowerInfo s !! i = Some info -> Q info s -> wp (info_at i) Q s.
Proof.
  intros Hi HQ. unfold info_at. apply wp_bind, wp_get. pose proof (lookup_lt_Some _ _ _ Hi).
  apply wp_vec_get; [lia|]. intros x. rewrite Nat2Z.id, Hi. by intros [= <-].
Qed.

Lemma wp_set_info i f s info :
  pw_gpuPowerInfo s !! i = Some info -> wp (set_info i f) (fun _ s' => at_info i s (f info) s') s.
Proof.
  intros Hi. apply wp_modify. split; [done|]. cbn. clear -Hi. revert i Hi.
  induction (pw_gpuPowerInfo s) as [|x l IH]; intros [|i] Hi; cbn in *; [done|done|by injection Hi as ->|].
  f_equal. by apply IH.
Qed.

(** Visiting every GPU once relates the GPUs one to one. *)
Lemma wp_each_infos (sh : PowerManager) (P : GpuPowerInfo -> GpuPowerInfo -> Prop) f s :
  shell s = sh ->
  (forall i s1 info, shell s1 = sh -> (i < length (pw_gpuPowerInfo s))%nat -> pw_gpuPowerInfo s1 !! i = Some info ->
     wp (f i) (fun _ s' => exists info', at_info i s1 info' s' /\ P info info') s1) ->
  wp (each (seq 0 (length (pw_gpuPowerInfo s))) f)
    (fun _ s' => shell s' = sh /\ Forall2 P (pw_gpuPowerInfo s) (pw_gpuPowerInfo s')) s.
Proof.
  intros Hsh Hf.
  assert (forall todo done_ s0, shell s0 = sh -> length (done_ ++ todo) = length (pw_gpuPowerInfo s) ->
    pw_gpuPowerInfo s0 = done_ ++ todo -> wp (each (seq (length done_) (length todo)) f)
      (fun _ s' => shell s' = sh /\ exists todo', pw_gpuPowerInfo s' = done_ ++ todo' /\ Forall2 P todo todo') s0) as Hloop.
  { induction todo as [|x todo IH]; intros done_ s0 Hs0 Hlen Hl; cbn [each seq length].
    - apply wp_ret. split; [done|]. by exists [].
    - apply wp_bind. eapply wp_mono.
      { apply (Hf _ _ x Hs0); [rewrite <- Hlen, length_app; cbn; lia|]. rewrite Hl. by apply list_lookup_middle. }
      intros _ s1 (x' & [Hsh1 Hl1] & HP). rewrite Hl, insert_app_r_alt, Nat.sub_diag in Hl1 by lia. cbn in Hl1.
      replace (S (length done_)) with (length (done_ ++ [x'])) by (rewrite length_app; cbn; lia).
      eapply wp_mono; [apply (IH (done_ ++ [x']) s1)|].
      { congruence. } { rewrite <- Hlen, !length_app. cbn. lia. } { by rewrite <- app_assoc. }
      intros _ s2 (Hsh2 & todo' & Hl2 & HP2). split; [done|]. exists (x' :: todo'). rewrite <- app_assoc in Hl2. auto. }
  eapply wp_mono; [exact (Hloop (pw_gpuPowerInfo s) [] s Hsh eq_refl eq_refl)|].
  intros _ s' (Hs' & todo' & Hl' & HP). cbn in Hl'. by rewrite Hl'.
Qed.

Lemma wp_each_inv {S : Type} (I : S -> Prop) l f s :
  I s -> (forall i s, In i l -> I s -> wp (f i) (fun _ s' => I s') s) -> wp (each l f) (fun _ s' => I s') s.
Proof.
  revert s. induction l as [|i l IH]; intros s Hs Hf; [by apply wp_ret|]. cbn [each]. apply wp_bind.
  eapply wp_mono; [apply Hf; [by left|done]|]. intros ? s1 H1. apply IH; [done|]. intros j s2 Hj. apply Hf. by right.
Qed.

(** ** The parts of a round *)

Definition same_power (a b : GpuPowerInfo) : Prop :=
  pi_state b = pi_state a /\ pi_enabled b = pi_enabled a /\ pi_inThermalThrottle b = pi_inThermalThrottle a.

Definition fan_ok (info : GpuPowerInfo) : Prop :=
  percent (fn_currentSpeedPercent (pi_fanControl info)) /\ percent (fn_manualSpeedPercent (pi_fanControl info)).

(** At most one step down, or back to work. *)
Definition step_ok (cfg : PowerConfig) (a b : PowerState) : Prop :=
  b = a \/ b = PS_ACTIVE \/ a = PS_ACTIVE /\ b = PS_SUSTAINED \/ a = PS_SUSTAINED /\ b = PS_IDLE \/
  a = PS_IDLE /\ b = PS_PARK /\ pc_enableAggressivePowerDown cfg = true.

Lemma idle_target_ok cfg e st : step_ok cfg st (idle_target cfg e st).
Proof. unfold step_ok, idle_target. destruct st; repeat case_match; auto 10. Qed.

(** What the idle check does to a GPU. *)
Definition idle_step (cfg : PowerConfig) (a b : GpuPowerInfo) : Prop :=
  pi_fanControl b = pi_fanControl a /\ pi_enabled b = pi_enabled a /\ pi_inThermalThrottle b = pi_inThermalThrottle a /\
  step_ok cfg (pi_state a) (pi_state b) /\
  (pi_enabled a = false \/ pi_inThermalThrottle a = true -> pi_state b = pi_state a).

(** What the thermal check does. *)
Definition thermal_step (a b : GpuPowerInfo) : Prop :=
  pi_fanControl b = pi_fanControl a /\ pi_enabled b = pi_enabled a /\
  pi_state b = (if pi_inThermalThrottle b then PS_ACTIVE else pi_state a).

Definition reading_step (a b : GpuPowerInfo) : Prop := same_power a b /\ pi_fanControl b = pi_fanControl a.
Definition fan_step (a b : GpuPowerInfo) : Prop := same_power a b /\ (fan_ok a -> fan_ok b).

Section rounds.
Context `{RtEnv} (reg : DeviceRegistry).

Lemma wp_pw_now (Q : Z -> PowerManager -> Prop) s : Q (rt_clock (pw_ticks s)) (s <| pw_ticks ::= S |>) -> wp pw_now Q s.
Proof. done. Qed.

Lemma wp_transition i st s info :
  pw_gpuPowerInfo s !! i = Some info ->
  wp (transitionGpuPower i st)
    (fun _ s' => exists info', at_info i s info' s' /\ pi_state info' = st /\ pi_fanControl info' = pi_fanControl info /\
       pi_enabled info' = pi_enabled info /\ pi_inThermalThrottle info' = pi_inThermalThrottle info) s.
Proof.
  intros Hi. unfold transitionGpuPower. apply wp_bind. eapply wp_info_at; [exact Hi|].
  apply wp_if; intros Hst.
  - apply bool_decide_eq_true in Hst as <-. apply wp_ret. exists info. by split; [apply at_info_id|].
  - apply wp_bind, wp_pw_now. eapply wp_mono; [by apply wp_set_info|]. intros ? s1 [H1 H2].
    eexists. split; [split; [exact H1|exact H2]|]. done.
Qed.

Lemma wp_checkIdleTimeouts s :
  wp checkIdleTimeouts
    (fun _ s' => shell s' = shell s /\ Forall2 (idle_step (pw_config s)) (pw_gpuPowerInfo s) (pw_gpuPowerInfo s')) s.
Proof.
  unfold checkIdleTimeouts. apply wp_bind, wp_pw_now, wp_bind, wp_reads.
  eapply wp_mono; [apply (wp_each_infos (shell s) (idle_step (pw_config s))); [done|]|by intros ? s' [H1 H2]; split].
  intros i s1 info Hsh Hlt Hi. apply wp_bind. eapply wp_info_at; [exact Hi|]. apply wp_if; intros Hskip.
  - apply wp_ret. exists info. split; [by apply at_info_id|]. unfold idle_step, step_ok. auto 10.
  - apply orb_false_iff in Hskip as [Hen%negb_false_iff Hth]. apply wp_bind, wp_get. rewrite (shell_config _ _ Hsh).
    apply wp_if; intros Hst.
    + apply wp_ret. exists info. split; [by apply at_info_id|]. unfold idle_step, step_ok. auto 10.
    + eapply wp_mono; [by apply wp_transition|]. intros ? s2 (info' & Hat & Hst' & Hfan & Hen' & Hth').
      exists info'. split; [done|]. split; [done|]. split; [done|]. split; [done|]. rewrite Hst'.
      split; [apply idle_target_ok|]. intros [?|?]; congruence.
Qed.

Lemma wp_updateThermalData s :
  (length (pw_gpuPowerInfo s) <= length (rg_gpus reg))%nat ->
  wp (updateThermalData reg)
    (fun _ s' => shell s' = shell s /\ Forall2 reading_step (pw_gpuPowerInfo s) (pw_gpuPowerInfo s')) s.
Proof.
  intros Hlen. unfold updateThermalData. apply wp_bind, wp_reads. apply (wp_each_infos (shell s) reading_step); [done|].
  intros i s1 info Hsh Hlt Hi.
  assert (exists gpu, getGpu (Z.of_nat i) reg = Some gpu) as [gpu Hgpu].
  { unfold getGpu. rewrite (proj2 (Z.ltb_lt _ _)), Nat2Z.id by lia. apply lookup_lt_is_Some_2. lia. }
  unfold readTemperature, readPowerDraw. rewrite Hgpu.
  apply wp_bind. eapply wp_mono; [by apply wp_set_info|]. intros ? s2 H2. pose proof (at_info_lookup _ _ _ _ _ Hi H2) as Hi2.
  apply wp_bind. eapply wp_mono; [by apply wp_set_info|]. intros ? s3 H3. pose proof (at_info_lookup _ _ _ _ _ Hi2 H3) as Hi3.
  apply wp_bind. eapply wp_intro; [reflexivity|]. eapply wp_mono; [by apply wp_set_info|]. intros ? s4 H4.
  eexists. split; [exact (at_info_trans _ _ _ _ _ _ (at_info_trans _ _ _ _ _ _ H2 H3) H4)|]. done.
Qed.

Lemma wp_checkThermalState s :
  wp checkThermalState
    (fun _ s' => shell s' = shell s /\ Forall2 thermal_step (pw_gpuPowerInfo s) (pw_gpuPowerInfo s')) s.
Proof.
  unfold checkThermalState. apply wp_bind, wp_reads. apply (wp_each_infos (shell s) thermal_step); [done|].
  intros i s1 info Hsh Hlt Hi. apply wp_bind. eapply wp_info_at; [exact Hi|]. apply wp_bind, wp_get.
  destruct (thermal_of _ _) as [th throttle]. apply wp_bind. eapply wp_mono; [by apply wp_set_info|].
  intros ? s2 Hat. pose proof (at_info_lookup _ _ _ _ _ Hi Hat) as Hi2. apply wp_if; intros Hb.
  - apply andb_true_iff in Hb as [-> _]. eapply wp_mono; [by apply wp_transition|].
    intros ? s3 (info' & Hat' & Hst & Hfan & Hen & Hth). exists info'. split; [by eapply at_info_trans|].
    unfold thermal_step. rewrite Hst, Hfan, Hen, Hth. done.
  - apply wp_ret. eexists. split; [exact Hat|]. split; [done|]. split; [done|]. cbn.
    destruct throttle; [|done]. apply andb_false_iff in Hb as [?|Hb]; [done|].
    apply negb_false_iff, bool_decide_eq_true in Hb. done.
Qed.

Lemma wp_applyFanControl s :
  Forall fan_curve_ok (pw_fanCurves s) ->
  wp applyFanControl
    (fun _ s' => shell s' = shell s /\ Forall2 fan_step (pw_gpuPowerInfo s) (pw_gpuPowerInfo s')) s.
Proof.
  intros Hcurves. unfold applyFanControl. apply wp_bind, wp_reads. apply (wp_each_infos (shell s) fan_step); [done|].
  intros i s1 info Hsh Hlt Hi. apply wp_bind. eapply wp_info_at; [exact Hi|]. apply wp_if; intros Hen.
  { apply wp_ret. exists info. split; [by apply at_info_id|]. done. }
  apply wp_bind, wp_get, wp_bind. rewrite (shell_fanCurves _ _ Hsh).
  apply (wp_mono _ (fun r s' => s' = s1 /\ (fan_ok info -> percent r))).
  { assert (fan_ok info -> percent (if fn_automatic (pi_fanControl info) then 0
      else fn_manualSpeedPercent (pi_fanControl info))) as Hman.
    { intros [_ Hm]. destruct (fn_automatic _); [unfold percent; lia|done]. }
    destruct (pw_fanCurves s !! i) as [c|] eqn:Hc; [|by apply wp_ret].
    apply wp_if; intros _; [|by apply wp_ret]. rewrite Forall_lookup in Hcurves.
    eapply wp_mono; [apply fan_curve_percent, (Hcurves _ _ Hc)|]. by intros ? ? [? ->]. }
  intros target s2 [-> Htarget]. apply wp_bind.
  apply (wp_mono _ (fun _ s' => exists info', at_info i s1 info' s' /\ fan_step info info')).
  { apply wp_if; intros _.
    - eapply wp_mono; [by apply wp_set_info|]. intros ? s2 Hat. eexists. split; [exact Hat|]. split; [done|].
      intros Hok. split; [by apply Htarget|apply Hok].
    - apply wp_ret. exists info. by split; [apply at_info_id|]. }
  intros ? s2 (info2 & Hat & Hstep & Hfan). pose proof (at_info_lookup _ _ _ _ _ Hi Hat) as Hi2.
  eapply wp_mono; [by apply wp_set_info|]. intros ? s3 Hat3. eexists. split; [exact (at_info_trans _ _ _ _ _ _ Hat Hat3)|]. by split.
Qed.

(** ** Clocks *)

Definition share_in_range (u : Z) : bool :=
  match clock_share u with Some z => (0 <=? z) && (z <=? 1500) | None => false end.

Lemma share_table : forallb share_in_range (seqZ 0 101) = true.
Proof. vm_compute. reflexivity. Qed.

Lemma clock_share_ok u : percent u -> exists z, clock_share u = Some z /\ 0 <= z <= 1500.
Proof.
  intros Hu. pose proof (proj1 (forallb_forall _ _) share_table u) as Ht.
  assert (In u (seqZ 0 101)) as Hin by (apply list_elem_of_In, elem_of_seqZ; unfold percent in Hu; lia).
  specialize (Ht Hin). unfold share_in_range in Ht. destruct (clock_share u) as [z|]; [|done].
  apply andb_true_iff in Ht as [?%Z.leb_le ?%Z.leb_le]. eauto.
Qed.

Definition clock_ok (z : Z) : Prop := z = 0 \/ 500 <= z <= 2000.
Definition dvfs_ok (d : DvfsState) : Prop := clock_ok (dv_targetClockMhz d) /\ clock_ok (dv_currentClockMhz d).

Definition psu_off (p : PsuConfig) : Prop := ps_enableHeadroomTracking p = false \/ ps_totalCapacityWatts p = 0.

Definition shell_ok (l : bool) (s : PowerManager) : Prop :=
  pw_locked s = l /\ length (pw_dvfsState s) = length (rg_gpus reg) /\ Forall dvfs_ok (pw_dvfsState s) /\
  Forall fan_curve_ok (pw_fanCurves s) /\ Forall power_curve_ok (pw_powerCurves s) /\ psu_off (pw_psuConfig s).

Definition reg_ok : Prop :=
  Z.of_nat (length (rg_gpus reg)) <= U32_MAX /\ Forall (fun d => percent (sta_utilization (dv_state d))) (rg_gpus reg).

Lemma getGpu_util i gpu : reg_ok -> getGpu i reg = Some gpu -> percent (sta_utilization (dv_state gpu)).
Proof.
  intros [_ Hr] Hg. unfold getGpu in Hg. destruct (_ <? _); [|done]. exact (Forall_lookup_1 _ _ _ _ Hr Hg).
Qed.

Lemma shell_ok_dvfs l s f i :
  shell_ok l s -> (forall d, dvfs_ok d -> dvfs_ok (f d)) -> shell_ok l (s <| pw_dvfsState ::= alter f i |>).
Proof.
  intros (H1 & H2 & H3 & H4 & H5 & H6) Hf. split; [done|]. split; [cbn; by rewrite length_alter|].
  split; [|done]. apply Forall_alter; [done|]. intros d _. apply Hf.
Qed.

(** A change of the clocks alone. *)
Definition clocks_only (s s' : PowerManager) : Prop :=
  shell_ok true s' /\ pw_gpuPowerInfo s' = pw_gpuPowerInfo s /\ pw_config s' = pw_config s.

Lemma wp_set_dvfs s0 s i f :
  clocks_only s0 s -> (forall d, dvfs_ok d -> dvfs_ok (f d)) -> wp (set_dvfs i f) (fun _ s' => clocks_only s0 s') s.
Proof. intros (H1 & H2 & H3) Hf. apply wp_modify. split; [by apply shell_ok_dvfs|done]. Qed.

Lemma wp_applyDvfs s :
  reg_ok -> shell_ok true s -> wp (applyDvfs reg) (fun _ s' => clocks_only s s') s.
Proof.
  intros Hreg Hs. unfold applyDvfs. apply wp_bind, wp_get. apply wp_if; [intros _; by apply wp_ret|intros _].
  apply wp_each_inv; [done|]. intros i s1 Hi%in_seq H1. destruct (getGpu (Z.of_nat i) reg) as [gpu|] eqn:Hg; [|by apply wp_ret].
  destruct (clock_share_ok _ (getGpu_util _ _ Hreg Hg)) as (share & Hshare & Hrange). rewrite Hshare.
  apply wp_bind, wp_ret. assert (clock_ok (u32 (500 + share))) as Hclock.
  { right. rewrite u32_small by (unfold is_u32, U32_MAX; lia). lia. }
  apply wp_bind. eapply wp_mono.
  { apply (wp_set_dvfs s); [done|]. intros d [_ Hd]. by split. }
  intros ? s2 H2. apply wp_bind, wp_get, wp_bind, wp_vec_get.
  { destruct H2 as ((_ & -> & _) & _), Hs as (_ & Hl & _). lia. }
  intros d _. apply wp_if; intros _; [|by apply wp_ret]. apply wp_set_dvfs; [done|]. intros d' [Hd _]. by split.
Qed.

Lemma reduced_clock c : clock_ok c -> clock_ok (Z.max 500 (u32 ((if 0 <? c then c else 2000) * 9) / 10)).
Proof.
  intros Hc. assert (500 <= (if 0 <? c then c else 2000) <= 2000) as Hm.
  { destruct (Z.ltb_spec 0 c), Hc; lia. }
  revert Hm. generalize (if 0 <? c then c else 2000). intros m Hm. rewrite u32_small by (unfold is_u32, U32_MAX; lia).
  right. assert (m * 9 / 10 <= 2000) by (apply Z.div_le_upper_bound; lia). lia.
Qed.

Lemma wp_applyPowerCurves s :
  reg_ok -> shell_ok true s -> length (pw_gpuPowerInfo s) = length (rg_gpus reg) ->
  wp (applyPowerCurves reg) (fun _ s' => clocks_only s s') s.
Proof.
  intros Hreg Hs Hlen. unfold applyPowerCurves. apply wp_bind, wp_get. apply wp_if; [intros _; by apply wp_ret|intros _].
  apply (wp_mono _ (fun _ s' => clocks_only s s' /\ pw_powerCurves s' = pw_powerCurves s)); [|by intros ? s' []].
  apply (wp_each_inv (fun s' => clocks_only s s' /\ pw_powerCurves s' = pw_powerCurves s)); [done|].
  intros i s1 Hi%in_seq [H1 Hpc]. destruct (getGpu (Z.of_nat i) reg) as [gpu|] eqn:Hg; [|by apply wp_ret].
  apply wp_bind, wp_get. apply wp_if; [intros _; by apply wp_ret|]. intros Hlt%Nat.leb_gt.
  pose proof H1 as ((_ & Hl1 & Hd1 & _ & Hc1 & _) & Hinfos & _).
  apply wp_bind, wp_vec_get; [rewrite Hpc; lia|]. intros curve Hcurve.
  pose proof (Forall_lookup_1 _ _ _ _ Hc1 Hcurve) as Hcurve_ok.
  apply wp_bind. eapply wp_mono; [by apply interpolatePowerLimit_ok|]. intros limit s2 [_ ->].
  apply wp_if; intros _; [|by apply wp_ret].
  destruct (lookup_lt_is_Some_2 (pw_gpuPowerInfo s1) i) as [info Hinfo]; [rewrite Hinfos; lia|].
  apply wp_bind. eapply wp_info_at; [exact Hinfo|]. apply wp_if; intros _; [|by apply wp_ret].
  apply wp_bind, wp_vec_get; [lia|]. intros d Hd. pose proof (Forall_lookup_1 _ _ _ _ Hd1 Hd) as [_ Hcur].
  apply wp_modify. split; [|done]. destruct H1 as (Hs1 & H2 & H3). split; [|done]. apply shell_ok_dvfs; [done|].
  intros d' [_ Hd']. split; [|done]. by apply reduced_clock.
Qed.

(** ** A round *)

Definition power_inv (l : bool) (s : PowerManager) : Prop :=
  shell_ok l s /\ length (pw_gpuPowerInfo s) = length (rg_gpus reg) /\ Forall fan_ok (pw_gpuPowerInfo s).

Lemma shell_ok_shell l s s' : shell s' = shell s -> shell_ok l s -> shell_ok l s'.
Proof. intros Heq Hs. change (shell_ok l (shell s')). rewrite Heq. exact Hs. Qed.

Lemma wp_guarded {A : Type} (m : PM A) (Q : A -> PowerManager -> Prop) s :
  pw_locked s = false -> wp m (fun a s' => Q a (s' <| pw_locked := false |>)) (s <| pw_locked := true |>) ->
  wp (guarded m) Q s.
Proof.
  intros Hl Hm. unfold guarded. apply wp_bind, wp_get. rewrite Hl. apply wp_bind. eapply wp_intro; [reflexivity|].
  apply wp_bind. eapply wp_mono; [exact Hm|]. intros a s' HQ. by apply wp_bind, wp_modify, wp_ret.
Qed.

Lemma power_inv_locked l s : power_inv l s -> forall l', power_inv l' (s <| pw_locked := l' |>).
Proof. intros ((_ & H2) & H3) l'. split; [split; [done|exact H2]|exact H3]. Qed.

Lemma power_inv_steps l s s' P :
  power_inv l s -> shell_ok l s' -> Forall2 P (pw_gpuPowerInfo s) (pw_gpuPowerInfo s') ->
  (forall a b, P a b -> fan_ok a -> fan_ok b) -> power_inv l s'.
Proof.
  intros (_ & H2 & H3) Hs' HF HP. split; [done|]. split; [by rewrite <- (Forall2_length _ _ _ HF)|].
  eapply Forall2_Forall_r; [exact HF|]. eapply Forall_impl; [exact H3|]. intros a Ha b Hab. by eapply HP.
Qed.

(** What a round does to a GPU: its state moves down by one step at most, or
    back to active; a GPU that is not managed or throttled only leaves its
    state to be throttled, and a GPU the round throttles is active. *)
Definition round_step (cfg : PowerConfig) (a b : GpuPowerInfo) : Prop :=
  pi_enabled b = pi_enabled a /\
  step_ok cfg (pi_state a) (pi_state b) /\
  (pi_enabled a = false \/ pi_inThermalThrottle a = true ->
     pi_state b = pi_state a \/ pi_inThermalThrottle b = true /\ pi_state b = PS_ACTIVE) /\
  (pi_inThermalThrottle b = true -> pi_inThermalThrottle a = false -> pi_state b = PS_ACTIVE).

(** The thermal part, if the interval has passed. *)
Definition thermal_part (a b : GpuPowerInfo) : Prop :=
  pi_fanControl b = pi_fanControl a /\ pi_enabled b = pi_enabled a /\
  (pi_state b = pi_state a /\ pi_inThermalThrottle b = pi_inThermalThrottle a \/
   pi_state b = (if pi_inThermalThrottle b then PS_ACTIVE else pi_state a)).

Lemma wp_thermal now s (b : bool) :
  power_inv true s ->
  wp (if b then updateThermalData reg;; checkThermalState;; modify (fun s => s <| pw_lastThermalUpdate := now |>)
      else mret tt)
    (fun _ s' => shell_ok true s' /\ Forall2 thermal_part (pw_gpuPowerInfo s) (pw_gpuPowerInfo s')) s.
Proof.
  intros (Hs & Hlen & _). apply wp_if; intros _.
  - apply wp_bind. eapply wp_mono; [apply wp_updateThermalData; lia|]. intros ? s1 [Hsh1 HF1].
    apply wp_bind. eapply wp_mono; [apply wp_checkThermalState|]. intros ? s2 [Hsh2 HF2].
    apply wp_modify. split; [change (shell_ok true s2)|].
    + eapply (shell_ok_shell _ s); [congruence|done].
    + eapply Forall2_trans; [|exact HF1|exact HF2]. intros x b' c ((Hst & Hen & _) & Hfan) (Hfan' & Hen' & Hst').
      unfold thermal_part. rewrite Hfan', Hen', Hst', Hfan, Hen, Hst. auto.
  - apply wp_ret. split; [done|]. apply Forall_Forall2_diag, Forall_true. intros x. unfold thermal_part. auto.
Qed.

Lemma wp_clocks now s (b : bool) :
  reg_ok -> power_inv true s ->
  wp (if b then applyDvfs reg;; applyPowerCurves reg;; modify (fun s => s <| pw_lastDvfsUpdate := now |>) else mret tt)
    (fun _ s' => shell_ok true s' /\ pw_gpuPowerInfo s' = pw_gpuPowerInfo s) s.
Proof.
  intros Hreg (Hs & Hlen & _). apply wp_if; intros _; [|by apply wp_ret].
  apply wp_bind. eapply wp_mono; [by apply wp_applyDvfs|]. intros ? s1 (Hs1 & Hi1 & _).
  apply wp_bind. eapply wp_mono; [by apply wp_applyPowerCurves; [..|rewrite Hi1]|]. intros ? s2 (Hs2 & Hi2 & _).
  apply wp_modify. split; [exact Hs2|]. cbn. congruence.
Qed.

Lemma wp_headroom_off s (b : bool) (Q : unit -> PowerManager -> Prop) :
  psu_off (pw_psuConfig s) -> Q tt s -> wp (if b then updatePsuHeadroom else mret tt) Q s.
Proof.
  intros Hoff HQ. apply wp_if; intros _; [|by apply wp_ret]. unfold updatePsuHeadroom. apply wp_bind, wp_get.
  apply wp_if; [intros _; by apply wp_ret|]. intros [H1%negb_false_iff H2%Z.eqb_neq]%orb_false_iff. destruct Hoff; congruence.
Qed.

Lemma round_step_trans cfg a b c d :
  idle_step cfg a b -> thermal_part b c -> fan_step c d -> round_step cfg a d /\ (fan_ok a -> fan_ok d).
Proof.
  intros (Hf1 & He1 & Ht1 & Hs1 & Hstay) (Hf2 & He2 & Hs2) ((Hs3 & He3 & Ht3) & Hf3).
  split; [|intros [Ha Hb]; apply Hf3; unfold fan_ok; rewrite Hf2, Hf1; by split].
  unfold round_step. rewrite Hs3, He3, Ht3, He2. split; [done|]. destruct Hs2 as [[Hs2 Ht2]|Hs2].
  - rewrite Hs2. split; [done|]. split; [intros Hx; left; auto|]. intros. congruence.
  - destruct (pi_inThermalThrottle c); rewrite Hs2; [|split; [done|]; split; [intros Hx; left; auto|done]].
    split; [unfold step_ok; auto|]. split; auto.
Qed.

Lemma wp_round s :
  reg_ok -> power_inv false s ->
  wp (power_events reg)
    (fun _ s' => power_inv false s' /\ Forall2 (round_step (pw_config s)) (pw_gpuPowerInfo s) (pw_gpuPowerInfo s')) s.
Proof.
  intros Hreg Hs. unfold power_events. apply wp_guarded; [apply Hs|].
  assert (power_inv true (s <| pw_locked := true |>)) as Hs0 by (by eapply power_inv_locked).
  apply wp_bind, wp_pw_now, wp_bind. eapply wp_mono; [apply wp_checkIdleTimeouts|]. intros ? s1 [Hsh1 HF1].
  assert (power_inv true s1) as Hs1.
  { eapply power_inv_steps; [exact Hs0| |exact HF1|]; [by eapply shell_ok_shell; [exact Hsh1|apply Hs0]|].
    intros a' b (Hf & _). unfold fan_ok. by rewrite Hf. }
  apply wp_bind, wp_get, wp_bind. eapply wp_mono; [by apply wp_thermal|]. intros ? s2 [Hs2 HF2].
  assert (power_inv true s2) as Hi2.
  { eapply power_inv_steps; [exact Hs1|exact Hs2|exact HF2|]. intros a' b (Hf & _). unfold fan_ok. by rewrite Hf. }
  apply wp_bind.
  apply (wp_mono _ (fun _ s' => shell_ok true s' /\ pw_gpuPowerInfo s' = pw_gpuPowerInfo s2)).
  { apply wp_if; intros _; [by apply wp_clocks|by apply wp_ret]. }
  intros ? s3 [Hs3 Hinfos]. apply wp_bind, wp_headroom_off; [apply Hs3|].
  eapply wp_mono; [apply wp_applyFanControl, Hs3|]. intros ? s4 [Hsh4 HF4]. rewrite Hinfos in HF4.
  assert (Forall2 (fun a b => round_step (pw_config s) a b /\ (fan_ok a -> fan_ok b))
    (pw_gpuPowerInfo s) (pw_gpuPowerInfo s4)) as HF.
  { assert (Forall2 (fun b d => exists c, thermal_part b c /\ fan_step c d) (pw_gpuPowerInfo s1) (pw_gpuPowerInfo s4))
      as HF24 by (eapply Forall2_trans; [|exact HF2|exact HF4]; intros b c d; by exists c).
    eapply Forall2_trans; [|exact HF1|exact HF24]. intros x b d Hab (c & Hbc & Hcd).
    exact (round_step_trans _ _ _ _ _ Hab Hbc Hcd). }
  split; [|eapply Forall2_impl; [exact HF|]; by intros ? ? []].
  apply (power_inv_locked true s4). eapply power_inv_steps; [exact Hs0| |exact HF|by intros ? ? []].
  by eapply shell_ok_shell.
Qed.

(** ** Calls of the clients *)

Inductive pcall : Type :=
| P_round
| P_activity (i : Z)
| P_setState (i : Z) (st : PowerState)
| P_setManaged (i : Z) (b : bool)
| P_setFanSpeed (i speed : Z)
| P_setFanAutomatic (i : Z) (b : bool)
| P_setThreshold (i celsius : Z)
| P_setConfig (c : PowerConfig)
| P_setPsu (c : PsuConfig)
| P_setFanCurve (i : Z) (c : GpuCurve)
| P_setPowerCurve (i : Z) (c : GpuCurve)
| P_getFanCurve (i : Z)
| P_getPowerCurve (i : Z)
| P_getState (i : Z)
| P_getStats (i : Z)
| P_getThermal (i : Z)
| P_getHeadroom.

Definition run_pcall (c : pcall) : PM unit :=
  match c with
  | P_round => power_events reg
  | P_activity i => notifyActivity i
  | P_setState i st => setPowerState i st;; mret tt
  | P_setManaged i b => setManaged i b
  | P_setFanSpeed i speed => setFanSpeed i speed
  | P_setFanAutomatic i b => setFanAutomatic i b
  | P_setThreshold i celsius => setThermalThreshold i celsius
  | P_setConfig c => setConfig c
  | P_setPsu c => setPsuConfig c
  | P_setFanCurve i c => setFanCurve i c
  | P_setPowerCurve i c => setPowerCurve i c
  | P_getFanCurve i => getFanCurve i;; mret tt
  | P_getPowerCurve i => getPowerCurve i;; mret tt
  | P_getState i => getPowerState i;; mret tt
  | P_getStats i => getPowerStats i;; mret tt
  | P_getThermal i => getThermalState i;; mret tt
  | P_getHeadroom => getPsuHeadroom;; mret tt
  end.

Fixpoint run_pcalls (l : list pcall) : PM unit :=
  match l with [] => mret tt | c :: rest => run_pcall c;; run_pcalls rest end.

(** Indices and speeds are unsigned; headroom tracking is not combined with a
    capacity, because that takes the mutex twice; the points of a curve are
    percentages, because those at the ends are used as they are, and no more
    than there is room for. *)
Definition pcall_ok (c : pcall) : Prop :=
  match c with
  | P_activity i | P_setState i _ | P_setManaged i _ | P_setFanAutomatic i _ | P_getState i | P_getStats i
  | P_getThermal i => is_u32 i
  | P_setFanSpeed i speed => is_u32 i /\ 0 <= speed
  | P_setPsu c => psu_off c
  | P_setFanCurve _ c => fan_curve_ok c
  | P_setPowerCurve _ c => power_curve_ok c
  | _ => True
  end.

Lemma power_inv_at l i s info s' : power_inv l s -> at_info i s info s' -> fan_ok info -> power_inv l s'.
Proof.
  intros (H1 & H2 & H3) [Hsh Hi] Hf. split; [by eapply shell_ok_shell|]. rewrite Hi. split; [by rewrite length_insert|].
  by apply Forall_insert.
Qed.

Lemma wp_with_gpu {A : Type} i (a : A) m s :
  is_u32 i -> power_inv false s ->
  (forall s1 info, power_inv true s1 -> pw_gpuPowerInfo s1 !! Z.to_nat i = Some info -> fan_ok info ->
     wp (m (Z.to_nat i)) (fun _ s' => power_inv true s') s1) ->
  wp (with_gpu i a m) (fun _ s' => power_inv false s') s.
Proof.
  intros [Hi _] Hs Hm. apply wp_guarded; [apply Hs|]. apply wp_bind, wp_get. pose proof (power_inv_locked _ _ Hs true) as Hs1.
  apply (wp_mono _ (fun _ s' => power_inv true s')); [|intros ? s' Hs'; by apply (power_inv_locked true)].
  apply wp_if; [intros _; by apply wp_ret|]. intros Hlt%Z.leb_gt.
  destruct (lookup_lt_is_Some_2 (pw_gpuPowerInfo (s <| pw_locked := true |>)) (Z.to_nat i)) as [info Hinfo]; [lia|].
  eapply Hm; [done|exact Hinfo|]. destruct Hs1 as (_ & _ & HF). exact (Forall_lookup_1 _ _ _ _ HF Hinfo).
Qed.

Lemma wp_set_info_inv l i f s info :
  power_inv l s -> pw_gpuPowerInfo s !! i = Some info -> fan_ok (f info) ->
  wp (set_info i f) (fun _ s' => power_inv l s' /\ pw_gpuPowerInfo s' !! i = Some (f info)) s.
Proof.
  intros Hs Hi Hf. eapply wp_mono; [by apply wp_set_info|]. intros ? s' Hat.
  split; [exact (power_inv_at _ _ _ _ _ Hs Hat Hf)|exact (at_info_lookup _ _ _ _ _ Hi Hat)].
Qed.

Lemma wp_transition_inv l i st s info :
  power_inv l s -> pw_gpuPowerInfo s !! i = Some info -> fan_ok info ->
  wp (transitionGpuPower i st)
    (fun _ s' => power_inv l s' /\ exists info', pw_gpuPowerInfo s' !! i = Some info' /\ fan_ok info') s.
Proof.
  intros Hs Hi Hf. eapply wp_mono; [by apply wp_transition|]. intros ? s' (info' & Hat & _ & Hfan & _).
  assert (fan_ok info') as Hf' by (unfold fan_ok; by rewrite Hfan).
  split; [exact (power_inv_at _ _ _ _ _ Hs Hat Hf')|]. exists info'. split; [exact (at_info_lookup _ _ _ _ _ Hi Hat)|done].
Qed.

Lemma wp_notifyActivity i s :
  is_u32 i -> power_inv false s -> wp (notifyActivity i) (fun _ s' => power_inv false s') s.
Proof.
  intros Hi Hs. apply wp_with_gpu; [done|done|]. clear s Hs. intros s info Hs Hinfo Hf.
  apply wp_bind, wp_pw_now, wp_bind. eapply wp_mono; [by apply (wp_set_info_inv true)|]. intros ? s1 [Hs1 Hi1].
  apply wp_bind. eapply wp_info_at; [exact Hi1|]. apply wp_bind.
  apply (wp_mono _ (fun _ s' => power_inv true s' /\
    exists info', pw_gpuPowerInfo s' !! Z.to_nat i = Some info' /\ fan_ok info')).
  { apply wp_if; intros _; [by eapply wp_transition_inv|]. apply wp_ret. eauto. }
  intros ? s2 (Hs2 & info2 & Hi2 & Hf2). apply wp_bind, wp_pw_now, wp_bind. eapply wp_info_at; [exact Hi2|].
  eapply wp_mono; [by apply (wp_set_info_inv true)|]. by intros ? s3 [].
Qed.

Lemma wp_guarded_set (f : PowerManager -> PowerManager) s :
  power_inv false s -> (forall s, power_inv true s -> power_inv true (f s)) ->
  wp (guarded (modify f)) (fun _ s' => power_inv false s') s.
Proof.
  intros Hs Hf. apply wp_guarded; [apply Hs|]. apply wp_modify. apply (power_inv_locked true), Hf. by eapply power_inv_locked.
Qed.

Lemma wp_pcall c s :
  reg_ok -> pcall_ok c -> power_inv false s -> wp (run_pcall c) (fun _ s' => power_inv false s') s.
Proof.
  intros Hreg Hc Hs.
  assert (forall A (m : PM A), wp m (fun _ s' => power_inv false s') s ->
    wp (m;; mret tt) (fun _ s' => power_inv false s') s) as Hdrop.
  { intros A m Hm. apply wp_bind. eapply wp_mono; [exact Hm|]. intros ? s' Hs'. by apply wp_ret. }
  destruct c; cbn [run_pcall pcall_ok] in *.
  - eapply wp_mono; [by apply wp_round|]. by intros ? s' [].
  - by apply wp_notifyActivity.
  - apply Hdrop, wp_with_gpu; [done|done|]. intros s1 info H1 Hi Hf. apply wp_bind.
    eapply wp_mono; [by eapply wp_transition_inv|]. intros ? s2 [H2 _]. by apply wp_ret.
  - apply wp_with_gpu; [done|done|]. intros s1 info H1 Hi Hf. eapply wp_mono; [by apply (wp_set_info_inv true)|]. by intros ? ? [].
  - destruct Hc as [Hi' Hsp]. apply wp_with_gpu; [done|done|]. intros s1 info H1 Hi Hf.
    eapply wp_mono; [apply (wp_set_info_inv true); [done|exact Hi|]|by intros ? ? []].
    split; cbn; unfold percent; lia.
  - apply wp_with_gpu; [done|done|]. intros s1 info H1 Hi Hf. eapply wp_mono; [by apply (wp_set_info_inv true)|]. by intros ? ? [].
  - by apply wp_guarded_set.
  - by apply wp_guarded_set.
  - apply wp_guarded_set; [done|]. intros s1 ((H1 & H2 & H3 & H4 & H5 & _) & Hr).
    exact (conj (conj H1 (conj H2 (conj H3 (conj H4 (conj H5 Hc))))) Hr).
  - apply wp_guarded_set; [done|]. intros s1 ((H1 & H2 & H3 & H4 & H56) & Hr).
    exact (conj (conj H1 (conj H2 (conj H3 (conj (Forall_insert _ _ _ _ H4 Hc) H56)))) Hr).
  - apply wp_guarded_set; [done|]. intros s1 ((H1 & H2 & H3 & H4 & H5 & H6) & Hr).
    exact (conj (conj H1 (conj H2 (conj H3 (conj H4 (conj (Forall_insert _ _ _ _ H5 Hc) H6))))) Hr).
  - apply Hdrop, wp_guarded; [apply Hs|]. apply wp_bind, wp_get, wp_ret. by apply (power_inv_locked true), (power_inv_locked false).
  - apply Hdrop, wp_guarded; [apply Hs|]. apply wp_bind, wp_get, wp_ret. by apply (power_inv_locked true), (power_inv_locked false).
  - apply Hdrop, wp_with_gpu; [done|done|]. intros s1 info H1 Hi Hf. apply wp_bind. eapply wp_info_at; [exact Hi|]. by apply wp_ret.
  - apply Hdrop, wp_with_gpu; [done|done|]. intros s1 info H1 Hi Hf. apply wp_bind. eapply wp_info_at; [exact Hi|]. by apply wp_ret.
  - apply Hdrop, wp_with_gpu; [done|done|]. intros s1 info H1 Hi Hf. apply wp_bind. eapply wp_info_at; [exact Hi|]. by apply wp_ret.
  - apply Hdrop, wp_guarded; [apply Hs|]. apply wp_bind, wp_get, wp_ret. by apply (power_inv_locked true), (power_inv_locked false).
Qed.

Lemma wp_pcalls l s :
  reg_ok -> Forall pcall_ok l -> power_inv false s -> wp (run_pcalls l) (fun _ s' => power_inv false s') s.
Proof.
  intros Hreg Hl. revert s. induction Hl as [|c l Hc Hl IH]; intros s Hs; [by apply wp_ret|]. apply wp_bind.
  eapply wp_mono; [by apply wp_pcall|]. intros ? s' Hs'. by apply IH.
Qed.

Lemma init_infos_ok k s :
  wp (init_infos k) (fun l s' => length l = k /\ Forall fan_ok l /\ shell s' = shell s) s.
Proof.
  revert s. induction k as [|k IH]; intros s; [by apply wp_ret|]. cbn [init_infos]. apply wp_bind, wp_pw_now, wp_bind.
  eapply wp_mono; [apply IH|]. intros l s' (Hl & HF & Hs). apply wp_ret. split; [cbn; congruence|]. split; [|done].
  constructor; [|done]. split; cbn; unfold percent; lia.
Qed.

Lemma defaultPowerCurve_ok : power_curve_ok defaultPowerCurve.
Proof. split; [done|]. split; [cbn; lia|]. repeat constructor; cbn; lia. Qed.

Lemma wp_power_init : reg_ok -> wp (power_init reg) (fun _ s' => power_inv false s') PowerManager_new.
Proof.
  intros [Hlen _]. unfold power_init.
  assert (Z.to_nat (gpuCount reg) = length (rg_gpus reg)) as ->.
  { unfold gpuCount. rewrite u32_small by (unfold is_u32; lia). lia. }
  apply wp_bind. eapply wp_mono; [apply init_infos_ok|]. intros infos s1 (Hl & HF & Hs).
  apply wp_bind, wp_pw_now, wp_bind, wp_modify, wp_ret.
  assert (pw_locked s1 = false) as Hlock by (change (pw_locked (shell s1) = false); by rewrite Hs).
  split; [|by split]. split; [exact Hlock|]. split; [apply length_replicate|].
  split; [apply Forall_replicate; split; by left|]. split; [apply Forall_replicate, defaultCurve_ok|].
  split; [apply Forall_replicate, defaultPowerCurve_ok|]. by left.
Qed.

(** C21. With at most [2 ^ 32 - 1] GPUs of utilizations of at most 100 percent,
    take any sequence of rounds and client calls on a started power manager of
    the runtime daemon in which headroom tracking is not combined with a
    capacity, a power curve has at most eight points, all percentages, and a
    fan curve at most ten, with speeds that are percentages and temperatures
    below [2 ^ 22].  The calls are the setters, the queries and the report of
    activity.  The sequence returns with the mutex free, clocks of 500 to 2000 MHz (0 before
    the first setting) and fans of at most 100 percent; a further round lowers
    the power state of a GPU by at most one step, leaves unmanaged and
    throttled GPUs unless it throttles them, and leaves a GPU that it newly
    throttles active. *)
Theorem power_rounds_safe (l : list pcall) :
  reg_ok -> Forall pcall_ok l ->
  wp (power_init reg;; run_pcalls l)
    (fun _ s => power_inv false s /\
       wp (power_events reg)
         (fun _ s' => power_inv false s' /\ Forall2 (round_step (pw_config s)) (pw_gpuPowerInfo s) (pw_gpuPowerInfo s')) s)
    PowerManager_new.
Proof.
  intros Hreg Hl. apply wp_bind. eapply wp_mono; [by apply wp_power_init|]. intros ? s1 H1.
  eapply wp_mono; [by apply wp_pcalls|]. intros ? s2 H2. split; [done|]. by apply wp_round.
Qed.
End rounds.

(** ** Two cards, one of them used *)

Module Idling.
#[local] Instance env : RtEnv := {| rt_clock := fun n => Z.of_nat n * 3000000000; rt_model_alloc := true |}.

(** From 10 percent at 40 degrees to 95 at 60. *)
Definition steep : GpuCurve := mk_curve ([(40, 10); (60, 95)] ++ replicate 8 (0, 0)) 2.

(** The ends of a curve are not limited: a client's curve can ask for more
    than full speed. *)
Example unlimited_ends :
  interpolateFanSpeed (mk_curve ([(40, 200)] ++ replicate 9 (0, 0)) 1) 30 PowerManager_new = Ret (200, PowerManager_new).
Proof. reflexivity. Qed.

Definition calls : list pcall := [P_round; P_activity 1; P_setFanSpeed 0 250; P_setFanCurve 1 steep; P_setThreshold 0 50; P_round; P_round].

Definition outcome_of (l : list pcall) : option (bool * list (PowerState * bool * Z) * list Z) :=
  match (power_init TwoCards.reg;; run_pcalls TwoCards.reg l) PowerManager_new with
  | Ret (_, s) =>
      Some (pw_locked s,
        (fun i => (pi_state i, pi_inThermalThrottle i, fn_currentSpeedPercent (pi_fanControl i))) <$> pw_gpuPowerInfo s,
        dv_currentClockMhz <$> pw_dvfsState s)
  | _ => None
  end.

Lemma power_rounds_safe_witness :
  outcome_of [P_round] = Some (false, [(PS_SUSTAINED, false, 30); (PS_SUSTAINED, false, 30)], [1550; 800]) /\
  outcome_of calls = Some (false, [(PS_ACTIVE, true, 100); (PS_ACTIVE, true, 52)], [1550; 800]) /\
  wp (power_init TwoCards.reg;; run_pcalls TwoCards.reg calls)
    (fun _ s => power_inv TwoCards.reg false s /\
       wp (power_events TwoCards.reg)
         (fun _ s' => power_inv TwoCards.reg false s' /\
            Forall2 (round_step (pw_config s)) (pw_gpuPowerInfo s) (pw_gpuPowerInfo s')) s)
    PowerManager_new.
Proof.
  split; [vm_compute; reflexivity|]. split; [vm_compute; reflexivity|].
  apply (power_rounds_safe TwoCards.reg calls).
  - split; [vm_compute; discriminate|]. repeat constructor; vm_compute; discriminate.
  - repeat constructor; vm_compute; discriminate.
Defined.
End Idling.
