(* ===== verification/KernelMain.v ===== *)
(** * The kernel module's GPU table

    kernel/mvgal_main.c with include/mvgal/mvgal_uapi.h, in the default build
    (without MVGAL_FULL_STACK): the table of display controllers found on the
    PCI bus, the ioctl interface, the sysfs objects of the GPUs, hotplug and
    module start and stop.  What the PCI core reports of a device is the record
    [pci_dev]; a bus is the list of devices in the order of [pci_get_device].
    The mutex of the device is part of the state. *)

From S2P Require Import Prelude CString GpuTypes ConfigText.
From stdpp Require Import strings.
From Stdlib Require Import Ascii.
Local Open Scope string_scope.
Local Open Scope Z_scope.

(** ** What the kernel provides *)

(** [pv_linkStatus]: [None] when the device is not PCI Express, [Some None]
    when the register cannot be read.  [pv_bars]: length and flags of the six
    standard resources. *)
Record pci_dev : Type := mk_pci {
  pv_class : Z;
  pv_vendor : Z;
  pv_device : Z;
  pv_subsystem_vendor : Z;
  pv_subsystem_device : Z;
  pv_domain : Z;
  pv_bus : Z;
  pv_devfn : Z;
  pv_numa_node : Z;
  pv_driver_bound : bool;
  pv_driver_string : option string;
  pv_multifunction : bool;
  pv_is_virtfn : bool;
  pv_linkStatus : option (option Z);
  pv_bars : list (Z * Z)
}.

(** [kr_alloc n]: whether the [n]-th allocation of the module succeeds;
    [kr_add n] and [kr_group n]: the error of the [n]-th registration of an
    object under a free name and of its attributes, 0 for success;
    [kstrtoul]: the number that the kernel reads from a text in base 10;
    [kr_chrdev] ... [kr_notifier]: the results of the calls of module start. *)
Class KernelEnv : Type := {
  kr_alloc : nat -> bool;
  kr_add : nat -> Z;
  kr_group : nat -> Z;
  kstrtoul : string -> option Z;
  kr_chrdev : Z;
  kr_cdev : Z;
  kr_class : Z;
  kr_device : Z;
  kr_notifier : Z
}.

Definition EINVAL : Z := 22.
Definition ENOMEM : Z := 12.
Definition EFAULT : Z := 14.
Definition EEXIST : Z := 17.
Definition ENOTTY : Z := 25.
Definition EOPNOTSUPP : Z := 95.

Definition IORESOURCE_MEM : Z := 512.
Definition IORESOURCE_PREFETCH : Z := 8192.

(** ** The interface (mvgal_uapi.h) *)

Definition MAX_GPUS : nat := 32.

Record mvgal_uapi_stats : Type := mk_kstats {
  ks_open_count : Z;
  ks_release_count : Z;
  ks_ioctl_count : Z;
  ks_rescans : Z;
  ks_hotplug_events : Z;
  ks_unsupported_dmabuf_exports : Z;
  ks_unsupported_dmabuf_imports : Z;
  ks_unsupported_cross_vendor_allocs : Z
}.
#[export] Instance kstats_eta : Eta mvgal_uapi_stats := fun r =>
  mk_kstats (ks_open_count r) (ks_release_count r) (ks_ioctl_count r) (ks_rescans r) (ks_hotplug_events r)
    (ks_unsupported_dmabuf_exports r) (ks_unsupported_dmabuf_imports r) (ks_unsupported_cross_vendor_allocs r).

Record mvgal_uapi_caps : Type := mk_kcaps {
  kc_enabled : Z;
  kc_gpu_count : Z;
  kc_vendor_mask : Z;
  kc_topology_generation : Z;
  kc_max_pcie_link_gen : Z;
  kc_max_pcie_link_width : Z;
  kc_feature_flags : Z;
  kc_largest_prefetchable_bar_bytes : Z;
  kc_largest_mmio_bar_bytes : Z
}.
#[export] Instance kcaps_eta : Eta mvgal_uapi_caps := fun r =>
  mk_kcaps (kc_enabled r) (kc_gpu_count r) (kc_vendor_mask r) (kc_topology_generation r) (kc_max_pcie_link_gen r)
    (kc_max_pcie_link_width r) (kc_feature_flags r) (kc_largest_prefetchable_bar_bytes r)
    (kc_largest_mmio_bar_bytes r).

Record mvgal_gpu_info : Type := mk_ginfo {
  gi_index : Z;
  gi_vendor_id : Z;
  gi_device_id : Z;
  gi_subsystem_vendor_id : Z;
  gi_subsystem_device_id : Z;
  gi_pci_domain : Z;
  gi_pci_bus : Z;
  gi_pci_slot : Z;
  gi_pci_function : Z;
  gi_class_code : Z;
  gi_numa_node : Z;
  gi_pcie_link_gen : Z;
  gi_pcie_link_width : Z;
  gi_flags : Z;
  gi_largest_prefetchable_bar_bytes : Z;
  gi_largest_mmio_bar_bytes : Z;
  gi_name : string;
  gi_driver : string;
  gi_bdf : string
}.
#[export] Instance ginfo_eta : Eta mvgal_gpu_info := fun r =>
  mk_ginfo (gi_index r) (gi_vendor_id r) (gi_device_id r) (gi_subsystem_vendor_id r) (gi_subsystem_device_id r)
    (gi_pci_domain r) (gi_pci_bus r) (gi_pci_slot r) (gi_pci_function r) (gi_class_code r) (gi_numa_node r)
    (gi_pcie_link_gen r) (gi_pcie_link_width r) (gi_flags r) (gi_largest_prefetchable_bar_bytes r)
    (gi_largest_mmio_bar_bytes r) (gi_name r) (gi_driver r) (gi_bdf r).

Definition ginfo_zero : mvgal_gpu_info := mk_ginfo 0 0 0 0 0 0 0 0 0 0 0 0 0 0 0 0 "" "" "".

(** The commands of the interface; [IOC_OTHER magic]: another number, with
    or without the magic byte of the module. *)
Inductive ioctl_cmd : Type :=
| IOC_QUERY_VERSION
| IOC_GET_GPU_COUNT
| IOC_GET_GPU_INFO (index : Z)
| IOC_ENABLE
| IOC_DISABLE
| IOC_GET_STATS
| IOC_GET_CAPS
| IOC_RESCAN
| IOC_EXPORT_DMABUF
| IOC_IMPORT_DMABUF
| IOC_ALLOC_CROSS_VENDOR
| IOC_FREE_CROSS_VENDOR
| IOC_OTHER (magic : bool).

(** What a command writes to the caller. *)
Inductive ioctl_out : Type :=
| OUT_NONE
| OUT_VERSION (major minor patch features : Z)
| OUT_COUNT (n : Z)
| OUT_INFO (info : mvgal_gpu_info)
| OUT_STATS (st : mvgal_uapi_stats)
| OUT_CAPS (caps : mvgal_uapi_caps).

(** All flags from ENUMERATION to FUTURE_SUBMISSION. *)
Definition FEATURES : Z := 127.

Definition GPU_FLAG_DISPLAY_CLASS : Z := 1.
Definition GPU_FLAG_PCIE : Z := 2.
Definition GPU_FLAG_DRIVER_BOUND : Z := 4.
Definition GPU_FLAG_MULTIFUNCTION : Z := 8.
Definition GPU_FLAG_VIRTUAL_FUNCTION : Z := 16.
Definition GPU_FLAG_INTEGRATED_GUESS : Z := 32.

(** ** State *)

Record mvgal_gpu_slot : Type := mk_slot {
  sl_info : mvgal_gpu_info;
  sl_present : bool;
  sl_enabled : bool;
  sl_power_state : string;
  sl_sysfs : option addr
}.
#[export] Instance slot_eta : Eta mvgal_gpu_slot := fun r =>
  mk_slot (sl_info r) (sl_present r) (sl_enabled r) (sl_power_state r) (sl_sysfs r).

Definition slot_zero : mvgal_gpu_slot := mk_slot ginfo_zero false false "" None.

(** [kd_objects]: the sysfs objects in memory, each with the index it was made
    for; all of them are registered under the name of that index.  [kd_chrdev],
    [kd_cdev], [kd_class]: the numbers, the character device and the class are
    registered.
    [kd_steps] counts the calls that can fail. *)
Record mvgal_device : Type := mk_kdev {
  kd_locked : bool;
  kd_gpus : list mvgal_gpu_slot;
  kd_stats : mvgal_uapi_stats;
  kd_chrdev : bool;
  kd_cdev : bool;
  kd_class : bool;
  kd_class_dev : bool;
  kd_gpu_count : Z;
  kd_topology_generation : Z;
  kd_enabled : bool;
  kd_notifier_registered : bool;
  kd_objects : gmap positive Z;
  kd_steps : nat
}.
#[export] Instance kdev_eta : Eta mvgal_device := fun r =>
  mk_kdev (kd_locked r) (kd_gpus r) (kd_stats r) (kd_chrdev r) (kd_cdev r) (kd_class r) (kd_class_dev r)
    (kd_gpu_count r) (kd_topology_generation r) (kd_enabled r) (kd_notifier_registered r) (kd_objects r) (kd_steps r).

Definition mvgal_dev : mvgal_device :=
  mk_kdev false (replicate MAX_GPUS slot_zero) (mk_kstats 0 0 0 0 0 0 0 0) false false false false 0 0 true false ∅ 0.

Abbreviation KM := (M mvgal_device).

Definition mutex_lock : KM unit :=
  s ← get; if kd_locked s then fails SelfDeadlock else put (s <| kd_locked := true |>).
Definition mutex_unlock : KM unit := modify (fun s => s <| kd_locked := false |>).

(** A critical section. *)
Definition with_mutex {A : Type} (m : KM A) : KM A := mutex_lock;; a ← m; mutex_unlock;; mret a.

Definition newline : string := String "010" "".
Definition line (s : string) : string := s +:+ newline.

(** ** Describing a device *)

Definition class_code (pdev : pci_dev) : Z := Z.shiftr (pv_class pdev) 8.

Definition mvgal_is_display_controller (pdev : pci_dev) : bool :=
  (class_code pdev =? 768) || (class_code pdev =? 770) || (class_code pdev =? 896).

Definition mvgal_vendor_name (vendor_id : Z) : string :=
  if vendor_id =? 4098 then "AMD"
  else if vendor_id =? 4318 then "NVIDIA"
  else if vendor_id =? 32902 then "Intel"
  else if vendor_id =? 7893 then "Moore Threads"
  else "Unknown".

Definition mvgal_vendor_mask (vendor_id : Z) : Z :=
  if vendor_id =? 4098 then 1
  else if vendor_id =? 4318 then 2
  else if vendor_id =? 32902 then 4
  else if vendor_id =? 7893 then 8
  else 2147483648.

Definition clamp (lo hi x : Z) : Z := if x <? lo then lo else if hi <? x then hi else x.

Definition mvgal_fill_link_info (pdev : pci_dev) (info : mvgal_gpu_info) : mvgal_gpu_info :=
  match pv_linkStatus pdev with
  | None => info
  | Some st =>
      let info := info <| gi_flags ::= Z.lor GPU_FLAG_PCIE |> in
      match st with
      | None => info
      | Some link_status =>
          info <| gi_pcie_link_gen := clamp 1 6 (Z.land link_status 15) |>
            <| gi_pcie_link_width := clamp 1 16 (Z.shiftr (Z.land link_status 1008) 4) |>
      end
  end.

Definition add_bar (info : mvgal_gpu_info) (bar : Z * Z) : mvgal_gpu_info :=
  let '(len, flags) := bar in
  if (len =? 0) || (Z.land flags IORESOURCE_MEM =? 0) then info else
  if negb (Z.land flags IORESOURCE_PREFETCH =? 0)
  then info <| gi_largest_prefetchable_bar_bytes ::= Z.max len |>
  else info <| gi_largest_mmio_bar_bytes ::= Z.max len |>.

Definition mvgal_fill_bar_info (pdev : pci_dev) (info : mvgal_gpu_info) : mvgal_gpu_info :=
  foldl add_bar info (pv_bars pdev).

(** Hexadecimal digits, at least [width]. *)
Fixpoint hex_digits (fuel : nat) (n : Z) (acc : string) : string :=
  match fuel with
  | O => acc
  | S fuel' => if n <? 16 then hex_digit n +:+ acc else hex_digits fuel' (n / 16) (hex_digit (n mod 16) +:+ acc)
  end.
Fixpoint pad (width : nat) (s : string) : string :=
  match width with
  | O => s
  | S w => if (String.length s <? width)%nat then "0" +:+ pad w s else s
  end.
Definition print_x (width : nat) (n : Z) : string := pad width (hex_digits 8 n "").

(** [snprintf] and [strscpy] into a buffer of [size] bytes. *)
Definition fit (size : nat) (s : string) : string := String.substring 0 (size - 1) s.

Definition flag (b : bool) (f : Z) : Z := if b then f else 0.

Definition mvgal_fill_gpu_info (pdev : pci_dev) (index : Z) : mvgal_gpu_info :=
  let slot := Z.land (Z.shiftr (pv_devfn pdev) 3) 31 in
  let func := Z.land (pv_devfn pdev) 7 in
  let flags :=
    Z.lor (flag (mvgal_is_display_controller pdev) GPU_FLAG_DISPLAY_CLASS)
   (Z.lor (flag (pv_driver_bound pdev) GPU_FLAG_DRIVER_BOUND)
   (Z.lor (flag (pv_multifunction pdev) GPU_FLAG_MULTIFUNCTION)
   (Z.lor (flag (pv_is_virtfn pdev) GPU_FLAG_VIRTUAL_FUNCTION)
          (flag ((pv_vendor pdev =? 32902) && (class_code pdev =? 768)) GPU_FLAG_INTEGRATED_GUESS)))) in
  let info := mk_ginfo index (pv_vendor pdev) (pv_device pdev) (pv_subsystem_vendor pdev) (pv_subsystem_device pdev)
    (pv_domain pdev) (pv_bus pdev) slot func (class_code pdev)
    (if pv_numa_node pdev <? 0 then U32_MAX else pv_numa_node pdev) 0 0 flags 0 0 "" "" "" in
  let info := mvgal_fill_bar_info pdev (mvgal_fill_link_info pdev info) in
  info
    <| gi_driver := fit 32 (default "unbound" (pv_driver_string pdev)) |>
    <| gi_bdf := fit 16 (print_x 4 (pv_domain pdev) +:+ ":" +:+ print_x 2 (pv_bus pdev) +:+ ":" +:+ print_x 2 slot
                         +:+ "." +:+ print_u func) |>
    <| gi_name := fit 128 (mvgal_vendor_name (pv_vendor pdev) +:+ " GPU [" +:+ print_x 4 (pv_vendor pdev) +:+ ":"
                           +:+ print_x 4 (pv_device pdev) +:+ "]") |>.

(** ** The table *)

Definition scanned (index : Z) (pdev : pci_dev) : mvgal_gpu_slot :=
  mk_slot (mvgal_fill_gpu_info pdev index) true true "auto" None.

(** The loop over the bus, which ends at a display controller too many. *)
Fixpoint scan_bus (bus : list pci_dev) (index : nat) (gpus : list mvgal_gpu_slot) : nat * list mvgal_gpu_slot :=
  match bus with
  | [] => (index, gpus)
  | pdev :: rest =>
      if negb (mvgal_is_display_controller pdev) then scan_bus rest index gpus else
      if (MAX_GPUS <=? index)%nat then (index, gpus) else
      scan_bus rest (S index) (<[index := scanned (Z.of_nat index) pdev]> gpus)
  end.

Definition mvgal_rescan_locked (bus : list pci_dev) : KM unit :=
  modify (fun s =>
    let '(index, gpus) := scan_bus bus 0 (replicate MAX_GPUS slot_zero) in
    s <| kd_gpus := gpus |> <| kd_gpu_count := Z.of_nat index |>
      <| kd_topology_generation ::= fun n => u32 (n + 1) |>
      <| kd_stats ::= fun st => st <| ks_rescans ::= fun n => u64 (n + 1) |> |>).

Section module.
Context `{KernelEnv}.

(** ** Sysfs objects *)

(** [kobject_put] of the only reference frees the object and its name. *)
Definition mvgal_sysfs_gpu_remove_locked (index : nat) : KM unit :=
  s ← get;
  if (MAX_GPUS <=? index)%nat then mret tt else
  match kd_gpus s !! index with
  | None => mret tt
  | Some slot =>
      modify (fun s => s <| kd_gpus ::= alter (fun sl => sl <| sl_sysfs := None |>) index |>);;
      match sl_sysfs slot with
      | None => mret tt
      | Some gs => modify (fun s => s <| kd_objects ::= delete gs |>)
      end
  end.

Fixpoint remove_each (l : list nat) : KM unit :=
  match l with [] => mret tt | i :: rest => mvgal_sysfs_gpu_remove_locked i;; remove_each rest end.

Definition mvgal_sysfs_gpus_remove_all_locked : KM unit := remove_each (seq 0 MAX_GPUS).

Definition kernel_step : KM nat := fun s => Ret (kd_steps s, s <| kd_steps ::= S |>).

Definition name_taken (index : Z) (objects : gmap positive Z) : bool :=
  existsb (fun kv => kv.2 =? index) (map_to_list objects).

(** The registration of a name that is taken fails. *)
Definition mvgal_sysfs_gpu_create_locked (index : nat) : KM Z :=
  s ← get;
  if negb (kd_class_dev s) || (kd_gpu_count s <=? Z.of_nat index) then mret (- EINVAL) else
  match kd_gpus s !! index with
  | None => fails OutOfBounds
  | Some slot =>
      match sl_sysfs slot with
      | Some _ => mret 0
      | None =>
          n ← kernel_step;
          if negb (kr_alloc n) then mret (- ENOMEM) else
          let gs := fresh (dom (kd_objects s)) in
          let ret := if name_taken (Z.of_nat index) (kd_objects s) then - EEXIST else kr_add n in
          if negb (ret =? 0) then mret ret else
          modify (fun s => s <| kd_objects ::= <[gs := Z.of_nat index]> |>);;
          let ret := kr_group n in
          if negb (ret =? 0) then modify (fun s => s <| kd_objects ::= delete gs |>);; mret ret else
          modify (fun s => s <| kd_gpus ::= alter (fun sl => sl <| sl_sysfs := Some gs |>) index |>);;
          mret 0
      end
  end.

Fixpoint create_each (l : list nat) : KM unit :=
  match l with [] => mret tt | i :: rest => mvgal_sysfs_gpu_create_locked i;; create_each rest end.

Definition mvgal_sysfs_gpus_refresh_locked : KM unit :=
  mvgal_sysfs_gpus_remove_all_locked;;
  s ← get;
  create_each (seq 0 (Z.to_nat (kd_gpu_count s))).

Definition rescan_and_refresh (bus : list pci_dev) : KM unit :=
  mvgal_rescan_locked bus;; mvgal_sysfs_gpus_refresh_locked.

(** ** Attributes *)

(** The object passes the index it was made for. *)
Definition with_slot {A : Type} (index : Z) (m : KM (A + Z)) : KM (A + Z) :=
  with_mutex (
    s ← get;
    if kd_gpu_count s <=? index then mret (inr (- EINVAL)) else m).

Definition slot_at (index : Z) : KM mvgal_gpu_slot :=
  s ← get; of_option OutOfBounds (kd_gpus s !! Z.to_nat index).

Definition mvgal_gpu_enabled_show (index : Z) : KM (string + Z) :=
  with_slot index (sl ← slot_at index; mret (inl (line (if sl_enabled sl then "1" else "0")))).

(** [count]: the length of the text, which the call returns. *)
Definition mvgal_gpu_enabled_store (index : Z) (buf : string) : KM Z :=
  match kstrtoul buf with
  | None => mret (- EINVAL)
  | Some val =>
      if 1 <? val then mret (- EINVAL) else
      r ← with_slot index (
            modify (fun s => s <| kd_gpus ::= alter (fun sl => sl <| sl_enabled := negb (val =? 0) |>) (Z.to_nat index) |>);;
            mret (inl tt));
      mret (match r with inl _ => Z.of_nat (String.length buf) | inr e => e end)
  end.

Definition mvgal_gpu_pci_path_show (index : Z) : KM (string + Z) :=
  with_slot index (sl ← slot_at index; mret (inl (line (gi_bdf (sl_info sl))))).

Definition mvgal_gpu_power_state_show (index : Z) : KM (string + Z) :=
  with_slot index (sl ← slot_at index; mret (inl (line (sl_power_state sl)))).

(** The text up to a newline or a NUL. *)
Fixpoint upto_newline (s : string) : string :=
  match s with
  | EmptyString => ""
  | String c rest => if (Ascii.eqb c "010" || Ascii.eqb c "000")%char then "" else String c (upto_newline rest)
  end.

Definition mvgal_gpu_power_state_store (index : Z) (buf : string) : KM Z :=
  if (String.length buf =? 0)%nat then mret (- EINVAL) else
  let state := upto_newline (String.substring 0 7 buf) in
  if negb (String.eqb state "auto") && negb (String.eqb state "on") && negb (String.eqb state "off")
  then mret (- EINVAL) else
  r ← with_slot index (
        modify (fun s => s <| kd_gpus ::= alter (fun sl => sl <| sl_power_state := state |>) (Z.to_nat index) |>);;
        mret (inl tt));
  mret (match r with inl _ => Z.of_nat (String.length buf) | inr e => e end).

Definition mvgal_gpu_count_show : KM string :=
  n ← with_mutex (s ← get; mret (kd_gpu_count s)); mret (line (print_u n)).
Definition mvgal_topology_generation_show : KM string :=
  n ← with_mutex (s ← get; mret (kd_topology_generation s)); mret (line (print_u n)).

Definition mvgal_rescan_store (bus : list pci_dev) (buf : string) : KM Z :=
  match kstrtoul buf with
  | None => mret (- EINVAL)
  | Some val =>
      if negb (val =? 1) then mret (- EINVAL) else
      with_mutex (rescan_and_refresh bus);; mret (Z.of_nat (String.length buf))
  end.

(** ** Capabilities *)

Definition add_caps (caps : mvgal_uapi_caps) (slot : mvgal_gpu_slot) : mvgal_uapi_caps :=
  let info := sl_info slot in
  caps <| kc_vendor_mask ::= fun m => Z.lor m (mvgal_vendor_mask (gi_vendor_id info mod 65536)) |>
    <| kc_max_pcie_link_gen ::= Z.max (gi_pcie_link_gen info) |>
    <| kc_max_pcie_link_width ::= Z.max (gi_pcie_link_width info) |>
    <| kc_largest_prefetchable_bar_bytes ::= Z.max (gi_largest_prefetchable_bar_bytes info) |>
    <| kc_largest_mmio_bar_bytes ::= Z.max (gi_largest_mmio_bar_bytes info) |>.

Definition mvgal_build_caps_locked (s : mvgal_device) : mvgal_uapi_caps :=
  foldl add_caps (mk_kcaps (Z.b2z (kd_enabled s)) (kd_gpu_count s) 0 (kd_topology_generation s) 0 0 FEATURES 0 0)
    (take (Z.to_nat (kd_gpu_count s)) (kd_gpus s)).

(** ** Hotplug and files *)

Inductive bus_action : Type := ADD_DEVICE | DEL_DEVICE | BOUND_DRIVER | UNBOUND_DRIVER | OTHER_ACTION.

Definition mvgal_trigger_rescan (bus : list pci_dev) : KM unit := with_mutex (rescan_and_refresh bus).

(** [dev]: the PCI device of the event, if it is one; the result is whether
    the event was handled. *)
Definition mvgal_pci_bus_notifier (bus : list pci_dev) (action : bus_action) (dev : option pci_dev) : KM bool :=
  match dev with
  | None => mret false
  | Some pdev =>
      if negb (mvgal_is_display_controller pdev) then mret false else
      match action with
      | OTHER_ACTION => mret false
      | _ =>
          with_mutex (
            modify (fun s => s <| kd_stats ::= fun st => st <| ks_hotplug_events ::= fun n => u64 (n + 1) |> |>);;
            rescan_and_refresh bus);;
          mret true
      end
  end.

Definition mvgal_open : KM unit :=
  with_mutex (modify (fun s => s <| kd_stats ::= fun st => st <| ks_open_count ::= fun n => u64 (n + 1) |> |>)).
Definition mvgal_release : KM unit :=
  with_mutex (modify (fun s => s <| kd_stats ::= fun st => st <| ks_release_count ::= fun n => u64 (n + 1) |> |>)).

(** ** The ioctl *)

(** [copy_to_user] of a result; [out]: whether the caller's memory can be
    written. *)
Definition give (out : bool) (o : ioctl_out) : KM (Z * ioctl_out) :=
  mret (if out then (0, o) else (- EFAULT, OUT_NONE)).

Definition count_stat (f : mvgal_uapi_stats -> mvgal_uapi_stats) : KM unit := modify (fun s => s <| kd_stats ::= f |>).

Definition unsupported (f : mvgal_uapi_stats -> mvgal_uapi_stats) : KM (Z * ioctl_out) :=
  count_stat f;; mutex_unlock;; mret (- EOPNOTSUPP, OUT_NONE).

(** [inp]: whether the caller's memory can be read. *)
Definition mvgal_ioctl (bus : list pci_dev) (cmd : ioctl_cmd) (inp out : bool) : KM (Z * ioctl_out) :=
  match cmd with
  | IOC_OTHER false => mret (- ENOTTY, OUT_NONE)
  | _ =>
      mutex_lock;;
      count_stat (fun st => st <| ks_ioctl_count ::= fun n => u64 (n + 1) |>);;
      s ← get;
      match cmd with
      | IOC_QUERY_VERSION => mutex_unlock;; give out (OUT_VERSION 0 1 0 FEATURES)
      | IOC_GET_GPU_COUNT => mutex_unlock;; give out (OUT_COUNT (kd_gpu_count s))
      | IOC_GET_GPU_INFO index =>
          if negb inp then mutex_unlock;; mret (- EFAULT, OUT_NONE) else
          if kd_gpu_count s <=? index then mutex_unlock;; mret (- EINVAL, OUT_NONE) else
          sl ← slot_at index;
          mutex_unlock;; give out (OUT_INFO (sl_info sl))
      | IOC_ENABLE => modify (fun s => s <| kd_enabled := true |>);; mutex_unlock;; mret (0, OUT_NONE)
      | IOC_DISABLE => modify (fun s => s <| kd_enabled := false |>);; mutex_unlock;; mret (0, OUT_NONE)
      | IOC_GET_STATS => mutex_unlock;; give out (OUT_STATS (kd_stats s))
      | IOC_GET_CAPS => mutex_unlock;; give out (OUT_CAPS (mvgal_build_caps_locked s))
      | IOC_RESCAN => rescan_and_refresh bus;; mutex_unlock;; mret (0, OUT_NONE)
      | IOC_EXPORT_DMABUF => unsupported (fun st => st <| ks_unsupported_dmabuf_exports ::= fun n => u64 (n + 1) |>)
      | IOC_IMPORT_DMABUF => unsupported (fun st => st <| ks_unsupported_dmabuf_imports ::= fun n => u64 (n + 1) |>)
      | IOC_ALLOC_CROSS_VENDOR | IOC_FREE_CROSS_VENDOR =>
          unsupported (fun st => st <| ks_unsupported_cross_vendor_allocs ::= fun n => u64 (n + 1) |>)
      | IOC_OTHER _ => mutex_unlock;; mret (- ENOTTY, OUT_NONE)
      end
  end.

(** ** Start and stop *)

(** The error exits, each falling through to the next. *)
Definition err_chrdev (ret : Z) : KM Z := modify (fun s => s <| kd_chrdev := false |>);; mret ret.
Definition err_cdev (ret : Z) : KM Z := modify (fun s => s <| kd_cdev := false |>);; err_chrdev ret.
Definition err_class (ret : Z) : KM Z := modify (fun s => s <| kd_class := false |>);; err_cdev ret.

Definition mvgal_module_init (bus : list pci_dev) : KM Z :=
  if kr_chrdev <? 0 then mret kr_chrdev else
  modify (fun s => s <| kd_chrdev := true |>);;
  if kr_cdev <? 0 then err_chrdev kr_cdev else
  modify (fun s => s <| kd_cdev := true |>);;
  if kr_class <? 0 then err_cdev kr_class else
  modify (fun s => s <| kd_class := true |>);;
  if kr_device <? 0 then err_class kr_device else
  modify (fun s => s <| kd_class_dev := true |>);;
  mvgal_trigger_rescan bus;;
  (if kr_notifier =? 0 then modify (fun s => s <| kd_notifier_registered := true |>) else mret tt);;
  mret 0.

Definition mvgal_module_exit : KM unit :=
  modify (fun s => s <| kd_notifier_registered := false |>);;
  with_mutex mvgal_sysfs_gpus_remove_all_locked;;
  modify (fun s => s <| kd_class_dev := false |>);;
  modify (fun s => s <| kd_class := false |>);;
  modify (fun s => s <| kd_cdev := false |>);;
  modify (fun s => s <| kd_chrdev := false |>).

End module.
