(* ===== verification/KernelTable.v ===== *)
(** * What the kernel module answers

    A specification of the module with a list of GPUs in place of the slots,
    the sysfs objects and the mutex, and the theorem that any sequence of file
    operations, attribute accesses and hotplug events on a loaded module is
    answered as by the specification, whichever allocations and registrations
    of the kernel fail. *)

From S2P Require Import Prelude CString GpuTypes ConfigText KernelMain.
From stdpp Require Import strings.
Local Open Scope string_scope.
Local Open Scope list_scope.
Local Open Scope Z_scope.

(** ** Calls *)

Inductive kcall : Type :=
| K_open
| K_release
| K_ioctl (cmd : ioctl_cmd) (inp out : bool)
| K_hotplug (action : bus_action) (dev : option pci_dev)
| K_rescan (buf : string)
| K_enabled_show (index : Z)
| K_enabled_store (index : Z) (buf : string)
| K_path_show (index : Z)
| K_power_show (index : Z)
| K_power_store (index : Z) (buf : string)
| K_count_show
| K_generation_show.

Inductive kanswer : Type :=
| A_done
| A_code (ret : Z)
| A_text (r : string + Z)
| A_ioctl (r : Z * ioctl_out)
| A_handled (b : bool).

Section calls.
Context `{KernelEnv}.

(** [bus]: the devices on the bus at the time of the call. *)
Definition run_call (bus : list pci_dev) (c : kcall) : KM kanswer :=
  match c with
  | K_open => mvgal_open;; mret A_done
  | K_release => mvgal_release;; mret A_done
  | K_ioctl cmd inp out => r ← mvgal_ioctl bus cmd inp out; mret (A_ioctl r)
  | K_hotplug action dev => b ← mvgal_pci_bus_notifier bus action dev; mret (A_handled b)
  | K_rescan buf => r ← mvgal_rescan_store bus buf; mret (A_code r)
  | K_enabled_show i => r ← mvgal_gpu_enabled_show i; mret (A_text r)
  | K_enabled_store i buf => r ← mvgal_gpu_enabled_store i buf; mret (A_code r)
  | K_path_show i => r ← mvgal_gpu_pci_path_show i; mret (A_text r)
  | K_power_show i => r ← mvgal_gpu_power_state_show i; mret (A_text r)
  | K_power_store i buf => r ← mvgal_gpu_power_state_store i buf; mret (A_code r)
  | K_count_show => r ← mvgal_gpu_count_show; mret (A_text (inl r))
  | K_generation_show => r ← mvgal_topology_generation_show; mret (A_text (inl r))
  end.

Fixpoint run_calls (l : list (list pci_dev * kcall)) : KM (list kanswer) :=
  match l with
  | [] => mret []
  | (bus, c) :: rest => a ← run_call bus c; as_ ← run_calls rest; mret (a :: as_)
  end.

(** A loaded module from its start to its unloading. *)
Definition kernel_session (bus : list pci_dev) (l : list (list pci_dev * kcall)) : KM (Z * list kanswer) :=
  ret ← mvgal_module_init bus;
  answers ← run_calls l;
  mvgal_module_exit;;
  mret (ret, answers).

(** ** The specification *)

Record gpu_view : Type := mk_gview { gv_dev : pci_dev; gv_enabled : bool; gv_power : string }.
#[local] Instance gview_eta : Eta gpu_view := fun r => mk_gview (gv_dev r) (gv_enabled r) (gv_power r).

Record kview : Type := mk_kview {
  v_gpus : list gpu_view;
  v_enabled : bool;
  v_generation : Z;
  v_stats : mvgal_uapi_stats
}.
#[local] Instance kview_eta : Eta kview := fun r => mk_kview (v_gpus r) (v_enabled r) (v_generation r) (v_stats r).

(** The display controllers that are listed. *)
Definition displays (bus : list pci_dev) : list pci_dev :=
  take MAX_GPUS (filter (fun p => Is_true (mvgal_is_display_controller p)) bus).

Definition v_rescan (bus : list pci_dev) (v : kview) : kview :=
  v <| v_gpus := (fun p => mk_gview p true "auto") <$> displays bus |>
    <| v_generation ::= fun n => u32 (n + 1) |>
    <| v_stats ::= fun st => st <| ks_rescans ::= fun n => u64 (n + 1) |> |>.

Definition v_infos (v : kview) : list mvgal_gpu_info :=
  imap (fun i g => mvgal_fill_gpu_info (gv_dev g) (Z.of_nat i)) (v_gpus v).

Definition biggest (f : mvgal_gpu_info -> Z) (l : list mvgal_gpu_info) : Z := foldr Z.max 0 (f <$> l).

Definition v_caps (v : kview) : mvgal_uapi_caps :=
  let l := v_infos v in
  mk_kcaps (Z.b2z (v_enabled v)) (Z.of_nat (length l))
    (foldr Z.lor 0 ((fun g => mvgal_vendor_mask (pv_vendor (gv_dev g) mod 65536)) <$> v_gpus v)) (v_generation v)
    (biggest gi_pcie_link_gen l) (biggest gi_pcie_link_width l) FEATURES
    (biggest gi_largest_prefetchable_bar_bytes l) (biggest gi_largest_mmio_bar_bytes l).

Definition v_count (f : mvgal_uapi_stats -> mvgal_uapi_stats) (v : kview) : kview := v <| v_stats ::= f |>.

Definition v_out (out : bool) (o : ioctl_out) : Z * ioctl_out := if out then (0, o) else (- EFAULT, OUT_NONE).

Definition v_ioctl (bus : list pci_dev) (cmd : ioctl_cmd) (inp out : bool) (v : kview) : (Z * ioctl_out) * kview :=
  let v1 := v_count (fun st => st <| ks_ioctl_count ::= fun n => u64 (n + 1) |>) v in
  match cmd with
  | IOC_OTHER false => ((- ENOTTY, OUT_NONE), v)
  | IOC_OTHER true => ((- ENOTTY, OUT_NONE), v1)
  | IOC_QUERY_VERSION => (v_out out (OUT_VERSION 0 1 0 FEATURES), v1)
  | IOC_GET_GPU_COUNT => (v_out out (OUT_COUNT (Z.of_nat (length (v_gpus v)))), v1)
  | IOC_GET_GPU_INFO index =>
      (if negb inp then (- EFAULT, OUT_NONE) else
       match v_infos v !! Z.to_nat index with
       | Some info => v_out out (OUT_INFO info)
       | None => (- EINVAL, OUT_NONE)
       end, v1)
  | IOC_ENABLE => ((0, OUT_NONE), v1 <| v_enabled := true |>)
  | IOC_DISABLE => ((0, OUT_NONE), v1 <| v_enabled := false |>)
  | IOC_GET_STATS => (v_out out (OUT_STATS (v_stats v1)), v1)
  | IOC_GET_CAPS => (v_out out (OUT_CAPS (v_caps v1)), v1)
  | IOC_RESCAN => ((0, OUT_NONE), v_rescan bus v1)
  | IOC_EXPORT_DMABUF =>
      ((- EOPNOTSUPP, OUT_NONE), v_count (fun st => st <| ks_unsupported_dmabuf_exports ::= fun n => u64 (n + 1) |>) v1)
  | IOC_IMPORT_DMABUF =>
      ((- EOPNOTSUPP, OUT_NONE), v_count (fun st => st <| ks_unsupported_dmabuf_imports ::= fun n => u64 (n + 1) |>) v1)
  | IOC_ALLOC_CROSS_VENDOR | IOC_FREE_CROSS_VENDOR =>
      ((- EOPNOTSUPP, OUT_NONE),
       v_count (fun st => st <| ks_unsupported_cross_vendor_allocs ::= fun n => u64 (n + 1) |>) v1)
  end.

(** An attribute of a GPU that left is an error. *)
Definition v_show (index : Z) (f : nat -> gpu_view -> string) (v : kview) : kanswer :=
  A_text (match v_gpus v !! Z.to_nat index with
          | Some g => inl (line (f (Z.to_nat index) g))
          | None => inr (- EINVAL)
          end).

Definition v_store (index : Z) (buf : string) (valid : bool) (f : gpu_view -> gpu_view) (v : kview) : kanswer * kview :=
  if valid && bool_decide (Z.to_nat index < length (v_gpus v))%nat
  then (A_code (Z.of_nat (String.length buf)), v <| v_gpus ::= alter f (Z.to_nat index) |>)
  else (A_code (- EINVAL), v).

Definition power_word (buf : string) : string := upto_newline (String.substring 0 7 buf).

Definition v_call (bus : list pci_dev) (c : kcall) (v : kview) : kanswer * kview :=
  match c with
  | K_open => (A_done, v_count (fun st => st <| ks_open_count ::= fun n => u64 (n + 1) |>) v)
  | K_release => (A_done, v_count (fun st => st <| ks_release_count ::= fun n => u64 (n + 1) |>) v)
  | K_ioctl cmd inp out => let '(r, v') := v_ioctl bus cmd inp out v in (A_ioctl r, v')
  | K_hotplug action dev =>
      match dev, action with
      | None, _ | _, OTHER_ACTION => (A_handled false, v)
      | Some p, _ =>
          if mvgal_is_display_controller p
          then (A_handled true, v_rescan bus (v_count (fun st => st <| ks_hotplug_events ::= fun n => u64 (n + 1) |>) v))
          else (A_handled false, v)
      end
  | K_rescan buf =>
      if bool_decide (kstrtoul buf = Some 1) then (A_code (Z.of_nat (String.length buf)), v_rescan bus v)
      else (A_code (- EINVAL), v)
  | K_enabled_show i => (v_show i (fun _ g => if gv_enabled g then "1" else "0") v, v)
  | K_enabled_store i buf =>
      v_store i buf (match kstrtoul buf with Some n => n <=? 1 | None => false end)
        (fun g => g <| gv_enabled := bool_decide (kstrtoul buf <> Some 0) |>) v
  | K_path_show i => (v_show i (fun n g => gi_bdf (mvgal_fill_gpu_info (gv_dev g) (Z.of_nat n))) v, v)
  | K_power_show i => (v_show i (fun _ g => gv_power g) v, v)
  | K_power_store i buf =>
      v_store i buf (bool_decide (power_word buf ∈ ["auto"; "on"; "off"])) (fun g => g <| gv_power := power_word buf |>) v
  | K_count_show => (A_text (inl (line (print_u (Z.of_nat (length (v_gpus v)))))), v)
  | K_generation_show => (A_text (inl (line (print_u (v_generation v)))), v)
  end.

Fixpoint v_calls (l : list (list pci_dev * kcall)) (v : kview) : list kanswer * kview :=
  match l with
  | [] => ([], v)
  | (bus, c) :: rest =>
      let '(a, v1) := v_call bus c v in let '(as_, v2) := v_calls rest v1 in (a :: as_, v2)
  end.

(** ** The abstraction *)

Definition v_slots (v : kview) : list mvgal_gpu_slot :=
  imap (fun i g => mk_slot (mvgal_fill_gpu_info (gv_dev g) (Z.of_nat i)) true (gv_enabled g) (gv_power g) None) (v_gpus v)
    ++ replicate (MAX_GPUS - length (v_gpus v)) slot_zero.

Definition strip (sl : mvgal_gpu_slot) : mvgal_gpu_slot := sl <| sl_sysfs := None |>.

(** The state but for what the kernel keeps registered for the module. *)
Definition core (s : mvgal_device) : bool * list mvgal_gpu_slot * mvgal_uapi_stats * Z * Z * bool :=
  (kd_locked s, strip <$> kd_gpus s, kd_stats s, kd_gpu_count s, kd_topology_generation s, kd_enabled s).

Definition core_of (locked : bool) (v : kview) : bool * list mvgal_gpu_slot * mvgal_uapi_stats * Z * Z * bool :=
  (locked, v_slots v, v_stats v, Z.of_nat (length (v_gpus v)), v_generation v, v_enabled v).

Definition shows (locked : bool) (v : kview) (s : mvgal_device) : Prop :=
  core s = core_of locked v /\ (length (v_gpus v) <= MAX_GPUS)%nat.

(** From every state that shows [v] with the mutex as in [l], the computation
    returns [a] in a state that shows [v'] with the mutex as in [l']. *)
Definition computes {A : Type} (l : bool) (v : kview) (m : KM A) (a : A) (l' : bool) (v' : kview) : Prop :=
  forall s, shows l v s -> wp m (fun a' s' => a' = a /\ shows l' v' s') s.

Lemma computes_ret {A : Type} l v (a : A) : computes l v (mret a) a l v.
Proof. intros s Hs. by apply wp_ret. Qed.

Lemma computes_bind {A B : Type} l v (m : KM A) (f : A -> KM B) a l1 v1 b l2 v2 :
  computes l v m a l1 v1 -> computes l1 v1 (f a) b l2 v2 -> computes l v (m ≫= f) b l2 v2.
Proof. intros Hm Hf s Hs. apply wp_bind. eapply wp_mono; [by apply Hm|]. intros ? s1 [-> H1]. by apply Hf. Qed.

Lemma computes_get {B : Type} l v (f : mvgal_device -> KM B) b l' v' :
  (forall s, shows l v s -> computes l v (f s) b l' v') -> computes l v (get ≫= f) b l' v'.
Proof. intros Hf s Hs. apply wp_bind, wp_get. by apply (Hf s). Qed.

Lemma computes_modify l v f l' v' :
  (forall s, shows l v s -> shows l' v' (f s)) -> computes l v (modify f) tt l' v'.
Proof. intros Hf s Hs. apply wp_modify. split; [done|]. by apply Hf. Qed.

Lemma computes_lock v : computes false v mutex_lock tt true v.
Proof.
  intros s [Hc Hl]. unfold mutex_lock. apply wp_bind, wp_get.
  injection Hc as H1 H2 H3 H4 H5 H6. rewrite H1. split; [done|]. split; [|done].
  unfold core, core_of. cbn. by rewrite H2, H3, H4, H5, H6.
Qed.

Lemma computes_unlock v : computes true v mutex_unlock tt false v.
Proof.
  apply computes_modify. intros s [Hc Hl]. injection Hc as H1 H2 H3 H4 H5 H6. split; [|done].
  unfold core, core_of. cbn. by rewrite H2, H3, H4, H5, H6.
Qed.

Lemma computes_locked {A : Type} v (m : KM A) a v' :
  computes true v m a true v' -> computes false v (with_mutex m) a false v'.
Proof.
  intros Hm. eapply computes_bind; [apply computes_lock|]. eapply computes_bind; [exact Hm|].
  eapply computes_bind; [apply computes_unlock|]. apply computes_ret.
Qed.

Lemma computes_count l v f :
  computes l v (count_stat f) tt l (v_count f v).
Proof.
  apply computes_modify. intros s [Hc Hl]. injection Hc as H1 H2 H3 H4 H5 H6. split; [|done].
  unfold core, core_of. cbn. by rewrite H1, H2, H3, H4, H5, H6.
Qed.

(** ** The scan *)

Lemma scan_bus_spec bus i pre :
  length pre = i -> (i <= MAX_GPUS)%nat ->
  let ds := take (MAX_GPUS - i) (filter (fun p => Is_true (mvgal_is_display_controller p)) bus) in
  scan_bus bus i (pre ++ replicate (MAX_GPUS - i) slot_zero) =
    ((i + length ds)%nat,
     pre ++ imap (fun j => scanned (Z.of_nat (i + j))) ds ++ replicate (MAX_GPUS - i - length ds) slot_zero).
Proof.
  revert i pre. induction bus as [|p bus IH]; intros i pre Hpre Hi; cbn zeta.
  - rewrite filter_nil, take_nil. cbn [scan_bus length imap]. by rewrite Nat.add_0_r, Nat.sub_0_r.
  - cbn [scan_bus]. rewrite filter_cons. destruct (mvgal_is_display_controller p) eqn:Hp; cbn [negb].
    2:{ rewrite decide_False by (by intros []). by apply IH. }
    rewrite decide_True by done. destruct (Nat.leb_spec MAX_GPUS i) as [Hge|Hlt].
    + assert (MAX_GPUS - i = 0)%nat as -> by lia. cbn [take length imap]. by rewrite Nat.add_0_r, app_nil_l, Nat.sub_0_r.
    + replace (MAX_GPUS - i)%nat with (S (MAX_GPUS - S i)) by lia. cbn [replicate firstn length imap].
      rewrite (insert_app_r_alt pre) by lia. replace (i - length pre)%nat with 0%nat by lia. cbn [insert list_insert].
      change (pre ++ scanned (Z.of_nat i) p :: replicate (MAX_GPUS - S i) slot_zero)
        with (pre ++ [scanned (Z.of_nat i) p] ++ replicate (MAX_GPUS - S i) slot_zero).
      rewrite app_assoc, IH by (rewrite ?length_app; cbn; lia). f_equal; [lia|].
      rewrite <- app_assoc. cbn [app]. rewrite Nat.add_0_r. apply (f_equal (app pre)), (f_equal (cons _)), (f_equal2 app); [|f_equal; lia].
      apply imap_ext. intros j x _. cbn. do 2 f_equal. lia.
Qed.

Lemma length_displays bus : (length (displays bus) <= MAX_GPUS)%nat.
Proof. unfold displays. rewrite length_take. lia. Qed.

Lemma computes_rescan v bus : computes true v (mvgal_rescan_locked bus) tt true (v_rescan bus v).
Proof.
  apply computes_modify. intros s [Hc Hl]. injection Hc as H1 H2 H3 H4 H5 H6.
  pose proof (scan_bus_spec bus 0 [] eq_refl (Nat.le_0_l _)) as Hscan. cbn [app] in Hscan. rewrite Nat.sub_0_r in Hscan.
  rewrite Hscan. fold (displays bus). split; [|cbn; rewrite length_fmap; apply length_displays].
  unfold core, core_of, v_slots. cbn. rewrite length_fmap, H1, H3, H5, H6. do 5 f_equal.
  rewrite fmap_app, fmap_imap, fmap_replicate, imap_fmap. f_equal.
Qed.

(** ** The sysfs objects are invisible *)

Lemma shows_slots l v s : shows l v s -> length (kd_gpus s) = MAX_GPUS.
Proof.
  intros [Hc Hl]. injection Hc as _ Hs _ _ _ _. rewrite <- (length_fmap strip), Hs. unfold v_slots.
  rewrite length_app, length_imap, length_replicate. lia.
Qed.

Lemma strip_alter (f : mvgal_gpu_slot -> mvgal_gpu_slot) (i : nat) (gpus : list mvgal_gpu_slot) :
  (forall sl, strip (f sl) = strip sl) -> strip <$> alter f i gpus = strip <$> gpus.
Proof.
  intros Hf. revert i. induction gpus as [|sl gpus IH]; intros [|i]; cbn; [done|done|by rewrite Hf|]. f_equal. apply IH.
Qed.

Lemma shows_core l v s s' : shows l v s -> core s' = core s -> shows l v s'.
Proof. intros [Hc Hl] Heq. split; [congruence|done]. Qed.

Lemma computes_invisible l v f : (forall s, core (f s) = core s) -> computes l v (modify f) tt l v.
Proof. intros Hf. apply computes_modify. intros s Hs. eapply shows_core; eauto. Qed.

Lemma computes_remove l v i : computes l v (mvgal_sysfs_gpu_remove_locked i) tt l v.
Proof.
  apply computes_get. intros s Hs. destruct (MAX_GPUS <=? i)%nat; [apply computes_ret|].
  destruct (kd_gpus s !! i) as [slot|]; [|apply computes_ret].
  eapply computes_bind.
  - apply computes_invisible. intros s'. unfold core. cbn. by rewrite strip_alter by (by intros []).
  - destruct (sl_sysfs slot); [by apply computes_invisible|apply computes_ret].
Qed.

(** The call can fail, but only in ways that do not show. *)
Lemma wp_create l v i s :
  shows l v s -> wp (mvgal_sysfs_gpu_create_locked i) (fun _ s' => shows l v s') s.
Proof.
  intros Hs. unfold mvgal_sysfs_gpu_create_locked. apply wp_bind, wp_get.
  apply wp_if; [by intros; apply wp_ret|]. intros [_ Hi%Z.leb_gt]%orb_false_iff.
  assert (i < length (kd_gpus s))%nat as [slot Hslot]%lookup_lt_is_Some_2.
  { rewrite (shows_slots _ _ _ Hs). destruct Hs as [Hc Hl]. injection Hc as _ _ _ Hn _ _. lia. }
  rewrite Hslot. destruct (sl_sysfs slot); [by apply wp_ret|].
  apply wp_bind. unfold kernel_step at 1. red.
  apply wp_if; [by intros; apply wp_ret|intros _]. apply wp_if; [by intros; apply wp_ret|intros _].
  apply wp_bind, wp_modify. apply wp_if; intros _; apply wp_bind, wp_modify, wp_ret; (eapply shows_core; [exact Hs|]).
  - done.
  - unfold core. cbn. by rewrite strip_alter by (by intros []).
Qed.

Lemma computes_refresh l v : computes l v mvgal_sysfs_gpus_refresh_locked tt l v.
Proof.
  eapply computes_bind.
  - unfold mvgal_sysfs_gpus_remove_all_locked. generalize (seq 0 MAX_GPUS). intros is_. induction is_ as [|i is_ IH]; cbn.
    + apply computes_ret.
    + eapply computes_bind; [apply computes_remove|exact IH].
  - apply computes_get. intros s _. generalize (seq 0 (Z.to_nat (kd_gpu_count s))). intros is_.
    induction is_ as [|i is_ IH]; cbn; [apply computes_ret|].
    intros s' Hs'. apply wp_bind. eapply wp_mono; [by apply wp_create|]. intros ? s1 H1. by apply IH.
Qed.

Lemma computes_rescan_refresh v bus : computes true v (rescan_and_refresh bus) tt true (v_rescan bus v).
Proof. eapply computes_bind; [apply computes_rescan|apply computes_refresh]. Qed.

(** ** Reading the table *)

Definition slot_of (i : nat) (g : gpu_view) (o : option addr) : mvgal_gpu_slot :=
  mk_slot (mvgal_fill_gpu_info (gv_dev g) (Z.of_nat i)) true (gv_enabled g) (gv_power g) o.

Lemma shows_count l v s : shows l v s -> kd_gpu_count s = Z.of_nat (length (v_gpus v)).
Proof. intros [Hc _]. by injection Hc. Qed.

Lemma v_slots_lookup v i g : v_gpus v !! i = Some g -> v_slots v !! i = Some (slot_of i g None).
Proof.
  intros Hg. unfold v_slots. rewrite lookup_app_l by (rewrite length_imap; by eapply lookup_lt_Some).
  by rewrite list_lookup_imap, Hg.
Qed.

Lemma computes_slot {B : Type} l v i g (f : mvgal_gpu_slot -> KM B) b l' v' :
  v_gpus v !! Z.to_nat i = Some g ->
  (forall o, computes l v (f (slot_of (Z.to_nat i) g o)) b l' v') -> computes l v (slot_at i ≫= f) b l' v'.
Proof.
  intros Hg Hf s Hs. apply wp_bind. unfold slot_at. apply wp_bind, wp_get.
  pose proof (v_slots_lookup _ _ _ Hg) as Hlook. destruct Hs as [Hc Hl]. pose proof Hc as Hc'.
  injection Hc' as _ Hg' _ _ _ _. rewrite <- Hg', list_lookup_fmap in Hlook.
  destruct (kd_gpus s !! Z.to_nat i) as [[inf pr en po o]|] eqn:E; [|done]. cbn in Hlook. injection Hlook as -> -> -> ->.
  apply (Hf o). by split.
Qed.

Lemma v_gpus_in v i :
  is_u32 i -> (Z.of_nat (length (v_gpus v)) <=? i) = false -> exists g, v_gpus v !! Z.to_nat i = Some g.
Proof. intros [Hi _] Hlt%Z.leb_gt. apply lookup_lt_is_Some_2. lia. Qed.

Lemma v_gpus_out v i : (Z.of_nat (length (v_gpus v)) <=? i) = true -> v_gpus v !! Z.to_nat i = None.
Proof. intros Hge%Z.leb_le. apply lookup_ge_None_2. lia. Qed.

Lemma computes_show i f g v :
  is_u32 i -> (forall n x o, f (slot_of n x o) = g n x) ->
  computes false v (r ← with_slot i (sl ← slot_at i; mret (inl (line (f sl)))); mret (A_text r)) (v_show i g v) false v.
Proof.
  intros Hi Hf. unfold v_show. eapply computes_bind; [|apply computes_ret]. apply computes_locked, computes_get.
  intros s Hs. rewrite (shows_count _ _ _ Hs). destruct (Z.of_nat (length (v_gpus v)) <=? i) eqn:E.
  - rewrite (v_gpus_out _ _ E). apply computes_ret.
  - destruct (v_gpus_in _ _ Hi E) as [x Hx]. rewrite Hx. eapply computes_slot; [exact Hx|]. intros o. rewrite Hf.
    apply computes_ret.
Qed.

Lemma v_slots_alter v i (f : gpu_view -> gpu_view) (h : mvgal_gpu_slot -> mvgal_gpu_slot) :
  (forall n x o, h (slot_of n x o) = slot_of n (f x) o) -> (i < length (v_gpus v))%nat ->
  v_slots (v <| v_gpus ::= alter f i |>) = alter h i (v_slots v).
Proof.
  intros Hh Hi. apply list_eq. intros j. unfold v_slots. cbn. rewrite length_alter.
  destruct (decide (i = j)) as [<-|Hne].
  - rewrite list_lookup_alter_eq, !lookup_app_l by (rewrite length_imap, ?length_alter; lia).
    rewrite !list_lookup_imap, list_lookup_alter_eq. destruct (v_gpus v !! i) as [g|]; [|done].
    cbn [fmap option_fmap option_map]. f_equal. symmetry. apply (Hh i g None).
  - rewrite list_lookup_alter_ne by done. destruct (decide (j < length (v_gpus v))%nat).
    + rewrite !lookup_app_l by (rewrite length_imap, ?length_alter; lia).
      by rewrite !list_lookup_imap, list_lookup_alter_ne.
    + rewrite !lookup_app_r by (rewrite length_imap, ?length_alter; lia). by rewrite !length_imap, length_alter.
Qed.

Lemma computes_store i buf f h v :
  is_u32 i -> (forall n x o, h (slot_of n x o) = slot_of n (f x) o) -> (forall sl, strip (h sl) = h (strip sl)) ->
  let r := v_store i buf true f v in
  computes false v
    (r ← with_slot i (modify (fun s => s <| kd_gpus ::= alter h (Z.to_nat i) |>);; mret (inl tt));
     mret (A_code (match r with inl _ => Z.of_nat (String.length buf) | inr e => e end))) r.1 false r.2.
Proof.
  intros Hi Hh Hstrip. unfold v_store. cbn [andb].
  destruct (Z.of_nat (length (v_gpus v)) <=? i) eqn:E.
  - rewrite bool_decide_false by (apply Z.leb_le in E; lia).
    apply (computes_bind _ _ _ _ (inr (- EINVAL)) false v); [|apply computes_ret].
    apply computes_locked, computes_get. intros s Hs. rewrite (shows_count _ _ _ Hs), E. apply computes_ret.
  - assert (Z.to_nat i < length (v_gpus v))%nat as Hlt by (apply Z.leb_gt in E; destruct Hi; lia).
    rewrite bool_decide_true by done. cbn [fst snd]. eapply (computes_bind _ _ _ _ (inl tt)); [|apply computes_ret].
    apply computes_locked, computes_get. intros s Hs. rewrite (shows_count _ _ _ Hs), E.
    eapply computes_bind; [|apply computes_ret]. apply computes_modify. clear s Hs. intros s [Hc Hl].
    injection Hc as H1 H2 H3 H4 H5 H6. split; [|cbn; by rewrite length_alter].
    unfold core, core_of. rewrite (v_slots_alter v _ f h) by done. cbn. rewrite length_alter, <- H2, H1, H3, H4, H5, H6.
    do 5 f_equal. apply list_fmap_alter, Forall_true. intros sl. apply Hstrip.
Qed.

(** ** Capabilities *)

Lemma foldr_max_base x c l : foldr Z.max (Z.max x c) l = Z.max x (foldr Z.max c l).
Proof. induction l as [|y l IH]; cbn; [done|]. rewrite IH. lia. Qed.

Lemma foldr_lor_base x c l : foldr Z.lor (Z.lor c x) l = Z.lor x (foldr Z.lor c l).
Proof.
  induction l as [|y l IH]; cbn; [apply Z.lor_comm|]. rewrite IH, !Z.lor_assoc. f_equal. apply Z.lor_comm.
Qed.

Definition info_mask (info : mvgal_gpu_info) : Z := mvgal_vendor_mask (gi_vendor_id info mod 65536).

Lemma add_caps_fold l c :
  foldl add_caps c l =
    mk_kcaps (kc_enabled c) (kc_gpu_count c) (foldr Z.lor (kc_vendor_mask c) (info_mask <$> (sl_info <$> l)))
      (kc_topology_generation c) (foldr Z.max (kc_max_pcie_link_gen c) (gi_pcie_link_gen <$> (sl_info <$> l)))
      (foldr Z.max (kc_max_pcie_link_width c) (gi_pcie_link_width <$> (sl_info <$> l))) (kc_feature_flags c)
      (foldr Z.max (kc_largest_prefetchable_bar_bytes c) (gi_largest_prefetchable_bar_bytes <$> (sl_info <$> l)))
      (foldr Z.max (kc_largest_mmio_bar_bytes c) (gi_largest_mmio_bar_bytes <$> (sl_info <$> l))).
Proof.
  revert c. induction l as [|sl l IH]; intros c; [by destruct c|]. cbn [foldl]. rewrite IH. cbn.
  by rewrite foldr_lor_base, !foldr_max_base.
Qed.

Lemma bar_vendor p info : gi_vendor_id (mvgal_fill_bar_info p info) = gi_vendor_id info.
Proof.
  unfold mvgal_fill_bar_info. revert info. induction (pv_bars p) as [|[len flags] bars IH]; intros info; [done|].
  cbn [foldl]. rewrite IH. unfold add_bar. destruct (_ || _); [done|]. by destruct (negb _).
Qed.

Lemma link_vendor p info : gi_vendor_id (mvgal_fill_link_info p info) = gi_vendor_id info.
Proof. unfold mvgal_fill_link_info. by destruct (pv_linkStatus p) as [[]|]. Qed.

Lemma fill_vendor p i : gi_vendor_id (mvgal_fill_gpu_info p i) = pv_vendor p.
Proof.
  unfold mvgal_fill_gpu_info. cbv zeta.
  lazymatch goal with
  | |- context [mvgal_fill_bar_info p ?x] => transitivity (gi_vendor_id (mvgal_fill_bar_info p x)); [reflexivity|]
  end.
  by rewrite bar_vendor, link_vendor.
Qed.

Lemma shows_infos l v s :
  shows l v s -> sl_info <$> take (Z.to_nat (kd_gpu_count s)) (kd_gpus s) = v_infos v.
Proof.
  intros Hs. rewrite (shows_count _ _ _ Hs), Nat2Z.id. destruct Hs as [Hc _]. injection Hc as _ Hg _ _ _ _.
  transitivity (sl_info <$> (strip <$> take (length (v_gpus v)) (kd_gpus s))).
  { rewrite <- list_fmap_compose. by apply list_fmap_ext. }
  rewrite fmap_take, Hg. unfold v_slots. rewrite take_app_length' by (by rewrite length_imap).
  unfold v_infos. by rewrite fmap_imap.
Qed.

Lemma caps_shown l v s : shows l v s -> mvgal_build_caps_locked s = v_caps v.
Proof.
  intros Hs. unfold mvgal_build_caps_locked, v_caps, biggest. rewrite add_caps_fold, (shows_infos _ _ _ Hs). cbn.
  destruct Hs as [Hc _]. injection Hc as _ _ _ -> -> ->. unfold v_infos at 6. rewrite length_imap. f_equal.
  unfold v_infos. rewrite fmap_imap. f_equal. apply list_eq. intros i. rewrite list_lookup_imap, list_lookup_fmap.
  destruct (v_gpus v !! i); [|done]. cbn. unfold info_mask. by rewrite fill_vendor.
Qed.

(** ** The ioctl *)

Lemma computes_give v out o : computes true v (mutex_unlock;; give out o) (v_out out o) false v.
Proof. eapply computes_bind; [apply computes_unlock|]. apply computes_ret. Qed.

Lemma computes_error v (r : Z * ioctl_out) : computes true v (mutex_unlock;; mret r) r false v.
Proof. eapply computes_bind; [apply computes_unlock|]. apply computes_ret. Qed.

Lemma computes_unsupported v f :
  computes true v (unsupported f) (- EOPNOTSUPP, OUT_NONE) false (v_count f v).
Proof. eapply computes_bind; [apply computes_count|]. apply computes_error. Qed.

Lemma computes_switch l v b : computes l v (modify (fun s => s <| kd_enabled := b |>)) tt l (v <| v_enabled := b |>).
Proof.
  apply computes_modify. intros s [Hc Hl]. injection Hc as H1 H2 H3 H4 H5 H6. split; [|done].
  unfold core, core_of. cbn. by rewrite H1, H2, H3, H4, H5.
Qed.

Definition cmd_ok (cmd : ioctl_cmd) : Prop := match cmd with IOC_GET_GPU_INFO i => is_u32 i | _ => True end.

Lemma computes_ioctl bus cmd inp out v :
  cmd_ok cmd ->
  computes false v (mvgal_ioctl bus cmd inp out) (v_ioctl bus cmd inp out v).1 false (v_ioctl bus cmd inp out v).2.
Proof.
  intros Hok. unfold mvgal_ioctl, v_ioctl. set (f := fun st : mvgal_uapi_stats => st <| ks_ioctl_count ::= fun n => u64 (n + 1) |>).
  set (v1 := v_count f v).
  assert (forall B (k : mvgal_device -> KM B) b v', (forall s, shows true v1 s -> computes true v1 (k s) b false v') ->
    computes false v (mutex_lock;; count_stat f;; s ← get; k s) b false v') as Hstart.
  { intros B k b v' Hk. eapply computes_bind; [apply computes_lock|].
    eapply computes_bind; [apply computes_count|]. by apply computes_get. }
  destruct cmd; try (apply Hstart; intros s Hs; cbn [fst snd]).
  - apply computes_give.
  - rewrite (shows_count _ _ _ Hs). apply computes_give.
  - destruct inp; cbn [negb]; [|apply computes_error]. rewrite (shows_count _ _ _ Hs). unfold v_infos.
    rewrite list_lookup_imap. destruct (Z.of_nat (length (v_gpus v1)) <=? index) eqn:E.
    + change (v_gpus v) with (v_gpus v1). rewrite (v_gpus_out _ _ E). apply computes_error.
    + destruct (v_gpus_in v1 _ Hok E) as [g Hg]. change (v_gpus v) with (v_gpus v1). rewrite Hg.
      eapply computes_slot; [exact Hg|]. intros o. apply computes_give.
  - eapply computes_bind; [apply computes_switch|apply computes_error].
  - eapply computes_bind; [apply computes_switch|apply computes_error].
  - destruct Hs as [Hc _]. injection Hc as _ _ -> _ _ _. apply computes_give.
  - rewrite (caps_shown _ _ _ Hs). apply computes_give.
  - eapply computes_bind; [apply computes_rescan_refresh|apply computes_error].
  - apply computes_unsupported.
  - apply computes_unsupported.
  - apply computes_unsupported.
  - apply computes_unsupported.
  - destruct magic; [|apply computes_ret]. apply Hstart. intros s _. apply computes_error.
Qed.

(** ** All calls *)

Definition call_ok (c : kcall) : Prop :=
  match c with
  | K_ioctl cmd _ _ => cmd_ok cmd
  | K_enabled_show i | K_enabled_store i _ | K_path_show i | K_power_show i | K_power_store i _ => is_u32 i
  | _ => True
  end.

Lemma bind_assoc_computes {A B C : Type} l v (m : KM A) (f : A -> KM B) (g : B -> KM C) c l' v' :
  computes l v (a ← m; b ← f a; g b) c l' v' -> computes l v (b ← (a ← m; f a); g b) c l' v'.
Proof.
  intros Hc s Hs. specialize (Hc s Hs). unfold wp, mbind, M_bind in *. by destruct (m s) as [[a s']| |].
Qed.

Lemma computes_hotplug bus action dev v :
  let r := v_call bus (K_hotplug action dev) v in
  computes false v (run_call bus (K_hotplug action dev)) r.1 false r.2.
Proof.
  unfold run_call, mvgal_pci_bus_notifier, v_call. destruct dev as [p|]; [|eapply computes_bind; apply computes_ret].
  destruct (mvgal_is_display_controller p); cbn [negb]; [|destruct action; eapply computes_bind; apply computes_ret].
  destruct action; try (eapply computes_bind; apply computes_ret).
  all: eapply computes_bind; [|apply computes_ret]; eapply computes_bind; [|apply computes_ret].
  all: apply computes_locked; eapply computes_bind; [apply computes_count|apply computes_rescan_refresh].
Qed.

Lemma computes_enabled_store i buf v :
  is_u32 i ->
  let r := v_call [] (K_enabled_store i buf) v in
  computes false v (run_call [] (K_enabled_store i buf)) r.1 false r.2.
Proof.
  intros Hi. unfold run_call, mvgal_gpu_enabled_store, v_call.
  destruct (kstrtoul buf) as [n|]; [|eapply computes_bind; apply computes_ret].
  rewrite Z.leb_antisym. destruct (1 <? n); cbn [negb]; [eapply computes_bind; apply computes_ret|].
  apply bind_assoc_computes.
  apply (computes_store i buf (fun g => g <| gv_enabled := bool_decide (Some n <> Some 0) |>)); [done| |done].
  intros m x o. cbn. unfold slot_of. cbn. f_equal. destruct (Z.eqb_spec n 0) as [->|Hne]; cbn.
  - by rewrite bool_decide_false by naive_solver.
  - by rewrite bool_decide_true by congruence.
Qed.

Lemma computes_power_store i buf v :
  is_u32 i ->
  let r := v_call [] (K_power_store i buf) v in
  computes false v (run_call [] (K_power_store i buf)) r.1 false r.2.
Proof.
  intros Hi. unfold run_call, mvgal_gpu_power_state_store, v_call. fold (power_word buf).
  destruct (Nat.eqb_spec (String.length buf) 0) as [Hb|_].
  { destruct buf; [|done]. eapply computes_bind; apply computes_ret. }
  destruct (bool_decide_reflect (power_word buf ∈ ["auto"; "on"; "off"])) as [Hin|Hout].
  - assert (negb (String.eqb (power_word buf) "auto") && negb (String.eqb (power_word buf) "on")
      && negb (String.eqb (power_word buf) "off") = false) as ->.
    { rewrite !elem_of_cons in Hin. destruct Hin as [->|[->|[->|[]%elem_of_nil]]]; reflexivity. }
    apply bind_assoc_computes.
    by apply (computes_store i buf (fun g => g <| gv_power := power_word buf |>)).
  - assert (negb (String.eqb (power_word buf) "auto") && negb (String.eqb (power_word buf) "on")
      && negb (String.eqb (power_word buf) "off") = true) as ->.
    { rewrite !elem_of_cons in Hout. destruct (String.eqb_spec (power_word buf) "auto"), (String.eqb_spec (power_word buf) "on"),
        (String.eqb_spec (power_word buf) "off"); cbn; tauto. }
    eapply computes_bind; apply computes_ret.
Qed.

Lemma computes_call bus c v :
  call_ok c -> computes false v (run_call bus c) (v_call bus c v).1 false (v_call bus c v).2.
Proof.
  intros Hok. destruct c.
  - eapply computes_bind; [|apply computes_ret]. apply computes_locked, computes_count.
  - eapply computes_bind; [|apply computes_ret]. apply computes_locked, computes_count.
  - pose proof (computes_ioctl bus cmd inp out v Hok) as Hio. cbn [run_call v_call].
    destruct (v_ioctl bus cmd inp out v). eapply computes_bind; [exact Hio|apply computes_ret].
  - apply computes_hotplug.
  - unfold run_call, mvgal_rescan_store, v_call. destruct (kstrtoul buf) as [n|];
      [|rewrite bool_decide_false by done; eapply computes_bind; apply computes_ret].
    destruct (Z.eqb_spec n 1) as [->|Hne]; cbn [negb].
    + rewrite bool_decide_true by done. eapply computes_bind; [|apply computes_ret].
      eapply computes_bind; [|apply computes_ret]. apply computes_locked, computes_rescan_refresh.
    + rewrite bool_decide_false by congruence. eapply computes_bind; apply computes_ret.
  - by apply (computes_show index (fun sl => if sl_enabled sl then "1" else "0")).
  - by apply computes_enabled_store.
  - by apply (computes_show index (fun sl => gi_bdf (sl_info sl))).
  - by apply (computes_show index sl_power_state).
  - by apply computes_power_store.
  - eapply computes_bind; [|apply computes_ret]. eapply computes_bind; [|apply computes_ret].
    apply computes_locked, computes_get. intros s Hs. rewrite (shows_count _ _ _ Hs). apply computes_ret.
  - eapply computes_bind; [|apply computes_ret]. eapply computes_bind; [|apply computes_ret].
    apply computes_locked, computes_get. intros s [Hc _]. injection Hc as _ _ _ _ -> _. apply computes_ret.
Qed.

Lemma computes_calls l v :
  Forall (fun c => call_ok c.2) l -> computes false v (run_calls l) (v_calls l v).1 false (v_calls l v).2.
Proof.
  intros Hl. revert v. induction Hl as [|[bus c] l Hc Hl IH]; intros v; [apply computes_ret|].
  cbn [run_calls v_calls]. pose proof (computes_call bus c v Hc) as H1. destruct (v_call bus c v) as [a v1].
  specialize (IH v1). destruct (v_calls l v1) as [as_ v2].
  eapply computes_bind; [exact H1|]. eapply computes_bind; [exact IH|]. apply computes_ret.
Qed.

(** ** A session *)

Definition started_view : kview := mk_kview [] true 0 (mk_kstats 0 0 0 0 0 0 0 0).

(** Numbers, character device, class, device and notifier are not registered;
    the sysfs objects are apart (see [second_scan_strands_objects]). *)
Definition unregistered (s : mvgal_device) : Prop :=
  kd_chrdev s = false /\ kd_cdev s = false /\ kd_class s = false /\ kd_class_dev s = false /\
  kd_notifier_registered s = false.

Lemma computes_start bus :
  0 <= kr_chrdev -> 0 <= kr_cdev -> 0 <= kr_class -> 0 <= kr_device ->
  computes false started_view (mvgal_module_init bus) 0 false (v_rescan bus started_view).
Proof.
  intros H1 H2 H3 H4. unfold mvgal_module_init. rewrite !(proj2 (Z.ltb_ge _ _)) by done.
  do 4 (eapply computes_bind; [by apply computes_invisible|]).
  eapply computes_bind; [apply computes_locked, computes_rescan_refresh|].
  eapply computes_bind; [|apply computes_ret]. destruct (_ =? _); [by apply computes_invisible|apply computes_ret].
Qed.

(** A start that fails takes back what it registered. *)
Lemma start_error bus s a s' :
  unregistered s -> mvgal_module_init bus s = Ret (a, s') -> a < 0 -> unregistered s'.
Proof.
  intros (Hu1 & Hu2 & Hu3 & Hu4 & Hu5) Hrun Ha. unfold mvgal_module_init in Hrun.
  destruct (kr_chrdev <? 0); [injection Hrun as <- <-; by repeat split|].
  apply bind_inv in Hrun as ([] & s1 & E1 & Hrun). injection E1 as <-.
  destruct (kr_cdev <? 0); [injection Hrun as <- <-; by repeat split|].
  apply bind_inv in Hrun as ([] & s1 & E1 & Hrun). injection E1 as <-.
  destruct (kr_class <? 0); [injection Hrun as <- <-; by repeat split|].
  apply bind_inv in Hrun as ([] & s1 & E1 & Hrun). injection E1 as <-.
  destruct (kr_device <? 0); [injection Hrun as <- <-; by repeat split|].
  do 3 (apply bind_inv in Hrun as ([] & ? & _ & Hrun)). injection Hrun as <- _. lia.
Qed.

Lemma remove_each_notifier l s a s' :
  remove_each l s = Ret (a, s') -> kd_notifier_registered s' = kd_notifier_registered s.
Proof.
  revert s. induction l as [|i l IH]; intros s Hrun; [by injection Hrun as _ <-|].
  apply bind_inv in Hrun as ([] & s1 & E1 & Hrun). rewrite (IH _ Hrun). clear Hrun IH.
  unfold mvgal_sysfs_gpu_remove_locked in E1. apply bind_inv in E1 as (? & ? & E & E1). injection E as <- <-.
  destruct (MAX_GPUS <=? i)%nat; [by injection E1 as <-|].
  destruct (kd_gpus s !! i) as [slot|]; [|by injection E1 as <-].
  apply bind_inv in E1 as ([] & s2 & E2 & E1). injection E2 as <-.
  destruct (sl_sysfs slot); by injection E1 as <-.
Qed.

Lemma wp_exit v s :
  shows false v s -> wp mvgal_module_exit (fun _ s' => unregistered s' /\ kd_locked s' = false) s.
Proof.
  intros Hs. unfold mvgal_module_exit. apply wp_bind, wp_modify.
  set (s1 := s <| kd_notifier_registered := false |>).
  assert (shows false v s1) as Hs1 by (by eapply shows_core; [exact Hs|]).
  assert (computes false v (with_mutex mvgal_sysfs_gpus_remove_all_locked) tt false v) as Hall.
  { apply computes_locked. unfold mvgal_sysfs_gpus_remove_all_locked. generalize (seq 0 MAX_GPUS). intros js.
    induction js as [|j js IH]; cbn; [apply computes_ret|]. eapply computes_bind; [apply computes_remove|exact IH]. }
  destruct (wp_elim _ _ _ (Hall s1 Hs1)) as ([] & s2 & Hrun & _ & [Hc _]). injection Hc as Hl _ _ _ _ _.
  apply wp_bind. eapply wp_intro; [exact Hrun|]. do 3 apply wp_bind, wp_modify. apply wp_modify.
  split; [|exact Hl]. repeat split; cbn.
  unfold with_mutex, mutex_lock in Hrun. apply bind_inv in Hrun as ([] & s3 & E3 & Hrun).
  apply bind_inv in E3 as (? & ? & E & E3). injection E as <- <-.
  destruct (kd_locked s1); [done|]. injection E3 as <-.
  apply bind_inv in Hrun as ([] & s4 & E4 & Hrun). apply bind_inv in Hrun as ([] & s5 & E5 & Hrun).
  injection E5 as <-. injection Hrun as <-. cbn. by rewrite (remove_each_notifier _ _ _ _ E4).
Qed.

(** C5. A loaded kernel module answers any sequence of file operations,
    attribute accesses and hotplug events as a specification without mutex,
    slots or sysfs objects does, whichever allocations and registrations fail:
    the GPUs are the first 32 display controllers of the bus at the last scan,
    numbered in order, with the capabilities their maxima and united vendors;
    every call returns with the mutex free, and unloading takes back the
    numbers, the character device, the class, the device and the notifier. *)
Theorem kernel_calls_refine bus l :
  0 <= kr_chrdev -> 0 <= kr_cdev -> 0 <= kr_class -> 0 <= kr_device -> Forall (fun c => call_ok c.2) l ->
  wp (kernel_session bus l)
    (fun r s => r = (0, (v_calls l (v_rescan bus started_view)).1) /\ unregistered s /\ kd_locked s = false) mvgal_dev.
Proof.
  intros H1 H2 H3 H4 Hl. unfold kernel_session.
  apply wp_bind. eapply wp_mono; [apply (computes_start bus); [done..|]; split; [reflexivity|cbn; lia]|].
  intros ? s1 [-> Hs1]. apply wp_bind. eapply wp_mono; [by apply (computes_calls l)|]. intros ? s2 [-> Hs2].
  apply wp_bind. eapply wp_mono; [by eapply wp_exit|]. intros ? s3 H3'. by apply wp_ret.
Qed.
End calls.

(** ** A bus with a card of each kind *)

Module TwoDisplays.
#[local] Instance env : KernelEnv :=
  {| kr_alloc := fun _ => true; kr_add := fun _ => 0; kr_group := fun _ => 0;
     kstrtoul := fun s => if String.eqb s "1" then Some 1 else if String.eqb s "0" then Some 0 else None;
     kr_chrdev := 0; kr_cdev := 0; kr_class := 0; kr_device := 0; kr_notifier := 0 |}.

Definition card : pci_dev :=
  mk_pci 196608 4098 29631 7899 4660 0 3 8 (-1) true (Some "amdgpu") false false (Some (Some 260))
    [(268435456, 8704); (0, 0); (1048576, 512)].
Definition bridge : pci_dev := mk_pci 394240 4130 5122 0 0 0 0 9 (-1) false None false false None [].
Definition igpu : pci_dev := mk_pci 196608 32902 39497 0 0 0 0 16 0 false None true false None [(16777216, 512)].
Definition bus : list pci_dev := [bridge; igpu; card].

Definition calls : list (list pci_dev * kcall) :=
  [(bus, K_open); (bus, K_ioctl IOC_GET_GPU_COUNT true true); (bus, K_power_store 1 "off");
   (bus, K_power_show 1); (bus, K_ioctl (IOC_GET_GPU_INFO 2) true true); (bus, K_path_show 1);
   ([bridge; igpu], K_hotplug DEL_DEVICE (Some card)); ([bridge; igpu], K_power_show 1); (bus, K_release)].

Lemma kernel_calls_refine_witness :
  wp (kernel_session bus calls)
    (fun r s => r = (0, (v_calls calls (v_rescan bus started_view)).1) /\ unregistered s /\ kd_locked s = false) mvgal_dev
  /\ (v_calls calls (v_rescan bus started_view)).1 =
       [A_done; A_ioctl (0, OUT_COUNT 2); A_code 3; A_text (inl (line "off")); A_ioctl (-22, OUT_NONE);
        A_text (inl (line "0000:03:01.0")); A_handled true; A_text (inr (-22)); A_done].
Proof.
  split; [|vm_compute; reflexivity].
  apply (kernel_calls_refine bus calls); [vm_compute; discriminate..|].
  repeat (constructor; [first [exact I | vm_compute; split; discriminate]|]). constructor.
Defined.

(** A second scan clears the slots before their objects are released: the
    objects stay registered, the names are taken and no slot has one. *)
Example second_scan_strands_objects :
  exists s, (mvgal_module_init bus;; mvgal_trigger_rescan bus) mvgal_dev = Ret (tt, s) /\
    size (kd_objects s) = 2%nat /\ Forall (fun sl => sl_sysfs sl = None) (kd_gpus s).
Proof. eexists. split; [vm_compute; reflexivity|]. split; [vm_compute; reflexivity|]. repeat constructor. Qed.
End TwoDisplays.
