(* ===== verification/FramePacer.v ===== *)
(** * The frame pacer

    steam/mvgal_frame_pacer.c: a ring of eight frames, filled by the calls of
    the application and emptied by a thread that holds each frame until its
    presentation time.  The calls and the sections of the thread between lock
    and unlock are functions; their interleaving, the condition variable, the
    sleep and the passing of time are a step relation. *)

From Corelib Require Import SpecFloat.
From S2P Require Import Prelude Config.
Local Open Scope Z_scope.

Definition MVGAL_FP_MAX_FRAMES : Z := 8.
Definition MVGAL_FP_DEFAULT_HZ : Z := 60.

Record mvgal_frame_entry_t : Type := mk_frame {
  fe_frame_id : Z;
  fe_ready_ns : Z;
  fe_target_present_ns : Z;
  fe_gpu_index : Z;
  fe_valid : bool
}.

Record mvgal_frame_pacer_t : Type := mk_pacer {
  fp_ring : list mvgal_frame_entry_t;
  fp_head : Z;
  fp_tail : Z;
  fp_count : Z;
  fp_refresh_hz : Z;
  fp_frame_interval_ns : Z;
  fp_last_present_ns : Z;
  fp_running : bool;
  fp_enabled : bool;
  fp_frames_paced : Z;
  fp_frames_dropped : Z;
  fp_total_jitter_ns : Z
}.
#[export] Instance pacer_eta : Eta mvgal_frame_pacer_t := fun r =>
  mk_pacer (fp_ring r) (fp_head r) (fp_tail r) (fp_count r) (fp_refresh_hz r) (fp_frame_interval_ns r)
    (fp_last_present_ns r) (fp_running r) (fp_enabled r) (fp_frames_paced r) (fp_frames_dropped r)
    (fp_total_jitter_ns r).

(** ** Calls *)

(** [memory] and [thread]: whether the allocation and the creation of the
    thread succeed. *)
Definition mvgal_fp_create (memory thread : bool) (refresh_hz : Z) : option mvgal_frame_pacer_t :=
  if negb memory then None else
  let hz := if refresh_hz =? 0 then MVGAL_FP_DEFAULT_HZ else refresh_hz in
  let fp := mk_pacer (replicate 8 (mk_frame 0 0 0 0 false)) 0 0 0 hz (1000000000 / hz) 0 true true 0 0 0 in
  if thread then Some fp else None.

(** The presentation time of a frame that is ready at [now]. *)
Definition next_vsync (fp : mvgal_frame_pacer_t) (now : Z) : Z :=
  let last := if fp_last_present_ns fp =? 0 then now else fp_last_present_ns fp in
  let next := u64 (last + fp_frame_interval_ns fp) in
  if next <? now then u64 (now + fp_frame_interval_ns fp) else next.

(** The result and the frame that was stored, if one was. *)
Definition mvgal_fp_submit_frame (now frame_id gpu_index : Z) (fp : mvgal_frame_pacer_t)
  : Z * option mvgal_frame_entry_t * mvgal_frame_pacer_t :=
  if negb (fp_enabled fp) then (0, None, fp) else
  if MVGAL_FP_MAX_FRAMES <=? fp_count fp then
    (-1, None, fp <| fp_frames_dropped ::= fun n => u64 (n + 1) |>)
  else
    let entry := mk_frame frame_id now (next_vsync fp now) gpu_index true in
    (0, Some entry,
     fp <| fp_ring ::= <[Z.to_nat (fp_head fp) := entry]> |>
        <| fp_head := Z.rem (fp_head fp + 1) MVGAL_FP_MAX_FRAMES |>
        <| fp_count ::= fun n => n + 1 |>).

(** The average jitter is only written when a frame was paced. *)
Definition mvgal_fp_get_stats (fp : mvgal_frame_pacer_t) : Z * Z * option spec_float :=
  let d z := binary_normalize 53 1024 z 0 false in
  (fp_frames_paced fp, fp_frames_dropped fp,
   if 0 <? fp_frames_paced fp
   then Some (SFdiv 53 1024 (SFdiv 53 1024 (d (fp_total_jitter_ns fp)) (d (fp_frames_paced fp))) (d 1000))
   else None).

Definition mvgal_fp_set_refresh_hz (hz : Z) (fp : mvgal_frame_pacer_t) : mvgal_frame_pacer_t :=
  if hz =? 0 then fp else fp <| fp_refresh_hz := hz |> <| fp_frame_interval_ns := 1000000000 / hz |>.

(** The section of [mvgal_fp_destroy] before the join. *)
Definition fp_stop (fp : mvgal_frame_pacer_t) : mvgal_frame_pacer_t := fp <| fp_running := false |>.

(** ** The thread *)

Record timespec : Type := mk_timespec { tv_sec : Z; tv_nsec : Z }.

Definition ts_ns (ts : timespec) : Z := tv_sec ts * 1000000000 + tv_nsec ts.

(** What [sleep_until_ns] asks of [nanosleep] when the clock shows [now];
    [None] if it returns at once. *)
Definition sleep_until_ns (target_ns now : Z) : option timespec :=
  if target_ns <=? now then None else
  let delta := target_ns - now in
  Some (mk_timespec (delta / 1000000000) (delta mod 1000000000)).

(** [nanosleep] refuses an ill-formed request; otherwise it ends when the time
    has passed or, with [interrupts], at any moment.  The result and the rest
    of the time are not looked at. *)
Definition ts_valid (ts : timespec) : Prop := 0 <= tv_sec ts /\ 0 <= tv_nsec ts < 1000000000.

Definition nanosleep_ends (interrupts : bool) (ts : timespec) (since now : Z) : Prop :=
  ~ ts_valid ts \/ since + ts_ns ts <= now \/ interrupts = true.

(** [Asleep signalled]: in [pthread_cond_wait]; [Sleeping frame ts since]: in
    [nanosleep], called at the reading [since] or later. *)
Inductive pacer_pc : Type :=
| Testing
| Entering
| Asleep (signalled : bool)
| Holding (frame : mvgal_frame_entry_t)
| Sleeping (frame : mvgal_frame_entry_t) (ts : timespec) (since : Z)
| Awake (frame : mvgal_frame_entry_t)
| Presenting (frame : mvgal_frame_entry_t) (actual_ns : Z)
| Finished.

Definition while_running (fp : mvgal_frame_pacer_t) : pacer_pc := if fp_running fp then Entering else Finished.

(** The section that waits for a frame and takes it, from the lock or from
    the return of the wait. *)
Definition take_frame (fp : mvgal_frame_pacer_t) : option (pacer_pc * mvgal_frame_pacer_t) :=
  if (fp_count fp =? 0) && fp_running fp then Some (Asleep false, fp) else
  if negb (fp_running fp) then Some (Finished, fp) else
  match fp_ring fp !! Z.to_nat (fp_tail fp) with
  | None => None
  | Some frame =>
      Some (Holding frame,
            fp <| fp_tail := Z.rem (fp_tail fp + 1) MVGAL_FP_MAX_FRAMES |> <| fp_count ::= fun n => n - 1 |>)
  end.

(** The section after the sleep.  The difference of two times of a 64-bit
    clock that has run for less than 292 years has an absolute value. *)
Definition present_frame (actual_ns : Z) (frame : mvgal_frame_entry_t) (fp : mvgal_frame_pacer_t)
  : mvgal_frame_pacer_t :=
  let jitter := Z.abs (int64 actual_ns - int64 (fe_target_present_ns frame)) in
  fp <| fp_frames_paced ::= fun n => u64 (n + 1) |>
     <| fp_total_jitter_ns ::= fun n => u64 (n + jitter) |>
     <| fp_last_present_ns := actual_ns |>.

(** [pthread_cond_signal]: the thread is the only one that waits. *)
Definition signal_thread (pc : pacer_pc) : pacer_pc := match pc with Asleep _ => Asleep true | _ => pc end.

(** ** The system *)

(** [ps_fp] is [None] after the pacer is freed; [ps_stopping]: a thread is in
    [mvgal_fp_destroy].  The lists record what the calls accepted, what was
    presented and when, and how many frames were refused. *)
Record pacer_sys : Type := mk_psys {
  ps_fp : option mvgal_frame_pacer_t;
  ps_pc : pacer_pc;
  ps_now : Z;
  ps_stopping : bool;
  ps_accepted : list mvgal_frame_entry_t;
  ps_presented : list (mvgal_frame_entry_t * Z);
  ps_refused : Z
}.

Definition fp_started (fp : mvgal_frame_pacer_t) (now : Z) : pacer_sys := mk_psys (Some fp) Testing now false [] [] 0.

(** [interrupts]: whether signals can end a sleep early. *)
Inductive pacer_step (interrupts : bool) : pacer_sys -> pacer_sys -> Prop :=
| step_time fp pc now st acc pr rf now' :
    now <= now' <= U64_MAX ->
    pacer_step interrupts (mk_psys fp pc now st acc pr rf) (mk_psys fp pc now' st acc pr rf)
| step_submit fp pc now acc pr rf frame_id gpu_index r e fp' :
    mvgal_fp_submit_frame now frame_id gpu_index fp = (r, e, fp') ->
    pacer_step interrupts (mk_psys (Some fp) pc now false acc pr rf)
      (mk_psys (Some fp') (if e is Some _ then signal_thread pc else pc) now false
        (acc ++ option_list e) pr (if e is Some _ then rf else rf + (- r)))
| step_refresh fp pc now acc pr rf hz :
    is_u32 hz ->
    pacer_step interrupts (mk_psys (Some fp) pc now false acc pr rf)
      (mk_psys (Some (mvgal_fp_set_refresh_hz hz fp)) pc now false acc pr rf)
| step_stop fp pc now acc pr rf :
    pacer_step interrupts (mk_psys (Some fp) pc now false acc pr rf)
      (mk_psys (Some (fp_stop fp)) (signal_thread pc) now true acc pr rf)
| step_free fp now acc pr rf :
    pacer_step interrupts (mk_psys (Some fp) Finished now true acc pr rf) (mk_psys None Finished now true acc pr rf)
| step_test fp now st acc pr rf :
    pacer_step interrupts (mk_psys (Some fp) Testing now st acc pr rf) (mk_psys (Some fp) (while_running fp) now st acc pr rf)
| step_take fp pc now st acc pr rf pc' fp' :
    pc = Entering \/ pc = Asleep true \/ pc = Asleep false ->
    take_frame fp = Some (pc', fp') ->
    pacer_step interrupts (mk_psys (Some fp) pc now st acc pr rf) (mk_psys (Some fp') pc' now st acc pr rf)
| step_sleep fp now st acc pr rf frame :
    pacer_step interrupts (mk_psys (Some fp) (Holding frame) now st acc pr rf)
      (mk_psys (Some fp) (if sleep_until_ns (fe_target_present_ns frame) now is Some ts then Sleeping frame ts now else Awake frame)
        now st acc pr rf)
| step_wake fp now st acc pr rf frame ts since :
    nanosleep_ends interrupts ts since now ->
    pacer_step interrupts (mk_psys (Some fp) (Sleeping frame ts since) now st acc pr rf)
      (mk_psys (Some fp) (Awake frame) now st acc pr rf)
| step_clock fp now st acc pr rf frame :
    pacer_step interrupts (mk_psys (Some fp) (Awake frame) now st acc pr rf)
      (mk_psys (Some fp) (Presenting frame now) now st acc pr rf)
| step_present fp now st acc pr rf frame actual :
    pacer_step interrupts (mk_psys (Some fp) (Presenting frame actual) now st acc pr rf)
      (mk_psys (Some (present_frame actual frame fp)) Testing now st acc (pr ++ [(frame, actual)]) rf).

(** The states of a pacer that [mvgal_fp_create] made at [now]. *)
Inductive pacer_reach (interrupts : bool) (hz now : Z) : pacer_sys -> Prop :=
| reach_start fp : mvgal_fp_create true true hz = Some fp -> pacer_reach interrupts hz now (fp_started fp now)
| reach_step s s' : pacer_reach interrupts hz now s -> pacer_step interrupts s s' -> pacer_reach interrupts hz now s'.

(** ** The ring as a queue *)

(** The frames in the ring, oldest first. *)
Definition contents (fp : mvgal_frame_pacer_t) : list mvgal_frame_entry_t :=
  omap (fun k => fp_ring fp !! ((Z.to_nat (fp_tail fp) + k) mod 8)%nat) (seq 0 (Z.to_nat (fp_count fp))).

Definition ring_wf (fp : mvgal_frame_pacer_t) : Prop :=
  length (fp_ring fp) = 8%nat /\ 0 <= fp_tail fp < 8 /\ 0 <= fp_count fp <= 8 /\
  fp_head fp = (fp_tail fp + fp_count fp) mod 8.

Lemma mod8_eq a b : (a mod 8 = b mod 8)%nat -> (a <= b < a + 8)%nat -> a = b.
Proof.
  intros Hm Hr. pose proof (Nat.div_mod_eq a 8). pose proof (Nat.div_mod_eq b 8). lia.
Qed.

Lemma rem_next x : 0 <= x -> Z.rem (x + 1) MVGAL_FP_MAX_FRAMES = (x + 1) mod 8.
Proof. intros Hx. unfold MVGAL_FP_MAX_FRAMES. rewrite Z.rem_mod_nonneg; lia. Qed.

Lemma to_nat_mod8 x : 0 <= x -> Z.to_nat (x mod 8) = (Z.to_nat x mod 8)%nat.
Proof. intros Hx. rewrite Z2Nat.inj_mod by lia. done. Qed.

Lemma head_index fp :
  ring_wf fp -> Z.to_nat (fp_head fp) = ((Z.to_nat (fp_tail fp) + Z.to_nat (fp_count fp)) mod 8)%nat.
Proof. intros (_ & Ht & Hc & ->). rewrite to_nat_mod8, Z2Nat.inj_add by lia. done. Qed.

Lemma omap_ext_seq {A : Type} (f g : nat -> option A) a n :
  (forall k, (a <= k < a + n)%nat -> f k = g k) -> omap f (seq a n) = omap g (seq a n).
Proof.
  revert a. induction n as [|n IH]; intros a Hfg; [done|]. cbn. rewrite (Hfg a) by lia.
  rewrite (IH (S a)) by (intros; apply Hfg; lia). done.
Qed.

Lemma submit_contents now id gpu fp r e fp' :
  ring_wf fp -> mvgal_fp_submit_frame now id gpu fp = (r, e, fp') ->
  ring_wf fp' /\ contents fp' = contents fp ++ option_list e.
Proof.
  intros Hwf Hsub. unfold mvgal_fp_submit_frame in Hsub.
  destruct (negb (fp_enabled fp)); [injection Hsub as <- <- <-; by rewrite app_nil_r|].
  destruct (Z.leb_spec MVGAL_FP_MAX_FRAMES (fp_count fp)) as [Hge|Hlt];
    [injection Hsub as <- <- <-; by rewrite app_nil_r|].
  injection Hsub as <- <- <-. set (e := mk_frame _ _ _ _ _). pose proof (head_index _ Hwf) as Hhead.
  destruct Hwf as (Hlen & Ht & Hc & Hh). unfold MVGAL_FP_MAX_FRAMES in Hlt. split.
  - split; [cbn; by rewrite length_insert|]. split; [exact Ht|]. split; [cbn; lia|]. cbn.
    rewrite rem_next by (rewrite Hh; apply Z.mod_pos_bound; lia). rewrite Hh, Zplus_mod_idemp_l. f_equal. lia.
  - unfold contents. cbn -[seq]. rewrite Z2Nat.inj_add by lia. change (Z.to_nat 1) with 1%nat.
    rewrite seq_app, omap_app. rewrite Nat.add_0_l. f_equal.
    + apply omap_ext_seq. intros k Hk. rewrite list_lookup_insert_ne; [done|]. rewrite Hhead. intros Heq.
      symmetry in Heq. apply mod8_eq in Heq; lia.
    + cbn. rewrite Hhead. rewrite list_lookup_insert_eq; [done|]. rewrite Hlen. apply Nat.mod_upper_bound. lia.
Qed.

Lemma omap_seq_shift {A : Type} (f : nat -> option A) a n : omap f (seq (S a) n) = omap (fun k => f (S k)) (seq a n).
Proof. revert a. induction n as [|n IH]; intros a; [done|]. cbn. by rewrite IH. Qed.

Lemma take_contents fp :
  ring_wf fp -> 0 < fp_count fp ->
  exists f, fp_ring fp !! Z.to_nat (fp_tail fp) = Some f /\
    let fp' := fp <| fp_tail := Z.rem (fp_tail fp + 1) MVGAL_FP_MAX_FRAMES |> <| fp_count ::= fun n => n - 1 |> in
    ring_wf fp' /\ contents fp = f :: contents fp'.
Proof.
  intros (Hlen & Ht & Hc & Hh) Hpos.
  destruct (lookup_lt_is_Some_2 (fp_ring fp) (Z.to_nat (fp_tail fp))) as [f Hf]; [lia|]. exists f. split; [done|].
  cbn zeta. rewrite rem_next by lia. split.
  - split; [exact Hlen|]. split; [cbn; apply Z.mod_pos_bound; lia|]. split; [cbn; lia|]. cbn.
    rewrite Hh, Zplus_mod_idemp_l. f_equal. lia.
  - unfold contents. cbn -[seq Nat.modulo]. replace (Z.to_nat (fp_count fp)) with (S (Z.to_nat (fp_count fp - 1))) by lia.
    cbn [seq omap list_omap]. rewrite Nat.add_0_r, Nat.mod_small, Hf by lia. f_equal.
    change (list_omap ?f ?l) with (omap f l). rewrite omap_seq_shift. apply omap_ext_seq. intros k _. f_equal.
    rewrite to_nat_mod8, Z2Nat.inj_add by lia. rewrite Nat.Div0.add_mod_idemp_l. f_equal. lia.
Qed.

(** ** Runs *)

Definition in_flight (pc : pacer_pc) : list mvgal_frame_entry_t :=
  match pc with Holding f | Sleeping f _ _ | Awake f | Presenting f _ => [f] | _ => [] end.

(** The thread sleeps without a signal only when there is nothing to do. *)
Definition wakes (pc : pacer_pc) (fp : mvgal_frame_pacer_t) : Prop :=
  pc = Asleep false -> fp_count fp = 0 /\ fp_running fp = true.

(** Every presented frame was due, and so will be the one in hand. *)
Definition on_time (now : Z) (pc : pacer_pc) (presented : list (mvgal_frame_entry_t * Z)) : Prop :=
  Forall (fun p => fe_target_present_ns p.1 <= p.2) presented /\
  match pc with
  | Sleeping f ts since => ts_valid ts /\ since + ts_ns ts = fe_target_present_ns f
  | Awake f => fe_target_present_ns f <= now
  | Presenting f actual => fe_target_present_ns f <= actual
  | _ => True
  end.

Definition pacer_ok (interrupts : bool) (s : pacer_sys) : Prop :=
  (interrupts = false -> on_time (ps_now s) (ps_pc s) (ps_presented s)) /\
  match ps_fp s with
  | Some fp =>
      ring_wf fp /\ ps_accepted s = (ps_presented s).*1 ++ in_flight (ps_pc s) ++ contents fp /\
      fp_frames_paced fp = u64 (Z.of_nat (length (ps_presented s))) /\ fp_frames_dropped fp = u64 (ps_refused s) /\
      wakes (ps_pc s) fp /\ fp_running fp = negb (ps_stopping s)
  | None => ps_pc s = Finished /\
      exists lost, ps_accepted s = (ps_presented s).*1 ++ lost /\ (length lost <= 8)%nat
  end.

Lemma length_contents fp : ring_wf fp -> length (contents fp) = Z.to_nat (fp_count fp).
Proof.
  intros (Hlen & _). unfold contents. rewrite <- (length_seq (Z.to_nat (fp_count fp)) 0) at 2.
  induction (seq 0 (Z.to_nat (fp_count fp))) as [|k l IH]; [done|]. cbn -[Nat.modulo].
  destruct (lookup_lt_is_Some_2 (fp_ring fp) ((Z.to_nat (fp_tail fp) + k) mod 8)%nat) as [f ->].
  - rewrite Hlen. apply Nat.mod_upper_bound. lia.
  - cbn. f_equal. exact IH.
Qed.

Lemma fresh_pacer_ok interrupts hz now fp :
  mvgal_fp_create true true hz = Some fp -> pacer_ok interrupts (fp_started fp now).
Proof.
  intros [= <-]. split; [by split|]. cbn -[replicate]. by split; [repeat split; cbn; lia|].
Qed.

Lemma signal_thread_awake pc fp : wakes (signal_thread pc) fp.
Proof. unfold wakes. destruct pc; cbn; congruence. Qed.

Lemma signal_thread_same pc : in_flight (signal_thread pc) = in_flight pc /\ forall now pr, on_time now pc pr -> on_time now (signal_thread pc) pr.
Proof. by destruct pc. Qed.

Lemma submit_outcome now id gpu fp r e fp' :
  mvgal_fp_submit_frame now id gpu fp = (r, e, fp') ->
  fp_running fp' = fp_running fp /\ fp_frames_paced fp' = fp_frames_paced fp /\
  match e with
  | Some f => is_u64 (fe_target_present_ns f) /\ fp_frames_dropped fp' = fp_frames_dropped fp
  | None => fp_count fp' = fp_count fp /\ fp_frames_dropped fp' = (if r =? 0 then fp_frames_dropped fp else u64 (fp_frames_dropped fp + 1)) /\
            (r = 0 \/ r = -1)
  end.
Proof.
  unfold mvgal_fp_submit_frame. intros Hsub. destruct (negb (fp_enabled fp)); [injection Hsub as <- <- <-; cbn; tauto|].
  destruct (MVGAL_FP_MAX_FRAMES <=? fp_count fp).
  { injection Hsub as <- <- <-. cbn. tauto. }
  injection Hsub as <- <- <-. split; [done|]. split; [done|]. split; [|done]. cbn. unfold next_vsync. destruct (_ <? _); apply u64_range.
Qed.

Lemma submit_frame_ok interrupts fp pc now acc pr rf id gpu r e fp' :
  mvgal_fp_submit_frame now id gpu fp = (r, e, fp') ->
  pacer_ok interrupts (mk_psys (Some fp) pc now false acc pr rf) ->
  pacer_ok interrupts (mk_psys (Some fp') (if e is Some _ then signal_thread pc else pc) now false
    (acc ++ option_list e) pr (if e is Some _ then rf else rf + (- r))).
Proof.
  intros Hsub [Htime (Hwf & Hacc & Hpaced & Hdrop & Hwake & Hrun)]. cbn in *.
  destruct (submit_contents _ _ _ _ _ _ _ Hwf Hsub) as [Hwf' Hcont].
  destruct (submit_outcome _ _ _ _ _ _ _ Hsub) as (Hr & Hp & He). destruct e as [f|]; cbn in *.
  - destruct (signal_thread_same pc) as [Hfl Hot]. split; [auto|]. cbn.
    split; [done|]. split; [rewrite Hfl, Hcont, Hacc, <- !app_assoc; done|].
    split; [congruence|]. split; [destruct He; congruence|]. split; [apply signal_thread_awake|congruence].
  - destruct He as (Hc & Hd & Hrr). split; [done|]. cbn. rewrite !app_nil_r in *. split; [done|].
    split; [by rewrite Hcont|]. split; [congruence|]. split.
    + rewrite Hd, Hdrop. destruct Hrr as [->| ->]; cbn; [by rewrite Z.add_0_r|]. apply u64_add_l.
    + split; [|congruence]. intros Hpc. rewrite Hc, Hr. by apply Hwake.
Qed.

Lemma take_ok interrupts fp pc now st acc pr rf pc' fp' :
  pc = Entering \/ pc = Asleep true \/ pc = Asleep false -> take_frame fp = Some (pc', fp') ->
  pacer_ok interrupts (mk_psys (Some fp) pc now st acc pr rf) ->
  pacer_ok interrupts (mk_psys (Some fp') pc' now st acc pr rf).
Proof.
  intros Hpc Htake [Htime (Hwf & Hacc & Hpaced & Hdrop & Hwake & Hrun)]. cbn in *.
  assert (in_flight pc = []) as Hfl by (by destruct Hpc as [->|[->| ->]]). rewrite Hfl in Hacc. cbn in Hacc.
  assert (interrupts = false -> Forall (fun p => fe_target_present_ns p.1 <= p.2) pr) as Htime' by (intros Hi; apply Htime, Hi).
  unfold take_frame in Htake. destruct (Z.eqb_spec (fp_count fp) 0) as [H0|Hpos], (fp_running fp) eqn:Hr; cbn in Htake.
  - injection Htake as <- <-. split; [intros Hi; split; [by apply Htime'|done]|]. cbn. by rewrite Hr.
  - injection Htake as <- <-. split; [intros Hi; split; [by apply Htime'|done]|]. cbn. by rewrite Hr.
  - destruct (take_contents fp Hwf) as (f & Hf & Hwf' & Hcont); [destruct Hwf as (_ & _ & ? & _); lia|].
    rewrite Hf in Htake. injection Htake as <- <-. split; [intros Hi; split; [by apply Htime'|done]|]. cbn -[contents].
    split; [done|]. split; [by rewrite Hacc, Hcont|]. by rewrite Hr.
  - injection Htake as <- <-. split; [intros Hi; split; [by apply Htime'|done]|]. cbn. by rewrite Hr.
Qed.

(** The request is well formed and lasts until the target. *)
Lemma sleep_request target now ts :
  sleep_until_ns target now = Some ts -> ts_valid ts /\ now + ts_ns ts = target /\ now < target.
Proof.
  unfold sleep_until_ns. destruct (Z.leb_spec target now) as [|Hlt]; [done|]. intros [= <-]. unfold ts_valid, ts_ns. cbn [tv_sec tv_nsec].
  pose proof (Z.div_mod (target - now) 1000000000 ltac:(lia)). pose proof (Z.mod_pos_bound (target - now) 1000000000 ltac:(lia)).
  pose proof (Z.div_pos (target - now) 1000000000 ltac:(lia) ltac:(lia)). lia.
Qed.

Lemma no_request target now : sleep_until_ns target now = None -> target <= now.
Proof. unfold sleep_until_ns. by destruct (Z.leb_spec target now). Qed.

Lemma on_time_later now now' pc pr : now <= now' -> on_time now pc pr -> on_time now' pc pr.
Proof. intros Hle [HF Hpc]. split; [done|]. destruct pc; try done. lia. Qed.

Lemma pacer_step_ok interrupts s s' : pacer_step interrupts s s' -> pacer_ok interrupts s -> pacer_ok interrupts s'.
Proof.
  intros Hstep. destruct Hstep as [fp pc now st acc pr rf now' Hnow|fp pc now acc pr rf id gpu r e fp' Hsub|
    fp pc now acc pr rf hz Hhz|fp pc now acc pr rf|fp now acc pr rf|fp now st acc pr rf|
    fp pc now st acc pr rf pc' fp' Hpc Htake|fp now st acc pr rf frame|fp now st acc pr rf frame ts since Hwake|fp now st acc pr rf frame|
    fp now st acc pr rf frame actual].
  - intros [Htime Hok]. split; [|done]. intros Hi. apply (on_time_later now); [cbn; lia|]. by apply Htime.
  - by eapply submit_frame_ok.
  - unfold mvgal_fp_set_refresh_hz. by destruct (hz =? 0).
  - intros [Htime (Hwf & Hacc & Hpaced & Hdrop & _ & _)]. destruct (signal_thread_same pc) as [Hfl Hot]. split; [cbn; auto|].
    cbn in *. rewrite Hfl. split; [done|]. split; [done|]. split; [done|]. split; [done|]. split; [apply signal_thread_awake|done].
  - intros [Htime (Hwf & Hacc & _)]. split; [done|]. split; [done|]. cbn in *. eexists. split; [exact Hacc|].
    rewrite length_contents by done. destruct Hwf as (_ & _ & ? & _). lia.
  - intros [Htime (Hwf & Hacc & Hpaced & Hdrop & Hwakes & Hrun)]. cbn in *. unfold while_running.
    destruct (fp_running fp) eqn:Hr; (split; [intros Hi; by destruct (Htime Hi)|cbn; by rewrite Hr]).
  - by eapply take_ok.
  - intros [Htime (Hwf & Hacc & Hpaced & Hdrop & Hwakes & Hrun)]. cbn in *. destruct (sleep_until_ns _ now) as [ts|] eqn:E.
    + split; [|done]. intros Hi. destruct (Htime Hi) as [HF _]. apply sleep_request in E as (? & ? & _). by split.
    + split; [|done]. intros Hi. destruct (Htime Hi) as [HF _]. apply no_request in E. by split.
  - intros [Htime (Hwf & Hacc & Hpaced & Hdrop & Hwakes & Hrun)]. split; [|done]. cbn in *. intros Hi.
    destruct (Htime Hi) as [HF [Hv Hs]]. split; [done|]. destruct Hwake as [?|[?|?]]; [done|lia|congruence].
  - intros [Htime (Hwf & Hacc & Hpaced & Hdrop & Hwakes & Hrun)]. by split.
  - intros [Htime (Hwf & Hacc & Hpaced & Hdrop & Hwakes & Hrun)]. cbn in *. split.
    + intros Hi. destruct (Htime Hi) as [HF Hf]. split; [|done]. cbn. apply Forall_app. split; [done|]. by apply Forall_singleton.
    + cbn. split; [exact Hwf|]. rewrite fmap_app, <- app_assoc. split; [exact Hacc|].
      rewrite length_app, Nat2Z.inj_add, Hpaced, u64_add_l. done.
Qed.

(** Times fit in 64 bits. *)
Definition times_ok (s : pacer_sys) : Prop :=
  ps_now s <= U64_MAX /\ Forall (fun f => is_u64 (fe_target_present_ns f)) (ps_accepted s).

Lemma times_step interrupts s s' : pacer_step interrupts s s' -> times_ok s -> times_ok s'.
Proof.
  intros Hstep. destruct Hstep as [fp pc now st acc pr rf now' Hnow|fp pc now acc pr rf id gpu r e fp' Hsub| | | | | | | | |];
    try done; intros [Hn Ha].
  - split; [cbn; lia|done].
  - split; [done|]. apply Forall_app. split; [done|]. destruct (submit_outcome _ _ _ _ _ _ _ Hsub) as (_ & _ & He).
    destruct e; cbn; [|done]. apply Forall_singleton, He.
Qed.

Lemma reach_ok interrupts hz now s :
  now <= U64_MAX -> pacer_reach interrupts hz now s -> pacer_ok interrupts s /\ times_ok s.
Proof.
  intros Hnow. induction 1 as [fp Hfp|s s' _ [IH1 IH2] Hstep].
  - split; [by eapply fresh_pacer_ok|done].
  - split; [by eapply pacer_step_ok|by eapply times_step].
Qed.

(** A stopped thread ends once it has presented the frame it holds. *)
Lemma testing_ends interrupts fp now acc pr rf :
  fp_running fp = false ->
  exists s', rtc (pacer_step interrupts) (mk_psys (Some fp) Testing now true acc pr rf) s' /\ ps_fp s' = None.
Proof.
  intros Hr. exists (mk_psys None Finished now true acc pr rf). split; [|done]. eapply rtc_l; [apply step_test|]. unfold while_running. rewrite Hr.
  eapply rtc_l; [apply step_free|]. apply rtc_refl.
Qed.

Lemma taking_ends interrupts fp pc now acc pr rf :
  pc = Entering \/ pc = Asleep true \/ pc = Asleep false -> fp_running fp = false ->
  exists s', rtc (pacer_step interrupts) (mk_psys (Some fp) pc now true acc pr rf) s' /\ ps_fp s' = None.
Proof.
  intros Hpc Hr. exists (mk_psys None Finished now true acc pr rf). split; [|done]. eapply rtc_l; [eapply step_take; [exact Hpc|]|].
  - unfold take_frame. rewrite Hr, andb_false_r. reflexivity.
  - eapply rtc_l; [apply step_free|]. apply rtc_refl.
Qed.

Lemma presenting_ends interrupts fp frame actual now acc pr rf :
  fp_running fp = false ->
  exists s', rtc (pacer_step interrupts) (mk_psys (Some fp) (Presenting frame actual) now true acc pr rf) s' /\ ps_fp s' = None.
Proof.
  intros Hr. destruct (testing_ends interrupts (present_frame actual frame fp) now acc (pr ++ [(frame, actual)]) rf Hr)
    as (s' & Hrun & Hnone). exists s'. split; [|done]. eapply rtc_l; [apply step_present|exact Hrun].
Qed.

Lemma awake_ends interrupts fp frame now acc pr rf :
  fp_running fp = false ->
  exists s', rtc (pacer_step interrupts) (mk_psys (Some fp) (Awake frame) now true acc pr rf) s' /\ ps_fp s' = None.
Proof.
  intros Hr. destruct (presenting_ends interrupts fp frame now now acc pr rf Hr) as (s' & Hrun & Hnone).
  exists s'. split; [|done]. eapply rtc_l; [apply step_clock|exact Hrun].
Qed.

(** The sleep ends when its time has come. *)
Lemma sleeping_ends interrupts fp frame ts since now acc pr rf :
  now <= U64_MAX -> since + ts_ns ts <= U64_MAX \/ interrupts = true -> fp_running fp = false ->
  exists s', rtc (pacer_step interrupts) (mk_psys (Some fp) (Sleeping frame ts since) now true acc pr rf) s' /\ ps_fp s' = None.
Proof.
  intros Hnow Hts Hr. set (now' := if interrupts then now else Z.max now (since + ts_ns ts)).
  destruct (awake_ends interrupts fp frame now' acc pr rf Hr) as (s' & Hrun & Hnone). exists s'. split; [|done].
  eapply rtc_l; [apply (step_time _ _ _ _ _ _ _ _ now')|eapply rtc_l; [apply step_wake|exact Hrun]]; unfold now'.
  - destruct interrupts; [lia|]. destruct Hts; [lia|done].
  - destruct interrupts; [by right; right|]. right. left. lia.
Qed.

Lemma stop_ends interrupts s :
  pacer_ok interrupts s -> times_ok s -> ps_stopping s = true ->
  exists s', rtc (pacer_step interrupts) s s' /\ ps_fp s' = None.
Proof.
  intros [Htime Hok] [Hnow Htimes] Hst. destruct s as [[fp|] pc now st acc pr rf]; cbn in *; [|eexists; by split; [apply rtc_refl|]].
  subst st. destruct Hok as (_ & Hacc & _ & _ & _ & Hr).
  assert (Hmax : forall f, f ∈ in_flight pc -> fe_target_present_ns f <= U64_MAX).
  { intros f Hf. rewrite Forall_forall in Htimes. apply Htimes. rewrite Hacc. set_solver. }
  destruct pc as [| |sg|frame|frame ts since|frame|frame actual|].
  - by apply testing_ends.
  - apply taking_ends; auto.
  - apply taking_ends; [destruct sg; auto|done].
  - specialize (Hmax frame ltac:(set_solver)). destruct (sleep_until_ns (fe_target_present_ns frame) now) as [ts|] eqn:E.
    + apply sleep_request in E as E'. destruct (sleeping_ends interrupts fp frame ts now now acc pr rf) as (s' & Hrun & Hnone);
        [done|left; lia|done|]. exists s'. split; [|done]. eapply rtc_l; [apply step_sleep|]. by rewrite E.
    + destruct (awake_ends interrupts fp frame now acc pr rf Hr) as (s' & Hrun & Hnone).
      exists s'. split; [|done]. eapply rtc_l; [apply step_sleep|]. by rewrite E.
  - apply sleeping_ends; [done| |done]. specialize (Hmax frame ltac:(set_solver)).
    destruct interrupts; [by right|left]. destruct Htime as [_ [_ Hts]]; [done|]. lia.
  - by apply awake_ends.
  - by apply presenting_ends.
  - eexists. split; [eapply rtc_l; [apply step_free|apply rtc_refl]|done].
Qed.

(** C28. In every interleaving of an application that submits frames, changes
    the refresh rate and destroys the pacer with the pacer's thread, the
    accepted frames are, in order, those presented, the one the thread holds
    and those in the ring; the ring never holds more than eight, the counters
    count what was presented and refused, the time that [sleep_until_ns]
    asks of [nanosleep] ends at the target of the frame, so that none is
    presented before its time unless a signal interrupts a sleep, and the
    thread waits without a wake-up under way only while the ring is empty and
    the pacer runs; a pacer that is being destroyed can always be freed, with
    at most eight frames lost. *)
Theorem pacer_in_order interrupts hz now s :
  now <= U64_MAX -> pacer_reach interrupts hz now s ->
  pacer_ok interrupts s /\
  (ps_stopping s = true -> exists s', rtc (pacer_step interrupts) s s' /\ ps_fp s' = None).
Proof.
  intros Hnow Hreach. destruct (reach_ok _ _ _ _ Hnow Hreach) as [Hok Htimes]. split; [done|]. by apply stop_ends.
Qed.

(** ** Two frames at once *)

Module Burst.
Definition fp0 : mvgal_frame_pacer_t := default (mk_pacer [] 0 0 0 0 0 0 false false 0 0 0) (mvgal_fp_create true true 50).

Definition submit (now id gpu : Z) (fp : mvgal_frame_pacer_t) : mvgal_frame_pacer_t := (mvgal_fp_submit_frame now id gpu fp).2.
Definition frame (now id gpu : Z) (fp : mvgal_frame_pacer_t) : list mvgal_frame_entry_t :=
  option_list (mvgal_fp_submit_frame now id gpu fp).1.2.

Definition fp2 : mvgal_frame_pacer_t := submit 1001 2 1 (submit 1000 1 0 fp0).
Definition accepted : list mvgal_frame_entry_t := frame 1000 1 0 fp0 ++ frame 1001 2 1 (submit 1000 1 0 fp0).
Definition after : pacer_sys := mk_psys (Some fp2) Testing 1001 false accepted [] 0.

Lemma submit_reached now acc id gpu fp f :
  (mvgal_fp_submit_frame now id gpu fp).1.2 = Some f ->
  pacer_reach false 50 1000 (mk_psys (Some fp) Testing now false acc [] 0) ->
  pacer_reach false 50 1000 (mk_psys (Some (submit now id gpu fp)) Testing now false (acc ++ frame now id gpu fp) [] 0).
Proof.
  intros Hf Hr. unfold submit, frame. destruct (mvgal_fp_submit_frame now id gpu fp) as [[r e] fp'] eqn:E. cbn in Hf. subst e.
  eapply reach_step; [exact Hr|]. exact (step_submit false fp Testing now acc [] 0 id gpu r (Some f) fp' E).
Qed.

Lemma after_reached : pacer_reach false 50 1000 after.
Proof.
  apply (submit_reached 1001 (frame 1000 1 0 fp0) 2 1 (submit 1000 1 0 fp0) (mk_frame 2 1001 20001001 1 true)); [vm_compute; reflexivity|].
  eapply reach_step.
  - apply (submit_reached 1000 [] 1 0 fp0 (mk_frame 1 1000 20001000 0 true)); [vm_compute; reflexivity|].
    apply (reach_start false 50 1000 fp0). reflexivity.
  - apply step_time. vm_compute. split; discriminate.
Qed.

(** After a presentation, frames that are ready before the next one share a
    presentation time. *)
Example shared_time :
  let fp := fp0 <| fp_last_present_ns := 900 |> in
  fe_target_present_ns <$> frame 1000 1 0 fp ++ frame 1001 2 1 (submit 1000 1 0 fp) = [20000900; 20000900].
Proof. vm_compute. reflexivity. Qed.

Lemma pacer_in_order_witness :
  (fe_target_present_ns <$> accepted) = [20001000; 20001001] /\ contents fp2 = accepted /\ pacer_ok false after.
Proof.
  split; [vm_compute; reflexivity|]. split; [vm_compute; reflexivity|].
  apply (pacer_in_order false 50 1000 after); [vm_compute; discriminate|exact after_reached].
Defined.
End Burst.
