(* ===== verification/Coherency.v ===== *)
(** * Coherency domains and cache maintenance

    src/userspace/memory/coherency.c with include/mvgal/mvgal_coherency.h.  The
    instructions that maintain caches are recorded in the order they are
    issued, for the architecture the file is compiled for.  The semaphores of
    the file are in CoherencySem.v. *)

From S2P Require Import Prelude GpuTypes SyncPrims MemTypes.
Local Open Scope Z_scope.

(** ** Data *)

(** [DOMAIN_OTHER] is a number that no constant has. *)
Inductive mvgal_coherency_domain_type_t : Type :=
| MVGAL_COHERENCY_DOMAIN_SYSTEM
| MVGAL_COHERENCY_DOMAIN_DEVICE
| MVGAL_COHERENCY_DOMAIN_CROSS_DEVICE
| MVGAL_COHERENCY_DOMAIN_P2P
| DOMAIN_OTHER.

Definition MVGAL_COHERENCY_FLAG_INVALIDATE : Z := 1.
Definition MVGAL_COHERENCY_FLAG_FLUSH : Z := 2.
Definition MVGAL_COHERENCY_FLAG_BIDIRECTIONAL : Z := 4.

Record mvgal_coherency_domain : Type := mk_domain {
  cd_type : mvgal_coherency_domain_type_t;
  cd_gpu_indices : list Z;
  cd_cache_coherent : bool;
  cd_atomic_supported : bool;
  cd_domain_id : Z;
  cd_refcount : Z
}.

Record mvgal_coherency_domain_descriptor_t : Type := mk_descriptor {
  dd_type : mvgal_coherency_domain_type_t;
  dd_gpu_indices : list Z;
  dd_cache_coherent : bool;
  dd_atomic_supported : bool;
  dd_domain_id : Z
}.

Inductive architecture : Type := X86 | Aarch64 | Other_arch.

(** [Line_clflush], [Line_cvac], [Line_civac]: the instruction for the line of
    an address; [Full_barrier]: [__sync_synchronize]. *)
Inductive cache_op : Type :=
| Line_clflush (a : Z)
| Line_cvac (a : Z)
| Line_civac (a : Z)
| Full_barrier.

(** [co_domains]: the domains in memory; no table of the module holds them. *)
Record coherency_state : Type := mk_coh {
  co_memory : mvgal_memory_state_t;
  co_next_domain_id : Z;
  co_domains : gmap positive mvgal_coherency_domain;
  co_ops : list cache_op
}.
#[export] Instance coh_eta : Eta coherency_state := fun r =>
  mk_coh (co_memory r) (co_next_domain_id r) (co_domains r) (co_ops r).

Abbreviation CM := (M coherency_state).

Definition on_memory_state {A : Type} (m : MM A) : CM A := fun s =>
  match m (co_memory s) with
  | Ret (a, ms) => Ret (a, s <| co_memory := ms |>)
  | Fault e => Fault e
  | NoFuel => NoFuel
  end.

Definition issue (op : cache_op) : CM unit := modify (fun s => s <| co_ops ::= fun l => l ++ [op] |>).

(** ** Cache maintenance *)

(** The loop over a range, one instruction per 64 bytes; [other] is the
    generic branch, which leaves the loop. *)
Fixpoint each_line (fuel : nat) (instruction : option (Z -> cache_op)) (ptr size offset : Z) : CM unit :=
  match fuel with
  | O => fun _ => NoFuel
  | S fuel' =>
      if offset <? size then
        match instruction with
        | None => issue Full_barrier
        | Some op => issue (op (ptr + offset));; each_line fuel' instruction ptr size (u64 (offset + 64))
        end
      else mret tt
  end.

Definition line_fuel (size : Z) : nat := S (S (Z.to_nat (size / 64))).

Definition cache_line_flush (arch : architecture) (addr size : Z) : CM unit :=
  each_line (line_fuel size)
    match arch with X86 => Some Line_clflush | Aarch64 => Some Line_cvac | Other_arch => None end addr size 0;;
  issue Full_barrier.

Definition cache_line_invalidate (arch : architecture) (addr size : Z) : CM unit :=
  each_line (line_fuel size)
    match arch with X86 => Some Line_clflush | Aarch64 => Some Line_civac | Other_arch => None end addr size 0;;
  issue Full_barrier.

Definition validate_gpu_index (gpu_index : Z) : CM mvgal_error_t :=
  on_memory_state (
    lock;;
    state ← get;
    unlock;;
    mret (if gpu_index <? ms_gpu_count state then MVGAL_SUCCESS else MVGAL_ERROR_INVALID_ARGUMENT)).

(** ** Domains *)

(** The loop that validates the indices: the first error. *)
Fixpoint validate_all (indices : list Z) : CM mvgal_error_t :=
  match indices with
  | [] => mret MVGAL_SUCCESS
  | i :: rest => ret ← validate_gpu_index i; if is_success ret then validate_all rest else mret ret
  end.

(** The coherency model of a type: cache coherent, atomics. *)
Definition domain_model (type : mvgal_coherency_domain_type_t) : option (bool * bool) :=
  match type with
  | MVGAL_COHERENCY_DOMAIN_SYSTEM => Some (false, true)
  | MVGAL_COHERENCY_DOMAIN_DEVICE => Some (true, true)
  | MVGAL_COHERENCY_DOMAIN_CROSS_DEVICE => Some (false, false)
  | MVGAL_COHERENCY_DOMAIN_P2P => Some (false, true)
  | DOMAIN_OTHER => None
  end.

(** [gpu_indices]: the array, [None] for a null pointer; the first [gpu_count]
    elements are read. *)
Definition mvgal_coherency_domain_create (res : sync_resources) (type : mvgal_coherency_domain_type_t) (gpu_count : Z)
  (gpu_indices : option (list Z)) (descriptor : bool) : CM (mvgal_error_t * option mvgal_coherency_domain_descriptor_t) :=
  if negb descriptor then mret (MVGAL_ERROR_INVALID_ARGUMENT, None) else
  match gpu_indices with
  | None => mret (MVGAL_ERROR_INVALID_ARGUMENT, None)
  | Some l =>
      if gpu_count =? 0 then mret (MVGAL_ERROR_INVALID_ARGUMENT, None) else
      if 16 <? gpu_count then mret (MVGAL_ERROR_INVALID_ARGUMENT, None) else
      if Z.of_nat (length l) <? gpu_count then fails OutOfBounds else
      let indices := take (Z.to_nat gpu_count) l in
      ret ← validate_all indices;
      if negb (is_success ret) then mret (ret, None) else
      if negb (res_memory res) then mret (MVGAL_ERROR_OUT_OF_MEMORY, None) else
      if negb (res_mutex res) then mret (MVGAL_ERROR_INITIALIZATION, None) else
      s ← get;
      let id := co_next_domain_id s in
      modify (fun s => s <| co_next_domain_id := u64 (id + 1) |>);;
      match domain_model type with
      | None => mret (MVGAL_ERROR_INVALID_ARGUMENT, None)
      | Some (coherent, atomics) =>
          let p := fresh (dom (co_domains s)) in
          modify (fun s => s <| co_domains ::= <[p := mk_domain type indices coherent atomics id 1]> |>);;
          mret (MVGAL_SUCCESS, Some (mk_descriptor type indices coherent atomics id))
      end
  end.

(** The descriptor is cleared; the domain is not found or freed. *)
Definition mvgal_coherency_domain_destroy (descriptor : option mvgal_coherency_domain_descriptor_t)
  : CM (mvgal_error_t * option mvgal_coherency_domain_descriptor_t) :=
  match descriptor with
  | None => mret (MVGAL_ERROR_INVALID_ARGUMENT, None)
  | Some _ => mret (MVGAL_SUCCESS, Some (mk_descriptor MVGAL_COHERENCY_DOMAIN_SYSTEM [] false false 0))
  end.

(** The three tests on the flags that the two synchronising calls share. *)
Definition sync_range (arch : architecture) (ptr size flags : Z) : CM unit :=
  let bidirectional := has_flag flags MVGAL_COHERENCY_FLAG_BIDIRECTIONAL in
  let flush := has_flag flags MVGAL_COHERENCY_FLAG_FLUSH in
  let invalidate := has_flag flags MVGAL_COHERENCY_FLAG_INVALIDATE in
  (if flush || bidirectional then cache_line_flush arch ptr size else mret tt);;
  (if invalidate || bidirectional then cache_line_invalidate arch ptr size else mret tt);;
  (if Z.land flags 7 =? 0 then cache_line_flush arch ptr size;; cache_line_invalidate arch ptr size else mret tt);;
  issue Full_barrier.

(** [ptr] is 0 for a null pointer. *)
Definition mvgal_coherency_sync (arch : architecture) (descriptor : option mvgal_coherency_domain_descriptor_t)
  (ptr size flags : Z) : CM mvgal_error_t :=
  if bool_decide (descriptor = None) || (ptr =? 0) || (size =? 0) then mret MVGAL_ERROR_INVALID_ARGUMENT else
  sync_range arch ptr size flags;; mret MVGAL_SUCCESS.

Definition mvgal_coherency_flush (arch : architecture) (ptr size : Z) : CM mvgal_error_t :=
  if (ptr =? 0) || (size =? 0) then mret MVGAL_ERROR_INVALID_ARGUMENT else
  cache_line_flush arch ptr size;; mret MVGAL_SUCCESS.

Definition mvgal_coherency_invalidate (arch : architecture) (ptr size : Z) : CM mvgal_error_t :=
  if (ptr =? 0) || (size =? 0) then mret MVGAL_ERROR_INVALID_ARGUMENT else
  cache_line_invalidate arch ptr size;; mret MVGAL_SUCCESS.

Definition mvgal_coherency_p2p_sync (arch : architecture) (src_gpu dst_gpu ptr size flags : Z) : CM mvgal_error_t :=
  ret ← validate_gpu_index src_gpu;
  if negb (is_success ret) then mret ret else
  ret ← validate_gpu_index dst_gpu;
  if negb (is_success ret) then mret ret else
  if (ptr =? 0) || (size =? 0) then mret MVGAL_ERROR_INVALID_ARGUMENT else
  sync_range arch ptr size flags;; mret MVGAL_SUCCESS.

(** The two flags that the call writes, if the pointers are not null. *)
Definition mvgal_coherency_query_capabilities (gpu_a gpu_b : Z) (cache_coherent atomic_supported : bool)
  : CM (mvgal_error_t * option (bool * bool)) :=
  ret ← validate_gpu_index gpu_a;
  if negb (is_success ret) then mret (ret, None) else
  ret ← validate_gpu_index gpu_b;
  if negb (is_success ret) then mret (ret, None) else
  if negb cache_coherent || negb atomic_supported then mret (MVGAL_ERROR_INVALID_ARGUMENT, None) else
  r ← on_memory_state (
        lock;;
        state ← get;
        r ← (if gpu_a =? gpu_b then mret (true, true) else
             a ← of_option OutOfBounds (ms_gpus state !! Z.to_nat gpu_a);
             b ← of_option OutOfBounds (ms_gpus state !! Z.to_nat gpu_b);
             mret (false, bool_decide (g_vendor a = g_vendor b)));
        unlock;;
        mret r);
  mret (MVGAL_SUCCESS, Some r).
