(* ===== verification/CoherencyRange.v ===== *)
(** * What cache maintenance covers

    The instructions that a synchronising call issues, and when they reach
    every cache line of the range. *)

From S2P Require Import Prelude GpuTypes SyncPrims MemTypes Coherency.
Local Open Scope Z_scope.

Definition flush_op (arch : architecture) : option (Z -> cache_op) :=
  match arch with X86 => Some Line_clflush | Aarch64 => Some Line_cvac | Other_arch => None end.
Definition invalidate_op (arch : architecture) : option (Z -> cache_op) :=
  match arch with X86 => Some Line_clflush | Aarch64 => Some Line_civac | Other_arch => None end.

Definition line_count (size : Z) : nat := Z.to_nat ((size + 63) / 64).

(** A pass over a range: one instruction per 64 bytes, then a barrier. *)
Definition pass (instruction : option (Z -> cache_op)) (ptr size : Z) : list cache_op :=
  match instruction with
  | Some op => (fun k => op (ptr + 64 * Z.of_nat k)) <$> seq 0 (line_count size)
  | None => [Full_barrier]
  end ++ [Full_barrier].

(** A call issues [ops] and changes nothing else. *)
Definition issues {A : Type} (m : CM A) (a : A) (ops : list cache_op) : Prop :=
  forall s, wp m (fun a' s' => a' = a /\ s' = s <| co_ops := co_ops s ++ ops |>) s.

Lemma issues_ret {A : Type} (a : A) : issues (mret a) a [].
Proof. intros s. apply wp_ret. split; [done|]. destruct s. cbn. by rewrite app_nil_r. Qed.

Lemma issues_op op : issues (issue op) tt [op].
Proof. intros s. by apply wp_modify. Qed.

Lemma issues_bind {A B : Type} (m : CM A) (f : A -> CM B) a b l1 l2 :
  issues m a l1 -> issues (f a) b l2 -> issues (m ≫= f) b (l1 ++ l2).
Proof.
  intros Hm Hf s. apply wp_bind. eapply wp_mono; [apply Hm|]. intros ? s1 [-> ->].
  eapply wp_mono; [apply Hf|]. intros ? s2 [-> ->]. split; [done|]. destruct s. cbn. by rewrite app_assoc.
Qed.

Lemma each_line_issues op ptr size fuel j :
  0 <= size <= U64_MAX - 63 -> (j <= line_count size < j + fuel)%nat ->
  issues (each_line fuel (Some op) ptr size (64 * Z.of_nat j)) tt
    ((fun k => op (ptr + 64 * Z.of_nat k)) <$> seq j (line_count size - j)).
Proof.
  intros Hsize. revert j. induction fuel as [|fuel IH]; intros j Hj; [lia|]. cbn [each_line].
  unfold line_count, U64_MAX in *. destruct (Z.ltb_spec (64 * Z.of_nat j) size) as [Hlt|Hge].
  - assert (j < Z.to_nat ((size + 63) / 64))%nat as Hlt' by (Z.to_euclidean_division_equations; lia).
    replace (Z.to_nat ((size + 63) / 64) - j)%nat with (S (Z.to_nat ((size + 63) / 64) - S j)) by lia.
    cbn [seq fmap list_fmap]. apply (issues_bind _ _ tt tt [_]); [apply issues_op|].
    rewrite u64_small by (unfold is_u64, U64_MAX; lia). replace (64 * Z.of_nat j + 64) with (64 * Z.of_nat (S j)) by lia.
    apply IH. lia.
  - replace (Z.to_nat ((size + 63) / 64) - j)%nat with 0%nat by (Z.to_euclidean_division_equations; lia). apply issues_ret.
Qed.

Lemma pass_issues instruction ptr size :
  0 < size <= U64_MAX - 63 ->
  issues (each_line (line_fuel size) instruction ptr size 0;; issue Full_barrier) tt (pass instruction ptr size).
Proof.
  intros Hsize. unfold pass. apply (issues_bind _ _ tt); [|apply issues_op]. destruct instruction as [op|].
  - assert (line_count size < line_fuel size)%nat by (unfold line_count, line_fuel; Z.to_euclidean_division_equations; lia).
    pose proof (each_line_issues op ptr size (line_fuel size) 0) as Hl. rewrite Nat.sub_0_r in Hl. apply Hl; lia.
  - unfold line_fuel. cbn [each_line]. rewrite (proj2 (Z.ltb_lt _ _)) by lia. apply issues_op.
Qed.

(** What the flags ask for, flush before invalidate. *)
Definition sync_ops (arch : architecture) (ptr size flags : Z) : list cache_op :=
  let both := has_flag flags MVGAL_COHERENCY_FLAG_BIDIRECTIONAL || (Z.land flags 7 =? 0) in
  (if has_flag flags MVGAL_COHERENCY_FLAG_FLUSH || both then pass (flush_op arch) ptr size else []) ++
  (if has_flag flags MVGAL_COHERENCY_FLAG_INVALIDATE || both then pass (invalidate_op arch) ptr size else []) ++
  [Full_barrier].

Lemma land7_flags flags :
  (Z.land flags 7 =? 0) =
    negb (has_flag flags MVGAL_COHERENCY_FLAG_FLUSH || has_flag flags MVGAL_COHERENCY_FLAG_INVALIDATE ||
          has_flag flags MVGAL_COHERENCY_FLAG_BIDIRECTIONAL).
Proof.
  unfold has_flag, MVGAL_COHERENCY_FLAG_FLUSH, MVGAL_COHERENCY_FLAG_INVALIDATE, MVGAL_COHERENCY_FLAG_BIDIRECTIONAL.
  change 7 with (Z.lor (Z.lor 2 1) 4). rewrite !Z.land_lor_distr_r.
  destruct (Z.eqb_spec (Z.land flags 2) 0) as [->|H2], (Z.eqb_spec (Z.land flags 1) 0) as [->|H1],
    (Z.eqb_spec (Z.land flags 4) 0) as [->|H4]; cbn [negb orb]; try done; apply Z.eqb_neq; rewrite !Z.lor_eq_0_iff; tauto.
Qed.

Lemma issues_if (b : bool) (m : CM unit) ops :
  issues m tt ops -> issues (if b then m else mret tt) tt (if b then ops else []).
Proof. destruct b; [done|]. intros _. apply issues_ret. Qed.

Lemma issues_eq {A : Type} (m : CM A) a ops ops' : issues m a ops -> ops = ops' -> issues m a ops'.
Proof. by intros Hm <-. Qed.

Lemma sync_range_issues arch ptr size flags :
  0 < size <= U64_MAX - 63 -> issues (sync_range arch ptr size flags) tt (sync_ops arch ptr size flags).
Proof.
  intros Hsize.
  assert (issues (cache_line_flush arch ptr size) tt (pass (flush_op arch) ptr size)) as Hf by (by apply pass_issues).
  assert (issues (cache_line_invalidate arch ptr size) tt (pass (invalidate_op arch) ptr size)) as Hi by (by apply pass_issues).
  pose proof (issues_bind _ (fun _ => cache_line_invalidate arch ptr size) _ _ _ _ Hf Hi) as Hfi.
  eapply issues_eq.
  - eapply issues_bind; [apply issues_if, Hf|]. eapply issues_bind; [apply issues_if, Hi|].
    eapply issues_bind; [apply issues_if, Hfi|apply issues_op].
  - unfold sync_ops. rewrite land7_flags.
    destruct (has_flag flags MVGAL_COHERENCY_FLAG_FLUSH), (has_flag flags MVGAL_COHERENCY_FLAG_INVALIDATE),
      (has_flag flags MVGAL_COHERENCY_FLAG_BIDIRECTIONAL); cbn [orb negb]; rewrite ?app_nil_l, <- ?app_assoc; done.
Qed.

(** ** Coverage *)

Definition op_line (op : cache_op) : option Z :=
  match op with Line_clflush a | Line_cvac a | Line_civac a => Some (a / 64) | Full_barrier => None end.

(** The cache lines of the bytes of a range. *)
Definition range_line (ptr size l : Z) : Prop := exists b, ptr <= b < ptr + size /\ b / 64 = l.

Definition covered (ops : list cache_op) (l : Z) : Prop := exists op, op ∈ ops /\ op_line op = Some l.

Lemma range_lines ptr size l : 0 < size -> range_line ptr size l <-> ptr / 64 <= l <= (ptr + size - 1) / 64.
Proof.
  intros Hs. split.
  - intros (b & Hb & <-). split; apply Z.div_le_mono; lia.
  - intros Hl. exists (Z.max ptr (64 * l)). Z.to_euclidean_division_equations; lia.
Qed.

Lemma covered_app l1 l2 l : covered (l1 ++ l2) l <-> covered l1 l \/ covered l2 l.
Proof. unfold covered. set_solver. Qed.

Lemma pass_covers instruction ptr size l :
  instruction = Some Line_clflush \/ instruction = Some Line_cvac \/ instruction = Some Line_civac -> 0 < size ->
  covered (pass instruction ptr size) l <-> ptr / 64 <= l <= ptr / 64 + (size - 1) / 64.
Proof.
  intros Hop Hs. assert (exists op, instruction = Some op /\ forall a, op_line (op a) = Some (a / 64)) as (op & -> & Hline).
  { destruct Hop as [->|[->| ->]]; eauto. }
  unfold pass, covered. split.
  - intros (o & Ho & Hl). apply elem_of_app in Ho as [Ho|Ho%list_elem_of_singleton]; [|by subst].
    apply list_elem_of_fmap in Ho as (k & -> & Hk%elem_of_seq). rewrite Hline in Hl. injection Hl as <-.
    unfold line_count in Hk. Z.to_euclidean_division_equations; lia.
  - intros Hl. exists (op (ptr + 64 * (l - ptr / 64))). split.
    + apply elem_of_app. left. apply list_elem_of_fmap. exists (Z.to_nat (l - ptr / 64)). split; [f_equal; lia|].
      apply elem_of_seq. unfold line_count. Z.to_euclidean_division_equations; lia.
    + rewrite Hline. f_equal. Z.to_euclidean_division_equations; lia.
Qed.

Lemma sync_ops_cover arch ptr size flags l :
  arch <> Other_arch -> 0 < size ->
  covered (sync_ops arch ptr size flags) l <-> ptr / 64 <= l <= ptr / 64 + (size - 1) / 64.
Proof.
  intros Ha Hs.
  assert (covered (pass (flush_op arch) ptr size) l <-> ptr / 64 <= l <= ptr / 64 + (size - 1) / 64) as Hf
    by (apply pass_covers; [destruct arch; tauto|done]).
  assert (covered (pass (invalidate_op arch) ptr size) l <-> ptr / 64 <= l <= ptr / 64 + (size - 1) / 64) as Hi
    by (apply pass_covers; [destruct arch; tauto|done]).
  assert (~ covered [Full_barrier] l) as Hb by (intros (op & ->%list_elem_of_singleton & Hop); done).
  assert (~ covered [] l) as Hn by (intros (op & []%elem_of_nil & _)).
  unfold sync_ops. rewrite land7_flags, !covered_app.
  destruct (has_flag flags MVGAL_COHERENCY_FLAG_FLUSH), (has_flag flags MVGAL_COHERENCY_FLAG_INVALIDATE),
    (has_flag flags MVGAL_COHERENCY_FLAG_BIDIRECTIONAL); cbn [orb negb]; tauto.
Qed.

(** C31. Synchronising a range issues a pass of cache instructions over it for
    the flush, the invalidation or both, in this order, and a barrier, and
    changes nothing else.  The instructions touch only lines of the range, and
    they reach all of them exactly when the offset of the range in its first
    line and that of its last byte past a whole number of lines do not carry
    into one more line. *)
Theorem coherency_sync_covers arch d ptr size flags s :
  arch <> Other_arch -> ptr <> 0 -> 0 < size <= U64_MAX - 63 ->
  wp (mvgal_coherency_sync arch (Some d) ptr size flags)
    (fun r s' => r = MVGAL_SUCCESS /\ s' = s <| co_ops := co_ops s ++ sync_ops arch ptr size flags |> /\
       (forall l, covered (sync_ops arch ptr size flags) l -> range_line ptr size l) /\
       ((forall l, range_line ptr size l -> covered (sync_ops arch ptr size flags) l) <->
        ptr mod 64 + (size - 1) mod 64 < 64)) s.
Proof.
  intros Ha Hp Hs. unfold mvgal_coherency_sync. apply wp_if.
  { rewrite bool_decide_false by done. rewrite (proj2 (Z.eqb_neq _ _)) by lia. cbn. intros He%Z.eqb_eq. lia. }
  intros _. apply wp_bind. eapply wp_mono; [by apply sync_range_issues|]. intros ? s' [_ ->]. apply wp_ret.
  split; [done|]. split; [done|].
  assert (forall l, covered (sync_ops arch ptr size flags) l <-> ptr / 64 <= l <= ptr / 64 + (size - 1) / 64) as Hcov
    by (intros l; apply sync_ops_cover; [done|lia]).
  assert (forall l, range_line ptr size l <-> ptr / 64 <= l <= (ptr + size - 1) / 64) as Hran by (intros l; apply range_lines; lia).
  split; [intros l; rewrite Hcov, Hran; Z.to_euclidean_division_equations; lia|]. split.
  - intros Hall. specialize (Hall ((ptr + size - 1) / 64)). rewrite Hcov, Hran in Hall. Z.to_euclidean_division_equations; lia.
  - intros Hc l. rewrite Hcov, Hran. Z.to_euclidean_division_equations; lia.
Qed.

Module Ranges.
Definition d : mvgal_coherency_domain_descriptor_t := mk_descriptor MVGAL_COHERENCY_DOMAIN_P2P [0; 1] false true 1.

(** A range of one line's length that starts within a line. *)
Lemma coherency_sync_covers_witness :
  (forall s, wp (mvgal_coherency_sync X86 (Some d) 4128 64 MVGAL_COHERENCY_FLAG_FLUSH)
     (fun r s' => r = MVGAL_SUCCESS /\
        ~ (forall l, range_line 4128 64 l -> covered (sync_ops X86 4128 64 MVGAL_COHERENCY_FLAG_FLUSH) l)) s) /\
  (forall s, wp (mvgal_coherency_sync X86 (Some d) 4096 100 0)
     (fun r s' => forall l, range_line 4096 100 l -> covered (sync_ops X86 4096 100 0) l) s).
Proof.
  split; intros s.
  - eapply wp_mono; [apply (coherency_sync_covers X86 d 4128 64 MVGAL_COHERENCY_FLAG_FLUSH s)|].
    + discriminate.
    + discriminate.
    + vm_compute. split; [reflexivity|discriminate].
    + intros ? ? (H1 & _ & _ & H2). split; [exact H1|]. intros H3%H2. vm_compute in H3. discriminate.
  - eapply wp_mono; [apply (coherency_sync_covers X86 d 4096 100 0 s)|].
    + discriminate.
    + discriminate.
    + vm_compute. split; [reflexivity|discriminate].
    + intros ? ? (_ & _ & _ & H2). apply H2. vm_compute. reflexivity.
Defined.
End Ranges.
