(* ===== verification/CoherencySem.v ===== *)
(** * Timeline semaphores

    The semaphores of src/userspace/memory/coherency.c: a value that signals
    add to and that waits compare with a threshold, without taking from it.
    The calls are functions on the heap of semaphores; the threads that wait
    are a step relation over the sections under the mutex, with the condition
    variable's wake-ups. *)

From S2P Require Import Prelude SyncPrims.
Local Open Scope Z_scope.

Record mvgal_coherency_semaphore : Type := mk_csem {
  sm_value : Z;
  sm_refcount : Z;
  sm_shared : bool;
  sm_dmabuf_fd : Z
}.
#[export] Instance csem_eta : Eta mvgal_coherency_semaphore := fun r =>
  mk_csem (sm_value r) (sm_refcount r) (sm_shared r) (sm_dmabuf_fd r).

Abbreviation csem_heap := (gmap positive mvgal_coherency_semaphore).
Abbreviation SM := (M csem_heap).

Definition csem_at (p : addr) : SM mvgal_coherency_semaphore := fun h =>
  match h !! p with Some s => Ret (s, h) | None => Fault UseAfterFree end.

Definition mvgal_coherency_semaphore_create (res : sync_resources) (initial_value : Z) (semaphore : bool)
  : SM (mvgal_error_t * option addr) :=
  if negb semaphore then mret (MVGAL_ERROR_INVALID_ARGUMENT, None) else
  if negb (res_memory res) then mret (MVGAL_ERROR_OUT_OF_MEMORY, None) else
  if negb (res_mutex res) then mret (MVGAL_ERROR_INITIALIZATION, None) else
  if negb (res_cond res) then mret (MVGAL_ERROR_INITIALIZATION, None) else
  h ← get;
  let p := fresh (dom h) in
  modify (<[p := mk_csem initial_value 1 false (-1)]>);;
  mret (MVGAL_SUCCESS, Some p).

(** No call shares a semaphore, so there is no memory to unmap and no
    descriptor to close. *)
Definition mvgal_coherency_semaphore_destroy (semaphore : option addr) : SM mvgal_error_t :=
  match semaphore with
  | None => mret MVGAL_ERROR_INVALID_ARGUMENT
  | Some p =>
      s ← csem_at p;
      (if sm_refcount s <=? 1 then modify (delete p) else modify (<[p := s <| sm_refcount ::= fun n => n - 1 |>]>));;
      mret MVGAL_SUCCESS
  end.

Definition mvgal_coherency_semaphore_signal (semaphore : option addr) (increment : Z) : SM mvgal_error_t :=
  match semaphore with
  | None => mret MVGAL_ERROR_INVALID_ARGUMENT
  | Some p =>
      if increment =? 0 then mret MVGAL_ERROR_INVALID_ARGUMENT else
      s ← csem_at p;
      modify (<[p := s <| sm_value ::= fun v => u64 (v + increment) |>]>);;
      mret MVGAL_SUCCESS
  end.

(** A thread: it waits on the condition variable, with a wake-up under way or
    not, or it has returned. *)
Inductive csem_thread : Type :=
| Csem_wait (woken : bool) (p : addr) (value timeout_ns : Z)
| Csem_returned (e : mvgal_error_t).

(** The test of the waiting loops. *)
Definition csem_test (p : addr) (value timeout_ns : Z) : SM csem_thread :=
  s ← csem_at p;
  mret (if sm_value s <? value then Csem_wait false p value timeout_ns else Csem_returned MVGAL_SUCCESS).

Definition mvgal_coherency_semaphore_wait (semaphore : option addr) (value timeout_ns : Z) : SM csem_thread :=
  match semaphore with
  | None => mret (Csem_returned MVGAL_ERROR_INVALID_ARGUMENT)
  | Some p =>
      if value =? 0 then mret (Csem_returned MVGAL_ERROR_INVALID_ARGUMENT) else
      s ← csem_at p;
      if value <=? sm_value s then mret (Csem_returned MVGAL_SUCCESS) else
      if timeout_ns =? U64_MAX then csem_test p value timeout_ns else
      if timeout_ns =? 0 then mret (Csem_returned MVGAL_ERROR_TIMEOUT) else
      csem_test p value timeout_ns
  end.

(** ** Threads *)

Record csem_sys : Type := mk_csys { cy_heap : csem_heap; cy_threads : gmap nat csem_thread }.

Definition csem_idle (ths : gmap nat csem_thread) (t : nat) : Prop :=
  match ths !! t with None | Some (Csem_returned _) => True | _ => False end.

(** [pthread_cond_signal]: it unblocks one thread, if there is one. *)
Inductive csem_signal_one (p : addr) : gmap nat csem_thread -> gmap nat csem_thread -> Prop :=
| csem_wakes ths t value timeout_ns :
    ths !! t = Some (Csem_wait false p value timeout_ns) ->
    csem_signal_one p ths (<[t := Csem_wait true p value timeout_ns]> ths)
| csem_wakes_nobody ths :
    (forall t value timeout_ns, ths !! t <> Some (Csem_wait false p value timeout_ns)) -> csem_signal_one p ths ths.

(** [pthread_cond_broadcast]. *)
Definition csem_wake_all (p : addr) (t : csem_thread) : csem_thread :=
  match t with
  | Csem_wait w q value timeout_ns => Csem_wait (w || bool_decide (p = q)) q value timeout_ns
  | _ => t
  end.

Inductive csem_event : Type :=
| CSilent
| CCreated (p : addr) (value : Z)
| CFreed (p : addr)
| CSignalled (p : addr) (increment : Z)
| CReached (p : addr) (value : Z).

Definition csem_tested (p : addr) (value : Z) (t : csem_thread) : csem_event :=
  match t with Csem_returned MVGAL_SUCCESS => CReached p value | _ => CSilent end.

Inductive csem_step : csem_sys -> csem_event -> csem_sys -> Prop :=
| cstep_create res v h h' ths e r :
    mvgal_coherency_semaphore_create res v true h = Ret ((e, r), h') ->
    csem_step (mk_csys h ths) (match r with Some p => CCreated p v | None => CSilent end) (mk_csys h' ths)
| cstep_destroy p h h' ths :
    mvgal_coherency_semaphore_destroy (Some p) h = Ret (MVGAL_SUCCESS, h') ->
    csem_step (mk_csys h ths) (match h' !! p with None => CFreed p | Some _ => CSilent end)
      (mk_csys h' (match h' !! p with None => csem_wake_all p <$> ths | Some _ => ths end))
| cstep_signal p increment h h' ths ths' :
    mvgal_coherency_semaphore_signal (Some p) increment h = Ret (MVGAL_SUCCESS, h') -> csem_signal_one p ths ths' ->
    csem_step (mk_csys h ths) (CSignalled p increment) (mk_csys h' ths')
| cstep_wait p value timeout_ns t st h h' ths :
    csem_idle ths t ->
    mvgal_coherency_semaphore_wait (Some p) value timeout_ns h = Ret (st, h') ->
    csem_step (mk_csys h ths) (csem_tested p value st) (mk_csys h' (<[t := st]> ths))
| cstep_resume w p value timeout_ns t st h h' ths :
    ths !! t = Some (Csem_wait w p value timeout_ns) -> csem_test p value timeout_ns h = Ret (st, h') ->
    csem_step (mk_csys h ths) (csem_tested p value st) (mk_csys h' (<[t := st]> ths))
| cstep_timeout w p value timeout_ns t e h ths :
    ths !! t = Some (Csem_wait w p value timeout_ns) -> timeout_ns <> U64_MAX ->
    e = MVGAL_ERROR_TIMEOUT \/ e = MVGAL_ERROR_UNKNOWN ->
    csem_step (mk_csys h ths) CSilent (mk_csys h (<[t := Csem_returned e]> ths)).

(** Runs from no semaphore and no thread through states that satisfy [P],
    with their events, oldest first. *)
Inductive csem_run (P : csem_sys -> Prop) : list csem_event -> csem_sys -> Prop :=
| crun_nil : csem_run P [] (mk_csys ∅ ∅)
| crun_step evs s e s' : csem_run P evs s -> csem_step s e s' -> P s' -> csem_run P (evs ++ [e]) s'.

(** ** The timeline *)

(** The value of the semaphore at [p] after the events. *)
Definition timeline_step (p : addr) (v : option Z) (e : csem_event) : option Z :=
  match e with
  | CCreated q x => if decide (p = q) then Some x else v
  | CFreed q => if decide (p = q) then None else v
  | CSignalled q x => if decide (p = q) then (fun v => u64 (v + x)) <$> v else v
  | _ => v
  end.

Definition timeline (p : addr) (evs : list csem_event) : option Z := foldl (timeline_step p) None evs.

(** Every wait that succeeded did so at a time its semaphore had the value. *)
Definition waits_reached (evs : list csem_event) : Prop :=
  forall evs1 evs2 p value, evs = evs1 ++ CReached p value :: evs2 -> exists v, timeline p evs1 = Some v /\ value <= v.

(** No semaphore has two waiters. *)
Definition single_waiter (s : csem_sys) : Prop :=
  forall p t1 t2 w1 w2 v1 v2 o1 o2,
    cy_threads s !! t1 = Some (Csem_wait w1 p v1 o1) -> cy_threads s !! t2 = Some (Csem_wait w2 p v2 o2) -> t1 = t2.

(** A thread without a wake-up under way waits for a value that its
    semaphore has not reached. *)
Definition none_stranded (s : csem_sys) : Prop :=
  forall t p value timeout_ns, cy_threads s !! t = Some (Csem_wait false p value timeout_ns) ->
    exists sm, cy_heap s !! p = Some sm /\ sm_value sm < value.

Definition values_follow (evs : list csem_event) (h : csem_heap) : Prop := forall p, sm_value <$> h !! p = timeline p evs.

Lemma timeline_app p evs e : timeline p (evs ++ [e]) = timeline_step p (timeline p evs) e.
Proof. unfold timeline. by rewrite foldl_app. Qed.

Lemma csem_at_inv p h s h' : csem_at p h = Ret (s, h') -> h !! p = Some s /\ h' = h.
Proof. unfold csem_at. destruct (h !! p); [|done]. by intros [= <- <-]. Qed.

Lemma create_inv res v h e r h' :
  mvgal_coherency_semaphore_create res v true h = Ret ((e, r), h') ->
  match r with
  | Some p => h !! p = None /\ exists sm, sm_value sm = v /\ h' = <[p := sm]> h
  | None => h' = h
  end.
Proof.
  unfold mvgal_coherency_semaphore_create.
  destruct (res_memory res), (res_mutex res), (res_cond res); intros [= <- <- <-]; try done.
  split; [apply not_elem_of_dom, is_fresh|]. by eexists (mk_csem _ _ _ _).
Qed.

Lemma destroy_inv p h h' :
  mvgal_coherency_semaphore_destroy (Some p) h = Ret (MVGAL_SUCCESS, h') ->
  exists s, h !! p = Some s /\ (h' = delete p h \/ exists s', sm_value s' = sm_value s /\ h' = <[p := s']> h).
Proof.
  cbn. intros Hd. apply bind_inv in Hd as (s & h1 & [Hs ->]%csem_at_inv & Hd). exists s. split; [done|].
  destruct (sm_refcount s <=? 1); injection Hd as <-; [by left|right]. by eexists (mk_csem _ _ _ _).
Qed.

Lemma signal_inv p x h h' :
  mvgal_coherency_semaphore_signal (Some p) x h = Ret (MVGAL_SUCCESS, h') ->
  exists s s', h !! p = Some s /\ sm_value s' = u64 (sm_value s + x) /\ h' = <[p := s']> h.
Proof.
  cbn. destruct (x =? 0); [done|]. intros Hd. apply bind_inv in Hd as (s & h1 & [Hs ->]%csem_at_inv & Hd).
  injection Hd as <-. exists s. by eexists (mk_csem _ _ _ _).
Qed.

(** A test leaves the heap alone and succeeds exactly at the value. *)
Lemma test_inv p value timeout_ns h st h' :
  csem_test p value timeout_ns h = Ret (st, h') ->
  h' = h /\ exists s, h !! p = Some s /\
    (sm_value s < value /\ st = Csem_wait false p value timeout_ns \/ value <= sm_value s /\ st = Csem_returned MVGAL_SUCCESS).
Proof.
  intros Ht. apply bind_inv in Ht as (s & h1 & [Hs ->]%csem_at_inv & Ht). injection Ht as <- <-. split; [done|].
  exists s. split; [done|]. destruct (Z.ltb_spec (sm_value s) value); auto.
Qed.

Lemma wait_inv p value timeout_ns h st h' :
  mvgal_coherency_semaphore_wait (Some p) value timeout_ns h = Ret (st, h') ->
  h' = h /\ ((exists e, st = Csem_returned e /\ e <> MVGAL_SUCCESS) \/ exists s, h !! p = Some s /\
    (sm_value s < value /\ st = Csem_wait false p value timeout_ns \/ value <= sm_value s /\ st = Csem_returned MVGAL_SUCCESS)).
Proof.
  cbn. destruct (value =? 0); [intros [= <- <-]; split; [done|]; left; eauto|].
  intros Hw. apply bind_inv in Hw as (s & h1 & [Hs ->]%csem_at_inv & Hw).
  destruct (Z.leb_spec value (sm_value s)) as [Hle|Hlt]; [injection Hw as <- <-; split; [done|]; right; eauto|].
  destruct (timeout_ns =? U64_MAX); [apply test_inv in Hw as [-> Hw]; auto|].
  destruct (timeout_ns =? 0); [injection Hw as <- <-; split; [done|]; left; eauto|]. apply test_inv in Hw as [-> Hw]; auto.
Qed.

(** ** Runs *)

(** The threads after a test of [t] at a semaphore of the heap. *)
Lemma stranded_insert h ths t st :
  none_stranded (mk_csys h ths) ->
  (forall p value timeout_ns, st = Csem_wait false p value timeout_ns -> exists sm, h !! p = Some sm /\ sm_value sm < value) ->
  none_stranded (mk_csys h (<[t := st]> ths)).
Proof.
  intros Hn Hst t' p v o. cbn. rewrite lookup_insert_Some. intros [[-> ->]|[_ Ht]]; [eauto|exact (Hn _ _ _ _ Ht)].
Qed.

Lemma stranded_destroy p h ths s s' h' :
  h !! p = Some s -> none_stranded (mk_csys h ths) ->
  h' = delete p h \/ sm_value s' = sm_value s /\ h' = <[p := s']> h ->
  none_stranded (mk_csys h' (match h' !! p with None => csem_wake_all p <$> ths | Some _ => ths end)).
Proof.
  intros Hs Hn [->|[Hv ->]].
  - rewrite lookup_delete_eq. intros t q v o. cbn. rewrite lookup_fmap.
    destruct (ths !! t) as [[w q' v' o'|]|] eqn:Et; try done. cbn. intros [= Hw -> -> ->].
    apply orb_false_iff in Hw as [-> Hw%bool_decide_eq_false].
    rewrite lookup_delete_ne by done. exact (Hn _ _ _ _ Et).
  - rewrite lookup_insert_eq. intros t q v o Ht. destruct (Hn _ _ _ _ Ht) as (s0 & H0 & Hlt). cbn in *.
    destruct (decide (p = q)) as [<-|]; [exists s'; rewrite lookup_insert_eq; split; [done|]; congruence|].
    exists s0. by rewrite lookup_insert_ne.
Qed.

(** With one waiter a signal's wake-up goes to it. *)
Lemma stranded_signal p h s' ths ths' :
  single_waiter (mk_csys h ths) -> csem_signal_one p ths ths' ->
  none_stranded (mk_csys h ths) -> none_stranded (mk_csys (<[p := s']> h) ths').
Proof.
  intros H1 Hsig Hn t q v o Ht. cbn in *. assert (q <> p /\ ths !! t = Some (Csem_wait false q v o)) as [Hq Ht'].
  { destruct Hsig as [ths t1 v1 o1 E1|ths Hno]; [|split; [intros ->; by destruct (Hno _ _ _ Ht)|done]].
    apply lookup_insert_Some in Ht as [[_ [=]]|[Hne Ht]]. split; [|done]. intros ->.
    by destruct Hne; eapply (H1 p). }
  destruct (Hn _ _ _ _ Ht') as (s0 & H0 & Hlt). exists s0. by rewrite lookup_insert_ne.
Qed.

(** Every step keeps the threads that sleep below their values. *)
Lemma step_stranded s e s' : csem_step s e s' -> single_waiter s -> none_stranded s -> none_stranded s'.
Proof.
  intros Hstep H1 Hn. destruct Hstep as [res v h h' ths e r Hc|p h h' ths Hd|p x h h' ths ths' Hs Hsig
    |p v o t st h h' ths _ Hw|w p v o t st h h' ths Ht Hw|w p v o t e h ths Ht Ho He].
  - apply create_inv in Hc. destruct r as [p|]; [|by rewrite Hc]. destruct Hc as (Hp & sm & _ & ->).
    intros t q v' o Ht. destruct (Hn _ _ _ _ Ht) as (s0 & H0 & Hlt). exists s0. cbn in *. rewrite lookup_insert_ne by congruence. auto.
  - apply destroy_inv in Hd as (s & Hs & [->|(s' & Hv & ->)]);
      [exact (stranded_destroy _ _ _ s s _ Hs Hn (or_introl eq_refl))|].
    exact (stranded_destroy _ _ _ s s' _ Hs Hn (or_intror (conj Hv eq_refl))).
  - apply signal_inv in Hs as (s & s' & _ & _ & ->). exact (stranded_signal _ _ _ _ _ H1 Hsig Hn).
  - apply wait_inv in Hw as [-> Hw]. apply stranded_insert; [done|]. intros p' v' o' ->.
    destruct Hw as [(e & [=] & _)|(s & Hs & [[Hlt [= -> -> ->]]|[_ [=]]])]. eauto.
  - apply test_inv in Hw as (-> & s & Hs & Hw). apply stranded_insert; [done|]. intros p' v' o' ->.
    destruct Hw as [[Hlt [= -> -> ->]]|[_ [=]]]. eauto.
  - by apply stranded_insert.
Qed.

(** Every step moves the values along the timelines. *)
Lemma step_values evs s e s' :
  csem_step s e s' -> values_follow evs (cy_heap s) -> values_follow (evs ++ [e]) (cy_heap s').
Proof.
  intros Hstep Hv q. rewrite timeline_app. pose proof (Hv q) as Hq. destruct Hstep as [res v h h' ths e r Hc|p h h' ths Hd
    |p x h h' ths ths' Hs Hsig|p v o t st h h' ths _ Hw|w p v o t st h h' ths Ht Hw|w p v o t e h ths Ht Ho He]; cbn in *.
  - apply create_inv in Hc. destruct r as [p|]; [|by rewrite Hc]. destruct Hc as (Hp & sm & <- & ->). cbn.
    destruct (decide (q = p)) as [->|]; [by rewrite lookup_insert_eq|by rewrite lookup_insert_ne].
  - apply destroy_inv in Hd as (s & Hs & [->|(s' & Hv' & ->)]).
    + rewrite lookup_delete_eq. cbn. destruct (decide (q = p)) as [->|]; [by rewrite lookup_delete_eq|by rewrite lookup_delete_ne].
    + rewrite lookup_insert_eq. cbn. destruct (decide (q = p)) as [->|]; [|by rewrite lookup_insert_ne].
      rewrite lookup_insert_eq. rewrite <- Hq, Hs. cbn. by rewrite Hv'.
  - apply signal_inv in Hs as (s & s' & Hs & Hv' & ->). destruct (decide (q = p)) as [->|]; [|by rewrite lookup_insert_ne].
    rewrite lookup_insert_eq, <- Hq, Hs. cbn. by rewrite Hv'.
  - apply wait_inv in Hw as [-> _]. by destruct st as [|[]].
  - apply test_inv in Hw as [-> _]. by destruct st as [|[]].
  - done.
Qed.

(** A step that ends a wait finds the value reached. *)
Lemma step_reached s p value s' :
  csem_step s (CReached p value) s' -> exists sm, cy_heap s !! p = Some sm /\ value <= sm_value sm.
Proof.
  remember (CReached p value) as e eqn:E. destruct 1 as [res v h h' ths e r Hc|q h h' ths Hd|q x h h' ths ths' Hs Hsig
    |q v o t st h h' ths _ Hw|w q v o t st h h' ths Ht Hw|w q v o t e h ths Ht Ho He]; try done.
  - by destruct r.
  - by destruct (h' !! q).
  - apply wait_inv in Hw as [-> [(e & -> & He)|(s & Hs & [[_ ->]|[Hle ->]])]]; [by destruct e|done|].
    injection E as <- <-. eauto.
  - apply test_inv in Hw as (-> & s & Hs & [[_ ->]|[Hle ->]]); [done|]. injection E as <- <-. eauto.
Qed.

Lemma reached_app evs e :
  waits_reached evs -> (forall p value, e = CReached p value -> exists v, timeline p evs = Some v /\ value <= v) ->
  waits_reached (evs ++ [e]).
Proof.
  intros Hr He evs1 evs2 p value E. destruct evs2 as [|e2 evs2 _] using rev_ind.
  - apply app_inj_tail in E as [-> ->]. eauto.
  - rewrite app_comm_cons, app_assoc in E. apply app_inj_tail in E as [-> _]. exact (Hr _ _ _ _ eq_refl).
Qed.

(** C30. In every run of threads that create, destroy, signal and wait on
    timeline semaphores, each live semaphore holds the value it was created
    with plus everything signalled to it since (modulo 2^64), and a wait
    returns success only at a time when that value has reached its threshold.
    In a run in which no semaphore ever has two waiters, no wake-up is lost: a
    thread that sleeps with no wake-up under way waits for a value that its
    semaphore has not reached. *)
Theorem timeline_semaphores P evs s (Hrun : csem_run P evs s) :
  values_follow evs (cy_heap s) /\ waits_reached evs /\
  ((forall s, P s -> single_waiter s) -> none_stranded s).
Proof.
  induction Hrun as [|evs s e s' Hrun (Hv & Hr & Hn) Hstep HP].
  - split_and!; [by intros p|by intros [|] ? ? ?|by intros _ t p v o].
  - split_and!; [exact (step_values _ _ _ _ Hstep Hv)| |].
    + apply reached_app; [done|]. intros p value ->. apply step_reached in Hstep as (sm & Hp & Hle).
      exists (sm_value sm). by rewrite <- Hv, Hp.
    + intros H1. refine (step_stranded _ _ _ Hstep _ (Hn H1)).
      destruct Hrun as [|evs' s0 e' s Hrun' Hstep' HP']; [by intros ? ? ? ? ? ? ? ? ?|auto].
Qed.

(** A semaphore created at 1; thread 7 waits for 3, is woken by a signal of 2
    and finds its value reached. *)
Module TimelineExample.

Definition resources : sync_resources := mk_res true true true.
Definition at_value (v : Z) : csem_heap := {[ 1%positive := mk_csem v 1 false (-1) ]}.
Definition waiting (woken : bool) : gmap nat csem_thread := {[ 7%nat := Csem_wait woken 1%positive 3 U64_MAX ]}.

Definition events : list csem_event :=
  [CCreated 1%positive 1; CSilent; CSignalled 1%positive 2; CReached 1%positive 3].
Definition final : csem_sys := mk_csys (at_value 3) {[ 7%nat := Csem_returned MVGAL_SUCCESS ]}.

Lemma single_thread h t st : single_waiter (mk_csys h {[ t := st ]}).
Proof. intros p t1 t2 w1 w2 v1 v2 o1 o2. cbn. rewrite !lookup_singleton_Some. by intros [-> _] [-> _]. Qed.

Lemma a_run : csem_run single_waiter events final.
Proof.
  assert (csem_run single_waiter [CCreated 1%positive 1] (mk_csys (at_value 1) ∅)) as H1.
  { apply (crun_step _ [] _ _ _ (crun_nil _)); [|by intros ? ? ? ? ? ? ? ? ?].
    exact (cstep_create resources 1 ∅ (at_value 1) ∅ MVGAL_SUCCESS (Some 1%positive) eq_refl). }
  assert (csem_run single_waiter [CCreated 1%positive 1; CSilent] (mk_csys (at_value 1) (waiting false))) as H2.
  { refine (crun_step _ [_] _ _ _ H1 _ (single_thread _ _ _)).
    by apply (cstep_wait 1%positive 3 U64_MAX 7%nat (Csem_wait false 1%positive 3 U64_MAX)). }
  assert (csem_run single_waiter [CCreated 1%positive 1; CSilent; CSignalled 1%positive 2]
    (mk_csys (at_value 3) (waiting true))) as H3.
  { refine (crun_step _ [_; _] _ _ _ H2 _ (single_thread _ _ _)).
    apply (cstep_signal 1%positive 2 (at_value 1)); [reflexivity|]. by apply (csem_wakes _ (waiting false) 7%nat). }
  refine (crun_step _ [_; _; _] _ _ _ H3 _ (single_thread _ _ _)).
  by apply (cstep_resume true 1%positive 3 U64_MAX 7%nat (Csem_returned MVGAL_SUCCESS)).
Qed.

Lemma timeline_semaphores_witness :
  csem_run single_waiter events final /\ timeline 1%positive events = Some 3 /\
  values_follow events (at_value 3) /\ waits_reached events /\ none_stranded final.
Proof.
  destruct (timeline_semaphores single_waiter events final a_run) as (Hv & Hr & Hn).
  split; [exact a_run|]. split; [reflexivity|]. split; [exact Hv|]. split; [exact Hr|]. exact (Hn (fun s H => H)).
Defined.

(** With two waiters the one wake-up of a signal leaves the second asleep
    although its value is reached. *)
Definition two_waiting (w : bool) : gmap nat csem_thread := <[ 8%nat := Csem_wait false 1%positive 2 U64_MAX ]> (waiting w).

Lemma second_waiter_sleeps :
  csem_step (mk_csys (at_value 1) (two_waiting false)) (CSignalled 1%positive 2) (mk_csys (at_value 3) (two_waiting true)) /\
  ~ none_stranded (mk_csys (at_value 3) (two_waiting true)).
Proof.
  split.
  - apply cstep_signal; [reflexivity|]. apply (csem_wakes _ (two_waiting false) 7%nat). reflexivity.
  - intros Hn. destruct (Hn 8%nat 1%positive 2 U64_MAX eq_refl) as (sm & [= <-] & Hlt). by vm_compute in Hlt.
Qed.

End TimelineExample.
