(* ===== verification/RtMetrics.v ===== *)
(** * The metrics collector of the runtime daemon

    runtime/daemon/metrics_collector.hpp and metrics_collector.cpp: readings of
    the GPUs, samples, telemetry subscriptions and the ring of feature vectors
    kept for the model of the scheduler.  A reading that was never written is
    [None]: the collector fills a local variable without an initializer. *)

From Corelib Require Import SpecFloat.
From S2P Require Import Prelude Float32 CString ConfigText RtDevices RtScheduler RtMemory RtPower.
From stdpp Require Import strings.
From Stdlib Require Import Ascii.
Local Open Scope string_scope.
Local Open Scope Z_scope.

(** ** Data (metrics_collector.hpp) *)

Inductive MetricType : Type :=
| GPU_UTILIZATION | MEMORY_UTILIZATION | MEMORY_BANDWIDTH | SUBMIT_LATENCY | EXECUTION_TIME | WAIT_TIME
| TEMPERATURE | POWER_DRAW | CLOCK_SPEED | QUEUE_DEPTH | FENCE_LATENCY.

Record MetricSample : Type := mk_sample {
  sa_type : MetricType;
  sa_gpuIndex : Z;
  sa_timestampNs : Z;
  sa_value : Z;
  sa_min : Z;
  sa_max : Z;
  sa_average : Z
}.

Record GpuMetrics : Type := mk_metrics {
  me_gpuUtilization : option Z;
  me_memoryUtilization : option Z;
  me_memoryBandwidthRead : option Z;
  me_memoryBandwidthWrite : option Z;
  me_temperature : option Z;
  me_powerDraw : option Z;
  me_clockSpeed : option Z;
  me_queueDepth : option Z;
  me_totalSubmitLatencyUs : option Z;
  me_totalExecutionTimeUs : option Z;
  me_totalWaitTimeUs : option Z;
  me_totalWorkloads : option Z;
  me_minSubmitLatencyUs : option Z;
  me_maxSubmitLatencyUs : option Z;
  me_lastUpdate : option Z
}.

Record TelemetrySubscription : Type := mk_sub {
  ts_clientId : Z;
  ts_metricTypes : list MetricType;
  ts_updateIntervalMs : Z;
  ts_lastSent : Z
}.
#[export] Instance sub_eta : Eta TelemetrySubscription := fun r =>
  mk_sub (ts_clientId r) (ts_metricTypes r) (ts_updateIntervalMs r) (ts_lastSent r).

Record FeatureVector : Type := mk_features {
  fv_gpuUtilization : f32;
  fv_memoryUtilization : f32;
  fv_temperature : f32;
  fv_queueDepth : f32;
  fv_powerDraw : f32;
  fv_clockSpeed : f32;
  fv_memoryBandwidth : f32;
  fv_submitLatency : f32
}.

Definition FEATURE_HISTORY_SIZE : nat := 64.

Record MetricsCollector : Type := mk_collector {
  mc_locked : bool;
  mc_collectionIntervalMs : Z;
  mc_gpuMetrics : list GpuMetrics;
  mc_samplesByGpu : list (list MetricSample);
  mc_nextSubscriptionId : Z;
  mc_subscriptions : list TelemetrySubscription;
  mc_totalWorkloads : list Z;
  mc_totalExecutionTimeUs : list Z;
  mc_featureHistory : list (list FeatureVector);
  mc_featureHistoryIndex : list Z;
  mc_lastCollection : Z;
  mc_ticks : nat
}.
#[export] Instance collector_eta : Eta MetricsCollector := fun r =>
  mk_collector (mc_locked r) (mc_collectionIntervalMs r) (mc_gpuMetrics r) (mc_samplesByGpu r) (mc_nextSubscriptionId r)
    (mc_subscriptions r) (mc_totalWorkloads r) (mc_totalExecutionTimeUs r) (mc_featureHistory r)
    (mc_featureHistoryIndex r) (mc_lastCollection r) (mc_ticks r).

Abbreviation CM := (M MetricsCollector).

(** The constructor; [m_lastCollection] is left for [init]. *)
Definition MetricsCollector_new : MetricsCollector := mk_collector false 1000 [] [] 1 [] [] [] [] [] 0 0.

Section Collector.
Context `{RtEnv}.

Definition mc_now : CM Z := fun s => Ret (rt_clock (mc_ticks s), s <| mc_ticks ::= S |>).

(** [std::lock_guard] around a block. *)
Definition mc_guarded {A : Type} (m : CM A) : CM A :=
  s ← get;
  if mc_locked s then fails SelfDeadlock else
  put (s <| mc_locked := true |>);;
  a ← m;
  modify (fun s => s <| mc_locked := false |>);; mret a.

(** [std::vector::resize]: new elements are [x]. *)
Definition resized {A : Type} (n : nat) (x : A) (l : list A) : list A := take n l ++ replicate (n - length l) x.

Definition zero_features : FeatureVector := mk_features f0 f0 f0 f0 f0 f0 f0 f0.

Definition first_metrics (now : Z) : GpuMetrics :=
  mk_metrics (Some 0) (Some 0) (Some 0) (Some 0) (Some 0) (Some 0) (Some 0) (Some 0) (Some 0) (Some 0) (Some 0) (Some 0)
    (Some U64_MAX) (Some 0) (Some now).

Definition metrics_init (reg : DeviceRegistry) : CM bool :=
  let gpuCount := Z.to_nat (gpuCount reg) in
  now ← mc_now;
  modify (fun s => s <| mc_samplesByGpu ::= resized gpuCount [] |>
    <| mc_totalWorkloads ::= resized gpuCount 0 |> <| mc_totalExecutionTimeUs ::= resized gpuCount 0 |>
    <| mc_featureHistory ::= resized gpuCount (replicate FEATURE_HISTORY_SIZE zero_features) |>
    <| mc_featureHistoryIndex ::= resized gpuCount 0 |>
    <| mc_gpuMetrics := replicate gpuCount (first_metrics now) |> <| mc_lastCollection := now |>);;
  mret true.

Definition metrics_fini : CM unit :=
  mc_guarded (modify (fun s => s <| mc_gpuMetrics := [] |> <| mc_samplesByGpu := [] |> <| mc_subscriptions := [] |>)).

(** ** Readings: [None] when the variable is not written *)

Definition readGpuUtilization (reg : DeviceRegistry) (gpuIndex : Z) : option Z :=
  (fun gpu => sta_utilization (dv_state gpu)) <$> getGpu gpuIndex reg.
Definition readMemoryUtilization (reg : DeviceRegistry) (gpuIndex : Z) : option Z :=
  (fun _ => 50) <$> getGpu gpuIndex reg.
Definition readMemoryBandwidth (gpuIndex : Z) : option Z * option Z := (Some 1073741824, Some 1073741824).
Definition readTemperature (reg : DeviceRegistry) (gpuIndex : Z) : option Z :=
  (fun gpu => sta_temperature (dv_state gpu)) <$> getGpu gpuIndex reg.
Definition readClockSpeed (reg : DeviceRegistry) (gpuIndex : Z) : option Z :=
  (fun gpu => cap_currentClockMhz (dv_capabilities gpu)) <$> getGpu gpuIndex reg.
Definition readQueueDepth (gpuIndex : Z) : option Z := Some 0.

(** The product of watts is one of [int]. *)
Definition readPowerDraw (reg : DeviceRegistry) (gpuIndex : Z) : CM (option Z) :=
  match getGpu gpuIndex reg with
  | None => mret None
  | Some gpu =>
      let mw := sta_powerDrawWatts (dv_state gpu) * 1000 in
      if (-2147483648 <=? mw) && (mw <=? 2147483647) then mret (Some (u32 mw)) else fails SignedOverflow
  end.

(** ** Features *)

(** The features of metrics; [None] when a member that was not written is
    read. *)
Definition features_of (m : GpuMetrics) : option FeatureVector :=
  gpuUtilization ← me_gpuUtilization m;
  memoryUtilization ← me_memoryUtilization m;
  temperature ← me_temperature m;
  queueDepth ← me_queueDepth m;
  powerDraw ← me_powerDraw m;
  clockSpeed ← me_clockSpeed m;
  bandwidthRead ← me_memoryBandwidthRead m;
  bandwidthWrite ← me_memoryBandwidthWrite m;
  totalWorkloads ← me_totalWorkloads m;
  submitLatency ←
    (if 0 <? totalWorkloads
     then (fun latency => fdiv (f32_of_Z latency) (f32_of_Z totalWorkloads)) <$> me_totalSubmitLatencyUs m
     else Some f0);
  Some (mk_features (f32_of_Z gpuUtilization) (f32_of_Z memoryUtilization) (fdiv (f32_of_Z temperature) (f32_of_Z 100))
    (fdiv (f32_of_Z queueDepth) (f32_of_Z 256)) (fdiv (f32_of_Z powerDraw) (f32_of_Z 500000))
    (fdiv (f32_of_Z clockSpeed) (f32_of_Z 3000))
    (fdiv (f32_of_Z (u64 (bandwidthRead + bandwidthWrite))) (f32_of_Z 1000000000)) submitLatency).

Definition extractFeatures (gpuIndex : Z) : CM FeatureVector :=
  s ← get;
  match mc_gpuMetrics s !! Z.to_nat gpuIndex with
  | None => mret zero_features
  | Some m => of_option Uninitialised (features_of m)
  end.

Definition recordFeatureSnapshot (gpuIndex : Z) : CM unit :=
  s ← get;
  if Z.of_nat (length (mc_featureHistory s)) <=? gpuIndex then mret tt else
  fv ← extractFeatures gpuIndex;
  idx ← vec_get (mc_featureHistoryIndex s) gpuIndex;
  modify (fun s =>
    s <| mc_featureHistory ::= alter <[Z.to_nat (idx mod 64) := fv]> (Z.to_nat gpuIndex) |>
      <| mc_featureHistoryIndex ::= <[Z.to_nat gpuIndex := u64 (idx + 1)]> |>).

(** The ring and the number of its entries; [None] for a null pointer. *)
Definition getFeatureHistory (gpuIndex : Z) : CM (option (list FeatureVector) * Z) :=
  s ← get;
  match mc_featureHistory s !! Z.to_nat gpuIndex with
  | None => mret (None, 0)
  | Some ring => idx ← vec_get (mc_featureHistoryIndex s) gpuIndex; mret (Some ring, Z.min idx 64)
  end.

(** ** Collection *)

Definition collectGpuMetrics (reg : DeviceRegistry) (gpuIndex : Z) : CM unit :=
  mc_guarded (
    s ← get;
    if Z.of_nat (length (mc_gpuMetrics s)) <=? gpuIndex then mret tt else
    now ← mc_now;
    powerDraw ← readPowerDraw reg gpuIndex;
    totalWorkloads ← vec_get (mc_totalWorkloads s) gpuIndex;
    totalExecutionTimeUs ← vec_get (mc_totalExecutionTimeUs s) gpuIndex;
    let '(bandwidthRead, bandwidthWrite) := readMemoryBandwidth gpuIndex in
    let metrics :=
      mk_metrics (readGpuUtilization reg gpuIndex) (readMemoryUtilization reg gpuIndex) bandwidthRead bandwidthWrite
        (readTemperature reg gpuIndex) powerDraw (readClockSpeed reg gpuIndex) (readQueueDepth gpuIndex)
        None (Some totalExecutionTimeUs) None (Some totalWorkloads) None None (Some now) in
    modify (fun s => s <| mc_gpuMetrics ::= <[Z.to_nat gpuIndex := metrics]> |>);;
    recordFeatureSnapshot gpuIndex).

Definition collectAllMetrics (reg : DeviceRegistry) : CM unit :=
  s ← get;
  each (seq 0 (length (mc_gpuMetrics s))) (fun i => collectGpuMetrics reg (Z.of_nat i)).

Definition updated (now : Z) (sub : TelemetrySubscription) : TelemetrySubscription :=
  if ts_updateIntervalMs sub <=? millis (now - ts_lastSent sub) then sub <| ts_lastSent := now |> else sub.

Definition checkTelemetryUpdates : CM unit :=
  now ← mc_now;
  modify (fun s => s <| mc_subscriptions ::= map (updated now) |>).

Definition metrics_events (reg : DeviceRegistry) : CM unit :=
  mc_guarded (
    now ← mc_now;
    s ← get;
    (if mc_collectionIntervalMs s <=? millis (now - mc_lastCollection s)
     then collectAllMetrics reg;; modify (fun s => s <| mc_lastCollection := now |>) else mret tt);;
    checkTelemetryUpdates).

(** ** Queries *)

Definition empty_metrics : GpuMetrics :=
  mk_metrics (Some 0) (Some 0) (Some 0) (Some 0) (Some 0) (Some 0) (Some 0) (Some 0) (Some 0) (Some 0) (Some 0) (Some 0)
    (Some 0) (Some 0) (Some 0).

Definition getGpuMetrics (gpuIndex : Z) : CM GpuMetrics :=
  mc_guarded (reads (fun s => default empty_metrics (mc_gpuMetrics s !! Z.to_nat gpuIndex))).

(** The sums over the GPUs, [None] when a member that was not written is
    read. *)
Fixpoint sum_metrics (l : list GpuMetrics) (sumUtil sumBandwidth : Z) : option (Z * Z) :=
  match l with
  | [] => Some (sumUtil, sumBandwidth)
  | m :: rest =>
      utilization ← me_gpuUtilization m;
      bandwidthRead ← me_memoryBandwidthRead m;
      bandwidthWrite ← me_memoryBandwidthWrite m;
      sum_metrics rest (u64 (sumUtil + utilization)) (u64 (sumBandwidth + u64 (bandwidthRead + bandwidthWrite)))
  end.

Definition getAggregateMetrics : CM (Z * Z) :=
  mc_guarded (
    s ← get;
    '(sumUtil, sumBandwidth) ← of_option Uninitialised (sum_metrics (mc_gpuMetrics s) 0 0);
    if bool_decide (mc_gpuMetrics s = []) then fails DivByZero else
    mret (sumUtil / Z.of_nat (length (mc_gpuMetrics s)), sumBandwidth)).

Definition push_sample (sample : MetricSample) (l : list MetricSample) : list MetricSample :=
  let l := (l ++ [sample])%list in if 1000 <? Z.of_nat (length l) then tail l else l.

Definition sampleMetric (type : MetricType) (gpuIndex value : Z) : CM unit :=
  mc_guarded (
    s ← get;
    if Z.of_nat (length (mc_samplesByGpu s)) <=? gpuIndex then mret tt else
    now ← mc_now;
    let sample := mk_sample type gpuIndex (u64 now) value value value value in
    modify (fun s => s <| mc_samplesByGpu ::= alter (push_sample sample) (Z.to_nat gpuIndex) |>)).

Definition subscribeTelemetry (clientId : Z) (metricTypes : list MetricType) (updateIntervalMs : Z) : CM Z :=
  mc_guarded (
    id ← reads mc_nextSubscriptionId;
    modify (fun s => s <| mc_nextSubscriptionId ::= fun n => u32 (n + 1) |>);;
    now ← mc_now;
    modify (fun s => s <| mc_subscriptions ::= fun l => (l ++ [mk_sub clientId metricTypes updateIntervalMs now])%list |>);;
    mret id).

(** The loop over the subscriptions has no body. *)
Definition unsubscribeTelemetry (subscriptionId : Z) : CM unit := mc_guarded (mret tt).

Definition setCollectionInterval (intervalMs : Z) : CM unit :=
  mc_guarded (modify (fun s => s <| mc_collectionIntervalMs := intervalMs |>)).

(** ** JSON *)

Definition quoted (s : string) : string := String (ascii_of_nat 34) (s +:+ String (ascii_of_nat 34) "").
Definition newline : string := String (ascii_of_nat 10) "".
Definition print_s (n : Z) : string := if n <? 0 then "-" +:+ print_u (- n) else print_u n.

(** A member of an object of the list. *)
Definition json_line (name value last : string) : string := "      " +:+ quoted name +:+ ": " +:+ value +:+ last +:+ newline.

Definition json_gpu (count i : nat) (m : GpuMetrics) : option string :=
  gpuUtilization ← me_gpuUtilization m;
  memoryUtilization ← me_memoryUtilization m;
  temperature ← me_temperature m;
  clockSpeed ← me_clockSpeed m;
  powerDraw ← me_powerDraw m;
  Some ("    {" +:+ newline +:+ json_line "index" (print_u (Z.of_nat i)) ","
    +:+ json_line "gpu_utilization" (print_u gpuUtilization) "," +:+ json_line "memory_utilization" (print_u memoryUtilization) ","
    +:+ json_line "temperature" (print_s temperature) "," +:+ json_line "clock_speed" (print_u clockSpeed) ","
    +:+ json_line "power_draw" (print_u powerDraw) "" +:+ "    }"
    +:+ (if (i <? count - 1)%nat then "," else "") +:+ newline).

Fixpoint json_gpus (count i : nat) (l : list GpuMetrics) : option string :=
  match l with
  | [] => Some ""
  | m :: rest => text ← json_gpu count i m; others ← json_gpus count (S i) rest; Some (text +:+ others)
  end.

(** The method takes no lock. *)
Definition getMetricsJson : CM string :=
  s ← get;
  gpus ← of_option Uninitialised (json_gpus (length (mc_gpuMetrics s)) 0 (mc_gpuMetrics s));
  mret ("{" +:+ newline +:+ "  " +:+ quoted "gpu_count" +:+ ": " +:+ print_u (Z.of_nat (length (mc_gpuMetrics s))) +:+ "," +:+ newline
    +:+ "  " +:+ quoted "timestamp" +:+ ": " +:+ print_s (mc_lastCollection s) +:+ "," +:+ newline
    +:+ "  " +:+ quoted "gpus" +:+ ": [" +:+ newline +:+ gpus +:+ "  ]" +:+ newline +:+ "}" +:+ newline).

(** ** Calls of clients *)

Inductive metric_call : Type :=
| Collect (reg : DeviceRegistry) (gpuIndex : Z)
| Sample (type : MetricType) (gpuIndex value : Z)
| Subscribe (clientId : Z) (metricTypes : list MetricType) (updateIntervalMs : Z)
| Unsubscribe (subscriptionId : Z)
| SetInterval (intervalMs : Z)
| GetMetrics (gpuIndex : Z).

Definition metric_perform (c : metric_call) : CM unit :=
  match c with
  | Collect reg i => collectGpuMetrics reg i
  | Sample type i v => sampleMetric type i v
  | Subscribe c types ms => subscribeTelemetry c types ms;; mret tt
  | Unsubscribe id => unsubscribeTelemetry id
  | SetInterval ms => setCollectionInterval ms
  | GetMetrics i => getGpuMetrics i;; mret tt
  end.

Fixpoint metric_calls (cs : list metric_call) : CM unit :=
  match cs with [] => mret tt | c :: rest => metric_perform c;; metric_calls rest end.

End Collector.
