(* ===== verification/MetricsHistory.v ===== *)
(** * The history of the metrics collector

    The rings and sample vectors of runtime/daemon/metrics_collector.cpp
    against logs that forget nothing: after any calls a ring read from its
    oldest entry is the end of the log of features, and a sample vector the end
    of the log of samples. *)

From Corelib Require Import SpecFloat.
From S2P Require Import Prelude Float32 RtDevices RtScheduler RtMemory RtPower RtOwnership RtMetrics.
From stdpp Require Import strings.
Local Open Scope Z_scope.

(** ** The ends of lists *)

Definition last_n {A : Type} (k : nat) (l : list A) : list A := drop (length l - k) l.

Lemma lookups_seq {A : Type} (l : list A) a n : omap (fun j => l !! j) (seq a n) = take n (drop a l).
Proof.
  revert a. induction n as [|n IH]; intros a; [done|]. cbn [seq omap list_omap]. rewrite IH.
  destruct (l !! a) as [x|] eqn:E.
  - by rewrite (drop_S _ _ _ E).
  - apply lookup_ge_None in E. rewrite !drop_ge by lia. by rewrite !take_nil.
Qed.

Lemma omap_ext_in {A B : Type} (f g : A -> option B) (l : list A) : (forall x, x ∈ l -> f x = g x) -> omap f l = omap g l.
Proof.
  induction l as [|x l IH]; intros Hf; [done|]. cbn. rewrite Hf by apply list_elem_of_here.
  rewrite IH; [done|]. intros y Hy. apply Hf. by apply list_elem_of_further.
Qed.

Lemma omap_fmap {A B C : Type} (f : B -> option C) (g : A -> B) (l : list A) : omap f (g <$> l) = omap (fun x => f (g x)) l.
Proof. induction l as [|x l IH]; csimpl; [done|]. by rewrite IH. Qed.

Lemma last_n_snoc {A : Type} k (l : list A) x :
  last_n k (l ++ [x]) =
  if decide (k < length (last_n k l ++ [x]))%nat then tail (last_n k l ++ [x]) else last_n k l ++ [x].
Proof.
  unfold last_n. rewrite !length_app, length_drop. cbn [length]. case_decide as Hk.
  - replace (length l + 1 - k)%nat with (S (length l - k)) by lia.
    destruct (decide (k = 0%nat)) as [->|]; [by rewrite !drop_ge by (rewrite ?length_app; cbn; lia)|].
    destruct (lookup_lt_is_Some_2 l (length l - k)) as [y Hy]; [lia|].
    rewrite (drop_S _ _ _ Hy), drop_app_le by lia. done.
  - replace (length l + 1 - k)%nat with 0%nat by lia. by replace (length l - k)%nat with 0%nat by lia.
Qed.

(** ** Rings *)

(** A ring into which [total] entries have been written, from the oldest one
    it still has. *)
Definition chronological {A : Type} (ring : list A) (total : nat) : list A :=
  omap (fun j => ring !! (j mod 64)%nat) (seq (total - 64) (total `min` 64)).

Definition ring_holds {A : Type} (ring log : list A) : Prop :=
  length ring = 64%nat /\
  forall j, (length log - 64 <= j < length log)%nat -> ring !! (j mod 64)%nat = log !! j.

Lemma ring_chronological {A : Type} (ring log : list A) :
  ring_holds ring log -> chronological ring (length log) = last_n 64 log.
Proof.
  intros [_ Hr]. unfold chronological, last_n. rewrite (omap_ext_in _ (fun j => log !! j)), lookups_seq.
  - apply take_ge. rewrite length_drop. lia.
  - intros j [Hj1 Hj2]%elem_of_seq. apply Hr. lia.
Qed.

Lemma ring_push {A : Type} (ring log : list A) x :
  ring_holds ring log -> ring_holds (<[(length log mod 64)%nat := x]> ring) (log ++ [x]).
Proof.
  intros [Hl Hr]. split; [by rewrite length_insert|]. rewrite length_app. cbn [length]. intros j Hj.
  pose proof (Nat.mod_upper_bound (length log) 64). destruct (decide (j = length log)) as [->|Hne].
  - rewrite list_lookup_insert_eq by lia. by rewrite lookup_app_r, Nat.sub_diag.
  - assert ((length log mod 64)%nat <> (j mod 64)%nat).
    { pose proof (Nat.div_mod_eq j 64). pose proof (Nat.div_mod_eq (length log) 64). lia. }
    rewrite list_lookup_insert_ne by done. rewrite Hr by lia. by rewrite lookup_app_l by lia.
Qed.

(** The used slots of a ring are what it holds, in some order. *)
Lemma seq_mod_perm a : (fun j => j mod 64)%nat <$> seq a 64 ≡ₚ seq 0 64.
Proof.
  apply submseteq_length_Permutation; [|by rewrite length_fmap, !length_seq]. apply NoDup_submseteq.
  - apply NoDup_fmap_2_strong; [|apply NoDup_seq]. intros x y [Hx1 Hx2]%elem_of_seq [Hy1 Hy2]%elem_of_seq E.
    pose proof (Nat.div_mod_eq x 64). pose proof (Nat.div_mod_eq y 64). lia.
  - intros x (j & -> & _)%list_elem_of_fmap. apply elem_of_seq. pose proof (Nat.mod_upper_bound j 64). lia.
Qed.

Lemma positions_perm total :
  (fun j => j mod 64)%nat <$> seq (total - 64) (total `min` 64) ≡ₚ seq 0 (total `min` 64).
Proof.
  destruct (decide (64 <= total)%nat); [replace (total `min` 64)%nat with 64%nat by lia; apply seq_mod_perm|].
  replace (total - 64)%nat with 0%nat by lia. assert (Heq : (fun j => j mod 64)%nat <$> seq 0 (total `min` 64) = seq 0 (total `min` 64)).
  { rewrite <- (list_fmap_id (seq 0 _)) at 2. apply list_fmap_ext. intros k x [-> Hk]%lookup_seq. apply Nat.mod_small. cbn. lia. }
  by rewrite Heq.
Qed.

Lemma ring_slots {A : Type} (ring log : list A) :
  ring_holds ring log -> take (length log `min` 64) ring ≡ₚ last_n 64 log.
Proof.
  intros Hr. rewrite <- (ring_chronological ring log Hr). unfold chronological.
  rewrite <- (drop_0 ring) at 1. rewrite <- lookups_seq, <- (positions_perm (length log)).
  by rewrite omap_fmap.
Qed.

(** ** Logs *)

(** The features of a GPU as a collection finds it. *)
Definition snapshot (gpu : GpuDevice) : FeatureVector :=
  mk_features (f32_of_Z (sta_utilization (dv_state gpu))) (f32_of_Z 50)
    (fdiv (f32_of_Z (sta_temperature (dv_state gpu))) (f32_of_Z 100)) (fdiv (f32_of_Z 0) (f32_of_Z 256))
    (fdiv (f32_of_Z (u32 (sta_powerDrawWatts (dv_state gpu) * 1000))) (f32_of_Z 500000))
    (fdiv (f32_of_Z (cap_currentClockMhz (dv_capabilities gpu))) (f32_of_Z 3000))
    (fdiv (f32_of_Z 2147483648) (f32_of_Z 1000000000)) f0.

(** What the calls add to the logs of GPU [i]. *)
Definition snapshots_of (i : nat) (c : metric_call) : list FeatureVector :=
  match c with
  | Collect reg j => if decide (j = Z.of_nat i) then option_list (snapshot <$> getGpu j reg) else []
  | _ => []
  end.

Definition samples_of (i : nat) (c : metric_call) : list (MetricType * Z) :=
  match c with Sample type j v => if decide (j = Z.of_nat i) then [(type, v)] else [] | _ => [] end.

Definition logged {A : Type} (f : metric_call -> list A) (cs : list metric_call) : list A := mjoin (f <$> cs).

(** A registry of [n] GPUs whose power fits an [int] in milliwatts; an index
    of a call is a [uint32_t]. *)
Definition readable (n : nat) (reg : DeviceRegistry) : Prop :=
  length (rg_gpus reg) = n /\
  Forall (fun gpu => -2147483 <= sta_powerDrawWatts (dv_state gpu) <= 2147483) (rg_gpus reg).

Definition call_ok (n : nat) (c : metric_call) : Prop :=
  match c with
  | Collect reg j => readable n reg /\ 0 <= j
  | Sample _ j _ => 0 <= j
  | _ => True
  end.

(** ** The invariant *)

Record metrics_wf (n : nat) (s : MetricsCollector) : Prop := {
  mw_unlocked : mc_locked s = false;
  mw_metrics : length (mc_gpuMetrics s) = n;
  mw_samples : length (mc_samplesByGpu s) = n;
  mw_workloads : mc_totalWorkloads s = replicate n 0;
  mw_times : length (mc_totalExecutionTimeUs s) = n;
  mw_rings : length (mc_featureHistory s) = n;
  mw_indices : length (mc_featureHistoryIndex s) = n
}.

(** The logs of the GPUs agree with the collector. *)
Definition logs_agree (fs : nat -> list FeatureVector) (ss : nat -> list (MetricType * Z)) (s : MetricsCollector) : Prop :=
  forall i, (i < length (mc_featureHistory s))%nat ->
    (exists ring, mc_featureHistory s !! i = Some ring /\ ring_holds ring (fs i)) /\
    mc_featureHistoryIndex s !! i = Some (u64 (Z.of_nat (length (fs i)))) /\
    exists l, mc_samplesByGpu s !! i = Some l /\ (fun x => (sa_type x, sa_value x)) <$> l = last_n 1000 (ss i).

Section History.
Context `{RtEnv}.

Lemma wp_mc_now (Q : Z -> MetricsCollector -> Prop) s : Q (rt_clock (mc_ticks s)) (s <| mc_ticks ::= S |>) -> wp mc_now Q s.
Proof. done. Qed.

Lemma wp_mc_guarded {A : Type} (m : M MetricsCollector A) (Q : A -> MetricsCollector -> Prop) s :
  mc_locked s = false -> wp m (fun a s' => Q a (s' <| mc_locked := false |>)) (s <| mc_locked := true |>) ->
  wp (mc_guarded m) Q s.
Proof.
  intros Hl Hm. unfold mc_guarded. apply wp_bind, wp_get. rewrite Hl. apply wp_bind. eapply wp_intro; [reflexivity|].
  apply wp_bind. eapply wp_mono; [exact Hm|]. intros a s' HQ. by apply wp_bind, wp_modify, wp_ret.
Qed.

(** What a collection stores for a GPU gives its snapshot. *)
Lemma collected_features gpu mw t now :
  mw = u32 (sta_powerDrawWatts (dv_state gpu) * 1000) ->
  features_of (mk_metrics (Some (sta_utilization (dv_state gpu))) (Some 50) (Some 1073741824) (Some 1073741824)
    (Some (sta_temperature (dv_state gpu))) (Some mw) (Some (cap_currentClockMhz (dv_capabilities gpu)))
    (Some 0) None (Some t) None (Some 0) None None (Some now)) = Some (snapshot gpu).
Proof. by intros ->. Qed.

Lemma wp_readPowerDraw reg j gpu (Q : option Z -> MetricsCollector -> Prop) s :
  getGpu j reg = Some gpu -> -2147483 <= sta_powerDrawWatts (dv_state gpu) <= 2147483 ->
  Q (Some (u32 (sta_powerDrawWatts (dv_state gpu) * 1000))) s -> wp (readPowerDraw reg j) Q s.
Proof.
  intros Hg Hw HQ. unfold readPowerDraw. rewrite Hg.
  rewrite (proj2 (Z.leb_le _ _)), (proj2 (Z.leb_le _ _)) by lia. exact HQ.
Qed.

Lemma readable_gpu n reg j :
  readable n reg -> 0 <= j < Z.of_nat n ->
  exists gpu, getGpu j reg = Some gpu /\ -2147483 <= sta_powerDrawWatts (dv_state gpu) <= 2147483.
Proof.
  intros [Hn Hall] Hj. unfold getGpu. rewrite (proj2 (Z.ltb_lt _ _)) by lia.
  destruct (lookup_lt_is_Some_2 (rg_gpus reg) (Z.to_nat j)) as [gpu Hg]; [lia|]. exists gpu. split; [done|].
  exact (Forall_lookup_1 _ _ _ _ Hall Hg).
Qed.

(** ** Each call *)

(** The parts of a collector that are neither rings nor samples keep their
    shape. *)
Lemma record_snapshot n s i gpu_features idx m :
  metrics_wf n (s <| mc_locked := false |>) -> (i < n)%nat ->
  mc_gpuMetrics s !! i = Some m -> features_of m = Some gpu_features -> mc_featureHistoryIndex s !! i = Some idx ->
  wp (recordFeatureSnapshot (Z.of_nat i)) (fun _ s' =>
    s' = s <| mc_featureHistory ::= alter <[Z.to_nat (idx mod 64) := gpu_features]> i |>
           <| mc_featureHistoryIndex ::= <[i := u64 (idx + 1)]> |>) s.
Proof.
  intros Hwf Hi Hm Hf Hidx. unfold recordFeatureSnapshot. apply wp_bind, wp_get.
  pose proof (mw_rings _ _ Hwf) as Hr. pose proof (mw_indices _ _ Hwf) as Hx. cbn in Hr, Hx.
  rewrite (proj2 (Z.leb_gt _ _)) by lia. apply wp_bind. unfold extractFeatures. apply wp_bind, wp_get.
  rewrite Nat2Z.id, Hm, Hf. apply wp_ret. apply wp_bind, wp_vec_get; [lia|]. rewrite Nat2Z.id.
  intros x Hx'. rewrite Hx' in Hidx. injection Hidx as ->. by apply wp_modify.
Qed.

Definition collected (reg : DeviceRegistry) (i : nat) (s s' : MetricsCollector) : Prop :=
  exists gpu idx, getGpu (Z.of_nat i) reg = Some gpu /\ mc_featureHistoryIndex s !! i = Some idx /\
    mc_featureHistory s' = alter <[Z.to_nat (idx mod 64) := snapshot gpu]> i (mc_featureHistory s) /\
    mc_featureHistoryIndex s' = <[i := u64 (idx + 1)]> (mc_featureHistoryIndex s) /\
    mc_samplesByGpu s' = mc_samplesByGpu s.

Lemma collect_spec n reg i s :
  metrics_wf n s -> readable n reg -> (i < n)%nat ->
  wp (collectGpuMetrics reg (Z.of_nat i)) (fun _ s' => metrics_wf n s' /\ collected reg i s s') s.
Proof.
  intros Hwf Hreg Hi. pose proof Hwf as [Hl Hm Hs Hw Ht Hr Hx]. unfold collectGpuMetrics.
  destruct (readable_gpu n reg (Z.of_nat i) Hreg) as (gpu & Hg & Hpw); [lia|].
  destruct (lookup_lt_is_Some_2 (mc_featureHistoryIndex s) i) as [idx Hidx]; [lia|].
  apply wp_mc_guarded; [done|]. apply wp_bind, wp_get. cbn [mc_gpuMetrics upd]. rewrite (proj2 (Z.leb_gt _ _)) by (cbn; lia).
  apply wp_bind, wp_mc_now. apply wp_bind. apply (wp_readPowerDraw _ _ gpu); [done|done|].
  apply wp_bind, wp_vec_get; [cbn; rewrite Hw, length_replicate; lia|]. cbn. rewrite Hw, Nat2Z.id. intros x [-> _]%lookup_replicate_1.
  apply wp_bind, wp_vec_get; [cbn; lia|]. intros tt0 _. apply wp_bind, wp_modify.
  eapply wp_mono.
  - eapply (record_snapshot n _ i (snapshot gpu) idx); [|done| | |done].
    + split; cbn; rewrite ?length_insert; try done.
    + cbn. rewrite ?Nat2Z.id. apply list_lookup_insert_eq. lia.
    + unfold readGpuUtilization, readMemoryUtilization, RtMetrics.readTemperature, readClockSpeed. rewrite Hg. by apply collected_features.
  - intros _ s' ->. split; [|by exists gpu, idx]. split; cbn; rewrite ?length_insert, ?length_alter; done.
Qed.

(** A call on a GPU the collector does not have changes no log. *)
Definition same_logs (s s' : MetricsCollector) : Prop :=
  mc_featureHistory s' = mc_featureHistory s /\ mc_featureHistoryIndex s' = mc_featureHistoryIndex s /\
  mc_samplesByGpu s' = mc_samplesByGpu s.

Lemma collect_out_of_range n reg j s :
  metrics_wf n s -> Z.of_nat n <= j ->
  wp (collectGpuMetrics reg j) (fun _ s' => metrics_wf n s' /\ same_logs s s') s.
Proof.
  intros Hwf Hj. pose proof Hwf as [Hl Hm Hs Hw Ht Hr Hx]. apply wp_mc_guarded; [done|]. apply wp_bind, wp_get.
  cbn [mc_gpuMetrics upd]. rewrite (proj2 (Z.leb_le _ _)) by (cbn; lia). apply wp_ret. split; [by split|by split_and!].
Qed.

Lemma sample_spec n type i v s :
  metrics_wf n s -> (i < n)%nat ->
  wp (sampleMetric type (Z.of_nat i) v) (fun _ s' => metrics_wf n s' /\
    mc_featureHistory s' = mc_featureHistory s /\ mc_featureHistoryIndex s' = mc_featureHistoryIndex s /\
    exists ts, mc_samplesByGpu s' = alter (push_sample (mk_sample type (Z.of_nat i) ts v v v v)) i (mc_samplesByGpu s)) s.
Proof.
  intros Hwf Hi. pose proof Hwf as [Hl Hm Hs Hw Ht Hr Hx]. apply wp_mc_guarded; [done|]. apply wp_bind, wp_get.
  cbn [mc_samplesByGpu upd]. rewrite (proj2 (Z.leb_gt _ _)) by (cbn; lia). apply wp_bind, wp_mc_now, wp_modify. cbn.
  rewrite Nat2Z.id. split; [split; cbn; rewrite ?length_alter; done|]. split_and!; eauto.
Qed.

Lemma sample_out_of_range n type j v s :
  metrics_wf n s -> Z.of_nat n <= j ->
  wp (sampleMetric type j v) (fun _ s' => metrics_wf n s' /\ same_logs s s') s.
Proof.
  intros Hwf Hj. pose proof Hwf as [Hl Hm Hs Hw Ht Hr Hx]. apply wp_mc_guarded; [done|]. apply wp_bind, wp_get.
  cbn [mc_samplesByGpu upd]. rewrite (proj2 (Z.leb_le _ _)) by (cbn; lia). apply wp_ret. split; [by split|by split_and!].
Qed.

Lemma other_call_spec n c s :
  metrics_wf n s -> match c with Collect _ _ | Sample _ _ _ => False | _ => True end ->
  wp (metric_perform c) (fun _ s' => metrics_wf n s' /\ same_logs s s') s.
Proof.
  intros Hwf Hc. pose proof Hwf as [Hl Hm Hs Hw Ht Hr Hx].
  destruct c; try done; cbn [metric_perform]; try apply wp_bind; apply wp_mc_guarded; try done;
    (split; [by split|by split_and!]).
Qed.

(** ** Sequences of calls *)

Definition snoc_logs (c : metric_call) (fs : nat -> list FeatureVector) (i : nat) : list FeatureVector := fs i ++ snapshots_of i c.
Definition snoc_samples (c : metric_call) (ss : nat -> list (MetricType * Z)) (i : nat) : list (MetricType * Z) := ss i ++ samples_of i c.

Lemma push_sample_log l log x :
  (fun x => (sa_type x, sa_value x)) <$> l = last_n 1000 log ->
  (fun x => (sa_type x, sa_value x)) <$> push_sample x l = last_n 1000 (log ++ [(sa_type x, sa_value x)]).
Proof.
  intros Hl. rewrite last_n_snoc. unfold push_sample. rewrite <- Hl.
  assert (Hlen : length ((fun x => (sa_type x, sa_value x)) <$> l) = length l) by apply length_fmap.
  rewrite !length_app, Hlen. cbn [length]. case_decide.
  - rewrite (proj2 (Z.ltb_lt _ _)) by lia. destruct l; cbn; by rewrite ?fmap_app.
  - rewrite (proj2 (Z.ltb_ge _ _)) by lia. by rewrite fmap_app.
Qed.

Lemma ring_position k : Z.to_nat (u64 (Z.of_nat k) mod 64) = (k mod 64)%nat.
Proof.
  unfold u64. rewrite Z.mod_mod_divide by (by exists 288230376151711744).
  change 64 with (Z.of_nat 64). by rewrite <- Nat2Z.inj_mod, Nat2Z.id.
Qed.

Lemma u64_succ k : u64 (u64 k + 1) = u64 (k + 1).
Proof. unfold u64. by rewrite Zplus_mod_idemp_l. Qed.

Lemma collected_agree n reg i fs ss s s' :
  metrics_wf n s -> logs_agree fs ss s -> collected reg i s s' ->
  logs_agree (snoc_logs (Collect reg (Z.of_nat i)) fs) (snoc_samples (Collect reg (Z.of_nat i)) ss) s'.
Proof.
  intros Hwf Ha (gpu & idx & Hg & Hidx & Hring & Hindex & Hsame) k. rewrite Hring, Hindex, Hsame, length_alter. intros Hk.
  destruct (Ha k Hk) as ((ring & Hr & Hrh) & Hx & Hl). unfold snoc_logs, snoc_samples. cbn. rewrite app_nil_r.
  destruct (decide (Z.of_nat i = Z.of_nat k)) as [->%Nat2Z.inj|Hne].
  - rewrite Hg. cbn. split_and!; [|rewrite list_lookup_insert_eq|done].
    + eexists. rewrite list_lookup_alter_eq, Hr. split; [done|]. rewrite Hidx in Hx. injection Hx as ->.
      rewrite ring_position. by apply ring_push.
    + rewrite Hidx in Hx. injection Hx as ->. by rewrite u64_succ, length_app, Nat2Z.inj_add.
    + by apply lookup_lt_Some in Hidx.
  - rewrite app_nil_r. rewrite list_lookup_alter_ne, list_lookup_insert_ne by congruence. eauto.
Qed.

Lemma same_logs_agree fs ss c s s' :
  logs_agree fs ss s -> same_logs s s' ->
  (forall i, (i < length (mc_featureHistory s))%nat -> snapshots_of i c = [] /\ samples_of i c = []) ->
  logs_agree (snoc_logs c fs) (snoc_samples c ss) s'.
Proof.
  intros Ha (H1 & H2 & H3) Hc i Hi. rewrite H1, H2, H3 in *. unfold snoc_logs, snoc_samples.
  destruct (Hc i Hi) as [-> ->]. rewrite !app_nil_r. exact (Ha i Hi).
Qed.

Lemma sampled_agree type i v ts fs ss s s' :
  logs_agree fs ss s -> mc_featureHistory s' = mc_featureHistory s -> mc_featureHistoryIndex s' = mc_featureHistoryIndex s ->
  mc_samplesByGpu s' = alter (push_sample (mk_sample type (Z.of_nat i) ts v v v v)) i (mc_samplesByGpu s) ->
  logs_agree (snoc_logs (Sample type (Z.of_nat i) v) fs) (snoc_samples (Sample type (Z.of_nat i) v) ss) s'.
Proof.
  intros Ha H1 H2 H3 k. rewrite H1, H2, H3. intros Hk. destruct (Ha k Hk) as (Hr & Hx & l & Hl & Hs).
  unfold snoc_logs, snoc_samples. cbn. rewrite app_nil_r. split_and!; [done|done|].
  destruct (decide (Z.of_nat i = Z.of_nat k)) as [->%Nat2Z.inj|Hne].
  - rewrite list_lookup_alter_eq, Hl. eexists. split; [done|]. by apply push_sample_log.
  - rewrite app_nil_r, list_lookup_alter_ne by congruence. eauto.
Qed.

Lemma call_agrees n c fs ss s :
  metrics_wf n s -> logs_agree fs ss s -> call_ok n c ->
  wp (metric_perform c) (fun _ s' => metrics_wf n s' /\ logs_agree (snoc_logs c fs) (snoc_samples c ss) s') s.
Proof.
  intros Hwf Ha Hc. pose proof (mw_rings _ _ Hwf) as Hr. destruct c as [reg j|type j v|? ? ?|?|?|?]; [| |
    (eapply wp_mono; [by apply (other_call_spec n)|]; intros _ s' [Hwf' Hsame]; split; [done|];
     by apply (same_logs_agree fs ss _ s s'))..].
  - destruct Hc as [Hreg Hj]. destruct (Z.lt_ge_cases j (Z.of_nat n)).
    + rewrite <- (Z2Nat.id j) by done. eapply wp_mono; [apply (collect_spec n); [done|done|lia]|].
      intros _ s' [Hwf' Hcol]. split; [done|].
      exact (collected_agree n reg _ fs ss s s' Hwf Ha Hcol).
    + eapply wp_mono; [by apply (collect_out_of_range n)|]. intros _ s' [Hwf' Hsame]. split; [done|].
      apply (same_logs_agree fs ss _ s s'); [done..|]. intros i Hi. cbn. by rewrite !decide_False by lia.
  - cbn in Hc. destruct (Z.lt_ge_cases j (Z.of_nat n)).
    + rewrite <- (Z2Nat.id j) by done. eapply wp_mono; [apply (sample_spec n); [done|lia]|].
      intros _ s' (Hwf' & H1 & H2 & ts & H3). split; [done|].
      exact (sampled_agree type _ v ts fs ss s s' Ha H1 H2 H3).
    + eapply wp_mono; [by apply (sample_out_of_range n)|]. intros _ s' [Hwf' Hsame]. split; [done|].
      apply (same_logs_agree fs ss _ s s'); [done..|]. intros i Hi. cbn. by rewrite !decide_False by lia.
Qed.

Lemma calls_agree n cs fs ss s :
  metrics_wf n s -> logs_agree fs ss s -> Forall (call_ok n) cs ->
  wp (metric_calls cs) (fun _ s' => metrics_wf n s' /\
    logs_agree (fun i => fs i ++ logged (snapshots_of i) cs) (fun i => ss i ++ logged (samples_of i) cs) s') s.
Proof.
  intros Hwf Ha Hcs. revert fs ss s Hwf Ha. induction Hcs as [|c cs Hc Hcs IH]; intros fs ss s Hwf Ha.
  - apply wp_ret. split; [done|]. intros i Hi. cbn. rewrite !app_nil_r. exact (Ha i Hi).
  - apply wp_bind. eapply wp_mono; [by apply (call_agrees n)|]. intros _ s' [Hwf' Ha'].
    eapply wp_mono; [exact (IH _ _ _ Hwf' Ha')|]. intros _ s2 [Hwf2 Ha2]. split; [done|].
    intros i Hi. unfold logged. cbn. rewrite !app_assoc. exact (Ha2 i Hi).
Qed.

(** The collector after [init] on a registry. *)
Lemma init_agrees n reg :
  length (rg_gpus reg) = n -> Z.of_nat n <= U32_MAX ->
  wp (metrics_init reg) (fun r s => r = true /\ metrics_wf n s /\ logs_agree (fun _ => []) (fun _ => []) s) MetricsCollector_new.
Proof.
  intros Hn Hmax. assert (Hc : Z.to_nat (gpuCount reg) = n).
  { unfold gpuCount. rewrite u32_small, Nat2Z.id by (unfold is_u32; lia). done. }
  unfold metrics_init. rewrite Hc. apply wp_bind, wp_mc_now, wp_bind, wp_modify, wp_ret. split; [done|].
  unfold resized. cbn. rewrite !take_nil, Nat.sub_0_r. cbn. split; [by split; cbn; rewrite ?length_replicate|].
  intros i. cbn. rewrite length_replicate. intros Hi. rewrite !lookup_replicate_2 by done. split_and!; [|done|by exists []].
  eexists. split; [done|]. split; [done|]. cbn. lia.
Qed.

(** C29. The bounded history of the metrics collector is the end of a log that
    forgets nothing.  After start and any calls, each of which returns: the
    ring of a GPU, read from its oldest entry, is the last 64 of the feature
    vectors of its collections, the slots a reader of the returned pointer
    and count sees are those vectors in some order, and its samples are the last
    1000 that were taken. *)
Theorem metrics_history n reg cs
  (Hreg : length (rg_gpus reg) = n) (Hmax : Z.of_nat n <= U32_MAX) (Hcs : Forall (call_ok n) cs) :
  wp (metrics_init reg;; metric_calls cs)
    (fun _ s => forall i, (i < n)%nat ->
       exists ring l,
         mc_featureHistory s !! i = Some ring /\ mc_samplesByGpu s !! i = Some l /\
         chronological ring (length (logged (snapshots_of i) cs)) = last_n 64 (logged (snapshots_of i) cs) /\
         (Z.of_nat (length (logged (snapshots_of i) cs)) <= U64_MAX ->
          exists count, getFeatureHistory (Z.of_nat i) s = Ret ((Some ring, Z.of_nat count), s) /\
            take count ring ≡ₚ last_n 64 (logged (snapshots_of i) cs)) /\
         (fun x => (sa_type x, sa_value x)) <$> l = last_n 1000 (logged (samples_of i) cs))
    MetricsCollector_new.
Proof.
  apply wp_bind. eapply wp_mono; [by apply (init_agrees n)|]. intros _ s (_ & Hwf & Ha).
  eapply wp_mono; [by apply (calls_agree n)|]. intros _ s' [Hwf' Ha'] i Hi.
  destruct (Ha' i) as ((ring & Hr & Hrh) & Hx & l & Hl & Hs); [by rewrite (mw_rings _ _ Hwf')|].
  cbn [app] in *. exists ring, l. split_and!; [done|done|by apply ring_chronological| |done]. intros Hlen.
  exists (length (logged (snapshots_of i) cs) `min` 64)%nat. split; [|by apply ring_slots].
  unfold getFeatureHistory, vec_get, mbind, M_bind, get. rewrite Nat2Z.id, Hr, (proj2 (Z.leb_le _ _)), Hx by lia.
  cbn [of_option mret M_ret]. rewrite u64_small by (unfold is_u64; lia).
  by replace (Z.min _ 64) with (Z.of_nat (length (logged (snapshots_of i) cs) `min` 64)) by lia.
Qed.
(** A round of the main loop on the collector: it returns exactly when the
    interval has not elapsed or there is no GPU; otherwise the first collection
    takes the mutex a second time. *)
Lemma metrics_events_blocks n reg s :
  metrics_wf n s ->
  let due := mc_collectionIntervalMs s <=? millis (rt_clock (mc_ticks s) - mc_lastCollection s) in
  if due && negb (n =? 0)%nat then metrics_events reg s = Fault SelfDeadlock
  else wp (metrics_events reg) (fun _ s' => metrics_wf n s' /\ same_logs s s') s.
Proof.
  intros Hwf due. pose proof Hwf as [Hl Hm Hs Hw Ht Hr Hx]. destruct n as [|n]; [rewrite andb_false_r|rewrite andb_true_r].
  - apply nil_length_inv in Hm. apply wp_mc_guarded; [done|]. apply wp_bind, wp_mc_now, wp_bind, wp_get, wp_bind. apply wp_if; intros _.
    + apply wp_bind. unfold collectAllMetrics. apply wp_bind, wp_get. cbn. rewrite Hm. cbn.
      split; [by split|by split_and!].
    + apply wp_ret, wp_bind, wp_mc_now, wp_modify. split; [by split; cbn; rewrite ?Hm|by split_and!].
  - destruct due eqn:Hdue.
    + assert (Hb : forall s', mc_locked s' = true -> length (mc_gpuMetrics s') = S n -> collectAllMetrics reg s' = Fault SelfDeadlock).
      { intros s' Hl' Hm'. unfold collectAllMetrics, collectGpuMetrics, mc_guarded, mbind, M_bind, get. rewrite Hm'. cbn.
        unfold mbind, M_bind, get. by rewrite Hl'. }
      unfold metrics_events, mc_guarded, mbind, M_bind, get, put, mc_now. rewrite Hl.
      cbn [mc_locked mc_ticks mc_collectionIntervalMs mc_lastCollection upd]. cbn -[collectAllMetrics].
      fold due. rewrite Hdue. unfold mbind, M_bind. by rewrite Hb.
    + apply wp_mc_guarded; [done|]. apply wp_bind, wp_mc_now, wp_bind, wp_get, wp_bind. cbn. fold due. rewrite Hdue.
      apply wp_ret, wp_bind, wp_mc_now, wp_modify. split; [by split|by split_and!].
Qed.
End History.

(** One GPU, collected six times idle and 64 times busy, and one sample: the
    ring holds the busy readings only. *)
Module Busy.

#[local] Instance env : RtEnv := {| rt_clock := fun n => Z.of_nat n * 1000; rt_model_alloc := true |}.

Definition gpu (utilization : Z) : GpuDevice :=
  mk_device 0 4098 29631 VENDOR_AMD "" "" "" caps_new (gstate_new <| sta_utilization := utilization |>).
Definition reg (utilization : Z) : DeviceRegistry := mk_registry [gpu utilization] [].
Definition calls : list metric_call :=
  replicate 6 (Collect (reg 3) 0) ++ Sample TEMPERATURE 0 71 :: replicate 64 (Collect (reg 97) 0).

Lemma calls_ok : Forall (call_ok 1) calls.
Proof.
  assert (forall u, call_ok 1 (Collect (reg u) 0)).
  { intros u. split; [|done]. split; [done|]. apply Forall_cons. split; [cbn; lia|apply Forall_nil_2]. }
  apply Forall_app. split; [by apply Forall_replicate|]. apply Forall_cons. split; [done|by apply Forall_replicate].
Qed.

Lemma metrics_history_witness :
  wp (metrics_init (reg 3);; metric_calls calls)
    (fun _ s => exists ring l, mc_featureHistory s !! 0%nat = Some ring /\ mc_samplesByGpu s !! 0%nat = Some l /\
       chronological ring 70 = replicate 64 (snapshot (gpu 97)) /\ length l = 1%nat) MetricsCollector_new.
Proof.
  eapply wp_mono; [apply (metrics_history 1 (reg 3) calls eq_refl); [by vm_compute|exact calls_ok]|].
  intros [] s Hs. destruct (Hs 0%nat) as (ring & l & Hr & Hl & Hc & _ & Hsam); [lia|].
  exists ring, l. split; [exact Hr|]. split; [exact Hl|]. split.
  - etransitivity; [exact Hc|]. by vm_compute.
  - rewrite <- (length_fmap (fun x => (sa_type x, sa_value x)) l), Hsam. by vm_compute.
Defined.

End Busy.
