(* ===== verification/UserIpc.v ===== *)
(** * The socket of the library's daemon

    src/userspace/daemon/ipc.c with include/mvgal/mvgal_ipc.h, and the start and
    stop of the subsystems in daemon/main.c: the frames that clients and the
    daemon exchange, the server's loop over the requests of a client with the
    operations of the library it calls, and the life of the server.

    A stream socket hands out bytes in pieces that the system chooses, and may
    accept fewer bytes than are written; both are part of the state.  How the
    records of a GPU and of the configuration lie in memory is the platform's
    and a parameter (class [IpcLayout]). *)

From S2P Require Import Prelude CString GpuTypes GpuManager SchedTypes Scheduler Config Library.
From stdpp Require Import strings.
Local Open Scope string_scope.
Local Open Scope list_scope.
Local Open Scope Z_scope.

(** ** Messages *)

Definition MVGAL_IPC_MSG_PING : Z := 0.
Definition MVGAL_IPC_MSG_PONG : Z := 1.
Definition MVGAL_IPC_MSG_GPU_ENUMERATE : Z := 2.
Definition MVGAL_IPC_MSG_GPU_LIST : Z := 3.
Definition MVGAL_IPC_MSG_WORKLOAD_SUBMIT : Z := 4.
Definition MVGAL_IPC_MSG_WORKLOAD_RESULT : Z := 5.
Definition MVGAL_IPC_MSG_CONFIG_GET : Z := 8.
Definition MVGAL_IPC_MSG_ERROR : Z := 10.

Definition MVGAL_IPC_MAGIC : Z := 1297499969. (* 0x4D564741 *)
Definition MVGAL_IPC_VERSION : Z := 1.

Record ipc_message_header_t : Type := mk_iheader {
  ih_magic : Z;
  ih_version : Z;
  ih_message_type : Z;
  ih_payload_size : Z;
  ih_request_id : Z
}.
#[export] Instance iheader_eta : Eta ipc_message_header_t := fun r =>
  mk_iheader (ih_magic r) (ih_version r) (ih_message_type r) (ih_payload_size r) (ih_request_id r).

Definition sizeof_header : nat := 24.

(** The packed record. *)
Definition header_bytes (h : ipc_message_header_t) : list Z :=
  le_bytes 4 (ih_magic h) ++ le_bytes 4 (ih_version h) ++ le_bytes 4 (ih_message_type h)
  ++ le_bytes 4 (ih_payload_size h) ++ le_bytes 8 (ih_request_id h).

Definition wire_field (offset k : nat) (b : list Z) : Z := le_val (take k (drop offset b)).

Definition header_of (b : list Z) : ipc_message_header_t :=
  mk_iheader (wire_field 0 4 b) (wire_field 4 4 b) (wire_field 8 4 b) (wire_field 12 4 b) (wire_field 16 8 b).

(** ** Sockets *)

(** [ep_input]: the pieces that come in, [None] for an error; after them the
    peer has closed.  [ep_output]: what was written, one element per call.
    [ep_room]: how many bytes the next writes accept, all of them after the
    list. *)
Record endpoint : Type := mk_endpoint {
  ep_input : list (option (list Z));
  ep_output : list (list Z);
  ep_room : list nat
}.
#[export] Instance endpoint_eta : Eta endpoint := fun r => mk_endpoint (ep_input r) (ep_output r) (ep_room r).

Abbreviation EM := (M endpoint).

(** [read]: the bytes of one piece, none at the end of the stream, [None] for
    an error. *)
Definition sys_read (n : nat) : EM (option (list Z)) := fun e =>
  match ep_input e with
  | [] => Ret (Some [], e)
  | None :: rest => Ret (None, e <| ep_input := rest |>)
  | Some b :: rest =>
      Ret (Some (take n b), e <| ep_input := match drop n b with [] => rest | b' => Some b' :: rest end |>)
  end.

(** [write]: the number of bytes accepted. *)
Definition sys_write (b : list Z) : EM nat := fun e =>
  let n := match ep_room e with k :: _ => Nat.min k (length b) | [] => length b end in
  Ret (n, e <| ep_output ::= fun l => l ++ [take n b] |> <| ep_room ::= tail |>).

(** A write that must take everything. *)
Definition write_all (b : list Z) : EM bool := n ← sys_write b; mret (n =? length b)%nat.

(** ** Sending and receiving *)

(** [payload]: the memory at the pointer, [None] for a null pointer. *)
Definition mvgal_ipc_send (fd type : Z) (payload : option (list Z)) (payload_size request_id : Z) : EM mvgal_error_t :=
  if fd <? 0 then mret MVGAL_ERROR_INVALID_ARGUMENT else
  ok ← write_all (header_bytes (mk_iheader MVGAL_IPC_MAGIC MVGAL_IPC_VERSION type (u32 payload_size) request_id));
  if negb ok then mret MVGAL_ERROR_IPC else
  match payload with
  | Some b =>
      if payload_size <=? 0 then mret MVGAL_SUCCESS else
      if Z.of_nat (length b) <? payload_size then fails OutOfBounds else
      ok ← write_all (take (Z.to_nat payload_size) b);
      mret (if ok : bool then MVGAL_SUCCESS else MVGAL_ERROR_IPC)
  | None => mret MVGAL_SUCCESS
  end.

(** What a call stores through its pointers. *)
Record ipc_received : Type := mk_received { iv_type : Z; iv_payload_size : Z; iv_request_id : Z; iv_payload : list Z }.

(** [payload_buf]: the size of the buffer, [None] for a null pointer.  A failed
    header stores nothing; a failed payload leaves the rest stored. *)
Definition mvgal_ipc_receive (fd : Z) (type_out : bool) (payload_buf : option Z)
  : EM (mvgal_error_t * option ipc_received) :=
  if (fd <? 0) || negb type_out then mret (MVGAL_ERROR_INVALID_ARGUMENT, None) else
  r ← sys_read sizeof_header;
  match r with
  | None => mret (MVGAL_ERROR_IPC, None)
  | Some b =>
      if negb (length b =? sizeof_header)%nat then mret (MVGAL_ERROR_IPC, None) else
      let header := header_of b in
      if negb (ih_magic header =? MVGAL_IPC_MAGIC) then mret (MVGAL_ERROR_INVALID_ARGUMENT, None) else
      if negb (ih_version header =? MVGAL_IPC_VERSION) then mret (MVGAL_ERROR_NOT_SUPPORTED, None) else
      let out := mk_received (ih_message_type header) (ih_payload_size header) (ih_request_id header) in
      match payload_buf with
      | None => mret (MVGAL_SUCCESS, Some (out []))
      | Some size =>
          if ih_payload_size header <=? 0 then mret (MVGAL_SUCCESS, Some (out [])) else
          let to_read := Z.to_nat (Z.min (ih_payload_size header) size) in
          r ← sys_read to_read;
          match r with
          | None => mret (MVGAL_ERROR_IPC, Some (out []))
          | Some b => mret (if (length b =? to_read)%nat then MVGAL_SUCCESS else MVGAL_ERROR_IPC, Some (out b))
          end
      end
  end.

(** ** The requests of a client *)

(** The bytes of the records that are sent as they lie in memory. *)
Class IpcLayout : Type := {
  gpu_bytes : mvgal_gpu_descriptor_t -> list Z;
  sizeof_gpu : nat;
  config_bytes : mvgal_config_t -> list Z;
  sizeof_config : nat;
  ipc_malloc : nat -> bool
}.

Definition workload_type_of (code : Z) : mvgal_workload_type_t :=
  if code =? 0 then MVGAL_WORKLOAD_GRAPHICS else if code =? 1 then MVGAL_WORKLOAD_COMPUTE
  else if code =? 2 then MVGAL_WORKLOAD_VIDEO else if code =? 3 then MVGAL_WORKLOAD_AI
  else if code =? 4 then MVGAL_WORKLOAD_TRACE else if code =? 5 then MVGAL_WORKLOAD_TRANSFER
  else MVGAL_WORKLOAD_API_SPECIFIC code.

Definition pointer_of (v : Z) : option addr := match v with Zpos p => Some p | _ => None end.

(** [mvgal_workload_submit_info_t] with 4-byte enumerations and 8-byte
    pointers. *)
Definition sizeof_submit_info : Z := 40.
Definition submit_info_of (b : list Z) : mvgal_workload_submit_info_t :=
  mk_info (workload_type_of (wire_field 0 4 b)) (wire_field 4 4 b) (wire_field 8 8 b) (wire_field 16 4 b) (wire_field 20 4 b)
    (pointer_of (wire_field 24 8 b)) (pointer_of (wire_field 32 8 b)).

(** [ir_running]: what the coming tests of the flag find, which another thread
    clears.  [ir_blocks]: the payload buffers on the heap. *)
Record ipc_run : Type := mk_irun {
  ir_lib : library;
  ir_end : endpoint;
  ir_running : list bool;
  ir_blocks : gmap positive (list Z);
  ir_mallocs : nat;
  ir_closed : bool
}.
#[export] Instance irun_eta : Eta ipc_run := fun r =>
  mk_irun (ir_lib r) (ir_end r) (ir_running r) (ir_blocks r) (ir_mallocs r) (ir_closed r).

Abbreviation IM := (M ipc_run).

Definition on_lib {A : Type} (m : LM A) : IM A := fun s =>
  match m (ir_lib s) with
  | Ret (a, l) => Ret (a, s <| ir_lib := l |>)
  | Fault e => Fault e
  | NoFuel => NoFuel
  end.

Definition on_end {A : Type} (m : EM A) : IM A := fun s =>
  match m (ir_end s) with
  | Ret (a, e) => Ret (a, s <| ir_end := e |>)
  | Fault e => Fault e
  | NoFuel => NoFuel
  end.

Definition still_running : IM bool := fun s =>
  Ret (default true (head (ir_running s)), s <| ir_running ::= tail |>).

Definition free_payload (payload : option addr) : IM unit :=
  match payload with
  | None => mret tt
  | Some p =>
      s ← get;
      match ir_blocks s !! p with
      | Some _ => modify (fun s => s <| ir_blocks ::= delete p |>)
      | None => fails UseAfterFree
      end
  end.

Section Server.
Context `{GpuOS, SchedEnv, ConfigEnv, IpcLayout}.

(** What follows the [switch]: [continue], or the response header of the
    common end. *)
Inductive switch_end : Type := Continue | Break (response : ipc_message_header_t).

(** A response of a header and a record, and the exits when a write fails,
    which free the payload and leave the [switch]. *)
Definition respond_with (response : ipc_message_header_t) (body : list Z) (payload : option addr) : IM switch_end :=
  ok ← on_end (write_all (header_bytes response));
  if negb ok then free_payload payload;; mret (Break response) else
  ok ← on_end (write_all body);
  if negb ok then free_payload payload;; mret (Break response) else
  free_payload payload;; mret Continue.

Definition handle_gpu_enumerate (response : ipc_message_header_t) (payload : option addr) : IM switch_end :=
  '(gpus, count) ← on_lib (on_gpus (mvgal_gpu_enumerate true 16));
  if 0 <? count then
    respond_with (response <| ih_message_type := MVGAL_IPC_MSG_GPU_LIST |>
                           <| ih_payload_size := u32 (Z.of_nat sizeof_gpu * count) |>)
      (concat (map gpu_bytes gpus)) payload
  else mret (Break (response <| ih_message_type := MVGAL_IPC_MSG_ERROR |>)).

Definition handle_config_get (response : ipc_message_header_t) (payload : option addr) : IM switch_end :=
  config ← on_lib (on_config mvgal_config_get);
  respond_with (response <| ih_message_type := MVGAL_IPC_MSG_CONFIG_GET |> <| ih_payload_size := Z.of_nat sizeof_config |>)
    (config_bytes config) payload.

Definition handle_workload_submit (fuel : nat) (header response : ipc_message_header_t) (payload : option addr)
  : IM switch_end :=
  match payload with
  | None => mret (Break (response <| ih_message_type := MVGAL_IPC_MSG_ERROR |>))
  | Some p =>
      if ih_payload_size header <? sizeof_submit_info
      then mret (Break (response <| ih_message_type := MVGAL_IPC_MSG_ERROR |>)) else
      s ← get;
      b ← of_option UseAfterFree (ir_blocks s !! p);
      '(err, workload) ← on_lib (on_sched (mvgal_workload_submit fuel None (Some (submit_info_of b)) true));
      if is_success err && bool_decide (workload <> None) then
        let response := response <| ih_message_type := MVGAL_IPC_MSG_WORKLOAD_RESULT |> <| ih_payload_size := 0 |> in
        ok ← on_end (write_all (header_bytes response));
        if negb ok then free_payload payload;; mret (Break response) else
        free_payload payload;; mret Continue
      else mret (Break (response <| ih_message_type := MVGAL_IPC_MSG_ERROR |>))
  end.

Definition handle_message (fuel : nat) (header : ipc_message_header_t) (payload : option addr) : IM switch_end :=
  let response := mk_iheader MVGAL_IPC_MAGIC MVGAL_IPC_VERSION MVGAL_IPC_MSG_PONG 0 (ih_request_id header) in
  let type := ih_message_type header in
  if type =? MVGAL_IPC_MSG_PING then mret (Break (response <| ih_message_type := MVGAL_IPC_MSG_PONG |>))
  else if type =? MVGAL_IPC_MSG_GPU_ENUMERATE then handle_gpu_enumerate response payload
  else if type =? MVGAL_IPC_MSG_CONFIG_GET then handle_config_get response payload
  else if type =? MVGAL_IPC_MSG_WORKLOAD_SUBMIT then handle_workload_submit fuel header response payload
  else mret (Break (response <| ih_message_type := MVGAL_IPC_MSG_ERROR |>)).

(** The header of the next message; [None] when the loop is left. *)
Definition read_header : IM (option ipc_message_header_t) :=
  r ← on_end (sys_read sizeof_header);
  match r with
  | None => mret None
  | Some b =>
      if negb (length b =? sizeof_header)%nat then mret None else
      let header := header_of b in
      if negb (ih_magic header =? MVGAL_IPC_MAGIC) then mret None else
      if negb (ih_version header =? MVGAL_IPC_VERSION) then mret None else
      mret (Some header)
  end.

(** The payload in a buffer of its own; the outer [None] when the loop is
    left. *)
Definition read_payload (size : Z) : IM (option (option addr)) :=
  if size <=? 0 then mret (Some None) else
  s ← get;
  modify (fun s => s <| ir_mallocs ::= S |>);;
  if negb (ipc_malloc (ir_mallocs s)) then mret None else
  r ← on_end (sys_read (Z.to_nat size));
  match r with
  | None => mret None
  | Some b =>
      if negb (Z.of_nat (length b) =? size) then mret None else
      let p := fresh (dom (ir_blocks s)) in
      modify (fun s => s <| ir_blocks ::= <[p := b]> |>);; mret (Some (Some p))
  end.

(** One pass of the loop; [false] leaves it. *)
Definition handle_round (fuel : nat) : IM bool :=
  h ← read_header;
  match h with
  | None => mret false
  | Some header =>
      r ← read_payload (ih_payload_size header);
      match r with
      | None => mret false
      | Some payload =>
          e ← handle_message fuel header payload;
          match e with
          | Continue => mret true
          | Break response => on_end (write_all (header_bytes response));; free_payload payload;; mret true
          end
      end
  end.

Fixpoint handle_rounds (rounds fuel : nat) : IM unit :=
  match rounds with
  | O => fun _ => NoFuel
  | S rounds' =>
      running ← still_running;
      if negb running then mret tt else
      again ← handle_round fuel;
      if again : bool then handle_rounds rounds' fuel else mret tt
  end.

Definition handle_client (rounds fuel : nat) : IM unit :=
  handle_rounds rounds fuel;; modify (fun s => s <| ir_closed := true |>).

(** What [accept] returns: a connection, an interruption, or an error. *)
Inductive ipc_accept_result : Type := Accepted (e : endpoint) | Accept_retry | Accept_failed.

(** The loop of the thread, as far as [accept] returns. *)
Fixpoint ipc_server_thread (results : list ipc_accept_result) (rounds fuel : nat) : IM unit :=
  match results with
  | [] => mret tt
  | r :: rest =>
      running ← still_running;
      if negb running then mret tt else
      match r with
      | Accepted e =>
          modify (fun s => s <| ir_end := e |> <| ir_closed := false |>);;
          handle_client rounds fuel;; ipc_server_thread rest rounds fuel
      | Accept_retry => ipc_server_thread rest rounds fuel
      | Accept_failed => mret tt
      end
  end.

End Server.

(** ** The life of the server *)

(** [sv_files]: the socket files; [sv_fds]: the open descriptors of the
    server; a thread is running from its creation until it is joined. *)
Record ipc_server_t : Type := mk_iserver {
  sv_server_fd : Z;
  sv_sun_path : string;
  sv_running : bool;
  sv_thread : bool;
  sv_files : gset string;
  sv_fds : gset Z
}.
#[export] Instance iserver_eta : Eta ipc_server_t := fun r =>
  mk_iserver (sv_server_fd r) (sv_sun_path r) (sv_running r) (sv_thread r) (sv_files r) (sv_fds r).

(** The static variable at the start. *)
Definition ipc_server_zero : ipc_server_t := mk_iserver 0 "" false false ∅ ∅.

Definition default_socket_path : string := "/var/run/mvgal/mvgal.sock".

(** The answers of the system to [socket], [bind], [listen] and
    [pthread_create]. *)
Record ipc_answers : Type := mk_answers { ia_socket : option Z; ia_bind : bool; ia_listen : bool; ia_thread : bool }.

Definition close_server : M ipc_server_t unit :=
  modify (fun s => s <| sv_fds ::= fun l => l ∖ {[ sv_server_fd s ]} |> <| sv_server_fd := -1 |>).

(** A path of more than 107 bytes is cut for the address only. *)
Definition mvgal_ipc_server_init (os : ipc_answers) (socket_path : option string) : M ipc_server_t mvgal_error_t :=
  s ← get;
  if sv_running s then mret MVGAL_ERROR_ALREADY_INITIALIZED else
  let path := default default_socket_path socket_path in
  match ia_socket os with
  | None => modify (fun s => s <| sv_server_fd := -1 |>);; mret MVGAL_ERROR_DRIVER
  | Some fd =>
      modify (fun s => s <| sv_server_fd := fd |> <| sv_fds ::= fun l => l ∪ {[ fd ]} |>
        <| sv_sun_path := String.substring 0 107 path |> <| sv_files ::= fun l => l ∖ {[ path ]} |>);;
      if negb (ia_bind os) then close_server;; mret MVGAL_ERROR_DRIVER else
      modify (fun s => s <| sv_files ::= fun l => l ∪ {[ sv_sun_path s ]} |>);;
      if negb (ia_listen os) then
        close_server;; modify (fun s => s <| sv_files ::= fun l => l ∖ {[ path ]} |>);; mret MVGAL_ERROR_DRIVER else
      modify (fun s => s <| sv_running := true |>);;
      mret MVGAL_SUCCESS
  end.

Definition mvgal_ipc_server_cleanup : M ipc_server_t unit :=
  s ← get;
  if negb (sv_running s) then mret tt else
  modify (fun s => s <| sv_running := false |>);;
  (if 0 <=? sv_server_fd s then close_server else mret tt);;
  modify (fun s => s <| sv_files ::= fun l => l ∖ {[ sv_sun_path s ]} |>).

Definition mvgal_ipc_server_start (os : ipc_answers) : M ipc_server_t mvgal_error_t :=
  s ← get;
  if negb (sv_running s) then mret MVGAL_ERROR_NOT_INITIALIZED else
  if sv_thread s then mret MVGAL_ERROR_ALREADY_INITIALIZED else
  if negb (ia_thread os) then mret MVGAL_ERROR_INITIALIZATION else
  modify (fun s => s <| sv_thread := true |>);; mret MVGAL_SUCCESS.

(** The call returns once the thread has ended. *)
Definition mvgal_ipc_server_stop : M ipc_server_t unit :=
  modify (fun s => s <| sv_running := false |> <| sv_thread := false |>).

(** ** Clients *)

(** [fds]: the open descriptors of the client. *)
Definition mvgal_ipc_client_connect (socket : option Z) (connected fd_out : bool) : M (gset Z) (mvgal_error_t * option Z) :=
  if negb fd_out then mret (MVGAL_ERROR_INVALID_ARGUMENT, None) else
  match socket with
  | None => mret (MVGAL_ERROR_DRIVER, None)
  | Some fd =>
      modify (fun fds => fds ∪ {[ fd ]});;
      if connected then mret (MVGAL_SUCCESS, Some fd)
      else modify (fun fds => fds ∖ {[ fd ]});; mret (MVGAL_ERROR_IPC, None)
  end.

Definition mvgal_ipc_client_disconnect (fd : Z) : M (gset Z) unit :=
  if 0 <=? fd then modify (fun fds => fds ∖ {[ fd ]}) else mret tt.

(** ** The subsystems of the daemon (daemon/main.c) *)

Record user_daemon : Type := mk_udaemon { ud_config : config_state; ud_server : ipc_server_t }.
#[export] Instance udaemon_eta : Eta user_daemon := fun r => mk_udaemon (ud_config r) (ud_server r).

Definition on_daemon_config {A : Type} (m : KM A) : M user_daemon A := fun d =>
  match m (ud_config d) with
  | Ret (a, c) => Ret (a, d <| ud_config := c |>)
  | Fault e => Fault e
  | NoFuel => NoFuel
  end.

Definition on_server {A : Type} (m : M ipc_server_t A) : M user_daemon A := fun d =>
  match m (ud_server d) with
  | Ret (a, s) => Ret (a, d <| ud_server := s |>)
  | Fault e => Fault e
  | NoFuel => NoFuel
  end.

Section Daemon.
Context `{ConfigEnv}.

Definition init_subsystems (os : ipc_answers) (socket_path : option string) : M user_daemon mvgal_error_t :=
  err ← on_daemon_config mvgal_config_init;
  if negb (is_success err) then mret err else
  on_daemon_config mvgal_config_get;;
  err ← on_server (mvgal_ipc_server_init os socket_path);
  if negb (is_success err) then mret err else
  err ← on_server (mvgal_ipc_server_start os);
  if negb (is_success err) then on_server mvgal_ipc_server_cleanup;; mret err else
  mret MVGAL_SUCCESS.

Definition cleanup_subsystems : M user_daemon unit :=
  on_daemon_config mvgal_config_get;;
  on_server mvgal_ipc_server_stop;;
  on_server mvgal_ipc_server_cleanup;;
  on_daemon_config mvgal_config_shutdown.

End Daemon.
