(* ===== verification/UserIpcCalls.v ===== *)
(** * Requests through the daemon's socket

    Clients and server of src/userspace/daemon/ipc.c together: what a client
    sends arrives as it was sent when the socket keeps the written parts whole,
    the server answers each request in order by a call of the library, and the
    client receives the answers. *)

From S2P Require Import Prelude GpuTypes GpuManager SchedTypes Scheduler Dispatch SchedInvariant Config Library Placement UserIpc.
From stdpp Require Import strings.
Local Open Scope Z_scope.

(** ** Headers *)

Definition header_ok (h : ipc_message_header_t) : Prop :=
  is_u32 (ih_magic h) /\ is_u32 (ih_version h) /\ is_u32 (ih_message_type h) /\ is_u32 (ih_payload_size h)
  /\ is_u64 (ih_request_id h).

Lemma length_header h : length (header_bytes h) = sizeof_header.
Proof. unfold header_bytes. by rewrite !length_app, !length_le_bytes. Qed.

(** A field behind a prefix of its offset. *)
Lemma field_at offset k z pre post :
  length pre = offset -> 0 <= z < 256 ^ Z.of_nat k -> wire_field offset k (pre ++ le_bytes k z ++ post) = z.
Proof.
  intros <- Hz. unfold wire_field. rewrite drop_app_length, take_app_le by (rewrite length_le_bytes; lia).
  rewrite take_ge by (rewrite length_le_bytes; lia). by apply le_val_bytes.
Qed.

Lemma u32_field offset z pre post : length pre = offset -> is_u32 z -> wire_field offset 4 (pre ++ le_bytes 4 z ++ post) = z.
Proof. intros Hl Hz. apply field_at; [done|]. change (256 ^ Z.of_nat 4) with 4294967296. unfold is_u32, U32_MAX in Hz. lia. Qed.

Lemma header_round_trip h : header_ok h -> header_of (header_bytes h) = h.
Proof.
  destruct h as [m v t n i]. unfold header_ok, header_of, header_bytes. cbn [ih_magic ih_version ih_message_type ih_payload_size ih_request_id].
  intros (Hm & Hv & Ht & Hn & Hi). f_equal.
  - by apply (u32_field 0 m []).
  - by apply (u32_field 4 v (le_bytes 4 m)).
  - rewrite (app_assoc (le_bytes 4 m)). by apply (u32_field 8 t (le_bytes 4 m ++ le_bytes 4 v)).
  - rewrite (app_assoc (le_bytes 4 v)), (app_assoc (le_bytes 4 m)).
    by apply (u32_field 12 n (le_bytes 4 m ++ le_bytes 4 v ++ le_bytes 4 t)).
  - rewrite <- (app_nil_r (le_bytes 8 i)), (app_assoc (le_bytes 4 t)), (app_assoc (le_bytes 4 v)), (app_assoc (le_bytes 4 m)).
    apply (field_at 16 8 i (le_bytes 4 m ++ le_bytes 4 v ++ le_bytes 4 t ++ le_bytes 4 n)); [done|].
    change (256 ^ Z.of_nat 8) with 18446744073709551616. unfold is_u64, U64_MAX in Hi. lia.
Qed.

(** ** Messages *)

Record ipc_message : Type := mk_message { mg_type : Z; mg_payload : list Z; mg_request_id : Z }.

Definition message_ok (m : ipc_message) : Prop :=
  is_u32 (mg_type m) /\ Z.of_nat (length (mg_payload m)) <= U32_MAX /\ is_u64 (mg_request_id m).

Definition header_for (m : ipc_message) : ipc_message_header_t :=
  mk_iheader MVGAL_IPC_MAGIC MVGAL_IPC_VERSION (mg_type m) (Z.of_nat (length (mg_payload m))) (mg_request_id m).

Definition nonempty_part (b : list Z) : list (list Z) := match b with [] => [] | _ => [b] end.

(** The parts a message is written in. *)
Definition message_parts (m : ipc_message) : list (list Z) := header_bytes (header_for m) :: nonempty_part (mg_payload m).

Definition received_of (m : ipc_message) : ipc_received :=
  mk_received (mg_type m) (Z.of_nat (length (mg_payload m))) (mg_request_id m) (mg_payload m).

Lemma message_header_ok m : message_ok m -> header_ok (header_for m).
Proof.
  intros (Ht & Hp & Hi). unfold header_ok, is_u32, U32_MAX in *. cbn. unfold MVGAL_IPC_MAGIC, MVGAL_IPC_VERSION.
  split_and!; try done; lia.
Qed.

(** ** Delivery *)

(** The pieces that a reader sees: each is one or more whole parts. *)
Inductive delivers : list (list Z) -> list (option (list Z)) -> Prop :=
| delivers_nil : delivers [] []
| delivers_piece group parts pieces :
    group <> [] -> Forall (fun b => b <> []) group -> delivers parts pieces ->
    delivers (group ++ parts) (Some (concat group) :: pieces).

Lemma delivers_read p parts pieces :
  delivers (p :: parts) pieces ->
  p <> [] /\ exists b rest, pieces = Some b :: rest /\ take (length p) b = p /\
    delivers parts (match drop (length p) b with [] => rest | b' => Some b' :: rest end).
Proof.
  remember (p :: parts) as all eqn:E. destruct 1 as [|group parts' pieces Hg Hne Hd]; [done|].
  destruct group as [|q group]; [done|]. cbn in E. injection E as -> <-. apply Forall_cons in Hne as [Hp Hne].
  split; [done|]. exists (p ++ concat group), pieces. split; [done|]. rewrite take_app_length, drop_app_length. split; [done|].
  destruct group as [|q group]; [exact Hd|]. assert (concat (q :: group) <> []) as Hc.
  { apply Forall_cons in Hne as [Hq _]. cbn. by destruct q. }
  destruct (concat (q :: group)) as [|b l] eqn:Ec; [done|]. rewrite <- Ec. by apply (delivers_piece (q :: group)).
Qed.

Lemma read_part n p parts e (Q : option (list Z) -> endpoint -> Prop) :
  delivers (p :: parts) (ep_input e) -> length p = n ->
  (forall input, delivers parts input -> Q (Some p) (e <| ep_input := input |>)) -> wp (sys_read n) Q e.
Proof.
  intros Hd <- HQ. apply delivers_read in Hd as (_ & b & rest & Hi & Ht & Hd). eapply wp_intro.
  - unfold sys_read. rewrite Hi. reflexivity.
  - rewrite Ht. by apply HQ.
Qed.

(** ** The client's calls *)

Definition client_send (fd : Z) (m : ipc_message) : EM mvgal_error_t :=
  mvgal_ipc_send fd (mg_type m) (Some (mg_payload m)) (Z.of_nat (length (mg_payload m))) (mg_request_id m).

Fixpoint send_messages (fd : Z) (ms : list ipc_message) : EM (list mvgal_error_t) :=
  match ms with
  | [] => mret []
  | m :: rest => err ← client_send fd m; errs ← send_messages fd rest; mret (err :: errs)
  end.

Fixpoint receive_messages (fd size : Z) (n : nat) : EM (list (mvgal_error_t * option ipc_received)) :=
  match n with
  | O => mret []
  | S n' => r ← mvgal_ipc_receive fd true (Some size); rs ← receive_messages fd size n'; mret (r :: rs)
  end.

(** A socket that takes every write. *)
Lemma wp_write_all b e (Q : bool -> endpoint -> Prop) :
  ep_room e = [] -> Q true (e <| ep_output ::= fun l => l ++ [b] |>) -> wp (write_all b) Q e.
Proof.
  intros Hr HQ. unfold write_all. apply wp_bind. eapply wp_intro; [reflexivity|]. cbn. rewrite Hr. cbn. apply wp_ret.
  rewrite firstn_all, Nat.eqb_refl. destruct e as [i o r]. cbn in *. by subst.
Qed.

Lemma part_cases b : b = [] \/ nonempty_part b = [b] /\ 0 < Z.of_nat (length b).
Proof. destruct b; [by left|right]. split; [done|cbn; lia]. Qed.

Lemma send_spec fd m e :
  0 <= fd -> message_ok m -> ep_room e = [] ->
  client_send fd m e = Ret (MVGAL_SUCCESS, e <| ep_output ::= fun l => l ++ message_parts m |>).
Proof.
  intros Hfd (Ht & Hp & Hi) Hr. cut (wp (client_send fd m) (fun err e' => err = MVGAL_SUCCESS /\ e' = e <| ep_output ::= fun l => l ++ message_parts m |>) e).
  { intros (err & e' & Hrun & -> & ->)%wp_elim. exact Hrun. }
  unfold client_send, mvgal_ipc_send. rewrite (proj2 (Z.ltb_ge _ _)) by lia.
  apply wp_bind, wp_write_all; [done|]. cbn [negb]. rewrite u32_small by (unfold is_u32; lia).
  unfold message_parts, header_for. destruct (part_cases (mg_payload m)) as [E|[E Hpos]]; [by rewrite E|].
  rewrite (proj2 (Z.leb_gt _ _)), (proj2 (Z.ltb_ge _ _)), Nat2Z.id, firstn_all by lia.
  apply wp_bind, wp_write_all; [done|]. apply wp_ret. split; [done|]. rewrite E.
  unfold upd. cbn. by rewrite <- app_assoc.
Qed.

Lemma send_all_spec fd ms e :
  0 <= fd -> Forall message_ok ms -> ep_room e = [] ->
  send_messages fd ms e = Ret (map (fun _ => MVGAL_SUCCESS) ms, e <| ep_output ::= fun l => l ++ concat (map message_parts ms) |>).
Proof.
  intros Hfd Hms. revert e. induction Hms as [|m ms Hm Hms IH]; intros e Hr; cbn [send_messages map concat].
  - destruct e. cbn. unfold mret, M_ret, upd. cbn. by rewrite app_nil_r.
  - rewrite (bind_ret _ _ _ _ _ (send_spec fd m e Hfd Hm Hr)). erewrite (bind_ret (send_messages fd ms)) by (apply IH; exact Hr).
    unfold mret, M_ret, upd. cbn. by rewrite <- app_assoc.
Qed.

Lemma receive_spec fd size m parts e :
  0 <= fd -> message_ok m -> Z.of_nat (length (mg_payload m)) <= size ->
  delivers (message_parts m ++ parts) (ep_input e) ->
  wp (mvgal_ipc_receive fd true (Some size))
    (fun r e' => r = (MVGAL_SUCCESS, Some (received_of m)) /\ exists input, e' = e <| ep_input := input |> /\ delivers parts input) e.
Proof.
  intros Hfd Hm Hs Hd. unfold mvgal_ipc_receive. rewrite (proj2 (Z.ltb_ge _ _)) by lia. cbn [orb negb].
  apply wp_bind. apply (read_part _ (header_bytes (header_for m)) (nonempty_part (mg_payload m) ++ parts)); [exact Hd|apply length_header|].
  intros input Hin. rewrite length_header, header_round_trip by by apply message_header_ok. cbn -[Z.min Z.leb].
  unfold received_of. destruct (part_cases (mg_payload m)) as [E|[E Hpos]]; [rewrite E in Hin |- *; apply wp_ret; split; [done|by exists input]|].
  rewrite (proj2 (Z.leb_gt (Z.of_nat (length (mg_payload m))) 0) Hpos), (Z.min_l _ _ Hs), Nat2Z.id. apply wp_bind. rewrite E in Hin.
  apply (read_part _ (mg_payload m) parts); [exact Hin|done|]. intros input' Hin'. rewrite Nat.eqb_refl.
  apply wp_ret. split; [done|]. by exists input'.
Qed.

Lemma receive_all_spec fd size ms e :
  0 <= fd -> Forall message_ok ms -> Forall (fun m => Z.of_nat (length (mg_payload m)) <= size) ms ->
  delivers (concat (map message_parts ms)) (ep_input e) ->
  wp (receive_messages fd size (length ms)) (fun rs _ => rs = map (fun m => (MVGAL_SUCCESS, Some (received_of m))) ms) e.
Proof.
  intros Hfd Hms. revert e. induction Hms as [|m ms Hm Hms IH]; intros e Hs Hd; [by apply wp_ret|].
  apply Forall_cons in Hs as [Hs1 Hs]. cbn [length receive_messages map concat] in *. apply wp_bind.
  eapply wp_mono; [by eapply receive_spec|]. intros r e' (-> & input & -> & Hin). apply wp_bind.
  eapply wp_mono; [by apply IH|]. by intros rs e' ->.
Qed.

(** ** The server *)

(** A server in the middle of a request: [B] are the other buffers, [b] the
    payload. *)
Definition holds (B : gmap positive (list Z)) (b : list Z) (payload : option addr) (s : ipc_run) : Prop :=
  match payload with
  | None => b = [] /\ ir_blocks s = B
  | Some p => b <> [] /\ B !! p = None /\ ir_blocks s = <[p := b]> B
  end.

Lemma wp_free B b payload (Q : unit -> ipc_run -> Prop) s :
  holds B b payload s -> Q tt (s <| ir_blocks := B |>) -> wp (free_payload payload) Q s.
Proof.
  destruct payload as [p|]; cbn.
  - intros (_ & Hp & Hb) HQ. apply wp_bind, wp_get. rewrite Hb, lookup_insert_eq. apply wp_modify.
    unfold upd in *. cbn in *. by rewrite Hb, delete_insert_id.
  - intros [_ <-] HQ. apply wp_ret. by destruct s.
Qed.

Lemma wp_on_lib {A : Type} (m : LM A) a l (Q : A -> ipc_run -> Prop) s :
  m (ir_lib s) = Ret (a, l) -> Q a (s <| ir_lib := l |>) -> wp (on_lib m) Q s.
Proof. intros Hm HQ. unfold wp, on_lib. by rewrite Hm. Qed.

Lemma wp_on_end {A : Type} (m : EM A) (Q : A -> ipc_run -> Prop) s :
  wp m (fun a e => Q a (s <| ir_end := e |>)) (ir_end s) -> wp (on_end m) Q s.
Proof. unfold wp, on_end. by destruct (m (ir_end s)) as [[a e]| |]. Qed.

(** The buffers of the records are as long as their sizes say. *)
Class IpcLayoutLaws `{IpcLayout} : Prop := {
  gpu_length : forall g, length (gpu_bytes g) = sizeof_gpu;
  gpu_size : (0 < sizeof_gpu)%nat /\ Z.of_nat sizeof_gpu * 16 <= U32_MAX;
  config_length : forall c, length (config_bytes c) = sizeof_config;
  config_size : (0 < sizeof_config)%nat /\ Z.of_nat sizeof_config <= U32_MAX;
  malloc_succeeds : forall n, ipc_malloc n = true
}.

Section Serving.
Context `{GpuOS, SchedEnv, ConfigEnv, IpcLayout, !IpcLayoutLaws}.

(** What the daemon promises for a request: the type and the payload of the
    answer, from a call of the library. *)
Definition answer (fuel : nat) (m : ipc_message) : LM (Z * list Z) :=
  if mg_type m =? MVGAL_IPC_MSG_PING then mret (MVGAL_IPC_MSG_PONG, [])
  else if mg_type m =? MVGAL_IPC_MSG_GPU_ENUMERATE then
    '(gpus, count) ← on_gpus (mvgal_gpu_enumerate true 16);
    mret (if 0 <? count then (MVGAL_IPC_MSG_GPU_LIST, concat (map gpu_bytes gpus)) else (MVGAL_IPC_MSG_ERROR, []))
  else if mg_type m =? MVGAL_IPC_MSG_CONFIG_GET then
    config ← on_config mvgal_config_get; mret (MVGAL_IPC_MSG_CONFIG_GET, config_bytes config)
  else if mg_type m =? MVGAL_IPC_MSG_WORKLOAD_SUBMIT then
    if Z.of_nat (length (mg_payload m)) <? sizeof_submit_info then mret (MVGAL_IPC_MSG_ERROR, []) else
    '(err, workload) ← on_sched (mvgal_workload_submit fuel None (Some (submit_info_of (mg_payload m))) true);
    mret (if is_success err && bool_decide (workload <> None) then (MVGAL_IPC_MSG_WORKLOAD_RESULT, []) else (MVGAL_IPC_MSG_ERROR, []))
  else mret (MVGAL_IPC_MSG_ERROR, []).

Definition reply (m : ipc_message) (a : Z * list Z) : ipc_message := mk_message a.1 a.2 (mg_request_id m).

Fixpoint answers (fuel : nat) (ms : list ipc_message) : LM (list ipc_message) :=
  match ms with
  | [] => mret []
  | m :: rest => a ← answer fuel m; others ← answers fuel rest; mret (reply m a :: others)
  end.

(** The list of GPUs is as long as the count says. *)
Lemma enumerate_length gm :
  gm_wf gm -> let r := mvgal_gpu_enumerate true 16 gm in Z.of_nat (length r.1.1) = r.1.2 /\ 0 <= r.1.2 <= 16 /\ gm_wf r.2.
Proof.
  intros Hgm. apply ensure_wf in Hgm as Hgm'. destruct (Hgm') as [[Hl _ Hc _] _ _ _].
  unfold mvgal_gpu_enumerate, manager_op. cbn [negb orb Z.eqb]. set (g := ensure_gpu_manager_initialized gm) in *. cbn [fst snd].
  unfold MAX_GPUS in Hl. rewrite length_take. destruct (Z.ltb_spec 16 (gm_gpu_count g)); split_and!; (lia || done).
Qed.

Lemma length_concat_gpus gpus : Z.of_nat (length (concat (map gpu_bytes gpus))) = Z.of_nat sizeof_gpu * Z.of_nat (length gpus).
Proof. induction gpus as [|g gpus IH]; [cbn; lia|]. cbn [map concat]. rewrite length_app, gpu_length. cbn [length]. lia. Qed.

(** A response of header and body. *)
Lemma respond_spec response body payload B b s :
  ep_room (ir_end s) = [] -> holds B b payload s ->
  wp (respond_with response body payload) (fun e s' => e = Continue /\
    s' = s <| ir_end ::= (fun e => e <| ep_output ::= fun l => l ++ [header_bytes response; body] |>) |> <| ir_blocks := B |>) s.
Proof.
  intros Hr Hh. unfold respond_with. apply wp_bind, wp_on_end, wp_write_all; [done|]. cbn [negb].
  apply wp_bind, wp_on_end, wp_write_all; [done|]. cbn [negb]. apply wp_bind. apply (wp_free B b); [by destruct payload|].
  apply wp_ret. split; [done|]. destruct s as [l e r bl ml c]. unfold upd. cbn. by rewrite <- app_assoc.
Qed.

(** How the [switch] leaves a request whose answer is [a]. *)
Definition switched (m : ipc_message) (a : Z * list Z) (l : library) (B : gmap positive (list Z)) (s : ipc_run)
  (e : switch_end) (s' : ipc_run) : Prop :=
  match e with
  | Continue => s' = s <| ir_lib := l |>
      <| ir_end ::= (fun e => e <| ep_output ::= fun l => l ++ message_parts (reply m a) |>) |> <| ir_blocks := B |>
  | Break response => response = header_for (reply m a) /\ a.2 = [] /\ s' = s <| ir_lib := l |>
  end.

Definition first_response (m : ipc_message) : ipc_message_header_t :=
  mk_iheader MVGAL_IPC_MAGIC MVGAL_IPC_VERSION MVGAL_IPC_MSG_PONG 0 (mg_request_id m).

(** A response whose header announces its body. *)
Lemma respond_switched m a l B payload response s :
  response = header_for (reply m a) -> a.2 <> [] -> ep_room (ir_end s) = [] -> holds B (mg_payload m) payload s ->
  wp (respond_with response a.2 payload) (switched m a l B s) (s <| ir_lib := l |>).
Proof.
  intros -> Ha Hr Hh. eapply wp_mono; [apply (respond_spec _ _ _ B (mg_payload m)); [done|by destruct payload]|].
  intros e s' [-> ->]. cbn [switched]. unfold message_parts, nonempty_part. cbn [reply mg_payload]. by destruct a.2.
Qed.

Lemma enumerate_switched m payload B s :
  gm_wf (lib_manager (ir_lib s)) -> ep_room (ir_end s) = [] -> holds B (mg_payload m) payload s ->
  mg_type m = MVGAL_IPC_MSG_GPU_ENUMERATE ->
  exists a l, (forall fuel, answer fuel m (ir_lib s) = Ret (a, l)) /\
    wp (handle_gpu_enumerate (first_response m) payload) (switched m a l B s) s.
Proof.
  intros Hgm Hr Hh Ht. unfold answer. rewrite Ht. cbn -[sizeof_submit_info mvgal_gpu_enumerate]. unfold mbind, M_bind, on_gpus.
  pose proof (enumerate_length _ Hgm) as He.
  destruct (mvgal_gpu_enumerate true 16 (lib_manager (ir_lib s))) as [[gpus count] gm] eqn:E. destruct He as (Hlen & Hc & _). cbn in Hlen, Hc.
  eexists _, _. split; [intros; reflexivity|]. unfold handle_gpu_enumerate. apply wp_bind. eapply wp_on_lib; [unfold on_gpus; by rewrite E|].
  cbn beta iota. destruct (Z.ltb_spec 0 count) as [Hpos|]; [|by apply wp_ret].
  pose proof (length_concat_gpus gpus) as Hlc. destruct gpu_size as [Hg1 Hg2].
  apply (respond_switched m (MVGAL_IPC_MSG_GPU_LIST, concat (map gpu_bytes gpus))); [|cbn|done..].
  - unfold header_for. cbn. rewrite Hlc, Hlen, u32_small by (unfold is_u32; nia). done.
  - intros Hn. rewrite Hn in Hlc. cbn in Hlc. nia.
Qed.

Lemma config_get_returns l : exists c l', on_config mvgal_config_get l = Ret (c, l') /\ lib_sched l' = lib_sched l.
Proof.
  unfold on_config, mvgal_config_get, ensure_config, mvgal_config_init, mbind, M_bind, mret, M_ret, reads.
  destruct (cs_initialized (lib_config l)); eauto.
Qed.

Lemma config_switched m payload B s :
  ep_room (ir_end s) = [] -> holds B (mg_payload m) payload s -> mg_type m = MVGAL_IPC_MSG_CONFIG_GET ->
  exists a l, (forall fuel, answer fuel m (ir_lib s) = Ret (a, l)) /\
    wp (handle_config_get (first_response m) payload) (switched m a l B s) s.
Proof.
  intros Hr Hh Ht. destruct (config_get_returns (ir_lib s)) as (c & l & Hrun & _). unfold answer. rewrite Ht. cbn -[on_config].
  exists (MVGAL_IPC_MSG_CONFIG_GET, config_bytes c), l. split; [intros; by rewrite (bind_ret _ _ _ _ _ Hrun)|].
  apply wp_bind. apply (wp_on_lib _ c l); [done|]. destruct config_size as [Hc _].
  apply (respond_switched m (MVGAL_IPC_MSG_CONFIG_GET, config_bytes c)); [|cbn|done..].
  - unfold header_for. cbn. by rewrite config_length.
  - intros Hn. pose proof (config_length c) as Hl. rewrite Hn in Hl. cbn in Hl. lia.
Qed.

Lemma submit_switched fuel m payload B s a l :
  ep_room (ir_end s) = [] -> holds B (mg_payload m) payload s -> mg_type m = MVGAL_IPC_MSG_WORKLOAD_SUBMIT ->
  answer fuel m (ir_lib s) = Ret (a, l) ->
  wp (handle_workload_submit fuel (header_for m) (first_response m) payload) (switched m a l B s) s.
Proof.
  intros Hr Hh Ht. unfold answer. rewrite Ht. cbn -[sizeof_submit_info on_sched]. unfold handle_workload_submit.
  destruct payload as [p|]; cbn [holds] in Hh.
  - destruct Hh as (Hne & Hp & Hb). cbn [header_for ih_payload_size]. destruct (_ <? _); [intros [= <- <-]; apply wp_ret; by destruct s|].
    intros ([err w] & l1 & Hrun & Ha)%bind_inv. apply wp_bind, wp_get. rewrite Hb, lookup_insert_eq. apply wp_bind, wp_ret.
    apply wp_bind. apply (wp_on_lib _ (err, w) l1); [done|]. cbn beta iota in *. injection Ha as <- <-.
    destruct (_ && _); [|by apply wp_ret]. apply wp_bind, wp_on_end, wp_write_all; [done|]. cbn [negb].
    apply wp_bind. apply (wp_free B (mg_payload m)); [done|]. by apply wp_ret.
  - destruct Hh as [-> Hb]. cbn. intros [= <- <-]. apply wp_ret. by destruct s.
Qed.

Lemma message_switched fuel m payload B s a l :
  gm_wf (lib_manager (ir_lib s)) -> ep_room (ir_end s) = [] -> holds B (mg_payload m) payload s ->
  answer fuel m (ir_lib s) = Ret (a, l) ->
  wp (handle_message fuel (header_for m) payload) (switched m a l B s) s.
Proof.
  intros Hgm Hr Hh Ha. unfold handle_message. cbn [header_for ih_message_type ih_request_id]. fold (first_response m).
  destruct (Z.eqb_spec (mg_type m) MVGAL_IPC_MSG_PING) as [E|N0].
  { unfold answer in Ha. rewrite E in Ha. injection Ha as <- <-. apply wp_ret. by destruct s. }
  destruct (Z.eqb_spec (mg_type m) MVGAL_IPC_MSG_GPU_ENUMERATE) as [E|N1].
  { destruct (enumerate_switched m payload B s Hgm Hr Hh E) as (a' & l' & Ha' & Hw). rewrite Ha' in Ha. by injection Ha as <- <-. }
  destruct (Z.eqb_spec (mg_type m) MVGAL_IPC_MSG_CONFIG_GET) as [E|N2].
  { destruct (config_switched m payload B s Hr Hh E) as (a' & l' & Ha' & Hw). rewrite Ha' in Ha. by injection Ha as <- <-. }
  destruct (Z.eqb_spec (mg_type m) MVGAL_IPC_MSG_WORKLOAD_SUBMIT) as [E|N3]; [by apply submit_switched|].
  unfold answer in Ha. rewrite !(proj2 (Z.eqb_neq _ _)) in Ha by done. injection Ha as <- <-. apply wp_ret. by destruct s.
Qed.

(** ** A connection *)

(** The state after a request has been answered. *)
Definition answered (m : ipc_message) (a : Z * list Z) (l : library) (parts : list (list Z)) (s s' : ipc_run) : Prop :=
  ir_lib s' = l /\ ep_room (ir_end s') = [] /\ delivers parts (ep_input (ir_end s')) /\
  ep_output (ir_end s') = ep_output (ir_end s) ++ message_parts (reply m a) /\
  ir_blocks s' = ir_blocks s /\ ir_running s' = ir_running s /\ ir_closed s' = ir_closed s.

Lemma read_header_spec m parts s :
  message_ok m -> delivers (message_parts m ++ parts) (ep_input (ir_end s)) ->
  wp read_header (fun h s' => h = Some (header_for m) /\ exists input,
    s' = s <| ir_end ::= (fun e => e <| ep_input := input |>) |> /\ delivers (nonempty_part (mg_payload m) ++ parts) input) s.
Proof.
  intros Hm Hd. unfold read_header. apply wp_bind, wp_on_end.
  apply (read_part _ (header_bytes (header_for m)) (nonempty_part (mg_payload m) ++ parts)); [exact Hd|apply length_header|].
  intros input Hin. rewrite length_header, header_round_trip by by apply message_header_ok. apply wp_ret.
  split; [done|]. by exists input.
Qed.

Lemma read_payload_spec m parts s :
  delivers (nonempty_part (mg_payload m) ++ parts) (ep_input (ir_end s)) ->
  wp (read_payload (Z.of_nat (length (mg_payload m)))) (fun r s' => exists payload input,
    r = Some payload /\ holds (ir_blocks s) (mg_payload m) payload s' /\ delivers parts input /\
    ir_end s' = (ir_end s) <| ep_input := input |> /\ ir_lib s' = ir_lib s /\ ir_running s' = ir_running s /\
    ir_closed s' = ir_closed s) s.
Proof.
  intros Hd. unfold read_payload. destruct (part_cases (mg_payload m)) as [E|[E Hpos]].
  - rewrite E in Hd |- *. apply wp_ret. exists None, (ep_input (ir_end s)). split_and!; try done. by destruct (ir_end s).
  - rewrite (proj2 (Z.leb_gt _ _) Hpos). apply wp_bind, wp_get, wp_bind, wp_modify. rewrite malloc_succeeds. cbn [negb].
    rewrite E in Hd. apply wp_bind, wp_on_end. rewrite Nat2Z.id.
    apply (read_part _ (mg_payload m) parts); [exact Hd|done|]. intros input Hin. rewrite Z.eqb_refl. cbn [negb].
    apply wp_bind, wp_modify, wp_ret. eexists (Some _), input. split_and!; try done. split_and!; [by destruct (mg_payload m)| |done].
    apply not_elem_of_dom, is_fresh.
Qed.

Lemma round_spec fuel m a l parts s :
  message_ok m -> gm_wf (lib_manager (ir_lib s)) -> ep_room (ir_end s) = [] ->
  delivers (message_parts m ++ parts) (ep_input (ir_end s)) -> answer fuel m (ir_lib s) = Ret (a, l) ->
  wp (handle_round fuel) (fun r s' => r = true /\ answered m a l parts s s') s.
Proof.
  intros Hm Hgm Hr Hd Ha. unfold handle_round. apply wp_bind. eapply wp_mono; [by apply read_header_spec|].
  intros h s1 (-> & input & -> & Hin). apply wp_bind. cbn [header_for ih_payload_size].
  eapply wp_mono; [apply (read_payload_spec m parts); exact Hin|].
  intros r s2 (payload & input2 & -> & Hh & Hin2 & He & Hl & Hrun & Hcl). apply wp_bind. cbn in Hl, Hrun, Hcl, He, Hh.
  eapply wp_mono; [apply (message_switched fuel m payload (ir_blocks s) s2 a l)|].
  - by rewrite Hl.
  - by rewrite He.
  - exact Hh.
  - by rewrite Hl.
  - intros [|response] s3; cbn [switched].
    + intros ->. apply wp_ret. split; [done|]. unfold answered. cbn. rewrite He. by split_and!.
    + intros (-> & Hnil & ->). apply wp_bind, wp_on_end, wp_write_all; [cbn; by rewrite He|]. apply wp_bind.
      apply (wp_free (ir_blocks s) (mg_payload m)); [by destruct payload|]. apply wp_ret. split; [done|].
      assert (Hp : message_parts (reply m a) = [header_bytes (header_for (reply m a))]).
      { unfold message_parts. cbn [reply mg_payload]. by rewrite Hnil. }
      unfold answered. rewrite Hp. cbn -[header_bytes]. rewrite He. by split_and!.
Qed.

Lemma delivers_nothing pieces : delivers [] pieces -> pieces = [].
Proof. intros Hd. inversion Hd as [|group parts pieces' Hg Hne Hd' Hp]; [done|]. by destruct group. Qed.

(** The scheduler after its initialisation, which the first submission brings
    about. *)
Definition woken (s : mvgal_scheduler_state_t) : mvgal_scheduler_state_t :=
  match mvgal_scheduler_module_init s with Ret (_, s') => s' | _ => s end.

(** A scheduler that nobody has initialised. *)
Record dormant (s : mvgal_scheduler_state_t) : Prop := {
  dm_initialized : ss_initialized s = false;
  dm_rotation : rotation_ok (ss_afr s);
  dm_range : sfr_in_range (woken s) = true
}.

(** A library that can serve requests: its scheduler waits for work or is
    still to be initialised. *)
Definition serving (l : library) : Prop := (at_rest (lib_sched l) \/ dormant (lib_sched l)) /\ sched_wf (lib_sched l).

(** The scheduler with a GPU manager that has looked at the GPUs. *)
Definition surveyed (s : mvgal_scheduler_state_t) : mvgal_scheduler_state_t :=
  module_reset s <| ss_gm := ensure_gpu_manager_initialized (ss_gm s) |>.

Lemma init_cases s :
  ss_initialized s = false ->
  mvgal_scheduler_module_init s = Ret (MVGAL_SUCCESS,
    (if 0 <? gm_gpu_count (ss_gm (surveyed s)) then module_load_gpus (surveyed s) else surveyed s) <| ss_initialized := true |>).
Proof. intros Hi. unfold mvgal_scheduler_module_init. rewrite Hi. reflexivity. Qed.

Lemma load_gpus_rest s :
  gm_wf (ss_gm s) -> ss_thread_running s = false -> ss_ready_queue s = queue_empty ->
  let s' := module_load_gpus s in
  ss_thread_running s' = false /\ ss_ready_queue s' = queue_empty /\ ss_afr s' = ss_afr s /\ 0 <= ss_gpu_count s' <= 16.
Proof.
  intros Hg Ht Hq. pose proof (enumerate_length _ Hg) as Hn. unfold module_load_gpus.
  destruct (mvgal_gpu_enumerate true 16 (ss_gm s)) as [[gpus count] gm]. destruct Hn as (_ & Hc & _). cbn in Hc.
  split_and!; try done; cbn; rewrite u32_small by (unfold is_u32, U32_MAX; lia); lia.
Qed.

Lemma woken_rest s :
  dormant s -> sched_wf s -> mvgal_scheduler_module_init s = Ret (MVGAL_SUCCESS, woken s) /\ at_rest (woken s).
Proof.
  intros [Hi Ha Hr] Hw. unfold woken in *. rewrite (init_cases s Hi) in *. split; [done|].
  assert (Hg : gm_wf (ss_gm (surveyed s))) by exact (ensure_wf _ (wf_gm _ Hw)).
  destruct (load_gpus_rest (surveyed s) Hg eq_refl eq_refl) as (H1' & H2' & H3' & H4').
  destruct (0 <? gm_gpu_count (ss_gm (surveyed s))).
  - generalize dependent (module_load_gpus (surveyed s)). intros x Hr H1' H2' H3' H4'.
    split; [done|exact H1'|exact H2'|exact Hr| |exact H4']. change (rotation_ok (ss_afr x)). by rewrite H3'.
  - split; [done|done|done|exact Hr|exact Ha|done].
Qed.

(** Looking at the GPUs first makes no difference. *)
Lemma woken_ensured s :
  ss_initialized s = false -> woken (s <| ss_gm := ensure_gpu_manager_initialized (ss_gm s) |>) = woken s.
Proof.
  intros Hi. unfold woken. rewrite !init_cases by exact Hi.
  assert (E : surveyed (s <| ss_gm := ensure_gpu_manager_initialized (ss_gm s) |>) = surveyed s); [|by rewrite E].
  unfold surveyed. change (ss_gm (s <| ss_gm := ?g |>)) with g. by rewrite ensure_idle by apply ensure_initialized.
Qed.

(** The first submission is one to the scheduler that it initialises. *)
Lemma submit_wakes fuel context info s :
  dormant s -> sched_wf s ->
  mvgal_workload_submit fuel context (Some info) true s = mvgal_workload_submit fuel context (Some info) true (woken s).
Proof.
  intros Hd Hw. destruct (woken_rest s Hd Hw) as [Hrun Hr]. cbn [mvgal_workload_submit negb]. unfold submit_common.
  rewrite !get_bind, (dm_initialized _ Hd), (ar_initialized _ Hr), (bind_ret _ _ _ _ _ Hrun).
  symmetry. by rewrite (bind_ret (mret MVGAL_SUCCESS) _ (woken s) MVGAL_SUCCESS (woken s)) by done.
Qed.

Lemma served_at_rest context info s s' p w : at_rest s -> served context info s s' p w -> at_rest s'.
Proof.
  intros [Q1 Q2 Q3 Q4 Q5 Q6] [Hnew Hw _ _ _ _ _ Hq Hsub Hcom Hoth Hro Hrest].
  assert (Hcount : ss_gpu_count s' = ss_gpu_count s) by exact (f_equal ss_gpu_count Hrest). split; try done.
  - exact (eq_trans (f_equal ss_initialized Hrest) Q1).
  - exact (eq_trans (f_equal ss_thread_running Hrest) Q2).
  - rewrite <- Q4. exact (idle_in_range _ _ Hrest).
  - by rewrite Hcount.
Qed.

Definition request_ok (m : ipc_message) : Prop :=
  message_ok m /\
  (mg_type m = MVGAL_IPC_MSG_WORKLOAD_SUBMIT -> sizeof_submit_info <= Z.of_nat (length (mg_payload m)) ->
   0 < si_priority (submit_info_of (mg_payload m))).

Lemma plain_reply_ok m type : is_u64 (mg_request_id m) -> is_u32 type -> message_ok (reply m (type, [])).
Proof. intros Hi Ht. split_and!; [done|cbn; unfold U32_MAX; lia|done]. Qed.

Lemma submit_answer fuel m l :
  (1 <= fuel)%nat -> (forall n, SchedTypes.alloc_ok n = true) -> serving l -> request_ok m -> mg_type m = MVGAL_IPC_MSG_WORKLOAD_SUBMIT ->
  exists a l', answer fuel m l = Ret (a, l') /\ serving l' /\ message_ok (reply m a).
Proof.
  intros Hf Hal [Hst Hwf] [(_ & _ & Hid) Hpr] Ht. unfold answer. rewrite Ht. cbn -[sizeof_submit_info on_sched].
  destruct (Z.ltb_spec (Z.of_nat (length (mg_payload m))) sizeof_submit_info) as [|Hsz].
  - eexists _, l. split; [done|]. split; [done|by apply plain_reply_ok].
  - assert (exists s0, at_rest s0 /\ mvgal_workload_submit fuel None (Some (submit_info_of (mg_payload m))) true (lib_sched l)
      = mvgal_workload_submit fuel None (Some (submit_info_of (mg_payload m))) true s0) as (s0 & Hrest & E).
    { destruct Hst as [Hrest|Hd]; [by exists (lib_sched l)|]. exists (woken (lib_sched l)).
      split; [by apply woken_rest|by apply submit_wakes]. }
    destruct (submit_served fuel None (submit_info_of (mg_payload m)) s0) as (p & s' & w & Hrun & Hs);
      [exact Hrest|apply Hal|by apply Hpr|exact Hf|]. rewrite <- E in Hrun.
    assert (Hon : on_sched (mvgal_workload_submit fuel None (Some (submit_info_of (mg_payload m))) true) l
      = Ret ((MVGAL_SUCCESS, Some p), l <| lib_sched := s' |>)) by (unfold on_sched; by rewrite Hrun).
    eexists _, _. rewrite (bind_ret _ _ _ _ _ Hon). split; [reflexivity|]. split; [|cbn; by apply plain_reply_ok].
    split; [left; exact (served_at_rest _ _ _ _ _ _ Hrest Hs)|].
    exact (keeps_submit fuel None (Some (submit_info_of (mg_payload m))) None true _ _ _ Hwf Hrun).
Qed.

Lemma at_rest_manager gm s : at_rest s -> at_rest (s <| ss_gm := gm |>).
Proof. intros [Q1 Q2 Q3 Q4 Q5 Q6]. by split. Qed.

Lemma answer_spec fuel m l :
  (1 <= fuel)%nat -> (forall n, SchedTypes.alloc_ok n = true) -> serving l -> request_ok m ->
  exists a l', answer fuel m l = Ret (a, l') /\ serving l' /\ message_ok (reply m a).
Proof.
  intros Hf Hal Hl Hm. destruct (decide (mg_type m = MVGAL_IPC_MSG_WORKLOAD_SUBMIT)) as [Hs|Hns]; [by apply submit_answer|].
  destruct Hl as [Hst Hwf]. pose proof Hm as [(_ & _ & Hid) _]. unfold answer. rewrite (proj2 (Z.eqb_neq (mg_type m) MVGAL_IPC_MSG_WORKLOAD_SUBMIT)) by done.
  destruct (mg_type m =? MVGAL_IPC_MSG_PING); [eexists _, l; split_and!; [reflexivity|by split|by apply plain_reply_ok]|].
  destruct (mg_type m =? MVGAL_IPC_MSG_GPU_ENUMERATE).
  { pose proof (enumerate_length _ (wf_gm _ Hwf)) as He. unfold mbind, M_bind, on_gpus, lib_manager.
    assert (Egm : (mvgal_gpu_enumerate true 16 (ss_gm (lib_sched l))).2 = ensure_gpu_manager_initialized (ss_gm (lib_sched l))) by done.
    destruct (mvgal_gpu_enumerate true 16 (ss_gm (lib_sched l))) as [[gpus count] gm]. destruct He as (Hlen & Hc & Hgm). cbn in Hlen, Hc, Hgm, Egm.
    eexists _, _. split; [reflexivity|]. split; [split|].
    - destruct Hst as [Hrest|[Hi Ha Hr]]; [left; by apply at_rest_manager|right]. split; [done..|]. subst gm.
      change (sfr_in_range (woken ((lib_sched l) <| ss_gm := ensure_gpu_manager_initialized (ss_gm (lib_sched l)) |>)) = true).
      by rewrite woken_ensured.
    - destruct Hwf. by split.
    - destruct (0 <? count); [|by apply plain_reply_ok]. split_and!; [done| |done]. cbn [reply mg_payload snd]. rewrite length_concat_gpus, Hlen.
      destruct gpu_size as [_ Hg]. unfold U32_MAX in *. nia. }
  destruct (mg_type m =? MVGAL_IPC_MSG_CONFIG_GET).
  { destruct (config_get_returns l) as (c & l' & Hrun & Hsame). exists (MVGAL_IPC_MSG_CONFIG_GET, config_bytes c), l'.
    rewrite (bind_ret _ _ _ _ _ Hrun). split; [done|]. split; [by unfold serving; rewrite Hsame|]. destruct config_size as [_ Hc].
    split_and!; [done| |done]. cbn [reply mg_payload snd]. by rewrite config_length. }
  eexists _, l. split_and!; [reflexivity|by split|by apply plain_reply_ok].
Qed.

(** At the end of the stream the loop is left. *)
Lemma end_of_stream fuel s :
  ep_input (ir_end s) = [] -> wp (handle_round fuel) (fun r s' => r = false /\ s' = s) s.
Proof.
  intros Hi. unfold handle_round. apply wp_bind. unfold read_header. apply wp_bind, wp_on_end.
  eapply wp_intro; [unfold sys_read; by rewrite Hi|]. apply wp_ret, wp_ret. split; [done|]. by destruct s.
Qed.

(** ** Every request is answered *)

Lemma answers_spec fuel ms : forall l,
  (1 <= fuel)%nat -> (forall n, SchedTypes.alloc_ok n = true) -> serving l -> Forall request_ok ms ->
  exists rs l', answers fuel ms l = Ret (rs, l') /\ serving l' /\ Forall message_ok rs /\ length rs = length ms /\
    map mg_request_id rs = map mg_request_id ms.
Proof.
  induction ms as [|m ms IH]; intros l Hf Hal Hl Hms; [by exists [], l|]. apply Forall_cons in Hms as [Hm Hms].
  destruct (answer_spec fuel m l) as (a & l1 & Ha & Hl1 & Hok); [done..|].
  destruct (IH l1) as (rs & l2 & Hrs & Hl2 & Hoks & Hlen & Hids); [done..|].
  exists (reply m a :: rs), l2. cbn [answers]. rewrite (bind_ret _ _ _ _ _ Ha), (bind_ret _ _ _ _ _ Hrs).
  split_and!; [done|done|by apply Forall_cons|cbn; by rewrite Hlen|cbn; by rewrite Hids].
Qed.

Lemma rounds_spec fuel ms : forall rounds rs l s,
  (1 <= fuel)%nat -> (forall n, SchedTypes.alloc_ok n = true) -> serving (ir_lib s) ->
  Forall request_ok ms -> (length ms < rounds)%nat -> ep_room (ir_end s) = [] -> ir_running s = [] ->
  delivers (concat (map message_parts ms)) (ep_input (ir_end s)) -> answers fuel ms (ir_lib s) = Ret (rs, l) ->
  wp (handle_rounds rounds fuel) (fun _ s' => ir_lib s' = l /\ ir_blocks s' = ir_blocks s /\
    ep_output (ir_end s') = ep_output (ir_end s) ++ concat (map message_parts rs)) s.
Proof.
  induction ms as [|m ms IH]; intros [|rounds] rs l s Hf Hal Hsv Hms Hlen Hr Hrun Hd Ha; try (cbn in Hlen; lia); cbn [handle_rounds].
  - injection Ha as <- <-. apply delivers_nothing in Hd. apply wp_bind. eapply wp_intro; [reflexivity|]. rewrite Hrun. cbn [head default negb].
    apply wp_bind. eapply wp_mono; [apply end_of_stream; exact Hd|]. intros r s' [-> ->]. apply wp_ret. cbn. by rewrite app_nil_r.
  - apply Forall_cons in Hms as [Hm Hms]. destruct (answer_spec fuel m (ir_lib s)) as (a & l1 & Ham & Hl1 & Hok); [done..|].
    cbn [answers] in Ha. rewrite (bind_ret _ _ _ _ _ Ham) in Ha. apply bind_inv in Ha as (rs' & l2 & Hrs & Ha). injection Ha as <- <-.
    apply wp_bind. eapply wp_intro; [reflexivity|]. rewrite Hrun. cbn [head default negb]. apply wp_bind.
    eapply wp_mono; [apply (round_spec fuel m a l1 (concat (map message_parts ms)))|]; [by destruct Hm|by destruct Hsv as [_ []]|done|exact Hd|exact Ham|].
    intros r s' (-> & Hl & Hr' & Hd' & Ho & Hb & Hru & _). cbn in Hru. rewrite Hrun in Hru. cbn in Hb, Ho.
    eapply wp_mono; [apply (IH rounds rs' l2 s')|]; rewrite ?Hl; try done; [cbn in Hlen; lia|].
    intros _ s2 (H2l & H2b & H2o). split_and!; [done|by rewrite H2b|]. rewrite H2o, Ho. cbn [map concat]. by rewrite <- app_assoc.
Qed.

(** C6. A client of the daemon's socket gets its answers.  The client sends any
    requests (submissions with a positive priority), the socket hands them on
    in pieces of whole parts in any grouping and takes every write whole, and
    then the client shuts down its side; memory is not short, and the receive
    buffer of the client has room for the answers.  The scheduler waits for
    work, or is still to be initialised as in a daemon that has just started,
    and then the first submission initialises it; the scores of its GPUs
    divide a frame.  The server answers every request in order by the call of
    the library that it names, releases every payload buffer and closes the
    connection, and the library can go on to serve; and receiving as many
    messages from any grouping of what the server wrote gives exactly these
    answers with the ids of the requests. *)
Theorem requests_answered fd size ms fuel rounds lib
  (Hfd : 0 <= fd) (Hms : Forall request_ok ms) (Hlen : (length ms < rounds)%nat) (Hfuel : (1 <= fuel)%nat)
  (Halloc : forall n, SchedTypes.alloc_ok n = true) (Hlib : serving lib) :
  exists sent rs lib',
    send_messages fd ms (mk_endpoint [] [] []) = Ret (map (fun _ => MVGAL_SUCCESS) ms, sent) /\
    answers fuel ms lib = Ret (rs, lib') /\ map mg_request_id rs = map mg_request_id ms /\ serving lib' /\
    forall input s,
      delivers (ep_output sent) input -> ir_end s = mk_endpoint input [] [] -> ir_running s = [] -> ir_lib s = lib ->
      wp (handle_client rounds fuel) (fun _ s' =>
        ir_lib s' = lib' /\ ir_blocks s' = ir_blocks s /\ ir_closed s' = true /\
        forall input', delivers (ep_output (ir_end s')) input' ->
          Forall (fun r => Z.of_nat (length (mg_payload r)) <= size) rs ->
          wp (receive_messages fd size (length ms)) (fun got _ =>
            got = map (fun r => (MVGAL_SUCCESS, Some (received_of r))) rs) (mk_endpoint input' [] [])) s.
Proof.
  destruct (answers_spec fuel ms lib) as (rs & lib' & Hrs & Hl & Hok & Hn & Hids); [done..|].
  assert (Hmok : Forall message_ok ms) by (eapply Forall_impl; [exact Hms|by intros m []]).
  eexists _, rs, lib'. split; [by apply send_all_spec|]. split_and!; [done..|]. cbn. intros input s Hd Hs Hrun <-.
  unfold handle_client. apply wp_bind.
  eapply wp_mono; [apply (rounds_spec fuel ms rounds rs lib' s)|]; rewrite ?Hs; try done.
  intros [] s' (Hl' & Hb & Ho). apply wp_modify. cbn in *. split_and!; [done|done|done|].
  intros input' Hd' Hsz. rewrite <- Hn. apply receive_all_spec; [done|done|done|]. cbn. by rewrite <- Ho.
Qed.
End Serving.
