(* ===== verification/UserIpcRuns.v ===== *)
(** * A connection to the daemon

    A host with two cards: a client pings the daemon, asks for the GPUs,
    submits a workload and asks for the configuration.  And what happens when
    the socket does not take a response. *)

From S2P Require Import Prelude GpuTypes GpuManager GpuHealth SchedTypes SchedSelect Strategies SfrTiling Scheduler Dispatch SchedInvariant Config Library Placement LibraryRuns UserIpc UserIpcCalls.
From stdpp Require Import strings.
Local Open Scope Z_scope.

Module Connection.
#[local] Existing Instance TwoCards.os.
#[local] Existing Instance plenty.
#[local] Existing Instance Desktop.disk.

(** Records cut down to one number. *)
#[local] Instance layout : IpcLayout := {|
  gpu_bytes g := le_bytes 4 (g_vendor_id g);
  sizeof_gpu := 4;
  config_bytes c := le_bytes 4 0;
  sizeof_config := 4;
  ipc_malloc _ := true
|}.
#[local] Instance layout_laws : IpcLayoutLaws.
Proof. split; [done| |done| |done]; split; vm_compute; (lia || done). Qed.

(** The daemon after its start: only the configuration and the socket are
    initialised. *)
Definition daemon : user_daemon :=
  match init_subsystems (mk_answers (Some 5) true true true) None (mk_udaemon (lib_config Desktop.process) ipc_server_zero) with
  | Ret (_, d) => d
  | _ => mk_udaemon (lib_config Desktop.process) ipc_server_zero
  end.
Definition lib : library := Desktop.process <| lib_config := ud_config daemon |>.

Lemma lib_serves : serving lib.
Proof.
  split; [right|exact sched_start_wf]. split; [done|exact Desktop.rotation_zero|vm_compute; reflexivity].
Qed.

Example daemon_runs :
  cs_initialized (lib_config lib) = true /\ sv_thread (ud_server daemon) = true /\ ss_initialized (lib_sched lib) = false.
Proof. vm_compute. done. Qed.

Definition workload : list Z := le_bytes 4 1 ++ le_bytes 4 50 ++ le_bytes 8 0 ++ le_bytes 4 3 ++ le_bytes 4 0 ++ le_bytes 8 0 ++ le_bytes 8 0.
Definition requests : list ipc_message :=
  [mk_message MVGAL_IPC_MSG_PING [] 1; mk_message MVGAL_IPC_MSG_GPU_ENUMERATE [] 2;
   mk_message MVGAL_IPC_MSG_WORKLOAD_SUBMIT workload 3; mk_message MVGAL_IPC_MSG_CONFIG_GET [7; 7] 4; mk_message 99 [] 5].

Lemma requests_ok : Forall request_ok requests.
Proof. repeat constructor; vm_compute; done. Qed.

(** All the bytes arrive at once. *)
Definition all_bytes : list Z := concat (concat (map message_parts requests)).
Definition server : ipc_run := mk_irun lib (mk_endpoint [Some all_bytes] [] []) [] ∅ 0 false.

Lemma piece_delivers : delivers (concat (map message_parts requests)) [Some all_bytes].
Proof.
  unfold all_bytes. rewrite <- (app_nil_r (concat (map message_parts requests))) at 1. apply delivers_piece; [done| |constructor].
  repeat constructor; vm_compute; discriminate.
Qed.

Lemma requests_answered_witness :
  exists s' rs lib', handle_client 9 1 server = Ret (tt, s') /\ ir_closed s' = true /\ ir_blocks s' = ∅ /\ ir_lib s' = lib' /\
    answers 1 requests lib = Ret (rs, lib') /\ map mg_request_id rs = [1; 2; 3; 4; 5] /\ serving lib'.
Proof.
  destruct (requests_answered 3 4096 requests 1 9 lib) as (sent & rs & lib' & Hsent & Hrs & Hids & Hsv & Hall);
    [lia|exact requests_ok|cbn; lia|lia|done|exact lib_serves|].
  destruct (wp_elim _ _ _ (Hall [Some all_bytes] server ltac:(vm_compute in Hsent; injection Hsent as <-; exact piece_delivers) eq_refl eq_refl eq_refl))
    as ([] & s' & Hrun & Hl & Hb & Hc & _).
  exists s', rs, lib'. split; [exact Hrun|]. split; [exact Hc|]. split; [exact Hb|]. split; [exact Hl|].
  split; [exact Hrs|]. split; [exact Hids|exact Hsv].
Defined.

(** The types and payloads of the answers: both GPUs and the configuration
    are sent, and a type the daemon does not know is an error. *)
Example the_answers :
  match answers 1 requests lib with
  | Ret (rs, l) => map mg_type rs = [1; 3; 5; 8; 10] /\ map (fun r => length (mg_payload r)) rs = [0; 8; 0; 4; 0]%nat
      /\ st_workloads_submitted (ss_stats (lib_sched l)) = 1
  | _ => False
  end.
Proof. vm_compute. done. Qed.

(** A response that the socket does not take is fatal when the request had a
    payload: the failed branch frees the buffer, leaves the [switch], and the
    common end frees it again. *)
Example failed_write_frees_twice :
  handle_client 9 1 (mk_irun lib
    (mk_endpoint [Some (concat (message_parts (mk_message MVGAL_IPC_MSG_CONFIG_GET [7; 7] 4)))] [] [10%nat]) [] ∅ 0 false)
  = Fault UseAfterFree.
Proof. vm_compute. reflexivity. Qed.

(** A request cut in two by the socket ends the connection unanswered. *)
Example split_header_refused :
  match handle_client 9 1 (mk_irun lib
    (mk_endpoint [Some (take 10 all_bytes); Some (drop 10 all_bytes)] [] []) [] ∅ 0 false) with
  | Ret (_, s) => ep_output (ir_end s) = [] /\ ir_closed s = true
  | _ => False
  end.
Proof. vm_compute. done. Qed.

End Connection.

(** ** Stopping the daemon *)

(** The clean-up after the stop of the server does nothing, since the stop has
    already cleared the flag it tests: the socket stays open and its file in
    place. *)
Example stopped_server_keeps_socket :
  let os := mk_answers (Some 5) true true true in
  match (mvgal_ipc_server_init os None;; mvgal_ipc_server_start os;; mvgal_ipc_server_stop;; mvgal_ipc_server_cleanup) ipc_server_zero with
  | Ret (_, s) => bool_decide (5 ∈ sv_fds s) = true /\ bool_decide (default_socket_path ∈ sv_files s) = true
  | _ => False
  end.
Proof. vm_compute. done. Qed.
