(* ===== verification/VkIcd.v ===== *)
(** * The objects of the Vulkan driver

    src/userspace/vulkan_icd/icd_entry.c with the queue families and memory
    heaps of physical_device.c: the driver that shows all GPUs to an application
    as one Vulkan device.  Each handle of the driver is the address of a record
    on the heap, and a command pool links its buffers by nodes on the heap.

    The first word of a record is a tag that tells its kind; the driver clears
    it right before it frees the record, so here the kind is the constructor.
    The tables of limits, features and properties are left out. *)

From S2P Require Import Prelude GpuTypes GpuManager SchedTypes MemTypes Config Library Api.
Local Open Scope Z_scope.

(** ** Data *)

Inductive VkResult : Type :=
| VK_SUCCESS
| VK_NOT_READY
| VK_EVENT_SET
| VK_EVENT_RESET
| VK_INCOMPLETE
| VK_ERROR_OUT_OF_HOST_MEMORY
| VK_ERROR_INITIALIZATION_FAILED
| VK_ERROR_MEMORY_MAP_FAILED.
#[export] Instance vk_result_eq_dec : EqDecision VkResult.
Proof. solve_decision. Defined.

Definition MVGAL_ICD_MAX_QUEUES : nat := 64.
Definition VK_WHOLE_SIZE : Z := U64_MAX.

Record mvgal_icd_queue_t : Type := mk_queue { vq_familyIndex : Z; vq_queueIndex : Z; vq_mvgal_queue_id : Z }.

(** The handle is the address of the record, the count of queues the length of
    the list. *)
Record mvgal_logical_device_t : Type := mk_ldevice {
  vd_queues : list mvgal_icd_queue_t;
  vd_destroyed : bool;
  vd_submitCount : Z
}.
#[export] Instance ldevice_eta : Eta mvgal_logical_device_t := fun r =>
  mk_ldevice (vd_queues r) (vd_destroyed r) (vd_submitCount r).

Record mvgal_icd_allocation_t : Type := mk_allocation {
  vm_size : Z;
  vm_memoryTypeIndex : Z;
  vm_hostPointer : option addr;
  vm_isMapped : bool;
  vm_mapOffset : Z;
  vm_mapSize : Z
}.
#[export] Instance allocation_eta : Eta mvgal_icd_allocation_t := fun r =>
  mk_allocation (vm_size r) (vm_memoryTypeIndex r) (vm_hostPointer r) (vm_isMapped r) (vm_mapOffset r) (vm_mapSize r).

Record mvgal_icd_cmdbuf_node : Type := mk_node { vn_next : option addr; vn_handle : option addr }.
#[export] Instance node_eta : Eta mvgal_icd_cmdbuf_node := fun r => mk_node (vn_next r) (vn_handle r).

Record mvgal_icd_command_pool_t : Type := mk_pool { vp_queueFamilyIndex : Z; vp_flags : Z; vp_cmdbufs : option addr }.
#[export] Instance pool_eta : Eta mvgal_icd_command_pool_t := fun r =>
  mk_pool (vp_queueFamilyIndex r) (vp_flags r) (vp_cmdbufs r).

Inductive mvgal_icd_cmdbuf_state_t : Type :=
| MVGAL_CMDBUF_INITIAL | MVGAL_CMDBUF_RECORDING | MVGAL_CMDBUF_EXECUTABLE | MVGAL_CMDBUF_INVALID.
#[export] Instance cmdbuf_state_eq_dec : EqDecision mvgal_icd_cmdbuf_state_t.
Proof. solve_decision. Defined.

Record mvgal_icd_command_buffer_t : Type := mk_cmdbuf { vc_level : Z; vc_state : mvgal_icd_cmdbuf_state_t; vc_pool : addr }.
#[export] Instance cmdbuf_eta : Eta mvgal_icd_command_buffer_t := fun r => mk_cmdbuf (vc_level r) (vc_state r) (vc_pool r).

(** What the driver has on the heap; a block is the backing store of memory. *)
Inductive icd_object : Type :=
| OMemory (m : mvgal_icd_allocation_t)
| OBlock (size : Z)
| OPool (p : mvgal_icd_command_pool_t)
| ONode (n : mvgal_icd_cmdbuf_node)
| OBuffer (c : mvgal_icd_command_buffer_t)
| OFence (signaled : bool)
| OSemaphore
| OEvent (signaled : bool)
| ODevice (d : mvgal_logical_device_t).

Inductive icd_tag : Type := MVGAL_MEM_TAG | MVGAL_POOL_TAG | MVGAL_CMDBUF_TAG | MVGAL_FENCE_TAG | MVGAL_SEM_TAG | MVGAL_EVENT_TAG.
#[export] Instance icd_tag_eq_dec : EqDecision icd_tag.
Proof. solve_decision. Defined.

(** The records without a tag begin with other data. *)
Definition object_tag (o : icd_object) : option icd_tag :=
  match o with
  | OMemory _ => Some MVGAL_MEM_TAG
  | OPool _ => Some MVGAL_POOL_TAG
  | OBuffer _ => Some MVGAL_CMDBUF_TAG
  | OFence _ => Some MVGAL_FENCE_TAG
  | OSemaphore => Some MVGAL_SEM_TAG
  | OEvent _ => Some MVGAL_EVENT_TAG
  | OBlock _ | ONode _ | ODevice _ => None
  end.

Record icd : Type := mk_icd {
  ic_heap : gmap positive icd_object;
  ic_active : option addr;
  ic_allocs : nat;
  ic_initialized : bool;
  ic_lib : library
}.
#[export] Instance icd_eta : Eta icd := fun r =>
  mk_icd (ic_heap r) (ic_active r) (ic_allocs r) (ic_initialized r) (ic_lib r).

Abbreviation VM := (M icd).

(** Whether the n-th allocation of the driver succeeds. *)
Class IcdEnv : Type := { icd_alloc : nat -> bool }.

Section Driver.
Context `{IcdEnv}.

(** ** The heap *)

Definition new_object (o : icd_object) : VM (option addr) := fun s =>
  if icd_alloc (ic_allocs s) then
    let p := fresh (dom (ic_heap s)) in
    Ret (Some p, s <| ic_allocs ::= S |> <| ic_heap ::= <[p := o]> |>)
  else Ret (None, s <| ic_allocs ::= S |>).

Definition object (p : addr) : VM icd_object := fun s =>
  match ic_heap s !! p with Some o => Ret (o, s) | None => Fault UseAfterFree end.

Definition set_object (p : addr) (o : icd_object) : VM unit := modify (fun s => s <| ic_heap ::= <[p := o]> |>).

Definition free_object (p : addr) : VM unit := object p;; modify (fun s => s <| ic_heap ::= delete p |>).

Definition free_pointer (p : option addr) : VM unit := match p with None => mret tt | Some p => free_object p end.

Definition as_memory (p : addr) : VM mvgal_icd_allocation_t :=
  o ← object p; match o with OMemory m => mret m | _ => fails WrongMember end.
Definition as_pool (p : addr) : VM mvgal_icd_command_pool_t :=
  o ← object p; match o with OPool r => mret r | _ => fails WrongMember end.
Definition as_node (p : addr) : VM mvgal_icd_cmdbuf_node :=
  o ← object p; match o with ONode n => mret n | _ => fails WrongMember end.
Definition as_buffer (p : addr) : VM mvgal_icd_command_buffer_t :=
  o ← object p; match o with OBuffer c => mret c | _ => fails WrongMember end.
Definition as_fence (p : addr) : VM bool :=
  o ← object p; match o with OFence b => mret b | _ => fails WrongMember end.
Definition as_event (p : addr) : VM bool :=
  o ← object p; match o with OEvent b => mret b | _ => fails WrongMember end.
Definition as_device (p : addr) : VM mvgal_logical_device_t :=
  o ← object p; match o with ODevice d => mret d | _ => fails WrongMember end.

Definition mvgal_icd_valid_tag (ptr : option addr) (expected_tag : icd_tag) : VM bool :=
  match ptr with
  | None => mret false
  | Some p =>
      o ← object p;
      match object_tag o with
      | Some tag => mret (bool_decide (tag = expected_tag))
      | None => fails WrongMember
      end
  end.

(** A call on a handle of a kind: [refused] for another one. *)
Definition with_handle {A : Type} (handle : option addr) (tag : icd_tag) (refused : A) (m : addr -> VM A) : VM A :=
  valid ← mvgal_icd_valid_tag handle tag;
  match handle with
  | Some p => if valid : bool then m p else mret refused
  | None => mret refused
  end.

(** ** Memory *)

(** [info]: the size and the type index, [None] for a null pointer. *)
Definition mvgal_vkAllocateMemory (info : option (Z * Z)) (pMemory : bool) : VM (VkResult * option addr) :=
  match info with
  | None => mret (VK_ERROR_INITIALIZATION_FAILED, None)
  | Some (allocationSize, memoryTypeIndex) =>
      if negb pMemory then mret (VK_ERROR_INITIALIZATION_FAILED, None) else
      alloc ← new_object (OMemory (mk_allocation allocationSize memoryTypeIndex None false 0 0));
      match alloc with
      | None => mret (VK_ERROR_OUT_OF_HOST_MEMORY, None)
      | Some p =>
          hostPointer ← new_object (OBlock allocationSize);
          match hostPointer with
          | None => if 0 <? allocationSize then free_object p;; mret (VK_ERROR_OUT_OF_HOST_MEMORY, None)
                    else mret (VK_SUCCESS, Some p)
          | Some b =>
              set_object p (OMemory (mk_allocation allocationSize memoryTypeIndex (Some b) false 0 0));;
              mret (VK_SUCCESS, Some p)
          end
      end
  end.

Definition mvgal_vkFreeMemory (memory : option addr) : VM unit :=
  with_handle memory MVGAL_MEM_TAG tt (fun p =>
    alloc ← as_memory p;
    free_pointer (vm_hostPointer alloc);; free_object p).

(** The pointer is the block and the offset in it; [None] for a null pointer
    of no block. *)
Definition mvgal_vkMapMemory (memory : option addr) (offset size : Z) (ppData : bool)
  : VM (VkResult * option (option addr * Z)) :=
  if negb ppData then mret (VK_ERROR_INITIALIZATION_FAILED, None) else
  with_handle memory MVGAL_MEM_TAG (VK_ERROR_MEMORY_MAP_FAILED, None) (fun p =>
    alloc ← as_memory p;
    if vm_size alloc <=? offset then mret (VK_ERROR_MEMORY_MAP_FAILED, None) else
    set_object p (OMemory (alloc <| vm_isMapped := true |> <| vm_mapOffset := offset |>
      <| vm_mapSize := if size =? VK_WHOLE_SIZE then u64 (vm_size alloc - offset) else size |>));;
    mret (VK_SUCCESS, Some (vm_hostPointer alloc, offset))).

Definition mvgal_vkUnmapMemory (memory : option addr) : VM unit :=
  with_handle memory MVGAL_MEM_TAG tt (fun p =>
    alloc ← as_memory p;
    set_object p (OMemory (alloc <| vm_isMapped := false |> <| vm_mapOffset := 0 |> <| vm_mapSize := 0 |>))).

Definition mvgal_vkGetDeviceMemoryCommitment (memory : option addr) (pCommitted : bool) : VM (VkResult * Z) :=
  if negb pCommitted then mret (VK_ERROR_INITIALIZATION_FAILED, 0) else
  with_handle memory MVGAL_MEM_TAG (VK_ERROR_INITIALIZATION_FAILED, 0) (fun p =>
    alloc ← as_memory p; mret (VK_SUCCESS, vm_size alloc)).

(** ** Command pools *)

(** The steps a walk over the nodes can take. *)
Definition heap_fuel : VM nat := reads (fun s => S (size (ic_heap s))).

(** [info]: the queue family and the flags. *)
Definition mvgal_vkCreateCommandPool (info : option (Z * Z)) (pCommandPool : bool) : VM (VkResult * option addr) :=
  match info with
  | None => mret (VK_ERROR_INITIALIZATION_FAILED, None)
  | Some (queueFamilyIndex, flags) =>
      if negb pCommandPool then mret (VK_ERROR_INITIALIZATION_FAILED, None) else
      pool ← new_object (OPool (mk_pool queueFamilyIndex flags None));
      match pool with
      | None => mret (VK_ERROR_OUT_OF_HOST_MEMORY, None)
      | Some p => mret (VK_SUCCESS, Some p)
      end
  end.

(** The loop that frees the nodes and their buffers. *)
Fixpoint free_nodes (fuel : nat) (node : option addr) : VM unit :=
  match fuel, node with
  | _, None => mret tt
  | O, _ => fun _ => NoFuel
  | S fuel', Some n =>
      nd ← as_node n;
      (match vn_handle nd with None => mret tt | Some cb => as_buffer cb;; free_object cb end);;
      free_object n;;
      free_nodes fuel' (vn_next nd)
  end.

Definition mvgal_vkDestroyCommandPool (commandPool : option addr) : VM unit :=
  with_handle commandPool MVGAL_POOL_TAG tt (fun p =>
    pool ← as_pool p;
    fuel ← heap_fuel;
    free_nodes fuel (vp_cmdbufs pool);;
    free_object p).

Definition set_state (cb : addr) (state : mvgal_icd_cmdbuf_state_t) : VM unit :=
  c ← as_buffer cb; set_object cb (OBuffer (c <| vc_state := state |>)).

Fixpoint reset_nodes (fuel : nat) (node : option addr) : VM unit :=
  match fuel, node with
  | _, None => mret tt
  | O, _ => fun _ => NoFuel
  | S fuel', Some n =>
      nd ← as_node n;
      (match vn_handle nd with None => mret tt | Some cb => set_state cb MVGAL_CMDBUF_INITIAL end);;
      reset_nodes fuel' (vn_next nd)
  end.

Definition mvgal_vkResetCommandPool (commandPool : option addr) : VM VkResult :=
  with_handle commandPool MVGAL_POOL_TAG VK_ERROR_INITIALIZATION_FAILED (fun p =>
    pool ← as_pool p;
    fuel ← heap_fuel;
    reset_nodes fuel (vp_cmdbufs pool);;
    mret VK_SUCCESS).

(** ** Command buffers *)

(** The buffers of the array that the call has filled so far. *)
Fixpoint free_buffers (bufs : list addr) : VM unit :=
  match bufs with
  | [] => mret tt
  | cb :: rest => as_buffer cb;; free_object cb;; free_buffers rest
  end.

(** [filled]: the entries of the array so far, in order. *)
Fixpoint allocate_buffers (count : nat) (p : addr) (level : Z) (filled : list addr) : VM (VkResult * list addr) :=
  match count with
  | O => mret (VK_SUCCESS, filled)
  | S count' =>
      cb ← new_object (OBuffer (mk_cmdbuf level MVGAL_CMDBUF_INITIAL p));
      match cb with
      | None => free_buffers filled;; mret (VK_ERROR_OUT_OF_HOST_MEMORY, [])
      | Some handle =>
          node ← new_object (ONode (mk_node None None));
          match node with
          | None => free_object handle;; free_buffers filled;; mret (VK_ERROR_OUT_OF_HOST_MEMORY, [])
          | Some n =>
              pool ← as_pool p;
              set_object n (ONode (mk_node (vp_cmdbufs pool) (Some handle)));;
              set_object p (OPool (pool <| vp_cmdbufs := Some n |>));;
              allocate_buffers count' p level (filled ++ [handle])
          end
      end
  end.

(** [info]: the pool, the level and the count.  The handles are those the
    application may use, none after a failure. *)
Definition mvgal_vkAllocateCommandBuffers (info : option (option addr * Z * Z)) (pCommandBuffers : bool)
  : VM (VkResult * list addr) :=
  match info with
  | None => mret (VK_ERROR_INITIALIZATION_FAILED, [])
  | Some (poolHandle, level, commandBufferCount) =>
      if negb pCommandBuffers then mret (VK_ERROR_INITIALIZATION_FAILED, []) else
      with_handle poolHandle MVGAL_POOL_TAG (VK_ERROR_INITIALIZATION_FAILED, []) (fun p =>
        allocate_buffers (Z.to_nat commandBufferCount) p level [])
  end.

(** Where the pointer [pp] of the walk points: the head in the pool or the
    [next] of a node. *)
Inductive link : Type := LHead (pool : addr) | LNext (node : addr).

Definition read_link (pp : link) : VM (option addr) :=
  match pp with
  | LHead p => pool ← as_pool p; mret (vp_cmdbufs pool)
  | LNext n => nd ← as_node n; mret (vn_next nd)
  end.

Definition write_link (pp : link) (v : option addr) : VM unit :=
  match pp with
  | LHead p => pool ← as_pool p; set_object p (OPool (pool <| vp_cmdbufs := v |>))
  | LNext n => nd ← as_node n; set_object n (ONode (nd <| vn_next := v |>))
  end.

Fixpoint unlink_buffer (fuel : nat) (pp : link) (handle : addr) : VM unit :=
  match fuel with
  | O => fun _ => NoFuel
  | S fuel' =>
      node ← read_link pp;
      match node with
      | None => mret tt
      | Some n =>
          nd ← as_node n;
          if bool_decide (vn_handle nd = Some handle) then write_link pp (vn_next nd);; free_object n
          else unlink_buffer fuel' (LNext n) handle
      end
  end.

Fixpoint free_command_buffers (p : addr) (handles : list (option addr)) : VM unit :=
  match handles with
  | [] => mret tt
  | handle :: rest =>
      with_handle handle MVGAL_CMDBUF_TAG tt (fun cb =>
        fuel ← heap_fuel;
        unlink_buffer fuel (LHead p) cb;;
        free_object cb);;
      free_command_buffers p rest
  end.

Definition mvgal_vkFreeCommandBuffers (commandPool : option addr) (handles : list (option addr)) : VM unit :=
  with_handle commandPool MVGAL_POOL_TAG tt (fun p => free_command_buffers p handles).

Definition mvgal_vkBeginCommandBuffer (commandBuffer : option addr) : VM VkResult :=
  with_handle commandBuffer MVGAL_CMDBUF_TAG VK_ERROR_INITIALIZATION_FAILED (fun cb =>
    set_state cb MVGAL_CMDBUF_RECORDING;; mret VK_SUCCESS).

Definition mvgal_vkEndCommandBuffer (commandBuffer : option addr) : VM VkResult :=
  with_handle commandBuffer MVGAL_CMDBUF_TAG VK_ERROR_INITIALIZATION_FAILED (fun cb =>
    c ← as_buffer cb;
    if negb (bool_decide (vc_state c = MVGAL_CMDBUF_RECORDING)) then mret VK_NOT_READY else
    set_state cb MVGAL_CMDBUF_EXECUTABLE;; mret VK_SUCCESS).

Definition mvgal_vkResetCommandBuffer (commandBuffer : option addr) : VM VkResult :=
  with_handle commandBuffer MVGAL_CMDBUF_TAG VK_ERROR_INITIALIZATION_FAILED (fun cb =>
    set_state cb MVGAL_CMDBUF_INITIAL;; mret VK_SUCCESS).

(** ** Submission, fences, semaphores, events *)

Definition mvgal_vkQueueSubmit (fence : option addr) : VM VkResult :=
  with_handle fence MVGAL_FENCE_TAG tt (fun f => set_object f (OFence true));;
  active ← reads ic_active;
  (match active with
   | None => mret tt
   | Some d =>
       dev ← as_device d;
       set_object d (ODevice (dev <| vd_submitCount ::= fun n => u64 (n + 1) |>))
   end);;
  mret VK_SUCCESS.

Definition VK_FENCE_CREATE_SIGNALED_BIT : Z := 1.

(** A record of one word and a flag at most. *)
Definition create_object (pCreateInfo pHandle : bool) (o : icd_object) : VM (VkResult * option addr) :=
  if negb pCreateInfo || negb pHandle then mret (VK_ERROR_INITIALIZATION_FAILED, None) else
  f ← new_object o;
  match f with
  | None => mret (VK_ERROR_OUT_OF_HOST_MEMORY, None)
  | Some p => mret (VK_SUCCESS, Some p)
  end.

(** [flags]: of the create info, [None] for a null pointer. *)
Definition mvgal_vkCreateFence (flags : option Z) (pFence : bool) : VM (VkResult * option addr) :=
  create_object (bool_decide (is_Some flags)) pFence
    (OFence (negb (Z.land (default 0 flags) VK_FENCE_CREATE_SIGNALED_BIT =? 0))).

Definition mvgal_vkDestroyFence (fence : option addr) : VM unit := with_handle fence MVGAL_FENCE_TAG tt free_object.

Fixpoint mvgal_vkWaitForFences (fences : list (option addr)) : VM VkResult :=
  match fences with
  | [] => mret VK_SUCCESS
  | f :: rest => mvgal_icd_valid_tag f MVGAL_FENCE_TAG;; mvgal_vkWaitForFences rest
  end.

Fixpoint mvgal_vkResetFences (fences : list (option addr)) : VM VkResult :=
  match fences with
  | [] => mret VK_SUCCESS
  | f :: rest =>
      with_handle f MVGAL_FENCE_TAG tt (fun p => set_object p (OFence false));;
      mvgal_vkResetFences rest
  end.

Definition mvgal_vkGetFenceStatus (fence : option addr) : VM VkResult :=
  with_handle fence MVGAL_FENCE_TAG VK_ERROR_INITIALIZATION_FAILED (fun p =>
    signaled ← as_fence p; mret (if signaled : bool then VK_SUCCESS else VK_NOT_READY)).

Definition mvgal_vkCreateSemaphore (pCreateInfo pSemaphore : bool) : VM (VkResult * option addr) :=
  create_object pCreateInfo pSemaphore OSemaphore.

Definition mvgal_vkDestroySemaphore (semaphore : option addr) : VM unit :=
  with_handle semaphore MVGAL_SEM_TAG tt free_object.

Definition mvgal_vkCreateEvent (pCreateInfo pEvent : bool) : VM (VkResult * option addr) :=
  create_object pCreateInfo pEvent (OEvent false).

Definition mvgal_vkDestroyEvent (event : option addr) : VM unit := with_handle event MVGAL_EVENT_TAG tt free_object.

Definition mvgal_vkGetEventStatus (event : option addr) : VM VkResult :=
  with_handle event MVGAL_EVENT_TAG VK_ERROR_INITIALIZATION_FAILED (fun p =>
    signaled ← as_event p; mret (if signaled : bool then VK_EVENT_SET else VK_EVENT_RESET)).

Definition mvgal_vkSetEvent (event : option addr) : VM VkResult :=
  with_handle event MVGAL_EVENT_TAG VK_ERROR_INITIALIZATION_FAILED (fun p =>
    set_object p (OEvent true);; mret VK_SUCCESS).

Definition mvgal_vkResetEvent (event : option addr) : VM VkResult :=
  with_handle event MVGAL_EVENT_TAG VK_ERROR_INITIALIZATION_FAILED (fun p =>
    set_object p (OEvent false);; mret VK_SUCCESS).

End Driver.

(** ** Instances, queue families and devices *)

Section Devices.
Context `{IcdEnv, GpuOS, SchedEnv, MemEnv, ConfigEnv}.

Definition on_lib {A : Type} (m : LM A) : VM A := fun s =>
  match m (ic_lib s) with
  | Ret (a, l) => Ret (a, s <| ic_lib := l |>)
  | Fault e => Fault e
  | NoFuel => NoFuel
  end.

(** The descriptors a loop over the GPUs gets, from [i] on. *)
Fixpoint gpu_descriptors (n : nat) (i : Z) : LM (list mvgal_gpu_descriptor_t) :=
  match n with
  | O => mret []
  | S n' =>
      r ← on_gpus (mvgal_gpu_get_descriptor i true);
      rest ← gpu_descriptors n' (i + 1);
      mret (match r with
            | (MVGAL_SUCCESS, Some desc) => desc :: rest
            | _ => rest
            end)
  end.

Definition VK_MEMORY_PROPERTY_DEVICE_LOCAL_BIT : Z := 1.
Definition VK_MEMORY_PROPERTY_HOST_VISIBLE_BIT : Z := 2.
Definition VK_MEMORY_HEAP_DEVICE_LOCAL_BIT : Z := 1.

(** The memory types, with their flags and the index of their heap, and the
    heaps, with their sizes and flags. *)
Definition mvgal_aggregate_memory_properties : LM (list (Z * Z) * list (Z * Z)) :=
  gpu_count ← on_gpus mvgal_gpu_get_count;
  descs ← gpu_descriptors (Z.to_nat gpu_count) 0;
  let total_vram := foldl (fun t d => u64 (t + g_vram_total d)) 0 descs in
  let total_vram := if total_vram =? 0 then 16 * 1024 * 1024 * 1024 else total_vram in
  mret ([(Z.lor VK_MEMORY_PROPERTY_DEVICE_LOCAL_BIT VK_MEMORY_PROPERTY_HOST_VISIBLE_BIT, 0);
         (VK_MEMORY_PROPERTY_DEVICE_LOCAL_BIT, 0)],
        [(total_vram, VK_MEMORY_HEAP_DEVICE_LOCAL_BIT)]).

Definition has_feature (f : Z) (d : mvgal_gpu_descriptor_t) : bool := negb (Z.land (g_features d) f =? 0).

Definition gpus_with (f : Z) (descs : list mvgal_gpu_descriptor_t) : Z :=
  foldl (fun n d => if has_feature f d then u32 (n + 1) else n) 0 descs.

Definition VK_QUEUE_GRAPHICS_BIT : Z := 1.
Definition VK_QUEUE_COMPUTE_BIT : Z := 2.
Definition VK_QUEUE_TRANSFER_BIT : Z := 4.

(** The flags and the count of queues of each family. *)
Definition queue_families (gpu_count : Z) (descs : list mvgal_gpu_descriptor_t) : list (Z * Z) :=
  let graphics_gpus := gpus_with MVGAL_FEATURE_GRAPHICS descs in
  let compute_gpus := gpus_with MVGAL_FEATURE_COMPUTE descs in
  let fallback := (gpu_count =? 0) || ((graphics_gpus =? 0) && (compute_gpus =? 0)) in
  let graphics_gpus := if fallback then 1 else graphics_gpus in
  let compute_gpus := if fallback then 1 else compute_gpus in
  let transfer_gpus := if fallback then 1 else gpu_count in
  let gfx_queues := if u32 (graphics_gpus * 2) <? 16 then u32 (graphics_gpus * 2) else 16 in
  let compute_queues := if u32 (compute_gpus * 4) <? 16 then u32 (compute_gpus * 4) else 16 in
  let transfer_queues := if transfer_gpus <? 8 then transfer_gpus else 8 in
  let at_least_one n := if n =? 0 then 1 else n in
  [ (Z.lor (Z.lor VK_QUEUE_GRAPHICS_BIT VK_QUEUE_COMPUTE_BIT) VK_QUEUE_TRANSFER_BIT, at_least_one gfx_queues);
    (Z.lor VK_QUEUE_COMPUTE_BIT VK_QUEUE_TRANSFER_BIT, at_least_one compute_queues);
    (VK_QUEUE_TRANSFER_BIT, at_least_one transfer_queues) ].

(** [pCount]: the count stored there, [None] for a null pointer.  The result is
    the count stored and the families written to the array. *)
Definition mvgal_get_queue_family_properties (pCount : option Z) (pProperties : bool)
  : LM (option Z * list (Z * Z)) :=
  match pCount with
  | None => mret (None, [])
  | Some given =>
      gpu_count ← on_gpus mvgal_gpu_get_count;
      let gpu_count := if gpu_count <? 0 then 0 else gpu_count in
      descs ← gpu_descriptors (Z.to_nat gpu_count) 0;
      if negb pProperties || (given <? 3) then mret (Some 3, [])
      else mret (Some 3, queue_families gpu_count descs)
  end.

Definition mvgal_get_real_gpu_count : LM Z :=
  count ← on_gpus mvgal_gpu_get_count; mret (if 0 <? count then count else 0).

(** The names, numbers and features of the device that are filled in here are
    constants; the last loop over the GPUs has no effect on them. *)
Definition mvgal_vkCreateInstance (pInstance : bool) : VM (VkResult * option (list (Z * Z) * list (Z * Z))) :=
  if negb pInstance then mret (VK_ERROR_INITIALIZATION_FAILED, None) else
  err ← on_lib (mvgal_init 0);
  if negb (bool_decide (err = MVGAL_SUCCESS)) then mret (VK_ERROR_INITIALIZATION_FAILED, None) else
  modify (fun s => s <| ic_initialized := true |>);;
  memoryProperties ← on_lib mvgal_aggregate_memory_properties;
  on_lib (gpu_count ← on_gpus mvgal_gpu_get_count; gpu_descriptors (Z.to_nat gpu_count) 0);;
  mret (VK_SUCCESS, Some memoryProperties).

Definition vkDestroyInstance : VM unit :=
  on_lib mvgal_shutdown;; modify (fun s => s <| ic_initialized := false |>).

(** The count stored and whether the one device is written. *)
Definition mvgal_vkEnumeratePhysicalDevices (pCount : option Z) (pPhysicalDevices : bool) : VkResult * option Z * bool :=
  match pCount with
  | None => (VK_ERROR_INITIALIZATION_FAILED, None, false)
  | Some n =>
      if negb pPhysicalDevices then (VK_SUCCESS, Some 1, false)
      else if n <? 1 then (VK_INCOMPLETE, Some n, false)
      else (VK_SUCCESS, Some 1, true)
  end.

(** The loop over the queues of one create info: [used] is the count of the
    queues each family has so far. *)
Fixpoint assign_queues (n : nat) (family : nat) (queues : list mvgal_icd_queue_t) (used : list Z)
  : list mvgal_icd_queue_t * list Z :=
  match n with
  | O => (queues, used)
  | S n' =>
      if Nat.ltb (length queues) MVGAL_ICD_MAX_QUEUES then
        let q := used !!! family in
        assign_queues n' family (queues ++ [mk_queue (Z.of_nat family) q U32_MAX]) (<[family := u32 (q + 1)]> used)
      else (queues, used)
  end.

(** The loop over the create infos; [None] for one that is not valid.  [used] is
    [None] when its allocation failed. *)
Fixpoint create_queues (infos : list (Z * Z)) (familyCount : Z) (families : option (list (Z * Z)))
  (queues : list mvgal_icd_queue_t) (used : option (list Z)) : VM (option (list mvgal_icd_queue_t)) :=
  match infos with
  | [] => mret (Some queues)
  | (queueFamilyIndex, queueCount) :: rest =>
      if familyCount <=? queueFamilyIndex then mret None else
      let family := Z.to_nat queueFamilyIndex in
      let max_queues := match families with Some fs => (fs !!! family).2 | None => 4 end in
      if max_queues <? queueCount then mret None else
      match used with
      | None =>
          if (0 <? queueCount) && Nat.ltb (length queues) MVGAL_ICD_MAX_QUEUES then fails NullDeref
          else create_queues rest familyCount families queues None
      | Some u =>
          let '(queues, u) := assign_queues (Z.to_nat queueCount) family queues u in
          create_queues rest familyCount families queues (Some u)
      end
  end.

(** The device with its queues, once the families are known; [table] and
    [used_per_family] are freed on every path. *)
Definition make_device (infos : list (Z * Z)) (familyCount : Z) (table : option addr) (families : option (list (Z * Z)))
  : VM (VkResult * option addr) :=
  dev ← new_object (ODevice (mk_ldevice [] false 0));
  match dev with
  | None => free_pointer table;; mret (VK_ERROR_OUT_OF_HOST_MEMORY, None)
  | Some d =>
      used_per_family ← new_object (OBlock (familyCount * 4));
      queues ← create_queues infos familyCount families []
                 (match used_per_family with Some _ => Some (replicate (Z.to_nat familyCount) 0) | None => None end);
      match queues with
      | None =>
          free_pointer table;; free_pointer used_per_family;; free_object d;;
          mret (VK_ERROR_INITIALIZATION_FAILED, None)
      | Some queues =>
          set_object d (ODevice (mk_ldevice queues false 0));;
          modify (fun s => s <| ic_active := Some d |>);;
          free_pointer table;; free_pointer used_per_family;;
          mret (VK_SUCCESS, Some d)
      end
  end.

(** [infos]: the family and the count of each queue create info, [None] for a
    null pointer. *)
Definition mvgal_vkCreateDevice (is_virtual : bool) (infos : option (list (Z * Z))) (pDevice : bool)
  : VM (VkResult * option addr) :=
  match infos with
  | None => mret (VK_ERROR_INITIALIZATION_FAILED, None)
  | Some infos =>
      if negb pDevice then mret (VK_ERROR_INITIALIZATION_FAILED, None) else
      if negb is_virtual then mret (VK_ERROR_INITIALIZATION_FAILED, None) else
      counted ← on_lib (mvgal_get_queue_family_properties (Some 0) false);
      let familyCount := default 0 counted.1 in
      table ← new_object (OBlock (familyCount * 24));
      families ← match table with
                 | None => mret None
                 | Some _ => r ← on_lib (mvgal_get_queue_family_properties (Some familyCount) true); mret (Some r.2)
                 end;
      make_device infos familyCount table families
  end.

Definition mvgal_vkDestroyDevice (device : option addr) : VM unit :=
  match device with
  | None => mret tt
  | Some d =>
      dev ← as_device d;
      if vd_destroyed dev then mret tt else free_object d
  end.

(** The position of a queue in the table. *)
Fixpoint find_queue (i : Z) (family index : Z) (queues : list mvgal_icd_queue_t) : option Z :=
  match queues with
  | [] => None
  | q :: rest =>
      if (vq_familyIndex q =? family) && (vq_queueIndex q =? index) then Some (i + 1)
      else find_queue (i + 1) family index rest
  end.

(** [None] is the null handle. *)
Definition mvgal_vkGetDeviceQueue (device : option addr) (queueFamilyIndex queueIndex : Z) (pQueue : bool)
  : VM (option Z) :=
  if negb pQueue then mret None else
  match device with
  | None => mret None
  | Some d =>
      dev ← as_device d;
      if vd_destroyed dev then mret None
      else mret (find_queue 0 queueFamilyIndex queueIndex (vd_queues dev))
  end.

Definition mvgal_vkGetDeviceQueue2 (device : option addr) (pQueueInfo : option (Z * Z)) (pQueue : bool)
  : VM (VkResult * option Z) :=
  match pQueueInfo with
  | None => mret (VK_ERROR_INITIALIZATION_FAILED, None)
  | Some (family, index) =>
      if negb pQueue then mret (VK_ERROR_INITIALIZATION_FAILED, None) else
      q ← mvgal_vkGetDeviceQueue device family index pQueue;
      mret (match q with Some _ => VK_SUCCESS | None => VK_ERROR_INITIALIZATION_FAILED end, q)
  end.

Definition mvgal_vkDeviceWaitIdle : VM VkResult :=
  ctx ← on_lib mvgal_context_get_current;
  (match ctx with None => mret tt | Some _ => on_lib mvgal_wait_idle;; mret tt end);;
  mret VK_SUCCESS.

Definition mvgal_vkQueueWaitIdle : VM VkResult :=
  ctx ← on_lib mvgal_context_get_current;
  (match ctx with None => mret tt | Some _ => on_lib mvgal_wait_idle;; mret tt end);;
  mret VK_SUCCESS.

End Devices.
