(* ===== verification/VkHeap.v ===== *)
(** * The heap of the Vulkan driver

    The part of the heap of [VkIcd] that its own pointers make up: the blocks
    behind memory objects and the lists that tie command buffers to pools.
    [heap_ok] says that these are well formed and that nothing else is on the
    heap, and the lemmas give what each change of the pointers does to it. *)

From S2P Require Import Prelude GpuTypes GpuManager SchedTypes MemTypes Config Library Api VkIcd.
Local Open Scope Z_scope.

(** ** Pointers *)

Inductive skeleton : Type :=
| KMemory (host : option addr) (size : Z)
| KBlock
| KPool (head : option addr)
| KNode (next handle : option addr)
| KBuffer (pool : addr).

Definition skeleton_of (o : icd_object) : option skeleton :=
  match o with
  | OMemory m => Some (KMemory (vm_hostPointer m) (vm_size m))
  | OBlock _ => Some KBlock
  | OPool p => Some (KPool (vp_cmdbufs p))
  | ONode n => Some (KNode (vn_next n) (vn_handle n))
  | OBuffer c => Some (KBuffer (vc_pool c))
  | OFence _ | OSemaphore | OEvent _ | ODevice _ => None
  end.

Abbreviation skel := (gmap positive skeleton).

Definition skeletons (h : gmap positive icd_object) : skel := omap skeleton_of h.

(** The nodes of a list with the buffers they stand for. *)
Fixpoint chain (K : skel) (start : option addr) (ns : list (addr * addr)) : Prop :=
  match ns with
  | [] => start = None
  | (n, cb) :: rest => start = Some n /\ exists next, K !! n = Some (KNode next (Some cb)) /\ chain K next rest
  end.

(** The list of pool [p] has exactly the buffers of [p], each once. *)
Definition pool_list (K : skel) (p : addr) (head : option addr) (ns : list (addr * addr)) : Prop :=
  chain K head ns /\ NoDup ns.*2 /\ forall cb, cb ∈ ns.*2 <-> K !! cb = Some (KBuffer p).

Record lists_ok (K : skel) : Prop := {
  lo_pools : forall p head, K !! p = Some (KPool head) -> exists ns, pool_list K p head ns;
  lo_nodes : forall n next handle, K !! n = Some (KNode next handle) ->
    exists p head ns, K !! p = Some (KPool head) /\ pool_list K p head ns /\ n ∈ ns.*1;
  lo_buffers : forall cb p, K !! cb = Some (KBuffer p) -> exists head, K !! p = Some (KPool head)
}.

(** Every block belongs to one memory object, which has it for its pointer. *)
Record blocks_ok (K : skel) : Prop := {
  bo_blocks : forall b, K !! b = Some KBlock -> exists m size, K !! m = Some (KMemory (Some b) size);
  bo_memory : forall m b size, K !! m = Some (KMemory (Some b) size) -> K !! b = Some KBlock;
  bo_null : forall m size, K !! m = Some (KMemory None size) -> size <= 0;
  bo_inj : forall m m' b size size', K !! m = Some (KMemory (Some b) size) -> K !! m' = Some (KMemory (Some b) size') -> m = m'
}.

Definition heap_ok (h : gmap positive icd_object) : Prop := lists_ok (skeletons h) /\ blocks_ok (skeletons h).

(** ** Chains *)

Lemma chain_frame K K' start ns :
  (forall n, n ∈ ns.*1 -> K' !! n = K !! n) -> chain K start ns -> chain K' start ns.
Proof.
  revert start. induction ns as [|[n cb] ns IH]; [done|]. intros start Hf (-> & next & Hn & Hc).
  split; [done|]. exists next. rewrite Hf by (cbn; set_solver). split; [done|]. apply IH; [|done]. cbn in Hf. set_solver.
Qed.

Lemma chain_node K start ns n : chain K start ns -> n ∈ ns.*1 ->
  exists next cb, K !! n = Some (KNode next (Some cb)) /\ (n, cb) ∈ ns.
Proof.
  revert start. induction ns as [|[n' cb] ns IH]; intros start Hc Hin; [by apply elem_of_nil in Hin|].
  destruct Hc as (-> & next & Hn & Hc). cbn in Hin. apply elem_of_cons in Hin as [->|Hin].
  - exists next, cb. split; [done|left].
  - destruct (IH _ Hc Hin) as (next' & cb' & ? & ?). exists next', cb'. split; [done|by right].
Qed.

Lemma chain_pair K start ns n cb : chain K start ns -> (n, cb) ∈ ns -> exists next, K !! n = Some (KNode next (Some cb)).
Proof.
  revert start. induction ns as [|[n' cb'] ns IH]; intros start Hc Hin; [by apply elem_of_nil in Hin|].
  destruct Hc as (-> & next & Hn & Hc). apply elem_of_cons in Hin as [[= -> ->]|Hin]; [eauto|by eapply IH].
Qed.

(** Distinct buffers make distinct nodes. *)
Lemma chain_nodup K start ns : chain K start ns -> NoDup ns.*2 -> NoDup ns.*1.
Proof.
  revert start. induction ns as [|[n cb] ns IH]; intros start Hc Hnd; [constructor|].
  destruct Hc as (-> & next & Hn & Hc). cbn in *. apply NoDup_cons in Hnd as [Hcb Hnd].
  constructor; [|by eapply IH]. intros Hin. destruct (chain_node _ _ _ _ Hc Hin) as (next' & cb' & Hn' & Hp).
  rewrite Hn in Hn'. injection Hn' as _ <-. apply Hcb, list_elem_of_fmap. by exists (n, cb).
Qed.

Lemma chain_fun K start ns ns' : chain K start ns -> chain K start ns' -> ns = ns'.
Proof.
  revert start ns'. induction ns as [|[n cb] ns IH]; intros start [|[n' cb'] ns'] Hc Hc'; cbn in *; try naive_solver.
Qed.

(** The nodes of two pools are different. *)
Lemma pools_apart K p p' head head' ns ns' n :
  pool_list K p head ns -> pool_list K p' head' ns' -> n ∈ ns.*1 -> n ∈ ns'.*1 -> p = p'.
Proof.
  intros (Hc & _ & Hb) (Hc' & _ & Hb') Hn Hn'.
  destruct (chain_node _ _ _ _ Hc Hn) as (next & cb & E & Hin), (chain_node _ _ _ _ Hc' Hn') as (next' & cb' & E' & Hin').
  rewrite E in E'. injection E' as <- <-.
  assert (K !! cb = Some (KBuffer p)) as E1 by (apply Hb, list_elem_of_fmap; by exists (n, cb)).
  assert (K !! cb = Some (KBuffer p')) as E2 by (apply Hb', list_elem_of_fmap; by exists (n, cb)). congruence.
Qed.

(** A list that meets no changed address stays the list of its pool. *)
Lemma pool_list_frame K K' p head ns :
  (forall n, n ∈ ns.*1 -> K' !! n = K !! n) -> (forall cb, K' !! cb = Some (KBuffer p) <-> K !! cb = Some (KBuffer p)) ->
  pool_list K p head ns -> pool_list K' p head ns.
Proof.
  intros Hn Hb (Hc & Hnd & Hin). split; [by eapply chain_frame|]. split; [done|]. intros cb. by rewrite Hb.
Qed.

(** ** Changes of the lists *)

(** An address of another kind appears. *)
Lemma lists_ok_insert K p k :
  K !! p = None -> match k with KMemory _ _ | KBlock => True | _ => False end -> lists_ok K -> lists_ok (<[p := k]> K).
Proof.
  intros Hp Hk [H1 H2 H3].
  assert (forall q head ns, pool_list K q head ns -> pool_list (<[p := k]> K) q head ns) as Hf.
  { intros q head ns Hl. eapply pool_list_frame; [| |exact Hl].
    - intros n Hn. destruct Hl as (Hc & _). destruct (chain_node _ _ _ _ Hc Hn) as (? & ? & E & _).
      by rewrite lookup_insert_ne by congruence.
    - intros cb. rewrite lookup_insert_Some. destruct k; naive_solver. }
  split.
  - intros q head. rewrite lookup_insert_Some. intros [[-> ->]|[_ Hq]]; [done|]. naive_solver.
  - intros n next handle. rewrite lookup_insert_Some. intros [[-> ->]|[_ Hn]]; [done|].
    destruct (H2 _ _ _ Hn) as (q & head & ns & Hq & Hl & Hin). exists q, head, ns.
    rewrite lookup_insert_ne by congruence. auto.
  - intros cb q. rewrite lookup_insert_Some. intros [[-> ->]|[_ Hcb]]; [done|].
    destruct (H3 _ _ Hcb) as [head Hq]. exists head. by rewrite lookup_insert_ne by congruence.
Qed.

(** An address outside the lists goes away. *)
Lemma lists_ok_delete K p k :
  K !! p = Some k -> match k with KMemory _ _ | KBlock => True | _ => False end -> lists_ok K -> lists_ok (delete p K).
Proof.
  intros Hp Hk [H1 H2 H3].
  assert (forall q head ns, pool_list K q head ns -> pool_list (delete p K) q head ns) as Hf.
  { intros q head ns Hl. eapply pool_list_frame; [| |exact Hl].
    - intros n Hn. destruct Hl as (Hc & _). destruct (chain_node _ _ _ _ Hc Hn) as (? & ? & E & _).
      rewrite lookup_delete_ne; [done|]. intros <-. rewrite Hp in E. injection E as ->. done.
    - intros cb. rewrite lookup_delete_Some. split; [naive_solver|]. intros E. split; [|done]. intros <-.
      rewrite Hp in E. injection E as ->. done. }
  split.
  - intros q head. rewrite lookup_delete_Some. naive_solver.
  - intros n next handle. rewrite lookup_delete_Some. intros [_ Hn].
    destruct (H2 _ _ _ Hn) as (q & head & ns & Hq & Hl & Hin). exists q, head, ns.
    rewrite lookup_delete_ne; [auto|]. intros <-. rewrite Hp in Hq. injection Hq as ->. done.
  - intros cb q. rewrite lookup_delete_Some. intros [_ Hcb]. destruct (H3 _ _ Hcb) as [head Hq]. exists head.
    rewrite lookup_delete_ne; [done|]. intros <-. rewrite Hp in Hq. injection Hq as ->. done.
Qed.

(** The list of [p], which is empty when there is no such pool. *)
Definition list_of (K : skel) (p : addr) (ns : list (addr * addr)) : Prop :=
  (K !! p = None /\ ns = [] /\ forall cb, K !! cb <> Some (KBuffer p)) \/
  exists head, K !! p = Some (KPool head) /\ pool_list K p head ns.

(** A change that touches pool [p], its nodes, its buffers and free addresses
    only keeps the other lists. *)
Record local_change (K K' : skel) (p : addr) (ns ns' : list (addr * addr)) : Prop := {
  lc_old : list_of K p ns;
  lc_new : list_of K' p ns';
  lc_frame : forall a, K' !! a = K !! a \/ a = p \/ K !! a = None \/ a ∈ ns.*1 \/ K !! a = Some (KBuffer p);
  lc_buffers : forall a q, q <> p -> K' !! a = Some (KBuffer q) -> K !! a = Some (KBuffer q);
  lc_pools : forall q head, q <> p -> K' !! q = Some (KPool head) -> K !! q = Some (KPool head);
  lc_nodes : forall n next handle, K' !! n = Some (KNode next handle) ->
    n ∈ ns'.*1 \/ K !! n = Some (KNode next handle) /\ n ∉ ns.*1
}.

Section LocalChange.
Context (K K' : skel) (p : addr) (ns ns' : list (addr * addr)) (Hl : local_change K K' p ns ns') (HK : lists_ok K).

Lemma change_p k : K !! p = Some k -> exists head, k = KPool head /\ pool_list K p head ns.
Proof using Hl. intros E. destruct (lc_old _ _ _ _ _ Hl) as [(E' & _)|(head & E' & ?)]; rewrite E in E'; naive_solver. Qed.

Lemma change_node n : n ∈ ns.*1 -> exists next cb, K !! n = Some (KNode next (Some cb)).
Proof using Hl.
  intros Hn. destruct (lc_old _ _ _ _ _ Hl) as [(_ & -> & _)|(head & _ & Hc & _)]; [by apply elem_of_nil in Hn|].
  destruct (chain_node _ _ _ _ Hc Hn) as (next & cb & ? & _). eauto.
Qed.

(** What is kept of the rest. *)
Lemma change_keeps q k :
  q <> p -> K !! q = Some k -> match k with KBuffer p' => p' <> p | KNode _ _ => q ∉ ns.*1 | _ => True end ->
  K' !! q = Some k.
Proof using Hl.
  intros Hq E Hk. destruct (lc_frame _ _ _ _ _ Hl q) as [->|[?|[?|[Hn|?]]]]; [done|done|congruence| |].
  - destruct (change_node _ Hn) as (? & ? & E'). rewrite E in E'. injection E' as ->. done.
  - assert (k = KBuffer p) as -> by congruence. done.
Qed.

Lemma change_other q head l :
  q <> p -> K !! q = Some (KPool head) -> pool_list K q head l -> pool_list K' q head l.
Proof using Hl HK.
  intros Hq E Hpl. eapply pool_list_frame; [| |exact Hpl].
  - intros n Hn. destruct (chain_node _ _ _ _ (proj1 Hpl) Hn) as (next & cb & En & _). rewrite En.
    assert (n <> p) by (intros ->; destruct (change_p _ En) as (? & [=] & _)).
    apply change_keeps; [done|done|]. intros Hn'.
    destruct (lc_old _ _ _ _ _ Hl) as [(_ & -> & _)|(head' & _ & Hpl')]; [by apply elem_of_nil in Hn'|].
    exact (Hq (pools_apart _ _ _ _ _ _ _ _ Hpl Hpl' Hn Hn')).
  - intros cb. split; [by apply (lc_buffers _ _ _ _ _ Hl)|]. intros Ecb. apply change_keeps; [|done|done].
    intros ->. destruct (change_p _ Ecb) as (? & [=] & _).
Qed.

Lemma lists_ok_local : lists_ok K'.
Proof using Hl HK.
  destruct HK as [H1 H2 H3]. split.
  - intros q head Eq. destruct (decide (q = p)) as [->|Hq].
    + destruct (lc_new _ _ _ _ _ Hl) as [(E & _)|(head' & E & ?)]; rewrite Eq in E; naive_solver.
    + pose proof (lc_pools _ _ _ _ _ Hl _ _ Hq Eq) as E. destruct (H1 _ _ E) as [l Hpl]. exists l. by apply change_other.
  - intros n next handle En. destruct (lc_nodes _ _ _ _ _ Hl _ _ _ En) as [Hin|[E Hni]].
    + destruct (lc_new _ _ _ _ _ Hl) as [(_ & -> & _)|(head' & E & ?)]; [by apply elem_of_nil in Hin|eauto 6].
    + destruct (H2 _ _ _ E) as (q & head & l & Eq & Hpl & Hin). destruct (decide (q = p)) as [->|Hq].
      * destruct (change_p _ Eq) as (? & [= <-] & Hpl'). by rewrite (chain_fun _ _ _ _ (proj1 Hpl) (proj1 Hpl')) in Hin.
      * exists q, head, l. split; [by apply change_keeps|]. split; [by apply change_other|done].
  - intros cb q Ecb. destruct (decide (q = p)) as [->|Hq].
    + destruct (lc_new _ _ _ _ _ Hl) as [(_ & _ & E)|(head' & E & ?)]; [by destruct (E cb)|eauto].
    + destruct (H3 _ _ (lc_buffers _ _ _ _ _ Hl _ _ Hq Ecb)) as [head Eq]. exists head. by apply change_keeps.
Qed.
End LocalChange.

(** ** Creating pools and buffers *)

Lemma pool_created K p : K !! p = None -> lists_ok K -> lists_ok (<[p := KPool None]> K).
Proof.
  intros Hp HK. assert (forall cb, K !! cb <> Some (KBuffer p)) as Hb.
  { intros cb E. destruct (lo_buffers _ HK _ _ E) as [head E']. congruence. }
  apply (lists_ok_local K _ p [] []); [|done]. split.
  - by left.
  - right. exists None. rewrite lookup_insert_eq. split; [done|]. split; [done|]. split; [constructor|]. intros cb.
    rewrite lookup_insert_Some. split; [by intros ?%elem_of_nil|]. intros [[_ [=]]|[_ E]]. by destruct (Hb cb).
  - intros a. destruct (decide (a = p)); [auto|]. left. by rewrite lookup_insert_ne.
  - intros a q _. rewrite lookup_insert_Some. naive_solver.
  - intros q head Hq. by rewrite lookup_insert_ne.
  - intros n next handle. rewrite lookup_insert_Some. intros [[_ [=]]|[_ E]]. right. split; [done|apply not_elem_of_nil].
Qed.

Lemma buffer_created K p head ns cb n :
  K !! p = Some (KPool head) -> pool_list K p head ns -> K !! cb = None -> K !! n = None -> n <> cb -> lists_ok K ->
  lists_ok (<[p := KPool (Some n)]> (<[n := KNode head (Some cb)]> (<[cb := KBuffer p]> K))).
Proof.
  intros Hp Hpl Hcb Hn Hne HK. assert (n <> p /\ cb <> p) as [Hnp Hcp] by (split; congruence).
  destruct Hpl as (Hc & Hnd & Hb). assert (forall m, m ∈ ns.*1 -> m <> p /\ m <> n /\ m <> cb) as Hns.
  { intros m Hm. destruct (chain_node _ _ _ _ Hc Hm) as (? & ? & E & _). repeat split; congruence. }
  apply (lists_ok_local K _ p ns ((n, cb) :: ns)); [|done]. split.
  - right. by exists head.
  - right. exists (Some n). rewrite lookup_insert_eq. split; [done|]. split; [|split].
    + split; [done|]. exists head. rewrite lookup_insert_ne by done. rewrite lookup_insert_eq. split; [done|].
      eapply chain_frame, Hc. intros m (? & ? & ?)%Hns. by rewrite !lookup_insert_ne.
    + cbn. constructor; [|done]. rewrite Hb. congruence.
    + intros a. cbn. rewrite elem_of_cons, Hb, !lookup_insert_Some. split.
      * intros [->|E]; [naive_solver|]. right. split; [congruence|]. right. split; [congruence|]. naive_solver.
      * naive_solver.
  - intros a. destruct (decide (a = p)), (decide (a = n)), (decide (a = cb)); subst; auto.
    left. by rewrite !lookup_insert_ne.
  - intros a q Hq. rewrite !lookup_insert_Some. naive_solver.
  - intros q hd Hq. rewrite !lookup_insert_Some. naive_solver.
  - intros m next handle. rewrite !lookup_insert_Some. cbn. rewrite elem_of_cons.
    intros [[_ [=]]|[Hm [[<- _]|[Hm' [[_ [=]]|[_ E]]]]]]; [by left; left|].
    destruct (decide (m ∈ ns.*1)); [by left; right|by right].
Qed.

(** ** Removing buffers and pools *)

(** The node [n] of the buffer [cb] is out of the list, and both are gone. *)
Lemma buffer_removed K K' p head head' l1 n cb l2 :
  K !! p = Some (KPool head) -> pool_list K p head (l1 ++ (n, cb) :: l2) -> K' !! p = Some (KPool head') ->
  chain K' head' (l1 ++ l2) -> K' !! n = None -> K' !! cb = None ->
  (forall a, a <> n -> a <> cb -> a <> p -> a ∉ l1.*1 -> K' !! a = K !! a) -> lists_ok K -> lists_ok K'.
Proof.
  intros Hp Hpl Hp' Hc' Hn Hcb Hf HK. pose proof Hpl as (Hc & Hnd & Hb).
  pose proof (chain_nodup _ _ _ Hc Hnd) as Hnn. rewrite !fmap_app, !fmap_cons in *. cbn in *.
  assert (forall m, m ∈ l1.*1 -> exists next c, K' !! m = Some (KNode next (Some c))) as Hl1.
  { intros m Hm. destruct (chain_node _ _ _ m Hc') as (? & ? & ? & _); [rewrite fmap_app; set_solver|eauto]. }
  assert (forall m, m ∈ l1.*1 -> exists next c, K !! m = Some (KNode next (Some c))) as Hl1'.
  { intros m Hm. destruct (chain_node _ _ _ m Hc) as (? & ? & ? & _); [rewrite fmap_app; set_solver|eauto]. }
  assert (K !! cb = Some (KBuffer p)) as Ecb by (apply Hb; set_solver).
  assert (forall a q, K' !! a = Some (KBuffer q) <-> K !! a = Some (KBuffer q) /\ a <> cb) as Hbuf.
  { intros a q. destruct (decide (a = cb)) as [->|]; [naive_solver|]. destruct (decide (a = p)) as [->|]; [naive_solver|].
    destruct (decide (a ∈ l1.*1)) as [Ha|]; [destruct (Hl1 _ Ha) as (? & ? & ->), (Hl1' _ Ha) as (? & ? & ->); naive_solver|].
    destruct (decide (a = n)) as [->|]; [|rewrite Hf by done; naive_solver].
    destruct (chain_pair _ _ _ n cb Hc) as [? E]; [set_solver|]. naive_solver. }
  apply (lists_ok_local K K' p (l1 ++ (n, cb) :: l2) (l1 ++ l2)); [|done]. split.
  - right. by exists head.
  - right. exists head'. split; [done|]. split; [done|]. rewrite fmap_app.
    split; [by eapply (sublist_NoDup _ (l1.*2 ++ cb :: l2.*2)); [|apply sublist_app; [done|by apply sublist_cons]]|].
    intros a. rewrite Hbuf, <- Hb, !elem_of_app, elem_of_cons. split; [|naive_solver]. intros Ha. split; [naive_solver|].
    intros ->. apply NoDup_app in Hnd as (_ & Hd & [Hd2 _]%NoDup_cons). destruct Ha as [Ha|Ha]; [|done].
    apply (Hd cb Ha). left.
  - intros a. rewrite fmap_app, fmap_cons. cbn. destruct (decide (a = p)); [auto|].
    destruct (decide (a = n)) as [->|]; [right; right; right; left; set_solver|].
    destruct (decide (a = cb)) as [->|]; [by right; right; right; right|].
    destruct (decide (a ∈ l1.*1)); [right; right; right; left; set_solver|left; by apply Hf].
  - intros a q _ [? _]%Hbuf. done.
  - intros q hd Hq E. destruct (decide (q = n)); [congruence|]. destruct (decide (q = cb)); [congruence|].
    destruct (decide (q ∈ l1.*1)) as [Ha|]; [destruct (Hl1 _ Ha) as (? & ? & ?); congruence|]. by rewrite <- Hf.
  - intros m next handle E. destruct (decide (m ∈ (l1 ++ l2).*1)) as [|Hm]; [by left|right].
    rewrite !fmap_app, !fmap_cons in *. cbn. assert (m <> n) by congruence. assert (m <> cb) by congruence.
    assert (m <> p) by congruence. rewrite <- Hf by (try done; set_solver). split; [done|set_solver].
Qed.

Lemma pool_removed K K' p head ns :
  K !! p = Some (KPool head) -> pool_list K p head ns ->
  (forall a, K' !! a = if decide (a = p \/ a ∈ ns.*1 \/ a ∈ ns.*2) then None else K !! a) -> lists_ok K -> lists_ok K'.
Proof.
  intros Hp Hpl Hf HK. pose proof Hpl as (Hc & Hnd & Hb).
  assert (forall a k, K' !! a = Some k -> K !! a = Some k /\ a <> p /\ a ∉ ns.*1 /\ a ∉ ns.*2) as Hs.
  { intros a k. rewrite Hf. case_decide; naive_solver. }
  apply (lists_ok_local K K' p ns []); [|done]. split.
  - right. by exists head.
  - left. rewrite Hf, decide_True by auto. split; [done|]. split; [done|]. intros cb (E & _ & _ & Hn)%Hs. by rewrite Hb in Hn.
  - intros a. rewrite Hf. case_decide as Ha; [|by left]. right. rewrite <- Hb. naive_solver.
  - intros a q _ [? _]%Hs. done.
  - intros q hd _ [? _]%Hs. done.
  - intros n next handle (? & _ & ? & _)%Hs. by right.
Qed.

(** ** Memory *)

Definition of_memory (k : skeleton) : bool := match k with KMemory _ _ | KBlock => true | _ => false end.

Lemma blocks_ok_frame K K' :
  (forall a k, of_memory k = true -> K' !! a = Some k <-> K !! a = Some k) -> blocks_ok K -> blocks_ok K'.
Proof.
  intros Hf [H1 H2 H3 H4]. split.
  - intros b E%Hf; [|done]. destruct (H1 _ E) as (m & size & Em). exists m, size. by apply Hf.
  - intros m b size E%Hf; [|done]. apply Hf; [done|]. eauto.
  - intros m size E%Hf; [|done]. eauto.
  - intros m m' b size size' E%Hf E'%Hf; [|done..]. eauto.
Qed.

Lemma memory_created K m b size :
  K !! m = None -> K !! b = None -> b <> m -> blocks_ok K -> blocks_ok (<[m := KMemory (Some b) size]> (<[b := KBlock]> K)).
Proof.
  intros Hm Hb Hne [H1 H2 H3 H4].
  assert (forall m' size', K !! m' <> Some (KMemory (Some b) size')) as Hnb by (intros m' size' E; apply H2 in E; congruence).
  split.
  - intros a. rewrite !lookup_insert_Some. intros [[_ [=]]|[Ha [[<- _]|[Ha' E]]]];
      [exists m, size; by rewrite lookup_insert_eq|].
    destruct (H1 _ E) as (m' & z & E'). exists m', z. rewrite !lookup_insert_ne by congruence. done.
  - intros a b' z. rewrite !lookup_insert_Some. intros [[<- [= <- <-]]|[Ha [[_ [=]]|[Ha' E]]]]; [naive_solver|].
    right. pose proof (H2 _ _ _ E) as E'. split; [congruence|]. right. split; [congruence|done].
  - intros a z. rewrite !lookup_insert_Some. naive_solver.
  - intros a a' b' z z'. rewrite !lookup_insert_Some. naive_solver.
Qed.

Lemma memory_created_null K m size :
  K !! m = None -> size <= 0 -> blocks_ok K -> blocks_ok (<[m := KMemory None size]> K).
Proof.
  intros Hm Hz [H1 H2 H3 H4]. split.
  - intros a. rewrite lookup_insert_Some. intros [[_ [=]]|[_ E]]. destruct (H1 _ E) as (m' & z & E'). exists m', z.
    by rewrite lookup_insert_ne by congruence.
  - intros a b' z. rewrite !lookup_insert_Some. intros [[_ [=]]|[_ E]]. pose proof (H2 _ _ _ E). right. split; congruence.
  - intros a z. rewrite lookup_insert_Some. naive_solver.
  - intros a a' b' z z'. rewrite !lookup_insert_Some. naive_solver.
Qed.

Lemma memory_removed K m b size :
  K !! m = Some (KMemory (Some b) size) -> blocks_ok K -> blocks_ok (delete m (delete b K)).
Proof.
  intros Hm [H1 H2 H3 H4]. split.
  - intros a. rewrite !lookup_delete_Some. intros (Ha & Hb & E). destruct (H1 _ E) as (m' & z & E'). exists m', z.
    assert (m' <> m) by congruence. assert (m' <> b) by (intros ->; rewrite (H2 _ _ _ Hm) in E'; done). by rewrite !lookup_delete_ne.
  - intros a b' z. rewrite !lookup_delete_Some. intros (Ha & Hb & E). pose proof (H2 _ _ _ E) as E'.
    split; [congruence|]. split; [|done]. intros ->. by destruct Ha; eapply H4.
  - intros a z. rewrite !lookup_delete_Some. naive_solver.
  - intros a a' b' z z'. rewrite !lookup_delete_Some. naive_solver.
Qed.

Lemma memory_removed_null K m size : K !! m = Some (KMemory None size) -> blocks_ok K -> blocks_ok (delete m K).
Proof.
  intros Hm [H1 H2 H3 H4]. split.
  - intros a. rewrite !lookup_delete_Some. intros (Ha & E). destruct (H1 _ E) as (m' & z & E'). exists m', z.
    by rewrite lookup_delete_ne by congruence.
  - intros a b' z. rewrite !lookup_delete_Some. intros (Ha & E). pose proof (H2 _ _ _ E). split; congruence.
  - intros a z. rewrite !lookup_delete_Some. naive_solver.
  - intros a a' b' z z'. rewrite !lookup_delete_Some. naive_solver.
Qed.

(** ** What an application sees *)

(** The nodes, the blocks and the links of the lists are the driver's own. *)
Definition view_of (o : icd_object) : option icd_object :=
  match o with
  | OBlock _ | ONode _ => None
  | OPool r => Some (OPool (r <| vp_cmdbufs := None |>))
  | _ => Some o
  end.

Definition view (h : gmap positive icd_object) : gmap positive icd_object := omap view_of h.

Lemma lookup_skeletons h a : skeletons h !! a = h !! a ≫= skeleton_of.
Proof. apply lookup_omap. Qed.

Lemma lookup_view h a : view h !! a = h !! a ≫= view_of.
Proof. apply lookup_omap. Qed.

Lemma skeletons_some h a o : h !! a = Some o -> skeletons h !! a = skeleton_of o.
Proof. intros E. by rewrite lookup_skeletons, E. Qed.

Lemma skeletons_none h a : h !! a = None -> skeletons h !! a = None.
Proof. intros E. by rewrite lookup_skeletons, E. Qed.

Lemma skeletons_insert h a o k : skeleton_of o = Some k -> skeletons (<[a := o]> h) = <[a := k]> (skeletons h).
Proof. intros E. unfold skeletons. by apply omap_insert_Some. Qed.

Lemma skeletons_delete h a : skeletons (delete a h) = delete a (skeletons h).
Proof. unfold skeletons. apply omap_delete. Qed.

(** A change of the data of one object. *)
Lemma skeletons_same h a o o' : h !! a = Some o -> skeleton_of o' = skeleton_of o -> skeletons (<[a := o']> h) = skeletons h.
Proof.
  intros E Hk. apply map_eq. intros b. rewrite !lookup_skeletons. destruct (decide (b = a)) as [->|].
  - by rewrite lookup_insert_eq, E.
  - by rewrite lookup_insert_ne.
Qed.

(** An object with no pointers comes or goes. *)
Lemma skeletons_plain h a o : h !! a = None -> skeleton_of o = None -> skeletons (<[a := o]> h) = skeletons h.
Proof.
  intros E Hk. apply map_eq. intros b. rewrite !lookup_skeletons. destruct (decide (b = a)) as [->|].
  - by rewrite lookup_insert_eq, E.
  - by rewrite lookup_insert_ne.
Qed.

Lemma skeletons_gone h a o : h !! a = Some o -> skeleton_of o = None -> skeletons (delete a h) = skeletons h.
Proof.
  intros E Hk. rewrite skeletons_delete. apply delete_id. by rewrite lookup_skeletons, E.
Qed.

Lemma view_insert h a o v : view_of o = Some v -> view (<[a := o]> h) = <[a := v]> (view h).
Proof. intros E. unfold view. by apply omap_insert_Some. Qed.

Lemma view_delete h a : view (delete a h) = delete a (view h).
Proof. unfold view. apply omap_delete. Qed.

Lemma view_hidden h a o : view_of o = None -> h !! a ≫= view_of = None -> view (<[a := o]> h) = view h.
Proof.
  intros Ho E. apply map_eq. intros b. rewrite !lookup_view. destruct (decide (b = a)) as [->|].
  - by rewrite lookup_insert_eq, E.
  - by rewrite lookup_insert_ne.
Qed.

Lemma view_hidden_gone h a : h !! a ≫= view_of = None -> view (delete a h) = view h.
Proof. intros E. rewrite view_delete. apply delete_id. by rewrite lookup_view. Qed.

(** When an application has no objects left, nothing is left on the heap. *)
Lemma nothing_left h : heap_ok h -> view h = ∅ -> h = ∅.
Proof.
  intros [HL HB] Hv. assert (forall a o, h !! a = Some o -> view_of o = None) as Hnone.
  { intros a o E. assert (view h !! a = None) as E' by by rewrite Hv. by rewrite lookup_view, E in E'. }
  apply map_eq. intros a. rewrite lookup_empty. destruct (h !! a) as [o|] eqn:E; [exfalso|done].
  assert (forall b k, skeletons h !! b = Some k -> k = KBlock \/ exists n hd, k = KNode n hd) as Hk.
  { intros b k. rewrite lookup_skeletons. destruct (h !! b) as [ob|] eqn:Eb; [|done]. cbn. specialize (Hnone _ _ Eb).
    destruct ob; cbn in *; intros [= <-]; try done; eauto. }
  pose proof (Hnone _ _ E) as Hno. destruct o; try done; apply skeletons_some in E; cbn in E.
  - destruct (bo_blocks _ HB _ E) as (m & z & [[=]|(? & ? & [=])]%Hk).
  - destruct (lo_nodes _ HL _ _ _ E) as (p & head & ns & [[=]|(? & ? & [=])]%Hk & _).
Qed.
