(* ===== verification/VkLists.v ===== *)
(** * The loops of the Vulkan driver over its lists

    What each operation of [VkIcd] on the heap does, and what the walks over the
    nodes of a command pool do to a heap whose lists are those of [VkHeap]. *)

From S2P Require Import Prelude GpuTypes GpuManager SchedTypes MemTypes Config Library Api VkIcd VkHeap.
Local Open Scope Z_scope.

(** ** Single operations *)

Section Operations.
Context `{IcdEnv}.
Implicit Types s : icd.

Lemma wp_object p o (Q : icd_object -> icd -> Prop) s : ic_heap s !! p = Some o -> Q o s -> wp (object p) Q s.
Proof. intros E HQ. unfold wp, object. by rewrite E. Qed.

Lemma wp_as_memory p m (Q : mvgal_icd_allocation_t -> icd -> Prop) s :
  ic_heap s !! p = Some (OMemory m) -> Q m s -> wp (as_memory p) Q s.
Proof. intros E HQ. apply wp_bind. by apply (wp_object _ _ _ _ E), wp_ret. Qed.

Lemma wp_as_pool p r (Q : mvgal_icd_command_pool_t -> icd -> Prop) s :
  ic_heap s !! p = Some (OPool r) -> Q r s -> wp (as_pool p) Q s.
Proof. intros E HQ. apply wp_bind. by apply (wp_object _ _ _ _ E), wp_ret. Qed.

Lemma wp_as_node p n (Q : mvgal_icd_cmdbuf_node -> icd -> Prop) s :
  ic_heap s !! p = Some (ONode n) -> Q n s -> wp (as_node p) Q s.
Proof. intros E HQ. apply wp_bind. by apply (wp_object _ _ _ _ E), wp_ret. Qed.

Lemma wp_as_buffer p c (Q : mvgal_icd_command_buffer_t -> icd -> Prop) s :
  ic_heap s !! p = Some (OBuffer c) -> Q c s -> wp (as_buffer p) Q s.
Proof. intros E HQ. apply wp_bind. by apply (wp_object _ _ _ _ E), wp_ret. Qed.

Lemma wp_as_fence p b (Q : bool -> icd -> Prop) s : ic_heap s !! p = Some (OFence b) -> Q b s -> wp (as_fence p) Q s.
Proof. intros E HQ. apply wp_bind. by apply (wp_object _ _ _ _ E), wp_ret. Qed.

Lemma wp_as_event p b (Q : bool -> icd -> Prop) s : ic_heap s !! p = Some (OEvent b) -> Q b s -> wp (as_event p) Q s.
Proof. intros E HQ. apply wp_bind. by apply (wp_object _ _ _ _ E), wp_ret. Qed.

Lemma wp_as_device p d (Q : mvgal_logical_device_t -> icd -> Prop) s :
  ic_heap s !! p = Some (ODevice d) -> Q d s -> wp (as_device p) Q s.
Proof. intros E HQ. apply wp_bind. by apply (wp_object _ _ _ _ E), wp_ret. Qed.

Lemma wp_set p o (Q : unit -> icd -> Prop) s : Q tt (s <| ic_heap ::= <[p := o]> |>) -> wp (set_object p o) Q s.
Proof. apply wp_modify. Qed.

Lemma wp_free_object p o (Q : unit -> icd -> Prop) s :
  ic_heap s !! p = Some o -> Q tt (s <| ic_heap ::= delete p |>) -> wp (free_object p) Q s.
Proof. intros E HQ. apply wp_bind, (wp_object _ _ _ _ E). by apply wp_modify. Qed.

(** The state after an allocation that succeeded. *)
Definition grown (p : addr) (o : icd_object) (s : icd) : icd := s <| ic_allocs ::= S |> <| ic_heap ::= <[p := o]> |>.

Lemma wp_new o (Q : option addr -> icd -> Prop) s :
  (forall p, ic_heap s !! p = None -> Q (Some p) (grown p o s)) ->
  (icd_alloc (ic_allocs s) = false -> Q None (s <| ic_allocs ::= S |>)) -> wp (new_object o) Q s.
Proof.
  intros H1 H2. unfold wp, new_object. destruct (icd_alloc (ic_allocs s)); [|by apply H2].
  apply H1, not_elem_of_dom, is_fresh.
Qed.

(** A handle that is null or of a live object with a tag. *)
Definition live (h : gmap positive icd_object) (handle : option addr) : Prop :=
  match handle with
  | None => True
  | Some p => exists o, h !! p = Some o /\ is_Some (object_tag o)
  end.

(** Whether a handle is for an object of a kind. *)
Definition of_kind (h : gmap positive icd_object) (tag : icd_tag) (p : addr) : Prop :=
  exists o, h !! p = Some o /\ object_tag o = Some tag.

Lemma wp_handle {A} handle tag (refused : A) m (Q : A -> icd -> Prop) s :
  live (ic_heap s) handle ->
  (forall p o, handle = Some p -> ic_heap s !! p = Some o -> object_tag o = Some tag -> wp (m p) Q s) ->
  ((forall p, handle = Some p -> ~ of_kind (ic_heap s) tag p) -> Q refused s) ->
  wp (with_handle handle tag refused m) Q s.
Proof.
  intros Hl H1 H2. unfold with_handle. apply wp_bind. destruct handle as [p|]; [|apply wp_ret, wp_ret, H2; done].
  destruct Hl as (o & E & t & Ht). cbn. apply wp_bind, (wp_object _ _ _ _ E). rewrite Ht. apply wp_ret.
  case_bool_decide as Et; [subst t; by eapply H1|]. apply wp_ret, H2. intros q [= <-] (o' & E' & Ht').
  rewrite E in E'. injection E' as <-. congruence.
Qed.
End Operations.

(** ** Walks *)

Lemma node_on_heap h n next handle :
  skeletons h !! n = Some (KNode next handle) -> h !! n = Some (ONode (mk_node next handle)).
Proof. rewrite lookup_skeletons. destruct (h !! n) as [[]|]; cbn; try done. intros [= <- <-]. by destruct n0. Qed.

Lemma buffer_on_heap h cb p : skeletons h !! cb = Some (KBuffer p) -> exists c, h !! cb = Some (OBuffer c) /\ vc_pool c = p.
Proof. rewrite lookup_skeletons. destruct (h !! cb) as [[]|]; cbn; try done. intros [= <-]. eauto. Qed.

Lemma pool_on_heap h p head : skeletons h !! p = Some (KPool head) -> exists r, h !! p = Some (OPool r) /\ vp_cmdbufs r = head.
Proof. rewrite lookup_skeletons. destruct (h !! p) as [[]|]; cbn; try done. intros [= <-]. eauto. Qed.

(** The walks have fuel for every list on the heap. *)
Lemma chain_length h start ns : chain (skeletons h) start ns -> NoDup ns.*2 -> (length ns <= size h)%nat.
Proof.
  intros Hc Hnd. pose proof (chain_nodup _ _ _ Hc Hnd) as Hnn. rewrite <- (length_fmap fst), <- size_dom.
  rewrite <- (size_list_to_set (C := gset positive)) by done. apply subseteq_size. intros n Hn%elem_of_list_to_set.
  destruct (chain_node _ _ _ _ Hc Hn) as (? & ? & E%node_on_heap & _). by apply elem_of_dom_2 in E.
Qed.

Definition swept (ns : list (addr * addr)) (h h' : gmap positive icd_object) : Prop :=
  forall a, h' !! a = if decide (a ∈ ns.*1 \/ a ∈ ns.*2) then None else h !! a.

(** The loop of [mvgal_vkDestroyCommandPool]. *)
Lemma free_nodes_run fuel start ns s :
  chain (skeletons (ic_heap s)) start ns -> NoDup ns.*2 -> (forall cb, cb ∈ ns.*2 -> exists c, ic_heap s !! cb = Some (OBuffer c)) ->
  (length ns <= fuel)%nat ->
  wp (free_nodes fuel start) (fun _ s' => exists h', s' = s <| ic_heap := h' |> /\ swept ns (ic_heap s) h') s.
Proof.
  revert start ns s. induction fuel as [|fuel IH]; intros start [|[n cb] ns] s Hc Hnd Hb Hlen; cbn in Hlen; try lia.
  1,2: cbn in Hc; subst; apply wp_ret; exists (ic_heap s); split; [by destruct s|]; intros a;
       rewrite decide_False; [done|]; cbn; intros [?%elem_of_nil|?%elem_of_nil]; done.
  pose proof (chain_nodup _ _ _ Hc Hnd) as Hnn. destruct Hc as (-> & next & En & Hc). cbn [fmap list_fmap fst snd] in *.
  apply NoDup_cons in Hnn as [Hn Hnn]. apply NoDup_cons in Hnd as [Hcb Hnd]. apply node_on_heap in En.
  destruct (Hb cb) as [c Ec]; [left|]. assert (n <> cb) as Hne by congruence.
  cbn [free_nodes]. apply wp_bind, (wp_as_node _ _ _ _ En). cbn [vn_handle vn_next].
  apply wp_bind, wp_bind, (wp_as_buffer _ _ _ _ Ec), (wp_free_object _ _ _ _ Ec), wp_bind.
  eapply wp_free_object; [cbn; by rewrite lookup_delete_ne by done|]. cbn.
  assert (forall m, m ∈ ns.*1 -> m <> n /\ m <> cb) as Hns.
  { intros m Hm. destruct (chain_node _ _ _ _ Hc Hm) as (? & ? & E%node_on_heap & _). split; [congruence|]. congruence. }
  eapply wp_mono; [apply (IH next ns)|].
  - cbn. rewrite !skeletons_delete. eapply chain_frame, Hc. intros m [? ?]%Hns. by rewrite !lookup_delete_ne.
  - done.
  - intros cb' Hcb'. destruct (Hb cb') as [c' Ec']; [by right|]. exists c'. cbn. rewrite !lookup_delete_ne; congruence.
  - lia.
  - intros _ s' (h' & -> & Hh'). exists h'. split; [done|]. intros a. rewrite Hh'. cbn. destruct (decide (a = n \/ a = cb)) as [Ha|Ha].
    + symmetry. rewrite decide_True by (rewrite !elem_of_cons; tauto). case_decide; [done|].
      destruct Ha as [->| ->]; [by rewrite lookup_delete_eq|by rewrite lookup_delete_ne, lookup_delete_eq].
    + rewrite !lookup_delete_ne by naive_solver. apply decide_ext. rewrite !elem_of_cons. tauto.
Qed.

Definition reset_of (o : icd_object) : icd_object :=
  match o with OBuffer c => OBuffer (c <| vc_state := MVGAL_CMDBUF_INITIAL |>) | _ => o end.

(** The loop of [mvgal_vkResetCommandPool]. *)
Lemma reset_nodes_run fuel start ns s :
  chain (skeletons (ic_heap s)) start ns -> (forall cb, cb ∈ ns.*2 -> exists c, ic_heap s !! cb = Some (OBuffer c)) ->
  (length ns <= fuel)%nat ->
  wp (reset_nodes fuel start) (fun _ s' => exists h', s' = s <| ic_heap := h' |> /\ skeletons h' = skeletons (ic_heap s) /\
    forall a, h' !! a = if decide (a ∈ ns.*2) then reset_of <$> ic_heap s !! a else ic_heap s !! a) s.
Proof.
  revert start ns s. induction fuel as [|fuel IH]; intros start [|[n cb] ns] s Hc Hb Hlen; cbn in Hlen; try lia.
  1,2: cbn in Hc; subst; apply wp_ret; exists (ic_heap s); split; [by destruct s|]; split; [done|]; intros a;
       rewrite decide_False; [done|]; cbn; by intros ?%elem_of_nil.
  destruct Hc as (-> & next & En & Hc). cbn [fmap list_fmap fst snd] in *. apply node_on_heap in En.
  destruct (Hb cb) as [c Ec]; [left|]. cbn [reset_nodes]. apply wp_bind, (wp_as_node _ _ _ _ En). cbn [vn_handle vn_next].
  apply wp_bind, wp_bind, (wp_as_buffer _ _ _ _ Ec), wp_set.
  assert (skeletons (<[cb := reset_of (OBuffer c)]> (ic_heap s)) = skeletons (ic_heap s)) as Hk by by eapply skeletons_same.
  eapply wp_mono; [apply (IH next ns)|].
  - change (chain (skeletons (<[cb := reset_of (OBuffer c)]> (ic_heap s))) next ns). by rewrite Hk.
  - intros cb' Hcb'. cbn. destruct (decide (cb' = cb)) as [->|]; [rewrite lookup_insert_eq; eauto|].
    rewrite lookup_insert_ne by done. apply Hb. by right.
  - lia.
  - intros _ s' (h' & -> & Hk' & Hh'). exists h'. split; [done|]. split; [by etrans; [exact Hk'|exact Hk]|]. intros a. rewrite Hh'. cbn.
    destruct (decide (a = cb)) as [->|].
    + symmetry. rewrite decide_True by left. rewrite lookup_insert_eq, Ec. by case_decide.
    + rewrite lookup_insert_ne by done. apply decide_ext. rewrite elem_of_cons. tauto.
Qed.

(** ** Unlinking a buffer *)

Definition link_addr (pp : link) : addr := match pp with LHead p => p | LNext n => n end.

(** The object a link is in, and the object with another value there. *)
Definition link_in (pp : link) (o : icd_object) : option (option addr) :=
  match pp, o with
  | LHead _, OPool r => Some (vp_cmdbufs r)
  | LNext _, ONode nd => Some (vn_next nd)
  | _, _ => None
  end.

Definition relink (v : option addr) (o : icd_object) : icd_object :=
  match o with
  | OPool r => OPool (r <| vp_cmdbufs := v |>)
  | ONode nd => ONode (nd <| vn_next := v |>)
  | _ => o
  end.

Lemma relink_same pp o v : link_in pp o = Some v -> relink v o = o.
Proof. destruct pp, o as [|?|[]|[]| | | | |]; cbn; try done; by intros [= ->]. Qed.

Lemma wp_read_link pp o v (Q : option addr -> icd -> Prop) s :
  ic_heap s !! link_addr pp = Some o -> link_in pp o = Some v -> Q v s -> wp (read_link pp) Q s.
Proof.
  intros E Hv HQ. destruct pp as [p|n], o; try done; injection Hv as <-; apply wp_bind.
  - by apply (wp_as_pool _ _ _ _ E), wp_ret.
  - by apply (wp_as_node _ _ _ _ E), wp_ret.
Qed.

Lemma wp_write_link pp o v w (Q : unit -> icd -> Prop) s :
  ic_heap s !! link_addr pp = Some o -> link_in pp o = Some v ->
  Q tt (s <| ic_heap ::= <[link_addr pp := relink w o]> |>) -> wp (write_link pp w) Q s.
Proof.
  intros E Hv HQ. destruct pp as [p|n], o; try done; injection Hv as <-; apply wp_bind.
  - by apply (wp_as_pool _ _ _ _ E), wp_set.
  - by apply (wp_as_node _ _ _ _ E), wp_set.
Qed.

(** The walk of [mvgal_vkFreeCommandBuffers]: the node of the buffer is gone and
    the links go past it. *)
Lemma unlink_run fuel pp o v l1 n cb l2 s :
  ic_heap s !! link_addr pp = Some o -> link_in pp o = Some v ->
  chain (skeletons (ic_heap s)) v (l1 ++ (n, cb) :: l2) -> NoDup (link_addr pp :: (l1 ++ (n, cb) :: l2).*1) ->
  cb ∉ l1.*2 -> (length l1 < fuel)%nat ->
  wp (unlink_buffer fuel pp cb) (fun _ s' => exists h' w, s' = s <| ic_heap := h' |> /\
    h' !! link_addr pp = Some (relink w o) /\ chain (skeletons h') w (l1 ++ l2) /\ h' !! n = None /\
    (forall a, a <> n -> a <> link_addr pp -> a ∉ l1.*1 -> h' !! a = ic_heap s !! a)) s.
Proof.
  revert pp o v l1. induction fuel as [|fuel IH]; intros pp o v l1 Eo Hv Hc Hnd Hcb Hlen; [lia|].
  cbn [unlink_buffer]. apply wp_bind, (wp_read_link _ _ _ _ _ Eo Hv).
  destruct l1 as [|[n1 cb1] l1]; cbn [app fmap list_fmap fst snd length] in *; destruct Hc as (-> & next & En & Hc).
  - apply NoDup_cons in Hnd as [Hpp Hnd]. apply NoDup_cons in Hnd as [Hn Hnd]. apply node_on_heap in En.
    apply wp_bind, (wp_as_node _ _ _ _ En). cbn [vn_handle vn_next]. rewrite bool_decide_eq_true_2 by done.
    apply wp_bind, (wp_write_link _ _ _ _ _ _ Eo Hv). assert (link_addr pp <> n) by set_solver.
    eapply wp_free_object; [cbn; by rewrite lookup_insert_ne|].
    exists (delete n (<[link_addr pp := relink next o]> (ic_heap s))), next. split; [done|].
    rewrite lookup_delete_ne, lookup_insert_eq by done. split; [done|]. split; [|split; [apply lookup_delete_eq|]].
    + eapply chain_frame, Hc. intros m Hm. rewrite !lookup_skeletons, lookup_delete_ne, lookup_insert_ne by set_solver. done.
    + intros a Ha Ha' _. by rewrite lookup_delete_ne, lookup_insert_ne.
  - pose proof (node_on_heap _ _ _ _ En) as E1. apply NoDup_cons in Hnd as [Hpp Hnd].
    apply wp_bind, (wp_as_node _ _ _ _ E1). cbn [vn_handle vn_next]. apply not_elem_of_cons in Hcb as [Hne Hcb].
    rewrite bool_decide_eq_false_2 by congruence.
    eapply wp_mono; [apply (IH (LNext n1) (ONode (mk_node next (Some cb1))) next l1); try done; lia|].
    intros _ s' (h' & w & -> & Hl & Hc' & Hn & Hf). cbn in Hl, Hf. exists h', (Some n1). split; [done|].
    rewrite fmap_app in Hpp. cbn in Hpp.
    split; [rewrite (relink_same _ _ _ Hv), Hf by set_solver; done|]. split; [|split; [done|]].
    + split; [done|]. exists w. by rewrite lookup_skeletons, Hl.
    + intros a Ha Ha' [? ?]%not_elem_of_cons. by apply Hf.
Qed.
