(* ===== verification/VkSpec.v ===== *)
(** * What the Vulkan driver promises

    A specification of the calls of [VkIcd] on the objects an application has:
    a map from handles to objects with no lists, nodes or blocks in it. *)

From S2P Require Import Prelude GpuTypes GpuManager SchedTypes MemTypes Config Library Api VkIcd VkHeap VkLists.
Local Open Scope Z_scope.

(** Calls, with pointers to infos and results that are not null. *)
Inductive vk_call : Type :=
| CAllocateMemory (size memoryType : Z)
| CFreeMemory (memory : option addr)
| CMapMemory (memory : option addr) (offset size : Z)
| CUnmapMemory (memory : option addr)
| CCommitment (memory : option addr)
| CCreatePool (family flags : Z)
| CDestroyPool (pool : option addr)
| CResetPool (pool : option addr)
| CAllocateBuffers (pool : option addr) (level count : Z)
| CFreeBuffers (pool : option addr) (buffers : list (option addr))
| CBegin (buffer : option addr)
| CEnd (buffer : option addr)
| CReset (buffer : option addr)
| CSubmit (fence : option addr)
| CCreateFence (flags : Z)
| CDestroyFence (fence : option addr)
| CWaitFences (fences : list (option addr))
| CResetFences (fences : list (option addr))
| CFenceStatus (fence : option addr)
| CCreateSemaphore
| CDestroySemaphore (semaphore : option addr)
| CCreateEvent
| CDestroyEvent (event : option addr)
| CEventStatus (event : option addr)
| CSetEvent (event : option addr)
| CResetEvent (event : option addr)
| CCreateDevice (infos : list (Z * Z))
| CDestroyDevice (device : option addr)
| CGetQueue (device : option addr) (family index : Z).

Inductive vk_reply : Type :=
| RDone
| RResult (r : VkResult)
| RHandle (r : VkResult) (handle : option addr)
| RHandles (r : VkResult) (handles : list addr)
| RPointer (r : VkResult) (pointer : option (option addr * Z))
| RSize (r : VkResult) (size : Z)
| RQueue (queue : option Z).

Section Calls.
Context `{IcdEnv, GpuOS, SchedEnv, MemEnv, ConfigEnv}.

Definition run_call (c : vk_call) : VM vk_reply :=
  let done (m : VM unit) := m;; mret RDone in
  let result (m : VM VkResult) := r ← m; mret (RResult r) in
  let handle (m : VM (VkResult * option addr)) := x ← m; mret (RHandle x.1 x.2) in
  match c with
  | CAllocateMemory size ty => handle (mvgal_vkAllocateMemory (Some (size, ty)) true)
  | CFreeMemory m => done (mvgal_vkFreeMemory m)
  | CMapMemory m offset size => x ← mvgal_vkMapMemory m offset size true; mret (RPointer x.1 x.2)
  | CUnmapMemory m => done (mvgal_vkUnmapMemory m)
  | CCommitment m => x ← mvgal_vkGetDeviceMemoryCommitment m true; mret (RSize x.1 x.2)
  | CCreatePool family flags => handle (mvgal_vkCreateCommandPool (Some (family, flags)) true)
  | CDestroyPool p => done (mvgal_vkDestroyCommandPool p)
  | CResetPool p => result (mvgal_vkResetCommandPool p)
  | CAllocateBuffers p level count =>
      x ← mvgal_vkAllocateCommandBuffers (Some (p, level, count)) true; mret (RHandles x.1 x.2)
  | CFreeBuffers p bufs => done (mvgal_vkFreeCommandBuffers p bufs)
  | CBegin b => result (mvgal_vkBeginCommandBuffer b)
  | CEnd b => result (mvgal_vkEndCommandBuffer b)
  | CReset b => result (mvgal_vkResetCommandBuffer b)
  | CSubmit f => result (mvgal_vkQueueSubmit f)
  | CCreateFence flags => handle (mvgal_vkCreateFence (Some flags) true)
  | CDestroyFence f => done (mvgal_vkDestroyFence f)
  | CWaitFences fs => result (mvgal_vkWaitForFences fs)
  | CResetFences fs => result (mvgal_vkResetFences fs)
  | CFenceStatus f => result (mvgal_vkGetFenceStatus f)
  | CCreateSemaphore => handle (mvgal_vkCreateSemaphore true true)
  | CDestroySemaphore s => done (mvgal_vkDestroySemaphore s)
  | CCreateEvent => handle (mvgal_vkCreateEvent true true)
  | CDestroyEvent e => done (mvgal_vkDestroyEvent e)
  | CEventStatus e => result (mvgal_vkGetEventStatus e)
  | CSetEvent e => result (mvgal_vkSetEvent e)
  | CResetEvent e => result (mvgal_vkResetEvent e)
  | CCreateDevice infos => handle (mvgal_vkCreateDevice true (Some infos) true)
  | CDestroyDevice d => done (mvgal_vkDestroyDevice d)
  | CGetQueue d family index => q ← mvgal_vkGetDeviceQueue d family index true; mret (RQueue q)
  end.
End Calls.

(** ** The specification *)

Abbreviation objects := (gmap positive icd_object).

(** The object of a kind that a handle stands for. *)
Definition find (v : objects) (handle : option addr) (tag : icd_tag) : option (addr * icd_object) :=
  p ← handle; o ← v !! p; if decide (object_tag o = Some tag) then Some (p, o) else None.

(** A new object, or no memory for it. *)
Definition created (v : objects) (o : icd_object) (r : vk_reply) (v' : objects) : Prop :=
  (r = RHandle VK_ERROR_OUT_OF_HOST_MEMORY None /\ v' = v) \/
  exists p, r = RHandle VK_SUCCESS (Some p) /\ v !! p = None /\ v' = <[p := o]> v.

(** A call that changes the object of a handle of a kind and reports it. *)
Definition updated (v : objects) (handle : option addr) (tag : icd_tag) (refused : vk_reply)
  (f : icd_object -> vk_reply * option icd_object) (r : vk_reply) (v' : objects) : Prop :=
  match find v handle tag with
  | None => r = refused /\ v' = v
  | Some (p, o) => r = (f o).1 /\ v' = match (f o).2 with Some o' => <[p := o']> v | None => v end
  end.

Definition destroyed (v : objects) (handle : option addr) (tag : icd_tag) (r : vk_reply) (v' : objects) : Prop :=
  r = RDone /\ v' = match find v handle tag with Some (p, _) => delete p v | None => v end.

Definition buffer_of (p : addr) (o : icd_object) : bool :=
  match o with OBuffer c => bool_decide (vc_pool c = p) | _ => false end.

Definition with_state (st : mvgal_icd_cmdbuf_state_t) (o : icd_object) : icd_object :=
  match o with OBuffer c => OBuffer (c <| vc_state := st |>) | _ => o end.

(** The queues that create infos ask for, as pairs of family and index. *)
Definition requested (infos : list (Z * Z)) : list (Z * Z) :=
  flat_map (fun i => (fun q => (i.1, q)) <$> seqZ 0 i.2) infos.

Definition key (q : mvgal_icd_queue_t) : Z * Z := (vq_familyIndex q, vq_queueIndex q).

Definition signalled (v : objects) (fence : option addr) : objects :=
  match find v fence MVGAL_FENCE_TAG with Some (p, _) => <[p := OFence true]> v | None => v end.

Definition counted (o : icd_object) : icd_object :=
  match o with ODevice d => ODevice (d <| vd_submitCount ::= fun n => u64 (n + 1) |>) | _ => o end.

Definition unsignal (v : objects) (fence : option addr) : objects :=
  match find v fence MVGAL_FENCE_TAG with Some (p, _) => <[p := OFence false]> v | None => v end.

Definition drop_buffer (v : objects) (buffer : option addr) : objects :=
  match find v buffer MVGAL_CMDBUF_TAG with Some (cb, _) => delete cb v | None => v end.

Definition vk_spec (v : objects) (act : option addr) (c : vk_call) (r : vk_reply) (v' : objects) (act' : option addr) : Prop :=
  match c with
  | CCreateDevice _ => True
  | _ => act' = act
  end /\
  match c with
  | CAllocateMemory size ty =>
      (r = RHandle VK_ERROR_OUT_OF_HOST_MEMORY None /\ v' = v) \/
      exists p host, r = RHandle VK_SUCCESS (Some p) /\ v !! p = None /\
        v' = <[p := OMemory (mk_allocation size ty host false 0 0)]> v /\ (0 < size -> is_Some host) /\
        (forall q m b, v !! q = Some (OMemory m) -> host = Some b -> vm_hostPointer m <> Some b)
  | CFreeMemory m => destroyed v m MVGAL_MEM_TAG r v'
  | CMapMemory m offset size =>
      updated v m MVGAL_MEM_TAG (RPointer VK_ERROR_MEMORY_MAP_FAILED None) (fun o =>
        match o with
        | OMemory a =>
            if vm_size a <=? offset then (RPointer VK_ERROR_MEMORY_MAP_FAILED None, None) else
            (RPointer VK_SUCCESS (Some (vm_hostPointer a, offset)),
             Some (OMemory (a <| vm_isMapped := true |> <| vm_mapOffset := offset |>
               <| vm_mapSize := if size =? VK_WHOLE_SIZE then vm_size a - offset else size |>)))
        | _ => (RDone, None)
        end) r v' /\
      (forall host off, r = RPointer VK_SUCCESS (Some (host, off)) -> is_Some host)
  | CUnmapMemory m =>
      updated v m MVGAL_MEM_TAG RDone (fun o =>
        match o with
        | OMemory a => (RDone, Some (OMemory (a <| vm_isMapped := false |> <| vm_mapOffset := 0 |> <| vm_mapSize := 0 |>)))
        | _ => (RDone, None)
        end) r v'
  | CCommitment m =>
      updated v m MVGAL_MEM_TAG (RSize VK_ERROR_INITIALIZATION_FAILED 0) (fun o =>
        match o with OMemory a => (RSize VK_SUCCESS (vm_size a), None) | _ => (RDone, None) end) r v'
  | CCreatePool family flags => created v (OPool (mk_pool family flags None)) r v'
  | CDestroyPool p =>
      r = RDone /\
      v' = match find v p MVGAL_POOL_TAG with
           | Some (p, _) => filter (fun '(a, o) => a <> p /\ buffer_of p o = false) v
           | None => v
           end
  | CResetPool p =>
      match find v p MVGAL_POOL_TAG with
      | Some (p, _) => r = RResult VK_SUCCESS /\
          v' = (fun o => if buffer_of p o then with_state MVGAL_CMDBUF_INITIAL o else o) <$> v
      | None => r = RResult VK_ERROR_INITIALIZATION_FAILED /\ v' = v
      end
  | CAllocateBuffers p level count =>
      match find v p MVGAL_POOL_TAG with
      | None => r = RHandles VK_ERROR_INITIALIZATION_FAILED [] /\ v' = v
      | Some (p, _) =>
          (r = RHandles VK_ERROR_OUT_OF_HOST_MEMORY [] /\ v' = v) \/
          exists cbs, r = RHandles VK_SUCCESS cbs /\ length cbs = Z.to_nat count /\ NoDup cbs /\
            (forall cb, cb ∈ cbs -> v !! cb = None) /\
            v' = foldr (fun cb => <[cb := OBuffer (mk_cmdbuf level MVGAL_CMDBUF_INITIAL p)]>) v cbs
      end
  | CFreeBuffers p bufs =>
      r = RDone /\ v' = match find v p MVGAL_POOL_TAG with Some _ => foldl drop_buffer v bufs | None => v end
  | CBegin b =>
      updated v b MVGAL_CMDBUF_TAG (RResult VK_ERROR_INITIALIZATION_FAILED)
        (fun o => (RResult VK_SUCCESS, Some (with_state MVGAL_CMDBUF_RECORDING o))) r v'
  | CEnd b =>
      updated v b MVGAL_CMDBUF_TAG (RResult VK_ERROR_INITIALIZATION_FAILED) (fun o =>
        match o with
        | OBuffer c =>
            if decide (vc_state c = MVGAL_CMDBUF_RECORDING)
            then (RResult VK_SUCCESS, Some (with_state MVGAL_CMDBUF_EXECUTABLE o)) else (RResult VK_NOT_READY, None)
        | _ => (RDone, None)
        end) r v'
  | CReset b =>
      updated v b MVGAL_CMDBUF_TAG (RResult VK_ERROR_INITIALIZATION_FAILED)
        (fun o => (RResult VK_SUCCESS, Some (with_state MVGAL_CMDBUF_INITIAL o))) r v'
  | CSubmit f =>
      r = RResult VK_SUCCESS /\
      v' = match act with Some d => alter counted d (signalled v f) | None => signalled v f end
  | CCreateFence flags => created v (OFence (Z.odd flags)) r v'
  | CDestroyFence f => destroyed v f MVGAL_FENCE_TAG r v'
  | CWaitFences _ => r = RResult VK_SUCCESS /\ v' = v
  | CResetFences fs => r = RResult VK_SUCCESS /\ v' = foldl unsignal v fs
  | CFenceStatus f =>
      updated v f MVGAL_FENCE_TAG (RResult VK_ERROR_INITIALIZATION_FAILED) (fun o =>
        match o with OFence b => (RResult (if b then VK_SUCCESS else VK_NOT_READY), None) | _ => (RDone, None) end) r v'
  | CCreateSemaphore => created v OSemaphore r v'
  | CDestroySemaphore s => destroyed v s MVGAL_SEM_TAG r v'
  | CCreateEvent => created v (OEvent false) r v'
  | CDestroyEvent e => destroyed v e MVGAL_EVENT_TAG r v'
  | CEventStatus e =>
      updated v e MVGAL_EVENT_TAG (RResult VK_ERROR_INITIALIZATION_FAILED) (fun o =>
        match o with OEvent b => (RResult (if b then VK_EVENT_SET else VK_EVENT_RESET), None) | _ => (RDone, None) end) r v'
  | CSetEvent e =>
      updated v e MVGAL_EVENT_TAG (RResult VK_ERROR_INITIALIZATION_FAILED)
        (fun _ => (RResult VK_SUCCESS, Some (OEvent true))) r v'
  | CResetEvent e =>
      updated v e MVGAL_EVENT_TAG (RResult VK_ERROR_INITIALIZATION_FAILED)
        (fun _ => (RResult VK_SUCCESS, Some (OEvent false))) r v'
  | CCreateDevice infos =>
      (exists e, r = RHandle e None /\ e <> VK_SUCCESS /\ v' = v /\ act' = act) \/
      exists p queues, r = RHandle VK_SUCCESS (Some p) /\ v !! p = None /\ key <$> queues = requested infos /\
        v' = <[p := ODevice (mk_ldevice queues false 0)]> v /\ act' = Some p
  | CDestroyDevice d => r = RDone /\ v' = match d with Some p => delete p v | None => v end
  | CGetQueue d family index =>
      v' = v /\
      exists q, r = RQueue q /\
      match d with
      | None => q = None
      | Some p => exists dev, v !! p = Some (ODevice dev) /\
          match q with
          | None => (family, index) ∉ key <$> vd_queues dev
          | Some i => 0 < i /\ (key <$> vd_queues dev) !! Z.to_nat (i - 1) = Some (family, index)
          end
      end
  end.

(** ** Valid usage *)

(** The calls an application may make: handles are null or of live objects, and
    a buffer is freed once and through its own pool. *)
Definition usable (v : objects) (act : option addr) (c : vk_call) : Prop :=
  match c with
  | CAllocateMemory size _ => 0 <= size <= U64_MAX
  | CMapMemory m offset _ => live v m /\ 0 <= offset
  | CFreeMemory h | CUnmapMemory h | CCommitment h | CDestroyPool h | CResetPool h
  | CAllocateBuffers h _ _ | CBegin h | CEnd h | CReset h | CDestroyFence h | CFenceStatus h
  | CDestroySemaphore h | CDestroyEvent h | CEventStatus h | CSetEvent h | CResetEvent h => live v h
  | CFreeBuffers p bufs =>
      live v p /\ NoDup (omap id bufs) /\
      forall b, b ∈ bufs -> live v b /\
        (forall cb c, b = Some cb -> v !! cb = Some (OBuffer c) -> p = Some (vc_pool c))
  | CSubmit f => live v f /\ forall d, act = Some d -> exists dev, v !! d = Some (ODevice dev)
  | CWaitFences fs | CResetFences fs => Forall (live v) fs
  | CCreatePool _ _ | CCreateFence _ | CCreateSemaphore | CCreateEvent => True
  | CCreateDevice infos => NoDup infos.*1 /\ Forall (fun i => 0 <= i.1 /\ 0 <= i.2) infos
  | CDestroyDevice d | CGetQueue d _ _ => forall p, d = Some p -> exists dev, v !! p = Some (ODevice dev)
  end.

(** The two calls that do not survive every failed allocation: [n] allocations
    were made before. *)
Definition memory_for `{IcdEnv} (n : nat) (c : vk_call) : Prop :=
  match c with
  | CAllocateBuffers _ _ count => count <= 1 \/ forall i, (i < 2 * Z.to_nat count)%nat -> icd_alloc (n + i)%nat = true
  | CCreateDevice _ => icd_alloc (n + 2)%nat = true
  | _ => True
  end.
