(* ===== verification/VkObjects.v ===== *)
(** * The calls of the Vulkan driver on single objects

    Memory, fences, semaphores, events and the states of command buffers: each
    call of [VkIcd] does to the heap what [VkSpec] says of the objects. *)

From S2P Require Import Prelude GpuTypes GpuManager SchedTypes MemTypes Config Library Api VkIcd VkHeap VkLists VkSpec.
Local Open Scope Z_scope.

(** ** The invariant *)

Definition good (o : icd_object) : Prop :=
  match o with
  | OMemory m => 0 <= vm_size m <= U64_MAX
  | ODevice d => vd_destroyed d = false
  | _ => True
  end.

Definition driver_ok (h : gmap positive icd_object) : Prop := heap_ok h /\ map_Forall (fun _ => good) h.

Section Calls.
Context `{IcdEnv, GpuOS, SchedEnv, MemEnv, ConfigEnv}.
Implicit Types s : icd.

(** The call [c] from [s] came to an end with [r] as it should. *)
Definition meets (c : vk_call) (s : icd) (r : vk_reply) (s' : icd) : Prop :=
  driver_ok (ic_heap s') /\ vk_spec (view (ic_heap s)) (ic_active s) c r (view (ic_heap s')) (ic_active s').

(** ** Handles *)

Lemma view_tag o vo : view_of o = Some vo -> object_tag vo = object_tag o.
Proof. destruct o; cbn; try done; by intros [= <-]. Qed.

Lemma tag_view o t : object_tag o = Some t -> exists vo, view_of o = Some vo.
Proof. destruct o; cbn; try done; eauto. Qed.

Lemma view_some h p vo : view h !! p = Some vo -> exists o, h !! p = Some o /\ view_of o = Some vo.
Proof. rewrite lookup_view. destruct (h !! p) as [o|]; [|done]. eauto. Qed.

Lemma some_view h p o vo : h !! p = Some o -> view_of o = Some vo -> view h !! p = Some vo.
Proof. intros E Hv. by rewrite lookup_view, E. Qed.

Lemma none_view h p : h !! p = None -> view h !! p = None.
Proof. intros E. by rewrite lookup_view, E. Qed.

Lemma live_view h handle : live (view h) handle -> live h handle.
Proof.
  destruct handle as [p|]; [|done]. intros (vo & Hvo & Ht). apply view_some in Hvo as (o & E & Hv).
  exists o. split; [done|]. by rewrite <- (view_tag _ _ Hv).
Qed.

Lemma wp_find {A} handle tag (refused : A) m (Q : A -> icd -> Prop) s :
  live (view (ic_heap s)) handle ->
  (forall p o vo, ic_heap s !! p = Some o -> object_tag o = Some tag -> view_of o = Some vo -> handle = Some p ->
    find (view (ic_heap s)) handle tag = Some (p, vo) -> wp (m p) Q s) ->
  (find (view (ic_heap s)) handle tag = None -> Q refused s) -> wp (with_handle handle tag refused m) Q s.
Proof.
  intros Hl Hhit Hmiss. apply wp_handle; [by apply live_view| |].
  - intros p o -> E Ht. destruct (tag_view _ _ Ht) as [vo Hv]. apply (Hhit p o vo); try done.
    cbn. rewrite (some_view _ _ _ _ E Hv). cbn. rewrite decide_True; [done|]. by rewrite (view_tag _ _ Hv).
  - intros Hno. apply Hmiss. destruct handle as [p|]; [|done]. cbn. destruct (view _ !! p) as [vo|] eqn:E; [|done]. cbn.
    apply view_some in E as (o & E & Hv). rewrite decide_False; [done|]. rewrite (view_tag _ _ Hv). intros Ht.
    apply (Hno p eq_refl). by exists o.
Qed.

(** ** Changes of one object *)

Lemma set_object_ok h p o o' :
  h !! p = Some o -> skeleton_of o' = skeleton_of o -> good o' -> driver_ok h -> driver_ok (<[p := o']> h).
Proof.
  intros E Hk Hg [Hh Hf]. split; [|by apply map_Forall_insert_2]. unfold heap_ok. by rewrite (skeletons_same _ _ _ _ E Hk).
Qed.

Lemma new_object_ok h p o : h !! p = None -> skeleton_of o = None -> good o -> driver_ok h -> driver_ok (<[p := o]> h).
Proof.
  intros E Hk Hg [Hh Hf]. split; [|by apply map_Forall_insert_2]. unfold heap_ok. by rewrite (skeletons_plain _ _ _ E Hk).
Qed.

Lemma free_object_ok h p o : h !! p = Some o -> skeleton_of o = None -> driver_ok h -> driver_ok (delete p h).
Proof.
  intros E Hk [Hh Hf]. split; [|by apply map_Forall_delete]. unfold heap_ok. by rewrite (skeletons_gone _ _ _ E Hk).
Qed.

(** A new object without pointers. *)
Lemma create_run o (c : vk_call) s :
  skeleton_of o = None -> good o -> view_of o = Some o -> driver_ok (ic_heap s) ->
  (forall r v' , created (view (ic_heap s)) o r v' -> vk_spec (view (ic_heap s)) (ic_active s) c r v' (ic_active s)) ->
  wp (x ← create_object true true o; mret (RHandle x.1 x.2)) (meets c s) s.
Proof.
  intros Hk Hg Hv Hok Hc. apply wp_bind. unfold create_object. cbn [negb orb]. apply wp_bind, wp_new.
  - intros p E. apply wp_ret, wp_ret. split; [by apply new_object_ok|]. apply Hc. right. exists p. split; [done|].
    split; [by apply none_view|]. by apply view_insert.
  - intros _. apply wp_ret, wp_ret. split; [done|]. apply Hc. by left.
Qed.

(** Freeing an object without pointers. *)
Lemma destroy_run handle tag (c : vk_call) s :
  (forall o, object_tag o = Some tag -> skeleton_of o = None) -> live (view (ic_heap s)) handle -> driver_ok (ic_heap s) ->
  (forall r v', destroyed (view (ic_heap s)) handle tag r v' -> vk_spec (view (ic_heap s)) (ic_active s) c r v' (ic_active s)) ->
  wp (with_handle handle tag tt free_object;; mret RDone) (meets c s) s.
Proof.
  intros Hk Hl Hok Hc. apply wp_bind. apply wp_find; [done| |].
  - intros p o vo E Ht Hv _ Hf. apply (wp_free_object _ _ _ _ E), wp_ret. split; [apply (free_object_ok _ _ _ E); auto|].
    apply Hc. unfold destroyed. rewrite Hf. split; [done|apply view_delete].
  - intros Hf. apply wp_ret. split; [done|]. apply Hc. unfold destroyed. by rewrite Hf.
Qed.

(** A call that reads or writes the object of its handle. *)
Lemma update_run {A} handle tag (refused : A) (m : addr -> VM A) (reply : A -> vk_reply)
  (f : icd_object -> vk_reply * option icd_object) (c : vk_call) s :
  live (view (ic_heap s)) handle -> driver_ok (ic_heap s) ->
  (forall r v', updated (view (ic_heap s)) handle tag (reply refused) f r v' ->
    (forall p o, handle = Some p -> ic_heap s !! p = Some o -> object_tag o = Some tag -> r = (f o).1) ->
    vk_spec (view (ic_heap s)) (ic_active s) c r v' (ic_active s)) ->
  tag <> MVGAL_POOL_TAG ->
  (forall p o, ic_heap s !! p = Some o -> object_tag o = Some tag ->
    wp (m p) (fun a s' => reply a = (f o).1 /\
      match (f o).2 with
      | None => s' = s
      | Some o' => s' = s <| ic_heap ::= <[p := o']> |> /\ skeleton_of o' = skeleton_of o /\ good o' /\ object_tag o' = Some tag
      end) s) ->
  wp (x ← with_handle handle tag refused m; mret (reply x)) (meets c s) s.
Proof.
  intros Hl Hok Hc Hp Hm. apply wp_bind. apply wp_find; [done| |].
  - intros p o vo E Ht Hv Hh Hf. assert (vo = o) as -> by (destruct o; cbn in *; congruence).
    eapply wp_mono; [by apply Hm|]. intros a s' [Ha Hs']. apply wp_ret.
    assert (forall q o0, handle = Some q -> ic_heap s !! q = Some o0 -> object_tag o0 = Some tag -> reply a = (f o0).1) as Hr.
    { intros q o0 E1 E2 _. rewrite Hh in E1. injection E1 as <-. rewrite E in E2. by injection E2 as <-. }
    destruct (f o).2 as [o'|] eqn:Eo.
    + destruct Hs' as (-> & Hk & Hg & Ht'). split; [by eapply set_object_ok|]. apply Hc; [|done]. unfold updated.
      rewrite Hf, Eo. split; [done|]. apply view_insert. by destruct o'; cbn in *; try congruence.
    + subst s'. split; [done|]. apply Hc; [|done]. unfold updated. by rewrite Hf, Eo.
  - intros Hf. apply wp_ret. split; [done|]. apply Hc; [unfold updated; by rewrite Hf|].
    intros p o -> E Ht. exfalso. destruct (tag_view _ _ Ht) as [vo Hv]. cbn in Hf.
    rewrite (some_view _ _ _ _ E Hv) in Hf. cbn in Hf. rewrite decide_True in Hf; [done|]. by rewrite (view_tag _ _ Hv).
Qed.

(** ** Memory *)

Lemma allocate_memory_meets size ty s :
  driver_ok (ic_heap s) -> 0 <= size <= U64_MAX ->
  wp (run_call (CAllocateMemory size ty)) (meets (CAllocateMemory size ty) s) s.
Proof.
  intros [[HL HB] Hg] Hsize. cbn. apply wp_bind, wp_bind, wp_new.
  2:{ intros _. apply wp_ret, wp_ret. split; [done|]. split; [done|]. by left. }
  intros p Ep. set (o := OMemory (mk_allocation size ty None false 0 0)). apply wp_bind, wp_new.
  - intros b Eb. cbn in Eb. assert (b <> p) as Hne by (intros ->; by rewrite lookup_insert_eq in Eb).
    rewrite lookup_insert_ne in Eb by done. apply wp_bind, wp_set, wp_ret, wp_ret. cbn.
    set (o' := OMemory (mk_allocation size ty (Some b) false 0 0)).
    assert (<[p := o']> (<[b := OBlock size]> (<[p := o]> (ic_heap s))) = <[p := o']> (<[b := OBlock size]> (ic_heap s))) as Hh
      by (rewrite (insert_insert_ne _ b p), insert_insert_eq by done; done).
    unfold meets. cbn. rewrite Hh. split; [split; [split|]|split; [done|right]].
    + rewrite (skeletons_insert _ p o' (KMemory (Some b) size)), (skeletons_insert _ b _ KBlock) by done.
      apply lists_ok_insert; [rewrite lookup_insert_ne by done; by apply skeletons_none|done|].
      apply lists_ok_insert; [by apply skeletons_none|done|done].
    + rewrite (skeletons_insert _ p o' (KMemory (Some b) size)), (skeletons_insert _ b _ KBlock) by done.
      apply memory_created; [by apply skeletons_none..|done|done].
    + apply map_Forall_insert_2; [done|]. by apply map_Forall_insert_2.
    + exists p, (Some b). split; [done|]. split; [by apply none_view|].
      split; [rewrite (view_insert _ _ _ o'), view_hidden by (try done; by rewrite Eb); done|]. split; [done|].
      intros q m b' Hq [= <-] Hm. apply view_some in Hq as (oq & Eq & Hv). destruct oq; try done. injection Hv as ->.
      apply skeletons_some in Eq. cbn in Eq. rewrite Hm in Eq. apply (bo_memory _ HB) in Eq.
      by rewrite (skeletons_none _ _ Eb) in Eq.
  - intros _. destruct (Z.ltb_spec 0 size).
    + apply wp_bind. eapply wp_free_object; [cbn; apply lookup_insert_eq|]. apply wp_ret, wp_ret. unfold meets. cbn.
      rewrite delete_insert_id by done. split; [done|]. split; [done|]. by left.
    + apply wp_ret, wp_ret. unfold meets. cbn. split; [split; [split|]|split; [done|right]].
      * rewrite (skeletons_insert _ p o (KMemory None size)) by done. apply lists_ok_insert; [by apply skeletons_none|done|done].
      * rewrite (skeletons_insert _ p o (KMemory None size)) by done.
        apply memory_created_null; [by apply skeletons_none|lia|done].
      * by apply map_Forall_insert_2.
      * exists p, None. split; [done|]. split; [by apply none_view|]. split; [by apply view_insert|]. split; [lia|done].
Qed.

Lemma free_memory_meets m s :
  driver_ok (ic_heap s) -> live (view (ic_heap s)) m -> wp (run_call (CFreeMemory m)) (meets (CFreeMemory m) s) s.
Proof.
  intros [[HL HB] Hg] Hl. cbn. apply wp_bind, wp_find; [done| |].
  2:{ intros Hf. apply wp_ret. split; [done|]. split; [done|]. unfold destroyed. by rewrite Hf. }
  intros p o vo E Ht Hv _ Hf. destruct o as [a| | | | | | | |]; try done.
  apply wp_bind, (wp_as_memory _ _ _ _ E), wp_bind. pose proof (skeletons_some _ _ _ E) as Ek. cbn in Ek.
  destruct (vm_hostPointer a) as [b|] eqn:Eh; cbn [free_pointer].
  - pose proof (bo_memory _ HB _ _ _ Ek) as Eb. rewrite lookup_skeletons in Eb.
    destruct (ic_heap s !! b) as [ob|] eqn:Eob; [|done]. destruct ob; try done.
    assert (p <> b) as Hne by congruence. apply (wp_free_object _ _ _ _ Eob). eapply wp_free_object; [cbn; by rewrite lookup_delete_ne|].
    apply wp_ret. unfold meets. cbn. split; [split; [split|]|split; [done|]].
    + rewrite !skeletons_delete. apply (lists_ok_delete _ _ (KMemory (Some b) (vm_size a)));
        [rewrite lookup_delete_ne by done; done|done|].
      apply (lists_ok_delete _ _ KBlock); [by rewrite lookup_skeletons, Eob|done|done].
    + rewrite !skeletons_delete. by eapply memory_removed.
    + by apply map_Forall_delete, map_Forall_delete.
    + unfold destroyed. rewrite Hf. split; [done|]. rewrite view_delete, view_hidden_gone; [done|]. by rewrite Eob.
  - apply wp_ret, (wp_free_object _ _ _ _ E), wp_ret. unfold meets. cbn. split; [split; [split|]|split; [done|]].
    + rewrite skeletons_delete. by eapply lists_ok_delete.
    + rewrite skeletons_delete. by eapply memory_removed_null.
    + by apply map_Forall_delete.
    + unfold destroyed. rewrite Hf. split; [done|]. apply view_delete.
Qed.

(** Memory that can be mapped has a block. *)
Lemma memory_pointer s p a :
  driver_ok (ic_heap s) -> ic_heap s !! p = Some (OMemory a) -> 0 < vm_size a -> is_Some (vm_hostPointer a).
Proof.
  intros [[_ HB] _] E Hz. apply skeletons_some in E. cbn in E. destruct (vm_hostPointer a); [done|].
  apply (bo_null _ HB) in E. lia.
Qed.

Lemma map_memory_meets m offset size s :
  driver_ok (ic_heap s) -> live (view (ic_heap s)) m -> 0 <= offset ->
  wp (run_call (CMapMemory m offset size)) (meets (CMapMemory m offset size) s) s.
Proof.
  intros Hok Hl Hoff. cbn. unfold mvgal_vkMapMemory. cbn [negb].
  apply (update_run m MVGAL_MEM_TAG _ _ (fun x => RPointer x.1 x.2) (fun o => match o with
    | OMemory a => if vm_size a <=? offset then (RPointer VK_ERROR_MEMORY_MAP_FAILED None, None) else
        (RPointer VK_SUCCESS (Some (vm_hostPointer a, offset)),
         Some (OMemory (a <| vm_isMapped := true |> <| vm_mapOffset := offset |>
           <| vm_mapSize := if size =? VK_WHOLE_SIZE then vm_size a - offset else size |>)))
    | _ => (RDone, None) end)); [done|done| |done|].
  - intros r v' Hu Hr. split; [done|]. split; [exact Hu|]. intros host off ->. unfold updated in Hu.
    destruct (find _ m MVGAL_MEM_TAG) as [[p vo]|] eqn:Hf; [|by destruct Hu as [[=] _]]. unfold find in Hf.
    destruct m as [q|]; [|done]. cbn in Hf. destruct (view _ !! q) as [vq|] eqn:Eq; [|done]. cbn in Hf.
    destruct (decide _) as [Ht|]; [|done]. injection Hf as -> ->. apply view_some in Eq as (o & Eo & Hv).
    destruct o; try (injection Hv as <-); try done. destruct Hu as [Hu _]. cbn in Hu.
    destruct (Z.leb_spec (vm_size m) offset); [done|]. injection Hu as -> ->. apply (memory_pointer s p); [done|done|lia].
  - intros p o E Ht. destruct o as [a| | | | | | | |]; try done. apply wp_bind, (wp_as_memory _ _ _ _ E).
    destruct (Z.leb_spec (vm_size a) offset); [by apply wp_ret|]. apply wp_bind, wp_set, wp_ret. cbn.
    pose proof (map_Forall_lookup_1 _ _ _ _ (proj2 Hok) E) as Hg. cbn in Hg.
    split; [done|]. rewrite u64_small by (unfold is_u64, U64_MAX in *; lia). done.
Qed.

Lemma unmap_memory_meets m s :
  driver_ok (ic_heap s) -> live (view (ic_heap s)) m -> wp (run_call (CUnmapMemory m)) (meets (CUnmapMemory m) s) s.
Proof.
  intros Hok Hl. cbn. eapply (update_run m MVGAL_MEM_TAG tt _ (fun _ => RDone)); [done|done| |done|].
  - intros r v' Hu _. split; [done|exact Hu].
  - intros p o E Ht. destruct o as [a| | | | | | | |]; try done. apply wp_bind, (wp_as_memory _ _ _ _ E), wp_set.
    by pose proof (map_Forall_lookup_1 _ _ _ _ (proj2 Hok) E).
Qed.

Lemma commitment_meets m s :
  driver_ok (ic_heap s) -> live (view (ic_heap s)) m -> wp (run_call (CCommitment m)) (meets (CCommitment m) s) s.
Proof.
  intros Hok Hl. cbn. eapply (update_run m MVGAL_MEM_TAG _ _ (fun x => RSize x.1 x.2)); [done|done| |done|].
  - intros r v' Hu _. split; [done|exact Hu].
  - intros p o E Ht. destruct o as [a| | | | | | | |]; try done. by apply wp_bind, (wp_as_memory _ _ _ _ E), wp_ret.
Qed.

(** ** States of command buffers *)

Lemma wp_set_state cb c st (Q : unit -> icd -> Prop) s :
  ic_heap s !! cb = Some (OBuffer c) -> Q tt (s <| ic_heap ::= <[cb := with_state st (OBuffer c)]> |>) -> wp (set_state cb st) Q s.
Proof. intros E HQ. by apply wp_bind, (wp_as_buffer _ _ _ _ E), wp_set. Qed.

Lemma begin_meets b s : driver_ok (ic_heap s) -> live (view (ic_heap s)) b -> wp (run_call (CBegin b)) (meets (CBegin b) s) s.
Proof.
  intros Hok Hl. cbn. eapply (update_run b MVGAL_CMDBUF_TAG _ _ RResult); [done|done| |done|].
  - intros r v' Hu _. split; [done|exact Hu].
  - intros p o E Ht. destruct o as [| | | |c| | | |]; try done. by apply wp_bind, (wp_set_state _ _ _ _ _ E), wp_ret.
Qed.

Lemma end_meets b s : driver_ok (ic_heap s) -> live (view (ic_heap s)) b -> wp (run_call (CEnd b)) (meets (CEnd b) s) s.
Proof.
  intros Hok Hl. cbn. eapply (update_run b MVGAL_CMDBUF_TAG _ _ RResult); [done|done| |done|].
  - intros r v' Hu _. split; [done|exact Hu].
  - intros p o E Ht. destruct o as [| | | |c| | | |]; try done. apply wp_bind, (wp_as_buffer _ _ _ _ E). cbn beta iota.
    destruct (decide (vc_state c = MVGAL_CMDBUF_RECORDING)) as [Es|Es].
    + rewrite bool_decide_eq_true_2 by done. by apply wp_bind, (wp_set_state _ _ _ _ _ E), wp_ret.
    + rewrite bool_decide_eq_false_2 by done. by apply wp_ret.
Qed.

Lemma reset_meets b s : driver_ok (ic_heap s) -> live (view (ic_heap s)) b -> wp (run_call (CReset b)) (meets (CReset b) s) s.
Proof.
  intros Hok Hl. cbn. eapply (update_run b MVGAL_CMDBUF_TAG _ _ RResult); [done|done| |done|].
  - intros r v' Hu _. split; [done|exact Hu].
  - intros p o E Ht. destruct o as [| | | |c| | | |]; try done. by apply wp_bind, (wp_set_state _ _ _ _ _ E), wp_ret.
Qed.

(** ** Fences and events *)

Lemma signal_bit flags : negb (Z.land flags VK_FENCE_CREATE_SIGNALED_BIT =? 0) = Z.odd flags.
Proof.
  change VK_FENCE_CREATE_SIGNALED_BIT with (Z.ones 1). rewrite Z.land_ones by lia. change (2 ^ 1) with 2.
  rewrite Zmod_odd. by destruct (Z.odd flags).
Qed.

Lemma create_fence_meets flags s : driver_ok (ic_heap s) -> wp (run_call (CCreateFence flags)) (meets (CCreateFence flags) s) s.
Proof.
  intros Hok. cbn. unfold mvgal_vkCreateFence. cbn. rewrite signal_bit. by apply create_run.
Qed.

Lemma create_semaphore_meets s : driver_ok (ic_heap s) -> wp (run_call CCreateSemaphore) (meets CCreateSemaphore s) s.
Proof. intros Hok. by apply create_run. Qed.

Lemma create_event_meets s : driver_ok (ic_heap s) -> wp (run_call CCreateEvent) (meets CCreateEvent s) s.
Proof. intros Hok. by apply create_run. Qed.

Lemma destroy_fence_meets f s :
  driver_ok (ic_heap s) -> live (view (ic_heap s)) f -> wp (run_call (CDestroyFence f)) (meets (CDestroyFence f) s) s.
Proof. intros Hok Hl. apply destroy_run; [by intros []|done|done|]. intros r v' Hc. by split. Qed.

Lemma destroy_semaphore_meets f s :
  driver_ok (ic_heap s) -> live (view (ic_heap s)) f -> wp (run_call (CDestroySemaphore f)) (meets (CDestroySemaphore f) s) s.
Proof. intros Hok Hl. apply destroy_run; [by intros []|done|done|]. intros r v' Hc. by split. Qed.

Lemma destroy_event_meets f s :
  driver_ok (ic_heap s) -> live (view (ic_heap s)) f -> wp (run_call (CDestroyEvent f)) (meets (CDestroyEvent f) s) s.
Proof. intros Hok Hl. apply destroy_run; [by intros []|done|done|]. intros r v' Hc. by split. Qed.

Lemma fence_status_meets f s :
  driver_ok (ic_heap s) -> live (view (ic_heap s)) f -> wp (run_call (CFenceStatus f)) (meets (CFenceStatus f) s) s.
Proof.
  intros Hok Hl. cbn. eapply (update_run f MVGAL_FENCE_TAG _ _ RResult); [done|done| |done|].
  - intros r v' Hu _. split; [done|exact Hu].
  - intros p o E Ht. destruct o as [| | | | |b| | |]; try done. by apply wp_bind, (wp_as_fence _ _ _ _ E), wp_ret.
Qed.

Lemma event_status_meets f s :
  driver_ok (ic_heap s) -> live (view (ic_heap s)) f -> wp (run_call (CEventStatus f)) (meets (CEventStatus f) s) s.
Proof.
  intros Hok Hl. cbn. eapply (update_run f MVGAL_EVENT_TAG _ _ RResult); [done|done| |done|].
  - intros r v' Hu _. split; [done|exact Hu].
  - intros p o E Ht. destruct o as [| | | | | | |b|]; try done. by apply wp_bind, (wp_as_event _ _ _ _ E), wp_ret.
Qed.

Lemma set_event_meets f s :
  driver_ok (ic_heap s) -> live (view (ic_heap s)) f -> wp (run_call (CSetEvent f)) (meets (CSetEvent f) s) s.
Proof.
  intros Hok Hl. cbn. eapply (update_run f MVGAL_EVENT_TAG _ _ RResult); [done|done| |done|].
  - intros r v' Hu _. split; [done|exact Hu].
  - intros p o E Ht. by destruct o.
Qed.

Lemma reset_event_meets f s :
  driver_ok (ic_heap s) -> live (view (ic_heap s)) f -> wp (run_call (CResetEvent f)) (meets (CResetEvent f) s) s.
Proof.
  intros Hok Hl. cbn. eapply (update_run f MVGAL_EVENT_TAG _ _ RResult); [done|done| |done|].
  - intros r v' Hu _. split; [done|exact Hu].
  - intros p o E Ht. by destruct o.
Qed.

Lemma wait_fences_meets fs s :
  driver_ok (ic_heap s) -> Forall (live (view (ic_heap s))) fs -> wp (run_call (CWaitFences fs)) (meets (CWaitFences fs) s) s.
Proof.
  intros Hok Hl. cbn. apply wp_bind. induction Hl as [|f fs Hf _ IH]; [by apply wp_ret, wp_ret|].
  cbn. apply wp_bind. apply live_view in Hf. destruct f as [p|]; [|by apply wp_ret]. destruct Hf as (o & E & t & Ht). cbn.
  apply wp_bind, (wp_object _ _ _ _ E). rewrite Ht. by apply wp_ret.
Qed.

(** Setting the flag of a fence. *)
Lemma set_fence_run f b s (Q : unit -> icd -> Prop) :
  live (view (ic_heap s)) f -> driver_ok (ic_heap s) ->
  (forall h', driver_ok h' ->
    view h' = match find (view (ic_heap s)) f MVGAL_FENCE_TAG with
              | Some (p, _) => <[p := OFence b]> (view (ic_heap s))
              | None => view (ic_heap s)
              end -> Q tt (s <| ic_heap := h' |>)) ->
  wp (with_handle f MVGAL_FENCE_TAG tt (fun p => set_object p (OFence b))) Q s.
Proof.
  intros Hl Hok HQ. apply wp_find; [done| |].
  - intros p o vo E Ht Hv _ Hf. apply wp_set. rewrite Hf in HQ. apply HQ; [|by apply view_insert].
    by apply (set_object_ok _ _ _ _ E); [destruct o|..].
  - intros Hf. rewrite Hf in HQ. specialize (HQ (ic_heap s) Hok eq_refl). by destruct s.
Qed.

(** A fence that changes stays live, and so does everything else. *)
Lemma live_unsignal v f handle : live v handle -> live (unsignal v f) handle.
Proof.
  unfold unsignal. destruct (find v f _) as [[p o]|] eqn:Hf; [|done]. destruct handle as [q|]; [|done].
  intros (oq & Eq & Ht). cbn. destruct (decide (q = p)) as [->|].
  - exists (OFence false). by rewrite lookup_insert_eq.
  - exists oq. by rewrite lookup_insert_ne.
Qed.

Lemma reset_fences_meets fs s :
  driver_ok (ic_heap s) -> Forall (live (view (ic_heap s))) fs -> wp (run_call (CResetFences fs)) (meets (CResetFences fs) s) s.
Proof.
  intros Hok Hl. cbn. apply wp_bind. unfold meets, vk_spec. cbn.
  assert (wp (mvgal_vkResetFences fs) (fun r s' => r = VK_SUCCESS /\ driver_ok (ic_heap s') /\
    view (ic_heap s') = foldl unsignal (view (ic_heap s)) fs /\ ic_active s' = ic_active s) s) as Hw.
  { revert s Hok Hl. induction fs as [|f fs IH]; intros s Hok Hl; [by apply wp_ret|]. inversion_clear Hl as [|? ? Hf Hfs].
    cbn. apply wp_bind, set_fence_run; [done|done|]. intros h' Hok' Hv.
    eapply wp_mono; [apply IH; [done|]|].
    - change (Forall (live (view h')) fs). rewrite Hv. eapply Forall_impl; [exact Hfs|]. intros handle. apply (live_unsignal _ f).
    - intros r s' (-> & ? & Hv' & Ha'). split; [done|]. split; [done|]. split; [|done]. rewrite Hv'.
      change (foldl unsignal (view h') fs = foldl unsignal (unsignal (view (ic_heap s)) f) fs). by rewrite Hv. }
  eapply wp_mono; [exact Hw|]. intros r s' (-> & ? & ? & ?). by apply wp_ret.
Qed.

Lemma submit_meets f s :
  driver_ok (ic_heap s) -> live (view (ic_heap s)) f ->
  (forall d, ic_active s = Some d -> exists dev, view (ic_heap s) !! d = Some (ODevice dev)) ->
  wp (run_call (CSubmit f)) (meets (CSubmit f) s) s.
Proof.
  intros Hok Hl Hact. cbn. apply wp_bind, wp_bind, set_fence_run; [done|done|]. intros h' Hok' Hv.
  apply wp_bind, wp_reads. cbn. destruct (ic_active s) as [d|] eqn:Ea.
  2:{ apply wp_bind, wp_ret, wp_ret, wp_ret. split; [done|]. split; [done|]. cbn. by rewrite Ea. }
  destruct (Hact d eq_refl) as [dev Ed]. assert (view h' !! d = Some (ODevice dev)) as Ed'.
  { rewrite Hv. destruct (find _ f _) as [[p o]|] eqn:Hf; [|done]. rewrite lookup_insert_ne; [done|]. intros ->.
    unfold find in Hf. destruct f as [q|]; [|done]. cbn in Hf. destruct (view _ !! q) as [oq|] eqn:Eq; [|done]. cbn in Hf.
    destruct (decide _) as [Ht|]; [|done]. injection Hf as -> ->. rewrite Ed in Eq. by injection Eq as <-. }
  pose proof Ed' as (o & Eo & Hvo)%view_some. destruct o; try done. injection Hvo as ->.
  apply wp_bind, wp_bind. eapply wp_as_device; [exact Eo|]. apply wp_set, wp_ret, wp_ret.
  pose proof (map_Forall_lookup_1 _ _ _ _ (proj2 Hok') Eo) as Hg. split; [by eapply set_object_ok|]. split; [done|]. split; [done|].
  cbn. rewrite Ea. erewrite view_insert by done. unfold signalled. rewrite <- Hv. apply map_eq. intros a.
  destruct (decide (a = d)) as [->|]; [by rewrite lookup_insert_eq, lookup_alter_eq, Ed'|].
  by rewrite lookup_insert_ne, lookup_alter_ne.
Qed.

End Calls.
