(* ===== verification/VkPools.v ===== *)
(** * Command pools of the Vulkan driver

    Creating, resetting and destroying pools and allocating and freeing their
    buffers: the lists on the heap follow the owners that [VkSpec] has in each
    buffer. *)

From S2P Require Import Prelude GpuTypes GpuManager SchedTypes MemTypes Config Library Api VkIcd VkHeap VkLists VkSpec VkObjects.
Local Open Scope Z_scope.

Section Pools.
Context `{IcdEnv, GpuOS, SchedEnv, MemEnv, ConfigEnv}.
Implicit Types s : icd.

(** ** Pools *)

Lemma create_pool_meets family flags s :
  driver_ok (ic_heap s) -> wp (run_call (CCreatePool family flags)) (meets (CCreatePool family flags) s) s.
Proof.
  intros [[HL HB] Hg]. cbn. apply wp_bind, wp_bind, wp_new.
  2:{ intros _. apply wp_ret, wp_ret. split; [done|]. split; [done|]. by left. }
  intros p Ep. apply wp_ret, wp_ret. unfold meets. cbn. split; [split; [split|]|split; [done|right]].
  - rewrite (skeletons_insert _ _ _ (KPool None)) by done. apply pool_created; [by apply skeletons_none|done].
  - rewrite (skeletons_insert _ _ _ (KPool None)) by done. eapply blocks_ok_frame, HB. intros a k Hk.
    rewrite lookup_insert_Some. pose proof (skeletons_none _ _ Ep). split; [|naive_solver]. intros [[-> <-]|[_ ?]]; done.
  - by apply map_Forall_insert_2.
  - exists p. split; [done|]. split; [by apply none_view|]. by apply view_insert.
Qed.

(** What the handle of a pool gives. *)
Lemma pool_found s p o :
  driver_ok (ic_heap s) -> ic_heap s !! p = Some o -> object_tag o = Some MVGAL_POOL_TAG ->
  exists r ns, o = OPool r /\ pool_list (skeletons (ic_heap s)) p (vp_cmdbufs r) ns /\
    (forall cb, cb ∈ ns.*2 <-> exists c, ic_heap s !! cb = Some (OBuffer c) /\ vc_pool c = p).
Proof.
  intros [[HL _] _] E Ht. destruct o as [| |r| | | | | |]; try done. pose proof (skeletons_some _ _ _ E) as Ek.
  destruct (lo_pools _ HL _ _ Ek) as [ns Hns]. exists r, ns. split; [done|]. split; [done|].
  destruct Hns as (_ & _ & Hb). intros cb. rewrite Hb. split; [apply buffer_on_heap|]. intros (c & Ec & <-).
  by rewrite (skeletons_some _ _ _ Ec).
Qed.

(** Nodes are no buffers and no pools. *)
Lemma chain_kind h start ns n : chain (skeletons h) start ns -> n ∈ ns.*1 -> exists nd, h !! n = Some (ONode nd).
Proof. intros Hc Hn. destruct (chain_node _ _ _ _ Hc Hn) as (? & ? & E%node_on_heap & _). eauto. Qed.

Lemma reset_pool_meets p s :
  driver_ok (ic_heap s) -> live (view (ic_heap s)) p -> wp (run_call (CResetPool p)) (meets (CResetPool p) s) s.
Proof.
  intros Hok Hl. cbn. apply wp_bind, wp_find; [done| |].
  2:{ intros Hf. apply wp_ret. split; [done|]. split; [done|]. by rewrite Hf. }
  intros q o vo E Ht Hv _ Hf. destruct (pool_found _ _ _ Hok E Ht) as (r & ns & -> & Hpl & Hb).
  apply wp_bind, (wp_as_pool _ _ _ _ E), wp_bind, wp_reads, wp_bind. pose proof Hpl as (Hc & Hnd & _).
  pose proof (chain_length _ _ _ Hc Hnd) as Hlen. eapply wp_mono; [apply (reset_nodes_run _ _ ns); [done| |lia]|].
  { intros cb (c & Ec & _)%Hb. eauto. }
  intros _ s' (h' & -> & Hk & Hh'). apply wp_ret, wp_ret. unfold meets. cbn. split; [split|].
  - unfold heap_ok. rewrite Hk. apply Hok.
  - intros a o. rewrite Hh'. destruct Hok as [_ Hg]. case_decide as Ha; [|apply Hg].
    apply Hb in Ha as (c & -> & _). by intros [= <-].
  - split; [done|]. rewrite Hf. split; [done|]. apply map_eq. intros a. rewrite lookup_fmap, !lookup_view, Hh'.
    case_decide as Ha; [apply Hb in Ha as (c & -> & <-); cbn; by rewrite bool_decide_eq_true_2|].
    destruct (ic_heap s !! a) as [oa|] eqn:Ea; [|done]. cbn. destruct oa as [| | | |c| | | |]; try done. cbn.
    rewrite bool_decide_eq_false_2; [done|]. intros Hq. apply Ha, Hb. eauto.
Qed.

(** The objects that are left when a pool [q] and its buffers are gone. *)
Lemma pool_swept h h' q r ns :
  h !! q = Some (OPool r) -> chain (skeletons h) (vp_cmdbufs r) ns ->
  (forall cb, cb ∈ ns.*2 <-> exists c, h !! cb = Some (OBuffer c) /\ vc_pool c = q) ->
  (forall a, h' !! a = if decide (a = q \/ a ∈ ns.*1 \/ a ∈ ns.*2) then None else h !! a) ->
  view h' = filter (fun '(a, o) => a <> q /\ buffer_of q o = false) (view h).
Proof.
  intros E Hc Hb Hd. apply map_eq. intros a. rewrite lookup_view, Hd. symmetry. case_decide as Ha.
  - apply map_lookup_filter_None. rewrite lookup_view. destruct Ha as [->|[Ha|Ha]].
    + right. naive_solver.
    + left. by destruct (chain_kind _ _ _ _ Hc Ha) as [nd ->].
    + right. intros x. apply Hb in Ha as (c & -> & <-). cbn. intros [= <-] [_ Hx]. cbn in Hx.
      by rewrite bool_decide_eq_true_2 in Hx.
  - destruct (h !! a ≫= view_of) as [va|] eqn:Ea.
    + apply map_lookup_filter_Some. rewrite lookup_view. split; [done|]. split; [tauto|].
      destruct (h !! a) as [oa|] eqn:Eo; [|done]. destruct oa as [| | | |c| | | |]; try (injection Ea as <-); try done. cbn.
      rewrite bool_decide_eq_false_2; [done|]. intros Hc'. apply Ha. right; right. apply Hb. eauto.
    + apply map_lookup_filter_None. left. by rewrite lookup_view.
Qed.

Lemma destroy_pool_meets p s :
  driver_ok (ic_heap s) -> live (view (ic_heap s)) p -> wp (run_call (CDestroyPool p)) (meets (CDestroyPool p) s) s.
Proof.
  intros Hok Hl. cbn. apply wp_bind, wp_find; [done| |].
  2:{ intros Hf. apply wp_ret. split; [done|]. split; [done|]. by rewrite Hf. }
  intros q o vo E Ht Hv _ Hf. destruct (pool_found _ _ _ Hok E Ht) as (r & ns & -> & Hpl & Hb).
  apply wp_bind, (wp_as_pool _ _ _ _ E), wp_bind, wp_reads, wp_bind. pose proof Hpl as (Hc & Hnd & _).
  pose proof (chain_length _ _ _ Hc Hnd) as Hlen. eapply wp_mono; [apply (free_nodes_run _ _ ns); [done|done| |lia]|].
  { intros cb (c & Ec & _)%Hb. eauto. }
  intros _ s' (h' & -> & Hh'). assert (~ (q ∈ ns.*1 \/ q ∈ ns.*2)) as Hq.
  { intros [Hn|(c & Ec & _)%Hb]; [|congruence]. destruct (chain_kind _ _ _ _ Hc Hn) as [nd En]. congruence. }
  eapply wp_free_object; [cbn; rewrite Hh', decide_False by done; exact E|]. apply wp_ret. unfold meets. cbn.
  assert (forall a, delete q h' !! a = if decide (a = q \/ a ∈ ns.*1 \/ a ∈ ns.*2) then None else ic_heap s !! a) as Hd.
  { intros a. destruct (decide (a = q)) as [->|]; [by rewrite lookup_delete_eq, decide_True by auto|].
    rewrite lookup_delete_ne, Hh' by done. apply decide_ext. tauto. }
  split; [split; [split|]|].
  - eapply (pool_removed (skeletons (ic_heap s)) _ q); [by rewrite (skeletons_some _ _ _ E)|exact Hpl| |apply Hok].
    intros a. rewrite !lookup_skeletons, Hd. by case_decide.
  - eapply blocks_ok_frame, (proj2 (proj1 Hok)). intros a k Hk. rewrite !lookup_skeletons, Hd. case_decide as Ha; [|done].
    split; [done|]. intros Ea. destruct Ha as [->|[Ha|Ha]].
    + rewrite E in Ea. by injection Ea as <-.
    + destruct (chain_kind _ _ _ _ Hc Ha) as [nd En]. rewrite En in Ea. by injection Ea as <-.
    + apply Hb in Ha as (c & Ec & _). rewrite Ec in Ea. by injection Ea as <-.
  - intros a oa. rewrite Hd. case_decide; [done|]. apply (proj2 Hok).
  - split; [done|]. rewrite Hf. split; [done|]. exact (pool_swept _ _ _ _ _ E Hc Hb Hd).
Qed.

(** ** Buffers *)

(** One more buffer in a pool. *)
Lemma buffer_added h p r cb n level :
  driver_ok h -> h !! p = Some (OPool r) -> h !! cb = None -> h !! n = None -> n <> cb ->
  let h' := <[p := OPool (r <| vp_cmdbufs := Some n |>)]>
              (<[n := ONode (mk_node (vp_cmdbufs r) (Some cb))]> (<[cb := OBuffer (mk_cmdbuf level MVGAL_CMDBUF_INITIAL p)]> h)) in
  driver_ok h' /\ view h' = <[cb := OBuffer (mk_cmdbuf level MVGAL_CMDBUF_INITIAL p)]> (view h).
Proof.
  intros Hok Ep Ec En Hne h'. pose proof (skeletons_some _ _ _ Ep) as Kp. cbn in Kp.
  destruct (lo_pools _ (proj1 (proj1 Hok)) _ _ Kp) as [ns Hns].
  assert (skeletons h' = <[p := KPool (Some n)]> (<[n := KNode (vp_cmdbufs r) (Some cb)]> (<[cb := KBuffer p]> (skeletons h)))) as Hk
    by (unfold h'; by erewrite !skeletons_insert by done).
  split; [split; [split|]|].
  - rewrite Hk. apply (buffer_created _ _ _ ns); [done|done|by apply skeletons_none..|done|apply Hok].
  - rewrite Hk. eapply blocks_ok_frame, (proj2 (proj1 Hok)). intros a k Hm. apply skeletons_none in Ec, En.
    rewrite !lookup_insert_Some. split.
    2:{ intros Ea. right. split; [intros <-; rewrite Kp in Ea; by injection Ea as <-|].
        right. split; [congruence|]. right. split; [congruence|done]. }
    intros [[_ <-]|[_ [[_ <-]|[_ [[_ <-]|[_ ?]]]]]]; done.
  - apply map_Forall_insert_2; [done|]. apply map_Forall_insert_2; [done|]. apply map_Forall_insert_2; [done|apply Hok].
  - unfold h'. erewrite view_insert by done. rewrite view_hidden; [|done|by rewrite lookup_insert_ne, En by done].
    erewrite view_insert by done. apply insert_id. rewrite lookup_insert_ne by congruence. by rewrite lookup_view, Ep.
Qed.

(** One pass of the loop whose two allocations succeed. *)
Lemma allocate_step count p level filled r s (Q : VkResult * list addr -> icd -> Prop) :
  driver_ok (ic_heap s) -> ic_heap s !! p = Some (OPool r) ->
  (forall cb s', driver_ok (ic_heap s') -> ic_heap s !! cb = None -> ic_active s' = ic_active s ->
    ic_allocs s' = S (S (ic_allocs s)) -> (exists r', ic_heap s' !! p = Some (OPool r')) ->
    view (ic_heap s') = <[cb := OBuffer (mk_cmdbuf level MVGAL_CMDBUF_INITIAL p)]> (view (ic_heap s)) ->
    wp (allocate_buffers count p level (filled ++ [cb])) Q s') ->
  (icd_alloc (ic_allocs s) = false \/ icd_alloc (S (ic_allocs s)) = false ->
    forall s', ic_heap s' = ic_heap s -> ic_active s' = ic_active s ->
      wp (free_buffers filled;; mret (VK_ERROR_OUT_OF_HOST_MEMORY, [])) Q s') ->
  wp (allocate_buffers (S count) p level filled) Q s.
Proof.
  intros Hok Ep Hnext Hfail. cbn [allocate_buffers]. apply wp_bind, wp_new; [|intros Ha; apply Hfail; [by left|done|done]].
  intros cb Ec. apply wp_bind, wp_new; cbn [grown].
  - intros n En. cbn in En. assert (n <> cb) as Hne by (intros ->; by rewrite lookup_insert_eq in En).
    rewrite lookup_insert_ne in En by done. assert (p <> n /\ p <> cb) as [Hpn Hpc] by (split; congruence).
    apply wp_bind. eapply wp_as_pool; [cbn; rewrite !lookup_insert_ne by done; exact Ep|].
    apply wp_bind, wp_set, wp_bind, wp_set.
    destruct (buffer_added _ _ _ _ _ level Hok Ep Ec En Hne) as [Hok' Hv'].
    apply Hnext; cbn; rewrite ?insert_insert_eq; try done. exists (r <| vp_cmdbufs := Some n |>). apply lookup_insert_eq.
  - intros Ha. apply wp_bind. eapply wp_free_object; [cbn; apply lookup_insert_eq|]. apply Hfail; [by right|cbn|done].
    by rewrite delete_insert_id.
Qed.

Lemma insert_all_comm {V} (x : V) (cbs : list positive) cb (v : gmap positive V) :
  foldr (fun c => <[c := x]>) (<[cb := x]> v) cbs = <[cb := x]> (foldr (fun c => <[c := x]>) v cbs).
Proof.
  induction cbs as [|c cbs IH]; [done|]. cbn. rewrite IH. destruct (decide (c = cb)) as [->|]; [done|]. by apply insert_insert_ne.
Qed.

(** The buffers of a call that gets all its memory. *)
Lemma allocate_run count p level filled r s :
  driver_ok (ic_heap s) -> ic_heap s !! p = Some (OPool r) ->
  (forall i, (i < 2 * count)%nat -> icd_alloc (ic_allocs s + i)%nat = true) ->
  wp (allocate_buffers count p level filled) (fun x s' => exists cbs, x = (VK_SUCCESS, filled ++ cbs) /\ length cbs = count /\
    NoDup cbs /\ (forall cb, cb ∈ cbs -> view (ic_heap s) !! cb = None) /\ driver_ok (ic_heap s') /\ ic_active s' = ic_active s /\
    view (ic_heap s') = foldr (fun cb => <[cb := OBuffer (mk_cmdbuf level MVGAL_CMDBUF_INITIAL p)]>) (view (ic_heap s)) cbs) s.
Proof.
  revert filled r s. induction count as [|count IH]; intros filled r s Hok Ep Ha.
  { apply wp_ret. exists []. rewrite app_nil_r. split; [done|]. split; [done|]. split; [constructor|]. split; [|done].
    by intros cb ?%elem_of_nil. }
  eapply allocate_step; [done|exact Ep| |].
  - intros cb s' Hok' Ec Hact Hal [r' Ep'] Hv. eapply wp_mono; [apply (IH _ r'); [done|done|]|].
    + intros i Hi. rewrite Hal. replace (S (S (ic_allocs s)) + i)%nat with (ic_allocs s + S (S i))%nat by lia. apply Ha. lia.
    + intros x s2 (cbs & -> & Hlen & Hnd & Hnew & Hok2 & Hact2 & Hv2). exists (cb :: cbs). rewrite <- app_assoc.
      assert (cb ∉ cbs) as Hcb by (intros Hin; specialize (Hnew _ Hin); by rewrite Hv, lookup_insert_eq in Hnew).
      split; [done|]. split; [by cbn; rewrite Hlen|]. split; [by constructor|]. split; [|split; [done|split; [congruence|]]].
      * intros c [->|Hc]%elem_of_cons; [by apply none_view|]. specialize (Hnew _ Hc). rewrite Hv in Hnew.
        by rewrite lookup_insert_None in Hnew; destruct Hnew.
      * cbn. by rewrite Hv2, Hv, insert_all_comm.
  - intros Hfail. exfalso. pose proof (Ha 0%nat ltac:(lia)) as H00. pose proof (Ha 1%nat ltac:(lia)) as H01.
    replace (ic_allocs s + 0)%nat with (ic_allocs s) in H00 by lia. replace (ic_allocs s + 1)%nat with (S (ic_allocs s)) in H01 by lia.
    destruct Hfail; congruence.
Qed.

Lemma allocate_buffers_meets p level count s :
  driver_ok (ic_heap s) -> live (view (ic_heap s)) p -> memory_for (ic_allocs s) (CAllocateBuffers p level count) ->
  wp (run_call (CAllocateBuffers p level count)) (meets (CAllocateBuffers p level count) s) s.
Proof.
  intros Hok Hl Hmem. cbn. apply wp_bind, wp_find; [done| |].
  2:{ intros Hf. apply wp_ret. split; [done|]. split; [done|]. by rewrite Hf. }
  intros q o vo E Ht Hv _ Hf. destruct o as [| |r| | | | | |]; try done.
  assert (forall s', wp (allocate_buffers (Z.to_nat count) q level []) (fun x s' => meets (CAllocateBuffers p level count) s (RHandles x.1 x.2) s') s' ->
    wp (allocate_buffers (Z.to_nat count) q level []) (fun x => wp (mret (RHandles x.1 x.2)) (meets (CAllocateBuffers p level count) s)) s') as Hret
    by (intros s' Hw; eapply wp_mono; [exact Hw|]; intros x s2 Hx; by apply wp_ret).
  apply Hret. clear Hret. unfold meets, vk_spec. rewrite Hf.
  assert ((forall i, (i < 2 * Z.to_nat count)%nat -> icd_alloc (ic_allocs s + i)%nat = true) \/ Z.to_nat count = 1%nat) as [Ha|Hone].
  { destruct Hmem as [Hc|]; [|by left]. destruct (Z.to_nat count) as [|[|]] eqn:En; [left; intros; lia|by right|lia]. }
  - eapply wp_mono; [by eapply allocate_run|]. intros x s' (cbs & -> & ? & ? & ? & ? & ? & ?). cbn.
    split; [done|]. split; [done|]. right. exists cbs. auto.
  - rewrite Hone. eapply allocate_step; [done|exact E| |].
    + intros cb s' Hok' Ec Hact _ _ Hv'. apply wp_ret. split; [done|]. split; [done|]. right. exists [cb]. split; [done|].
      split; [done|]. split; [apply NoDup_singleton|]. split; [|done]. intros c ->%list_elem_of_singleton. by apply none_view.
    + intros _ s' Hh Hact. apply wp_bind, wp_ret, wp_ret. rewrite Hh. split; [done|]. split; [done|]. by left.
Qed.

(** ** Freeing buffers *)

(** The heap [h'] that the walk over the list of a pool leaves. *)
Section Unlinked.
Context (h h' : gmap positive icd_object) (p : addr) (r : mvgal_icd_command_pool_t) (w : option addr).
Context (l1 l2 : list (addr * addr)) (n cb : addr) (c : mvgal_icd_command_buffer_t).
Context (Hok : driver_ok h) (Ep : h !! p = Some (OPool r)) (Ec : h !! cb = Some (OBuffer c)).
Context (Hpl : pool_list (skeletons h) p (vp_cmdbufs r) (l1 ++ (n, cb) :: l2)).
Context (Ep' : h' !! p = Some (relink w (OPool r))) (Hc' : chain (skeletons h') w (l1 ++ l2)) (En : h' !! n = None).
Context (Hf : forall a, a <> n -> a <> p -> a ∉ l1.*1 -> h' !! a = h !! a).

Lemma unlinked_cases a :
  h' !! a = h !! a \/ (h !! a = Some (OPool r) /\ h' !! a = Some (relink w (OPool r))) \/
  exists nd, h !! a = Some (ONode nd) /\ (h' !! a = None \/ exists nd', h' !! a = Some (ONode nd')).
Proof using Hok Ep Ec Hpl Ep' Hc' En Hf.
  pose proof (proj1 Hpl) as Hc. destruct (decide (a = p)) as [->|]; [by right; left|].
  destruct (decide (a = n)) as [->|].
  { right; right. destruct (chain_kind _ _ _ n Hc) as [nd E]; [rewrite fmap_app; set_solver|]. exists nd. auto. }
  destruct (decide (a ∈ l1.*1)) as [Ha|]; [|left; by apply Hf]. right; right.
  destruct (chain_kind _ _ _ a Hc) as [nd E]; [rewrite fmap_app; set_solver|]. exists nd. split; [done|]. right.
  apply (chain_kind _ _ _ a Hc'). rewrite fmap_app; set_solver.
Qed.

Lemma unlinked_view : view h' = view h.
Proof using Hok Ep Ec Hpl Ep' Hc' En Hf.
  apply map_eq. intros a. rewrite !lookup_view. destruct (unlinked_cases a) as [->|[[-> ->]|(nd & -> & [->|[nd' ->]])]]; done.
Qed.

Lemma unlinked_memory a k : of_memory k = true -> skeletons h' !! a = Some k <-> skeletons h !! a = Some k.
Proof using Hok Ep Ec Hpl Ep' Hc' En Hf.
  intros Hk. rewrite !lookup_skeletons. destruct (unlinked_cases a) as [->|[[-> ->]|(nd & -> & [->|[nd' ->]])]];
    [done|cbn; split; intros [= <-]; done..].
Qed.

Lemma unlinked_good : map_Forall (fun _ => good) h'.
Proof using Hok Ep Ec Hpl Ep' Hc' En Hf.
  intros a o Ea. destruct (unlinked_cases a) as [E|[[_ E]|(nd & _ & [E|[nd' E]])]]; rewrite Ea in E; try by injection E as ->.
  - by apply (proj2 Hok a).
  - done.
Qed.

Lemma unlinked_buffer : h' !! cb = Some (OBuffer c).
Proof using Hok Ep Ec Hpl Ep' Hc' En Hf.
  destruct (unlinked_cases cb) as [E|[[E _]|(nd & E & _)]]; rewrite Ec in E; by try injection E.
Qed.

(** Freeing the buffer then completes the call. *)
Lemma unlinked_done : driver_ok (delete cb h') /\ view (delete cb h') = delete cb (view h).
Proof using Hok Ep Ec Hpl Ep' Hc' En Hf.
  split; [|by rewrite view_delete, unlinked_view]. split; [split|apply map_Forall_delete, unlinked_good]; rewrite skeletons_delete.
  - eapply (buffer_removed (skeletons h) _ p _ w l1 n cb l2); [by rewrite (skeletons_some _ _ _ Ep)|done|..|apply Hok].
    + rewrite lookup_delete_ne by congruence. by rewrite (skeletons_some _ _ _ Ep').
    + eapply chain_frame, Hc'. intros m Hm. destruct (chain_kind _ _ _ _ Hc' Hm) as [nd Em].
      rewrite lookup_delete_ne; [done|]. pose proof unlinked_buffer. congruence.
    + rewrite lookup_delete_ne by (pose proof unlinked_buffer; congruence). by apply skeletons_none.
    + apply lookup_delete_eq.
    + intros a ? ? ? ?. rewrite lookup_delete_ne by done. by rewrite !lookup_skeletons, Hf.
  - eapply blocks_ok_frame, (proj2 (proj1 Hok)). intros a k Hk. rewrite lookup_delete_Some, unlinked_memory by done.
    split; [tauto|]. intros Ea. split; [|done]. intros <-. rewrite (skeletons_some _ _ _ Ec) in Ea. by injection Ea as <-.
Qed.
End Unlinked.

(** The pass of [mvgal_vkFreeCommandBuffers] for a buffer of the pool. *)
Lemma free_one_run p r cb c s (Q : unit -> icd -> Prop) :
  driver_ok (ic_heap s) -> ic_heap s !! p = Some (OPool r) -> ic_heap s !! cb = Some (OBuffer c) -> vc_pool c = p ->
  (forall h', driver_ok h' -> view h' = delete cb (view (ic_heap s)) -> Q tt (s <| ic_heap := h' |>)) ->
  wp (fuel ← heap_fuel; unlink_buffer fuel (LHead p) cb;; free_object cb) Q s.
Proof.
  intros Hok Ep Ec Hcp HQ. destruct (pool_found s p (OPool r) Hok Ep eq_refl) as (r' & ns & [= <-] & Hpl & Hb).
  pose proof Hpl as (Hc & Hnd & _). pose proof (chain_length _ _ _ Hc Hnd) as Hlen. pose proof (chain_nodup _ _ _ Hc Hnd) as Hnn.
  assert (cb ∈ ns.*2) as ([n cb'] & -> & Hin)%list_elem_of_fmap by (apply Hb; eauto). cbn in *.
  apply list_elem_of_split in Hin as (l1 & l2 & ->). apply wp_bind, wp_reads, wp_bind. rewrite length_app in Hlen. cbn in Hlen.
  assert (cb' ∉ l1.*2) as Hni.
  { rewrite fmap_app in Hnd. apply NoDup_app in Hnd as (_ & Hd & _). intros Ha. apply (Hd _ Ha). left. }
  eapply wp_mono; [apply (unlink_run _ (LHead p) (OPool r) (vp_cmdbufs r) l1 n cb' l2); try done|].
  - constructor; [|done]. intros Hp. destruct (chain_kind _ _ _ _ Hc Hp) as [nd E]. cbn in E. congruence.
  - lia.
  - intros _ s' (h' & w & -> & Ep' & Hc' & En & Hf). cbn in Ep', Hf.
    destruct (unlinked_done _ h' p r w l1 l2 n cb' c Hok Ep Ec Hpl Ep' Hc' En Hf) as [Hok' Hv'].
    eapply wp_free_object; [exact (unlinked_buffer _ h' p r w l1 l2 n cb' c Hok Ep Ec Hpl Ep' Hc' En Hf)|]. by apply HQ.
Qed.

(** What the call relies on for each of its buffers. *)
Definition freeable (v : objects) (p : addr) (b : option addr) : Prop :=
  live v b /\ forall cb c, b = Some cb -> v !! cb = Some (OBuffer c) -> vc_pool c = p.

Lemma freeable_after v p cb b : Some cb <> b -> freeable v p b -> freeable (delete cb v) p b.
Proof.
  intros Hne [Hl Hp]. split.
  - destruct b as [q|]; [|done]. destruct Hl as (o & E & Ht). exists o. by rewrite lookup_delete_ne by congruence.
  - intros q c -> E. apply (Hp q c eq_refl). by rewrite lookup_delete_ne in E by congruence.
Qed.

Lemma free_buffers_run p bufs s :
  driver_ok (ic_heap s) -> (exists r, ic_heap s !! p = Some (OPool r)) -> NoDup (omap id bufs) ->
  Forall (freeable (view (ic_heap s)) p) bufs ->
  wp (free_command_buffers p bufs) (fun _ s' => driver_ok (ic_heap s') /\
    view (ic_heap s') = foldl drop_buffer (view (ic_heap s)) bufs /\ ic_active s' = ic_active s) s.
Proof.
  revert s. induction bufs as [|b bufs IH]; intros s Hok [r Ep] Hnd Hall; [by apply wp_ret|].
  inversion_clear Hall as [|? ? [Hl Hp] Hrest]. cbn [free_command_buffers foldl]. apply wp_bind, wp_find; [done| |].
  - intros cb o vo E Ht Hv -> Hf. destruct o as [| | | |c| | | |]; try done.
    apply (free_one_run p r cb c); [done|done|done|apply (Hp cb c eq_refl); by rewrite lookup_view, E|].
    intros h' Hok' Hv'. cbn [omap list_omap id] in Hnd. apply NoDup_cons in Hnd as [Hcb Hnd].
    eapply wp_mono; [apply IH; [done| |done|]|].
    + assert (view h' !! p = view_of (OPool r)) as Hvp.
      { rewrite Hv', lookup_delete_ne by congruence. by rewrite lookup_view, Ep. }
      apply view_some in Hvp as (o & Eo & Hvo). cbn. destruct o; try done. eauto.
    + change (Forall (freeable (view h') p) bufs). rewrite Hv'. apply Forall_forall. intros b Hb.
      apply freeable_after; [|by eapply Forall_forall in Hrest]. intros <-. apply Hcb, list_elem_of_omap. by exists (Some cb).
    + intros _ s' (? & Hs' & ?). split; [done|]. split; [|done]. rewrite Hs'.
      change (foldl drop_buffer (view h') bufs = foldl drop_buffer (drop_buffer (view (ic_heap s)) (Some cb)) bufs).
      f_equal. unfold drop_buffer. by rewrite Hf.
  - intros Hf. assert (drop_buffer (view (ic_heap s)) b = view (ic_heap s)) as -> by (unfold drop_buffer; by rewrite Hf).
    apply IH; [done|eauto| |done]. destruct b; [|done]. cbn [omap list_omap id] in Hnd. by apply NoDup_cons in Hnd as [_ ?].
Qed.

Lemma free_buffers_meets p bufs s :
  driver_ok (ic_heap s) -> usable (view (ic_heap s)) (ic_active s) (CFreeBuffers p bufs) ->
  wp (run_call (CFreeBuffers p bufs)) (meets (CFreeBuffers p bufs) s) s.
Proof.
  intros Hok (Hl & Hnd & Hb). cbn. apply wp_bind, wp_find; [done| |].
  2:{ intros Hf. apply wp_ret. split; [done|]. split; [done|]. by rewrite Hf. }
  intros q o vo E Ht Hv -> Hf. destruct o as [| |r| | | | | |]; try done.
  eapply wp_mono; [apply free_buffers_run; [done|eauto|done|]|].
  - apply Forall_forall. intros b [Hlb Hpb]%Hb. split; [done|]. intros cb c Ecb Ec. specialize (Hpb _ _ Ecb Ec). congruence.
  - intros _ s' (? & ? & ?). apply wp_ret. split; [done|]. split; [done|]. by rewrite Hf.
Qed.

End Pools.
