(* ===== verification/VkDriver.v ===== *)
(** * The Vulkan driver as a whole

    Devices and their queues, and the theorem that every run of the driver does
    what [VkSpec] says of the objects of an application. *)

From S2P Require Import Prelude GpuTypes GpuManager SchedTypes MemTypes Config Library Api VkIcd VkHeap VkLists VkSpec VkObjects VkPools.
Local Open Scope Z_scope.

(** ** Queues *)

(** The queues of one family, numbered from [q]. *)
Lemma assign_run n family queues used q :
  used !! family = Some q -> 0 <= q -> q + Z.of_nat n <= U32_MAX -> (length queues + n <= MVGAL_ICD_MAX_QUEUES)%nat ->
  exists new, assign_queues n family queues used = (queues ++ new, <[family := q + Z.of_nat n]> used) /\
    key <$> new = (fun i => (Z.of_nat family, i)) <$> seqZ q (Z.of_nat n).
Proof.
  revert queues used q. induction n as [|n IH]; intros queues used q E Hq Hmax Hlen.
  { exists []. cbn. by rewrite app_nil_r, Z.add_0_r, list_insert_id. }
  cbn [assign_queues]. destruct (Nat.ltb_spec (length queues) MVGAL_ICD_MAX_QUEUES); [|lia].
  rewrite (list_lookup_total_correct _ _ _ E), (u32_small (q + 1)) by (unfold is_u32; lia).
  destruct (IH (queues ++ [mk_queue (Z.of_nat family) q U32_MAX]) (<[family := q + 1]> used) (q + 1)) as (new & -> & Hnew).
  - apply list_lookup_insert_eq. by apply lookup_lt_Some in E.
  - lia.
  - lia.
  - rewrite length_app. cbn. lia.
  - exists (mk_queue (Z.of_nat family) q U32_MAX :: new). split.
    { rewrite <- app_assoc, list_insert_insert_eq. by replace (q + 1 + Z.of_nat n) with (q + Z.of_nat (S n)) by lia. }
    rewrite Nat2Z.inj_succ, seqZ_cons by lia. cbn. rewrite Hnew. by rewrite Z.pred_succ, Z.add_1_r.
Qed.

(** The counts of the families stay within the limits of the table. *)
Definition small_families (families : option (list (Z * Z))) : Prop :=
  forall fs, families = Some fs -> length fs = 3%nat /\ Forall (fun f => f.2 <= 16) fs.

Lemma queue_families_small n descs : small_families (Some (queue_families n descs)).
Proof.
  intros fs [= <-]. split; [done|]. unfold queue_families.
  repeat (apply Forall_cons; split; [cbn; repeat case_match; lia|]). constructor.
Qed.

Lemma small_max families f :
  small_families families -> (f < 3)%nat -> match families with Some fs => (fs !!! f).2 | None => 4 end <= 16.
Proof.
  intros Hs Hf. destruct families as [fs|]; [|lia]. destruct (Hs fs eq_refl) as [Hlen Hall].
  destruct (lookup_lt_is_Some_2 fs f) as [x E]; [lia|]. rewrite (list_lookup_total_correct _ _ _ E).
  exact (Forall_lookup_1 _ _ _ _ Hall E).
Qed.

Lemma seqZ_length_sum infos : Forall (fun i => 0 <= i.1 < 3 /\ 0 <= i.2 <= 16) infos ->
  (length (requested infos) <= 16 * length infos)%nat.
Proof.
  induction 1 as [|i infos [_ Hi] _ IH]; [done|]. cbn [requested flat_map]. rewrite length_app, length_fmap, length_seqZ.
  cbn [length]. unfold requested in IH. lia.
Qed.

(** Distinct families are three at most. *)
Lemma families_bound (l : list Z) : NoDup l -> Forall (fun f => 0 <= f < 3) l -> (length l <= 3)%nat.
Proof.
  intros Hnd Hall. change 3%nat with (length (seqZ 0 3)). apply submseteq_length, NoDup_submseteq; [done|].
  intros f Hf. apply elem_of_seqZ. eapply Forall_forall in Hall; [|done]. lia.
Qed.

Section Devices.
Context `{IcdEnv, GpuOS, SchedEnv, MemEnv, ConfigEnv}.
Implicit Types s : icd.

Lemma create_queues_run rest families s :
  small_families families -> forall before queues used,
  NoDup (before ++ rest).*1 -> Forall (fun i => 0 <= i.1 < 3 /\ 0 <= i.2 <= 16) before -> Forall (fun i => 0 <= i.1 /\ 0 <= i.2) rest ->
  key <$> queues = requested before -> length used = 3%nat -> Forall (fun i => 3 <= i.1 \/ used !! Z.to_nat i.1 = Some 0) rest ->
  wp (create_queues rest 3 families queues (Some used)) (fun r s' => s' = s /\
    forall qs, r = Some qs -> key <$> qs = requested (before ++ rest)) s.
Proof.
  intros Hs. induction rest as [|[f c] rest IH]; intros before queues used Hnd Hbefore Hrest Hkey Hlen Hused.
  { apply wp_ret. split; [done|]. intros qs [= <-]. by rewrite app_nil_r. }
  inversion_clear Hrest as [|? ? [Hf0 Hc0] Hrest']. inversion_clear Hused as [|? ? Hu Hused']. cbn [fst snd] in *.
  cbn [create_queues]. destruct (Z.leb_spec 3 f); [by apply wp_ret|]. destruct Hu as [?|Hu]; [lia|].
  assert (Z.to_nat f < 3)%nat as Hf3 by lia. pose proof (small_max families _ Hs Hf3) as Hmax.
  destruct (Z.ltb_spec (match families with Some fs => (fs !!! Z.to_nat f).2 | None => 4 end) c) as [|Hc]; [by apply wp_ret|].
  assert (Forall (fun i => 0 <= i.1 < 3 /\ 0 <= i.2 <= 16) (before ++ [(f, c)])) as Hbefore'.
  { apply Forall_app. split; [done|]. apply Forall_singleton. cbn. lia. }
  assert (NoDup (before ++ [(f, c)]).*1) as Hnd'.
  { rewrite !fmap_app in *. cbn in *. by rewrite cons_middle, app_assoc in Hnd; apply NoDup_app in Hnd as [? _]. }
  assert (length (before ++ [(f, c)]) <= 3)%nat as Hl3.
  { rewrite <- (length_fmap fst). apply families_bound; [done|]. apply Forall_fmap. eapply Forall_impl; [exact Hbefore'|]. naive_solver. }
  pose proof (seqZ_length_sum _ Hbefore) as Hsum. rewrite <- Hkey, length_fmap in Hsum. rewrite length_app in Hl3. cbn in Hl3.
  destruct (assign_run (Z.to_nat c) (Z.to_nat f) queues used 0 Hu) as (new & -> & Hnew);
    [lia|unfold U32_MAX; lia|unfold MVGAL_ICD_MAX_QUEUES; lia|]. cbn beta iota. rewrite !Z2Nat.id in * by done.
  eapply wp_mono; [apply (IH (before ++ [(f, c)]))|].
  - by rewrite <- app_assoc.
  - done.
  - done.
  - rewrite fmap_app, Hkey, Hnew. unfold requested. rewrite flat_map_app. cbn. by rewrite app_nil_r.
  - by rewrite length_insert.
  - apply Forall_forall. intros [g d] Hg. pose proof Hg as Hg'. eapply Forall_forall in Hused'; [|exact Hg]. cbn in *.
    eapply Forall_forall in Hrest'; [|exact Hg']. cbn in Hrest'. destruct Hused' as [?|E]; [by left|right].
    rewrite list_lookup_insert_ne; [done|]. intros Hfg. assert (f = g) as -> by lia.
    rewrite fmap_app in Hnd. apply NoDup_app in Hnd as (_ & _ & [Hni _]%NoDup_cons). apply Hni, list_elem_of_fmap. by exists (g, d).
  - intros r s' [-> Hr]. split; [done|]. intros qs Eq. rewrite (Hr _ Eq). by rewrite <- app_assoc.
Qed.

(** ** Queries of the library *)

Lemma wp_lib {A} (m : LM A) (Q : A -> icd -> Prop) s :
  (exists a l', m (ic_lib s) = Ret (a, l') /\ Q a (s <| ic_lib := l' |>)) -> wp (on_lib m) Q s.
Proof. intros (a & l' & E & HQ). unfold wp, on_lib. by rewrite E. Qed.

Lemma on_gpus_returns {A} (f : mvgal_gpu_manager_state_t -> A * mvgal_gpu_manager_state_t) l : exists a l', on_gpus f l = Ret (a, l').
Proof. unfold on_gpus. destruct (f (lib_manager l)) as [a g]. eauto. Qed.

Lemma descriptors_return n i l : exists ds l', gpu_descriptors n i l = Ret (ds, l').
Proof.
  revert i l. induction n as [|n IH]; intros i l; [by exists [], l|]. cbn [gpu_descriptors].
  destruct (on_gpus_returns (mvgal_gpu_get_descriptor i true) l) as (a & l1 & E1). rewrite (bind_ret _ _ _ _ _ E1).
  destruct (IH (i + 1) l1) as (ds & l2 & E2). rewrite (bind_ret _ _ _ _ _ E2). by eexists _, l2.
Qed.

Lemma families_return given properties l :
  exists fs l', mvgal_get_queue_family_properties (Some given) properties l = Ret ((Some 3, fs), l') /\
    (properties = true -> 3 <= given -> small_families (Some fs)).
Proof.
  cbn [mvgal_get_queue_family_properties]. destruct (on_gpus_returns mvgal_gpu_get_count l) as (n & l1 & E1).
  rewrite (bind_ret _ _ _ _ _ E1). cbn zeta.
  destruct (descriptors_return (Z.to_nat (if n <? 0 then 0 else n)) 0 l1) as (ds & l2 & E2). rewrite (bind_ret _ _ _ _ _ E2).
  destruct (Z.ltb_spec given 3).
  - rewrite orb_true_r. eexists [], l2. split; [done|lia].
  - rewrite orb_false_r. destruct properties; cbn [negb].
    + eexists _, l2. split; [done|]. intros _ _. apply queue_families_small.
    + by eexists [], l2.
Qed.

(** ** Devices *)

(** Freeing a table of the call: an address that was free before. *)
Lemma wp_free_table t o h (Q : unit -> icd -> Prop) s :
  (forall b, t = Some b -> h !! b = None) ->
  ic_heap s = match t with Some b => <[b := o]> h | None => h end ->
  (Q tt (s <| ic_heap := h |>)) -> wp (free_pointer t) Q s.
Proof.
  intros Hb Hs HQ. destruct t as [b|]; cbn.
  - eapply wp_free_object; [by rewrite Hs, lookup_insert_eq|]. replace (s <| ic_heap ::= delete b |>) with (s <| ic_heap := h |>); [done|].
    destruct s; cbn in *. subst. by rewrite delete_insert_id by auto.
  - apply wp_ret. by destruct s; cbn in *; subst.
Qed.

Definition with_table (t : option addr) (o : icd_object) (h : gmap positive icd_object) : gmap positive icd_object :=
  match t with Some b => <[b := o]> h | None => h end.

Lemma with_table_comm t o p x h : (forall b, t = Some b -> b <> p) -> <[p := x]> (with_table t o h) = with_table t o (<[p := x]> h).
Proof. intros Hb. destruct t as [b|]; [|done]. cbn. apply insert_insert_ne. naive_solver. Qed.

(** What is left to do when the table, the device and the counters are there. *)
Lemma create_device_tail t o d u x infos families h s :
  (forall b, t = Some b -> h !! b = None /\ b <> d /\ b <> u) -> h !! d = None -> h !! u = None -> d <> u ->
  ic_heap s = <[u := x]> (<[d := ODevice (mk_ldevice [] false 0)]> (with_table t o h)) ->
  NoDup infos.*1 -> Forall (fun i => 0 <= i.1 /\ 0 <= i.2) infos -> small_families families ->
  wp (queues ← create_queues infos 3 families [] (Some (replicate (Z.to_nat 3) 0));
      match queues with
      | None => free_pointer t;; free_pointer (Some u);; free_object d;; mret (VK_ERROR_INITIALIZATION_FAILED, None)
      | Some queues =>
          set_object d (ODevice (mk_ldevice queues false 0));;
          modify (fun s => s <| ic_active := Some d |>);;
          free_pointer t;; free_pointer (Some u);; mret (VK_SUCCESS, Some d)
      end) (fun r s' =>
    (r = (VK_ERROR_INITIALIZATION_FAILED, None) /\ ic_heap s' = h /\ ic_active s' = ic_active s) \/
    exists queues, r = (VK_SUCCESS, Some d) /\ key <$> queues = requested infos /\
      ic_heap s' = <[d := ODevice (mk_ldevice queues false 0)]> h /\ ic_active s' = Some d) s.
Proof.
  intros Ht Hd Hu Hdu Hs Hnd Hall Hsm. apply wp_bind. eapply wp_mono; [apply (create_queues_run infos _ _ Hsm [] []); try done|].
  { apply Forall_forall. intros [f c] Hin. cbn. destruct (Z_lt_le_dec f 3); [right|by left].
    eapply Forall_forall in Hall; [|exact Hin]. cbn in Hall. apply lookup_replicate_2. lia. }
  assert (forall q, <[u := x]> (<[d := q]> (with_table t o h)) = with_table t o (<[u := x]> (<[d := q]> h))) as Hcomm
    by (intros q; rewrite !with_table_comm by naive_solver; done).
  intros [queues|] s' [-> Hq].
  - apply wp_bind, wp_set, wp_bind, wp_modify, wp_bind.
    eapply (wp_free_table _ o (<[u := x]> (<[d := ODevice (mk_ldevice queues false 0)]> h))).
    + intros b (? & ? & ?)%Ht. by rewrite !lookup_insert_ne by done.
    + cbn. rewrite Hs, (insert_insert_ne _ u d), insert_insert_eq, <- (insert_insert_ne _ u d) by done. apply Hcomm.
    + apply wp_bind. eapply (wp_free_table (Some u) x); [intros b [= <-]; by rewrite lookup_insert_ne|done|].
      apply wp_ret. right. exists queues. auto.
  - apply wp_bind. eapply (wp_free_table _ o (<[u := x]> (<[d := ODevice (mk_ldevice [] false 0)]> h))).
    + intros b (? & ? & ?)%Ht. by rewrite !lookup_insert_ne by done.
    + rewrite Hs. apply Hcomm.
    + apply wp_bind. eapply (wp_free_table (Some u) x); [intros b [= <-]; by rewrite lookup_insert_ne|done|].
      apply wp_bind. eapply wp_free_object; [cbn; apply lookup_insert_eq|]. apply wp_ret. left. cbn. by rewrite delete_insert_id.
Qed.

Lemma with_table_none t o h d : with_table t o h !! d = None -> h !! d = None /\ forall b, t = Some b -> b <> d.
Proof.
  destruct t as [b|]; cbn; [|done]. rewrite lookup_insert_None. intros [? ?]. split; [done|]. by intros b' [= <-].
Qed.

(** A device that was made with [infos] from the heap [h], or none. *)
Definition device_made (infos : list (Z * Z)) (h : gmap positive icd_object) (act : option addr)
  (r : VkResult * option addr) (s' : icd) : Prop :=
  (exists e, r = (e, None) /\ e <> VK_SUCCESS /\ ic_heap s' = h /\ ic_active s' = act) \/
  exists d queues, r = (VK_SUCCESS, Some d) /\ h !! d = None /\ key <$> queues = requested infos /\
    ic_heap s' = <[d := ODevice (mk_ldevice queues false 0)]> h /\ ic_active s' = Some d.

Lemma make_device_run infos t o families h act s :
  NoDup infos.*1 -> Forall (fun i => 0 <= i.1 /\ 0 <= i.2) infos -> small_families families ->
  (forall b, t = Some b -> h !! b = None) -> ic_heap s = with_table t o h -> icd_alloc (S (ic_allocs s)) = true ->
  ic_active s = act -> wp (make_device infos 3 t families) (device_made infos h act) s.
Proof.
  intros Hnd Hall Hsm Ht Hs Ha <-. apply wp_bind, wp_new.
  2:{ intros _. apply wp_bind. eapply (wp_free_table t o h); [done|done|]. apply wp_ret. left. eauto. }
  intros d Hd. rewrite Hs in Hd. apply with_table_none in Hd as [Hd Htd]. apply wp_bind, wp_new; [|cbn; congruence].
  intros u Hu. cbn in Hu. rewrite Hs in Hu. apply lookup_insert_None in Hu as [[Hu Htu]%with_table_none Hdu].
  eapply wp_mono; [eapply (create_device_tail t o d u (OBlock (3 * 4)) infos families h); try done; [naive_solver|cbn; by rewrite Hs]|].
  intros r s' [(-> & ? & ?)|(queues & -> & ? & ? & ?)]; [left; eauto|right]. eauto 10.
Qed.

Lemma create_device_run infos s :
  NoDup infos.*1 -> Forall (fun i => 0 <= i.1 /\ 0 <= i.2) infos -> icd_alloc (ic_allocs s + 2)%nat = true ->
  wp (mvgal_vkCreateDevice true (Some infos) true) (device_made infos (ic_heap s) (ic_active s)) s.
Proof.
  intros Hnd Hall Ha. cbn [mvgal_vkCreateDevice negb]. apply wp_bind, wp_lib.
  destruct (families_return 0 false (ic_lib s)) as (fs0 & l0 & E0 & _). exists (Some 3, fs0), l0. split; [done|].
  cbn [fst default]. apply wp_bind. rewrite Nat.add_comm in Ha. cbn in Ha. apply wp_new.
  - intros b Hb. apply wp_bind, wp_bind, wp_lib.
    destruct (families_return 3 true l0) as (fs1 & l1 & E1 & Hsm). eexists _, l1. split; [exact E1|].
    apply wp_ret. apply (make_device_run infos (Some b) (OBlock (3 * 24))); try done; [by apply Hsm|naive_solver].
  - intros _. apply wp_bind, wp_ret. by apply (make_device_run infos None (OBlock 0)).
Qed.

Lemma create_device_meets infos s :
  driver_ok (ic_heap s) -> usable (view (ic_heap s)) (ic_active s) (CCreateDevice infos) ->
  memory_for (ic_allocs s) (CCreateDevice infos) -> wp (run_call (CCreateDevice infos)) (meets (CCreateDevice infos) s) s.
Proof.
  intros Hok [Hnd Hall] Ha. cbn. apply wp_bind. eapply wp_mono; [by apply create_device_run|].
  intros r s' [(e & -> & He & Hh & Hact)|(d & queues & -> & Hd & Hq & Hh & Hact)]; apply wp_ret; unfold meets; cbn; rewrite Hh.
  - split; [done|]. split; [done|]. left. eauto.
  - split; [by apply new_object_ok|]. split; [done|]. right. exists d, queues. split; [done|]. split; [by apply none_view|].
    split; [done|]. split; [by apply view_insert|done].
Qed.

Lemma device_found h p dev : view h !! p = Some (ODevice dev) -> h !! p = Some (ODevice dev).
Proof. intros (o & E & Hv)%view_some. destruct o; try done. by injection Hv as ->. Qed.

Lemma destroy_device_meets d s :
  driver_ok (ic_heap s) -> usable (view (ic_heap s)) (ic_active s) (CDestroyDevice d) ->
  wp (run_call (CDestroyDevice d)) (meets (CDestroyDevice d) s) s.
Proof.
  intros Hok Hd. cbn. apply wp_bind. destruct d as [p|]; [|by apply wp_ret, wp_ret].
  destruct (Hd p eq_refl) as [dev E%device_found]. cbn. apply wp_bind, (wp_as_device _ _ _ _ E).
  pose proof (map_Forall_lookup_1 _ _ _ _ (proj2 Hok) E) as Hg. cbn in Hg. rewrite Hg.
  apply (wp_free_object _ _ _ _ E), wp_ret. split; [by apply (free_object_ok _ _ _ E)|]. split; [done|]. split; [done|apply view_delete].
Qed.

Lemma find_queue_spec queues family index i :
  match find_queue i family index queues with
  | None => (family, index) ∉ key <$> queues
  | Some j => i < j /\ (key <$> queues) !! Z.to_nat (j - i - 1) = Some (family, index)
  end.
Proof.
  revert i. induction queues as [|q queues IH]; intros i; [apply not_elem_of_nil|]. cbn.
  destruct ((vq_familyIndex q =? family) && (vq_queueIndex q =? index)) eqn:E.
  - apply andb_true_iff in E as [<-%Z.eqb_eq <-%Z.eqb_eq]. split; [lia|]. by replace (Z.to_nat (i + 1 - i - 1)) with 0%nat by lia.
  - assert (key q <> (family, index)) as Hq by (intros [= <- <-]; rewrite !Z.eqb_refl in E; done).
    specialize (IH (i + 1)). destruct (find_queue (i + 1) family index queues) as [j|].
    + destruct IH as [Hj E']. split; [lia|]. by replace (Z.to_nat (j - i - 1)) with (S (Z.to_nat (j - (i + 1) - 1))) by lia.
    + by apply not_elem_of_cons.
Qed.

Lemma get_queue_meets d family index s :
  driver_ok (ic_heap s) -> usable (view (ic_heap s)) (ic_active s) (CGetQueue d family index) ->
  wp (run_call (CGetQueue d family index)) (meets (CGetQueue d family index) s) s.
Proof.
  intros Hok Hd. cbn. apply wp_bind. destruct d as [p|]; cbn; [|apply wp_ret, wp_ret; do 3 (split; [done|]); by exists None].
  destruct (Hd p eq_refl) as [dev E]. pose proof (device_found _ _ _ E) as E'. apply wp_bind, (wp_as_device _ _ _ _ E').
  pose proof (map_Forall_lookup_1 _ _ _ _ (proj2 Hok) E') as Hg. cbn in Hg. rewrite Hg. apply wp_ret, wp_ret.
  split; [done|]. split; [done|]. split; [done|]. eexists. split; [done|]. exists dev. split; [done|].
  pose proof (find_queue_spec (vd_queues dev) family index 0) as Hfind.
  destruct (find_queue 0 family index (vd_queues dev)) as [j|]; [|done]. destruct Hfind as [Hj Hk]. split; [done|].
  by replace (j - 1) with (j - 0 - 1) by lia.
Qed.
End Devices.

(** ** Runs *)

Section Runs.
Context `{IcdEnv, GpuOS, SchedEnv, MemEnv, ConfigEnv}.
Implicit Types s : icd.

Lemma call_meets c s :
  driver_ok (ic_heap s) -> usable (view (ic_heap s)) (ic_active s) c -> memory_for (ic_allocs s) c ->
  wp (run_call c) (meets c s) s.
Proof.
  intros Hok Hu Hm. destruct c; cbn in Hu.
  - by apply allocate_memory_meets.
  - by apply free_memory_meets.
  - apply map_memory_meets; tauto.
  - by apply unmap_memory_meets.
  - by apply commitment_meets.
  - by apply create_pool_meets.
  - by apply destroy_pool_meets.
  - by apply reset_pool_meets.
  - by apply allocate_buffers_meets.
  - by apply free_buffers_meets.
  - by apply begin_meets.
  - by apply end_meets.
  - by apply reset_meets.
  - apply submit_meets; tauto.
  - by apply create_fence_meets.
  - by apply destroy_fence_meets.
  - by apply wait_fences_meets.
  - by apply reset_fences_meets.
  - by apply fence_status_meets.
  - by apply create_semaphore_meets.
  - by apply destroy_semaphore_meets.
  - by apply create_event_meets.
  - by apply destroy_event_meets.
  - by apply event_status_meets.
  - by apply set_event_meets.
  - by apply reset_event_meets.
  - by apply create_device_meets.
  - by apply destroy_device_meets.
  - by apply get_queue_meets.
Qed.

(** A run of the driver: the calls of an application and their replies. *)
Inductive icd_run (s0 : icd) : list (vk_call * vk_reply) -> icd -> Prop :=
| run_start : icd_run s0 [] s0
| run_next tr s c r s' :
    icd_run s0 tr s -> usable (view (ic_heap s)) (ic_active s) c -> memory_for (ic_allocs s) c ->
    run_call c s = Ret (r, s') -> icd_run s0 (tr ++ [(c, r)]) s'.

(** The same calls and replies on the objects alone. *)
Inductive spec_run (act0 : option addr) : list (vk_call * vk_reply) -> objects -> option addr -> Prop :=
| spec_start : spec_run act0 [] ∅ act0
| spec_next tr v act c r v' act' :
    spec_run act0 tr v act -> vk_spec v act c r v' act' -> spec_run act0 (tr ++ [(c, r)]) v' act'.

Lemma empty_ok : driver_ok ∅.
Proof.
  split; [|apply map_Forall_empty]. unfold heap_ok. assert (skeletons ∅ = ∅) as -> by apply omap_empty.
  split; split; intros *; rewrite lookup_empty; done.
Qed.

(** What a call that returned did. *)
Lemma call_returned c s r s' :
  driver_ok (ic_heap s) -> usable (view (ic_heap s)) (ic_active s) c -> memory_for (ic_allocs s) c ->
  run_call c s = Ret (r, s') -> meets c s r s'.
Proof. intros Hok Hu Hm E. pose proof (call_meets c s Hok Hu Hm) as Hw. unfold wp in Hw. by rewrite E in Hw. Qed.

Lemma run_ok s0 tr s : ic_heap s0 = ∅ -> icd_run s0 tr s -> driver_ok (ic_heap s).
Proof.
  intros H00. induction 1 as [|tr s c r s' _ IH Hu Hm E]; [rewrite H00; exact empty_ok|]. exact (proj1 (call_returned _ _ _ _ IH Hu Hm E)).
Qed.

(** C7. The Vulkan driver keeps its objects.  In every run of calls that an
    application may make, from an empty heap, each call returns (no pointer to a
    freed or a wrong object is followed, no walk over a list is endless), its
    reply and its effect are those of a specification on the objects alone, in
    which command pools have no lists and memory has no blocks, and when the
    application has destroyed its objects the driver has nothing left on the
    heap.  Allocations may fail, except for those of several command buffers at
    once and for the counters of a new device.  An application may use null
    handles and handles of live objects of any kind, frees a buffer through its
    own pool, names each queue family once, and submits work only while the
    device that was created last exists. *)
Theorem driver_objects s0 tr s :
  ic_heap s0 = ∅ -> icd_run s0 tr s ->
  spec_run (ic_active s0) tr (view (ic_heap s)) (ic_active s) /\
  (forall c, usable (view (ic_heap s)) (ic_active s) c -> memory_for (ic_allocs s) c ->
    exists r s', run_call c s = Ret (r, s')) /\
  (view (ic_heap s) = ∅ -> ic_heap s = ∅).
Proof.
  intros H00 Hrun. pose proof (run_ok _ _ _ H00 Hrun) as Hok. split; [|split].
  - clear Hok. induction Hrun as [|tr s c r s' Hrun IH Hu Hm E].
    { rewrite H00. assert (view ∅ = ∅) as -> by apply omap_empty. constructor. }
    eapply spec_next; [exact IH|]. exact (proj2 (call_returned _ _ _ _ (run_ok _ _ _ H00 Hrun) Hu Hm E)).
  - intros c Hu Hm. destruct (wp_elim _ _ _ (call_meets c s Hok Hu Hm)) as (r & s' & E & _). eauto.
  - apply nothing_left, Hok.
Qed.
End Runs.
