(* ===== verification/VkRuns.v ===== *)
(** * Runs of the Vulkan driver

    An application on a host with two cards, from its device to the last object
    it destroys, and two failures that the theorem on runs leaves out. *)

From S2P Require Import Prelude GpuTypes GpuManager GpuHealth SchedTypes MemTypes Config Library Api SchedSelect Strategies SfrTiling Scheduler Dispatch SchedInvariant Placement.
From S2P Require Import LibraryRuns VkIcd VkHeap VkLists VkSpec VkObjects VkPools VkDriver.
Local Open Scope Z_scope.

Module Application.
#[local] Existing Instance TwoCards.os.
#[local] Existing Instance plenty.
#[local] Existing Instance Desktop.calls_succeed.
#[local] Existing Instance Desktop.disk.

#[local] Instance heap_succeeds : IcdEnv := {| icd_alloc _ := true |}.

Definition start : icd := mk_icd ∅ None 0 false Desktop.started_lib.

(** The state after a call, and the run of a list of calls. *)
Definition next (c : vk_call) (s : icd) : icd := match run_call c s with Ret (_, s') => s' | _ => s end.
Definition reply (c : vk_call) (s : icd) : vk_reply := match run_call c s with Ret (r, _) => r | _ => RDone end.

Fixpoint trace (cs : list vk_call) (s : icd) : list (vk_call * vk_reply) :=
  match cs with [] => [] | c :: cs' => (c, reply c s) :: trace cs' (next c s) end.

Definition last_state (cs : list vk_call) (s : icd) : icd := foldl (fun s c => next c s) s cs.

Fixpoint allowed (cs : list vk_call) (s : icd) : Prop :=
  match cs with
  | [] => True
  | c :: cs' => usable (view (ic_heap s)) (ic_active s) c /\ memory_for (ic_allocs s) c /\
      run_call c s = Ret (reply c s, next c s) /\ allowed cs' (next c s)
  end.

Lemma allowed_runs s0 cs tr s : icd_run s0 tr s -> allowed cs s -> icd_run s0 (tr ++ trace cs s) (last_state cs s).
Proof.
  revert tr s. induction cs as [|c cs IH]; intros tr s Hr Ha; [by rewrite app_nil_r|].
  destruct Ha as (Hu & Hm & E & Ha). cbn. rewrite cons_middle, app_assoc. apply IH; [|done]. by eapply run_next.
Qed.

(** A device with three queues; two command buffers, of which one is recorded
    and submitted; memory that is mapped; and everything is given back. *)
Definition session : list vk_call :=
  [CCreateDevice [(0, 2); (2, 1)]; CGetQueue (Some 2%positive) 2 0; CCreatePool 0 0;
   CAllocateBuffers (Some 3%positive) 0 2; CCreateFence 0; CBegin (Some 4%positive); CEnd (Some 4%positive);
   CSubmit (Some 8%positive); CFenceStatus (Some 8%positive); CAllocateMemory 4096 0;
   CMapMemory (Some 9%positive) 1024 VK_WHOLE_SIZE; CFreeBuffers (Some 3%positive) [Some 6%positive; None];
   CFreeMemory (Some 9%positive); CDestroyPool (Some 3%positive); CDestroyFence (Some 8%positive);
   CDestroyDevice (Some 2%positive)].

Ltac live_handle := eexists; split; [vm_compute; reflexivity|eexists; reflexivity].
Ltac returns := vm_compute; reflexivity.

Lemma session_allowed : allowed session start.
Proof.
  cbn [allowed session].
  split; [split; [by apply (bool_decide_unpack _)|repeat constructor; cbn; lia]|]. split; [done|]. split; [returns|].
  split; [intros p [= <-]; eexists; returns|]. split; [done|]. split; [returns|].
  split; [done|]. split; [done|]. split; [returns|].
  split; [live_handle|]. split; [by right|]. split; [returns|].
  split; [done|]. split; [done|]. split; [returns|].
  do 2 (split; [live_handle|]; split; [done|]; split; [returns|]).
  split; [split; [live_handle|intros d E; vm_compute in E; injection E as <-; eexists; returns]|]. split; [done|]. split; [returns|].
  split; [live_handle|]. split; [done|]. split; [returns|].
  split; [by split|]. split; [done|]. split; [returns|].
  split; [split; [live_handle|done]|]. split; [done|]. split; [returns|].
  split; [|split; [done|]; split; [returns|]].
  { split; [live_handle|]. split; [apply NoDup_singleton|]. intros b Hb. apply elem_of_cons in Hb as [->|Hb].
    - split; [live_handle|]. intros cb c Hcb E. injection Hcb as Hcb. subst cb.
      assert (Some (OBuffer c) = Some (OBuffer (mk_cmdbuf 0 MVGAL_CMDBUF_INITIAL 3%positive))) as Ec by (rewrite <- E; returns).
      injection Ec as Ec. by subst c.
    - apply list_elem_of_singleton in Hb as ->. split; [exact I|]. intros cb c Hcb. discriminate Hcb. }
  do 3 (split; [live_handle|]; split; [done|]; split; [returns|]).
  split; [intros p [= <-]; eexists; returns|]. split; [done|]. split; [returns|done].
Qed.

Lemma driver_objects_witness :
  (trace session start).*2 =
    [RHandle VK_SUCCESS (Some 2%positive); RQueue (Some 3); RHandle VK_SUCCESS (Some 3%positive);
     RHandles VK_SUCCESS [4%positive; 6%positive]; RHandle VK_SUCCESS (Some 8%positive); RResult VK_SUCCESS;
     RResult VK_SUCCESS; RResult VK_SUCCESS; RResult VK_SUCCESS; RHandle VK_SUCCESS (Some 9%positive);
     RPointer VK_SUCCESS (Some (Some 10%positive, 1024)); RDone; RDone; RDone; RDone; RDone] /\
  ic_heap (last_state session start) = ∅.
Proof.
  split; [vm_compute; reflexivity|].
  apply (driver_objects start (trace session start) (last_state session start)); [reflexivity| |vm_compute; reflexivity].
  exact (allowed_runs start session [] start (run_start start) session_allowed).
Defined.

(** ** Failures *)

(** The fault that a list of calls ends in. *)
Fixpoint fault_of (cs : list vk_call) (s : icd) : option fault :=
  match cs with
  | [] => None
  | c :: cs' => match run_call c s with Ret (_, s') => fault_of cs' s' | Fault e => Some e | NoFuel => None end
  end.

(** The device of the last [mvgal_vkCreateDevice] is destroyed; work submitted to
    another device is then counted in freed memory. *)
Lemma submit_after_destroy :
  fault_of [CCreateDevice [(0, 1)]; CCreateDevice [(0, 1)]; CDestroyDevice (Some 3%positive); CSubmit None] start = Some UseAfterFree.
Proof. vm_compute. reflexivity. Qed.
End Application.

(** There is no memory for the second of two buffers: the first is freed, but its
    node stays in the list of the pool. *)
Module ShortOfMemory.
#[local] Existing Instance TwoCards.os.
#[local] Existing Instance plenty.
#[local] Existing Instance Desktop.calls_succeed.
#[local] Existing Instance Desktop.disk.
#[local] Instance heap_fails : IcdEnv := {| icd_alloc n := negb (Nat.eqb n 3) |}.

Lemma failed_buffers_dangle :
  exists s, run_call (CCreatePool 0 0) Application.start = Ret (RHandle VK_SUCCESS (Some 1%positive), s) /\
  exists s', run_call (CAllocateBuffers (Some 1%positive) 0 2) s = Ret (RHandles VK_ERROR_OUT_OF_HOST_MEMORY [], s') /\
  run_call (CResetPool (Some 1%positive)) s' = Fault UseAfterFree.
Proof. eexists. split; [vm_compute; reflexivity|]. eexists. split; vm_compute; reflexivity. Qed.
End ShortOfMemory.
